(* ===== verification/_CoqProject ===== *)
-Q . S2P
Prelude.v
Integer.v
Buffer.v
PacketId.v
PacketIdSpec.v
Reliable.v
ControlChannel.v
ReliableSpec.v
ControlChannelSpec.v
Fragment.v
FragmentSpec.v
Pool.v
PoolSpec.v
Hash.v
HashSpec.v
Mroute.v
MrouteSpec.v
Multi.v
MultiSpec.v
Otime.v
OtimeSpec.v
Schedule.v
ScheduleSpec.v
Proto.v
ProtoSpec.v
Mtu.v
Stream.v
StreamSpec.v
Crypto.v
CryptoSpec.v
Mbuf.v
MbufSpec.v
TlsWrap.v
TlsWrapSpec.v
Base64.v
Text.v
LinkAddr.v
SslCommon.v
Auth.v
KeyExchange.v
CryptoParams.v
KeyExchangeSpec.v
TlsSession.v
TlsProcess.v
TlsProcessSpec.v
TlsInvariant.v
TlsDemo.v
AuthSpec.v
TlsSafety.v
Comp.v
CompSpec.v
Dhcp.v
DhcpSpec.v
Forward.v
ForwardSpec.v
Pf.v
PfSpec.v
Server.v
ServerSpec.v
Udp.v
ServerInvariant.v
ServerEvents.v
SwitchSpec.v
