(* ===== verification/Prelude.v ===== *)
(** * A verification of the packet paths of OpenVPN, as vendored in this repository

    The repository is an Android VPN client: a Java application around two C
    programs, OpenVPN (under src/openvpn/src/main/cpp/openvpn/src/openvpn, called
    [openvpn/] below) and strongSwan (src/strongswan).  This development models the
    parts of OpenVPN that carry the reliability and the safety of its packet
    handling, and proves the properties they are there for.  Every definition is a
    translation of the C function of the same name, executable in the kernel; the
    theorems about it are in the file of the same name with [Spec] appended.

    ** The program's parts and the files that model them

    - [Prelude.v] (this file): outcomes of C code (a value, a failed assertion or fatal
      error, an access outside an object), machine integers, byte memory, and the
      automation and lemmas the other files share.
    - [Integer.v]: the helpers of integer.h and the circular list of circ_list.h.
    - [Buffer.v]: struct buffer of buffer.h and buffer.c, the window into an object
      that every packet lives in.  [conc pre c post], the buffer with given headroom,
      content and tailroom, is the abstract view the other files are proved against.
    - [PacketId.v], [PacketIdSpec.v]: packet_id.c, packet_id.h and crypto_check_replay of
      crypto.c: the packet numbers of the sender, the sliding window of the receiver
      with its expiry, the wire format and the state kept across restarts.  The state
      is [packet_id_rec], [packet_id_send] and [crypto_options].
    - [Reliable.v], [ReliableSpec.v]: reliable.c and reliable.h, the reliability layer of
      the control channel: acknowledgement records and the arrays of packets.
    - [ControlChannel.v], [ControlChannelSpec.v]: the parts of tls_process and
      tls_pre_decrypt (ssl.c) that move packets between the TLS engine, the reliability
      layer and the network.  The TLS engine's reads and writes (BIO_read, BIO_write)
      are events with arbitrary answers.  The second file composes two peers and a
      network that loses, repeats and reorders packets into a step relation.
    - [Fragment.v], [FragmentSpec.v]: fragment.c and fragment.h, cutting of datagrams and
      their reassembly.
    - [Pool.v], [PoolSpec.v]: pool.c, the addresses a server hands to its clients, and
      add_in6_addr of socket.c.
    - [Hash.v], [HashSpec.v]: list.c and list.h, the hash tables of the server, over the
      interface [HashOps]/[HashLaws] that their callers' key functions meet.
    - [Mroute.v], [MrouteSpec.v]: mroute.c and mroute.h, the addresses that are the keys of
      the server's tables (an instance of that interface), their extraction from packets,
      and the prefix lengths in use.
    - [Multi.v], [MultiSpec.v]: multi.c and multi.h, the server's client instances with
      their reference counts and the table of their routes: learning, lookup, the sweeps
      over the table (multi_reap_range, check_stale_routes), the announced networks
      (multi_add_iroute and the others of its kind) and the closing of instances.
    - [Otime.v], [OtimeSpec.v]: otime.c, otime.h, interval.c and interval.h, the process's
      clock, arithmetic on struct timeval, and event timers.
    - [Schedule.v], [ScheduleSpec.v]: schedule.c and schedule.h, the treap that orders the
      server's clients by the time they are to be woken, over a heap of linked nodes.
    - [Proto.v], [ProtoSpec.v]: proto.c, proto.h, mss.c, clinat.c and
      ipv6_send_icmp_unreachable of forward.c: MSS clamping, client NAT, checksums.
    - [Mtu.v]: mtu.c, mtu.h and the frame set-up of init.c: the sizes of packets and the
      room that buffers keep around them.
    - [Stream.v], [StreamSpec.v]: the framing of packets in a TCP stream (stream_buf_*,
      link_socket_read_tcp, link_socket_write_tcp of socket.c; is_openvpn_protocol of
      ps.c).  What a call to recv returns is an event with arbitrary data.
    - [Crypto.v], [CryptoSpec.v]: openvpn_encrypt and openvpn_decrypt of crypto.c in all
      their modes.  The cipher and the HMAC are parameters ([cipher_ctx], [hmac_ctx]); the
      classes [CipherPair], [DecryptSafe] and [HmacOk] state what the code relies on.
    - [TlsWrap.v], [TlsWrapSpec.v]: tls_crypt.c and the control channel authentication of
      ssl.c (write_control_auth, read_control_auth, tls_pre_decrypt_lite): the wrapping of
      control packets with --tls-auth, --tls-crypt and --tls-crypt-v2.  The cipher and the
      digest of a key and the metadata script are parameters; the classes [CtrPair] and
      [CtrSafe] state what is expected of the cipher.
    - [Mbuf.v], [MbufSpec.v]: mbuf.c, mbuf.h and its callers in multi.c: the server's queue
      of shared, counted packets.
    - [Base64.v]: base64.c, encoder and decoder, with its theorems.
    - [Text.v]: the text helpers of buffer.c and buffer.h the handshake uses (string_class,
      string_mod, buf_parse, strings with their length on the wire).
    - [LinkAddr.v]: the addresses of the link (socket.h, socket.c): comparison, and what
      incoming packets make of the address packets are sent to.
    - [SslCommon.v]: the structures of ssl_common.h: [key_state], [tls_session], [tls_multi],
      [tls_options], with a session's two keys and the three sessions as fields.
    - [Auth.v], [AuthSpec.v]: the user name, password and token checks of ssl_verify.c, the
      locked names and certificates, and the verification ended by them.
    - [KeyExchange.v], [KeyExchangeSpec.v]: the key exchange of ssl.c (key_method_1_* and
      key_method_2_*, the pseudo random function, key expansion); [CryptoParams.v]: the
      cipher agreed on in the session and the packet sizes that follow from it.
    - [TlsSession.v]: the life of sessions and keys in ssl.c: key_state_init,
      tls_session_init, soft and hard resets, the choice of the key for outgoing and incoming
      data packets, and the routing of control packets (tls_pre_decrypt).
    - [TlsProcess.v]: tls_process and tls_multi_process, the state machine of the handshake.
      The TLS engine's answers, the clock and the random numbers are inputs of each round.
      [TlsProcessSpec.v] has the measure its loop decreases; [TlsInvariant.v] the reachable
      states ([tls_reachable], all operations in any order with any inputs) and their
      invariant; [TlsDemo.v] runs a whole handshake and the witnesses it gives;
      [TlsSafety.v] the theorems about the TLS layer.
    - [Comp.v], [CompSpec.v]: comp.c, compstub.c, lzo.c and comp-lz4.c: the framing of
      compressed packets in both versions and the adaptive switch of LZO.  The libraries
      are a parameter ([comp_lib]).
    - [Dhcp.v], [DhcpSpec.v]: dhcp.c: the router option taken out of a DHCP answer.
    - [Forward.v], [ForwardSpec.v]: the data channel of forward.c, with ping.c and occ.c:
      encrypt_sign, process_incoming_tun and process_outgoing_link on the way out,
      process_incoming_link_part1 and _part2 and process_outgoing_tun on the way in.  The
      second file composes two contexts into a tunnel.
    - [Pf.v], [PfSpec.v]: pf.c and pf.h, the packet filters of clients: the parser of their
      files, the table of names, the tests, loading and reloading.
    - [Server.v], [ServerSpec.v]: the server as a switch (multi.c): what becomes of a packet
      from a client (multi_process_incoming_link behind the decryption), from the device
      (multi_process_incoming_tun) and from the queue (multi_get_queue), broadcasts, and the
      opening and closing of instances.  The state [server] is struct multi_context: the routes
      of [Multi], the queue of [Mbuf], the tables by real address, the array of peer ids, and
      for every client a [client] with its context ([Forward]) and filter ([Pf]).
    - [Udp.v]: how clients are found and opened (multi_get_create_instance_udp of mudp.c,
      multi_create_instance_tcp of mtcp.c) and how they move (multi_process_float), and
      multi_process_incoming_link from the socket to the switch.  [ServerInvariant.v] has
      the invariant of the server and what the operations of both files do under it,
      [ServerEvents.v] the step relation of all events with the reachable states, and
      [SwitchSpec.v] the theorems.

    The components interact as in the code: packets are read and written through
    [Buffer], in buffers whose room [Mtu] computes ([Stream], [Crypto], [Fragment]);
    the control channel drives [Reliable]; [Crypto] numbers its packets and checks them
    with [PacketId], and [TlsWrap] uses both for control packets, with the
    acknowledgements of [Reliable] in them; [TlsProcess] drives the control channel, the
    key exchange, [Auth] and the wrapping for each key, and sets up the keys of [Crypto];
    [Mroute] provides the keys of [Hash], and both carry [Multi];
    [Schedule] and [Proto] use the times of [Otime] and the buffers of [Buffer];
    [Forward] runs a packet through [Proto], [Dhcp], [Comp], [Fragment], [TlsSession],
    [Crypto] and [LinkAddr] in the order forward.c does; [Server] and [Udp] bring the
    contexts of many clients together with [Multi], [Mbuf], [Hash] and [Pf].

    ** What the theorems show

    - Replay protection: the sliding window gives, with every expiry, the verdicts of a
      monitor that remembers every accepted packet and its time; no packet number is accepted
      twice, in any mode, with any expiry; in-order traffic is never rejected; the numbers a
      sender writes increase strictly, and it fails exactly where it would repeat one;
      numbers survive the wire.  One theorem shows that the persisted state does not
      protect a restarted session as its description says.
    - Control channel: what one peer delivers to TLS is a prefix of what the other
      queued, whatever the network does; nothing is forgotten before it has arrived; no
      event makes the process fail; everything queued by a peer that does not hold its
      transmissions can still be delivered, in both directions at once.
      The acknowledgement format round-trips, the retransmission timer is exact, and
      packet numbers compare correctly across the wrap, with one exception that is
      stated.
    - Fragmentation: any arrival order with any repetitions rebuilds the datagram; any
      bytes whatever are handled without failure; the fragment size keeps the number
      of fragments.  One theorem shows which malformed packets pass the check.
    - Address pool: no two clients hold the same IPv4 or IPv6 address; the allocation
      policy; handles and addresses correspond; IPv6 addition is 128-bit addition.
    - Hash tables refine a finite map along every sequence of operations, with
      iteration and deferred deletion.
    - Routing addresses: netmasks convert exactly; packets yield exactly the
      addresses of their headers.
    - Server routes: along every sequence of operations no route points to a freed
      instance and the reference counts are exact; a lookup answers with the route
      of the longest matching prefix.
    - Time: the clock never runs backwards; timers fire when they are due, with the
      return value the code gives.  The schedule is a priority queue.
    - Packet rewriting: MSS clamping only lowers the MSS and keeps checksums (where the
      option is aligned, which is shown to be needed); NAT keeps the IP, TCP and UDP
      checksums of packets without IP options (with options it is shown to change other
      bytes, and a UDP checksum that is not there to become a wrong one); ICMPv6 messages are
      well formed.
    - TCP framing: for every split of the stream into reads the packets delivered are
      those of a reference parser; the reader never fails; written packets arrive.
    - Data packets: what openvpn_encrypt produces openvpn_decrypt returns, in every mode;
      any received bytes are handled without failure, and accepted only with a valid
      authentication and a fresh packet number.
    - Control packets: what one side wraps the other unwraps, in every mode; any
      received bytes are handled without failure, with one exception that is proved to
      end the server; the check of a client's first packet admits only what verifies.
    - The packet queue refines a bounded first-in-first-out queue that drops its oldest
      entry, and frees each packet exactly when nothing refers to it any more.  The
      assertion that can fail is shown on an example.
    - TLS sessions: in every reachable state the tables are well formed; data packets are
      encrypted and decrypted only under keys that are set up and authenticated and that
      the packet names; the assertions of ssl.c on key states hold in every turn of
      tls_multi_process, those of a renegotiation included; the loop of tls_process
      ends.  Key method 1 is shown to carry no data at all.
    - Key exchange: both ends derive the same keys and use them in opposite directions,
      also where an end makes its keys only after the cipher is agreed on;
      the pseudo random function is that of RFC 2246; a key is authenticated only when all
      the checks asked for succeed; a negotiated cipher never needs more room than was
      reserved.
    - Base 64 round-trips and stays within the room it is given.
    - Compression: what one side compresses the other recovers, in every mode, but for
      the uncompressed packets that begin with the marker of the second version, which
      are shown to be lost.
    - DHCP answers: the router options are taken out, all the others stay, the checksum is
      right again, and malformed answers do no harm.
    - The tunnel: any number of packets read from the device at one end are written to
      the device at the other end, in order and byte for byte, through the checks of their
      IP headers (recursive routing, --mssfix, --passtos, for packets that these leave
      alone), compression, the choice of the key, encryption, the link's address check and the
      replay check.  Without --fragment and --client-nat.
    - Packet filters: a file means the rules that are written in it.
    - The server: in every reachable state, whatever clients connect, send, move and
      go: packets with a source address that is not the client's are dropped; all others
      go where the routes and the filters say (as long as the queue is not full of
      entries of closed clients); every datagram finds its client, unless it is
      of none and its check as a first packet fails an assertion, and there is a peer id for
      every new one; no two clients have the same address; a client that is closed is named
      nowhere any more.  Four runs show where the code does not do what
      it means to: a client that is not authenticated yet can be moved to any address, a
      refused client takes the peer id 0 from another, compression overwrites packets that
      several clients share, and a TCP client never takes the place of an older one.

    ** Bounds and fuel

    Loops that are not structural take fuel, and running out of it is [Oob] or [Fatal],
    so a theorem that concludes [Ret] shows that the fuel is enough: 65 rounds of
    doubling in [adjust_power_of_2] (64-bit values), one round for each number the
    receive window advances over in [packet_id_add], the buckets left in
    [hash_iterator_search], the elements of the table in [hash_remove_by_value] and in
    the sweeps of [Multi], the key length in [hash_func], 17 rounds for the 16 bytes of
    an IPv6 address, the number of prefix lengths in [cidr_loop], the number of nodes in
    the loops over the treap, 2148 rounds of a million microseconds in [tv_delta] (a
    32-bit difference), 3 rounds in [checksum_fold], the length of the options in
    [mss_loop], the length of the queue in the loops of [Mbuf], one round more than the
    blocks of output in [P_hash_loop], a round for every byte of the options in the loops
    of [Dhcp] and as many again for the copies, the elements of the table in [multi_bcast].
    [tls_process] takes 25 rounds, and a theorem shows
    that it never needs more: a round goes on only if the state of the key advanced or one
    of the three buffers between key and TLS engine was filled or emptied.  The retries of
    schedule_add_modify with new random priorities end when the random numbers
    eventually avoid the values in use, which is a hypothesis on the generator.

    Machine integers are [Z] with the wrap-around written out ([u8], [u16], [u32], [i32],
    [+u], [-u]); [time_t] is 64 bits wide and not wrapped.  Bytes are [Z] below 256.
    [Proto] and [Hash] read words in the byte order of a little-endian host, which the
    Android targets are.

    ** What is not modelled

    The TLS engine (its reads and writes are inputs), the verification of certificates
    (its verdict is an input), authentication by plugins and by the management interface,
    deferred authentication, configuration parsing, the exchange of options (push.c), tunnel
    devices, host routes, the management interface and plugins, the set-up of a server and of
    the contexts of its clients, and the event loops; these are system calls, library calls or
    text handling for the largest part.  Of the sockets only the TCP framing and the
    addresses of the link are modelled.  Ciphers and digests (OpenSSL, mbed TLS) and the
    compression libraries (LZO, LZ4) are parameters.  Of closing a client the state of the
    server is modelled that its packets go through; its entries in the schedule, in the address
    pool and in the tables of the management interface are not part of it (schedule and pool
    have models of their own).  The end-to-end theorem is about packets
    that no option rewrites or cuts on the way; those stages have theorems of their own.
    Logging is dropped throughout.  strongSwan, the third-party libraries and the Java
    application are not modelled. *)
From stdpp Require Export prelude list_numbers.

Declare Scope vpn_scope.
Delimit Scope vpn_scope with vpn.
#[global] Open Scope Z_scope.

(** ** Outcomes of C code *)

(** The three ways a piece of the modelled C code ends: a value, a failed
    [ASSERT] or [msg (M_FATAL, ...)] (both terminate the process), or an access
    outside the object a pointer points into (undefined behaviour). *)
Inductive outcome (A : Type) : Type :=
| Ret (a : A)
| Fatal
| Oob.
Arguments Ret {A} a.
Arguments Fatal {A}.
Arguments Oob {A}.

#[global] Instance outcome_mret : MRet outcome := @Ret.
#[global] Instance outcome_mbind : MBind outcome := fun A B f m =>
  match m with
  | Ret a => f a
  | Fatal => Fatal
  | Oob => Oob
  end.

Lemma bind_ext {A B} (m m' : outcome A) (f g : A -> outcome B) :
  m = m' -> (forall a, f a = g a) -> (m ≫= f) = (m' ≫= g).
Proof. intros -> E. destruct m'; cbn; [apply E|done..]. Qed.

Lemma bind_Ret {A B} (m : outcome A) (f : A -> outcome B) r :
  (m ≫= f) = Ret r -> exists a, m = Ret a /\ f a = Ret r.
Proof. destruct m; cbn; try done. eauto. Qed.

(** [ASSERT (b)]: continue when [b] holds, terminate otherwise. *)
Definition c_assert (b : bool) : outcome unit := if b then Ret tt else Fatal.

(** ** Machine integers *)

(** Conversions to the unsigned types, and to the two's-complement [int]. *)
Definition u8 (x : Z) : Z := x mod 2 ^ 8.
Definition u16 (x : Z) : Z := x mod 2 ^ 16.
Definition u32 (x : Z) : Z := x mod 2 ^ 32.
Definition u64 (x : Z) : Z := x mod 2 ^ 64.
Definition i32 (x : Z) : Z := (x + 2 ^ 31) mod 2 ^ 32 - 2 ^ 31.

Notation "x +u y" := (u32 (x + y)) (at level 50, left associativity) : vpn_scope.
Notation "x -u y" := (u32 (x - y)) (at level 50, left associativity) : vpn_scope.
#[global] Open Scope vpn_scope.

(** The value ranges of the unsigned types. *)
Definition is_u8 (x : Z) : Prop := 0 <= x < 2 ^ 8.
Definition is_u16 (x : Z) : Prop := 0 <= x < 2 ^ 16.
Definition is_u32 (x : Z) : Prop := 0 <= x < 2 ^ 32.

(** ** Byte memory *)

(** Length of a list, as a C integer. *)
Definition zlen {A} (l : list A) : Z := Z.of_nat (length l).

Definition ztake {A} (n : Z) (l : list A) : list A := take (Z.to_nat n) l.
Definition zdrop {A} (n : Z) (l : list A) : list A := drop (Z.to_nat n) l.

(** [memcpy] out of an object: [n] bytes from index [pos]. *)
Definition load (l : list Z) (pos n : Z) : outcome (list Z) :=
  if (0 <=? pos) && (0 <=? n) && (pos + n <=? zlen l)
  then Ret (ztake n (zdrop pos l)) else Oob.

(** [memcpy] into an object, at index [pos]. *)
Definition store (l : list Z) (pos : Z) (src : list Z) : outcome (list Z) :=
  if (0 <=? pos) && (pos + zlen src <=? zlen l)
  then Ret (ztake pos l ++ src ++ zdrop (pos + zlen src) l) else Oob.

(** One byte. *)
Definition load1 (l : list Z) (pos : Z) : outcome Z :=
  if (0 <=? pos) && (pos <? zlen l)
  then match l !! Z.to_nat pos with Some b => Ret b | None => Oob end
  else Oob.

(** Network byte order: the bytes [htons]/[htonl] followed by [memcpy] of the
    result's representation produce, and the value [memcpy] followed by
    [ntohs]/[ntohl] reads back; neither depends on the host's byte order. *)
Fixpoint be_bytes (n : nat) (x : Z) : list Z :=
  match n with
  | O => []
  | S k => be_bytes k (x / 256) ++ [x mod 256]
  end.

Definition be_value (l : list Z) : Z := fold_left (fun acc b => acc * 256 + b) l 0.

(** ** Automation *)

Create HintDb vpn discriminated.
Create Rewrite HintDb zlen.

(** Reflects the boolean comparisons of the C conditions into [lia]-ready
    propositions, in the hypotheses. *)
Ltac breflect :=
  repeat match goal with
  | H : _ && _ = true |- _ => apply andb_true_iff in H; destruct H
  | H : _ || _ = false |- _ => apply orb_false_iff in H; destruct H
  | H : _ && _ = false |- _ => apply andb_false_iff in H
  | H : _ || _ = true |- _ => apply orb_true_iff in H
  | H : negb _ = true |- _ => apply negb_true_iff in H
  | H : negb _ = false |- _ => apply negb_false_iff in H
  | H : (_ <=? _) = true |- _ => apply Z.leb_le in H
  | H : (_ <=? _) = false |- _ => apply Z.leb_gt in H
  | H : (_ <? _) = true |- _ => apply Z.ltb_lt in H
  | H : (_ <? _) = false |- _ => apply Z.ltb_ge in H
  | H : (_ =? _) = true |- _ => apply Z.eqb_eq in H
  | H : (_ =? _) = false |- _ => apply Z.eqb_neq in H
  | H : bool_decide _ = true |- _ => apply bool_decide_eq_true in H
  | H : bool_decide _ = false |- _ => apply bool_decide_eq_false in H
  end.

(** Case analysis on the boolean tests of the goal, each branch with its
    condition reflected. *)
Ltac bcase_step :=
  match goal with
  | |- context [if ?b then _ else _] =>
      lazymatch b with
      | context [if _ then _ else _] => fail
      | _ => let E := fresh "E" in destruct b eqn:E
      end
  end.
Ltac bcase := repeat (bcase_step; breflect).

(** ** Lemmas on lengths and slices *)

Lemma zlen_nonneg {A} (l : list A) : 0 <= zlen l.
Proof. unfold zlen; lia. Qed.

Lemma zlen_nil {A} : zlen (@nil A) = 0.
Proof. reflexivity. Qed.

Lemma zlen_cons {A} (x : A) l : zlen (x :: l) = 1 + zlen l.
Proof. unfold zlen; cbn; lia. Qed.

Lemma zlen_app {A} (l1 l2 : list A) : zlen (l1 ++ l2) = zlen l1 + zlen l2.
Proof. unfold zlen; rewrite length_app; lia. Qed.

Lemma zlen_replicate {A} n (x : A) : zlen (replicate n x) = Z.of_nat n.
Proof. unfold zlen; by rewrite length_replicate. Qed.

Lemma zlen_insert {A} i (x : A) (l : list A) : zlen (<[i := x]> l) = zlen l.
Proof. unfold zlen; by rewrite length_insert. Qed.

Lemma zlen_fmap {A B} (f : A -> B) (l : list A) : zlen (f <$> l) = zlen l.
Proof. unfold zlen; by rewrite length_fmap. Qed.

Lemma zlen_ztake {A} n (l : list A) : zlen (ztake n l) = Z.min (Z.max 0 n) (zlen l).
Proof. unfold zlen, ztake; rewrite length_take; lia. Qed.

Lemma zlen_zdrop {A} n (l : list A) : zlen (zdrop n l) = Z.max 0 (zlen l - Z.max 0 n).
Proof. unfold zlen, zdrop; rewrite length_drop; lia. Qed.

Lemma zlen_be_bytes n x : zlen (be_bytes n x) = Z.of_nat n.
Proof.
  revert x; induction n as [|n IH]; intros x; [reflexivity|].
  cbn [be_bytes]. rewrite zlen_app, IH. unfold zlen; cbn; lia.
Qed.

#[global] Hint Rewrite @zlen_nil @zlen_cons @zlen_app @zlen_replicate @zlen_insert
  @zlen_fmap @zlen_ztake @zlen_zdrop zlen_be_bytes : zlen.

(** Adds the non-negativity of every length in sight, then [lia]. *)
Ltac zlen_facts :=
  repeat match goal with
  | |- context [zlen ?l] =>
      lazymatch goal with
      | _ : 0 <= zlen l |- _ => fail
      | _ => pose proof (zlen_nonneg l)
      end
  | _ : context [zlen ?l] |- _ =>
      lazymatch goal with
      | _ : 0 <= zlen l |- _ => fail
      | _ => pose proof (zlen_nonneg l)
      end
  end.
Ltac zlia := autorewrite with zlen in *; zlen_facts; lia.

(** Decides one boolean comparison of the goal by [lia], with the lengths known
    non-negative. *)
Ltac btrue b := replace b with true by (symmetry; first [apply Z.leb_le | apply Z.ltb_lt | apply Z.eqb_eq]; zlen_facts; lia).
Ltac bfalse b := replace b with false by (symmetry; first [apply Z.leb_gt | apply Z.ltb_ge | apply Z.eqb_neq]; zlen_facts; lia).
Ltac bdecide_step :=
  match goal with
  | |- context [?x <=? ?y] => first [btrue (x <=? y) | bfalse (x <=? y)]
  | |- context [?x <? ?y] => first [btrue (x <? y) | bfalse (x <? y)]
  | |- context [?x =? ?y] => first [btrue (x =? y) | bfalse (x =? y)]
  end.
Ltac bdecide := repeat (bdecide_step; cbn [andb orb negb]).

Lemma zlen_0_nil {A} (l : list A) : zlen l = 0 -> l = [].
Proof. destruct l; [done|]. unfold zlen; cbn; lia. Qed.

Lemma zlen_pos {A} (l : list A) : l <> [] -> 0 < zlen l.
Proof. destruct l; [done|]. unfold zlen; cbn; lia. Qed.

Lemma ztake_app_zlen {A} (l1 l2 : list A) : ztake (zlen l1) (l1 ++ l2) = l1.
Proof. unfold ztake, zlen; rewrite Nat2Z.id; apply take_app_length. Qed.

Lemma zdrop_app_zlen {A} (l1 l2 : list A) : zdrop (zlen l1) (l1 ++ l2) = l2.
Proof. unfold zdrop, zlen; rewrite Nat2Z.id; apply drop_app_length. Qed.

Lemma ztake_app_eq {A} n (l1 l2 : list A) : n = zlen l1 -> ztake n (l1 ++ l2) = l1.
Proof. intros ->; apply ztake_app_zlen. Qed.

Lemma zdrop_app_eq {A} n (l1 l2 : list A) : n = zlen l1 -> zdrop n (l1 ++ l2) = l2.
Proof. intros ->; apply zdrop_app_zlen. Qed.

Lemma ztake_zdrop {A} n (l : list A) : ztake n l ++ zdrop n l = l.
Proof. apply take_drop. Qed.

Lemma ztake_all {A} n (l : list A) : zlen l <= n -> ztake n l = l.
Proof. intros; unfold ztake, zlen in *; apply take_ge; lia. Qed.

Lemma zdrop_all {A} n (l : list A) : zlen l <= n -> zdrop n l = [].
Proof. intros; unfold zdrop, zlen in *; apply drop_ge; lia. Qed.

Lemma ztake_0 {A} (l : list A) : ztake 0 l = [].
Proof. reflexivity. Qed.

Lemma zdrop_0 {A} (l : list A) : zdrop 0 l = l.
Proof. reflexivity. Qed.

Lemma zdrop_app_ge {A} n (l1 l2 : list A) :
  zlen l1 <= n -> zdrop n (l1 ++ l2) = zdrop (n - zlen l1) l2.
Proof.
  intros; unfold zdrop, zlen in *. rewrite drop_app_ge by lia. f_equal; lia.
Qed.

Lemma ztake_app_ge {A} n (l1 l2 : list A) :
  zlen l1 <= n -> ztake n (l1 ++ l2) = l1 ++ ztake (n - zlen l1) l2.
Proof.
  intros; unfold ztake, zlen in *. rewrite take_app_ge by lia. do 2 f_equal; lia.
Qed.

Lemma ztake_app_le {A} n (l1 l2 : list A) :
  n <= zlen l1 -> ztake n (l1 ++ l2) = ztake n l1.
Proof. intros; unfold ztake, zlen in *. apply take_app_le; lia. Qed.

Lemma zdrop_app_le {A} n (l1 l2 : list A) :
  n <= zlen l1 -> zdrop n (l1 ++ l2) = zdrop n l1 ++ l2.
Proof. intros; unfold zdrop, zlen in *. apply drop_app_le; lia. Qed.

Lemma zdrop_zdrop {A} m n (l : list A) :
  0 <= m -> 0 <= n -> zdrop m (zdrop n l) = zdrop (n + m) l.
Proof. intros; unfold zdrop. rewrite drop_drop. f_equal; lia. Qed.

(** A list split at a position inside it. *)
Lemma zsplit {A} n (l : list A) :
  0 <= n <= zlen l -> exists l1 l2, l = l1 ++ l2 /\ zlen l1 = n /\ zlen l2 = zlen l - n.
Proof.
  intros. exists (ztake n l), (zdrop n l). split; [by rewrite ztake_zdrop|]. split; zlia.
Qed.

Lemma load_app l1 l2 l3 : load (l1 ++ l2 ++ l3) (zlen l1) (zlen l2) = Ret l2.
Proof.
  unfold load. rewrite !zlen_app. zlen_facts. bdecide.
  by rewrite zdrop_app_zlen, ztake_app_zlen.
Qed.

Lemma load_eq l l1 l2 l3 pos n :
  l = l1 ++ l2 ++ l3 -> pos = zlen l1 -> n = zlen l2 -> load l pos n = Ret l2.
Proof. intros -> -> ->; apply load_app. Qed.

Lemma store_app l1 l2 l3 src :
  zlen src = zlen l2 -> store (l1 ++ l2 ++ l3) (zlen l1) src = Ret (l1 ++ src ++ l3).
Proof.
  intros E. unfold store. rewrite !zlen_app. zlen_facts. bdecide.
  rewrite ztake_app_zlen, zdrop_app_ge by lia.
  by rewrite (zdrop_app_eq _ l2) by lia.
Qed.

Lemma store_eq l l1 l2 l3 pos src :
  l = l1 ++ l2 ++ l3 -> pos = zlen l1 -> zlen src = zlen l2 ->
  store l pos src = Ret (l1 ++ src ++ l3).
Proof. intros -> -> ?; by apply store_app. Qed.

Lemma load1_app l1 b l2 : load1 (l1 ++ b :: l2) (zlen l1) = Ret b.
Proof.
  unfold load1. rewrite zlen_app, zlen_cons. zlen_facts. bdecide.
  unfold zlen; rewrite Nat2Z.id, lookup_app_r, Nat.sub_diag by lia. done.
Qed.

Lemma load1_eq l l1 b l2 pos : l = l1 ++ b :: l2 -> pos = zlen l1 -> load1 l pos = Ret b.
Proof. intros -> ->; apply load1_app. Qed.

(** ** Lemmas on machine integers *)

Lemma u32_id x : is_u32 x -> u32 x = x.
Proof. intros; apply Z.mod_small; done. Qed.

Lemma u16_id x : is_u16 x -> u16 x = x.
Proof. intros; apply Z.mod_small; done. Qed.

Lemma u8_id x : is_u8 x -> u8 x = x.
Proof. intros; apply Z.mod_small; done. Qed.

Lemma u32_range x : is_u32 (u32 x).
Proof. apply Z.mod_pos_bound; lia. Qed.

Lemma u16_range x : is_u16 (u16 x).
Proof. apply Z.mod_pos_bound; lia. Qed.

Lemma u8_range x : is_u8 (u8 x).
Proof. apply Z.mod_pos_bound; lia. Qed.

#[export] Hint Resolve u32_range u16_range u8_range : vpn.

(** Unfolds the conversions and gives [lia] their division equations. *)
Ltac uwrap := unfold u8, u16, u32, u64, i32, is_u8, is_u16, is_u32 in *; Z.div_mod_to_equations; lia.

Lemma be_value_app l b : be_value (l ++ [b]) = be_value l * 256 + b.
Proof. unfold be_value; by rewrite fold_left_app. Qed.

Lemma be_value_bytes n x : be_value (be_bytes n x) = x mod 256 ^ Z.of_nat n.
Proof.
  revert x; induction n as [|n IH]; intros x.
  - cbn [be_bytes]. change (256 ^ Z.of_nat 0) with 1. by rewrite Z.mod_1_r.
  - cbn [be_bytes]. rewrite be_value_app, IH.
    rewrite Nat2Z.inj_succ, Z.pow_succ_r by lia.
    rewrite Z.rem_mul_r by lia. lia.
Qed.

Lemma be_value_bytes2 x : is_u16 x -> be_value (be_bytes 2 x) = x.
Proof. intros; rewrite be_value_bytes. apply Z.mod_small; done. Qed.

Lemma be_value_bytes4 x : is_u32 x -> be_value (be_bytes 4 x) = x.
Proof. intros; rewrite be_value_bytes. apply Z.mod_small; done. Qed.

Lemma be_bytes_u8 n x : Forall is_u8 (be_bytes n x).
Proof.
  revert x; induction n as [|n IH]; intros x; cbn [be_bytes]; [constructor|].
  apply Forall_app; split; [apply IH|]. constructor; [|constructor].
  apply Z.mod_pos_bound; lia.
Qed.

Lemma be_value_range l : Forall is_u8 l -> 0 <= be_value l < 256 ^ zlen l.
Proof.
  induction l as [|b l IH] using rev_ind; intros H; [unfold zlen; cbn; lia|].
  apply Forall_app in H as [Hl Hb]. apply Forall_cons in Hb as [Hb _].
  specialize (IH Hl). rewrite be_value_app.
  replace (zlen (l ++ [b])) with (Z.succ (zlen l)) by zlia.
  rewrite Z.pow_succ_r by apply zlen_nonneg. unfold is_u8 in Hb. lia.
Qed.

(** ** Bit fields *)

(** A field of [k] bits below a shifted value. *)
Lemma lor_shiftl_add a b k : 0 <= k -> 0 <= a < 2 ^ k -> Z.lor a (Z.shiftl b k) = a + b * 2 ^ k.
Proof.
  intros Hk Ha. rewrite <- Z.shiftl_mul_pow2 by lia.
  assert (Hd : Z.land a (Z.shiftl b k) = 0).
  { apply Z.bits_inj'. intros n Hn. rewrite Z.land_spec, Z.bits_0.
    destruct (decide (n < k)).
    - rewrite Z.shiftl_spec_low by lia. apply andb_false_r.
    - destruct (decide (a = 0)) as [->|]; [by rewrite Z.bits_0|].
      rewrite Z.bits_above_log2; [done|lia|].
      apply Z.log2_lt_pow2; [lia|]. eapply Z.lt_le_trans; [apply Ha|]. apply Z.pow_le_mono_r; lia. }
  by rewrite (Z.add_nocarry_lxor _ _ Hd), (Z.lxor_lor _ _ Hd).
Qed.

Lemma land_mask x k : 0 <= k -> Z.land x (2 ^ k - 1) = x mod 2 ^ k.
Proof. intros. rewrite <- Z.land_ones by done. f_equal. rewrite Z.ones_equiv. lia. Qed.

Lemma land_lnot_mask x k : 0 <= k -> Z.land x (Z.lnot (2 ^ k - 1)) = x - x mod 2 ^ k.
Proof. intros. rewrite <- Z.sub_land_same_l. by rewrite land_mask. Qed.

(** ** Computations that returned *)

(** Takes a hypothesis that a computation returned apart into its steps. *)
Ltac ret_step :=
  match goal with
  | H : (?m ≫= ?f) = Ret ?r |- _ => apply bind_Ret in H as (? & ? & H); cbn beta iota in H
  | H : c_assert ?b = Ret _ |- _ => destruct b eqn:?; [clear H|done]
  | H : Ret ?x = Ret ?y |- _ => injection H as H; subst
  | p : (_ * _)%type |- _ => destruct p
  end.
Ltac ret_inv := repeat ret_step.

(** ** Records with many fields

    [r <| field := v |>] is [r] with one field changed.  A record type takes part
    with an [Eta] instance, which rebuilds a value from its fields. *)
Class Eta (T : Type) : Type := eta : T -> T.

Class Setter {T A : Type} (field : T -> A) : Type := update : (A -> A) -> T -> T.
Arguments update {T A} field {_} : simpl nomatch.

(** The setter of [field]: the rebuilt value with [field] abstracted out. *)
Ltac find_setter :=
  match goal with
  | |- @Setter ?T ?A ?field =>
      let e := constr:(_ : Eta T) in
      let e := eval hnf in e in
      match eval pattern field in e with
      | ?rebuild _ =>
          let s := eval cbv beta in (fun (f : A -> A) => rebuild (fun r => f (field r))) in exact s
      end
  end.

#[export] Hint Extern 1 (Setter _) => find_setter : typeclass_instances.

Notation "r '<|' field ':=' v '|>'" := (update field (fun _ => v) r)
  (at level 12, left associativity, field at next level) : vpn_scope.
