(* ===== verification/Integer.v ===== *)
(** * Integer helpers ([integer.h]) and the circular list ([circ_list.h])

    [int] values are [Z]; the arguments the helpers are asserted to take keep
    every intermediate result inside the range of [int].  [circ] is the structure
    [CIRC_LIST] declares; [circ_rep c l] says that [c] holds the list [l], most
    recently pushed item first. *)
From S2P Require Import Prelude.

Definition max_int (x y : Z) : Z := if y <? x then x else y.

Definition min_int (x y : Z) : Z := if x <? y then x else y.

Definition constrain_int (x mn mx : Z) : Z :=
  if mx <? mn then mn
  else if x <? mn then mn
  else if mx <? x then mx
  else x.

(** [x - y] on a circle of circumference [mod], by the shortest path. *)
Definition modulo_subtract (x y modulus : Z) : outcome Z :=
  let d1 := x - y in
  let d2 := (if y <? x then - modulus else modulus) + d1 in
  _ ← c_assert ((0 <=? x) && (x <? modulus) && (0 <=? y) && (y <? modulus));
  Ret (if Z.abs d2 <? Z.abs d1 then d2 else d1).

(** [x + y] on a circle of circumference [mod]. *)
Definition modulo_add (x y modulus : Z) : outcome Z :=
  let sum := x + y in
  _ ← c_assert ((0 <=? x) && (x <? modulus) && (- modulus <=? y) && (y <=? modulus));
  let sum := if modulus <=? sum then sum - modulus else sum in
  let sum := if sum <? 0 then sum + modulus else sum in
  Ret sum.

(** The doubling loop of [adjust_power_of_2], on 64-bit [size_t].  After 64
    doublings the value is 0 and the assertion ends the loop, so 65 rounds of
    fuel are never used up. *)
Fixpoint adjust_power_of_2_loop (fuel : nat) (ret u : Z) : outcome Z :=
  match fuel with
  | O => Fatal
  | S fuel =>
      if ret <? u
      then
        let ret := u64 (Z.shiftl ret 1) in
        _ ← c_assert (0 <? ret);
        adjust_power_of_2_loop fuel ret u
      else Ret ret
  end.

Definition adjust_power_of_2 (u : Z) : outcome Z := adjust_power_of_2_loop 65 1 u.

Definition index_verify (index size : Z) : outcome Z :=
  if (index <? 0) || (size <=? index) then Fatal else Ret index.

(** ** Circular list *)

Record circ (A : Type) : Type := mkcirc {
  x_head : Z;
  x_size : Z;
  x_cap : Z;
  x_list : list A
}.
Arguments mkcirc {A}.
Arguments x_head {A}.
Arguments x_size {A}.
Arguments x_cap {A}.
Arguments x_list {A}.

(** [array[i] = x] and [array[i]]. *)
Definition array_set {A} (l : list A) (i : Z) (x : A) : outcome (list A) :=
  if (0 <=? i) && (i <? zlen l) then Ret (<[Z.to_nat i := x]> l) else Oob.

Definition array_get {A} (l : list A) (i : Z) : outcome A :=
  if (0 <=? i) && (i <? zlen l)
  then match l !! Z.to_nat i with Some x => Ret x | None => Oob end
  else Oob.

Definition CIRC_LIST_PUSH {A} (obj : circ A) (item : A) : outcome (circ A) :=
  h ← modulo_add (x_head obj) (-1) (x_cap obj);
  l ← array_set (x_list obj) h item;
  Ret (mkcirc h (min_int (x_size obj + 1) (x_cap obj)) (x_cap obj) l).

Definition CIRC_LIST_SIZE {A} (obj : circ A) : Z := x_size obj.

Definition CIRC_LIST_INDEX {A} (obj : circ A) (index : Z) : outcome Z :=
  i ← index_verify index (x_size obj);
  modulo_add (x_head obj) i (x_cap obj).

(** [CIRC_LIST_ITEM] read, and [CIRC_LIST_ITEM] assigned to. *)
Definition CIRC_LIST_ITEM {A} (obj : circ A) (index : Z) : outcome A :=
  i ← CIRC_LIST_INDEX obj index;
  array_get (x_list obj) i.

Definition CIRC_LIST_ITEM_set {A} (obj : circ A) (index : Z) (v : A) : outcome (circ A) :=
  i ← CIRC_LIST_INDEX obj index;
  l ← array_set (x_list obj) i v;
  Ret (mkcirc (x_head obj) (x_size obj) (x_cap obj) l).

Definition CIRC_LIST_RESET {A} (obj : circ A) : circ A :=
  mkcirc 0 0 (x_cap obj) (x_list obj).

(** The allocation is zeroed; [z] is the all-zero item. *)
Definition CIRC_LIST_ALLOC {A} (z : A) (size : Z) : circ A :=
  mkcirc 0 0 size (replicate (Z.to_nat size) z).

(** ** Specifications *)

Lemma min_int_min x y : min_int x y = Z.min x y.
Proof. unfold min_int; bcase; lia. Qed.

Lemma max_int_max x y : max_int x y = Z.max x y.
Proof. unfold max_int; bcase; lia. Qed.

Lemma constrain_int_range x mn mx : mn <= mx -> mn <= constrain_int x mn mx <= mx.
Proof. intros; unfold constrain_int; bcase; lia. Qed.

Lemma modulo_add_spec x y m :
  0 <= x < m -> - m <= y <= m -> modulo_add x y m = Ret ((x + y) mod m).
Proof.
  intros Hx Hy. unfold modulo_add. bdecide. cbn. f_equal.
  destruct (Z.leb_spec m (x + y)); bcase; try lia.
  - destruct (Z.eq_dec (x + y) (m + m)); [lia|].
    rewrite <- (Z.mod_unique_pos _ _ 1 (x + y - m)) by lia. done.
  - rewrite <- (Z.mod_unique_pos _ _ (-1) (x + y + m)) by lia. done.
  - rewrite Z.mod_small by lia. done.
Qed.

Lemma modulo_subtract_spec x y m :
  0 <= x < m -> 0 <= y < m ->
  exists d, modulo_subtract x y m = Ret d /\ (y + d) mod m = x /\ 2 * Z.abs d <= m.
Proof.
  intros Hx Hy. unfold modulo_subtract. bdecide. cbn [mbind outcome_mbind c_assert].
  eexists; split; [reflexivity|].
  destruct (y <? x) eqn:E; breflect; bcase; split; try lia.
  - symmetry; apply (Z.mod_unique_pos _ _ (-1)); lia.
  - replace (y + (x - y)) with x by lia. apply Z.mod_small; lia.
  - symmetry; apply (Z.mod_unique_pos _ _ 1); lia.
  - replace (y + (x - y)) with x by lia. apply Z.mod_small; lia.
Qed.

Lemma adjust_power_of_2_loop_spec fuel k u :
  (k <= 63)%nat -> (64 - k < fuel)%nat -> 0 <= u <= 2 ^ 63 ->
  (k = O \/ 2 ^ (Z.of_nat k - 1) < u) ->
  exists j, adjust_power_of_2_loop fuel (2 ^ Z.of_nat k) u = Ret (2 ^ Z.of_nat j) /\
    (j <= 63)%nat /\ u <= 2 ^ Z.of_nat j /\ (j = O \/ 2 ^ (Z.of_nat j - 1) < u).
Proof.
  revert k; induction fuel as [|fuel IH]; intros k Hk Hf Hu Hlow; [lia|].
  cbn [adjust_power_of_2_loop].
  destruct (2 ^ Z.of_nat k <? u) eqn:E; breflect; [|by exists k].
  assert (Hk63 : (k < 63)%nat).
  { destruct (decide (k = 63%nat)) as [->|]; [|lia]. change (Z.of_nat 63) with 63 in E. lia. }
  assert (Hp : u64 (Z.shiftl (2 ^ Z.of_nat k) 1) = 2 ^ Z.of_nat (S k)).
  { rewrite Z.shiftl_mul_pow2 by lia. change (2 ^ 1) with 2.
    rewrite Nat2Z.inj_succ, Z.pow_succ_r by lia. unfold u64.
    rewrite Z.mod_small; [lia|]. split; [lia|].
    assert (2 ^ Z.of_nat k < 2 ^ 63) by (apply Z.pow_lt_mono_r; lia). lia. }
  rewrite Hp. assert (0 < 2 ^ Z.of_nat (S k)) by (apply Z.pow_pos_nonneg; lia).
  bdecide. cbn [mbind outcome_mbind c_assert]. apply IH; [lia..|].
  right. by replace (Z.of_nat (S k) - 1) with (Z.of_nat k) by lia.
Qed.

Lemma array_get_Some {A} (l : list A) i x :
  0 <= i -> l !! Z.to_nat i = Some x -> array_get l i = Ret x.
Proof.
  intros Hi Hx. unfold array_get. pose proof (lookup_lt_Some _ _ _ Hx).
  unfold zlen. bdecide. by rewrite Hx.
Qed.

Lemma array_get_in {A} (l : list A) i :
  0 <= i < zlen l -> exists x, array_get l i = Ret x /\ l !! Z.to_nat i = Some x.
Proof.
  intros Hi. destruct (lookup_lt_is_Some_2 l (Z.to_nat i)) as [x Hx]; [unfold zlen in *; lia|].
  exists x. split; [|done]. apply array_get_Some; [lia|done].
Qed.

Lemma array_set_in {A} (l : list A) i x :
  0 <= i < zlen l -> array_set l i x = Ret (<[Z.to_nat i := x]> l).
Proof. intros; unfold array_set; by bdecide. Qed.

(** ** The list a circular list holds *)

Definition circ_wf {A} (c : circ A) : Prop :=
  0 < x_cap c /\ zlen (x_list c) = x_cap c /\ 0 <= x_head c < x_cap c /\ 0 <= x_size c <= x_cap c.

(** Position of item [i] in the array. *)
Definition circ_pos {A} (c : circ A) (i : nat) : nat :=
  Z.to_nat ((x_head c + Z.of_nat i) mod x_cap c).

Definition circ_rep {A} (c : circ A) (l : list A) : Prop :=
  circ_wf c /\ zlen l = x_size c /\
  forall i, (i < length l)%nat -> l !! i = x_list c !! circ_pos c i.

Lemma circ_pos_lt {A} (c : circ A) i : circ_wf c -> (circ_pos c i < length (x_list c))%nat.
Proof.
  intros (Hc & Hl & _). unfold circ_pos, zlen in *.
  pose proof (Z.mod_pos_bound (x_head c + Z.of_nat i) (x_cap c) Hc). lia.
Qed.

Lemma circ_pos_inj {A} (c : circ A) i j :
  circ_wf c -> Z.of_nat i < x_cap c -> Z.of_nat j < x_cap c ->
  circ_pos c i = circ_pos c j -> i = j.
Proof.
  intros (Hc & _ & Hh & _) Hi Hj E. unfold circ_pos in E.
  pose proof (Z.mod_pos_bound (x_head c + Z.of_nat i) (x_cap c) Hc).
  pose proof (Z.mod_pos_bound (x_head c + Z.of_nat j) (x_cap c) Hc).
  apply Z2Nat.inj in E; [|lia..].
  pose proof (Z.div_mod (x_head c + Z.of_nat i) (x_cap c)).
  pose proof (Z.div_mod (x_head c + Z.of_nat j) (x_cap c)).
  assert ((x_head c + Z.of_nat i) / x_cap c = (x_head c + Z.of_nat j) / x_cap c) by nia.
  nia.
Qed.

Lemma circ_alloc_rep {A} (z : A) n : 0 < n -> circ_rep (CIRC_LIST_ALLOC z n) [].
Proof.
  intros Hn. split; [|split]; [|done|]; cbn.
  - unfold circ_wf; cbn. zlia.
  - intros i Hi. lia.
Qed.

Lemma circ_reset_rep {A} (c : circ A) l : circ_rep c l -> circ_rep (CIRC_LIST_RESET c) [].
Proof.
  intros ((Hc & Hl & Hh & Hs) & _). split; [|split]; [|done|].
  - unfold circ_wf; cbn. lia.
  - cbn; intros i Hi; lia.
Qed.

Lemma circ_size_rep {A} (c : circ A) l : circ_rep c l -> CIRC_LIST_SIZE c = zlen l.
Proof. by intros (_ & -> & _). Qed.

Lemma circ_index_rep {A} (c : circ A) l i :
  circ_rep c l -> 0 <= i < zlen l ->
  CIRC_LIST_INDEX c i = Ret (Z.of_nat (circ_pos c (Z.to_nat i))).
Proof.
  intros ((Hc & Hl & Hh & Hs) & Hz & _) Hi. unfold CIRC_LIST_INDEX, index_verify.
  rewrite <- Hz. bdecide. cbn [mbind outcome_mbind].
  rewrite modulo_add_spec by lia. f_equal. unfold circ_pos.
  pose proof (Z.mod_pos_bound (x_head c + i) (x_cap c) Hc).
  rewrite (Z2Nat.id i) by lia. rewrite Z2Nat.id; lia.
Qed.

Lemma circ_item_rep {A} (c : circ A) l i :
  circ_rep c l -> 0 <= i < zlen l ->
  exists v, CIRC_LIST_ITEM c i = Ret v /\ l !! Z.to_nat i = Some v.
Proof.
  intros HR Hi. pose proof HR as (Hwf & Hz & Hn). unfold CIRC_LIST_ITEM.
  rewrite (circ_index_rep c l) by done. cbn [mbind outcome_mbind].
  pose proof (circ_pos_lt c (Z.to_nat i) Hwf).
  destruct (array_get_in (x_list c) (Z.of_nat (circ_pos c (Z.to_nat i)))) as (v & Hv & Hv').
  { unfold zlen; lia. }
  exists v. split; [done|]. rewrite Hn by (unfold zlen in *; lia). by rewrite Nat2Z.id in Hv'.
Qed.

Lemma circ_item_set_rep {A} (c : circ A) l i v :
  circ_rep c l -> 0 <= i < zlen l ->
  exists c', CIRC_LIST_ITEM_set c i v = Ret c' /\ circ_rep c' (<[Z.to_nat i := v]> l) /\
    x_cap c' = x_cap c.
Proof.
  intros HR Hi. pose proof HR as (Hwf & Hz & Hn). unfold CIRC_LIST_ITEM_set.
  rewrite (circ_index_rep c l) by done. cbn [mbind outcome_mbind].
  pose proof (circ_pos_lt c (Z.to_nat i) Hwf).
  rewrite array_set_in by (unfold zlen; lia). cbn.
  eexists; split; [reflexivity|]. split; [|done]. rewrite Nat2Z.id.
  pose proof Hwf as (Hc & Hl & Hh & Hs). split; [|split]; cbn.
  - unfold circ_wf; cbn. zlia.
  - by rewrite zlen_insert.
  - rewrite length_insert. intros j Hj.
    match goal with |- context [circ_pos ?c' j] => change (circ_pos c' j) with (circ_pos c j) end.
    destruct (decide (j = Z.to_nat i)) as [->|Hne].
    + rewrite !list_lookup_insert_eq by done. done.
    + rewrite !list_lookup_insert_ne; [by apply Hn|..|done].
      intros E. apply circ_pos_inj in E; [done|done|unfold zlen in *; lia..].
Qed.

Lemma circ_push_rep {A} (c : circ A) l x :
  circ_rep c l ->
  exists c', CIRC_LIST_PUSH c x = Ret c' /\ circ_rep c' (ztake (x_cap c) (x :: l)) /\
    x_cap c' = x_cap c.
Proof.
  intros (Hwf & Hz & Hn). pose proof Hwf as (Hc & Hl & Hh & Hs). unfold CIRC_LIST_PUSH.
  rewrite modulo_add_spec by lia. cbn [mbind outcome_mbind].
  set (h := (x_head c + -1) mod x_cap c).
  assert (Hhb : 0 <= h < x_cap c) by (apply Z.mod_pos_bound; lia).
  rewrite array_set_in by lia. cbn. eexists; split; [reflexivity|]. split; [|done].
  rewrite min_int_min. split; [|split]; cbn.
  - unfold circ_wf; cbn. zlia.
  - zlia.
  - intros i Hi. unfold circ_pos; cbn [x_head x_cap].
    assert (Hi' : (i < Z.to_nat (x_cap c))%nat /\ (i < S (length l))%nat).
    { unfold ztake in Hi. rewrite length_take in Hi. cbn in Hi. lia. }
    unfold ztake. rewrite lookup_take_lt by lia.
    destruct i as [|i].
    + cbn [lookup list_lookup]. rewrite Z.add_0_r, Z.mod_small by lia.
      rewrite list_lookup_insert_eq; [done|]. unfold zlen in Hl; lia.
    + cbn [lookup list_lookup].
      assert (E : (h + Z.of_nat (S i)) mod x_cap c = (x_head c + Z.of_nat i) mod x_cap c).
      { unfold h. rewrite Z.add_mod_idemp_l by lia. f_equal; lia. }
      rewrite E. fold (circ_pos c i). rewrite list_lookup_insert_ne.
      { apply Hn. lia. }
      intros E'. assert (Hx : (x_head c + Z.of_nat i) mod x_cap c = h).
      { unfold circ_pos in E'. pose proof (Z.mod_pos_bound (x_head c + Z.of_nat i) (x_cap c)). lia. }
      rewrite <- E in Hx.
      pose proof (Z.div_mod (h + Z.of_nat (S i)) (x_cap c) ltac:(lia)) as Hd. rewrite Hx in Hd.
      set (q := (h + Z.of_nat (S i)) / x_cap c) in *.
      assert (x_cap c * q = Z.of_nat (S i)) by lia.
      destruct (Z.lt_trichotomy q 0) as [|[|]]; nia.
Qed.

Lemma circ_rep_length {A} (c : circ A) l : circ_rep c l -> 0 <= zlen l <= x_cap c.
Proof. intros ((_ & _ & _ & Hs) & Hz & _). lia. Qed.
