(* ===== verification/Buffer.v ===== *)
(** * The byte buffer ([buffer.h], [buffer.c])

    [struct buffer] is a window ([offset], [len]) into one allocated object of
    [capacity] bytes.  A pointer into the object is the index of the byte it
    points to; [NULL] is [None].  Two buffers that share an object in C (a
    header copied by value, [buf_sub]) are handled where they occur: the
    operation works on a copy of the bytes and its stores are written back.

    [conc pre c post] is the buffer with headroom [pre], content [c] and tailroom
    [post]; every well-formed buffer is of this form, and the operations are
    characterised by equations on [conc]: this is the abstract view the other
    components are proved against. *)
From S2P Require Import Prelude.

Definition BUF_SIZE_MAX : Z := 1000000.

(** [struct buffer] *)
Record buffer : Type := mkbuffer {
  capacity : Z;
  offset : Z;
  len : Z;
  data : option (list Z)
}.

#[global] Instance buffer_eq_dec : EqDecision buffer.
Proof. solve_decision. Defined.

#[global] Instance buffer_inhabited : Inhabited buffer := populate (mkbuffer 0 0 0 None).

Definition set_len (b : buffer) (n : Z) : buffer := mkbuffer (capacity b) (offset b) n (data b).
Definition set_offset_len (b : buffer) (o n : Z) : buffer := mkbuffer (capacity b) o n (data b).

(** Stores and loads through a pointer into the object of the buffer. *)
Definition buf_store (b : buffer) (pos : Z) (src : list Z) : outcome buffer :=
  match data b with
  | None => Oob
  | Some d => d' ← store d pos src; Ret (mkbuffer (capacity b) (offset b) (len b) (Some d'))
  end.

Definition buf_load (b : buffer) (pos n : Z) : outcome (list Z) :=
  match data b with
  | None => Oob
  | Some d => load d pos n
  end.

Definition buf_load1 (b : buffer) (pos : Z) : outcome Z :=
  match data b with
  | None => Oob
  | Some d => load1 d pos
  end.

(** ** Accessors *)

Definition buf_defined (b : buffer) : bool := match data b with Some _ => true | None => false end.

Definition buf_valid (b : buffer) : bool := buf_defined b && (0 <=? len b).

(** [BPTR] *)
Definition buf_bptr (b : buffer) : option Z := if buf_valid b then Some (offset b) else None.

(** [BLEN] *)
Definition buf_len (b : buffer) : Z := if buf_valid b then len b else 0.

(** [BLAST] *)
Definition buf_blast (b : buffer) : option Z :=
  if 0 <? buf_len b
  then match buf_bptr b with Some p => Some (p + buf_len b - 1) | None => None end
  else None.

(** The parameter is a [size_t]: a negative [int] argument is converted to a
    64-bit unsigned value. *)
Definition buf_size_valid (size : Z) : bool := u64 size <? BUF_SIZE_MAX.

Definition buf_size_valid_signed (size : Z) : bool :=
  (- BUF_SIZE_MAX <=? size) && (size <? BUF_SIZE_MAX).

(** ** Initialisation *)

Definition buf_reset (b : buffer) : buffer := mkbuffer 0 0 0 None.

Definition buf_reset_len (b : buffer) : buffer := mkbuffer (capacity b) 0 0 (data b).

(** [buf_init]: the buffer and whether it succeeded. *)
Definition buf_init (b : buffer) (off : Z) : buffer * bool :=
  if (off <? 0) || (capacity b <? off) || negb (buf_defined b)
  then (b, false)
  else (set_offset_len b off 0, true).

(** [alloc_buf]: [calloc] zeroes the object; the size test is fatal. *)
Definition alloc_buf (size : Z) : outcome buffer :=
  if buf_size_valid size
  then Ret (mkbuffer size 0 0 (Some (replicate (Z.to_nat size) 0)))
  else Fatal.

(** [buf_set_read] over an object holding [d], with [size] its length. *)
Definition buf_set_read (d : list Z) : outcome buffer :=
  if buf_size_valid (zlen d)
  then Ret (mkbuffer (zlen d) 0 (zlen d) (Some d))
  else Fatal.

(** [buf_set_write] over an object holding [d], with [size] its length. *)
Definition buf_set_write (d : list Z) : outcome buffer :=
  if buf_size_valid (zlen d)
  then
    if 0 <? zlen d
    then buf_store (mkbuffer (zlen d) 0 0 (Some d)) 0 [0]
    else Ret (mkbuffer (zlen d) 0 0 (Some d))
  else Fatal.

(** [buf_clear]: zero the whole object. *)
Definition buf_clear (b : buffer) : outcome buffer :=
  if 0 <? capacity b
  then b' ← buf_store b 0 (replicate (Z.to_nat (capacity b)) 0); Ret (set_offset_len b' 0 0)
  else Ret (set_offset_len b 0 0).

(** [free_buf]: release the object and [CLEAR] the header. *)
Definition free_buf (b : buffer) : buffer := mkbuffer 0 0 0 None.

(** [BPTR] and [BEND] where the program uses them as pointers into the object: positions. *)
Definition bptr (b : buffer) : outcome Z := match buf_bptr b with Some p => Ret p | None => Oob end.
Definition bend (b : buffer) : outcome Z := p ← bptr b; Ret (p + buf_len b).

(** ** Capacity tests *)

Definition buf_safe (b : buffer) (n : Z) : bool :=
  buf_valid b && buf_size_valid n && (offset b + len b + n <=? capacity b).

Definition buf_safe_bidir (b : buffer) (n : Z) : bool :=
  if buf_valid b && buf_size_valid_signed n
  then
    let newlen := len b + n in
    (0 <=? newlen) && (offset b + newlen <=? capacity b)
  else false.

Definition buf_forward_capacity (b : buffer) : Z :=
  if buf_valid b
  then let ret := capacity b - (offset b + len b) in if ret <? 0 then 0 else ret
  else 0.

Definition buf_forward_capacity_total (b : buffer) : Z :=
  if buf_valid b
  then let ret := capacity b - offset b in if ret <? 0 then 0 else ret
  else 0.

Definition buf_reverse_capacity (b : buffer) : Z := if buf_valid b then offset b else 0.

(** ** Moving the window *)

Definition buf_inc_len (b : buffer) (inc : Z) : buffer * bool :=
  if negb (buf_safe_bidir b inc) then (b, false) else (set_len b (len b + inc), true).

Definition buf_prepend (b : buffer) (size : Z) : buffer * option Z :=
  if negb (buf_valid b) || (size <? 0) || (offset b <? size)
  then (b, None)
  else let b' := set_offset_len b (offset b - size) (len b + size) in (b', buf_bptr b').

Definition buf_advance (b : buffer) (size : Z) : buffer * bool :=
  if negb (buf_valid b) || (size <? 0) || (len b <? size)
  then (b, false)
  else (set_offset_len b (offset b + size) (len b - size), true).

Definition buf_write_alloc (b : buffer) (size : Z) : buffer * option Z :=
  if negb (buf_safe b size)
  then (b, None)
  else
    match buf_bptr b with
    | Some p => (set_len b (len b + size), Some (p + len b))
    | None => (set_len b (len b + size), None)
    end.

Definition buf_write_alloc_prepend (b : buffer) (size : Z) (prepend : bool) : buffer * option Z :=
  if prepend then buf_prepend b size else buf_write_alloc b size.

Definition buf_read_alloc (b : buffer) (size : Z) : buffer * option Z :=
  if (size <? 0) || (len b <? size)
  then (b, None)
  else (set_offset_len b (offset b + size) (len b - size), buf_bptr b).

(** ** Copying bytes in and out *)

(** [buf_write (dest, src, size)] with [size] the length of [src]. *)
Definition buf_write (dest : buffer) (src : list Z) : outcome (buffer * bool) :=
  match buf_write_alloc dest (zlen src) with
  | (dest', None) => Ret (dest', false)
  | (dest', Some cp) => b ← buf_store dest' cp src; Ret (b, true)
  end.

Definition buf_write_prepend (dest : buffer) (src : list Z) : outcome (buffer * bool) :=
  match buf_prepend dest (zlen src) with
  | (dest', None) => Ret (dest', false)
  | (dest', Some cp) => b ← buf_store dest' cp src; Ret (b, true)
  end.

Definition buf_write_u8 (dest : buffer) (x : Z) : outcome (buffer * bool) :=
  buf_write dest [u8 x].

Definition buf_write_u16 (dest : buffer) (x : Z) : outcome (buffer * bool) :=
  buf_write dest (be_bytes 2 (u16 x)).

Definition buf_write_u32 (dest : buffer) (x : Z) : outcome (buffer * bool) :=
  buf_write dest (be_bytes 4 (u32 x)).

(** The [BLEN (b)] bytes at [BPTR (b)]; no byte is accessed when there is none. *)
Definition buf_contents (b : buffer) : outcome (list Z) :=
  if buf_len b =? 0 then Ret []
  else match buf_bptr b with Some p => buf_load b p (buf_len b) | None => Oob end.

(** The object of [dest] is not the object of [src]. *)
Definition buf_copy (dest src : buffer) : outcome (buffer * bool) :=
  bytes ← buf_contents src; buf_write dest bytes.

(** Returns the new [dest], the new [src] and the result.  When the bytes do not
    fit, [src] has been advanced all the same. *)
Definition buf_copy_n (dest src : buffer) (n : Z) : outcome (buffer * buffer * bool) :=
  match buf_read_alloc src n with
  | (src', None) => Ret (dest, src', false)
  | (src', Some cp) =>
      bytes ← buf_load src' cp n;
      '(dest', ok) ← buf_write dest bytes;
      Ret (dest', src', ok)
  end.

Definition buf_copy_range (dest : buffer) (dest_index : Z) (src : buffer) (src_index src_len : Z)
  : outcome (buffer * bool) :=
  if (src_index <? 0) || (src_len <? 0) || (len src <? src_index + src_len)
     || (dest_index <? 0) || (capacity dest <? offset dest + dest_index + src_len)
  then Ret (dest, false)
  else
    bytes ← buf_load src (offset src + src_index) src_len;
    dest' ← buf_store dest (offset dest + dest_index) bytes;
    Ret (if len dest <? dest_index + src_len then set_len dest' (dest_index + src_len) else dest', true).

(** Returns the new [dest], the new [src] and the result. *)
Definition buf_copy_excess (dest src : buffer) (n : Z) : outcome (buffer * buffer * bool) :=
  if n <? 0 then Ret (dest, src, false)
  else if n <? len src
  then
    let src' := set_len src n in
    match buf_advance src n with
    | (_, false) => Ret (dest, src', false)
    | (b, true) => '(dest', ok) ← buf_copy dest b; Ret (dest', src', ok)
    end
  else Ret (dest, src, true).

(** [buf_read (src, dest, size)]: the new buffer, and the bytes stored to [dest]
    when it succeeded. *)
Definition buf_read (src : buffer) (size : Z) : outcome (buffer * option (list Z)) :=
  match buf_read_alloc src size with
  | (src', None) => Ret (src', None)
  | (src', Some cp) => bytes ← buf_load src' cp size; Ret (src', Some bytes)
  end.

Definition buf_read_u8 (b : buffer) : outcome (buffer * Z) :=
  if buf_len b <? 1 then Ret (b, -1)
  else match buf_bptr b with
       | None => Oob
       | Some p => ret ← buf_load1 b p; Ret ((buf_advance b 1).1, ret)
       end.

Definition buf_read_u16 (b : buffer) : outcome (buffer * Z) :=
  '(b', r) ← buf_read b 2;
  Ret (b', match r with Some bytes => be_value bytes | None => -1 end).

(** The value and the flag stored through [good]. *)
Definition buf_read_u32 (b : buffer) : outcome (buffer * (Z * bool)) :=
  '(b', r) ← buf_read b 4;
  Ret (b', match r with Some bytes => (be_value bytes, true) | None => (0, false) end).

(** [buf_assign] *)
Definition buf_assign (dest src : buffer) : outcome (buffer * bool) :=
  match buf_init dest (offset src) with
  | (dest', false) => Ret (dest', false)
  | (dest', true) => bytes ← buf_contents src; buf_write dest' bytes
  end.

(** [clone_buf]: a fresh object of the same capacity, whose bytes outside the
    content are those [malloc] returned ([fresh]). *)
Definition clone_buf (fresh : list Z) (b : buffer) : outcome buffer :=
  bytes ← buf_contents b;
  if buf_len b =? 0 then Ret (mkbuffer (capacity b) (offset b) (len b) (Some fresh))
  else buf_store (mkbuffer (capacity b) (offset b) (len b) (Some fresh)) (offset b) bytes.

(** [buf_sub]: the new buffer and, when there is room, the sub-buffer with the
    position of its object inside that of [buf].  The sub-buffer holds a copy of
    those bytes; [buf_sub_commit] is the effect its stores have on the shared
    object. *)
Definition buf_sub (buf : buffer) (size : Z) (prepend : bool) : outcome (buffer * option (buffer * Z)) :=
  match (if prepend then buf_prepend buf size else buf_write_alloc buf size) with
  | (buf', None) => Ret (buf', None)
  | (buf', Some p) => d ← buf_load buf' p size; Ret (buf', Some (mkbuffer size 0 0 (Some d), p))
  end.

Definition buf_sub_commit (buf sub : buffer) (p : Z) : outcome buffer :=
  match data sub with
  | Some d => buf_store buf p d
  | None => Oob
  end.

(** ** Comparison *)

Definition buf_equal (a b : buffer) : outcome bool :=
  if buf_len a =? buf_len b
  then ca ← buf_contents a; cb ← buf_contents b; Ret (bool_decide (ca = cb))
  else Ret false.

(** [memcmp (BPTR (src), match, size) == 0] *)
Definition buf_memeq (src : buffer) (pat : list Z) : outcome bool :=
  if zlen pat =? 0 then Ret true
  else match buf_bptr src with
       | None => Oob
       | Some p => bytes ← buf_load src p (zlen pat); Ret (bool_decide (bytes = pat))
       end.

Definition buf_string_match (src : buffer) (pat : list Z) : outcome bool :=
  if negb (zlen pat =? len src) then Ret false else buf_memeq src pat.

Definition buf_string_match_head (src : buffer) (pat : list Z) : outcome bool :=
  if (zlen pat <? 0) || (len src <? zlen pat) then Ret false else buf_memeq src pat.

(** [match] is a C string: the list of its bytes. *)
Definition buf_string_match_head_str (src : buffer) (pat : list Z) : outcome bool :=
  if (zlen pat <? 0) || (len src <? zlen pat) then Ret false else buf_memeq src pat.

Definition buf_string_compare_advance (src : buffer) (pat : list Z) : outcome (buffer * bool) :=
  r ← buf_string_match_head_str src pat;
  if r : bool then Ret ((buf_advance src (zlen pat)).1, true) else Ret (src, false).

(** ** Well-formedness and the abstract view *)

(** A defined buffer whose window lies inside its object. *)
Definition buf_wf (b : buffer) : Prop :=
  exists d, data b = Some d /\ capacity b = zlen d /\
    0 <= offset b /\ 0 <= len b /\ offset b + len b <= capacity b /\
    capacity b < BUF_SIZE_MAX.

(** The buffer with headroom [pre], content [c] and tailroom [post]. *)
Definition conc (pre c post : list Z) : buffer :=
  mkbuffer (zlen pre + zlen c + zlen post) (zlen pre) (zlen c) (Some (pre ++ c ++ post)).

(** Total size of the object below the limit [alloc_buf] enforces. *)
Definition fits (pre c post : list Z) : Prop := zlen pre + zlen c + zlen post < BUF_SIZE_MAX.

(** The content of a buffer, as a list (the empty list for an undefined one). *)
Definition content (b : buffer) : list Z :=
  match data b with
  | Some d => ztake (len b) (zdrop (offset b) d)
  | None => []
  end.

Lemma mkbuffer_conc cap o l d pre c post :
  cap = zlen pre + zlen c + zlen post -> o = zlen pre -> l = zlen c -> d = pre ++ c ++ post ->
  mkbuffer cap o l (Some d) = conc pre c post.
Proof. by intros -> -> -> ->. Qed.

Lemma conc_wf pre c post : fits pre c post -> buf_wf (conc pre c post).
Proof. intros H; unfold fits in H. eexists; cbn. split; [done|]. zlia. Qed.

Lemma wf_fits pre c post : buf_wf (conc pre c post) -> fits pre c post.
Proof. intros (d & _ & _ & _ & _ & _ & H). exact H. Qed.

Lemma wf_conc b :
  buf_wf b -> exists pre c post, b = conc pre c post /\ fits pre c post.
Proof.
  intros (d & Hd & Hcap & Ho & Hl & Hol & Hmax).
  exists (ztake (offset b) d), (ztake (len b) (zdrop (offset b) d)),
    (zdrop (len b) (zdrop (offset b) d)).
  split.
  - destruct b as [cap o l dt]; cbn in *; subst dt.
    apply mkbuffer_conc; [zlia..|]. by rewrite !ztake_zdrop.
  - unfold fits. zlia.
Qed.

Lemma content_conc pre c post : content (conc pre c post) = c.
Proof. unfold content, conc; cbn. rewrite zdrop_app_zlen. apply ztake_app_zlen. Qed.

Lemma conc_inj pre c post pre' c' post' :
  conc pre c post = conc pre' c' post' -> pre = pre' /\ c = c' /\ post = post'.
Proof.
  intros E. pose proof (f_equal offset E) as Ho. pose proof (f_equal len E) as Hl.
  pose proof (f_equal data E) as Hd. cbn [offset len data conc] in Ho, Hl, Hd.
  unfold zlen in Ho, Hl. apply Some_inj, app_inj_1 in Hd as [-> Hd]; [|lia].
  apply app_inj_1 in Hd as [-> ->]; [done|lia].
Qed.

(** Destructs a well-formed buffer into its abstract parts. *)
Ltac wf_destruct H :=
  let pre := fresh "pre" in let c := fresh "c" in let post := fresh "post" in
  let E := fresh "E" in let F := fresh "F" in
  apply wf_conc in H as (pre & c & post & E & F); subst.

Lemma buf_valid_conc pre c post : buf_valid (conc pre c post) = true.
Proof. unfold buf_valid; cbn. zlen_facts. bdecide. done. Qed.

Lemma buf_bptr_conc pre c post : buf_bptr (conc pre c post) = Some (zlen pre).
Proof. unfold buf_bptr; by rewrite buf_valid_conc. Qed.

Lemma buf_len_conc pre c post : buf_len (conc pre c post) = zlen c.
Proof. unfold buf_len; by rewrite buf_valid_conc. Qed.

Lemma bptr_conc pre c post : bptr (conc pre c post) = Ret (zlen pre).
Proof. unfold bptr. by rewrite buf_bptr_conc. Qed.

Lemma bend_conc pre c post : bend (conc pre c post) = Ret (zlen pre + zlen c).
Proof. unfold bend. rewrite bptr_conc. cbn [mbind outcome_mbind]. by rewrite buf_len_conc. Qed.

Lemma len_conc pre c post : len (conc pre c post) = zlen c.
Proof. done. Qed.

Lemma buf_size_valid_iff n : 0 <= n < 2 ^ 64 -> buf_size_valid n = (n <? BUF_SIZE_MAX).
Proof. intros; unfold buf_size_valid, u64. by rewrite Z.mod_small. Qed.

(** Appending: succeeds exactly when the bytes fit in the tailroom. *)
Lemma buf_write_conc pre c post src :
  fits pre c post ->
  buf_write (conc pre c post) src =
    Ret (if zlen src <=? zlen post
         then (conc pre (c ++ src) (zdrop (zlen src) post), true)
         else (conc pre c post, false)).
Proof.
  intros HF. unfold buf_write, buf_write_alloc, buf_safe.
  rewrite buf_valid_conc, buf_bptr_conc. unfold fits, BUF_SIZE_MAX in *.
  zlen_facts. cbn [capacity offset len conc].
  destruct (zlen src <=? zlen post) eqn:E; breflect.
  - rewrite buf_size_valid_iff by lia. unfold BUF_SIZE_MAX. bdecide.
    unfold buf_store, set_len; cbn [data conc capacity offset len].
    erewrite (store_eq _ (pre ++ c) (ztake (zlen src) post) (zdrop (zlen src) post)).
    + cbn. do 2 f_equal. apply mkbuffer_conc; [zlia..|]. by rewrite <- !app_assoc.
    + by rewrite <- app_assoc, ztake_zdrop.
    + by rewrite zlen_app.
    + zlia.
  - replace (_ && _ && _) with false; [done|].
    symmetry. apply andb_false_iff. right. apply Z.leb_gt. lia.
Qed.

(** Prepending: succeeds exactly when the bytes fit in the headroom. *)
Lemma buf_write_prepend_conc pre c post src :
  buf_write_prepend (conc pre c post) src =
    Ret (if zlen src <=? zlen pre
         then (conc (ztake (zlen pre - zlen src) pre) (src ++ c) post, true)
         else (conc pre c post, false)).
Proof.
  unfold buf_write_prepend, buf_prepend. rewrite buf_valid_conc. zlen_facts.
  cbn [negb orb offset conc len].
  destruct (zlen src <=? zlen pre) eqn:E; breflect; bdecide; [|done].
  unfold buf_bptr, set_offset_len, buf_valid, buf_store.
  cbn [buf_defined data conc len offset capacity andb]. bdecide.
  erewrite (store_eq _ (ztake (zlen pre - zlen src) pre) (zdrop (zlen pre - zlen src) pre) (c ++ post)).
  - cbn. do 2 f_equal. apply mkbuffer_conc; [zlia..|]. by rewrite <- !app_assoc.
  - by rewrite (app_assoc (ztake _ _)), ztake_zdrop.
  - zlia.
  - zlia.
Qed.

Lemma buf_advance_conc pre c post n :
  buf_advance (conc pre c post) n =
    if (0 <=? n) && (n <=? zlen c)
    then (conc (pre ++ ztake n c) (zdrop n c) post, true)
    else (conc pre c post, false).
Proof.
  unfold buf_advance. rewrite buf_valid_conc. cbn [negb orb len conc offset].
  destruct (0 <=? n) eqn:E1, (n <=? zlen c) eqn:E2; breflect; bdecide; try done.
  f_equal. apply mkbuffer_conc; cbn; [zlia..|]. by rewrite <- app_assoc, (app_assoc (ztake n c)), ztake_zdrop.
Qed.

(** Reading: takes the bytes from the front, or leaves the buffer alone. *)
Lemma buf_read_conc pre c post n :
  buf_read (conc pre c post) n =
    Ret (if (0 <=? n) && (n <=? zlen c)
         then (conc (pre ++ ztake n c) (zdrop n c) post, Some (ztake n c))
         else (conc pre c post, None)).
Proof.
  unfold buf_read, buf_read_alloc. rewrite buf_bptr_conc. cbn [len conc offset].
  destruct (0 <=? n) eqn:E1, (n <=? zlen c) eqn:E2; breflect; bdecide; try done.
  unfold buf_load, set_offset_len; cbn [data conc].
  erewrite (load_eq _ pre (ztake n c) (zdrop n c ++ post)); [| |done|zlia].
  - cbn. do 2 f_equal. apply mkbuffer_conc; [zlia..|].
    by rewrite <- app_assoc, (app_assoc (ztake n c)), ztake_zdrop.
  - by rewrite (app_assoc (ztake n c)), ztake_zdrop.
Qed.

Lemma buf_read_front pre src c post n :
  n = zlen src ->
  buf_read (conc pre (src ++ c) post) n = Ret (conc (pre ++ src) c post, Some src).
Proof.
  intros ->. rewrite buf_read_conc. zlen_facts. autorewrite with zlen. bdecide.
  by rewrite ztake_app_zlen, zdrop_app_zlen.
Qed.

Lemma buf_read_short pre c post n :
  n < 0 \/ zlen c < n -> buf_read (conc pre c post) n = Ret (conc pre c post, None).
Proof.
  intros H. rewrite buf_read_conc.
  replace ((0 <=? n) && (n <=? zlen c)) with false; [done|].
  symmetry; apply andb_false_iff; rewrite !Z.leb_gt. lia.
Qed.

Lemma buf_write_fits pre c post src :
  fits pre c post -> zlen src <= zlen post ->
  buf_write (conc pre c post) src = Ret (conc pre (c ++ src) (zdrop (zlen src) post), true).
Proof. intros HF H. rewrite buf_write_conc by done. by bdecide. Qed.

(** A sub-buffer written to the end is the same bytes written to the buffer. *)
Lemma buf_sub_append pre c post size :
  fits pre c post -> 0 <= size ->
  buf_sub (conc pre c post) size false =
    Ret (if size <=? zlen post
         then (conc pre (c ++ ztake size post) (zdrop size post),
               Some (conc [] [] (ztake size post), zlen pre + zlen c))
         else (conc pre c post, None)).
Proof.
  intros HF Hs. unfold buf_sub, buf_write_alloc, buf_safe.
  rewrite buf_valid_conc, buf_bptr_conc. unfold fits, BUF_SIZE_MAX in *. zlen_facts.
  cbn [capacity offset len conc].
  destruct (size <=? zlen post) eqn:E; breflect.
  - rewrite buf_size_valid_iff by lia. unfold BUF_SIZE_MAX. bdecide.
    unfold buf_load, set_len; cbn [data conc capacity offset len].
    rewrite (load_eq _ (pre ++ c) (ztake size post) (zdrop size post)).
    + cbn. do 2 f_equal; [|do 2 f_equal; apply mkbuffer_conc; [zlia..|done]].
      apply mkbuffer_conc; [zlia..|]. by rewrite <- !app_assoc, ztake_zdrop.
    + by rewrite <- app_assoc, ztake_zdrop.
    + by rewrite zlen_app.
    + zlia.
  - replace (_ && _ && _) with false; [done|].
    symmetry. apply andb_false_iff. right. apply Z.leb_gt. lia.
Qed.

Lemma buf_sub_prepend pre c post size :
  0 <= size ->
  buf_sub (conc pre c post) size true =
    Ret (if size <=? zlen pre
         then (conc (ztake (zlen pre - size) pre) (zdrop (zlen pre - size) pre ++ c) post,
               Some (conc [] [] (zdrop (zlen pre - size) pre), zlen pre - size))
         else (conc pre c post, None)).
Proof.
  intros Hs. unfold buf_sub, buf_prepend. rewrite buf_valid_conc. zlen_facts.
  cbn [negb orb offset conc len].
  destruct (size <=? zlen pre) eqn:E; breflect; bdecide; [|done].
  unfold buf_bptr, set_offset_len, buf_valid, buf_load.
  cbn [buf_defined data conc len offset capacity andb]. bdecide.
  rewrite (load_eq _ (ztake (zlen pre - size) pre) (zdrop (zlen pre - size) pre) (c ++ post)).
  - cbn. do 2 f_equal; [|do 2 f_equal; apply mkbuffer_conc; [zlia..|done]].
    apply mkbuffer_conc; [zlia..|]. by rewrite <- !app_assoc, (app_assoc (ztake _ _)), ztake_zdrop.
  - by rewrite (app_assoc (ztake _ _)), ztake_zdrop.
  - zlia.
  - zlia.
Qed.

Lemma buf_sub_commit_conc pre c1 old c2 post src sub p :
  data sub = Some src -> zlen src = zlen old -> p = zlen pre + zlen c1 ->
  buf_sub_commit (conc pre (c1 ++ old ++ c2) post) sub p = Ret (conc pre (c1 ++ src ++ c2) post).
Proof.
  intros Hd Hl ->. unfold buf_sub_commit, buf_store. rewrite Hd. cbn [data conc].
  rewrite (store_eq _ (pre ++ c1) old (c2 ++ post)); [|by rewrite <- !app_assoc|by rewrite zlen_app|done].
  cbn. f_equal. apply mkbuffer_conc; cbn; [zlia..|]. by rewrite <- !app_assoc.
Qed.

Lemma buf_contents_conc pre c post : buf_contents (conc pre c post) = Ret c.
Proof.
  unfold buf_contents. rewrite buf_len_conc, buf_bptr_conc.
  destruct (zlen c =? 0) eqn:E; breflect.
  - apply zlen_0_nil in E. by subst.
  - unfold buf_load; cbn. apply load_app.
Qed.

Lemma buf_init_conc pre c post n :
  buf_init (conc pre c post) n =
    if (0 <=? n) && (n <=? zlen pre + zlen c + zlen post)
    then (conc (ztake n (pre ++ c ++ post)) [] (zdrop n (pre ++ c ++ post)), true)
    else (conc pre c post, false).
Proof.
  unfold buf_init; cbn [capacity conc buf_defined data negb].
  destruct (0 <=? n) eqn:E1, (n <=? zlen pre + zlen c + zlen post) eqn:E2;
    breflect; bdecide; try done.
  f_equal. apply mkbuffer_conc; cbn; [zlia..|]. by rewrite ztake_zdrop.
Qed.

Lemma alloc_buf_conc n :
  0 <= n < BUF_SIZE_MAX -> alloc_buf n = Ret (conc [] [] (replicate (Z.to_nat n) 0)).
Proof.
  intros H. unfold alloc_buf. unfold BUF_SIZE_MAX in *. rewrite buf_size_valid_iff by lia.
  unfold BUF_SIZE_MAX. bdecide. f_equal. apply mkbuffer_conc; [zlia..|done].
Qed.

(** Moving the front of one buffer to the end of another. *)
Lemma buf_copy_n_conc dpre c dpost pre x rest post n :
  fits dpre c dpost -> zlen x <= zlen dpost -> n = zlen x ->
  buf_copy_n (conc dpre c dpost) (conc pre (x ++ rest) post) n =
    Ret (conc dpre (c ++ x) (zdrop (zlen x) dpost), conc (pre ++ x) rest post, true).
Proof.
  intros HF Hx ->. unfold buf_copy_n, buf_read_alloc. rewrite buf_bptr_conc. cbn [len conc offset].
  zlen_facts. autorewrite with zlen. bdecide. unfold buf_load, set_offset_len. cbn [data conc capacity].
  rewrite (load_eq _ pre x (rest ++ post)); [|by rewrite <- app_assoc|done|done].
  cbn [mbind outcome_mbind]. rewrite buf_write_fits by done. cbn [mbind outcome_mbind].
  do 3 f_equal. apply mkbuffer_conc; [zlia..|]. by rewrite <- !app_assoc.
Qed.

(** The bytes of a list from index [p] on overwritten by [x]. *)
Definition splice (p : Z) (x l : list Z) : list Z := ztake p l ++ x ++ zdrop (p + zlen x) l.

Lemma zlen_splice p x l : 0 <= p -> p + zlen x <= zlen l -> zlen (splice p x l) = zlen l.
Proof. intros. unfold splice. zlia. Qed.

Lemma lookup_splice p x l k :
  0 <= p -> p + zlen x <= zlen l ->
  splice p x l !! k = if (p <=? Z.of_nat k) && (Z.of_nat k <? p + zlen x) then x !! (k - Z.to_nat p)%nat else l !! k.
Proof.
  intros Hp Hx. unfold splice, ztake, zdrop, zlen in *.
  assert (Ht : length (take (Z.to_nat p) l) = Z.to_nat p) by (rewrite length_take; lia).
  destruct (p <=? Z.of_nat k) eqn:E1; breflect; cbn [andb].
  - rewrite lookup_app_r by lia. rewrite Ht.
    destruct (Z.of_nat k <? p + Z.of_nat (length x)) eqn:E2; breflect.
    + by rewrite lookup_app_l by lia.
    + rewrite lookup_app_r by lia. rewrite lookup_drop. f_equal. lia.
  - rewrite lookup_app_l by lia. by rewrite lookup_take_lt by lia.
Qed.

(** Copying the whole content of another buffer to index [p] of the content: the
    content grows when the bytes reach past its end. *)
Lemma buf_copy_range_conc pre c post spre x spost p :
  0 <= p ->
  buf_copy_range (conc pre c post) p (conc spre x spost) 0 (zlen x) =
    Ret (if p + zlen x <=? zlen c + zlen post
         then (let d := splice p x (c ++ post) in
               let n := Z.max (zlen c) (p + zlen x) in conc pre (ztake n d) (zdrop n d), true)
         else (conc pre c post, false)).
Proof.
  intros Hp. unfold buf_copy_range. cbn [len offset capacity conc]. zlen_facts.
  destruct (p + zlen x <=? zlen c + zlen post) eqn:E; breflect; bdecide; [|done].
  unfold buf_load, buf_store. cbn [data conc].
  rewrite (load_eq _ spre x spost); [|done|lia|done]. cbn [mbind outcome_mbind].
  set (l := c ++ post). assert (Hl : zlen l = zlen c + zlen post) by (unfold l; zlia).
  rewrite (store_eq _ (pre ++ ztake p l) (ztake (zlen x) (zdrop p l)) (zdrop (p + zlen x) l)).
  - cbn [mbind outcome_mbind]. set (n := Z.max _ _).
    assert (Hs : zlen (splice p x l) = zlen l) by (apply zlen_splice; lia).
    do 2 f_equal. unfold set_len; cbn [capacity offset len data].
    assert (Hd : (pre ++ ztake p l) ++ x ++ zdrop (p + zlen x) l = pre ++ ztake n (splice p x l) ++ zdrop n (splice p x l)).
    { rewrite ztake_zdrop. unfold splice. by rewrite <- app_assoc. }
    rewrite Hd. bcase; apply mkbuffer_conc; autorewrite with zlen; rewrite ?Hs; cbn [capacity offset len conc]; try done; lia.
  - rewrite <- zdrop_zdrop by lia. by rewrite <- app_assoc, ztake_zdrop, ztake_zdrop.
  - autorewrite with zlen. lia.
  - autorewrite with zlen. lia.
Qed.

Lemma fits_write pre c post src :
  fits pre c post -> zlen src <= zlen post -> fits pre (c ++ src) (zdrop (zlen src) post).
Proof. unfold fits; intros; zlia. Qed.

Lemma fits_prepend pre c post src :
  fits pre c post -> zlen src <= zlen pre -> fits (ztake (zlen pre - zlen src) pre) (src ++ c) post.
Proof. unfold fits; intros; zlia. Qed.

Lemma fits_advance pre c post n :
  fits pre c post -> 0 <= n <= zlen c -> fits (pre ++ ztake n c) (zdrop n c) post.
Proof. unfold fits; intros; zlia. Qed.

#[export] Hint Resolve conc_wf fits_write fits_prepend fits_advance : vpn.
