(* ===== verification/PacketId.v ===== *)
(** * Packet identifiers and replay protection ([packet_id.h], [packet_id.c])

    The receiver keeps the highest time stamp and sequence number it has accepted
    and, in backtrack mode (UDP), a sliding window of arrival times; the sender
    numbers its packets.  [crypto_check_replay] ([crypto.c]) is the handler that
    composes the receiver's operations.  [now] is the program's cached clock.
    The debug-only fields [name] and [unit] and the debug printing are left out. *)
From S2P Require Import Prelude Integer Buffer.

Definition PACKET_ID_MAX : Z := 2 ^ 32 - 1.
Definition PACKET_ID_WRAP_TRIGGER : Z := 0xFF000000.
Definition MIN_SEQ_BACKTRACK : Z := 0.
Definition MAX_SEQ_BACKTRACK : Z := 65536.
Definition MIN_TIME_BACKTRACK : Z := 0.
Definition MAX_TIME_BACKTRACK : Z := 600.
Definition SEQ_REAP_INTERVAL : Z := 5.
Definition SEQ_UNSEEN : Z := 0.
Definition SEQ_EXPIRED : Z := 1.

(** [struct packet_id_net] *)
Record packet_id_net : Type := mknet { net_id : Z; net_time : Z }.

#[global] Instance packet_id_net_eq_dec : EqDecision packet_id_net.
Proof. solve_decision. Defined.

(** [struct packet_id_rec]; [seq_list] is [None] for the null pointer. *)
Record packet_id_rec : Type := mkrec {
  last_reap : Z;
  rec_time : Z;
  rec_id : Z;
  seq_backtrack : Z;
  time_backtrack : Z;
  max_backtrack_stat : Z;
  initialized : bool;
  seq_list : option (circ Z)
}.

(** [struct packet_id_send] *)
Record packet_id_send : Type := mksend { send_id : Z; send_time : Z }.

(** [struct packet_id] *)
Record packet_id : Type := mkpid { pid_send : packet_id_send; pid_rec : packet_id_rec }.

Definition set_window (p : packet_id_rec) (time id : Z) (sl : circ Z) : packet_id_rec :=
  mkrec (last_reap p) time id (seq_backtrack p) (time_backtrack p)
    (max_backtrack_stat p) (initialized p) (Some sl).

Definition set_time_id (p : packet_id_rec) (time id : Z) : packet_id_rec :=
  mkrec (last_reap p) time id (seq_backtrack p) (time_backtrack p)
    (max_backtrack_stat p) (initialized p) (seq_list p).

Definition set_stat (p : packet_id_rec) (s : Z) : packet_id_rec :=
  mkrec (last_reap p) (rec_time p) (rec_id p) (seq_backtrack p) (time_backtrack p)
    s (initialized p) (seq_list p).

(** The state [CLEAR] leaves. *)
Definition packet_id_rec_zero : packet_id_rec := mkrec 0 0 0 0 0 0 false None.

Definition packet_id_init (seq_bt time_bt : Z) : outcome packet_id :=
  if negb (seq_bt =? 0)
  then
    _ ← c_assert ((MIN_SEQ_BACKTRACK <=? seq_bt) && (seq_bt <=? MAX_SEQ_BACKTRACK));
    _ ← c_assert ((MIN_TIME_BACKTRACK <=? time_bt) && (time_bt <=? MAX_TIME_BACKTRACK));
    Ret (mkpid (mksend 0 0)
           (mkrec 0 0 0 seq_bt time_bt 0 true (Some (CIRC_LIST_ALLOC SEQ_UNSEEN seq_bt))))
  else Ret (mkpid (mksend 0 0) (mkrec 0 0 0 0 0 0 true None)).

Definition packet_id_free (p : packet_id) : packet_id := mkpid (mksend 0 0) packet_id_rec_zero.

(** The loop that moves the window up to the new sequence number, one slot per
    number skipped. *)
Fixpoint packet_id_add_loop (fuel : nat) (sl : circ Z) (id target : Z) : outcome (circ Z * Z) :=
  if id <? target
  then
    match fuel with
    | O => Fatal
    | S fuel =>
        sl' ← CIRC_LIST_PUSH sl SEQ_UNSEEN;
        packet_id_add_loop fuel sl' (id +u 1) target
    end
  else Ret (sl, id).

Definition packet_id_add (now : Z) (p : packet_id_rec) (pin : packet_id_net) : outcome packet_id_rec :=
  match seq_list p with
  | Some sl =>
      let bt := u32 (seq_backtrack p) in
      let '(time, id, sl) :=
        if (CIRC_LIST_SIZE sl =? 0)
           || (rec_time p <? net_time pin)
           || ((bt <=? net_id pin) && (rec_id p <? net_id pin -u bt))
        then (net_time pin,
              (if bt <? net_id pin then net_id pin -u bt else 0),
              CIRC_LIST_RESET sl)
        else (rec_time p, rec_id p, sl) in
      '(sl, id) ← packet_id_add_loop (Z.to_nat (net_id pin - id)) sl id (net_id pin);
      let diff := id -u net_id pin in
      if (diff <? u32 (CIRC_LIST_SIZE sl)) && (SEQ_EXPIRED <? now)
      then sl ← CIRC_LIST_ITEM_set sl diff now; Ret (set_window p time id sl)
      else Ret (set_window p time id sl)
  | None => Ret (set_time_id p (net_time pin) (net_id pin))
  end.

(** The [for] loop of [packet_id_reap] from index [i], [n] items to go. *)
Fixpoint packet_id_reap_loop (n : nat) (i : Z) (sl : circ Z) (expire : bool) (tb now : Z)
  : outcome (circ Z) :=
  match n with
  | O => Ret sl
  | S n =>
      t ← CIRC_LIST_ITEM sl i;
      if t =? SEQ_EXPIRED then Ret sl
      else
        let expire := if negb expire && negb (t =? 0) && (t + tb <? now) then true else expire in
        if expire
        then sl' ← CIRC_LIST_ITEM_set sl i SEQ_EXPIRED;
             packet_id_reap_loop n (i + 1) sl' expire tb now
        else packet_id_reap_loop n (i + 1) sl expire tb now
  end.

Definition packet_id_reap (now : Z) (p : packet_id_rec) : outcome packet_id_rec :=
  let finish sl :=
    mkrec now (rec_time p) (rec_id p) (seq_backtrack p) (time_backtrack p)
      (max_backtrack_stat p) (initialized p) sl in
  if negb (time_backtrack p =? 0)
  then
    match seq_list p with
    | None => Oob
    | Some sl =>
        sl' ← packet_id_reap_loop (Z.to_nat (CIRC_LIST_SIZE sl)) 0 sl false (time_backtrack p) now;
        Ret (finish (Some sl'))
    end
  else Ret (finish (seq_list p)).

Definition packet_id_reap_test (now : Z) (p : packet_id_rec) : outcome packet_id_rec :=
  if last_reap p + SEQ_REAP_INTERVAL <=? now then packet_id_reap now p else Ret p.

(** The new state (the backtrack statistic changes) and the verdict. *)
Definition packet_id_test (p : packet_id_rec) (pin : packet_id_net) : outcome (packet_id_rec * bool) :=
  _ ← c_assert (initialized p);
  if net_id pin =? 0 then Ret (p, false)
  else if negb (seq_backtrack p =? 0)
  then
    if net_time pin =? rec_time p
    then
      if rec_id p <? net_id pin then Ret (p, true)
      else
        let diff := rec_id p -u net_id pin in
        let p := if max_backtrack_stat p <? i32 diff then set_stat p (i32 diff) else p in
        match seq_list p with
        | None => Oob
        | Some sl =>
            if u32 (CIRC_LIST_SIZE sl) <=? diff then Ret (p, false)
            else v ← CIRC_LIST_ITEM sl diff; Ret (p, v =? 0)
        end
    else if net_time pin <? rec_time p then Ret (p, false)
    else Ret (p, true)
  else
    if net_time pin =? rec_time p
    then Ret (p, (rec_id p =? 0) || (net_id pin =? rec_id p +u 1))
    else if net_time pin <? rec_time p then Ret (p, false)
    else Ret (p, net_id pin =? 1).

(** ** Wire format *)

Definition packet_id_size (long_form : bool) : Z := 4 + (if long_form then 4 else 0).

(** The buffer, the structure filled in and the result. *)
Definition packet_id_read (b : buffer) (long_form : bool) : outcome (buffer * packet_id_net * bool) :=
  '(b, r) ← buf_read b 4;
  match r with
  | None => Ret (b, mknet 0 0, false)
  | Some bytes =>
      let id := be_value bytes in
      if long_form
      then
        '(b, r) ← buf_read b 4;
        match r with
        | None => Ret (b, mknet id 0, false)
        | Some bytes => Ret (b, mknet id (be_value bytes), true)
        end
      else Ret (b, mknet id 0, true)
  end.

Definition packet_id_send_update (now : Z) (p : packet_id_send) (long_form : bool)
  : packet_id_send * bool :=
  let p := if send_time p =? 0 then mksend (send_id p) now else p in
  if send_id p =? PACKET_ID_MAX
  then
    if negb long_form || (now <=? send_time p) then (p, false)
    else (mksend (0 +u 1) now, true)
  else (mksend (send_id p +u 1) (send_time p), true).

Definition packet_id_write (now : Z) (p : packet_id_send) (b : buffer) (long_form prepend : bool)
  : outcome (packet_id_send * buffer * bool) :=
  match packet_id_send_update now p long_form with
  | (p, false) => Ret (p, b, false)
  | (p, true) =>
      let id_bytes := be_bytes 4 (send_id p) in
      let time_bytes := be_bytes 4 (u32 (send_time p)) in
      if prepend
      then
        '(b, ok) ← (if long_form then buf_write_prepend b time_bytes else Ret (b, true));
        if ok : bool
        then '(b, ok) ← buf_write_prepend b id_bytes; Ret (p, b, ok)
        else Ret (p, b, false)
      else
        '(b, ok) ← buf_write b id_bytes;
        if ok : bool
        then if long_form
             then '(b, ok) ← buf_write b time_bytes; Ret (p, b, ok)
             else Ret (p, b, true)
        else Ret (p, b, false)
  end.

Definition packet_id_close_to_wrapping (p : packet_id_send) : bool :=
  PACKET_ID_WRAP_TRIGGER <=? send_id p.

(** [abs] is an [unsigned int]: the difference is truncated to 32 bits. *)
Definition check_timestamp_delta (now remote max_delta : Z) : bool :=
  let abs := if remote <=? now then u32 (now - remote) else u32 (remote - now) in
  abs <=? max_delta.

(** ** Persistence *)

(** [struct packet_id_persist], without the file name (it only appears in messages). *)
Record packet_id_persist : Type := mkpersist {
  persist_fd : Z;
  persist_time : Z;
  persist_id : Z;
  time_last_written : Z;
  id_last_written : Z
}.

Definition packet_id_persist_init : packet_id_persist := mkpersist (-1) 0 0 0 0.

Definition packet_id_persist_enabled (p : packet_id_persist) : bool := 0 <=? persist_fd p.

Definition packet_id_persist_close (p : packet_id_persist) : packet_id_persist :=
  if packet_id_persist_enabled p then packet_id_persist_init else p.

(** [fd] is what [platform_open] returned, [locked] whether [flock] succeeded
    (a failure is fatal), [image] the file image when [read] returned all of it. *)
Definition packet_id_persist_load (p : packet_id_persist) (fd : Z) (locked : bool)
    (image : option (Z * Z)) : outcome packet_id_persist :=
  if negb (packet_id_persist_enabled p)
  then
    if fd =? -1 then Ret (mkpersist fd (persist_time p) (persist_id p) (time_last_written p) (id_last_written p))
    else
      _ ← c_assert locked;
      Ret match image with
          | Some (time, id) => mkpersist fd time id time id
          | None => mkpersist fd (persist_time p) (persist_id p) (time_last_written p) (id_last_written p)
          end
  else Ret p.

(** [seek_ok] and [write_ok] are the results of [lseek] and [write]; the second
    component is the image written to the file, if any. *)
Definition packet_id_persist_save (p : packet_id_persist) (seek_ok write_ok : bool)
  : packet_id_persist * option (Z * Z) :=
  if packet_id_persist_enabled p && negb (persist_time p =? 0)
     && (negb (persist_time p =? time_last_written p) || negb (persist_id p =? id_last_written p))
  then
    if seek_ok
    then if write_ok
         then (mkpersist (persist_fd p) (persist_time p) (persist_id p) (persist_time p) (persist_id p),
               Some (persist_time p, persist_id p))
         else (p, None)
    else (p, None)
  else (p, None).

(** [packet_id_persist_load_obj]: file copy to receiver. *)
Definition packet_id_persist_load_obj (p : packet_id_persist) (pid : packet_id_rec) : packet_id_rec :=
  if packet_id_persist_enabled p && negb (persist_time p =? 0)
  then set_time_id pid (persist_time p) (persist_id p)
  else pid.

(** [packet_id_persist_save_obj]: receiver to file copy. *)
Definition packet_id_persist_save_obj (p : packet_id_persist) (pid : packet_id_rec) : packet_id_persist :=
  if packet_id_persist_enabled p && negb (rec_time pid =? 0)
  then mkpersist (persist_fd p) (rec_time pid) (rec_id pid) (time_last_written p) (id_last_written p)
  else p.

(** ** The handler *)

(** The fields of [struct crypto_options] the handler uses; [co_long_form] is the
    flag [CO_PACKET_ID_LONG_FORM]. *)
Record crypto_options : Type := mkopt {
  opt_packet_id : packet_id;
  pid_persist : option packet_id_persist;
  co_long_form : bool
}.

Definition set_rec (opt : crypto_options) (p : packet_id_rec) : crypto_options :=
  mkopt (mkpid (pid_send (opt_packet_id opt)) p) (pid_persist opt) (co_long_form opt).

(** [crypto_check_replay] ([crypto.c]), without its warning message. *)
Definition crypto_check_replay (now : Z) (opt : crypto_options) (pin : packet_id_net)
  : outcome (crypto_options * bool) :=
  p ← packet_id_reap_test now (pid_rec (opt_packet_id opt));
  '(p, ok) ← packet_id_test p pin;
  if ok : bool
  then
    p ← packet_id_add now p pin;
    Ret (match pid_persist opt with
         | Some pp =>
             if co_long_form opt
             then mkopt (mkpid (pid_send (opt_packet_id opt)) p)
                    (Some (packet_id_persist_save_obj pp p)) (co_long_form opt)
             else set_rec opt p
         | None => set_rec opt p
         end, true)
  else Ret (set_rec opt p, false).

(** A run of the receiver: the packets that arrive, each with the time it is
    processed at; the verdicts, in order. *)
Fixpoint check_replay_all (opt : crypto_options) (evs : list (Z * packet_id_net))
  : outcome (crypto_options * list bool) :=
  match evs with
  | [] => Ret (opt, [])
  | (now, pin) :: evs =>
      '(opt, ok) ← crypto_check_replay now opt pin;
      '(opt, oks) ← check_replay_all opt evs;
      Ret (opt, ok :: oks)
  end.

(** The packets of a run that were accepted. *)
Definition accepted (evs : list (Z * packet_id_net)) (oks : list bool) : list packet_id_net :=
  (zip evs oks) ≫= (fun '(_, pin, ok) => if ok : bool then [pin] else []).

(** ** The receiver as an abstract window *)

(** What [packet_id_add] does to the time stamp, the sequence number and the
    window seen as a list (index 0 is the highest sequence number): move the
    window so that it reaches the packet, then record the arrival. *)
Definition window_slide (bt : Z) (w : Z * Z * list Z) (pin : packet_id_net) : Z * Z * list Z :=
  let '(time, id, win) := w in
  let '(time, id, win) :=
    if (zlen win =? 0) || (time <? net_time pin)
       || ((bt <=? net_id pin) && (id <? net_id pin - bt))
    then (net_time pin, (if bt <? net_id pin then net_id pin - bt else 0), [])
    else (time, id, win) in
  (time, Z.max id (net_id pin),
   ztake bt (replicate (Z.to_nat (net_id pin - id)) SEQ_UNSEEN ++ win)).

Definition window_mark (now : Z) (w : Z * Z * list Z) (pin : packet_id_net) : Z * Z * list Z :=
  let '(time, id, win) := w in
  let diff := id - net_id pin in
  (time, id, if (diff <? zlen win) && (SEQ_EXPIRED <? now) then <[Z.to_nat diff := now]> win else win).

Definition window_add (now bt : Z) (w : Z * Z * list Z) (pin : packet_id_net) : Z * Z * list Z :=
  window_mark now (window_slide bt w pin) pin.

(** A receiver in backtrack mode holding the window [w]. *)
Definition rec_window (bt : Z) (p : packet_id_rec) (w : Z * Z * list Z) : Prop :=
  exists sl, seq_list p = Some sl /\ initialized p = true /\ seq_backtrack p = bt /\
    x_cap sl = bt /\ circ_rep sl w.2 /\ rec_time p = w.1.1 /\ rec_id p = w.1.2 /\ is_u32 (rec_id p).

(** What the expiry of a receiver depends on besides the window. *)
Definition timers (p : packet_id_rec) : Z * Z := (time_backtrack p, last_reap p).

(** Packets as they come off the wire: 32-bit sequence number, non-negative time. *)
Definition net_ok (pin : packet_id_net) : Prop := is_u32 (net_id pin) /\ 0 <= net_time pin.

Lemma packet_id_add_loop_spec fuel sl win id target bt :
  circ_rep sl win -> x_cap sl = bt -> is_u32 target -> 0 <= id ->
  Z.of_nat fuel = Z.max 0 (target - id) ->
  exists sl', packet_id_add_loop fuel sl id target = Ret (sl', Z.max id target) /\
    circ_rep sl' (ztake bt (replicate fuel SEQ_UNSEEN ++ win)) /\ x_cap sl' = bt.
Proof.
  revert sl win id. induction fuel as [|fuel IH]; intros sl win id HR Hcap Ht Hid Hf;
    cbn [packet_id_add_loop].
  - bdecide. exists sl. rewrite Z.max_l by lia. split; [done|]. split; [|done].
    cbn [replicate app]. rewrite ztake_all; [done|]. apply circ_rep_length in HR. lia.
  - bdecide. destruct (circ_push_rep sl win SEQ_UNSEEN HR) as (sl1 & -> & HR1 & Hc1).
    cbn [mbind outcome_mbind]. rewrite u32_id by (unfold is_u32 in *; lia).
    destruct (IH sl1 _ (id + 1) HR1) as (sl2 & -> & HR2 & Hc2); [congruence|done|lia..|].
    exists sl2. split; [do 2 f_equal; lia|]. split; [|done].
    subst bt. eapply eq_ind; [exact HR2|]. pose proof (circ_rep_length _ _ HR).
    unfold ztake. rewrite replicate_S_end, <- app_assoc.
    destruct (decide (length (replicate fuel SEQ_UNSEEN) <= Z.to_nat (x_cap sl))%nat).
    + rewrite !take_app_ge by done. rewrite take_take. do 2 f_equal. lia.
    + rewrite !take_app_le by lia. done.
Qed.

Lemma rec_window_set_window bt p time id sl win :
  initialized p = true -> seq_backtrack p = bt -> x_cap sl = bt -> circ_rep sl win -> is_u32 id ->
  rec_window bt (set_window p time id sl) (time, id, win).
Proof. intros. by exists sl. Qed.

Lemma packet_id_add_window now bt p w pin :
  0 < bt <= MAX_SEQ_BACKTRACK -> rec_window bt p w -> net_ok pin ->
  exists p', packet_id_add now p pin = Ret p' /\ rec_window bt p' (window_add now bt w pin) /\
    timers p' = timers p.
Proof.
  intros Hbt (sl & Hsl & Hin & Hsb & Hcap & HR & Ht & Hi & Hu) (Hpu & Hpt).
  destruct w as [[time id] win]. cbn [fst snd] in *. unfold packet_id_add, window_add, window_slide. rewrite Hsl.
  unfold MAX_SEQ_BACKTRACK in Hbt. rewrite (u32_id (seq_backtrack p)) by (unfold is_u32; lia).
  rewrite (circ_size_rep _ _ HR), Ht, Hi, Hsb.
  replace ((bt <=? net_id pin) && (id <? net_id pin -u bt))
    with ((bt <=? net_id pin) && (id <? net_id pin - bt)).
  2:{ destruct (bt <=? net_id pin) eqn:E; [|done]; breflect.
      rewrite u32_id by (unfold is_u32 in *; lia). done. }
  replace (if bt <? net_id pin then net_id pin -u bt else 0)
    with (if bt <? net_id pin then net_id pin - bt else 0).
  2:{ destruct (bt <? net_id pin) eqn:E; [|done]; breflect.
      by rewrite u32_id by (unfold is_u32 in *; lia). }
  set (reset := _ || _ || _).
  set (id0 := if bt <? net_id pin then net_id pin - bt else 0).
  assert (Hid0 : 0 <= id0 <= net_id pin) by (unfold id0, is_u32 in *; bcase; lia).
  set (st := if reset then (net_time pin, id0, CIRC_LIST_RESET sl) else (time, id, sl)).
  set (aw := if reset then (net_time pin, id0, []) else (time, id, win)).
  assert (Hst : st.1 = aw.1 /\ circ_rep st.2 aw.2 /\ x_cap st.2 = bt /\ is_u32 aw.1.2).
  { unfold st, aw; destruct reset; cbn; split; try done; (split; [|split]); try done.
    - by eapply circ_reset_rep.
    - unfold is_u32 in *; lia.
    - by rewrite <- Hi. }
  destruct st as [[t1 i1] sl1], aw as [[t2 i2] win2]; cbn in Hst.
  destruct Hst as ([= -> ->] & HR1 & Hc1 & Hu2). unfold window_mark.
  destruct (packet_id_add_loop_spec (Z.to_nat (net_id pin - i2)) sl1 win2 i2 (net_id pin) bt)
    as (sl2 & -> & HR2 & Hc2); [done|done|done|unfold is_u32 in *; lia|unfold is_u32 in *; lia|].
  cbn [mbind outcome_mbind].
  rewrite (u32_id (Z.max i2 (net_id pin) - net_id pin)) by (unfold is_u32 in *; lia).
  pose proof (circ_rep_length _ _ HR2). rewrite (circ_size_rep _ _ HR2).
  rewrite u32_id by (unfold is_u32; lia).
  set (win3 := ztake bt _) in *.
  destruct ((_ <? zlen win3) && (SEQ_EXPIRED <? now)) eqn:E; breflect.
  - destruct (circ_item_set_rep sl2 win3 (Z.max i2 (net_id pin) - net_id pin) now HR2)
      as (sl3 & -> & HR3 & Hc3); [lia|].
    cbn. eexists; split; [reflexivity|]. split; [|done].
    apply rec_window_set_window; try done; [congruence|]. unfold is_u32 in *; lia.
  - eexists; split; [reflexivity|]. split; [|done].
    apply rec_window_set_window; try done. unfold is_u32 in *; lia.
Qed.

(** What reaping makes of a window: from the newest arrival that is older than [tb]
    seconds on, all entries expire; it stops at the first one that has expired. *)
Fixpoint reap_list (expire : bool) (tb now : Z) (win : list Z) : list Z :=
  match win with
  | [] => []
  | t :: win' =>
      if t =? SEQ_EXPIRED then win
      else
        let expire := expire || (negb (t =? 0) && (t + tb <? now)) in
        (if expire then SEQ_EXPIRED else t) :: reap_list expire tb now win'
  end.

Definition reap_window (now : Z) (t : Z * Z) (win : list Z) : list Z :=
  if (t.2 + SEQ_REAP_INTERVAL <=? now) && negb (t.1 =? 0) then reap_list false t.1 now win else win.

Lemma packet_id_reap_loop_spec n i sl win expire tb now :
  circ_rep sl win -> 0 <= i -> i + Z.of_nat n = zlen win ->
  exists sl', packet_id_reap_loop n i sl expire tb now = Ret sl' /\ x_cap sl' = x_cap sl /\
    circ_rep sl' (ztake i win ++ reap_list expire tb now (zdrop i win)).
Proof.
  revert i sl win expire. induction n as [|n IH]; intros i sl win expire HR Hi Hn; cbn [packet_id_reap_loop].
  { exists sl. split; [done|]. split; [done|]. rewrite zdrop_all, app_nil_r, ztake_all by lia. done. }
  destruct (circ_item_rep sl win i HR) as (t & -> & Hv); [lia|]. cbn [mbind outcome_mbind].
  assert (Hd : zdrop i win = t :: zdrop (i + 1) win).
  { unfold zdrop. rewrite (drop_S _ _ _ Hv). do 2 f_equal. lia. }
  assert (Ht : ztake (i + 1) win = ztake i win ++ [t]).
  { unfold ztake. replace (Z.to_nat (i + 1)) with (S (Z.to_nat i)) by lia. by apply take_S_r. }
  rewrite Hd. cbn [reap_list]. destruct (t =? SEQ_EXPIRED) eqn:E; breflect.
  { exists sl. split; [done|]. split; [done|]. by rewrite <- Hd, ztake_zdrop. }
  replace (if negb expire && negb (t =? 0) && (t + tb <? now) then true else expire)
    with (expire || (negb (t =? 0) && (t + tb <? now))) by (by destruct expire, (negb _ && _) eqn:?; cbn; rewrite ?Heqb).
  cbv zeta. destruct (expire || _) eqn:Ee.
  - destruct (circ_item_set_rep sl win i SEQ_EXPIRED HR) as (sl1 & -> & HR1 & Hc1); [lia|]. cbn [mbind outcome_mbind].
    destruct (IH (i + 1) sl1 (<[Z.to_nat i := SEQ_EXPIRED]> win) true) as (sl2 & -> & Hc2 & HR2);
      [done|lia|rewrite zlen_insert; lia|].
    exists sl2. split; [done|]. split; [congruence|]. revert HR2. unfold ztake, zdrop.
    replace (Z.to_nat (i + 1)) with (S (Z.to_nat i)) by lia. pose proof (lookup_lt_Some _ _ _ Hv).
    rewrite (take_S_r _ _ SEQ_EXPIRED) by (by apply list_lookup_insert_eq).
    rewrite take_insert_ge, drop_insert_lt by lia. by rewrite <- app_assoc.
  - destruct (IH (i + 1) sl win false) as (sl2 & -> & Hc2 & HR2); [done|lia..|].
    exists sl2. split; [done|]. split; [done|]. rewrite Ht, <- app_assoc in HR2. exact HR2.
Qed.

Lemma packet_id_reap_window now bt p time id win :
  rec_window bt p (time, id, win) ->
  exists p', packet_id_reap_test now p = Ret p' /\ rec_window bt p' (time, id, reap_window now (timers p) win) /\
    timers p' = (time_backtrack p, if last_reap p + SEQ_REAP_INTERVAL <=? now then now else last_reap p).
Proof.
  intros (sl & Hsl & Hin & Hsb & Hcap & HR & Ht & Hi & Hu). cbn [fst snd] in *.
  unfold packet_id_reap_test, reap_window, timers. cbn [fst snd].
  destruct (last_reap p + SEQ_REAP_INTERVAL <=? now); cbn [andb].
  2:{ exists p. split; [done|]. split; [|done]. by exists sl. }
  unfold packet_id_reap. destruct (time_backtrack p =? 0) eqn:E; breflect; cbn [negb].
  { eexists. split; [reflexivity|]. split; [|done]. by exists sl. }
  rewrite Hsl. pose proof (circ_size_rep _ _ HR) as Hs.
  destruct (packet_id_reap_loop_spec (Z.to_nat (CIRC_LIST_SIZE sl)) 0 sl win false (time_backtrack p) now)
    as (sl' & -> & Hc' & HR'); [done|lia|rewrite Hs; zlen_facts; lia|].
  cbn. eexists. split; [reflexivity|]. split; [|done]. exists sl'; cbn. split; [done|]. rewrite Hc'. done.
Qed.

(** A slot that records an arrival never becomes free again. *)
Definition reaped (win win' : list Z) : Prop :=
  length win' = length win /\
  forall i v', win' !! i = Some v' -> v' = SEQ_EXPIRED \/ win !! i = Some v'.

Lemma reap_list_reaped expire tb now win : reaped win (reap_list expire tb now win).
Proof.
  revert expire. induction win as [|t win IH]; intros expire; cbn [reap_list]; [split; eauto|].
  destruct (t =? SEQ_EXPIRED); [split; eauto|]. destruct (IH (expire || (negb (t =? 0) && (t + tb <? now)))) as [Hl Hi].
  split; [cbn; congruence|]. intros [|i] v'; cbn; [|apply Hi]. destruct (expire || _); intros [= <-]; auto.
Qed.

Lemma reap_window_reaped now t win : reaped win (reap_window now t win).
Proof. unfold reap_window. destruct (_ && _); [apply reap_list_reaped|split; eauto]. Qed.

(** The verdict on a window. *)
Definition window_test (w : Z * Z * list Z) (pin : packet_id_net) : bool :=
  let '(time, id, win) := w in
  negb (net_id pin =? 0) &&
  ((time <? net_time pin) ||
   ((net_time pin =? time) &&
    ((id <? net_id pin) ||
     match win !! Z.to_nat (id - net_id pin) with Some v => v =? 0 | None => false end))).

Lemma packet_id_test_window bt p w pin :
  0 < bt <= MAX_SEQ_BACKTRACK -> rec_window bt p w -> net_ok pin ->
  exists p', packet_id_test p pin = Ret (p', window_test w pin) /\ rec_window bt p' w /\
    timers p' = timers p.
Proof.
  intros Hbt HW (Hpu & Hpt). pose proof HW as (sl & Hsl & Hin & Hsb & Hcap & HR & Ht & Hi & Hu).
  destruct w as [[time id] win]. cbn [fst snd] in *. unfold packet_id_test, window_test.
  rewrite Hin. cbn [mbind outcome_mbind c_assert].
  destruct (net_id pin =? 0) eqn:E0; breflect; cbn [negb andb]; [by exists p|].
  rewrite Hsb. bdecide. rewrite Ht, Hi.
  destruct (net_time pin =? time) eqn:Et; breflect.
  - bdecide. destruct (id <? net_id pin) eqn:Ei; breflect; cbn [orb]; [by exists p|].
    rewrite u32_id by (unfold is_u32 in *; lia).
    set (p1 := if max_backtrack_stat p <? _ then _ else p).
    assert (HW1 : rec_window bt p1 (time, id, win) /\ timers p1 = timers p /\ seq_list p1 = Some sl).
    { unfold p1; destruct (_ <? i32 _); [|done]. split; [|done]. by exists sl. }
    destruct HW1 as (HW1 & Htb & ->). pose proof (circ_rep_length _ _ HR).
    unfold MAX_SEQ_BACKTRACK in *. rewrite (circ_size_rep _ _ HR), u32_id by (unfold is_u32; lia).
    destruct (zlen win <=? id - net_id pin) eqn:Ed; breflect.
    + rewrite lookup_ge_None_2 by (unfold zlen in *; lia). by exists p1.
    + destruct (circ_item_rep sl win (id - net_id pin) HR) as (v & -> & ->); [lia|].
      cbn. by exists p1.
  - destruct (net_time pin <? time) eqn:El; breflect; bdecide; by exists p.
Qed.

(** ** The window invariant *)

(** A window is empty only at the start, and otherwise has a slot for each of the last
    [bt] sequence numbers. *)
Definition window_shape (bt : Z) (w : Z * Z * list Z) : Prop :=
  let '(time, id, win) := w in
  0 <= id /\ (win = [] -> time = 0 /\ id = 0) /\ (win <> [] -> zlen win = Z.min bt id).

(** What the window [(time, id, win)] knows about the packets [S] accepted so far:
    none is newer than [(time, id)], and a slot of an accepted packet is not free. *)
Definition window_inv (bt : Z) (S : list packet_id_net) (w : Z * Z * list Z) : Prop :=
  let '(time, id, win) := w in
  window_shape bt w /\ (win = [] -> S = []) /\
  (forall q, q ∈ S -> net_time q <= time /\ (net_time q = time -> net_id q <= id)) /\
  (forall k v, win !! k = Some v -> mknet (id - Z.of_nat k) time ∈ S -> v <> 0).

Lemma window_test_true time id win pin :
  window_test (time, id, win) pin = true <->
  net_id pin <> 0 /\
  (time < net_time pin \/
   net_time pin = time /\ (id < net_id pin \/ win !! Z.to_nat (id - net_id pin) = Some 0)).
Proof.
  unfold window_test. rewrite andb_true_iff, orb_true_iff, andb_true_iff, orb_true_iff.
  rewrite negb_true_iff, Z.eqb_neq, Z.eqb_eq, !Z.ltb_lt.
  assert (E : match win !! Z.to_nat (id - net_id pin) with Some v => v =? 0 | None => false end = true
              <-> win !! Z.to_nat (id - net_id pin) = Some 0).
  { destruct (win !! _) as [v|]; [|done]. rewrite Z.eqb_eq. split; congruence. }
  by rewrite E.
Qed.

(** Making room for an acceptable packet: afterwards its slot is there, and every slot
    is one from before, or free and for a number above all those from before. *)
Lemma window_slide_spec bt time id win pin :
  0 < bt -> window_shape bt (time, id, win) -> net_ok pin -> window_test (time, id, win) pin = true ->
  let '(time', id', win') := window_slide bt (time, id, win) pin in
  time' = net_time pin /\ id' = (if time <? net_time pin then net_id pin else Z.max id (net_id pin)) /\
  0 <= id' - net_id pin < zlen win' /\ time <= time' /\ window_shape bt (time', id', win') /\
  forall k v, win' !! k = Some v -> 0 < id' - Z.of_nat k /\
    ((v = SEQ_UNSEEN /\ (time < time' \/ id < id' - Z.of_nat k)) \/
     (time' = time /\ exists k0, win !! k0 = Some v /\ id' - Z.of_nat k = id - Z.of_nat k0)).
Proof.
  intros Hbt (Hid & Hnil & Hcons) (Hpu & Hpt) Htest. unfold is_u32 in Hpu.
  apply window_test_true in Htest as [Hnz Htest]. unfold window_slide.
  set (id0 := if bt <? net_id pin then net_id pin - bt else 0).
  assert (Hid0 : net_id pin - id0 = Z.min bt (net_id pin) /\ 0 <= id0).
  { unfold id0. destruct (bt <? net_id pin) eqn:Eb; breflect; lia. }
  destruct ((zlen win =? 0) || (time <? net_time pin)
            || ((bt <=? net_id pin) && (id <? net_id pin - bt))) eqn:Ereset.
  - (* the window starts again at the new packet *)
    rewrite app_nil_r. unfold ztake. rewrite take_replicate.
    replace (Z.to_nat bt `min` Z.to_nat (net_id pin - id0))%nat with (Z.to_nat (Z.min bt (net_id pin))) by lia.
    assert (Hfar : time < net_time pin \/ net_time pin = time /\ id <= id0).
    { rewrite !orb_true_iff, andb_true_iff, Z.eqb_eq, Z.leb_le, !Z.ltb_lt in Ereset.
      destruct Ereset as [[Ereset|Ereset]|[Er1 Er2]]; [|lia|].
      - apply zlen_0_nil in Ereset. destruct (Hnil Ereset) as [-> ->]. lia.
      - destruct Htest as [|[E _]]; [by left|]. right. split; [done|]. unfold id0. bcase; lia. }
    split; [done|]. split; [bcase; lia|]. split; [rewrite zlen_replicate; lia|]. split; [lia|]. split.
    + split; [lia|]. split; [|intros _; rewrite zlen_replicate; lia].
      intros Hr. apply (f_equal length) in Hr. rewrite length_replicate in Hr. cbn in Hr. lia.
    + intros k v Hk. apply lookup_replicate in Hk as [-> Hk]. split; [lia|]. left. split; [done|]. lia.
  - (* the window slides, or the packet is inside it *)
    rewrite !orb_false_iff, Z.eqb_neq, Z.ltb_ge in Ereset. destruct Ereset as [[Hz Hle] Hfar].
    destruct Htest as [|[Hpt' Htest]]; [lia|].
    assert (Hwin : win <> []) by (intros ->; done). specialize (Hcons Hwin).
    assert (Hn : net_id pin - id <= bt).
    { apply andb_false_iff in Hfar as [Hfar|Hfar]; breflect; lia. }
    set (n := Z.to_nat (net_id pin - id)). set (win' := ztake bt (replicate n SEQ_UNSEEN ++ win)).
    assert (Hlen : zlen win' = Z.min bt (Z.max id (net_id pin))).
    { unfold win'. rewrite zlen_ztake, zlen_app, zlen_replicate. unfold n. zlen_facts. lia. }
    split; [done|]. split; [bcase; lia|]. split.
    { destruct Htest as [|Ew]; [lia|]. apply lookup_lt_Some in Ew. unfold zlen in *. lia. }
    split; [lia|]. split.
    + split; [lia|]. split; [|done]. intros Hr. rewrite Hr, zlen_nil in Hlen. lia.
    + intros k v Hk. pose proof (lookup_lt_Some _ _ _ Hk). split; [unfold zlen in Hlen; lia|].
      unfold win', ztake in Hk. apply lookup_take_Some in Hk as [Hk _].
      apply lookup_app_Some in Hk as [Hk|[Hk1 Hk2]].
      * apply lookup_replicate in Hk as [-> Hk]. left. split; [done|]. right. unfold n in Hk. lia.
      * rewrite length_replicate in Hk1, Hk2. right. split; [done|]. eexists. split; [exact Hk2|]. unfold n in *. lia.
Qed.

(** The new packet is marked in its slot; all the others stay. *)
Lemma window_mark_spec now time id win pin k v :
  SEQ_EXPIRED < now -> 0 <= id - net_id pin < zlen win ->
  (window_mark now (time, id, win) pin).2 !! k = Some v ->
  (id - Z.of_nat k = net_id pin /\ v = now) \/ (id - Z.of_nat k <> net_id pin /\ win !! k = Some v).
Proof.
  intros Hnow Hd. unfold window_mark, SEQ_EXPIRED in *. bdecide. cbn [snd].
  destruct (decide (k = Z.to_nat (id - net_id pin))) as [->|Hne].
  - rewrite list_lookup_insert_eq by (unfold zlen in Hd; lia). intros [= <-]. left. lia.
  - rewrite list_lookup_insert_ne by done. right. split; [lia|done].
Qed.

Lemma window_mark_shape bt now time id win pin :
  window_shape bt (time, id, win) -> 0 <= id - net_id pin < zlen win ->
  exists win', window_mark now (time, id, win) pin = (time, id, win') /\ window_shape bt (time, id, win') /\ win' <> [].
Proof.
  intros (Hid & _ & Hcons) Hd. assert (Hwin : win <> []) by (intros ->; unfold zlen in Hd; cbn in Hd; lia).
  unfold window_mark. eexists. split; [done|]. set (win' := if _ && _ then _ else _).
  assert (Hl : length win' = length win) by (unfold win'; destruct (_ && _); [apply length_insert|done]).
  assert (Hne : win' <> []) by (intros E; rewrite E in Hl; by destruct win).
  split; [|done]. split; [done|]. split; [done|]. intros _. unfold zlen in *. rewrite Hl. by apply Hcons.
Qed.

Lemma window_add_inv bt S now time id win pin :
  0 < bt -> SEQ_EXPIRED < now -> window_inv bt S (time, id, win) -> net_ok pin -> window_test (time, id, win) pin = true ->
  window_inv bt (pin :: S) (window_add now bt (time, id, win) pin).
Proof.
  intros Hbt Hnow (Hsh & Hnil & Hold & Hslot) Hp Ht. pose proof (window_slide_spec bt time id win pin Hbt Hsh Hp Ht) as Hsl.
  unfold window_add. destruct (window_slide bt (time, id, win) pin) as [[time' id'] win'].
  destruct Hsl as (Et & Ei & Hd & Hle & Hsh' & Hs). subst time'.
  pose proof (window_mark_spec now (net_time pin) id' win' pin) as Hm.
  destruct (window_mark_shape bt now (net_time pin) id' win' pin Hsh' Hd) as (win2 & Ew & Hsh2 & Hne). rewrite Ew in Hm |- *. cbn [snd] in Hm.
  split; [done|]. split; [done|]. split.
  - intros q [->|Hq]%elem_of_cons; [lia|]. destruct (Hold q Hq) as [H1 H2]. split; [lia|].
    intros E. destruct (time <? net_time pin) eqn:El in Ei; breflect; [lia|]. specialize (H2 ltac:(lia)). lia.
  - intros k v Hk Hin. unfold SEQ_EXPIRED in Hnow. destruct (Hm k v Hnow Hd Hk) as [[_ ->]|[Hnp Hk']]; [lia|].
    apply elem_of_cons in Hin as [Hin|Hin]; [exfalso; apply Hnp; by rewrite <- Hin|].
    destruct (Hs k v Hk') as [_ [[-> Hnew]|(E & k0 & Hk0 & Ek)]].
    + destruct (Hold _ Hin) as [H1 H2]. cbn in H1, H2. destruct Hnew; [lia|].
      destruct (decide (net_time pin = time)) as [E|E]; [specialize (H2 E); lia|lia].
    + rewrite Ek, E in Hin. by apply (Hslot k0 v Hk0).
Qed.

Lemma window_shape_reaped bt time id win win' :
  reaped win win' -> window_shape bt (time, id, win) -> window_shape bt (time, id, win').
Proof.
  intros [Hl _] (Hid & Hnil & Hcons). split; [done|]. split.
  - intros ->. apply Hnil. by destruct win.
  - intros Hne. unfold zlen. rewrite Hl. apply Hcons. intros ->. by destruct win'.
Qed.

Lemma window_reaped_inv bt S time id win win' :
  window_inv bt S (time, id, win) -> reaped win win' -> window_inv bt S (time, id, win').
Proof.
  intros (Hsh & Hnil & Hold & Hslot) Hr. pose proof Hr as [Hlen Hre].
  split; [by eapply window_shape_reaped|]. split; [intros ->; apply Hnil; by destruct win|]. split; [done|].
  intros k v Hk Hin. destruct (Hre k v Hk) as [->|Hk']; [done|]. by apply (Hslot k v Hk').
Qed.

(** An accepted packet is not one accepted before. *)
Lemma window_test_fresh bt S w pin :
  window_inv bt S w -> window_test w pin = true -> pin ∉ S.
Proof.
  destruct w as [[time id] win]. intros (_ & _ & Hold & Hslot) Ht Hin.
  apply window_test_true in Ht as [_ Ht]. destruct (Hold _ Hin) as [H1 H2].
  destruct Ht as [|[H0 Ht]]; [lia|]. specialize (H2 H0). destruct Ht as [|Ev]; [lia|].
  apply (Hslot _ _ Ev); [|done]. destruct pin as [i t]; cbn in *. subst t.
  by replace (id - Z.of_nat (Z.to_nat (id - i))) with i by lia.
Qed.
