(* ===== verification/PacketIdSpec.v ===== *)
(** * Correctness of the replay protection

    The receiver against an abstract monitor that remembers every accepted packet,
    freshness of what it accepts in every mode, the numbering of the sender, the
    wire format, and what reloading a persisted state does. *)
From S2P Require Import Prelude Integer Buffer PacketId.

(** ** The abstract monitor *)

(** The newest [(time, id)] accepted, the number up to which everything counts as expired,
    when that was last looked at, and all the packets accepted with their arrival times. *)
Record monitor : Type := mkmon {
  m_time : Z; m_id : Z; m_floor : Z; m_last : Z; m_seen : list (packet_id_net * Z)
}.

(** A packet accepted under the current time stamp more than [tb] seconds ago. *)
Definition mon_stale (tb now : Z) (m : monitor) (e : packet_id_net * Z) : bool :=
  (net_time e.1 =? m_time m) && (e.2 + tb <? now).

Definition mon_floor (tb now : Z) (m : monitor) : Z :=
  foldr (fun e f => if mon_stale tb now m e then Z.max (net_id e.1) f else f) (m_floor m) (m_seen m).

(** Expiry, at most every [SEQ_REAP_INTERVAL] seconds: what has a number up to that of a
    stale packet is too late from now on.  [tb = 0] turns it off. *)
Definition mon_reap (tb now : Z) (m : monitor) : monitor :=
  if m_last m + SEQ_REAP_INTERVAL <=? now
  then mkmon (m_time m) (m_id m) (if tb =? 0 then m_floor m else mon_floor tb now m) now (m_seen m)
  else m.

(** Sequence numbers start at 1; a packet is good when it is newer than all
    accepted ones, or when it is at most [bt - 1] behind the newest one of the
    current time stamp, has not expired and was not accepted yet. *)
Definition mon_accepts (bt : Z) (m : monitor) (pin : packet_id_net) : bool :=
  negb (net_id pin =? 0) &&
  ((m_time m <? net_time pin) ||
   ((net_time pin =? m_time m) &&
    ((m_id m <? net_id pin) ||
     ((m_id m - net_id pin <? bt) && (m_floor m <? net_id pin) && bool_decide (pin ∉ (m_seen m).*1))))).

Definition mon_accept (now : Z) (m : monitor) (pin : packet_id_net) : monitor :=
  mkmon (net_time pin)
    (if m_time m <? net_time pin then net_id pin else Z.max (m_id m) (net_id pin))
    (if m_time m <? net_time pin then 0 else m_floor m)
    (m_last m) ((pin, now) :: m_seen m).

Fixpoint mon_run (bt tb : Z) (m : monitor) (evs : list (Z * packet_id_net)) : list bool :=
  match evs with
  | [] => []
  | (now, pin) :: evs =>
      let m := mon_reap tb now m in
      let ok := mon_accepts bt m pin in
      ok :: mon_run bt tb (if ok then mon_accept now m pin else m) evs
  end.

Definition mon_start : monitor := mkmon 0 0 0 0 [].

(** Clock and packets of a run: the clock is past the special values of the
    window, the packets are as read from the wire. *)
Definition events_ok (evs : list (Z * packet_id_net)) : Prop :=
  Forall (fun '(now, pin) => SEQ_EXPIRED < now /\ net_ok pin) evs.

(** Discharges [events_ok] of a concrete run. *)
Ltac events_solve :=
  unfold events_ok;
  repeat (apply Forall_cons; split;
    [unfold net_ok, is_u32, SEQ_EXPIRED; cbn [net_id net_time]; lia|]);
  apply Forall_nil; exact I.

(** The receiver a session starts with. *)
Definition start (bt tb : Z) (pp : option packet_id_persist) (long_form : bool)
  : outcome crypto_options :=
  pid ← packet_id_init bt tb; Ret (mkopt pid pp long_form).

(** ** One step of the receiver in backtrack mode *)

(** The receiver of a session. *)
#[local] Notation opt_rec opt := (pid_rec (opt_packet_id opt)).

Lemma check_replay_window now bt opt time id win pin :
  0 < bt <= MAX_SEQ_BACKTRACK -> net_ok pin -> rec_window bt (opt_rec opt) (time, id, win) ->
  let w := (time, id, reap_window now (timers (opt_rec opt)) win) in
  exists opt', crypto_check_replay now opt pin = Ret (opt', window_test w pin) /\
    rec_window bt (opt_rec opt') (if window_test w pin then window_add now bt w pin else w) /\
    timers (opt_rec opt') = (time_backtrack (opt_rec opt),
      if last_reap (opt_rec opt) + SEQ_REAP_INTERVAL <=? now then now else last_reap (opt_rec opt)) /\
    co_long_form opt' = co_long_form opt /\
    (window_test w pin = true -> co_long_form opt = true ->
     pid_persist opt' = (fun pp => packet_id_persist_save_obj pp (opt_rec opt')) <$> pid_persist opt).
Proof.
  intros Hbt Hp HW w. unfold crypto_check_replay.
  destruct (packet_id_reap_window now bt _ time id win HW) as (p1 & -> & HW1 & Ht1). fold w in HW1. cbn [mbind outcome_mbind].
  destruct (packet_id_test_window bt p1 _ pin Hbt HW1 Hp) as (p2 & -> & HW2 & Ht2). cbn [mbind outcome_mbind].
  destruct (window_test w pin) eqn:Ht.
  - destruct (packet_id_add_window now bt p2 _ pin Hbt HW2 Hp) as (p3 & -> & HW3 & Ht3). cbn [mbind outcome_mbind].
    eexists. split; [reflexivity|].
    destruct (pid_persist opt) eqn:Epp; [destruct (co_long_form opt) eqn:Elf|]; cbn; rewrite ?Epp, ?Elf; split_and!; try done; congruence.
  - eexists. split; [reflexivity|]. split; [exact HW2|]. cbn. split_and!; done || congruence.
Qed.

(** The receiver of [opt] is in backtrack mode and holds a window that knows
    about the accepted packets [S]. *)
Definition udp_inv (bt tb : Z) (S : list packet_id_net) (opt : crypto_options) (w : Z * Z * list Z) : Prop :=
  rec_window bt (opt_rec opt) w /\ time_backtrack (opt_rec opt) = tb /\ window_inv bt S w.

Lemma check_replay_udp now bt tb S opt w pin :
  0 < bt <= MAX_SEQ_BACKTRACK -> SEQ_EXPIRED < now -> net_ok pin -> udp_inv bt tb S opt w ->
  exists opt' w1, crypto_check_replay now opt pin = Ret (opt', window_test w1 pin) /\
    window_inv bt S w1 /\ w1.1 = w.1 /\
    udp_inv bt tb (if window_test w1 pin then pin :: S else S) opt'
      (if window_test w1 pin then window_add now bt w1 pin else w1).
Proof.
  intros Hbt Hnow Hp (HW & Htb & HI). destruct w as [[time id] win].
  destruct (check_replay_window now bt opt time id win pin Hbt Hp HW) as (opt' & E & HW' & Ht' & _).
  set (w1 := (time, id, reap_window now (timers (opt_rec opt)) win)) in *.
  assert (HI1 : window_inv bt S w1) by (eapply window_reaped_inv; [exact HI|apply reap_window_reaped]).
  exists opt', w1. split; [done|]. split; [done|]. split; [done|]. split; [done|].
  split; [injection Ht' as Ht' _; congruence|].
  destruct (window_test w1 pin) eqn:Ht; [|done]. by apply window_add_inv; [lia|..].
Qed.

Lemma start_udp bt tb pp lf :
  0 < bt <= MAX_SEQ_BACKTRACK -> 0 <= tb <= MAX_TIME_BACKTRACK ->
  exists opt, start bt tb pp lf = Ret opt /\ udp_inv bt tb [] opt (0, 0, []) /\
    timers (opt_rec opt) = (tb, 0) /\ pid_persist opt = pp /\ co_long_form opt = lf.
Proof.
  intros Hbt Htb. unfold start, packet_id_init, MAX_SEQ_BACKTRACK, MAX_TIME_BACKTRACK,
    MIN_SEQ_BACKTRACK, MIN_TIME_BACKTRACK in *. bdecide. cbn.
  eexists; split; [reflexivity|]. split; [|done]. split; [|split; [done|]]; cbn.
  - exists (CIRC_LIST_ALLOC SEQ_UNSEEN bt). cbn. do 4 (split; [done|]). split; [|done].
    apply circ_alloc_rep. lia.
  - split; [done|]. split; [done|]. split; [|done]. intros q Hq. by apply elem_of_nil in Hq.
Qed.

(** ** The window and the monitor *)

(** The slot of the number [i] under the monitor [m]: expired up to the floor; above it the
    arrival time of the packet, or free. *)
Definition slot_ok (m : monitor) (i v : Z) : Prop :=
  (i <= m_floor m -> v = SEQ_EXPIRED) /\
  (m_floor m < i ->
     (forall a, (mknet i (m_time m), a) ∈ m_seen m -> v = a) /\
     (mknet i (m_time m) ∉ (m_seen m).*1 -> v = SEQ_UNSEEN)).

Record mon_rel (bt : Z) (m : monitor) (win : list Z) : Prop := mkrel {
  mr_shape : window_shape bt (m_time m, m_id m, win);
  mr_floor : 0 <= m_floor m <= m_id m;
  mr_seen q a : (q, a) ∈ m_seen m ->
    SEQ_EXPIRED < a /\ net_time q <= m_time m /\ (net_time q = m_time m -> net_id q <= m_id m);
  mr_slot k v : win !! k = Some v -> slot_ok m (m_id m - Z.of_nat k) v
}.

Lemma seen_pair m q : q ∈ (m_seen m).*1 -> exists a, (q, a) ∈ m_seen m.
Proof. intros ([q' a] & -> & H)%list_elem_of_fmap. by exists a. Qed.

Lemma mon_floor_spec tb now m :
  m_floor m <= mon_floor tb now m /\
  (forall q a, (q, a) ∈ m_seen m -> mon_stale tb now m (q, a) = true -> net_id q <= mon_floor tb now m) /\
  (mon_floor tb now m = m_floor m \/
   exists q a, (q, a) ∈ m_seen m /\ mon_stale tb now m (q, a) = true /\ net_id q = mon_floor tb now m).
Proof.
  unfold mon_floor. induction (m_seen m) as [|[q a] l (IH1 & IH2 & IH3)]; cbn [foldr fst].
  { split; [lia|]. split; [by intros q a ?%elem_of_nil|by left]. }
  set (f := foldr _ _ l) in *. destruct (mon_stale tb now m (q, a)) eqn:E.
  - split; [lia|]. split.
    + intros q' a' [[= -> ->]|H]%elem_of_cons Hs; [lia|]. specialize (IH2 _ _ H Hs). lia.
    + destruct (Z.max_spec (net_id q) f) as [[H ->]|[H ->]].
      * destruct IH3 as [?|(q' & a' & H1 & H2)]; [by left|]. right. exists q', a'. split; [by right|done].
      * right. exists q, a. split; [left|done].
  - split; [done|]. split.
    + intros q' a' [[= -> ->]|H]%elem_of_cons Hs; [congruence|by eapply IH2].
    + destruct IH3 as [?|(q' & a' & H1 & H2)]; [by left|]. right. exists q', a'. split; [by right|done].
Qed.

(** In a window whose expired slots are the last ones, reaping expires what has a stale
    slot at or before it. *)
Definition stale (tb now t : Z) : bool := negb (t =? 0) && (t + tb <? now).

Lemma reap_list_lookup expire tb now win k v' :
  (forall i j v, (i <= j)%nat -> win !! i = Some SEQ_EXPIRED -> win !! j = Some v -> v = SEQ_EXPIRED) ->
  reap_list expire tb now win !! k = Some v' ->
  exists v, win !! k = Some v /\ v' = if expire || existsb (stale tb now) (take (S k) win) then SEQ_EXPIRED else v.
Proof.
  revert expire k. induction win as [|t win IH]; intros expire k Hsuf; cbn [reap_list]; [done|].
  destruct (t =? SEQ_EXPIRED) eqn:Et; breflect.
  - intros Hk. exists v'. split; [done|]. rewrite (Hsuf 0%nat k v') by (done || lia || by rewrite Et). by destruct (_ || _).
  - fold (stale tb now t). destruct k as [|k]; cbn.
    + intros [= <-]. exists t. split; [done|]. by rewrite orb_false_r.
    + intros Hk. destruct (IH (expire || stale tb now t) k) as (v & Hv & ->); [|exact Hk|].
      { intros i j v Hij Hi Hj. by apply (Hsuf (S i) (S j) v); [lia|..]. }
      exists v. split; [done|]. by rewrite orb_assoc.
Qed.

(** The expired slots of a window are its last ones. *)
Lemma mon_rel_suffix bt m win :
  mon_rel bt m win -> forall i j v, (i <= j)%nat -> win !! i = Some SEQ_EXPIRED -> win !! j = Some v -> v = SEQ_EXPIRED.
Proof.
  intros [_ _ Hseen Hslot] i j v Hij Hi Hj. destruct (Hslot _ _ Hi) as [_ H1], (Hslot _ _ Hj) as [H2 _].
  apply H2. destruct (decide (m_floor m < m_id m - Z.of_nat i)) as [Hf|]; [|lia]. exfalso.
  destruct (H1 Hf) as [Ha Hn]. destruct (decide (mknet (m_id m - Z.of_nat i) (m_time m) ∈ (m_seen m).*1)) as [Hin|Hin].
  - apply seen_pair in Hin as [a Hin]. destruct (Hseen _ _ Hin) as [Hgt _]. rewrite <- (Ha a Hin) in Hgt. lia.
  - by specialize (Hn Hin).
Qed.

(** A stale slot is that of a stale packet, or expired. *)
Lemma stale_slot bt tb now m win j t :
  mon_rel bt m win -> win !! j = Some t -> stale tb now t = true -> m_floor m < m_id m - Z.of_nat j ->
  m_id m - Z.of_nat j <= mon_floor tb now m.
Proof.
  intros [_ _ Hseen Hslot] Hj Hs Hf. destruct (Hslot _ _ Hj) as [_ H]. destruct (H Hf) as [Ha Hn].
  destruct (mon_floor_spec tb now m) as (_ & Hmax & _). unfold stale in Hs. apply andb_true_iff in Hs as [Hnz Hlt].
  destruct (decide (mknet (m_id m - Z.of_nat j) (m_time m) ∈ (m_seen m).*1)) as [Hin|Hin].
  - apply seen_pair in Hin as [a Hin]. rewrite (Ha a Hin) in Hlt.
    apply (Hmax _ _ Hin). unfold mon_stale. cbn. by rewrite Z.eqb_refl.
  - rewrite (Hn Hin) in Hnz. done.
Qed.

Lemma reap_list_rel bt tb now m win f :
  mon_rel bt m win -> f = mon_floor tb now m ->
  mon_rel bt (mkmon (m_time m) (m_id m) f now (m_seen m)) (reap_list false tb now win).
Proof.
  intros HR Ef. pose proof HR as [Hsh Hfl Hseen Hslot]. destruct (mon_floor_spec tb now m) as (Hge & Hmax & Hex). rewrite <- Ef in *.
  split; cbn [m_time m_id m_floor m_seen].
  - eapply window_shape_reaped; [apply reap_list_reaped|done].
  - split; [lia|]. destruct Hex as [?|(q & a & Hq & Hs & <-)]; [lia|]. apply (Hseen q a Hq).
    unfold mon_stale in Hs. by apply andb_true_iff in Hs as [Hs%Z.eqb_eq _].
  - done.
  - intros k v' Hk. apply reap_list_lookup in Hk as (v & Hv & ->); [|by eapply mon_rel_suffix].
    destruct (Hslot _ _ Hv) as [H1 H2]. cbn [orb]. split; cbn [m_floor m_time m_seen]; intros Hi.
    + destruct (decide (m_id m - Z.of_nat k <= m_floor m)) as [Hle|Hgt]; [rewrite (H1 Hle); by destruct (existsb _ _)|].
      destruct Hex as [?|(q & a & Hq & Hs & Hid)]; [lia|]. unfold mon_stale in Hs. apply andb_true_iff in Hs as [Et%Z.eqb_eq Hlt].
      cbn [fst snd] in Et, Hlt. destruct (Hseen q a Hq) as (Hga & _ & Hqid). specialize (Hqid Et).
      set (kq := Z.to_nat (m_id m - net_id q)). destruct (lookup_lt_is_Some_2 win kq) as [vq Hvq].
      { apply lookup_lt_Some in Hv. unfold kq. lia. }
      destruct (Hslot _ _ Hvq) as [_ Hq2]. replace (m_id m - Z.of_nat kq) with (net_id q) in Hq2 by (unfold kq; lia).
      destruct (Hq2 ltac:(lia)) as [Ha _]. assert (vq = a) as -> by (apply Ha; rewrite <- Et; by destruct q).
      replace (existsb _ _) with true; [done|]. symmetry. apply existsb_exists. exists a. split.
      * apply list_elem_of_In, (list_elem_of_lookup_2 _ kq). rewrite lookup_take_lt; [done|]. unfold kq; lia.
      * unfold stale, SEQ_EXPIRED in *. by bdecide.
    + replace (existsb _ _) with false; [apply H2; lia|]. symmetry. apply not_true_iff_false. intros (t & Hin & Hs)%existsb_exists.
      apply list_elem_of_In, list_elem_of_lookup in Hin as [j Hj]. apply lookup_take_Some in Hj as [Hj Hjk].
      pose proof (stale_slot bt tb now m win j t HR Hj Hs ltac:(lia)). lia.
Qed.

(** Expiry of the window and of the monitor. *)
Lemma reap_rel bt tb now m win :
  mon_rel bt m win ->
  let m' := mon_reap tb now m in
  mon_rel bt m' (reap_window now (tb, m_last m) win) /\ m_time m' = m_time m /\ m_id m' = m_id m /\
  m_last m' = if m_last m + SEQ_REAP_INTERVAL <=? now then now else m_last m.
Proof.
  intros HR m'. unfold m', mon_reap, reap_window. cbn [fst snd].
  destruct (m_last m + SEQ_REAP_INTERVAL <=? now); cbn [andb]; [|done]. split; [|done].
  destruct (tb =? 0); cbn [negb]; [by destruct HR|]. by apply reap_list_rel.
Qed.

(** The window's verdict is the monitor's. *)
Lemma window_test_mon bt m win pin :
  net_ok pin -> mon_rel bt m win -> window_test (m_time m, m_id m, win) pin = mon_accepts bt m pin.
Proof.
  intros (Hpu & _) [(Hid & Hnil & Hcons) Hfl Hseen Hslot]. unfold window_test, mon_accepts, is_u32 in *.
  destruct (net_id pin =? 0) eqn:E0; [done|]; breflect. cbn [negb andb].
  destruct (m_time m <? net_time pin); [done|]. cbn [orb].
  destruct (net_time pin =? m_time m) eqn:Et; [|done]; breflect. cbn [andb].
  destruct (m_id m <? net_id pin) eqn:Ei; [done|]; breflect. cbn [orb].
  assert (Hwin : win <> []) by (intros ->; destruct (Hnil eq_refl); lia). specialize (Hcons Hwin).
  destruct (m_id m - net_id pin <? bt) eqn:Eb; breflect; cbn [andb].
  2:{ rewrite lookup_ge_None_2; [done|]. unfold zlen in *; lia. }
  destruct (lookup_lt_is_Some_2 win (Z.to_nat (m_id m - net_id pin))) as [v Hv]; [unfold zlen in *; lia|].
  rewrite Hv. destruct (Hslot _ _ Hv) as [H1 H2].
  replace (m_id m - Z.of_nat (Z.to_nat (m_id m - net_id pin))) with (net_id pin) in H1, H2 by lia.
  replace (mknet (net_id pin) (m_time m)) with pin in H2 by (rewrite <- Et; by destruct pin).
  destruct (m_floor m <? net_id pin) eqn:Ef; breflect; cbn [andb]; [|by rewrite (H1 ltac:(lia))].
  destruct (H2 Ef) as [Ha Hn]. case_bool_decide as Hin; [by rewrite (Hn Hin)|].
  destruct (decide (pin ∈ (m_seen m).*1)) as [Hin'|]; [|done]. apply seen_pair in Hin' as [a Ha'].
  destruct (Hseen _ _ Ha') as [Hgt _]. rewrite (Ha a Ha'). unfold SEQ_EXPIRED in Hgt. by bdecide.
Qed.

(** Accepting a packet. *)
Lemma accept_rel bt now m win pin :
  0 < bt -> SEQ_EXPIRED < now -> net_ok pin -> mon_rel bt m win -> mon_accepts bt m pin = true ->
  exists win', window_add now bt (m_time m, m_id m, win) pin = (net_time pin, m_id (mon_accept now m pin), win') /\
    mon_rel bt (mon_accept now m pin) win'.
Proof.
  intros Hbt Hnow Hp HR Hacc. pose proof (window_test_mon bt m win pin Hp HR) as Ht. rewrite Hacc in Ht.
  pose proof HR as [Hsh Hfl Hseen Hslot]. pose proof (window_slide_spec bt _ _ win pin Hbt Hsh Hp Ht) as Hsl.
  assert (Hnz : 0 < net_id pin /\ (m_time m < net_time pin \/ net_time pin = m_time m /\ m_floor m < net_id pin /\ pin ∉ (m_seen m).*1)).
  { unfold mon_accepts in Hacc. destruct Hp as [Hpu _]. unfold is_u32 in Hpu. 
    rewrite andb_true_iff, orb_true_iff, andb_true_iff, orb_true_iff, !andb_true_iff, negb_true_iff, Z.eqb_neq, Z.eqb_eq, !Z.ltb_lt, bool_decide_eq_true in Hacc.
    destruct Hacc as [Hz Hacc].
    split; [lia|]. destruct Hacc as [?|[Et [Hi|[[_ Hf] Hin]]]]; [by left|right..]; [|done].
    split; [done|]. split; [lia|]. intros [a Ha]%seen_pair. destruct (Hseen _ _ Ha) as (_ & _ & Hle). specialize (Hle ltac:(lia)). lia. }
  destruct Hnz as [Hpos Hnew]. unfold window_add.
  destruct (window_slide bt (m_time m, m_id m, win) pin) as [[time' id'] win1] eqn:Ew. destruct Hsl as (-> & -> & Hd & Hle & Hsh' & Hs).
  set (m' := mon_accept now m pin). change (if m_time m <? net_time pin then net_id pin else m_id m `max` net_id pin) with (m_id m') in *.
  pose proof (window_mark_spec now (net_time pin) (m_id m') win1 pin) as Hm.
  destruct (window_mark_shape bt now (net_time pin) (m_id m') win1 pin Hsh' Hd) as (win' & E & Hsh2 & _).
  rewrite E in Hm |- *. cbn [snd] in Hm.
  exists win'. split; [done|].
  assert (Hfloor : m_floor m' = m_floor m /\ net_time pin = m_time m \/ m_floor m' = 0 /\ m_time m < net_time pin).
  { cbn. bcase; lia. }
  assert (Hid' : net_id pin <= m_id m' /\ (net_time pin = m_time m -> m_id m <= m_id m')) by (cbn; bcase; lia).
  split; [exact Hsh2|lia| |].
  - intros q a [[= -> ->]|H]%elem_of_cons; [change (m_time m') with (net_time pin); lia|]. destruct (Hseen q a H) as (H1 & H2 & H3).
    change (m_time m') with (net_time pin). split; [done|]. split; [lia|]. intros Hq. destruct Hfloor as [[_ Et]|[_ Et]]; [|lia]. specialize (H3 ltac:(lia)). lia.
  - intros k v Hk. destruct (Hm k v Hnow Hd Hk) as [[-> ->]|[Hne Hk1]]; unfold slot_ok; change (m_time m') with (net_time pin); change (m_seen m') with ((pin, now) :: m_seen m).
    + split; [destruct Hfloor as [[-> ?]|[-> _]]; [destruct Hnew as [|(_ & ? & _)]; lia|lia]|]. intros _. split.
      * intros a [[= _ ->]|Ha]%elem_of_cons; [done|]. exfalso. replace (mknet _ _) with pin in Ha by (by destruct pin).
        destruct (Hseen _ _ Ha) as (_ & H2 & _). destruct Hnew as [|(_ & _ & Hn)]; [lia|]. apply Hn. by apply (list_elem_of_fmap_2 fst (m_seen m) (pin, a)).
      * intros Hn. exfalso. apply Hn. replace (mknet _ _) with pin by (by destruct pin). cbn. by left.
    + assert (Hseen' : forall a, (mknet (m_id m' - Z.of_nat k) (net_time pin), a) ∈ (pin, now) :: m_seen m ->
        (mknet (m_id m' - Z.of_nat k) (net_time pin), a) ∈ m_seen m).
      { intros a [Ha|Ha]%elem_of_cons; [|done]. exfalso. apply Hne. injection Ha as Ha _. by rewrite <- Ha. }
      destruct (Hs k v Hk1) as [Hpos' [[-> Hfree]|(Et & k0 & Hk0 & Ek)]].
      * split; [intros; exfalso; destruct Hfloor as [[Ef ?]|[Ef ?]]; rewrite Ef in *; destruct Hfree; lia|]. intros _. split; [|done].
        intros a Ha%Hseen'. destruct (Hseen _ _ Ha) as (_ & H2 & H3). cbn [net_id net_time] in H2, H3. exfalso. destruct Hfree; [lia|].
        destruct (decide (net_time pin = m_time m)) as [Eq|]; [specialize (H3 Eq); lia|lia].
      * destruct Hfloor as [[-> _]|[_ ?]]; [|lia]. destruct (Hslot k0 v Hk0) as [H1 H2]. rewrite Ek in *. rewrite Et in *.
        split; [done|]. intros Hf. destruct (H2 Hf) as [Ha Hn]. split; [auto|]. intros Hnin. apply Hn. intros Hin. apply Hnin. by right.
Qed.

Lemma check_replay_all_mon bt tb evs :
  0 < bt <= MAX_SEQ_BACKTRACK -> forall m opt win,
  events_ok evs -> rec_window bt (opt_rec opt) (m_time m, m_id m, win) -> timers (opt_rec opt) = (tb, m_last m) -> mon_rel bt m win ->
  exists opt', check_replay_all opt evs = Ret (opt', mon_run bt tb m evs).
Proof.
  intros Hbt. induction evs as [|[now pin] evs IH]; intros m opt win Hev HW Ht HR; cbn [check_replay_all mon_run].
  { by exists opt. }
  apply Forall_cons in Hev as [[Hnow Hp] Hev].
  destruct (check_replay_window now bt opt _ _ win pin Hbt Hp HW) as (opt1 & -> & HW1 & Ht1 & _). cbn [mbind outcome_mbind].
  destruct (reap_rel bt tb now m win HR) as (HR1 & Et & Ei & El). rewrite Ht in HW1 |- *.
  assert (Elast : last_reap (opt_rec opt) = m_last m /\ time_backtrack (opt_rec opt) = tb) by (by injection Ht).
  destruct Elast as [E1 E2]. rewrite E1, E2, <- El in Ht1. rewrite <- Et, <- Ei in HW1 |- *.
  set (m1 := mon_reap tb now m) in *. set (win1 := reap_window now (tb, m_last m) win) in *.
  rewrite (window_test_mon bt m1 win1 pin Hp HR1) in HW1 |- *. destruct (mon_accepts bt m1 pin) eqn:Ea.
  - destruct (accept_rel bt now m1 win1 pin ltac:(lia) Hnow Hp HR1 Ea) as (win2 & E & HR2). rewrite E in HW1.
    destruct (IH (mon_accept now m1 pin) opt1 win2 Hev HW1 Ht1 HR2) as [opt' ->]. by exists opt'.
  - destruct (IH m1 opt1 win1 Hev HW1 Ht1 HR1) as [opt' ->]. by exists opt'.
Qed.


(** Number 170 is inside the window and new, but number 200 was accepted 20 seconds before. *)
Definition sample_events : list (Z * packet_id_net) :=
  [(1000, mknet 1 77); (1001, mknet 3 77); (1002, mknet 2 77); (1003, mknet 3 77);
   (1010, mknet 200 77); (1011, mknet 136 77); (1012, mknet 137 77); (1025, mknet 160 77);
   (1029, mknet 155 77); (1030, mknet 170 77); (1031, mknet 5 78)].

Lemma sample_events_ok : events_ok sample_events.
Proof. unfold sample_events. events_solve. Qed.


(** ** Freshness in every mode *)

(** Linear (TCP) mode: no window, accepted packets are not newer than the last. *)
Definition tcp_inv (S : list packet_id_net) (opt : crypto_options) : Prop :=
  let p := pid_rec (opt_packet_id opt) in
  seq_list p = None /\ initialized p = true /\ seq_backtrack p = 0 /\ time_backtrack p = 0 /\
  is_u32 (rec_id p) /\
  (forall q, q ∈ S -> 0 < net_id q /\ net_time q <= rec_time p /\
     (net_time q = rec_time p -> net_id q <= rec_id p)).

(** The verdict of linear mode. *)
Definition tcp_test (p : packet_id_rec) (pin : packet_id_net) : bool :=
  negb (net_id pin =? 0) &&
  (if net_time pin =? rec_time p then (rec_id p =? 0) || (net_id pin =? rec_id p + 1)
   else (rec_time p <? net_time pin) && (net_id pin =? 1)).

Lemma check_replay_tcp now S opt pin :
  net_ok pin -> tcp_inv S opt ->
  let p := pid_rec (opt_packet_id opt) in
  exists opt', crypto_check_replay now opt pin = Ret (opt', tcp_test p pin) /\
    (tcp_test p pin = true ->
       (pin ∉ S) /\ tcp_inv (pin :: S) opt' /\
       rec_time (pid_rec (opt_packet_id opt')) = net_time pin /\
       rec_id (pid_rec (opt_packet_id opt')) = net_id pin) /\
    (tcp_test p pin = false ->
       tcp_inv S opt' /\ rec_time (pid_rec (opt_packet_id opt')) = rec_time p /\
       rec_id (pid_rec (opt_packet_id opt')) = rec_id p).
Proof.
  intros (Hpu & Hpt) (Hsl & Hin & Hsb & Htb & Hu & HS). cbv zeta.
  set (p := pid_rec (opt_packet_id opt)) in *. unfold crypto_check_replay. fold p.
  assert (Hreap : exists p1, packet_id_reap_test now p = Ret p1 /\ seq_list p1 = None /\
    initialized p1 = true /\ seq_backtrack p1 = 0 /\ time_backtrack p1 = 0 /\
    rec_id p1 = rec_id p /\ rec_time p1 = rec_time p).
  { unfold packet_id_reap_test, packet_id_reap. rewrite Htb. cbn.
    destruct (_ <=? now); eauto 10. }
  destruct Hreap as (p1 & -> & Hsl1 & Hin1 & Hsb1 & Htb1 & Hi1 & Ht1). cbn [mbind outcome_mbind].
  assert (Htest : packet_id_test p1 pin = Ret (p1, tcp_test p pin)).
  { unfold packet_id_test, tcp_test. rewrite Hin1, Hsb1, Hi1, Ht1. cbn [mbind outcome_mbind c_assert].
    destruct (net_id pin =? 0) eqn:E0; [done|]; breflect. cbn [negb andb Z.eqb].
    destruct (net_time pin =? rec_time p) eqn:Et; breflect.
    - do 2 f_equal. destruct (rec_id p =? 0) eqn:Er; [done|]. cbn [orb].
      destruct (decide (rec_id p = 2 ^ 32 - 1)) as [E|].
      + rewrite E. change (u32 (2 ^ 32 - 1 + 1)) with 0. unfold is_u32 in *. by bdecide.
      + rewrite u32_id; [done|]. unfold is_u32 in *; lia.
    - destruct (net_time pin <? rec_time p) eqn:El; breflect; by bdecide. }
  rewrite Htest. cbn [mbind outcome_mbind]. unfold tcp_test in *.
  destruct (tcp_test p pin) eqn:Hok; unfold tcp_test in Hok; rewrite Hok.
  - unfold packet_id_add. rewrite Hsl1. cbn [mbind outcome_mbind].
    set (opt' := match pid_persist opt with Some _ => _ | None => _ end).
    assert (Hopt : pid_rec (opt_packet_id opt') = set_time_id p1 (net_time pin) (net_id pin))
      by (unfold opt'; destruct (pid_persist opt); [destruct (co_long_form opt)|]; done).
    exists opt'. split; [done|]. split; [|done]. intros _.
    apply andb_true_iff in Hok as [Hnz Hok]. breflect.
    assert (Hnew : forall q, q ∈ S -> net_time q < net_time pin \/
                     (net_time q = net_time pin /\ net_id q < net_id pin)).
    { intros q Hq. destruct (HS q Hq) as (Hq0 & Hq1 & Hq2).
      destruct (net_time pin =? rec_time p) eqn:Et; breflect; [|lia].
      destruct Hok as [Hok|Hok]; breflect; lia. }
    split; [|split].
    + intros Hq. specialize (Hnew _ Hq). lia.
    + unfold tcp_inv. rewrite Hopt. cbn. split; [done|]. do 3 (split; [done|]).
      split; [unfold is_u32 in *; lia|]. intros q Hq.
      apply elem_of_cons in Hq as [->|Hq].
      * unfold is_u32 in Hpu; lia.
      * destruct (HS q Hq) as (Hq0 & _). specialize (Hnew _ Hq). lia.
    + by rewrite Hopt.
  - eexists; split; [reflexivity|]. split; [done|]. intros _. cbn.
    split; [|done]. unfold tcp_inv; cbn. rewrite Hi1, Ht1. done.
Qed.

Lemma start_tcp tb pp lf :
  exists opt, start 0 tb pp lf = Ret opt /\ tcp_inv [] opt /\
    rec_time (pid_rec (opt_packet_id opt)) = 0 /\ rec_id (pid_rec (opt_packet_id opt)) = 0.
Proof.
  eexists; split; [reflexivity|]. split; [|done]. unfold tcp_inv; cbn. do 4 (split; [done|]).
  split; [unfold is_u32; lia|]. intros q Hq. by apply elem_of_nil in Hq.
Qed.

(** Either mode. *)
Definition rec_inv (bt tb : Z) (S : list packet_id_net) (opt : crypto_options) : Prop :=
  (0 < bt <= MAX_SEQ_BACKTRACK /\ exists w, udp_inv bt tb S opt w) \/ tcp_inv S opt.

Lemma check_replay_fresh now bt tb S opt pin :
  SEQ_EXPIRED < now -> net_ok pin -> rec_inv bt tb S opt ->
  exists opt' ok, crypto_check_replay now opt pin = Ret (opt', ok) /\
    (ok = true -> pin ∉ S) /\ rec_inv bt tb (if ok then pin :: S else S) opt'.
Proof.
  intros Hnow Hp [(Hbt & w & HU)|HT].
  - destruct (check_replay_udp now bt tb S opt w pin Hbt Hnow Hp HU) as (opt' & w1 & -> & HI & _ & HU').
    eexists _, _. split; [reflexivity|]. split.
    + by apply window_test_fresh with (1 := HI).
    + left. split; [done|]. eauto.
  - destruct (check_replay_tcp now S opt pin Hp HT) as (opt' & -> & Hok & Hno).
    eexists _, _. split; [reflexivity|].
    destruct (tcp_test _ pin).
    + destruct (Hok eq_refl) as (Hf & HT' & _). split; [done|]. by right.
    + destruct (Hno eq_refl) as (HT' & _). split; [done|]. by right.
Qed.

Lemma accepted_cons now pin evs ok oks :
  accepted ((now, pin) :: evs) (ok :: oks) = (if ok then [pin] else []) ++ accepted evs oks.
Proof. done. Qed.

Lemma check_replay_all_fresh bt tb evs : forall S opt,
  events_ok evs -> rec_inv bt tb S opt ->
  exists opt' oks, check_replay_all opt evs = Ret (opt', oks) /\ length oks = length evs /\
    NoDup (accepted evs oks) /\ (forall q, q ∈ accepted evs oks -> q ∉ S).
Proof.
  induction evs as [|[now pin] evs IH]; intros S opt Hev HR; cbn [check_replay_all].
  { exists opt, []. split; [done|]. split; [done|]. split; [constructor|].
    intros q Hq. by apply elem_of_nil in Hq. }
  apply Forall_cons in Hev as [[Hnow Hp] Hev].
  destruct (check_replay_fresh now bt tb S opt pin Hnow Hp HR) as (opt1 & ok & -> & Hf & HR1).
  cbn [mbind outcome_mbind]. destruct (IH _ _ Hev HR1) as (opt' & oks & -> & Hl & Hnd & Hnew).
  cbn [mbind outcome_mbind]. exists opt', (ok :: oks). split; [done|]. split; [cbn; lia|].
  rewrite accepted_cons. destruct ok; [|done]. cbn [app].
  split.
  - constructor; [|done]. intros Hin. apply (Hnew _ Hin). apply elem_of_cons; by left.
  - intros q Hq. apply elem_of_cons in Hq as [->|Hq]; [auto|].
    specialize (Hnew q Hq). intros Hq'. apply Hnew. apply elem_of_cons; by right.
Qed.

(** C3: replay safety.  In both modes, with any replay window and any time expiry
    [packet_id_init] admits, a session never accepts the same packet id twice,
    whatever packets arrive and whenever they do; and no assertion of the handler
    fails and no access leaves the window. *)
Theorem replayed_packet_never_accepted (bt tb : Z) (pp : option packet_id_persist) (lf : bool)
    (evs : list (Z * packet_id_net)) :
  0 <= bt <= MAX_SEQ_BACKTRACK -> 0 <= tb <= MAX_TIME_BACKTRACK -> events_ok evs ->
  exists opt opt' oks, start bt tb pp lf = Ret opt /\
    check_replay_all opt evs = Ret (opt', oks) /\ length oks = length evs /\
    NoDup (accepted evs oks).
Proof.
  intros Hbt Htb Hev.
  assert (Hs : exists opt, start bt tb pp lf = Ret opt /\ rec_inv bt tb [] opt).
  { destruct (decide (bt = 0)) as [->|Hne].
    - destruct (start_tcp tb pp lf) as (opt & Hs & HT & _). exists opt. split; [done|]. by right.
    - destruct (start_udp bt tb pp lf ltac:(lia) Htb) as (opt & Hs & HU & _).
      exists opt. split; [done|]. left. split; [lia|]. eauto. }
  destruct Hs as (opt & Hs & HR).
  destruct (check_replay_all_fresh bt tb evs [] opt Hev HR) as (opt' & oks & H1 & H2 & H3 & _).
  exists opt, opt', oks. done.
Qed.

Lemma replayed_packet_never_accepted_witness :
  exists opt opt' oks, start 64 15 None false = Ret opt /\
    check_replay_all opt sample_events = Ret (opt', oks) /\
    length oks = length sample_events /\ NoDup (accepted sample_events oks).
Proof.
  apply (replayed_packet_never_accepted 64 15 None false sample_events).
  - unfold MAX_SEQ_BACKTRACK; lia.
  - unfold MAX_TIME_BACKTRACK; lia.
  - apply sample_events_ok.
Defined.

(** ** Linear mode admits no gaps *)

(** The packet that may follow [a]: the next number of the same time stamp, or
    number 1 of a later one. *)
Definition tcp_next (a b : packet_id_net) : Prop :=
  (net_time b = net_time a /\ net_id b = net_id a + 1) \/
  (net_time a < net_time b /\ net_id b = 1).

Lemma check_replay_all_linear evs : forall S opt oks opt' last,
  events_ok evs -> tcp_inv S opt ->
  rec_time (pid_rec (opt_packet_id opt)) = net_time last ->
  rec_id (pid_rec (opt_packet_id opt)) = net_id last -> 0 < net_id last ->
  check_replay_all opt evs = Ret (opt', oks) ->
  forall i a b, (last :: accepted evs oks) !! i = Some a ->
    (last :: accepted evs oks) !! Datatypes.S i = Some b -> tcp_next a b.
Proof.
  induction evs as [|[now pin] evs IH]; intros S opt oks opt' last Hev HT Ht Hi Hpos Hrun;
    cbn [check_replay_all] in Hrun.
  { injection Hrun as <- <-. intros [|i] a b Ha Hb; done. }
  apply Forall_cons in Hev as [[Hnow Hp] Hev].
  destruct (check_replay_tcp now S opt pin Hp HT) as (opt1 & Hstep & Hok & Hno).
  rewrite Hstep in Hrun. cbn [mbind outcome_mbind] in Hrun.
  destruct (check_replay_all opt1 evs) as [[opt2 oks2]| |] eqn:Hrest; [|done..].
  cbn in Hrun. injection Hrun as <- <-. rewrite accepted_cons.
  destruct (tcp_test (pid_rec (opt_packet_id opt)) pin) eqn:Etest.
  - destruct (Hok eq_refl) as (_ & HT1 & Ht1 & Hi1).
    unfold tcp_test in Etest. rewrite Ht, Hi in Etest. apply andb_true_iff in Etest as [Hnz Etest].
    destruct Hp as [Hpu _]. unfold is_u32 in Hpu. breflect.
    assert (Hnext : tcp_next last pin).
    { unfold tcp_next. destruct (net_time pin =? net_time last) eqn:E; breflect; [|lia].
      destruct Etest as [Etest|Etest]; breflect; lia. }
    intros [|i] a b Ha Hb.
    + cbn in Ha, Hb. by simplify_eq.
    + cbn [app] in Ha, Hb.
      eapply (IH _ opt1 oks2 opt2 pin Hev HT1 Ht1 Hi1); [lia|done|exact Ha|exact Hb].
  - destruct (Hno eq_refl) as (HT1 & Ht1 & Hi1). cbn [app].
    eapply (IH _ opt1 oks2 opt2 last Hev HT1); [congruence..|done|done].
Qed.

(** In linear (TCP) mode the packets a session accepts form one sequence
    without gaps: each one accepted has the number after the one accepted before
    it, or is number 1 of a later time stamp. *)
Theorem linear_mode_accepts_no_gap (tb : Z) (pp : option packet_id_persist) (lf : bool)
    (evs : list (Z * packet_id_net)) (opt opt' : crypto_options) (oks : list bool) :
  events_ok evs -> start 0 tb pp lf = Ret opt -> check_replay_all opt evs = Ret (opt', oks) ->
  forall i a b, accepted evs oks !! i = Some a -> accepted evs oks !! S i = Some b -> tcp_next a b.
Proof.
  intros Hev Hs Hrun. destruct (start_tcp tb pp lf) as (opt0 & Hs0 & HT & _).
  rewrite Hs in Hs0. injection Hs0 as <-. clear Hs.
  assert (Hgen : forall S evs opt oks, events_ok evs -> tcp_inv S opt ->
    check_replay_all opt evs = Ret (opt', oks) ->
    forall i a b, accepted evs oks !! i = Some a -> accepted evs oks !! Datatypes.S i = Some b ->
    tcp_next a b).
  2:{ by apply (Hgen [] evs opt oks). }
  clear. intros S evs; revert S.
  induction evs as [|[now pin] evs IH]; intros S opt oks Hev HT Hrun; cbn [check_replay_all] in Hrun.
  { injection Hrun as <- <-. done. }
  pose proof Hev as Hev0. apply Forall_cons in Hev as [[Hnow Hp] Hev].
  destruct (check_replay_tcp now S opt pin Hp HT) as (opt1 & Hstep & Hok & Hno).
  rewrite Hstep in Hrun. cbn [mbind outcome_mbind] in Hrun.
  destruct (check_replay_all opt1 evs) as [[opt2 oks2]| |] eqn:Hrest; [|done..].
  cbn in Hrun. injection Hrun as <- <-. rewrite accepted_cons.
  destruct (tcp_test (pid_rec (opt_packet_id opt)) pin) eqn:Etest.
  - destruct (Hok eq_refl) as (_ & HT1 & Ht1 & Hi1). cbn [app].
    apply (check_replay_all_linear evs _ opt1 oks2 opt2 pin Hev HT1 Ht1 Hi1); [|done].
    unfold tcp_test in Etest. destruct Hp as [Hpu _]; unfold is_u32 in Hpu. breflect. lia.
  - destruct (Hno eq_refl) as (HT1 & _). cbn [app]. by apply (IH S opt1 oks2).
Qed.

Definition linear_events : list (Z * packet_id_net) :=
  [(10, mknet 4 0); (11, mknet 5 0); (12, mknet 7 0); (13, mknet 6 0); (14, mknet 1 9)].

Lemma linear_mode_accepts_no_gap_witness :
  exists opt opt' oks, start 0 0 None false = Ret opt /\
    check_replay_all opt linear_events = Ret (opt', oks) /\
    accepted linear_events oks = [mknet 4 0; mknet 5 0; mknet 6 0; mknet 1 9] /\
    tcp_next (mknet 5 0) (mknet 6 0).
Proof.
  eexists _, _, _. split; [vm_compute; reflexivity|]. split; [vm_compute; reflexivity|].
  split; [reflexivity|].
  eapply (linear_mode_accepts_no_gap 0 None false linear_events) with (i := 1%nat).
  - unfold linear_events. events_solve.
  - vm_compute; reflexivity.
  - vm_compute; reflexivity.
  - reflexivity.
  - reflexivity.
Defined.

(** ** The sender *)

(** A run of [packet_id_send_update] at the given times: the identifiers of the
    calls that succeeded. *)
Fixpoint send_all (p : packet_id_send) (long_form : bool) (nows : list Z) : list packet_id_send :=
  match nows with
  | [] => []
  | now :: nows =>
      let '(p, ok) := packet_id_send_update now p long_form in
      (if ok then [p] else []) ++ send_all p long_form nows
  end.

(** ** Wire format *)

(** What the other side reads of an identifier: the long form carries the low 32
    bits of the time stamp, the short form none. *)
Definition net_of_send (p : packet_id_send) (long_form : bool) : packet_id_net :=
  mknet (send_id p) (if long_form then u32 (send_time p) else 0).

Lemma packet_id_read_front pre p (lf : bool) c post :
  is_u32 (send_id p) ->
  packet_id_read
    (conc pre ((be_bytes 4 (send_id p) ++ (if lf then be_bytes 4 (u32 (send_time p)) else [])) ++ c) post) lf =
  Ret (conc (pre ++ be_bytes 4 (send_id p) ++ (if lf then be_bytes 4 (u32 (send_time p)) else [])) c post,
       net_of_send p lf, true).
Proof.
  intros Hu. unfold packet_id_read, net_of_send. rewrite <- app_assoc.
  rewrite buf_read_front by (by rewrite zlen_be_bytes). cbn [mbind outcome_mbind].
  rewrite be_value_bytes4 by done. destruct lf.
  - rewrite buf_read_front by (by rewrite zlen_be_bytes). cbn [mbind outcome_mbind].
    rewrite be_value_bytes4 by apply u32_range. by rewrite <- app_assoc.
  - by rewrite app_nil_r.
Qed.

(** An identifier written to a buffer with room for it, in front of a payload or
    into an empty buffer, in short or long form, is read back by [packet_id_read]
    as the same sequence number and time stamp, and leaves exactly the payload. *)
Theorem packet_id_write_read_roundtrip (now : Z) (p p' : packet_id_send) (lf prepend : bool)
    (pre c post : list Z) :
  fits pre c post -> is_u32 (send_id p) -> packet_id_send_update now p lf = (p', true) ->
  (if prepend then packet_id_size lf <= zlen pre else packet_id_size lf <= zlen post /\ c = []) ->
  exists b b', packet_id_write now p (conc pre c post) lf prepend = Ret (p', b, true) /\
    zlen (content b) = zlen c + packet_id_size lf /\
    packet_id_read b lf = Ret (b', net_of_send p' lf, true) /\ content b' = c.
Proof.
  intros HF Hu Hs Hroom. unfold packet_id_write. rewrite Hs.
  assert (Hu' : is_u32 (send_id p')).
  { unfold packet_id_send_update in Hs. destruct (send_time p =? 0), (_ =? PACKET_ID_MAX);
      try destruct (_ || _); injection Hs as <-; cbn; auto with vpn; try discriminate. }
  set (hdr := be_bytes 4 (send_id p') ++ (if lf then be_bytes 4 (u32 (send_time p')) else [])).
  assert (Hh : zlen hdr = packet_id_size lf) by (unfold hdr, packet_id_size; destruct lf; zlia).
  assert (Hsz : packet_id_size lf = 4 + (if lf then 4 else 0)) by done.
  assert (Hsz4 : 4 <= packet_id_size lf) by (rewrite Hsz; destruct lf; lia).
  destruct prepend.
  - exists (conc (ztake (zlen pre - packet_id_size lf) pre) (hdr ++ c) post).
    eexists. rewrite content_conc, zlen_app, Hh. split.
    2:{ split; [lia|]. split; [apply (packet_id_read_front _ _ _ _ _ Hu')|apply content_conc]. }
    unfold hdr. destruct lf.
    + rewrite buf_write_prepend_conc. rewrite zlen_be_bytes. bdecide. cbn [mbind outcome_mbind].
      rewrite buf_write_prepend_conc. rewrite zlen_be_bytes, zlen_ztake.
      bdecide. cbn [mbind outcome_mbind]. rewrite <- (app_assoc (be_bytes 4 _)).
      unfold ztake. rewrite take_take. do 5 f_equal. rewrite Hsz. zlen_facts. lia.
    + cbn [mbind outcome_mbind]. rewrite buf_write_prepend_conc, zlen_be_bytes. bdecide.
      cbn [mbind outcome_mbind]. rewrite app_nil_r. done.
  - destruct Hroom as [Hroom ->].
    exists (conc pre hdr (zdrop (packet_id_size lf) post)). eexists.
    rewrite content_conc, Hh, zlen_nil. split.
    2:{ split; [lia|]. rewrite <- (app_nil_r hdr).
        split; [apply (packet_id_read_front _ _ _ _ _ Hu')|apply content_conc]. }
    unfold hdr. rewrite buf_write_fits by (done || (rewrite zlen_be_bytes; lia)).
    cbn [mbind outcome_mbind]. rewrite zlen_be_bytes. destruct lf.
    + rewrite buf_write_fits; [|unfold fits in *; zlia|zlia].
      cbn [mbind outcome_mbind app]. rewrite zlen_be_bytes, zdrop_zdrop by lia. done.
    + by rewrite app_nil_r.
Qed.

Lemma packet_id_write_read_roundtrip_witness :
  exists b b', packet_id_write 500 (mksend 6 500) (conc [0;0;0;0;0;0;0;0;0] [1;2;3] []) true true
                 = Ret (mksend 7 500, b, true) /\
    zlen (content b) = 11 /\
    packet_id_read b true = Ret (b', mknet 7 500, true) /\ content b' = [1;2;3].
Proof.
  apply (packet_id_write_read_roundtrip 500 (mksend 6 500) (mksend 7 500) true true
           [0;0;0;0;0;0;0;0;0] [1;2;3] []).
  - unfold fits, BUF_SIZE_MAX, zlen; cbn; lia.
  - unfold is_u32; cbn; lia.
  - reflexivity.
  - unfold packet_id_size, zlen; cbn; lia.
Defined.

(** ** What a sender puts on the wire *)

(** The sender has not sent yet, or has a time stamp that the wire can carry. *)
Definition sender_ok (p : packet_id_send) : Prop :=
  is_u32 (send_id p) /\ 0 <= send_time p < 2 ^ 32 /\ (send_time p = 0 -> send_id p = 0).

(** A packet to send: the clock, and a buffer in front of whose content, or into which, the
    identifier goes. *)
Record send_req : Type := mksr { sr_now : Z; sr_prepend : bool; sr_pre : list Z; sr_content : list Z; sr_post : list Z }.

Definition req_ok (lf : bool) (r : send_req) : Prop :=
  0 < sr_now r < 2 ^ 32 /\ fits (sr_pre r) (sr_content r) (sr_post r) /\
  (if sr_prepend r then packet_id_size lf <= zlen (sr_pre r) else packet_id_size lf <= zlen (sr_post r) /\ sr_content r = []).

(** The requests one after the other; for each the identifier that the other side reads, or
    [None] when [packet_id_write] fails. *)
Fixpoint send_wire (p : packet_id_send) (lf : bool) (reqs : list send_req) : outcome (list (option packet_id_net)) :=
  match reqs with
  | [] => Ret []
  | r :: reqs =>
      '(p, b, sent) ← packet_id_write (sr_now r) p (conc (sr_pre r) (sr_content r) (sr_post r)) lf (sr_prepend r);
      pin ← (if sent : bool then '(_, pin, got) ← packet_id_read b lf; _ ← c_assert got; Ret (Some pin) else Ret None);
      wire ← send_wire p lf reqs;
      Ret (pin :: wire)
  end.

(** The last identifier sent before the request [i]. *)
Definition last_sent (p : packet_id_send) (lf : bool) (wire : list (option packet_id_net)) (i : nat) : packet_id_net :=
  default (net_of_send p lf) (last (omap id (take i wire))).

(** No number is left, and the time stamp cannot make a new start. *)
Definition exhausted (lf : bool) (now : Z) (a : packet_id_net) : Prop :=
  net_id a = PACKET_ID_MAX /\ (lf = false \/ now <= net_time a).

Definition net_lt (a b : packet_id_net) : Prop :=
  net_time a < net_time b \/ (net_time a = net_time b /\ net_id a < net_id b).

#[global] Instance net_lt_trans : Transitive net_lt.
Proof. intros a b c; unfold net_lt; lia. Qed.

Lemma send_update_next snow s lf s' :
  0 < snow < 2 ^ 32 -> is_u32 (send_id s) -> 0 <= send_time s < 2 ^ 32 ->
  (send_time s = 0 -> send_id s = 0) ->
  packet_id_send_update snow s lf = (s', true) ->
  0 < send_time s' < 2 ^ 32 /\ 0 < send_id s' < 2 ^ 32 /\
  ((send_time s' = send_time s /\ send_id s' = send_id s + 1) \/
   (send_time s < send_time s' /\ send_id s' = 1 /\ (lf = true \/ send_id s = 0))).
Proof.
  intros Hn Hu Ht H0 H. unfold packet_id_send_update, PACKET_ID_MAX, is_u32 in *.
  destruct s as [id time]; cbn in *.
  destruct (time =? 0) eqn:E0; breflect; cbn in H.
  - rewrite (H0 E0) in *. bdecide. cbn in H. injection H as <-. cbn [send_id send_time].
    change (u32 (0 + 1)) with 1. split; [lia|]. split; [lia|]. right. split; [lia|]. auto.
  - destruct (id =? 2 ^ 32 - 1) eqn:E1; breflect.
    + destruct lf; cbn in H; [|done]. destruct (snow <=? time) eqn:E2; breflect; [done|].
      injection H as <-. cbn [send_id send_time]. change (u32 (0 + 1)) with 1.
      split; [lia|]. split; [lia|]. right. split; [lia|]. auto.
    + injection H as <-. cbn. rewrite u32_id by (unfold is_u32; lia). lia.
Qed.

Lemma send_update_wire now p lf :
  0 < now < 2 ^ 32 -> sender_ok p ->
  (exhausted lf now (net_of_send p lf) /\ packet_id_send_update now p lf = (p, false)) \/
  (~ exhausted lf now (net_of_send p lf) /\
   exists p', packet_id_send_update now p lf = (p', true) /\ sender_ok p' /\ net_lt (net_of_send p lf) (net_of_send p' lf)).
Proof.
  intros Hn (Hu & Ht & H0). destruct (packet_id_send_update now p lf) as [p' [|]] eqn:E.
  - right. destruct (send_update_next now p lf p' Hn Hu Ht H0 E) as (Ht' & Hi' & Hnext). unfold exhausted, net_lt, net_of_send. cbn [net_id net_time].
    unfold sender_ok, is_u32. rewrite (u32_id (send_time p)) by (unfold is_u32; lia). split.
    + intros [Hm He]. unfold packet_id_send_update in E.
      destruct (send_time p =? 0) eqn:E0; breflect; [rewrite (H0 E0) in Hm; done|]. rewrite Hm, Z.eqb_refl in E.
      destruct lf; cbn in E; [|done]. destruct He as [|He]; [done|]. by rewrite (proj2 (Z.leb_le now (send_time p)) He) in E.
    + exists p'. rewrite (u32_id (send_time p')) by (unfold is_u32; lia). split; [done|]. split; [lia|]. destruct lf; [lia|]. right. split; [done|]. destruct Hnext as [|(_ & _ & [|])]; [lia|done|lia].
  - left. unfold packet_id_send_update, exhausted, net_of_send in *. cbn [net_id net_time].
    destruct (send_time p =? 0) eqn:E0; breflect; [rewrite (H0 E0) in E; done|].
    destruct (send_id p =? PACKET_ID_MAX) eqn:Em; breflect; [|done]. destruct (negb lf || (now <=? send_time p)) eqn:Ef; [|done].
    split; [|congruence]. split; [done|]. destruct lf; [right|by left]. rewrite u32_id by (unfold is_u32; lia). by apply Z.leb_le.
Qed.

Lemma send_wire_spec lf reqs : forall p,
  Forall (req_ok lf) reqs -> sender_ok p ->
  exists wire, send_wire p lf reqs = Ret wire /\ length wire = length reqs /\
    (forall i a, wire !! i = Some (Some a) -> net_lt (net_of_send p lf) a) /\
    (forall i j a b, (i < j)%nat -> wire !! i = Some (Some a) -> wire !! j = Some (Some b) -> net_lt a b) /\
    (forall i r, reqs !! i = Some r -> wire !! i = Some None <-> exhausted lf (sr_now r) (last_sent p lf wire i)).
Proof.
  induction reqs as [|r reqs IH]; intros p Hr Hp; cbn [send_wire].
  { exists []. split; [done|]. split; [done|]. split; [done|]. split; [done|]. by intros i r ?. }
  apply Forall_cons in Hr as [(Hn & Hf & Hroom) Hr].
  destruct (send_update_wire (sr_now r) p lf Hn Hp) as [[Hex E]|(Hex & p' & E & Hp' & Hlt)].
  - unfold packet_id_write. rewrite E. cbn [mbind outcome_mbind]. destruct (IH p Hr Hp) as (wire & -> & Hl & Ha & Hb & Hc).
    exists (None :: wire). split; [done|]. split; [cbn; lia|]. split; [by intros [|i] a H; [|apply (Ha i)]|]. split.
    + intros [|i] [|j] a b Hij; cbn; try (done || lia). apply Hb. lia.
    + intros [|i] r'; [intros [= <-]; by split|]. intros Hi. exact (Hc i r' Hi).
  - destruct (packet_id_write_read_roundtrip (sr_now r) p p' lf (sr_prepend r) (sr_pre r) (sr_content r) (sr_post r))
      as (b & b' & -> & _ & Hrd & _); [done|apply Hp|done|done|]. cbn [mbind outcome_mbind]. rewrite Hrd. cbn [mbind outcome_mbind c_assert].
    destruct (IH p' Hr Hp') as (wire & -> & Hl & Ha & Hb & Hc). cbn [mbind outcome_mbind].
    exists (Some (net_of_send p' lf) :: wire). split; [done|]. split; [cbn; lia|]. split; [|split].
    + intros [|i] a; [by intros [= <-]|]. intros H%Ha. by transitivity (net_of_send p' lf).
    + intros [|i] [|j] x y Hij; cbn; try (done || lia); [intros [= <-]; apply Ha|apply Hb; lia].
    + intros [|i] r'; [intros [= <-]; split; [done|]; intros H; by destruct Hex|]. intros Hi. change ((Some ?x :: wire) !! S i) with (wire !! i).
      rewrite (Hc i r' Hi). unfold last_sent. cbn [take omap list_omap id]. by destruct (last (omap id (take i wire))) eqn:El; rewrite last_cons, ?El.
Qed.

(** In the short form the other side reads no time stamp. *)
Lemma send_wire_short reqs : forall p wire,
  send_wire p false reqs = Ret wire -> forall k x, wire !! k = Some (Some x) -> net_time x = 0.
Proof.
  induction reqs as [|r reqs IH]; intros p wire; cbn [send_wire]; [by intros [= <-] k x ?|]. intros H. ret_inv.
  intros [|k] z; [|exact (IH p0 x0 H2 k z)]. intros [= ->].
  match goal with H : (if ?b then _ else _) = Ret (Some z) |- _ => destruct b; ret_inv; [|done] end.
  match goal with H : packet_id_read _ false = _ |- _ => unfold packet_id_read in H; ret_inv end.
  match goal with H : match ?o with Some _ => _ | None => _ end = _ |- _ => destruct o; by simplify_eq end.
Qed.

(** C4: the identifiers on the wire never repeat.  A sender writes identifiers with
    [packet_id_write] at any times, in front of packets or into empty buffers with room for
    them; every write returns, what the other side reads is strictly increasing in (time stamp,
    sequence number) (in the short form, which carries no time stamp, in the sequence number
    alone), so that no identifier (the IV of the stream and AEAD ciphers) is used
    twice; and a write fails exactly when the last number sent was the largest, and
    the short form is used or the clock has not moved past the time stamp: the number never
    wraps around under the same time stamp. *)
Theorem send_identifiers_strictly_increasing (p : packet_id_send) (lf : bool) (reqs : list send_req) :
  sender_ok p -> Forall (req_ok lf) reqs ->
  exists wire, send_wire p lf reqs = Ret wire /\ length wire = length reqs /\
    (forall i j a b, (i < j)%nat -> wire !! i = Some (Some a) -> wire !! j = Some (Some b) ->
       net_lt a b /\ (lf = false -> net_id a < net_id b)) /\
    (forall i r, reqs !! i = Some r -> wire !! i = Some None <-> exhausted lf (sr_now r) (last_sent p lf wire i)).
Proof.
  intros Hp Hr. destruct (send_wire_spec lf reqs p Hr Hp) as (wire & E & Hl & _ & Hlt & Hex). exists wire. do 2 (split; [done|]).
  split; [|done]. intros i j a b Hij Ha Hb. split; [by eapply Hlt|]. intros ->.
  pose proof (send_wire_short reqs p wire E) as H0.
  destruct (Hlt i j a b Hij Ha Hb) as [H|[_ H]]; [|done]. rewrite (H0 i a Ha), (H0 j b Hb) in H. lia.
Qed.

(** The last number but one; the clock moves on with the last packet. *)
Lemma send_identifiers_strictly_increasing_witness :
  exists wire, send_wire (mksend (PACKET_ID_MAX - 1) 500) true
      [mksr 500 true (replicate 8 0) [1] []; mksr 500 true (replicate 8 0) [2] []; mksr 501 false [] [] (replicate 8 0)] = Ret wire /\
    wire = [Some (mknet PACKET_ID_MAX 500); None; Some (mknet 1 501)] /\ net_lt (mknet PACKET_ID_MAX 500) (mknet 1 501).
Proof.
  destruct (send_identifiers_strictly_increasing (mksend (PACKET_ID_MAX - 1) 500) true
    [mksr 500 true (replicate 8 0) [1] []; mksr 500 true (replicate 8 0) [2] []; mksr 501 false [] [] (replicate 8 0)]) as (wire & E & _ & Hlt & _).
  - unfold sender_ok, is_u32, PACKET_ID_MAX. cbn. lia.
  - repeat (apply Forall_cons_2; [unfold req_ok, fits, BUF_SIZE_MAX, packet_id_size, zlen; cbn; split_and!; reflexivity || lia|]). apply Forall_nil_2.
  - exists wire. split; [exact E|]. vm_compute in E. injection E as <-. split; [reflexivity|].
    apply (Hlt 0%nat 2%nat); [lia|reflexivity|reflexivity].
Defined.

(** ** Sender and receiver together *)

(** Packets numbered by a sender at the times [fst], put on the wire, read by the
    receiver in the same order and checked at the times [snd]; the verdicts. *)
Fixpoint transfer (s : packet_id_send) (opt : crypto_options) (lf : bool) (evs : list (Z * Z))
  : outcome (list bool) :=
  match evs with
  | [] => Ret []
  | (snow, rnow) :: evs =>
      '(s, b, sent) ← packet_id_write snow s (conc (replicate 8 0) [] []) lf true;
      if sent : bool
      then
        '(_, pin, got) ← packet_id_read b lf;
        _ ← c_assert got;
        '(opt, ok) ← crypto_check_replay rnow opt pin;
        oks ← transfer s opt lf evs;
        Ret (ok :: oks)
      else transfer s opt lf evs
  end.

(** The newest packet after one was accepted. *)
Lemma window_add_top now bt S w pin :
  0 < bt -> window_inv bt S w -> net_ok pin -> window_test w pin = true ->
  (window_add now bt w pin).1 =
    (net_time pin, if w.1.1 <? net_time pin then net_id pin else Z.max w.1.2 (net_id pin)).
Proof.
  intros Hbt HI Hp Ht. destruct w as [[time id] win]. destruct HI as (Hsh & _).
  pose proof (window_slide_spec bt time id win pin Hbt Hsh Hp Ht) as Hsl. unfold window_add.
  destruct (window_slide bt (time, id, win) pin) as [[t' i'] win']. by destruct Hsl as (-> & -> & _).
Qed.

(** The receiver has accepted exactly up to what the sender has sent. *)
Definition in_step (s : packet_id_send) (lf : bool) (opt : crypto_options) : Prop :=
  rec_time (pid_rec (opt_packet_id opt)) = (if lf then send_time s else 0) /\
  rec_id (pid_rec (opt_packet_id opt)) = send_id s.

Lemma check_replay_in_step rnow bt tb S opt s s' lf :
  SEQ_EXPIRED < rnow -> rec_inv bt tb S opt -> in_step s lf opt ->
  is_u32 (send_id s) -> 0 < send_time s' < 2 ^ 32 -> 0 < send_id s' < 2 ^ 32 ->
  ((send_time s' = send_time s /\ send_id s' = send_id s + 1) \/
   (send_time s < send_time s' /\ send_id s' = 1 /\ (lf = true \/ send_id s = 0))) ->
  exists opt', crypto_check_replay rnow opt (net_of_send s' lf) = Ret (opt', true) /\
    rec_inv bt tb (net_of_send s' lf :: S) opt' /\ in_step s' lf opt'.
Proof.
  intros Hnow HR (Hst & Hsi) Hu Ht' Hi' Hnext.
  assert (Hp : net_ok (net_of_send s' lf)).
  { unfold net_ok, net_of_send, is_u32; cbn. split; [lia|].
    destruct lf; [|lia]. apply u32_range. }
  assert (Htm : net_time (net_of_send s' lf) = if lf then send_time s' else 0).
  { cbn. destruct lf; [|done]. apply u32_id. unfold is_u32; lia. }
  destruct HR as [(Hbt & w & HU)|HT].
  - destruct (check_replay_udp rnow bt tb S opt w _ Hbt Hnow Hp HU) as (opt' & w1 & -> & HI & Hw1 & HU').
    assert (Hw : w1.1 = (if lf then send_time s else 0, send_id s)).
    { rewrite Hw1. destruct HU as ((sl & _ & _ & _ & _ & _ & H1 & H2 & _) & _).
      rewrite (surjective_pairing w.1), <- H1, <- H2, Hst, Hsi. done. }
    destruct w1 as [[t1 i1] win1]; cbn in Hw; injection Hw as -> ->.
    assert (Htest : window_test (if lf then send_time s else 0, send_id s, win1) (net_of_send s' lf) = true).
    { apply window_test_true. rewrite Htm. cbn [net_id net_of_send]. destruct lf; lia. }
    rewrite Htest in HU' |- *. exists opt'. split; [done|]. split.
    + left. split; [done|]. eauto.
    + pose proof (window_add_top rnow bt _ _ _ ltac:(lia) HI Hp Htest) as Htop.
      destruct HU' as ((sl & _ & _ & _ & _ & _ & H1 & H2 & _) & _).
      unfold in_step. rewrite H1, H2. destruct (window_add rnow bt _ _) as [[t2 i2] w2].
      cbn [fst snd] in Htop |- *. apply pair_equal_spec in Htop as [-> ->]. rewrite Htm. cbn [net_id net_of_send].
      split; [done|]. destruct lf; bcase; lia.
  - destruct (check_replay_tcp rnow S opt _ Hp HT) as (opt' & -> & Hok & _).
    assert (Htest : tcp_test (pid_rec (opt_packet_id opt)) (net_of_send s' lf) = true).
    { unfold tcp_test. rewrite Htm, Hst, Hsi. cbn [net_id net_of_send].
      destruct lf; bdecide; cbn [negb andb]; bcase; try done;
        rewrite ?orb_true_iff, ?Z.eqb_eq, ?Z.ltb_lt, ?andb_true_iff; lia. }
    rewrite Htest in Hok |- *. destruct (Hok eq_refl) as (_ & HT' & H1 & H2).
    exists opt'. split; [done|]. split; [by right|].
    unfold in_step. rewrite H1, H2, Htm. done.
Qed.

Lemma transfer_in_step bt tb lf evs : forall s S opt,
  Forall (fun '(snow, rnow) => 0 < snow < 2 ^ 32 /\ SEQ_EXPIRED < rnow) evs ->
  is_u32 (send_id s) -> 0 <= send_time s < 2 ^ 32 -> (send_time s = 0 -> send_id s = 0) ->
  rec_inv bt tb S opt -> in_step s lf opt ->
  transfer s opt lf evs = Ret (replicate (length (send_all s lf (evs.*1))) true).
Proof.
  induction evs as [|[snow rnow] evs IH]; intros s S opt Hev Hu Ht H0 HR HS; [done|].
  apply Forall_cons in Hev as [[Hsn Hrn] Hev]. cbn [transfer fmap list_fmap send_all fst].
  destruct (packet_id_send_update snow s lf) as [s' sent] eqn:E.
  destruct sent.
  - destruct (send_update_next snow s lf s' Hsn Hu Ht H0 E) as (Ht' & Hi' & Hnext).
    destruct (packet_id_write_read_roundtrip snow s s' lf true (replicate 8 0) [] [])
      as (b & b' & -> & _ & Hread & _); [unfold fits, BUF_SIZE_MAX, zlen; cbn; lia|done|done|
        unfold packet_id_size, zlen; destruct lf; cbn; lia|].
    cbn [mbind outcome_mbind]. rewrite Hread. cbn [mbind outcome_mbind c_assert].
    destruct (check_replay_in_step rnow bt tb S opt s s' lf Hrn HR HS Hu Ht' Hi' Hnext)
      as (opt' & -> & HR' & HS'). cbn [mbind outcome_mbind].
    rewrite (IH s' _ opt' Hev ltac:(unfold is_u32; lia) ltac:(lia) ltac:(lia) HR' HS'). done.
  - unfold packet_id_write. rewrite E. cbn [mbind outcome_mbind app].
    assert (Hs' : s' = s).
    { unfold packet_id_send_update in E. destruct (send_time s =? 0) eqn:E0; breflect; cbn in E.
      - rewrite (H0 E0) in E. cbn in E. done.
      - destruct (send_id s =? PACKET_ID_MAX); [destruct (_ || _)|]; by simplify_eq. }
    subst s'. by apply (IH s S).
Qed.

(** In every mode and in both forms, a receiver that gets the packets of a
    sender in the order they were sent accepts every one of them, across sequence
    number wrap-around included (clocks below 2038/2106 as the 32-bit wire format
    requires). *)
Theorem in_order_packets_all_accepted (bt tb : Z) (pp : option packet_id_persist) (lf : bool)
    (evs : list (Z * Z)) :
  0 <= bt <= MAX_SEQ_BACKTRACK -> 0 <= tb <= MAX_TIME_BACKTRACK ->
  Forall (fun '(snow, rnow) => 0 < snow < 2 ^ 32 /\ SEQ_EXPIRED < rnow) evs ->
  exists opt, start bt tb pp lf = Ret opt /\
    transfer (mksend 0 0) opt lf evs =
      Ret (replicate (length (send_all (mksend 0 0) lf (evs.*1))) true).
Proof.
  intros Hbt Htb Hev.
  assert (Hs : exists opt, start bt tb pp lf = Ret opt /\ rec_inv bt tb [] opt /\ in_step (mksend 0 0) lf opt).
  { unfold in_step. destruct (decide (bt = 0)) as [->|Hne].
    - destruct (start_tcp tb pp lf) as (opt & Hs & HT & H1 & H2). exists opt.
      split; [done|]. split; [by right|]. rewrite H1, H2. by destruct lf.
    - destruct (start_udp bt tb pp lf ltac:(lia) Htb) as (opt & Hs & HU & _).
      exists opt. split; [done|]. pose proof HU as ((sl & _ & _ & _ & _ & _ & H1 & H2 & _) & _).
      split; [left; split; [lia|]; eauto|]. rewrite H1, H2. by destruct lf. }
  destruct Hs as (opt & Hs & HR & HS). exists opt. split; [done|].
  by apply (transfer_in_step bt tb lf evs (mksend 0 0) [] opt).
Qed.

Lemma in_order_packets_all_accepted_witness :
  exists opt, start 64 15 None true = Ret opt /\
    transfer (mksend 0 0) opt true [(100, 103); (100, 105); (107, 110)] = Ret [true; true; true].
Proof.
  apply (in_order_packets_all_accepted 64 15 None true [(100, 103); (100, 105); (107, 110)]).
  - unfold MAX_SEQ_BACKTRACK; lia.
  - unfold MAX_TIME_BACKTRACK; lia.
  - repeat (apply Forall_cons; split; [unfold SEQ_EXPIRED; lia|]). apply Forall_nil; exact I.
Defined.

(** ** Persistence across sessions *)

(** A new session over the persistent state an old one left, as
    [do_init_crypto_static] sets it up: initialise, then load the saved state. *)
Definition restart (bt tb : Z) (old : crypto_options) : outcome crypto_options :=
  opt ← start bt tb (pid_persist old) (co_long_form old);
  Ret (match pid_persist old with
       | Some pp => set_rec opt (packet_id_persist_load_obj pp (pid_rec (opt_packet_id opt)))
       | None => opt
       end).

Lemma check_replay_window0 now bt opt time id win pin :
  0 < bt <= MAX_SEQ_BACKTRACK -> net_ok pin ->
  rec_window bt (pid_rec (opt_packet_id opt)) (time, id, win) ->
  time_backtrack (pid_rec (opt_packet_id opt)) = 0 ->
  exists opt', crypto_check_replay now opt pin = Ret (opt', window_test (time, id, win) pin) /\
    time_backtrack (pid_rec (opt_packet_id opt')) = 0 /\
    rec_window bt (pid_rec (opt_packet_id opt'))
      (if window_test (time, id, win) pin then window_add now bt (time, id, win) pin else (time, id, win)) /\
    (window_test (time, id, win) pin = true -> co_long_form opt = true ->
     pid_persist opt' = (fun pp => packet_id_persist_save_obj pp (pid_rec (opt_packet_id opt'))) <$> pid_persist opt) /\
    co_long_form opt' = co_long_form opt.
Proof.
  intros Hbt Hp HW Htb. destruct (check_replay_window now bt opt time id win pin Hbt Hp HW) as (opt' & E & HW' & Ht & Hlf & Hpp).
  assert (Er : reap_window now (timers (opt_rec opt)) win = win)
    by (unfold reap_window, timers; cbn [fst]; by rewrite Htb, andb_false_r).
  rewrite Er in *. exists opt'. split; [done|]. injection Ht as Ht _. split; [congruence|done].
Qed.

(** The first session saves the packet it accepted. *)
Lemma saved_session bt now T I fd :
  0 < bt <= MAX_SEQ_BACKTRACK -> SEQ_EXPIRED < now -> 0 < T -> 0 < I < 2 ^ 32 -> 0 <= fd ->
  exists opt0 opt1,
    start bt 0 (Some (mkpersist fd 0 0 0 0)) true = Ret opt0 /\
    crypto_check_replay now opt0 (mknet I T) = Ret (opt1, true) /\ pid_persist opt1 = Some (mkpersist fd T I 0 0).
Proof.
  intros Hbt Hnow HT HI Hfd. unfold SEQ_EXPIRED in Hnow.
  assert (HpI : net_ok (mknet I T)) by (unfold net_ok, is_u32; cbn; lia).
  destruct (start_udp bt 0 (Some (mkpersist fd 0 0 0 0)) true Hbt) as (opt0 & Hs & (HW0 & Ht0 & _) & _ & Hpp0 & Hlf0);
    [unfold MAX_TIME_BACKTRACK; lia|].
  assert (Htest0 : window_test (0, 0, []) (mknet I T) = true) by (apply window_test_true; cbn; lia).
  destruct (check_replay_window0 now bt opt0 0 0 [] _ Hbt HpI HW0 Ht0) as (opt1 & Hrun1 & _ & HW1 & Hpp1 & _).
  rewrite Htest0 in *. specialize (Hpp1 eq_refl Hlf0). rewrite Hpp0 in Hpp1. cbn in Hpp1.
  assert (Htop : rec_time (pid_rec (opt_packet_id opt1)) = T /\ rec_id (pid_rec (opt_packet_id opt1)) = I).
  { destruct HW1 as (sl & _ & _ & _ & _ & _ & -> & -> & _).
    rewrite (window_add_top now bt []); [cbn; bdecide; done|lia| |done|done].
    split; [done|]. split; [done|]. split; [|done]. intros q Hq; by apply elem_of_nil in Hq. }
  exists opt0, opt1. split; [done|]. split; [done|]. rewrite Hpp1. destruct Htop as [Htop1 Htop2].
  unfold packet_id_persist_save_obj, packet_id_persist_enabled. rewrite Htop1, Htop2. cbn [persist_fd]. by bdecide.
Qed.

(** The next session starts with the saved number and an empty window. *)
Lemma restarted_session bt T I fd opt :
  0 < bt <= MAX_SEQ_BACKTRACK -> 0 < T -> 0 < I < 2 ^ 32 -> 0 <= fd ->
  pid_persist opt = Some (mkpersist fd T I 0 0) ->
  exists opt', restart bt 0 opt = Ret opt' /\ rec_window bt (pid_rec (opt_packet_id opt')) (T, I, []) /\
    time_backtrack (pid_rec (opt_packet_id opt')) = 0.
Proof.
  intros Hbt HT HI Hfd Hpp.
  destruct (start_udp bt 0 (pid_persist opt) (co_long_form opt) Hbt) as (opt2 & Hs2 & (HW2 & Ht2 & _) & _);
    [unfold MAX_TIME_BACKTRACK; lia|].
  exists (set_rec opt2 (set_time_id (pid_rec (opt_packet_id opt2)) T I)). split; [|split; [|done]].
  - unfold restart. rewrite Hs2. cbn [mbind outcome_mbind]. rewrite Hpp.
    unfold packet_id_persist_load_obj, packet_id_persist_enabled. cbn [persist_fd persist_time persist_id].
    assert (Hen : (0 <=? fd) && negb (T =? 0) = true) by (by bdecide). by rewrite Hen.
  - destruct HW2 as (sl & H1 & H2 & H3 & H4 & H5 & _). exists sl. cbn. split_and!; try done; unfold is_u32; lia.
Qed.

(** After one packet more the window has all the numbers below as unseen. *)
Lemma window_after_restart now bt T I :
  1 < bt -> 0 < I -> SEQ_EXPIRED < now ->
  window_add now bt (T, I, []) (mknet (I + 1) T) = (T, I + 1, <[0%nat := now]> (replicate (Z.to_nat (Z.min bt (I + 1))) 0)).
Proof.
  intros Hbt HI Hnow. unfold window_add, window_mark, window_slide, SEQ_EXPIRED, SEQ_UNSEEN in *.
  cbn [net_id net_time zlen length Z.of_nat]. rewrite zlen_nil. cbn [Z.eqb orb]. rewrite app_nil_r.
  set (id0 := if bt <? I + 1 then I + 1 - bt else 0).
  assert (Hd : I + 1 - id0 = Z.min bt (I + 1) /\ 0 <= id0) by (unfold id0; bcase; lia).
  rewrite Z.max_r by lia. unfold ztake. rewrite take_replicate.
  replace (Z.to_nat bt `min` Z.to_nat (I + 1 - id0))%nat with (Z.to_nat (Z.min bt (I + 1))) by lia.
  rewrite zlen_replicate, Z2Nat.id by lia. bdecide. by rewrite Z.sub_diag.
Qed.

(** C13: the state saved by [--replay-persist] does not make a restarted session
    reject the packets the previous session received.  A session accepts packet
    [I] of time stamp [T] and saves [(T, I)]; after a restart that loads this
    state, packet [I] is still rejected at first, but once packet [I + 1] has been
    accepted the replayed packet [I] is accepted again. *)
Theorem reloaded_session_accepts_replay (bt now T I fd : Z) :
  1 < bt <= MAX_SEQ_BACKTRACK -> SEQ_EXPIRED < now -> 0 < T -> 0 < I -> I + 1 < 2 ^ 32 -> 0 <= fd ->
  exists opt0 opt1 opt2 opt3 opt4,
    start bt 0 (Some (mkpersist fd 0 0 0 0)) true = Ret opt0 /\
    check_replay_all opt0 [(now, mknet I T)] = Ret (opt1, [true]) /\
    restart bt 0 opt1 = Ret opt2 /\
    check_replay_all opt2 [(now, mknet I T)] = Ret (opt3, [false]) /\
    check_replay_all opt2 [(now, mknet (I + 1) T); (now, mknet I T)] = Ret (opt4, [true; true]).
Proof.
  intros Hbt Hnow HT HI HI1 Hfd. assert (Hbt' : 0 < bt <= MAX_SEQ_BACKTRACK) by lia.
  assert (HpI : net_ok (mknet I T)) by (unfold net_ok, is_u32; cbn; lia).
  assert (HpI1 : net_ok (mknet (I + 1) T)) by (unfold net_ok, is_u32; cbn; lia).
  destruct (saved_session bt now T I fd) as (opt0 & opt1 & Hs & Hrun1 & Hpp); [lia..|].
  destruct (restarted_session bt T I fd opt1) as (opt2 & Hre & HW2 & Ht2); [lia..|done|].
  destruct (check_replay_window0 now bt opt2 T I [] _ Hbt' HpI HW2 Ht2) as (opt3 & Hrun3 & _).
  assert (Htest3 : window_test (T, I, []) (mknet I T) = false).
  { apply not_true_is_false. intros H. apply window_test_true in H as [_ H]; cbn in H.
    destruct H as [|[_ [|H]]]; [lia..|]. by destruct (Z.to_nat (I - I)). }
  destruct (check_replay_window0 now bt opt2 T I [] _ Hbt' HpI1 HW2 Ht2) as (opt4 & Hrun4 & Ht4 & HW4 & _).
  assert (Htest4 : window_test (T, I, []) (mknet (I + 1) T) = true) by (apply window_test_true; cbn; lia).
  rewrite Htest4, window_after_restart in * by lia.
  destruct (check_replay_window0 now bt opt4 T (I + 1) _ _ Hbt' HpI HW4 Ht4) as (opt5 & Hrun5 & _).
  assert (Htest5 : window_test (T, I + 1, <[0%nat := now]> (replicate (Z.to_nat (Z.min bt (I + 1))) 0)) (mknet I T) = true).
  { apply window_test_true. cbn. split; [lia|]. right. split; [done|]. right.
    replace (I + 1 - I) with 1 by lia. rewrite list_lookup_insert_ne by (cbn; lia). apply lookup_replicate. lia. }
  exists opt0, opt1, opt2, opt3, opt5. cbn [check_replay_all].
  rewrite Hrun1, Hrun3, Hrun4, Htest3. cbn [mbind outcome_mbind]. rewrite Hrun5, Htest5. done.
Qed.

Lemma reloaded_session_accepts_replay_witness :
  exists opt0 opt1 opt2 opt3 opt4,
    start 64 0 (Some (mkpersist 3 0 0 0 0)) true = Ret opt0 /\
    check_replay_all opt0 [(2000, mknet 100 1500)] = Ret (opt1, [true]) /\
    restart 64 0 opt1 = Ret opt2 /\
    check_replay_all opt2 [(2000, mknet 100 1500)] = Ret (opt3, [false]) /\
    check_replay_all opt2 [(2000, mknet 101 1500); (2000, mknet 100 1500)] = Ret (opt4, [true; true]).
Proof.
  apply (reloaded_session_accepts_replay 64 2000 1500 100 3);
    unfold MAX_SEQ_BACKTRACK, SEQ_EXPIRED; lia.
Defined.
