(* ===== verification/Reliable.v ===== *)
(** * The reliability layer of the control channel ([reliable.c], [session_id.h])

    Packet numbers compared modulo 2^32, the acknowledgement records, and the
    arrays of packets waiting to be sent and acknowledged ([send_reliable]) or to be
    delivered in sequence ([rec_reliable]).  A [struct buffer *] that points into
    the array of a [struct reliable] is the index of its entry.  [now] is the
    program's cached clock.  Debug messages are left out. *)
From S2P Require Import Prelude Integer Buffer PacketId.

Definition RELIABLE_ACK_SIZE : Z := 8.
Definition RELIABLE_CAPACITY : Z := 8.
Definition SID_SIZE : Z := 8.
Definition BIG_TIMEOUT : Z := 60 * 60 * 24 * 7.

(** ** Comparison of packet numbers *)

Definition reliable_pid_in_range1 (test base extent : Z) : bool :=
  if base <=? test
  then test -u base <? extent
  else (test +u 0x80000000) -u (base +u 0x80000000) <? extent.

Definition reliable_pid_in_range2 (test base extent : Z) : bool :=
  if base <=? base +u extent
  then test <? base +u extent
  else test +u 0x80000000 <? (base +u 0x80000000) +u extent.

Definition reliable_pid_min (p1 p2 : Z) : bool := negb (reliable_pid_in_range1 p1 p2 0x80000000).

(** ** Session identifiers: the 8 bytes [id] *)

Definition session_id_equal (sid1 sid2 : list Z) : bool := bool_decide (sid1 = sid2).

Definition session_id_defined (sid : list Z) : bool := negb (bool_decide (sid = replicate 8 0)).

Definition session_id_read (buf : buffer) : outcome (buffer * option (list Z)) := buf_read buf SID_SIZE.

Definition session_id_write_prepend (sid : list Z) (buf : buffer) : outcome (buffer * bool) :=
  buf_write_prepend buf sid.

Definition session_id_write (sid : list Z) (buf : buffer) : outcome (buffer * bool) :=
  buf_write buf sid.

(** ** Acknowledgement records *)

(** [struct reliable_ack]: the first [len] entries of its array. *)
Definition reliable_ack : Type := list Z.

Definition reliable_ack_empty (ack : reliable_ack) : bool := zlen ack =? 0.

Fixpoint reliable_ack_packet_id_present (ack : reliable_ack) (pid : Z) : bool :=
  match ack with
  | [] => false
  | x :: ack => if x =? pid then true else reliable_ack_packet_id_present ack pid
  end.

Definition reliable_ack_read_packet_id (buf : buffer) : outcome (buffer * option Z) :=
  '(buf, r) ← buf_read buf 4;
  Ret (buf, match r with Some net_pid => Some (be_value net_pid) | None => None end).

Definition reliable_ack_acknowledge_packet_id (ack : reliable_ack) (pid : Z) : reliable_ack * bool :=
  if negb (reliable_ack_packet_id_present ack pid) && (zlen ack <? RELIABLE_ACK_SIZE)
  then (ack ++ [pid], true)
  else (ack, false).

(** The [for] loop of [reliable_ack_read], [count] identifiers to go; [false] is
    [goto error]. *)
Fixpoint reliable_ack_read_loop (count : nat) (ack : reliable_ack) (buf : buffer)
  : outcome (reliable_ack * buffer * bool) :=
  match count with
  | O => Ret (ack, buf, true)
  | S count =>
      '(buf, r) ← buf_read buf 4;
      match r with
      | None => Ret (ack, buf, false)
      | Some net_pid =>
          if RELIABLE_ACK_SIZE <=? zlen ack then Ret (ack, buf, false)
          else reliable_ack_read_loop count (ack ++ [be_value net_pid]) buf
      end
  end.

Definition reliable_ack_read (ack : reliable_ack) (buf : buffer) (sid : list Z)
  : outcome (reliable_ack * buffer * bool) :=
  '(buf, r) ← buf_read buf 1;
  match r with
  | None => Ret (ack, buf, false)
  | Some b =>
      let count := be_value b in
      '(ack, buf, ok) ← reliable_ack_read_loop (Z.to_nat count) ack buf;
      if negb ok then Ret (ack, buf, false)
      else if negb (count =? 0)
      then
        '(buf, r) ← session_id_read buf;
        match r with
        | None => Ret (ack, buf, false)
        | Some session_id_remote =>
            if negb (session_id_defined session_id_remote)
               || negb (session_id_equal session_id_remote sid)
            then Ret (ack, buf, false)
            else Ret (ack, buf, true)
        end
      else Ret (ack, buf, true)
  end.

Definition ACK_SIZE (n : Z) : Z := 1 + (if n =? 0 then 0 else SID_SIZE) + 4 * n.

Fixpoint reliable_ack_write_loop (ids : list Z) (sub : buffer) : outcome buffer :=
  match ids with
  | [] => Ret sub
  | pid :: ids =>
      '(sub, ok) ← buf_write sub (be_bytes 4 pid);
      _ ← c_assert ok;
      reliable_ack_write_loop ids sub
  end.

(** Returns what is left of [ack], the buffer and the result. *)
Definition reliable_ack_write (ack : reliable_ack) (buf : buffer) (sid : list Z) (max : Z) (prepend : bool)
  : outcome (reliable_ack * buffer * bool) :=
  let n := u8 (zlen ack) in
  let n := if max <? n then u8 max else n in
  '(buf, r) ← buf_sub buf (ACK_SIZE n) prepend;
  match r with
  | None => Ret (ack, buf, false)
  | Some (sub, p) =>
      '(sub, ok) ← buf_write sub [n];
      _ ← c_assert ok;
      sub ← reliable_ack_write_loop (ztake n ack) sub;
      if negb (n =? 0)
      then
        _ ← c_assert (session_id_defined sid);
        '(sub, ok) ← session_id_write sid sub;
        _ ← c_assert ok;
        buf ← buf_sub_commit buf sub p;
        Ret (zdrop n ack, buf, true)
      else
        buf ← buf_sub_commit buf sub p;
        Ret (ack, buf, true)
  end.

(** ** The packet arrays *)

(** [struct reliable_entry] *)
Record reliable_entry : Type := mkentry {
  active : bool;
  timeout : Z;
  next_try : Z;
  entry_packet_id : Z;
  opcode : Z;
  buf : buffer
}.

(** [struct reliable] *)
Record reliable : Type := mkreliable {
  size : Z;
  initial_timeout : Z;
  rel_packet_id : Z;
  rel_offset : Z;
  hold : bool;
  array : list reliable_entry
}.

Definition set_active (e : reliable_entry) (a : bool) : reliable_entry :=
  mkentry a (timeout e) (next_try e) (entry_packet_id e) (opcode e) (buf e).

Definition set_timing (e : reliable_entry) (t n : Z) : reliable_entry :=
  mkentry (active e) t n (entry_packet_id e) (opcode e) (buf e).

Definition set_buf (e : reliable_entry) (b : buffer) : reliable_entry :=
  mkentry (active e) (timeout e) (next_try e) (entry_packet_id e) (opcode e) b.

Definition set_array (rel : reliable) (a : list reliable_entry) : reliable :=
  mkreliable (size rel) (initial_timeout rel) (rel_packet_id rel) (rel_offset rel) (hold rel) a.

Definition set_entry (rel : reliable) (i : nat) (e : reliable_entry) : reliable :=
  set_array rel (<[i := e]> (array rel)).

Definition set_packet_id (rel : reliable) (pid : Z) : reliable :=
  mkreliable (size rel) (initial_timeout rel) pid (rel_offset rel) (hold rel) (array rel).

Definition set_hold (rel : reliable) (h : bool) : reliable :=
  mkreliable (size rel) (initial_timeout rel) (rel_packet_id rel) (rel_offset rel) h (array rel).

(** The entries the loops [for (i = 0; i < rel->size; ++i)] visit. *)
Definition entries (rel : reliable) : list reliable_entry := ztake (size rel) (array rel).

Definition entry_zero : reliable_entry := mkentry false 0 0 0 0 (mkbuffer 0 0 0 None).

Fixpoint reliable_init_entries (n : nat) (buf_size off : Z) : outcome (list reliable_entry) :=
  match n with
  | O => Ret []
  | S n =>
      b ← alloc_buf buf_size;
      let '(b, ok) := buf_init b off in
      _ ← c_assert ok;
      l ← reliable_init_entries n buf_size off;
      Ret (set_buf entry_zero b :: l)
  end.

Definition reliable_init (buf_size off array_size : Z) (h : bool) : outcome reliable :=
  _ ← c_assert ((0 <? array_size) && (array_size <=? RELIABLE_CAPACITY));
  l ← reliable_init_entries (Z.to_nat array_size) buf_size off;
  Ret (mkreliable array_size 0 0 off h
         (l ++ replicate (Z.to_nat (RELIABLE_CAPACITY - array_size)) entry_zero)).

Definition reliable_set_timeout (rel : reliable) (t : Z) : reliable :=
  mkreliable (size rel) t (rel_packet_id rel) (rel_offset rel) (hold rel) (array rel).

Definition reliable_free (rel : reliable) : reliable :=
  set_array rel
    (((fun e => set_buf e (free_buf (buf e))) <$> entries rel) ++ zdrop (size rel) (array rel)).

(** Index of the first entry of a list with a property. *)
Definition find_entry (P : reliable_entry -> bool) (l : list reliable_entry) : option nat :=
  fst <$> list_find P l.

Definition reliable_empty (rel : reliable) : bool := forallb (fun e => negb (active e)) (entries rel).

Definition purge_one (rel : reliable) (pid : Z) : reliable :=
  match list_find (fun e => active e && (entry_packet_id e =? pid)) (entries rel) with
  | Some (j, e) => set_entry rel j (set_active e false)
  | None => rel
  end.

Definition reliable_send_purge (rel : reliable) (ack : reliable_ack) : reliable :=
  fold_left purge_one ack rel.

Definition reliable_can_get (rel : reliable) : bool := existsb (fun e => negb (active e)) (entries rel).

Definition reliable_not_replay (rel : reliable) (id : Z) : bool :=
  if reliable_pid_min id (rel_packet_id rel) then false
  else negb (existsb (fun e => active e && (entry_packet_id e =? id)) (entries rel)).

Definition reliable_wont_break_sequentiality (rel : reliable) (id : Z) : bool :=
  reliable_pid_in_range2 id (rel_packet_id rel) (size rel).

(** A free buffer, emptied: the new state and its index. *)
Definition reliable_get_buf (rel : reliable) : outcome (reliable * option nat) :=
  match list_find (fun e => negb (active e)) (entries rel) with
  | Some (i, e) =>
      let '(b, ok) := buf_init (buf e) (rel_offset rel) in
      _ ← c_assert ok;
      Ret (set_entry rel i (set_buf e b), Some i)
  | None => Ret (rel, None)
  end.

(** The lowest number of an active entry. *)
Fixpoint min_active_id (l : list reliable_entry) (min_id : option Z) : option Z :=
  match l with
  | [] => min_id
  | e :: l =>
      min_active_id l
        (if active e
         then match min_id with
              | None => Some (entry_packet_id e)
              | Some m => if reliable_pid_min (entry_packet_id e) m then Some (entry_packet_id e) else min_id
              end
         else min_id)
  end.

Definition reliable_get_buf_output_sequenced (rel : reliable) : outcome (reliable * option nat) :=
  match min_active_id (entries rel) None with
  | None => reliable_get_buf rel
  | Some min_id =>
      if reliable_pid_in_range1 (rel_packet_id rel) min_id (size rel)
      then reliable_get_buf rel
      else Ret (rel, None)
  end.

Definition reliable_get_buf_sequenced (rel : reliable) : option nat :=
  find_entry (fun e => active e && (entry_packet_id e =? rel_packet_id rel)) (entries rel).

(** The counters of [reliable_can_send]. *)
Fixpoint count_current (now : Z) (l : list reliable_entry) : Z :=
  match l with
  | [] => 0
  | e :: l => (if active e && (next_try e <=? now) then 1 else 0) + count_current now l
  end.

Definition reliable_can_send (now : Z) (rel : reliable) : bool :=
  (0 <? count_current now (entries rel)) && negb (hold rel).

(** The loop of [reliable_send]; [i] is the index of the head of [l]. *)
Fixpoint reliable_send_best (now : Z) (i : nat) (l : list reliable_entry) (best : option (nat * reliable_entry))
  : option (nat * reliable_entry) :=
  match l with
  | [] => best
  | e :: l =>
      reliable_send_best now (S i) l
        (if active e && (next_try e <=? now)
         then match best with
              | None => Some (i, e)
              | Some (_, b) => if reliable_pid_min (entry_packet_id e) (entry_packet_id b) then Some (i, e) else best
              end
         else best)
  end.

(** The new state, and the index and the opcode of the packet to send.  The
    time-out is doubled each time (as an [int]: it would overflow only after a
    packet has been retransmitted for decades). *)
Definition reliable_send (now : Z) (rel : reliable) : reliable * option (nat * Z) :=
  match reliable_send_best now 0 (entries rel) None with
  | Some (i, best) =>
      (set_entry rel i (set_timing best (timeout best * 2) (now + timeout best)), Some (i, opcode best))
  | None => (rel, None)
  end.

Definition reliable_schedule_now (now : Z) (rel : reliable) : reliable :=
  let rel := set_hold rel false in
  set_array rel
    (((fun e => if active e then set_timing e (initial_timeout rel) now else e) <$> entries rel)
     ++ zdrop (size rel) (array rel)).

Fixpoint reliable_send_timeout_loop (now : Z) (l : list reliable_entry) (ret : Z) : Z :=
  match l with
  | [] => ret
  | e :: l =>
      if active e
      then if next_try e <=? now then 0
           else reliable_send_timeout_loop now l (min_int ret (i32 (next_try e - now)))
      else reliable_send_timeout_loop now l ret
  end.

Definition reliable_send_timeout (now : Z) (rel : reliable) : Z :=
  reliable_send_timeout_loop now (entries rel) BIG_TIMEOUT.

(** The three functions below search the array for the entry whose buffer the
    pointer designates: the entry at index [i], when [i] is below [size]. *)
Definition reliable_mark_active_incoming (rel : reliable) (i : nat) (pid op : Z) : outcome reliable :=
  match entries rel !! i with
  | Some e =>
      _ ← c_assert (negb (reliable_pid_min pid (rel_packet_id rel)));
      Ret (set_entry rel i (mkentry true 0 0 pid op (buf e)))
  | None => Fatal
  end.

Definition reliable_mark_active_outgoing (rel : reliable) (i : nat) (op : Z) : outcome reliable :=
  match entries rel !! i with
  | Some e =>
      let pid := rel_packet_id rel in
      '(b, ok) ← buf_write_prepend (buf e) (be_bytes 4 pid);
      _ ← c_assert ok;
      Ret (set_packet_id (set_entry rel i (mkentry true (initial_timeout rel) 0 pid op b)) (pid +u 1))
  | None => Fatal
  end.

Definition reliable_mark_deleted (rel : reliable) (i : nat) (inc_pid : bool) : outcome reliable :=
  match entries rel !! i with
  | Some e =>
      let rel' := set_entry rel i (set_active e false) in
      Ret (if inc_pid then set_packet_id rel' (entry_packet_id e +u 1) else rel')
  | None => Fatal
  end.

(** ** Packet number comparison *)

Lemma in_range1_spec test base extent :
  is_u32 test -> is_u32 base ->
  reliable_pid_in_range1 test base extent = (test -u base <? extent).
Proof.
  intros Ht Hb. unfold reliable_pid_in_range1. destruct (base <=? test); [done|].
  f_equal. unfold u32, is_u32 in *. rewrite <- Zminus_mod. f_equal. lia.
Qed.

Lemma in_range1_small test base extent :
  0 <= base <= test -> test < 2 ^ 32 -> reliable_pid_in_range1 test base extent = (test - base <? extent).
Proof.
  intros. rewrite in_range1_spec by (unfold is_u32; lia). by rewrite u32_id by (unfold is_u32; lia).
Qed.

Lemma pid_min_small p1 p2 :
  0 <= p1 < 2 ^ 31 -> 0 <= p2 < 2 ^ 31 -> reliable_pid_min p1 p2 = (p1 <? p2).
Proof.
  intros H1 H2. unfold reliable_pid_min. rewrite in_range1_spec by (unfold is_u32; lia).
  destruct (p1 <? p2) eqn:E; breflect.
  - replace (p1 -u p2) with (p1 - p2 + 2 ^ 32) by uwrap. by bdecide.
  - rewrite u32_id by (unfold is_u32; lia). by bdecide.
Qed.

Lemma in_range2_small test base extent :
  0 <= base -> 0 <= extent -> base + extent < 2 ^ 32 ->
  reliable_pid_in_range2 test base extent = (test <? base + extent).
Proof.
  intros. unfold reliable_pid_in_range2. rewrite u32_id by (unfold is_u32; lia). by bdecide.
Qed.

(** ** Acknowledgement records on the wire *)

(** The bytes of an acknowledgement record. *)
Definition ack_record (ids : list Z) (sid : list Z) : list Z :=
  [zlen ids] ++ concat (be_bytes 4 <$> ids) ++ (if zlen ids =? 0 then [] else sid).

Lemma zlen_ids (ids : list Z) : zlen (concat (be_bytes 4 <$> ids)) = 4 * zlen ids.
Proof.
  induction ids as [|x ids IH]; [done|]. rewrite fmap_cons. cbn [concat].
  rewrite zlen_app, zlen_be_bytes, IH, zlen_cons. lia.
Qed.

#[export] Hint Rewrite zlen_ids : zlen.

Lemma zlen_ack_record ids sid : zlen sid = SID_SIZE -> zlen (ack_record ids sid) = ACK_SIZE (zlen ids).
Proof.
  intros H. unfold ack_record, ACK_SIZE. rewrite !zlen_app, zlen_ids, zlen_cons, zlen_nil.
  destruct (zlen ids =? 0); zlia.
Qed.

(** Writing into a buffer of exactly the right size. *)
Lemma write_exact c src post :
  zlen src <= zlen post -> zlen c + zlen post < BUF_SIZE_MAX ->
  buf_write (conc [] c post) src = Ret (conc [] (c ++ src) (zdrop (zlen src) post), true).
Proof. intros. apply buf_write_fits; [unfold fits; zlia|done]. Qed.

Lemma reliable_ack_write_loop_spec ids c post :
  4 * zlen ids <= zlen post -> zlen c + zlen post < BUF_SIZE_MAX ->
  reliable_ack_write_loop ids (conc [] c post) =
    Ret (conc [] (c ++ concat (be_bytes 4 <$> ids)) (zdrop (4 * zlen ids) post)).
Proof.
  revert c post. induction ids as [|x ids IH]; intros c post H1 H2; cbn [reliable_ack_write_loop].
  - by rewrite fmap_nil, app_nil_r.
  - rewrite zlen_cons in H1. rewrite write_exact by zlia. cbn [mbind outcome_mbind c_assert].
    rewrite IH by zlia. rewrite <- app_assoc. do 2 f_equal.
    rewrite zlen_be_bytes, zdrop_zdrop by zlia. f_equal. zlia.
Qed.

(** The count of a record that is written: at most [max] of the identifiers. *)
Lemma ack_count (ack : reliable_ack) max :
  zlen ack <= RELIABLE_ACK_SIZE -> 0 <= max < 2 ^ 8 ->
  (if max <? u8 (zlen ack) then u8 max else u8 (zlen ack)) = Z.min max (zlen ack).
Proof.
  unfold RELIABLE_ACK_SIZE. intros. zlen_facts. rewrite !u8_id by (unfold is_u8; lia). bcase; lia.
Qed.

Definition ack_sid_ok (sid : list Z) : Prop := zlen sid = SID_SIZE /\ session_id_defined sid = true.

Lemma ack_fill ids sid old :
  ack_sid_ok sid -> zlen old = ACK_SIZE (zlen ids) -> zlen ids < 2 ^ 8 ->
  exists sub0 sub1,
    buf_write (conc [] [] old) [zlen ids] = Ret (sub0, true) /\
    reliable_ack_write_loop ids sub0 = Ret sub1 /\
    (if negb (zlen ids =? 0)
     then exists sub2, session_id_write sid sub1 = Ret (sub2, true) /\ data sub2 = Some (ack_record ids sid)
     else data sub1 = Some (ack_record ids sid)).
Proof.
  intros [Hs Hd] Ho Hn. unfold ACK_SIZE in Ho. unfold SID_SIZE in *. zlen_facts.
  assert (Hsm : zlen old < BUF_SIZE_MAX).
  { rewrite Ho. unfold BUF_SIZE_MAX. destruct (zlen ids =? 0); lia. }
  assert (Hge : 1 + 4 * zlen ids <= zlen old) by (destruct (zlen ids =? 0); lia).
  eexists _, _. split; [apply write_exact; zlia|].
  split; [apply reliable_ack_write_loop_spec; zlia|].
  unfold ack_record. destruct (zlen ids =? 0) eqn:E; cbn [negb]; breflect.
  - cbn [data conc]. f_equal. rewrite !zdrop_all by zlia. by rewrite !app_nil_r.
  - eexists. split.
    + unfold session_id_write. apply write_exact.
      * zlia.
      * zlia.
    + cbn [data conc]. f_equal. rewrite zdrop_all.
      2:{ zlia. }
      by rewrite app_nil_r, <- app_assoc.
Qed.

Section AckWrite.
Context (ack : reliable_ack) (sid : list Z) (max : Z).
Hypothesis Hack : zlen ack <= RELIABLE_ACK_SIZE.
Hypothesis Hmax : 0 <= max < 2 ^ 8.
Hypothesis Hsid : ack_sid_ok sid.

Let n := Z.min max (zlen ack).

Lemma ack_n_range : 0 <= n <= 8 /\ zlen (ztake n ack) = n.
Proof using Hack Hmax. unfold n, RELIABLE_ACK_SIZE in *. zlia. Qed.

(** The record goes out and what it acknowledges leaves [ack]. *)
Lemma reliable_ack_write_prepend_spec pre c post :
  ACK_SIZE n <= zlen pre ->
  reliable_ack_write ack (conc pre c post) sid max true =
    Ret (zdrop n ack,
         conc (ztake (zlen pre - ACK_SIZE n) pre) (ack_record (ztake n ack) sid ++ c) post, true).
Proof using Hack Hmax Hsid.
  intros Hfit. unfold reliable_ack_write. rewrite ack_count by done. fold n.
  destruct ack_n_range as [Hn Hl].
  assert (Hpos : 0 <= ACK_SIZE n) by (unfold ACK_SIZE, SID_SIZE; destruct (n =? 0); lia).
  rewrite buf_sub_prepend by lia. bdecide. cbn [mbind outcome_mbind].
  set (old := zdrop (zlen pre - ACK_SIZE n) pre).
  assert (Hold : zlen old = ACK_SIZE n) by (unfold old; zlia).
  destruct (ack_fill (ztake n ack) sid old Hsid) as (sub0 & sub1 & H0 & H1 & H2); [by rewrite Hl|lia|].
  rewrite Hl in *. rewrite H0. cbn [mbind outcome_mbind c_assert]. rewrite H1. cbn [mbind outcome_mbind].
  assert (Hrec : zlen (ack_record (ztake n ack) sid) = zlen old)
    by (rewrite zlen_ack_record, Hl by apply Hsid; done).
  destruct (n =? 0) eqn:E; cbn [negb] in *; breflect.
  - rewrite (buf_sub_commit_conc _ [] old c post _ _ _ H2); [|done|zlia].
    cbn. by rewrite E.
  - destruct H2 as (sub2 & H2 & H3). destruct Hsid as [_ ->]. cbn [c_assert mbind outcome_mbind].
    rewrite H2. cbn [mbind outcome_mbind c_assert].
    by rewrite (buf_sub_commit_conc _ [] old c post _ _ _ H3); [|done|zlia].
Qed.

Lemma reliable_ack_write_append_spec pre c post :
  fits pre c post -> ACK_SIZE n <= zlen post ->
  reliable_ack_write ack (conc pre c post) sid max false =
    Ret (zdrop n ack,
         conc pre (c ++ ack_record (ztake n ack) sid) (zdrop (ACK_SIZE n) post), true).
Proof using Hack Hmax Hsid.
  intros HF Hfit. unfold reliable_ack_write. rewrite ack_count by done. fold n.
  destruct ack_n_range as [Hn Hl].
  assert (Hpos : 0 <= ACK_SIZE n) by (unfold ACK_SIZE, SID_SIZE; destruct (n =? 0); lia).
  rewrite buf_sub_append by done. bdecide. cbn [mbind outcome_mbind].
  set (old := ztake (ACK_SIZE n) post).
  assert (Hold : zlen old = ACK_SIZE n) by (unfold old; zlia).
  destruct (ack_fill (ztake n ack) sid old Hsid) as (sub0 & sub1 & H0 & H1 & H2); [by rewrite Hl|lia|].
  rewrite Hl in *. rewrite H0. cbn [mbind outcome_mbind c_assert]. rewrite H1. cbn [mbind outcome_mbind].
  assert (Hrec : zlen (ack_record (ztake n ack) sid) = zlen old)
    by (rewrite zlen_ack_record, Hl by apply Hsid; done).
  rewrite <- (app_nil_r (c ++ old)), <- app_assoc.
  destruct (n =? 0) eqn:E; cbn [negb] in *; breflect.
  - rewrite (buf_sub_commit_conc _ c old [] _ _ _ _ H2); [|done|done].
    cbn. by rewrite app_nil_r, E.
  - destruct H2 as (sub2 & H2 & H3). destruct Hsid as [_ ->]. cbn [c_assert mbind outcome_mbind].
    rewrite H2. cbn [mbind outcome_mbind c_assert].
    rewrite (buf_sub_commit_conc _ c old [] _ _ _ _ H3); [|done|done].
    by rewrite app_nil_r.
Qed.
End AckWrite.

Lemma reliable_ack_read_loop_spec ids ack pre c post :
  Forall is_u32 ids -> zlen ack + zlen ids <= RELIABLE_ACK_SIZE ->
  reliable_ack_read_loop (length ids) ack (conc pre (concat (be_bytes 4 <$> ids) ++ c) post) =
    Ret (ack ++ ids, conc (pre ++ concat (be_bytes 4 <$> ids)) c post, true).
Proof.
  revert ack pre. induction ids as [|x ids IH]; intros ack pre Hu Hl; cbn [reliable_ack_read_loop length].
  - rewrite fmap_nil. cbn [concat]. by rewrite !app_nil_r.
  - apply Forall_cons in Hu as [Hx Hu]. rewrite fmap_cons. cbn [concat].
    rewrite <- (app_assoc (be_bytes 4 x)). rewrite buf_read_front by (by rewrite zlen_be_bytes).
    cbn [mbind outcome_mbind]. rewrite zlen_cons in Hl. unfold RELIABLE_ACK_SIZE in *. zlen_facts. bdecide.
    rewrite be_value_bytes4 by done. rewrite IH by (try done; zlia).
    by rewrite <- !app_assoc.
Qed.

(** Reading back what was written, for the session it names. *)
Lemma reliable_ack_read_spec ids sid pre c post :
  Forall is_u32 ids -> zlen ids <= RELIABLE_ACK_SIZE -> ack_sid_ok sid ->
  reliable_ack_read [] (conc pre (ack_record ids sid ++ c) post) sid =
    Ret (ids, conc (pre ++ ack_record ids sid) c post, true).
Proof.
  intros Hu Hl [Hs Hd]. unfold reliable_ack_read, ack_record.
  rewrite <- !app_assoc. rewrite buf_read_front by done. cbn [mbind outcome_mbind].
  assert (Hn : be_value [zlen ids] = zlen ids) by (unfold be_value; cbn; lia).
  rewrite Hn. replace (Z.to_nat (zlen ids)) with (length ids) by (unfold zlen; lia).
  rewrite reliable_ack_read_loop_spec by done. cbn [mbind outcome_mbind negb app].
  destruct (zlen ids =? 0); cbn [negb].
  - by rewrite !app_nil_r, <- !app_assoc.
  - unfold session_id_read. rewrite buf_read_front by done. cbn [mbind outcome_mbind].
    rewrite Hd. unfold session_id_equal. rewrite bool_decide_eq_true_2 by done. cbn.
    by rewrite <- !app_assoc.
Qed.

(** The list of pending acknowledgements: bounded, without repetition. *)
Definition ack_wf (ack : reliable_ack) : Prop :=
  zlen ack <= RELIABLE_ACK_SIZE /\ NoDup ack /\ Forall is_u32 ack.

Lemma ack_present_iff ack pid : reliable_ack_packet_id_present ack pid = true <-> pid ∈ ack.
Proof.
  induction ack as [|x ack IH]; cbn; [by split; [|intros ?%elem_of_nil]|].
  rewrite elem_of_cons. destruct (x =? pid) eqn:E; breflect; [subst; by split; auto|].
  rewrite IH. split; [by auto|]. by intros [->|].
Qed.

Lemma acknowledge_spec ack pid :
  ack_wf ack -> is_u32 pid ->
  ack_wf (reliable_ack_acknowledge_packet_id ack pid).1 /\
  (forall x, x ∈ (reliable_ack_acknowledge_packet_id ack pid).1 -> x = pid \/ x ∈ ack).
Proof.
  intros (H1 & H2 & H3) Hp. unfold reliable_ack_acknowledge_packet_id.
  destruct (reliable_ack_packet_id_present ack pid) eqn:E; cbn [negb andb fst]; [by split; auto|].
  destruct (zlen ack <? RELIABLE_ACK_SIZE) eqn:E2; breflect; cbn [fst]; [|by split; auto].
  assert (Hni : pid ∉ ack) by (rewrite <- ack_present_iff; congruence).
  split; [split; [|split]|].
  - zlia.
  - apply NoDup_app. split; [done|]. split; [|by apply NoDup_singleton].
    intros x Hx ->%list_elem_of_singleton. done.
  - apply Forall_app; auto.
  - intros x [Hx| ->%list_elem_of_singleton]%elem_of_app; auto.
Qed.

Lemma ack_wf_zdrop n ack : ack_wf ack -> ack_wf (zdrop n ack).
Proof.
  intros (H1 & H2 & H3). unfold ack_wf. split; [|split].
  - zlia.
  - unfold zdrop. eapply sublist_NoDup; [done|apply sublist_drop].
  - unfold zdrop. by apply Forall_drop.
Qed.

(** ** The packet arrays *)

(** The array is allocated: every buffer in use has [bs] bytes and its window lies
    inside. *)
Definition rel_shape (bs : Z) (rel : reliable) : Prop :=
  0 < size rel <= RELIABLE_CAPACITY /\ zlen (array rel) = RELIABLE_CAPACITY /\
  0 <= rel_offset rel <= bs /\ bs < BUF_SIZE_MAX /\
  Forall (fun e => buf_wf (buf e) /\ capacity (buf e) = bs) (entries rel).

Definition active_at (rel : reliable) (i : nat) (e : reliable_entry) : Prop :=
  entries rel !! i = Some e /\ active e = true.

(** The structure holds packet [k]. *)
Definition holds (rel : reliable) (k : Z) : Prop :=
  exists i e, active_at rel i e /\ entry_packet_id e = k.

(** Packets held have distinct numbers and satisfy [P]. *)
Definition rel_inv (bs : Z) (P : reliable_entry -> Prop) (rel : reliable) : Prop :=
  rel_shape bs rel /\
  (forall i e, active_at rel i e -> P e) /\
  (forall i j e f, active_at rel i e -> active_at rel j f -> entry_packet_id e = entry_packet_id f -> i = j).

Lemma entries_set_entry rel i e : entries (set_entry rel i e) = <[i := e]> (entries rel).
Proof.
  unfold entries, set_entry, set_array, ztake; cbn. set (n := Z.to_nat (size rel)).
  destruct (decide (i < n)%nat).
  - by rewrite take_insert_lt.
  - rewrite take_insert_ge by lia. rewrite list_insert_ge; [done|]. rewrite length_take. lia.
Qed.

Lemma zlen_entries bs rel : rel_shape bs rel -> zlen (entries rel) = size rel.
Proof. intros (? & ? & _). unfold entries, RELIABLE_CAPACITY in *. zlia. Qed.

Lemma active_at_set rel i e0 e j f :
  entries rel !! i = Some e0 ->
  active_at (set_entry rel i e) j f <->
    (j = i /\ f = e /\ active e = true) \/ (j <> i /\ active_at rel j f).
Proof.
  intros H. unfold active_at. rewrite entries_set_entry.
  pose proof (lookup_lt_Some _ _ _ H).
  destruct (decide (j = i)) as [->|Hne].
  - rewrite list_lookup_insert_eq by done. intuition congruence.
  - rewrite list_lookup_insert_ne by done. intuition congruence.
Qed.

Lemma rel_shape_set bs rel i e :
  rel_shape bs rel -> buf_wf (buf e) -> capacity (buf e) = bs -> rel_shape bs (set_entry rel i e).
Proof.
  intros (H1 & H2 & H3 & H4 & H5) He Hc. unfold rel_shape. rewrite entries_set_entry. cbn.
  rewrite zlen_insert. do 4 (split; [done|]). by apply Forall_insert.
Qed.

(** Replacing one entry keeps the invariant when the new entry is free, or holds a
    packet that satisfies [P] and whose number no other entry has. *)
Lemma rel_inv_set bs P rel i e0 e :
  rel_inv bs P rel -> entries rel !! i = Some e0 ->
  buf_wf (buf e) -> capacity (buf e) = bs ->
  (active e = true -> P e /\
     forall j f, j <> i -> active_at rel j f -> entry_packet_id f <> entry_packet_id e) ->
  rel_inv bs P (set_entry rel i e).
Proof.
  intros (HS & HP & HD) Hi Hw Hc Ha. split; [by apply rel_shape_set|]. split.
  - intros j f Hj. apply (active_at_set _ _ _ _ _ _ Hi) in Hj as [(-> & -> & He)|[_ Hj]]; [by apply Ha|eauto].
  - intros j k f g Hj Hk Heq.
    apply (active_at_set _ _ _ _ _ _ Hi) in Hj as [(-> & -> & He)|[Hj Hj']];
    apply (active_at_set _ _ _ _ _ _ Hi) in Hk as [(-> & -> & He')|[Hk Hk']].
    + done.
    + destruct (Ha He) as [_ Hn]. by destruct (Hn _ _ Hk Hk').
    + destruct (Ha He') as [_ Hn]. by destruct (Hn _ _ Hj Hj').
    + eauto.
Qed.

Lemma rel_inv_weaken bs (P Q : reliable_entry -> Prop) rel :
  (forall e, P e -> Q e) -> rel_inv bs P rel -> rel_inv bs Q rel.
Proof. intros H (HS & HP & HD). split; [done|]. split; [eauto|done]. Qed.

Lemma entry_buf bs P rel i e :
  rel_inv bs P rel -> entries rel !! i = Some e -> buf_wf (buf e) /\ capacity (buf e) = bs.
Proof.
  intros ((_ & _ & _ & _ & HF) & _) Hi. rewrite Forall_forall in HF.
  apply HF. by apply list_elem_of_lookup_2 in Hi.
Qed.

Lemma can_get_free rel :
  reliable_can_get rel = true <-> exists i e, entries rel !! i = Some e /\ active e = false.
Proof.
  unfold reliable_can_get. rewrite existsb_exists. split.
  - intros (e & Hin & He). apply list_elem_of_In, list_elem_of_lookup_1 in Hin as [i Hi].
    exists i, e. by apply negb_true_iff in He.
  - intros (i & e & Hi & He). exists e. split; [|by rewrite He].
    apply list_elem_of_In. by apply list_elem_of_lookup_2 in Hi.
Qed.

(** An empty buffer with the headroom the layer keeps. *)
Definition fresh_buf (bs : Z) (rel : reliable) (b : buffer) : Prop :=
  exists pre post, b = conc pre [] post /\ zlen pre = rel_offset rel /\ zlen pre + zlen post = bs.

Lemma reliable_get_buf_spec bs P rel :
  rel_inv bs P rel ->
  match reliable_get_buf rel with
  | Ret (rel', Some i) =>
      reliable_can_get rel = true /\
      exists e b, entries rel !! i = Some e /\ active e = false /\ fresh_buf bs rel b /\
        rel' = set_entry rel i (set_buf e b)
  | Ret (rel', None) => reliable_can_get rel = false /\ rel' = rel
  | _ => False
  end.
Proof.
  intros HR. unfold reliable_get_buf.
  destruct (list_find _ (entries rel)) as [[i e]|] eqn:E.
  - apply list_find_Some in E as (Hi & Ha & _). apply Is_true_true, negb_true_iff in Ha.
    destruct (entry_buf _ _ _ _ _ HR Hi) as [Hw Hc].
    apply wf_conc in Hw as (pre & c & post & Eb & _).
    destruct HR as ((_ & _ & Ho & _) & _).
    rewrite Eb, buf_init_conc. rewrite Eb in Hc. cbn [capacity conc] in Hc. zlen_facts. bdecide. cbn.
    split; [apply can_get_free; eauto|]. eexists e, _. split; [done|]. split; [done|]. split; [|done].
    eexists _, _. split; [done|]. zlia.
  - split; [|done]. apply list_find_None in E. apply not_true_is_false. rewrite can_get_free.
    intros (i & e & Hi & He). rewrite Forall_forall in E.
    apply list_elem_of_lookup_2 in Hi. apply (E _ Hi). by rewrite He.
Qed.

(** Numbers of packets that are compared are below 2^31 apart. *)
Definition small (k : Z) : Prop := 0 <= k < 2 ^ 31.

Lemma min_active_id_spec l m0 :
  Forall (fun e => active e = true -> small (entry_packet_id e)) l -> (forall m, m0 = Some m -> small m) ->
  match min_active_id l m0 with
  | None => m0 = None /\ Forall (fun e => active e = false) l
  | Some m =>
      (m0 = Some m \/ exists e, e ∈ l /\ active e = true /\ entry_packet_id e = m) /\
      (forall m', m0 = Some m' -> m <= m') /\
      Forall (fun e => active e = true -> m <= entry_packet_id e) l
  end.
Proof.
  revert m0. induction l as [|e l IH]; intros m0 Hl Hm; cbn [min_active_id].
  { destruct m0 as [m|]; [|done]. split; [by left|]. split; [|done]. by intros ? [= ->]. }
  apply Forall_cons in Hl as [He Hl]. set (m1 := if active e then _ else m0).
  assert (Hm1 : forall m, m1 = Some m -> small m).
  { intros m. unfold m1. destruct (active e); [|auto]. destruct m0 as [m'|]; [destruct (reliable_pid_min _ m')|];
      intros [= <-]; auto. }
  specialize (IH m1 Hl Hm1). destruct (min_active_id l m1) as [m|].
  - destruct IH as (H1 & H2 & H3).
    assert (H4 : (forall m', m0 = Some m' -> m <= m') /\ (active e = true -> m <= entry_packet_id e)).
    { unfold m1 in *. destruct (active e) eqn:Ea; [|split; [auto|done]].
      specialize (He eq_refl). destruct m0 as [m'|].
      - specialize (Hm m' eq_refl). rewrite pid_min_small in H2 by done.
        destruct (entry_packet_id e <? m') eqn:E; breflect; specialize (H2 _ eq_refl);
          (split; [intros ? [= <-]|intros _]); lia.
      - split; [done|]. intros _. by apply H2. }
    split; [|split; [apply H4|constructor; [apply H4|done]]].
    destruct H1 as [H1|(f & Hf & Hfa & Hfi)].
    + unfold m1 in H1. destruct (active e) eqn:Ea; [|by left].
      assert (Hor : m0 = Some m \/ entry_packet_id e = m).
      { destruct m0 as [m'|]; [destruct (reliable_pid_min _ m')|]; injection H1 as <-; auto. }
      destruct Hor as [|Hor]; [by left|right]. exists e. split; [by left|done].
    + right. exists f. split; [by right|done].
  - destruct IH as [H1 H2]. unfold m1 in *. destruct (active e) eqn:Ea.
    + destruct m0 as [m'|]; [destruct (reliable_pid_min _ m')|]; done.
    + split; [done|]. by constructor.
Qed.

(** An entry whose packet is due. *)
Definition due (now : Z) (e : reliable_entry) : bool := active e && (next_try e <=? now).

Lemma reliable_send_best_spec now l i0 best :
  Forall (fun e => active e = true -> small (entry_packet_id e)) l ->
  (forall i b, best = Some (i, b) -> small (entry_packet_id b)) ->
  match reliable_send_best now i0 l best with
  | None => best = None /\ Forall (fun e => due now e = false) l
  | Some (i, b) =>
      (best = Some (i, b) \/ exists k, i = (i0 + k)%nat /\ l !! k = Some b /\ due now b = true) /\
      (forall j b', best = Some (j, b') -> entry_packet_id b <= entry_packet_id b') /\
      Forall (fun e => due now e = true -> entry_packet_id b <= entry_packet_id e) l
  end.
Proof.
  revert i0 best. induction l as [|e l IH]; intros i0 best Hl Hm; cbn [reliable_send_best].
  { destruct best as [[i b]|]; [|done]. split; [by left|]. split; [|done]. by intros ? ? [= -> ->]. }
  apply Forall_cons in Hl as [He Hl]. set (b1 := if active e && _ then _ else best).
  assert (Hdue : due now e = true -> small (entry_packet_id e)).
  { unfold due. intros [? _]%andb_true_iff. auto. }
  assert (Hm1 : forall i b, b1 = Some (i, b) -> small (entry_packet_id b)).
  { intros i b. unfold b1. change (active e && (next_try e <=? now)) with (due now e).
    destruct (due now e); [|eauto].
    destruct best as [[i' b']|]; [destruct (reliable_pid_min _ _)|]; intros [= <- <-]; eauto. }
  specialize (IH (S i0) b1 Hl Hm1). unfold b1 in *. change (active e && (next_try e <=? now)) with (due now e) in *.
  destruct (reliable_send_best now (S i0) l _) as [[i b]|].
  - destruct IH as (H1 & H2 & H3).
    assert (H4 : (forall j b', best = Some (j, b') -> entry_packet_id b <= entry_packet_id b') /\
                 (due now e = true -> entry_packet_id b <= entry_packet_id e)).
    { destruct (due now e) eqn:Ea; [|split; [auto|done]].
      specialize (Hdue eq_refl). destruct best as [[j b']|].
      - specialize (Hm j b' eq_refl). rewrite pid_min_small in H2 by done.
        destruct (entry_packet_id e <? entry_packet_id b') eqn:E; breflect; specialize (H2 _ _ eq_refl);
          (split; [intros ? ? [= <- <-]|intros _]); lia.
      - split; [done|]. intros _. by eapply H2. }
    split; [|split; [apply H4|constructor; [apply H4|done]]].
    destruct H1 as [H1|(k & -> & Hk & Hd)].
    + destruct (due now e) eqn:Ea; [|by left].
      assert (Hor : best = Some (i, b) \/ (i, b) = (i0, e)).
      { destruct best as [[j b']|]; [destruct (reliable_pid_min _ _)|]; injection H1 as <- <-; auto. }
      destruct Hor as [|[= -> ->]]; [by left|right]. exists 0%nat. by rewrite Nat.add_0_r.
    + right. exists (S k). split; [lia|done].
  - destruct IH as [H1 H2]. destruct (due now e) eqn:Ea.
    + destruct best as [[j b']|]; [destruct (reliable_pid_min _ _)|]; done.
    + split; [done|]. by constructor.
Qed.

Lemma count_current_pos now l : 0 <= count_current now l /\
  (0 < count_current now l <-> exists e, e ∈ l /\ due now e = true).
Proof.
  induction l as [|e l [H0 IH]]; cbn [count_current].
  { split; [lia|]. split; [lia|]. intros (e & ?%elem_of_nil & _). done. }
  change (active e && (next_try e <=? now)) with (due now e).
  destruct (due now e) eqn:E; (split; [lia|split]).
  - intros _. exists e. split; [by left|done].
  - lia.
  - intros H. destruct (proj1 IH ltac:(lia)) as (f & Hf & Hd). exists f. split; [by right|done].
  - intros (f & [->|Hf]%elem_of_cons & Hd); [congruence|].
    assert (0 < count_current now l) by (apply IH; eauto). lia.
Qed.

Lemma purge_one_spec bs P rel pid :
  rel_inv bs P rel ->
  rel_inv bs P (purge_one rel pid) /\ rel_packet_id (purge_one rel pid) = rel_packet_id rel /\
  rel_offset (purge_one rel pid) = rel_offset rel /\ size (purge_one rel pid) = size rel /\
  hold (purge_one rel pid) = hold rel /\ initial_timeout (purge_one rel pid) = initial_timeout rel /\
  (forall i e, active_at (purge_one rel pid) i e <-> active_at rel i e /\ entry_packet_id e <> pid).
Proof.
  intros HR. unfold purge_one. destruct (list_find _ _) as [[j e]|] eqn:E.
  - apply list_find_Some in E as (Hj & Ha & _). apply Is_true_true, andb_true_iff in Ha as [Ha Hid]. breflect.
    destruct (entry_buf _ _ _ _ _ HR Hj) as [Hw Hc].
    split; [apply (rel_inv_set _ _ _ _ e); try done|]. do 5 (split; [done|]).
    intros i f. rewrite (active_at_set _ _ _ _ _ _ Hj). split.
    + intros [(_ & _ & ?)|[Hne Hi]]; [done|]. split; [done|]. intros <-. apply Hne.
      by eapply (proj2 (proj2 HR)).
    + intros [Hi Hne]. right. split; [|done]. intros ->. destruct Hi as [Hi _]. congruence.
  - split; [done|]. do 5 (split; [done|]). intros i e. split; [|by intros []]. intros Hi. split; [done|].
    intros <-. apply list_find_None in E. rewrite Forall_forall in E. destruct Hi as [Hi Ha].
    apply list_elem_of_lookup_2 in Hi. apply (E _ Hi). by rewrite Ha, Z.eqb_refl.
Qed.

(** Purging removes exactly the acknowledged packets. *)
Lemma reliable_send_purge_spec bs P ack : forall rel,
  rel_inv bs P rel ->
  rel_inv bs P (reliable_send_purge rel ack) /\
  rel_packet_id (reliable_send_purge rel ack) = rel_packet_id rel /\
  rel_offset (reliable_send_purge rel ack) = rel_offset rel /\
  size (reliable_send_purge rel ack) = size rel /\
  hold (reliable_send_purge rel ack) = hold rel /\
  initial_timeout (reliable_send_purge rel ack) = initial_timeout rel /\
  (forall i e, active_at (reliable_send_purge rel ack) i e <-> active_at rel i e /\ entry_packet_id e ∉ ack).
Proof.
  unfold reliable_send_purge. induction ack as [|pid ack IH]; intros rel HR; cbn [fold_left].
  - do 6 (split; [done|]). intros i e. split; [|by intros []]. intros ?; split; [done|apply not_elem_of_nil].
  - destruct (purge_one_spec bs P rel pid HR) as (H1 & H2 & H3 & H4 & H4' & H4'' & H5).
    destruct (IH _ H1) as (K1 & K2 & K3 & K4 & K4' & K4'' & K5). split; [done|].
    rewrite K2, K3, K4, K4', K4''. do 5 (split; [done|]). intros i e. rewrite K5, H5, not_elem_of_cons. tauto.
Qed.

(** A full window of distinct numbers starting at [d] contains [d]. *)
Lemma window_pigeonhole bs P rel d :
  rel_inv bs P rel -> (forall e, P e -> d <= entry_packet_id e < d + size rel) ->
  reliable_can_get rel = false -> holds rel d.
Proof.
  intros (HS & HP & HD) Hr Hf. pose proof (zlen_entries _ _ HS) as Hlen. destruct HS as (Hsz & _).
  assert (Hall : forall i e, entries rel !! i = Some e -> active_at rel i e).
  { intros i e Hi. split; [done|]. destruct (active e) eqn:Ea; [done|].
    assert (reliable_can_get rel = true) by (apply can_get_free; eauto). congruence. }
  set (ids := entry_packet_id <$> entries rel).
  assert (Hnd : NoDup ids).
  { apply NoDup_alt. intros i j k. unfold ids. rewrite !list_lookup_fmap.
    destruct (entries rel !! i) as [e|] eqn:Ei; [|done]. destruct (entries rel !! j) as [f|] eqn:Ej; [|done].
    intros [= H1] [= H2]. eapply HD; [by apply Hall|by apply Hall|congruence]. }
  assert (Hsub : ids ⊆+ seqZ d (size rel)).
  { apply NoDup_submseteq; [done|]. intros k (e & -> & He)%list_elem_of_fmap.
    apply list_elem_of_lookup_1 in He as [i Hi]. apply elem_of_seqZ. eauto. }
  apply submseteq_length_Permutation in Hsub.
  2:{ unfold ids. rewrite length_seqZ, length_fmap. unfold zlen in Hlen. lia. }
  assert (Hd : d ∈ ids) by (rewrite Hsub; apply elem_of_seqZ; lia).
  apply list_elem_of_fmap in Hd as (e & -> & He). apply list_elem_of_lookup_1 in He as [i Hi].
  exists i, e. auto.
Qed.
