(* ===== verification/ControlChannel.v ===== *)
(** * The control channel over the reliability layer ([ssl.c], [ssl_openssl.c])

    The parts of [tls_process] and [tls_pre_decrypt] that move control packets:
    queueing ciphertext, (re)transmission with acknowledgements, dedicated
    acknowledgement packets, reception, and delivery to the TLS engine.  The
    session header and the authentication that [write_control_auth] puts around a
    record and [tls_pre_decrypt] removes are outside this model: a packet is its
    opcode and the bytes of the acknowledgement record and what follows it.
    The OpenSSL calls [BIO_read] and [BIO_write] are parameters. *)
From S2P Require Import Prelude Integer Buffer PacketId Reliable.

Definition P_CONTROL_V1 : Z := 4.
Definition P_ACK_V1 : Z := 5.
Definition CONTROL_SEND_ACK_MAX : Z := 4.
Definition TLS_RELIABLE_N_SEND_BUFFERS : Z := 4.
Definition TLS_RELIABLE_N_REC_BUFFERS : Z := 8.

(** ** Reading from and writing to the TLS engine *)

(** What [BIO_read] answers: the bytes it stored (none for 0), or a failure which
    [BIO_should_retry] says is temporary or not. *)
Inductive bio_answer : Type :=
| BIO_data (l : list Z)
| BIO_fail (should_retry : bool).

(** [bio_read]: the buffer and the status (1, 0, -1). *)
Definition bio_read (BIO_read : Z -> bio_answer) (b : buffer) (maxlen : Z) : outcome (buffer * Z) :=
  _ ← c_assert (0 <=? len b);
  if negb (len b =? 0) then Ret (b, 0)
  else
    let len := buf_forward_capacity b in
    let len := if maxlen <? len then maxlen else len in
    match BIO_read len with
    | BIO_fail true => Ret (b, 0)
    | BIO_fail false => Ret (set_len b 0, -1)
    | BIO_data [] => Ret (set_len b 0, 0)
    | BIO_data l =>
        match buf_bptr b with
        | None => Oob
        | Some p => b ← buf_store b p l; Ret (set_len b (zlen l), 1)
        end
    end.

(** [bio_write]: [BIO_write] answers the number of bytes it took, or fails. *)
Definition bio_write (BIO_write : list Z -> Z + bool) (l : list Z) : Z :=
  if negb (zlen l =? 0)
  then match BIO_write l with
       | inr should_retry => if should_retry then 0 else -1
       | inl i => if negb (i =? zlen l) then -1 else 1
       end
  else 0.

Definition bio_write_post (status : Z) (b : buffer) : outcome buffer :=
  if status =? 1
  then match buf_bptr b with
       | Some p => b ← buf_store b p (replicate (Z.to_nat (buf_len b)) 0); Ret (set_len b 0)
       | None => Oob
       end
  else Ret b.

Definition key_state_write_ciphertext (BIO_write : list Z -> Z + bool) (b : buffer) : outcome (buffer * Z) :=
  bytes ← buf_contents b;
  let ret := bio_write BIO_write bytes in
  b ← bio_write_post ret b;
  Ret (b, ret).

(** ** One end of the control channel *)

(** The reliability state of a [key_state] and its session identifiers;
    [headroom] is [FRAME_HEADROOM]. *)
Record peer : Type := mkpeer {
  send_reliable : reliable;
  rec_reliable : reliable;
  rec_ack : reliable_ack;
  ack_write_buf : buffer;
  headroom : Z;
  session_id : list Z;
  session_id_remote : list Z
}.

Definition set_send (p : peer) (r : reliable) : peer :=
  mkpeer r (rec_reliable p) (rec_ack p) (ack_write_buf p) (headroom p) (session_id p) (session_id_remote p).
Definition set_rec_rel (p : peer) (r : reliable) : peer :=
  mkpeer (send_reliable p) r (rec_ack p) (ack_write_buf p) (headroom p) (session_id p) (session_id_remote p).
Definition set_ack (p : peer) (a : reliable_ack) : peer :=
  mkpeer (send_reliable p) (rec_reliable p) a (ack_write_buf p) (headroom p) (session_id p) (session_id_remote p).
Definition set_ack_buf (p : peer) (b : buffer) : peer :=
  mkpeer (send_reliable p) (rec_reliable p) (rec_ack p) b (headroom p) (session_id p) (session_id_remote p).

(** An opcode and the bytes from the acknowledgement record on. *)
Definition packet : Type := Z * list Z.

(** What an operation did, as seen from outside. *)
Inductive output : Type :=
| Nothing
| Error
| Queued (payload : list Z)
| ToLink (pkt : packet)
| Delivered (payload : list Z).

(** The allocation of the reliability objects in [key_state_init]. *)
Definition key_state_alloc_reliable (bs hr packet_timeout : Z) (xmit_hold : bool) (sid sid_remote : list Z)
  : outcome peer :=
  ackb ← alloc_buf bs;
  snd ← reliable_init bs hr TLS_RELIABLE_N_SEND_BUFFERS xmit_hold;
  rcv ← reliable_init bs hr TLS_RELIABLE_N_REC_BUFFERS false;
  Ret (mkpeer (reliable_set_timeout snd packet_timeout) rcv [] ackb hr sid sid_remote).

(** The initial packet of a handshake: a null buffer with opcode [op]. *)
Definition tls_queue_initial (op : Z) (p : peer) : outcome (peer * output) :=
  '(rel, r) ← reliable_get_buf_output_sequenced (send_reliable p);
  match r with
  | None => Ret (set_send p rel, Nothing)
  | Some i => rel ← reliable_mark_active_outgoing rel i op; Ret (set_send p rel, Queued [])
  end.

(** "Outgoing Ciphertext to reliable buffer" *)
Definition tls_queue_ciphertext (BIO_read : Z -> bio_answer) (maxlen : Z) (p : peer) : outcome (peer * output) :=
  '(rel, r) ← reliable_get_buf_output_sequenced (send_reliable p);
  match r with
  | None => Ret (set_send p rel, Nothing)
  | Some i =>
      match entries rel !! i with
      | None => Oob
      | Some e =>
          '(b, status) ← bio_read BIO_read (buf e) maxlen;
          let rel := set_entry rel i (set_buf e b) in
          if status =? -1 then Ret (set_send p rel, Error)
          else if status =? 1
          then
            bytes ← buf_contents b;
            rel ← reliable_mark_active_outgoing rel i P_CONTROL_V1;
            Ret (set_send p rel, Queued bytes)
          else Ret (set_send p rel, Nothing)
      end
  end.

(** "Reliable buffer to outgoing TCP/UDP": the record is put in front of a copy of
    the buffer header [b = *buf], which shares the bytes of the entry's buffer. *)
Definition tls_transmit (now : Z) (p : peer) : outcome (peer * output) :=
  if reliable_can_send now (send_reliable p)
  then
    match reliable_send now (send_reliable p) with
    | (_, None) => Fatal
    | (rel, Some (i, op)) =>
        match entries rel !! i with
        | None => Oob
        | Some e =>
            '(ack, b, ok) ← reliable_ack_write (rec_ack p) (buf e) (session_id_remote p)
                              CONTROL_SEND_ACK_MAX true;
            _ ← c_assert ok;
            bytes ← buf_contents b;
            let shared := mkbuffer (capacity (buf e)) (offset (buf e)) (len (buf e)) (data b) in
            Ret (set_ack (set_send p (set_entry rel i (set_buf e shared))) ack, ToLink (op, bytes))
        end
    end
  else Ret (p, Nothing).

(** "Send 1 or more ACKs" *)
Definition tls_send_acks (p : peer) : outcome (peer * output) :=
  if negb (reliable_ack_empty (rec_ack p))
  then
    let '(b, ok) := buf_init (ack_write_buf p) (headroom p) in
    _ ← c_assert ok;
    '(ack, b, ok) ← reliable_ack_write (rec_ack p) b (session_id_remote p) RELIABLE_ACK_SIZE false;
    _ ← c_assert ok;
    bytes ← buf_contents b;
    let shared := mkbuffer (capacity (ack_write_buf p)) (offset (ack_write_buf p))
                    (len (ack_write_buf p)) (data b) in
    Ret (set_ack_buf (set_ack p ack) shared, ToLink (P_ACK_V1, bytes))
  else Ret (p, Nothing).

(** The control packet part of [tls_pre_decrypt]: the acknowledgements, then the
    packet itself. *)
Definition tls_receive (pkt : packet) (p : peer) : outcome (peer * output) :=
  let '(op, bytes) := pkt in
  let b := mkbuffer (zlen bytes) 0 (zlen bytes) (Some bytes) in
  '(send_ack, b, ok) ← reliable_ack_read [] b (session_id p);
  if negb ok then Ret (p, Error)
  else
    let p := set_send p (reliable_send_purge (send_reliable p) send_ack) in
    if negb (op =? P_ACK_V1) && reliable_can_get (rec_reliable p)
    then
      '(b, r) ← reliable_ack_read_packet_id b;
      match r with
      | None => Ret (p, Nothing)
      | Some id =>
          if reliable_wont_break_sequentiality (rec_reliable p) id
          then
            if reliable_not_replay (rec_reliable p) id
            then
              '(rel, r) ← reliable_get_buf (rec_reliable p);
              match r with
              | None => Fatal
              | Some i =>
                  match entries rel !! i with
                  | None => Oob
                  | Some e =>
                      '(inb, ok) ← buf_copy (buf e) b;
                      let rel := set_entry rel i (set_buf e inb) in
                      if negb ok then Ret (set_rec_rel p rel, Error)
                      else
                        rel ← reliable_mark_active_incoming rel i id op;
                        let p := set_rec_rel p rel in
                        Ret (set_ack p (reliable_ack_acknowledge_packet_id (rec_ack p) id).1, Nothing)
                  end
              end
            else Ret (set_ack p (reliable_ack_acknowledge_packet_id (rec_ack p) id).1, Nothing)
          else Ret (p, Nothing)
      end
    else Ret (p, Nothing).

(** "Write incoming ciphertext to TLS object" *)
Definition tls_deliver (BIO_write : list Z -> Z + bool) (p : peer) : outcome (peer * output) :=
  match reliable_get_buf_sequenced (rec_reliable p) with
  | None => Ret (p, Nothing)
  | Some i =>
      match entries (rec_reliable p) !! i with
      | None => Oob
      | Some e =>
          bytes ← buf_contents (buf e);
          '(b, status) ← (if negb (len (buf e) =? 0)
                          then key_state_write_ciphertext BIO_write (buf e)
                          else Ret (buf e, 1));
          let rel := set_entry (rec_reliable p) i (set_buf e b) in
          if status =? -1 then Ret (set_rec_rel p rel, Error)
          else if status =? 1
          then rel ← reliable_mark_deleted rel i true; Ret (set_rec_rel p rel, Delivered bytes)
          else Ret (set_rec_rel p rel, Nothing)
      end
  end.
