(* ===== verification/ReliableSpec.v ===== *)
(** * Properties of the reliability layer on its own

    The acknowledgement records on the wire, the wake-up time of the sender, and
    the comparison of packet numbers around the wrap of their 32 bits. *)
From S2P Require Import Prelude Integer Buffer PacketId Reliable.

(** The acknowledgement record [reliable_ack_write] puts in front of a packet
    carries the first [max] pending identifiers, which leave the pending list, and
    [reliable_ack_read] takes exactly these from the packet, whose content is left
    as it was. *)
Theorem reliable_ack_write_read_roundtrip (ack : reliable_ack) (pre c post sid : list Z) (max : Z) :
  ack_wf ack -> 0 <= max < 2 ^ 8 -> ack_sid_ok sid -> ACK_SIZE (Z.min max (zlen ack)) <= zlen pre ->
  exists b b',
    reliable_ack_write ack (conc pre c post) sid max true = Ret (zdrop (Z.min max (zlen ack)) ack, b, true) /\
    reliable_ack_read [] b sid = Ret (ztake (Z.min max (zlen ack)) ack, b', true) /\ content b' = c.
Proof.
  intros (Hl & _ & Hu) Hmax Hsid Hfit. rewrite reliable_ack_write_prepend_spec by done.
  eexists _, _. split; [reflexivity|]. split.
  - apply reliable_ack_read_spec; [by apply Forall_take|zlia|done].
  - apply content_conc.
Qed.

Lemma reliable_ack_write_read_roundtrip_witness :
  exists b b',
    reliable_ack_write [3; 4; 9] (conc (replicate 30 0) [77; 78] []) [1; 2; 3; 4; 5; 6; 7; 8] 2 true
      = Ret ([9], b, true) /\
    reliable_ack_read [] b [1; 2; 3; 4; 5; 6; 7; 8] = Ret ([3; 4], b', true) /\ content b' = [77; 78].
Proof.
  apply (reliable_ack_write_read_roundtrip [3; 4; 9] (replicate 30 0) [77; 78] [] [1; 2; 3; 4; 5; 6; 7; 8] 2).
  - split; [vm_compute; discriminate|]. split; [apply (bool_decide_unpack _); vm_compute; exact I|].
    repeat (apply Forall_cons; split; [unfold is_u32; lia|]). apply Forall_nil; exact I.
  - lia.
  - split; vm_compute; reflexivity.
  - vm_compute; discriminate.
Defined.

(** ** When the sender has to wake up *)

Lemma send_timeout_loop_spec now l ret :
  Forall (fun e => active e = true -> next_try e - now < 2 ^ 31) l -> 0 <= ret < 2 ^ 31 ->
  let t := reliable_send_timeout_loop now l ret in
  0 <= t <= ret /\
  (forall t', 0 <= t' < t -> count_current (now + t') l = 0) /\
  (t < ret -> 0 < count_current (now + t) l).
Proof.
  revert ret. induction l as [|e l IH]; intros ret Hl Hret; cbn [reliable_send_timeout_loop count_current].
  { split; [lia|]. split; [done|lia]. }
  apply Forall_cons in Hl as [He Hl]. destruct (active e) eqn:Ea; cbn [andb].
  2:{ destruct (IH ret Hl Hret) as (H1 & H2 & H3). split; [done|]. split; [intros; rewrite H2 by lia; lia|].
      intros. specialize (H3 ltac:(done)). lia. }
  specialize (He eq_refl). destruct (next_try e <=? now) eqn:En; breflect.
  { split; [lia|]. split; [lia|]. intros _. destruct (count_current_pos (now + 0) l). bdecide. lia. }
  assert (Hi : i32 (next_try e - now) = next_try e - now) by uwrap. rewrite Hi.
  unfold min_int. set (r' := if ret <? next_try e - now then ret else next_try e - now).
  assert (Hr' : 0 <= r' < 2 ^ 31 /\ r' <= ret /\ r' <= next_try e - now /\ (r' = ret \/ r' = next_try e - now)).
  { unfold r'. bcase; lia. }
  destruct (IH r' Hl ltac:(lia)) as (H1 & H2 & H3).
  set (t := reliable_send_timeout_loop now l r') in *. split; [lia|]. split.
  - intros t' Ht'. rewrite H2 by lia. bdecide. done.
  - intros Hlt. destruct (count_current_pos (now + t) l). destruct (decide (t < r')) as [Hc|Hc].
    + specialize (H3 Hc). bcase; lia.
    + assert (t = next_try e - now) by lia. bdecide. lia.
Qed.

(** [reliable_send_timeout] is the exact number of seconds until a packet is
    due: at no earlier second is there anything to (re)transmit, and when it is
    below its upper limit of one week there is something to transmit then. *)
Theorem reliable_send_timeout_exact (now : Z) (rel : reliable) :
  Forall (fun e => active e = true -> next_try e - now < 2 ^ 31) (entries rel) -> hold rel = false ->
  let t := reliable_send_timeout now rel in
  0 <= t <= BIG_TIMEOUT /\
  (forall t', 0 <= t' < t -> reliable_can_send (now + t') rel = false) /\
  (t < BIG_TIMEOUT -> reliable_can_send (now + t) rel = true).
Proof.
  intros Hl Hh t. destruct (send_timeout_loop_spec now (entries rel) BIG_TIMEOUT Hl) as (H1 & H2 & H3); [done|].
  unfold reliable_can_send. rewrite Hh. split; [done|]. split.
  - intros t' Ht'. rewrite H2 by done. done.
  - intros Hlt. specialize (H3 Hlt). apply andb_true_iff. split; [|done]. by apply Z.ltb_lt.
Qed.

Definition sample_rel : reliable :=
  mkreliable 2 2 3 10 false
    (mkentry true 4 107 1 4 (mkbuffer 0 0 0 None) :: mkentry true 2 103 2 4 (mkbuffer 0 0 0 None)
     :: replicate 6 entry_zero).

Lemma reliable_send_timeout_exact_witness :
  reliable_send_timeout 100 sample_rel = 3 /\
  (forall t', 0 <= t' < 3 -> reliable_can_send (100 + t') sample_rel = false) /\
  reliable_can_send (100 + 3) sample_rel = true.
Proof.
  destruct (reliable_send_timeout_exact 100 sample_rel) as (_ & H2 & H3).
  - repeat (apply Forall_cons; split; [cbn; lia|]). apply Forall_nil; exact I.
  - reflexivity.
  - split; [reflexivity|]. split; [exact H2|]. apply H3. reflexivity.
Defined.

(** ** Packet numbers near the wrap *)

(** Packet numbers are ordered by their distance modulo 2^32, whatever the
    position of the wrap: a number is in the range of [extent] numbers from [base]
    iff its distance from [base] is below [extent], and [reliable_pid_min] holds
    from a number to any one less than 2^31 ahead of it, and not back. *)
Theorem reliable_pid_order_modular (base d extent : Z) :
  is_u32 base -> 0 < d < 2 ^ 31 ->
  reliable_pid_in_range1 (base +u d) base extent = (d <? extent) /\
  reliable_pid_min base (base +u d) = true /\ reliable_pid_min (base +u d) base = false.
Proof.
  intros Hb Hd. pose proof (u32_range (base + d)) as Hr. unfold reliable_pid_min.
  rewrite !in_range1_spec by done.
  replace (u32 (base +u d - base)) with d by uwrap.
  replace (u32 (base - (base +u d))) with (2 ^ 32 - d) by uwrap.
  split; [done|]. bdecide. done.
Qed.

Lemma reliable_pid_order_modular_witness :
  reliable_pid_in_range1 (0xFFFFFFFE +u 5) 0xFFFFFFFE 8 = (5 <? 8) /\
  reliable_pid_min 0xFFFFFFFE (0xFFFFFFFE +u 5) = true /\ reliable_pid_min (0xFFFFFFFE +u 5) 0xFFFFFFFE = false.
Proof. apply (reliable_pid_order_modular 0xFFFFFFFE 5 8); [unfold is_u32|]; lia. Defined.

(** [reliable_pid_in_range2] does not allow for the wrap of [test] while
    [base + extent] has not wrapped: a receiver that waits for packet [base], in
    the last half of the number space and at least [extent] before its end, accepts
    as neither a replay nor out of sequence every packet [test] from behind the
    wrap up to [base - 2^31], although it is [extent] or more ahead of [base]. *)
Theorem reliable_window_ignores_wrap (rel : reliable) (test : Z) :
  0 <= size rel <= RELIABLE_CAPACITY ->
  (forall e, e ∈ entries rel -> active e = false) ->
  2 ^ 31 < rel_packet_id rel -> rel_packet_id rel + size rel < 2 ^ 32 ->
  0 <= test < rel_packet_id rel - 2 ^ 31 ->
  reliable_wont_break_sequentiality rel test = true /\ reliable_not_replay rel test = true /\
  size rel < (test - rel_packet_id rel) mod 2 ^ 32.
Proof.
  intros Hsz Hfree Hb1 Hb2 Ht. unfold RELIABLE_CAPACITY in Hsz. split_and!.
  - unfold reliable_wont_break_sequentiality. rewrite in_range2_small by lia. by bdecide.
  - unfold reliable_not_replay, reliable_pid_min. rewrite in_range1_spec by (unfold is_u32; lia).
    replace (test -u rel_packet_id rel) with (test - rel_packet_id rel + 2 ^ 32) by uwrap. bdecide. cbn [negb].
    apply negb_true_iff, not_true_iff_false. rewrite existsb_exists.
    intros (e & Hin & He). apply list_elem_of_In in Hin. by rewrite (Hfree e Hin) in He.
  - Z.div_mod_to_equations. lia.
Qed.

Definition wrap_rel : reliable := mkreliable 8 2 0xFFFFFF00 10 false (replicate 8 entry_zero).

Lemma reliable_window_ignores_wrap_witness :
  reliable_wont_break_sequentiality wrap_rel 5 = true /\ reliable_not_replay wrap_rel 5 = true /\
  8 < (5 - 0xFFFFFF00) mod 2 ^ 32.
Proof.
  apply (reliable_window_ignores_wrap wrap_rel 5).
  - vm_compute; split; discriminate.
  - intros e He. apply list_elem_of_lookup_1 in He as [i Hi].
    change (entries wrap_rel) with (replicate 8 entry_zero) in Hi. apply lookup_replicate in Hi as [-> _]. reflexivity.
  - reflexivity.
  - reflexivity.
  - split; [discriminate|reflexivity].
Defined.
