(* ===== verification/ControlChannelSpec.v ===== *)
(** * Correctness of the control channel

    Two peers connected by a network that may lose, duplicate and reorder packets.
    Every operation of a peer in every reachable state succeeds, what a peer
    delivers is always a prefix of what the other one queued, no packet leaves the
    sender's buffer before the receiver has it, and the receive buffer never
    deadlocks. *)
From S2P Require Import Prelude Integer Buffer PacketId Reliable ControlChannel.

(** ** The two-peer system *)

Inductive event : Type :=
| EvInitial (op : Z)
| EvQueue (BIO_read : Z -> bio_answer) (maxlen : Z)
| EvTransmit (now : Z)
| EvAcks
| EvReceive (pkt : packet)
| EvDeliver (BIO_write : list Z -> Z + bool).

Definition peer_do (ev : event) (p : peer) : outcome (peer * output) :=
  match ev with
  | EvInitial op => tls_queue_initial op p
  | EvQueue BIO_read maxlen => tls_queue_ciphertext BIO_read maxlen p
  | EvTransmit now => tls_transmit now p
  | EvAcks => tls_send_acks p
  | EvReceive pkt => tls_receive pkt p
  | EvDeliver BIO_write => tls_deliver BIO_write p
  end.

(** Both peers, what each has queued and delivered, and every packet ever sent. *)
Record system : Type := mksys {
  peer_a : peer; peer_b : peer;
  sent_a : list (list Z); sent_b : list (list Z);
  delivered_a : list (list Z); delivered_b : list (list Z);
  net_ab : list packet; net_ba : list packet
}.

Definition swap (s : system) : system :=
  mksys (peer_b s) (peer_a s) (sent_b s) (sent_a s) (delivered_b s) (delivered_a s) (net_ba s) (net_ab s).

(** The system after peer A did something with output [o]. *)
Definition after (s : system) (p : peer) (o : output) : system :=
  mksys p (peer_b s)
    (match o with Queued l => sent_a s ++ [l] | _ => sent_a s end) (sent_b s)
    (match o with Delivered l => delivered_a s ++ [l] | _ => delivered_a s end) (delivered_b s)
    (match o with ToLink pkt => net_ab s ++ [pkt] | _ => net_ab s end) (net_ba s).

(** The handshake packet is not an acknowledgement packet, [BIO_read] stores at
    most the number of bytes it was given room for, and what arrives was sent. *)
Definition event_ok (s : system) (ev : event) : Prop :=
  match ev with
  | EvInitial op => op <> P_ACK_V1
  | EvQueue BIO_read maxlen =>
      0 <= maxlen /\ forall n l, 0 <= n -> BIO_read n = BIO_data l -> zlen l <= n
  | EvReceive pkt => pkt ∈ net_ba s
  | _ => True
  end.

Inductive step_a : system -> system -> Prop :=
| step_a_intro s ev p o :
    event_ok s ev -> peer_do ev (peer_a s) = Ret (p, o) -> step_a s (after s p o).

Inductive step : system -> system -> Prop :=
| step_left s s' : step_a s s' -> step s s'
| step_right s s' : step_a (swap s) s' -> step s (swap s').

Definition sys_init (p q : peer) : system := mksys p q [] [] [] [] [] [].

(** ** Invariant of one direction *)

(** A packet in the send buffer: its number in front of the payload queued under
    that number, with the headroom the rest of the header needs. *)
Definition snd_ok (hr : Z) (sent : list (list Z)) (e : reliable_entry) : Prop :=
  0 <= entry_packet_id e /\ (opcode e <> P_ACK_V1 /\ 0 < timeout e) /\
  exists payload pre post,
    sent !! Z.to_nat (entry_packet_id e) = Some payload /\
    buf e = conc pre (be_bytes 4 (entry_packet_id e) ++ payload) post /\ zlen pre = hr - 4.

(** A packet in the receive buffer: in the window and with the payload queued
    under its number. *)
Definition rcv_ok (sent : list (list Z)) (d n : Z) (e : reliable_entry) : Prop :=
  d <= entry_packet_id e < d + n /\
  exists payload pre post,
    sent !! Z.to_nat (entry_packet_id e) = Some payload /\ buf e = conc pre payload post.

Definition snd_inv (bs hr : Z) (sent : list (list Z)) (rel : reliable) : Prop :=
  rel_inv bs (snd_ok hr sent) rel /\ rel_packet_id rel = zlen sent /\ rel_offset rel = hr /\
  0 < initial_timeout rel /\ Forall (fun l => zlen l <= bs - hr) sent.

Definition rcv_inv (bs hr : Z) (sent : list (list Z)) (rel : reliable) : Prop :=
  rel_inv bs (rcv_ok sent (rel_packet_id rel) (size rel)) rel /\ rel_offset rel = hr /\
  0 <= rel_packet_id rel <= zlen sent /\ Forall (fun l => zlen l <= bs - hr) sent.

(** Packet [k] has arrived: it is delivered or in the receive buffer. *)
Definition received (rel : reliable) (k : Z) : Prop := 0 <= k < rel_packet_id rel \/ holds rel k.

(** A packet on the wire: a record that acknowledges received packets only, then
    nothing or a queued payload with its number. *)
Definition wire_ok (sid : list Z) (rcv : reliable) (sent : list (list Z)) (pkt : packet) : Prop :=
  exists ids tail, pkt.2 = ack_record ids sid ++ tail /\
    Forall is_u32 ids /\ zlen ids <= RELIABLE_ACK_SIZE /\ Forall (received rcv) ids /\
    (pkt.1 = P_ACK_V1 \/
     exists k payload, 0 <= k /\ sent !! Z.to_nat k = Some payload /\ tail = be_bytes 4 k ++ payload).

(** What peer [p] keeps, when the other peer has queued [other] and it has queued [own]. *)
Definition peer_inv (bs hr : Z) (own other : list (list Z)) (p : peer) : Prop :=
  snd_inv bs hr own (send_reliable p) /\ rcv_inv bs hr other (rec_reliable p) /\
  ack_wf (rec_ack p) /\ Forall (received (rec_reliable p)) (rec_ack p) /\
  buf_wf (ack_write_buf p) /\ capacity (ack_write_buf p) = bs /\ headroom p = hr /\
  ack_sid_ok (session_id p) /\ ack_sid_ok (session_id_remote p).

(** Room for the record and the number in front of a packet, and for a record in a
    packet of its own. *)
Definition frame_ok (bs hr : Z) : Prop :=
  4 + ACK_SIZE CONTROL_SEND_ACK_MAX <= hr /\ hr + ACK_SIZE RELIABLE_ACK_SIZE <= bs /\ bs < BUF_SIZE_MAX.

(** The invariant of peer A's side: its state, what it delivered, that what B has
    not received is still in A's send buffer, and the packets it sent. *)
Definition side_inv (bs hr : Z) (s : system) : Prop :=
  peer_inv bs hr (sent_a s) (sent_b s) (peer_a s) /\
  delivered_a s = ztake (rel_packet_id (rec_reliable (peer_a s))) (sent_b s) /\
  (forall k, 0 <= k < zlen (sent_a s) -> holds (send_reliable (peer_a s)) k \/ received (rec_reliable (peer_b s)) k) /\
  Forall (wire_ok (session_id (peer_b s)) (rec_reliable (peer_a s)) (sent_a s)) (net_ab s) /\
  session_id_remote (peer_a s) = session_id (peer_b s).

Definition sys_inv (bs hr : Z) (s : system) : Prop := side_inv bs hr s /\ side_inv bs hr (swap s).

(** Fewer than 2^31 packets in each direction. *)
Definition few (s : system) : Prop := zlen (sent_a s) < 2 ^ 31 /\ zlen (sent_b s) < 2 ^ 31.

(** ** Queueing *)

Lemma set_entry_twice rel i e f : set_entry (set_entry rel i e) i f = set_entry rel i f.
Proof. unfold set_entry, set_array; cbn. by rewrite list_insert_insert_eq. Qed.

Lemma entries_set_same rel i e0 e : entries rel !! i = Some e0 -> entries (set_entry rel i e) !! i = Some e.
Proof.
  intros H. rewrite entries_set_entry. apply list_lookup_insert_eq. by eapply lookup_lt_Some.
Qed.

(** Replacing a free entry by a free entry. *)
Lemma rel_inv_set_free bs P rel i e b :
  rel_inv bs P rel -> entries rel !! i = Some e -> active e = false ->
  buf_wf b -> capacity b = bs -> rel_inv bs P (set_entry rel i (set_buf e b)).
Proof. intros HR Hi Ha Hw Hc. apply (rel_inv_set _ _ _ _ e); try done. cbn. congruence. Qed.

Lemma holds_set_free rel i e b k :
  entries rel !! i = Some e -> active e = false -> holds (set_entry rel i (set_buf e b)) k <-> holds rel k.
Proof.
  intros Hi Ha. unfold holds. split; intros (j & f & Hj & Hk); exists j, f; (split; [|done]).
  - apply (active_at_set _ _ _ _ _ _ Hi) in Hj as [(_ & _ & ?)|[_ ?]]; cbn in *; congruence.
  - apply (active_at_set _ _ _ _ _ _ Hi). right. split; [|done]. intros ->. destruct Hj; congruence.
Qed.

Lemma snd_ok_app hr sent l e : snd_ok hr sent e -> snd_ok hr (sent ++ [l]) e.
Proof.
  intros (H0 & Hop & pay & pre & post & H1 & H2). split; [done|]. split; [done|].
  exists pay, pre, post. split; [|done]. by apply lookup_app_l_Some.
Qed.

Lemma snd_ok_lt hr sent e : snd_ok hr sent e -> 0 <= entry_packet_id e < zlen sent.
Proof.
  intros (H0 & _ & pay & pre & post & H1 & _). apply lookup_lt_Some in H1. unfold zlen. lia.
Qed.

Section Frame.
Context (bs hr : Z).
Hypothesis Hframe : frame_ok bs hr.

Lemma frame_bounds : 29 <= hr /\ hr + 41 <= bs /\ bs < BUF_SIZE_MAX.
Proof using Hframe. exact Hframe. Qed.

Lemma fresh_wf rel b : fresh_buf bs rel b -> buf_wf b /\ capacity b = bs.
Proof using Hframe.
  intros (pre & post & -> & H1 & H2). destruct frame_bounds as (_ & _ & Hbs).
  split; [apply conc_wf; unfold fits; zlia|cbn; zlia].
Qed.

Lemma get_buf_output_spec sent rel :
  snd_inv bs hr sent rel ->
  match reliable_get_buf_output_sequenced rel with
  | Ret (rel', Some i) =>
      exists e b, entries rel !! i = Some e /\ active e = false /\ fresh_buf bs rel b /\
        rel' = set_entry rel i (set_buf e b)
  | Ret (rel', None) => rel' = rel
  | _ => False
  end.
Proof using.
  intros (HR & _). pose proof (reliable_get_buf_spec _ _ _ HR) as HG.
  unfold reliable_get_buf_output_sequenced.
  destruct (min_active_id _ _); [destruct (reliable_pid_in_range1 _ _ _); [|done]|];
    (destruct (reliable_get_buf rel) as [[rel' [i|]]| |]; [apply HG|apply HG|done|done]).
Qed.

(** Activating an outgoing buffer that holds [payload]. *)
Lemma mark_outgoing_spec sent rel i e op payload pre post :
  snd_inv bs hr sent rel -> zlen sent + 1 < 2 ^ 32 ->
  entries rel !! i = Some e -> active e = false -> op <> P_ACK_V1 ->
  buf e = conc pre payload post -> zlen pre = hr -> zlen pre + zlen payload + zlen post = bs ->
  exists rel', reliable_mark_active_outgoing rel i op = Ret rel' /\
    snd_inv bs hr (sent ++ [payload]) rel' /\
    (forall k, holds rel k -> holds rel' k) /\ holds rel' (zlen sent) /\ hold rel' = hold rel.
Proof using Hframe.
  intros (HR & Hpid & Hoff & Hto & Hall) Hlt Hi Ha Hop Hb Hpre Htot. unfold reliable_mark_active_outgoing.
  destruct frame_bounds as (Hh1 & Hh2 & Hh3). zlen_facts.
  rewrite Hi, Hpid, Hb, buf_write_prepend_conc, zlen_be_bytes. cbn [Z.of_nat]. bdecide.
  cbn [mbind outcome_mbind c_assert]. rewrite u32_id by (unfold is_u32; lia).
  eexists. split; [reflexivity|]. set (e2 := mkentry _ _ _ _ _ _).
  assert (Hsent : (sent ++ [payload]) !! Z.to_nat (zlen sent) = Some payload).
  { rewrite lookup_app_r; unfold zlen; [|lia]. by rewrite Nat2Z.id, Nat.sub_diag. }
  split; [split; [|split; [|split; [|split]]]|split; [|split; [|done]]].
  - change (rel_inv bs (snd_ok hr (sent ++ [payload])) (set_entry rel i e2)).
    apply (rel_inv_set _ _ _ _ e); try done.
    + eapply rel_inv_weaken; [|done]. intros f. apply snd_ok_app.
    + apply conc_wf. unfold fits. zlia.
    + cbn. zlia.
    + intros _. split.
      * split; [cbn; lia|]. split; [done|]. eexists payload, _, _. split; [exact Hsent|].
        split; [reflexivity|zlia].
      * intros j f Hji Hj. destruct HR as (_ & HP & _). apply HP in Hj. apply snd_ok_lt in Hj. cbn. lia.
  - cbn. zlia.
  - done.
  - done.
  - apply Forall_app. split; [done|]. constructor; [|done]. lia.
  - intros k (j & f & Hj & Hk). exists j, f. split; [|done].
    change (active_at (set_entry rel i e2) j f). apply (active_at_set _ _ _ _ _ _ Hi). right.
    split; [|done]. intros ->. destruct Hj; congruence.
  - exists i, e2. split; [|done]. change (active_at (set_entry rel i e2) i e2).
    apply (active_at_set _ _ _ _ _ _ Hi). by left.
Qed.

(** How a peer changes when it outputs [o]; [acked] are the packets the peer may
    have learnt to be received. *)
Definition evolves (acked : Z -> Prop) (own other : list (list Z)) (p : peer) (o : output) (p' : peer) : Prop :=
  peer_inv bs hr (match o with Queued l => own ++ [l] | _ => own end) other p' /\
  (forall k, holds (send_reliable p) k -> holds (send_reliable p') k \/ acked k) /\
  (forall k, received (rec_reliable p) k -> received (rec_reliable p') k) /\
  hold (send_reliable p') = hold (send_reliable p) /\
  session_id p' = session_id p /\ session_id_remote p' = session_id_remote p /\
  rel_packet_id (rec_reliable p') =
    rel_packet_id (rec_reliable p) + (match o with Delivered _ => 1 | _ => 0 end) /\
  match o with
  | Queued _ => holds (send_reliable p') (zlen own)
  | ToLink pkt => wire_ok (session_id_remote p) (rec_reliable p') own pkt
  | Delivered l => other !! Z.to_nat (rel_packet_id (rec_reliable p)) = Some l
  | _ => True
  end.

(** A change of the send side that queues nothing. *)
Lemma evolves_send acked own other p rel o :
  match o with Nothing | Error => True | _ => False end ->
  peer_inv bs hr own other p -> snd_inv bs hr own rel ->
  hold rel = hold (send_reliable p) ->
  (forall k, holds (send_reliable p) k -> holds rel k \/ acked k) ->
  evolves acked own other p o (set_send p rel).
Proof using.
  intros Ho (H1 & H2 & H3 & H4 & H5 & H6 & H7 & H8 & H9) Hs Hho Hk. unfold evolves.
  destruct o; try done; cbn; (split; [by split_and!|]; split_and!; try done; lia).
Qed.

Lemma evolves_refl acked own other p : peer_inv bs hr own other p -> evolves acked own other p Nothing p.
Proof using.
  intros HP. pose proof (evolves_send acked own other p (send_reliable p) Nothing I HP (proj1 HP) eq_refl) as H.
  replace (set_send p (send_reliable p)) with p in H by (by destruct p). apply H. auto.
Qed.

Lemma evolves_queued acked own other p rel l :
  peer_inv bs hr own other p -> snd_inv bs hr (own ++ [l]) rel ->
  (forall k, holds (send_reliable p) k -> holds rel k) -> holds rel (zlen own) ->
  hold rel = hold (send_reliable p) ->
  evolves acked own other p (Queued l) (set_send p rel).
Proof using.
  intros (H1 & H2 & H3 & H4 & H5 & H6 & H7 & H8 & H9) Hs Hk Hn Hho. unfold evolves. cbn.
  split; [by split_and!|]. split_and!; try done; auto; lia.
Qed.

Lemma snd_inv_set_free own rel i e b :
  snd_inv bs hr own rel -> entries rel !! i = Some e -> active e = false ->
  buf_wf b -> capacity b = bs -> snd_inv bs hr own (set_entry rel i (set_buf e b)).
Proof using. intros (H1 & H2) Hi Ha Hw Hc. split; [by apply rel_inv_set_free|done]. Qed.

Lemma queue_initial_ok own other p op :
  peer_inv bs hr own other p -> zlen own < 2 ^ 31 -> op <> P_ACK_V1 ->
  exists p' o, peer_do (EvInitial op) p = Ret (p', o) /\ forall acked, evolves acked own other p o p'.
Proof using Hframe.
  intros HP Hlt Hop. cbn [peer_do]. unfold tls_queue_initial.
  pose proof HP as (HS & _). pose proof (get_buf_output_spec _ _ HS) as HG.
  destruct (reliable_get_buf_output_sequenced _) as [[rel [i|]]| |]; try done; cbn [mbind outcome_mbind].
  - destruct HG as (e & b & Hi & Ha & Hf & ->). destruct (fresh_wf _ _ Hf) as [Hw Hc].
    destruct Hf as (pre & post & -> & Hpre & Htot).
    destruct (mark_outgoing_spec own (set_entry (send_reliable p) i (set_buf e (conc pre [] post))) i
                (set_buf e (conc pre [] post)) op [] pre post) as (rel' & -> & Hs & Hk & Hn & Hho); try done.
    + by apply snd_inv_set_free.
    + lia.
    + by eapply entries_set_same.
    + rewrite Hpre. apply HS.
    + eexists _, _. split; [reflexivity|]. intros acked. apply evolves_queued; try done.
      intros k Hh. apply Hk. by apply holds_set_free.
  - subst rel. eexists _, _. split; [reflexivity|]. intros acked. apply evolves_send; auto.
Qed.

(** Reading from the TLS engine into a fresh buffer. *)
Lemma bio_read_spec BIO_read maxlen pre post :
  0 <= maxlen -> (forall n l, 0 <= n -> BIO_read n = BIO_data l -> zlen l <= n) ->
  exists c post' st, bio_read BIO_read (conc pre [] post) maxlen = Ret (conc pre c post', st) /\
    zlen c + zlen post' = zlen post /\ (st = 1 \/ st = 0 \/ st = -1).
Proof using.
  intros Hm HB. unfold bio_read. cbn [len conc]. change (zlen (@nil Z)) with 0. cbn [c_assert Z.leb Z.compare].
  cbn [mbind outcome_mbind Z.eqb negb]. fold (conc pre [] post). rewrite buf_bptr_conc.
  assert (Hcap : buf_forward_capacity (conc pre [] post) = zlen post).
  { unfold buf_forward_capacity. rewrite buf_valid_conc. cbn. zlen_facts. change (zlen (@nil Z)) with 0. bcase; lia. }
  rewrite Hcap. set (n := if maxlen <? zlen post then maxlen else zlen post).
  assert (Hn : 0 <= n <= zlen post) by (unfold n; zlen_facts; bcase; lia).
  pose proof (HB n) as HB'. destruct (BIO_read n) as [[|x l]|[|]].
  - exists [], post, 0. split; [done|]. split; [done|auto].
  - specialize (HB' (x :: l) ltac:(lia) eq_refl). set (src := x :: l) in *.
    exists src, (zdrop (zlen src) post), 1. split; [|split; [zlia|auto]].
    unfold buf_store. cbn [data conc].
    rewrite (store_eq _ pre (ztake (zlen src) post) (zdrop (zlen src) post));
      [|by rewrite ztake_zdrop|done|zlia].
    cbn [mbind outcome_mbind]. do 2 f_equal. apply mkbuffer_conc; cbn; [zlia..|done].
  - exists [], post, 0. split; [done|]. split; [done|auto].
  - exists [], post, (-1). split; [done|]. split; [done|auto].
Qed.

Lemma queue_ciphertext_ok own other p BIO_read maxlen :
  peer_inv bs hr own other p -> zlen own < 2 ^ 31 -> 0 <= maxlen ->
  (forall n l, 0 <= n -> BIO_read n = BIO_data l -> zlen l <= n) ->
  exists p' o, peer_do (EvQueue BIO_read maxlen) p = Ret (p', o) /\ forall acked, evolves acked own other p o p'.
Proof using Hframe.
  intros HP Hlt Hm HB. cbn [peer_do]. unfold tls_queue_ciphertext.
  pose proof HP as (HS & _). pose proof (get_buf_output_spec _ _ HS) as HG.
  destruct (reliable_get_buf_output_sequenced _) as [[rel [i|]]| |]; try done; cbn [mbind outcome_mbind].
  2:{ subst rel. eexists _, _. split; [reflexivity|]. intros acked. apply evolves_send; auto. }
  destruct HG as (e & b & Hi & Ha & (pre & post & -> & Hpre & Htot) & ->).
  erewrite entries_set_same by done. cbn [buf set_buf].
  destruct (bio_read_spec BIO_read maxlen pre post Hm HB) as (c & post' & st & -> & Hc & Hst).
  cbn [mbind outcome_mbind]. rewrite set_entry_twice.
  change (set_buf (set_buf e (conc pre [] post)) (conc pre c post')) with (set_buf e (conc pre c post')).
  set (e2 := set_buf e (conc pre c post')). destruct frame_bounds as (_ & _ & Hbs).
  assert (Hs2 : snd_inv bs hr own (set_entry (send_reliable p) i e2)).
  { apply snd_inv_set_free; try done; [apply conc_wf; unfold fits; lia|cbn; lia]. }
  assert (Hh : forall k, holds (send_reliable p) k -> holds (set_entry (send_reliable p) i e2) k)
    by (intros k; by apply holds_set_free).
  destruct Hst as [->|[->| ->]]; cbn [Z.eqb].
  - rewrite buf_contents_conc. cbn [mbind outcome_mbind].
    destruct (mark_outgoing_spec own (set_entry (send_reliable p) i e2) i e2 P_CONTROL_V1 c pre post')
      as (rel' & -> & Hs & Hk & Hn & Hho); try done.
    + lia.
    + by eapply entries_set_same.
    + rewrite Hpre. apply HS.
    + lia.
    + eexists _, _. split; [reflexivity|]. intros acked. apply evolves_queued; auto.
  - eexists _, _. split; [reflexivity|]. intros acked. apply evolves_send; auto.
  - eexists _, _. split; [reflexivity|]. intros acked. apply evolves_send; auto.
Qed.

(** ** Transmission *)

Lemma holds_set_same rel i e e' k :
  active_at rel i e -> active e' = true -> entry_packet_id e' = entry_packet_id e ->
  holds rel k -> holds (set_entry rel i e') k.
Proof using.
  intros [Hi Ha] Ha' Hid (j & f & Hj & Hk).
  destruct (decide (j = i)) as [->|Hne].
  - exists i, e'. split; [apply (active_at_set _ _ _ _ _ _ Hi); auto|].
    destruct Hj as [Hj _]. congruence.
  - exists j, f. split; [|done]. apply (active_at_set _ _ _ _ _ _ Hi); auto.
Qed.

(** Rewriting the headroom or the timing of a packet in the send buffer. *)
Lemma snd_inv_refresh own rel i e e' pre c post pre' :
  snd_inv bs hr own rel -> active_at rel i e -> active e' = true ->
  entry_packet_id e' = entry_packet_id e -> opcode e' = opcode e ->
  buf e = conc pre c post -> buf e' = conc pre' c post -> zlen pre' = zlen pre -> 0 < timeout e' ->
  snd_inv bs hr own (set_entry rel i e').
Proof using.
  intros (HR & Hpid) Hi Ha' Hid Hop Hb Hb' Hpre Hto. split; [|done].
  pose proof (proj1 (proj2 HR) _ _ Hi) as (H0 & Hopa & pay & pre0 & post0 & Hs & Hbuf & Hp0).
  destruct (entry_buf _ _ _ _ _ HR (proj1 Hi)) as [Hw Hc].
  rewrite Hb in Hbuf, Hw, Hc. apply conc_inj in Hbuf as (<- & -> & <-).
  apply (rel_inv_set _ _ _ _ e); try done; [apply Hi|..].
  - rewrite Hb'. apply wf_fits in Hw. apply conc_wf. unfold fits in *. lia.
  - rewrite Hb'. cbn [capacity conc] in *. lia.
  - intros _. split.
    + split; [congruence|]. split; [split; [rewrite Hop; apply Hopa|done]|]. exists pay, pre', post. rewrite Hid. split; [done|].
      split; [done|lia].
    + intros j f Hne Hj Heq. apply Hne. eapply (proj2 (proj2 HR)); [done..|]. congruence.
Qed.

Lemma snd_entries_small own rel :
  snd_inv bs hr own rel -> zlen own < 2 ^ 31 ->
  Forall (fun e => active e = true -> small (entry_packet_id e)) (entries rel).
Proof using.
  intros ((_ & HP & _) & _) Hlt. apply Forall_lookup_2. intros i e Hi Ha.
  destruct (snd_ok_lt _ _ _ (HP i e (conj Hi Ha))). unfold small. lia.
Qed.

(** [reliable_send] returns a packet exactly when [reliable_can_send] says so (the
    hold flag apart): the due packet with the lowest number. *)
Lemma reliable_send_spec own rel now :
  snd_inv bs hr own rel -> zlen own < 2 ^ 31 ->
  match reliable_send now rel with
  | (rel', Some (i, op)) =>
      exists e, active_at rel i e /\ due now e = true /\ op = opcode e /\
        rel' = set_entry rel i (set_timing e (timeout e * 2) (now + timeout e)) /\
        0 < count_current now (entries rel) /\
        forall j f, entries rel !! j = Some f -> due now f = true -> entry_packet_id e <= entry_packet_id f
  | (rel', None) => rel' = rel /\ count_current now (entries rel) = 0
  end.
Proof using.
  intros HS Hlt. unfold reliable_send.
  pose proof (reliable_send_best_spec now (entries rel) 0 None (snd_entries_small _ _ HS Hlt)) as HB.
  destruct (count_current_pos now (entries rel)) as [Hc0 Hc].
  destruct (reliable_send_best now 0 (entries rel) None) as [[i e]|].
  - destruct HB as (HB & _ & Hmin); [done|].
    destruct HB as [|(k & -> & Hk & Hd)]; [done|]. exists e.
    split; [split; [done|by apply andb_true_iff in Hd as [-> _]]|]. do 3 (split; [done|]).
    split; [apply Hc; exists e; split; [by eapply list_elem_of_lookup_2|done]|].
    intros j f Hj Hf. rewrite Forall_forall in Hmin. apply Hmin; [by eapply list_elem_of_lookup_2|done].
  - destruct HB as [_ HB]; [done|]. split; [done|].
    destruct (decide (count_current now (entries rel) = 0)) as [|Hne]; [done|].
    destruct (proj1 Hc ltac:(lia)) as (f & Hf & Hd). rewrite Forall_forall in HB.
    rewrite (HB f Hf) in Hd. done.
Qed.

Lemma ack_size_mono n m : 0 <= n <= m -> ACK_SIZE n <= ACK_SIZE m.
Proof using. unfold ACK_SIZE, SID_SIZE. bcase; lia. Qed.

Lemma wire_ok_acks sid rcv own (ack : reliable_ack) n op tail :
  ack_wf ack -> Forall (received rcv) ack ->
  (op = P_ACK_V1 \/ exists k payload, 0 <= k /\ own !! Z.to_nat k = Some payload /\ tail = be_bytes 4 k ++ payload) ->
  wire_ok sid rcv own (op, ack_record (ztake n ack) sid ++ tail).
Proof using.
  intros (H1 & H2 & H3) Hr Ht. exists (ztake n ack), tail. split; [done|].
  split; [by apply Forall_take|]. split; [zlia|]. split; [by apply Forall_take|done].
Qed.

(** The packet that [tls_transmit] sends: the due one with the lowest number; its
    next transmission is put off. *)
Definition sends (now : Z) (own : list (list Z)) (p : peer) (o : output) (p' : peer) : Prop :=
  exists i e e' ids pay,
    active_at (send_reliable p) i e /\ due now e = true /\
    (forall j f, entries (send_reliable p) !! j = Some f -> due now f = true -> entry_packet_id e <= entry_packet_id f) /\
    own !! Z.to_nat (entry_packet_id e) = Some pay /\
    o = ToLink (opcode e, ack_record ids (session_id_remote p) ++ be_bytes 4 (entry_packet_id e) ++ pay) /\
    zlen ids <= RELIABLE_ACK_SIZE /\ opcode e <> P_ACK_V1 /\
    send_reliable p' = set_entry (send_reliable p) i e' /\
    active e' = true /\ entry_packet_id e' = entry_packet_id e /\ now < next_try e'.

Lemma transmit_ok own other p now :
  peer_inv bs hr own other p -> zlen own < 2 ^ 31 ->
  exists p' o, peer_do (EvTransmit now) p = Ret (p', o) /\ (forall acked, evolves acked own other p o p') /\
    (0 < count_current now (entries (send_reliable p)) -> hold (send_reliable p) = false -> sends now own p o p').
Proof using Hframe.
  intros HP Hlt. cbn [peer_do]. unfold tls_transmit, reliable_can_send.
  pose proof HP as (HS & HRc & Haw & Har & Hab & Hac & Hh & Hs1 & Hs2).
  destruct (0 <? count_current now (entries (send_reliable p))) eqn:Ec; cbn [andb].
  2:{ eexists _, _. split; [reflexivity|]. split; [intros acked; by apply evolves_refl|]. breflect. lia. }
  destruct (hold (send_reliable p)) eqn:Eho; cbn [negb].
  { eexists _, _. split; [reflexivity|]. split; [intros acked; by apply evolves_refl|]. done. }
  breflect. pose proof (reliable_send_spec own (send_reliable p) now HS Hlt) as HB.
  destruct (reliable_send now (send_reliable p)) as [rel [[i op]|]]; [|lia].
  destruct HB as (e & Hi & Hd & -> & -> & _ & Hmin).
  pose proof (proj1 (proj2 (proj1 HS)) _ _ Hi) as (H0 & (Hop & Hto) & pay & pre & post & Hsent & Hbuf & Hpre).
  set (e1 := set_timing e _ _). erewrite entries_set_same by apply Hi.
  change (buf e1) with (buf e). rewrite Hbuf.
  set (c := be_bytes 4 (entry_packet_id e) ++ pay) in *.
  destruct frame_bounds as (Hh1 & _).
  set (n := Z.min CONTROL_SEND_ACK_MAX (zlen (rec_ack p))).
  assert (Hn : 0 <= n <= CONTROL_SEND_ACK_MAX) by (unfold n, CONTROL_SEND_ACK_MAX; zlen_facts; lia).
  assert (Hfit : ACK_SIZE n <= zlen pre).
  { pose proof (ack_size_mono n _ Hn) as Hm. change (ACK_SIZE CONTROL_SEND_ACK_MAX) with 25 in Hm. lia. }
  rewrite reliable_ack_write_prepend_spec; [|apply Haw|unfold CONTROL_SEND_ACK_MAX; lia|done|done].
  fold n. cbn [mbind outcome_mbind c_assert]. rewrite buf_contents_conc. cbn [mbind outcome_mbind].
  set (rec := ack_record _ _). rewrite set_entry_twice.
  assert (Hrec : zlen rec = ACK_SIZE n).
  { unfold rec. rewrite zlen_ack_record by apply Hs2. f_equal. unfold n, CONTROL_SEND_ACK_MAX. zlia. }
  set (pre' := ztake (zlen pre - ACK_SIZE n) pre ++ rec).
  assert (Hpre' : zlen pre' = zlen pre).
  { unfold pre'. pose proof (zlen_nonneg rec). rewrite zlen_app, zlen_ztake, Hrec. lia. }
  set (e2 := set_buf e1 _).
  assert (Hb2 : buf e2 = conc pre' c post).
  { unfold e2. cbn [buf set_buf capacity offset len data conc]. apply mkbuffer_conc; [lia|lia|done|]. unfold pre'. by rewrite <- !app_assoc. }
  eexists _, _. split; [reflexivity|]. split.
  2:{ intros _ _. exists i, e, e2, (ztake n (rec_ack p)), pay. split_and!; try done; [|apply Hi|cbn; lia].
      destruct Haw as [Haw _]. zlia. }
  intros acked. unfold evolves. cbn.
  assert (HS2 : snd_inv bs hr own (set_entry (send_reliable p) i e2)).
  { eapply snd_inv_refresh; try done; [apply Hi|]. cbn. lia. }
  split; [split_and!; try done|split_and!; try done].
  - by apply ack_wf_zdrop.
  - by apply Forall_drop.
  - intros k Hk. left. eapply holds_set_same; try done. apply Hi.
  - lia.
  - apply wire_ok_acks; try done. right. by exists (entry_packet_id e), pay.
Qed.

Lemma acks_ok own other p :
  peer_inv bs hr own other p ->
  exists p' o, peer_do EvAcks p = Ret (p', o) /\ forall acked, evolves acked own other p o p'.
Proof using Hframe.
  intros HP. cbn [peer_do]. unfold tls_send_acks.
  pose proof HP as (HS & HRc & Haw & Har & Hab & Hac & Hh & Hs1 & Hs2).
  destruct (negb _).
  2:{ eexists _, _. split; [reflexivity|]. intros acked. by apply evolves_refl. }
  apply wf_conc in Hab as (pre & c & post & Hb & HF). rewrite Hb in Hac |- *. cbn [capacity conc] in Hac.
  destruct frame_bounds as (Hh1 & Hh2 & Hh3). rewrite buf_init_conc, Hh. zlen_facts. bdecide.
  cbn [c_assert mbind outcome_mbind].
  set (d := pre ++ c ++ post). assert (Hd : zlen d = bs) by (unfold d; zlia).
  set (n := Z.min RELIABLE_ACK_SIZE (zlen (rec_ack p))).
  assert (Hn : 0 <= n <= RELIABLE_ACK_SIZE) by (unfold n, RELIABLE_ACK_SIZE; zlen_facts; lia).
  pose proof (ack_size_mono n _ Hn) as Hm. change (ACK_SIZE RELIABLE_ACK_SIZE) with 41 in Hm.
  rewrite reliable_ack_write_append_spec; [|apply Haw|unfold RELIABLE_ACK_SIZE; lia|done|unfold fits; zlia|].
  2:{ fold n. zlia. }
  fold n. cbn [mbind outcome_mbind c_assert]. rewrite buf_contents_conc. cbn [mbind outcome_mbind].
  set (rec := ack_record _ _).
  eexists _, _. split; [reflexivity|]. intros acked. unfold evolves.
  cbn [send_reliable rec_reliable rec_ack ack_write_buf headroom session_id session_id_remote set_ack_buf set_ack].
  assert (Hrec : zlen rec = ACK_SIZE n).
  { unfold rec. rewrite zlen_ack_record by apply Hs2. f_equal. unfold n, RELIABLE_ACK_SIZE. zlia. }
  split; [split_and!; try done|split_and!; try done].
  - by apply ack_wf_zdrop.
  - by apply Forall_drop.
  - exists (ztake hr d ++ rec ++ zdrop (ACK_SIZE n) (zdrop hr d)). split; [reflexivity|]. cbn [ack_write_buf set_ack_buf capacity offset len conc]. autorewrite with zlen. rewrite Hrec, Hd.
    assert (0 <= ACK_SIZE n) by (unfold ACK_SIZE, SID_SIZE; bcase; lia). lia.
  - auto.
  - lia.
  - change ([] ++ rec) with rec. rewrite <- (app_nil_r rec). apply wire_ok_acks; auto.
Qed.

(** ** Reception *)

Lemma rcv_ok_lt sent d n e : 0 <= d -> rcv_ok sent d n e -> 0 <= entry_packet_id e < zlen sent.
Proof using.
  intros Hd (H0 & pay & pre & post & H1 & _). apply lookup_lt_Some in H1. unfold zlen. lia.
Qed.

Lemma purge_ok own rel ids :
  snd_inv bs hr own rel ->
  snd_inv bs hr own (reliable_send_purge rel ids) /\ hold (reliable_send_purge rel ids) = hold rel /\
  (forall k, holds rel k -> holds (reliable_send_purge rel ids) k \/ k ∈ ids).
Proof using.
  intros (HR & Hpid & Hoff & Hto & Hall).
  destruct (reliable_send_purge_spec _ _ ids _ HR) as (H1 & H2 & H3 & _ & H4 & H4' & H5).
  split; [split_and!; [done|congruence|congruence|congruence|done]|]. split; [done|].
  intros k (i & e & Hi & Hk). destruct (decide (entry_packet_id e ∈ ids)); [right; congruence|].
  left. exists i, e. split; [|done]. by apply H5.
Qed.

(** What [reliable_not_replay] and [reliable_wont_break_sequentiality] decide. *)
Lemma replay_tests other rel k :
  rcv_inv bs hr other rel -> zlen other < 2 ^ 31 -> 0 <= k < zlen other ->
  reliable_wont_break_sequentiality rel k = (k <? rel_packet_id rel + size rel) /\
  (reliable_not_replay rel k = true <-> ~ received rel k).
Proof using.
  intros (HR & Hoff & Hd & Hall) Hlt Hk. pose proof HR as ((Hsz & _) & _). unfold RELIABLE_CAPACITY in Hsz.
  split; [unfold reliable_wont_break_sequentiality; apply in_range2_small; lia|].
  unfold reliable_not_replay, received. rewrite pid_min_small by lia.
  destruct (k <? rel_packet_id rel) eqn:E; breflect; [split; [done|]; intros []; lia|].
  rewrite negb_true_iff, <- not_true_iff_false, existsb_exists. split.
  - intros Hn [|(i & e & [Hi Ha] & <-)]; [lia|]. apply Hn. exists e.
    split; [by apply list_elem_of_In; eapply list_elem_of_lookup_2|]. by rewrite Ha, Z.eqb_refl.
  - intros Hn (e & Hin & Ha). apply Hn. right. apply list_elem_of_In, list_elem_of_lookup_1 in Hin as [i Hi].
    apply andb_true_iff in Ha as [Ha Hid]; breflect. by exists i, e.
Qed.

(** A change of the receive side and the acknowledgements. *)
Lemma evolves_recv acked own other p snd rel ack :
  peer_inv bs hr own other p -> snd_inv bs hr own snd -> hold snd = hold (send_reliable p) ->
  (forall k, holds (send_reliable p) k -> holds snd k \/ acked k) ->
  rcv_inv bs hr other rel -> rel_packet_id rel = rel_packet_id (rec_reliable p) ->
  (forall k, received (rec_reliable p) k -> received rel k) ->
  ack_wf ack -> Forall (received rel) ack ->
  evolves acked own other p Nothing (set_ack (set_rec_rel (set_send p snd) rel) ack).
Proof using.
  intros (H1 & H2 & H3 & H4 & H5 & H6 & H7 & H8 & H9) Hs Hho Hk Hr Hpid Hrec Ha Har. unfold evolves. cbn.
  split; [by split_and!|]. split_and!; try done. lia.
Qed.

(** Storing packet [k] in a free entry. *)
Lemma store_incoming other rel i e k op payload pre post :
  rcv_inv bs hr other rel -> entries rel !! i = Some e -> active e = false ->
  zlen pre + zlen payload + zlen post = bs ->
  0 <= k -> other !! Z.to_nat k = Some payload -> zlen other < 2 ^ 31 ->
  k < rel_packet_id rel + size rel -> ~ received rel k ->
  exists rel', reliable_mark_active_incoming (set_entry rel i (set_buf e (conc pre payload post))) i k op = Ret rel' /\
    rcv_inv bs hr other rel' /\ rel_packet_id rel' = rel_packet_id rel /\
    (forall j, received rel j -> received rel' j) /\ received rel' k.
Proof using Hframe.
  intros (HR & Hoff & Hd & Hall) Hi Ha Htot Hk Hpay Hlt Hwin Hnew. unfold reliable_mark_active_incoming.
  erewrite entries_set_same by done. cbn [rel_packet_id set_entry set_array].
  assert (Hkd : rel_packet_id rel <= k) by (destruct (decide (k < rel_packet_id rel)); [|lia]; destruct Hnew; left; lia).
  assert (Hkl : k < zlen other) by (apply lookup_lt_Some in Hpay; unfold zlen; lia).
  rewrite pid_min_small by lia. bdecide. cbn [negb c_assert mbind outcome_mbind].
  eexists. split; [reflexivity|]. fold (set_entry rel i (set_buf e (conc pre payload post))).
  rewrite set_entry_twice. cbn [buf set_buf]. set (e2 := mkentry _ _ _ _ _ _).
  destruct frame_bounds as (_ & _ & Hbs).
  assert (Hmono : forall j, holds rel j -> holds (set_entry rel i e2) j).
  { intros j (j' & f & Hj & Hf). exists j', f. split; [|done]. apply (active_at_set _ _ _ _ _ _ Hi). right.
    split; [|done]. intros ->. destruct Hj. congruence. }
  split_and!; try done.
  - split; [|done]. cbn [rel_packet_id size set_entry set_array]. apply (rel_inv_set _ _ _ _ e); try done.
    + apply conc_wf. unfold fits. lia.
    + intros _. split; [split; [cbn; lia|]; by exists payload, pre, post|].
      intros j f _ Hj Heq. apply Hnew. right. by exists j, f.
  - intros j [Hj|Hj]; [by left|right; auto].
  - right. exists i, e2. split; [|done]. apply (active_at_set _ _ _ _ _ _ Hi). by left.
Qed.

Lemma be_bytes4_app_inj j k l l' :
  is_u32 j -> is_u32 k -> be_bytes 4 j ++ l = be_bytes 4 k ++ l' -> j = k.
Proof using.
  intros Hj Hk E. apply app_inj_1 in E as [E _].
  - rewrite <- (be_value_bytes4 j), <- (be_value_bytes4 k) by done. by rewrite E.
  - pose proof (zlen_be_bytes 4 j). pose proof (zlen_be_bytes 4 k). unfold zlen in *. lia.
Qed.

(** A packet that finds room in the window is received. *)
Definition accepts (p : peer) (pkt : packet) (p' : peer) : Prop :=
  forall ids k pay, pkt.1 <> P_ACK_V1 -> pkt.2 = ack_record ids (session_id p) ++ be_bytes 4 k ++ pay ->
    zlen ids <= RELIABLE_ACK_SIZE -> is_u32 k -> reliable_can_get (rec_reliable p) = true ->
    k < rel_packet_id (rec_reliable p) + size (rec_reliable p) -> received (rec_reliable p') k.

Lemma receive_ok own other p rcvB pkt :
  peer_inv bs hr own other p -> zlen other < 2 ^ 31 -> wire_ok (session_id p) rcvB other pkt ->
  exists p' o, peer_do (EvReceive pkt) p = Ret (p', o) /\ evolves (received rcvB) own other p o p' /\
    o = Nothing /\ accepts p pkt p'.
Proof using Hframe.
  intros HP Hlt (ids & tail & Hb & Hu & Hl & Hr & Ht). destruct pkt as [op bytes]. cbn [fst snd] in Hb, Ht. subst bytes.
  pose proof HP as (HS & HRc & Haw & Har & Hab & Hac & Hh & Hs1 & Hs2).
  cbn [peer_do]. unfold tls_receive.
  assert (Hdec : forall ids' k pay k' pay', ack_record ids (session_id p) ++ be_bytes 4 k ++ pay
      = ack_record ids' (session_id p) ++ be_bytes 4 k' ++ pay' ->
      zlen ids' <= RELIABLE_ACK_SIZE -> is_u32 k -> is_u32 k' -> k = k').
  { intros ids' k pay k' pay' E Hl' Hk Hk'. pose proof (f_equal (fun l => l !! 0%nat) E) as E0.
    unfold ack_record in E0; cbn in E0. injection E0 as E0.
    apply app_inj_1 in E as [_ E]; [by eapply be_bytes4_app_inj|].
    pose proof (zlen_ack_record ids _ (proj1 Hs1)). pose proof (zlen_ack_record ids' _ (proj1 Hs1)).
    rewrite E0 in *. unfold zlen in *. lia. }
  rewrite (mkbuffer_conc _ _ _ _ [] (ack_record ids (session_id p) ++ tail) []);
    [|zlia|done|done|by rewrite app_nil_r].
  rewrite reliable_ack_read_spec by done. cbn [mbind outcome_mbind negb app].
  destruct (purge_ok own (send_reliable p) ids HS) as (HS' & Hho & Hpk).
  set (snd := reliable_send_purge (send_reliable p) ids) in *. rewrite Forall_forall in Hr.
  assert (Hk' : forall k, holds (send_reliable p) k -> holds snd k \/ received rcvB k).
  { intros k Hk. destruct (Hpk k Hk); auto. }
  assert (Hnone : evolves (received rcvB) own other p Nothing (set_send p snd)) by by apply evolves_send.
  destruct (op =? P_ACK_V1) eqn:Eop; cbn [negb andb]; breflect;
    [eexists _, _; split_and!; [done..|]; by intros ? ? ? ?|].
  destruct Ht as [|(k & pay & Hk & Hpay & ->)]; [done|].
  cbn [rec_reliable set_send]. destruct (reliable_can_get (rec_reliable p)) eqn:Ecg.
  2:{ eexists _, _. split_and!; [done..|]. intros ? ? ? ? ? ? ?. congruence. }
  unfold reliable_ack_read_packet_id. rewrite buf_read_front by by rewrite zlen_be_bytes.
  cbn [mbind outcome_mbind].
  assert (Hkl : k < zlen other) by (pose proof (lookup_lt_Some _ _ _ Hpay); unfold zlen; lia).
  assert (Hku : is_u32 k) by (unfold is_u32; lia). rewrite be_value_bytes4 by done.
  destruct (replay_tests other (rec_reliable p) k HRc Hlt ltac:(lia)) as [-> Hnr].
  destruct (k <? _) eqn:Ewin; breflect.
  2:{ eexists _, _. split_and!; [done..|]. intros ids' k' pay' _ E Hl' Hk'' _ Hw. cbn [snd] in E.
      rewrite (Hdec ids' k pay k' pay') in Ewin by done. lia. }
  assert (Hacc : forall p', received (rec_reliable p') k -> accepts p (op, ack_record ids (session_id p) ++ be_bytes 4 k ++ pay) p').
  { intros p' Hp' ids' k' pay' _ E Hl' Hk'' _ _. cbn [snd] in E. by rewrite <- (Hdec ids' k pay k' pay'). }
  destruct (reliable_not_replay (rec_reliable p) k) eqn:Enr.
  - pose proof (reliable_get_buf_spec _ _ _ (proj1 HRc)) as HG.
    destruct (reliable_get_buf (rec_reliable p)) as [[rel [i|]]| |]; try done; [|destruct HG; congruence].
    cbn [mbind outcome_mbind]. destruct HG as (_ & e & b & Hi & Ha & (pre & post & -> & Hpre & Htot) & ->).
    erewrite entries_set_same by done. cbn [buf set_buf]. unfold buf_copy. rewrite buf_contents_conc.
    cbn [mbind outcome_mbind]. destruct frame_bounds as (_ & _ & Hbs).
    assert (Hfit : zlen pay <= zlen post).
    { destruct HRc as (_ & Ho & _ & Hall). rewrite Forall_forall in Hall.
      specialize (Hall pay (list_elem_of_lookup_2 _ _ _ Hpay)). cbn in Hall. lia. }
    rewrite buf_write_fits; [|unfold fits; zlia|done]. cbn [mbind outcome_mbind negb app].
    rewrite set_entry_twice. change (set_buf (set_buf e ?b1) ?b2) with (set_buf e b2).
    destruct (store_incoming other (rec_reliable p) i e k op pay pre (zdrop (zlen pay) post))
      as (rel' & -> & Hr1 & Hr2 & Hr3 & Hr4); try done; [zlia|by apply Hnr|].
    cbn [mbind outcome_mbind]. eexists _, _. split; [reflexivity|].
    destruct (acknowledge_spec (rec_ack p) k Haw Hku) as [Ha1 Ha2]. split; [|split; [done|by apply Hacc]].
    apply (evolves_recv _ _ _ _ snd rel'); try done.
    apply Forall_forall. intros x Hx. rewrite Forall_forall in Har.
    destruct (Ha2 x Hx) as [->|Hx']; auto.
  - assert (Hrk : received (rec_reliable p) k).
    { unfold received. destruct (decide (k < rel_packet_id (rec_reliable p))); [left; lia|right].
      unfold reliable_not_replay in Enr. destruct HRc as (_ & _ & Hd & _).
      rewrite pid_min_small in Enr by lia.
      rewrite (proj2 (Z.ltb_ge _ _)) in Enr by lia. apply negb_false_iff, existsb_exists in Enr as (e & Hin & Ha).
      apply list_elem_of_In, list_elem_of_lookup_1 in Hin as [i Hi].
      apply andb_true_iff in Ha as [Ha Hid]; breflect. by exists i, e. }
    eexists _, _. split; [reflexivity|].
    destruct (acknowledge_spec (rec_ack p) k Haw Hku) as [Ha1 Ha2]. split; [|split; [done|by apply Hacc]].
    replace (set_send p snd) with (set_rec_rel (set_send p snd) (rec_reliable p)) by done.
    apply (evolves_recv _ _ _ _ snd (rec_reliable p)); try done.
    apply Forall_forall. intros x Hx. rewrite Forall_forall in Har.
    destruct (Ha2 x Hx) as [->|Hx']; auto.
Qed.

(** ** Delivery *)

Lemma find_entry_Some (P : reliable_entry -> bool) l i :
  find_entry P l = Some i -> exists e, l !! i = Some e /\ P e = true.
Proof using.
  unfold find_entry. destruct (list_find P l) as [[j e]|] eqn:E; cbn; [|done]. intros [= <-].
  apply list_find_Some in E as (H1 & H2 & _). exists e. split; [done|]. by apply Is_true_true.
Qed.

Lemma find_entry_None (P : reliable_entry -> bool) l i e :
  find_entry P l = None -> l !! i = Some e -> P e = false.
Proof using.
  unfold find_entry. destruct (list_find P l) as [|] eqn:E; cbn; [done|]. intros _ Hi.
  apply list_find_None in E. rewrite Forall_forall in E.
  apply not_true_is_false. intros Ht. apply (E e); [by eapply list_elem_of_lookup_2|by apply Is_true_true].
Qed.

Lemma set_entry_same rel i e : entries rel !! i = Some e -> set_entry rel i (set_buf e (buf e)) = rel.
Proof using.
  intros Hi. unfold entries, ztake in Hi. apply lookup_take_Some in Hi as [Hi _].
  unfold set_entry, set_array. destruct e, rel; cbn in *. by rewrite list_insert_id.
Qed.

(** A TLS engine that takes whatever it is given. *)
Definition takes_all (BIO_write : list Z -> Z + bool) : Prop := forall l, BIO_write l = inl (zlen l).

(** Handing a packet to the TLS engine consumes it or leaves it as it was. *)
Lemma write_ciphertext_spec BIO_write pre c post :
  exists b st, key_state_write_ciphertext BIO_write (conc pre c post) = Ret (b, st) /\
    ((st = 1 /\ exists post', b = conc pre [] post' /\ zlen post' = zlen c + zlen post) \/
     ((st = 0 \/ st = -1) /\ b = conc pre c post)) /\
    (takes_all BIO_write -> zlen c <> 0 -> st = 1).
Proof using.
  unfold key_state_write_ciphertext. rewrite buf_contents_conc. cbn [mbind outcome_mbind].
  assert (Hst : bio_write BIO_write c = 1 \/ bio_write BIO_write c = 0 \/ bio_write BIO_write c = -1).
  { unfold bio_write. destruct (negb _); [|auto]. destruct (BIO_write c) as [i|[|]]; auto. destruct (negb _); auto. }
  unfold bio_write_post. rewrite buf_bptr_conc, buf_len_conc.
  assert (Hall : takes_all BIO_write -> zlen c <> 0 -> bio_write BIO_write c = 1).
  { intros HB Hc. unfold bio_write. bdecide. rewrite HB. by rewrite Z.eqb_refl. }
  destruct Hst as [Hst|[Hst|Hst]]; rewrite Hst in *; cbn [Z.eqb].
  - unfold buf_store. cbn [data conc]. rewrite (store_eq _ pre c post); [|done|done|].
    2:{ rewrite zlen_replicate. zlen_facts. lia. }
    cbn [mbind outcome_mbind]. eexists _, _. split; [reflexivity|]. split; [|done]. left. split; [done|].
    exists (replicate (Z.to_nat (zlen c)) 0 ++ post). zlen_facts. split; [|zlia].
    apply mkbuffer_conc; cbn; [zlia|done|done|done].
  - eexists _, _. split; [reflexivity|]. split; [auto|done].
  - eexists _, _. split; [reflexivity|]. split; [auto|done].
Qed.

(** Consuming the next packet in sequence. *)
Lemma consume_spec other rel i e b :
  rcv_inv bs hr other rel -> active_at rel i e -> entry_packet_id e = rel_packet_id rel ->
  buf_wf b -> capacity b = bs -> zlen other < 2 ^ 31 ->
  exists rel', reliable_mark_deleted (set_entry rel i (set_buf e b)) i true = Ret rel' /\
    rcv_inv bs hr other rel' /\ rel_packet_id rel' = rel_packet_id rel + 1 /\
    (forall k, received rel k -> received rel' k).
Proof using Hframe.
  intros (HR & Hoff & Hd & Hall) Hi Hid Hw Hc Hlt. unfold reliable_mark_deleted.
  erewrite entries_set_same by apply Hi. cbn [entry_packet_id set_buf]. rewrite set_entry_twice.
  pose proof (proj1 (proj2 HR) _ _ Hi) as (Hwin & Hpay).
  destruct (rcv_ok_lt other _ _ e (proj1 Hd) (conj Hwin Hpay)) as [_ Hel].
  rewrite u32_id by (unfold is_u32; lia). eexists. split; [reflexivity|].
  set (e2 := set_active _ false).
  assert (Hact : forall j f, active_at (set_entry rel i e2) j f -> j <> i /\ active_at rel j f).
  { intros j f Hj. apply (active_at_set _ _ _ _ _ _ (proj1 Hi)) in Hj as [(_ & _ & ?)|?]; done. }
  split; [split; [|split; [done|]]|split].
  - cbn [rel_packet_id size set_packet_id set_entry set_array].
    change (rel_inv bs (rcv_ok other (entry_packet_id e + 1) (size rel)) (set_entry rel i e2)).
    destruct HR as (HSh & HP & HD). split; [by apply rel_shape_set|]. split.
    + intros j f [Hne Hj]%Hact. destruct (HP j f Hj) as [Hw' Hp']. split; [|done].
      assert (entry_packet_id f <> entry_packet_id e) by (intros Heq; by apply Hne, (HD j i f e)). lia.
    + intros j k f g [_ Hj]%Hact [_ Hk]%Hact. eauto.
  - cbn. split; [lia|done].
  - cbn. lia.
  - intros k [Hk|(j & f & Hj & Hk)]; [left; cbn; lia|].
    destruct (decide (j = i)) as [->|Hne].
    + left. cbn. destruct Hj as [Hj _], Hi as [Hi _]. assert (f = e) by congruence. subst. lia.
    + right. exists j, f. split; [|done]. change (active_at (set_entry rel i e2) j f).
      apply (active_at_set _ _ _ _ _ _ (proj1 Hi)). auto.
Qed.

(** The hand-over of a packet: done, or refused by an engine that does not take
    everything. *)
Lemma hand_over_spec BIO_write pre c post :
  fits pre c post ->
  exists b st,
    (if negb (zlen c =? 0) then key_state_write_ciphertext BIO_write (conc pre c post)
     else Ret (conc pre c post, 1)) = Ret (b, st) /\
    ((st = 1 /\ buf_wf b /\ capacity b = capacity (conc pre c post)) \/
     ((st = 0 \/ st = -1) /\ b = conc pre c post /\ ~ takes_all BIO_write)).
Proof using.
  intros Hw. destruct (zlen c =? 0) eqn:Ep; cbn [negb]; breflect.
  - eexists _, _. split; [reflexivity|]. left. split; [done|]. split; [by apply conc_wf|done].
  - destruct (write_ciphertext_spec BIO_write pre c post) as (b & st & -> & [(-> & post' & -> & Hl)|Hb] & Hall).
    + eexists _, _. split; [reflexivity|]. left. split; [done|]. cbn [capacity conc].
      split; [apply conc_wf; unfold fits in *; zlia|zlia].
    + eexists _, _. split; [reflexivity|]. right. destruct Hb as [Hst ->]. split_and!; try done.
      intros HB. specialize (Hall HB Ep). lia.
Qed.

Lemma deliver_ok own other p BIO_write :
  peer_inv bs hr own other p -> zlen other < 2 ^ 31 ->
  exists p' o, peer_do (EvDeliver BIO_write) p = Ret (p', o) /\ (forall acked, evolves acked own other p o p') /\
    (takes_all BIO_write -> holds (rec_reliable p) (rel_packet_id (rec_reliable p)) -> exists l, o = Delivered l).
Proof using Hframe.
  intros HP Hlt. cbn [peer_do]. unfold tls_deliver, reliable_get_buf_sequenced.
  pose proof HP as (HS & HRc & Haw & Har & Hab & Hac & Hh & Hs1 & Hs2).
  destruct (find_entry _ _) as [i|] eqn:Ef.
  2:{ eexists _, _. split; [reflexivity|]. split; [intros acked; by apply evolves_refl|].
      intros _ (i & e & [Hi Ha] & Hid). pose proof (find_entry_None _ _ _ _ Ef Hi) as Hn. cbn in Hn.
      rewrite Ha, Hid, Z.eqb_refl in Hn. done. }
  apply find_entry_Some in Ef as (e & Hi & Ha). apply andb_true_iff in Ha as [Ha Hid]; breflect.
  rewrite Hi. pose proof HRc as (HR & _).
  pose proof (proj1 (proj2 HR) _ _ (conj Hi Ha)) as (Hwin & pay & pre & post & Hpay & Hbuf).
  destruct (entry_buf _ _ _ _ _ HR Hi) as [Hw Hc]. rewrite Hbuf in *. rewrite buf_contents_conc.
  cbn [mbind outcome_mbind]. apply wf_fits in Hw. cbn [len conc].
  destruct (hand_over_spec BIO_write pre pay post Hw) as (b & st & Hh' & Hb).
  change (mkbuffer _ _ _ _) with (conc pre pay post). rewrite Hh'. cbn [mbind outcome_mbind].
  destruct Hb as [(-> & Hbw & Hbc)|(Hst & -> & Hnot)].
  - cbn [Z.eqb]. destruct (consume_spec other (rec_reliable p) i e b) as (rel' & -> & Hr1 & Hr2 & Hr3);
      try done; [congruence|].
    cbn [mbind outcome_mbind]. eexists _, _. split; [reflexivity|]. split; [|by eauto].
    intros acked. unfold evolves. cbn.
    split; [split_and!; try done|split_and!; try done; auto; congruence].
    eapply Forall_impl; [exact Har|]. auto.
  - assert (Hrel : set_entry (rec_reliable p) i (set_buf e (conc pre pay post)) = rec_reliable p).
    { rewrite <- Hbuf. by apply set_entry_same. }
    rewrite Hrel. replace (set_rec_rel p (rec_reliable p)) with p by (by destruct p).
    destruct Hst as [->| ->]; cbn [Z.eqb]; eexists _, _; (split; [reflexivity|]);
      (split; [intros acked|done]).
    + by apply evolves_refl.
    + pose proof (evolves_send acked own other p (send_reliable p) Error I HP HS eq_refl) as H.
      replace (set_send p (send_reliable p)) with p in H by (by destruct p). apply H. auto.
Qed.

(** ** The system invariant *)

Lemma received_nonneg own other p k : peer_inv bs hr own other p -> received (rec_reliable p) k -> 0 <= k.
Proof using.
  intros (_ & (HR & _ & Hd & _) & _) [Hk|(i & e & Hi & <-)]; [lia|].
  pose proof (proj1 (proj2 HR) _ _ Hi) as [Hw _]. lia.
Qed.

Lemma rcv_inv_app other l rel :
  rcv_inv bs hr other rel -> zlen l <= bs - hr -> rcv_inv bs hr (other ++ [l]) rel.
Proof using.
  intros (HR & Ho & Hd & Hall) Hl. split; [|split; [done|split]].
  - eapply rel_inv_weaken; [|exact HR]. intros e (Hw & pay & pre & post & Hp & Hb). split; [done|].
    exists pay, pre, post. split; [|done]. by apply lookup_app_l_Some.
  - rewrite zlen_app. zlen_facts. lia.
  - apply Forall_app. auto.
Qed.

Lemma wire_ok_mono sid rcv rcv' sent sent' pkt :
  (forall k, received rcv k -> received rcv' k) -> sent `prefix_of` sent' ->
  wire_ok sid rcv sent pkt -> wire_ok sid rcv' sent' pkt.
Proof using.
  intros Hr Hs (ids & tail & H1 & H2 & H3 & H4 & H5). exists ids, tail. split_and!; try done.
  - eapply Forall_impl; [exact H4|]. auto.
  - destruct H5 as [|(k & pay & Hk & Hp & ->)]; [by left|]. right. exists k, pay. split; [done|]. split; [|done].
    by eapply prefix_lookup_Some.
Qed.

(** The event of a peer in a good system: it succeeds. *)
Lemma peer_do_ok s ev :
  sys_inv bs hr s -> few s -> event_ok s ev ->
  exists p o, peer_do ev (peer_a s) = Ret (p, o) /\
    evolves (received (rec_reliable (peer_b s))) (sent_a s) (sent_b s) (peer_a s) o p.
Proof using Hframe.
  intros ((HP & _) & (_ & _ & _ & HN & _)) [Hfa Hfb] Hev. destruct ev; cbn in Hev.
  - destruct (queue_initial_ok _ _ _ op HP Hfa Hev) as (p & o & -> & H). eauto.
  - destruct Hev. edestruct (queue_ciphertext_ok _ _ _ BIO_read maxlen HP Hfa) as (p & o & -> & Hq); eauto.
  - destruct (transmit_ok _ _ _ now HP Hfa) as (p & o & -> & H & _). eauto.
  - destruct (acks_ok _ _ _ HP) as (p & o & -> & H). eauto.
  - cbn in HN. rewrite Forall_forall in HN. destruct (receive_ok _ _ _ _ _ HP Hfb (HN _ Hev)) as (p & o & -> & H & _). eauto.
  - destruct (deliver_ok _ _ _ BIO_write HP Hfb) as (p & o & -> & H & _). eauto.
Qed.

(** The other peer's side when this one outputs [o]. *)
Lemma other_side s o p :
  side_inv bs hr (swap s) ->
  evolves (received (rec_reliable (peer_b s))) (sent_a s) (sent_b s) (peer_a s) o p ->
  side_inv bs hr (swap (after s p o)).
Proof using.
  intros (HP & Hd & Hl & HN & Hsid) (HPp & Hh & Hr & Hho & Hs1 & Hs2 & Hpid & Hout). unfold side_inv in *.
  cbn [peer_a peer_b sent_a sent_b delivered_a delivered_b net_ab net_ba swap after] in *.
  assert (Hpre : sent_a s `prefix_of` (match o with Queued l => sent_a s ++ [l] | _ => sent_a s end))
    by (destruct o; try done; by apply prefix_app_r).
  split_and!.
  - destruct HP as (A1 & A2 & A3). split; [done|]. split; [|done].
    destruct o; try done. apply rcv_inv_app; [done|]. destruct HPp as ((_ & _ & _ & _ & Hall) & _).
    apply Forall_app in Hall as [_ Hall]. apply Forall_cons in Hall as [Hall _]. exact Hall.
  - rewrite Hd. destruct HP as (_ & (_ & _ & Hk & _) & _). destruct o; try done.
    by rewrite ztake_app_le by lia.
  - intros k Hk. destruct (Hl k Hk); auto.
  - rewrite Hs1. eapply Forall_impl; [exact HN|]. intros pkt. by apply wire_ok_mono.
  - congruence.
Qed.

Lemma this_side s o p :
  side_inv bs hr s ->
  evolves (received (rec_reliable (peer_b s))) (sent_a s) (sent_b s) (peer_a s) o p ->
  side_inv bs hr (after s p o).
Proof using.
  intros (HP & Hd & Hl & HN & Hsid) (HPp & Hh & Hr & Hho & Hs1 & Hs2 & Hpid & Hout). unfold side_inv.
  cbn [peer_a peer_b sent_a sent_b delivered_a delivered_b net_ab net_ba after].
  assert (HN' : Forall (wire_ok (session_id (peer_b s)) (rec_reliable p)
                  (match o with Queued l => sent_a s ++ [l] | _ => sent_a s end)) (net_ab s)).
  { eapply Forall_impl; [exact HN|]. intros pkt. apply wire_ok_mono; [done|].
    destruct o; try done. by apply prefix_app_r. }
  split_and!; try done.
  - rewrite Hpid, Hd. destruct HP as (_ & (_ & _ & Hk & _) & _).
    destruct o; rewrite ?Z.add_0_r; try done. unfold ztake.
    replace (Z.to_nat (rel_packet_id (rec_reliable (peer_a s)) + 1))
      with (S (Z.to_nat (rel_packet_id (rec_reliable (peer_a s))))) by lia.
    by rewrite (take_S_r _ _ _ Hout).
  - intros k Hk. assert (Hold : 0 <= k < zlen (sent_a s) -> holds (send_reliable p) k \/ received (rec_reliable (peer_b s)) k).
    { intros Hk'. destruct (Hl k Hk') as [H|H]; [|auto]. destruct (Hh k H); auto. }
    destruct o; auto. rewrite zlen_app in Hk. destruct (decide (k = zlen (sent_a s))) as [->|]; [auto|].
    apply Hold. unfold zlen in *; cbn in *; lia.
  - destruct o; try done. apply Forall_app. split; [done|]. constructor; [|done]. by rewrite <- Hsid.
  - congruence.
Qed.

Lemma sys_inv_swap s : sys_inv bs hr s -> sys_inv bs hr (swap s).
Proof using. intros [H1 H2]. split; [done|]. by destruct s. Qed.

Lemma few_step_a s s' : step_a s s' -> few s' -> few s.
Proof using.
  destruct 1 as [s ev p o _ _]. unfold few; cbn. destruct o; try done. rewrite zlen_app. zlen_facts. lia.
Qed.

Lemma sys_inv_step_a s s' : step_a s s' -> few s' -> sys_inv bs hr s -> sys_inv bs hr s'.
Proof using Hframe.
  intros Hst Hf HI. pose proof (few_step_a _ _ Hst Hf) as Hf0. destruct Hst as [s ev p o Hev Hdo].
  destruct (peer_do_ok s ev HI Hf0 Hev) as (p' & o' & Hdo' & He).
  rewrite Hdo in Hdo'. injection Hdo' as <- <-. destruct HI as [H1 H2].
  split; [by apply this_side|by apply other_side].
Qed.

Lemma few_swap s : few (swap s) <-> few s.
Proof using. unfold few; cbn. tauto. Qed.

Lemma few_step s s' : step s s' -> few s' -> few s.
Proof using.
  destruct 1 as [s s' H|s s' H]; [by apply few_step_a|].
  intros Hf. apply few_swap. apply (few_step_a _ s'); [done|]. by apply few_swap.
Qed.

Lemma sys_inv_reachable s s' : rtc step s s' -> few s' -> sys_inv bs hr s -> sys_inv bs hr s'.
Proof using Hframe.
  intros Hr. refine (rtc_ind_r (R := step) (fun s' => few s' -> sys_inv bs hr s -> sys_inv bs hr s') s _ _ s' Hr);
    [done|].
  clear s' Hr. intros s1 s2 _ Hst IH Hf HI. specialize (IH (few_step _ _ Hst Hf) HI).
  destruct Hst as [s1 s2 H|s1 s2 H]; [by eapply sys_inv_step_a|].
  apply sys_inv_swap. eapply sys_inv_step_a; [done|by apply few_swap|by apply sys_inv_swap].
Qed.

(** ** Progress *)

Lemma filter_insert_lt {A} (P : A -> Prop) `{!forall x, Decision (P x)} (l : list A) i x y :
  l !! i = Some x -> P x -> ~ P y -> (length (filter P (<[i := y]> l)) < length (filter P l))%nat.
Proof using.
  intros Hi Hx Hy. pose proof (lookup_lt_Some _ _ _ Hi).
  rewrite insert_take_drop by done. rewrite <- (take_drop_middle l i x Hi) at 3.
  rewrite !filter_app, !length_app. rewrite filter_cons_False, filter_cons_True by done. cbn. lia.
Qed.

(** Entries that are sent before packet [d]. *)
Definition ahead (T d : Z) (f : reliable_entry) : Prop := due T f = true /\ entry_packet_id f < d.

#[local] Instance ahead_dec T d f : Decision (ahead T d f).
Proof using. unfold ahead. apply _. Defined.

(** Peer A can do [ev] in a good state, which stays good. *)
Lemma do_step s ev p o :
  sys_inv bs hr s -> event_ok s ev -> peer_do ev (peer_a s) = Ret (p, o) -> few (after s p o) ->
  step s (after s p o) /\ sys_inv bs hr (after s p o).
Proof using Hframe.
  intros HI Hev Hdo Hf. assert (Hst : step_a s (after s p o)) by by econstructor.
  split; [by left|]. by eapply sys_inv_step_a.
Qed.

(** A packet with number [d] is on the way to peer B. *)
Definition on_the_way (s : system) (d : Z) : Prop :=
  exists op ids pay, (op, ack_record ids (session_id (peer_b s)) ++ be_bytes 4 d ++ pay) ∈ net_ab s /\
    op <> P_ACK_V1 /\ zlen ids <= RELIABLE_ACK_SIZE.

(** What only peer A's transmissions change. *)
Definition same_rest (s s' : system) : Prop :=
  sent_a s' = sent_a s /\ sent_b s' = sent_b s /\ peer_b s' = peer_b s /\ delivered_b s' = delivered_b s /\
  hold (send_reliable (peer_a s')) = hold (send_reliable (peer_a s)) /\ delivered_a s' = delivered_a s.

Lemma few_same_rest s s' : same_rest s s' -> few s -> few s'.
Proof using. intros (H1 & H2 & _). unfold few. by rewrite H1, H2. Qed.

Lemma transmit_until T d m : forall s i e,
  (length (filter (ahead T d) (entries (send_reliable (peer_a s)))) < m)%nat ->
  sys_inv bs hr s -> few s -> hold (send_reliable (peer_a s)) = false ->
  active_at (send_reliable (peer_a s)) i e -> entry_packet_id e = d -> next_try e <= T ->
  exists s', rtc step s s' /\ sys_inv bs hr s' /\ same_rest s s' /\ on_the_way s' d.
Proof using Hframe.
  induction m as [|m IH]; intros s i e Hm HI Hf Hho Hi Hd HT; [lia|].
  pose proof HI as ((HP & _ & _ & _ & Hsid) & _).
  assert (Hdue : due T e = true) by (unfold due; rewrite (proj2 Hi); by bdecide).
  destruct (transmit_ok _ _ _ T HP (proj1 Hf)) as (p & o & Hdo & Hev & Hse).
  destruct Hse as (i0 & e0 & e0' & ids & pay & Hi0 & Hd0 & Hmin & Hpay & Ho & Hids & Hop & Hsnd & Ha0 & Hid0 & Hn0); [|done|].
  { apply count_current_pos. exists e. split; [|done]. eapply list_elem_of_lookup_2. apply Hi. }
  set (s1 := after s p o). destruct (Hev (fun _ => True)) as (_ & _ & _ & Hho1 & _).
  assert (Hsame : same_rest s s1) by (unfold same_rest, s1; rewrite Ho; split_and!; done).
  destruct (do_step s (EvTransmit T) p _ HI I Hdo) as [Hst HI1]; [by eapply few_same_rest|].
  destruct (decide (entry_packet_id e0 = d)) as [E|Hne].
  - exists s1. split; [by apply rtc_once|]. split_and!; try done. exists (opcode e0), ids, pay.
    split_and!; try done. unfold s1. rewrite Ho. cbn [net_ab after peer_b]. apply elem_of_app. right.
    rewrite <- Hsid, <- E. apply list_elem_of_singleton. done.
  - assert (Hlt : entry_packet_id e0 < d) by (specialize (Hmin i e (proj1 Hi) Hdue); lia).
    destruct (IH s1 i e) as (s' & Hr & HI' & Hs' & Hw); try done.
    + cbn [s1 peer_a after]. rewrite Hsnd, entries_set_entry. eapply Nat.lt_le_trans; [|apply Nat.lt_succ_r, Hm].
      apply (filter_insert_lt _ _ _ e0); [apply Hi0|done|]. intros [Hdd _]. unfold due in Hdd.
      apply andb_true_iff in Hdd as [_ Hdd]. breflect. lia.
    + by eapply few_same_rest.
    + cbn [s1 peer_a after]. by rewrite Hho1.
    + cbn [s1 peer_a after]. rewrite Hsnd. apply (active_at_set _ _ _ _ _ _ (proj1 Hi0)). right. split; [|done].
      intros ->. destruct Hi as [Hi _], Hi0 as [Hi0 _]. congruence.
    + exists s'. split; [by eapply rtc_l|]. split_and!; try done.
      destruct Hsame as (A1 & A2 & A3 & A4 & A5 & A6), Hs' as (B1 & B2 & B3 & B4 & B5 & B6). unfold same_rest.
      split_and!; congruence.
Qed.

(** The packet a peer waits for, once in its buffer, is delivered to an engine that
    takes it. *)
Lemma deliver_next s :
  sys_inv bs hr s -> few s -> holds (rec_reliable (peer_b s)) (rel_packet_id (rec_reliable (peer_b s))) ->
  exists s' l, step s s' /\ sys_inv bs hr s' /\ sent_a s' = sent_a s /\ sent_b s' = sent_b s /\
    peer_a s' = peer_a s /\ delivered_a s' = delivered_a s /\ delivered_b s' = delivered_b s ++ [l].
Proof using Hframe.
  intros HI Hf Hh. pose proof (sys_inv_swap _ HI) as HI'. pose proof HI' as ((HP & _) & _).
  destruct (deliver_ok _ _ _ (fun l => inl (zlen l)) HP (proj1 Hf)) as (p & o & Hdo & _ & Hdel).
  destruct Hdel as [l ->]; [done|done|].
  destruct (do_step (swap s) (EvDeliver (fun l => inl (zlen l))) p _ HI' I Hdo) as [_ HI1]; [unfold few in *; cbn; tauto|].
  exists (swap (after (swap s) p (Delivered l))), l. split; [|split; [by apply sys_inv_swap|done]].
  apply step_right. by apply (step_a_intro _ (EvDeliver (fun l => inl (zlen l)))).
Qed.

Lemma receive_next s :
  let d := rel_packet_id (rec_reliable (peer_b s)) in
  sys_inv bs hr s -> few s -> on_the_way s d -> ~ holds (rec_reliable (peer_b s)) d ->
  exists s', step s s' /\ sys_inv bs hr s' /\ sent_a s' = sent_a s /\ sent_b s' = sent_b s /\
    peer_a s' = peer_a s /\ delivered_a s' = delivered_a s /\ delivered_b s' = delivered_b s /\
    holds (rec_reliable (peer_b s')) (rel_packet_id (rec_reliable (peer_b s'))).
Proof using Hframe.
  intros d HI Hf (op & ids & pay & Hin & Hop & Hids) Hno.
  pose proof (sys_inv_swap _ HI) as HI'. pose proof HI' as ((HP & _ & _ & _ & _) & (_ & _ & _ & HN & _)).
  rewrite Forall_forall in HN. cbn [net_ab swap] in HN. specialize (HN _ Hin).
  destruct (receive_ok _ _ _ _ _ HP (proj1 Hf) HN) as (p & o & Hdo & Hev & -> & Hacc).
  destruct (do_step (swap s) (EvReceive _) p _ HI' Hin Hdo) as [_ HI1]; [unfold few in *; cbn; tauto|].
  exists (swap (after (swap s) p Nothing)). split; [apply step_right; by eapply (step_a_intro _ (EvReceive _))|].
  split; [by apply sys_inv_swap|]. do 5 (split; [done|]).
  destruct Hev as (_ & _ & _ & _ & _ & _ & Hpid & _). cbn [swap after peer_a peer_b] in *.
  rewrite Z.add_0_r in Hpid. rewrite Hpid. fold d.
  pose proof HP as (_ & (HR & _ & Hd & _) & _). pose proof (proj1 (proj1 HR)) as Hsz. cbn [swap peer_a] in Hsz, Hd.
  destruct (Hacc ids d pay) as [Hk|]; try done.
  - unfold is_u32. unfold few in Hf. fold d in Hd. cbn [sent_b swap] in Hd. lia.
  - apply not_false_iff_true. intros Hcg. apply Hno. eapply window_pigeonhole; [exact HR| |done].
    intros e [He _]. done.
  - unfold d. cbn [swap peer_a]. lia.
  - rewrite Hpid in Hk. unfold d in Hk. lia.
Qed.

(** From every good state in which peer A may send, the next packet can still be
    delivered to B. *)
Lemma can_deliver_next s :
  sys_inv bs hr s -> few s -> hold (send_reliable (peer_a s)) = false ->
  zlen (delivered_b s) < zlen (sent_a s) ->
  exists s' l, rtc step s s' /\ sys_inv bs hr s' /\ sent_a s' = sent_a s /\ sent_b s' = sent_b s /\
    hold (send_reliable (peer_a s')) = false /\ delivered_a s' = delivered_a s /\ delivered_b s' = delivered_b s ++ [l].
Proof using Hframe.
  intros HI Hf Hho Hlt. set (d := rel_packet_id (rec_reliable (peer_b s))).
  pose proof HI as ((_ & _ & Hl & _) & (HPb & Hdb & _)).
  assert (Hd : 0 <= d < zlen (sent_a s)).
  { destruct HPb as (_ & (_ & _ & Hk & _) & _). cbn [delivered_a swap peer_a sent_b] in Hdb, Hk. fold d in Hk, Hdb.
    rewrite Hdb in Hlt. autorewrite with zlen in Hlt. lia. }
  assert (Hcase : holds (rec_reliable (peer_b s)) d \/ ~ holds (rec_reliable (peer_b s)) d).
  { destruct (find_entry (fun e => active e && (entry_packet_id e =? d)) (entries (rec_reliable (peer_b s)))) as [i|] eqn:E.
    - left. apply find_entry_Some in E as (e & Hi & Ha). apply andb_true_iff in Ha as [Ha Hid]. breflect. by exists i, e.
    - right. intros (i & e & [Hi Ha] & Hid). pose proof (find_entry_None _ _ _ _ E Hi) as Hn. cbn in Hn.
      rewrite Ha, Hid, Z.eqb_refl in Hn. done. }
  destruct Hcase as [Hh|Hno].
  - destruct (deliver_next s HI Hf Hh) as (s' & l & Hst & HI' & H1 & H2 & H3 & H4 & H5).
    exists s', l. split; [by apply rtc_once|]. split_and!; try done. by rewrite H3.
  - destruct (Hl d Hd) as [(i & e & Hi & He)|[Hr|Hr]]; [|unfold d in Hr; lia|done].
    destruct (transmit_until (next_try e) d (S (length (filter (ahead (next_try e) d) (entries (send_reliable (peer_a s))))))
                s i e) as (s1 & Hr1 & HI1 & Hs1 & Hw); try done; [lia..|].
    pose proof Hs1 as (A1 & A2 & A3 & A4 & A5 & A6).
    destruct (receive_next s1 HI1) as (s2 & Hst2 & HI2 & B1 & B2 & B3 & B4 & B5 & Hh2).
    { by eapply few_same_rest. } { by rewrite A3. } { by rewrite A3. }
    destruct (deliver_next s2 HI2) as (s3 & l & Hst3 & HI3 & C1 & C2 & C3 & C4 & C5); [|done|].
    { unfold few. rewrite B1, B2, A1, A2. apply Hf. }
    exists s3, l. split; [etrans; [exact Hr1|]; eapply rtc_l; [exact Hst2|]; by apply rtc_once|].
    split_and!; try congruence.
Qed.

Lemma can_deliver_all n : forall s,
  sys_inv bs hr s -> few s -> hold (send_reliable (peer_a s)) = false ->
  zlen (sent_a s) - zlen (delivered_b s) < Z.of_nat n ->
  exists s', rtc step s s' /\ sent_a s' = sent_a s /\ sent_b s' = sent_b s /\ delivered_a s' = delivered_a s /\
    delivered_b s' = sent_a s.
Proof using Hframe.
  induction n as [|n IH]; intros s HI Hf Hho Hn; pose proof HI as (_ & (HP & Hd & _));
    destruct HP as (_ & (_ & _ & Hk & _) & _); cbn [delivered_a swap peer_a sent_b] in Hd, Hk.
  { rewrite Hd in Hn. autorewrite with zlen in Hn. lia. }
  destruct (decide (zlen (delivered_b s) < zlen (sent_a s))) as [Hlt|Hge].
  - destruct (can_deliver_next s HI Hf Hho Hlt) as (s1 & l & Hr & HI1 & H1 & H2 & H3 & H4 & H5).
    destruct (IH s1 HI1) as (s2 & Hr2 & K1 & K2 & K3 & K4); [unfold few; by rewrite H1, H2|done|rewrite H1, H5; zlia|].
    exists s2. split; [by etrans|]. split_and!; congruence.
  - exists s. split; [done|]. do 3 (split; [done|]). rewrite Hd in Hge |- *. autorewrite with zlen in Hge.
    apply ztake_all. lia.
Qed.

(** ** The initial state *)

Lemma init_entries_spec n :
  exists l, reliable_init_entries n bs hr = Ret l /\ length l = n /\
    Forall (fun e => active e = false /\ buf_wf (buf e) /\ capacity (buf e) = bs) l.
Proof using Hframe.
  destruct frame_bounds as (H1 & H2 & H3). induction n as [|n (l & IH & Hl & HF)]; cbn [reliable_init_entries].
  { by exists []. }
  rewrite alloc_buf_conc by lia. cbn [mbind outcome_mbind]. rewrite buf_init_conc.
  autorewrite with zlen. cbn [app]. bdecide.
  cbn [c_assert mbind outcome_mbind]. rewrite IH. cbn [mbind outcome_mbind].
  eexists. split; [reflexivity|]. split; [cbn; by rewrite Hl|]. constructor; [|done].
  split; [done|]. split; [apply conc_wf; unfold fits; zlia|cbn; zlia].
Qed.

Lemma reliable_init_spec n h P :
  0 < n <= RELIABLE_CAPACITY ->
  exists rel, reliable_init bs hr n h = Ret rel /\ rel_inv bs P rel /\ rel_packet_id rel = 0 /\
    rel_offset rel = hr /\ size rel = n /\ hold rel = h.
Proof using Hframe.
  intros Hn. unfold reliable_init. unfold RELIABLE_CAPACITY in *. bdecide. cbn [c_assert mbind outcome_mbind].
  destruct (init_entries_spec (Z.to_nat n)) as (l & -> & Hl & HF). cbn [mbind outcome_mbind].
  eexists. split; [reflexivity|]. split; [|done].
  set (rel := mkreliable _ _ _ _ _ _).
  assert (He : entries rel = l).
  { unfold entries, rel; cbn. apply ztake_app_eq. unfold zlen. lia. }
  destruct frame_bounds as (H1 & H2 & H3).
  assert (Hno : forall i e, ~ active_at rel i e).
  { intros i e [Hi Ha]. rewrite He in Hi. rewrite Forall_forall in HF.
    destruct (HF e) as [Hf _]; [by eapply list_elem_of_lookup_2|]. congruence. }
  split; [|split; [intros i e Hi; by destruct (Hno i e)|intros i j e f Hi; by destruct (Hno i e)]].
  split; [done|]. split; [unfold rel, RELIABLE_CAPACITY; cbn; rewrite zlen_app, zlen_replicate; unfold zlen; lia|].
  split; [cbn; lia|]. split; [done|]. rewrite He. eapply Forall_impl; [exact HF|]. by intros e [_ ?].
Qed.

Lemma key_state_alloc_ok pt h sid sidr :
  0 < pt -> ack_sid_ok sid -> ack_sid_ok sidr ->
  exists p, key_state_alloc_reliable bs hr pt h sid sidr = Ret p /\ peer_inv bs hr [] [] p /\
    session_id p = sid /\ session_id_remote p = sidr /\ hold (send_reliable p) = h /\
    rel_packet_id (rec_reliable p) = 0.
Proof using Hframe.
  intros Hpt H1 H2. unfold key_state_alloc_reliable. destruct frame_bounds as (B1 & B2 & B3).
  rewrite alloc_buf_conc by lia. cbn [mbind outcome_mbind].
  destruct (reliable_init_spec TLS_RELIABLE_N_SEND_BUFFERS h (snd_ok hr [])) as (snd & -> & HS & S1 & S2 & _ & S3).
  { done. }
  destruct (reliable_init_spec TLS_RELIABLE_N_REC_BUFFERS false (rcv_ok [] 0 8)) as (rcv & -> & HR & R1 & R2 & R3 & R4).
  { done. }
  cbn [mbind outcome_mbind]. eexists. split; [reflexivity|]. split; [|done].
  split; [|split; [|split; [|split; [|split; [|split]]]]]; cbn; try done.
  - split; [by rewrite R1, R3|]. split; [done|]. split; [by rewrite R1|constructor].
  - split; [done|]. split; [apply NoDup_nil; exact I|done].
  - apply conc_wf. unfold fits. zlia.
  - autorewrite with zlen. lia.
Qed.
End Frame.

(** Two ends of a session: buffers of [bs] bytes with headroom [hr], each naming the
    other's session. *)
Definition session (bs hr pt : Z) (ha hb : bool) (sid_a sid_b : list Z) : outcome system :=
  p ← key_state_alloc_reliable bs hr pt ha sid_a sid_b;
  q ← key_state_alloc_reliable bs hr pt hb sid_b sid_a;
  Ret (sys_init p q).

Lemma session_inv bs hr pt ha hb sid_a sid_b s0 :
  frame_ok bs hr -> 0 < pt -> ack_sid_ok sid_a -> ack_sid_ok sid_b ->
  session bs hr pt ha hb sid_a sid_b = Ret s0 -> sys_inv bs hr s0.
Proof.
  intros HF Hpt Ha Hb. unfold session.
  destruct (key_state_alloc_ok bs hr HF pt ha sid_a sid_b Hpt Ha Hb) as (p & -> & HP & P1 & P2 & P3 & P4).
  destruct (key_state_alloc_ok bs hr HF pt hb sid_b sid_a Hpt Hb Ha) as (q & -> & HQ & Q1 & Q2 & Q3 & Q4).
  cbn [mbind outcome_mbind]. intros [= <-].
  assert (Hno : forall k, 0 <= k < zlen (@nil (list Z)) -> False) by (intros k Hk; unfold zlen in Hk; cbn in Hk; lia).
  split; (split_and!; [done|cbn; by rewrite ?P4, ?Q4|intros k Hk; by destruct (Hno k)|constructor|cbn; congruence]).
Qed.

(** ** The guarantees *)

(** C14: over a network that loses, duplicates and reorders packets, what a peer has
    delivered to its TLS engine is at every moment a prefix, in order and without
    repetition, of what the other peer has queued, in both directions. *)
Theorem control_channel_delivers_prefix (bs hr pt : Z) (ha hb : bool) (sid_a sid_b : list Z) (s0 s : system) :
  frame_ok bs hr -> 0 < pt -> ack_sid_ok sid_a -> ack_sid_ok sid_b ->
  session bs hr pt ha hb sid_a sid_b = Ret s0 -> rtc step s0 s -> few s ->
  delivered_b s `prefix_of` sent_a s /\ delivered_a s `prefix_of` sent_b s.
Proof.
  intros HF Hpt Ha Hb H0 Hr Hf.
  destruct (sys_inv_reachable bs hr HF _ _ Hr Hf (session_inv _ _ _ _ _ _ _ _ HF Hpt Ha Hb H0)) as [HA HB].
  destruct HA as (_ & -> & _), HB as (_ & HB & _). cbn in HB. rewrite HB.
  split; eexists; symmetry; apply ztake_zdrop.
Qed.

(** C15: no packet is forgotten before it has arrived: every payload a peer queued is
    still in its send buffer, or has been delivered to the other peer's TLS engine
    at its place, or waits in the other peer's receive buffer. *)
Theorem control_channel_keeps_until_received (bs hr pt : Z) (ha hb : bool) (sid_a sid_b : list Z)
    (s0 s : system) (k : nat) (payload : list Z) :
  frame_ok bs hr -> 0 < pt -> ack_sid_ok sid_a -> ack_sid_ok sid_b ->
  session bs hr pt ha hb sid_a sid_b = Ret s0 -> rtc step s0 s -> few s ->
  sent_a s !! k = Some payload ->
  holds (send_reliable (peer_a s)) (Z.of_nat k) \/ delivered_b s !! k = Some payload \/
  holds (rec_reliable (peer_b s)) (Z.of_nat k).
Proof.
  intros HF Hpt Ha Hb H0 Hr Hf Hk.
  destruct (sys_inv_reachable bs hr HF _ _ Hr Hf (session_inv _ _ _ _ _ _ _ _ HF Hpt Ha Hb H0)) as [HA HB].
  destruct HA as (_ & _ & Hl & _), HB as (_ & HB & _). cbn in HB.
  pose proof (lookup_lt_Some _ _ _ Hk).
  destruct (Hl (Z.of_nat k)) as [|[Hd|]]; [unfold zlen; lia|auto| |auto].
  right; left. rewrite HB. unfold ztake. rewrite lookup_take_lt by lia. done.
Qed.

(** C16: no operation of the control channel terminates the process or leaves its
    buffers: in every reachable state, every possible event of a peer (any answer
    of the TLS engine, any packet of the other peer, at any time) returns. *)
Theorem control_channel_never_fails (bs hr pt : Z) (ha hb : bool) (sid_a sid_b : list Z)
    (s0 s : system) (ev : event) :
  frame_ok bs hr -> 0 < pt -> ack_sid_ok sid_a -> ack_sid_ok sid_b ->
  session bs hr pt ha hb sid_a sid_b = Ret s0 -> rtc step s0 s -> few s -> event_ok s ev ->
  exists p o, peer_do ev (peer_a s) = Ret (p, o).
Proof.
  intros HF Hpt Ha Hb H0 Hr Hf Hev.
  pose proof (sys_inv_reachable bs hr HF _ _ Hr Hf (session_inv _ _ _ _ _ _ _ _ HF Hpt Ha Hb H0)) as HI.
  destruct (peer_do_ok bs hr HF s ev HI Hf Hev) as (p & o & Hdo & _). eauto.
Qed.

Lemma hold_step_a bs hr s s' :
  frame_ok bs hr -> step_a s s' -> few s' -> sys_inv bs hr s ->
  hold (send_reliable (peer_a s')) = hold (send_reliable (peer_a s)) /\ peer_b s' = peer_b s.
Proof.
  intros HF Hst Hf HI. pose proof (few_step_a _ _ Hst Hf) as Hf0. destruct Hst as [s ev p o Hev Hdo].
  destruct (peer_do_ok bs hr HF s ev HI Hf0 Hev) as (p' & o' & Hdo' & He).
  rewrite Hdo in Hdo'. injection Hdo' as <- <-. split; [apply He|done].
Qed.

Lemma hold_reachable bs hr s s' :
  frame_ok bs hr -> rtc step s s' -> few s' -> sys_inv bs hr s ->
  hold (send_reliable (peer_a s')) = hold (send_reliable (peer_a s)).
Proof.
  intros HF Hr. induction Hr as [|s1 s2 s3 Hst Hr IH]; intros Hf HI; [done|].
  assert (Hf2 : few s2).
  { clear -Hr Hf. induction Hr as [|a b c Hs Hr IH]; [done|]. eapply few_step; [done|]. auto. }
  rewrite IH; [|done|eapply (sys_inv_reachable bs hr HF); [by apply rtc_once|done..]].
  destruct Hst as [s1 s2 H|s1 s2 H].
  - by destruct (hold_step_a bs hr _ _ HF H Hf2 HI).
  - apply few_swap in Hf2. destruct (hold_step_a bs hr _ _ HF H) as [_ Hb]; [by destruct s2|by apply sys_inv_swap|].
    cbn in *. by rewrite Hb.
Qed.

Lemma step_swap s s' : step s s' -> step (swap s) (swap s').
Proof. intros [s1 s2 H|s1 s2 H]; [apply step_right|apply step_left; destruct s2]; by destruct s1. Qed.

Lemma rtc_swap s s' : rtc step s s' -> rtc step (swap s) (swap s').
Proof. induction 1; [done|]. eapply rtc_l; [by apply step_swap|done]. Qed.

(** One direction, if its sender may send; the other one is as it was. *)
Lemma finish_direction bs hr s0 s :
  frame_ok bs hr -> sys_inv bs hr s0 -> rtc step s0 s -> few s ->
  exists s', rtc step s s' /\ sent_a s' = sent_a s /\ sent_b s' = sent_b s /\ delivered_a s' = delivered_a s /\
    (hold (send_reliable (peer_a s0)) = false -> delivered_b s' = sent_a s).
Proof.
  intros HF HI0 Hr Hf. pose proof (sys_inv_reachable bs hr HF _ _ Hr Hf HI0) as HI.
  destruct (hold (send_reliable (peer_a s0))) eqn:Eh; [by exists s|].
  destruct (can_deliver_all bs hr HF (S (Z.to_nat (zlen (sent_a s) - zlen (delivered_b s)))) s HI Hf)
    as (s' & H1 & H2 & H3 & H4 & H5); [by rewrite (hold_reachable bs hr _ _ HF Hr Hf HI0)|lia|].
  by exists s'.
Qed.

(** C17: the channel cannot get stuck: from every reachable state (whatever was
    lost, and whatever acknowledgements are outstanding) there is one continuation
    in which everything queued so far by a peer that does not hold its transmissions
    ([xmit_hold]) is delivered to the other, in both directions when neither peer holds them. *)
Theorem control_channel_can_always_finish (bs hr pt : Z) (ha hb : bool) (sid_a sid_b : list Z) (s0 s : system) :
  frame_ok bs hr -> 0 < pt -> ack_sid_ok sid_a -> ack_sid_ok sid_b ->
  session bs hr pt ha hb sid_a sid_b = Ret s0 -> rtc step s0 s -> few s ->
  exists s', rtc step s s' /\ sent_a s' = sent_a s /\ sent_b s' = sent_b s /\
    (ha = false -> delivered_b s' = sent_a s) /\ (hb = false -> delivered_a s' = sent_b s).
Proof.
  intros HF Hpt Ha Hb H0 Hr Hf. pose proof (session_inv _ _ _ _ _ _ _ _ HF Hpt Ha Hb H0) as HI0.
  assert (Hh : hold (send_reliable (peer_a s0)) = ha /\ hold (send_reliable (peer_b s0)) = hb).
  { revert H0. unfold session.
    destruct (key_state_alloc_ok bs hr HF pt ha sid_a sid_b Hpt Ha Hb) as (p & -> & _ & _ & _ & Hp & _).
    destruct (key_state_alloc_ok bs hr HF pt hb sid_b sid_a Hpt Hb Ha) as (q & -> & _ & _ & _ & Hq & _).
    cbn. by intros [= <-]. }
  destruct (finish_direction bs hr s0 s HF HI0 Hr Hf) as (s1 & R1 & A1 & A2 & A3 & A4).
  assert (Hf1 : few s1) by (unfold few; by rewrite A1, A2).
  destruct (finish_direction bs hr (swap s0) (swap s1) HF) as (s2 & R2 & B1 & B2 & B3 & B4).
  { by apply sys_inv_swap. } { apply rtc_swap. by etrans. } { by apply few_swap. }
  exists (swap s2). split; [etrans; [exact R1|]; apply rtc_swap in R2; by destruct s1|].
  destruct Hh as [<- <-]. cbn in *. split_and!; [congruence|congruence|intros H; rewrite B3; by apply A4|].
  intros H. rewrite <- A2. by apply B4.
Qed.

(** ** A concrete session *)

(** Scripted moves of one peer; [MReceive n] takes the [n]-th packet the other one
    sent. *)
Inductive move : Type :=
| MQueue (l : list Z)
| MTransmit (now : Z)
| MAcks
| MReceive (n : nat)
| MDeliver.

Definition move_event (s : system) (m : move) : event :=
  match m with
  | MQueue l => EvQueue (fun n => BIO_data (ztake n l)) 100
  | MTransmit now => EvTransmit now
  | MAcks => EvAcks
  | MReceive n => match net_ba s !! n with Some pkt => EvReceive pkt | None => EvAcks end
  | MDeliver => EvDeliver (fun l => inl (zlen l))
  end.

Fixpoint play (ms : list (bool * move)) (s : system) : outcome system :=
  match ms with
  | [] => Ret s
  | (a, m) :: ms =>
      let s := if a : bool then s else swap s in
      '(p, o) ← peer_do (move_event s m) (peer_a s);
      let s := after s p o in
      play ms (if a then s else swap s)
  end.

Lemma move_event_ok s m : event_ok s (move_event s m).
Proof.
  destruct m; cbn; try done.
  - split; [lia|]. intros n l' Hn [= <-]. zlia.
  - destruct (net_ba s !! n) eqn:E; cbn; [|done]. by eapply list_elem_of_lookup_2.
Qed.

Lemma play_reachable ms : forall s s', play ms s = Ret s' -> rtc step s s'.
Proof.
  induction ms as [|[[] m] ms IH]; intros s s'; cbn [play]; [by intros [= ->]|..];
    (destruct (peer_do _ _) as [[p o]| |] eqn:E; cbn [mbind outcome_mbind]; [|done|done]);
    intros Hp; (eapply rtc_l; [|by apply IH]).
  - left. econstructor; [apply (move_event_ok s m)|done].
  - right. econstructor; [apply (move_event_ok (swap s) m)|done].
Qed.

Definition sid_1 : list Z := [1; 2; 3; 4; 5; 6; 7; 8].
Definition sid_2 : list Z := [11; 12; 13; 14; 15; 16; 17; 18].

(** A queues three packets; the second arrives first, twice; the first is lost once
    and retransmitted. *)
Definition sample_moves : list (bool * move) :=
  [(true, MQueue [7; 7]); (true, MQueue [8]); (true, MQueue [9; 9; 9]);
   (true, MTransmit 100); (true, MTransmit 100);
   (false, MReceive 1); (false, MDeliver); (false, MReceive 1);
   (false, MQueue [5]); (false, MTransmit 100); (true, MReceive 0); (true, MDeliver);
   (true, MTransmit 103); (false, MReceive 2); (false, MDeliver); (false, MDeliver);
   (false, MAcks); (true, MReceive 1)].

Definition sample_run : outcome (system * system) :=
  s0 ← session 128 64 2 false false sid_1 sid_2; s ← play sample_moves s0; Ret (s0, s).

Lemma sample_run_ends :
  exists s0 s, session 128 64 2 false false sid_1 sid_2 = Ret s0 /\ rtc step s0 s /\ few s /\
    sample_run = Ret (s0, s) /\ (sent_a s, delivered_b s) = ([[7; 7]; [8]; [9; 9; 9]], [[7; 7]; [8]]).
Proof.
  assert (H : exists s0 s, session 128 64 2 false false sid_1 sid_2 = Ret s0 /\ play sample_moves s0 = Ret s /\
    few s /\ (sent_a s, delivered_b s) = ([[7; 7]; [8]; [9; 9; 9]], [[7; 7]; [8]])).
  { eexists _, _. split; [vm_compute; reflexivity|]. split; [vm_compute; reflexivity|].
    split; [split; vm_compute; reflexivity|vm_compute; reflexivity]. }
  destruct H as (s0 & s & H1 & H2 & H3 & H4). exists s0, s. split_and!; try done.
  - by apply play_reachable in H2.
  - unfold sample_run. rewrite H1. cbn [mbind outcome_mbind]. by rewrite H2.
Qed.

Lemma sample_frame : frame_ok 128 64 /\ ack_sid_ok sid_1 /\ ack_sid_ok sid_2.
Proof. unfold frame_ok, ack_sid_ok, BUF_SIZE_MAX; cbn. split_and!; try done; lia. Qed.

Lemma control_channel_delivers_prefix_witness :
  exists s0 s, sample_run = Ret (s0, s) /\ delivered_b s = [[7; 7]; [8]] /\
    delivered_b s `prefix_of` sent_a s /\ delivered_a s `prefix_of` sent_b s.
Proof.
  destruct sample_run_ends as (s0 & s & H0 & Hr & Hf & Hs & Hd), sample_frame as (HF & H1 & H2).
  exists s0, s. split; [exact Hs|]. split; [congruence|].
  apply (control_channel_delivers_prefix 128 64 2 false false sid_1 sid_2 s0 s); try assumption. lia.
Defined.

Lemma control_channel_keeps_until_received_witness :
  exists s0 s, sample_run = Ret (s0, s) /\
    (holds (send_reliable (peer_a s)) (Z.of_nat 2) \/ delivered_b s !! 2%nat = Some [9; 9; 9] \/
     holds (rec_reliable (peer_b s)) (Z.of_nat 2)).
Proof.
  destruct sample_run_ends as (s0 & s & H0 & Hr & Hf & Hs & Hd), sample_frame as (HF & H1 & H2).
  exists s0, s. split; [exact Hs|].
  apply (control_channel_keeps_until_received 128 64 2 false false sid_1 sid_2 s0 s); try assumption; [lia|].
  injection Hd as -> _. reflexivity.
Defined.

Lemma control_channel_never_fails_witness :
  exists s0 s, sample_run = Ret (s0, s) /\ exists p o, peer_do (EvTransmit 200) (peer_a s) = Ret (p, o).
Proof.
  destruct sample_run_ends as (s0 & s & H0 & Hr & Hf & Hs & Hd), sample_frame as (HF & H1 & H2).
  exists s0, s. split; [exact Hs|].
  apply (control_channel_never_fails 128 64 2 false false sid_1 sid_2 s0 s); try assumption; [lia|exact I].
Defined.

Lemma control_channel_can_always_finish_witness :
  exists s0 s, sample_run = Ret (s0, s) /\
    exists s', rtc step s s' /\ sent_a s' = sent_a s /\ delivered_b s' = sent_a s /\ delivered_a s' = sent_b s.
Proof.
  destruct sample_run_ends as (s0 & s & H0 & Hr & Hf & Hs & Hd), sample_frame as (HF & H1 & H2).
  exists s0, s. split; [exact Hs|].
  destruct (control_channel_can_always_finish 128 64 2 false false sid_1 sid_2 s0 s) as (s' & R & E1 & _ & E2 & E3);
    try assumption; [lia|].
  exists s'. exact (conj R (conj E1 (conj (E2 eq_refl) (E3 eq_refl)))).
Defined.
