(* ===== verification/Fragment.v ===== *)
(** * Datagram fragmentation ([fragment.h], [fragment.c])

    Outgoing datagrams that exceed the dynamic payload size are cut into up to 32
    fragments with a 4-byte header; incoming fragments are collected in a window of
    25 reassembly buffers indexed by their sequence number.  The macros that read a
    [struct frame] ([PAYLOAD_SIZE_DYNAMIC], [FRAME_HEADROOM], [FRAME_HEADROOM_ADJ],
    [BUF_SIZE]) are the fields of [frame].  [now] is the program's cached clock. *)
From S2P Require Import Prelude Integer Buffer.

Definition N_FRAG_BUF : Z := 25.
Definition FRAG_TTL_SEC : Z := 10.
Definition MAX_FRAGS : Z := 32.
Definition N_SEQ_ID : Z := 256.
Definition FRAG_MAP_MASK : Z := 0xFFFFFFFF.
Definition FRAG_TYPE_MASK : Z := 0x3.
Definition FRAG_TYPE_SHIFT : Z := 0.
Definition FRAG_WHOLE : Z := 0.
Definition FRAG_YES_NOTLAST : Z := 1.
Definition FRAG_YES_LAST : Z := 2.
Definition FRAG_SEQ_ID_MASK : Z := 0xff.
Definition FRAG_SEQ_ID_SHIFT : Z := 2.
Definition FRAG_ID_MASK : Z := 0x1f.
Definition FRAG_ID_SHIFT : Z := 10.
Definition FRAG_SIZE_MASK : Z := 0x3fff.
Definition FRAG_SIZE_SHIFT : Z := 15.
Definition FRAG_SIZE_ROUND_SHIFT : Z := 2.
Definition FRAG_SIZE_ROUND_MASK : Z := Z.shiftl 1 FRAG_SIZE_ROUND_SHIFT - 1.

Record frame : Type := mkframe {
  PAYLOAD_SIZE_DYNAMIC : Z;
  FRAME_HEADROOM : Z;
  FRAME_HEADROOM_FRAGMENT : Z;
  BUF_SIZE : Z
}.

(** [struct fragment] *)
Record fragment : Type := mkfrag {
  defined : bool;
  max_frag_size : Z;
  map : Z;
  timestamp : Z;
  frag_buf : buffer
}.

(** [struct fragment_list] *)
Record fragment_list : Type := mkflist { seq_id : Z; index : Z; fragments : list fragment }.

(** [struct fragment_master]; its wake-up timer is outside this model. *)
Record fragment_master : Type := mkmaster {
  outgoing_seq_id : Z;
  outgoing_frag_size : Z;
  outgoing_frag_id : Z;
  outgoing : buffer;
  outgoing_return : buffer;
  incoming : fragment_list
}.

Definition set_defined (f : fragment) (d : bool) : fragment :=
  mkfrag d (max_frag_size f) (map f) (timestamp f) (frag_buf f).

Definition set_incoming (m : fragment_master) (l : fragment_list) : fragment_master :=
  mkmaster (outgoing_seq_id m) (outgoing_frag_size m) (outgoing_frag_id m)
    (outgoing m) (outgoing_return m) l.

Definition set_fragment (l : fragment_list) (i : Z) (f : fragment) : fragment_list :=
  mkflist (seq_id l) (index l) (<[Z.to_nat i := f]> (fragments l)).

(** ** Set-up *)

Definition fragment_zero : fragment := mkfrag false 0 0 0 (mkbuffer 0 0 0 None).

(** [fragment_init]: [random] is the value of [get_random]. *)
Definition fragment_init (random : Z) : fragment_master :=
  mkmaster (Z.land random (N_SEQ_ID - 1)) 0 0 (mkbuffer 0 0 0 None) (mkbuffer 0 0 0 None)
    (mkflist 0 0 (replicate (Z.to_nat N_FRAG_BUF) fragment_zero)).

Fixpoint fragment_list_buf_init (l : list fragment) (size : Z) : outcome (list fragment) :=
  match l with
  | [] => Ret []
  | f :: l =>
      b ← alloc_buf size;
      l ← fragment_list_buf_init l size;
      Ret (mkfrag (defined f) (max_frag_size f) (map f) (timestamp f) b :: l)
  end.

Definition fragment_frame_init (m : fragment_master) (fr : frame) : outcome fragment_master :=
  l ← fragment_list_buf_init (fragments (incoming m)) (BUF_SIZE fr);
  b1 ← alloc_buf (BUF_SIZE fr);
  b2 ← alloc_buf (BUF_SIZE fr);
  Ret (mkmaster (outgoing_seq_id m) (outgoing_frag_size m) (outgoing_frag_id m) b1 b2
         (mkflist (seq_id (incoming m)) (index (incoming m)) l)).

(** ** The reassembly window *)

(** The [while (diff > 0)] loop. *)
Fixpoint fragment_list_advance (n : nat) (l : fragment_list) : outcome fragment_list :=
  match n with
  | O => Ret l
  | S n =>
      i ← modulo_add (index l) 1 N_FRAG_BUF;
      f ← array_get (fragments l) i;
      s ← modulo_add (seq_id l) 1 N_SEQ_ID;
      fragment_list_advance n (mkflist s i (<[Z.to_nat i := set_defined f false]> (fragments l)))
  end.

(** The new list and the index of the buffer. *)
Definition fragment_list_get_buf (l : fragment_list) (sid : Z) : outcome (fragment_list * Z) :=
  diff ← modulo_subtract sid (seq_id l) N_SEQ_ID;
  let '(l, diff) :=
    if N_FRAG_BUF <=? Z.abs diff
    then (mkflist sid 0 ((fun f => set_defined f false) <$> fragments l), 0)
    else (l, diff) in
  l ← fragment_list_advance (Z.to_nat diff) l;
  i ← modulo_add (index l) (if 0 <? diff then 0 else diff) N_FRAG_BUF;
  Ret (l, i).

(** ** Incoming fragments *)

(** The header fields. *)
Definition hdr_type (flags : Z) : Z := Z.land (Z.shiftr flags FRAG_TYPE_SHIFT) FRAG_TYPE_MASK.
Definition hdr_seq_id (flags : Z) : Z := Z.land (Z.shiftr flags FRAG_SEQ_ID_SHIFT) FRAG_SEQ_ID_MASK.
Definition hdr_id (flags : Z) : Z := Z.land (Z.shiftr flags FRAG_ID_SHIFT) FRAG_ID_MASK.
Definition hdr_size (flags : Z) : Z :=
  Z.shiftl (Z.land (Z.shiftr flags FRAG_SIZE_SHIFT) FRAG_SIZE_MASK) FRAG_SIZE_ROUND_SHIFT.

(** The new state and the new [*buf]: the reassembled datagram, a whole datagram,
    or an empty buffer.  A completed datagram shares its bytes with the reassembly
    buffer, which is no longer [defined]. *)
Definition fragment_incoming (now : Z) (m : fragment_master) (buf : buffer) (fr : frame)
  : outcome (fragment_master * buffer) :=
  if 0 <? len buf
  then
    '(buf, r) ← buf_read buf 4;
    match r with
    | None => Ret (m, set_len buf 0)
    | Some hdr =>
        let flags := be_value hdr in
        let frag_type := hdr_type flags in
        if frag_type =? FRAG_WHOLE
        then
          if negb (Z.land flags (Z.lor FRAG_SEQ_ID_MASK FRAG_ID_MASK) =? 0)
          then Ret (m, set_len buf 0)
          else Ret (m, buf)
        else if (frag_type =? FRAG_YES_NOTLAST) || (frag_type =? FRAG_YES_LAST)
        then
          let sid := hdr_seq_id flags in
          let n := hdr_id flags in
          let size := if frag_type =? FRAG_YES_LAST then hdr_size flags else len buf in
          '(l, i) ← fragment_list_get_buf (incoming m) sid;
          frag ← array_get (fragments l) i;
          if negb (Z.land size FRAG_SIZE_ROUND_MASK =? 0)
          then Ret (set_incoming m l, set_len buf 0)
          else
            frag ← (if negb (defined frag) || negb (max_frag_size frag =? size)
                    then
                      let '(b, ok) := buf_init (frag_buf frag) (FRAME_HEADROOM_FRAGMENT fr) in
                      _ ← c_assert ok;
                      Ret (mkfrag true size 0 (timestamp frag) b)
                    else Ret frag);
            '(b, ok) ← buf_copy_range (frag_buf frag) (n * size) buf 0 (len buf);
            let frag := mkfrag (defined frag) (max_frag_size frag) (map frag) (timestamp frag) b in
            if negb ok then Ret (set_incoming m (set_fragment l i frag), set_len buf 0)
            else
              let bits := u32 (Z.shiftl (if frag_type =? FRAG_YES_LAST then FRAG_MAP_MASK else 1) n) in
              let frag := mkfrag (defined frag) (max_frag_size frag) (Z.lor (map frag) bits) now b in
              if Z.land (map frag) FRAG_MAP_MASK =? FRAG_MAP_MASK
              then Ret (set_incoming m (set_fragment l i (set_defined frag false)), b)
              else Ret (set_incoming m (set_fragment l i frag), set_len buf 0)
        else Ret (m, set_len buf 0)
    end
  else Ret (m, buf).

(** ** Outgoing datagrams *)

(** The header as [fragment_prepend_flags] packs it. *)
Definition frag_flags (type sid frag_id frag_size : Z) : Z :=
  let flags :=
    Z.lor (Z.lor (Z.shiftl (Z.land type FRAG_TYPE_MASK) FRAG_TYPE_SHIFT)
             (Z.shiftl (Z.land sid FRAG_SEQ_ID_MASK) FRAG_SEQ_ID_SHIFT))
      (Z.shiftl (Z.land frag_id FRAG_ID_MASK) FRAG_ID_SHIFT) in
  if (type =? FRAG_WHOLE) || (type =? FRAG_YES_NOTLAST)
  then flags
  else Z.lor flags
         (Z.shiftl (Z.land (Z.shiftr frag_size FRAG_SIZE_ROUND_SHIFT) FRAG_SIZE_MASK) FRAG_SIZE_SHIFT).

Definition fragment_prepend_flags (buf : buffer) (type sid frag_id frag_size : Z) : outcome buffer :=
  '(buf, ok) ← buf_write_prepend buf (be_bytes 4 (frag_flags type sid frag_id frag_size));
  _ ← c_assert ok;
  Ret buf.

(** A division by zero is undefined. *)
Definition optimal_fragment_size (len mfs : Z) : outcome Z :=
  let mfs_aligned := Z.land mfs (Z.lnot FRAG_SIZE_ROUND_MASK) in
  if mfs_aligned =? 0 then Oob
  else
    let div := Z.quot len mfs_aligned in
    let rem := Z.rem len mfs_aligned in
    if (0 <? div) && (0 <? rem) && (rem <? Z.quot (mfs_aligned * 3) 4)
    then Ret (min_int mfs_aligned
                (Z.land (mfs - Z.quot (mfs - rem) (div + 1) + FRAG_SIZE_ROUND_MASK)
                   (Z.lnot FRAG_SIZE_ROUND_MASK)))
    else Ret mfs_aligned.

Definition fragment_outgoing_defined (m : fragment_master) : bool := 0 <? len (outgoing m).

(** The new state, and the new [*buf] when there is a fragment to send.  [*buf] is
    a copy of the header of [outgoing_return], whose bytes it shares. *)
Definition fragment_ready_to_send (m : fragment_master) (fr : frame) : outcome (fragment_master * option buffer) :=
  if fragment_outgoing_defined m
  then
    let last := len (outgoing m) <=? outgoing_frag_size m in
    let size := if last then len (outgoing m) else outgoing_frag_size m in
    let '(b, ok) := buf_init (outgoing_return m) (FRAME_HEADROOM fr) in
    _ ← c_assert ok;
    '(b, out, ok) ← buf_copy_n b (outgoing m) size;
    _ ← c_assert ok;
    b ← fragment_prepend_flags b (if last then FRAG_YES_LAST else FRAG_YES_NOTLAST)
          (outgoing_seq_id m) (outgoing_frag_id m) (outgoing_frag_size m);
    let ret := outgoing_return m in
    let ret := mkbuffer (capacity ret) (offset ret) (len ret) (data b) in
    _ ← c_assert (negb last || (len out =? 0));
    Ret (mkmaster (outgoing_seq_id m) (outgoing_frag_size m) (outgoing_frag_id m + 1) out ret (incoming m), Some b)
  else Ret (m, None).

(** The new state and the new [*buf]. *)
Definition fragment_outgoing (m : fragment_master) (buf : buffer) (fr : frame)
  : outcome (fragment_master * buffer) :=
  if 0 <? len buf
  then
    if PAYLOAD_SIZE_DYNAMIC fr <? len buf
    then
      fs ← optimal_fragment_size (len buf) (PAYLOAD_SIZE_DYNAMIC fr);
      let m := mkmaster (outgoing_seq_id m) fs (outgoing_frag_id m) (outgoing m) (outgoing_return m) (incoming m) in
      if fs * MAX_FRAGS <? len buf
      then Ret (m, set_len buf 0)
      else
        let '(out, ok) := buf_init (outgoing m) (FRAME_HEADROOM fr) in
        _ ← c_assert ok;
        '(out, ok) ← buf_copy out buf;
        _ ← c_assert ok;
        sid ← modulo_add (outgoing_seq_id m) 1 N_SEQ_ID;
        let m := mkmaster sid fs 0 out (outgoing_return m) (incoming m) in
        '(m, r) ← fragment_ready_to_send m fr;
        match r with
        | Some b => Ret (m, b)
        | None => Fatal
        end
    else b ← fragment_prepend_flags buf FRAG_WHOLE 0 0 0; Ret (m, b)
  else Ret (m, buf).

(** ** Housekeeping *)

Definition fragment_ttl_reap (now : Z) (m : fragment_master) : fragment_master :=
  set_incoming m (mkflist (seq_id (incoming m)) (index (incoming m))
    ((fun f => if defined f && (timestamp f + FRAG_TTL_SEC <=? now) then set_defined f false else f)
       <$> fragments (incoming m))).

Definition fragment_wakeup (now : Z) (m : fragment_master) : fragment_master := fragment_ttl_reap now m.
