(* ===== verification/FragmentSpec.v ===== *)
(** * Correctness of fragmentation

    The header fields survive packing, the fragment size keeps the number of
    fragments, a datagram cut into fragments is reassembled from any arrival order,
    and no sequence of received bytes makes the reassembly fail or leave its
    buffers. *)
From S2P Require Import Prelude Integer Buffer Fragment.

(** ** The header *)

Lemma frag_flags_value t s i z :
  0 <= t < 4 -> 0 <= s < 256 -> 0 <= i < 32 ->
  frag_flags t s i z =
    t + s * 4 + i * 1024 +
    (if (t =? FRAG_WHOLE) || (t =? FRAG_YES_NOTLAST) then 0 else (z / 4) mod 2 ^ 14 * 2 ^ 15).
Proof.
  intros Ht Hs Hi. unfold frag_flags, FRAG_TYPE_MASK, FRAG_TYPE_SHIFT, FRAG_SEQ_ID_MASK, FRAG_SEQ_ID_SHIFT,
    FRAG_ID_MASK, FRAG_ID_SHIFT, FRAG_SIZE_MASK, FRAG_SIZE_SHIFT, FRAG_SIZE_ROUND_SHIFT.
  change 0x3 with (2 ^ 2 - 1). change 0xff with (2 ^ 8 - 1). change 0x1f with (2 ^ 5 - 1).
  change 0x3fff with (2 ^ 14 - 1).
  rewrite !land_mask by lia. rewrite Z.shiftl_0_r, (Z.mod_small t), (Z.mod_small s), (Z.mod_small i) by lia.
  rewrite (lor_shiftl_add t) by lia. rewrite (lor_shiftl_add _ i) by lia.
  rewrite Z.shiftr_div_pow2 by lia.
  destruct (_ || _); [lia|]. rewrite lor_shiftl_add by lia. change (2 ^ 2) with 4. lia.
Qed.

Lemma frag_flags_u32 t s i z :
  0 <= t < 4 -> 0 <= s < 256 -> 0 <= i < 32 -> is_u32 (frag_flags t s i z).
Proof.
  intros. rewrite frag_flags_value by done. pose proof (Z.mod_pos_bound (z / 4) (2 ^ 14)).
  unfold is_u32. destruct (_ || _); lia.
Qed.

Lemma hdr_fields f :
  hdr_type f = f mod 4 /\ hdr_seq_id f = f / 4 mod 256 /\ hdr_id f = f / 1024 mod 32 /\
  hdr_size f = f / 2 ^ 15 mod 2 ^ 14 * 4.
Proof.
  unfold hdr_type, hdr_seq_id, hdr_id, hdr_size, FRAG_TYPE_MASK, FRAG_TYPE_SHIFT, FRAG_SEQ_ID_MASK, FRAG_SEQ_ID_SHIFT,
    FRAG_ID_MASK, FRAG_ID_SHIFT, FRAG_SIZE_MASK, FRAG_SIZE_SHIFT, FRAG_SIZE_ROUND_SHIFT.
  change 0x3 with (2 ^ 2 - 1). change 0xff with (2 ^ 8 - 1). change 0x1f with (2 ^ 5 - 1).
  change 0x3fff with (2 ^ 14 - 1).
  rewrite !land_mask, Z.shiftr_0_r, !Z.shiftr_div_pow2, Z.shiftl_mul_pow2 by lia. done.
Qed.

Lemma hdr_frag_flags t s i z :
  0 <= t < 4 -> 0 <= s < 256 -> 0 <= i < 32 ->
  let f := frag_flags t s i z in
  hdr_type f = t /\ hdr_seq_id f = s /\ hdr_id f = i /\
  (t = FRAG_YES_LAST -> 0 <= z < 2 ^ 16 -> z mod 4 = 0 -> hdr_size f = z).
Proof.
  intros Ht Hs Hi f. destruct (hdr_fields f) as (-> & -> & -> & ->). unfold f.
  rewrite frag_flags_value by done. set (e := if _ || _ then _ else _).
  assert (He : exists q, e = q * 2 ^ 15 /\ 0 <= q).
  { unfold e. destruct (_ || _); [exists 0; lia|]. eexists; split; [reflexivity|].
    apply Z.mod_pos_bound; lia. }
  destruct He as (q & He & Hq).
  assert (Hall : (t + s * 4 + i * 1024 + e) mod 4 = t /\ (t + s * 4 + i * 1024 + e) / 4 mod 256 = s /\
                 (t + s * 4 + i * 1024 + e) / 1024 mod 32 = i /\ (t + s * 4 + i * 1024 + e) / 2 ^ 15 = q).
  { rewrite He. split; [|split; [|split]].
    - symmetry; apply (Z.mod_unique _ _ (s + i * 256 + q * 2 ^ 13)); lia.
    - replace ((t + s * 4 + i * 1024 + q * 2 ^ 15) / 4) with (s + i * 256 + q * 2 ^ 13)
        by (apply (Z.div_unique _ _ _ t); lia).
      symmetry; apply (Z.mod_unique _ _ (i + q * 32)); lia.
    - replace ((t + s * 4 + i * 1024 + q * 2 ^ 15) / 1024) with (i + q * 32)
        by (apply (Z.div_unique _ _ _ (t + s * 4)); lia).
      symmetry; apply (Z.mod_unique _ _ q); lia.
    - symmetry; apply (Z.div_unique _ _ _ (t + s * 4 + i * 1024)); lia. }
  destruct Hall as (-> & -> & -> & ->). do 3 (split; [done|]).
  intros -> Hz Hz4. unfold e in He. cbn in He. 
  assert (Hq' : q = (z / 4) mod 2 ^ 14) by lia. rewrite Hq', Z.mod_mod by lia.
  rewrite Z.mod_small by (split; [apply Z.div_pos; lia|apply Z.div_lt_upper_bound; lia]).
  rewrite (Z.div_mod z 4) at 2 by lia. lia.
Qed.

(** ** The fragment size *)

Definition ceil_div (a b : Z) : Z := (a + b - 1) / b.

Lemma optimal_fragment_size_spec n mfs :
  4 <= mfs -> 0 < n ->
  exists s, optimal_fragment_size n mfs = Ret s /\ s mod 4 = 0 /\ 0 < s <= mfs /\
    ceil_div n s = ceil_div n (mfs - mfs mod 4).
Proof.
  intros Hm Hn. unfold optimal_fragment_size.
  change FRAG_SIZE_ROUND_MASK with (2 ^ 2 - 1). rewrite !land_lnot_mask by lia.
  change (2 ^ 2) with 4. set (a := mfs - mfs mod 4).
  assert (Ha : a mod 4 = 0 /\ 0 < a <= mfs) by (unfold a; Z.div_mod_to_equations; lia).
  bdecide. rewrite Z.quot_div_nonneg, Z.rem_mod_nonneg by lia.
  set (dv := n / a). set (r := n mod a).
  assert (Hdr : n = a * dv + r /\ 0 <= r < a /\ 0 <= dv).
  { unfold dv, r. split; [apply Z.div_mod; lia|]. split; [apply Z.mod_pos_bound; lia|apply Z.div_pos; lia]. }
  destruct ((0 <? dv) && (0 <? r) && _) eqn:E; breflect; [|by exists a; split_and!; try lia].
  rewrite Z.quot_div_nonneg by lia. rewrite min_int_min.
  set (g := (mfs - r) / (dv + 1)). set (y := mfs - g + (4 - 1)).
  assert (Hg : g * (dv + 1) <= mfs - r < (g + 1) * (dv + 1)).
  { unfold g. pose proof (Z.div_mod (mfs - r) (dv + 1)). pose proof (Z.mod_pos_bound (mfs - r) (dv + 1)). lia. }
  assert (Hg0 : 0 <= g) by (unfold g; apply Z.div_pos; lia).
  assert (Hgm : g <= mfs - r) by nia.
  assert (Hy : (y - y mod 4) mod 4 = 0 /\ y - 3 <= y - y mod 4 <= y) by (Z.div_mod_to_equations; lia).
  eexists. split; [reflexivity|]. set (s := Z.min a (y - y mod 4)).
  assert (Hs : s mod 4 = 0 /\ 0 < s <= a).
  { unfold s. destruct (Z.min_spec a (y - y mod 4)) as [[? ->]|[? ->]]; [lia|]. split; [lia|]. unfold y in *. lia. }
  split; [lia|]. split; [lia|].
  assert (Hc : forall b, 0 < b <= a -> n <= b * (dv + 1) -> ceil_div n b = dv + 1).
  { intros b Hb Hnb. unfold ceil_div. symmetry. apply (Z.div_unique _ _ _ (n + b - 1 - b * (dv + 1))); [|lia].
    left. assert (b * dv <= a * dv) by nia. lia. }
  rewrite (Hc s), (Hc a); [done|lia|lia|lia|].
  unfold s. destruct (Z.min_spec a (y - y mod 4)) as [[_ ->]|[_ ->]]; [lia|]. unfold y in *. nia.
Qed.

(** ** Cutting a datagram *)

Definition frame_wf (fr : frame) : Prop :=
  4 <= PAYLOAD_SIZE_DYNAMIC fr < 2 ^ 16 /\ 4 <= FRAME_HEADROOM fr /\
  0 <= FRAME_HEADROOM_FRAGMENT fr <= BUF_SIZE fr /\
  FRAME_HEADROOM fr + PAYLOAD_SIZE_DYNAMIC fr <= BUF_SIZE fr /\ BUF_SIZE fr < BUF_SIZE_MAX.

Definition frame_buf (fr : frame) (b : buffer) : Prop := buf_wf b /\ capacity b = BUF_SIZE fr.

(** Fragment [i] of datagram [d] cut at size [s], and its wire format. *)
Definition chunk (d : list Z) (s i : Z) : list Z := ztake s (zdrop (i * s) d).

Definition frag_count (d : list Z) (s : Z) : Z := ceil_div (zlen d) s.

Definition frag_type_of (d : list Z) (s i : Z) : Z :=
  if i =? frag_count d s - 1 then FRAG_YES_LAST else FRAG_YES_NOTLAST.

Definition frag_bytes (sid : Z) (d : list Z) (s i : Z) : list Z :=
  be_bytes 4 (frag_flags (frag_type_of d s i) sid i s) ++ chunk d s i.

Lemma frag_count_spec d s i :
  0 < s -> 0 <= i -> (i < frag_count d s <-> i * s < zlen d) /\ (i = frag_count d s - 1 <-> i * s < zlen d <= (i + 1) * s).
Proof.
  intros Hs Hi. unfold frag_count, ceil_div. set (n := zlen d).
  pose proof (zlen_nonneg d) as Hn. fold n in Hn.
  pose proof (Z.div_mod (n + s - 1) s ltac:(lia)) as Hd. pose proof (Z.mod_pos_bound (n + s - 1) s Hs).
  set (q := (n + s - 1) / s) in *. split; split; intros; nia.
Qed.

Lemma zlen_chunk d s i : 0 < s -> 0 <= i -> zlen (chunk d s i) = Z.max 0 (Z.min s (zlen d - i * s)).
Proof. intros. unfold chunk. assert (0 <= i * s) by nia. zlia. Qed.

Lemma chunk_rest d s i : 0 < s -> 0 <= i -> zdrop (i * s) d = chunk d s i ++ zdrop ((i + 1) * s) d.
Proof.
  intros. unfold chunk. replace ((i + 1) * s) with (i * s + s) by lia.
  rewrite <- zdrop_zdrop by nia. by rewrite ztake_zdrop.
Qed.

Lemma buf_init_frame fr b h :
  frame_buf fr b -> 0 <= h <= BUF_SIZE fr ->
  exists pre post, buf_init b h = (conc pre [] post, true) /\ zlen pre = h /\ zlen pre + zlen post = BUF_SIZE fr.
Proof.
  intros [Hw Hc] Hh. apply wf_conc in Hw as (pre & c & post & -> & HF). cbn [capacity conc] in Hc.
  rewrite buf_init_conc. zlen_facts. bdecide. eexists _, _. split; [reflexivity|]. zlia.
Qed.

Lemma prepend_flags_spec pre c post t sid i z :
  4 <= zlen pre ->
  fragment_prepend_flags (conc pre c post) t sid i z =
    Ret (conc (ztake (zlen pre - 4) pre) (be_bytes 4 (frag_flags t sid i z) ++ c) post).
Proof.
  intros H. unfold fragment_prepend_flags. rewrite buf_write_prepend_conc, zlen_be_bytes.
  change (Z.of_nat 4) with 4. bdecide. done.
Qed.

Section Send.
Context (fr : frame) (Hfr : frame_wf fr) (d : list Z) (s sid : Z).
Hypothesis Hs : 0 < s <= PAYLOAD_SIZE_DYNAMIC fr.

(** The sender with fragments from [i] on still to be sent. *)
Definition sending (i : Z) (m : fragment_master) : Prop :=
  outgoing_seq_id m = sid /\ outgoing_frag_size m = s /\ outgoing_frag_id m = i /\
  frame_buf fr (outgoing_return m) /\ exists pre post, outgoing m = conc pre (zdrop (i * s) d) post.

Lemma ready_to_send_spec i m :
  0 <= i < frag_count d s -> sending i m ->
  exists m' b, fragment_ready_to_send m fr = Ret (m', Some b) /\ content b = frag_bytes sid d s i /\
    sending (i + 1) m' /\ incoming m' = incoming m.
Proof using Hfr Hs.
  intros Hi (Hsid & Hfs & Hid & Hret & pre & post & Hout).
  destruct Hfr as (Hp & Hh & Hhf & Hbs & Hmax).
  destruct (frag_count_spec d s i ltac:(lia) ltac:(lia)) as [HA HB].
  assert (Hlt : i * s < zlen d) by (apply HA; lia). assert (Hpos : 0 <= i * s) by nia.
  unfold fragment_ready_to_send, fragment_outgoing_defined. rewrite Hout, Hsid, Hfs, Hid. cbn [len conc].
  assert (Hrest : zlen (zdrop (i * s) d) = zlen d - i * s) by zlia. rewrite Hrest. bdecide.
  assert (Hlast : (zlen d - i * s <=? s) = (i =? frag_count d s - 1)).
  { destruct (i =? frag_count d s - 1) eqn:E; breflect.
    - apply HB in E. apply Z.leb_le. lia.
    - apply Z.leb_gt. destruct (decide (zlen d <= (i + 1) * s)); [|lia]. exfalso. apply E, HB. lia. }
  rewrite Hlast.
  destruct (buf_init_frame fr (outgoing_return m) (FRAME_HEADROOM fr) Hret ltac:(lia)) as (rpre & rpost & Hbi & Hr1 & Hr2).
  rewrite Hbi. cbn [c_assert mbind outcome_mbind].
  fold (conc pre (zdrop (i * s) d) post). rewrite (chunk_rest d s i) by lia.
  assert (Hck : zlen (chunk d s i) = Z.min s (zlen d - i * s)) by (rewrite zlen_chunk; lia).
  rewrite buf_copy_n_conc; [|unfold fits; zlia|lia|].
  2:{ rewrite Hck. rewrite <- Hlast. bcase; lia. }
  cbn [c_assert mbind outcome_mbind app]. rewrite prepend_flags_spec by lia.
  cbn [c_assert mbind outcome_mbind].
  assert (Hend : negb (i =? frag_count d s - 1) || (len (conc (pre ++ chunk d s i) (zdrop ((i + 1) * s) d) post) =? 0) = true).
  { cbn [len conc]. destruct (i =? frag_count d s - 1) eqn:E; [|done]. cbn. breflect. apply HB in E.
    apply Z.eqb_eq. zlia. }
  rewrite Hend. cbn [c_assert mbind outcome_mbind].
  eexists _, _. split; [reflexivity|]. split; [|split; [|done]].
  - rewrite content_conc. done.
  - split_and!; try done.
    + destruct Hret as [Hw Hc]. cbn [outgoing_return]. split; [|done].
      destruct Hw as (dd & Hd & Hcap & Hrest'). eexists. cbn [data capacity offset len conc].
      split; [reflexivity|]. split; [|done]. autorewrite with zlen. rewrite Hck. lia.
    + cbn [outgoing]. eauto.
Qed.
End Send.

(** The packets the main loop sends after [fragment_outgoing]: one more for every
    call of [fragment_ready_to_send] that has one ([check_fragment_dowork]). *)
Fixpoint fragment_send_rest (fuel : nat) (m : fragment_master) (fr : frame) : outcome (fragment_master * list buffer) :=
  match fuel with
  | O => Ret (m, [])
  | S fuel =>
      '(m, r) ← fragment_ready_to_send m fr;
      match r with
      | None => Ret (m, [])
      | Some b => '(m, l) ← fragment_send_rest fuel m fr; Ret (m, b :: l)
      end
  end.

Definition fragment_send (m : fragment_master) (buf : buffer) (fr : frame) : outcome (fragment_master * list buffer) :=
  '(m, b) ← fragment_outgoing m buf fr;
  '(m, l) ← fragment_send_rest (Z.to_nat MAX_FRAGS) m fr;
  Ret (m, b :: l).

Definition master_wf (fr : frame) (m : fragment_master) : Prop :=
  0 <= outgoing_seq_id m < N_SEQ_ID /\ frame_buf fr (outgoing m) /\ frame_buf fr (outgoing_return m).

Lemma send_rest_spec fr d s sid :
  frame_wf fr -> 0 < s <= PAYLOAD_SIZE_DYNAMIC fr -> forall fuel i m,
  0 <= i <= frag_count d s -> frag_count d s - i < Z.of_nat fuel -> sending fr d s sid i m ->
  exists m' l, fragment_send_rest fuel m fr = Ret (m', l) /\
    content <$> l = frag_bytes sid d s <$> seqZ i (frag_count d s - i) /\
    fragment_outgoing_defined m' = false /\ incoming m' = incoming m.
Proof.
  intros Hfr Hs. induction fuel as [|fuel IH]; intros i m Hi Hf Hm; [lia|]. cbn [fragment_send_rest].
  destruct (decide (i < frag_count d s)) as [Hlt|Hge].
  - destruct (ready_to_send_spec fr Hfr d s sid Hs i m ltac:(lia) Hm) as (m1 & b & -> & Hb & Hm1 & Hin).
    cbn [mbind outcome_mbind].
    destruct (IH (i + 1) m1 ltac:(lia) ltac:(lia) Hm1) as (m2 & l & -> & Hl & Hd2 & Hin2). cbn [mbind outcome_mbind].
    eexists _, _. split; [reflexivity|]. split; [|split; [done|congruence]].
    rewrite fmap_cons, Hb, Hl. replace (frag_count d s - i) with (Z.succ (frag_count d s - (i + 1))) by lia.
    rewrite (seqZ_cons i) by lia. rewrite fmap_cons. f_equal. f_equal. f_equal; lia.
  - assert (i = frag_count d s) by lia. destruct Hm as (_ & _ & _ & _ & pre & post & Hout).
    assert (Hnil : zlen (zdrop (i * s) d) = 0).
    { destruct (frag_count_spec d s i ltac:(lia) ltac:(lia)) as [HA _]. assert (0 <= i * s) by nia.
      assert (zlen d <= i * s) by lia. zlia. }
    unfold fragment_ready_to_send, fragment_outgoing_defined. rewrite Hout. cbn [len conc]. rewrite Hnil. cbn.
    eexists _, _. split; [reflexivity|]. split; [|split; [|done]].
    + by replace (frag_count d s - i) with 0 by lia.
    + rewrite Hout. cbn [len conc]. by rewrite Hnil.
Qed.

(** A datagram of more than the payload size goes out as its fragments. *)
Lemma fragment_send_spec fr m d pre post :
  frame_wf fr -> master_wf fr m -> PAYLOAD_SIZE_DYNAMIC fr < zlen d -> FRAME_HEADROOM fr + zlen d <= BUF_SIZE fr ->
  exists s, optimal_fragment_size (zlen d) (PAYLOAD_SIZE_DYNAMIC fr) = Ret s /\
  (zlen d <= s * MAX_FRAGS ->
   exists m' l, fragment_send m (conc pre d post) fr = Ret (m', l) /\
     content <$> l = frag_bytes ((outgoing_seq_id m + 1) mod N_SEQ_ID) d s <$> seqZ 0 (frag_count d s) /\
     fragment_outgoing_defined m' = false /\ incoming m' = incoming m).
Proof.
  intros Hfr (Hsid & Ho & Hr) Hlen Hfit. pose proof Hfr as (Hp & Hh & Hhf & Hbs & Hmax).
  destruct (optimal_fragment_size_spec (zlen d) (PAYLOAD_SIZE_DYNAMIC fr)) as (s & Hos & Hs4 & Hs & _); [lia..|].
  exists s. split; [done|]. intros Hmaxf. unfold fragment_send, fragment_outgoing. cbn [len conc].
  fold (conc pre d post). bdecide. rewrite Hos. cbn [mbind outcome_mbind].
  cbn [outgoing outgoing_seq_id outgoing_return incoming outgoing_frag_id len conc]. bdecide.
  fold (conc pre d post).
  destruct (buf_init_frame fr (outgoing m) (FRAME_HEADROOM fr) Ho ltac:(lia)) as (opre & opost & -> & Ho1 & Ho2).
  cbn [c_assert mbind outcome_mbind]. unfold buf_copy. rewrite buf_contents_conc. cbn [mbind outcome_mbind].
  rewrite buf_write_fits; [|unfold fits; zlia|lia]. cbn [c_assert mbind outcome_mbind app].
  rewrite modulo_add_spec by (unfold N_SEQ_ID in *; lia). cbn [mbind outcome_mbind].
  set (sid := (outgoing_seq_id m + 1) mod N_SEQ_ID). set (m1 := mkmaster _ _ _ _ _ _).
  assert (Hm1 : sending fr d s sid 0 m1).
  { split_and!; try done. eauto. }
  destruct (frag_count_spec d s 0 ltac:(lia) ltac:(lia)) as [HA _].
  assert (Hc0 : 0 < frag_count d s) by (apply HA; zlen_facts; lia).
  assert (Hc32 : frag_count d s <= 32).
  { destruct (frag_count_spec d s (frag_count d s - 1) ltac:(lia) ltac:(lia)) as [_ HB].
    unfold MAX_FRAGS in *. nia. }
  destruct (ready_to_send_spec fr Hfr d s sid Hs 0 m1 ltac:(lia) Hm1) as (m2 & b & -> & Hb & Hm2 & Hin2).
  cbn [mbind outcome_mbind].
  destruct (send_rest_spec fr d s sid Hfr Hs (Z.to_nat MAX_FRAGS) (0 + 1) m2 ltac:(lia)) as (m3 & l & -> & Hl & Hd3 & Hin3);
    [unfold MAX_FRAGS; lia|done|].
  cbn [mbind outcome_mbind]. eexists _, _. split; [reflexivity|]. split; [|split; [done|by rewrite Hin3, Hin2]].
  rewrite fmap_cons, Hb, Hl. replace (frag_count d s) with (Z.succ (frag_count d s - 1)) at 2 by lia.
  rewrite (seqZ_cons 0) by lia. rewrite fmap_cons. do 3 f_equal; lia.
Qed.

(** ** The reassembly window *)

Definition flist_wf (fr : frame) (l : fragment_list) : Prop :=
  0 <= seq_id l < N_SEQ_ID /\ 0 <= index l < N_FRAG_BUF /\ zlen (fragments l) = N_FRAG_BUF /\
  Forall (fun f => frame_buf fr (frag_buf f)) (fragments l).

Lemma modulo_subtract_same x m : 0 <= x < m -> modulo_subtract x x m = Ret 0.
Proof.
  intros Hx. destruct (modulo_subtract_spec x x m Hx Hx) as (d & Hd & _ & _). rewrite Hd. f_equal.
  revert Hd. unfold modulo_subtract. bdecide. cbn [c_assert mbind outcome_mbind]. intros [= <-]. bcase; lia.
Qed.

Lemma list_advance_spec fr n : forall l,
  flist_wf fr l -> (n <= 25)%nat ->
  exists l', fragment_list_advance n l = Ret l' /\ flist_wf fr l' /\
    seq_id l' = (seq_id l + Z.of_nat n) mod N_SEQ_ID /\ index l' = (index l + Z.of_nat n) mod N_FRAG_BUF /\
    ((0 < n)%nat -> exists f, fragments l' !! Z.to_nat (index l') = Some f /\ defined f = false).
Proof.
  unfold N_SEQ_ID, N_FRAG_BUF. induction n as [|n IH]; intros l (H1 & H2 & H3 & H4) Hn; unfold N_SEQ_ID, N_FRAG_BUF in *.
  - exists l. split; [done|]. split; [done|]. rewrite !Z.add_0_r, !Z.mod_small by lia. split_and!; try done. lia.
  - cbn [fragment_list_advance]. unfold N_SEQ_ID, N_FRAG_BUF.
    rewrite (modulo_add_spec (index l) 1 25) by lia. cbn [mbind outcome_mbind].
    pose proof (Z.mod_pos_bound (index l + 1) 25 ltac:(lia)) as Hi. set (i := (index l + 1) mod 25) in *.
    destruct (array_get_in (fragments l) i ltac:(lia)) as (f & -> & Hf). cbn [mbind outcome_mbind].
    rewrite modulo_add_spec by lia. cbn [mbind outcome_mbind].
    set (l1 := mkflist _ _ _).
    assert (Hl1 : flist_wf fr l1).
    { split; [apply Z.mod_pos_bound; unfold N_SEQ_ID; lia|]. split; [done|]. cbn [fragments l1]. split; [by rewrite zlen_insert|].
      apply Forall_insert; [done|]. rewrite Forall_forall in H4. apply (H4 f). by eapply list_elem_of_lookup_2. }
    destruct (IH l1 Hl1 ltac:(lia)) as (l2 & Hadv & Hw2 & Hs2 & Hi2 & Hd2). exists l2. split; [done|]. split; [done|].
    split_and!.
    + rewrite Hs2. cbn [seq_id l1]. rewrite Zplus_mod_idemp_l. f_equal. lia.
    + rewrite Hi2. cbn [index l1]. unfold i. rewrite Zplus_mod_idemp_l. f_equal. lia.
    + intros _. destruct n as [|n]; [|apply Hd2; lia]. injection Hadv as <-. cbn [index fragments l1].
      exists (set_defined f false). split; [|done]. apply list_lookup_insert_eq. unfold zlen in *. lia.
Qed.

(** The buffer of a sequence number: asking again gives the same one, and nothing
    else changes. *)
Definition slot_at (fr : frame) (sid : Z) (l : fragment_list) (i : Z) (f : fragment) : Prop :=
  flist_wf fr l /\ 0 <= i < N_FRAG_BUF /\ fragments l !! Z.to_nat i = Some f /\
  fragment_list_get_buf l sid = Ret (l, i).

(** No step of the window. *)
Ltac advance_0 :=
  try change (N_FRAG_BUF <=? Z.abs 0) with false; cbv beta iota zeta; change (Z.to_nat 0) with 0%nat;
  cbn [fragment_list_advance mbind outcome_mbind Z.ltb Z.compare index].

Lemma get_buf_set l i f sid :
  0 <= seq_id l < N_SEQ_ID -> 0 <= index l < N_FRAG_BUF -> 0 <= sid < N_SEQ_ID ->
  fragment_list_get_buf l sid = Ret (l, i) ->
  fragment_list_get_buf (set_fragment l i f) sid = Ret (set_fragment l i f, i).
Proof.
  intros Hs Hx Hsid. unfold fragment_list_get_buf. cbn [seq_id index fragments set_fragment].
  destruct (modulo_subtract_spec sid (seq_id l) N_SEQ_ID Hsid Hs) as (d & -> & Hd1 & Hd2).
  cbn [mbind outcome_mbind]. unfold N_FRAG_BUF, N_SEQ_ID in *.
  destruct (25 <=? Z.abs d) eqn:E; breflect.
  - advance_0.
    rewrite modulo_add_spec by lia. cbn. intros [= El Ei]. exfalso.
    assert (seq_id l = sid) by (rewrite <- El; done). rewrite H in Hd1.
    assert (d = 0); [|lia]. Z.div_mod_to_equations. lia.
  - destruct (decide (0 < d)) as [Hp|Hn].
    + bdecide. intros H. exfalso.
      destruct (fragment_list_advance (Z.to_nat d) l) as [l'| |] eqn:El; cbn [mbind outcome_mbind] in H; [|done|done].
      destruct (modulo_add (index l') 0 25) as [j| |]; cbn [mbind outcome_mbind] in H; [|done|done].
      injection H as -> ->.
      assert (Hseq : forall n l l', 0 <= seq_id l < 256 -> fragment_list_advance n l = Ret l' ->
                seq_id l' = (seq_id l + Z.of_nat n) mod 256).
      { clear. induction n as [|n IH]; intros l l' Hs H; cbn in H.
        - injection H as ->. by rewrite Z.add_0_r, Z.mod_small.
        - destruct (modulo_add (index l) 1 _) as [a| |]; [|done|done]. cbn in H.
          destruct (array_get (fragments l) a) as [g| |]; [|done|done]. cbn in H.
          unfold N_SEQ_ID in H. rewrite modulo_add_spec in H by lia. cbn in H.
          apply IH in H; [|cbn; apply Z.mod_pos_bound; lia]. rewrite H. cbn [seq_id].
          rewrite Zplus_mod_idemp_l. f_equal. lia. }
      specialize (Hseq _ _ _ Hs El). rewrite Z2Nat.id in Hseq by lia.
      Z.div_mod_to_equations. lia.
    + replace (Z.to_nat d) with 0%nat by lia. bdecide. cbn [fragment_list_advance mbind outcome_mbind index].
      destruct (modulo_add (index l) d 25) as [j| |] eqn:Ej; cbn [mbind outcome_mbind index set_fragment]; [|done|done].
      intros [= ->]. by rewrite Ej.
Qed.

Lemma get_buf_spec fr l sid :
  flist_wf fr l -> 0 <= sid < N_SEQ_ID ->
  exists l' i f, fragment_list_get_buf l sid = Ret (l', i) /\ slot_at fr sid l' i f.
Proof.
  intros Hw Hsid. pose proof Hw as (H1 & H2 & H3 & H4). unfold fragment_list_get_buf.
  destruct (modulo_subtract_spec sid (seq_id l) N_SEQ_ID Hsid H1) as (d & Hd & Hd1 & Hd2). rewrite Hd.
  cbn [mbind outcome_mbind]. destruct (N_FRAG_BUF <=? Z.abs d) eqn:E; breflect.
  - (* the window restarts at [sid] *)
    advance_0.
    rewrite modulo_add_spec by (unfold N_FRAG_BUF; lia). cbn [mbind outcome_mbind].
    set (l1 := mkflist _ _ _).
    assert (Hl1 : flist_wf fr l1).
    { split; [done|]. split; [by unfold N_FRAG_BUF|]. cbn [fragments l1]. split; [by rewrite zlen_fmap|].
      apply Forall_fmap. eapply Forall_impl; [exact H4|]. done. }
    destruct (lookup_lt_is_Some_2 (fragments l1) 0) as [f Hf].
    { destruct Hl1 as (_ & _ & Hl & _). unfold zlen, N_FRAG_BUF in Hl. lia. }
    exists l1, 0, f. split; [done|]. split; [done|]. split; [by unfold N_FRAG_BUF|]. split; [done|].
    unfold fragment_list_get_buf. cbn [seq_id l1]. rewrite modulo_subtract_same by done.
    cbn [mbind outcome_mbind]. advance_0.
    rewrite modulo_add_spec by (unfold N_FRAG_BUF; cbn; lia). done.
  - unfold N_FRAG_BUF in E. destruct (decide (0 < d)) as [Hp|Hn].
    + (* the window advances to [sid] *)
      destruct (list_advance_spec fr (Z.to_nat d) l Hw ltac:(lia)) as (l1 & -> & Hl1 & Hs1 & Hi1 & _).
      cbn [mbind outcome_mbind]. bdecide. pose proof Hl1 as (K1 & K2 & K3 & K4).
      rewrite modulo_add_spec by (unfold N_FRAG_BUF in *; lia). cbn [mbind outcome_mbind].
      rewrite Z.add_0_r, Z.mod_small by done.
      rewrite Z2Nat.id, Hd1 in Hs1 by lia.
      destruct (lookup_lt_is_Some_2 (fragments l1) (Z.to_nat (index l1))) as [f Hf].
      { unfold zlen in K3. lia. }
      exists l1, (index l1), f. split; [done|]. split; [done|]. split; [done|]. split; [done|].
      unfold fragment_list_get_buf. rewrite Hs1, modulo_subtract_same by done.
      cbn [mbind outcome_mbind]. advance_0.
      rewrite modulo_add_spec by (unfold N_FRAG_BUF in *; lia). cbn [mbind outcome_mbind].
      by rewrite Z.add_0_r, Z.mod_small.
    + (* [sid] is in the window *)
      replace (Z.to_nat d) with 0%nat by lia. cbn [fragment_list_advance mbind outcome_mbind]. bdecide.
      rewrite modulo_add_spec by (unfold N_FRAG_BUF in *; lia). cbn [mbind outcome_mbind].
      set (i := (index l + d) mod N_FRAG_BUF).
      assert (Hi : 0 <= i < N_FRAG_BUF) by (apply Z.mod_pos_bound; unfold N_FRAG_BUF; lia).
      destruct (lookup_lt_is_Some_2 (fragments l) (Z.to_nat i)) as [f Hf].
      { unfold zlen in H3. lia. }
      exists l, i, f. split; [done|]. split; [done|]. split; [done|]. split; [done|].
      unfold fragment_list_get_buf. rewrite Hd. cbn [mbind outcome_mbind]. unfold N_FRAG_BUF at 1. bdecide.
      replace (Z.to_nat d) with 0%nat by lia. cbn [fragment_list_advance mbind outcome_mbind].
      by rewrite modulo_add_spec by (unfold N_FRAG_BUF in *; lia).
Qed.

Lemma slot_at_set fr sid l i f g :
  slot_at fr sid l i f -> 0 <= sid < N_SEQ_ID -> frame_buf fr (frag_buf g) ->
  slot_at fr sid (set_fragment l i g) i g.
Proof.
  intros ((W1 & W2 & W3 & W4) & Hi & Hlk & Hget) Hsid Hg.
  split; [split; [done|]; split; [done|]; split|split; [done|]; split]; cbn [fragments set_fragment].
  - by rewrite zlen_insert.
  - by apply Forall_insert.
  - apply list_lookup_insert_eq. unfold zlen in W3. lia.
  - by apply get_buf_set.
Qed.

(** ** Reassembly *)

Lemma mask_complete m :
  0 <= m < 2 ^ 32 ->
  (Z.land m FRAG_MAP_MASK =? FRAG_MAP_MASK) = true <-> forall k, 0 <= k < 32 -> Z.testbit m k = true.
Proof.
  intros Hm. change FRAG_MAP_MASK with (Z.ones 32). rewrite Z.land_ones, Z.mod_small, Z.eqb_eq by lia. split.
  - intros -> k Hk. by apply Z.ones_spec_low.
  - intros H. apply Z.bits_inj'. intros k Hk. destruct (decide (k < 32)).
    + rewrite H by lia. by rewrite Z.ones_spec_low.
    + rewrite Z.ones_spec_high by lia. destruct (decide (m = 0)) as [->|]; [apply Z.bits_0|].
      apply Z.bits_above_log2; [lia|]. apply Z.log2_lt_pow2; [lia|].
      eapply Z.lt_le_trans; [apply Hm|]. apply Z.pow_le_mono_r; lia.
Qed.

Lemma map_bit (last : bool) n k :
  0 <= n < 32 -> 0 <= k < 32 ->
  Z.testbit (u32 (Z.shiftl (if last then FRAG_MAP_MASK else 1) n)) k = true <-> k = n \/ (last = true /\ n <= k).
Proof.
  intros Hn Hk. unfold u32. rewrite Z.mod_pow2_bits_low, Z.shiftl_spec by lia. destruct last.
  - change FRAG_MAP_MASK with (Z.ones 32). destruct (decide (n <= k)).
    + rewrite Z.ones_spec_low by lia. tauto.
    + rewrite Z.testbit_neg_r by lia. split; [done|]. lia.
  - destruct (decide (k = n)) as [->|].
    + rewrite Z.sub_diag. tauto.
    + split; [|lia]. destruct (decide (k < n)); [by rewrite Z.testbit_neg_r by lia|].
      change 1 with (2 ^ 0). rewrite Z.pow2_bits_false by lia. done.
Qed.

Section Receive.
Context (fr : frame) (Hfr : frame_wf fr) (d : list Z) (s sid : Z).
Hypothesis Hs4 : s mod 4 = 0.
Hypothesis Hs : 0 < s < 2 ^ 16.
Hypothesis Hcount : frag_count d s <= 32.
Hypothesis Hsid : 0 <= sid < N_SEQ_ID.
Hypothesis Hroom : FRAME_HEADROOM_FRAGMENT fr + zlen d <= BUF_SIZE fr.

Abbreviation N := (frag_count d s).

(** Position [p] of the datagram belongs to fragment [i]. *)
Definition in_frag (i : Z) (p : nat) : Prop := i * s <= Z.of_nat p < (i + 1) * s.

(** The reassembly buffer after the fragments [R] have arrived. *)
Definition partial (R : list Z) (f : fragment) : Prop :=
  frame_buf fr (frag_buf f) /\
  (R = [] /\ defined f = false \/
   defined f = true /\ max_frag_size f = s /\ 0 <= map f < 2 ^ 32 /\
   (forall k, 0 <= k < 32 -> Z.testbit (map f) k = true <-> exists i, i ∈ R /\ (k = i \/ i = N - 1 /\ i <= k)) /\
   exists pre c post, frag_buf f = conc pre c post /\ zlen pre = FRAME_HEADROOM_FRAGMENT fr /\ zlen c <= zlen d /\
     forall i p, i ∈ R -> in_frag i p -> (p < length d)%nat -> c !! p = d !! p).

Definition slot (R : list Z) (m : fragment_master) : Prop :=
  exists l i f, fragment_list_get_buf (incoming m) sid = Ret (l, i) /\ slot_at fr sid l i f /\ partial R f.

Definition covers (R : list Z) : Prop := forall i, 0 <= i < N -> i ∈ R.

Lemma frag_pos i : 0 <= i < N -> 0 <= i * s < zlen d.
Proof using Hs. intros Hi. destruct (frag_count_spec d s i ltac:(lia) ltac:(lia)) as [H _]. split; [nia|]. apply H; lia. Qed.

(** Every position belongs to some fragment. *)
Lemma pos_frag p : (p < length d)%nat -> exists i, 0 <= i < N /\ in_frag i p.
Proof using Hs.
  intros Hp. exists (Z.of_nat p / s). unfold in_frag.
  pose proof (Z.div_mod (Z.of_nat p) s ltac:(lia)). pose proof (Z.mod_pos_bound (Z.of_nat p) s ltac:(lia)).
  assert (0 <= Z.of_nat p / s) by (apply Z.div_pos; lia). split; [|nia]. split; [done|].
  apply frag_count_spec; [lia|done|]. unfold zlen. nia.
Qed.

(** All the bits are set iff all the fragments have arrived. *)
Lemma complete_covers R f :
  0 <= map f < 2 ^ 32 -> (forall i, i ∈ R -> 0 <= i < N) -> 0 < N ->
  (forall k, 0 <= k < 32 -> Z.testbit (map f) k = true <-> exists i, i ∈ R /\ (k = i \/ i = N - 1 /\ i <= k)) ->
  (Z.land (map f) FRAG_MAP_MASK =? FRAG_MAP_MASK) = true <-> covers R.
Proof using Hcount.
  intros Hm HR HN Hb. rewrite mask_complete by done. split.
  - intros H k Hk. destruct (proj1 (Hb k ltac:(lia)) (H k ltac:(lia))) as (i & Hi & [->|[-> Hle]]); [done|].
    by replace k with (N - 1) by lia.
  - intros H k Hk. apply Hb; [done|]. destruct (decide (k < N)).
    + exists k. split; [apply H; lia|by left].
    + exists (N - 1). split; [apply H; lia|right; lia].
Qed.

(** The copy of fragment [i] into the reassembly buffer. *)
Lemma copy_fragment R f i bpre bpost :
  0 <= i < N -> (forall j, j ∈ R -> 0 <= j < N) -> (exists pre c post, frag_buf f = conc pre c post /\
    zlen pre = FRAME_HEADROOM_FRAGMENT fr /\ zlen pre + zlen c + zlen post = BUF_SIZE fr /\ zlen c <= zlen d /\
    forall j p, j ∈ R -> in_frag j p -> (p < length d)%nat -> c !! p = d !! p) ->
  exists pre c post,
    buf_copy_range (frag_buf f) (i * s) (conc bpre (chunk d s i) bpost) 0 (zlen (chunk d s i)) =
      Ret (conc pre c post, true) /\
    zlen pre = FRAME_HEADROOM_FRAGMENT fr /\ zlen pre + zlen c + zlen post = BUF_SIZE fr /\ zlen c <= zlen d /\
    forall j p, j ∈ i :: R -> in_frag j p -> (p < length d)%nat -> c !! p = d !! p.
Proof using Hroom Hs.
  intros Hi HR (pre & c & post & -> & Hpre & Htot & Hcl & Hc).
  pose proof (frag_pos i Hi) as Hpos. pose proof (zlen_chunk d s i ltac:(lia) ltac:(lia)) as Hck.
  set (x := chunk d s i) in *. assert (Hx : zlen x = Z.min s (zlen d - i * s)) by lia.
  rewrite buf_copy_range_conc by lia. bdecide. cbv zeta.
  set (l := c ++ post). assert (Hl : zlen l = zlen c + zlen post) by (unfold l; zlia).
  assert (Hsp : zlen (splice (i * s) x l) = zlen l) by (apply zlen_splice; lia).
  eexists _, _, _. split; [reflexivity|]. split; [done|].
  split; [autorewrite with zlen; rewrite Hsp; zlen_facts; lia|]. split; [autorewrite with zlen; rewrite Hsp; zlen_facts; lia|].
  intros j p Hj Hp Hpd. set (n := Z.max _ _).
  assert (Hchunk : in_frag i p -> x !! (p - Z.to_nat (i * s))%nat = d !! p).
  { intros Hin. unfold in_frag in Hin. unfold x, chunk, ztake, zdrop. rewrite lookup_take_lt by lia. rewrite lookup_drop. f_equal. lia. }
  assert (Hpn : Z.of_nat p < n).
  { apply elem_of_cons in Hj as [->|Hj].
    - unfold in_frag in Hp. unfold n. zlen_facts. unfold zlen in Hx |- *. unfold zlen in Hpos. lia.
    - specialize (Hc j p Hj Hp Hpd). destruct (lookup_lt_is_Some_2 d p Hpd) as [v Hv]. rewrite Hv in Hc.
      apply lookup_lt_Some in Hc. unfold n, zlen. lia. }
  unfold ztake. rewrite lookup_take_lt by lia. rewrite lookup_splice by lia.
  destruct ((i * s <=? Z.of_nat p) && (Z.of_nat p <? i * s + zlen x)) eqn:E; breflect.
  - apply Hchunk. unfold in_frag. lia.
  - apply elem_of_cons in Hj as [->|Hj].
    + exfalso. unfold in_frag in Hp. unfold zlen in Hx, E, Hpos. destruct E as [E|E]; breflect; lia.
    + unfold l. specialize (Hc j p Hj Hp Hpd). destruct (lookup_lt_is_Some_2 d p Hpd) as [v Hv]. rewrite Hv in Hc |- *.
      by apply lookup_app_l_Some.
Qed.

(** What the arrival of fragment [i] does to a reassembly buffer. *)
Definition take_fragment (now i : Z) (bpre bpost : list Z) (f : fragment) : outcome fragment :=
  f ← (if negb (defined f) || negb (max_frag_size f =? s)
       then
         let '(b, ok) := buf_init (frag_buf f) (FRAME_HEADROOM_FRAGMENT fr) in
         _ ← c_assert ok; Ret (mkfrag true s 0 (timestamp f) b)
       else Ret f);
  '(b, ok) ← buf_copy_range (frag_buf f) (i * s) (conc bpre (chunk d s i) bpost) 0 (zlen (chunk d s i));
  _ ← c_assert ok;
  Ret (mkfrag (defined f) (max_frag_size f)
         (Z.lor (map f) (u32 (Z.shiftl (if frag_type_of d s i =? FRAG_YES_LAST then FRAG_MAP_MASK else 1) i))) now b).

Lemma take_fragment_spec now i bpre bpost R f :
  0 <= i < N -> (forall j, j ∈ R -> 0 <= j < N) -> partial R f ->
  exists f', take_fragment now i bpre bpost f = Ret f' /\ partial (i :: R) f' /\ defined f' = true.
Proof using Hfr Hcount Hroom Hs.
  intros Hi HR (Hbuf & Hst). unfold take_fragment. destruct Hfr as (_ & _ & Hhf & _ & Hmax).
  assert (Hinit : exists f1, (if negb (defined f) || negb (max_frag_size f =? s)
       then let '(b, ok) := buf_init (frag_buf f) (FRAME_HEADROOM_FRAGMENT fr) in
         _ ← c_assert ok; Ret (mkfrag true s 0 (timestamp f) b)
       else Ret f) = Ret f1 /\ defined f1 = true /\ max_frag_size f1 = s /\ 0 <= map f1 < 2 ^ 32 /\
     (forall k, 0 <= k < 32 -> Z.testbit (map f1) k = true <-> exists i, i ∈ R /\ (k = i \/ i = N - 1 /\ i <= k)) /\
     exists pre c post, frag_buf f1 = conc pre c post /\ zlen pre = FRAME_HEADROOM_FRAGMENT fr /\
       zlen pre + zlen c + zlen post = BUF_SIZE fr /\ zlen c <= zlen d /\
       forall i p, i ∈ R -> in_frag i p -> (p < length d)%nat -> c !! p = d !! p).
  { destruct Hst as [[-> Hdef]|(Hdef & Hmfs & Hm & Hb & pre & c & post & Hbf & Hpre & Hc & Hcont)].
    - rewrite Hdef. cbn [negb orb].
      destruct (buf_init_frame fr (frag_buf f) (FRAME_HEADROOM_FRAGMENT fr) Hbuf ltac:(lia)) as (pre & post & -> & Hp1 & Hp2).
      cbn [c_assert mbind outcome_mbind]. eexists. split; [reflexivity|]. cbn [defined max_frag_size map frag_buf].
      split_and!; try done.
      + intros k _. rewrite Z.bits_0. split; [done|]. by intros (j & ?%elem_of_nil & _).
      + exists pre, [], post. split_and!; try done; [zlia|zlia|]. by intros j p ?%elem_of_nil.
    - rewrite Hdef, Hmfs, Z.eqb_refl. cbn [negb orb]. exists f. split_and!; try done; try lia.
      exists pre, c, post. split_and!; try done. destruct Hbuf as [_ Hcap]. rewrite Hbf in Hcap. exact Hcap. }
  destruct Hinit as (f1 & -> & Hd1 & Hm1 & Hmap & Hbits & Hcopy). cbn [mbind outcome_mbind].
  destruct (copy_fragment R f1 i bpre bpost Hi HR Hcopy) as (pre & c & post & -> & Hpre & Htot & Hcl & Hcont).
  cbn [c_assert mbind outcome_mbind]. eexists. split; [reflexivity|]. split; [|done]. split.
  - split; [apply conc_wf; unfold fits; lia|exact Htot].
  - right. cbn [defined max_frag_size map frag_buf]. split; [done|]. split; [done|].
    set (bits := u32 _). assert (Hbu : 0 <= bits < 2 ^ 32) by apply u32_range.
    split; [|split].
    + split; [apply Z.lor_nonneg; lia|].
      destruct (decide (Z.lor (map f1) bits = 0)) as [->|]; [lia|].
      apply Z.log2_lt_pow2; [pose proof (proj2 (Z.lor_nonneg (map f1) bits)); lia|].
      rewrite Z.log2_lor by lia. apply Z.max_lub_lt.
      * destruct (decide (map f1 = 0)) as [->|]; [done|]. apply Z.log2_lt_pow2; lia.
      * destruct (decide (bits = 0)) as [->|]; [done|]. apply Z.log2_lt_pow2; lia.
    + intros k Hk. rewrite Z.lor_spec, orb_true_iff, Hbits by done. unfold bits. rewrite map_bit by lia.
      assert (Hlast : (frag_type_of d s i =? FRAG_YES_LAST) = true <-> i = N - 1).
      { unfold frag_type_of. destruct (i =? N - 1) eqn:E; breflect; [done|]. split; [done|]. intros; contradiction. }
      rewrite Hlast. setoid_rewrite elem_of_cons. split.
      * intros [(j & Hj & Hkj)|Hki]; [exists j; auto|exists i]. split; [by left|]. lia.
      * intros (j & [->|Hj] & Hkj); [right; lia|left; eauto].
    + exists pre, c, post. split_and!; done.
Qed.

(** When everything has arrived the buffer holds the datagram. *)
Lemma partial_complete R f :
  partial R f -> defined f = true -> covers R -> content (frag_buf f) = d.
Proof using Hs.
  intros (_ & [[_ Hd]|(_ & _ & _ & _ & pre & c & post & -> & _ & Hcl & Hc)]) Hdef Hcov; [congruence|].
  rewrite content_conc. apply list_eq. intros p. destruct (decide (p < length d)%nat) as [Hp|Hp].
  - destruct (pos_frag p Hp) as (i & Hi & Hin). apply (Hc i p); auto.
  - rewrite !lookup_ge_None_2; [done|lia|]. unfold zlen in Hcl. lia.
Qed.

Lemma frame_bytes_len i : 0 <= i < N -> 0 < zlen (chunk d s i) /\ (frag_type_of d s i = FRAG_YES_NOTLAST -> zlen (chunk d s i) = s).
Proof using Hs.
  intros Hi. pose proof (frag_pos i Hi). rewrite zlen_chunk by lia. split; [lia|].
  unfold frag_type_of. destruct (i =? N - 1) eqn:E; [done|]. breflect. intros _.
  destruct (frag_count_spec d s i ltac:(lia) ltac:(lia)) as [_ HB]. lia.
Qed.

(** One arrival: the datagram when it completes it, nothing before. *)
Lemma incoming_fragment now m R i bpre bpost :
  0 <= i < N -> (forall j, j ∈ R -> 0 <= j < N) -> slot R m ->
  exists m' out, fragment_incoming now m (conc bpre (frag_bytes sid d s i) bpost) fr = Ret (m', out) /\
    ((covers (i :: R) /\ content out = d /\ slot [] m') \/ (~ covers (i :: R) /\ len out = 0 /\ slot (i :: R) m')).
Proof using Hfr Hcount Hroom Hs Hs4 Hsid.
  intros Hi HR (l & j & f & Hget & Hslot & Hpart). unfold fragment_incoming, frag_bytes.
  set (t := frag_type_of d s i). set (flags := frag_flags t sid i s).
  assert (Ht : t = FRAG_YES_LAST \/ t = FRAG_YES_NOTLAST) by (unfold t, frag_type_of; destruct (_ =? _); auto).
  assert (Ht4 : 0 <= t < 4) by (destruct Ht as [->| ->]; done).
  assert (Hu : is_u32 flags) by (apply frag_flags_u32; unfold N_SEQ_ID in *; lia).
  destruct (hdr_frag_flags t sid i s Ht4 Hsid ltac:(lia)) as (E1 & E2 & E3 & E4). fold flags in E1, E2, E3, E4.
  destruct (frame_bytes_len i Hi) as [Hck Hfull]. fold t in Hfull.
  cbn [len conc]. rewrite zlen_app, zlen_be_bytes. bdecide.
  fold (conc bpre (be_bytes 4 flags ++ chunk d s i) bpost). rewrite buf_read_front by by rewrite zlen_be_bytes.
  cbn [mbind outcome_mbind]. rewrite be_value_bytes4 by done. rewrite E1, E2, E3.
  set (buf := conc (bpre ++ be_bytes 4 flags) (chunk d s i) bpost).
  assert (Hsize : (if t =? FRAG_YES_LAST then hdr_size flags else len buf) = s).
  { destruct Ht as [Et|Et]; rewrite Et; cbn; [apply E4; [done|lia|done]|by apply Hfull]. }
  rewrite Hsize, Hget. cbn [mbind outcome_mbind].
  pose proof Hslot as Hsl. destruct Hslot as (Hwf & Hj & Hlk & Hget2). pose proof Hwf as (W1 & W2 & W3 & W4).
  assert (Hag : array_get (fragments l) j = Ret f) by (unfold array_get; rewrite W3; bdecide; by rewrite Hlk).
  rewrite Hag. cbn [mbind outcome_mbind].
  change FRAG_SIZE_ROUND_MASK with (2 ^ 2 - 1). rewrite land_mask by lia. change (2 ^ 2) with 4. rewrite Hs4. cbn [Z.eqb negb].
  destruct (take_fragment_spec now i (bpre ++ be_bytes 4 flags) bpost R f Hi HR Hpart) as (f' & Htake & Hp' & Hd').
  assert (Hfin : forall g, frame_buf fr (frag_buf g) -> fragment_list_get_buf (set_fragment l j g) sid = Ret (set_fragment l j g, j)
            /\ slot_at fr sid (set_fragment l j g) j g).
  { intros g Hg. pose proof (slot_at_set fr sid l j f g Hsl Hsid Hg) as Hsg. split; [apply Hsg|done]. }
  assert (Htype : (t =? FRAG_WHOLE) = false /\ (t =? FRAG_YES_NOTLAST) || (t =? FRAG_YES_LAST) = true)
    by (destruct Ht as [->| ->]; done).
  destruct Htype as [-> ->].
  revert Htake. unfold take_fragment. fold t.
  destruct (if negb (defined f) || negb (max_frag_size f =? s) then _ else _) as [f1| |]; cbn [mbind outcome_mbind]; [|done|done].
  change (len buf) with (zlen (chunk d s i)). fold buf.
  destruct (buf_copy_range (frag_buf f1) (i * s) buf 0 (zlen (chunk d s i))) as [[b ok]| |]; cbn [mbind outcome_mbind]; [|done|done].
  destruct ok; cbn [c_assert mbind outcome_mbind negb]; [|done]. cbn [defined max_frag_size map timestamp frag_buf].
  intros [= <-]. set (f' := mkfrag _ _ _ now b) in *.
  change (Z.lor (map f1) _) with (map f').
  pose proof Hp' as (Hb' & [[? _]|(_ & _ & Hm' & Hbits' & _)]); [done|].
  assert (HR' : forall k, k ∈ i :: R -> 0 <= k < N) by (intros k [->|Hk]%elem_of_cons; auto).
  pose proof (complete_covers (i :: R) f' Hm' HR' ltac:(lia) Hbits') as Hcomp.
  destruct (Z.land (map f') FRAG_MAP_MASK =? FRAG_MAP_MASK) eqn:Ec.
  - eexists _, _. split; [reflexivity|]. left. split; [by apply Hcomp|]. split.
    + change b with (frag_buf f'). by apply (partial_complete (i :: R)); [| |apply Hcomp].
    + destruct (Hfin (set_defined f' false) Hb') as [G1 G2].
      eexists _, _, _. split; [exact G1|]. split; [exact G2|]. split; [done|]. left. done.
  - eexists _, _. split; [reflexivity|]. right. split; [intros Hcv; apply Hcomp in Hcv; done|]. split; [done|].
    destruct (Hfin f' Hb') as [G1 G2]. eexists _, _, _. split; [exact G1|]. split; [exact G2|]. done.
Qed.
End Receive.

(** ** End to end *)

(** The receiver handed a sequence of packets (the bytes of each), at time [now]. *)
Fixpoint receive_all (now : Z) (m : fragment_master) (pkts : list (list Z)) (fr : frame)
  : outcome (fragment_master * list buffer) :=
  match pkts with
  | [] => Ret (m, [])
  | p :: pkts =>
      '(m, out) ← fragment_incoming now m (conc [] p []) fr;
      '(m, outs) ← receive_all now m pkts fr;
      Ret (m, out :: outs)
  end.

(** The receiver has no datagram under way for sequence number [sid]. *)
Definition slot_free (sid : Z) (m : fragment_master) : Prop :=
  exists l i f, fragment_list_get_buf (incoming m) sid = Ret (l, i) /\
    fragments l !! Z.to_nat i = Some f /\ defined f = false.

Lemma slot_free_slot fr d s sid m :
  flist_wf fr (incoming m) -> 0 <= sid < N_SEQ_ID -> slot_free sid m -> slot fr d s sid [] m.
Proof.
  intros Hw Hsid (l & i & f & Hg & Hf & Hd). destruct (get_buf_spec fr (incoming m) sid Hw Hsid) as (l' & i' & f' & Hg' & Hs).
  rewrite Hg in Hg'. injection Hg' as <- <-. pose proof Hs as ((_ & _ & _ & HF) & _ & Hf' & _).
  rewrite Hf in Hf'. injection Hf' as <-. exists l, i, f. split; [done|]. split; [done|]. split; [|by left].
  rewrite Forall_forall in HF. apply (HF f). by eapply list_elem_of_lookup_2.
Qed.

(** Membership in concatenations. *)
Ltac mem_solve :=
  try intros ?; rewrite ?elem_of_app, ?elem_of_cons, ?elem_of_nil in *; try tauto.

Section Arrival.
Context (fr : frame) (Hfr : frame_wf fr) (d : list Z) (s sid now : Z).
Hypothesis Hs4 : s mod 4 = 0.
Hypothesis Hs : 0 < s < 2 ^ 16.
Hypothesis Hcount : frag_count d s <= 32.
Hypothesis Hsid : 0 <= sid < N_SEQ_ID.
Hypothesis Hroom : FRAME_HEADROOM_FRAGMENT fr + zlen d <= BUF_SIZE fr.

Lemma covers_proper R R' : (forall i, i ∈ R <-> i ∈ R') -> covers d s R -> covers d s R'.
Proof using. intros HR Hc i Hi. by apply HR, Hc. Qed.

(** Fragments that do not complete the datagram produce nothing; the one that does
    produces it. *)
Lemma receive_all_spec o j : forall R m,
  (forall i, i ∈ R ++ o ++ [j] -> 0 <= i < frag_count d s) ->
  ~ covers d s (R ++ o) -> covers d s (R ++ o ++ [j]) -> slot fr d s sid R m ->
  exists m' outs out, receive_all now m (frag_bytes sid d s <$> o ++ [j]) fr = Ret (m', outs ++ [out]) /\
    length outs = length o /\ Forall (fun b => len b = 0) outs /\ content out = d.
Proof using Hfr Hs4 Hs Hcount Hsid Hroom.
  induction o as [|i o IH]; intros R m Hr Hn Hc Hm.
  - cbn [app] in *. rewrite fmap_cons, fmap_nil. cbn [receive_all].
    destruct (incoming_fragment fr Hfr d s sid Hs4 Hs Hcount Hsid Hroom now m R j [] []) as (m1 & out & -> & Hout); try done.
    { apply Hr. mem_solve. } { intros k Hk. apply Hr. mem_solve. }
    cbn [mbind outcome_mbind]. exists m1, [], out. split; [done|]. split; [done|]. split; [done|].
    destruct Hout as [(_ & Hout & _)|(Hnc & _)]; [done|]. destruct Hnc. eapply covers_proper; [|exact Hc]. mem_solve.
  - cbn [app]. rewrite fmap_cons. cbn [receive_all].
    destruct (incoming_fragment fr Hfr d s sid Hs4 Hs Hcount Hsid Hroom now m R i [] []) as (m1 & out & -> & Hout); try done.
    { apply Hr. mem_solve. } { intros k Hk. apply Hr. mem_solve. }
    cbn [mbind outcome_mbind]. destruct Hout as [(Hcv & _)|(_ & Hout & Hm1)].
    { destruct Hn. intros k Hk. specialize (Hcv k Hk). mem_solve. }
    destruct (IH (i :: R) m1) as (m2 & outs & out2 & -> & Hl & Hz & Hd2); try done.
    + intros k Hk. apply Hr. mem_solve.
    + intros Hcv. apply Hn. eapply covers_proper; [|exact Hcv]. mem_solve.
    + eapply covers_proper; [|exact Hc]. mem_solve.
    + cbn [mbind outcome_mbind]. exists m2, (out :: outs), out2. split; [done|]. split; [cbn; by rewrite Hl|].
      split; [by constructor|done].
Qed.
End Arrival.

(** C18: a datagram larger than the payload size is cut by [fragment_outgoing] and
    [fragment_ready_to_send] into packets from which the peer rebuilds exactly the
    datagram, whatever the order of their arrival and however often some of them are
    repeated: nothing comes out before all packets have arrived, and the datagram
    comes out with the arrival that completes them. *)
Theorem fragments_reassemble_in_any_order (fr : frame) (m r : fragment_master) (d pre post : list Z) (s now : Z) :
  frame_wf fr -> master_wf fr m -> flist_wf fr (incoming r) ->
  PAYLOAD_SIZE_DYNAMIC fr < zlen d -> FRAME_HEADROOM fr + zlen d <= BUF_SIZE fr ->
  FRAME_HEADROOM_FRAGMENT fr + zlen d <= BUF_SIZE fr ->
  optimal_fragment_size (zlen d) (PAYLOAD_SIZE_DYNAMIC fr) = Ret s -> zlen d <= s * MAX_FRAGS ->
  slot_free ((outgoing_seq_id m + 1) mod N_SEQ_ID) r ->
  exists m' l, fragment_send m (conc pre d post) fr = Ret (m', l) /\
    forall o j, (forall k, k ∈ o ++ [j] <-> (k < length l)%nat) -> ~ (forall k, (k < length l)%nat -> k ∈ o) ->
    exists r' outs out,
      receive_all now r ((fun k => content (l !!! k)) <$> o ++ [j]) fr = Ret (r', outs ++ [out]) /\
      length outs = length o /\ Forall (fun b => len b = 0) outs /\ content out = d.
Proof.
  intros Hfr Hm Hr Hp Hroom1 Hroom2 Hos Hmax Hfree. pose proof Hfr as (Hpay & _).
  destruct (optimal_fragment_size_spec (zlen d) (PAYLOAD_SIZE_DYNAMIC fr)) as (s' & Hos' & Hs4 & Hs & _); [lia..|].
  rewrite Hos in Hos'. injection Hos' as <-.
  destruct (fragment_send_spec fr m d pre post Hfr Hm Hp Hroom1) as (s' & Hos' & Hsend).
  rewrite Hos in Hos'. injection Hos' as <-. destruct (Hsend Hmax) as (m' & l & Hl & Hcont & _). clear Hsend.
  exists m', l. split; [done|]. intros o j Hperm Hnot.
  set (sid := (outgoing_seq_id m + 1) mod N_SEQ_ID) in *. set (n := frag_count d s) in *.
  assert (Hsid : 0 <= sid < N_SEQ_ID) by (apply Z.mod_pos_bound; done).
  assert (Hn0 : 0 <= n) by (unfold n, frag_count, ceil_div; apply Z.div_pos; lia).
  assert (Hn : n <= 32).
  { destruct (decide (n <= 32)); [done|]. destruct (frag_count_spec d s 32 ltac:(lia) ltac:(lia)) as [HA _].
    unfold MAX_FRAGS in Hmax. fold n in HA. lia. }
  assert (Hlen : Z.of_nat (length l) = n).
  { rewrite <- (length_fmap content), Hcont, length_fmap, length_seqZ. lia. }
  assert (Hj : (Z.of_nat <$> o) ++ [Z.of_nat j] = Z.of_nat <$> o ++ [j]) by (by rewrite fmap_app).
  assert (Hpk : (fun k => content (l !!! k)) <$> o ++ [j] = frag_bytes sid d s <$> (Z.of_nat <$> o) ++ [Z.of_nat j]).
  { rewrite Hj, <- list_fmap_compose. apply list_fmap_ext. intros i k Hk.
    assert (Hkl : (k < length l)%nat) by (apply Hperm; by eapply list_elem_of_lookup_2).
    destruct (lookup_lt_is_Some_2 l k Hkl) as [b Hb]. rewrite (list_lookup_total_correct _ _ _ Hb).
    assert (Hc : (content <$> l) !! k = Some (content b)) by (by rewrite list_lookup_fmap, Hb).
    rewrite Hcont, list_lookup_fmap in Hc. rewrite lookup_seqZ_lt in Hc by lia. cbn in Hc. injection Hc as <-. done. }
  rewrite Hpk.
  destruct (receive_all_spec fr Hfr d s sid now Hs4 ltac:(lia) Hn Hsid Hroom2 (Z.of_nat <$> o) (Z.of_nat j) [] r)
    as (r' & outs & out & Hrun & Ho1 & Ho2 & Ho3).
  - cbn [app]. intros i Hi. rewrite Hj in Hi.
    apply list_elem_of_fmap in Hi as (k & -> & Hk). apply Hperm in Hk. fold n. lia.
  - cbn [app]. intros Hc. apply Hnot. intros k Hk. specialize (Hc (Z.of_nat k)). fold n in Hc.
    apply list_elem_of_fmap in Hc as (k' & Hkk & Hk'); [|lia]. apply Nat2Z.inj in Hkk as ->. done.
  - cbn [app]. intros i Hi. fold n in Hi. rewrite Hj.
    apply list_elem_of_fmap. exists (Z.to_nat i). split; [lia|]. apply Hperm. lia.
  - by apply slot_free_slot.
  - exists r', outs, out. split; [done|]. split; [|done]. rewrite Ho1. by rewrite length_fmap.
Qed.

(** ** A concrete exchange *)

Definition sample_frame : frame := mkframe 10 16 16 64.

Definition sample_master : outcome fragment_master := fragment_frame_init (fragment_init 255) sample_frame.

Definition sample_datagram : list Z := seqZ 1 25.

(** Sender and receiver as they are after set-up. *)
Definition sample_m : fragment_master :=
  match sample_master with Ret m => m | _ => fragment_init 255 end.

Lemma sample_frame_ok : frame_wf sample_frame.
Proof. unfold frame_wf, BUF_SIZE_MAX; cbn. lia. Qed.

Lemma sample_buf_ok b : b = conc [] [] (replicate 64 0) -> frame_buf sample_frame b.
Proof. intros ->. split; [apply conc_wf; unfold fits, BUF_SIZE_MAX; zlia|reflexivity]. Qed.

Lemma sample_m_ok : master_wf sample_frame sample_m /\ flist_wf sample_frame (incoming sample_m).
Proof.
  split.
  - split; [vm_compute; split; [discriminate|reflexivity]|].
    split; apply sample_buf_ok; vm_compute; reflexivity.
  - split; [vm_compute; split; [discriminate|reflexivity]|]. split; [vm_compute; split; [discriminate|reflexivity]|].
    split; [reflexivity|]. apply Forall_forall. intros f Hf.
    change (fragments (incoming sample_m)) with
      (replicate 25 (mkfrag false 0 0 0 (conc [] [] (replicate 64 0)))) in Hf.
    apply list_elem_of_lookup_1 in Hf as [i Hi]. apply lookup_replicate in Hi as [-> _].
    by apply sample_buf_ok.
Qed.

Lemma fragments_reassemble_in_any_order_witness :
  exists m' l, fragment_send sample_m (conc [] sample_datagram []) sample_frame = Ret (m', l) /\
    forall o j, (forall k, k ∈ o ++ [j] <-> (k < length l)%nat) -> ~ (forall k, (k < length l)%nat -> k ∈ o) ->
    exists r' outs out,
      receive_all 1000 sample_m ((fun k => content (l !!! k)) <$> o ++ [j]) sample_frame = Ret (r', outs ++ [out]) /\
      length outs = length o /\ Forall (fun b => len b = 0) outs /\ content out = sample_datagram.
Proof.
  destruct sample_m_ok as [Hm Hr].
  apply (fragments_reassemble_in_any_order sample_frame sample_m sample_m sample_datagram [] [] 8 1000).
  - apply sample_frame_ok.
  - exact Hm.
  - exact Hr.
  - reflexivity.
  - vm_compute; discriminate.
  - vm_compute; discriminate.
  - reflexivity.
  - vm_compute; discriminate.
  - eexists _, _, _. split; [vm_compute; reflexivity|]. split; vm_compute; reflexivity.
Defined.

(** ** Robustness *)

Lemma buf_wf_set_len_0 b : buf_wf b -> buf_wf (set_len b 0).
Proof. intros (d & H1 & H2 & H3 & H4 & H5 & H6). exists d. cbn. split_and!; try done; lia. Qed.

Lemma buf_copy_range_wf pre c post spre x spost p :
  0 <= p -> fits pre c post ->
  exists b ok, buf_copy_range (conc pre c post) p (conc spre x spost) 0 (zlen x) = Ret (b, ok) /\
    buf_wf b /\ capacity b = zlen pre + zlen c + zlen post.
Proof.
  intros Hp HF. rewrite buf_copy_range_conc by done. destruct (_ <=? _) eqn:E; breflect.
  - eexists _, _. split; [reflexivity|]. assert (Hs : zlen (splice p x (c ++ post)) = zlen c + zlen post)
      by (rewrite zlen_splice; zlia).
    split; [apply conc_wf; unfold fits in *; autorewrite with zlen; rewrite Hs; zlen_facts; lia|].
    cbn. autorewrite with zlen; rewrite Hs; zlen_facts; lia.
  - eexists _, _. split; [reflexivity|]. split; [by apply conc_wf|done].
Qed.

(** C19: whatever bytes arrive, [fragment_incoming] returns: no assertion fails, no
    access leaves a buffer, the reassembly window stays well-formed and the buffer
    handed on is well-formed. *)
Theorem fragment_incoming_robust (fr : frame) (now : Z) (m : fragment_master) (b : buffer) :
  frame_wf fr -> flist_wf fr (incoming m) -> buf_wf b -> Forall is_u8 (content b) ->
  exists m' out, fragment_incoming now m b fr = Ret (m', out) /\ flist_wf fr (incoming m') /\ buf_wf out.
Proof.
  intros Hfr Hw Hb Hu. unfold fragment_incoming. destruct (0 <? len b); [|eauto].
  apply wf_conc in Hb as (pre & c & post & -> & HF). rewrite content_conc in Hu.
  rewrite buf_read_conc. destruct ((0 <=? 4) && (4 <=? zlen c)) eqn:E4; cbn [mbind outcome_mbind].
  2:{ eexists _, _. split; [reflexivity|]. split; [done|]. by apply buf_wf_set_len_0, conc_wf. }
  set (flags := be_value (ztake 4 c)). set (buf := conc (pre ++ ztake 4 c) (zdrop 4 c) post).
  assert (Hbw : buf_wf buf) by (apply conc_wf, fits_advance; [done|]; breflect; lia).
  assert (Hb0 : buf_wf (set_len buf 0)) by by apply buf_wf_set_len_0.
  destruct (hdr_type flags =? FRAG_WHOLE); [destruct (negb _); by eauto|].
  destruct ((hdr_type flags =? FRAG_YES_NOTLAST) || _); [|by eauto].
  destruct (hdr_fields flags) as (_ & Es & En & Ez).
  assert (Hsid : 0 <= hdr_seq_id flags < N_SEQ_ID) by (rewrite Es; unfold N_SEQ_ID; apply Z.mod_pos_bound; lia).
  assert (Hn : 0 <= hdr_id flags) by (rewrite En; apply Z.mod_pos_bound; lia).
  set (size := if hdr_type flags =? FRAG_YES_LAST then hdr_size flags else len buf).
  assert (Hsize : 0 <= size).
  { unfold size. destruct (_ =? _); [rewrite Ez; pose proof (Z.mod_pos_bound (flags / 2 ^ 15) (2 ^ 14)); lia|apply zlen_nonneg]. }
  destruct (get_buf_spec fr (incoming m) (hdr_seq_id flags) Hw Hsid) as (l & i & f & -> & Hsl). cbn [mbind outcome_mbind].
  pose proof Hsl as ((W1 & W2 & W3 & W4) & Hi & Hlk & _).
  assert (Hag : array_get (fragments l) i = Ret f) by (unfold array_get; rewrite W3; bdecide; by rewrite Hlk).
  rewrite Hag. cbn [mbind outcome_mbind]. destruct (negb (Z.land size _ =? 0)); [eexists _, _; by split; [reflexivity|]|].
  assert (Hfb : frame_buf fr (frag_buf f)).
  { rewrite Forall_forall in W4. apply (W4 f). by eapply list_elem_of_lookup_2. }
  assert (Hinit : exists f1, (if negb (defined f) || negb (max_frag_size f =? size)
      then let '(b, ok) := buf_init (frag_buf f) (FRAME_HEADROOM_FRAGMENT fr) in
           _ ← c_assert ok; Ret (mkfrag true size 0 (timestamp f) b)
      else Ret f) = Ret f1 /\ frame_buf fr (frag_buf f1)).
  { destruct (_ || _); [|by eauto]. destruct Hfr as (_ & _ & Hhf & _ & Hmax).
    destruct (buf_init_frame fr (frag_buf f) (FRAME_HEADROOM_FRAGMENT fr) Hfb Hhf) as (p1 & p2 & -> & H1 & H2).
    cbn. eexists. split; [reflexivity|]. split; cbn; [apply conc_wf; unfold fits; zlia|zlia]. }
  destruct Hinit as (f1 & -> & [Hw1 Hc1]). cbn [mbind outcome_mbind].
  apply wf_conc in Hw1 as (p1 & c1 & p2 & E1 & F1). rewrite E1 in Hc1 |- *. cbn [capacity conc] in Hc1.
  destruct (buf_copy_range_wf p1 c1 p2 (pre ++ ztake 4 c) (zdrop 4 c) post (hdr_id flags * size)) as (b & ok & Hcr & Hbf & Hcap);
    [nia|done|]. fold buf in Hcr. change (len buf) with (zlen (zdrop 4 c)). rewrite Hcr. cbn [mbind outcome_mbind].
  assert (Hset : forall g, frag_buf g = b -> flist_wf fr (set_fragment l i g)).
  { intros g Hg. apply (slot_at_set fr (hdr_seq_id flags) l i f g Hsl Hsid). rewrite Hg. split; [done|lia]. }
  destruct ok; cbn [negb]; [destruct (Z.land _ FRAG_MAP_MASK =? FRAG_MAP_MASK)|]; eexists _, _; (split; [reflexivity|]); (split; [by apply Hset|done]).
Qed.

Lemma fragment_incoming_robust_witness :
  exists m' out, fragment_incoming 1000 sample_m (conc [] [255; 255; 255; 254; 7] []) sample_frame = Ret (m', out) /\
    flist_wf sample_frame (incoming m') /\ buf_wf out.
Proof.
  apply (fragment_incoming_robust sample_frame 1000 sample_m).
  - apply sample_frame_ok.
  - apply sample_m_ok.
  - apply conc_wf. vm_compute; reflexivity.
  - repeat (apply Forall_cons; split; [unfold is_u8; lia|]). apply Forall_nil; exact I.
Defined.

(** [optimal_fragment_size] returns a multiple of 4, not above the maximum, with
    which the datagram takes exactly as many fragments as with the largest multiple
    of 4 that the maximum allows. *)
Theorem optimal_fragment_size_keeps_count (n mfs : Z) :
  4 <= mfs -> 0 < n ->
  exists s, optimal_fragment_size n mfs = Ret s /\ s mod 4 = 0 /\ 0 < s <= mfs /\
    ceil_div n s = ceil_div n (mfs - mfs mod 4).
Proof. apply optimal_fragment_size_spec. Qed.

Lemma optimal_fragment_size_keeps_count_witness :
  exists s, optimal_fragment_size 1500 1203 = Ret s /\ s mod 4 = 0 /\ 0 < s <= 1203 /\
    ceil_div 1500 s = ceil_div 1500 (1203 - 1203 mod 4).
Proof. apply (optimal_fragment_size_keeps_count 1500 1203); lia. Defined.

(** The check for spurious flags of a whole packet misses most of them: the
    masks are applied to the unshifted header, so a packet of type [FRAG_WHOLE]
    that carries any fragment number, and a sequence number whose low six bits are
    zero, is accepted as a whole datagram. *)
Theorem whole_packet_with_fragment_id_accepted (fr : frame) (now : Z) (m : fragment_master) (sid i : Z)
    (c pre post : list Z) :
  0 <= i < 32 -> 0 <= sid < 256 -> sid mod 64 = 0 ->
  fragment_incoming now m (conc pre (be_bytes 4 (frag_flags FRAG_WHOLE sid i 0) ++ c) post) fr =
    Ret (m, conc (pre ++ be_bytes 4 (frag_flags FRAG_WHOLE sid i 0)) c post).
Proof.
  intros Hi Hs H64. unfold fragment_incoming. set (flags := frag_flags FRAG_WHOLE sid i 0).
  cbn [len conc]. rewrite zlen_app, zlen_be_bytes. zlen_facts. bdecide.
  fold (conc pre (be_bytes 4 flags ++ c) post). rewrite buf_read_front by by rewrite zlen_be_bytes.
  assert (Hw : 0 <= FRAG_WHOLE < 4) by done.
  cbn [mbind outcome_mbind]. rewrite be_value_bytes4 by (by apply frag_flags_u32).
  destruct (hdr_frag_flags FRAG_WHOLE sid i 0 Hw Hs Hi) as (Et & _). fold flags in Et. rewrite Et. cbn [Z.eqb FRAG_WHOLE].
  assert (Hz : Z.land flags (Z.lor FRAG_SEQ_ID_MASK FRAG_ID_MASK) = 0).
  { change (Z.lor FRAG_SEQ_ID_MASK FRAG_ID_MASK) with (2 ^ 8 - 1). rewrite land_mask by lia. unfold flags.
    rewrite frag_flags_value by done. cbn [Z.eqb FRAG_WHOLE orb]. change (2 ^ 8) with 256.
    symmetry. apply (Z.mod_unique _ _ (sid / 64 + i * 4)); [lia|].
    pose proof (Z.div_mod sid 64). unfold FRAG_WHOLE. lia. }
  by rewrite Hz.
Qed.

Lemma whole_packet_with_fragment_id_accepted_witness :
  fragment_incoming 1000 sample_m (conc [] (be_bytes 4 (frag_flags FRAG_WHOLE 64 7 0) ++ [1; 2]) []) sample_frame =
    Ret (sample_m, conc ([] ++ be_bytes 4 (frag_flags FRAG_WHOLE 64 7 0)) [1; 2] []).
Proof. apply (whole_packet_with_fragment_id_accepted sample_frame 1000 sample_m 64 7); [lia|lia|reflexivity]. Defined.
