(* ===== verification/Pool.v ===== *)
(** * The pool of client addresses ([pool.c], [pool.h])

    A server hands each client an address (or a /30 network) from a range; an entry
    remembers the common name of its last client and when it was released, so that a
    client gets its previous address back when it is still free.  IPv4 addresses
    are 32-bit integers in host order, IPv6 addresses 16 bytes.  Common names are
    strings; [None] is the null pointer. *)
From S2P Require Import Prelude Integer.
From stdpp Require Import strings.
#[local] Open Scope Z_scope.

Definition IFCONFIG_POOL_MAX : Z := 65536.

Inductive pool_type : Type := IFCONFIG_POOL_30NET | IFCONFIG_POOL_INDIV.

(** [struct ifconfig_pool_entry] *)
Record ifconfig_pool_entry : Type := mkipe {
  in_use : bool;
  common_name : option string;
  last_release : Z;
  fixed : bool
}.

(** [struct ifconfig_pool] *)
Record ifconfig_pool : Type := mkpool {
  duplicate_cn : bool;
  ipv4_type : pool_type;
  ipv4_base : Z;
  ipv4_size : Z;
  ipv6_enabled : bool;
  ipv6_base : list Z;
  ipv6_size : Z;
  pool_list : list ifconfig_pool_entry
}.

Definition set_list (p : ifconfig_pool) (l : list ifconfig_pool_entry) : ifconfig_pool :=
  mkpool (duplicate_cn p) (ipv4_type p) (ipv4_base p) (ipv4_size p) (ipv6_enabled p) (ipv6_base p) (ipv6_size p) l.

Definition ifconfig_pool_entry_free (now : Z) (ipe : ifconfig_pool_entry) (hard : bool) : ifconfig_pool_entry :=
  mkipe false
    (if hard then None else common_name ipe)
    (if hard then 0 else now)
    (fixed ipe).

(** [common_name && ipe->common_name && !strcmp (common_name, ipe->common_name)] *)
Definition same_name (cn : option string) (ipe : ifconfig_pool_entry) : bool :=
  match cn, common_name ipe with
  | Some a, Some b => bool_decide (a = b)
  | _, _ => false
  end.

(** The loop of [ifconfig_pool_find] from index [i]; returns [previous_usage] and
    [new_usage]. *)
Fixpoint ifconfig_pool_find_loop (dup : bool) (cn : option string) (l : list ifconfig_pool_entry)
    (i earliest_release previous_usage new_usage : Z) : Z * Z :=
  match l with
  | [] => (previous_usage, new_usage)
  | ipe :: l =>
      if negb (in_use ipe)
      then
        if dup then (previous_usage, i)
        else
          let '(earliest_release, new_usage) :=
            if ((new_usage =? -1) || (last_release ipe <? earliest_release)) && negb (fixed ipe)
            then (last_release ipe, i) else (earliest_release, new_usage) in
          let previous_usage :=
            if (previous_usage <? 0) && same_name cn ipe then i else previous_usage in
          ifconfig_pool_find_loop dup cn l (i + 1) earliest_release previous_usage new_usage
      else ifconfig_pool_find_loop dup cn l (i + 1) earliest_release previous_usage new_usage
  end.

Definition ifconfig_pool_find (p : ifconfig_pool) (cn : option string) : Z :=
  let '(previous_usage, new_usage) :=
    ifconfig_pool_find_loop (duplicate_cn p) cn (ztake (ipv4_size p) (pool_list p)) 0 0 (-1) (-1) in
  if 0 <=? previous_usage then previous_usage
  else if 0 <=? new_usage then new_usage
  else -1.

Definition ifconfig_pool_verify_range (start end_ : Z) : bool :=
  negb (end_ <? start) && negb (IFCONFIG_POOL_MAX <=? end_ -u start).

(** [ifconfig_pool_init].  With more than 96 network bits the shift count is at most
    31; [1 << 31] is read back as the unsigned 2^31, as the compilers do. *)
Definition ifconfig_pool_init (type : pool_type) (start end_ : Z) (dup : bool)
    (ipv6_pool : bool) (v6base : list Z) (ipv6_netbits : Z) : outcome ifconfig_pool :=
  _ ← c_assert ((start <=? end_) && (end_ -u start <? IFCONFIG_POOL_MAX));
  let base :=
    match type with
    | IFCONFIG_POOL_30NET => Z.land start (u32 (Z.lnot 3))
    | IFCONFIG_POOL_INDIV => start
    end in
  let size :=
    match type with
    | IFCONFIG_POOL_30NET => Z.shiftr ((Z.lor end_ 3 +u 1) -u base) 2
    | IFCONFIG_POOL_INDIV => (end_ -u start) +u 1
    end in
  let v6size := if 96 <? ipv6_netbits then Z.shiftl 1 (128 - ipv6_netbits) else IFCONFIG_POOL_MAX in
  _ ← (if ipv6_pool then c_assert (size <? v6size) else Ret tt);
  Ret (mkpool dup type base size ipv6_pool
         (if ipv6_pool then v6base else replicate 16 0) (if ipv6_pool then v6size else 0)
         (replicate (Z.to_nat size) (mkipe false None 0 false))).

(** [add_in6_addr] ([socket.c]): the loop from byte [i] down to 0; the address is
    kept with its last byte first, so that the loop is on its head. *)
Fixpoint add_in6_addr_loop (bytes : list Z) (add : Z) : list Z :=
  match bytes with
  | [] => []
  | h :: bytes =>
      if 0 <? add
      then
        let carry := Z.shiftr (Z.land h 0xff + Z.land add 0xff) 8 in
        Z.land (h +u add) 255 :: add_in6_addr_loop bytes (Z.shiftr add 8 +u carry)
      else h :: bytes
  end.

Definition add_in6_addr (base : list Z) (add : Z) : list Z := rev (add_in6_addr_loop (rev base) add).

(** The addresses stored through [local], [remote] and [remote_ipv6]. *)
Record lease : Type := mklease { l_local : Z; l_remote : Z; l_remote_ipv6 : option (list Z) }.

Definition pool_addresses (p : ifconfig_pool) (i : Z) (want_ipv6 : bool) : lease :=
  let '(local, remote) :=
    match ipv4_type p with
    | IFCONFIG_POOL_30NET => let b := ipv4_base p +u Z.shiftl i 2 in (b +u 1, b +u 2)
    | IFCONFIG_POOL_INDIV => (0, ipv4_base p +u i)
    end in
  mklease local remote
    (if ipv6_enabled p && want_ipv6 then Some (add_in6_addr (ipv6_base p) i) else None).

(** The new pool, the handle, and the addresses when the handle is valid. *)
Definition ifconfig_pool_acquire (now : Z) (p : ifconfig_pool) (want_ipv6 : bool) (cn : option string)
  : outcome (ifconfig_pool * Z * option lease) :=
  let i := ifconfig_pool_find p cn in
  if 0 <=? i
  then
    ipe ← array_get (pool_list p) i;
    _ ← c_assert (negb (in_use ipe));
    let ipe := ifconfig_pool_entry_free now ipe true in
    let ipe := mkipe true (match cn with Some _ => cn | None => common_name ipe end) (last_release ipe) (fixed ipe) in
    l ← array_set (pool_list p) i ipe;
    Ret (set_list p l, i, Some (pool_addresses p i want_ipv6))
  else Ret (p, i, None).

Definition ifconfig_pool_release (now : Z) (p : ifconfig_pool) (hand : Z) (hard : bool)
  : outcome (ifconfig_pool * bool) :=
  if (0 <=? hand) && (hand <? ipv4_size p)
  then
    ipe ← array_get (pool_list p) hand;
    l ← array_set (pool_list p) hand (ifconfig_pool_entry_free now ipe hard);
    Ret (set_list p l, true)
  else Ret (p, false).

(** [ret] is an [int]. *)
Definition ifconfig_pool_ip_base_to_handle (p : ifconfig_pool) (addr : Z) : Z :=
  let ret :=
    match ipv4_type p with
    | IFCONFIG_POOL_30NET => i32 (Z.shiftr (addr -u ipv4_base p) 2)
    | IFCONFIG_POOL_INDIV => i32 (addr -u ipv4_base p)
    end in
  if (ret <? 0) || (ipv4_size p <=? ret) then -1 else ret.

Definition ifconfig_pool_handle_to_ip_base (p : ifconfig_pool) (hand : Z) : Z :=
  if (0 <=? hand) && (hand <? ipv4_size p)
  then
    match ipv4_type p with
    | IFCONFIG_POOL_30NET => ipv4_base p +u Z.shiftl hand 2
    | IFCONFIG_POOL_INDIV => ipv4_base p +u hand
    end
  else 0.

Definition ifconfig_pool_handle_to_ipv6_base (p : ifconfig_pool) (hand : Z) : list Z :=
  if (0 <=? hand) && (hand <? ipv6_size p) then add_in6_addr (ipv6_base p) hand else replicate 16 0.

Definition ifconfig_pool_set (now : Z) (p : ifconfig_pool) (cn : string) (addr : Z) (fx : bool)
  : outcome ifconfig_pool :=
  let h := ifconfig_pool_ip_base_to_handle p addr in
  if 0 <=? h
  then
    _ ← array_get (pool_list p) h;
    l ← array_set (pool_list p) h (mkipe false (Some cn) now fx);
    Ret (set_list p l)
  else Ret p.
