(* ===== verification/PoolSpec.v ===== *)
(** * Correctness of the address pool

    No two clients ever hold the same address, addresses come from the configured
    range, an address is refused only when none is available, a returning client
    gets its previous address and other clients the one released longest ago, and
    the IPv6 address arithmetic is 128-bit addition. *)
From S2P Require Import Prelude Integer Pool.
From stdpp Require Import strings.
#[local] Open Scope Z_scope.

(** ** Well-formed pools *)

(** Number of addresses of an entry. *)
Definition stride (t : pool_type) : Z := match t with IFCONFIG_POOL_30NET => 4 | IFCONFIG_POOL_INDIV => 1 end.

Definition pool_wf (p : ifconfig_pool) : Prop :=
  0 <= ipv4_size p <= IFCONFIG_POOL_MAX /\ zlen (pool_list p) = ipv4_size p /\
  0 <= ipv4_base p /\ ipv4_base p + stride (ipv4_type p) * ipv4_size p <= 2 ^ 32.

Lemma land_align x : is_u32 x -> Z.land x (u32 (Z.lnot 3)) = x - x mod 4.
Proof.
  intros Hx. change (u32 (Z.lnot 3)) with (Z.land (Z.ones 32) (Z.lnot 3)).
  rewrite Z.land_assoc, Z.land_ones, Z.mod_small by (unfold is_u32 in Hx; lia).
  apply (land_lnot_mask x 2). lia.
Qed.

Lemma lor_align x : Z.lor x 3 = x - x mod 4 + 3.
Proof.
  pose proof (Z.sub_lor_l_same_r x 3) as H. pose proof (land_lnot_mask x 2 ltac:(lia)) as H2.
  change (2 ^ 2) with 4 in H2. change (4 - 1) with 3 in H2. lia.
Qed.

(** Number of entries of the pool of a range: its addresses, or the /30 networks that meet it. *)
Definition range_entries (type : pool_type) (start end_ : Z) : Z :=
  match type with
  | IFCONFIG_POOL_INDIV => end_ - start + 1
  | IFCONFIG_POOL_30NET => end_ / 4 - start / 4 + 1
  end.

(** Number of addresses of an IPv6 pool with [nb] network bits. *)
Definition v6_addresses (nb : Z) : Z := if 96 <? nb then 2 ^ (128 - nb) else IFCONFIG_POOL_MAX.

(** What stays as the pool was set up. *)
Definition setup (p : ifconfig_pool) : pool_type * Z * Z * bool * list Z :=
  (ipv4_type p, ipv4_base p, ipv4_size p, ipv6_enabled p, ipv6_base p).

(** The pool covers the configured range: the addresses themselves, or the /30
    networks that meet it. *)
Lemma pool_init_spec type start end_ dup v6 v6base nb :
  0 <= start <= end_ -> end_ < 2 ^ 32 -> end_ - start < IFCONFIG_POOL_MAX ->
  (v6 = true -> nb <= 128 /\ range_entries type start end_ < v6_addresses nb) ->
  exists p, ifconfig_pool_init type start end_ dup v6 v6base nb = Ret p /\ pool_wf p /\
    duplicate_cn p = dup /\ ipv4_type p = type /\ ipv6_enabled p = v6 /\ (v6 = true -> ipv6_base p = v6base) /\
    ipv4_size p = range_entries type start end_ /\
    Forall (fun e => e = mkipe false None 0 false) (pool_list p) /\
    match type with
    | IFCONFIG_POOL_INDIV => ipv4_base p = start /\ ipv4_base p + ipv4_size p = end_ + 1
    | IFCONFIG_POOL_30NET =>
        ipv4_base p = start - start mod 4 /\ ipv4_base p + 4 * ipv4_size p = end_ - end_ mod 4 + 4
    end.
Proof.
  intros H1 H2 H3 H6. unfold IFCONFIG_POOL_MAX in *. unfold ifconfig_pool_init.
  assert (Hd : end_ -u start = end_ - start) by (apply u32_id; unfold is_u32; lia).
  rewrite Hd. unfold IFCONFIG_POOL_MAX. bdecide. cbn [c_assert mbind outcome_mbind].
  set (base := match type with IFCONFIG_POOL_30NET => _ | IFCONFIG_POOL_INDIV => start end).
  set (size := match type with IFCONFIG_POOL_30NET => _ | IFCONFIG_POOL_INDIV => _ end).
  assert (Hbs : match type with
    | IFCONFIG_POOL_INDIV => base = start /\ base + size = end_ + 1
    | IFCONFIG_POOL_30NET => base = start - start mod 4 /\ base + 4 * size = end_ - end_ mod 4 + 4 end).
  { unfold size, base. destruct type.
    - rewrite land_align, lor_align by (unfold is_u32; lia). split; [done|].
      rewrite Z.shiftr_div_pow2 by lia. change (2 ^ 2) with 4.
      assert (Hw : (end_ - end_ mod 4 + 3 +u 1) -u (start - start mod 4) = end_ - end_ mod 4 + 4 - (start - start mod 4)) by uwrap.
      rewrite Hw. Z.div_mod_to_equations. lia.
    - split; [done|]. rewrite u32_id by (unfold is_u32; lia). lia. }
  assert (Hs : 0 <= size <= 65536 /\ 0 <= base /\ base + stride type * size <= 2 ^ 32 /\ size <= end_ - start + 1).
  { destruct type; destruct Hbs as [E1 E2]; cbn [stride]; rewrite ?E1 in *; Z.div_mod_to_equations; lia. }
  assert (He : size = range_entries type start end_).
  { clearbody size base. unfold range_entries. destruct type; destruct Hbs as [E1 E2]; rewrite ?E1 in E2; Z.div_mod_to_equations; lia. }
  assert (Ha : (if v6 then c_assert (size <? (if 96 <? nb then Z.shiftl 1 (128 - nb) else 65536)) else Ret tt) = Ret tt).
  { destruct v6; [|done]. destruct (H6 eq_refl) as [Hn Hlt]. unfold v6_addresses, IFCONFIG_POOL_MAX in Hlt. rewrite <- He in Hlt.
    destruct (96 <? nb); [rewrite Z.shiftl_mul_pow2, Z.mul_1_l by lia|]; bdecide; done. }
  rewrite Ha. cbn [mbind outcome_mbind]. eexists. split; [reflexivity|].
  cbn [duplicate_cn ipv4_type ipv6_enabled ipv6_base pool_list ipv4_base ipv4_size]. split_and!; try done; [|by intros ->|].
  - split; [cbn; unfold IFCONFIG_POOL_MAX; lia|]. cbn. split; [rewrite zlen_replicate; lia|lia].
  - apply Forall_replicate. done.
Qed.

(** ** The choice of an entry *)

Definition free_at (l : list ifconfig_pool_entry) (k : nat) (e : ifconfig_pool_entry) : Prop :=
  l !! k = Some e /\ in_use e = false.

Lemma free_at_snoc l x k e : free_at (l ++ [x]) k e <-> free_at l k e \/ (k = length l /\ e = x /\ in_use x = false).
Proof.
  unfold free_at. rewrite lookup_snoc_Some. split.
  - intros [[[_ H]|[-> <-]] Hu]; auto.
  - intros [[H Hu]|(-> & -> & Hu)]; [|auto]. split; [|done]. left. split; [by eapply lookup_lt_Some|done].
Qed.

Section Find.
Context (cn : option string).

(** What the two candidates are after the entries [l]. *)
Definition prev_ok (l : list ifconfig_pool_entry) (pu : Z) : Prop :=
  (pu = -1 /\ forall k e, free_at l k e -> same_name cn e = false) \/
  exists k e, pu = Z.of_nat k /\ free_at l k e /\ same_name cn e = true /\
    forall k' e', free_at l k' e' -> same_name cn e' = true -> (k <= k')%nat.

Definition new_ok (l : list ifconfig_pool_entry) (er nu : Z) : Prop :=
  (nu = -1 /\ forall k e, free_at l k e -> fixed e = true) \/
  exists k e, nu = Z.of_nat k /\ free_at l k e /\ fixed e = false /\ er = last_release e /\
    forall k' e', free_at l k' e' -> fixed e' = false -> last_release e <= last_release e'.

Lemma prev_ok_step l x pu :
  prev_ok l pu ->
  prev_ok (l ++ [x]) (if negb (in_use x) && ((pu <? 0) && same_name cn x) then zlen l else pu).
Proof using.
  intros [[-> Hn]|(k & e & -> & Hk & Hs & Hmin)].
  - destruct (in_use x) eqn:Eu; cbn [negb andb Z.ltb Z.compare].
    + left. split; [done|]. intros k e [H|(_ & -> & ?)]%free_at_snoc; [eauto|congruence].
    + destruct (same_name cn x) eqn:Es.
      * right. exists (length l), x. split; [done|]. split; [apply free_at_snoc; auto|]. split; [done|].
        intros k' e' [H|(-> & _)]%free_at_snoc Hs'; [|lia]. by rewrite (Hn _ _ H) in Hs'.
      * left. split; [done|]. intros k e [H|(_ & -> & _)]%free_at_snoc; eauto.
  - bdecide. rewrite andb_false_r. right. exists k, e. split; [done|]. split; [apply free_at_snoc; auto|]. split; [done|].
    intros k' e' [H|(-> & _)]%free_at_snoc Hs'; [eauto|]. destruct Hk as [Hk _]. apply lookup_lt_Some in Hk. lia.
Qed.

Lemma new_ok_step l x er nu :
  new_ok l er nu ->
  let b := negb (in_use x) && (((nu =? -1) || (last_release x <? er)) && negb (fixed x)) in
  new_ok (l ++ [x]) (if b then last_release x else er) (if b then zlen l else nu).
Proof using.
  intros H b. destruct (in_use x) eqn:Eu; [|destruct (fixed x) eqn:Ef].
  - unfold b. cbn [negb andb]. destruct H as [[-> Hn]|(k & e & -> & Hk & Hf & He & Hmin)].
    + left. split; [done|]. intros k e [H|(_ & -> & ?)]%free_at_snoc; [eauto|congruence].
    + right. exists k, e. split; [done|]. split; [apply free_at_snoc; auto|]. split; [done|]. split; [done|].
      intros k' e' [H|(_ & -> & ?)]%free_at_snoc Hf'; [eauto|congruence].
  - unfold b. cbn [negb]. rewrite andb_false_r. cbn [andb]. destruct H as [[-> Hn]|(k & e & -> & Hk & Hf & He & Hmin)].
    + left. split; [done|]. intros k e [H|(_ & -> & _)]%free_at_snoc; eauto.
    + right. exists k, e. split; [done|]. split; [apply free_at_snoc; auto|]. split; [done|]. split; [done|].
      intros k' e' [H|(_ & -> & _)]%free_at_snoc Hf'; [eauto|congruence].
  - destruct H as [[-> Hn]|(k & e & -> & Hk & Hf & He & Hmin)].
    + unfold b. cbn. right. exists (length l), x. split; [done|]. split; [apply free_at_snoc; auto|]. split; [done|].
      split; [done|]. intros k' e' [H|(_ & -> & _)]%free_at_snoc Hf'; [|lia]. by rewrite (Hn _ _ H) in Hf'.
    + unfold b. replace (Z.of_nat k =? -1) with false by (symmetry; apply Z.eqb_neq; lia).
      cbn [negb andb orb]. rewrite andb_true_r. destruct (last_release x <? er) eqn:El; breflect.
      * right. exists (length l), x. split; [done|]. split; [apply free_at_snoc; auto|]. split; [done|]. split; [done|].
        intros k' e' [H|(_ & -> & _)]%free_at_snoc Hf'; [|lia]. specialize (Hmin _ _ H Hf'). lia.
      * right. exists k, e. split; [done|]. split; [apply free_at_snoc; auto|]. split; [done|]. split; [done|].
        intros k' e' [H|(_ & -> & _)]%free_at_snoc Hf'; [eauto|lia].
Qed.

Lemma find_loop_spec l : forall l0 er pu nu,
  prev_ok l0 pu -> new_ok l0 er nu ->
  let '(pu', nu') := ifconfig_pool_find_loop false cn l (zlen l0) er pu nu in
  prev_ok (l0 ++ l) pu' /\ exists er', new_ok (l0 ++ l) er' nu'.
Proof using.
  induction l as [|x l IH]; intros l0 er pu nu Hp Hn; cbn [ifconfig_pool_find_loop].
  { rewrite app_nil_r. eauto. }
  pose proof (prev_ok_step l0 x pu Hp) as Hp'. pose proof (new_ok_step l0 x er nu Hn) as Hn'. cbv zeta in Hn'.
  replace (zlen l0 + 1) with (zlen (l0 ++ [x])) by zlia.
  replace (l0 ++ x :: l) with ((l0 ++ [x]) ++ l) by (by rewrite <- app_assoc).
  destruct (in_use x); cbn [negb andb] in *; [by apply (IH (l0 ++ [x]))|].
  destruct (((nu =? -1) || (last_release x <? er)) && negb (fixed x)); by apply (IH (l0 ++ [x])).
Qed.

Lemma find_loop_dup l i er nu :
  0 <= i ->
  (exists k e, ifconfig_pool_find_loop true cn l i er (-1) nu = (-1, i + Z.of_nat k) /\ free_at l k e) \/
  (ifconfig_pool_find_loop true cn l i er (-1) nu = (-1, nu) /\ forall k e, ~ free_at l k e).
Proof using.
  revert i. induction l as [|x l IH]; intros i Hi; cbn [ifconfig_pool_find_loop].
  { right. split; [done|]. intros k e [H _]. done. }
  destruct (in_use x) eqn:Eu; cbn [negb].
  - destruct (IH (i + 1) ltac:(lia)) as [(k & e & -> & Hk)|[-> Hn]].
    + left. exists (S k), e. split; [f_equal; lia|done].
    + right. split; [done|]. intros [|k] e [H Hu]; [cbn in H; congruence|]. by apply (Hn k e).
  - left. exists 0%nat, x. split; [f_equal; lia|done].
Qed.
End Find.

(** The entry [ifconfig_pool_find] may choose for a client. *)
Definition available (p : ifconfig_pool) (cn : option string) (e : ifconfig_pool_entry) : Prop :=
  duplicate_cn p = true \/ fixed e = false \/ same_name cn e = true.

Lemma pool_find_spec p cn :
  pool_wf p ->
  (ifconfig_pool_find p cn = -1 /\ forall k e, free_at (pool_list p) k e -> ~ available p cn e) \/
  exists k e, ifconfig_pool_find p cn = Z.of_nat k /\ free_at (pool_list p) k e /\ available p cn e /\
    (duplicate_cn p = false ->
     (same_name cn e = true /\ forall k' e', free_at (pool_list p) k' e' -> same_name cn e' = true -> (k <= k')%nat) \/
     (fixed e = false /\ (forall k' e', free_at (pool_list p) k' e' -> same_name cn e' = false) /\
      forall k' e', free_at (pool_list p) k' e' -> fixed e' = false -> last_release e <= last_release e')).
Proof.
  intros (_ & Hl & _). unfold ifconfig_pool_find, available. rewrite ztake_all by lia.
  destruct (duplicate_cn p) eqn:Ed.
  - destruct (find_loop_dup cn (pool_list p) 0 0 (-1) ltac:(lia)) as [(k & e & -> & Hk)|[-> Hn]].
    + right. exists k, e. cbn [Z.leb Z.compare]. bdecide. split; [lia|]. split; [done|]. split; [by left|done].
    + left. split; [done|]. intros k e H. by destruct (Hn k e).
  - pose proof (find_loop_spec cn (pool_list p) [] 0 (-1) (-1)) as HL. change (zlen (@nil ifconfig_pool_entry)) with 0 in HL.
    assert (H0 : forall k e, ~ free_at [] k e) by (intros k e [H _]; done).
    destruct (ifconfig_pool_find_loop false cn (pool_list p) 0 0 (-1) (-1)) as [pu nu].
    destruct HL as [HP [er HN]]; [left; split; [done|]; intros k e H; by destruct (H0 k e)..|]. cbn [app] in *.
    destruct HP as [[-> HP]|(k & e & -> & Hk & Hs & Hmin)].
    + cbn [Z.leb Z.compare]. destruct HN as [[-> HN]|(k & e & -> & Hk & Hf & _ & Hmin)].
      * left. split; [done|]. intros k e Hk [?|[Hf|Hf]]; [done|by rewrite (HN _ _ Hk) in Hf|by rewrite (HP _ _ Hk) in Hf].
      * right. exists k, e. bdecide. split; [done|]. split; [done|]. split; [by auto|]. intros _. right. eauto.
    + right. exists k, e. bdecide. split; [done|]. split; [done|]. split; [by auto|]. intros _. left. eauto.
Qed.

(** ** Acquiring and releasing *)

Lemma pool_acquire_spec now p want cn :
  pool_wf p ->
  (ifconfig_pool_acquire now p want cn = Ret (p, -1, None) /\
   forall k e, free_at (pool_list p) k e -> ~ available p cn e) \/
  exists k e,
    ifconfig_pool_acquire now p want cn =
      Ret (set_list p (<[k := mkipe true cn 0 (fixed e)]> (pool_list p)), Z.of_nat k,
           Some (pool_addresses p (Z.of_nat k) want)) /\
    ifconfig_pool_find p cn = Z.of_nat k /\ free_at (pool_list p) k e.
Proof.
  intros Hw. unfold ifconfig_pool_acquire.
  destruct (pool_find_spec p cn Hw) as [[-> Hn]|(k & e & Hf & Hk & _)]; [left; split; done|].
  right. exists k, e. rewrite Hf. bdecide. pose proof Hk as [Hlk Hu]. pose proof (lookup_lt_Some _ _ _ Hlk).
  destruct (array_get_in (pool_list p) (Z.of_nat k)) as (e' & -> & He'); [unfold zlen; lia|].
  rewrite Nat2Z.id in He'. rewrite Hlk in He'. injection He' as <-. cbn [mbind outcome_mbind]. rewrite Hu.
  cbn [negb c_assert mbind outcome_mbind]. rewrite array_set_in by (unfold zlen; lia).
  cbn [mbind outcome_mbind]. rewrite Nat2Z.id. split; [|done]. by destruct cn.
Qed.

Lemma pool_wf_insert p k e : pool_wf p -> pool_wf (set_list p (<[k := e]> (pool_list p))).
Proof. intros (H1 & H2 & H3). unfold pool_wf; cbn. by rewrite zlen_insert. Qed.

Lemma pool_release_spec now p h hard :
  pool_wf p ->
  (0 <= h < ipv4_size p /\ exists e, pool_list p !! Z.to_nat h = Some e /\
     ifconfig_pool_release now p h hard =
       Ret (set_list p (<[Z.to_nat h := ifconfig_pool_entry_free now e hard]> (pool_list p)), true)) \/
  (~ 0 <= h < ipv4_size p /\ ifconfig_pool_release now p h hard = Ret (p, false)).
Proof.
  intros (H1 & H2 & H3). unfold ifconfig_pool_release. destruct (_ && _) eqn:E; breflect.
  - left. split; [lia|]. destruct (array_get_in (pool_list p) h ltac:(lia)) as (e & -> & He). exists e. split; [done|].
    cbn [mbind outcome_mbind]. by rewrite array_set_in by lia.
  - right. split; [|done]. intros ?. destruct E; breflect; lia.
Qed.

Lemma pool_set_spec now p cn addr fx :
  pool_wf p -> exists p', ifconfig_pool_set now p cn addr fx = Ret p' /\ pool_wf p' /\
    setup p' = setup p.
Proof.
  intros Hw. pose proof Hw as (H1 & H2 & _). unfold ifconfig_pool_set.
  destruct (0 <=? _) eqn:E; breflect; [|by exists p].
  assert (Hh : ifconfig_pool_ip_base_to_handle p addr < ipv4_size p).
  { clear E. unfold ifconfig_pool_ip_base_to_handle. set (r := match ipv4_type p with IFCONFIG_POOL_30NET => _ | _ => _ end).
    destruct (_ || _) eqn:Eo; breflect; lia. }
  destruct (array_get_in (pool_list p) (ifconfig_pool_ip_base_to_handle p addr) ltac:(lia)) as (e & -> & _).
  cbn [mbind outcome_mbind]. rewrite array_set_in by lia. eexists. split; [reflexivity|]. by split; [apply pool_wf_insert|].
Qed.

(** ** Histories of a server *)

(** The records of the persistence file, entered one by one at start-up. *)
Fixpoint pool_load (now : Z) (p : ifconfig_pool) (recs : list (string * Z * bool)) : outcome ifconfig_pool :=
  match recs with
  | [] => Ret p
  | (cn, addr, fx) :: recs => p ← ifconfig_pool_set now p cn addr fx; pool_load now p recs
  end.

Lemma pool_load_spec now recs : forall p,
  pool_wf p -> exists p', pool_load now p recs = Ret p' /\ pool_wf p' /\
    setup p' = setup p.
Proof.
  induction recs as [|[[cn addr] fx] recs IH]; intros p Hw; cbn [pool_load]; [by exists p|].
  destruct (pool_set_spec now p cn addr fx Hw) as (p1 & -> & Hw1 & <-). cbn [mbind outcome_mbind]. by apply IH.
Qed.

Inductive pool_op : Type :=
| Acquire (cn : option string) (want_ipv6 : bool)
| Release (h : Z) (hard : bool).

(** The pool and the leases that are held: acquired under a handle that has not been
    released since. *)
Definition pool_step (now : Z) (s : ifconfig_pool * list (Z * lease)) (op : pool_op)
  : outcome (ifconfig_pool * list (Z * lease)) :=
  let '(p, held) := s in
  match op with
  | Acquire cn want =>
      '(p, h, r) ← ifconfig_pool_acquire now p want cn;
      Ret (p, match r with Some a => (h, a) :: held | None => held end)
  | Release h hard =>
      '(p, _) ← ifconfig_pool_release now p h hard;
      Ret (p, filter (fun x => x.1 <> h) held)
  end.

Fixpoint pool_run (s : ifconfig_pool * list (Z * lease)) (ops : list (Z * pool_op))
  : outcome (ifconfig_pool * list (Z * lease)) :=
  match ops with
  | [] => Ret s
  | (now, op) :: ops => s ← pool_step now s op; pool_run s ops
  end.

(** The held leases are those of distinct entries that are in use. *)
Definition held_inv (p : ifconfig_pool) (held : list (Z * lease)) : Prop :=
  NoDup held.*1 /\
  forall h a, (h, a) ∈ held -> exists e want, 0 <= h < ipv4_size p /\
    pool_list p !! Z.to_nat h = Some e /\ in_use e = true /\ a = pool_addresses p h want.

Lemma held_inv_insert p held k e e0 :
  held_inv p held -> pool_list p !! k = Some e0 ->
  (in_use e0 = true -> in_use e = true) \/ (forall h a, (h, a) ∈ held -> Z.to_nat h <> k) ->
  held_inv (set_list p (<[k := e]> (pool_list p))) held.
Proof.
  intros [Hn Hh] Hk Hu. split; [done|]. intros h a Ha. destruct (Hh h a Ha) as (f & w & Hr & Hf & Hfu & Ea).
  destruct (decide (Z.to_nat h = k)) as [<-|Hne].
  - exists e, w. cbn. split; [done|]. split; [apply list_lookup_insert_eq; by eapply lookup_lt_Some|].
    split; [|done]. destruct Hu as [Hu|Hu]; [apply Hu; congruence|by destruct (Hu h a)].
  - exists f, w. cbn. split; [done|]. split; [by rewrite list_lookup_insert_ne|done].
Qed.

Lemma pool_step_inv now p held op :
  pool_wf p -> held_inv p held ->
  exists p' held', pool_step now (p, held) op = Ret (p', held') /\ pool_wf p' /\ held_inv p' held' /\
    setup p' = setup p.
Proof.
  intros Hw Hh. destruct op as [cn want|h hard]; cbn [pool_step].
  - destruct (pool_acquire_spec now p want cn Hw) as [[-> _]|(k & e & -> & _ & [Hk Hu])]; cbn [mbind outcome_mbind].
    { eexists _, _. split; [reflexivity|]. split_and!; done. }
    eexists _, _. split; [reflexivity|]. split; [by apply pool_wf_insert|]. split; [|done].
    pose proof (held_inv_insert p held k (mkipe true cn 0 (fixed e)) e Hh Hk (or_introl (fun _ => eq_refl))) as [Hn Hi].
    split.
    + cbn. apply NoDup_cons. split; [|done]. intros (ha & Heq & Hin)%list_elem_of_fmap. destruct ha as [h a]. cbn in Heq. subst h.
      destruct Hh as [_ Hh]. destruct (Hh _ _ Hin) as (f & w & _ & Hf & Hfu & _). rewrite Nat2Z.id in Hf. congruence.
    + intros h a [[= -> ->]|Ha]%elem_of_cons; [|by apply Hi].
      eexists _, want. pose proof (lookup_lt_Some _ _ _ Hk). destruct Hw as (H1 & H2 & _). unfold zlen in H2. cbn.
      split; [lia|]. rewrite Nat2Z.id. split; [by apply list_lookup_insert_eq|done].
  - assert (Hfil : held_inv p (filter (fun x => x.1 <> h) held)).
    { destruct Hh as [Hn Hh]. split; [|intros h' a [_ Ha]%list_elem_of_filter; eauto].
      eapply sublist_NoDup; [exact Hn|]. apply fmap_sublist. apply sublist_filter. }
    destruct (pool_release_spec now p h hard Hw) as [(Hr & e & He & ->)|[Hr ->]]; cbn [mbind outcome_mbind].
    + eexists _, _. split; [reflexivity|]. split; [by apply pool_wf_insert|]. split; [|done].
      eapply held_inv_insert; [exact Hfil|exact He|]. right. intros h' a [Hne Ha]%list_elem_of_filter. cbn in Hne.
      destruct Hh as [_ Hh]. destruct (Hh h' a Ha) as (_ & _ & Hr' & _). lia.
    + eexists _, _. split; [reflexivity|]. split_and!; try done; apply Hfil.
Qed.

Lemma pool_run_inv ops : forall p held,
  pool_wf p -> held_inv p held ->
  exists p' held', pool_run (p, held) ops = Ret (p', held') /\ pool_wf p' /\ held_inv p' held' /\
    setup p' = setup p.
Proof.
  induction ops as [|[now op] ops IH]; intros p held Hw Hh; cbn [pool_run].
  { eexists _, _. split; [reflexivity|]. done. }
  destruct (pool_step_inv now p held op Hw Hh) as (p1 & h1 & -> & Hw1 & Hh1 & E1). cbn [mbind outcome_mbind].
  destruct (IH p1 h1 Hw1 Hh1) as (p2 & h2 & -> & Hw2 & Hh2 & F1). eexists _, _. split; [reflexivity|].
  split_and!; try done; congruence.
Qed.

(** The addresses of an entry, without wrap. *)
Lemma pool_addresses_spec p h want :
  pool_wf p -> 0 <= h < ipv4_size p ->
  match ipv4_type p with
  | IFCONFIG_POOL_30NET =>
      l_local (pool_addresses p h want) = ipv4_base p + 4 * h + 1 /\ l_remote (pool_addresses p h want) = ipv4_base p + 4 * h + 2
  | IFCONFIG_POOL_INDIV =>
      l_local (pool_addresses p h want) = 0 /\ l_remote (pool_addresses p h want) = ipv4_base p + h
  end.
Proof.
  intros (H1 & H2 & H3 & H4) Hh. unfold pool_addresses, IFCONFIG_POOL_MAX in *. destruct (ipv4_type p); cbn [l_local l_remote stride] in *.
  - rewrite Z.shiftl_mul_pow2 by lia. change (2 ^ 2) with 4.
    rewrite (u32_id (ipv4_base p + h * 4)) by (unfold is_u32; lia). rewrite !u32_id by (unfold is_u32; lia). lia.
  - rewrite u32_id by (unfold is_u32; lia). lia.
Qed.

(** Without [--duplicate-cn], a client is refused only when every free entry is
    reserved for another name; a client whose name some free entry remembers gets
    the first such entry; any other client gets, among the free entries that are
    not reserved, one that was released longest ago.  The rest of the pool is
    unchanged. *)
Theorem pool_acquire_policy (now : Z) (p : ifconfig_pool) (want : bool) (cn : option string) :
  pool_wf p -> duplicate_cn p = false ->
  (ifconfig_pool_acquire now p want cn = Ret (p, -1, None) /\
   forall k e, free_at (pool_list p) k e -> fixed e = true /\ same_name cn e = false) \/
  exists k e,
    ifconfig_pool_acquire now p want cn =
      Ret (set_list p (<[k := mkipe true cn 0 (fixed e)]> (pool_list p)), Z.of_nat k,
           Some (pool_addresses p (Z.of_nat k) want)) /\
    free_at (pool_list p) k e /\
    ((same_name cn e = true /\ forall k' e', free_at (pool_list p) k' e' -> same_name cn e' = true -> (k <= k')%nat) \/
     (fixed e = false /\ (forall k' e', free_at (pool_list p) k' e' -> same_name cn e' = false) /\
      forall k' e', free_at (pool_list p) k' e' -> fixed e' = false -> last_release e <= last_release e')).
Proof.
  intros Hw Hd. destruct (pool_acquire_spec now p want cn Hw) as [[Ha Hn]|(k & e & Ha & Hf & Hk)].
  - left. split; [done|]. intros k e Hk. specialize (Hn k e Hk). unfold available in Hn.
    destruct (fixed e), (same_name cn e); tauto.
  - right. exists k, e. split; [done|]. split; [done|].
    destruct (pool_find_spec p cn Hw) as [[Hf' _]|(k' & e' & Hf' & Hk' & _ & Hch)]; [lia|].
    rewrite Hf in Hf'. apply Nat2Z.inj in Hf' as <-. destruct Hk as [Hk Hu], Hk' as [Hk' Hu'].
    rewrite Hk in Hk'. injection Hk' as <-. auto.
Qed.

Definition sample_pool : ifconfig_pool :=
  mkpool false IFCONFIG_POOL_INDIV 0x0A080002 4 false [] 0
    [mkipe true (Some "alice") 0 false; mkipe false (Some "bob") 70 false; mkipe false (Some "carol") 50 true;
     mkipe false None 60 false].

Lemma sample_pool_wf : pool_wf sample_pool.
Proof. unfold pool_wf, IFCONFIG_POOL_MAX; cbn. zlia. Qed.

Lemma pool_acquire_policy_witness :
  ifconfig_pool_find sample_pool (Some "dave") = 3 /\
  ((ifconfig_pool_acquire 100 sample_pool false (Some "dave") = Ret (sample_pool, -1, None) /\
    forall k e, free_at (pool_list sample_pool) k e -> fixed e = true /\ same_name (Some "dave") e = false) \/
   exists k e,
     ifconfig_pool_acquire 100 sample_pool false (Some "dave") =
       Ret (set_list sample_pool (<[k := mkipe true (Some "dave") 0 (fixed e)]> (pool_list sample_pool)), Z.of_nat k,
            Some (pool_addresses sample_pool (Z.of_nat k) false)) /\
     free_at (pool_list sample_pool) k e /\
     ((same_name (Some "dave") e = true /\
       forall k' e', free_at (pool_list sample_pool) k' e' -> same_name (Some "dave") e' = true -> (k <= k')%nat) \/
      (fixed e = false /\ (forall k' e', free_at (pool_list sample_pool) k' e' -> same_name (Some "dave") e' = false) /\
       forall k' e', free_at (pool_list sample_pool) k' e' -> fixed e' = false -> last_release e <= last_release e'))).
Proof.
  split; [reflexivity|]. apply (pool_acquire_policy 100 sample_pool false (Some "dave")); [apply sample_pool_wf|reflexivity].
Defined.

(** ** Addresses and handles *)

(** the handle of an address is the entry whose addresses contain it, and -1 for
    every address outside the pool; the base address of a handle leads back to it. *)
Theorem pool_handle_of_address (p : ifconfig_pool) (addr : Z) :
  pool_wf p -> is_u32 addr ->
  ifconfig_pool_ip_base_to_handle p addr =
    (if (ipv4_base p <=? addr) && (addr <? ipv4_base p + stride (ipv4_type p) * ipv4_size p)
     then (addr - ipv4_base p) / stride (ipv4_type p) else -1) /\
  forall h, 0 <= h < ipv4_size p ->
    ifconfig_pool_ip_base_to_handle p (ifconfig_pool_handle_to_ip_base p h) = h.
Proof.
  intros (H1 & H2 & H3 & H4). unfold IFCONFIG_POOL_MAX in *.
  assert (Hgen : forall a, is_u32 a -> ifconfig_pool_ip_base_to_handle p a =
    (if (ipv4_base p <=? a) && (a <? ipv4_base p + stride (ipv4_type p) * ipv4_size p)
     then (a - ipv4_base p) / stride (ipv4_type p) else -1)).
  { intros a Ha. unfold ifconfig_pool_ip_base_to_handle, is_u32 in *. destruct (ipv4_type p); cbn [stride] in *.
    - rewrite Z.shiftr_div_pow2 by lia. change (2 ^ 2) with 4.
      assert (Hi : i32 ((a -u ipv4_base p) / 4) = (a -u ipv4_base p) / 4).
      { pose proof (u32_range (a - ipv4_base p)) as Hr. unfold is_u32 in Hr. set (x := a -u ipv4_base p) in *.
        unfold i32. Z.div_mod_to_equations. lia. }
      rewrite Hi. destruct (ipv4_base p <=? a) eqn:E1; breflect; cbn [andb].
      + rewrite u32_id by (unfold is_u32; lia). bcase; try done.
        * destruct E; breflect; Z.div_mod_to_equations; lia.
        * Z.div_mod_to_equations; lia.
      + replace (a -u ipv4_base p) with (a - ipv4_base p + 2 ^ 32) by uwrap. bcase; [done|].
        Z.div_mod_to_equations; lia.
    - rewrite Z.div_1_r. destruct (ipv4_base p <=? a) eqn:E1; breflect; cbn [andb].
      + rewrite (u32_id (a - ipv4_base p)) by (unfold is_u32; lia).
        destruct (decide (a - ipv4_base p < 2 ^ 31)).
        * replace (i32 (a - ipv4_base p)) with (a - ipv4_base p) by uwrap. bcase; try done; [destruct E; breflect; lia|lia].
        * replace (i32 (a - ipv4_base p)) with (a - ipv4_base p - 2 ^ 32) by uwrap. by bdecide.
      + replace (a -u ipv4_base p) with (a - ipv4_base p + 2 ^ 32) by uwrap.
        destruct (decide (a - ipv4_base p + 2 ^ 32 < 2 ^ 31)).
        * replace (i32 (a - ipv4_base p + 2 ^ 32)) with (a - ipv4_base p + 2 ^ 32) by uwrap. bcase; [done|lia].
        * replace (i32 (a - ipv4_base p + 2 ^ 32)) with (a - ipv4_base p) by uwrap. by bdecide. }
  intros Ha. split; [by apply Hgen|]. intros h Hh. unfold ifconfig_pool_handle_to_ip_base. bdecide.
  destruct (ipv4_type p) eqn:Et; cbn [stride] in *.
  - rewrite Z.shiftl_mul_pow2 by lia. change (2 ^ 2) with 4. rewrite u32_id by (unfold is_u32; lia).
    rewrite Hgen by (unfold is_u32; lia). bdecide. Z.div_mod_to_equations; lia.
  - rewrite u32_id by (unfold is_u32; lia). rewrite Hgen by (unfold is_u32; lia). bdecide. rewrite Z.div_1_r. lia.
Qed.

Lemma pool_handle_of_address_witness :
  ifconfig_pool_ip_base_to_handle sample_pool 0x0A080004 = 2 /\
  (forall h, 0 <= h < 4 -> ifconfig_pool_ip_base_to_handle sample_pool (ifconfig_pool_handle_to_ip_base sample_pool h) = h).
Proof.
  destruct (pool_handle_of_address sample_pool 0x0A080004) as [H1 H2].
  - apply sample_pool_wf.
  - unfold is_u32; lia.
  - split; [rewrite H1; reflexivity|exact H2].
Defined.

(** ** IPv6 addresses *)

(** The value of bytes with the least significant first. *)
Fixpoint le_value (l : list Z) : Z := match l with [] => 0 | b :: l => b + 256 * le_value l end.

Lemma be_value_rev l : be_value (rev l) = le_value l.
Proof. induction l as [|b l IH]; [done|]. cbn [rev le_value]. rewrite be_value_app, IH. lia. Qed.

Lemma add_loop_spec l : forall add,
  Forall is_u8 l -> 0 <= add < 2 ^ 32 ->
  le_value (add_in6_addr_loop l add) = (le_value l + add) mod 256 ^ zlen l /\
  zlen (add_in6_addr_loop l add) = zlen l /\ Forall is_u8 (add_in6_addr_loop l add).
Proof.
  induction l as [|h l IH]; intros add Hl Ha; cbn [add_in6_addr_loop].
  { split; [|done]. change (256 ^ zlen []) with 1. by rewrite Z.mod_1_r. }
  apply Forall_cons in Hl as [Hh Hl]. unfold is_u8 in Hh.
  assert (Hpow : 256 ^ zlen (h :: l) = 256 * 256 ^ zlen l).
  { rewrite zlen_cons, Z.pow_add_r by (zlen_facts; lia). done. }
  destruct (0 <? add) eqn:E; breflect.
  - change 0xff with (2 ^ 8 - 1). change 255 with (2 ^ 8 - 1). rewrite !land_mask, !Z.shiftr_div_pow2 by lia.
    change (2 ^ 8) with 256. set (a' := (add / 256) +u ((h mod 256 + add mod 256) / 256)).
    assert (Ha' : a' = (h + add) / 256 /\ 0 <= a' < 2 ^ 32 /\ (h +u add) mod 256 = (h + add) mod 256).
    { unfold a', u32. split; [|split; [apply Z.mod_pos_bound; lia|]]; Z.div_mod_to_equations; lia. }
    destruct Ha' as (Ha1 & Ha2 & Ha3). destruct (IH a' Hl Ha2) as (IH1 & IH2 & IH3). split; [|split].
    + cbn [le_value]. assert (Hp : 0 < 256 ^ zlen l) by (apply Z.pow_pos_nonneg; zlen_facts; lia).
      rewrite IH1, Hpow, Ha3, Z.rem_mul_r by lia.
      replace (h + 256 * le_value l + add) with (h + add + le_value l * 256) by lia.
      rewrite Z.mod_add, Z.div_add by lia. rewrite Ha1. do 3 f_equal. lia.
    + by rewrite !zlen_cons, IH2.
    + constructor; [|done]. rewrite Ha3. apply Z.mod_pos_bound; lia.
  - split; [|split; [done|by constructor]]. assert (add = 0) by lia. subst add. rewrite Z.add_0_r.
    symmetry. apply Z.mod_small. cbn [le_value]. pose proof (be_value_range (rev l)) as Hr.
    rewrite be_value_rev in Hr. unfold zlen in Hr at 1. rewrite length_rev in Hr. fold (zlen l) in Hr.
    rewrite Hpow. specialize (Hr ltac:(by apply Forall_rev)). lia.
Qed.

(** [add_in6_addr] adds to the 128-bit address: the carry runs through all the
    bytes, and the result is again 16 bytes. *)
Theorem add_in6_addr_is_128_bit_addition (base : list Z) (add : Z) :
  zlen base = 16 -> Forall is_u8 base -> 0 <= add < 2 ^ 32 ->
  be_value (add_in6_addr base add) = (be_value base + add) mod 2 ^ 128 /\
  zlen (add_in6_addr base add) = 16 /\ Forall is_u8 (add_in6_addr base add).
Proof.
  intros Hl Hu Ha. assert (Hrl : zlen (rev base) = 16) by (unfold zlen in *; by rewrite length_rev).
  destruct (add_loop_spec (rev base) add ltac:(by apply Forall_rev) Ha) as (H1 & H2 & H3). unfold add_in6_addr.
  rewrite be_value_rev, H1, Hrl. split; [|split].
  - rewrite <- be_value_rev, rev_involutive. done.
  - unfold zlen in *. rewrite length_rev. lia.
  - by apply Forall_rev.
Qed.

Lemma add_in6_addr_is_128_bit_addition_witness :
  add_in6_addr (replicate 13 32 ++ [255; 255; 250]) 7 = replicate 12 32 ++ [33; 0; 0; 1] /\
  be_value (add_in6_addr (replicate 13 32 ++ [255; 255; 250]) 7) = (be_value (replicate 13 32 ++ [255; 255; 250]) + 7) mod 2 ^ 128 /\
  zlen (add_in6_addr (replicate 13 32 ++ [255; 255; 250]) 7) = 16 /\
  Forall is_u8 (add_in6_addr (replicate 13 32 ++ [255; 255; 250]) 7).
Proof.
  split; [reflexivity|]. apply (add_in6_addr_is_128_bit_addition (replicate 13 32 ++ [255; 255; 250]) 7).
  - reflexivity.
  - repeat (apply Forall_cons; split; [unfold is_u8; lia|]). apply Forall_nil; exact I.
  - lia.
Defined.

(** ** Exclusive addresses *)

Lemma add_in6_addr_value base h :
  zlen base = 16 -> Forall is_u8 base -> 0 <= h < IFCONFIG_POOL_MAX ->
  (be_value (add_in6_addr base h) - be_value base) mod 2 ^ 128 = h.
Proof.
  unfold IFCONFIG_POOL_MAX. intros Hl Hu Hh. destruct (add_in6_addr_is_128_bit_addition base h Hl Hu ltac:(lia)) as (-> & _).
  rewrite Zminus_mod_idemp_l, Z.add_simpl_l. apply Z.mod_small. lia.
Qed.

(** C20: whatever the persistence file reserves at start-up and whatever clients come
    and go afterwards, in whatever order, with an IPv6 pool or without, acquiring and
    releasing never fail an
    assertion or leave the array, and at every moment the IPv4 addresses held by two
    different clients differ (the whole /30 networks in the net30 topology) and lie
    in the configured range, and so do their IPv6 addresses.  The range is one [ifconfig_pool_verify_range]
    accepts, and with an IPv6 pool it has fewer entries than the pool has addresses, as
    [ifconfig_pool_init] asserts. *)
Theorem pool_addresses_exclusive (type : pool_type) (start end_ : Z) (dup v6 : bool) (v6base : list Z) (nb : Z)
    (t0 : Z) (recs : list (string * Z * bool)) (ops : list (Z * pool_op)) :
  0 <= start -> end_ < 2 ^ 32 -> ifconfig_pool_verify_range start end_ = true ->
  (v6 = true -> zlen v6base = 16 /\ Forall is_u8 v6base /\ nb <= 128 /\ range_entries type start end_ < v6_addresses nb) ->
  exists p0 p1 p held,
    ifconfig_pool_init type start end_ dup v6 v6base nb = Ret p0 /\ pool_load t0 p0 recs = Ret p1 /\
    pool_run (p1, []) ops = Ret (p, held) /\
    (forall i j x y, held !! i = Some x -> held !! j = Some y -> i <> j ->
       match type with
       | IFCONFIG_POOL_INDIV => l_remote x.2 <> l_remote y.2
       | IFCONFIG_POOL_30NET => l_remote x.2 / 4 <> l_remote y.2 / 4
       end /\
       forall a b, l_remote_ipv6 x.2 = Some a -> l_remote_ipv6 y.2 = Some b -> a <> b) /\
    Forall (fun x =>
       match type with
       | IFCONFIG_POOL_INDIV => start <= l_remote x.2 <= end_
       | IFCONFIG_POOL_30NET => start / 4 <= l_remote x.2 / 4 <= end_ / 4 /\
           l_local x.2 mod 4 = 1 /\ l_remote x.2 = l_local x.2 + 1
       end /\
       forall a, l_remote_ipv6 x.2 = Some a ->
         v6 = true /\ zlen a = 16 /\ (be_value a - be_value v6base) mod 2 ^ 128 < range_entries type start end_) held.
Proof.
  intros H1 H2 Hv H6. assert (H3 : start <= end_ /\ end_ - start < IFCONFIG_POOL_MAX).
  { revert Hv. unfold ifconfig_pool_verify_range. intros Hv. breflect. rewrite u32_id in * by (unfold is_u32; lia). lia. }
  destruct (pool_init_spec type start end_ dup v6 v6base nb ltac:(lia) H2 ltac:(lia) ltac:(naive_solver))
    as (p0 & Hi & Hw & _ & Ht & Hv6 & Hvb & Hsz & _ & Hr).
  destruct (pool_load_spec t0 recs p0 Hw) as (p1 & Hload & Hw1 & F).
  destruct (pool_run_inv ops p1 [] Hw1) as (p & held & Hrun & Hwp & [Hnd Hh] & E).
  { split; [apply NoDup_nil; exact I|]. by intros h a ?%elem_of_nil. }
  rewrite F in E. injection E as E3 E1 E2 E4 E5.
  exists p0, p1, p, held. do 3 (split; [done|]).
  assert (Hadr : forall i x, held !! i = Some x -> 0 <= x.1 < ipv4_size p0 /\
    match type with
    | IFCONFIG_POOL_30NET => l_local x.2 = ipv4_base p0 + 4 * x.1 + 1 /\ l_remote x.2 = ipv4_base p0 + 4 * x.1 + 2
    | IFCONFIG_POOL_INDIV => l_remote x.2 = ipv4_base p0 + x.1 end /\
    forall a, l_remote_ipv6 x.2 = Some a -> v6 = true /\ zlen a = 16 /\ (be_value a - be_value v6base) mod 2 ^ 128 = x.1).
  { intros i [h a] Hx. destruct (Hh h a (list_elem_of_lookup_2 _ _ _ Hx)) as (e & w & Hb & _ & _ & ->). cbn [fst snd].
    rewrite E2 in Hb. split; [done|]. pose proof (pool_addresses_spec p h w Hwp ltac:(lia)) as Ha.
    rewrite E3, Ht, E1 in Ha. split; [destruct type; tauto|]. intros a. unfold pool_addresses. destruct (ipv4_type p);
      cbn [l_remote_ipv6]; rewrite E4, Hv6, E5; (destruct v6, w; cbn [andb]; [|done..]); intros [= <-];
      rewrite (Hvb eq_refl); destruct (H6 eq_refl) as (Hl & Hu & _); destruct Hw as [Hs _];
      (split; [done|]); (split; [apply (add_in6_addr_is_128_bit_addition v6base h Hl Hu); unfold IFCONFIG_POOL_MAX in *; lia|]);
      apply add_in6_addr_value; try done; lia. }
  split.
  - intros i j x y Hx Hy Hij. destruct (Hadr i x Hx) as (Hx1 & Hx2 & Hx3), (Hadr j y Hy) as (Hy1 & Hy2 & Hy3).
    assert (Hne : x.1 <> y.1).
    { intros Heq. apply Hij. eapply NoDup_lookup; [exact Hnd| |]; rewrite list_lookup_fmap; [by rewrite Hx|by rewrite Hy, Heq]. }
    split.
    + destruct type; [|lia]. destruct Hr as [Hr _], Hx2 as [_ ->], Hy2 as [_ ->]. rewrite Hr. Z.div_mod_to_equations. lia.
    + intros a b Ha Hb ->. destruct (Hx3 _ Ha) as (_ & _ & Ea), (Hy3 _ Hb) as (_ & _ & Eb). lia.
  - apply Forall_lookup_2. intros i x Hx. destruct (Hadr i x Hx) as (Hx1 & Hx2 & Hx3). split.
    + destruct type.
      * destruct Hr as [Hr1 Hr2], Hx2 as [-> ->]. rewrite Hr1 in *. Z.div_mod_to_equations. lia.
      * lia.
    + intros a Ha. destruct (Hx3 a Ha) as (-> & ? & ->). split_and!; [done..|]. lia.
Qed.

(** The first address of a /112. *)
Definition sample_v6 : list Z := [32; 1; 13; 184] ++ replicate 12 0.

Lemma pool_addresses_exclusive_witness :
  exists p0 p1 p held,
    ifconfig_pool_init IFCONFIG_POOL_30NET 0x0A080004 0x0A08000B false true sample_v6 112 = Ret p0 /\
    pool_load 5 p0 [("carol", 0x0A080008, false); ("eve", 0x0A090000, false)] = Ret p1 /\
    pool_run (p1, [])
      [(10, Acquire (Some "alice") true); (11, Acquire (Some "bob") true); (12, Acquire None false);
       (13, Release 0 false); (14, Acquire (Some "alice") true)] = Ret (p, held) /\
    forall i j x y, held !! i = Some x -> held !! j = Some y -> i <> j -> l_remote x.2 / 4 <> l_remote y.2 / 4 /\
      forall a b, l_remote_ipv6 x.2 = Some a -> l_remote_ipv6 y.2 = Some b -> a <> b.
Proof.
  destruct (pool_addresses_exclusive IFCONFIG_POOL_30NET 0x0A080004 0x0A08000B false true sample_v6 112 5
    [("carol", 0x0A080008, false); ("eve", 0x0A090000, false)]
    [(10, Acquire (Some "alice") true); (11, Acquire (Some "bob") true); (12, Acquire None false);
     (13, Release 0 false); (14, Acquire (Some "alice") true)]) as (p0 & p1 & p & held & H1 & H2 & H3 & H4 & _).
  - lia.
  - lia.
  - vm_compute; reflexivity.
  - intros _. split; [reflexivity|]. split; [|split; [lia|vm_compute; reflexivity]].
    repeat (apply Forall_cons; split; [unfold is_u8; lia|]). apply Forall_nil; exact I.
  - exists p0, p1, p, held. exact (conj H1 (conj H2 (conj H3 H4))).
Defined.
