(* ===== verification/Hash.v ===== *)
(** * Hash tables ([list.c], [list.h])

    The tables map keys to values through chained buckets.  The functions that hash
    and compare the keys are given by the caller of [hash_init]; they are the
    operations of the class [HashOps], and what the table needs of them are the laws
    of [HashLaws].

    An element is an object with an address: a bucket is the list of its elements
    in the order of their [next] pointers, a pointer to an element is its address,
    and a pointer to a freed element dereferences to [Oob].  The null key pointer
    that marks a deleted element is [None]; comparing it dereferences it, which is
    [Oob] too.  A pointer to a bucket is its index. *)
From S2P Require Import Prelude Integer.
#[local] Open Scope Z_scope.

Class HashOps (K : Type) : Type := {
  hash_function : K -> Z -> Z;
  compare_function : K -> K -> bool
}.

(** What a table needs of the functions: [compare_function] is an equivalence, and
    equal keys have equal 32-bit hash values. *)
Class HashLaws (K : Type) `{HashOps K} : Prop := {
  compare_refl k : compare_function k k = true;
  compare_sym k1 k2 : compare_function k1 k2 = true -> compare_function k2 k1 = true;
  compare_trans k1 k2 k3 :
    compare_function k1 k2 = true -> compare_function k2 k3 = true -> compare_function k1 k3 = true;
  compare_hash k1 k2 iv : compare_function k1 k2 = true -> hash_function k1 iv = hash_function k2 iv;
  hash_u32 k iv : is_u32 (hash_function k iv)
}.

(** [struct hash_element], with its address *)
Record hash_element (K V : Type) : Type := mkhe {
  he_addr : Z;
  value : V;
  key : option K;
  hash_value_ : Z
}.
Arguments mkhe {K V}.
Arguments he_addr {K V}.
Arguments value {K V}.
Arguments key {K V}.
Arguments hash_value_ {K V}.

(** [struct hash]; [next_addr] is the address the allocator gives out next. *)
Record hash (K V : Type) : Type := mkhash {
  n_buckets : Z;
  n_elements : Z;
  mask : Z;
  iv : Z;
  buckets : list (list (hash_element K V));
  next_addr : Z
}.
Arguments mkhash {K V}.
Arguments n_buckets {K V}.
Arguments n_elements {K V}.
Arguments mask {K V}.
Arguments iv {K V}.
Arguments buckets {K V}.
Arguments next_addr {K V}.

(** [struct hash_iterator] *)
Record hash_iterator : Type := mkhi {
  bucket_index : Z;
  hi_bucket : option Z;
  elem : option Z;
  last : option Z;
  bucket_marked : bool;
  bucket_index_start : Z;
  bucket_index_end : Z
}.

Section Hash.
Context {K V : Type} `{HashOps K} `{EqDecision V}.
Implicit Types (h : hash K V) (k : K) (v : V) (hi : hash_iterator) (he : hash_element K V).

Definition hash_init (n iv0 : Z) : outcome (hash K V) :=
  _ ← c_assert (0 <? n);
  nb ← adjust_power_of_2 n;
  Ret (mkhash (i32 nb) 0 (i32 nb - 1) iv0 (replicate (Z.to_nat (i32 nb)) []) 1).

Definition hash_value h k : Z := hash_function k (iv h).

Definition hash_bucket h (hv : Z) : Z := Z.land hv (mask h).

Definition set_bucket h (b : Z) (l : list (hash_element K V)) (n : Z) : outcome (hash K V) :=
  bs ← array_set (buckets h) b l;
  Ret (mkhash (n_buckets h) n (mask h) (iv h) bs (next_addr h)).

(** [hv == he->hash_value && ( *hash->compare_function)(key, he->key)] *)
Definition he_match k (hv : Z) he : outcome bool :=
  if hv =? hash_value_ he
  then match key he with Some k' => Ret (compare_function k k') | None => Oob end
  else Ret false.

(** The loop of [hash_lookup_fast]: the elements already passed, nearest first
    ([prev] is its head), and the elements from [he] on.  Returns the element found
    and the bucket's list with it moved to the head. *)
Fixpoint hash_lookup_loop k (hv : Z) (prev l : list (hash_element K V))
  : outcome (option (hash_element K V * list (hash_element K V))) :=
  match l with
  | [] => Ret None
  | he :: next =>
      m ← he_match k hv he;
      if m : bool
      then Ret (Some (he, match prev with [] => he :: next | _ => he :: rev prev ++ next end))
      else hash_lookup_loop k hv (he :: prev) next
  end.

Definition hash_lookup_fast h (bucket : Z) k (hv : Z) : outcome (hash K V * option (hash_element K V)) :=
  l ← array_get (buckets h) bucket;
  r ← hash_lookup_loop k hv [] l;
  match r with
  | None => Ret (h, None)
  | Some (he, l) => h ← set_bucket h bucket l (n_elements h); Ret (h, Some he)
  end.

Fixpoint hash_remove_loop k (hv : Z) (prev l : list (hash_element K V))
  : outcome (option (list (hash_element K V))) :=
  match l with
  | [] => Ret None
  | he :: next =>
      m ← he_match k hv he;
      if m : bool then Ret (Some (rev prev ++ next)) else hash_remove_loop k hv (he :: prev) next
  end.

Definition hash_remove_fast h (bucket : Z) k (hv : Z) : outcome (hash K V * bool) :=
  l ← array_get (buckets h) bucket;
  r ← hash_remove_loop k hv [] l;
  match r with
  | None => Ret (h, false)
  | Some l => h ← set_bucket h bucket l (n_elements h - 1); Ret (h, true)
  end.

Definition hash_lookup h k : outcome (hash K V * option V) :=
  let hv := hash_value h k in
  '(h, r) ← hash_lookup_fast h (hash_bucket h hv) k hv;
  Ret (h, match r with Some he => Some (value he) | None => None end).

Definition hash_add_fast h (bucket : Z) k (hv : Z) v : outcome (hash K V) :=
  l ← array_get (buckets h) bucket;
  bs ← array_set (buckets h) bucket (mkhe (next_addr h) v (Some k) hv :: l);
  Ret (mkhash (n_buckets h) (n_elements h + 1) (mask h) (iv h) bs (next_addr h + 1)).

(** A write through a pointer to an element of the bucket. *)
Fixpoint write_elem (a : Z) (f : hash_element K V -> hash_element K V) (l : list (hash_element K V))
  : outcome (list (hash_element K V)) :=
  match l with
  | [] => Oob
  | he :: l => if he_addr he =? a then Ret (f he :: l) else l ← write_elem a f l; Ret (he :: l)
  end.

Definition set_value v he : hash_element K V := mkhe (he_addr he) v (key he) (hash_value_ he).

Definition hash_add h k v (replace : bool) : outcome (hash K V * bool) :=
  let hv := hash_value h k in
  let bucket := hash_bucket h hv in
  '(h, r) ← hash_lookup_fast h bucket k hv;
  match r with
  | Some he =>
      if replace
      then
        l ← array_get (buckets h) bucket;
        l ← write_elem (he_addr he) (set_value v) l;
        h ← set_bucket h bucket l (n_elements h);
        Ret (h, true)
      else Ret (h, false)
  | None => h ← hash_add_fast h bucket k hv v; Ret (h, true)
  end.

Definition hash_remove h k : outcome (hash K V * bool) :=
  let hv := hash_value h k in
  hash_remove_fast h (hash_bucket h hv) k hv.

(** The loop of [hash_remove_marked] from an element on: the elements that stay, and
    the count. *)
Fixpoint hash_remove_marked_loop (l : list (hash_element K V)) (n : Z) : list (hash_element K V) * Z :=
  match l with
  | [] => ([], n)
  | he :: next =>
      match key he with
      | None => hash_remove_marked_loop next (n - 1)
      | Some _ => let '(r, n) := hash_remove_marked_loop next n in (he :: r, n)
      end
  end.

Definition hash_remove_marked h (bucket : Z) : outcome (hash K V) :=
  l ← array_get (buckets h) bucket;
  let '(l, n) := hash_remove_marked_loop l (n_elements h) in
  set_bucket h bucket l n.

Definition hash_iterator_init_range h (start_bucket end_bucket : Z) : outcome hash_iterator :=
  let end_bucket := if n_buckets h <? end_bucket then n_buckets h else end_bucket in
  _ ← c_assert ((0 <=? start_bucket) && (start_bucket <=? end_bucket));
  Ret (mkhi (start_bucket - 1) None None None false start_bucket end_bucket).

Definition hash_iterator_init h : outcome hash_iterator := hash_iterator_init_range h 0 (n_buckets h).

Definition hash_iterator_lock hi (b : Z) : hash_iterator :=
  mkhi (bucket_index hi) (Some b) (elem hi) None false (bucket_index_start hi) (bucket_index_end hi).

Definition hash_iterator_unlock h hi : outcome (hash K V * hash_iterator) :=
  match hi_bucket hi with
  | Some b =>
      h ← (if bucket_marked hi then hash_remove_marked h b else Ret h);
      Ret (h, mkhi (bucket_index hi) None (elem hi) None false (bucket_index_start hi) (bucket_index_end hi))
  | None => Ret (h, hi)
  end.

(** The element at an address and the address of the next one. *)
Fixpoint read_elem (a : Z) (l : list (hash_element K V)) : outcome (hash_element K V * option Z) :=
  match l with
  | [] => Oob
  | he :: next =>
      if he_addr he =? a then Ret (he, match next with [] => None | he' :: _ => Some (he_addr he') end)
      else read_elem a next
  end.

(** [ret = hi->elem; hash_iterator_advance (hi)], returning the element. *)
Definition hash_iterator_advance h hi : outcome (hash_iterator * hash_element K V) :=
  match hi_bucket hi, elem hi with
  | Some b, Some a =>
      l ← array_get (buckets h) b;
      '(he, nx) ← read_elem a l;
      Ret (mkhi (bucket_index hi) (hi_bucket hi) nx (elem hi) (bucket_marked hi)
             (bucket_index_start hi) (bucket_index_end hi), he)
  | _, _ => Oob
  end.

Definition hash_iterator_free h hi : outcome (hash K V * hash_iterator) := hash_iterator_unlock h hi.

Definition set_index hi (i : Z) : hash_iterator :=
  mkhi i (hi_bucket hi) (elem hi) (last hi) (bucket_marked hi) (bucket_index_start hi) (bucket_index_end hi).

Definition set_elem hi (a : Z) : hash_iterator :=
  mkhi (bucket_index hi) (hi_bucket hi) (Some a) (last hi) (bucket_marked hi) (bucket_index_start hi)
    (bucket_index_end hi).

(** The search for the next non-empty bucket; each round raises [bucket_index], so
    [bucket_index_end - bucket_index] rounds are enough. *)
Fixpoint hash_iterator_search (fuel : nat) h hi : outcome (hash K V * hash_iterator * option (hash_element K V)) :=
  match fuel with
  | O => Oob
  | S fuel =>
      let hi := set_index hi (bucket_index hi + 1) in
      if bucket_index hi <? bucket_index_end hi
      then
        '(h, hi) ← hash_iterator_unlock h hi;
        b ← array_get (buckets h) (bucket_index hi);
        match b with
        | he :: _ =>
            let hi := set_elem (hash_iterator_lock hi (bucket_index hi)) (he_addr he) in
            '(hi, he) ← hash_iterator_advance h hi;
            Ret (h, hi, Some he)
        | [] => hash_iterator_search fuel h hi
        end
      else Ret (h, hi, None)
  end.

Definition hash_iterator_next h hi : outcome (hash K V * hash_iterator * option (hash_element K V)) :=
  match elem hi with
  | Some _ => '(hi, he) ← hash_iterator_advance h hi; Ret (h, hi, Some he)
  | None => hash_iterator_search (S (Z.to_nat (bucket_index_end hi - bucket_index hi))) h hi
  end.

Definition set_marked he : hash_element K V := mkhe (he_addr he) (value he) None (hash_value_ he).

Definition hash_iterator_delete_element h hi : outcome (hash K V * hash_iterator) :=
  match last hi, hi_bucket hi with
  | Some a, Some b =>
      l ← array_get (buckets h) b;
      l ← write_elem a set_marked l;
      h ← set_bucket h b l (n_elements h);
      Ret (h, mkhi (bucket_index hi) (hi_bucket hi) (elem hi) (last hi) true (bucket_index_start hi) (bucket_index_end hi))
  | None, _ => Fatal
  | _, None => Oob
  end.

(** The loop [while ((he = hash_iterator_next (&hi)))] over a table whose body may delete
    the element it was given: [body] is the rest of the loop body, on the caller's state,
    and says whether it calls [hash_iterator_delete_element]. *)
Fixpoint hash_sweep {St : Type} (fuel : nat) (body : St -> hash_element K V -> outcome (St * bool)) (s : St) h hi
  : outcome (St * hash K V * hash_iterator) :=
  match fuel with
  | O => Oob
  | S fuel =>
      '(h, hi, r) ← hash_iterator_next h hi;
      match r with
      | None => Ret (s, h, hi)
      | Some he =>
          '(s, del) ← body s he;
          '(h, hi) ← (if del : bool then hash_iterator_delete_element h hi else Ret (h, hi));
          hash_sweep fuel body s h hi
      end
  end.

(** [n_elements + 1] rounds are enough, see [hash_table_refines_map]. *)
Definition hash_remove_by_value h v : outcome (hash K V) :=
  hi ← hash_iterator_init h;
  '(_, h, hi) ← hash_sweep (S (Z.to_nat (n_elements h)))
                  (fun (_ : unit) he => Ret (tt, bool_decide (value he = v))) tt h hi;
  '(h, _) ← hash_iterator_free h hi;
  Ret h.

End Hash.

(** ** The hash function of byte strings *)

(** [mix]: three 32-bit words, [a -= b] and [a <<= n] modulo 2^32. *)
Definition mix (abc : Z * Z * Z) : Z * Z * Z :=
  let '(a, b, c) := abc in
  let a := a -u b in let a := a -u c in let a := Z.lxor a (Z.shiftr c 13) in
  let b := b -u c in let b := b -u a in let b := Z.lxor b (u32 (Z.shiftl a 8)) in
  let c := c -u a in let c := c -u b in let c := Z.lxor c (Z.shiftr b 13) in
  let a := a -u b in let a := a -u c in let a := Z.lxor a (Z.shiftr c 12) in
  let b := b -u c in let b := b -u a in let b := Z.lxor b (u32 (Z.shiftl a 16)) in
  let c := c -u a in let c := c -u b in let c := Z.lxor c (Z.shiftr b 5) in
  let a := a -u b in let a := a -u c in let a := Z.lxor a (Z.shiftr c 3) in
  let b := b -u c in let b := b -u a in let b := Z.lxor b (u32 (Z.shiftl a 10)) in
  let c := c -u a in let c := c -u b in let c := Z.lxor c (Z.shiftr b 15) in
  (a, b, c).

(** [k[0] + ((uint32_t) k[1] << 8) + ((uint32_t) k[2] << 16) + ((uint32_t) k[3] << 24)] *)
Definition word_le (k : list Z) (i : Z) : outcome Z :=
  k0 ← load1 k i; k1 ← load1 k (i + 1); k2 ← load1 k (i + 2); k3 ← load1 k (i + 3);
  Ret (k0 +u u32 (Z.shiftl k1 8) +u u32 (Z.shiftl k2 16) +u u32 (Z.shiftl k3 24)).

(** The loop over blocks of 12 bytes; [k] is the key from the current position. *)
Fixpoint hash_func_loop (fuel : nat) (k : list Z) (len : Z) (abc : Z * Z * Z)
  : outcome (list Z * Z * (Z * Z * Z)) :=
  match fuel with
  | O => Oob
  | S fuel =>
      if 12 <=? len
      then
        let '(a, b, c) := abc in
        w0 ← word_le k 0; w1 ← word_le k 4; w2 ← word_le k 8;
        hash_func_loop fuel (zdrop 12 k) (len - 12) (mix (a +u w0, b +u w1, c +u w2))
      else Ret (k, len, abc)
  end.

(** The fall-through cases: byte [i] shifted by [n] is added when [len > i]. *)
Definition hash_func_case (k : list Z) (len i n : Z) (x : Z) : outcome Z :=
  if i <? len then b ← load1 k i; Ret (x +u u32 (Z.shiftl b n)) else Ret x.

Definition hash_func (k : list Z) (length initval : Z) : outcome Z :=
  '(k, len, (a, b, c)) ← hash_func_loop (S (Z.to_nat length)) k length (0x9e3779b9, 0x9e3779b9, initval);
  let c := c +u length in
  c ← hash_func_case k len 10 24 c; c ← hash_func_case k len 9 16 c; c ← hash_func_case k len 8 8 c;
  b ← hash_func_case k len 7 24 b; b ← hash_func_case k len 6 16 b; b ← hash_func_case k len 5 8 b;
  b ← hash_func_case k len 4 0 b;
  a ← hash_func_case k len 3 24 a; a ← hash_func_case k len 2 16 a; a ← hash_func_case k len 1 8 a;
  a ← hash_func_case k len 0 0 a;
  Ret ((mix (a, b, c)).2).

(** ** Client identifiers as keys ([multi.c]) *)

(** A key of the table of client identifiers, an [unsigned long]. *)
Record cid : Type := mkcid { cid_val : Z }.

Definition cid_hash_function (key : cid) (iv : Z) : Z := u32 (cid_val key).

Definition cid_compare_function (key1 key2 : cid) : bool := cid_val key1 =? cid_val key2.

#[global] Instance cid_ops : HashOps cid := {|
  hash_function := cid_hash_function;
  compare_function := cid_compare_function
|}.
