(* ===== verification/HashSpec.v ===== *)
(** * The hash tables implement a finite map

    The abstract contract of [list.c] is an association list with at most one pair
    for each key.  [hash_table_refines_map] shows that every sequence of operations
    on a table gives the results the same sequence gives on the association list,
    for all key types that meet [HashLaws]; the lemmas before it treat one bucket,
    the table invariant, and the iterator with its deferred deletions. *)
From S2P Require Import Prelude Integer Hash.
#[local] Open Scope Z_scope.

(** ** The abstract map *)
Section Map.
Context {K V : Type} `{HashLaws K} `{EqDecision V}.
Implicit Types (k : K) (v : V) (m : list (K * V)).

Definition same (k : K) (x : K * V) : bool := compare_function k x.1.

Fixpoint map_lookup k m : option V :=
  match m with [] => None | x :: m => if same k x then Some x.2 else map_lookup k m end.

(** The pair that is there keeps its key. *)
Definition map_replace k v m : list (K * V) := (fun x => if same k x then (x.1, v) else x) <$> m.

Definition map_add k v (replace : bool) m : list (K * V) * bool :=
  match map_lookup k m with
  | Some _ => if replace then (map_replace k v m, true) else (m, false)
  | None => ((k, v) :: m, true)
  end.

Definition map_remove k m : list (K * V) * bool :=
  match map_lookup k m with
  | Some _ => (filter (fun x => same k x = false) m, true)
  | None => (m, false)
  end.

Definition map_remove_by_value v m : list (K * V) := filter (fun x => x.2 <> v) m.

(** No two pairs have equal keys. *)
Fixpoint apart m : Prop :=
  match m with [] => True | x :: m => Forall (fun y => same x.1 y = false) m /\ apart m end.

Lemma same_sym x y : same x.1 y = false -> same y.1 x = false.
Proof. unfold same. intros E. destruct (compare_function y.1 x.1) eqn:E2; [|done]. by rewrite (compare_sym _ _ E2) in E. Qed.

Lemma apart_perm m1 m2 : m1 ≡ₚ m2 -> apart m1 -> apart m2.
Proof.
  induction 1 as [|x m1 m2 Hp IH|x y m|m1 m2 m3 _ IH1 _ IH2]; cbn [apart]; [done| | |auto].
  - intros [Hf Ha]. split; [by rewrite <- Hp|auto].
  - intros [Hf [Hg Ha]]. apply Forall_cons in Hf as [Hyx Hf]. repeat split; [|done..].
    apply Forall_cons. split; [by apply same_sym|done].
Qed.

#[global] Instance apart_proper : Proper ((≡ₚ) ==> iff) apart.
Proof. intros m1 m2 Hp; split; by apply apart_perm. Qed.

Lemma map_lookup_none k m : Forall (fun x => same k x = false) m -> map_lookup k m = None.
Proof. induction 1 as [|x m Hx _ IH]; cbn [map_lookup]; [done|]. by rewrite Hx. Qed.

(** A key that is equal to [k] stands in for it. *)
Lemma same_subst k x y : same k x = true -> same x.1 y = false -> same k y = false.
Proof.
  unfold same. intros Hx Hy. destruct (compare_function k y.1) eqn:E; [|done].
  by rewrite (compare_trans _ _ _ (compare_sym _ _ Hx) E) in Hy.
Qed.

Lemma others_differ k x m : same k x = true -> apart (x :: m) -> Forall (fun y => same k y = false) m.
Proof. intros Hx [Hf _]. eapply Forall_impl; [exact Hf|]. cbn. intros y. by apply same_subst. Qed.

Lemma lookup_dichotomy k m :
  apart m ->
  (map_lookup k m = None /\ Forall (fun x => same k x = false) m) \/
  exists x m', m ≡ₚ x :: m' /\ same k x = true /\ map_lookup k m = Some x.2 /\ Forall (fun y => same k y = false) m'.
Proof.
  induction m as [|x m IH]; intros Ha; [left; done|]. cbn [map_lookup]. destruct (same k x) eqn:E.
  - right. exists x, m. split; [done|]. split; [done|]. split; [done|]. by apply (others_differ k x).
  - destruct Ha as [Hf Ha]. destruct (IH Ha) as [[-> Hn]|(y & m' & Hp & Hy & -> & Hn)]; [left; split; [done|by constructor]|].
    right. exists y, (x :: m'). split; [rewrite Hp; by constructor|]. split; [done|]. split; [done|by constructor].
Qed.

Lemma map_lookup_perm k m1 m2 : apart m1 -> m1 ≡ₚ m2 -> map_lookup k m1 = map_lookup k m2.
Proof.
  intros Ha Hp. assert (Ha2 : apart m2) by by rewrite <- Hp.
  destruct (lookup_dichotomy k m1 Ha) as [[E1 N1]|(x & m' & P1 & S1 & E1 & N1)].
  - rewrite E1, map_lookup_none; [done|]. by rewrite <- Hp.
  - destruct (lookup_dichotomy k m2 Ha2) as [[E2 N2]|(y & m'' & P2 & S2 & E2 & N2)].
    + rewrite <- Hp, P1 in N2. apply Forall_cons in N2 as [N2 _]. congruence.
    + rewrite E1, E2. do 2 f_equal. assert (Hy : y ∈ x :: m') by (rewrite <- P1, Hp, P2; left).
      apply elem_of_cons in Hy as [->|Hy]; [done|]. rewrite Forall_forall in N1. apply N1 in Hy. congruence.
Qed.

Lemma map_replace_other k v m : Forall (fun y => same k y = false) m -> map_replace k v m = m.
Proof.
  induction 1 as [|x m Hx _ IH]; [done|]. unfold map_replace. cbn [fmap list_fmap]. rewrite Hx. f_equal. exact IH.
Qed.

Lemma filter_other k m : Forall (fun y => same k y = false) m -> filter (fun x => same k x = false) m = m.
Proof. induction 1 as [|x m Hx _ IH]; [done|]. rewrite filter_cons_True by done. by rewrite IH. Qed.

Lemma apart_sublist m1 m2 : m1 `sublist_of` m2 -> apart m2 -> apart m1.
Proof.
  induction 1 as [|x l1 l2 Hs IH|x l1 l2 _ IH]; [done| |]; intros [Hf Ha]; [|by apply IH]. split; [|by apply IH].
  rewrite Forall_forall in Hf |- *. intros y Hy. apply Hf. by eapply elem_of_sublist.
Qed.

End Map.

(** ** The invariant of a table *)
Section Table.
Context {K V : Type} `{HashLaws K} `{EqDecision V}.
Implicit Types (h : hash K V) (k : K) (v : V) (m : list (K * V)) (he : hash_element K V) (l : list (hash_element K V)).

Definition pair_of he : option (K * V) := (fun k => (k, value he)) <$> key he.
Definition pairs l : list (K * V) := omap pair_of l.

(** An element in its bucket. *)
Definition good h (b : nat) he : Prop :=
  exists k, key he = Some k /\ hash_value_ he = hash_function k (iv h) /\ Z.land (hash_value_ he) (mask h) = Z.of_nat b.

Record hash_wf h : Prop := {
  wf_size : exists j, 0 <= j <= 30 /\ n_buckets h = 2 ^ j;
  wf_mask : mask h = n_buckets h - 1;
  wf_len : zlen (buckets h) = n_buckets h;
  wf_good : forall b l, buckets h !! b = Some l -> Forall (good h b) l;
  wf_apart : apart (pairs (concat (buckets h)));
  wf_count : n_elements h = zlen (concat (buckets h));
  wf_addr : NoDup (he_addr <$> concat (buckets h));
  wf_fresh : Forall (fun he => he_addr he < next_addr h) (concat (buckets h))
}.

Definition rel h m : Prop := hash_wf h /\ pairs (concat (buckets h)) ≡ₚ m.

Lemma rel_apart h m : rel h m -> apart m.
Proof. intros [Hw <-]. apply Hw. Qed.

Lemma pairs_app l1 l2 : pairs (l1 ++ l2) = pairs l1 ++ pairs l2.
Proof. apply omap_app. Qed.

Lemma pairs_cons he l k : key he = Some k -> pairs (he :: l) = (k, value he) :: pairs l.
Proof. intros E. unfold pairs, pair_of. cbn. by rewrite E. Qed.

#[global] Instance pairs_proper : Proper ((≡ₚ) ==> (≡ₚ)) pairs.
Proof. intros l1 l2 Hp. unfold pairs. by rewrite Hp. Qed.

Lemma concat_delete (bs : list (list (hash_element K V))) b l :
  bs !! b = Some l -> concat bs ≡ₚ l ++ concat (delete b bs).
Proof.
  revert b; induction bs as [|x bs IH]; intros [|b] E; try done; cbn in *.
  - by simplify_eq.
  - rewrite (IH b E). rewrite !app_assoc. by rewrite (Permutation_app_comm x l).
Qed.

Lemma concat_insert (bs : list (list (hash_element K V))) b l l' :
  bs !! b = Some l -> concat (<[b := l']> bs) ≡ₚ l' ++ concat (delete b bs).
Proof.
  intros E. rewrite (concat_delete (<[b := l']> bs) b l') by (apply list_lookup_insert_eq; by eapply lookup_lt_Some).
  apply reflexive_eq. do 2 f_equal. clear E. revert b; induction bs as [|x bs IH]; intros [|b]; try done; cbn. by rewrite IH.
Qed.

Lemma elem_of_concat_delete (bs : list (list (hash_element K V))) b he :
  he ∈ concat (delete b bs) -> exists b' l, b' <> b /\ bs !! b' = Some l /\ he ∈ l.
Proof.
  revert b; induction bs as [|x bs IH]; intros b; [intros ?%elem_of_nil; done|].
  destruct b as [|b]; cbn; intros Hin.
  - apply list_elem_of_In, in_concat in Hin as (l & Hl & Hx).
    apply list_elem_of_In, list_elem_of_lookup in Hl as [i Hi]. exists (S i), l. split; [done|]. split; [done|by apply list_elem_of_In].
  - apply elem_of_app in Hin as [Hin|Hin]; [by exists O, x|].
    destruct (IH b Hin) as (b' & l & Hb & Hl & Hx). exists (S b'), l. split; [lia|done].
Qed.

(** A table whose bucket [b] got a new list. *)
Lemma wf_update h b l l' n na :
  hash_wf h -> buckets h !! b = Some l ->
  Forall (good h b) l' ->
  apart (pairs (l' ++ concat (delete b (buckets h)))) ->
  n = zlen (l' ++ concat (delete b (buckets h))) ->
  NoDup (he_addr <$> (l' ++ concat (delete b (buckets h)))) ->
  Forall (fun he => he_addr he < na) (l' ++ concat (delete b (buckets h))) ->
  hash_wf (mkhash (n_buckets h) n (mask h) (iv h) (<[b := l']> (buckets h)) na).
Proof.
  intros Hw Hb Hg Ha Hn Hd Hf. pose proof (concat_insert _ _ _ l' Hb) as Hp. destruct Hw. split; cbn.
  - done.
  - done.
  - by rewrite zlen_insert.
  - intros b' l1 Hl1. destruct (decide (b' = b)) as [->|Hne].
    + rewrite list_lookup_insert_eq in Hl1 by (by eapply lookup_lt_Some). by simplify_eq.
    + rewrite list_lookup_insert_ne in Hl1 by done. exact (wf_good0 b' l1 Hl1).
  - by rewrite Hp.
  - rewrite Hn. unfold zlen. by rewrite Hp.
  - by rewrite Hp.
  - by rewrite Hp.
Qed.

(** The bucket of a key is there, and no other bucket holds the key. *)
Lemma bucket_of h k :
  hash_wf h -> exists b l, hash_bucket h (hash_value h k) = Z.of_nat b /\ buckets h !! b = Some l /\
    array_get (buckets h) (Z.of_nat b) = Ret l /\
    Forall (fun x => same k x = false) (pairs (concat (delete b (buckets h)))).
Proof.
  intros Hw. destruct (wf_size h Hw) as (j & Hj & Hn).
  assert (Hr : 0 <= hash_bucket h (hash_value h k) < zlen (buckets h)).
  { unfold hash_bucket. rewrite (wf_mask h Hw), (wf_len h Hw), Hn, land_mask by lia.
    apply Z.mod_pos_bound. apply Z.pow_pos_nonneg; lia. }
  exists (Z.to_nat (hash_bucket h (hash_value h k))).
  destruct (array_get_in _ _ Hr) as (l & Hg & Hl). exists l. rewrite Z2Nat.id by lia. split; [done|]. split; [done|].
  split; [done|]. apply Forall_forall. intros [k' v'] Hx. apply list_elem_of_omap in Hx as (he & Hin & Hp).
  destruct (elem_of_concat_delete _ _ _ Hin) as (b' & l' & Hb' & Hl' & Hhe).
  pose proof (wf_good h Hw b' l' Hl') as Hgood. rewrite Forall_forall in Hgood. destruct (Hgood he Hhe) as (k2 & Ek & Ehv & Eb).
  unfold pair_of in Hp. rewrite Ek in Hp. injection Hp as <- <-. unfold same; cbn [fst].
  destruct (compare_function k k2) eqn:E; [|done]. apply (compare_hash _ _ (iv h)) in E. exfalso. apply Hb'.
  rewrite Ehv, <- E in Eb. unfold hash_bucket, hash_value. by rewrite Eb, Nat2Z.id.
Qed.

(** ** Walking along a bucket *)

Lemma he_match_good h b k he k' :
  good h b he -> key he = Some k' -> he_match k (hash_value h k) he = Ret (compare_function k k').
Proof.
  intros (k2 & E & Ehv & _) Ek. rewrite E in Ek. injection Ek as ->. unfold he_match, hash_value.
  destruct (_ =? _) eqn:Ee; breflect; [by rewrite E|].
  destruct (compare_function k k') eqn:Ec; [|done]. by rewrite Ehv, (compare_hash _ _ _ Ec) in Ee.
Qed.

Lemma lookup_loop_spec h b k l : forall prev,
  Forall (good h b) l ->
  (hash_lookup_loop k (hash_value h k) prev l = Ret None /\ hash_remove_loop k (hash_value h k) prev l = Ret None /\
   Forall (fun x => same k x = false) (pairs l)) \/
  exists l1 he l2 k', l = l1 ++ he :: l2 /\ key he = Some k' /\ compare_function k k' = true /\
    hash_lookup_loop k (hash_value h k) prev l = Ret (Some (he, he :: rev prev ++ l1 ++ l2)) /\
    hash_remove_loop k (hash_value h k) prev l = Ret (Some (rev prev ++ l1 ++ l2)).
Proof.
  induction l as [|he l IH]; intros prev Hg; cbn [hash_lookup_loop hash_remove_loop]; [left; done|].
  apply Forall_cons in Hg as [Hhe Hg]. pose proof Hhe as (k' & Ek & _). rewrite (he_match_good h b k he k' Hhe Ek).
  cbn [mbind outcome_mbind]. destruct (compare_function k k') eqn:Ec.
  - right. exists [], he, l, k'. split; [done|]. split; [done|]. split; [done|]. split; [|done]. by destruct prev.
  - destruct (IH (he :: prev) Hg) as [(-> & -> & Hn)|(l1 & he' & l2 & k2 & -> & Ek' & Ec' & -> & ->)].
    + left. split; [done|]. split; [done|]. rewrite (pairs_cons _ _ _ Ek). by constructor.
    + right. exists (he :: l1), he', l2, k2. cbn [rev]. rewrite <- !app_assoc. done.
Qed.

Lemma set_bucket_eq h b l n :
  (b < length (buckets h))%nat ->
  set_bucket h (Z.of_nat b) l n = Ret (mkhash (n_buckets h) n (mask h) (iv h) (<[b := l]> (buckets h)) (next_addr h)).
Proof. intros Hb. unfold set_bucket. rewrite array_set_in by (unfold zlen; lia). by rewrite Nat2Z.id. Qed.

(** ** The operations *)

Lemma lookup_fast_spec h k m :
  rel h m -> exists h' r b, hash_bucket h (hash_value h k) = Z.of_nat b /\
    hash_lookup_fast h (Z.of_nat b) k (hash_value h k) = Ret (h', r) /\ rel h' m /\
    hash_value h' k = hash_value h k /\ hash_bucket h' (hash_value h k) = Z.of_nat b /\
    match r with
    | None => map_lookup k m = None /\ h' = h
    | Some he => exists k' l, key he = Some k' /\ compare_function k k' = true /\
        map_lookup k m = Some (value he) /\ buckets h' !! b = Some (he :: l)
    end.
Proof.
  intros [Hw Hp]. pose proof (rel_apart h m (conj Hw Hp)) as Ham.
  destruct (bucket_of h k Hw) as (b & l & Eb & Hl & Hg & Hrest).
  destruct (lookup_loop_spec h b k l [] (wf_good h Hw b l Hl)) as [(Hloop & _ & Hn)|(l1 & he & l2 & k' & -> & Ek & Ec & Hloop & _)].
  - exists h, None, b. split; [done|]. unfold hash_lookup_fast. rewrite Hg. cbn [mbind outcome_mbind]. rewrite Hloop.
    cbn [mbind outcome_mbind]. do 4 (split; [done|]). split; [|done].
    apply map_lookup_none. rewrite <- Hp, (concat_delete _ _ _ Hl), pairs_app. by apply Forall_app.
  - assert (Hperm : he :: l1 ++ l2 ≡ₚ l1 ++ he :: l2) by apply Permutation_middle.
    pose proof (concat_delete _ _ _ Hl) as Hc.
    eexists _, (Some he), b. split; [done|]. unfold hash_lookup_fast. rewrite Hg. cbn [mbind outcome_mbind]. rewrite Hloop.
    cbn [mbind outcome_mbind rev app]. rewrite set_bucket_eq by (by eapply lookup_lt_Some). cbn [mbind outcome_mbind].
    split; [reflexivity|]. split; [|split; [done|split; [done|]]].
    + split; [|cbn; rewrite <- Hp, (concat_insert _ _ _ _ Hl), Hc; by rewrite Hperm].
      apply (wf_update h b (l1 ++ he :: l2)); try done.
      * pose proof (wf_good h Hw b _ Hl) as Hgood. by rewrite Hperm.
      * rewrite Hperm, <- Hc. apply Hw.
      * rewrite (wf_count h Hw). unfold zlen. by rewrite Hperm, <- Hc.
      * rewrite Hperm, <- Hc. apply Hw.
      * rewrite Hperm, <- Hc. apply Hw.
    + exists k', (l1 ++ l2). split; [done|]. split; [done|]. split.
      * assert (Hpm : (k', value he) :: pairs (l1 ++ l2 ++ concat (delete b (buckets h))) ≡ₚ m).
        { rewrite <- Hp, Hc, <- Hperm. rewrite <- (pairs_cons he _ k' Ek). cbn. by rewrite app_assoc. }
        assert (Ha : apart ((k', value he) :: pairs (l1 ++ l2 ++ concat (delete b (buckets h))))) by (by rewrite Hpm).
        rewrite <- (map_lookup_perm k _ _ Ha Hpm). cbn [map_lookup]. unfold same; cbn [fst snd]. by rewrite Ec.
      * cbn. apply list_lookup_insert_eq. by eapply lookup_lt_Some.
Qed.

Lemma hash_lookup_spec h k m :
  rel h m -> exists h', hash_lookup h k = Ret (h', map_lookup k m) /\ rel h' m.
Proof.
  intros Hr. destruct (lookup_fast_spec h k m Hr) as (h' & r & b & Eb & Hf & Hr' & _ & _ & Hm). unfold hash_lookup.
  rewrite Eb, Hf. cbn [mbind outcome_mbind]. exists h'. split; [|done]. do 2 f_equal.
  destruct r as [he|]; [by destruct Hm as (? & ? & _ & _ & -> & _)|by destruct Hm as [-> _]].
Qed.

Lemma hash_add_fast_spec h k v m b :
  rel h m -> map_lookup k m = None -> hash_bucket h (hash_value h k) = Z.of_nat b ->
  exists h', hash_add_fast h (Z.of_nat b) k (hash_value h k) v = Ret h' /\ rel h' ((k, v) :: m).
Proof.
  intros Hr Hn Eb. pose proof (rel_apart h m Hr) as Ham. destruct Hr as [Hw Hp].
  destruct (bucket_of h k Hw) as (b' & l & Eb' & Hl & Hg & _).
  assert (b' = b) as -> by lia. unfold hash_add_fast. rewrite Hg. cbn [mbind outcome_mbind].
  rewrite array_set_in by (apply lookup_lt_Some in Hl; unfold zlen; lia). rewrite Nat2Z.id. cbn [mbind outcome_mbind].
  pose proof (concat_delete _ _ _ Hl) as Hc. eexists. split; [reflexivity|].
  set (he := mkhe (next_addr h) v (Some k) (hash_value h k)).
  assert (Hpm : pairs (he :: l ++ concat (delete b (buckets h))) ≡ₚ (k, v) :: m).
  { rewrite (pairs_cons he _ k) by done. by rewrite <- Hp, Hc. }
  split; [|cbn; by rewrite (concat_insert _ _ _ _ Hl)].
  apply (wf_update h b l); try done; cbn [app].
  - constructor; [by exists k|by apply (wf_good h Hw)].
  - rewrite Hpm. split; [|done]. destruct (lookup_dichotomy k m Ham) as [[_ Hf]|(x & m' & _ & _ & E & _)]; [done|congruence].
  - rewrite zlen_cons, (wf_count h Hw). unfold zlen. rewrite Hc. lia.
  - cbn. apply NoDup_cons. pose proof (wf_fresh h Hw) as Hf. pose proof (wf_addr h Hw) as Hd. rewrite Hc in Hf, Hd.
    split; [|done]. intros (x & Hx & Hin)%list_elem_of_fmap. rewrite Forall_forall in Hf. specialize (Hf x Hin). lia.
  - pose proof (wf_fresh h Hw) as Hf. rewrite Hc in Hf. constructor; [cbn; lia|]. eapply Forall_impl; [exact Hf|]. cbn. lia.
Qed.

Lemma hash_add_spec h k v replace m :
  rel h m -> exists h', hash_add h k v replace = Ret (h', (map_add k v replace m).2) /\ rel h' (map_add k v replace m).1.
Proof.
  intros Hr. destruct (lookup_fast_spec h k m Hr) as (h' & r & b & Eb & Hf & Hr' & Ehv & Eb' & Hm). unfold hash_add, map_add.
  rewrite Eb, Hf. cbn [mbind outcome_mbind]. destruct r as [he|].
  - destruct Hm as (k' & l & Ek & Ec & -> & Hl). destruct replace; [|by exists h'].
    rewrite (array_get_Some (buckets h') (Z.of_nat b) (he :: l)) by (first [lia|by rewrite Nat2Z.id]).
    cbn [mbind outcome_mbind write_elem]. bdecide. cbn [mbind outcome_mbind]. pose proof (rel_apart h' m Hr') as Ham. destruct Hr' as [Hw Hp].
    rewrite set_bucket_eq by (by eapply lookup_lt_Some). cbn [mbind outcome_mbind fst snd]. eexists. split; [reflexivity|].
    pose proof (concat_delete _ _ _ Hl) as Hc. set (rest := concat (delete b (buckets h'))) in *.
    assert (Hpm : m ≡ₚ (k', value he) :: pairs (l ++ rest)) by (by rewrite <- Hp, Hc, <- (pairs_cons he _ k' Ek)).
    assert (Hpm' : map_replace k v m ≡ₚ pairs ((set_value v he :: l) ++ rest)).
    { unfold map_replace. rewrite Hpm. cbn [fmap list_fmap app]. rewrite (pairs_cons (set_value v he) _ k') by done.
      unfold same at 1; cbn [fst]. rewrite Ec. constructor. apply reflexive_eq, map_replace_other.
      apply (others_differ k (k', value he)); [done|]. by rewrite <- Hpm. }
    split; [|cbn; by rewrite (concat_insert _ _ _ _ Hl), Hpm'].
    pose proof (wf_good h' Hw b _ Hl) as Hgood. apply Forall_cons in Hgood as [Hghe Hgl].
    pose proof (wf_addr h' Hw) as Hd. pose proof (wf_fresh h' Hw) as Hfr. rewrite Hc in Hd, Hfr. cbn [app] in Hfr. apply Forall_cons in Hfr as [Hf1 Hf2].
    apply (wf_update h' b (he :: l)); try done.
    + by constructor.
    + rewrite Hpm in Ham. cbn [app]. rewrite (pairs_cons (set_value v he) _ k') by done. exact Ham.
    + rewrite (wf_count h' Hw). unfold zlen. by rewrite Hc.
    + by constructor.
  - destruct Hm as [Hn ->]. rewrite Hn. destruct (hash_add_fast_spec h k v m b Hr Hn Eb) as (h2 & -> & Hr2).
    cbn [mbind outcome_mbind]. by exists h2.
Qed.

Lemma hash_remove_spec h k m :
  rel h m -> exists h', hash_remove h k = Ret (h', (map_remove k m).2) /\ rel h' (map_remove k m).1.
Proof.
  intros Hr. pose proof (rel_apart h m Hr) as Ham. pose proof Hr as [Hw Hp].
  destruct (bucket_of h k Hw) as (b & l & Eb & Hl & Hg & Hrest). unfold hash_remove, hash_remove_fast, map_remove.
  rewrite Eb, Hg. cbn [mbind outcome_mbind]. pose proof (concat_delete _ _ _ Hl) as Hc.
  set (rest := concat (delete b (buckets h))) in *.
  destruct (lookup_loop_spec h b k l [] (wf_good h Hw b l Hl)) as [(_ & -> & Hn)|(l1 & he & l2 & k' & -> & Ek & Ec & _ & ->)]; cbn [mbind outcome_mbind].
  - rewrite map_lookup_none; [by exists h|]. rewrite <- Hp, Hc, pairs_app. by apply Forall_app.
  - rewrite set_bucket_eq by (by eapply lookup_lt_Some). cbn [mbind outcome_mbind rev app].
    assert (Hperm : l1 ++ he :: l2 ≡ₚ he :: l1 ++ l2) by (symmetry; apply Permutation_middle).
    assert (Hpm : m ≡ₚ (k', value he) :: pairs ((l1 ++ l2) ++ rest)) by (by rewrite <- Hp, Hc, Hperm, <- (pairs_cons he _ k' Ek)).
    assert (Hd : Forall (fun y => same k y = false) (pairs ((l1 ++ l2) ++ rest))).
    { apply (others_differ k (k', value he)); [done|]. by rewrite <- Hpm. }
    rewrite (map_lookup_perm k _ _ Ham Hpm). cbn [map_lookup].
    assert (Es : same k (k', value he) = true) by exact Ec. rewrite Es. cbn [fst snd]. eexists. split; [reflexivity|].
    assert (Hfm : filter (fun x => same k x = false) m ≡ₚ pairs ((l1 ++ l2) ++ rest)).
    { rewrite Hpm, filter_cons. destruct (decide _) as [E|]; [unfold same in E; cbn in E; congruence|]. by rewrite filter_other. }
    split; [|cbn; by rewrite (concat_insert _ _ _ _ Hl), Hfm].
    pose proof (wf_good h Hw b _ Hl) as Hgood. pose proof (wf_addr h Hw) as Hdd. pose proof (wf_fresh h Hw) as Hfr.
    rewrite Hc, Hperm in Hdd, Hfr. rewrite Hperm in Hgood. apply Forall_cons in Hgood as [_ Hgood]. cbn in Hdd, Hfr.
    apply NoDup_cons in Hdd as [_ Hdd]. apply Forall_cons in Hfr as [_ Hfr].
    apply (wf_update h b (l1 ++ he :: l2)); try done.
    + rewrite Hpm in Ham. by destruct Ham.
    + rewrite (wf_count h Hw). unfold zlen. rewrite Hc, Hperm. cbn. fold rest. lia.
Qed.

Lemma hash_init_spec n iv0 :
  0 < n <= 2 ^ 30 -> exists h, hash_init n iv0 = Ret h /\ rel h [].
Proof.
  intros Hn. unfold hash_init, adjust_power_of_2. bdecide. cbn [c_assert mbind outcome_mbind].
  destruct (adjust_power_of_2_loop_spec 65 0 n ltac:(lia) ltac:(lia) ltac:(lia) ltac:(by left)) as (j & Hj & _ & Hu & Hlow).
  change (2 ^ Z.of_nat 0) with 1 in Hj. rewrite Hj. cbn [mbind outcome_mbind].
  assert (Hj30 : Z.of_nat j <= 30).
  { destruct (decide (Z.of_nat j <= 30)) as [|Hgt]; [done|]. destruct Hlow as [->|Hlow]; [lia|].
    assert (2 ^ 30 <= 2 ^ (Z.of_nat j - 1)) by (apply Z.pow_le_mono_r; lia). lia. }
  assert (Hp : 0 < 2 ^ Z.of_nat j <= 2 ^ 30) by (split; [apply Z.pow_pos_nonneg; lia|apply Z.pow_le_mono_r; lia]).
  replace (i32 (2 ^ Z.of_nat j)) with (2 ^ Z.of_nat j) by uwrap.
  eexists. split; [reflexivity|].
  assert (Hc : forall x, concat (replicate x ([] : list (hash_element K V))) = []) by (induction x; done).
  split; [|cbn; by rewrite Hc]. split; cbn; rewrite ?Hc; try done.
  - exists (Z.of_nat j). lia.
  - rewrite zlen_replicate. lia.
  - intros b l Hl. apply lookup_replicate in Hl as [-> _]. constructor.
  - constructor.
Qed.

End Table.

(** ** Iteration with deferred deletions *)
Section Sweep.
Context {K V : Type} `{HashLaws K} `{EqDecision V}.

(** The buckets [start] up to the ones in [post] are swept.  The elements for which [f] holds
    are deleted; [P s l] says that the rest of the loop body works in state [s] on the
    elements [l] that are still to come. *)
Context {St : Type} (body : St -> hash_element K V -> outcome (St * bool)).
Variables (f : hash_element K V -> bool) (start : Z) (post : list (list (hash_element K V))).
Variable P : St -> list (hash_element K V) -> Prop.
Hypothesis body_ok : forall s he l, P s (he :: l) -> exists s', body s he = Ret (s', f he) /\ P s' l.
Implicit Types (h : hash K V) (he : hash_element K V) (l d t : list (hash_element K V))
  (pre rest : list (list (hash_element K V))) (hi : hash_iterator).

Definition marked he : hash_element K V := if f he then set_marked he else he.
Definition clean l : list (hash_element K V) := filter (fun he => f he = false) l.
Definition keyed l : Prop := Forall (fun he => is_Some (key he)) l.

(** The table with other buckets before [post]; the count is that of the elements. *)
Definition with_buckets h (bs : list (list (hash_element K V))) : hash K V :=
  mkhash (n_buckets h) (zlen (concat (bs ++ post))) (mask h) (iv h) (bs ++ post) (next_addr h).

Definition head_addr t : option Z := match t with [] => None | he :: _ => Some (he_addr he) end.

(** The iterator between two buckets. *)
Definition idle (i e : Z) : hash_iterator := mkhi i None None None false start e.

(** Bucket [length pre] is locked, [d] of it has been yielded and marked, and [t] is
    to come. *)
Definition locked pre d t rest (lst : option Z) : hash_iterator :=
  mkhi (zlen pre) (Some (zlen pre)) (head_addr t) lst (existsb f d) start (zlen pre + 1 + zlen rest).

Lemma addr_marked he : he_addr (marked he) = he_addr he.
Proof. unfold marked. by destruct (f he). Qed.

Lemma addr_map_marked d : he_addr <$> (marked <$> d) = he_addr <$> d.
Proof. induction d as [|he d IH]; [done|]. rewrite !fmap_cons, IH. f_equal. apply addr_marked. Qed.

Lemma get_mid {A} (p : list A) x r q : array_get ((p ++ x :: r) ++ q) (zlen p) = Ret x.
Proof. rewrite <- app_assoc. apply array_get_Some; [apply zlen_nonneg|]. unfold zlen. rewrite Nat2Z.id, lookup_app_r, Nat.sub_diag by lia. done. Qed.

Lemma set_mid {A} (p : list A) x y r q : array_set ((p ++ x :: r) ++ q) (zlen p) y = Ret ((p ++ y :: r) ++ q).
Proof.
  rewrite array_set_in by zlia. unfold zlen. rewrite <- !app_assoc, Nat2Z.id, insert_app_r_alt, Nat.sub_diag by lia. done.
Qed.

Lemma read_elem_app d he t :
  NoDup (he_addr <$> d ++ he :: t) -> read_elem (he_addr he) (d ++ he :: t) = Ret (he, head_addr t).
Proof.
  induction d as [|x d IH]; cbn; intros Hn.
  - rewrite Z.eqb_refl. by destruct t.
  - apply NoDup_cons in Hn as [Hx Hn]. destruct (_ =? _) eqn:E; breflect; [|by apply IH].
    exfalso. apply Hx. rewrite E, fmap_app. apply elem_of_app. right. left.
Qed.

Lemma write_elem_app d he t g :
  NoDup (he_addr <$> d ++ he :: t) -> write_elem (he_addr he) g (d ++ he :: t) = Ret (d ++ g he :: t).
Proof.
  induction d as [|x d IH]; cbn; intros Hn; [by rewrite Z.eqb_refl|].
  apply NoDup_cons in Hn as [Hx Hn]. destruct (_ =? _) eqn:E; breflect.
  - exfalso. apply Hx. rewrite E, fmap_app. apply elem_of_app. right. left.
  - rewrite IH by done. done.
Qed.

Lemma remove_marked_clean d : forall n,
  keyed d -> hash_remove_marked_loop (marked <$> d) n = (clean d, n - (zlen d - zlen (clean d))).
Proof.
  induction d as [|he d IH]; intros n Hk; [cbn; f_equal; zlia|].
  apply Forall_cons in Hk as [[k Ek] Hk]. rewrite fmap_cons. cbn [hash_remove_marked_loop].
  unfold marked at 1, clean. rewrite filter_cons. unfold marked at 2. destruct (f he) eqn:Ef; cbn [key set_marked].
  - rewrite IH by done. destruct (decide _); [done|]. f_equal. unfold clean. zlia.
  - rewrite Ek, IH by done. destruct (decide _); [|done]. f_equal. unfold clean. zlia.
Qed.

Lemma clean_none d : existsb f d = false -> clean d = d /\ marked <$> d = d.
Proof.
  induction d as [|he d IH]; [done|]. cbn [existsb]. intros [E1 E2]%orb_false_iff. destruct (IH E2) as [H1 H2].
  unfold clean in *. rewrite filter_cons_True, H1, fmap_cons, H2 by done. unfold marked. by rewrite E1.
Qed.

Lemma clean_app l1 l2 : clean (l1 ++ l2) = clean l1 ++ clean l2.
Proof. apply filter_app. Qed.

Lemma concat_mid_len pre l rest :
  zlen (concat ((pre ++ l :: rest) ++ post)) = zlen (concat pre) + zlen l + zlen (concat rest) + zlen (concat post).
Proof. rewrite !concat_app, concat_cons. zlia. Qed.

(** Leaving a bucket removes the marked elements. *)
Lemma unlock_locked h pre d rest i lst e :
  keyed d ->
  hash_iterator_unlock (with_buckets h (pre ++ (marked <$> d) :: rest)) (mkhi i (Some (zlen pre)) None lst (existsb f d) start e)
  = Ret (with_buckets h (pre ++ clean d :: rest), idle i e).
Proof.
  intros Hk. unfold hash_iterator_unlock. cbn [hi_bucket bucket_marked bucket_index elem bucket_index_start bucket_index_end].
  destruct (existsb f d) eqn:Ex.
  - unfold hash_remove_marked, set_bucket. cbn [buckets n_elements with_buckets].
    rewrite get_mid. cbn [mbind outcome_mbind]. rewrite remove_marked_clean by done. rewrite set_mid. cbn [mbind outcome_mbind].
    unfold with_buckets. cbn. do 3 f_equal. rewrite !concat_mid_len. zlia.
  - destruct (clean_none d Ex) as [-> ->]. done.
Qed.

(** Deleting the element just yielded, or keeping it. *)
Lemma mark_yielded h pre d he t rest :
  NoDup (he_addr <$> d ++ he :: t) ->
  (if f he then hash_iterator_delete_element (with_buckets h (pre ++ ((marked <$> d) ++ he :: t) :: rest)) (locked pre d t rest (Some (he_addr he)))
   else Ret (with_buckets h (pre ++ ((marked <$> d) ++ he :: t) :: rest), locked pre d t rest (Some (he_addr he))))
  = Ret (with_buckets h (pre ++ ((marked <$> d ++ [he]) ++ t) :: rest), locked pre (d ++ [he]) t rest (Some (he_addr he))).
Proof.
  intros Hn. unfold locked. rewrite existsb_app. cbn [existsb]. rewrite orb_false_r, fmap_app, <- app_assoc. cbn [fmap list_fmap app].
  change (marked he) with (if f he then set_marked he else he). destruct (f he) eqn:Ef; [|by rewrite orb_false_r]. rewrite orb_true_r.
  unfold hash_iterator_delete_element, set_bucket. cbn [last hi_bucket buckets with_buckets]. rewrite get_mid. cbn [mbind outcome_mbind].
  rewrite write_elem_app by (rewrite fmap_app, addr_map_marked, <- fmap_app; done). cbn [mbind outcome_mbind]. rewrite set_mid.
  cbn [mbind outcome_mbind]. unfold with_buckets. cbn. do 3 f_equal. rewrite !concat_mid_len. zlia.
Qed.

(** The search over the buckets that follow. *)
Lemma search_step h pre b rest fuel :
  hash_iterator_search (S fuel) (with_buckets h (pre ++ b :: rest)) (idle (zlen pre - 1) (zlen pre + 1 + zlen rest)) =
  match b with
  | he :: t => Ret (with_buckets h (pre ++ b :: rest), locked pre [] t rest (Some (he_addr he)), Some he)
  | [] => hash_iterator_search fuel (with_buckets h (pre ++ b :: rest)) (idle (zlen pre) (zlen pre + 1 + zlen rest))
  end.
Proof.
  cbn [hash_iterator_search]. unfold idle, set_index.
  cbn [bucket_index bucket_index_end hi_bucket elem last bucket_marked bucket_index_start].
  replace (zlen pre - 1 + 1) with (zlen pre) by lia. bdecide.
  cbn [hash_iterator_unlock hi_bucket mbind outcome_mbind bucket_index with_buckets buckets]. rewrite get_mid. cbn [mbind outcome_mbind].
  destruct b as [|he t]; [done|].
  unfold hash_iterator_advance, set_elem, hash_iterator_lock, locked. cbn [bucket_index hi_bucket elem bucket_marked bucket_index_start bucket_index_end buckets with_buckets].
  rewrite get_mid. cbn [mbind outcome_mbind read_elem]. bdecide. cbn [mbind outcome_mbind]. by destruct t.
Qed.

Lemma search_idle h rest : forall fuel pre,
  (length rest < fuel)%nat ->
  (Forall (fun l => l = []) rest /\
   hash_iterator_search fuel (with_buckets h (pre ++ rest)) (idle (zlen pre - 1) (zlen pre + zlen rest)) =
     Ret (with_buckets h (pre ++ rest), idle (zlen pre + zlen rest) (zlen pre + zlen rest), None)) \/
  exists em he t rest', Forall (fun l => l = []) em /\ rest = em ++ (he :: t) :: rest' /\
    hash_iterator_search fuel (with_buckets h (pre ++ rest)) (idle (zlen pre - 1) (zlen pre + zlen rest)) =
      Ret (with_buckets h (pre ++ rest), locked (pre ++ em) [] t rest' (Some (he_addr he)), Some he).
Proof.
  induction rest as [|b rest IH]; intros fuel pre Hf; (destruct fuel as [|fuel]; [cbn in Hf; lia|]).
  - left. cbn [hash_iterator_search]. split; [constructor|]. change (zlen []) with 0. unfold idle, set_index.
    cbn [bucket_index bucket_index_end hi_bucket elem last bucket_marked bucket_index_start]. bdecide. do 4 f_equal. lia.
  - replace (zlen pre + zlen (b :: rest)) with (zlen pre + 1 + zlen rest) by zlia. rewrite search_step. destruct b as [|he t].
    + replace (pre ++ [] :: rest) with ((pre ++ [[]]) ++ rest) by (by rewrite <- app_assoc).
      replace (zlen pre + 1 + zlen rest) with (zlen (pre ++ [[]]) + zlen rest) by zlia.
      replace (zlen pre) with (zlen (pre ++ [[]]) - 1) by zlia.
      destruct (IH fuel (pre ++ [[]])) as [[Hall ->]|(em & he & t & rest' & Hem & -> & ->)]; [cbn in Hf; lia| |].
      * left. split; [by constructor|done].
      * right. exists ([] :: em), he, t, rest'. split; [by constructor|]. split; [done|]. by rewrite <- !app_assoc.
    + right. exists [], he, t, rest. split; [constructor|]. split; [done|]. by rewrite app_nil_r.
Qed.

(** Sweeping from a state and releasing the iterator ends with these buckets. *)
Definition sweeps_to fuel s h (bs : list (list (hash_element K V))) hi (bs' : list (list (hash_element K V))) : Prop :=
  exists s' h1 hi1 hi2, hash_sweep fuel body s (with_buckets h bs) hi = Ret (s', h1, hi1) /\
    hash_iterator_free h1 hi1 = Ret (with_buckets h bs', hi2) /\ P s' [].

Definition distinct (bs : list (list (hash_element K V))) : Prop := Forall (fun l => NoDup (he_addr <$> l) /\ keyed l) bs.

Definition sweep_locked_ok (fuel : nat) : Prop := forall s h pre d t rest lst,
  (length (t ++ concat rest) < fuel)%nat -> NoDup (he_addr <$> d ++ t) -> keyed (d ++ t) -> distinct rest ->
  P s (t ++ concat rest) ->
  sweeps_to fuel s h (pre ++ ((marked <$> d) ++ t) :: rest) (locked pre d t rest lst)
    (pre ++ clean (d ++ t) :: (clean <$> rest)).

Lemma clean_empty rest : Forall (fun l => l = []) rest -> clean <$> rest = rest.
Proof. induction 1 as [|l rest -> _ IH]; [done|]. by rewrite fmap_cons, IH. Qed.

Lemma concat_empty rest : Forall (fun l => l = []) rest -> concat rest = [].
Proof. by induction 1 as [|l rest -> _ IH]. Qed.

Lemma idle_next h pre rest :
  hash_iterator_next (with_buckets h (pre ++ rest)) (idle (zlen pre - 1) (zlen pre + zlen rest)) =
  hash_iterator_search (S (S (length rest))) (with_buckets h (pre ++ rest)) (idle (zlen pre - 1) (zlen pre + zlen rest)).
Proof. unfold hash_iterator_next, idle. cbn [elem bucket_index bucket_index_end]. do 2 f_equal. unfold zlen. lia. Qed.

Lemma sweep_idle fuel : sweep_locked_ok fuel -> forall s h pre rest,
  (length (concat rest) < S fuel)%nat -> distinct rest -> P s (concat rest) ->
  sweeps_to (S fuel) s h (pre ++ rest) (idle (zlen pre - 1) (zlen pre + zlen rest)) (pre ++ (clean <$> rest)).
Proof.
  intros Hok s h pre rest Hf Hd HP. unfold sweeps_to. cbn [hash_sweep]. rewrite idle_next.
  destruct (search_idle h rest (S (S (length rest))) pre ltac:(lia)) as [[Hall ->]|(em & he & t & rest' & Hem & -> & ->)].
  - cbn [mbind outcome_mbind]. eexists _, _, _, _. split; [reflexivity|]. rewrite (clean_empty rest) by done.
    split; [done|]. by rewrite (concat_empty rest) in HP.
  - cbn [mbind outcome_mbind]. apply Forall_app in Hd as [_ Hd]. apply Forall_cons in Hd as [[Hn Hk] Hd].
    rewrite concat_app, concat_cons, (concat_empty em) in HP, Hf by done. cbn [app] in HP, Hf.
    destruct (body_ok s he _ HP) as (s' & -> & HP'). cbn [mbind outcome_mbind].
    rewrite app_assoc. pose proof (mark_yielded h (pre ++ em) [] he t rest' Hn) as Hm. cbn [fmap list_fmap app] in Hm.
    rewrite Hm. cbn [mbind outcome_mbind].
    pose proof (Hok s' h (pre ++ em) [he] t rest' (Some (he_addr he))) as Hs. cbn [fmap list_fmap app] in Hs.
    rewrite fmap_app, fmap_cons, (clean_empty em) by done. rewrite app_assoc. apply Hs; [|done..]. cbn in Hf. lia.
Qed.

Lemma next_locked h pre d he t rest lst :
  NoDup (he_addr <$> d ++ he :: t) ->
  hash_iterator_next (with_buckets h (pre ++ ((marked <$> d) ++ he :: t) :: rest)) (locked pre d (he :: t) rest lst) =
  Ret (with_buckets h (pre ++ ((marked <$> d) ++ he :: t) :: rest), locked pre d t rest (Some (he_addr he)), Some he).
Proof.
  intros Hn. unfold hash_iterator_next, hash_iterator_advance. cbn [locked hi_bucket elem head_addr buckets with_buckets].
  rewrite get_mid. cbn [mbind outcome_mbind].
  rewrite read_elem_app by (rewrite fmap_app, addr_map_marked, <- fmap_app; done). done.
Qed.

Lemma sweep_locked fuel : sweep_locked_ok fuel.
Proof.
  induction fuel as [|fuel IH]; intros s h pre d t rest lst Hf Hn Hk Hd HP; [lia|]. destruct t as [|he t].
  - rewrite !app_nil_r in *. destruct rest as [|b rest].
    + exists s, (with_buckets h (pre ++ [marked <$> d])). cbn [hash_sweep]. unfold hash_iterator_next, locked.
      cbn [elem head_addr hash_iterator_search bucket_index bucket_index_end set_index].
      unfold set_index. cbn [bucket_index bucket_index_end hi_bucket elem last bucket_marked bucket_index_start].
      change (zlen []) with 0. bdecide. cbn [mbind outcome_mbind]. eexists _, _. split; [reflexivity|].
      unfold hash_iterator_free. by rewrite unlock_locked.
    + assert (Hnext : hash_iterator_next (with_buckets h (pre ++ (marked <$> d) :: b :: rest)) (locked pre d [] (b :: rest) lst) =
        hash_iterator_next (with_buckets h (pre ++ clean d :: b :: rest)) (idle (zlen pre) (zlen pre + 1 + zlen (b :: rest)))).
      { unfold hash_iterator_next, locked. cbn [elem head_addr idle hash_iterator_search bucket_index bucket_index_end].
        unfold set_index. cbn [bucket_index bucket_index_end hi_bucket elem last bucket_marked bucket_index_start idle].
        rewrite zlen_cons. bdecide. rewrite unlock_locked by done. done. }
      unfold sweeps_to. cbn [hash_sweep]. rewrite Hnext.
      pose proof (sweep_idle fuel IH s h (pre ++ [clean d]) (b :: rest)) as Hs. unfold sweeps_to in Hs. cbn [hash_sweep] in Hs.
      replace (zlen (pre ++ [clean d]) - 1) with (zlen pre) in Hs by zlia.
      replace (zlen (pre ++ [clean d])) with (zlen pre + 1) in Hs by zlia. rewrite <- !app_assoc in Hs. by apply Hs.
  - unfold sweeps_to. cbn [hash_sweep]. rewrite next_locked by done. cbn [mbind outcome_mbind].
    destruct (body_ok s he _ HP) as (s' & -> & HP'). cbn [mbind outcome_mbind].
    rewrite (mark_yielded h pre d he t rest Hn). cbn [mbind outcome_mbind].
    replace (d ++ he :: t) with ((d ++ [he]) ++ t) in * by (by rewrite <- app_assoc). apply IH; [|done..]. cbn in Hf. lia.
Qed.

End Sweep.

(** ** Histories of a table *)
Section Refinement.
Context {K V : Type} `{HashLaws K} `{EqDecision V}.
Implicit Types (h : hash K V) (k : K) (v : V) (m : list (K * V)).

Lemma concat_clean f (bs : list (list (hash_element K V))) : concat (clean f <$> bs) = clean f (concat bs).
Proof. induction bs as [|l bs IH]; [done|]. rewrite fmap_cons, !concat_cons, IH. symmetry. apply clean_app. Qed.

Lemma wf_distinct h : hash_wf h -> distinct (buckets h).
Proof.
  intros Hw. apply Forall_lookup_2. intros b l Hl. split.
  - pose proof (wf_addr h Hw) as Hd. rewrite (concat_delete _ _ _ Hl), fmap_app in Hd. by apply NoDup_app in Hd as [Hd _].
  - pose proof (wf_good h Hw b l Hl) as Hg. eapply Forall_impl; [exact Hg|]. intros he (k & E & _). by exists k.
Qed.

Lemma wf_keyed h : hash_wf h -> keyed (concat (buckets h)).
Proof.
  intros Hw. apply Forall_forall. intros he (l & Hl & Hin)%list_elem_of_In%in_concat. apply list_elem_of_In in Hl, Hin.
  pose proof (wf_distinct h Hw) as Hd. unfold distinct in Hd. rewrite Forall_forall in Hd. destruct (Hd l Hl) as [_ Hkl].
  unfold keyed in Hkl. rewrite Forall_forall in Hkl. by apply Hkl.
Qed.

Lemma pairs_clean v l :
  keyed l -> pairs (clean (fun he => bool_decide (value he = v)) l) = map_remove_by_value (K := K) v (pairs l).
Proof.
  induction 1 as [|he l [k Ek] _ IH]; [done|]. rewrite (pairs_cons he l k Ek). unfold clean, map_remove_by_value in *.
  rewrite !filter_cons. cbn [snd]. destruct (decide (value he = v)) as [E|E].
  - rewrite bool_decide_true by done. destruct (decide _); [done|]. destruct (decide _); [done|]. exact IH.
  - rewrite bool_decide_false by done. destruct (decide _); [|done]. destruct (decide _); [|done].
    rewrite (pairs_cons he _ k Ek). by rewrite IH.
Qed.

(** A table some of whose elements were removed from their buckets. *)
Lemma wf_sub h (bs : list (list (hash_element K V))) :
  hash_wf h -> Forall2 sublist bs (buckets h) ->
  hash_wf (mkhash (n_buckets h) (zlen (concat bs)) (mask h) (iv h) bs (next_addr h)).
Proof.
  intros Hw Hs. assert (Hc : concat bs `sublist_of` concat (buckets h)).
  { clear Hw. induction Hs as [|l l' bs bs' Hl _ IH]; [constructor|]. rewrite !concat_cons. by apply sublist_app. }
  destruct Hw. split; cbn; try done.
  - unfold zlen in *. by rewrite (Forall2_length _ _ _ Hs).
  - intros b l Hl. destruct (Forall2_lookup_l _ _ _ _ _ Hs Hl) as (l' & Hl' & Hsub). specialize (wf_good0 b l' Hl').
    rewrite Forall_forall in wf_good0 |- *. intros he Hin. apply wf_good0. by eapply elem_of_sublist.
  - assert (Hps : pairs (concat bs) `sublist_of` pairs (concat (buckets h))).
    { unfold pairs. clear - Hc. induction Hc as [|x l1 l2 _ IH|x l1 l2 _ IH]; cbn; [done| |].
      - destruct (pair_of x); [by apply sublist_skip|done].
      - destruct (pair_of x); [by apply sublist_cons|done]. }
    by eapply apart_sublist.
  - eapply sublist_NoDup; [exact wf_addr0|]. by apply fmap_sublist.
  - rewrite Forall_forall in wf_fresh0 |- *. intros he Hin. apply wf_fresh0. by eapply elem_of_sublist.
Qed.

(** The whole loop over the buckets [start] up to [end_]: the body is run on each of their
    elements, and those it deletes are gone afterwards. *)
Lemma sweep_range_spec {St : Type} (body : St -> hash_element K V -> outcome (St * bool)) (f : hash_element K V -> bool)
    (P : St -> list (hash_element K V) -> Prop) h start end_ s :
  (forall s he l, P s (he :: l) -> exists s', body s he = Ret (s', f he) /\ P s' l) ->
  hash_wf h -> 0 <= start -> start <= Z.min end_ (n_buckets h) ->
  let n := Z.min end_ (n_buckets h) - start in
  let pre := ztake start (buckets h) in
  let mid := ztake n (zdrop start (buckets h)) in
  let post := zdrop (start + n) (buckets h) in
  P s (concat mid) ->
  exists hi0 s' h1 hi1 h' hi2, hash_iterator_init_range h start end_ = Ret hi0 /\
    hash_sweep (S (Z.to_nat (n_elements h))) body s h hi0 = Ret (s', h1, hi1) /\
    hash_iterator_free h1 hi1 = Ret (h', hi2) /\ P s' [] /\ hash_wf h' /\ n_buckets h' = n_buckets h /\
    iv h' = iv h /\ mask h' = mask h /\ next_addr h' = next_addr h /\
    buckets h = pre ++ mid ++ post /\ buckets h' = pre ++ (clean f <$> mid) ++ post.
Proof.
  intros Hbody Hw Hs0 Hs1 n pre mid post HP.
  assert (Eb : buckets h = (pre ++ mid) ++ post).
  { unfold pre, mid, post. rewrite <- app_assoc. rewrite <- (zdrop_zdrop n start) by lia. by rewrite !ztake_zdrop. }
  assert (Hpre : zlen pre = start) by (unfold pre; pose proof (wf_len h Hw); zlia).
  assert (Hmid : zlen mid = n) by (unfold mid, n; pose proof (wf_len h Hw); zlia).
  assert (Eh : h = with_buckets post h (pre ++ mid)).
  { unfold with_buckets. rewrite <- Eb. destruct h as [nb ne mk iv0 bs na]; cbn in *. f_equal. apply (wf_count _ Hw). }
  assert (Hd : distinct mid).
  { pose proof (wf_distinct h Hw) as Hd. rewrite Eb in Hd. apply Forall_app in Hd as [Hd _]. by apply Forall_app in Hd as [_ Hd]. }
  destruct (sweep_idle body f start post P Hbody (Z.to_nat (n_elements h)) (sweep_locked body f start post P Hbody _) s h pre mid)
    as (s' & h1 & hi1 & hi2 & Hsw & Hfree & HP'); [|done|done|].
  { rewrite (wf_count h Hw), Eb, !concat_app. unfold zlen. rewrite !length_app. lia. }
  rewrite <- Eh, Hpre, Hmid in Hsw.
  exists (idle start (start - 1) (start + n)), s', h1, hi1, (with_buckets post h (pre ++ (clean f <$> mid))), hi2. split.
  { unfold hash_iterator_init_range, idle, n. destruct (n_buckets h <? end_) eqn:E; breflect; bdecide; cbn [c_assert mbind outcome_mbind].
    - do 2 f_equal. lia.
    - do 2 f_equal. lia. }
  split; [exact Hsw|]. split; [exact Hfree|]. split; [done|]. split.
  { unfold with_buckets. apply wf_sub; [done|]. rewrite Eb. apply Forall2_app; [apply Forall2_app|].
    - apply Forall_Forall2_diag, Forall_forall. done.
    - apply Forall2_fmap_l, Forall_Forall2_diag, Forall_forall. intros l _. apply sublist_filter.
    - apply Forall_Forall2_diag, Forall_forall. done. }
  do 4 (split; [done|]). rewrite !app_assoc. by split.
Qed.

Lemma hash_remove_by_value_spec h v m :
  rel h m -> exists h', hash_remove_by_value h v = Ret h' /\ rel h' (map_remove_by_value v m).
Proof.
  intros [Hw Hp]. set (f := fun he : hash_element K V => bool_decide (value he = v)).
  destruct (wf_size h Hw) as (j & Hj & Hnb). assert (Hb : 0 < n_buckets h) by (rewrite Hnb; apply Z.pow_pos_nonneg; lia).
  destruct (sweep_range_spec (fun (_ : unit) he => Ret (tt, f he)) f (fun _ _ => True) h 0 (n_buckets h) tt)
    as (hi0 & s' & h1 & hi1 & h' & hi2 & Hi & Hs & Hf & _ & Hw' & _ & _ & _ & _ & E1 & E2); [by exists tt|done|lia|lia|done|].
  exists h'. split.
  - unfold hash_remove_by_value, hash_iterator_init. rewrite Hi. cbn [mbind outcome_mbind]. unfold f in Hs. rewrite Hs.
    cbn [mbind outcome_mbind]. by rewrite Hf.
  - split; [done|]. pose proof (wf_keyed h Hw) as Hk. replace (Z.min (n_buckets h) (n_buckets h) - 0) with (n_buckets h) in * by lia.
    rewrite Z.add_0_l in *. rewrite zdrop_0, ztake_0, (ztake_all (n_buckets h)), (zdrop_all (n_buckets h)), app_nil_r in E2 by (rewrite (wf_len h Hw); lia).
    cbn [app] in E2. rewrite E2, concat_clean. unfold f. rewrite pairs_clean by done. unfold map_remove_by_value. by rewrite Hp.
Qed.

Inductive hash_op : Type :=
| Lookup (k : K)
| Add (k : K) (v : V) (replace : bool)
| Remove (k : K)
| RemoveByValue (v : V)
| Count.

Inductive hash_res : Type := RValue (r : option V) | RBool (b : bool) | RUnit | RInt (n : Z).

Definition hash_exec h (op : hash_op) : outcome (hash K V * hash_res) :=
  match op with
  | Lookup k => '(h, r) ← hash_lookup h k; Ret (h, RValue r)
  | Add k v rep => '(h, b) ← hash_add h k v rep; Ret (h, RBool b)
  | Remove k => '(h, b) ← hash_remove h k; Ret (h, RBool b)
  | RemoveByValue v => h ← hash_remove_by_value h v; Ret (h, RUnit)
  | Count => Ret (h, RInt (n_elements h))
  end.

Definition map_exec m (op : hash_op) : list (K * V) * hash_res :=
  match op with
  | Lookup k => (m, RValue (map_lookup k m))
  | Add k v rep => let '(m, b) := map_add k v rep m in (m, RBool b)
  | Remove k => let '(m, b) := map_remove k m in (m, RBool b)
  | RemoveByValue v => (map_remove_by_value v m, RUnit)
  | Count => (m, RInt (zlen m))
  end.

Fixpoint hash_run h (ops : list hash_op) : outcome (hash K V * list hash_res) :=
  match ops with
  | [] => Ret (h, [])
  | op :: ops => '(h, r) ← hash_exec h op; '(h, rs) ← hash_run h ops; Ret (h, r :: rs)
  end.

Fixpoint map_run m (ops : list hash_op) : list (K * V) * list hash_res :=
  match ops with
  | [] => (m, [])
  | op :: ops => let '(m, r) := map_exec m op in let '(m, rs) := map_run m ops in (m, r :: rs)
  end.

Lemma pairs_length (l : list (hash_element K V)) : keyed l -> zlen (pairs l) = zlen l.
Proof. induction 1 as [|he l [k Ek] _ IH]; [done|]. rewrite (pairs_cons he l k Ek), !zlen_cons. lia. Qed.

(** One operation on related states gives the same result and related states. *)
Lemma hash_exec_spec h m op :
  rel h m -> exists h', hash_exec h op = Ret (h', (map_exec m op).2) /\ rel h' (map_exec m op).1.
Proof.
  intros Hr. destruct op as [k|k v rep|k|v|]; cbn [hash_exec map_exec].
  - destruct (hash_lookup_spec h k m Hr) as (h' & -> & Hr'). cbn [mbind outcome_mbind]. by exists h'.
  - destruct (hash_add_spec h k v rep m Hr) as (h' & -> & Hr'). cbn [mbind outcome_mbind]. exists h'. by destruct (map_add _ _ _ _).
  - destruct (hash_remove_spec h k m Hr) as (h' & -> & Hr'). cbn [mbind outcome_mbind]. exists h'. by destruct (map_remove _ _).
  - destruct (hash_remove_by_value_spec h v m Hr) as (h' & -> & Hr'). cbn [mbind outcome_mbind]. by exists h'.
  - exists h. split; [|done]. destruct Hr as [Hw Hp]. cbn [snd]. do 3 f_equal. rewrite (wf_count h Hw), <- (pairs_length _ (wf_keyed h Hw)).
    unfold zlen. by rewrite Hp.
Qed.

(** C21: a hash table implements a finite map.  For all functions that meet the
    interface and every sequence of lookups, additions, replacements, removals by
    key or by value and counts, a new table gives exactly the results the sequence
    gives on an association list, and no operation dereferences a null or freed
    pointer, leaves an array or fails an assertion. *)
Theorem hash_table_refines_map (n iv0 : Z) (ops : list hash_op) :
  0 < n <= 2 ^ 30 ->
  exists h0 h, hash_init n iv0 = Ret h0 /\ hash_run h0 ops = Ret (h, (map_run [] ops).2) /\
    pairs (concat (buckets h)) ≡ₚ (map_run [] ops).1.
Proof.
  intros Hn. destruct (hash_init_spec (K := K) (V := V) n iv0 Hn) as (h0 & Hi & Hr0).
  assert (Hrun : forall ops h m, rel h m -> exists h', hash_run h ops = Ret (h', (map_run m ops).2) /\ rel h' (map_run m ops).1).
  { clear n iv0 ops Hn h0 Hi Hr0. induction ops as [|op ops IH]; intros h m Hr; cbn [hash_run map_run]; [by exists h|].
    destruct (hash_exec_spec h m op Hr) as (h1 & -> & Hr1). cbn [mbind outcome_mbind].
    destruct (map_exec m op) as [m1 r]. cbn [fst snd] in *. destruct (IH h1 m1 Hr1) as (h2 & -> & Hr2). cbn [mbind outcome_mbind].
    exists h2. by destruct (map_run m1 ops). }
  destruct (Hrun ops h0 [] Hr0) as (h & Hh & [_ Hp]). by exists h0, h.
Qed.

End Refinement.
Arguments hash_op : clear implicits.

(** The functions for client identifiers meet the interface. *)
#[global] Instance cid_laws : HashLaws cid.
Proof.
  split; unfold hash_function, compare_function; cbn; unfold cid_compare_function, cid_hash_function; intros; breflect.
  - apply Z.eqb_refl.
  - apply Z.eqb_eq. lia.
  - apply Z.eqb_eq. lia.
  - congruence.
  - apply u32_range.
Qed.

Definition sample_ops : list (hash_op cid Z) :=
  [Add (mkcid 1) 100 false; Add (mkcid 5) 101 false; Add (mkcid 9) 100 false; Lookup (mkcid 1); Add (mkcid 5) 102 true;
   Add (mkcid 5) 103 false; RemoveByValue 100; Lookup (mkcid 5); Lookup (mkcid 9); Remove (mkcid 5); Remove (mkcid 5); Count].

Lemma hash_table_refines_map_witness :
  exists h0 h : hash cid Z, hash_init 3 0 = Ret h0 /\
    hash_run h0 sample_ops =
      Ret (h, [RBool true; RBool true; RBool true; RValue (Some 100); RBool true; RBool false; RUnit;
               RValue (Some 102); RValue None; RBool true; RBool false; RInt 0]) /\
    pairs (concat (buckets h)) ≡ₚ [].
Proof.
  destruct (hash_table_refines_map 3 0 sample_ops) as (h0 & h & H1 & H2 & H3); [lia|].
  exists h0, h. split; [exact H1|]. split; [rewrite H2; vm_compute; reflexivity|].
  replace (map_run [] sample_ops).1 with ([] : list (cid * Z)) in H3 by (vm_compute; reflexivity). exact H3.
Defined.
