(* ===== verification/Mroute.v ===== *)
(** * Addresses of the server's routing tables ([mroute.c], [mroute.h])

    A [mroute_addr] is the key of the server's tables: an Ethernet, IPv4 or IPv6
    address, possibly with a port or a prefix length.  The union of the struct is
    its 20 raw bytes; the members [v4], [v6] and [eth_addr] are ranges of them, in
    network order.  [netbits_to_netmask] and [netmask_to_netbits] are those of
    [route.h] and [route.c]. *)
From S2P Require Import Prelude Integer Buffer Hash.
#[local] Open Scope Z_scope.

Definition MROUTE_EXTRACT_SUCCEEDED : Z := 1.
Definition MROUTE_EXTRACT_BCAST : Z := 2.
Definition MROUTE_EXTRACT_MCAST : Z := 4.
Definition MROUTE_EXTRACT_IGMP : Z := 8.
Definition MROUTE_SEC_SHIFT : Z := 4.

Definition MR_MAX_ADDR_LEN : Z := 20.

Definition MR_ADDR_NONE : Z := 0.
Definition MR_ADDR_ETHER : Z := 1.
Definition MR_ADDR_IPV4 : Z := 2.
Definition MR_ADDR_IPV6 : Z := 3.
Definition MR_ADDR_MASK : Z := 3.
Definition MR_WITH_PORT : Z := 4.
Definition MR_WITH_NETBITS : Z := 8.
Definition MR_ARP : Z := 16.

(** [struct mroute_addr] *)
Record mroute_addr : Type := mkma {
  ma_len : Z;
  ma_type : Z;
  ma_netbits : Z;
  raw_addr : list Z
}.

#[global] Instance mroute_addr_eq_dec : EqDecision mroute_addr.
Proof. solve_decision. Defined.

(** An assignment to a member of the union. *)
Definition put_raw (raw : list Z) (pos : Z) (src : list Z) : list Z :=
  ztake pos raw ++ src ++ zdrop (pos + zlen src) raw.

Definition mroute_addr_init : mroute_addr := mkma 0 0 0 (replicate 20 0).

Definition is_mac_mcast_addr (mac0 : Z) : bool := negb (Z.land mac0 1 =? 0).

(** [addr->eth_addr[0]] *)
Definition is_mac_mcast_maddr (addr : mroute_addr) : outcome bool :=
  if Z.land (ma_type addr) MR_ADDR_MASK =? MR_ADDR_ETHER
  then b ← load1 (raw_addr addr) 0; Ret (is_mac_mcast_addr b)
  else Ret false.

(** The loop of [mroute_learnable_address]; returns [all_zeros] and [all_ones]. *)
Fixpoint all_zeros_ones (bytes : list Z) (zeros ones : bool) : bool * bool :=
  match bytes with
  | [] => (zeros, ones)
  | b :: bytes => all_zeros_ones bytes (if negb (b =? 0x00) then false else zeros) (if negb (b =? 0xFF) then false else ones)
  end.

Definition mroute_learnable_address (addr : mroute_addr) : outcome bool :=
  bytes ← load (raw_addr addr) 0 (ma_len addr);
  let '(all_zeros, all_ones) := all_zeros_ones bytes true true in
  if all_zeros && negb (negb (Z.land (ma_type addr) MR_WITH_NETBITS =? 0) && (ma_netbits addr <? 8)) then Ret false
  else if all_ones then Ret false
  else
    m ← is_mac_mcast_maddr addr;
    if m : bool then Ret false else Ret true.

(** [None] is the null pointer. *)
Definition mroute_get_in_addr_t (ma : option mroute_addr) (src : list Z) (mask : Z) : option mroute_addr :=
  match ma with
  | None => None
  | Some ma => Some (mkma 4 (Z.lor MR_ADDR_IPV4 mask) 0 (put_raw (raw_addr ma) 0 src))
  end.

Definition mroute_get_in6_addr (ma : option mroute_addr) (src : list Z) (mask : Z) : option mroute_addr :=
  match ma with
  | None => None
  | Some ma => Some (mkma 16 (Z.lor MR_ADDR_IPV6 mask) 0 (put_raw (raw_addr ma) 0 src))
  end.

Definition IP_MCAST_SUBNET_MASK : Z := Z.shiftl 240 24.
Definition IP_MCAST_NETWORK : Z := Z.shiftl 224 24.

Definition mroute_is_mcast (addr : list Z) : bool := Z.land (be_value addr) IP_MCAST_SUBNET_MASK =? IP_MCAST_NETWORK.

Definition mroute_is_mcast_ipv6 (addr : list Z) : bool :=
  match addr with b :: _ => b =? 0xff | [] => false end.

Definition OPENVPN_IPH_GET_VER (v : Z) : Z := Z.land (Z.shiftr v 4) 0x0F.
Definition OPENVPN_IPPROTO_IGMP : Z := 2.
Definition OPENVPN_ETH_P_IPV4 : Z := 0x0800.
Definition OPENVPN_ETH_P_ARP : Z := 0x0806.

(** The offsets of the members of [struct openvpn_iphdr] (20 bytes): [protocol] 9,
    [saddr] 12, [daddr] 16; of [struct openvpn_ipv6hdr] (40 bytes): [saddr] 8, [daddr]
    24; of [struct openvpn_ethhdr] (14 bytes): [dest] 0, [source] 6, [proto] 12; of
    [struct openvpn_arp] (28 bytes, packed): the types 0 and 2, the sizes 4 and 5,
    [ip_src] 14, [ip_dest] 24. *)
Definition iphdr_size : Z := 20.
Definition ipv6hdr_size : Z := 40.
Definition ethhdr_size : Z := 14.
Definition arp_size : Z := 28.

(** Result flags and the addresses written through the pointers. *)
Definition extraction : Type := Z * option mroute_addr * option mroute_addr.

Definition mroute_extract_addr_arp (src dest : option mroute_addr) (buf : buffer) : outcome extraction :=
  if arp_size <=? buf_len buf
  then
    let p := offset buf in
    mac_addr_type ← buf_load buf p 2;
    proto_addr_type ← buf_load buf (p + 2) 2;
    mac_addr_size ← buf_load1 buf (p + 4);
    proto_addr_size ← buf_load1 buf (p + 5);
    if (be_value mac_addr_type =? 0x0001) && (be_value proto_addr_type =? 0x0800) &&
       (mac_addr_size =? 0x06) && (proto_addr_size =? 0x04)
    then
      ip_src ← buf_load buf (p + 14) 4;
      ip_dest ← buf_load buf (p + 24) 4;
      let src := mroute_get_in_addr_t src ip_src MR_ARP in
      let dest := mroute_get_in_addr_t dest ip_dest MR_ARP in
      let ret := if mroute_is_mcast ip_dest then MROUTE_EXTRACT_MCAST else 0 in
      Ret (Z.lor ret MROUTE_EXTRACT_SUCCEEDED, src, dest)
    else Ret (0, src, dest)
  else Ret (0, src, dest).

Definition mroute_extract_addr_ip (src dest : option mroute_addr) (buf : buffer) : outcome extraction :=
  if 1 <=? buf_len buf
  then
    let p := offset buf in
    v ← buf_load1 buf p;
    let ver := OPENVPN_IPH_GET_VER v in
    if ver =? 4
    then
      if iphdr_size <=? buf_len buf
      then
        saddr ← buf_load buf (p + 12) 4;
        daddr ← buf_load buf (p + 16) 4;
        protocol ← buf_load1 buf (p + 9);
        let src := mroute_get_in_addr_t src saddr 0 in
        let dest := mroute_get_in_addr_t dest daddr 0 in
        let ret := if mroute_is_mcast daddr then MROUTE_EXTRACT_MCAST else 0 in
        let ret := if protocol =? OPENVPN_IPPROTO_IGMP then Z.lor ret MROUTE_EXTRACT_IGMP else ret in
        Ret (Z.lor ret MROUTE_EXTRACT_SUCCEEDED, src, dest)
      else Ret (0, src, dest)
    else if ver =? 6
    then
      if ipv6hdr_size <=? buf_len buf
      then
        saddr ← buf_load buf (p + 8) 16;
        daddr ← buf_load buf (p + 24) 16;
        let src := mroute_get_in6_addr src saddr 0 in
        let dest := mroute_get_in6_addr dest daddr 0 in
        let ret := if mroute_is_mcast_ipv6 daddr then MROUTE_EXTRACT_MCAST else 0 in
        Ret (Z.lor ret MROUTE_EXTRACT_SUCCEEDED, src, dest)
      else Ret (0, src, dest)
    else Ret (0, src, dest)
  else Ret (0, src, dest).

(** [src->type = MR_ADDR_ETHER; ...] *)
Definition set_ether (ma : option mroute_addr) (mac : list Z) : option mroute_addr :=
  match ma with
  | None => None
  | Some ma => Some (mkma 6 MR_ADDR_ETHER 0 (put_raw (raw_addr ma) 0 mac))
  end.

(** With packet filtering (ENABLE_PF); [esrc] and [edest] get the addresses inside
    the frame. *)
Definition mroute_extract_addr_ether (src dest esrc edest : option mroute_addr) (buf : buffer)
  : outcome (extraction * (option mroute_addr * option mroute_addr)) :=
  if ethhdr_size <=? buf_len buf
  then
    let p := offset buf in
    eth_dest ← buf_load buf p 6;
    eth_source ← buf_load buf (p + 6) 6;
    eth_proto ← buf_load buf (p + 12) 2;
    let src := set_ether src eth_source in
    let ret := match dest, eth_dest with
               | Some _, b :: _ => if is_mac_mcast_addr b then MROUTE_EXTRACT_BCAST else 0
               | _, _ => 0
               end in
    let dest := set_ether dest eth_dest in
    let ret := Z.lor ret MROUTE_EXTRACT_SUCCEEDED in
    match esrc, edest with
    | None, None => Ret ((ret, src, dest), (esrc, edest))
    | _, _ =>
        let '(b, ok) := buf_advance buf ethhdr_size in
        if ok : bool
        then
          if be_value eth_proto =? OPENVPN_ETH_P_IPV4
          then
            '(r, esrc, edest) ← mroute_extract_addr_ip esrc edest b;
            Ret ((Z.lor ret (Z.shiftl r MROUTE_SEC_SHIFT), src, dest), (esrc, edest))
          else if be_value eth_proto =? OPENVPN_ETH_P_ARP
          then
            '(r, esrc, edest) ← mroute_extract_addr_arp esrc edest b;
            Ret ((Z.lor ret (Z.shiftl r MROUTE_SEC_SHIFT), src, dest), (esrc, edest))
          else Ret ((ret, src, dest), (esrc, edest))
        else Ret ((ret, src, dest), (esrc, edest))
    end
  else Ret ((0, src, dest), (esrc, edest)).

(** [struct openvpn_sockaddr], by [sa_family]; addresses and ports in network order. *)
Inductive openvpn_sockaddr : Type :=
| SA_INET (addr port : list Z)
| SA_INET6 (addr port : list Z)
| SA_OTHER.

Definition mroute_extract_openvpn_sockaddr (addr : mroute_addr) (osaddr : openvpn_sockaddr) (use_port : bool)
  : mroute_addr * bool :=
  match osaddr with
  | SA_INET a port =>
      if use_port
      then (mkma 6 (Z.lor MR_ADDR_IPV4 MR_WITH_PORT) 0 (put_raw (put_raw (raw_addr addr) 0 a) 4 port), true)
      else (mkma 4 MR_ADDR_IPV4 0 (put_raw (raw_addr addr) 0 a), true)
  | SA_INET6 a port =>
      if use_port
      then (mkma 18 (Z.lor MR_ADDR_IPV6 MR_WITH_PORT) 0 (put_raw (put_raw (raw_addr addr) 0 a) 16 port), true)
      else (mkma 16 MR_ADDR_IPV6 0 (put_raw (raw_addr addr) 0 a), true)
  | SA_OTHER => (addr, false)
  end.

(** ** Prefix lengths *)

Definition IPV4_NETMASK_HOST : Z := 0xffffffff.

Definition netbits_to_netmask (netbits : Z) : Z :=
  if (0 <? netbits) && (netbits <=? 32) then u32 (Z.shiftl IPV4_NETMASK_HOST (32 - netbits)) else 0.

Fixpoint netmask_to_netbits_loop (fuel : nat) (i netmask : Z) : option Z :=
  match fuel with
  | O => None
  | S fuel =>
      if i <=? 32
      then if netbits_to_netmask i =? netmask then Some (if i =? 32 then -1 else i)
           else netmask_to_netbits_loop fuel (i + 1) netmask
      else None
  end.

(** [Some] of the value stored through [netbits] when it returns true; the loop runs at
    most 33 rounds. *)
Definition netmask_to_netbits (network netmask : Z) : option Z :=
  if Z.land network netmask =? network then netmask_to_netbits_loop 34 0 netmask else None.

(** The loop over the bytes of an IPv6 address, from [byte] down. *)
Fixpoint mask_ipv6_loop (fuel : nat) (a : list Z) (byte bits_to_clear : Z) : outcome (list Z * Z) :=
  match fuel with
  | O => Oob
  | S fuel =>
      if (0 <=? byte) && (0 <? bits_to_clear)
      then
        if 8 <=? bits_to_clear
        then a ← store a byte [0]; mask_ipv6_loop fuel a (byte - 1) (bits_to_clear - 8)
        else
          b ← load1 a byte;
          a ← store a byte [u8 (Z.land b (u32 (Z.shiftl IPV4_NETMASK_HOST bits_to_clear)))];
          mask_ipv6_loop fuel a (byte - 1) 0
      else Ret (a, bits_to_clear)
  end.

Definition mroute_addr_mask_host_bits (ma : mroute_addr) : outcome mroute_addr :=
  if Z.land (ma_type ma) MR_ADDR_MASK =? MR_ADDR_IPV4
  then
    a ← load (raw_addr ma) 0 4;
    let addr := Z.land (be_value a) (netbits_to_netmask (ma_netbits ma)) in
    Ret (mkma (ma_len ma) (ma_type ma) (ma_netbits ma) (put_raw (raw_addr ma) 0 (be_bytes 4 addr)))
  else if Z.land (ma_type ma) MR_ADDR_MASK =? MR_ADDR_IPV6
  then
    a ← load (raw_addr ma) 0 16;
    '(a, bits_to_clear) ← mask_ipv6_loop 17 a 15 (128 - ma_netbits ma);
    _ ← c_assert (bits_to_clear =? 0);
    Ret (mkma (ma_len ma) (ma_type ma) (ma_netbits ma) (put_raw (raw_addr ma) 0 a))
  else Fatal.

(** ** Equality and hashing *)

(** [memcmp] over [len] bytes; [len] is at most 20 in every address the code builds. *)
Definition mroute_addr_equal (a1 a2 : mroute_addr) : bool :=
  if negb (ma_type a1 =? ma_type a2) then false
  else if negb (ma_netbits a1 =? ma_netbits a2) then false
  else if negb (ma_len a1 =? ma_len a2) then false
  else bool_decide (ztake (ma_len a1) (raw_addr a1) = ztake (ma_len a1) (raw_addr a2)).

(** The bytes from [&a->type] on: the type, the prefix length and the raw address. *)
Definition mroute_addr_hash_ptr (a : mroute_addr) : list Z := ma_type a :: ma_netbits a :: raw_addr a.

Definition mroute_addr_hash_len (a : mroute_addr) : Z := ma_len a + 2.

Definition mroute_addr_hash_function (key : mroute_addr) (iv : Z) : outcome Z :=
  hash_func (mroute_addr_hash_ptr key) (mroute_addr_hash_len key) iv.

Definition mroute_addr_compare_function (key1 key2 : mroute_addr) : bool := mroute_addr_equal key1 key2.

(** The keys of the tables; the hash of an address with [len > 20] would read past the
    struct, see [hash_func_in_range]. *)
#[global] Instance mroute_ops : HashOps mroute_addr := {|
  hash_function := fun key iv => match mroute_addr_hash_function key iv with Ret hv => hv | _ => 0 end;
  compare_function := mroute_addr_compare_function
|}.

Definition mroute_extract_in_addr_t (dest : mroute_addr) (src : Z) : mroute_addr :=
  mkma 4 MR_ADDR_IPV4 0 (put_raw (raw_addr dest) 0 (be_bytes 4 src)).

Definition in_addr_t_from_mroute_addr (addr : mroute_addr) : outcome Z :=
  if (Z.land (ma_type addr) MR_ADDR_MASK =? MR_ADDR_IPV4) && (ma_netbits addr =? 0) && (ma_len addr =? 4)
  then a ← load (raw_addr addr) 0 4; Ret (be_value a)
  else Ret 0.

Definition mroute_addr_reset (ma : mroute_addr) : mroute_addr := mkma 0 MR_ADDR_NONE (ma_netbits ma) (raw_addr ma).

(** ** The prefix lengths in use *)

Definition MR_HELPER_NET_LEN : Z := 129.

(** [struct mroute_helper] *)
Record mroute_helper : Type := mkmh {
  cache_generation : Z;
  ageable_ttl_secs : Z;
  n_net_len : Z;
  net_len : list Z;
  net_len_refcount : list Z
}.

Definition mroute_helper_init (ttl : Z) : mroute_helper := mkmh 0 ttl 0 (replicate 129 0) (replicate 129 0).

(** The loop from [i = n - 1] down to 0. *)
Fixpoint regenerate_loop (n : nat) (refcount nl : list Z) (j : Z) : outcome (list Z * Z) :=
  match n with
  | O => Ret (nl, j)
  | S i =>
      c ← array_get refcount (Z.of_nat i);
      if 0 <? c
      then nl ← array_set nl j (u8 (Z.of_nat i)); regenerate_loop i refcount nl (j + 1)
      else regenerate_loop i refcount nl j
  end.

Definition mroute_helper_regenerate (mh : mroute_helper) : outcome mroute_helper :=
  '(nl, j) ← regenerate_loop (Z.to_nat MR_HELPER_NET_LEN) (net_len_refcount mh) (net_len mh) 0;
  Ret (mkmh (cache_generation mh) (ageable_ttl_secs mh) j nl (net_len_refcount mh)).

Definition mroute_helper_add_iroute46 (mh : mroute_helper) (netbits : Z) : outcome mroute_helper :=
  if 0 <=? netbits
  then
    _ ← c_assert (netbits <? MR_HELPER_NET_LEN);
    c ← array_get (net_len_refcount mh) netbits;
    rc ← array_set (net_len_refcount mh) netbits (c + 1);
    let mh := mkmh (cache_generation mh +u 1) (ageable_ttl_secs mh) (n_net_len mh) (net_len mh) rc in
    if c + 1 =? 1 then mroute_helper_regenerate mh else Ret mh
  else Ret mh.

Definition mroute_helper_del_iroute46 (mh : mroute_helper) (netbits : Z) : outcome mroute_helper :=
  if 0 <=? netbits
  then
    _ ← c_assert (netbits <? MR_HELPER_NET_LEN);
    c ← array_get (net_len_refcount mh) netbits;
    rc ← array_set (net_len_refcount mh) netbits (c - 1);
    _ ← c_assert (0 <=? c - 1);
    let mh := mkmh (cache_generation mh +u 1) (ageable_ttl_secs mh) (n_net_len mh) (net_len mh) rc in
    if c - 1 =? 0 then mroute_helper_regenerate mh else Ret mh
  else Ret mh.
