(* ===== verification/MrouteSpec.v ===== *)
(** * Properties of the routing addresses

    The functions on addresses meet the interface of the hash tables; masking and
    prefix lengths; the extraction of addresses from packets; and the array of the
    prefix lengths in use. *)
From S2P Require Import Prelude Integer Buffer Hash Mroute.
From stdpp Require Import sorting.
#[local] Open Scope Z_scope.

(** ** Addresses as keys of hash tables *)

Lemma load1_ztake k n i : i < n -> load1 (ztake n k) i = load1 k i.
Proof.
  intros Hi. unfold load1. destruct (decide (0 <= i)) as [Hp|]; [|by bdecide].
  destruct (decide (i < zlen k)) as [Hk|].
  - assert (i < zlen (ztake n k)) by zlia. bdecide. unfold ztake. rewrite lookup_take_lt by lia. done.
  - assert (~ i < zlen (ztake n k)) by zlia. by bdecide.
Qed.

Lemma ztake_zdrop_comm {A} m n (l : list A) : 0 <= m -> ztake n (zdrop m l) = zdrop m (ztake (m + n) l).
Proof.
  intros. unfold ztake, zdrop. destruct (decide (0 <= n)).
  - rewrite Z2Nat.inj_add by lia. apply take_drop_commute.
  - replace (Z.to_nat n) with 0%nat by lia. rewrite take_0. symmetry. apply drop_ge. rewrite length_take. lia.
Qed.

Lemma word_le_ztake k n i : i + 3 < n -> word_le (ztake n k) i = word_le k i.
Proof. intros. unfold word_le. rewrite !load1_ztake by lia. done. Qed.

(** The result depends on the first [length] bytes only. *)
Lemma hash_func_loop_ztake fuel : forall k len abc,
  match hash_func_loop fuel k len abc, hash_func_loop fuel (ztake len k) len abc with
  | Ret (k1, l1, x1), Ret (k2, l2, x2) => l2 = l1 /\ x2 = x1 /\ k2 = ztake l1 k1
  | Oob, Oob => True
  | Fatal, Fatal => True
  | _, _ => False
  end.
Proof.
  induction fuel as [|fuel IH]; intros k len [[a b] c]; cbn [hash_func_loop]; [done|].
  destruct (12 <=? len) eqn:E; breflect; [|done].
  rewrite !word_le_ztake by lia.
  destruct (word_le k 0); cbn [mbind outcome_mbind]; [|done..]. destruct (word_le k 4); cbn [mbind outcome_mbind]; [|done..].
  destruct (word_le k 8); cbn [mbind outcome_mbind]; [|done..].
  replace (zdrop 12 (ztake len k)) with (ztake (len - 12) (zdrop 12 k)).
  - apply IH.
  - rewrite ztake_zdrop_comm by lia. do 2 f_equal. lia.
Qed.

Lemma hash_func_case_ztake k len i n x : hash_func_case (ztake len k) len i n x = hash_func_case k len i n x.
Proof. unfold hash_func_case. destruct (i <? len) eqn:E; breflect; [|done]. by rewrite load1_ztake. Qed.

Lemma hash_func_ztake k length iv : hash_func (ztake length k) length iv = hash_func k length iv.
Proof.
  unfold hash_func. pose proof (hash_func_loop_ztake (S (Z.to_nat length)) k length (0x9e3779b9, 0x9e3779b9, iv)) as H.
  destruct (hash_func_loop _ k _ _) as [[[k1 l1] [[a b] c]]| |], (hash_func_loop _ (ztake _ k) _ _) as [[[k2 l2] [[a2 b2] c2]]| |];
    cbn [mbind outcome_mbind]; try done.
  destruct H as (-> & E & ->). injection E as -> -> ->.
  repeat (refine (bind_ext _ _ _ _ (hash_func_case_ztake _ _ _ _ _) _); intros ?). done.
Qed.

Lemma lxor_u32 x y : is_u32 x -> is_u32 y -> is_u32 (Z.lxor x y).
Proof.
  unfold is_u32. intros Hx Hy. split; [apply Z.lxor_nonneg; lia|].
  destruct (decide (Z.lxor x y = 0)) as [->|]; [lia|]. assert (0 <= Z.lxor x y) by (apply Z.lxor_nonneg; lia).
  apply Z.log2_lt_pow2; [lia|]. eapply Z.le_lt_trans; [apply Z.log2_lxor; lia|].
  assert (Hl : forall z, 0 <= z < 2 ^ 32 -> Z.log2 z < 32).
  { intros z Hz. destruct (decide (z = 0)) as [->|]; [done|]. apply Z.log2_lt_pow2; lia. }
  apply Z.max_lub_lt; by apply Hl.
Qed.

Lemma mix_u32 abc : is_u32 (mix abc).2.
Proof.
  destruct abc as [[a b] c]. unfold mix. cbn [snd]. apply lxor_u32; [apply u32_range|].
  match goal with |- is_u32 (Z.shiftr ?b 15) => assert (Hb : is_u32 b) end.
  { apply lxor_u32; apply u32_range. }
  unfold is_u32 in *. rewrite Z.shiftr_div_pow2 by lia. Z.div_mod_to_equations. lia.
Qed.

Lemma hash_func_u32 k n iv hv : hash_func k n iv = Ret hv -> is_u32 hv.
Proof.
  unfold hash_func. destruct (hash_func_loop _ _ _ _) as [[[k1 l1] [[a b] c]]| |]; cbn [mbind outcome_mbind]; try done.
  do 11 (match goal with |- mbind _ ?m = _ -> _ => destruct m as [?| |] end; cbn [mbind outcome_mbind]; [|done..]).
  match goal with |- Ret (mix ?t).2 = _ -> _ => generalize (mix_u32 t); generalize (mix t).2 end. by intros x Hx [= <-].
Qed.

(** The hash of [n] bytes reads these bytes only. *)
Lemma load1_in k i : 0 <= i < zlen k -> exists b, load1 k i = Ret b.
Proof.
  intros Hi. destruct (lookup_lt_is_Some_2 k (Z.to_nat i) ltac:(unfold zlen in Hi; lia)) as [b Hb]. exists b.
  unfold load1. bdecide. by rewrite Hb.
Qed.

Lemma word_le_in k i : 0 <= i -> i + 4 <= zlen k -> exists w, word_le k i = Ret w.
Proof.
  intros H0 H1. unfold word_le. destruct (load1_in k i) as [? ->]; [lia|]. destruct (load1_in k (i + 1)) as [? ->]; [lia|].
  destruct (load1_in k (i + 2)) as [? ->]; [lia|]. destruct (load1_in k (i + 3)) as [? ->]; [lia|]. by eexists.
Qed.

Lemma hash_func_loop_in fuel : forall k n abc,
  0 <= n <= zlen k -> n < Z.of_nat fuel -> exists k' n' abc', hash_func_loop fuel k n abc = Ret (k', n', abc') /\ 0 <= n' <= zlen k'.
Proof.
  induction fuel as [|fuel IH]; intros k n [[a b] c] Hn Hf; [lia|]. cbn [hash_func_loop]. destruct (12 <=? n) eqn:E; breflect.
  - destruct (word_le_in k 0) as [? ->]; [lia..|]. destruct (word_le_in k 4) as [? ->]; [lia..|].
    destruct (word_le_in k 8) as [? ->]; [lia..|]. cbn [mbind outcome_mbind]. apply IH; [zlia|lia].
  - by eexists _, _, _.
Qed.

Lemma hash_func_case_in k n i s x : 0 <= i -> n <= zlen k -> exists y, hash_func_case k n i s x = Ret y.
Proof.
  intros Hi Hn. unfold hash_func_case. destruct (i <? n) eqn:E; breflect; [|by eexists].
  destruct (load1_in k i) as [? ->]; [lia|]. by eexists.
Qed.

Lemma hash_func_in_range k n iv : 0 <= n <= zlen k -> exists hv, hash_func k n iv = Ret hv.
Proof.
  intros Hn. unfold hash_func. destruct (hash_func_loop_in (S (Z.to_nat n)) k n (0x9e3779b9, 0x9e3779b9, iv) Hn) as (k' & n' & [[a b] c] & -> & Hn'); [lia|].
  cbn [mbind outcome_mbind].
  do 11 (match goal with |- context [hash_func_case ?k ?n ?i ?s ?x] => destruct (hash_func_case_in k n i s x) as [? ->]; [lia|lia|] end; cbn [mbind outcome_mbind]).
  by eexists.
Qed.

#[global] Instance mroute_laws : HashLaws mroute_addr.
Proof.
  assert (Heq : forall a b, mroute_addr_equal a b = true <->
    ma_type a = ma_type b /\ ma_netbits a = ma_netbits b /\ ma_len a = ma_len b /\
    ztake (ma_len a) (raw_addr a) = ztake (ma_len a) (raw_addr b)).
  { intros a b. unfold mroute_addr_equal. split.
    - destruct (ma_type a =? ma_type b) eqn:E1; cbn [negb]; [|done]. destruct (ma_netbits a =? ma_netbits b) eqn:E2; cbn [negb]; [|done].
      destruct (ma_len a =? ma_len b) eqn:E3; cbn [negb]; [|done]. intros E4. by breflect.
    - intros (-> & -> & -> & E). rewrite !Z.eqb_refl. cbn. by apply bool_decide_eq_true. }
  split; unfold compare_function, hash_function, mroute_ops, mroute_addr_compare_function, mroute_addr_hash_function.
  - intros k. by apply Heq.
  - intros a b (E1 & E2 & E3 & E4)%Heq. apply Heq. rewrite <- E3. done.
  - intros a b c (E1 & E2 & E3 & E4)%Heq (F1 & F2 & F3 & F4)%Heq. apply Heq. rewrite <- E3 in F4.
    repeat split; congruence.
  - intros a b iv (E1 & E2 & E3 & E4)%Heq. unfold mroute_addr_hash_len. rewrite <- E3.
    rewrite <- (hash_func_ztake (mroute_addr_hash_ptr a)), <- (hash_func_ztake (mroute_addr_hash_ptr b)).
    unfold mroute_addr_hash_ptr. rewrite <- E1, <- E2.
    assert (Ht : forall (x y : Z) l, 0 <= ma_len a -> ztake (ma_len a + 2) (x :: y :: l) = x :: y :: ztake (ma_len a) l).
    { intros x y l Hl. unfold ztake. replace (Z.to_nat (ma_len a + 2)) with (S (S (Z.to_nat (ma_len a)))) by lia. done. }
    destruct (decide (0 <= ma_len a)); [by rewrite !Ht, E4|].
    replace (ztake (ma_len a + 2) (ma_type a :: ma_netbits a :: raw_addr a))
      with (ztake (ma_len a + 2) (ma_type a :: ma_netbits a :: raw_addr b)); [done|].
    unfold ztake. destruct (Z.to_nat (ma_len a + 2)) as [|[|m]] eqn:En; [done|done|lia].
  - intros k iv. destruct (hash_func _ _ _) as [hv| |] eqn:E; [|unfold is_u32; lia..]. by eapply hash_func_u32.
Qed.

(** ** Prefixes *)

(** The well-formed addresses: the raw bytes fill the union. *)
Definition mroute_wf (a : mroute_addr) : Prop := zlen (raw_addr a) = 20 /\ Forall is_u8 (raw_addr a).

Definition ip_kind (a : mroute_addr) : Z := Z.land (ma_type a) MR_ADDR_MASK.

(** The number of bits of an IP address, and the address as a number. *)
Definition addr_width (a : mroute_addr) : Z := if ip_kind a =? MR_ADDR_IPV4 then 32 else 128.
Definition addr_value (a : mroute_addr) : Z := be_value (ztake (addr_width a / 8) (raw_addr a)).

(** The first [n] bits of an address of [w] bits, the others 0. *)
Definition prefix_of (w n v : Z) : Z := v - v mod 2 ^ (w - n).

Lemma netmask_value n : 0 <= n <= 32 -> netbits_to_netmask n = 2 ^ 32 - 2 ^ (32 - n).
Proof.
  intros Hn. unfold netbits_to_netmask. destruct (0 <? n) eqn:E; breflect; cbn [andb].
  - bdecide. rewrite Z.shiftl_mul_pow2 by lia. unfold u32, IPV4_NETMASK_HOST.
    assert (Hp : 2 ^ 32 = 2 ^ n * 2 ^ (32 - n)) by (rewrite <- Z.pow_add_r by lia; f_equal; lia).
    assert (0 < 2 ^ n) by (apply Z.pow_pos_nonneg; lia). assert (0 < 2 ^ (32 - n)) by (apply Z.pow_pos_nonneg; lia).
    symmetry. apply (Z.mod_unique _ _ (2 ^ (32 - n) - 1)); [left; nia|]. change 0xffffffff with (2 ^ 32 - 1). lia.
  - assert (n = 0) as -> by lia. done.
Qed.

Lemma land_netmask v n : is_u32 v -> 0 <= n <= 32 -> Z.land v (netbits_to_netmask n) = prefix_of 32 n v.
Proof.
  intros Hv Hn. rewrite netmask_value by done. unfold prefix_of, is_u32 in *.
  replace (2 ^ 32 - 2 ^ (32 - n)) with (Z.land (Z.ones 32) (Z.lnot (2 ^ (32 - n) - 1))).
  - rewrite Z.land_assoc, Z.land_ones, Z.mod_small by lia. apply land_lnot_mask. lia.
  - rewrite land_lnot_mask by lia. rewrite Z.ones_equiv.
    assert (Hp : 2 ^ 32 = 2 ^ n * 2 ^ (32 - n)) by (rewrite <- Z.pow_add_r by lia; f_equal; lia).
    assert (0 < 2 ^ n) by (apply Z.pow_pos_nonneg; lia). assert (0 < 2 ^ (32 - n)) by (apply Z.pow_pos_nonneg; lia).
    pose proof (Z.mod_unique (Z.pred (2 ^ 32)) (2 ^ (32 - n)) (2 ^ n - 1) (2 ^ (32 - n) - 1) ltac:(left; lia) ltac:(nia)). lia.
Qed.

Lemma prefix_idem w n v : 0 <= n <= w -> prefix_of w n (prefix_of w n v) = prefix_of w n v.
Proof.
  intros Hn. unfold prefix_of. assert (0 < 2 ^ (w - n)) by (apply Z.pow_pos_nonneg; lia).
  replace ((v - v mod 2 ^ (w - n)) mod 2 ^ (w - n)) with 0; [lia|].
  symmetry. apply Z.mod_divide; [lia|]. exists (v / 2 ^ (w - n)). pose proof (Z.div_mod v (2 ^ (w - n))). lia.
Qed.

Lemma store_last l b z x : store (l ++ b :: z) (zlen l) [x] = Ret (l ++ x :: z).
Proof. apply (store_eq _ l [b] z); [done|done|reflexivity]. Qed.

Lemma mask_byte b c : is_u8 b -> 0 <= c <= 8 -> u8 (Z.land b (u32 (Z.shiftl IPV4_NETMASK_HOST c))) = b - b mod 2 ^ c.
Proof.
  intros Hb Hc. unfold is_u8 in Hb. assert (H1 : 0 < 2 ^ c <= 2 ^ 8) by (split; [apply Z.pow_pos_nonneg; lia|apply Z.pow_le_mono_r; lia]).
  pose proof (netmask_value (32 - c) ltac:(lia)) as Hm. pose proof (land_netmask b (32 - c) ltac:(unfold is_u32; lia) ltac:(lia)) as Hl.
  unfold netbits_to_netmask in Hm, Hl. replace (32 - (32 - c)) with c in * by lia.
  replace ((0 <? 32 - c) && (32 - c <=? 32)) with true in Hl by (symmetry; apply andb_true_iff; split; [apply Z.ltb_lt|apply Z.leb_le]; lia).
  rewrite Hl. unfold prefix_of. replace (32 - (32 - c)) with c by lia. apply u8_id. unfold is_u8.
  pose proof (Z.mod_pos_bound b (2 ^ c)). pose proof (Z.mod_le b (2 ^ c)). lia.
Qed.

Lemma mask_ipv6_loop_spec l : forall fuel z c,
  Forall is_u8 l -> 0 <= c <= 8 * zlen l -> (length l < fuel)%nat ->
  exists l', mask_ipv6_loop fuel (l ++ z) (zlen l - 1) c = Ret (l' ++ z, 0) /\ zlen l' = zlen l /\ Forall is_u8 l' /\
    be_value l' = be_value l - be_value l mod 2 ^ c.
Proof.
  assert (Hstop : forall l fuel z, (0 < fuel)%nat -> mask_ipv6_loop fuel (l ++ z) (zlen l - 1) 0 = Ret (l ++ z, 0)).
  { intros l0 [|fuel] z Hf; [lia|]. cbn [mask_ipv6_loop]. by rewrite andb_false_r. }
  induction l as [|b l IH] using rev_ind; intros fuel z c Hl Hc Hf.
  { exists []. change (zlen []) with 0 in Hc. assert (c = 0) as -> by lia. rewrite (Hstop [] fuel z) by lia. done. }
  destruct (decide (c = 0)) as [->|Hc0].
  { exists (l ++ [b]). rewrite Hstop by lia. split; [done|]. split; [done|]. split; [done|]. rewrite Z.mod_1_r. lia. }
  apply Forall_app in Hl as [Hl Hb]. apply Forall_cons in Hb as [Hb _]. rewrite length_app in Hf; cbn in Hf.
  destruct fuel as [|fuel]; [lia|]. cbn [mask_ipv6_loop]. replace (zlen (l ++ [b])) with (zlen l + 1) in * by zlia.
  replace (zlen l + 1 - 1) with (zlen l) by lia. rewrite <- app_assoc. cbn [app]. bdecide. rewrite be_value_app.
  destruct (8 <=? c) eqn:E8; breflect.
  - rewrite store_last. cbn [mbind outcome_mbind]. destruct (IH fuel (0 :: z) (c - 8)) as (l' & -> & Hz & Hu & Hv); [done|lia|lia|].
    exists (l' ++ [0]). rewrite <- app_assoc. cbn [app]. split; [done|]. split; [zlia|].
    split; [apply Forall_app; split; [done|]; constructor; [unfold is_u8; lia|constructor]|].
    rewrite be_value_app, Hv. assert (Hp : 2 ^ c = 256 * 2 ^ (c - 8)) by (change 256 with (2 ^ 8); rewrite <- Z.pow_add_r by lia; f_equal; lia).
    assert (0 < 2 ^ (c - 8)) by (apply Z.pow_pos_nonneg; lia). unfold is_u8 in Hb.
    rewrite Hp, Z.rem_mul_r by lia. rewrite Z.div_add_l, (Z.div_small b 256), Z.add_0_r by lia.
    rewrite (Z.add_comm (be_value l * 256) b), Z.mod_add, (Z.mod_small b 256) by lia. rewrite ?Z.add_0_r. lia.
  - rewrite load1_app. cbn [mbind outcome_mbind]. rewrite store_last. cbn [mbind outcome_mbind]. rewrite mask_byte by (done || lia).
    rewrite Hstop by lia. exists (l ++ [b - b mod 2 ^ c]). rewrite <- app_assoc. cbn [app]. split; [done|]. split; [zlia|].
    assert (Hpc : 0 < 2 ^ c) by (apply Z.pow_pos_nonneg; lia). unfold is_u8 in Hb.
    split; [apply Forall_app; split; [done|]; constructor; [|constructor]; unfold is_u8;
      pose proof (Z.mod_pos_bound b (2 ^ c)); pose proof (Z.mod_le b (2 ^ c)); lia|].
    rewrite be_value_app. assert (Hp : 256 = 2 ^ (8 - c) * 2 ^ c) by (rewrite <- Z.pow_add_r by lia; replace (8 - c + c) with 8 by lia; done).
    replace (be_value l * 256 + b) with (b + be_value l * 2 ^ (8 - c) * 2 ^ c) by (rewrite <- Z.mul_assoc, <- Hp; lia). rewrite Z.mod_add by lia. rewrite <- Z.mul_assoc, <- Hp. lia.
Qed.

Lemma put_raw_take raw src : zlen src <= zlen raw -> ztake (zlen src) (put_raw raw 0 src) = src.
Proof. intros. unfold put_raw. rewrite ztake_0. cbn [app]. apply ztake_app_zlen. Qed.

Lemma put_raw_drop raw src : zdrop (zlen src) (put_raw raw 0 src) = zdrop (zlen src) raw.
Proof. unfold put_raw. rewrite ztake_0. cbn [app]. by rewrite zdrop_app_zlen. Qed.

Lemma put_raw_wf raw src :
  zlen raw = 20 -> Forall is_u8 raw -> zlen src <= 20 -> Forall is_u8 src ->
  zlen (put_raw raw 0 src) = 20 /\ Forall is_u8 (put_raw raw 0 src).
Proof.
  intros Hr Hu Hs Hsu. unfold put_raw. rewrite ztake_0. split; [zlia|]. apply Forall_app. split; [constructor|].
  apply Forall_app. split; [done|]. by apply Forall_drop.
Qed.

Lemma load_prefix raw n : 0 <= n <= zlen raw -> load raw 0 n = Ret (ztake n raw).
Proof. intros. unfold load. bdecide. by rewrite zdrop_0. Qed.

(** The outcome of masking, for every prefix length; a length that is too long for IPv4
    clears the whole address. *)
Definition masked_value (a : mroute_addr) : Z :=
  if (ip_kind a =? MR_ADDR_IPV4) && (32 <? ma_netbits a) then 0
  else prefix_of (addr_width a) (ma_netbits a) (addr_value a).

Lemma mask_host_bits_spec ma :
  mroute_wf ma -> 0 <= ma_netbits ma <= 128 -> ip_kind ma = MR_ADDR_IPV4 \/ ip_kind ma = MR_ADDR_IPV6 ->
  exists ma', mroute_addr_mask_host_bits ma = Ret ma' /\ mroute_wf ma' /\
    ma_type ma' = ma_type ma /\ ma_netbits ma' = ma_netbits ma /\ ma_len ma' = ma_len ma /\
    addr_value ma' = masked_value ma /\
    zdrop (addr_width ma / 8) (raw_addr ma') = zdrop (addr_width ma / 8) (raw_addr ma).
Proof.
  intros [Hl Hu] Hn Hk. unfold mroute_addr_mask_host_bits, masked_value, addr_value, addr_width.
  unfold ip_kind in *.
  assert (Ht : forall n, 0 <= n <= 20 -> zlen (ztake n (raw_addr ma)) = n /\ Forall is_u8 (ztake n (raw_addr ma))).
  { intros n Hn'. split; [zlia|by apply Forall_take]. }
  destruct Hk as [Hk|Hk]; rewrite Hk.
  - change (MR_ADDR_IPV4 =? MR_ADDR_IPV4) with true. change (32 / 8) with 4. cbn [andb]. rewrite load_prefix by lia. cbn [mbind outcome_mbind].
    destruct (Ht 4 ltac:(lia)) as [H4 H4u]. set (a := ztake 4 (raw_addr ma)) in *. pose proof (be_value_range a H4u) as Hr.
    rewrite H4 in Hr. change (256 ^ 4) with (2 ^ 32) in Hr. set (v := Z.land (be_value a) (netbits_to_netmask (ma_netbits ma))).
    assert (Hv : v = if 32 <? ma_netbits ma then 0 else prefix_of 32 (ma_netbits ma) (be_value a)).
    { unfold v. destruct (32 <? ma_netbits ma) eqn:E; breflect.
      - unfold netbits_to_netmask. bdecide. apply Z.land_0_r.
      - apply land_netmask; [done|lia]. }
    assert (Hvr : is_u32 v). { unfold is_u32. rewrite Hv. destruct (32 <? _) eqn:E; [lia|]. breflect. unfold prefix_of.
      pose proof (Z.mod_pos_bound (be_value a) (2 ^ (32 - ma_netbits ma)) ltac:(apply Z.pow_pos_nonneg; lia)).
      pose proof (Z.mod_le (be_value a) (2 ^ (32 - ma_netbits ma))). lia. }
    assert (Hz : zlen (be_bytes 4 v) = 4) by apply zlen_be_bytes.
    destruct (put_raw_wf (raw_addr ma) (be_bytes 4 v) Hl Hu ltac:(lia) (be_bytes_u8 4 v)) as [W1 W2].
    eexists. split; [reflexivity|]. cbn [ma_type ma_netbits ma_len raw_addr]. split; [split; [exact W1|exact W2]|]. do 3 (split; [done|]).
    rewrite Hk. change (ztake _ ?l) with (ztake 4 l) at 1. rewrite <- Hz at 1. rewrite put_raw_take by lia. rewrite be_value_bytes4 by done. split; [exact Hv|].
    pose proof (put_raw_drop (raw_addr ma) (be_bytes 4 v)) as Hd. by rewrite Hz in Hd.
  - change (MR_ADDR_IPV6 =? MR_ADDR_IPV4) with false. change (MR_ADDR_IPV6 =? MR_ADDR_IPV6) with true. change (128 / 8) with 16. cbn [andb].
    rewrite load_prefix by lia. cbn [mbind outcome_mbind]. destruct (Ht 16 ltac:(lia)) as [H16 H16u]. set (a := ztake 16 (raw_addr ma)) in *.
    destruct (mask_ipv6_loop_spec a 17 [] (128 - ma_netbits ma)) as (a' & Hm & Hz & Hu' & Hv); [done|lia|unfold zlen in H16; lia|].
    rewrite !app_nil_r in Hm. rewrite H16 in Hm. change (16 - 1) with 15 in Hm. rewrite Hm. cbn [mbind outcome_mbind c_assert].
    destruct (put_raw_wf (raw_addr ma) a' Hl Hu ltac:(lia) Hu') as [W1 W2].
    eexists. split; [reflexivity|]. cbn [ma_type ma_netbits ma_len raw_addr]. split; [split; [exact W1|exact W2]|]. do 3 (split; [done|]).
    rewrite Hk. change (ztake _ ?l) with (ztake 16 l) at 1. rewrite <- H16, <- Hz at 1. rewrite put_raw_take by lia. split; [exact Hv|].
    pose proof (put_raw_drop (raw_addr ma) a') as Hd. by rewrite Hz, H16 in Hd.
Qed.

(** ** Masks and prefix lengths *)

Lemma netmask_inj i j : 0 <= i <= 32 -> 0 <= j <= 32 -> netbits_to_netmask i = netbits_to_netmask j -> i = j.
Proof.
  intros Hi Hj. rewrite !netmask_value by done. intros E.
  assert (E' : 2 ^ (32 - i) = 2 ^ (32 - j)) by lia. apply Z.pow_inj_r in E'; lia.
Qed.

Lemma netmask_loop_spec netmask fuel : forall i,
  0 <= i -> 33 - i < Z.of_nat fuel ->
  match netmask_to_netbits_loop fuel i netmask with
  | Some n => exists k, i <= k <= 32 /\ netbits_to_netmask k = netmask /\ n = (if k =? 32 then -1 else k)
  | None => forall k, i <= k <= 32 -> netbits_to_netmask k <> netmask
  end.
Proof.
  induction fuel as [|fuel IH]; intros i Hi Hf; cbn [netmask_to_netbits_loop].
  { intros k Hk. lia. }
  destruct (i <=? 32) eqn:E; breflect; [|intros k Hk; lia]. destruct (_ =? netmask) eqn:Em; breflect.
  - exists i. split; [lia|done].
  - specialize (IH (i + 1) ltac:(lia) ltac:(lia)). destruct (netmask_to_netbits_loop _ _ _).
    + destruct IH as (k & Hk & ?). exists k. split; [lia|done].
    + intros k Hk. destruct (decide (k = i)) as [->|]; [done|]. apply IH. lia.
Qed.

(** [netmask_to_netbits] accepts exactly the masks that are prefix masks together with
    the networks that have no host bits, and yields the prefix length, with -1 for a
    host route. *)
Theorem netmask_to_netbits_exact (network netmask n : Z) :
  is_u32 network ->
  (netmask_to_netbits network netmask = Some n <->
   exists k, 0 <= k <= 32 /\ netmask = netbits_to_netmask k /\ prefix_of 32 k network = network /\
     n = (if k =? 32 then -1 else k)).
Proof.
  intros Hw. unfold netmask_to_netbits. pose proof (netmask_loop_spec netmask 34 0 ltac:(lia) ltac:(lia)) as Hs. split.
  - destruct (_ =? network) eqn:E; [|done]. breflect. intros Hn. rewrite Hn in Hs. destruct Hs as (k & Hk & <- & ->).
    exists k. split; [done|]. split; [done|]. split; [|done]. by rewrite <- land_netmask.
  - intros (k & Hk & -> & Hp & ->). rewrite land_netmask, Hp, Z.eqb_refl by done.
    destruct (netmask_to_netbits_loop _ _ _) as [m|] eqn:El.
    + destruct Hs as (k' & Hk' & E & ->). by apply netmask_inj in E as ->.
    + exfalso. by apply (Hs k).
Qed.

Lemma netmask_to_netbits_exact_witness :
  netmask_to_netbits 0x0A080000 0xFFFF0000 = Some 16 /\ netmask_to_netbits 0x0A080001 0xFFFFFFFF = Some (-1) /\
  (netmask_to_netbits 0x0A080001 0xFFFF0000 = Some 16 <->
   exists k, 0 <= k <= 32 /\ 0xFFFF0000 = netbits_to_netmask k /\ prefix_of 32 k 0x0A080001 = 0x0A080001 /\
     16 = (if k =? 32 then -1 else k)).
Proof.
  split; [reflexivity|]. split; [reflexivity|]. apply (netmask_to_netbits_exact 0x0A080001 0xFFFF0000 16). unfold is_u32; lia.
Defined.

(** ** The array of prefix lengths *)

(** The lengths below [n] with a positive count, in descending order. *)
Fixpoint used_lens (n : nat) (rc : list Z) : list Z :=
  match n with
  | O => []
  | S i => if 0 <? rc !!! i then Z.of_nat i :: used_lens i rc else used_lens i rc
  end.

Definition helper_wf (mh : mroute_helper) : Prop :=
  zlen (net_len mh) = 129 /\ zlen (net_len_refcount mh) = 129 /\ Forall (fun c => 0 <= c) (net_len_refcount mh) /\
  n_net_len mh = zlen (used_lens 129 (net_len_refcount mh)) /\
  ztake (n_net_len mh) (net_len mh) = used_lens 129 (net_len_refcount mh).

Lemma used_lens_length n rc : zlen (used_lens n rc) <= Z.of_nat n.
Proof. induction n as [|n IH]; cbn [used_lens]; [done|]. destruct (0 <? _); zlia. Qed.

Lemma elem_of_used_lens n rc x : x ∈ used_lens n rc <-> 0 <= x < Z.of_nat n /\ 0 < rc !!! Z.to_nat x.
Proof.
  induction n as [|n IH]; cbn [used_lens].
  { split; [by intros ?%elem_of_nil|lia]. }
  destruct (0 <? rc !!! n) eqn:E; breflect; rewrite ?elem_of_cons, IH; split.
  - intros [-> |[? ?]]; [rewrite Nat2Z.id; split; [lia|done]|split; [lia|done]].
  - intros [H1 H2]. destruct (decide (x = Z.of_nat n)); [by left|right; split; [lia|done]].
  - intros [? ?]. split; [lia|done].
  - intros [H1 H2]. destruct (decide (x = Z.of_nat n)) as [->|]; [rewrite Nat2Z.id in H2; lia|split; [lia|done]].
Qed.

Lemma used_lens_sorted n rc : StronglySorted Z.gt (used_lens n rc).
Proof.
  induction n as [|n IH]; cbn [used_lens]; [constructor|]. destruct (0 <? _); [|done]. constructor; [done|].
  apply Forall_forall. intros x [? _]%elem_of_used_lens. lia.
Qed.

Lemma used_lens_ext n rc rc' :
  (forall i, (i < n)%nat -> (0 <? rc !!! i) = (0 <? rc' !!! i)) -> used_lens n rc = used_lens n rc'.
Proof.
  induction n as [|n IH]; intros E; cbn [used_lens]; [done|]. rewrite (E n) by lia. rewrite IH by (intros; apply E; lia). done.
Qed.

Lemma regenerate_loop_spec n rc : forall nl j,
  (n <= length rc)%nat -> Z.of_nat n <= 256 -> 0 <= j -> j + Z.of_nat n <= zlen nl ->
  exists nl', regenerate_loop n rc nl j = Ret (nl', j + zlen (used_lens n rc)) /\ zlen nl' = zlen nl /\
    ztake (j + zlen (used_lens n rc)) nl' = ztake j nl ++ used_lens n rc.
Proof.
  induction n as [|n IH]; intros nl j Hrc Hn Hj Hl; cbn [regenerate_loop used_lens].
  { exists nl. change (zlen []) with 0. by rewrite Z.add_0_r, app_nil_r. }
  destruct (array_get_in rc (Z.of_nat n) ltac:(unfold zlen; lia)) as (c & -> & Hc). rewrite Nat2Z.id in Hc. cbn [mbind outcome_mbind].
  rewrite (list_lookup_total_correct _ _ _ Hc). destruct (0 <? c) eqn:E.
  - rewrite array_set_in by lia. cbn [mbind outcome_mbind]. destruct (IH (<[Z.to_nat j := u8 (Z.of_nat n)]> nl) (j + 1)) as (nl' & -> & Hl' & Ht); [lia|lia|lia|zlia|].
    exists nl'. rewrite zlen_cons, Z.add_assoc. split; [done|]. split; [by rewrite Hl', zlen_insert|]. rewrite Ht.
    replace (ztake (j + 1) (<[Z.to_nat j := u8 (Z.of_nat n)]> nl)) with (ztake j nl ++ [Z.of_nat n]); [by rewrite <- app_assoc|].
    rewrite u8_id by (unfold is_u8; lia). unfold ztake. replace (Z.to_nat (j + 1)) with (S (Z.to_nat j)) by lia.
    rewrite (take_S_r _ _ (Z.of_nat n)) by (apply list_lookup_insert_eq; unfold zlen in Hl; lia). by rewrite take_insert_ge.
  - destruct (IH nl j) as (nl' & -> & Hl' & Ht); [lia|lia|lia|lia|]. by exists nl'.
Qed.

#[local] Opaque used_lens.

Lemma regenerate_spec mh :
  zlen (net_len mh) = 129 -> zlen (net_len_refcount mh) = 129 -> Forall (fun c => 0 <= c) (net_len_refcount mh) ->
  exists mh', mroute_helper_regenerate mh = Ret mh' /\ helper_wf mh' /\ cache_generation mh' = cache_generation mh /\
    ageable_ttl_secs mh' = ageable_ttl_secs mh /\ net_len_refcount mh' = net_len_refcount mh.
Proof.
  intros H1 H2 H3. unfold mroute_helper_regenerate, MR_HELPER_NET_LEN. change (Z.to_nat 129) with 129%nat.
  destruct (regenerate_loop_spec 129 (net_len_refcount mh) (net_len mh) 0) as (nl & -> & Hl & Ht); [unfold zlen in H2; lia|lia|lia|lia|].
  cbn [mbind outcome_mbind]. rewrite Z.add_0_l in *. eexists. split; [reflexivity|]. cbn. split; [|done].
  split; [by rewrite <- H1|]. split; [done|]. split; [done|]. split; [done|exact Ht].
Qed.

Lemma lookup_total_insert (rc : list Z) i x k :
  (i < length rc)%nat -> <[i := x]> rc !!! k = if decide (k = i) then x else rc !!! k.
Proof.
  intros Hi. destruct (decide (k = i)) as [->|]; [by rewrite list_lookup_total_insert_eq|by rewrite list_lookup_total_insert_ne].
Qed.

(** The count of one prefix length changes by [d]. *)
Definition bumped (rc : list Z) (n d : Z) : list Z := <[Z.to_nat n := rc !!! Z.to_nat n + d]> rc.

Lemma helper_add_spec mh n :
  helper_wf mh -> 0 <= n < 129 ->
  exists mh', mroute_helper_add_iroute46 mh n = Ret mh' /\ helper_wf mh' /\
    cache_generation mh' = cache_generation mh +u 1 /\ ageable_ttl_secs mh' = ageable_ttl_secs mh /\
    net_len_refcount mh' = bumped (net_len_refcount mh) n 1.
Proof.
  intros (H1 & H2 & H3 & H4 & H5) Hn. unfold mroute_helper_add_iroute46, MR_HELPER_NET_LEN, bumped. bdecide. cbn [c_assert mbind outcome_mbind].
  destruct (array_get_in (net_len_refcount mh) n ltac:(lia)) as (c & -> & Hc). cbn [mbind outcome_mbind].
  rewrite (list_lookup_total_correct _ _ _ Hc). rewrite array_set_in by lia. cbn [mbind outcome_mbind].
  assert (Hc0 : 0 <= c) by (eapply (Forall_lookup_1 _ _ _ _ H3 Hc)). set (rc := <[Z.to_nat n := c + 1]> (net_len_refcount mh)).
  assert (Hrc : Forall (fun c => 0 <= c) rc) by (apply Forall_insert; [done|lia]).
  assert (Hlrc : zlen rc = 129) by (unfold rc; by rewrite zlen_insert).
  destruct (c + 1 =? 1) eqn:E; breflect.
  - apply (regenerate_spec (mkmh (cache_generation mh +u 1) (ageable_ttl_secs mh) (n_net_len mh) (net_len mh) rc)); done.
  - eexists. split; [reflexivity|]. split; [|done]. unfold helper_wf. cbn [net_len net_len_refcount n_net_len]. do 3 (split; [done|]).
    replace (used_lens 129 rc) with (used_lens 129 (net_len_refcount mh)); [by split|]. apply used_lens_ext. intros i Hi.
    unfold rc. rewrite lookup_total_insert by (unfold zlen in H2; lia). destruct (decide _) as [->|]; [|done].
    rewrite (list_lookup_total_correct _ _ _ Hc). by bdecide.
Qed.

Lemma helper_del_spec mh n :
  helper_wf mh -> 0 <= n < 129 -> 0 < net_len_refcount mh !!! Z.to_nat n ->
  exists mh', mroute_helper_del_iroute46 mh n = Ret mh' /\ helper_wf mh' /\
    cache_generation mh' = cache_generation mh +u 1 /\ ageable_ttl_secs mh' = ageable_ttl_secs mh /\
    net_len_refcount mh' = bumped (net_len_refcount mh) n (-1).
Proof.
  intros (H1 & H2 & H3 & H4 & H5) Hn Hpos. unfold mroute_helper_del_iroute46, MR_HELPER_NET_LEN, bumped. bdecide. cbn [c_assert mbind outcome_mbind].
  destruct (array_get_in (net_len_refcount mh) n ltac:(lia)) as (c & -> & Hc). cbn [mbind outcome_mbind].
  rewrite (list_lookup_total_correct _ _ _ Hc) in Hpos |- *. rewrite array_set_in by lia. cbn [mbind outcome_mbind]. bdecide. cbn [c_assert mbind outcome_mbind].
  set (rc := <[Z.to_nat n := c - 1]> (net_len_refcount mh)).
  assert (Hrc : Forall (fun c => 0 <= c) rc) by (apply Forall_insert; [done|lia]).
  assert (Hlrc : zlen rc = 129) by (unfold rc; by rewrite zlen_insert).
  destruct (c - 1 =? 0) eqn:E; breflect.
  - apply (regenerate_spec (mkmh (cache_generation mh +u 1) (ageable_ttl_secs mh) (n_net_len mh) (net_len mh) rc)); done.
  - eexists. split; [reflexivity|]. split; [|done]. unfold helper_wf. cbn [net_len net_len_refcount n_net_len]. do 3 (split; [done|]).
    replace (used_lens 129 rc) with (used_lens 129 (net_len_refcount mh)); [by split|]. apply used_lens_ext. intros i Hi.
    unfold rc. rewrite lookup_total_insert by (unfold zlen in H2; lia). destruct (decide _) as [->|]; [|done].
    rewrite (list_lookup_total_correct _ _ _ Hc). by bdecide.
Qed.

(** ** Addresses of packets *)

Definition slice (k n : Z) (c : list Z) : list Z := ztake n (zdrop k c).

Lemma buf_load_conc pre c post k n :
  0 <= k -> 0 <= n -> k + n <= zlen c -> buf_load (conc pre c post) (zlen pre + k) n = Ret (slice k n c).
Proof.
  intros Hk Hn Hl. unfold buf_load, conc. cbn [data]. unfold slice.
  destruct (zsplit k c) as (c1 & c2 & -> & H1 & H2); [lia|]. rewrite zlen_app in Hl. destruct (zsplit n c2) as (x & c3 & -> & H3 & H4); [lia|].
  rewrite (zdrop_app_eq k c1) by done. rewrite (ztake_app_eq n x) by done.
  apply (load_eq _ (pre ++ c1) x (c3 ++ post)); [by rewrite <- !app_assoc|zlia|done].
Qed.

Lemma buf_load1_conc pre c post k b :
  0 <= k -> c !! Z.to_nat k = Some b -> buf_load1 (conc pre c post) (zlen pre + k) = Ret b.
Proof.
  intros Hk Hb. unfold buf_load1, conc. cbn [data]. apply list_elem_of_split_length in Hb as (c1 & c2 & -> & Hc).
  apply (load1_eq _ (pre ++ c1) b (c2 ++ post)); [by rewrite <- !app_assoc|]. rewrite zlen_app. unfold zlen. lia.
Qed.

Lemma slice_wf k n c : Forall is_u8 c -> 0 <= k -> 0 <= n -> k + n <= zlen c -> zlen (slice k n c) = n /\ Forall is_u8 (slice k n c).
Proof. intros Hc Hk Hn Hl. unfold slice. split; [zlia|]. apply Forall_take. by apply Forall_drop. Qed.

(** The IP version of a packet with a complete header, its type of address and the
    two addresses of the header. *)
Definition ip_header (c : list Z) : option (Z * Z * list Z * list Z) :=
  match c with
  | [] => None
  | v :: _ =>
      if (v / 16 mod 16 =? 4) && (20 <=? zlen c) then Some (MR_ADDR_IPV4, 4, slice 12 4 c, slice 16 4 c)
      else if (v / 16 mod 16 =? 6) && (40 <=? zlen c) then Some (MR_ADDR_IPV6, 16, slice 8 16 c, slice 24 16 c)
      else None
  end.

(** An address of the given type without a prefix length. *)
Definition is_host_addr (a : mroute_addr) (type len : Z) (bytes : list Z) : Prop :=
  mroute_wf a /\ ma_type a = type /\ ma_netbits a = 0 /\ ma_len a = len /\ ztake len (raw_addr a) = bytes.

Lemma host_addr_put (a : mroute_addr) type n bytes :
  mroute_wf a -> zlen bytes = n -> n <= 20 -> Forall is_u8 bytes -> is_host_addr (mkma n type 0 (put_raw (raw_addr a) 0 bytes)) type n bytes.
Proof.
  intros [H1 H2] Hn Hn' Hu. destruct (put_raw_wf (raw_addr a) bytes H1 H2 ltac:(lia) Hu) as [W1 W2].
  split; [by split|]. do 3 (split; [done|]). cbn [raw_addr]. rewrite <- Hn. apply put_raw_take. lia.
Qed.

(** The flags of an extraction that succeeded: whether the destination is a multicast
    address; broadcasts are not told apart. *)
Definition dest_mcast (type : Z) (d : list Z) : bool :=
  if type =? MR_ADDR_IPV4 then mroute_is_mcast d else mroute_is_mcast_ipv6 d.

Definition ip_flags_ok (r type : Z) (d : list Z) : Prop :=
  Z.testbit r 0 = true /\ Z.testbit r 1 = false /\ Z.testbit r 2 = dest_mcast type d.

Lemma extract_addr_ip_spec (src dest : mroute_addr) (buf : buffer) :
  buf_wf buf -> Forall is_u8 (content buf) -> mroute_wf src -> mroute_wf dest ->
  match ip_header (content buf) with
  | None => mroute_extract_addr_ip (Some src) (Some dest) buf = Ret (0, Some src, Some dest)
  | Some (type, len, s, d) => exists r src' dest',
      mroute_extract_addr_ip (Some src) (Some dest) buf = Ret (r, Some src', Some dest') /\ ip_flags_ok r type d /\
      is_host_addr src' type len s /\ is_host_addr dest' type len d
  end.
Proof.
  intros Hb Hu Hs Hd. destruct (wf_conc buf Hb) as (pre & c & post & -> & _). rewrite content_conc in *.
  unfold mroute_extract_addr_ip, ip_header. rewrite buf_len_conc. destruct c as [|v c].
  { change (zlen []) with 0. by bdecide. }
  set (l := v :: c) in *. assert (Hl : 1 <= zlen l) by (unfold l; zlia). bdecide. change (offset (conc pre l post)) with (zlen pre). cbv zeta.
  replace (buf_load1 (conc pre l post) (zlen pre)) with (buf_load1 (conc pre l post) (zlen pre + 0)) by (by rewrite Z.add_0_r). rewrite (buf_load1_conc pre l post 0 v) by done. cbn [mbind outcome_mbind].
  unfold OPENVPN_IPH_GET_VER. change 0x0F with (2 ^ 4 - 1). rewrite land_mask, Z.shiftr_div_pow2 by lia. change (2 ^ 4) with 16.
  unfold iphdr_size, ipv6hdr_size. destruct (v / 16 mod 16 =? 4) eqn:E4; cbn [andb].
  - breflect. rewrite E4. cbn [Z.eqb Pos.eqb andb]. destruct (20 <=? zlen l) eqn:E; breflect; [|done].
    destruct (slice_wf 12 4 l Hu) as [Z1 U1]; [lia..|]. destruct (slice_wf 16 4 l Hu) as [Z2 U2]; [lia..|].
    destruct (lookup_lt_is_Some_2 l (Z.to_nat 9) ltac:(unfold zlen in E; lia)) as [p Hp].
    rewrite (buf_load_conc pre l post 12 4), (buf_load_conc pre l post 16 4) by lia. cbn [mbind outcome_mbind].
    rewrite (buf_load1_conc pre l post 9 p) by done. cbn [mbind outcome_mbind mroute_get_in_addr_t].
    eexists _, _, _. split; [reflexivity|]. split; [unfold ip_flags_ok, dest_mcast; cbn [Z.eqb Pos.eqb]; by destruct (mroute_is_mcast _), (p =? _)|]. split; by apply host_addr_put.
  - destruct (v / 16 mod 16 =? 6) eqn:E6; cbn [andb]; [|done]. destruct (40 <=? zlen l) eqn:E; breflect; [|done].
    destruct (slice_wf 8 16 l Hu) as [Z1 U1]; [lia..|]. destruct (slice_wf 24 16 l Hu) as [Z2 U2]; [lia..|].
    rewrite (buf_load_conc pre l post 8 16), (buf_load_conc pre l post 24 16) by lia. cbn [mbind outcome_mbind mroute_get_in6_addr].
    eexists _, _, _. split; [reflexivity|]. split; [unfold ip_flags_ok, dest_mcast; cbn [Z.eqb Pos.eqb]; by destruct (mroute_is_mcast_ipv6 _)|]. split; by apply host_addr_put.
Qed.

(** Whatever a packet holds, the extraction reads only inside it; it succeeds exactly
    on packets with a complete IPv4 or IPv6 header, and then the source and
    destination are those of the header, as host addresses. *)
Theorem extract_addr_ip_exact (src dest : mroute_addr) (buf : buffer) :
  buf_wf buf -> Forall is_u8 (content buf) -> mroute_wf src -> mroute_wf dest ->
  match ip_header (content buf) with
  | None => mroute_extract_addr_ip (Some src) (Some dest) buf = Ret (0, Some src, Some dest)
  | Some (type, len, s, d) => exists r src' dest',
      mroute_extract_addr_ip (Some src) (Some dest) buf = Ret (r, Some src', Some dest') /\ Z.testbit r 0 = true /\
      is_host_addr src' type len s /\ is_host_addr dest' type len d
  end.
Proof.
  intros Hb Hu Hs Hd. pose proof (extract_addr_ip_spec src dest buf Hb Hu Hs Hd) as H.
  destruct (ip_header (content buf)) as [[[[type len] s] d]|]; [|done]. destruct H as (r & src' & dest' & H1 & (H2 & _) & H3).
  by exists r, src', dest'.
Qed.

Definition sample_packet : buffer :=
  conc [] ([0x45; 0; 0; 20; 0; 0; 0; 0; 64; 17; 0; 0] ++ [10; 8; 0; 6] ++ [192; 168; 1; 2]) [].

Lemma extract_addr_ip_exact_witness :
  ip_header (content sample_packet) = Some (MR_ADDR_IPV4, 4, [10; 8; 0; 6], [192; 168; 1; 2]) /\
  exists r src' dest',
    mroute_extract_addr_ip (Some mroute_addr_init) (Some mroute_addr_init) sample_packet = Ret (r, Some src', Some dest') /\
    Z.testbit r 0 = true /\
    is_host_addr src' MR_ADDR_IPV4 4 [10; 8; 0; 6] /\ is_host_addr dest' MR_ADDR_IPV4 4 [192; 168; 1; 2].
Proof.
  split; [reflexivity|].
  assert (Hi : mroute_wf mroute_addr_init).
  { split; [reflexivity|]. apply Forall_replicate. unfold is_u8. lia. }
  apply (extract_addr_ip_exact mroute_addr_init mroute_addr_init sample_packet).
  - apply conc_wf. unfold fits, BUF_SIZE_MAX, zlen; cbn. lia.
  - unfold content, sample_packet; cbn. repeat (apply Forall_cons; split; [unfold is_u8; lia|]). apply Forall_nil; exact I.
  - exact Hi.
  - exact Hi.
Defined.
