(* ===== verification/Multi.v ===== *)
(** * The server's table of virtual addresses ([multi.c], [multi.h])

    A server keeps in the hash table [vhash] which client instance owns which virtual
    address or network.  The values of the table are pointers to [struct
    multi_route] objects, which in turn point to [struct multi_instance] objects with
    reference counts: both kinds of objects live in heaps, from which [free] removes
    them, and a pointer to a freed object dereferences to [Oob].  The keys of the table
    point into the route objects; a key stands for the address it points to, which is
    never changed while it is in the table.

    [now] is the current time.  The answer of the [--learn-address] script or plugin is the
    parameter [learn_address_script]. *)
From S2P Require Import Prelude Integer Buffer Hash Mroute.
From stdpp Require Import gmap.
#[local] Open Scope Z_scope.

Definition MULTI_ROUTE_CACHE : Z := 1.
Definition MULTI_ROUTE_AGEABLE : Z := 2.

(** [struct multi_route] *)
Record multi_route : Type := mkroute {
  r_addr : mroute_addr;
  r_instance : Z;
  r_flags : Z;
  r_cache_generation : Z;
  r_last_reference : Z
}.

(** The members of [struct multi_instance] and of its context that the routing uses.  An
    internal route ([struct iroute], [struct iroute_ipv6]) is a network and its prefix length,
    -1 for a host. *)
Record multi_instance : Type := mkinst {
  halt : bool;
  refcount : Z;
  route_count : Z;
  max_routes_per_client : Z;
  dev_type_tun : bool;
  iroutes : list (Z * Z);
  iroutes_ipv6 : list (list Z * Z);
  did_iroutes : bool
}.

(** The members of [struct multi_context] that the routing uses, and the heaps. *)
Record multi_context : Type := mkctx {
  vhash : hash mroute_addr Z;
  route_helper : mroute_helper;
  m_local : mroute_addr;
  route_heap : gmap Z multi_route;
  inst_heap : gmap Z multi_instance;
  next_route : Z
}.

Inductive learn_op : Type := LearnAdd | LearnUpdate | LearnDelete.

Definition set_vhash (m : multi_context) (h : hash mroute_addr Z) : multi_context :=
  mkctx h (route_helper m) (m_local m) (route_heap m) (inst_heap m) (next_route m).
Definition set_routes (m : multi_context) (rs : gmap Z multi_route) : multi_context :=
  mkctx (vhash m) (route_helper m) (m_local m) rs (inst_heap m) (next_route m).
Definition set_insts (m : multi_context) (insts : gmap Z multi_instance) : multi_context :=
  mkctx (vhash m) (route_helper m) (m_local m) (route_heap m) insts (next_route m).
Definition set_helper (m : multi_context) (rh : mroute_helper) : multi_context :=
  mkctx (vhash m) rh (m_local m) (route_heap m) (inst_heap m) (next_route m).

(** Dereferences. *)
Definition get_route (m : multi_context) (p : Z) : outcome multi_route :=
  match route_heap m !! p with Some r => Ret r | None => Oob end.
Definition get_inst (m : multi_context) (p : Z) : outcome multi_instance :=
  match inst_heap m !! p with Some i => Ret i | None => Oob end.

Definition set_refcount (i : multi_instance) (n : Z) : multi_instance :=
  mkinst (halt i) n (route_count i) (max_routes_per_client i) (dev_type_tun i) (iroutes i) (iroutes_ipv6 i) (did_iroutes i).
Definition set_route_count (i : multi_instance) (n : Z) : multi_instance :=
  mkinst (halt i) (refcount i) n (max_routes_per_client i) (dev_type_tun i) (iroutes i) (iroutes_ipv6 i) (did_iroutes i).
Definition set_did_iroutes (i : multi_instance) (b : bool) : multi_instance :=
  mkinst (halt i) (refcount i) (route_count i) (max_routes_per_client i) (dev_type_tun i) (iroutes i) (iroutes_ipv6 i) b.
Definition set_halt (i : multi_instance) : multi_instance :=
  mkinst true (refcount i) (route_count i) (max_routes_per_client i) (dev_type_tun i) (iroutes i) (iroutes_ipv6 i) (did_iroutes i).

(** ** Quotas and reference counts ([multi.h]) *)

Definition route_quota_inc (m : multi_context) (mi : Z) : outcome multi_context :=
  i ← get_inst m mi;
  Ret (set_insts m (<[mi := set_route_count i (route_count i + 1)]> (inst_heap m))).

Definition route_quota_dec (m : multi_context) (mi : Z) : outcome multi_context :=
  i ← get_inst m mi;
  Ret (set_insts m (<[mi := set_route_count i (route_count i - 1)]> (inst_heap m))).

Definition route_quota_test (m : multi_context) (mi : Z) : outcome bool :=
  i ← get_inst m mi;
  Ret (negb (max_routes_per_client i <=? route_count i)).

Definition multi_instance_inc_refcount (m : multi_context) (mi : Z) : outcome multi_context :=
  i ← get_inst m mi;
  Ret (set_insts m (<[mi := set_refcount i (refcount i + 1)]> (inst_heap m))).

Definition multi_instance_dec_refcount (m : multi_context) (mi : Z) : outcome multi_context :=
  i ← get_inst m mi;
  let n := refcount i - 1 in
  Ret (set_insts m (if n <=? 0 then delete mi (inst_heap m) else <[mi := set_refcount i n]> (inst_heap m))).

Definition multi_route_del (m : multi_context) (route : Z) : outcome multi_context :=
  r ← get_route m route;
  m ← route_quota_dec m (r_instance r);
  m ← multi_instance_dec_refcount m (r_instance r);
  Ret (set_routes m (delete route (route_heap m))).

Section Multi.
Variable now : Z.
Variable learn_address_script : option Z -> learn_op -> mroute_addr -> bool.

Definition multi_route_defined (m : multi_context) (r : multi_route) : outcome bool :=
  i ← get_inst m (r_instance r);
  if halt i then Ret false
  else if negb (Z.land (r_flags r) MULTI_ROUTE_CACHE =? 0) &&
          negb (r_cache_generation r =? cache_generation (route_helper m)) then Ret false
  else if negb (Z.land (r_flags r) MULTI_ROUTE_AGEABLE =? 0) &&
          (r_last_reference r + ageable_ttl_secs (route_helper m) <? now) then Ret false
  else Ret true.

(** [he->key = &newroute->addr; he->value = newroute] *)
Definition set_key_value (addr : mroute_addr) (route : Z) (he : hash_element mroute_addr Z) : hash_element mroute_addr Z :=
  mkhe (he_addr he) route (Some addr) (hash_value_ he).

(** The new context and the owner of the address. *)
Definition multi_learn_addr (m : multi_context) (mi : Z) (addr : mroute_addr) (flags : Z)
  : outcome (multi_context * option Z) :=
  let hv := hash_value (vhash m) addr in
  let bucket := hash_bucket (vhash m) hv in
  '(h, he) ← hash_lookup_fast (vhash m) bucket addr hv;
  let m := set_vhash m h in
  owner ← match he with
          | Some he =>
              r ← get_route m (value he);
              d ← multi_route_defined m r;
              Ret (if d : bool then Some (r_instance r) else None)
          | None => Ret None
          end;
  add ← (if match owner with None => true | Some o => negb (o =? mi) end
         then l ← mroute_learnable_address addr; Ret (l && negb (mroute_addr_equal addr (m_local m)))
         else Ret false);
  if add : bool
  then
    let newroute := next_route m in
    let generation := if negb (Z.land flags MULTI_ROUTE_CACHE =? 0) then cache_generation (route_helper m) else 0 in
    let m := mkctx (vhash m) (route_helper m) (m_local m)
               (<[newroute := mkroute addr mi flags generation now]> (route_heap m)) (inst_heap m) (next_route m + 1) in
    quota ← route_quota_test m mi;
    match he with
    | Some he =>
        if quota && learn_address_script (Some mi) LearnUpdate addr
        then
          m ← multi_instance_inc_refcount m mi;
          m ← route_quota_inc m mi;
          m ← multi_route_del m (value he);
          l ← array_get (buckets (vhash m)) bucket;
          l ← write_elem (he_addr he) (set_key_value addr newroute) l;
          h ← set_bucket (vhash m) bucket l (n_elements (vhash m));
          Ret (set_vhash m h, Some mi)
        else Ret (set_routes m (delete newroute (route_heap m)), owner)
    | None =>
        if quota && learn_address_script (Some mi) LearnAdd addr
        then
          m ← multi_instance_inc_refcount m mi;
          m ← route_quota_inc m mi;
          h ← hash_add_fast (vhash m) bucket addr hv newroute;
          Ret (set_vhash m h, Some mi)
        else Ret (set_routes m (delete newroute (route_heap m)), owner)
    end
  else Ret (m, owner).

(** A route of the table that is defined. *)
Definition lookup_defined (m : multi_context) (addr : mroute_addr) : outcome (multi_context * option (Z * multi_route)) :=
  '(h, route) ← hash_lookup (vhash m) addr;
  let m := set_vhash m h in
  match route with
  | Some p =>
      r ← get_route m p;
      d ← multi_route_defined m r;
      Ret (m, if d : bool then Some (p, r) else None)
  | None => Ret (m, None)
  end.

(** The loop over the prefix lengths from index [i], [n] to go. *)
Fixpoint cidr_loop (n : nat) (i : Z) (m : multi_context) (addr : mroute_addr) : outcome (multi_context * option Z) :=
  match n with
  | O => Ret (m, None)
  | S n =>
      nb ← array_get (net_len (route_helper m)) i;
      let tryaddr := mkma (ma_len addr) (Z.lor (ma_type addr) MR_WITH_NETBITS) nb (raw_addr addr) in
      tryaddr ← mroute_addr_mask_host_bits tryaddr;
      '(m, route) ← lookup_defined m tryaddr;
      match route with
      | Some (_, r) =>
          '(m, _) ← multi_learn_addr m (r_instance r) addr (Z.lor MULTI_ROUTE_CACHE MULTI_ROUTE_AGEABLE);
          Ret (m, Some (r_instance r))
      | None => cidr_loop n (i + 1) m addr
      end
  end.

Definition multi_get_instance_by_virtual_addr (m : multi_context) (addr : mroute_addr) (cidr_routing : bool)
  : outcome (multi_context * option Z) :=
  if mroute_addr_equal addr (m_local m) then Ret (m, None)
  else
    '(m, route) ← lookup_defined m addr;
    '(m, ret) ← match route with
                | Some (p, r) =>
                    Ret (set_routes m (<[p := mkroute (r_addr r) (r_instance r) (r_flags r) (r_cache_generation r) now]> (route_heap m)),
                         Some (r_instance r))
                | None =>
                    if cidr_routing then cidr_loop (Z.to_nat (n_net_len (route_helper m))) 0 m addr else Ret (m, None)
                end;
    _ ← match ret with
        | Some mi => i ← get_inst m mi; c_assert (negb (halt i))
        | None => Ret tt
        end;
    Ret (m, ret).

(** The bytes of the local [addr] behind the IPv4 address are not initialised in C; they are
    neither compared nor hashed, and are 0 here. *)
Definition multi_learn_in_addr_t (m : multi_context) (mi : Z) (a netbits : Z) : outcome (multi_context * option Z) :=
  let '(addr, ok) := mroute_extract_openvpn_sockaddr mroute_addr_init (SA_INET (be_bytes 4 a) [0; 0]) false in
  _ ← c_assert ok;
  let addr := if 0 <=? netbits then mkma (ma_len addr) (Z.lor (ma_type addr) MR_WITH_NETBITS) (u8 netbits) (raw_addr addr) else addr in
  multi_learn_addr m mi addr 0.

Definition multi_learn_in6_addr (m : multi_context) (mi : Z) (a6 : list Z) (netbits : Z) : outcome (multi_context * option Z) :=
  let addr := mkma 16 MR_ADDR_IPV6 0 (put_raw (raw_addr mroute_addr_init) 0 a6) in
  addr ← (if 0 <=? netbits
          then mroute_addr_mask_host_bits (mkma 16 (Z.lor MR_ADDR_IPV6 MR_WITH_NETBITS) (u8 netbits) (raw_addr addr))
          else Ret addr);
  multi_learn_addr m mi addr 0.

(** The loops of [multi_add_iroutes]. *)
Fixpoint add_iroutes_loop (m : multi_context) (mi : Z) (l : list (Z * Z)) : outcome multi_context :=
  match l with
  | [] => Ret m
  | (network, netbits) :: l =>
      rh ← mroute_helper_add_iroute46 (route_helper m) netbits;
      '(m, _) ← multi_learn_in_addr_t (set_helper m rh) mi network netbits;
      add_iroutes_loop m mi l
  end.

Fixpoint add_iroutes6_loop (m : multi_context) (mi : Z) (l : list (list Z * Z)) : outcome multi_context :=
  match l with
  | [] => Ret m
  | (network, netbits) :: l =>
      rh ← mroute_helper_add_iroute46 (route_helper m) netbits;
      '(m, _) ← multi_learn_in6_addr (set_helper m rh) mi network netbits;
      add_iroutes6_loop m mi l
  end.

Definition multi_add_iroutes (m : multi_context) (mi : Z) : outcome multi_context :=
  i ← get_inst m mi;
  if dev_type_tun i
  then
    let m := set_insts m (<[mi := set_did_iroutes i true]> (inst_heap m)) in
    m ← add_iroutes_loop m mi (iroutes i);
    add_iroutes6_loop m mi (iroutes_ipv6 i)
  else Ret m.

(** ** Expiry *)

(** The body of the loop of [multi_reap_range]: a route that is not defined any more is
    deleted. *)
Definition reap_body (m : multi_context) (he : hash_element mroute_addr Z) : outcome (multi_context * bool) :=
  r ← get_route m (value he);
  d ← multi_route_defined m r;
  if d : bool then Ret (m, false)
  else
    m ← multi_route_del m (value he);
    Ret (m, true).

(** The body of the loop of [check_stale_routes]. *)
Definition stale_body (ageing_time : Z) (m : multi_context) (he : hash_element mroute_addr Z)
  : outcome (multi_context * bool) :=
  r ← get_route m (value he);
  d ← multi_route_defined m r;
  if d && (ageing_time <=? now - r_last_reference r)
  then
    m ← multi_route_del m (value he);
    Ret (m, true)
  else Ret (m, false).

(** A loop over the table; the bodies change the heaps only, and the iterator the table
    only. *)
Definition sweep_vhash (body : multi_context -> hash_element mroute_addr Z -> outcome (multi_context * bool))
    (m : multi_context) (start_bucket end_bucket : Z) : outcome multi_context :=
  hi ← hash_iterator_init_range (vhash m) start_bucket end_bucket;
  '(m, h, hi) ← hash_sweep (S (Z.to_nat (n_elements (vhash m)))) body m (vhash m) hi;
  '(h, _) ← hash_iterator_free h hi;
  Ret (set_vhash m h).

Definition multi_reap_range (m : multi_context) (start_bucket end_bucket : Z) : outcome multi_context :=
  if start_bucket <? 0
  then sweep_vhash reap_body m 0 (n_buckets (vhash m))
  else sweep_vhash reap_body m start_bucket end_bucket.

Definition multi_reap_all (m : multi_context) : outcome multi_context := multi_reap_range m (-1) 0.

Definition check_stale_routes (ageing_time : Z) (m : multi_context) : outcome multi_context :=
  sweep_vhash (stale_body ageing_time) m 0 (n_buckets (vhash m)).

End Multi.

(** The loops of [multi_del_iroutes]. *)
Fixpoint del_iroutes_loop (rh : mroute_helper) (l : list Z) : outcome mroute_helper :=
  match l with
  | [] => Ret rh
  | netbits :: l => rh ← mroute_helper_del_iroute46 rh netbits; del_iroutes_loop rh l
  end.

Definition multi_del_iroutes (m : multi_context) (mi : Z) : outcome multi_context :=
  i ← get_inst m mi;
  if dev_type_tun i
  then
    rh ← del_iroutes_loop (route_helper m) (iroutes i).*2;
    rh ← del_iroutes_loop rh (iroutes_ipv6 i).*2;
    Ret (set_helper m rh)
  else Ret m.
