(* ===== verification/MultiSpec.v ===== *)
(** * The server's routes: no dangling pointers, longest prefix first

    The invariant of the routing state ties the three stores together: the table and
    the heap of routes hold the same routes, and the counts of every client instance
    are those of the routes that point to it.  It is kept by every operation, in
    any order, from which follows that no operation uses a freed object; and the lookup
    of an address finds the longest prefix that is defined. *)
From S2P Require Import Prelude Integer Buffer Hash HashSpec Mroute MrouteSpec Multi.
From stdpp Require Import gmap sorting.
#[local] Open Scope Z_scope.

#[local] Opaque used_lens.

(** ** Reference counts *)

Implicit Types (m : multi_context) (R : gmap Z multi_route) (I : gmap Z multi_instance).

(** The number of routes of an instance. *)
Definition cnt R (x : Z) : Z := Z.of_nat (size (filter (fun pr : Z * multi_route => r_instance pr.2 = x) R)).

Definition live_ref (i : multi_instance) : Z := if halt i then 0 else 1.

Record acct R I : Prop := {
  acct_count : forall x i, I !! x = Some i ->
    route_count i = cnt R x /\ refcount i = live_ref i + cnt R x /\ 0 < refcount i;
  acct_inst : forall p r, R !! p = Some r -> is_Some (I !! r_instance r)
}.

Lemma cnt_nonneg R x : 0 <= cnt R x.
Proof. unfold cnt. lia. Qed.

Lemma cnt_insert R p r x :
  R !! p = None -> cnt (<[p := r]> R) x = cnt R x + (if decide (r_instance r = x) then 1 else 0).
Proof.
  intros Hp. unfold cnt. rewrite map_filter_insert. cbn [snd]. destruct (decide (r_instance r = x)).
  - rewrite map_size_insert_None; [lia|]. apply map_lookup_filter_None_2. by left.
  - rewrite delete_id by done. lia.
Qed.

Lemma cnt_delete R p r x :
  R !! p = Some r -> cnt (delete p R) x = cnt R x - (if decide (r_instance r = x) then 1 else 0).
Proof.
  intros Hp. rewrite <- (insert_delete_id R p r Hp) at 2. rewrite cnt_insert by apply lookup_delete_eq. lia.
Qed.

Lemma cnt_pos R p r : R !! p = Some r -> 0 < cnt R (r_instance r).
Proof. intros Hp. pose proof (cnt_delete R p r (r_instance r) Hp) as E. rewrite decide_True in E by done. pose proof (cnt_nonneg (delete p R) (r_instance r)). lia. Qed.

(** An instance is as before but for its counts. *)
Definition same_but_counts (i j : multi_instance) : Prop :=
  exists n k, i = set_route_count (set_refcount j n) k.

Lemma same_refl i : same_but_counts i i.
Proof. destruct i. by eexists _, _. Qed.

Lemma same_trans i j k : same_but_counts i j -> same_but_counts j k -> same_but_counts i k.
Proof. intros (n1 & k1 & ->) (n2 & k2 & ->). destruct k. by eexists _, _. Qed.

(** Instances only come to change their counts, and those that are not halted stay. *)
Definition insts_kept I I' : Prop :=
  (forall x i', I' !! x = Some i' -> exists i, I !! x = Some i /\ same_but_counts i' i) /\
  (forall x i, I !! x = Some i -> halt i = false -> is_Some (I' !! x)).

Lemma insts_kept_refl I : insts_kept I I.
Proof. split; [|by eauto]. intros x i Hi. exists i. split; [done|apply same_refl]. Qed.

Lemma same_halt i j : same_but_counts i j -> halt i = halt j.
Proof. intros (n & k & ->). by destruct j. Qed.

Lemma insts_kept_trans I1 I2 I3 : insts_kept I1 I2 -> insts_kept I2 I3 -> insts_kept I1 I3.
Proof.
  intros [A1 B1] [A2 B2]. split.
  - intros x i3 H3. destruct (A2 x i3 H3) as (i2 & H2 & S2). destruct (A1 x i2 H2) as (i1 & H1 & S1).
    exists i1. split; [done|]. by eapply same_trans.
  - intros x i H1 Hh. destruct (B1 x i H1 Hh) as [i2 H2]. apply (B2 x i2 H2).
    destruct (A1 x i2 H2) as (i1 & H1' & S1). rewrite (same_halt _ _ S1). congruence.
Qed.

(** [multi_instance_inc_refcount] and [route_quota_inc] for a route that was added. *)
Lemma acct_add m p r i :
  acct (route_heap m) (inst_heap m) -> route_heap m !! p = None -> inst_heap m !! r_instance r = Some i ->
  let I' := <[r_instance r := set_route_count (set_refcount i (refcount i + 1)) (route_count i + 1)]> (inst_heap m) in
  acct (<[p := r]> (route_heap m)) I' /\ insts_kept (inst_heap m) I'.
Proof.
  intros [Hc Hi] Hp Hx I'. split; [split|split].
  - intros x j Hj. rewrite cnt_insert by done. unfold I' in Hj. destruct (decide (r_instance r = x)) as [<-|Hne].
    + rewrite lookup_insert_eq in Hj. injection Hj as <-. destruct (Hc _ _ Hx) as (H1 & H2 & H3). unfold live_ref in *. cbn. lia.
    + rewrite lookup_insert_ne in Hj by done. destruct (Hc _ _ Hj) as (H1 & H2 & H3). lia.
  - intros q r' Hq. unfold I'. rewrite lookup_insert_is_Some'. destruct (decide (q = p)) as [->|Hne].
    + rewrite lookup_insert_eq in Hq. injection Hq as <-. by left.
    + rewrite lookup_insert_ne in Hq by done. right. by apply Hi in Hq.
  - intros x j Hj. unfold I' in Hj. destruct (decide (r_instance r = x)) as [<-|Hne].
    + rewrite lookup_insert_eq in Hj. injection Hj as <-. exists i. split; [done|]. by eexists _, _.
    + rewrite lookup_insert_ne in Hj by done. exists j. split; [done|apply same_refl].
  - intros x j Hj _. unfold I'. rewrite lookup_insert_is_Some'. right. by eauto.
Qed.

(** [multi_route_del]: the object is freed, and the instance with its last reference. *)
Lemma route_del_spec m p r :
  acct (route_heap m) (inst_heap m) -> route_heap m !! p = Some r ->
  exists m', multi_route_del m p = Ret m' /\ acct (route_heap m') (inst_heap m') /\
    route_heap m' = delete p (route_heap m) /\ insts_kept (inst_heap m) (inst_heap m') /\
    vhash m' = vhash m /\ route_helper m' = route_helper m /\ m_local m' = m_local m /\ next_route m' = next_route m.
Proof.
  intros [Hc Hi] Hp. destruct (Hi p r Hp) as [i Hx]. pose proof (cnt_pos _ _ _ Hp) as Hpos.
  unfold multi_route_del, get_route. rewrite Hp. cbn [mbind outcome_mbind]. unfold route_quota_dec, get_inst. rewrite Hx.
  cbn [mbind outcome_mbind]. unfold multi_instance_dec_refcount, get_inst. cbn [inst_heap set_insts]. rewrite lookup_insert_eq.
  cbn [mbind outcome_mbind]. set (i1 := set_route_count i (route_count i - 1)).
  destruct (Hc _ _ Hx) as (H1 & H2 & H3). assert (Hr1 : refcount i1 = refcount i) by done.
  set (I' := if refcount i1 - 1 <=? 0 then _ else _). eexists. split; [reflexivity|]. cbn [route_heap inst_heap set_routes set_insts].
  assert (HI' : forall x, I' !! x = if decide (r_instance r = x)
    then (if refcount i - 1 <=? 0 then None else Some (set_refcount i1 (refcount i - 1))) else inst_heap m !! x).
  { intros x. unfold I'. rewrite Hr1. destruct (refcount i - 1 <=? 0), (decide (r_instance r = x)) as [<-|Hne].
    - apply lookup_delete_eq.
    - by rewrite lookup_delete_ne, lookup_insert_ne.
    - apply lookup_insert_eq.
    - by rewrite !lookup_insert_ne. }
  split; [split|]; [| |split; [done|split; [split|done]]].
  - intros x j Hj. rewrite (cnt_delete _ _ _ _ Hp). rewrite HI' in Hj. destruct (decide (r_instance r = x)) as [<-|Hne].
    + destruct (refcount i - 1 <=? 0) eqn:E; [done|]. breflect. injection Hj as <-. unfold live_ref in *. cbn. lia.
    + destruct (Hc _ _ Hj) as (? & ? & ?). lia.
  - intros q r' Hq. apply lookup_delete_Some in Hq as [Hne Hq]. rewrite HI'. destruct (decide (r_instance r = r_instance r')) as [E|]; [|by eapply Hi].
    destruct (refcount i - 1 <=? 0) eqn:Er; [|done]. breflect.
    assert (Hq' : delete p (route_heap m) !! q = Some r') by (by rewrite lookup_delete_ne).
    pose proof (cnt_pos _ _ _ Hq') as Hq2. rewrite (cnt_delete _ _ _ _ Hp), <- E in Hq2. rewrite decide_True in Hq2 by done.
    unfold live_ref in H2. destruct (halt i); lia.
  - intros x j Hj. rewrite HI' in Hj. destruct (decide (r_instance r = x)) as [<-|Hne].
    + destruct (refcount i - 1 <=? 0); [done|]. injection Hj as <-. exists i. split; [done|].
      exists (refcount i - 1), (route_count i - 1). by destruct i.
    + exists j. split; [done|apply same_refl].
  - intros x j Hj Hh. rewrite HI'. destruct (decide (r_instance r = x)) as [<-|Hne]; [|by eauto].
    assert (j = i) as -> by congruence. unfold live_ref in H2. rewrite Hh in H2. bdecide. by eauto.
Qed.

(** ** The table and the heap of routes *)

(** What the table holds: the address of each route with the pointer to it. *)
Definition entries R : list (mroute_addr * Z) := (fun pr : Z * multi_route => (r_addr pr.2, pr.1)) <$> map_to_list R.

Lemma entries_insert R p r : R !! p = None -> entries (<[p := r]> R) ≡ₚ (r_addr r, p) :: entries R.
Proof. intros Hp. unfold entries. by rewrite map_to_list_insert. Qed.

Lemma entries_delete R p r : R !! p = Some r -> entries R ≡ₚ (r_addr r, p) :: entries (delete p R).
Proof.
  intros Hp. rewrite <- (insert_delete_id R p r Hp) at 1. apply entries_insert. apply lookup_delete_eq.
Qed.

Lemma elem_of_entries R k p : (k, p) ∈ entries R <-> exists r, R !! p = Some r /\ r_addr r = k.
Proof.
  unfold entries. rewrite list_elem_of_fmap. split.
  - intros ([q r] & E & Hq%elem_of_map_to_list). injection E as -> ->. by exists r.
  - intros (r & Hp & <-). exists (p, r). split; [done|]. by apply elem_of_map_to_list.
Qed.

Lemma map_lookup_elem {K V} `{HashLaws K} (k : K) (v : V) l :
  map_lookup k l = Some v -> exists k', (k', v) ∈ l /\ compare_function k k' = true.
Proof.
  induction l as [|[k' v'] l IH]; cbn [map_lookup]; [done|]. unfold same at 1; cbn [fst snd]. destruct (compare_function k k') eqn:E.
  - intros [= ->]. exists k'. split; [left|done].
  - intros Hl. destruct (IH Hl) as (k2 & Hin & Hc). exists k2. split; [by right|done].
Qed.

Lemma map_lookup_entries R k p r :
  apart (entries R) -> R !! p = Some r -> compare_function k (r_addr r) = true -> map_lookup k (entries R) = Some p.
Proof.
  intros Ha Hp Hc. pose proof (entries_delete R p r Hp) as He. rewrite (map_lookup_perm k _ _ Ha He). cbn [map_lookup].
  unfold same; cbn [fst snd]. by rewrite Hc.
Qed.

Lemma map_lookup_entries_inv R k p :
  map_lookup k (entries R) = Some p -> exists r, R !! p = Some r /\ compare_function k (r_addr r) = true.
Proof. intros (k' & (r & Hr & <-)%elem_of_entries & Hc)%map_lookup_elem. by exists r. Qed.

Lemma rel_perm {K V} `{HashLaws K} `{EqDecision V} (h : hash K V) l l' : rel h l -> l ≡ₚ l' -> rel h l'.
Proof. intros [Hw Hp] E. split; [done|]. by rewrite Hp. Qed.

(** Overwriting key and value of the element a lookup has moved to the front. *)
Lemma rekey_spec (h : hash mroute_addr Z) l0 k p b he l k' :
  rel h l0 -> hash_bucket h (hash_value h k) = Z.of_nat b -> buckets h !! b = Some (he :: l) ->
  key he = Some k' -> compare_function k k' = true ->
  exists h' l1, l0 ≡ₚ (k', value he) :: l1 /\
    (l ← array_get (buckets h) (Z.of_nat b); l ← write_elem (he_addr he) (set_key_value k p) l; set_bucket h (Z.of_nat b) l (n_elements h))
      = Ret h' /\ rel h' ((k, p) :: l1).
Proof.
  intros Hr Eb Hl Ek Ec. pose proof (rel_apart h l0 Hr) as Ha. destruct Hr as [Hw Hp]. pose proof (concat_delete _ _ _ Hl) as Hc.
  set (rest := concat (delete b (buckets h))) in *. set (he' := set_key_value k p he).
  rewrite (array_get_Some (buckets h) (Z.of_nat b) (he :: l)) by (first [lia|by rewrite Nat2Z.id]). cbn [mbind outcome_mbind write_elem].
  rewrite Z.eqb_refl. cbn [mbind outcome_mbind]. rewrite set_bucket_eq by (by eapply lookup_lt_Some).
  assert (Hpm : l0 ≡ₚ (k', value he) :: pairs (l ++ rest)) by (by rewrite <- Hp, Hc, <- (pairs_cons he _ k' Ek)).
  eexists _, (pairs (l ++ rest)). split; [done|]. split; [reflexivity|].
  assert (Hpm' : pairs ((he' :: l) ++ rest) = (k, p) :: pairs (l ++ rest)) by (apply (pairs_cons he' (l ++ rest) k); done).
  split; [|cbn; rewrite (concat_insert _ _ _ _ Hl); apply reflexive_eq, Hpm'].
  pose proof (wf_good h Hw b _ Hl) as Hgood. apply Forall_cons in Hgood as [(k2 & Ek2 & Ehv & Ebk) Hgl].
  assert (k2 = k') as -> by congruence.
  pose proof (wf_addr h Hw) as Hd. pose proof (wf_fresh h Hw) as Hfr. rewrite Hc in Hd, Hfr. cbn [app] in Hfr. apply Forall_cons in Hfr as [Hf1 Hf2].
  apply (wf_update h b (he :: l)); try done.
  - constructor; [|exact Hgl]. exists k. split; [reflexivity|]. change (hash_value_ (set_key_value k p he)) with (hash_value_ he).
    split; [|exact Ebk]. rewrite Ehv. symmetry. by apply compare_hash.
  - change (apart (pairs ((he' :: l) ++ rest))). rewrite Hpm'. rewrite Hpm in Ha. destruct Ha as [Hfa Ha]. split; [|done]. cbn [fst] in *.
    eapply Forall_impl; [exact Hfa|]. intros y Hy. apply (same_subst k (k', value he)); [exact Ec|exact Hy].
  - rewrite (wf_count h Hw). unfold zlen. by rewrite Hc.
  - by constructor.
Qed.

(** ** The invariant that keeps the operations safe *)

Definition addr_ok (a : mroute_addr) : Prop := mroute_wf a /\ 0 <= ma_len a <= 20.

Record safe m : Prop := {
  safe_table : rel (vhash m) (entries (route_heap m));
  safe_acct : acct (route_heap m) (inst_heap m);
  safe_fresh : forall p, is_Some (route_heap m !! p) -> p < next_route m;
  safe_helper : helper_wf (route_helper m)
}.

(** What [multi_route_defined] computes, for the instance of the route. *)
Definition route_live (now : Z) (rh : mroute_helper) (i : multi_instance) (r : multi_route) : bool :=
  negb (halt i) &&
  negb (negb (Z.land (r_flags r) MULTI_ROUTE_CACHE =? 0) && negb (r_cache_generation r =? cache_generation rh)) &&
  negb (negb (Z.land (r_flags r) MULTI_ROUTE_AGEABLE =? 0) && (r_last_reference r + ageable_ttl_secs rh <? now)).

Lemma route_defined_spec now m r i :
  inst_heap m !! r_instance r = Some i -> multi_route_defined now m r = Ret (route_live now (route_helper m) i r).
Proof.
  intros Hi. unfold multi_route_defined, get_inst, route_live. rewrite Hi. cbn [mbind outcome_mbind].
  destruct (halt i); [done|]. cbn [negb andb]. destruct (_ && negb (r_cache_generation r =? _)); [done|]. cbn [negb andb].
  by destruct (_ && _).
Qed.

Lemma learnable_returns a : addr_ok a -> exists b, mroute_learnable_address a = Ret b.
Proof.
  intros [[Hl _] Hn]. unfold mroute_learnable_address. rewrite load_prefix by lia. cbn [mbind outcome_mbind].
  destruct (all_zeros_ones _ _ _) as [z o]. destruct (_ && _); [by eexists|]. destruct o; [by eexists|].
  unfold is_mac_mcast_maddr. destruct (_ =? _); cbn [mbind outcome_mbind]; [|by eexists].
  destruct (raw_addr a) as [|b0 raw] eqn:E; [done|]. rewrite (load1_app [] b0 raw : load1 (b0 :: raw) 0 = _). cbn [mbind outcome_mbind].
  destruct (is_mac_mcast_addr b0); by eexists.
Qed.

(** ** Learning an address *)

(** The routes after [nr] was learned: it is new, or it has replaced the route of an equal
    address. *)
Definition learned R R' (nr : multi_route) : Prop :=
  exists new, R !! new = None /\
    ((R' = <[new := nr]> R /\ map_lookup (r_addr nr) (entries R) = None) \/
     exists old ro, R !! old = Some ro /\ compare_function (r_addr nr) (r_addr ro) = true /\
       R' = delete old (<[new := nr]> R)).

Lemma inc_spec m mi i :
  inst_heap m !! mi = Some i ->
  (m ← multi_instance_inc_refcount m mi; route_quota_inc m mi) =
  Ret (set_insts m (<[mi := set_route_count (set_refcount i (refcount i + 1)) (route_count i + 1)]> (inst_heap m))).
Proof.
  intros Hi. unfold multi_instance_inc_refcount, route_quota_inc, get_inst. rewrite Hi. cbn [mbind outcome_mbind inst_heap set_insts].
  rewrite lookup_insert_eq. cbn [mbind outcome_mbind]. rewrite insert_insert_eq. done.
Qed.

Lemma bind_assoc {A B C} (x : outcome A) (f : A -> outcome B) (g : B -> outcome C) :
  (x ≫= f) ≫= g = x ≫= (fun a => f a ≫= g).
Proof. by destruct x. Qed.

(** The context with a new table that holds the same. *)
Lemma safe_vhash m h : safe m -> rel h (entries (route_heap m)) -> safe (set_vhash m h).
Proof. intros [H1 H2 H3 H4] Hr. by split. Qed.

(** A route was allocated and not used. *)
Lemma safe_unused m n : safe m -> next_route m <= n ->
  safe (mkctx (vhash m) (route_helper m) (m_local m) (route_heap m) (inst_heap m) n).
Proof. intros [H1 H2 H3 H4] Hn. split; try done. cbn. intros p Hp. specialize (H3 p Hp). lia. Qed.

Lemma fresh_None m : safe m -> route_heap m !! next_route m = None.
Proof.
  intros Hs. destruct (route_heap m !! next_route m) eqn:E; [|done]. pose proof (safe_fresh m Hs (next_route m) ltac:(by eauto)). lia.
Qed.

Lemma learn_new_spec now m mi i addr flags gen b :
  safe m -> inst_heap m !! mi = Some i -> hash_bucket (vhash m) (hash_value (vhash m) addr) = Z.of_nat b ->
  map_lookup addr (entries (route_heap m)) = None ->
  let nr := mkroute addr mi flags gen now in
  let m2 := mkctx (vhash m) (route_helper m) (m_local m) (<[next_route m := nr]> (route_heap m)) (inst_heap m) (next_route m + 1) in
  exists m',
    (x ← multi_instance_inc_refcount m2 mi;
     x ← route_quota_inc x mi;
     h ← hash_add_fast (vhash x) (Z.of_nat b) addr (hash_value (vhash m) addr) (next_route m2 - 1);
     Ret (set_vhash x h, Some mi)) = Ret (m', Some mi) /\ safe m' /\
    route_helper m' = route_helper m /\ m_local m' = m_local m /\ insts_kept (inst_heap m) (inst_heap m') /\
    learned (route_heap m) (route_heap m') nr.
Proof.
  intros Hs Hi Eb Hn nr m2. pose proof (fresh_None m Hs) as Hf. rewrite <- bind_assoc. rewrite (inc_spec m2 mi i) by done.
  cbn [mbind outcome_mbind set_insts vhash next_route m2]. replace (next_route m + 1 - 1) with (next_route m) by lia.
  destruct (hash_add_fast_spec (vhash m) addr (next_route m) _ b (safe_table m Hs) Hn Eb) as (h' & -> & Hr). cbn [mbind outcome_mbind].
  destruct (acct_add m (next_route m) nr i (safe_acct m Hs) Hf Hi) as [Ha Hk].
  eexists. split; [reflexivity|]. cbn [route_helper m_local inst_heap route_heap set_vhash set_insts m2]. split; [|split; [done|split; [done|split; [exact Hk|]]]].
  - split; cbn [vhash route_heap inst_heap next_route route_helper set_vhash set_insts].
    + eapply rel_perm; [exact Hr|]. symmetry. by apply entries_insert.
    + exact Ha.
    + intros p Hp. change (is_Some (<[next_route m := nr]> (route_heap m) !! p)) in Hp. change (p < next_route m + 1).
      rewrite lookup_insert_is_Some' in Hp. destruct Hp as [<-|Hp]; [lia|]. pose proof (safe_fresh m Hs p Hp). lia.
    + apply Hs.
  - exists (next_route m). split; [done|]. left. by split.
Qed.

Lemma learn_update_spec now m mi i addr flags gen b he l k' :
  safe m -> inst_heap m !! mi = Some i -> hash_bucket (vhash m) (hash_value (vhash m) addr) = Z.of_nat b ->
  buckets (vhash m) !! b = Some (he :: l) -> key he = Some k' -> compare_function addr k' = true ->
  map_lookup addr (entries (route_heap m)) = Some (value he) ->
  let nr := mkroute addr mi flags gen now in
  let m2 := mkctx (vhash m) (route_helper m) (m_local m) (<[next_route m := nr]> (route_heap m)) (inst_heap m) (next_route m + 1) in
  exists m',
    (m ← multi_instance_inc_refcount m2 mi;
     m ← route_quota_inc m mi;
     m ← multi_route_del m (value he);
     l ← array_get (buckets (vhash m)) (Z.of_nat b);
     l ← write_elem (he_addr he) (set_key_value addr (next_route m2 - 1)) l;
     h ← set_bucket (vhash m) (Z.of_nat b) l (n_elements (vhash m));
     Ret (set_vhash m h, Some mi)) = Ret (m', Some mi) /\ safe m' /\
    route_helper m' = route_helper m /\ m_local m' = m_local m /\ insts_kept (inst_heap m) (inst_heap m') /\
    learned (route_heap m) (route_heap m') nr.
Proof.
  intros Hs Hi Eb Hl Ek Ec Hlook nr m2. pose proof (fresh_None m Hs) as Hf.
  destruct (map_lookup_entries_inv _ _ _ Hlook) as (ro & Hro & Hcro).
  assert (Hne : value he <> next_route m) by congruence.
  rewrite <- bind_assoc. rewrite (inc_spec m2 mi i) by done. cbn [mbind outcome_mbind].
  destruct (acct_add m (next_route m) nr i (safe_acct m Hs) Hf Hi) as [Ha Hk]. cbn [r_instance nr] in Ha, Hk.
  set (m3 := set_insts m2 _). assert (Hro3 : route_heap m3 !! value he = Some ro) by (cbn; by rewrite lookup_insert_ne).
  destruct (route_del_spec m3 (value he) ro Ha Hro3) as (m4 & -> & Ha4 & HR4 & Hk4 & Ev4 & Eh4 & El4 & En4). cbn [mbind outcome_mbind].
  rewrite Ev4. change (vhash m3) with (vhash m). replace (next_route m2 - 1) with (next_route m) by (cbn; lia).
  destruct (rekey_spec (vhash m) _ addr (next_route m) b he l k' (safe_table m Hs) Eb Hl Ek Ec) as (h' & l1 & Hp & Hw & Hr).
  assert (Hbind : forall (y : hash mroute_addr Z -> outcome (multi_context * option Z)),
    (l ← array_get (buckets (vhash m)) (Z.of_nat b); l ← write_elem (he_addr he) (set_key_value addr (next_route m)) l;
     h ← set_bucket (vhash m) (Z.of_nat b) l (n_elements (vhash m)); y h) = y h').
  { intros y. transitivity (Ret h' ≫= y); [|done]. rewrite <- Hw. rewrite !bind_assoc. apply bind_ext; [done|]. intros a.
    by rewrite bind_assoc. }
  rewrite Hbind. clear Hbind. eexists. split; [reflexivity|].
  cbn [route_helper m_local inst_heap route_heap set_vhash]. rewrite Eh4, El4, HR4.
  assert (Hkeep : insts_kept (inst_heap m) (inst_heap m4)) by (eapply insts_kept_trans; [exact Hk|exact Hk4]).
  split; [|split; [done|split; [done|split; [exact Hkeep|]]]].
  - split; cbn [vhash route_heap inst_heap next_route route_helper set_vhash].
    + eapply rel_perm; [exact Hr|]. rewrite HR4. cbn [route_heap m3 m2 set_insts]. symmetry.
      assert (E1 : (r_addr ro, value he) :: entries (delete (value he) (<[next_route m := nr]> (route_heap m))) ≡ₚ
                   (r_addr ro, value he) :: (addr, next_route m) :: l1).
      { rewrite <- (entries_delete (<[next_route m := nr]> (route_heap m)) (value he) ro Hro3), entries_insert by done.
        rewrite Hp. change (r_addr nr) with addr.
        assert (k' = r_addr ro) as ->; [|apply Permutation_swap].
        assert (Hin : (k', value he) ∈ entries (route_heap m)) by (rewrite Hp; left).
        apply elem_of_entries in Hin as (r' & Hr' & <-). congruence. }
      by apply Permutation_cons_inv in E1.
    + exact Ha4.
    + rewrite HR4, En4. cbn. intros p Hp'. apply lookup_delete_is_Some in Hp' as [_ Hp']. rewrite lookup_insert_is_Some' in Hp'.
      destruct Hp' as [<-|Hp']; [lia|]. pose proof (safe_fresh m Hs p Hp'). lia.
    + rewrite Eh4. apply Hs.
  - exists (next_route m). split; [done|]. right. exists (value he), ro. by split.
Qed.

(** Where a learned or a rejected route leaves the context. *)
Definition kept_or_learned m m' (nr : multi_route) : Prop :=
  safe m' /\ route_helper m' = route_helper m /\ m_local m' = m_local m /\ insts_kept (inst_heap m) (inst_heap m') /\
  ((route_heap m' = route_heap m /\ inst_heap m' = inst_heap m) \/ learned (route_heap m) (route_heap m') nr).

Lemma kept_unused m n nr : safe m -> next_route m <= n ->
  kept_or_learned m (mkctx (vhash m) (route_helper m) (m_local m) (route_heap m) (inst_heap m) n) nr.
Proof.
  intros Hs Hn. split; [by apply safe_unused|]. split; [done|]. split; [done|]. split; [apply insts_kept_refl|by left].
Qed.

Lemma delete_fresh m nr : safe m -> delete (next_route m) (<[next_route m := nr]> (route_heap m)) = route_heap m.
Proof. intros Hs. apply delete_insert_id. by apply fresh_None. Qed.

Lemma learn_spec now script m mi i addr flags :
  safe m -> inst_heap m !! mi = Some i -> addr_ok addr ->
  exists m' o nr, multi_learn_addr now script m mi addr flags = Ret (m', o) /\
    r_addr nr = addr /\ r_instance nr = mi /\ r_flags nr = flags /\ kept_or_learned m m' nr.
Proof.
  intros Hs Hi Ha. unfold multi_learn_addr. cbv zeta.
  destruct (lookup_fast_spec (vhash m) addr _ (safe_table m Hs)) as (h & r & b & Eb & Hf & Hr & Ehv & Eb' & Hm).
  rewrite Eb, Hf. cbn [mbind outcome_mbind]. rewrite <- Ehv in *. pose proof (safe_vhash m h Hs Hr) as Hs1. set (m1 := set_vhash m h) in *.
  assert (Hown : exists owner, match r with
      | Some he => r ← get_route m1 (value he); d ← multi_route_defined now m1 r; Ret (if d : bool then Some (r_instance r) else None)
      | None => Ret None end = Ret owner).
  { destruct r as [he|]; [|by eexists]. destruct Hm as (k' & l & _ & _ & Hlook & _).
    destruct (map_lookup_entries_inv _ _ _ Hlook) as (ro & Hro & _). unfold get_route. change (route_heap m1) with (route_heap m). rewrite Hro.
    cbn [mbind outcome_mbind]. destruct (acct_inst _ _ (safe_acct m Hs) _ _ Hro) as [io Hio]. rewrite (route_defined_spec now m1 ro io Hio). by eexists. }
  destruct Hown as [owner ->]. cbn [mbind outcome_mbind].
  assert (Hadd : exists add, (if match owner with None => true | Some o => negb (o =? mi) end
         then l ← mroute_learnable_address addr; Ret (l && negb (mroute_addr_equal addr (m_local m1))) else Ret false) = Ret add).
  { destruct (learnable_returns addr Ha) as [lb ->]. destruct (match owner with None => _ | Some _ => _ end); by eexists. }
  destruct Hadd as [add ->]. cbn [mbind outcome_mbind].
  set (gen := if negb _ then _ else 0). set (nr := mkroute addr mi flags gen now).
  assert (Hq : forall m', inst_heap m' = inst_heap m -> exists q, route_quota_test m' mi = Ret q).
  { intros m' E. unfold route_quota_test, get_inst. rewrite E, Hi. by eexists. }
  assert (Hsame : kept_or_learned m m1 nr).
  { split; [done|]. split; [done|]. split; [done|]. split; [apply insts_kept_refl|by left]. }
  assert (Hrej : kept_or_learned m (mkctx h (route_helper m) (m_local m) (route_heap m) (inst_heap m) (next_route m + 1)) nr).
  { apply (kept_unused m1 (next_route m1 + 1) nr Hs1). lia. }
  destruct add; [|by exists m1, owner, nr].
  set (m2 := mkctx _ _ _ _ _ _). destruct (Hq m2 eq_refl) as [q ->]. cbn [mbind outcome_mbind].
  assert (Hrej' : set_routes m2 (delete (next_route m1) (route_heap m2)) =
                  mkctx h (route_helper m) (m_local m) (route_heap m) (inst_heap m) (next_route m + 1)).
  { unfold set_routes, m2. cbn. f_equal. apply (delete_fresh m nr Hs). }
  rewrite Hrej'. clear Hrej'. destruct r as [he|].
  - destruct (q && _); [|by eexists _, _, nr]. destruct Hm as (k' & l & Ek & Ec & Hlook & Hbk).
    destruct (learn_update_spec now m1 mi i addr flags gen b he l k' Hs1 Hi Eb' Hbk Ek Ec Hlook) as (m' & Hrun & H1 & H2 & H3 & H4 & H5).
    exists m', (Some mi), nr. split; [|by repeat (split; [done|]); right].
    cbn [next_route] in Hrun. replace (next_route m1 + 1 - 1) with (next_route m1) in Hrun by lia. exact Hrun.
  - destruct (q && _); [|by eexists _, _, nr]. destruct Hm as [Hnone _].
    destruct (learn_new_spec now m1 mi i addr flags gen b Hs1 Hi Eb' Hnone) as (m' & Hrun & H1 & H2 & H3 & H4 & H5).
    exists m', (Some mi), nr. split; [|by repeat (split; [done|]); right].
    cbn [next_route] in Hrun. replace (next_route m1 + 1 - 1) with (next_route m1) in Hrun by lia. exact Hrun.
Qed.

(** ** Looking up an address *)

(** A route of the heap that is defined now. *)
Definition live now m (r : multi_route) : Prop :=
  exists p i, route_heap m !! p = Some r /\ inst_heap m !! r_instance r = Some i /\ route_live now (route_helper m) i r = true.

Lemma lookup_defined_spec now m addr :
  safe m -> exists h res, lookup_defined now m addr = Ret (set_vhash m h, res) /\ safe (set_vhash m h) /\
    match res with
    | Some (p, r) => route_heap m !! p = Some r /\ compare_function addr (r_addr r) = true /\ live now m r
    | None => forall r, live now m r -> compare_function addr (r_addr r) = false
    end.
Proof.
  intros Hs. unfold lookup_defined. destruct (hash_lookup_spec (vhash m) addr _ (safe_table m Hs)) as (h & -> & Hr).
  cbn [mbind outcome_mbind]. pose proof (safe_vhash m h Hs Hr) as Hs1. pose proof (rel_apart _ _ (safe_table m Hs)) as Hap.
  destruct (map_lookup addr (entries (route_heap m))) as [p|] eqn:El.
  - destruct (map_lookup_entries_inv _ _ _ El) as (r & Hp & Hc). unfold get_route. cbn [route_heap set_vhash]. rewrite Hp. cbn [mbind outcome_mbind].
    destruct (acct_inst _ _ (safe_acct m Hs) _ _ Hp) as [i Hi]. rewrite (route_defined_spec now (set_vhash m h) r i Hi). cbn [mbind outcome_mbind].
    exists h. eexists. split; [reflexivity|]. split; [done|]. change (route_helper (set_vhash m h)) with (route_helper m).
    destruct (route_live now (route_helper m) i r) eqn:Ed; [split; [done|split; [done|by exists p, i]]|].
    intros r' (p' & i' & Hp' & Hi' & Hl'). destruct (compare_function addr (r_addr r')) eqn:Ec; [|done].
    pose proof (map_lookup_entries _ addr p' r' Hap Hp' Ec) as E. rewrite El in E. injection E as ->. congruence.
  - exists h, None. split; [done|]. split; [done|]. intros r (p' & i' & Hp' & _). destruct (compare_function addr (r_addr r)) eqn:Ec; [|done].
    by rewrite (map_lookup_entries _ addr p' r Hap Hp' Ec) in El.
Qed.

(** A host address of the IP family. *)
Definition ip_host (a : mroute_addr) : Prop :=
  mroute_wf a /\ ((ma_type a = MR_ADDR_IPV4 /\ ma_len a = 4) \/ (ma_type a = MR_ADDR_IPV6 /\ ma_len a = 16)).

Lemma ip_host_kind a : ip_host a -> addr_ok a /\ (ip_kind a = MR_ADDR_IPV4 \/ ip_kind a = MR_ADDR_IPV6).
Proof.
  intros [Hw [[Ht Hl]|[Ht Hl]]]; (split; [split; [done|lia]|]); unfold ip_kind; rewrite Ht; [by left|by right].
Qed.

(** The address with a prefix length, as the lookup builds it. *)
Definition with_netbits (a : mroute_addr) (nb : Z) : mroute_addr :=
  mkma (ma_len a) (Z.lor (ma_type a) MR_WITH_NETBITS) nb (raw_addr a).

(** The route covers the address: masked to the prefix length of the route it is the
    address of the route. *)
Definition covers (r : multi_route) (a : mroute_addr) : Prop :=
  exists t, mroute_addr_mask_host_bits (with_netbits a (ma_netbits (r_addr r))) = Ret t /\ compare_function t (r_addr r) = true.

Lemma with_netbits_kind a nb : ip_kind (with_netbits a nb) = ip_kind a.
Proof. unfold ip_kind, with_netbits. cbn [ma_type]. rewrite Z.land_lor_distr_l. change (Z.land MR_WITH_NETBITS MR_ADDR_MASK) with 0. apply Z.lor_0_r. Qed.

Lemma try_addr_spec a nb :
  ip_host a -> 0 <= nb <= 128 -> exists t, mroute_addr_mask_host_bits (with_netbits a nb) = Ret t /\ ma_netbits t = nb /\ addr_ok t.
Proof.
  intros [[Hw Hl] Hk]%ip_host_kind Hn. destruct (mask_host_bits_spec (with_netbits a nb)) as (t & Ht & Hwt & _ & Hnb & Hlen & _).
  - exact Hw.
  - exact Hn.
  - by rewrite with_netbits_kind.
  - exists t. split; [done|]. split; [done|]. split; [done|]. rewrite Hlen. exact Hl.
Qed.

Lemma compare_netbits a b : compare_function a b = true -> ma_netbits a = ma_netbits b.
Proof.
  unfold compare_function. cbn. unfold mroute_addr_compare_function, mroute_addr_equal.
  destruct (ma_type a =? ma_type b); cbn [negb]; [|done]. destruct (ma_netbits a =? ma_netbits b) eqn:E; cbn [negb]; [|done]. intros _. lia.
Qed.

(** The loop over the prefix lengths [nets] finds the first one with a route. *)
Lemma cidr_loop_spec now script a nets : forall m k,
  safe m -> ip_host a -> 0 <= k -> zdrop k (used_lens 129 (net_len_refcount (route_helper m))) = nets ->
  exists m' ret nr, cidr_loop now script (length nets) k m a = Ret (m', ret) /\
    r_addr nr = a /\ r_flags nr = Z.lor MULTI_ROUTE_CACHE MULTI_ROUTE_AGEABLE /\ kept_or_learned m m' nr /\
    match ret with
    | Some mi => exists r, live now m r /\ covers r a /\ r_instance r = mi /\
        forall r', live now m r' -> covers r' a -> ma_netbits (r_addr r') ∈ nets -> ma_netbits (r_addr r') <= ma_netbits (r_addr r)
    | None => forall r', live now m r' -> covers r' a -> ma_netbits (r_addr r') ∉ nets
    end.
Proof.
  induction nets as [|nb nets IH]; intros m k Hs Ha Hk Hd; cbn [length cidr_loop].
  { exists m, None, (mkroute a 0 (Z.lor MULTI_ROUTE_CACHE MULTI_ROUTE_AGEABLE) 0 0). split; [done|]. split; [done|]. split; [done|].
    split; [|by intros r' _ _ ?%elem_of_nil]. split; [done|]. split; [done|]. split; [done|]. split; [apply insts_kept_refl|by left]. }
  pose proof (safe_helper m Hs) as (H1 & H2 & H3 & H4 & H5).
  assert (Hk' : used_lens 129 (net_len_refcount (route_helper m)) !! Z.to_nat k = Some nb).
  { unfold zdrop in Hd. rewrite <- (Nat.add_0_r (Z.to_nat k)), <- lookup_drop, Hd. done. }
  assert (Hget : array_get (net_len (route_helper m)) k = Ret nb).
  { apply array_get_Some; [done|]. rewrite <- H5 in Hk'. unfold ztake in Hk'. by apply lookup_take_Some in Hk' as [Hk' _]. }
  assert (Hnb : 0 <= nb < 129). { apply list_elem_of_lookup_2, elem_of_used_lens in Hk' as [Hk' _]. exact Hk'. }
  rewrite Hget. cbn [mbind outcome_mbind]. destruct (try_addr_spec a nb Ha ltac:(lia)) as (t & Ht & Htn & Hta).
  unfold with_netbits in Ht. rewrite Ht. cbn [mbind outcome_mbind].
  destruct (lookup_defined_spec now m t Hs) as (h & res & -> & Hs1 & Hres). cbn [mbind outcome_mbind].
  assert (Hcov : forall r, ma_netbits (r_addr r) = nb -> covers r a -> compare_function t (r_addr r) = true).
  { intros r E (t' & Ht' & Hc). rewrite E in Ht'. unfold with_netbits in Ht'. rewrite Ht in Ht'. by injection Ht' as ->. }
  assert (Hsort : forall x, x ∈ nets -> x < nb).
  { intros x Hx. pose proof (used_lens_sorted 129 (net_len_refcount (route_helper m))) as Hss.
    rewrite <- (ztake_zdrop k (used_lens _ _)), Hd in Hss. apply StronglySorted_app_1_r in Hss. inversion Hss as [|? ? _ Hf]; subst.
    rewrite Forall_forall in Hf. specialize (Hf x Hx). lia. }
  destruct res as [[p r]|].
  - destruct Hres as (Hp & Hc & Hlive). destruct (acct_inst _ _ (safe_acct m Hs) _ _ Hp) as [i Hi].
    destruct (learn_spec now script (set_vhash m h) (r_instance r) i a (Z.lor MULTI_ROUTE_CACHE MULTI_ROUTE_AGEABLE) Hs1 Hi (proj1 (ip_host_kind a Ha)))
      as (m' & o & nr & -> & N1 & N2 & N3 & Hkl). cbn [mbind outcome_mbind].
    exists m', (Some (r_instance r)), nr. split; [done|]. split; [done|]. split; [done|]. split; [exact Hkl|].
    assert (Hrn : ma_netbits (r_addr r) = nb) by (rewrite <- (compare_netbits _ _ Hc); done).
    exists r. split; [done|]. split; [exists t; rewrite Hrn; done|]. split; [done|]. intros r' _ _ [->|Hx]%elem_of_cons; [lia|].
    apply Hsort in Hx. lia.
  - destruct (IH (set_vhash m h) (k + 1) Hs1 Ha ltac:(lia)) as (m' & ret & nr & Hrun & N1 & N3 & Hkl & Hret).
    { change (route_helper (set_vhash m h)) with (route_helper m). rewrite <- (zdrop_zdrop 1 k) by lia. by rewrite Hd. }
    exists m', ret, nr. split; [exact Hrun|]. split; [done|]. split; [done|]. split; [exact Hkl|].
    assert (Hno : forall r', live now m r' -> covers r' a -> ma_netbits (r_addr r') <> nb).
    { intros r' Hl' Hc' E. specialize (Hres r' Hl'). by rewrite (Hcov r' E Hc') in Hres. }
    destruct ret as [mi|].
    + destruct Hret as (r & Hl & Hc & Hmi & Hmax). exists r. split; [exact Hl|]. split; [done|]. split; [done|].
      intros r' Hl' Hc' [E|Hx]%elem_of_cons; [by destruct (Hno r' Hl' Hc')|]. by apply Hmax.
    + intros r' Hl' Hc' [E|Hx]%elem_of_cons; [by destruct (Hno r' Hl' Hc')|]. by apply (Hret r' Hl' Hc').
Qed.

(** Writing a member of a route that is neither its address nor its instance. *)
Lemma safe_touch m p r r' :
  safe m -> route_heap m !! p = Some r -> r_addr r' = r_addr r -> r_instance r' = r_instance r ->
  safe (set_routes m (<[p := r']> (route_heap m))).
Proof.
  intros [H1 [H2a H2b] H3 H4] Hp Ea Ei.
  assert (Hcnt : forall x, cnt (<[p := r']> (route_heap m)) x = cnt (route_heap m) x).
  { intros x. rewrite <- insert_delete_eq, cnt_insert by apply lookup_delete_eq. rewrite (cnt_delete _ _ _ _ Hp), Ei. destruct (decide _); lia. }
  split; cbn [vhash route_heap inst_heap next_route route_helper set_routes].
  - eapply rel_perm; [exact H1|]. rewrite (entries_delete _ _ _ Hp). rewrite <- insert_delete_eq, entries_insert by apply lookup_delete_eq. by rewrite Ea.
  - split; [intros x i Hi; rewrite Hcnt; by apply H2a|]. intros q s Hq. destruct (decide (q = p)) as [->|Hne].
    + rewrite lookup_insert_eq in Hq. injection Hq as <-. rewrite Ei. by eapply H2b.
    + rewrite lookup_insert_ne in Hq by done. by eapply H2b.
  - intros q Hq. rewrite lookup_insert_is_Some' in Hq. destruct Hq as [<-|Hq]; apply H3; [by eauto|done].
  - done.
Qed.

(** What a lookup leaves: the routes are the same, one was referenced, or one was cached. *)
Definition after_lookup now m m' (a : mroute_addr) : Prop :=
  (exists p r, route_heap m !! p = Some r /\
     route_heap m' = <[p := mkroute (r_addr r) (r_instance r) (r_flags r) (r_cache_generation r) now]> (route_heap m) /\
     inst_heap m' = inst_heap m) \/
  exists nr, r_addr nr = a /\ r_flags nr = Z.lor MULTI_ROUTE_CACHE MULTI_ROUTE_AGEABLE /\ kept_or_learned m m' nr.

(** The answer of a lookup: the owner of the address itself, or else of the longest of the
    prefixes in use that cover it. *)
Definition lookup_answer now m (a : mroute_addr) (cidr : bool) (ret : option Z) : Prop :=
  (exists r, live now m r /\ compare_function a (r_addr r) = true /\ ret = Some (r_instance r)) \/
  ((forall r, live now m r -> compare_function a (r_addr r) = false) /\
   match ret with
   | Some mi => cidr = true /\ exists r, live now m r /\ covers r a /\ r_instance r = mi /\
       forall r', live now m r' -> covers r' a -> 0 < net_len_refcount (route_helper m) !!! Z.to_nat (ma_netbits (r_addr r')) ->
         0 <= ma_netbits (r_addr r') < 129 -> ma_netbits (r_addr r') <= ma_netbits (r_addr r)
   | None => cidr = true -> forall r', live now m r' -> covers r' a -> 0 <= ma_netbits (r_addr r') < 129 ->
       net_len_refcount (route_helper m) !!! Z.to_nat (ma_netbits (r_addr r')) <= 0
   end).

Lemma live_instance now m r :
  live now m r -> exists i, inst_heap m !! r_instance r = Some i /\ halt i = false.
Proof. intros (p & i & _ & Hi & Hl). exists i. split; [done|]. unfold route_live in Hl. by destruct (halt i). Qed.

Lemma get_instance_spec now script m a cidr :
  safe m -> ip_host a -> mroute_addr_equal a (m_local m) = false ->
  exists m' ret, multi_get_instance_by_virtual_addr now script m a cidr = Ret (m', ret) /\ safe m' /\
    route_helper m' = route_helper m /\ m_local m' = m_local m /\ insts_kept (inst_heap m) (inst_heap m') /\
    after_lookup now m m' a /\ lookup_answer now m a cidr ret.
Proof.
  intros Hs Ha Hloc. unfold multi_get_instance_by_virtual_addr. rewrite Hloc.
  destruct (lookup_defined_spec now m a Hs) as (h & res & -> & Hs1 & Hres). cbn [mbind outcome_mbind]. destruct res as [[p r]|].
  - destruct Hres as (Hp & Hc & Hlive). destruct (live_instance _ _ _ Hlive) as (i & Hi & Hh). cbn [mbind outcome_mbind].
    unfold get_inst. cbn [inst_heap set_routes set_vhash]. rewrite Hi. cbn [mbind outcome_mbind]. rewrite Hh. cbn [negb c_assert mbind outcome_mbind].
    eexists _, _. split; [reflexivity|]. split; [by apply (safe_touch (set_vhash m h) p r)|]. do 2 (split; [done|]). split; [apply insts_kept_refl|].
    split; [left; by exists p, r|]. left. by exists r.
  - assert (Hfin : forall m' ret, safe m' -> insts_kept (inst_heap m) (inst_heap m') -> lookup_answer now m a cidr ret ->
      match ret with Some mi => i ← get_inst m' mi; c_assert (negb (halt i)) | None => Ret tt end = Ret tt).
    { intros m' [mi|] Hs' Hk Hans; [|done].
      assert (Hex : exists r, live now m r /\ r_instance r = mi).
      { destruct Hans as [(r & Hl & _ & E)|[_ (_ & r & Hl & _ & E & _)]]; exists r; split; congruence. }
      destruct Hex as (r & Hl & <-). destruct (live_instance _ _ _ Hl) as (i & Hi & Hh). destruct (proj2 Hk _ _ Hi Hh) as [i' Hi'].
      unfold get_inst. rewrite Hi'. cbn [mbind outcome_mbind]. destruct (proj1 Hk _ _ Hi') as (j & Hj & Hsj).
      rewrite (same_halt _ _ Hsj). assert (j = i) as -> by congruence. by rewrite Hh. }
    destruct cidr.
    + pose proof (safe_helper m Hs) as Hh. destruct Hh as (H1 & H2 & H3 & H4 & H5).
      destruct (cidr_loop_spec now script a (used_lens 129 (net_len_refcount (route_helper m))) (set_vhash m h) 0 Hs1 Ha ltac:(lia) (zdrop_0 _))
        as (m' & ret & nr & Hrun & N1 & N3 & Hkl & Hret).
      change (route_helper (set_vhash m h)) with (route_helper m). replace (Z.to_nat (n_net_len (route_helper m))) with (length (used_lens 129 (net_len_refcount (route_helper m)))) by (rewrite H4; unfold zlen; lia).
      rewrite Hrun. cbn [mbind outcome_mbind].
      assert (Hans : lookup_answer now m a true ret).
      { right. split; [exact Hres|]. destruct ret as [mi|].
        - destruct Hret as (r & Hl & Hc & E & Hmax). split; [done|]. exists r. split; [exact Hl|]. split; [done|]. split; [done|].
          intros r' Hl' Hc' Hpos Hb. apply Hmax; [exact Hl'|done|]. apply elem_of_used_lens. split; [lia|done].
        - intros _ r' Hl' Hc' Hb. destruct (decide (net_len_refcount (route_helper m) !!! Z.to_nat (ma_netbits (r_addr r')) <= 0)) as [|Hgt]; [done|].
          exfalso. apply (Hret r' Hl' Hc'). apply elem_of_used_lens. split; [lia|lia]. }
      pose proof Hkl as (K1 & K2 & K3 & K4 & K5). rewrite (Hfin m' ret K1 K4 Hans). cbn [mbind outcome_mbind].
      exists m', ret. split; [done|]. do 4 (split; [done|]). split; [right; by exists nr|exact Hans].
    + cbn [mbind outcome_mbind]. eexists _, _. split; [reflexivity|]. do 3 (split; [done|]). split; [apply insts_kept_refl|]. split.
      * right. exists (mkroute a 0 (Z.lor MULTI_ROUTE_CACHE MULTI_ROUTE_AGEABLE) 0 0). split; [done|]. split; [done|].
        split; [done|]. split; [done|]. split; [done|]. split; [apply insts_kept_refl|by left].
      * right. split; [exact Hres|]. done.
Qed.

(** ** Sweeping the table *)

Fixpoint del_all (ps : list Z) R : gmap Z multi_route :=
  match ps with [] => R | p :: ps => del_all ps (delete p R) end.

Lemma del_all_app ps qs R : del_all (ps ++ qs) R = del_all qs (del_all ps R).
Proof. revert R; induction ps as [|p ps IH]; intros R; [done|]. apply IH. Qed.

Lemma lookup_del_all ps p : forall R, del_all ps R !! p = if decide (p ∈ ps) then None else R !! p.
Proof.
  induction ps as [|q ps IH]; intros R; cbn [del_all]; [by rewrite decide_False by apply not_elem_of_nil|].
  rewrite IH. destruct (decide (p = q)) as [->|Hne].
  - rewrite lookup_delete_eq, (decide_True (P := q ∈ q :: ps)) by left. by destruct (decide _).
  - rewrite lookup_delete_ne by done. destruct (decide (p ∈ ps)) as [Hi|Hi]; [by rewrite decide_True by (by right)|].
    rewrite decide_False; [done|]. intros [->|?]%elem_of_cons; done.
Qed.

(** Removing the marked elements from the table and their routes from the heap. *)
Lemma entries_clean (f : hash_element mroute_addr Z -> bool) (L : list (hash_element mroute_addr Z)) : forall R X,
  keyed L -> pairs L ++ X ≡ₚ entries R ->
  pairs (clean f L) ++ X ≡ₚ entries (del_all (value <$> filter (fun he => f he = true) L) R).
Proof.
  induction L as [|he L IH]; intros R X Hk Hp; [exact Hp|]. apply Forall_cons in Hk as [[k Ek] Hk].
  rewrite (pairs_cons he L k Ek) in Hp. unfold clean. rewrite !filter_cons. destruct (f he) eqn:Ef.
  - destruct (decide (true = true)); [|done]. destruct (decide (true = false)); [done|]. rewrite fmap_cons. cbn [del_all].
    apply IH; [done|]. assert (Hin : (k, value he) ∈ entries R) by (rewrite <- Hp; left).
    apply elem_of_entries in Hin as (r & Hr & <-). rewrite (entries_delete R _ _ Hr) in Hp. by apply Permutation_cons_inv in Hp.
  - destruct (decide (false = true)); [done|]. destruct (decide (false = false)); [|done]. rewrite (pairs_cons he _ k Ek). cbn [app].
    rewrite Permutation_middle. apply IH; [done|]. by rewrite <- Permutation_middle.
Qed.

Lemma pairs_values (L : list (hash_element mroute_addr Z)) : keyed L -> (pairs L).*2 = value <$> L.
Proof. induction 1 as [|he L [k Ek] _ IH]; [done|]. rewrite (pairs_cons he L k Ek), !fmap_cons, IH. done. Qed.

(** A loop body that deletes the routes that [g] picks. *)
Definition picks now (body : multi_context -> hash_element mroute_addr Z -> outcome (multi_context * bool)) (g : bool -> multi_route -> bool) : Prop :=
  forall s he r i, route_heap s !! value he = Some r -> inst_heap s !! r_instance r = Some i ->
    body s he = if g (route_live now (route_helper s) i r) r
                then s ← multi_route_del s (value he); Ret (s, true) else Ret (s, false).

Lemma reap_picks now : picks now (reap_body now) (fun d _ => negb d).
Proof.
  intros s he r i Hr Hi. unfold reap_body, get_route. rewrite Hr. cbn [mbind outcome_mbind]. rewrite (route_defined_spec now s r i Hi).
  cbn [mbind outcome_mbind]. by destruct (route_live _ _ _ _).
Qed.

Lemma stale_picks now t : picks now (stale_body now t) (fun d r => d && (t <=? now - r_last_reference r)).
Proof.
  intros s he r i Hr Hi. unfold stale_body, get_route. rewrite Hr. cbn [mbind outcome_mbind]. rewrite (route_defined_spec now s r i Hi). done.
Qed.

(** The routes that go: those in the swept part of the table that are picked. *)
Definition picked now m (g : bool -> multi_route -> bool) (he : hash_element mroute_addr Z) : bool :=
  match route_heap m !! value he with
  | Some r => match inst_heap m !! r_instance r with Some i => g (route_live now (route_helper m) i r) r | None => false end
  | None => false
  end.

(** The state after the routes of the elements [don] have been treated. *)
Definition swept now m g (don : list (hash_element mroute_addr Z)) (s : multi_context) : Prop :=
  acct (route_heap s) (inst_heap s) /\ insts_kept (inst_heap m) (inst_heap s) /\
  route_heap s = del_all (value <$> filter (fun he => picked now m g he = true) don) (route_heap m) /\
  vhash s = vhash m /\ route_helper s = route_helper m /\ m_local s = m_local m /\ next_route s = next_route m.

Lemma route_live_same now rh i j r : same_but_counts i j -> route_live now rh i r = route_live now rh j r.
Proof. intros Hs. unfold route_live. by rewrite (same_halt _ _ Hs). Qed.

Lemma sweep_step now m g body don he s :
  picks now body g -> NoDup (value <$> don ++ [he]) -> is_Some (route_heap m !! value he) -> swept now m g don s ->
  exists s', body s he = Ret (s', picked now m g he) /\ swept now m g (don ++ [he]) s'.
Proof.
  intros Hb Hn [r Hr] (Ha & Hk & HR & Hrest).
  assert (Hr' : route_heap s !! value he = Some r).
  { rewrite HR, lookup_del_all, decide_False; [done|]. intros (x & Hx & Hin)%list_elem_of_fmap. apply list_elem_of_filter in Hin as [_ Hin].
    rewrite fmap_app in Hn. apply NoDup_app in Hn as (_ & Hn & _). apply (Hn (value he)); [|left]. rewrite Hx. by apply list_elem_of_fmap_2. }
  destruct (acct_inst _ _ Ha _ _ Hr') as [i' Hi']. destruct (proj1 Hk _ _ Hi') as (i & Hi & Hsame).
  rewrite (Hb s he r i' Hr' Hi'). rewrite (route_live_same _ _ _ _ r Hsame). pose proof Hrest as (_ & Hh & _). rewrite Hh.
  assert (Epick : picked now m g he = g (route_live now (route_helper m) i r) r) by (unfold picked; by rewrite Hr, Hi).
  rewrite <- Epick. destruct (picked now m g he) eqn:Eg.
  - destruct (route_del_spec s (value he) r Ha Hr') as (s' & -> & Ha' & HR' & Hk' & E1 & E2 & E3 & E4). cbn [mbind outcome_mbind].
    exists s'. split; [done|]. split; [done|]. split; [by eapply insts_kept_trans|]. split.
    + rewrite HR', HR, filter_app, fmap_app, del_all_app. rewrite filter_cons_True by done. done.
    + destruct Hrest as (? & ? & ? & ?). repeat split; congruence.
  - exists s. split; [done|]. split; [done|]. split; [done|]. split; [|done]. rewrite HR, filter_app, filter_cons_False by (by rewrite Eg).
    by rewrite filter_nil, app_nil_r.
Qed.

Lemma sweep_vhash_spec now m g body start end_ :
  picks now body g -> safe m -> 0 <= start -> start <= Z.min end_ (n_buckets (vhash m)) ->
  exists m', sweep_vhash body m start end_ = Ret m' /\ safe m' /\
    route_helper m' = route_helper m /\ m_local m' = m_local m /\ insts_kept (inst_heap m) (inst_heap m') /\
    route_heap m' ⊆ route_heap m.
Proof.
  intros Hb Hs H0 H1. pose proof (safe_table m Hs) as [Hw Hp]. set (h := vhash m) in *.
  set (n := Z.min end_ (n_buckets h) - start). set (mid := ztake n (zdrop start (buckets h))).
  set (P := fun (s : multi_context) (l : list (hash_element mroute_addr Z)) => exists don, concat mid = don ++ l /\ swept now m g don s).
  assert (Ebs : buckets h = ztake start (buckets h) ++ mid ++ zdrop (start + n) (buckets h)).
  { unfold mid. rewrite <- (zdrop_zdrop n start) by lia. by rewrite !ztake_zdrop. }
  set (pre := ztake start (buckets h)) in *. set (post := zdrop (start + n) (buckets h)) in *.
  pose proof (wf_keyed h Hw) as Hkey. rewrite Ebs, !concat_app in Hkey, Hp. apply Forall_app in Hkey as [_ Hkey]. apply Forall_app in Hkey as [Hkm _].
  assert (Hp' : pairs (concat mid) ++ pairs (concat pre) ++ pairs (concat post) ≡ₚ entries (route_heap m)).
  { rewrite <- Hp, !pairs_app. apply Permutation_app_swap_app. }
  assert (Hnd : NoDup (value <$> concat mid)).
  { rewrite <- pairs_values by done. assert (Hnd : NoDup (entries (route_heap m)).*2).
    { unfold entries. rewrite <- list_fmap_compose. apply NoDup_fst_map_to_list. }
    rewrite <- Hp', fmap_app in Hnd. by apply NoDup_app in Hnd as [Hnd _]. }
  assert (Hin : forall he, he ∈ concat mid -> is_Some (route_heap m !! value he)).
  { intros he Hhe. assert (Hv : value he ∈ (pairs (concat mid)).*2) by (rewrite pairs_values by done; by apply list_elem_of_fmap_2).
    apply list_elem_of_fmap in Hv as ([k p] & E & Hkp). cbn in E. rewrite E.
    assert (He : (k, p) ∈ entries (route_heap m)) by (rewrite <- Hp'; apply elem_of_app; by left). apply elem_of_entries in He as (r & Hr & _). by exists r. }
  destruct (sweep_range_spec body (picked now m g) P h start end_ m) as (hi0 & s' & h1 & hi1 & h' & hi2 & E1 & E2 & E3 & HP & Hw' & _ & _ & _ & _ & _ & Ebs').
  - intros s he l (don & Ed & Hsw). rewrite Ed in Hnd, Hin. replace (don ++ he :: l) with ((don ++ [he]) ++ l) in * by (by rewrite <- app_assoc).
    rewrite fmap_app in Hnd. apply NoDup_app in Hnd as [Hnd _].
    destruct (sweep_step now m g body don he s Hb Hnd) as (s' & Hbs & Hsw'); [|done|].
    { apply Hin. apply elem_of_app. left. apply elem_of_app. right. left. }
    exists s'. split; [done|]. by exists (don ++ [he]).
  - done.
  - done.
  - done.
  - exists []. split; [done|]. split; [apply Hs|]. split; [apply insts_kept_refl|]. done.
  - destruct HP as (don & Ed & Ha & Hk & HR & Ev & Eh & El & En). rewrite app_nil_r in Ed. subst don.
    exists (set_vhash s' h'). split.
    { unfold sweep_vhash. fold h. rewrite E1. cbn [mbind outcome_mbind]. rewrite E2. cbn [mbind outcome_mbind]. by rewrite E3. }
    assert (Hsub : route_heap s' ⊆ route_heap m).
    { rewrite HR. apply map_subseteq_spec. intros p r. rewrite lookup_del_all. by destruct (decide _). }
    split; [|by repeat (split; [done|])]. split; cbn [vhash route_heap inst_heap next_route route_helper set_vhash].
    + split; [done|]. rewrite Ebs', !concat_app, concat_clean, !pairs_app, HR. fold mid.
      rewrite <- (entries_clean (picked now m g) (concat mid) (route_heap m) (pairs (concat pre) ++ pairs (concat post)) Hkm Hp').
      apply Permutation_app_swap_app.
    + done.
    + intros p Hp2. rewrite En. apply (safe_fresh m Hs). destruct Hp2 as [r Hr]. exists r. by eapply lookup_weaken.
    + rewrite Eh. apply Hs.
Qed.

(** ** The prefix lengths of the clients' networks *)

(** The prefix lengths of the networks of a client. *)
Definition nets (i : multi_instance) : list Z := filter (fun n => 0 <= n) ((iroutes i).*2 ++ (iroutes_ipv6 i).*2).

(** The networks announced by the clients. *)
Definition announced I : gmap Z (list Z) := omap (fun i => if did_iroutes i then Some (nets i) else None) I.
Definition total I : list Z := concat (map_to_list (announced I)).*2.

Definition mcount (n : Z) (l : list Z) : Z := Z.of_nat (length (filter (fun x => x = n) l)).

Lemma mcount_app n l1 l2 : mcount n (l1 ++ l2) = mcount n l1 + mcount n l2.
Proof. unfold mcount. rewrite filter_app, length_app. lia. Qed.

Lemma mcount_cons n x l : mcount n (x :: l) = (if decide (x = n) then 1 else 0) + mcount n l.
Proof. unfold mcount. rewrite filter_cons. destruct (decide (x = n)); cbn [length]; lia. Qed.

Lemma mcount_nonneg n l : 0 <= mcount n l.
Proof. unfold mcount. lia. Qed.

Lemma mcount_elem n l : 0 < mcount n l <-> n ∈ l.
Proof.
  induction l as [|x l IH]; [split; [unfold mcount; cbn; lia|by intros ?%elem_of_nil]|].
  rewrite mcount_cons, elem_of_cons, <- IH. pose proof (mcount_nonneg n l). destruct (decide (x = n)) as [->|]; [split; [by left|lia]|].
  split; [intros; right; lia|]. intros [->|?]; [done|lia].
Qed.

#[global] Instance mcount_proper n : Proper ((≡ₚ) ==> eq) (mcount n).
Proof. intros l1 l2 Hp. unfold mcount. by rewrite Hp. Qed.

Lemma total_insert I mi i l :
  announced I !! mi = None -> did_iroutes i = true -> nets i = l -> total (<[mi := i]> I) ≡ₚ l ++ total I.
Proof.
  intros Hn Hd Hl. unfold total. assert (E : announced (<[mi := i]> I) = <[mi := l]> (announced I)).
  { unfold announced. rewrite omap_insert, Hd. by rewrite Hl. }
  rewrite E, map_to_list_insert by done. done.
Qed.

Lemma announced_kept I I' :
  insts_kept I I' -> (forall x i, I !! x = Some i -> halt i = true -> did_iroutes i = false) -> announced I' = announced I.
Proof.
  intros [Hk1 Hk2] Hh. apply map_eq. intros x. unfold announced. rewrite !lookup_omap.
  destruct (I' !! x) as [i'|] eqn:E'.
  - destruct (Hk1 x i' E') as (i & E & n & k & ->). rewrite E. cbn. by destruct i.
  - destruct (I !! x) as [i|] eqn:E; [|done]. cbn. destruct (halt i) eqn:Eh; [by rewrite (Hh x i E Eh)|].
    destruct (Hk2 x i E Eh) as [j Hj]. congruence.
Qed.

(** The counts after adding or deleting a list of prefix lengths. *)
Lemma bumped_lookup rc n d k :
  zlen rc = 129 -> 0 <= n < 129 -> 0 <= k -> bumped rc n d !!! Z.to_nat k = rc !!! Z.to_nat k + (if decide (n = k) then d else 0).
Proof.
  intros Hl Hn Hk. unfold bumped. rewrite MrouteSpec.lookup_total_insert by (unfold zlen in Hl; lia).
  destruct (decide (Z.to_nat k = Z.to_nat n)), (decide (n = k)); try lia; subst; lia.
Qed.

Definition net_ok (n : Z) : Prop := -1 <= n <= 128.

Definition pos_nets (l : list Z) : list Z := filter (fun n => 0 <= n) l.

Lemma helper_len rh : helper_wf rh -> zlen (net_len_refcount rh) = 129.
Proof. by intros (_ & H & _). Qed.

Lemma del_iroutes_spec l : forall rh,
  helper_wf rh -> Forall net_ok l -> (forall n, 0 <= n < 129 -> mcount n (pos_nets l) <= net_len_refcount rh !!! Z.to_nat n) ->
  exists rh', del_iroutes_loop rh l = Ret rh' /\ helper_wf rh' /\
    forall n, 0 <= n < 129 -> net_len_refcount rh' !!! Z.to_nat n = net_len_refcount rh !!! Z.to_nat n - mcount n (pos_nets l).
Proof.
  induction l as [|x l IH]; intros rh Hw Hok Hc; cbn [del_iroutes_loop].
  { exists rh. split; [done|]. split; [done|]. intros n Hn. unfold mcount; cbn. lia. }
  apply Forall_cons in Hok as [Hx Hok]. unfold net_ok in Hx. unfold pos_nets in *. rewrite filter_cons in *. destruct (decide (0 <= x)) as [H0|H0].
  - destruct (helper_del_spec rh x Hw ltac:(lia)) as (rh1 & -> & Hw1 & _ & _ & Erc).
    { specialize (Hc x ltac:(lia)). rewrite mcount_cons, decide_True in Hc by done. pose proof (mcount_nonneg x (filter (fun n => 0 <= n) l)). lia. }
    cbn [mbind outcome_mbind]. destruct (IH rh1 Hw1 Hok) as (rh2 & -> & Hw2 & Hrc).
    { intros n Hn. rewrite Erc, bumped_lookup by (first [by apply helper_len|lia]). specialize (Hc n Hn). rewrite mcount_cons in Hc. destruct (decide _); lia. }
    exists rh2. split; [done|]. split; [done|]. intros n Hn. rewrite Hrc, Erc, bumped_lookup, mcount_cons by (first [by apply helper_len|lia]).
    destruct (decide _); lia.
  - unfold mroute_helper_del_iroute46. bdecide. cbn [mbind outcome_mbind]. by apply IH.
Qed.

(** ** The invariant of the server *)

(** The address of a network. *)
Definition net_key (a : mroute_addr) : bool := negb (Z.land (ma_type a) MR_WITH_NETBITS =? 0).

Definition net_wf (a : mroute_addr) : Prop :=
  mroute_wf a /\
  ((ma_type a = Z.lor MR_ADDR_IPV4 MR_WITH_NETBITS /\ ma_len a = 4 /\ 0 <= ma_netbits a <= 32) \/
   (ma_type a = Z.lor MR_ADDR_IPV6 MR_WITH_NETBITS /\ ma_len a = 16 /\ 0 <= ma_netbits a <= 128)).

(** The internal routes as the configuration admits them. *)
Definition inst_ok (i : multi_instance) : Prop :=
  Forall (fun x : Z * Z => is_u32 x.1 /\ -1 <= x.2 <= 32) (iroutes i) /\
  Forall (fun x : list Z * Z => zlen x.1 = 16 /\ Forall is_u8 x.1 /\ net_ok x.2) (iroutes_ipv6 i) /\
  (did_iroutes i = true -> dev_type_tun i = true).

(** A network in the table belongs to a client that has announced it, or is gone. *)
Definition announces (i : multi_instance) (n : Z) : Prop := halt i = true \/ (did_iroutes i = true /\ n ∈ nets i).

Record core m : Prop := {
  core_safe : safe m;
  core_nets : forall p r, route_heap m !! p = Some r -> net_key (r_addr r) = true ->
    net_wf (r_addr r) /\ exists i, inst_heap m !! r_instance r = Some i /\ announces i (ma_netbits (r_addr r));
  core_halted : forall x i, inst_heap m !! x = Some i -> halt i = true -> did_iroutes i = false;
  core_ok : forall x i, inst_heap m !! x = Some i -> inst_ok i
}.

Definition counted m : Prop :=
  forall n, 0 <= n < 129 -> net_len_refcount (route_helper m) !!! Z.to_nat n = mcount n (total (inst_heap m)).

Definition server_inv m : Prop := core m /\ counted m.

Lemma same_static i j : same_but_counts i j ->
  halt i = halt j /\ did_iroutes i = did_iroutes j /\ nets i = nets j /\ (inst_ok j -> inst_ok i) /\
  dev_type_tun i = dev_type_tun j /\ iroutes i = iroutes j /\ iroutes_ipv6 i = iroutes_ipv6 j.
Proof. intros (n & k & ->). by destruct j. Qed.

Lemma in_learned R R' nr p r : learned R R' nr -> R' !! p = Some r -> (exists q, R !! q = Some r) \/ r = nr.
Proof.
  intros (new & Hnew & [[-> _]|(old & ro & _ & _ & ->)]) Hp.
  - destruct (decide (p = new)) as [->|]; [rewrite lookup_insert_eq in Hp; right; congruence|]. rewrite lookup_insert_ne in Hp by done. left. by exists p.
  - apply lookup_delete_Some in Hp as [_ Hp]. destruct (decide (p = new)) as [->|]; [rewrite lookup_insert_eq in Hp; right; congruence|].
    rewrite lookup_insert_ne in Hp by done. left. by exists p.
Qed.

(** The parts of the invariant other than [safe], for a context whose routes are old ones
    or [ok] ones and whose instances were kept. *)
Lemma core_kept m m' :
  core m -> safe m' -> insts_kept (inst_heap m) (inst_heap m') ->
  (forall p r, route_heap m' !! p = Some r -> net_key (r_addr r) = true ->
     (exists q r0, route_heap m !! q = Some r0 /\ r_addr r = r_addr r0 /\ r_instance r = r_instance r0) \/
     (net_wf (r_addr r) /\ exists i, inst_heap m !! r_instance r = Some i /\ announces i (ma_netbits (r_addr r)))) ->
  core m' /\ announced (inst_heap m') = announced (inst_heap m).
Proof.
  intros [Hs Hn Hh Ho] Hs' Hk Hr. split; [split|by apply announced_kept].
  - done.
  - intros p r Hp Hkey.
    assert (Hold : net_wf (r_addr r) /\ exists i, inst_heap m !! r_instance r = Some i /\ announces i (ma_netbits (r_addr r))).
    { destruct (Hr p r Hp Hkey) as [(q & r0 & Hq & Ea & Ei)|H]; [|done]. rewrite Ea, Ei. apply (Hn q r0 Hq). by rewrite <- Ea. }
    destruct Hold as [Hw (i & Hi & Han)]. split; [done|]. destruct (acct_inst _ _ (safe_acct m' Hs') _ _ Hp) as [i' Hi'].
    exists i'. split; [done|]. destruct (proj1 Hk _ _ Hi') as (j & Hj & Hsame). assert (j = i) as -> by congruence.
    destruct (same_static _ _ Hsame) as (E1 & E2 & E3 & _). unfold announces. by rewrite E1, E2, E3.
  - intros x i' Hi' Eh. destruct (proj1 Hk _ _ Hi') as (j & Hj & Hsame). destruct (same_static _ _ Hsame) as (E1 & E2 & _).
    rewrite E2. apply (Hh x j Hj). congruence.
  - intros x i' Hi'. destruct (proj1 Hk _ _ Hi') as (j & Hj & Hsame). apply (same_static _ _ Hsame). by eapply Ho.
Qed.

Lemma core_learned m m' nr :
  core m -> kept_or_learned m m' nr ->
  (net_key (r_addr nr) = true -> net_wf (r_addr nr) /\
     exists i, inst_heap m !! r_instance nr = Some i /\ announces i (ma_netbits (r_addr nr))) ->
  core m' /\ announced (inst_heap m') = announced (inst_heap m).
Proof.
  intros Hc (Hs' & _ & _ & Hk & Hr) Hnr. apply core_kept; try done. intros p r Hp Hkey. destruct Hr as [[E _]|Hl].
  - left. exists p, r. by rewrite <- E.
  - destruct (in_learned _ _ _ _ _ Hl Hp) as [[q Hq]| ->]; [left; by exists q, r|right; by apply Hnr].
Qed.

Lemma core_set_helper m rh : core m -> helper_wf rh -> core (set_helper m rh).
Proof. intros [[H1 H2 H3 H4] Hn Hh Ho] Hw. split; [by split|done..]. Qed.

(** Where the addition of routes of the client [mi] leaves the context. *)
Definition added m m' (mi : Z) (l : list Z) : Prop :=
  core m' /\ insts_kept (inst_heap m) (inst_heap m') /\ announced (inst_heap m') = announced (inst_heap m) /\
  m_local m' = m_local m /\
  (forall n, 0 <= n < 129 -> net_len_refcount (route_helper m') !!! Z.to_nat n = net_len_refcount (route_helper m) !!! Z.to_nat n + mcount n (pos_nets l)) /\
  exists i i', inst_heap m !! mi = Some i /\ inst_heap m' !! mi = Some i' /\ same_but_counts i' i.

(** One internal route: the helper counts the prefix length, then the route is learned. *)
Lemma add_one_spec m mi i nb (learn : multi_context -> outcome (multi_context * option Z)) :
  core m -> inst_heap m !! mi = Some i -> halt i = false -> net_ok nb ->
  (forall m1, core m1 -> inst_heap m1 = inst_heap m -> exists m2 o nr, learn m1 = Ret (m2, o) /\ kept_or_learned m1 m2 nr /\
     (net_key (r_addr nr) = true -> net_wf (r_addr nr) /\
       exists i, inst_heap m1 !! r_instance nr = Some i /\ announces i (ma_netbits (r_addr nr)))) ->
  exists m', (rh ← mroute_helper_add_iroute46 (route_helper m) nb; '(m2, _) ← learn (set_helper m rh); Ret m2) = Ret m' /\ added m m' mi [nb].
Proof.
  intros Hc Hi Hh Hnb Hlearn. pose proof (safe_helper m (core_safe m Hc)) as Hw.
  assert (Hrh : exists rh, mroute_helper_add_iroute46 (route_helper m) nb = Ret rh /\ helper_wf rh /\
    forall n, 0 <= n < 129 -> net_len_refcount rh !!! Z.to_nat n = net_len_refcount (route_helper m) !!! Z.to_nat n + mcount n (pos_nets [nb])).
  { unfold pos_nets. rewrite filter_cons, filter_nil. destruct (decide (0 <= nb)) as [H0|H0].
    - unfold net_ok in Hnb. destruct (helper_add_spec (route_helper m) nb Hw ltac:(lia)) as (rh & -> & Hw' & _ & _ & Erc). exists rh. split; [done|]. split; [done|].
      intros n Hn. rewrite Erc, bumped_lookup, mcount_cons by (first [by apply helper_len|lia]). unfold mcount; cbn [filter length]. destruct (decide _); cbn; lia.
    - exists (route_helper m). unfold mroute_helper_add_iroute46. bdecide. split; [done|]. split; [done|]. intros n Hn. unfold mcount; cbn. lia. }
  destruct Hrh as (rh & -> & Hw' & Hrc). cbn [mbind outcome_mbind]. pose proof (core_set_helper m rh Hc Hw') as Hc1.
  destruct (Hlearn (set_helper m rh) Hc1 eq_refl) as (m2 & o & nr & -> & Hkl & Hnr). cbn [mbind outcome_mbind].
  exists m2. split; [done|]. destruct (core_learned _ _ _ Hc1 Hkl Hnr) as [Hc2 Han]. destruct Hkl as (_ & Eh & El & Hk & _).
  split; [done|]. split; [exact Hk|]. split; [exact Han|]. split; [by rewrite El|]. split; [by rewrite Eh|].
  destruct (proj2 Hk mi i Hi Hh) as [i' Hi']. exists i, i'. split; [done|]. split; [done|].
  destruct (proj1 Hk mi i' Hi') as (j & Hj & Hsame). cbn in Hj. by assert (j = i) as -> by congruence.
Qed.

Lemma init_wf : mroute_wf mroute_addr_init.
Proof. split; [reflexivity|]. apply Forall_replicate. unfold is_u8. lia. Qed.

Lemma learn4_spec now script m mi i a nb :
  core m -> inst_heap m !! mi = Some i -> is_u32 a -> -1 <= nb <= 32 -> (0 <= nb -> announces i nb) ->
  exists m' o nr, multi_learn_in_addr_t now script m mi a nb = Ret (m', o) /\ kept_or_learned m m' nr /\
    (net_key (r_addr nr) = true -> net_wf (r_addr nr) /\
       exists i, inst_heap m !! r_instance nr = Some i /\ announces i (ma_netbits (r_addr nr))).
Proof.
  intros Hc Hi Ha Hnb Han. unfold multi_learn_in_addr_t. cbn [mroute_extract_openvpn_sockaddr c_assert mbind outcome_mbind].
  destruct (host_addr_put mroute_addr_init MR_ADDR_IPV4 4 (be_bytes 4 a) init_wf (zlen_be_bytes 4 a) ltac:(lia) (be_bytes_u8 4 a)) as (Hw & Ht & _ & Hl & _).
  set (addr := mkma 4 MR_ADDR_IPV4 0 _) in *. destruct (0 <=? nb) eqn:E; breflect.
  - set (addr' := mkma _ _ _ _).
    destruct (learn_spec now script m mi i addr' 0 (core_safe m Hc) Hi) as (m' & o & nr & Hrun & N1 & N2 & N3 & Hkl).
    { split; [exact Hw|]. cbn. lia. }
    exists m', o, nr. split; [done|]. split; [done|]. intros _. rewrite N1, N2.
    assert (Hn8 : ma_netbits addr' = nb) by (apply (u8_id nb); unfold is_u8; lia). rewrite Hn8. split.
    + split; [exact Hw|]. left. rewrite Hn8. split; [done|]. split; [done|lia].
    + exists i. split; [done|]. apply Han. lia.
  - destruct (learn_spec now script m mi i addr 0 (core_safe m Hc) Hi) as (m' & o & nr & Hrun & N1 & N2 & N3 & Hkl).
    { split; [exact Hw|]. cbn. lia. }
    exists m', o, nr. split; [done|]. split; [done|]. by rewrite N1.
Qed.

Lemma learn6_spec now script m mi i a nb :
  core m -> inst_heap m !! mi = Some i -> zlen a = 16 -> Forall is_u8 a -> net_ok nb -> (0 <= nb -> announces i nb) ->
  exists m' o nr, multi_learn_in6_addr now script m mi a nb = Ret (m', o) /\ kept_or_learned m m' nr /\
    (net_key (r_addr nr) = true -> net_wf (r_addr nr) /\
       exists i, inst_heap m !! r_instance nr = Some i /\ announces i (ma_netbits (r_addr nr))).
Proof.
  intros Hc Hi Hl16 Hu Hnb Han. unfold multi_learn_in6_addr, net_ok in *.
  destruct (host_addr_put mroute_addr_init MR_ADDR_IPV6 16 a init_wf Hl16 ltac:(lia) Hu) as (Hw & Ht & _ & Hl & _).
  set (addr := mkma 16 MR_ADDR_IPV6 0 _) in *. destruct (0 <=? nb) eqn:E; breflect.
  - set (addr' := mkma 16 (Z.lor _ _) _ _). assert (Hn8 : ma_netbits addr' = nb) by (apply (u8_id nb); unfold is_u8; lia).
    destruct (mask_host_bits_spec addr') as (t & -> & Hwt & Htt & Htn & Htl & _); [exact Hw|lia|by right|]. cbn [mbind outcome_mbind].
    destruct (learn_spec now script m mi i t 0 (core_safe m Hc) Hi) as (m' & o & nr & Hrun & N1 & N2 & N3 & Hkl).
    { split; [exact Hwt|]. rewrite Htl. cbn. lia. }
    exists m', o, nr. split; [done|]. split; [done|]. intros _. rewrite N1, N2, Htn, Hn8. split.
    + split; [exact Hwt|]. right. rewrite Htt, Htl, Htn, Hn8. split; [done|]. split; [done|lia].
    + exists i. split; [done|]. apply Han. lia.
  - cbn [mbind outcome_mbind]. destruct (learn_spec now script m mi i addr 0 (core_safe m Hc) Hi) as (m' & o & nr & Hrun & N1 & N2 & N3 & Hkl).
    { split; [exact Hw|]. cbn. lia. }
    exists m', o, nr. split; [done|]. split; [done|]. by rewrite N1.
Qed.

Lemma added_trans m1 m2 m3 mi l1 l2 : added m1 m2 mi l1 -> added m2 m3 mi l2 -> added m1 m3 mi (l1 ++ l2).
Proof.
  intros (A1 & A2 & A3 & A4 & A5 & i & i' & A6 & A7 & A8) (B1 & B2 & B3 & B4 & B5 & j & j' & B6 & B7 & B8).
  split; [done|]. split; [by eapply insts_kept_trans|]. split; [congruence|]. split; [congruence|]. split.
  - intros n Hn. unfold pos_nets in *. rewrite B5, A5, filter_app, mcount_app by done. lia.
  - assert (j = i') as -> by congruence. exists i, j'. split; [done|]. split; [done|]. by eapply same_trans.
Qed.

Lemma added_refl m mi i : core m -> inst_heap m !! mi = Some i -> added m m mi [].
Proof.
  intros Hc Hi. split; [done|]. split; [apply insts_kept_refl|]. split; [done|]. split; [done|]. split.
  - intros n Hn. unfold mcount; cbn. lia.
  - exists i, i. split; [done|]. split; [done|apply same_refl].
Qed.

(** The two loops of [multi_add_iroutes], for any way of learning one route. *)
Lemma add_routes_loop_spec {A} (loop : multi_context -> list (A * Z) -> outcome multi_context)
    (learn : A -> Z -> multi_context -> outcome (multi_context * option Z)) (ok : A * Z -> Prop) mi (l : list (A * Z)) :
  (forall m, loop m [] = Ret m) ->
  (forall m a nb l, loop m ((a, nb) :: l) = rh ← mroute_helper_add_iroute46 (route_helper m) nb; '(m2, _) ← learn a nb (set_helper m rh); loop m2 l) ->
  (forall x, ok x -> net_ok x.2) ->
  (forall m i a nb, core m -> inst_heap m !! mi = Some i -> ok (a, nb) -> (0 <= nb -> announces i nb) ->
     exists m2 o nr, learn a nb m = Ret (m2, o) /\ kept_or_learned m m2 nr /\
     (net_key (r_addr nr) = true -> net_wf (r_addr nr) /\ exists i, inst_heap m !! r_instance nr = Some i /\ announces i (ma_netbits (r_addr nr)))) ->
  Forall ok l -> forall m i, core m -> inst_heap m !! mi = Some i -> halt i = false ->
  (forall x, x ∈ l -> 0 <= x.2 -> announces i x.2) ->
  exists m', loop m l = Ret m' /\ added m m' mi l.*2.
Proof.
  intros Hnil Hcons Hnok Hlearn Hok. induction Hok as [|[a nb] l Hx Hok IH]; intros m i Hc Hi Hh Han.
  { rewrite Hnil. exists m. split; [done|]. by eapply added_refl. }
  destruct (add_one_spec m mi i nb (learn a nb) Hc Hi Hh (Hnok _ Hx)) as (m1 & Hm1 & Hadd).
  { intros m1 Hc1 E. apply (Hlearn m1 i a nb Hc1); [by rewrite E|done|]. apply (Han (a, nb)). left. }
  pose proof Hadd as (Hc1 & _ & _ & _ & _ & i0 & i1 & E0 & E1 & Hsame). assert (i0 = i) as -> by congruence.
  destruct (same_static _ _ Hsame) as (S1 & S2 & S3 & _).
  destruct (IH m1 i1 Hc1 E1) as (m' & Hrun & Hadd'); [congruence| |].
  { intros x Hx' H0. unfold announces. rewrite S1, S2, S3. apply (Han x); [by right|done]. }
  exists m'. split; [|change ((a, nb) :: l).*2 with ([nb] ++ l.*2); by apply (added_trans m m1 m' mi)]. rewrite Hcons. revert Hm1.
  destruct (mroute_helper_add_iroute46 (route_helper m) nb) as [rh| |]; cbn [mbind outcome_mbind]; try done.
  destruct (learn a nb (set_helper m rh)) as [[m2 o]| |]; cbn [mbind outcome_mbind]; try done. by intros [= ->].
Qed.

Lemma added_announces m m' mi l i i' : added m m' mi l -> inst_heap m !! mi = Some i -> inst_heap m' !! mi = Some i' ->
  halt i' = halt i /\ forall n, announces i n -> announces i' n.
Proof.
  intros (_ & _ & _ & _ & _ & j & j' & E1 & E2 & Hs) Hi Hi'. assert (j = i) as -> by congruence. assert (j' = i') as -> by congruence.
  destruct (same_static _ _ Hs) as (S1 & S2 & S3 & _). split; [done|]. intros n. unfold announces. by rewrite S1, S2, S3.
Qed.

(** [mi->did_iroutes = true] *)
Lemma core_announce m mi i :
  core m -> inst_heap m !! mi = Some i -> halt i = false -> did_iroutes i = false -> dev_type_tun i = true ->
  core (set_insts m (<[mi := set_did_iroutes i true]> (inst_heap m))).
Proof.
  intros [[H1 [H2a H2b] H3 H4] Hn Hhd Ho] Hi Hh Hd Ht. set (i1 := set_did_iroutes i true). set (m1 := set_insts m _).
  assert (Hlk : forall x j, inst_heap m1 !! x = Some j -> (x = mi /\ j = i1) \/ (x <> mi /\ inst_heap m !! x = Some j)).
  { intros x j Hj. cbn in Hj. destruct (decide (x = mi)) as [->|Hne].
    - rewrite lookup_insert_eq in Hj. injection Hj as <-. by left.
    - rewrite lookup_insert_ne in Hj by done. by right. }
  split; [split; [done|split|done|done]|..].
  - intros x j Hj. destruct (Hlk x j Hj) as [[-> ->]|[_ Hj0]]; [by apply (H2a mi i Hi)|by apply H2a].
  - intros p r Hp. cbn. rewrite lookup_insert_is_Some'. right. by eapply H2b.
  - intros p r Hp Hkey. destruct (Hn p r Hp Hkey) as [Hw (j & Hj & Han)]. split; [done|]. cbn. destruct (decide (r_instance r = mi)) as [E|Hne].
    + rewrite E, lookup_insert_eq. exists i1. split; [done|]. assert (j = i) as -> by congruence. destruct Han as [Han|[Han _]]; congruence.
    + exists j. by rewrite lookup_insert_ne.
  - intros x j Hj Ej. destruct (Hlk x j Hj) as [[-> ->]|[_ Hj0]]; [cbn in Ej; congruence|by apply (Hhd x)].
  - intros x j Hj. destruct (Hlk x j Hj) as [[-> ->]|[_ Hj0]]; [|by eapply Ho]. destruct (Ho mi i Hi) as (O1 & O2 & _). by split.
Qed.

(** A client that is connected. *)
Definition connected m (mi : Z) (i : multi_instance) : Prop := inst_heap m !! mi = Some i /\ halt i = false.

Definition conn m (x : Z) : Prop := exists i, connected m x i.

(** The same clients are connected. *)
Definition conn_kept m m' : Prop := forall x, conn m x <-> conn m' x.

#[global] Instance conn_kept_equiv : Equivalence conn_kept.
Proof. split; unfold conn_kept; red; [done|intros m m' H x; by rewrite H|intros m1 m2 m3 H1 H2 x; by rewrite H1, H2]. Qed.

Lemma kept_conn m m' : insts_kept (inst_heap m) (inst_heap m') -> conn_kept m m'.
Proof.
  intros [H1 H2] x. split.
  - intros (i & Hi & Hh). destruct (H2 x i Hi Hh) as [i' Hi']. exists i'. split; [done|]. destruct (H1 x i' Hi') as (j & Hj & Hs).
    rewrite (same_halt _ _ Hs). congruence.
  - intros (i' & Hi' & Hh). destruct (H1 x i' Hi') as (j & Hj & Hs). exists j. split; [done|]. by rewrite <- (same_halt _ _ Hs).
Qed.

Lemma add_iroutes_spec now script m mi i :
  server_inv m -> inst_heap m !! mi = Some i -> halt i = false -> did_iroutes i = false ->
  exists m', multi_add_iroutes now script m mi = Ret m' /\ server_inv m' /\ m_local m' = m_local m /\ conn_kept m m'.
Proof.
  intros [Hc Hcnt] Hi Hh Hd. unfold multi_add_iroutes, get_inst. rewrite Hi. cbn [mbind outcome_mbind].
  destruct (dev_type_tun i) eqn:Et; [|by exists m; split_and!]. set (i1 := set_did_iroutes i true). set (m1 := set_insts m (<[mi := i1]> (inst_heap m))).
  destruct (core_ok m Hc mi i Hi) as (Hok4 & Hok6 & _).
  assert (Hann : announced (inst_heap m) !! mi = None) by (unfold announced; rewrite lookup_omap, Hi; cbn; by rewrite Hd).
  assert (Htot : total (inst_heap m1) ≡ₚ nets i ++ total (inst_heap m)) by (by apply total_insert).
  pose proof (core_announce m mi i Hc Hi Hh Hd Et) as Hc1.
  assert (Hi1 : inst_heap m1 !! mi = Some i1) by (cbn; apply lookup_insert_eq).
  assert (Hin : forall n, 0 <= n -> n ∈ (iroutes i).*2 ++ (iroutes_ipv6 i).*2 -> announces i1 n).
  { intros n Hn Hin. right. split; [done|]. apply list_elem_of_filter. by split. }
  destruct (add_routes_loop_spec (fun m l => add_iroutes_loop now script m mi l) (fun a nb m => multi_learn_in_addr_t now script m mi a nb)
    (fun x : Z * Z => is_u32 x.1 /\ -1 <= x.2 <= 32) mi (iroutes i)) with (m := m1) (i := i1) as (m2 & Hm2 & Hadd2); try done.
  { intros x [_ Hx]. unfold net_ok. lia. }
  { intros m0 i0 a nb Hc0 Hi0 [Hx1 Hx2] Han. by apply (learn4_spec now script m0 mi i0). }
  { intros x Hx H0. apply Hin; [done|]. apply elem_of_app. left. by apply list_elem_of_fmap_2. }
  rewrite Hm2. cbn [mbind outcome_mbind]. pose proof Hadd2 as (Hc2 & K2 & A3 & A4 & A5 & j & i2 & Ej & Hi2 & Hs2).
  destruct (added_announces _ _ _ _ _ _ Hadd2 Hi1 Hi2) as [Hh2 Han2].
  destruct (add_routes_loop_spec (fun m l => add_iroutes6_loop now script m mi l) (fun a nb m => multi_learn_in6_addr now script m mi a nb)
    (fun x : list Z * Z => zlen x.1 = 16 /\ Forall is_u8 x.1 /\ net_ok x.2) mi (iroutes_ipv6 i)) with (m := m2) (i := i2) as (m3 & Hm3 & Hadd3); try done.
  { intros x (_ & _ & Hx). done. }
  { intros m0 i0 a nb Hc0 Hi0 (Hx1 & Hx2 & Hx3) Han. by apply (learn6_spec now script m0 mi i0). }
  { by rewrite Hh2. }
  { intros x Hx H0. apply Han2, Hin; [done|]. apply elem_of_app. right. by apply list_elem_of_fmap_2. }
  exists m3. pose proof Hadd3 as (Hc3 & K3 & B3 & B4 & B5 & _). split; [exact Hm3|]. split; [split; [done|]|split; [by rewrite B4, A4|]].
  2: { transitivity m1; [|transitivity m2; by apply kept_conn]. intros x. destruct (decide (x = mi)) as [->|Hne].
    - split; [intros _; by exists i1|intros _; by exists i].
    - unfold conn, connected, m1. cbn [inst_heap set_insts]. by rewrite lookup_insert_ne. }
  intros n Hn. rewrite B5, A5 by done. change (route_helper m1) with (route_helper m). rewrite Hcnt by done.
  unfold total at 2. rewrite B3, A3. fold (total (inst_heap m1)). rewrite Htot, mcount_app. unfold nets, pos_nets. rewrite filter_app, mcount_app. lia.
Qed.

(** ** Closing a client *)

(** What [multi_close_instance] does to the routing state: [halt] is set, the prefix lengths of
    the client are taken back, and the reference of the instance itself is given up.  Its
    routes stay in the table until they are reaped. *)
Definition close_instance m (mi : Z) : outcome multi_context :=
  i ← get_inst m mi;
  _ ← c_assert (negb (halt i));
  let m := set_insts m (<[mi := set_halt i]> (inst_heap m)) in
  m ← (if did_iroutes i
       then
         m ← multi_del_iroutes m mi;
         i ← get_inst m mi;
         Ret (set_insts m (<[mi := set_did_iroutes i false]> (inst_heap m)))
       else Ret m);
  multi_instance_dec_refcount m mi.

Lemma total_close I mi i I' :
  I !! mi = Some i -> announced I' = delete mi (announced I) ->
  total I ≡ₚ (if did_iroutes i then nets i else []) ++ total I'.
Proof.
  intros Hi E. unfold total. rewrite E. assert (Ha : announced I !! mi = if did_iroutes i then Some (nets i) else None).
  { unfold announced. rewrite lookup_omap, Hi. done. }
  destruct (did_iroutes i).
  - rewrite <- (insert_delete_id _ _ _ Ha) at 1. rewrite map_to_list_insert by apply lookup_delete_eq. done.
  - by rewrite delete_id.
Qed.

(** The instance heap after closing. *)
Definition closed_insts I mi (i : multi_instance) : gmap Z multi_instance :=
  let j := set_refcount (set_did_iroutes (set_halt i) false) (refcount i - 1) in
  if refcount i - 1 <=? 0 then delete mi I else <[mi := j]> I.

Lemma closed_announced I mi i : I !! mi = Some i -> announced (closed_insts I mi i) = delete mi (announced I).
Proof.
  intros Hi. apply map_eq. intros x. unfold announced, closed_insts. rewrite lookup_omap. destruct (decide (x = mi)) as [->|Hne].
  - rewrite lookup_delete_eq. destruct (_ <=? 0); [by rewrite lookup_delete_eq|]. rewrite lookup_insert_eq. done.
  - rewrite lookup_delete_ne, lookup_omap by done. destruct (_ <=? 0); [by rewrite lookup_delete_ne|by rewrite lookup_insert_ne].
Qed.

Lemma core_closed m mi i rh :
  core m -> inst_heap m !! mi = Some i -> halt i = false -> helper_wf rh ->
  core (mkctx (vhash m) rh (m_local m) (route_heap m) (closed_insts (inst_heap m) mi i) (next_route m)).
Proof.
  intros [[H1 [H2a H2b] H3 H4] Hn Hhd Ho] Hi Hh Hrh. destruct (H2a mi i Hi) as (C1 & C2 & C3). unfold live_ref in C2. rewrite Hh in C2.
  set (j := set_refcount (set_did_iroutes (set_halt i) false) (refcount i - 1)).
  assert (Hlk : forall x y, closed_insts (inst_heap m) mi i !! x = Some y -> (x = mi /\ y = j /\ 0 < refcount i - 1) \/ (x <> mi /\ inst_heap m !! x = Some y)).
  { intros x y. unfold closed_insts. fold j. destruct (decide (x = mi)) as [->|Hne]; destruct (_ <=? 0) eqn:E; breflect.
    - by rewrite lookup_delete_eq.
    - rewrite lookup_insert_eq. intros [= <-]. left. split; [done|]. split; [done|lia].
    - rewrite lookup_delete_ne by done. by right.
    - rewrite lookup_insert_ne by done. by right. }
  assert (Hpr : forall p r, route_heap m !! p = Some r -> exists y, closed_insts (inst_heap m) mi i !! r_instance r = Some y /\
    (r_instance r = mi -> y = j) /\ (r_instance r <> mi -> inst_heap m !! r_instance r = Some y)).
  { intros p r Hp. destruct (H2b p r Hp) as [y Hy]. unfold closed_insts. fold j. destruct (decide (r_instance r = mi)) as [E|Hne].
    - pose proof (cnt_pos _ _ _ Hp) as Hpos. rewrite E in Hpos |- *. exists j.
      destruct (_ <=? 0) eqn:E0; breflect; [lia|]. by rewrite lookup_insert_eq.
    - exists y. destruct (_ <=? 0); [by rewrite lookup_delete_ne|by rewrite lookup_insert_ne]. }
  split; [split; [done|split|done|done]|..]; cbn [route_heap inst_heap].
  - intros x y Hy. destruct (Hlk x y Hy) as [(-> & -> & Hp)|[_ Hy0]]; [|by apply H2a]. unfold live_ref. cbn. lia.
  - intros p r Hp. destruct (Hpr p r Hp) as (y & Hy & _). by exists y.
  - intros p r Hp Hkey. destruct (Hn p r Hp Hkey) as [Hw (y0 & Hy0 & Han)]. split; [done|]. destruct (Hpr p r Hp) as (y & Hy & E1 & E2). exists y. split; [done|].
    destruct (decide (r_instance r = mi)) as [E|Hne]; [rewrite (E1 E); by left|]. rewrite (E2 Hne) in Hy0. injection Hy0 as ->. exact Han.
  - intros x y Hy Ey. destruct (Hlk x y Hy) as [(-> & -> & _)|[_ Hy0]]; [done|by apply (Hhd x)].
  - intros x y Hy. destruct (Hlk x y Hy) as [(-> & -> & _)|[_ Hy0]]; [|by eapply Ho]. destruct (Ho mi i Hi) as (O1 & O2 & _). by split.
Qed.

Lemma closed_conn m mi i h rh l R n x :
  inst_heap m !! mi = Some i -> conn (mkctx h rh l R (closed_insts (inst_heap m) mi i) n) x <-> conn m x /\ x <> mi.
Proof.
  intros Hi. unfold conn, connected, closed_insts. cbn [inst_heap]. destruct (decide (x = mi)) as [->|Hne].
  - split; [|tauto]. intros (j & Hj & Hh). exfalso. destruct (_ <=? 0); [by rewrite lookup_delete_eq in Hj|].
    rewrite lookup_insert_eq in Hj. injection Hj as <-. done.
  - destruct (_ <=? 0); [rewrite lookup_delete_ne by done|rewrite lookup_insert_ne by done]; naive_solver.
Qed.

Lemma close_spec m mi i :
  server_inv m -> inst_heap m !! mi = Some i -> halt i = false ->
  exists m', close_instance m mi = Ret m' /\ server_inv m' /\ m_local m' = m_local m /\
    forall x, conn m' x <-> conn m x /\ x <> mi.
Proof.
  intros [Hc Hcnt] Hi Hh. destruct (core_ok m Hc mi i Hi) as (O4 & O6 & Ot).
  pose proof (total_close (inst_heap m) mi i _ Hi (closed_announced _ mi i Hi)) as Htot.
  unfold close_instance, get_inst. rewrite Hi. cbn [mbind outcome_mbind]. rewrite Hh. cbn [negb c_assert mbind outcome_mbind].
  assert (Hdec : forall rh j, j = set_did_iroutes (set_halt i) false ->
    multi_instance_dec_refcount (mkctx (vhash m) rh (m_local m) (route_heap m) (<[mi := j]> (inst_heap m)) (next_route m)) mi =
    Ret (mkctx (vhash m) rh (m_local m) (route_heap m) (closed_insts (inst_heap m) mi i) (next_route m))).
  { intros rh j ->. unfold multi_instance_dec_refcount, get_inst. cbn [inst_heap]. rewrite lookup_insert_eq. cbn [mbind outcome_mbind].
    unfold set_insts, closed_insts. cbn [vhash route_helper m_local route_heap inst_heap next_route refcount set_did_iroutes set_halt].
    destruct (_ <=? 0); [by rewrite delete_insert_eq|by rewrite insert_insert_eq]. }
  destruct (did_iroutes i) eqn:Ed.
  - unfold multi_del_iroutes, get_inst. cbn [inst_heap set_insts]. rewrite lookup_insert_eq. cbn [mbind outcome_mbind dev_type_tun set_halt].
    rewrite (Ot eq_refl). cbn [iroutes iroutes_ipv6 set_halt]. change (route_helper (set_insts m _)) with (route_helper m).
    assert (Hpos : forall n, 0 <= n < 129 -> mcount n (pos_nets (iroutes i).*2) + mcount n (pos_nets (iroutes_ipv6 i).*2) + mcount n (total (closed_insts (inst_heap m) mi i)) =
      net_len_refcount (route_helper m) !!! Z.to_nat n).
    { intros n Hn. rewrite Hcnt, Htot by done. unfold nets, pos_nets. rewrite filter_app, !mcount_app. lia. }
    destruct (del_iroutes_spec (iroutes i).*2 (route_helper m)) as (rh1 & -> & Hw1 & Hr1).
    { apply Hc. }
    { apply Forall_fmap. eapply Forall_impl; [exact O4|]. intros x [_ Hx]. unfold net_ok. cbn. lia. }
    { intros n Hn. specialize (Hpos n Hn). pose proof (mcount_nonneg n (pos_nets (iroutes_ipv6 i).*2)). pose proof (mcount_nonneg n (total (closed_insts (inst_heap m) mi i))). lia. }
    cbn [mbind outcome_mbind]. destruct (del_iroutes_spec (iroutes_ipv6 i).*2 rh1 Hw1) as (rh2 & -> & Hw2 & Hr2).
    { apply Forall_fmap. eapply Forall_impl; [exact O6|]. by intros x (_ & _ & Hx). }
    { intros n Hn. rewrite Hr1 by done. specialize (Hpos n Hn). pose proof (mcount_nonneg n (total (closed_insts (inst_heap m) mi i))). lia. }
    cbn [mbind outcome_mbind set_helper set_insts inst_heap]. rewrite lookup_insert_eq. cbn [mbind outcome_mbind]. unfold set_insts, set_helper.
    cbn [vhash route_helper m_local route_heap inst_heap next_route]. rewrite insert_insert_eq. rewrite Hdec by done.
    eexists. split; [reflexivity|]. split; [|split; [done|intros x; by apply closed_conn]]. split; [by apply core_closed|]. intros n Hn. cbn. rewrite Hr2, Hr1 by done. specialize (Hpos n Hn). lia.
  - cbn [mbind outcome_mbind]. unfold set_insts. rewrite Hdec by (unfold set_did_iroutes, set_halt; cbn; by rewrite Ed).
    eexists. split; [reflexivity|]. split; [|split; [done|intros x; by apply closed_conn]]. split; [by apply core_closed, Hc|]. intros n Hn. cbn. rewrite Hcnt, Htot by done. done.
Qed.

(** ** Networks and prefixes *)

(** The network of a route contains the address. *)
Definition in_network (r : multi_route) (a : mroute_addr) : Prop :=
  ma_type (r_addr r) = Z.lor (ma_type a) MR_WITH_NETBITS /\
  addr_value (r_addr r) = prefix_of (addr_width a) (ma_netbits (r_addr r)) (addr_value a).

Lemma be_value_inj l1 : forall l2, zlen l1 = zlen l2 -> Forall is_u8 l1 -> Forall is_u8 l2 -> be_value l1 = be_value l2 -> l1 = l2.
Proof.
  induction l1 as [|b1 l1 IH] using rev_ind; intros l2 Hl H1 H2 E.
  - symmetry in Hl. change (zlen []) with 0 in Hl. by apply zlen_0_nil in Hl.
  - destruct l2 as [|b2 l2 _] using rev_ind; [exfalso; zlia|]. rewrite !be_value_app in E. apply Forall_app in H1 as [H1 B1], H2 as [H2 B2].
    apply Forall_cons in B1 as [B1 _], B2 as [B2 _]. unfold is_u8 in *. assert (be_value l1 = be_value l2 /\ b1 = b2) as [E1 ->] by lia.
    f_equal. apply IH; [zlia|done..].
Qed.

Lemma compare_spec a b : compare_function a b = true <->
  ma_type a = ma_type b /\ ma_netbits a = ma_netbits b /\ ma_len a = ma_len b /\
  ztake (ma_len a) (raw_addr a) = ztake (ma_len a) (raw_addr b).
Proof.
  unfold compare_function. cbn. unfold mroute_addr_compare_function, mroute_addr_equal. split.
  - destruct (ma_type a =? ma_type b) eqn:E1; cbn [negb]; [|done]. destruct (ma_netbits a =? ma_netbits b) eqn:E2; cbn [negb]; [|done].
    destruct (ma_len a =? ma_len b) eqn:E3; cbn [negb]; [|done]. intros E4. by breflect.
  - intros (-> & -> & -> & E). rewrite !Z.eqb_refl. cbn. by apply bool_decide_eq_true.
Qed.

Lemma covers_in_network r a : ip_host a -> net_key (r_addr r) = true -> net_wf (r_addr r) -> covers r a <-> in_network r a.
Proof.
  intros Ha Hkey [Hwr Hfam]. pose proof (ip_host_kind a Ha) as [Hok Hk]. destruct Ha as [Hwa Hfa]. set (nb := ma_netbits (r_addr r)).
  assert (Hnb : 0 <= nb <= 128) by (unfold nb; lia).
  destruct (mask_host_bits_spec (with_netbits a nb) Hwa Hnb) as (t & Ht & Hwt & Tt & Tn & Tl & Tv & _); [by rewrite with_netbits_kind|].
  assert (Hcov : covers r a <-> compare_function t (r_addr r) = true).
  { unfold covers. fold nb. rewrite Ht. split; [by intros (t' & [= <-] & Hc)|by exists t]. }
  rewrite Hcov, compare_spec. unfold in_network. fold nb. change (ma_type (with_netbits a nb)) with (Z.lor (ma_type a) MR_WITH_NETBITS) in Tt.
  change (ma_netbits (with_netbits a nb)) with nb in Tn. change (ma_len (with_netbits a nb)) with (ma_len a) in Tl. rewrite Tt, Tn, Tl.
  assert (Hw : forall b, ma_type b = Z.lor (ma_type a) MR_WITH_NETBITS -> addr_width b = addr_width a).
  { intros b Eb. unfold addr_width. pose proof (with_netbits_kind a 0) as E. unfold ip_kind in *. cbn in E. by rewrite Eb, E. }
  assert (Hlen : ma_len a = addr_width a / 8).
  { unfold addr_width, ip_kind. destruct Hfa as [[-> ->]|[-> ->]]; done. }
  assert (Hmv : ma_type (r_addr r) = Z.lor (ma_type a) MR_WITH_NETBITS -> masked_value (with_netbits a nb) = prefix_of (addr_width a) nb (addr_value a)).
  { intros Et. unfold masked_value. rewrite with_netbits_kind. unfold addr_value. rewrite (Hw (with_netbits a nb) eq_refl). cbn [ma_netbits with_netbits raw_addr].
    destruct (ip_kind a =? MR_ADDR_IPV4) eqn:E4; [|done]. breflect. destruct Hfam as [(_ & _ & H32)|(Et6 & _)]; [unfold nb; by bdecide|].
    exfalso. rewrite Et in Et6. unfold ip_kind in E4. destruct Hfa as [[Ea _]|[Ea _]]; [by rewrite Ea in Et6|by rewrite Ea in E4]. }
  split.
  - intros (E1 & _ & E3 & E4). split; [done|]. rewrite <- Hmv, <- Tv by done. unfold addr_value.
    rewrite (Hw (r_addr r)), (Hw t), <- Hlen by done. by rewrite E4.
  - intros [E1 E2]. split; [done|]. split; [done|]. assert (E3 : ma_len a = ma_len (r_addr r)).
    { destruct Hfa as [[Ea ->]|[Ea ->]], Hfam as [(Ef & -> & _)|(Ef & -> & _)]; try done; rewrite Ea, Ef in E1; done. }
    split; [done|]. rewrite <- Hmv, <- Tv in E2 by done. unfold addr_value in E2. rewrite (Hw (r_addr r)), (Hw t), <- Hlen in E2 by done.
    destruct Hwt as [Z1 U1], Hwr as [Z2 U2]. apply be_value_inj; [zlia|by apply Forall_take|by apply Forall_take|done].
Qed.

(** ** Histories of a server *)

Inductive server_op : Type :=
| OpCreate (mi : Z) (i : multi_instance)
| OpAddIroutes (mi : Z)
| OpLearn (mi : Z) (addr : mroute_addr) (flags : Z)
| OpLookup (addr : mroute_addr) (cidr : bool)
| OpReap (start end_ : Z)
| OpStale (ageing : Z)
| OpClose (mi : Z).

(** What the callers see to: an instance is new when it is created and connected when it is
    used; its internal routes are added once; learned addresses are host addresses. *)
Definition op_ok m (op : server_op) : Prop :=
  match op with
  | OpCreate mi i => inst_heap m !! mi = None /\ halt i = false /\ refcount i = 1 /\ route_count i = 0 /\
      did_iroutes i = false /\ inst_ok i
  | OpAddIroutes mi => exists i, connected m mi i /\ did_iroutes i = false
  | OpLearn mi addr _ => (exists i, connected m mi i) /\ addr_ok addr /\ net_key addr = false
  | OpLookup addr _ => ip_host addr
  | OpReap start end_ => start < 0 \/ (0 <= start <= n_buckets (vhash m) /\ start <= end_)
  | OpStale _ => True
  | OpClose mi => exists i, connected m mi i
  end.

Definition server_exec (now : Z) (script : option Z -> learn_op -> mroute_addr -> bool) m (op : server_op) : outcome multi_context :=
  match op with
  | OpCreate mi i => Ret (set_insts m (<[mi := i]> (inst_heap m)))
  | OpAddIroutes mi => multi_add_iroutes now script m mi
  | OpLearn mi addr flags => '(m, _) ← multi_learn_addr now script m mi addr flags; Ret m
  | OpLookup addr cidr => '(m, _) ← multi_get_instance_by_virtual_addr now script m addr cidr; Ret m
  | OpReap start end_ => multi_reap_range now m start end_
  | OpStale ageing => check_stale_routes now ageing m
  | OpClose mi => close_instance m mi
  end.

Inductive server_step : multi_context -> multi_context -> Prop :=
| server_step_op now script m op m' : op_ok m op -> server_exec now script m op = Ret m' -> server_step m m'.

(** A server that has just started, with [n] buckets. *)
Definition server_start (n iv ttl : Z) (local : mroute_addr) : outcome multi_context :=
  h ← hash_init n iv;
  Ret (mkctx h (mroute_helper_init ttl) local ∅ ∅ 1).

Lemma counted_kept m m' :
  counted m -> announced (inst_heap m') = announced (inst_heap m) -> route_helper m' = route_helper m -> counted m'.
Proof. intros Hc Ha Hh n Hn. rewrite Hh, Hc by done. unfold total. by rewrite Ha. Qed.

Lemma create_inv m mi i :
  server_inv m -> op_ok m (OpCreate mi i) -> server_inv (set_insts m (<[mi := i]> (inst_heap m))).
Proof.
  intros [[[H1 [H2a H2b] H3 H4] Hn Hhd Ho] Hcnt] (Hnone & Hh & Hr & Hrc & Hd & Hok).
  assert (H0 : cnt (route_heap m) mi = 0).
  { unfold cnt. assert (E : filter (fun pr : Z * multi_route => r_instance pr.2 = mi) (route_heap m) = ∅); [|by rewrite E].
    apply map_empty. intros p. apply map_lookup_filter_None_2. right. intros r Hp E. cbn in E. destruct (H2b p r Hp) as [j Hj]. congruence. }
  assert (Hlk : forall x j, <[mi := i]> (inst_heap m) !! x = Some j -> (x = mi /\ j = i) \/ (x <> mi /\ inst_heap m !! x = Some j)).
  { intros x j Hj. destruct (decide (x = mi)) as [->|Hne]; [rewrite lookup_insert_eq in Hj; left; split; congruence|]. rewrite lookup_insert_ne in Hj by done. by right. }
  assert (Hann : announced (<[mi := i]> (inst_heap m)) = announced (inst_heap m)).
  { apply map_eq. intros x. unfold announced. rewrite !lookup_omap. destruct (decide (x = mi)) as [->|Hne].
    - rewrite lookup_insert_eq, Hnone. cbn. by rewrite Hd.
    - by rewrite lookup_insert_ne. }
  split; [split; [split; [done|split|done|done]|..]|]; cbn [route_heap inst_heap set_insts].
  - intros x j Hj. destruct (Hlk x j Hj) as [[-> ->]|[_ Hj0]]; [|by apply H2a]. unfold live_ref. rewrite Hh, H0. lia.
  - intros p r Hp. rewrite lookup_insert_is_Some'. right. by eapply H2b.
  - intros p r Hp Hkey. destruct (Hn p r Hp Hkey) as [Hw (j & Hj & Han)]. split; [done|]. exists j. split; [|done].
    rewrite lookup_insert_ne; [done|]. intros E. congruence.
  - intros x j Hj Ej. destruct (Hlk x j Hj) as [[-> ->]|[_ Hj0]]; [congruence|by apply (Hhd x)].
  - intros x j Hj. destruct (Hlk x j Hj) as [[-> ->]|[_ Hj0]]; [done|by eapply Ho].
  - by apply (counted_kept m).
Qed.

Lemma sweep_inv now m g body start end_ :
  picks now body g -> server_inv m -> 0 <= start -> start <= Z.min end_ (n_buckets (vhash m)) ->
  exists m', sweep_vhash body m start end_ = Ret m' /\ server_inv m' /\ m_local m' = m_local m /\ conn_kept m m'.
Proof.
  intros Hb [Hc Hcnt] H0 H1. destruct (sweep_vhash_spec now m g body start end_ Hb (core_safe m Hc) H0 H1) as (m' & Hrun & Hs' & Eh & El & Hk & Hsub).
  exists m'. split; [done|]. split; [|split; [done|by apply kept_conn]]. destruct (core_kept m m' Hc Hs' Hk) as [Hc' Han].
  - intros p r Hp _. left. exists p, r. split; [by eapply lookup_weaken|done].
  - split; [done|]. by eapply counted_kept.
Qed.

Lemma host_not_net a : ip_host a -> net_key a = false.
Proof. intros [_ [[E _]|[E _]]]; unfold net_key; by rewrite E. Qed.

Lemma lookup_inv now script m a cidr :
  server_inv m -> ip_host a -> mroute_addr_equal a (m_local m) = false ->
  exists m' ret, multi_get_instance_by_virtual_addr now script m a cidr = Ret (m', ret) /\ server_inv m' /\ m_local m' = m_local m /\
    conn_kept m m' /\ lookup_answer now m a cidr ret.
Proof.
  intros [Hc Hcnt] Ha Hl. destruct (get_instance_spec now script m a cidr (core_safe m Hc) Ha Hl) as (m' & ret & Hrun & Hs' & Eh & El & Hk & Haft & Hans).
  exists m', ret. split; [done|]. split; [|split; [done|split; [by apply kept_conn|done]]].
  assert (Hc' : core m' /\ announced (inst_heap m') = announced (inst_heap m)).
  { destruct Haft as [(p & r & Hp & HR & _)|(nr & E & _ & Hkl)].
    - apply core_kept; try done. intros q r' Hq _. left. rewrite HR in Hq. destruct (decide (q = p)) as [->|Hne].
      + rewrite lookup_insert_eq in Hq. injection Hq as <-. by exists p, r.
      + rewrite lookup_insert_ne in Hq by done. by exists q, r'.
    - apply (core_learned m m' nr Hc Hkl). rewrite E, (host_not_net a Ha). done. }
  destruct Hc' as [Hc' Han]. split; [done|]. by eapply counted_kept.
Qed.

Lemma server_exec_inv now script m op :
  server_inv m -> op_ok m op -> exists m', server_exec now script m op = Ret m' /\ server_inv m' /\ m_local m' = m_local m /\
    match op with
    | OpCreate mi _ => forall x, conn m' x <-> conn m x \/ x = mi
    | OpClose mi => forall x, conn m' x <-> conn m x /\ x <> mi
    | _ => conn_kept m m'
    end.
Proof.
  intros Hinv Hop. pose proof Hinv as [Hc Hcnt].
  destruct (wf_size _ (proj1 (safe_table m (core_safe m Hc)))) as (j & Hj & Hnb).
  assert (0 < n_buckets (vhash m)) by (rewrite Hnb; apply Z.pow_pos_nonneg; lia).
  destruct op as [mi i|mi|mi addr flags|addr cidr|start end_|ageing|mi]; cbn [server_exec].
  - eexists. split; [reflexivity|]. split; [by apply create_inv|]. split; [done|]. destruct Hop as (Hnone & Hh & _). intros x.
    unfold conn, connected. cbn [inst_heap set_insts]. destruct (decide (x = mi)) as [->|Hne]; [rewrite lookup_insert_eq|rewrite lookup_insert_ne by done]; naive_solver.
  - destruct Hop as (i & [Hi Hh] & Hd). by eapply add_iroutes_spec.
  - destruct Hop as ((i & Hi & Hh) & Ha & Hk). destruct (learn_spec now script m mi i addr flags (core_safe m Hc) Hi Ha) as (m' & o & nr & -> & N1 & N2 & N3 & Hkl).
    cbn [mbind outcome_mbind]. exists m'. split; [done|]. destruct (core_learned m m' nr Hc Hkl) as [Hc' Han]; [by rewrite N1, Hk|].
    pose proof Hkl as (_ & Eh & El & Hk' & _). split; [|split; [done|by apply kept_conn]]. split; [done|]. by eapply counted_kept.
  - destruct (mroute_addr_equal addr (m_local m)) eqn:El.
    + unfold multi_get_instance_by_virtual_addr. rewrite El. cbn [mbind outcome_mbind]. by exists m; split_and!.
    + destruct (lookup_inv now script m addr cidr Hinv Hop El) as (m' & ret & -> & Hi & Hl & Hk & _). cbn [mbind outcome_mbind]. by exists m'.
  - unfold multi_reap_range. destruct (start <? 0) eqn:E; breflect.
    + apply (sweep_inv now m _ _ _ _ (reap_picks now)); [done|lia|lia].
    + destruct Hop as [|[]]; [lia|]. apply (sweep_inv now m _ _ _ _ (reap_picks now)); [done|lia|lia].
  - apply (sweep_inv now m _ _ _ _ (stale_picks now ageing)); [done|lia|lia].
  - destruct Hop as (i & Hi & Hh). by eapply close_spec.
Qed.

Lemma server_start_inv n iv ttl local m :
  0 < n <= 2 ^ 30 -> server_start n iv ttl local = Ret m -> server_inv m.
Proof.
  intros Hn. unfold server_start. destruct (hash_init_spec (K := mroute_addr) (V := Z) n iv Hn) as (h & -> & Hr). cbn [mbind outcome_mbind]. intros [= <-].
  assert (Hu : used_lens 129 (replicate 129 0) = []).
  { destruct (used_lens 129 (replicate 129 0)) as [|x l] eqn:E; [done|]. exfalso.
    assert (Hx : x ∈ used_lens 129 (replicate 129 0)) by (rewrite E; left).
    apply elem_of_used_lens in Hx as [Hx1 Hx2]. rewrite lookup_total_replicate_2 in Hx2 by lia. lia. }
  split; [split; [split|..]|]; cbn [vhash route_heap inst_heap next_route route_helper].
  - done.
  - split; [intros x i; by rewrite lookup_empty|intros p r; by rewrite lookup_empty].
  - intros p [r Hp]. by rewrite lookup_empty in Hp.
  - unfold helper_wf. cbn [net_len net_len_refcount n_net_len mroute_helper_init]. rewrite Hu. do 2 (split; [done|]). split; [|done]. apply Forall_replicate. lia.
  - intros p r Hp. by rewrite lookup_empty in Hp.
  - intros x i Hi. by rewrite lookup_empty in Hi.
  - intros x i Hi. by rewrite lookup_empty in Hi.
  - intros k Hk. cbn [route_helper net_len_refcount mroute_helper_init inst_heap]. unfold total, announced. rewrite omap_empty, map_to_list_empty.
    rewrite lookup_total_replicate_2 by lia. done.
Qed.

Lemma server_reachable_inv n iv ttl local m0 m :
  0 < n <= 2 ^ 30 -> server_start n iv ttl local = Ret m0 -> rtc server_step m0 m -> server_inv m /\ m_local m = local.
Proof.
  intros Hn Hs Hr. assert (H0 : server_inv m0 /\ m_local m0 = local).
  { split; [by eapply server_start_inv|]. revert Hs. unfold server_start. destruct (hash_init n iv) as [h| |]; cbn [mbind outcome_mbind]; [|done..]. by intros [= <-]. }
  clear Hs. induction Hr as [|x y z Hxy _ IH]; [done|]. apply IH. destruct Hxy as [now script x op y Hop He]. destruct H0 as [Hi Hl].
  destruct (server_exec_inv now script x op Hi Hop) as (m' & He' & Hi' & Hl' & _). rewrite He in He'. injection He' as <-. split; [done|congruence].
Qed.

(** C22: no dangling pointers.  In every state a server can reach, whatever clients connect,
    announce networks, are learned, looked up, aged and closed, and whatever the
    learn-address script answers: every operation returns (no freed route or instance is used,
    no assertion fails, no array is left); the table holds exactly the allocated
    routes; and the counts of every instance are those of its routes, plus one reference
    while the client is connected. *)
Theorem server_routes_never_dangle (n iv ttl : Z) (local : mroute_addr) (m0 m : multi_context)
    (now : Z) (script : option Z -> learn_op -> mroute_addr -> bool) (op : server_op) :
  0 < n <= 2 ^ 30 -> server_start n iv ttl local = Ret m0 -> rtc server_step m0 m -> op_ok m op ->
  (exists m', server_exec now script m op = Ret m') /\
  pairs (concat (buckets (vhash m))) ≡ₚ entries (route_heap m) /\
  (forall p r, route_heap m !! p = Some r -> is_Some (inst_heap m !! r_instance r)) /\
  (forall x i, inst_heap m !! x = Some i -> route_count i = cnt (route_heap m) x /\ refcount i = live_ref i + cnt (route_heap m) x).
Proof.
  intros Hn Hs Hr Hop. destruct (server_reachable_inv _ _ _ _ _ _ Hn Hs Hr) as [Hinv _].
  destruct (server_exec_inv now script m op Hinv Hop) as (m' & He & _). destruct Hinv as [Hc _]. destruct (core_safe m Hc) as [[_ Hp] [Ha1 Ha2] _ _].
  split; [by exists m'|]. split; [done|]. split; [exact Ha2|]. intros x i Hi. destruct (Ha1 x i Hi) as (E1 & E2 & _). by split.
Qed.

(** Masking keeps the type of the address. *)
Lemma mask_host_bits_type a t : mroute_addr_mask_host_bits a = Ret t -> ma_type t = ma_type a.
Proof.
  unfold mroute_addr_mask_host_bits. destruct (_ =? MR_ADDR_IPV4).
  - destruct (load (raw_addr a) 0 4); cbn [mbind outcome_mbind]; by intros [= <-].
  - destruct (_ =? MR_ADDR_IPV6); [|done]. destruct (load (raw_addr a) 0 16) as [l| |]; cbn [mbind outcome_mbind]; [|done..].
    destruct (mask_ipv6_loop 17 l 15 (128 - ma_netbits a)) as [[l' b]| |]; cbn [mbind outcome_mbind]; [|done..].
    destruct (c_assert (b =? 0)); cbn [mbind outcome_mbind]; by intros [= <-].
Qed.

(** The owner of an address: the client of a live route for the address itself, or else that
    of the live route with the longest prefix that holds it. *)
Definition owner now m (a : mroute_addr) (ret : option Z) : Prop :=
  (exists r, live now m r /\ mroute_addr_equal a (r_addr r) = true /\ ret = Some (r_instance r)) \/
  ((forall r, live now m r -> mroute_addr_equal a (r_addr r) = false) /\
   match ret with
   | Some mi => exists r, live now m r /\ in_network r a /\ r_instance r = mi /\
       forall r', live now m r' -> in_network r' a -> ma_netbits (r_addr r') <= ma_netbits (r_addr r)
   | None => forall r', live now m r' -> ~ in_network r' a
   end).

Lemma lookup_owner now script m a :
  server_inv m -> ip_host a -> mroute_addr_equal a (m_local m) = false ->
  exists m' ret, multi_get_instance_by_virtual_addr now script m a true = Ret (m', ret) /\ server_inv m' /\ m_local m' = m_local m /\
    conn_kept m m' /\ owner now m a ret.
Proof.
  intros Hinv Ha Hloc.
  destruct (lookup_inv now script m a true Hinv Ha Hloc) as (m' & ret & Hrun & Hinv' & Hlocal' & Hkept & Hans). exists m', ret. do 4 (split; [done|]).
  destruct Hans as [Hhost|[Hno Hnet]]; [by left|right]. split; [exact Hno|]. destruct Hinv as [Hc Hcnt].
  assert (Hkey : forall r, in_network r a -> net_key (r_addr r) = true).
  { intros r [E _]. unfold net_key. rewrite E. destruct Ha as [_ [[-> _]|[-> _]]]; done. }
  assert (Hin : forall r, live now m r -> in_network r a -> covers r a /\ 0 <= ma_netbits (r_addr r) < 129 /\
    0 < net_len_refcount (route_helper m) !!! Z.to_nat (ma_netbits (r_addr r))).
  { intros r (p & i & Hp & Hi & Hl) Hnw. destruct (core_nets m Hc p r Hp (Hkey r Hnw)) as [Hwf (j & Hj & Han)]. assert (j = i) as -> by congruence.
    assert (Hb : 0 <= ma_netbits (r_addr r) < 129) by (destruct Hwf as [_ [(_ & _ & ?)|(_ & _ & ?)]]; lia).
    split; [by apply covers_in_network; [| apply Hkey|..]|]. split; [done|]. rewrite Hcnt by done. apply mcount_elem.
    destruct Han as [Hh|[Hd Hn']]; [unfold route_live in Hl; by rewrite Hh in Hl|]. unfold total. apply list_elem_of_In, in_concat.
    exists (nets i). split; [|by apply list_elem_of_In]. apply list_elem_of_In, list_elem_of_fmap. exists (r_instance r, nets i). split; [done|].
    apply elem_of_map_to_list. unfold announced. rewrite lookup_omap, Hi. cbn. by rewrite Hd. }
  destruct ret as [mi|].
  - destruct Hnet as (_ & r & Hl & Hcov & Hmi & Hmax). exists r. split; [done|]. split; [|split; [done|]].
    + pose proof Hl as (p & i & Hp & _). assert (Hk : net_key (r_addr r) = true).
      { destruct Hcov as (t & Ht & Hcmp). apply compare_spec in Hcmp as [Et _]. unfold net_key. rewrite <- Et.
        apply mask_host_bits_type in Ht. rewrite Ht. destruct Ha as [_ [[Ea _]|[Ea _]]]; unfold with_netbits; cbn [ma_type]; by rewrite Ea. }
      destruct (core_nets m Hc p r Hp Hk) as [Hwf _]. by apply covers_in_network.
    + intros r' Hl' Hnw. destruct (Hin r' Hl' Hnw) as (H1 & H2 & H3). by apply Hmax.
  - intros r' Hl' Hnw. destruct (Hin r' Hl' Hnw) as (H1 & H2 & H3). specialize (Hnet eq_refl r' Hl' H1 H2). lia.
Qed.

(** C23: longest prefix first.  In every state a server can reach, the lookup of a host
    address that is not the server's own returns the client of a defined route for the
    address itself if there is one, and otherwise the client of the defined route
    with the longest prefix among all those whose network contains the address; it
    returns no client only if there is no such route. *)
Theorem lookup_finds_longest_prefix (n iv ttl : Z) (local : mroute_addr) (m0 m : multi_context)
    (now : Z) (script : option Z -> learn_op -> mroute_addr -> bool) (a : mroute_addr) :
  0 < n <= 2 ^ 30 -> server_start n iv ttl local = Ret m0 -> rtc server_step m0 m ->
  ip_host a -> mroute_addr_equal a local = false ->
  exists m' ret, multi_get_instance_by_virtual_addr now script m a true = Ret (m', ret) /\
    ((exists r, live now m r /\ mroute_addr_equal a (r_addr r) = true /\ ret = Some (r_instance r)) \/
     ((forall r, live now m r -> mroute_addr_equal a (r_addr r) = false) /\
      match ret with
      | Some mi => exists r, live now m r /\ in_network r a /\ r_instance r = mi /\
          forall r', live now m r' -> in_network r' a -> ma_netbits (r_addr r') <= ma_netbits (r_addr r)
      | None => forall r', live now m r' -> ~ in_network r' a
      end)).
Proof.
  intros Hn Hs Hr Ha Hloc. destruct (server_reachable_inv _ _ _ _ _ _ Hn Hs Hr) as [Hinv El]. rewrite <- El in Hloc.
  destruct (lookup_owner now script m a Hinv Ha Hloc) as (m' & ret & Hrun & _ & _ & _ & Hown). by exists m', ret.
Qed.

(** ** A concrete run

    A server of 4 buckets; client 100 connects with the internal route 10.8.0.0/16 and
    announces it. *)

Definition result_or (d : multi_context) (o : outcome multi_context) : multi_context :=
  match o with Ret m => m | _ => d end.

Definition demo_void : multi_context := mkctx (mkhash 0 0 0 0 [] 0) (mroute_helper_init 60) mroute_addr_init ∅ ∅ 1.
Definition demo_client : multi_instance := mkinst false 1 0 8 true [(0x0A080000, 16)] [] false.
Definition demo_script (mi : option Z) (op : learn_op) (a : mroute_addr) : bool := true.
Definition demo_host : mroute_addr := mkma 4 MR_ADDR_IPV4 0 ([10; 8; 3; 4] ++ replicate 16 0).

Definition demo0 : multi_context := result_or demo_void (server_start 4 0 60 mroute_addr_init).
Definition demo1 : multi_context := result_or demo_void (server_exec 1000 demo_script demo0 (OpCreate 100 demo_client)).
Definition demo2 : multi_context := result_or demo_void (server_exec 1000 demo_script demo1 (OpAddIroutes 100)).

Lemma demo_start : server_start 4 0 60 mroute_addr_init = Ret demo0.
Proof. vm_compute. reflexivity. Qed.

Lemma demo_run : rtc server_step demo0 demo2.
Proof.
  apply (rtc_l _ _ demo1); [|apply rtc_once].
  - apply (server_step_op 1000 demo_script _ (OpCreate 100 demo_client)); [|vm_compute; reflexivity].
    split; [by vm_compute|]. do 4 (split; [done|]). split; [|split; [constructor|done]]. repeat constructor; unfold is_u32; cbn [fst snd]; lia.
  - apply (server_step_op 1000 demo_script _ (OpAddIroutes 100)); [|vm_compute; reflexivity].
    exists demo_client. split; [split|]; by vm_compute.
Qed.

Lemma server_routes_never_dangle_witness :
  (exists m', server_exec 1001 demo_script demo2 (OpClose 100) = Ret m') /\
  (forall p r, route_heap demo2 !! p = Some r -> is_Some (inst_heap demo2 !! r_instance r)).
Proof.
  destruct (server_routes_never_dangle 4 0 60 mroute_addr_init demo0 demo2 1001 demo_script (OpClose 100)) as (H1 & _ & H2 & _).
  - lia.
  - exact demo_start.
  - exact demo_run.
  - exists (mkinst false 2 1 8 true [(0x0A080000, 16)] [] true). split; vm_compute; reflexivity.
  - by split.
Defined.

Lemma lookup_finds_longest_prefix_witness :
  exists m', multi_get_instance_by_virtual_addr 1001 demo_script demo2 demo_host true = Ret (m', Some 100) /\
    ((exists r, live 1001 demo2 r /\ mroute_addr_equal demo_host (r_addr r) = true) \/ exists r, live 1001 demo2 r /\ in_network r demo_host).
Proof.
  destruct (lookup_finds_longest_prefix 4 0 60 mroute_addr_init demo0 demo2 1001 demo_script demo_host) as (m' & ret & Hrun & Hans).
  - lia.
  - exact demo_start.
  - exact demo_run.
  - split; [split; [by vm_compute|]|left; by vm_compute].
    cbn [demo_host raw_addr app replicate]. repeat (apply Forall_cons_2; [unfold is_u8; lia|]). apply Forall_nil_2.
  - by vm_compute.
  - assert (ret = Some 100) as ->.
    { assert (E : (match multi_get_instance_by_virtual_addr 1001 demo_script demo2 demo_host true with Ret (_, r) => r | _ => None end) = Some 100)
        by (vm_compute; reflexivity). by rewrite Hrun in E. }
    exists m'. split; [exact Hrun|]. destruct Hans as [(r & Hl & He & _)|[_ (r & Hl & Hn & _)]]; [left|right]; (exists r; split; assumption).
Defined.
