(* ===== verification/Otime.v ===== *)
(** * Clock, intervals and timers ([otime.h], [otime.c], [interval.h], [interval.c], [shaper.c])

    The cached clock with its protection against jumps of the system time, arithmetic on
    [struct timeval], the timers of the event loop and the limiter of new connections.
    [time_t] and the members of [struct timeval] are 64 bits wide and are not wrapped;
    where the code stores a difference in an [int] the conversion is written out. *)
From S2P Require Import Prelude Integer.

(** [struct timeval] *)
Record timeval : Type := mktv { tv_sec : Z; tv_usec : Z }.

#[export] Instance timeval_eq_dec : EqDecision timeval.
Proof. solve_decision. Defined.

(** ** The clock: the globals [now], [now_adj] and [now_usec] *)

Record clock : Type := mkclock { now : Z; now_adj : Z; now_usec : Z }.

Definition clock_init : clock := mkclock 0 0 0.

Definition update_now (c : clock) (system_time : Z) : clock :=
  let forward_threshold := 86400 in
  let backward_trigger := 10 in
  let real_time := system_time + now_adj c in
  if now c <? real_time
  then
    let overshoot := real_time - now c - 1 in
    if (forward_threshold <? overshoot) && (overshoot <=? now_adj c)
    then mkclock (real_time - overshoot) (now_adj c - overshoot) (now_usec c)
    else mkclock real_time (now_adj c) (now_usec c)
  else if real_time <? now c - backward_trigger
  then mkclock (now c) (now_adj c + (now c - real_time)) (now_usec c)
  else c.

Definition update_now_usec (c : clock) (tv : timeval) : clock :=
  let last := now c in
  let c := update_now c (tv_sec tv) in
  if (last <? now c) || ((now c =? last) && (now_usec c <? tv_usec tv))
  then mkclock (now c) (now_adj c) (tv_usec tv)
  else c.

(** [gettimeofday] yields [sys], or fails ([None]); the time returned is the clock's. *)
Definition openvpn_gettimeofday (c : clock) (sys : option timeval) : clock * option timeval :=
  match sys with
  | Some tv => let c := update_now_usec c tv in (c, Some (mktv (now c) (now_usec c)))
  | None => (c, None)
  end.

(** [time (NULL)] yields [system_time]. *)
Definition update_time (c : clock) (system_time : Z) : clock := update_now c system_time.

Definition openvpn_time (c : clock) (system_time : Z) : clock * Z :=
  let c := update_time c system_time in (c, now c).

(** ** Time values *)

Definition tv_clear : timeval := mktv 0 0.

Definition tv_defined (tv : timeval) : bool := (0 <? tv_sec tv) && (0 <? tv_usec tv).

(** [tv1 - tv2] in microseconds, constrained by [max_seconds] *)
Definition tv_subtract (tv1 tv2 : timeval) (max_seconds : Z) : Z :=
  let max_usec := i32 (u32 (max_seconds * 1000000)) in
  let sec_diff := i32 (tv_sec tv1 - tv_sec tv2) in
  if i32 max_seconds + 10 <? sec_diff then max_usec
  else if sec_diff <? - (i32 max_seconds + 10) then - max_usec
  else constrain_int (i32 (i32 (sec_diff * 1000000) + (tv_usec tv1 - tv_usec tv2))) (- max_usec) max_usec.

Definition tv_add (dest src : timeval) : timeval :=
  let sec := tv_sec dest + tv_sec src in
  let usec := tv_usec dest + tv_usec src in
  let sec := sec + Z.shiftr usec 20 in
  let usec := Z.land usec 0x000FFFFF in
  if 1000000 <=? usec then mktv (sec + 1) (usec - 1000000) else mktv sec usec.

Definition tv_lt (t1 t2 : timeval) : bool :=
  if tv_sec t1 <? tv_sec t2 then true
  else if tv_sec t2 <? tv_sec t1 then false
  else tv_usec t1 <? tv_usec t2.

Definition tv_le (t1 t2 : timeval) : bool :=
  if tv_sec t1 <? tv_sec t2 then true
  else if tv_sec t2 <? tv_sec t1 then false
  else tv_usec t1 <=? tv_usec t2.

Definition tv_ge (t1 t2 : timeval) : bool :=
  if tv_sec t2 <? tv_sec t1 then true
  else if tv_sec t1 <? tv_sec t2 then false
  else tv_usec t2 <=? tv_usec t1.

Definition tv_gt (t1 t2 : timeval) : bool :=
  if tv_sec t2 <? tv_sec t1 then true
  else if tv_sec t1 <? tv_sec t2 then false
  else tv_usec t2 <? tv_usec t1.

Definition tv_eq (t1 t2 : timeval) : bool :=
  (tv_sec t1 =? tv_sec t2) && (tv_usec t1 =? tv_usec t2).

(** [while (usec < 0)] of [tv_delta], with fuel. *)
Fixpoint tv_delta_loop (fuel : nat) (sec usec : Z) : outcome (Z * Z) :=
  if usec <? 0
  then match fuel with
       | O => Oob
       | S fuel => tv_delta_loop fuel (sec - 1) (usec + 1000000)
       end
  else Ret (sec, usec).

Definition tv_delta (t1 t2 : timeval) : outcome timeval :=
  let sec := i32 (tv_sec t2 - tv_sec t1) in
  let usec := i32 (tv_usec t2 - tv_usec t1) in
  '(sec, usec) ← tv_delta_loop 2148 sec usec;
  Ret (if sec <? 0 then mktv 0 0 else mktv sec usec).

Definition TV_WITHIN_SIGMA_MAX_SEC : Z := 600.
Definition TV_WITHIN_SIGMA_MAX_USEC : Z := TV_WITHIN_SIGMA_MAX_SEC * 1000000.

Definition tv_within_sigma (t1 t2 : timeval) (sigma : Z) : bool :=
  let delta := tv_subtract t1 t2 TV_WITHIN_SIGMA_MAX_SEC in
  (- i32 sigma <=? delta) && (delta <=? i32 sigma).

Definition interval_earliest_wakeup (wakeup at_ current : Z) : Z :=
  if current <? at_
  then
    let delta := i32 (at_ - current) in
    let wakeup := if delta <? wakeup then delta else wakeup in
    if wakeup <? 0 then 0 else wakeup
  else wakeup.

(** ** Limit on the frequency of events *)

Record frequency_limit : Type := mkfl { fl_max : Z; fl_per : Z; fl_n : Z; fl_reset : Z }.

Definition frequency_limit_init (max per : Z) : outcome frequency_limit :=
  _ ← c_assert ((0 <=? max) && (0 <=? per));
  Ret (mkfl max per 0 0).

Definition frequency_limit_event_allowed (now : Z) (f : frequency_limit) : frequency_limit * bool :=
  if negb (fl_per f =? 0)
  then
    let f := if fl_reset f + fl_per f <=? now then mkfl (fl_max f) (fl_per f) 0 now else f in
    let f := mkfl (fl_max f) (fl_per f) (fl_n f + 1) (fl_reset f) in
    (f, fl_n f <=? fl_max f)
  else (f, true).

(** ** Intervals *)

Record interval : Type := mkiv {
  refresh : Z; horizon : Z; future_trigger : Z; last_action : Z; last_test_true : Z
}.

Definition interval_init (horizon refresh : Z) : interval := mkiv refresh horizon 0 0 0.

Definition interval_test (now : Z) (top : interval) : interval * bool :=
  let trigger := negb (future_trigger top =? 0) && (future_trigger top <=? now) in
  let top := if trigger then mkiv (refresh top) (horizon top) 0 (last_action top) (last_test_true top) else top in
  if (now <? last_action top + horizon top) || (last_test_true top + refresh top <=? now) || trigger
  then (mkiv (refresh top) (horizon top) (future_trigger top) (last_action top) now, true)
  else (top, false).

Definition interval_schedule_wakeup (now : Z) (top : interval) (wakeup : Z) : Z :=
  let wakeup := interval_earliest_wakeup wakeup (last_test_true top + refresh top) now in
  interval_earliest_wakeup wakeup (future_trigger top) now.

Definition interval_future_trigger (now : Z) (top : interval) (wakeup : Z) : interval :=
  if negb (wakeup =? 0)
  then mkiv (refresh top) (horizon top) (now + wakeup) (last_action top) (last_test_true top)
  else top.

Definition interval_action (now : Z) (top : interval) : interval :=
  mkiv (refresh top) (horizon top) (future_trigger top) now (last_test_true top).

(** ** Recurring timers *)

Record event_timeout : Type := mket { et_defined : bool; et_n : Z; et_last : Z }.

Definition event_timeout_defined (et : event_timeout) : bool := et_defined et.

Definition event_timeout_clear : event_timeout := mket false 0 0.

Definition event_timeout_init (n local_now : Z) : event_timeout := mket true (if 0 <=? n then n else 0) local_now.

Definition event_timeout_reset (now : Z) (et : event_timeout) : event_timeout :=
  if et_defined et then mket true (et_n et) now else et.

Definition event_timeout_modify_wakeup (et : event_timeout) (n : Z) : event_timeout :=
  if et_defined et then mket true (if 0 <=? n then n else 0) (et_last et) else et.

Definition event_timeout_remaining (now : Z) (et : event_timeout) : Z := i32 (et_last et - now + et_n et).

Definition ETT_DEFAULT : Z := -1.

(** The timer, the wait time [*tv] ([None] for a null pointer) and the result. *)
Definition event_timeout_trigger (now : Z) (et : event_timeout) (tv : option timeval) (et_const_retry : Z)
  : event_timeout * option timeval * bool :=
  let local_now := now in
  if et_defined et
  then
    let wakeup := et_last et - local_now + et_n et in
    let '(et, wakeup, ret) :=
      if wakeup <=? 0
      then if et_const_retry <? 0 then (mket true (et_n et) local_now, et_n et, true) else (et, et_const_retry, false)
      else (et, wakeup, false) in
    let tv := match tv with
              | Some t => Some (if wakeup <? tv_sec t then mktv wakeup 0 else t)
              | None => None
              end in
    (et, tv, ret)
  else (et, tv, false).

(** ** Microsecond timers *)

Definition USEC_TIMER_MAX : Z := 60.

Record usec_timer : Type := mkut { ut_start : timeval; ut_end : timeval }.

Definition usec_timer_interval_defined (obj : usec_timer) : bool :=
  negb (tv_sec (ut_start obj) =? 0) && negb (tv_sec (ut_end obj) =? 0).

Definition usec_timer_interval (obj : usec_timer) : Z := tv_subtract (ut_end obj) (ut_start obj) USEC_TIMER_MAX.

(** ** The wake-up of the traffic shaper *)

Definition SHAPER_MAX_TIMEOUT : Z := 10.

Definition shaper_soonest_event (tv : timeval) (delay : Z) : timeval * bool :=
  if delay <? 1000000
  then
    if negb (tv_sec tv =? 0) then (mktv 0 delay, true)
    else if delay <? tv_usec tv then (mktv (tv_sec tv) delay, true)
    else (tv, false)
  else
    let sec := Z.quot delay 1000000 in
    let usec := Z.rem delay 1000000 in
    if sec <? tv_sec tv then (mktv sec usec, true)
    else if sec =? tv_sec tv
    then if usec <? tv_usec tv then (mktv (tv_sec tv) usec, true) else (tv, false)
    else (tv, false).

(** [wakeup] is the member of [struct shaper]; [sys] what [gettimeofday] yields. *)
Definition shaper_delay (c : clock) (wakeup : timeval) (sys : option timeval) : outcome (clock * Z) :=
  '(c, delay) ← (if tv_defined wakeup
                 then match openvpn_gettimeofday c sys with
                      | (c, Some tv) => Ret (c, tv_subtract wakeup tv SHAPER_MAX_TIMEOUT)
                      | (_, None) => Fatal
                      end
                 else Ret (c, 0));
  Ret (c, if 0 <? delay then delay else 0).
