(* ===== verification/OtimeSpec.v ===== *)
(** * The clock never runs backwards, and timers fire when they are due *)
From stdpp Require Import sorting.
From S2P Require Import Prelude Integer Otime.

(** ** The clock *)

(** The readings of the system clock, by [time] and by [gettimeofday] (which may fail). *)
Inductive reading : Type :=
| ReadTime (t : Z)
| ReadTimeOfDay (tv : option timeval).

Definition read_clock (c : clock) (r : reading) : clock :=
  match r with
  | ReadTime t => update_time c t
  | ReadTimeOfDay tv => (openvpn_gettimeofday c tv).1
  end.

(** The time the program sees. *)
Definition clock_time (c : clock) : timeval := mktv (now c) (now_usec c).

Fixpoint clock_times (c : clock) (rs : list reading) : list timeval :=
  match rs with
  | [] => [clock_time c]
  | r :: rs => clock_time c :: clock_times (read_clock c r) rs
  end.

Lemma update_now_cases c t :
  let c' := update_now c t in
  now_usec c' = now_usec c /\ now c <= now c' /\ now c' - 10 <= t + now_adj c' <= now c' /\ (0 <= now_adj c -> 0 <= now_adj c').
Proof. cbn zeta. unfold update_now. bcase; cbn [now now_adj now_usec]; lia. Qed.

Lemma update_usec_cases c tv :
  let c' := update_now_usec c tv in
  tv_le (clock_time c) (clock_time c') = true /\ now_adj c' = now_adj (update_now c (tv_sec tv)) /\ now c' = now (update_now c (tv_sec tv)).
Proof.
  cbn zeta. unfold update_now_usec. pose proof (update_now_cases c (tv_sec tv)) as (H1 & H2 & _). unfold tv_le, clock_time.
  destruct ((now c <? now (update_now c (tv_sec tv))) || ((now (update_now c (tv_sec tv)) =? now c) && (now_usec (update_now c (tv_sec tv)) <? tv_usec tv))) eqn:E;
    cbn [tv_sec tv_usec now now_usec now_adj]; (split; [|done]); bcase; try done; try lia; destruct E as [E|E]; breflect; lia.
Qed.

Lemma tv_le_trans t1 t2 t3 : tv_le t1 t2 = true -> tv_le t2 t3 = true -> tv_le t1 t3 = true.
Proof. unfold tv_le. bcase; intros; breflect; try done; lia. Qed.

Lemma read_clock_le c r : tv_le (clock_time c) (clock_time (read_clock c r)) = true.
Proof.
  destruct r as [t|[tv|]]; cbn [read_clock openvpn_gettimeofday fst].
  - unfold update_time. pose proof (update_now_cases c t) as (H1 & H2 & _). unfold tv_le, clock_time. cbn [tv_sec tv_usec]. rewrite H1. bcase; try done; lia.
  - apply update_usec_cases.
  - unfold tv_le. rewrite Z.ltb_irrefl. lia.
Qed.

Lemma clock_times_from c rs : forall t, tv_le t (clock_time c) = true -> Forall (fun t' => tv_le t t' = true) (clock_times c rs).
Proof.
  revert c. induction rs as [|r rs IH]; intros c t Ht; cbn [clock_times]; [by repeat constructor|]. constructor; [done|]. apply IH.
  eapply tv_le_trans; [done|]. apply read_clock_le.
Qed.

(** The program's clock.  Whatever the system clock does (jumps back, jumps forward,
    fails), the times that the program sees never decrease.  And after any reading [t] the
    clock keeps pace with the system clock: while that advances, by at most a day
    between two readings, the program's clock advances by no more, and by no less but for
    10 seconds. *)
Theorem clock_never_runs_backwards (c : clock) (rs : list reading) :
  StronglySorted (fun t1 t2 => tv_le t1 t2 = true) (clock_times c rs) /\
  forall t t', t <= t' <= t + 86400 ->
    now (update_now c t) + (t' - t) - 10 <= now (update_now (update_now c t) t') <= now (update_now c t) + (t' - t).
Proof.
  split.
  - revert c. induction rs as [|r rs IH]; intros c; cbn [clock_times]; constructor; [constructor|constructor|apply IH|].
    apply clock_times_from, read_clock_le.
  - intros t t' Ht. pose proof (update_now_cases c t) as (_ & _ & H & _). set (c1 := update_now c t) in *. unfold update_now.
    bcase; cbn [now now_adj]; lia.
Qed.

(** ** Timers *)

(** a recurring timer.  A timer set for every [n] seconds fires at a test exactly if it
    is defined, is tested with the default retry and [n] seconds have passed since it last
    fired; firing rearms it, so that it fires [n] seconds later and not before; a test
    that does not fire leaves it alone.  The wait time [tv] is only shortened, and
    never beyond the moment the timer is due (or beyond the retry time, if that is given).
    With a retry time the test never answers true, though the timer is due. *)
Theorem event_timeout_fires_when_due (now retry : Z) (et : event_timeout) (tv : timeval) :
  0 <= et_n et ->
  let '(et', tv', fired) := event_timeout_trigger now et (Some tv) retry in
  (fired = true <-> et_defined et = true /\ retry < 0 /\ et_last et + et_n et <= now) /\
  (fired = false -> et' = et) /\
  (fired = true -> forall later tv2, (event_timeout_trigger later et' tv2 retry).2 = true <-> now + et_n et <= later) /\
  (tv' = Some tv \/ exists w, tv' = Some (mktv w 0) /\ w < tv_sec tv /\
     w = (if et_last et + et_n et <=? now then if retry <? 0 then et_n et else retry else et_last et + et_n et - now)) /\
  (et_defined et = true -> 0 < et_last et + et_n et - now -> exists t, tv' = Some t /\ tv_sec t <= et_last et + et_n et - now).
Proof.
  intros Hn. unfold event_timeout_trigger. destruct et as [d n last]. cbn [et_defined et_n et_last] in *. destruct d.
  - destruct (last - now + n <=? 0) eqn:Ew; [destruct (retry <? 0) eqn:Er|]; breflect; destruct (_ <? tv_sec tv) eqn:Et; breflect; cbn [et_defined et_n et_last].
    all: split; [naive_solver lia|]; split; [done|]; split; [intros ?; try done; intros later tv2|].
    1, 3: destruct (now + n <=? later) eqn:El; breflect; [rewrite (proj2 (Z.leb_le _ _)) by lia|rewrite (proj2 (Z.leb_gt _ _)) by lia]; cbn; split; try done; lia.
    all: split; [|intros _ ?; eexists; split; [done|]; cbn [tv_sec]; lia].
    1, 3, 5: right; eexists; split; [done|]; split; [done|]; bcase; lia.
    all: by left.
  - split; [naive_solver|]. split; [done|]. split; [done|]. split; [by left|done].
Qed.

(** A ping timer of 10 seconds, last fired at 100. *)
Lemma event_timeout_fires_when_due_witness :
  let '(et', tv', fired) := event_timeout_trigger 110 (event_timeout_init 10 100) (Some (mktv 30 5)) ETT_DEFAULT in
  fired = true /\ tv' = Some (mktv 10 0) /\
  (forall later tv2, (event_timeout_trigger later et' tv2 ETT_DEFAULT).2 = true <-> 110 + 10 <= later).
Proof.
  pose proof (event_timeout_fires_when_due 110 ETT_DEFAULT (event_timeout_init 10 100) (mktv 30 5) ltac:(cbn; lia)) as H.
  cbn in H |- *. destruct H as (_ & _ & H & _). split; [done|]. split; [done|]. by apply H.
Defined.

(** ** Sums of times *)

(** Microseconds of a time. *)
Definition usecs (t : timeval) : Z := tv_sec t * 1000000 + tv_usec t.

(** [tv_add] carries the microseconds in units of [2 ^ 20] instead of 1000000: the result is
    normalised, but each carry loses 48576 microseconds. *)
Theorem tv_add_loses_time (dest src : timeval) :
  0 <= tv_usec dest < 1000000 -> 0 <= tv_usec src <= SHAPER_MAX_TIMEOUT * 1000000 ->
  usecs (tv_add dest src) = usecs dest + usecs src - 48576 * ((tv_usec dest + tv_usec src) / 2 ^ 20) /\
  0 <= tv_usec (tv_add dest src) < 1000000.
Proof.
  intros Hd Hs. unfold tv_add, usecs. rewrite Z.shiftr_div_pow2 by lia. change 0x000FFFFF with (Z.ones 20). rewrite Z.land_ones by lia.
  change (2 ^ 20) with 1048576. destruct (1000000 <=? (tv_usec dest + tv_usec src) mod 1048576) eqn:E; breflect; cbn [tv_sec tv_usec];
    pose proof (Z.div_mod (tv_usec dest + tv_usec src) 1048576 ltac:(lia)); pose proof (Z.mod_pos_bound (tv_usec dest + tv_usec src) 1048576 ltac:(lia)); lia.
Qed.
