(* ===== verification/Schedule.v ===== *)
(** * The schedule of wake-up times ([schedule.c], [schedule.h])

    A server keeps the wake-up times of its clients in a treap: a binary search tree on
    (time, priority) that is a heap on random priorities.  Nodes are linked by pointers
    with a back pointer to the parent.  Here the nodes are the values of a heap [mem]
    indexed by address; [None] is the null pointer, and a dereference of an address that is
    not allocated is [Oob].  [random ()] is the parameter [rnd]: its [k]-th call yields
    [rnd k], and the state counts the calls. *)
From S2P Require Import Prelude Integer Otime.
From stdpp Require Import gmap.
#[local] Open Scope Z_scope.

(** [struct schedule_entry] *)
Record schedule_entry : Type := mkse {
  se_tv : timeval;
  pri : Z;
  parent : option Z;
  lt : option Z;
  gt : option Z
}.

(** [struct schedule], the heap it points into and the calls of [random] so far. *)
Record schedule : Type := mksched {
  earliest_wakeup : option Z;
  root : option Z;
  mem : gmap Z schedule_entry;
  calls : nat
}.

Definition set_mem (s : schedule) (m : gmap Z schedule_entry) : schedule := mksched (earliest_wakeup s) (root s) m (calls s).
Definition set_root (s : schedule) (r : option Z) : schedule := mksched (earliest_wakeup s) r (mem s) (calls s).
Definition set_earliest (s : schedule) (e : option Z) : schedule := mksched e (root s) (mem s) (calls s).

Definition set_tv (t : timeval) (e : schedule_entry) : schedule_entry := mkse t (pri e) (parent e) (lt e) (gt e).
Definition set_pri (p : Z) (e : schedule_entry) : schedule_entry := mkse (se_tv e) p (parent e) (lt e) (gt e).
Definition set_parent (q : option Z) (e : schedule_entry) : schedule_entry := mkse (se_tv e) (pri e) q (lt e) (gt e).
Definition set_lt (q : option Z) (e : schedule_entry) : schedule_entry := mkse (se_tv e) (pri e) (parent e) q (gt e).
Definition set_gt (q : option Z) (e : schedule_entry) : schedule_entry := mkse (se_tv e) (pri e) (parent e) (lt e) q.

(** Reading a node, and writing a member of it. *)
Definition get (s : schedule) (p : Z) : outcome schedule_entry :=
  match mem s !! p with Some e => Ret e | None => Oob end.
Definition upd (s : schedule) (p : Z) (f : schedule_entry -> schedule_entry) : outcome schedule :=
  match mem s !! p with Some e => Ret (set_mem s (<[p := f e]> (mem s))) | None => Oob end.
Definition upd_opt (s : schedule) (p : option Z) (f : schedule_entry -> schedule_entry) : outcome schedule :=
  match p with Some p => upd s p f | None => Ret s end.

Definition IN_TREE (e : schedule_entry) : bool := negb (pri e =? 0).

Definition schedule_init : schedule := mksched None None ∅ 0.

(** ** Keys *)

Definition schedule_entry_compare (e1 e2 : schedule_entry) : Z :=
  if tv_sec (se_tv e1) <? tv_sec (se_tv e2) then -1
  else if tv_sec (se_tv e2) <? tv_sec (se_tv e1) then 1
  else if tv_usec (se_tv e1) <? tv_usec (se_tv e2) then -1
  else if tv_usec (se_tv e2) <? tv_usec (se_tv e1) then 1
  else if pri e1 <? pri e2 then -1
  else if pri e2 <? pri e1 then 1
  else 0.

(** ** Links *)

Definition schedule_detach_parent (s : schedule) (e : option Z) : outcome schedule :=
  match e with
  | None => Ret s
  | Some x =>
      n ← get s x;
      match parent n with
      | Some p =>
          pn ← get s p;
          s ← (if bool_decide (lt pn = Some x) then upd s p (set_lt None)
               else if bool_decide (gt pn = Some x) then upd s p (set_gt None)
               else Fatal);
          upd s x (set_parent None)
      | None => Ret (if bool_decide (root s = Some x) then set_root s None else s)
      end
  end.

Definition schedule_rotate_up (s : schedule) (e : option Z) : outcome schedule :=
  match e with
  | None => Ret s
  | Some x =>
      n ← get s x;
      match parent n with
      | None => Ret s
      | Some p =>
          let lt_ := lt n in
          let gt_ := gt n in
          pn ← get s p;
          let gp := parent pn in
          s ← match gp with
              | Some g =>
                  gn ← get s g;
                  if bool_decide (gt gn = Some p) then upd s g (set_gt (Some x))
                  else if bool_decide (lt gn = Some p) then upd s g (set_lt (Some x))
                  else Fatal
              | None => Ret (set_root s (Some x))
              end;
          s ← upd s x (set_parent gp);
          s ← upd s p (set_parent (Some x));
          pn ← get s p;
          if bool_decide (gt pn = Some x)
          then
            s ← upd s x (set_lt (Some p));
            s ← upd s p (set_gt lt_);
            upd_opt s lt_ (set_parent (Some p))
          else if bool_decide (lt pn = Some x)
          then
            s ← upd s x (set_gt (Some p));
            s ← upd s p (set_lt gt_);
            upd_opt s gt_ (set_parent (Some p))
          else Fatal
      end
  end.

(** ** Removal *)

(** [while (e->lt || e->gt)], with fuel. *)
Fixpoint remove_loop (fuel : nat) (s : schedule) (x : Z) : outcome schedule :=
  n ← get s x;
  match lt n, gt n with
  | None, None => Ret s
  | _, _ =>
      match fuel with
      | O => Oob
      | S fuel =>
          s ← match lt n, gt n with
              | Some l, Some g =>
                  ln ← get s l;
                  gn ← get s g;
                  if pri ln <? pri gn then schedule_rotate_up s (Some l) else schedule_rotate_up s (Some g)
              | Some l, None => schedule_rotate_up s (Some l)
              | None, g => schedule_rotate_up s g
              end;
          remove_loop fuel s x
      end
  end.

(** Every rotation moves the node one level down, so the number of nodes bounds the loop. *)
Definition schedule_remove_node (s : schedule) (x : Z) : outcome schedule :=
  s ← remove_loop (size (mem s)) s x;
  s ← schedule_detach_parent s (Some x);
  upd s x (set_pri 0).

(** ** Insertion *)

Section Random.
Variable rnd : nat -> Z.

Definition schedule_set_pri (s : schedule) (x : Z) : outcome schedule :=
  s ← upd s x (set_pri (u32 (rnd (calls s))));
  let s := mksched (earliest_wakeup s) (root s) (mem s) (S (calls s)) in
  n ← get s x;
  if pri n <? 1 then upd s x (set_pri 1) else Ret s.

(** [while (true)] of [schedule_insert], with fuel; [c] is never null at a comparison of a
    non-empty tree. *)
Fixpoint schedule_insert_loop (fuel : nat) (s : schedule) (x : Z) (c : option Z) : outcome schedule :=
  match fuel, c with
  | S fuel, Some c =>
      n ← get s x;
      cn ← get s c;
      let comp := schedule_entry_compare n cn in
      if comp =? -1
      then match lt cn with
           | Some l => schedule_insert_loop fuel s x (Some l)
           | None => s ← upd s c (set_lt (Some x)); upd s x (set_parent (Some c))
           end
      else if comp =? 1
      then match gt cn with
           | Some g => schedule_insert_loop fuel s x (Some g)
           | None => s ← upd s c (set_gt (Some x)); upd s x (set_parent (Some c))
           end
      else
        s ← schedule_set_pri s x;
        schedule_insert_loop fuel s x (root s)
  | _, _ => Oob
  end.

Definition schedule_insert (fuel : nat) (s : schedule) (x : Z) : outcome schedule :=
  schedule_insert_loop fuel s x (root s).

(** [while (e->parent && e->parent->pri > e->pri)], with fuel. *)
Fixpoint rise_loop (fuel : nat) (s : schedule) (x : Z) : outcome schedule :=
  n ← get s x;
  match parent n with
  | Some p =>
      pn ← get s p;
      if pri n <? pri pn
      then match fuel with
           | O => Oob
           | S fuel => s ← schedule_rotate_up s (Some x); rise_loop fuel s x
           end
      else Ret s
  | None => Ret s
  end.

Definition schedule_add_modify (fuel : nat) (s : schedule) (x : Z) : outcome schedule :=
  n ← get s x;
  s ← (if IN_TREE n then schedule_remove_node s x else Ret s);
  s ← schedule_set_pri s x;
  s ← match root s with
      | Some _ => schedule_insert fuel s x
      | None => Ret (set_root s (Some x))
      end;
  rise_loop (size (mem s)) s x.

(** [while (e->lt)], with fuel. *)
Fixpoint find_least_loop (fuel : nat) (s : schedule) (x : Z) : outcome Z :=
  n ← get s x;
  match lt n with
  | Some l => match fuel with O => Oob | S fuel => find_least_loop fuel s l end
  | None => Ret x
  end.

Definition schedule_find_least (s : schedule) (e : option Z) : outcome (option Z) :=
  match e with
  | Some x => y ← find_least_loop (size (mem s)) s x; Ret (Some y)
  | None => Ret None
  end.

(** ** The interface of [schedule.h] *)

Definition schedule_remove_entry (s : schedule) (x : Z) : outcome schedule :=
  schedule_remove_node (set_earliest s None) x.

Definition schedule_add_entry (fuel : nat) (s : schedule) (x : Z) (tv : timeval) (sigma : Z) : outcome schedule :=
  n ← get s x;
  if negb (IN_TREE n) || (sigma =? 0) || negb (tv_within_sigma tv (se_tv n) sigma)
  then
    s ← upd s x (set_tv tv);
    s ← schedule_add_modify fuel s x;
    Ret (set_earliest s None)
  else Ret s.

(** The entry and its time. *)
Definition schedule_get_earliest_wakeup (s : schedule) : outcome (schedule * option (Z * timeval)) :=
  s ← match earliest_wakeup s with
      | Some _ => Ret s
      | None => e ← schedule_find_least s (root s); Ret (set_earliest s e)
      end;
  match earliest_wakeup s with
  | Some x => n ← get s x; Ret (s, Some (x, se_tv n))
  | None => Ret (s, None)
  end.

End Random.
