(* ===== verification/ScheduleSpec.v ===== *)
(** * The schedule refines a map from entries to wake-up times

    The linked nodes of a schedule represent a binary tree ([shape]); rotations, insertion
    and removal are proved against trees with a context (the path from the root), and the
    operations of [schedule.h] against an abstract map from entries to times. *)
From stdpp Require Import gmap sorting.
From S2P Require Import Prelude Integer Otime Schedule.
#[local] Open Scope Z_scope.

(** ** Trees and contexts *)

Inductive tree : Type :=
| Leaf
| Node (l : tree) (x : Z) (r : tree).

(** The addresses in order. *)
Fixpoint elems (t : tree) : list Z :=
  match t with
  | Leaf => []
  | Node l x r => elems l ++ x :: elems r
  end.

Inductive frame : Type :=
| InLt (x : Z) (r : tree)
| InGt (l : tree) (x : Z).

(** The path from a subtree to the root, innermost first. *)
Fixpoint plug (c : list frame) (t : tree) : tree :=
  match c with
  | [] => t
  | InLt x r :: c => plug c (Node t x r)
  | InGt l x :: c => plug c (Node l x t)
  end.

Fixpoint before (c : list frame) : list Z :=
  match c with
  | [] => []
  | InLt _ _ :: c => before c
  | InGt l x :: c => before c ++ elems l ++ [x]
  end.

Fixpoint after (c : list frame) : list Z :=
  match c with
  | [] => []
  | InLt x r :: c => x :: elems r ++ after c
  | InGt _ _ :: c => after c
  end.

Lemma elems_plug c : forall t, elems (plug c t) = before c ++ elems t ++ after c.
Proof.
  induction c as [|[x r|l x] c IH]; intros t; cbn [plug before after]; [by rewrite app_nil_r|..]; rewrite IH; cbn [elems];
    by rewrite <- ?app_assoc.
Qed.

(** ** Representation *)

(** The pointer [p] with parent [par] points to the tree [t]. *)
Fixpoint repr (m : gmap Z schedule_entry) (par p : option Z) (t : tree) : Prop :=
  match t with
  | Leaf => p = None
  | Node l x r => p = Some x /\ exists e, m !! x = Some e /\ parent e = par /\
      repr m (Some x) (lt e) l /\ repr m (Some x) (gt e) r
  end.

(** The context [c] of the tree rooted at [rt] has the pointer [p] with parent [par] in its hole. *)
Fixpoint reprc (m : gmap Z schedule_entry) (c : list frame) (par p rt : option Z) : Prop :=
  match c with
  | [] => par = None /\ p = rt
  | InLt x r :: c => par = Some x /\ exists e, m !! x = Some e /\ lt e = p /\ repr m (Some x) (gt e) r /\ reprc m c (parent e) (Some x) rt
  | InGt l x :: c => par = Some x /\ exists e, m !! x = Some e /\ gt e = p /\ repr m (Some x) (lt e) l /\ reprc m c (parent e) (Some x) rt
  end.

Lemma repr_plug m c : forall t rt, repr m None rt (plug c t) <-> exists par p, reprc m c par p rt /\ repr m par p t.
Proof.
  induction c as [|[x r|l x] c IH]; intros t rt; cbn [plug reprc].
  - split; [intros H; by exists None, rt|]. intros (? & ? & [-> ->] & H). done.
  - rewrite IH. cbn [repr]. split.
    + intros (par & p & Hc & -> & e & He & <- & Hl & Hr). exists (Some x), (lt e). split; [|done]. split; [done|]. by exists e.
    + intros (? & ? & (-> & e & He & <- & Hr & Hc) & Hl). exists (parent e), (Some x). split; [done|]. split; [done|]. by exists e.
  - rewrite IH. cbn [repr]. split.
    + intros (par & p & Hc & -> & e & He & <- & Hl & Hr). exists (Some x), (gt e). split; [|done]. split; [done|]. by exists e.
    + intros (? & ? & (-> & e & He & <- & Hr & Hc) & Hl). exists (parent e), (Some x). split; [done|]. split; [done|]. by exists e.
Qed.

(** The addresses of a context. *)
Definition celems (c : list frame) : list Z := before c ++ after c.

Lemma repr_agree m m' t : forall par p, (forall x, x ∈ elems t -> m' !! x = m !! x) -> repr m par p t -> repr m' par p t.
Proof.
  induction t as [|l IHl x r IHr]; intros par p Ha; cbn [repr]; [done|]. intros (-> & e & He & Hp & Hl & Hr). split; [done|].
  exists e. cbn [elems] in Ha. rewrite Ha by set_solver. split; [done|]. split; [done|]. split; [apply IHl|apply IHr]; try done; intros y Hy; apply Ha; set_solver.
Qed.

Lemma reprc_agree m m' c : forall par p rt, (forall x, x ∈ celems c -> m' !! x = m !! x) -> reprc m c par p rt -> reprc m' c par p rt.
Proof.
  unfold celems. induction c as [|[x r|l x] c IH]; intros par p rt Ha; cbn [reprc]; [done|..]; cbn [before after] in Ha.
  all: intros (-> & e & He & Hp & Hl & Hr); split; [done|]; exists e; rewrite Ha by set_solver; do 2 (split; [done|]); split;
    [eapply repr_agree; [|done]; intros y Hy; apply Ha; set_solver|apply IH; [|done]; intros y Hy; apply Ha; set_solver].
Qed.

(** The pointer to a tree is its root. *)
Lemma repr_root m par p t x : repr m par p t -> p = Some x -> x ∈ elems t.
Proof. destruct t as [|l y r]; cbn; [congruence|]. intros (-> & _) [= ->]. set_solver. Qed.

(** A tree below another parent. *)
Definition reparent (q p : option Z) (m : gmap Z schedule_entry) : gmap Z schedule_entry :=
  match p with Some x => alter (set_parent q) x m | None => m end.

Lemma repr_reparent m par q p t : NoDup (elems t) -> repr m par p t -> repr (reparent q p m) q p t.
Proof.
  destruct t as [|l x r]; cbn [repr elems]; [by intros _ ->|]. intros Hn (-> & e & He & _ & Hl & Hr). split; [done|]. cbn [reparent].
  exists (set_parent q e). rewrite lookup_alter_eq, He. split; [done|]. split; [done|].
  apply NoDup_app in Hn as (_ & Hxl & [Hxr _]%NoDup_cons).
  split; (eapply repr_agree; [|done]); intros y Hy; apply lookup_alter_ne; intros ->; [by apply (Hxl y Hy), list_elem_of_here|done].
Qed.

(** ** Writes *)

(** The members that the links do not touch. *)
Definition dat (e : schedule_entry) : timeval * Z := (se_tv e, pri e).
Definition data (s : schedule) : gmap Z (timeval * Z) := dat <$> mem s.

Lemma get_Some s p e : mem s !! p = Some e -> get s p = Ret e.
Proof. unfold get. by intros ->. Qed.

Lemma upd_Some s p f e : mem s !! p = Some e -> upd s p f = Ret (set_mem s (alter f p (mem s))).
Proof.
  unfold upd. intros H. rewrite H. do 2 f_equal. apply map_eq. intros q. destruct (decide (p = q)) as [<-|Hne].
  - by rewrite lookup_insert_eq, lookup_alter_eq, H.
  - by rewrite lookup_insert_ne, lookup_alter_ne.
Qed.

Lemma dat_alter f (p : Z) (m : gmap Z schedule_entry) : (forall e, dat (f e) = dat e) -> dat <$> alter f p m = dat <$> m.
Proof.
  intros Hf. apply map_eq. intros q. rewrite !lookup_fmap. destruct (decide (p = q)) as [<-|Hne].
  - rewrite lookup_alter_eq. destruct (m !! p); cbn; [|done]. by rewrite Hf.
  - by rewrite lookup_alter_ne.
Qed.

Lemma dat_reparent q p (m : gmap Z schedule_entry) : dat <$> reparent q p m = dat <$> m.
Proof. destruct p; [by apply dat_alter|done]. Qed.

Lemma upd_opt_reparent s par p t q :
  repr (mem s) par p t -> upd_opt s p (set_parent q) = Ret (set_mem s (reparent q p (mem s))).
Proof.
  destruct t as [|l x r]; cbn [repr]; [intros ->; by destruct s|]. intros (-> & e & He & _). cbn [upd_opt reparent]. by eapply upd_Some.
Qed.

(** The schedule represents the tree, whose nodes are distinct. *)
Definition shape (s : schedule) (t : tree) : Prop := repr (mem s) None (root s) t /\ NoDup (elems t).

(** Only links of nodes of the tree change. *)
Definition relinked (xs : list Z) (s s' : schedule) : Prop :=
  data s' = data s /\ earliest_wakeup s' = earliest_wakeup s /\ calls s' = calls s /\
  forall y, y ∉ xs -> mem s' !! y = mem s !! y.

Lemma relinked_refl xs s : relinked xs s s.
Proof. done. Qed.

Lemma relinked_trans xs s1 s2 s3 : relinked xs s1 s2 -> relinked xs s2 s3 -> relinked xs s1 s3.
Proof.
  intros (D1 & E1 & C1 & M1) (D2 & E2 & C2 & M2). unfold relinked. rewrite D2, E2, C2. do 3 (split; [done|]).
  intros y Hy. by rewrite M2, M1.
Qed.

Lemma relinked_mono xs ys s s' : (forall y, y ∈ xs -> y ∈ ys) -> relinked xs s s' -> relinked ys s s'.
Proof. intros Hs (H1 & H2 & H3 & H4). do 3 (split; [done|]). intros y Hy. apply H4. intros ?. by apply Hy, Hs. Qed.

(** Lookups in a heap with some links changed. *)
Ltac links :=
  repeat match goal with
  | |- context [alter ?f ?k ?m !! ?k] => rewrite (lookup_alter_eq f m k)
  | |- context [alter ?f ?k ?m !! ?k'] => rewrite (lookup_alter_ne f m k k') by (intros ?; subst; set_solver)
  end.

(** ** Rotation *)

(** The first part of a rotation: the child link of the parent [gp] of [p] goes to [x]. *)
Definition relink (s : schedule) (gp : option Z) (p x : Z) : outcome schedule :=
  match gp with
  | Some g =>
      gn ← get s g;
      if bool_decide (gt gn = Some p) then upd s g (set_gt (Some x))
      else if bool_decide (lt gn = Some p) then upd s g (set_lt (Some x))
      else Fatal
  | None => Ret (set_root s (Some x))
  end.

Lemma relink_spec s c gp p x :
  reprc (mem s) c gp (Some p) (root s) -> NoDup (celems c) -> p ∉ celems c ->
  exists s', relink s gp p x = Ret s' /\ reprc (mem s') c gp (Some x) (root s') /\ relinked (celems c) s s'.
Proof.
  unfold celems. destruct c as [|[g r|l g] c]; cbn [reprc before after].
  - intros (-> & _) _ _. exists (set_root s (Some x)). done.
  - intros (-> & gn & Hg & Hlt & Hr & Hc) Hn Hp. cbn [relink]. rewrite (get_Some _ _ _ Hg). cbn [mbind outcome_mbind].
    rewrite bool_decide_false by (intros E; apply (repr_root _ _ _ _ _ Hr) in E; set_solver). rewrite bool_decide_true by done.
    rewrite (upd_Some _ _ _ _ Hg). eexists. split; [done|]. cbn [mem root set_mem]. apply NoDup_app in Hn as (H1 & H2 & [H3 H4]%NoDup_cons).
    split; [|split; [by apply dat_alter|]; split; [done|]; split; [done|]; intros y Hy; cbn [mem set_mem]; by links].
    split; [done|]. exists (set_lt (Some x) gn). links. rewrite Hg. split; [done|]. split; [done|]. cbn [gt parent set_lt].
    split; [eapply repr_agree; [|done]|eapply reprc_agree; [|done]]; unfold celems; intros y Hy; links; done.
  - intros (-> & gn & Hg & Hgt & Hr & Hc) Hn Hp. cbn [relink]. rewrite (get_Some _ _ _ Hg). cbn [mbind outcome_mbind].
    rewrite bool_decide_true by done. rewrite (upd_Some _ _ _ _ Hg). eexists. split; [done|]. cbn [mem root set_mem].
    rewrite <- !app_assoc in Hn. apply NoDup_app in Hn as (H1 & H2 & (H3 & H4 & [H5 H6]%NoDup_cons)%NoDup_app).
    split; [|split; [by apply dat_alter|]; split; [done|]; split; [done|]; intros y Hy; cbn [mem set_mem]; by links].
    split; [done|]. exists (set_gt (Some x) gn). links. rewrite Hg. split; [done|]. split; [done|]. cbn [lt parent set_gt].
    split; [eapply repr_agree; [|done]|eapply reprc_agree; [|done]]; unfold celems; intros y Hy; links; done.
Qed.

(** The rest of the rotation. *)
Definition turn (s : schedule) (gp : option Z) (p x : Z) (lt_ gt_ : option Z) : outcome schedule :=
  s ← upd s x (set_parent gp);
  s ← upd s p (set_parent (Some x));
  pn ← get s p;
  if bool_decide (gt pn = Some x)
  then
    s ← upd s x (set_lt (Some p));
    s ← upd s p (set_gt lt_);
    upd_opt s lt_ (set_parent (Some p))
  else if bool_decide (lt pn = Some x)
  then
    s ← upd s x (set_gt (Some p));
    s ← upd s p (set_lt gt_);
    upd_opt s gt_ (set_parent (Some p))
  else Fatal.

Lemma rotate_up_eq s x n p pn :
  mem s !! x = Some n -> parent n = Some p -> mem s !! p = Some pn ->
  schedule_rotate_up s (Some x) = (s ← relink s (parent pn) p x; turn s (parent pn) p x (lt n) (gt n)).
Proof. intros Hx Hp Hpn. unfold schedule_rotate_up. rewrite (get_Some _ _ _ Hx). cbn [mbind outcome_mbind]. rewrite Hp, (get_Some _ _ _ Hpn). done. Qed.

Lemma turn_right s gp p x n pn a b g :
  mem s !! x = Some n -> mem s !! p = Some pn -> lt pn = Some x ->
  repr (mem s) (Some x) (lt n) a -> repr (mem s) (Some x) (gt n) b -> repr (mem s) (Some p) (gt pn) g ->
  NoDup (elems (Node (Node a x b) p g)) ->
  exists s', turn s gp p x (lt n) (gt n) = Ret s' /\ root s' = root s /\ repr (mem s') gp (Some x) (Node a x (Node b p g)) /\
    relinked (elems (Node (Node a x b) p g)) s s'.
Proof.
  intros Hx Hp Hlt Ha Hb Hg Hn. cbn [elems] in Hn.
  apply NoDup_app in Hn as ((Na & Nax & [Nx Nb]%NoDup_cons)%NoDup_app & Nl & [Np Ng]%NoDup_cons).
  assert (Hxp : x <> p) by (intros ->; set_solver). unfold turn.
  rewrite (upd_Some _ _ _ _ Hx). cbn [mbind outcome_mbind mem set_mem].
  rewrite (upd_Some _ _ _ pn) by (cbn [mem set_mem]; by links). cbn [mbind outcome_mbind mem set_mem].
  rewrite (get_Some _ _ (set_parent (Some x) pn)) by (cbn [mem set_mem]; links; by rewrite Hp). cbn [mbind outcome_mbind gt lt set_parent].
  rewrite bool_decide_false by (intros E; apply (repr_root _ _ _ _ _ Hg) in E; set_solver). rewrite bool_decide_true by done.
  rewrite (upd_Some _ _ _ (set_parent gp n)) by (cbn [mem set_mem]; links; by rewrite Hx). cbn [mbind outcome_mbind mem set_mem].
  rewrite (upd_Some _ _ _ (set_parent (Some x) pn)) by (cbn [mem set_mem]; links; by rewrite Hp). cbn [mbind outcome_mbind mem set_mem].
  set (m5 := alter (set_lt (gt n)) p _).
  assert (H5 : forall y, y <> x -> y <> p -> m5 !! y = mem s !! y) by (intros y ? ?; unfold m5; by links).
  assert (H5b : repr m5 (Some x) (gt n) b) by (eapply repr_agree; [|done]; intros y Hy; apply H5; intros ->; set_solver).
  rewrite (upd_opt_reparent _ (Some x) _ b) by exact H5b. eexists. split; [done|]. split; [done|]. cbn [mem set_mem].
  assert (H6 : forall y, y ∉ elems b -> reparent (Some p) (gt n) m5 !! y = m5 !! y).
  { intros y Hy. destruct (gt n) as [z|] eqn:Ez; cbn [reparent]; [|done]. pose proof (repr_root _ _ _ _ z Hb eq_refl). by links. }
  split; [|split].
  - cbn [repr]. split; [done|]. exists (set_gt (Some p) (set_parent gp n)). rewrite H6 by done. split; [unfold m5; links; by rewrite Hx|]. split; [done|].
    split; [eapply repr_agree; [|exact Ha]; intros y Hy; rewrite H6 by set_solver; apply H5; intros ->; set_solver|]. split; [done|].
    exists (set_lt (gt n) (set_parent (Some x) pn)). rewrite H6 by set_solver. split; [unfold m5; links; by rewrite Hp|]. split; [done|].
    split; [by apply (repr_reparent _ (Some x))|]. eapply repr_agree; [|exact Hg]. intros y Hy. rewrite H6 by set_solver. apply H5; intros ->; set_solver.
  - unfold data. cbn [mem set_mem]. rewrite dat_reparent. unfold m5. by rewrite !dat_alter by done.
  - do 2 (split; [done|]). intros y Hy. cbn [mem set_mem elems] in *. rewrite H6 by set_solver. apply H5; set_solver.
Qed.

Lemma turn_left s gp p x n pn a b g :
  mem s !! x = Some n -> mem s !! p = Some pn -> gt pn = Some x ->
  repr (mem s) (Some x) (lt n) a -> repr (mem s) (Some x) (gt n) b -> repr (mem s) (Some p) (lt pn) g ->
  NoDup (elems (Node g p (Node a x b))) ->
  exists s', turn s gp p x (lt n) (gt n) = Ret s' /\ root s' = root s /\ repr (mem s') gp (Some x) (Node (Node g p a) x b) /\
    relinked (elems (Node g p (Node a x b))) s s'.
Proof.
  intros Hx Hp Hgt Ha Hb Hg Hn. cbn [elems] in Hn.
  apply NoDup_app in Hn as (Ng & Nl & [Np (Na & Nax & [Nx Nb]%NoDup_cons)%NoDup_app]%NoDup_cons).
  assert (Hxp : x <> p) by (intros ->; set_solver). unfold turn.
  rewrite (upd_Some _ _ _ _ Hx). cbn [mbind outcome_mbind mem set_mem].
  rewrite (upd_Some _ _ _ pn) by (cbn [mem set_mem]; by links). cbn [mbind outcome_mbind mem set_mem].
  rewrite (get_Some _ _ (set_parent (Some x) pn)) by (cbn [mem set_mem]; links; by rewrite Hp). cbn [mbind outcome_mbind gt lt set_parent].
  rewrite bool_decide_true by done.
  rewrite (upd_Some _ _ _ (set_parent gp n)) by (cbn [mem set_mem]; links; by rewrite Hx). cbn [mbind outcome_mbind mem set_mem].
  rewrite (upd_Some _ _ _ (set_parent (Some x) pn)) by (cbn [mem set_mem]; links; by rewrite Hp). cbn [mbind outcome_mbind mem set_mem].
  set (m5 := alter (set_gt (lt n)) p _).
  assert (H5 : forall y, y <> x -> y <> p -> m5 !! y = mem s !! y) by (intros y ? ?; unfold m5; by links).
  assert (H5b : repr m5 (Some x) (lt n) a) by (eapply repr_agree; [|done]; intros y Hy; apply H5; intros ->; set_solver).
  rewrite (upd_opt_reparent _ (Some x) _ a) by exact H5b. eexists. split; [done|]. split; [done|]. cbn [mem set_mem].
  assert (H6 : forall y, y ∉ elems a -> reparent (Some p) (lt n) m5 !! y = m5 !! y).
  { intros y Hy. destruct (lt n) as [z|] eqn:Ez; cbn [reparent]; [|done]. pose proof (repr_root _ _ _ _ z Ha eq_refl). by links. }
  split; [|split].
  - cbn [repr]. split; [done|]. exists (set_lt (Some p) (set_parent gp n)). rewrite H6 by set_solver. split; [unfold m5; links; by rewrite Hx|]. split; [done|].
    split; [split; [done|]|eapply repr_agree; [|exact Hb]; intros y Hy; rewrite H6 by set_solver; apply H5; intros ->; set_solver].
    exists (set_gt (lt n) (set_parent (Some x) pn)). rewrite H6 by set_solver. split; [unfold m5; links; by rewrite Hp|]. split; [done|].
    split; [|by apply (repr_reparent _ (Some x))]. eapply repr_agree; [|exact Hg]. intros y Hy. rewrite H6 by set_solver. apply H5; intros ->; set_solver.
  - unfold data. cbn [mem set_mem]. rewrite dat_reparent. unfold m5. by rewrite !dat_alter by done.
  - do 2 (split; [done|]). intros y Hy. cbn [mem set_mem elems] in *. rewrite H6 by set_solver. apply H5; set_solver.
Qed.

(** A node that rises over its parent. *)
Definition rotated (f : frame) (a : tree) (x : Z) (b : tree) : tree :=
  match f with
  | InLt p g => Node a x (Node b p g)
  | InGt g p => Node (Node g p a) x b
  end.

Lemma elems_rotated f c a x b : elems (plug c (rotated f a x b)) = elems (plug (f :: c) (Node a x b)).
Proof. destruct f; cbn [plug rotated]; rewrite !elems_plug; cbn [elems]; by list_simplifier. Qed.

Lemma NoDup_plug c t : NoDup (elems (plug c t)) -> NoDup (elems t) /\ NoDup (celems c) /\ (forall y, y ∈ elems t -> y ∉ celems c).
Proof.
  rewrite elems_plug. unfold celems. rewrite !NoDup_app. intros (H1 & H2 & H3 & H4 & H5). split; [done|].
  split; [split; [done|]; split; [intros y Hy; specialize (H2 y Hy); set_solver|done]|]. intros y Hy [Hb|Ha]%elem_of_app.
  - specialize (H2 y Hb). set_solver.
  - by apply (H4 y).
Qed.

Lemma rotate_spec s f c a x b :
  shape s (plug (f :: c) (Node a x b)) ->
  exists s', schedule_rotate_up s (Some x) = Ret s' /\ shape s' (plug c (rotated f a x b)) /\
    relinked (elems (plug (f :: c) (Node a x b))) s s'.
Proof.
  intros [Hr Hn]. pose proof Hn as Hn'. rewrite <- elems_rotated in Hn'. pose proof Hr as Hr0. apply repr_plug in Hr0 as (par & q & Hc & Hq).
  cbn [repr] in Hq. destruct Hq as (-> & n & Hx & Hpar & Ha & Hb).
  assert (exists p pn, par = Some p /\ mem s !! p = Some pn /\ reprc (mem s) c (parent pn) (Some p) (root s) /\ p ∉ celems c /\ NoDup (celems c) /\
    (forall y, y ∈ (p :: x :: (elems a ++ elems b)) -> y ∉ celems c) /\
    match f with
    | InLt _ g => lt pn = Some x /\ repr (mem s) (Some p) (gt pn) g /\ f = InLt p g /\ NoDup (elems (Node (Node a x b) p g)) /\ (forall y, y ∈ elems g -> y ∉ celems c)
    | InGt g _ => gt pn = Some x /\ repr (mem s) (Some p) (lt pn) g /\ f = InGt g p /\ NoDup (elems (Node g p (Node a x b))) /\ (forall y, y ∈ elems g -> y ∉ celems c)
    end) as (p & pn & -> & Hp & Hcc & Hpc & Hnc & Hout & Hf).
  { destruct f as [p g|g p]; cbn [reprc plug] in Hc, Hn; destruct Hc as (-> & pn & Hp & H1 & H2 & H3); apply NoDup_plug in Hn as (N1 & N2 & N3); exists p, pn;
      cbn [elems] in N3; (do 3 (split; [done|])); (split; [apply N3; set_solver|]); (split; [done|]); (split; [intros y Hy; apply N3; set_solver|]);
      (do 3 (split; [done|])); (split; [done|]); intros y Hy; apply N3; set_solver. }
  rewrite (rotate_up_eq _ _ _ _ _ Hx Hpar Hp). destruct (relink_spec s c _ p x Hcc Hnc Hpc) as (s1 & -> & Hc1 & D1 & E1 & K1 & M1). cbn [mbind outcome_mbind].
  assert (A1 : forall par p t, (forall y, y ∈ elems t -> y ∉ celems c) -> repr (mem s) par p t -> repr (mem s1) par p t).
  { intros par' p' t Ht. apply repr_agree. intros y Hy. by apply M1, Ht. }
  assert (Hx1 : mem s1 !! x = Some n) by (rewrite M1; [done|apply Hout; set_solver]).
  assert (Hp1 : mem s1 !! p = Some pn) by (rewrite M1; [done|apply Hout; set_solver]).
  assert (Ha1 : repr (mem s1) (Some x) (lt n) a) by (apply A1; [|done]; intros y Hy; apply Hout; set_solver).
  assert (Hb1 : repr (mem s1) (Some x) (gt n) b) by (apply A1; [|done]; intros y Hy; apply Hout; set_solver).
  assert (exists s', turn s1 (parent pn) p x (lt n) (gt n) = Ret s' /\ root s' = root s1 /\ repr (mem s') (parent pn) (Some x) (rotated f a x b) /\
    relinked (elems (rotated f a x b)) s1 s') as (s' & -> & Hrt & Hs' & R).
  { destruct f as [? g|g ?]; destruct Hf as (H1 & H2 & [= ->] & H4 & H5); apply (A1 _ _ g) in H2; [|done| |done].
    - destruct (turn_right s1 (parent pn) p x n pn a b g Hx1 Hp1 H1 Ha1 Hb1 H2 H4) as (s' & -> & ? & ? & ?). exists s'.
      do 3 (split; [done|]). cbn [rotated elems] in *. by rewrite <- !app_assoc in *.
    - destruct (turn_left s1 (parent pn) p x n pn a b g Hx1 Hp1 H1 Ha1 Hb1 H2 H4) as (s' & -> & ? & ? & ?). exists s'.
      do 3 (split; [done|]). cbn [rotated elems] in *. by rewrite <- !app_assoc in *. }
  exists s'. split; [done|]. split.
  - split; [|done]. apply repr_plug. exists (parent pn), (Some x). split; [|done]. rewrite Hrt. eapply reprc_agree; [|exact Hc1].
    intros y Hy. apply R. apply NoDup_plug in Hn' as (_ & _ & N). intros Hy'. by apply (N y).
  - rewrite <- elems_rotated, elems_plug. eapply relinked_trans; eapply relinked_mono; [|done| |exact R]; [unfold celems|]; set_solver.
Qed.

(** ** Heap order *)

Definition prio (D : gmap Z (timeval * Z)) (x : Z) : Z := default 0 (snd <$> D !! x).

Lemma prio_data s x e : mem s !! x = Some e -> prio (data s) x = pri e.
Proof. intros H. unfold prio, data. by rewrite lookup_fmap, H. Qed.

(** The priorities grow from the bound [k] downwards. *)
Fixpoint heap_ge (D : gmap Z (timeval * Z)) (k : Z) (t : tree) : Prop :=
  match t with
  | Leaf => True
  | Node l x r => k <= prio D x /\ heap_ge D (prio D x) l /\ heap_ge D (prio D x) r
  end.

Definition hole_bound (D : gmap Z (timeval * Z)) (c : list frame) : Z :=
  match c with
  | [] => 1
  | InLt x _ :: _ => prio D x
  | InGt _ x :: _ => prio D x
  end.

Fixpoint heap_ctx (D : gmap Z (timeval * Z)) (c : list frame) : Prop :=
  match c with
  | [] => True
  | InLt x r :: c => hole_bound D c <= prio D x /\ heap_ge D (prio D x) r /\ heap_ctx D c
  | InGt l x :: c => hole_bound D c <= prio D x /\ heap_ge D (prio D x) l /\ heap_ctx D c
  end.

Lemma heap_ge_mono D k k' t : k' <= k -> heap_ge D k t -> heap_ge D k' t.
Proof. destruct t; cbn; [done|]. intros ? (? & ? & ?). split; [lia|done]. Qed.

Lemma heap_plug D c : forall t, heap_ge D 1 (plug c t) <-> heap_ctx D c /\ heap_ge D (hole_bound D c) t.
Proof. induction c as [|[x r|l x] c IH]; intros t; cbn [plug heap_ctx hole_bound]; [naive_solver|..]; rewrite IH; cbn [heap_ge]; naive_solver. Qed.

Lemma heap_ge_agree D D' t : forall k, (forall x, x ∈ elems t -> D' !! x = D !! x) -> heap_ge D k t -> heap_ge D' k t.
Proof.
  induction t as [|l IHl x r IHr]; intros k Ha; cbn [heap_ge]; [done|]. cbn [elems] in Ha. intros (Hk & Hl & Hr).
  assert (E : prio D' x = prio D x) by (unfold prio; rewrite Ha by set_solver; done). rewrite E.
  split; [done|]. split; [apply IHl|apply IHr]; try done; intros y Hy; apply Ha; set_solver.
Qed.

Lemma heap_ge_prio D t : forall k x, heap_ge D k t -> x ∈ elems t -> k <= prio D x.
Proof.
  induction t as [|l IHl y r IHr]; intros k x; cbn [heap_ge elems]; [set_solver|]. intros (Hk & Hl & Hr) [H|[->|H]%elem_of_cons]%elem_of_app; [|done|];
    [specialize (IHl _ _ Hl H)|specialize (IHr _ _ Hr H)]; lia.
Qed.

(** ** Removal *)

(** The node at the hole of a context. *)
Lemma shape_node s c a x b :
  shape s (plug c (Node a x b)) -> exists n, mem s !! x = Some n /\ repr (mem s) (Some x) (lt n) a /\ repr (mem s) (Some x) (gt n) b /\
    reprc (mem s) c (parent n) (Some x) (root s).
Proof. intros [Hr _]. apply repr_plug in Hr as (par & p & Hc & -> & n & Hn & <- & Ha & Hb). by exists n. Qed.

Lemma shape_leaves s c x : shape s (plug c (Node Leaf x Leaf)) -> exists n, mem s !! x = Some n /\ lt n = None /\ gt n = None.
Proof. intros (n & Hn & Ha & Hb & _)%shape_node. by exists n. Qed.

(** The node [x] has sunk below one of its children: it is in a smaller subtree of the same
    nodes, and the rest is still in heap order. *)
Definition sunk (s : schedule) (c : list frame) (a : tree) (x : Z) (b : tree) (s' : schedule) : Prop :=
  relinked (elems (plug c (Node a x b))) s s' /\
  exists c' a' b', shape s' (plug c' (Node a' x b')) /\ elems (plug c' (Node a' x b')) = elems (plug c (Node a x b)) /\
    (length (elems a' ++ elems b') < length (elems a ++ elems b))%nat /\
    heap_ctx (data s) c' /\ heap_ge (data s) (hole_bound (data s) c') a' /\ heap_ge (data s) (hole_bound (data s) c') b'.

(** The heap order around a node, its own priority apart. *)
Definition heap_around (D : gmap Z (timeval * Z)) (c : list frame) (a b : tree) : Prop :=
  heap_ctx D c /\ heap_ge D (hole_bound D c) a /\ heap_ge D (hole_bound D c) b.

Definition root_prio_le (D : gmap Z (timeval * Z)) (x : Z) (t : tree) : Prop :=
  match t with Leaf => True | Node _ y _ => prio D x <= prio D y end.

Lemma sink_lt s c a1 l a2 x b :
  shape s (plug c (Node (Node a1 l a2) x b)) -> heap_around (data s) c (Node a1 l a2) b -> root_prio_le (data s) l b ->
  exists s', schedule_rotate_up s (Some l) = Ret s' /\ sunk s c (Node a1 l a2) x b s'.
Proof.
  intros Hs (Hc & (H1 & H2 & H3) & Hb) Hle. destruct (rotate_spec s (InLt x b) c a1 l a2 Hs) as (s' & Hrot & Hs' & R). exists s'. split; [done|].
  split; [done|]. exists (InGt a1 l :: c), a2, b. split; [done|]. split; [exact (elems_rotated (InLt x b) c a1 l a2)|].
  split; [cbn [elems]; rewrite !length_app; cbn; lia|]. cbn [heap_ctx hole_bound]. do 2 (split; [done|]).
  destruct b as [|b1 g b2]; cbn [heap_ge root_prio_le] in *; [done|]. split; [lia|apply Hb].
Qed.

Lemma sink_gt s c a x b1 g b2 :
  shape s (plug c (Node a x (Node b1 g b2))) -> heap_around (data s) c a (Node b1 g b2) -> root_prio_le (data s) g a ->
  exists s', schedule_rotate_up s (Some g) = Ret s' /\ sunk s c a x (Node b1 g b2) s'.
Proof.
  intros Hs (Hc & Ha & H1 & H2 & H3) Hle. destruct (rotate_spec s (InGt a x) c b1 g b2 Hs) as (s' & Hrot & Hs' & R). exists s'. split; [done|].
  split; [done|]. exists (InLt g b2 :: c), a, b1. split; [done|]. split; [exact (elems_rotated (InGt a x) c b1 g b2)|].
  split; [cbn [elems]; rewrite !length_app; cbn; lia|]. cbn [heap_ctx hole_bound]. split; [done|]. split; [|done].
  destruct a as [|a1 l a2]; cbn [heap_ge root_prio_le] in *; [done|]. split; [lia|apply Ha].
Qed.

Lemma sink_step s c a x b :
  shape s (plug c (Node a x b)) -> heap_around (data s) c a b -> a <> Leaf \/ b <> Leaf ->
  exists s', sunk s c a x b s' /\ forall fuel, remove_loop (S fuel) s x = remove_loop fuel s' x.
Proof.
  intros Hs Hh Hne. destruct (shape_node s c a x b Hs) as (n & Hn & Hra & Hrb & _).
  destruct a as [|a1 l a2], b as [|b1 g b2]; [naive_solver|..]; cbn [repr] in Hra, Hrb.
  - destruct Hrb as (Eg & gn & Hg & _). destruct (sink_gt s c Leaf x b1 g b2 Hs Hh I) as (s' & Hrot & Hk). exists s'. split; [done|]. intros fuel.
    cbn [remove_loop]. rewrite (get_Some _ _ _ Hn). cbn [mbind outcome_mbind]. by rewrite Hra, Eg, Hrot.
  - destruct Hra as (El & ln & Hl & _). destruct (sink_lt s c a1 l a2 x Leaf Hs Hh I) as (s' & Hrot & Hk). exists s'. split; [done|]. intros fuel.
    cbn [remove_loop]. rewrite (get_Some _ _ _ Hn). cbn [mbind outcome_mbind]. by rewrite Hrb, El, Hrot.
  - destruct Hra as (El & ln & Hl & _), Hrb as (Eg & gn & Hg & _).
    assert (Hrun : forall fuel, remove_loop (S fuel) s x =
      (s' ← (if pri ln <? pri gn then schedule_rotate_up s (Some l) else schedule_rotate_up s (Some g)); remove_loop fuel s' x)).
    { intros fuel. cbn [remove_loop]. rewrite (get_Some _ _ _ Hn). cbn [mbind outcome_mbind]. by rewrite El, Eg, (get_Some _ _ _ Hl), (get_Some _ _ _ Hg). }
    destruct (pri ln <? pri gn) eqn:E; breflect.
    + destruct (sink_lt s c a1 l a2 x _ Hs Hh) as (s' & Hrot & Hk).
      { cbn [root_prio_le]. rewrite (prio_data _ _ _ Hl), (prio_data _ _ _ Hg). lia. }
      exists s'. split; [done|]. intros fuel. by rewrite Hrun, Hrot.
    + destruct (sink_gt s c _ x b1 g b2 Hs Hh) as (s' & Hrot & Hk).
      { cbn [root_prio_le]. rewrite (prio_data _ _ _ Hl), (prio_data _ _ _ Hg). lia. }
      exists s'. split; [done|]. intros fuel. by rewrite Hrun, Hrot.
Qed.

Lemma remove_loop_spec fuel : forall s c a x b,
  shape s (plug c (Node a x b)) -> heap_around (data s) c a b -> (length (elems a ++ elems b) <= fuel)%nat ->
  exists s' c', remove_loop fuel s x = Ret s' /\ shape s' (plug c' (Node Leaf x Leaf)) /\ heap_ctx (data s) c' /\
    elems (plug c' (Node Leaf x Leaf)) = elems (plug c (Node a x b)) /\ relinked (elems (plug c (Node a x b))) s s'.
Proof.
  induction fuel as [|fuel IH]; intros s c a x b Hs Hh Hf.
  all: assert (Hd : (a = Leaf /\ b = Leaf) \/ (a <> Leaf \/ b <> Leaf)) by (destruct a, b; naive_solver); destruct Hd as [[-> ->]|Hne].
  1, 3: destruct (shape_leaves s c x Hs) as (n & Hn & El & Eg); exists s, c; cbn [remove_loop]; rewrite (get_Some _ _ _ Hn); cbn [mbind outcome_mbind];
    rewrite El, Eg; do 2 (split; [done|]); split; [apply Hh|done].
  - exfalso. rewrite length_app in Hf. destruct Hne as [Hne|Hne]; [destruct a|destruct b]; cbn [elems] in Hf; rewrite ?length_app in Hf; cbn in Hf; try done; lia.
  - destruct (sink_step s c a x b Hs Hh Hne) as (s1 & (R & c' & a' & b' & Hs1 & E1 & Hlen & Hh1) & ->). pose proof (proj1 R) as HD.
    rewrite <- HD in Hh1. destruct (IH s1 c' a' x b' Hs1 Hh1 ltac:(lia)) as (s2 & c2 & -> & Hs2 & Hc2 & E2 & R2). exists s2, c2.
    rewrite HD in Hc2. rewrite E1 in E2, R2. split; [done|]. split; [done|]. split; [done|]. split; [done|]. by eapply relinked_trans.
Qed.

Lemma elem_plug t x : x ∈ elems t -> exists c a b, t = plug c (Node a x b).
Proof.
  enough (H : forall c, x ∈ elems t -> exists c' a b, plug c t = plug c' (Node a x b)) by (by apply (H [])).
  induction t as [|l IHl y r IHr]; intros c; cbn [elems]; [set_solver|]. intros [H|[->|H]%elem_of_cons]%elem_of_app.
  - exact (IHl (InLt y r :: c) H).
  - by exists c, l, r.
  - exact (IHr (InGt l y :: c) H).
Qed.

Lemma heap_around_node D c a x b : heap_ge D 1 (plug c (Node a x b)) -> heap_around D c a b.
Proof. intros [Hc (H1 & H2 & H3)]%heap_plug. split; [done|]. split; by eapply heap_ge_mono. Qed.

Lemma NoDup_detached c x : NoDup (elems (plug c (Node Leaf x Leaf))) -> NoDup (elems (plug c Leaf)) /\ x ∉ elems (plug c Leaf).
Proof. intros H. pose proof (NoDup_plug _ _ H) as (_ & H1 & H2). rewrite elems_plug. cbn [elems app]. split; [done|]. apply H2. set_solver. Qed.

Lemma detach_spec s c x :
  shape s (plug c (Node Leaf x Leaf)) ->
  exists s' n, schedule_detach_parent s (Some x) = Ret s' /\ shape s' (plug c Leaf) /\ mem s !! x = Some n /\
    mem s' !! x = Some (mkse (se_tv n) (pri n) None None None) /\ relinked (elems (plug c (Node Leaf x Leaf))) s s'.
Proof.
  intros Hs. pose proof Hs as [_ Hn]. pose proof (NoDup_detached _ _ Hn) as [Hn' Hx']. destruct (shape_node _ _ _ _ _ Hs) as (n & Hx & El & Eg & Hc).
  cbn [repr] in El, Eg. unfold schedule_detach_parent. rewrite (get_Some _ _ _ Hx). cbn [mbind outcome_mbind].
  assert (En : forall q, parent n = q -> n = mkse (se_tv n) (pri n) q None None) by (intros q <-; destruct n; cbn in *; by subst).
  rewrite elems_plug in Hx'. cbn [elems app] in Hx'.
  destruct c as [|[p r|l p] c]; cbn [reprc before after] in Hc, Hx'; destruct Hc as (Hpar & Hc); rewrite Hpar.
  - rewrite bool_decide_true by done. exists (set_root s None), n. split; [done|]. split; [done|]. split; [done|]. split; [|done].
    cbn [mem set_root]. rewrite Hx. f_equal. by apply En.
  - destruct Hc as (pn & Hp & Hlt & Hr & Hc). rewrite (get_Some _ _ _ Hp). cbn [mbind outcome_mbind]. rewrite bool_decide_true by done.
    rewrite (upd_Some _ _ _ _ Hp). cbn [mbind outcome_mbind]. rewrite (upd_Some _ _ _ n) by (cbn [mem set_mem]; by links). cbn [mem set_mem].
    eexists _, n. split; [done|]. split; [split; [|done]|].
    + apply repr_plug. exists (Some p), None. split; [|done]. cbn [reprc mem set_mem root]. split; [done|]. exists (set_lt None pn).
      split; [by links; rewrite Hp|]. split; [done|]. cbn [gt set_lt parent]. cbn [plug] in Hn'. apply NoDup_plug in Hn' as (N1 & N2 & N3). cbn [elems app] in N1, N3.
      apply NoDup_cons in N1 as [N1 _]. assert (p ∉ celems c) by (apply N3; set_solver).
      split; [eapply repr_agree; [|done]|eapply reprc_agree; [|done]]; intros y Hy; unfold celems in *; by links.
    + split; [done|]. cbn [mem set_mem]. split; [links; rewrite Hx; by rewrite (En _ Hpar)|]. unfold relinked, data. cbn [mem set_mem earliest_wakeup calls].
      split; [by rewrite !dat_alter by done|]. do 2 (split; [done|]). intros y Hy. rewrite elems_plug in Hy. cbn [before after elems] in Hy. by links.
  - destruct Hc as (pn & Hp & Hgt & Hr & Hc). rewrite (get_Some _ _ _ Hp). cbn [mbind outcome_mbind].
    rewrite bool_decide_false by (intros E; apply (repr_root _ _ _ _ _ Hr) in E; set_solver). rewrite bool_decide_true by done.
    rewrite (upd_Some _ _ _ _ Hp). cbn [mbind outcome_mbind]. rewrite (upd_Some _ _ _ n) by (cbn [mem set_mem]; by links). cbn [mem set_mem].
    eexists _, n. split; [done|]. split; [split; [|done]|].
    + apply repr_plug. exists (Some p), None. split; [|done]. cbn [reprc mem set_mem root]. split; [done|]. exists (set_gt None pn).
      split; [by links; rewrite Hp|]. split; [done|]. cbn [lt set_gt parent]. cbn [plug] in Hn'. apply NoDup_plug in Hn' as (N1 & N2 & N3). cbn [elems app] in N1, N3.
      apply NoDup_app in N1 as (_ & N1 & _). assert (p ∉ celems c) by (apply N3; set_solver).
      split; [eapply repr_agree; [|done]|eapply reprc_agree; [|done]]; intros y Hy; unfold celems in *; by links.
    + split; [done|]. cbn [mem set_mem]. split; [links; rewrite Hx; by rewrite (En _ Hpar)|]. unfold relinked, data. cbn [mem set_mem earliest_wakeup calls].
      split; [by rewrite !dat_alter by done|]. do 2 (split; [done|]). intros y Hy. rewrite elems_plug in Hy. cbn [before after elems] in Hy. by links.
Qed.

(** The nodes of a tree are allocated, so there are no more of them than nodes in memory. *)
Lemma repr_alloc m t : forall par p x, repr m par p t -> x ∈ elems t -> is_Some (m !! x).
Proof.
  induction t as [|l IHl y r IHr]; intros par p x; cbn [repr elems]; [set_solver|]. intros (-> & e & He & _ & Hl & Hr) [H|[->|H]%elem_of_cons]%elem_of_app; by eauto.
Qed.

Lemma shape_size s t : shape s t -> (length (elems t) <= size (mem s))%nat.
Proof.
  intros [Hr Hn]. rewrite <- size_dom, <- (size_list_to_set (C := gset Z) (elems t)) by done. apply subseteq_size. intros x Hx.
  apply elem_of_list_to_set in Hx. apply elem_of_dom. by eapply repr_alloc.
Qed.

Lemma data_lookup s x : data s !! x = dat <$> mem s !! x.
Proof. apply lookup_fmap. Qed.

Lemma remove_node_spec s t x :
  shape s t -> heap_ge (data s) 1 t -> x ∈ elems t ->
  exists s' t' l1 l2 n, schedule_remove_node s x = Ret s' /\ shape s' t' /\ heap_ge (data s') 1 t' /\
    elems t = l1 ++ x :: l2 /\ elems t' = l1 ++ l2 /\
    mem s !! x = Some n /\ mem s' !! x = Some (mkse (se_tv n) 0 None None None) /\
    (forall y, y <> x -> data s' !! y = data s !! y) /\ (forall y, y ∉ elems t -> mem s' !! y = mem s !! y) /\
    earliest_wakeup s' = earliest_wakeup s /\ calls s' = calls s.
Proof.
  intros Hs Hh Hx. destruct (elem_plug t x Hx) as (c & a & b & ->). pose proof (shape_size _ _ Hs) as Hsz.
  destruct (remove_loop_spec (size (mem s)) s c a x b Hs) as (s1 & c1 & E1 & Hs1 & Hc1 & El1 & R1).
  { by eapply heap_around_node. }
  { rewrite elems_plug in Hsz. cbn [elems] in Hsz. rewrite !length_app in *. cbn in Hsz. lia. }
  destruct (detach_spec s1 c1 x Hs1) as (s2 & n1 & E2 & Hs2 & Hn1 & Hn2 & R2). pose proof (relinked_trans _ _ _ _ R1 ltac:(rewrite <- El1; exact R2)) as (D & E & C & M).
  destruct (NoDup_detached c1 x (proj2 Hs1)) as [_ Hx2].
  assert (Hag : forall y, y <> x -> alter (set_pri 0) x (mem s2) !! y = mem s2 !! y) by (intros y Hy; by apply lookup_alter_ne).
  assert (exists n, mem s !! x = Some n /\ se_tv n = se_tv n1) as (n & Hn & En).
  { pose proof (f_equal (lookup x) (proj1 R1)) as HD. rewrite !data_lookup, Hn1 in HD. destruct (mem s !! x) as [n|]; [|done]. injection HD as ? ?. by exists n. }
  exists (set_mem s2 (alter (set_pri 0) x (mem s2))), (plug c1 Leaf), (before c1), (after c1), n.
  unfold schedule_remove_node. rewrite E1. cbn [mbind outcome_mbind]. rewrite E2. cbn [mbind outcome_mbind]. rewrite (upd_Some _ _ _ _ Hn2).
  split; [done|]. split; [split; [|apply Hs2]; eapply repr_agree; [|apply Hs2]; intros y Hy; apply Hag; intros ->; done|].
  split. { eapply heap_ge_agree; [|apply heap_plug; split; [exact Hc1|done]]. intros y Hy. rewrite <- D, !data_lookup. cbn [mem set_mem]. rewrite Hag; [done|]. by intros ->. }
  split; [rewrite <- El1, elems_plug; done|]. split; [by rewrite elems_plug|]. split; [done|].
  split; [cbn [mem set_mem]; rewrite lookup_alter_eq, Hn2, En; done|].
  split; [intros y Hy; by rewrite <- D, !data_lookup; cbn [mem set_mem]; rewrite Hag|].
  split; [|done]. intros y Hy. cbn [mem set_mem]. rewrite Hag; [by apply M|]. by intros ->.
Qed.

(** ** Rising to the place of its priority *)

Lemma length_ctx c t : (length c + length (elems t) <= length (elems (plug c t)))%nat.
Proof.
  rewrite elems_plug, !length_app. assert (length c <= length (before c) + length (after c))%nat; [|lia].
  induction c as [|[x r|l x] c IH]; cbn [before after length]; [done|..]; rewrite ?length_app; cbn; lia.
Qed.

Lemma rise_loop_spec fuel : forall s c a x b,
  shape s (plug c (Node a x b)) -> heap_around (data s) c a b -> heap_ge (data s) 1 (Node a x b) -> (length c <= fuel)%nat ->
  exists s' t', rise_loop fuel s x = Ret s' /\ shape s' t' /\ elems t' = elems (plug c (Node a x b)) /\ heap_ge (data s) 1 t' /\
    relinked (elems (plug c (Node a x b))) s s'.
Proof.
  induction fuel as [|fuel IH]; intros s c a x b Hs Hh Hx Hf; destruct (shape_node _ _ _ _ _ Hs) as (n & Hn & Ha & Hb & Hc);
    pose proof Hx as (Hx1 & Hxa & Hxb); pose proof Hh as (Hc1 & Hha & Hhb).
  - destruct c as [|? c]; [|cbn in Hf; lia]. destruct Hc as [Hpar _]. exists s, (Node a x b). cbn [rise_loop]. rewrite (get_Some _ _ _ Hn). cbn [mbind outcome_mbind].
    rewrite Hpar. done.
  - assert (Hdone : forall p pn, parent n = Some p -> mem s !! p = Some pn -> pri pn <= pri n -> hole_bound (data s) c = prio (data s) p -> 
      exists s' t', rise_loop (S fuel) s x = Ret s' /\ shape s' t' /\ elems t' = elems (plug c (Node a x b)) /\ heap_ge (data s) 1 t' /\
        relinked (elems (plug c (Node a x b))) s s').
    { intros p pn Hpar Hpn Hle Hhb'. exists s, (plug c (Node a x b)). cbn [rise_loop]. rewrite (get_Some _ _ _ Hn). cbn [mbind outcome_mbind].
      rewrite Hpar, (get_Some _ _ _ Hpn). cbn [mbind outcome_mbind]. rewrite (proj2 (Z.ltb_ge _ _)) by lia. split; [done|]. split; [done|]. split; [done|].
      split; [|done]. apply heap_plug. split; [done|]. split; [|done]. rewrite Hhb', (prio_data _ _ _ Hn), (prio_data _ _ _ Hpn). lia. }
    assert (Hstep : forall f c' p pn a2 b2, c = f :: c' -> parent n = Some p -> mem s !! p = Some pn -> pri n < pri pn ->
      rotated f a x b = Node a2 x b2 -> heap_around (data s) c' a2 b2 -> heap_ge (data s) 1 (Node a2 x b2) ->
      exists s' t', rise_loop (S fuel) s x = Ret s' /\ shape s' t' /\ elems t' = elems (plug c (Node a x b)) /\ heap_ge (data s) 1 t' /\
        relinked (elems (plug c (Node a x b))) s s').
    { intros f c' p pn a2 b2 -> Hpar Hpn Hlt Hrot Hh2 Hx2. destruct (rotate_spec s f c' a x b Hs) as (s1 & E1 & Hs1 & R1). rewrite Hrot in Hs1.
      pose proof (proj1 R1) as HD. rewrite <- HD in Hh2, Hx2. destruct (IH s1 c' a2 x b2 Hs1 Hh2 Hx2 ltac:(cbn in Hf; lia)) as (s2 & t2 & E2 & Hs2 & El2 & Hp2 & R2).
      rewrite HD in Hp2. rewrite <- Hrot, elems_rotated in El2, R2. exists s2, t2. cbn [rise_loop]. rewrite (get_Some _ _ _ Hn). cbn [mbind outcome_mbind].
      rewrite Hpar, (get_Some _ _ _ Hpn). cbn [mbind outcome_mbind]. rewrite (proj2 (Z.ltb_lt _ _)) by lia. rewrite E1. cbn [mbind outcome_mbind].
      do 4 (split; [done|]). by eapply relinked_trans. }
    destruct c as [|[p r|l p] c]; cbn [reprc] in Hc.
    + destruct Hc as [Hpar _]. exists s, (Node a x b). cbn [rise_loop]. rewrite (get_Some _ _ _ Hn). cbn [mbind outcome_mbind]. by rewrite Hpar.
    + destruct Hc as (Hpar & pn & Hpn & _). destruct (Z.lt_ge_cases (pri n) (pri pn)); [|by eapply Hdone].
      destruct Hc1 as (K1 & K2 & K3). cbn [hole_bound] in Hha, Hhb. pose proof (prio_data _ _ _ Hn) as Pn. pose proof (prio_data _ _ _ Hpn) as Pp.
      eapply (Hstep (InLt p r) c p pn); try done.
      * split; [done|]. split; [by eapply heap_ge_mono|]. split; [done|]. done.
      * split; [done|]. split; [done|]. split; [lia|]. done.
    + destruct Hc as (Hpar & pn & Hpn & _). destruct (Z.lt_ge_cases (pri n) (pri pn)); [|by eapply Hdone].
      destruct Hc1 as (K1 & K2 & K3). cbn [hole_bound] in Hha, Hhb. pose proof (prio_data _ _ _ Hn) as Pn. pose proof (prio_data _ _ _ Hpn) as Pp.
      eapply (Hstep (InGt l p) c p pn); try done.
      * split; [done|]. split; [split; done|]. by eapply heap_ge_mono.
      * split; [done|]. split; [split; [lia|done]|]. done.
Qed.

(** ** Key order *)

Definition dlt (d1 d2 : timeval * Z) : Prop :=
  tv_sec d1.1 < tv_sec d2.1 \/
  (tv_sec d1.1 = tv_sec d2.1 /\ (tv_usec d1.1 < tv_usec d2.1 \/ (tv_usec d1.1 = tv_usec d2.1 /\ d1.2 < d2.2))).

Lemma dlt_trans d1 d2 d3 : dlt d1 d2 -> dlt d2 d3 -> dlt d1 d3.
Proof. unfold dlt. lia. Qed.

Lemma entry_compare_spec n1 n2 :
  (schedule_entry_compare n1 n2 = -1 /\ dlt (dat n1) (dat n2)) \/ (schedule_entry_compare n1 n2 = 1 /\ dlt (dat n2) (dat n1)) \/
  (schedule_entry_compare n1 n2 = 0 /\ dat n1 = dat n2).
Proof.
  unfold schedule_entry_compare, dlt, dat. cbn [fst snd]. destruct n1 as [[a1 b1] p1 ? ? ?], n2 as [[a2 b2] p2 ? ? ?]. cbn [se_tv pri tv_sec tv_usec].
  bcase; [left|right; left|left|right; left|left|right; left|right; right]; try (split; [done|lia]). split; [done|]. repeat f_equal; lia.
Qed.

(** The order of two nodes by their data. *)
Definition klt (D : gmap Z (timeval * Z)) (x y : Z) : Prop :=
  match D !! x, D !! y with Some a, Some b => dlt a b | _, _ => False end.

#[export] Instance klt_trans D : Transitive (klt D).
Proof. intros x y z. unfold klt. destruct (D !! x), (D !! y), (D !! z); try done. apply dlt_trans. Qed.

Lemma klt_agree D D' x y : D' !! x = D !! x -> D' !! y = D !! y -> klt D x y -> klt D' x y.
Proof. unfold klt. by intros -> ->. Qed.

Lemma sorted_agree D D' l : (forall x, x ∈ l -> D' !! x = D !! x) -> StronglySorted (klt D) l -> StronglySorted (klt D') l.
Proof.
  intros Ha Hs. induction Hs as [|x l Hs IH Hf]; [constructor|]. constructor; [apply IH; set_solver|].
  rewrite Forall_forall in *. intros y Hy. eapply klt_agree; [apply Ha; set_solver|apply Ha; set_solver|by apply Hf].
Qed.

Lemma StronglySorted_mid {A} (R : A -> A -> Prop) l1 x l2 :
  StronglySorted R (l1 ++ l2) -> (forall y, y ∈ l1 -> R y x) -> (forall y, y ∈ l2 -> R x y) -> StronglySorted R (l1 ++ x :: l2).
Proof.
  induction l1 as [|z l1 IH]; cbn [app]; intros Hs H1 H2.
  - constructor; [done|]. by apply Forall_forall.
  - inversion Hs as [|? ? Hs' Hf]; subst. constructor; [apply IH; [done|set_solver|done]|]. rewrite Forall_app in *. destruct Hf as [Hf1 Hf2].
    split; [done|]. constructor; [|done]. apply H1. set_solver.
Qed.

Lemma StronglySorted_remove {A} (R : A -> A -> Prop) l1 x l2 : StronglySorted R (l1 ++ x :: l2) -> StronglySorted R (l1 ++ l2).
Proof.
  induction l1 as [|z l1 IH]; cbn [app]; intros Hs; inversion Hs as [|? ? Hs' Hf]; subst; [done|]. constructor; [by apply IH|].
  rewrite Forall_app, Forall_cons in *. naive_solver.
Qed.

(** ** Insertion *)

(** A node outside the tree, with no links. *)
Definition loose (s : schedule) (x : Z) : Prop :=
  exists n, mem s !! x = Some n /\ parent n = None /\ lt n = None /\ gt n = None.

Lemma NoDup_attached c x : NoDup (elems (plug c Leaf)) -> x ∉ elems (plug c Leaf) -> NoDup (elems (plug c (Node Leaf x Leaf))).
Proof.
  rewrite !elems_plug. cbn [elems app]. intros Hn Hx. assert (E : before c ++ x :: after c ≡ₚ x :: before c ++ after c) by (symmetry; apply Permutation_middle).
  rewrite E. by apply NoDup_cons.
Qed.

Lemma attach_lt s c y r x :
  shape s (plug (InLt y r :: c) Leaf) -> x ∉ elems (plug (InLt y r :: c) Leaf) -> loose s x ->
  exists s', (s1 ← upd s y (set_lt (Some x)); upd s1 x (set_parent (Some y))) = Ret s' /\
    shape s' (plug (InLt y r :: c) (Node Leaf x Leaf)) /\ relinked (elems (plug (InLt y r :: c) (Node Leaf x Leaf))) s s'.
Proof.
  intros [Hr Hn] Hx (n & Hxn & Hpar & Hlt & Hgt). pose proof (NoDup_attached _ _ Hn Hx) as Hn'. pose proof (NoDup_plug _ _ Hn) as (_ & N1 & _).
  apply repr_plug in Hr as (par & q & (-> & yn & Hy & Hlt' & Hrr & Hc) & _). unfold celems in N1. rewrite elems_plug in Hx. cbn [before after elems app] in N1, Hx.
  rewrite (upd_Some _ _ _ _ Hy). cbn [mbind outcome_mbind]. rewrite (upd_Some _ _ _ n) by (cbn [mem set_mem]; by links). cbn [mem set_mem].
  apply NoDup_app in N1 as (_ & N1 & [N2 _]%NoDup_cons).
  eexists. split; [done|]. split; [split; [|done]|].
  - apply repr_plug. exists (Some y), (Some x). cbn [reprc repr mem set_mem root]. split.
    + split; [done|]. exists (set_lt (Some x) yn). split; [by links; rewrite Hy|]. split; [done|]. cbn [gt set_lt parent].
      split; [eapply repr_agree; [|done]|eapply reprc_agree; [|done]]; intros z Hz; unfold celems in *; by links.
    + split; [done|]. exists (set_parent (Some y) n). split; [by links; rewrite Hxn|]. done.
  - unfold relinked, data. cbn [mem set_mem earliest_wakeup calls]. split; [by rewrite !dat_alter by done|]. do 2 (split; [done|]). intros z Hz.
    rewrite elems_plug in Hz. cbn [before after elems] in Hz. by links.
Qed.

Lemma attach_gt s c l y x :
  shape s (plug (InGt l y :: c) Leaf) -> x ∉ elems (plug (InGt l y :: c) Leaf) -> loose s x ->
  exists s', (s1 ← upd s y (set_gt (Some x)); upd s1 x (set_parent (Some y))) = Ret s' /\
    shape s' (plug (InGt l y :: c) (Node Leaf x Leaf)) /\ relinked (elems (plug (InGt l y :: c) (Node Leaf x Leaf))) s s'.
Proof.
  intros [Hr Hn] Hx (n & Hxn & Hpar & Hlt & Hgt). pose proof (NoDup_attached _ _ Hn Hx) as Hn'. pose proof (NoDup_plug _ _ Hn) as (_ & N1 & _).
  apply repr_plug in Hr as (par & q & (-> & yn & Hy & Hlt' & Hrr & Hc) & _). unfold celems in N1. rewrite elems_plug in Hx. cbn [before after elems app] in N1, Hx.
  rewrite (upd_Some _ _ _ _ Hy). cbn [mbind outcome_mbind]. rewrite (upd_Some _ _ _ n) by (cbn [mem set_mem]; by links). cbn [mem set_mem].
  rewrite <- !app_assoc in N1. apply NoDup_app in N1 as (_ & N1 & (_ & N2 & [N3 _]%NoDup_cons)%NoDup_app).
  eexists. split; [done|]. split; [split; [|done]|].
  - apply repr_plug. exists (Some y), (Some x). cbn [reprc repr mem set_mem root]. split.
    + split; [done|]. exists (set_gt (Some x) yn). split; [by links; rewrite Hy|]. split; [done|]. cbn [lt set_gt parent].
      split; [eapply repr_agree; [|done]|eapply reprc_agree; [|done]]; intros z Hz; unfold celems in *; by links.
    + split; [done|]. exists (set_parent (Some y) n). split; [by links; rewrite Hxn|]. done.
  - unfold relinked, data. cbn [mem set_mem earliest_wakeup calls]. split; [by rewrite !dat_alter by done|]. do 2 (split; [done|]). intros z Hz.
    rewrite elems_plug in Hz. cbn [before after elems] in Hz. by links.
Qed.

(** The node has been attached as a leaf, in order. *)
Definition attached (s : schedule) (t : tree) (x : Z) (s' : schedule) : Prop :=
  exists c, t = plug c Leaf /\ shape s' (plug c (Node Leaf x Leaf)) /\ relinked (elems (plug c (Node Leaf x Leaf))) s s' /\
    StronglySorted (klt (data s)) (elems (plug c (Node Leaf x Leaf))).

Lemma length_node l x r : length (elems (Node l x r)) = S (length (elems l) + length (elems r)).
Proof. cbn [elems]. rewrite length_app. cbn. lia. Qed.

(** [x] belongs at the hole of the context. *)
Definition between (D : gmap Z (timeval * Z)) (c : list frame) (x : Z) : Prop :=
  (forall y, y ∈ before c -> klt D y x) /\ (forall y, y ∈ after c -> klt D x y).

Lemma between_lt D c l y r x :
  between D c x -> klt D x y -> StronglySorted (klt D) (elems (plug c (Node l y r))) -> between D (InLt y r :: c) x.
Proof.
  intros [H1 H2] Hxy Hs. rewrite elems_plug in Hs. cbn [elems] in Hs. apply StronglySorted_app_1_r in Hs. rewrite <- app_assoc in Hs. cbn [app] in Hs.
  apply StronglySorted_app_1_r in Hs. inversion Hs as [|? ? _ Hf]; subst. rewrite Forall_forall in Hf.
  split; [done|]. cbn [after]. intros z [->|Hz]%elem_of_cons; [done|]. trans y; [done|]. by apply Hf.
Qed.

Lemma between_gt D c l y r x :
  between D c x -> klt D y x -> StronglySorted (klt D) (elems (plug c (Node l y r))) -> between D (InGt l y :: c) x.
Proof.
  intros [H1 H2] Hxy Hs. rewrite elems_plug in Hs. cbn [elems] in Hs. rewrite <- app_assoc in Hs. cbn [app] in Hs. rewrite (assoc_L app) in Hs.
  split; [|done]. cbn [before]. intros z [Hz|[Hz| ->%list_elem_of_singleton]%elem_of_app]%elem_of_app; [by apply H1|..|done].
  trans y; [|done]. eapply (StronglySorted_app_1_elem_of (klt D) (before c ++ elems l) (y :: _)); [exact Hs|set_solver|set_solver].
Qed.

Lemma attached_intro s c x s' :
  StronglySorted (klt (data s)) (elems (plug c Leaf)) -> between (data s) c x ->
  shape s' (plug c (Node Leaf x Leaf)) -> relinked (elems (plug c (Node Leaf x Leaf))) s s' -> attached s (plug c Leaf) x s'.
Proof.
  intros Hs [H1 H2] Hs' R. exists c. do 3 (split; [done|]). rewrite elems_plug in *. cbn [elems app] in *. by apply StronglySorted_mid.
Qed.

(** A descent attaches [x] below, or meets a node with the same key and then starts again
    from the root with another priority. *)
Definition descends (rnd : nat -> Z) (s : schedule) (t0 : tree) (x : Z) (p : option Z) (d : nat) : Prop :=
  (exists s', attached s t0 x s' /\ forall fuel, schedule_insert_loop rnd (S d + fuel) s x p = Ret s') \/
  ((exists y, y ∈ elems t0 /\ data s !! y = data s !! x) /\
   forall fuel, schedule_insert_loop rnd (S d + fuel) s x p = (s' ← schedule_set_pri rnd s x; schedule_insert_loop rnd fuel s' x (root s'))).

Lemma descend_spec rnd x n : forall t s c par p,
  shape s (plug c t) -> StronglySorted (klt (data s)) (elems (plug c t)) -> x ∉ elems (plug c t) -> mem s !! x = Some n -> loose s x ->
  t <> Leaf -> repr (mem s) par p t -> between (data s) c x ->
  exists d, (d <= length (elems t))%nat /\ descends rnd s (plug c t) x p d.
Proof.
  induction t as [|l IHl y r IHr]; intros s c par p Hs Hsort Hx Hn Hl Hne Hp Hbt; [done|].
  cbn [repr] in Hp. destruct Hp as (-> & yn & Hy & _ & Hrl & Hrr).
  assert (Hrun : forall fuel, schedule_insert_loop rnd (S fuel) s x (Some y) =
    if schedule_entry_compare n yn =? -1
    then match lt yn with
         | Some l => schedule_insert_loop rnd fuel s x (Some l)
         | None => s ← upd s y (set_lt (Some x)); upd s x (set_parent (Some y))
         end
    else if schedule_entry_compare n yn =? 1
    then match gt yn with
         | Some g => schedule_insert_loop rnd fuel s x (Some g)
         | None => s ← upd s y (set_gt (Some x)); upd s x (set_parent (Some y))
         end
    else s ← schedule_set_pri rnd s x; schedule_insert_loop rnd fuel s x (root s)).
  { intros fuel. cbn [schedule_insert_loop]. rewrite (get_Some _ _ _ Hn), (get_Some _ _ _ Hy). done. }
  assert (Dx : data s !! x = Some (dat n)) by (by rewrite data_lookup, Hn). assert (Dy : data s !! y = Some (dat yn)) by (by rewrite data_lookup, Hy).
  destruct (entry_compare_spec n yn) as [[E Hlt]|[[E Hlt]|[E Heq]]]; rewrite E in Hrun; cbn [Z.eqb] in Hrun; unfold Pos.eqb in Hrun.
  - assert (Hk : klt (data s) x y) by (unfold klt; by rewrite Dx, Dy). pose proof (between_lt _ _ _ _ _ _ Hbt Hk Hsort) as Hbt'.
    destruct l as [|l1 z l2].
    + cbn [repr] in Hrl. rewrite Hrl in Hrun. destruct (attach_lt s c y r x Hs Hx Hl) as (s' & Hrun' & Hs' & R). exists 0%nat. split; [lia|]. left. exists s'.
      split; [by apply (attached_intro s (InLt y r :: c))|]. intros fuel. by rewrite Hrun.
    + pose proof Hrl as [El _]. rewrite El in Hrun. destruct (IHl s (InLt y r :: c) _ _ Hs Hsort Hx Hn Hl ltac:(done) Hrl Hbt') as (d & Hd & Hdesc).
      exists (S d). split; [rewrite length_node; lia|]. unfold descends in *. setoid_rewrite Hrun. by rewrite El in Hdesc.
  - assert (Hk : klt (data s) y x) by (unfold klt; by rewrite Dx, Dy). pose proof (between_gt _ _ _ _ _ _ Hbt Hk Hsort) as Hbt'.
    destruct r as [|r1 z r2].
    + cbn [repr] in Hrr. rewrite Hrr in Hrun. destruct (attach_gt s c l y x Hs Hx Hl) as (s' & Hrun' & Hs' & R). exists 0%nat. split; [lia|]. left. exists s'.
      split; [by apply (attached_intro s (InGt l y :: c))|]. intros fuel. by rewrite Hrun.
    + pose proof Hrr as [Eg _]. rewrite Eg in Hrun. destruct (IHr s (InGt l y :: c) _ _ Hs Hsort Hx Hn Hl ltac:(done) Hrr Hbt') as (d & Hd & Hdesc).
      exists (S d). split; [rewrite length_node; lia|]. unfold descends in *. setoid_rewrite Hrun. by rewrite Eg in Hdesc.
  - exists 0%nat. split; [lia|]. right. split; [exists y; split; [rewrite elems_plug; set_solver|congruence]|]. intros fuel. by rewrite Hrun.
Qed.

(** The priority that a number of [random] gives. *)
Definition priority (v : Z) : Z := Z.max 1 (u32 v).

(** Only the priority of [x] has changed. *)
Definition retagged (x : Z) (s s' : schedule) : Prop :=
  root s' = root s /\ earliest_wakeup s' = earliest_wakeup s /\
  exists n p, mem s !! x = Some n /\ mem s' = <[x := set_pri p n]> (mem s) /\ 1 <= p.

Lemma set_pri_spec rnd s x n :
  mem s !! x = Some n ->
  exists s', schedule_set_pri rnd s x = Ret s' /\ root s' = root s /\ earliest_wakeup s' = earliest_wakeup s /\ calls s' = S (calls s) /\
    mem s' = <[x := set_pri (priority (rnd (calls s))) n]> (mem s).
Proof.
  intros Hn. unfold schedule_set_pri.
  assert (Hu : forall f, upd s x f = Ret (set_mem s (<[x := f n]> (mem s)))) by (intros f; unfold upd; by rewrite Hn). rewrite Hu. cbn [mbind outcome_mbind calls set_mem root earliest_wakeup mem].
  rewrite (get_Some _ _ (set_pri (u32 (rnd (calls s))) n)) by (cbn [mem]; by rewrite lookup_insert_eq). cbn [mbind outcome_mbind pri set_pri].
  pose proof (u32_range (rnd (calls s))) as Hr. unfold priority. destruct (u32 (rnd (calls s)) <? 1) eqn:E; breflect.
  - unfold upd. cbn [mem]. rewrite lookup_insert_eq. eexists. split; [done|]. cbn [mem set_mem root earliest_wakeup calls]. do 3 (split; [done|]).
    rewrite insert_insert_eq. by replace (Z.max 1 (u32 (rnd (calls s)))) with 1 by lia.
  - eexists. split; [done|]. cbn [mem root earliest_wakeup calls]. do 3 (split; [done|]). by replace (Z.max 1 (u32 (rnd (calls s)))) with (u32 (rnd (calls s))) by lia.
Qed.

Lemma retagged_spec rnd s s' x n :
  mem s !! x = Some n -> root s' = root s -> earliest_wakeup s' = earliest_wakeup s ->
  mem s' = <[x := set_pri (priority (rnd (calls s))) n]> (mem s) -> retagged x s s'.
Proof. intros Hn Hr He Hm. do 2 (split; [done|]). exists n, (priority (rnd (calls s))). do 2 (split; [done|]). unfold priority. lia. Qed.

Lemma retagged_trans x s1 s2 s3 : retagged x s1 s2 -> retagged x s2 s3 -> retagged x s1 s3.
Proof.
  intros (R1 & E1 & n1 & p1 & H1 & M1 & P1) (R2 & E2 & n2 & p2 & H2 & M2 & P2). split; [congruence|]. split; [congruence|]. exists n1, p2.
  split; [done|]. split; [|done]. rewrite M2, M1, insert_insert_eq. rewrite M1, lookup_insert_eq in H2. by injection H2 as <-.
Qed.

Lemma retagged_other x s s' y : retagged x s s' -> y <> x -> mem s' !! y = mem s !! y.
Proof. intros (_ & _ & n & p & _ & -> & _) Hy. by apply lookup_insert_ne. Qed.

Lemma retagged_loose x s s' : retagged x s s' -> loose s x -> loose s' x.
Proof. intros (_ & _ & n & p & Hn & Hm & _) (n' & Hn' & H). exists (set_pri p n). rewrite Hm, lookup_insert_eq. split; [done|]. assert (n' = n) as -> by congruence. exact H. Qed.

Lemma retagged_tree x s s' t :
  retagged x s s' -> x ∉ elems t -> shape s t -> StronglySorted (klt (data s)) (elems t) ->
  shape s' t /\ StronglySorted (klt (data s')) (elems t).
Proof.
  intros R Hx [Hr Hn] Hs. assert (Ha : forall y, y ∈ elems t -> mem s' !! y = mem s !! y) by (intros y Hy; apply (retagged_other _ _ _ _ R); by intros ->).
  split; [split; [|done]|].
  - destruct R as (-> & _). by eapply repr_agree.
  - eapply sorted_agree; [|done]. intros y Hy. by rewrite !data_lookup, Ha.
Qed.

(** No node of the tree has the priority. *)
Definition unused (D : gmap Z (timeval * Z)) (t : tree) (v : Z) : Prop := forall y, y ∈ elems t -> prio D y <> v.

(** The loop ends: at the latest with the [k]-th number of [random], if that is unused. *)
Lemma insert_loop_spec rnd k t x : forall m s,
  shape s t -> StronglySorted (klt (data s)) (elems t) -> x ∉ elems t -> loose s x -> t <> Leaf ->
  (calls s + m = S k)%nat -> unused (data s) t (priority (rnd k)) -> (m = 0%nat -> unused (data s) t (prio (data s) x)) -> 1 <= prio (data s) x ->
  exists F s0 s', (forall fuel, (F <= fuel)%nat -> schedule_insert_loop rnd fuel s x (root s) = Ret s') /\ retagged x s s0 /\ attached s0 t x s'.
Proof.
  induction m as [|m IH]; intros s Hs Hsort Hx Hl Hne Hk Hfr H0 Hpr; pose proof Hl as (n & Hn & _).
  all: destruct (descend_spec rnd x n t s [] None (root s) Hs Hsort Hx Hn Hl Hne (proj1 Hs)) as (d & Hd & Hdesc); [by split; intros y ?%elem_of_nil|].
  all: assert (Hself : retagged x s s) by (do 2 (split; [done|]); exists n, (pri n); split; [done|]; split; [by rewrite insert_id; [|destruct n]|];
    by rewrite <- (prio_data _ _ _ Hn)).
  all: destruct Hdesc as [(s' & Ha & Hrun)|[(y & Hy & Ey) Hrun]].
  1, 3: exists (S d), s, s'; split; [|done]; intros fuel Hf; replace fuel with (S d + (fuel - S d))%nat by lia; apply Hrun.
  - exfalso. apply (H0 eq_refl y Hy). unfold prio. by rewrite Ey.
  - destruct (set_pri_spec rnd s x n Hn) as (s1 & E1 & R1 & W1 & C1 & M1). pose proof (retagged_spec _ _ _ _ _ Hn R1 W1 M1) as R.
    destruct (retagged_tree x s s1 t R Hx Hs Hsort) as [Hs1 Hsort1].
    assert (Hpx : prio (data s1) x = priority (rnd (calls s))) by (unfold prio; by rewrite data_lookup, M1, lookup_insert_eq).
    assert (Hfr1 : forall v, unused (data s) t v -> unused (data s1) t v).
    { intros v Hv z Hz. unfold prio. rewrite data_lookup, (retagged_other _ _ _ z R) by (by intros ->). rewrite <- data_lookup. by apply Hv. }
    destruct (IH s1 Hs1 Hsort1 Hx (retagged_loose _ _ _ R Hl) Hne ltac:(lia) (Hfr1 _ Hfr)) as (F & s0 & s' & HF & R0 & Ha0).
    { intros ->. rewrite Hpx. replace (calls s) with k by lia. by apply Hfr1. }
    { rewrite Hpx. unfold priority. lia. }
    exists (S d + F)%nat, s0, s'. split; [|split; [by eapply retagged_trans|done]]. intros fuel Hf. replace fuel with (S d + (fuel - S d))%nat by lia.
    rewrite Hrun, E1. cbn [mbind outcome_mbind]. apply HF. lia.
Qed.

(** ** Treaps *)

Definition treap (s : schedule) (t : tree) : Prop :=
  shape s t /\ heap_ge (data s) 1 t /\ StronglySorted (klt (data s)) (elems t).

(** [random] yields every positive number of its range again and again. *)
Definition fair (rnd : nat -> Z) : Prop := forall n v, 1 <= v < 2 ^ 31 -> exists k, (n <= k)%nat /\ rnd k = v.

Lemma fair_unused rnd D t n :
  fair rnd -> zlen (elems t) < 2 ^ 31 - 1 -> exists k, (n <= k)%nat /\ unused D t (priority (rnd k)).
Proof.
  intros Hf Hlen. set (used := prio D <$> elems t).
  assert (exists v, 1 <= v < 2 ^ 31 /\ v ∉ used) as (v & Hv & Hu).
  { destruct (decide (Exists (fun v => v ∉ used) (seqZ 1 (2 ^ 31 - 1)))) as [He|He].
    - apply Exists_exists in He as (v & Hv & Hu). apply elem_of_seqZ in Hv. exists v. split; [lia|done].
    - exfalso. apply not_Exists_Forall in He; [|apply _]. assert (Hsub : seqZ 1 (2 ^ 31 - 1) ⊆+ used).
      { apply NoDup_submseteq; [apply NoDup_seqZ|]. intros v Hv. rewrite Forall_forall in He. specialize (He v Hv). by apply dec_stable. }
      apply submseteq_length in Hsub. rewrite length_seqZ in Hsub. unfold used in Hsub. rewrite length_fmap in Hsub. unfold zlen in Hlen. lia. }
  destruct (Hf n v Hv) as (k & Hk & E). exists k. split; [done|]. intros y Hy E'. apply Hu. rewrite E in E'. unfold priority in E'. rewrite u32_id in E' by (unfold is_u32; lia).
  apply list_elem_of_fmap. exists y. split; [lia|done].
Qed.

(** What placing a node leaves alone. *)
Definition placed (x : Z) (t : tree) (s : schedule) (s' : schedule) (t' : tree) : Prop :=
  treap s' t' /\ elems t' ≡ₚ x :: elems t /\ (forall y, y <> x -> data s' !! y = data s !! y) /\
  (forall y, y ∉ x :: elems t -> mem s' !! y = mem s !! y) /\ (fst <$> data s' !! x) = (fst <$> data s !! x) /\
  earliest_wakeup s' = earliest_wakeup s.

Lemma retagged_data x s s' y : retagged x s s' -> y <> x -> data s' !! y = data s !! y.
Proof. intros R Hy. by rewrite !data_lookup, (retagged_other _ _ _ _ R Hy). Qed.

Lemma retagged_prio x s s' : retagged x s s' -> 1 <= prio (data s') x.
Proof. intros (_ & _ & n & p & _ & Hm & Hp). unfold prio. by rewrite data_lookup, Hm, lookup_insert_eq. Qed.

Lemma retagged_tv x s s' : retagged x s s' -> (fst <$> data s' !! x) = (fst <$> data s !! x).
Proof. intros (_ & _ & n & p & Hn & Hm & _). by rewrite !data_lookup, Hm, lookup_insert_eq, Hn. Qed.

(** The node rises from where it was attached. *)
Lemma rise_attached s c x t s0 s1 :
  t = plug c Leaf -> x ∉ elems t -> heap_ge (data s) 1 t -> retagged x s s0 ->
  shape s1 (plug c (Node Leaf x Leaf)) -> relinked (elems (plug c (Node Leaf x Leaf))) s0 s1 -> StronglySorted (klt (data s0)) (elems (plug c (Node Leaf x Leaf))) ->
  exists s' t', rise_loop (size (mem s1)) s1 x = Ret s' /\ placed x t s s' t'.
Proof.
  intros -> Hx Hh R0 Hs1 (D1 & E1 & C1 & M1) Hsort.
  assert (Hh0 : heap_ge (data s1) 1 (plug c Leaf)).
  { rewrite D1. eapply heap_ge_agree; [|done]. intros y Hy. apply (retagged_data x); [done|]. by intros ->. }
  apply heap_plug in Hh0 as [Hc _]. pose proof (retagged_prio _ _ _ R0) as Hp.
  destruct (rise_loop_spec (size (mem s1)) s1 c Leaf x Leaf Hs1) as (s' & t' & Hrun & Hs' & El & Hh' & D2 & E2 & C2 & M2).
  { done. }
  { cbn [heap_ge]. rewrite D1. done. }
  { pose proof (shape_size _ _ Hs1). pose proof (length_ctx c (Node Leaf x Leaf)). lia. }
  assert (Hperm : elems (plug c (Node Leaf x Leaf)) ≡ₚ x :: elems (plug c Leaf)) by (rewrite !elems_plug; cbn [elems app]; symmetry; apply Permutation_middle).
  assert (HD : data s' = data s0) by congruence.
  exists s', t'. split; [done|]. split; [split; [done|]; rewrite HD, El; split; [by rewrite <- D1|done]|]. split; [by rewrite El|].
  split; [intros y Hy; rewrite HD; by apply (retagged_data x)|]. split; [|split; [by rewrite HD; apply retagged_tv|destruct R0 as (_ & E0 & _); congruence]].
  intros y Hy. rewrite <- Hperm in Hy. rewrite M2, M1 by done. apply (retagged_other _ _ _ _ R0). intros ->. apply Hy. rewrite Hperm. set_solver.
Qed.

Lemma place_spec rnd s t x :
  fair rnd -> zlen (elems t) < 2 ^ 31 - 1 -> treap s t -> x ∉ elems t -> loose s x ->
  exists F s' t', placed x t s s' t' /\ forall fuel, (F <= fuel)%nat ->
    (s ← schedule_set_pri rnd s x;
     s ← match root s with Some _ => schedule_insert rnd fuel s x | None => Ret (set_root s (Some x)) end;
     rise_loop (size (mem s)) s x) = Ret s'.
Proof.
  intros Hf Hlen (Hs & Hh & Hsort) Hx Hl. pose proof Hl as (n & Hn & Hpar & Hlt & Hgt).
  destruct (set_pri_spec rnd s x n Hn) as (s1 & E1 & R1 & W1 & C1 & M1). pose proof (retagged_spec _ _ _ _ _ Hn R1 W1 M1) as R.
  destruct (retagged_tree x s s1 t R Hx Hs Hsort) as [Hs1 Hsort1]. rewrite E1. cbn [mbind outcome_mbind]. unfold schedule_insert.
  destruct t as [|l y r].
  - destruct Hs1 as [Hr1 _]. cbn [repr] in Hr1. rewrite Hr1. cbn [mbind outcome_mbind].
    destruct (rise_attached s [] x Leaf s1 (set_root s1 (Some x))) as (s' & t' & Hrun & Hpl); try done.
    + split; [|apply NoDup_singleton]. cbn [plug repr root set_root mem]. split; [done|]. rewrite M1, lookup_insert_eq. eexists. split; [done|]. by cbn [parent lt gt set_pri].
    + repeat constructor.
    + by exists 0%nat, s', t'.
  - destruct (fair_unused rnd (data s1) (Node l y r) (calls s) Hf Hlen) as (k & Hk & Hun).
    destruct (insert_loop_spec rnd k (Node l y r) x (k - calls s) s1 Hs1 Hsort1 Hx (retagged_loose _ _ _ R Hl) ltac:(done) ltac:(lia) Hun) as (F & s0 & s2 & HF & R0 & c & Et & Hsh & Rl & Hso).
    { intros E0. unfold prio at 1. rewrite data_lookup, M1, lookup_insert_eq. cbn. replace (calls s) with k by lia. done. }
    { by apply (retagged_prio _ s). }
    destruct (rise_attached s c x (Node l y r) s0 s2 Et Hx Hh (retagged_trans _ _ _ _ R R0) Hsh Rl Hso) as (s' & t' & Hrun & Hpl).
    exists F, s', t'. split; [done|]. intros fuel Hfu. destruct Hs1 as [[Er _] _]. rewrite Er in HF |- *.
    rewrite (HF fuel Hfu). cbn [mbind outcome_mbind]. done.
Qed.

(** ** The abstract schedule: the time of every scheduled entry *)

Record sched_rel (s : schedule) (A : gmap Z timeval) (t : tree) : Prop := {
  rel_treap : treap s t;
  rel_in : forall x, x ∈ elems t -> A !! x = fst <$> data s !! x;
  rel_out : forall x, x ∉ elems t -> A !! x = None /\ forall n, mem s !! x = Some n -> pri n = 0 /\ parent n = None /\ lt n = None /\ gt n = None;
  rel_cache : forall x, earliest_wakeup s = Some x -> head (elems t) = Some x
}.

Definition sched_inv (s : schedule) (A : gmap Z timeval) : Prop := exists t, sched_rel s A t.

Lemma in_tree s A t x n : sched_rel s A t -> mem s !! x = Some n -> IN_TREE n = bool_decide (x ∈ elems t).
Proof.
  intros [(_ & Hh & _) _ Ho _] Hn. unfold IN_TREE. case_bool_decide as Hx.
  - pose proof (heap_ge_prio _ _ _ _ Hh Hx) as Hp. rewrite (prio_data _ _ _ Hn) in Hp. by rewrite (proj2 (Z.eqb_neq _ _)) by lia.
  - destruct (Ho x Hx) as [_ Hl]. destruct (Hl n Hn) as [-> _]. done.
Qed.

Lemma dom_data s s' : (forall y, is_Some (data s' !! y) <-> is_Some (data s !! y)) -> dom (mem s') = dom (mem s).
Proof. intros H. apply set_eq. intros y. rewrite !elem_of_dom. specialize (H y). rewrite !data_lookup, !fmap_is_Some in H. exact H. Qed.

(** Removing a node that is in the tree, whatever its time has become. *)
Definition removed (s : schedule) (t : tree) (x : Z) (s' : schedule) (t' : tree) : Prop :=
  treap s' t' /\ elems t ≡ₚ x :: elems t' /\ x ∉ elems t' /\ (exists n, mem s' !! x = Some n /\ pri n = 0 /\ parent n = None /\ lt n = None /\ gt n = None) /\
  (forall y, y <> x -> data s' !! y = data s !! y) /\ (forall y, y ∉ elems t -> mem s' !! y = mem s !! y) /\
  (fst <$> data s' !! x) = (fst <$> data s !! x) /\ earliest_wakeup s' = earliest_wakeup s.

Lemma remove_spec s t x D :
  shape s t -> heap_ge (data s) 1 t -> StronglySorted (klt D) (elems t) -> (forall y, y <> x -> D !! y = data s !! y) -> x ∈ elems t ->
  exists s' t', schedule_remove_node s x = Ret s' /\ removed s t x s' t'.
Proof.
  intros Hs Hh Hsort HD Hx. destruct (remove_node_spec s t x Hs Hh Hx) as (s' & t' & l1 & l2 & n & E & Hs' & Hh' & El & El' & Hn & Hn' & Hd & Hm & He & Hc).
  exists s', t'. split; [done|]. assert (Hp : elems t ≡ₚ x :: elems t') by (rewrite El, El'; symmetry; apply Permutation_middle).
  assert (Hx' : x ∉ elems t') by (pose proof (proj2 Hs) as Hnd; rewrite Hp in Hnd; by apply NoDup_cons in Hnd as [? _]).
  split; [|split; [done|]; split; [done|]; split; [by eexists|]; split; [done|]; split; [done|]; split; [by rewrite !data_lookup, Hn, Hn'|done]].
  split; [done|]. split; [done|]. rewrite El in Hsort. apply StronglySorted_remove in Hsort. rewrite <- El' in Hsort. eapply sorted_agree; [|done].
  intros y Hy. assert (y <> x) by (by intros ->). by rewrite Hd, HD.
Qed.

Lemma remove_entry_spec s A x n :
  sched_inv s A -> mem s !! x = Some n -> exists s', schedule_remove_entry s x = Ret s' /\ sched_inv s' (delete x A) /\ dom (mem s') = dom (mem s).
Proof.
  intros (t & Ht) Hn. pose proof Ht as [(Hs & Hh & Hsort) Hi Ho Hc]. unfold schedule_remove_entry. set (s0 := set_earliest s None).
  destruct (decide (x ∈ elems t)) as [Hx|Hx].
  - destruct (remove_spec s0 t x (data s) Hs Hh Hsort ltac:(done) Hx) as (s' & t' & E & Ht' & Hp & Hx' & Hl' & Hd & Hm & Htv & Hea). exists s'. split; [done|]. split.
    + exists t'. split; [done|..].
      * intros y Hy. assert (Hne : y <> x) by (by intros ->). rewrite lookup_delete_ne, Hd by done. apply Hi. rewrite Hp. set_solver.
      * intros y Hy. destruct (decide (y = x)) as [->|Hne].
        -- split; [apply lookup_delete_eq|]. intros n' Hn'. destruct Hl' as (n2 & Hn2 & H). by assert (n' = n2) as -> by congruence.
        -- assert (Hyt : y ∉ elems t) by (rewrite Hp; set_solver). rewrite lookup_delete_ne, Hm by done. by apply Ho.
      * intros y Hy. by rewrite Hea in Hy.
    + apply dom_data. intros y. destruct (decide (y = x)) as [->|Hne]; [|by rewrite Hd].
      by rewrite <- !(fmap_is_Some fst), Htv.
  - destruct (Ho x Hx) as [HA Hl]. destruct (Hl n Hn) as (Hp & Hpar & Hlt & Hgt).
    assert (E : schedule_remove_node s0 x = Ret s0).
    { unfold schedule_remove_node. assert (Hg : get s0 x = Ret n) by (by apply get_Some).
      assert (El : remove_loop (size (mem s0)) s0 x = Ret s0) by (destruct (size (mem s0)); cbn [remove_loop]; rewrite Hg; cbn [mbind outcome_mbind]; by rewrite Hlt, Hgt).
      rewrite El. cbn [mbind outcome_mbind]. unfold schedule_detach_parent. rewrite Hg. cbn [mbind outcome_mbind]. rewrite Hpar.
      rewrite bool_decide_false; [|intros Er; apply Hx; by eapply repr_root; [apply Hs|]]. cbn [mbind outcome_mbind]. unfold upd.
      change (mem s0) with (mem s). rewrite Hn. destruct n as [tv0 p0 q0 l0 g0]. cbn in Hp. subst p0. cbn [set_pri se_tv parent Schedule.lt Schedule.gt].
      by rewrite insert_id. }
    exists s0. split; [done|]. split; [|done]. rewrite delete_id by done. by exists t.
Qed.

(** The time of an entry, unless it is already scheduled within [sigma] of it. *)
Definition spec_add (A : gmap Z timeval) (x : Z) (tv : timeval) (sigma : Z) : gmap Z timeval :=
  match A !! x with
  | Some old => if negb (sigma =? 0) && tv_within_sigma tv old sigma then A else <[x := tv]> A
  | None => <[x := tv]> A
  end.

(** Setting the time of a node leaves the tree. *)
Lemma set_tv_spec s x n tv t :
  mem s !! x = Some n -> exists s1, upd s x (set_tv tv) = Ret s1 /\ (shape s t -> shape s1 t) /\ (heap_ge (data s) 1 t -> heap_ge (data s1) 1 t) /\
    mem s1 = <[x := set_tv tv n]> (mem s) /\ earliest_wakeup s1 = earliest_wakeup s.
Proof.
  intros Hn. exists (set_mem s (<[x := set_tv tv n]> (mem s))). unfold upd. rewrite Hn. split; [done|]. split; [|split; [|done]].
  - intros [Hr Hnd]. split; [|done]. cbn [mem set_mem root]. clear Hnd. revert Hr. generalize (root s), (@None Z).
    induction t as [|l IHl y r IHr]; intros p q; cbn [repr]; [done|]. intros (-> & e & He & Hp & Hl & Hr). split; [done|].
    destruct (decide (y = x)) as [->|Hne].
    + assert (e = n) as -> by congruence. exists (set_tv tv n). rewrite lookup_insert_eq. cbn [parent lt gt set_tv]. auto.
    + exists e. rewrite lookup_insert_ne by done. auto.
  - assert (Hpr : forall y, prio (data (set_mem s (<[x := set_tv tv n]> (mem s)))) y = prio (data s) y).
    { intros y. unfold prio. rewrite !data_lookup. cbn [mem set_mem]. destruct (decide (y = x)) as [->|Hne]; [by rewrite lookup_insert_eq, Hn|by rewrite lookup_insert_ne]. }
    generalize 1. induction t as [|l IHl y r IHr]; intros k; cbn [heap_ge]; [done|]. rewrite Hpr. naive_solver.
Qed.

Lemma rel_placed s A t x tv s1 t1 s' t' :
  sched_rel s A t -> placed x t1 s1 s' t' -> x ∉ elems t1 -> (forall y, y <> x -> y ∈ elems t <-> y ∈ elems t1) ->
  (forall y, y <> x -> data s1 !! y = data s !! y) -> (forall y, y <> x -> y ∉ elems t -> mem s1 !! y = mem s !! y) ->
  (fst <$> data s1 !! x) = Some tv -> sched_rel (set_earliest s' None) (<[x := tv]> A) t'.
Proof.
  intros [_ Hi Ho _] (Ht' & Hp & Hd & Hm & Htv & _) Hx Hel Hd1 Hm1 Ex. split; [done|..|done].
  - intros y Hy. destruct (decide (y = x)) as [->|Hne].
    + rewrite lookup_insert_eq. change (data (set_earliest s' None)) with (data s'). by rewrite Htv.
    + rewrite lookup_insert_ne by done. change (data (set_earliest s' None)) with (data s'). rewrite Hd, Hd1 by done. apply Hi, Hel; [done|].
      rewrite Hp in Hy. set_solver.
  - intros y Hy. rewrite Hp in Hy. assert (Hne : y <> x) by set_solver. assert (Hy1 : y ∉ elems t1) by set_solver.
    assert (Hyt : y ∉ elems t) by (by rewrite Hel). rewrite lookup_insert_ne by done. change (mem (set_earliest s' None)) with (mem s').
    rewrite Hm by done. rewrite Hm1 by done. by apply Ho.
Qed.

Lemma add_modify_eq rnd fuel s x n :
  mem s !! x = Some n -> schedule_add_modify rnd fuel s x =
    (s ← (if IN_TREE n then schedule_remove_node s x else Ret s);
     s ← schedule_set_pri rnd s x;
     s ← match root s with Some _ => schedule_insert rnd fuel s x | None => Ret (set_root s (Some x)) end;
     rise_loop (size (mem s)) s x).
Proof. intros Hn. unfold schedule_add_modify. by rewrite (get_Some _ _ _ Hn). Qed.

Lemma zlen_elems s t : shape s t -> zlen (elems t) <= Z.of_nat (size (mem s)).
Proof. intros H%shape_size. unfold zlen. lia. Qed.

Lemma add_entry_spec rnd s A x n tv sigma :
  fair rnd -> Z.of_nat (size (mem s)) < 2 ^ 31 - 1 -> sched_inv s A -> mem s !! x = Some n ->
  exists F s', (forall fuel, (F <= fuel)%nat -> schedule_add_entry rnd fuel s x tv sigma = Ret s') /\
    sched_inv s' (spec_add A x tv sigma) /\ dom (mem s') = dom (mem s).
Proof.
  intros Hf Hsz (t & Ht) Hn. pose proof Ht as [(Hs & Hh & Hsort) Hi Ho Hc]. pose proof (in_tree s A t x n Ht Hn) as Hin. pose proof (zlen_elems _ _ Hs) as Hlen.
  assert (Hfst : data s !! x = Some (dat n)) by (by rewrite data_lookup, Hn).
  assert (Hgo : forall fuel, schedule_add_entry rnd fuel s x tv sigma =
    if negb (IN_TREE n) || (sigma =? 0) || negb (tv_within_sigma tv (se_tv n) sigma)
    then s ← upd s x (set_tv tv); s ← schedule_add_modify rnd fuel s x; Ret (set_earliest s None) else Ret s).
  { intros fuel. unfold schedule_add_entry. by rewrite (get_Some _ _ _ Hn). }
  destruct (set_tv_spec s x n tv t Hn) as (s1 & E1 & Hs1 & Hh1 & M1 & W1). specialize (Hs1 Hs). specialize (Hh1 Hh).
  assert (Hd1 : forall y, y <> x -> data s1 !! y = data s !! y) by (intros y Hy; by rewrite !data_lookup, M1, lookup_insert_ne).
  assert (Hx1 : data s1 !! x = Some (tv, pri n)) by (by rewrite data_lookup, M1, lookup_insert_eq).
  assert (Hm1 : mem s1 !! x = Some (set_tv tv n)) by (by rewrite M1, lookup_insert_eq).
  assert (Hfin : forall s2 t2 F s' t', treap s2 t2 -> placed x t2 s2 s' t' -> x ∉ elems t2 -> (forall y, y <> x -> y ∈ elems t <-> y ∈ elems t2) ->
    (forall y, y <> x -> data s2 !! y = data s1 !! y) -> (forall y, y <> x -> y ∉ elems t -> mem s2 !! y = mem s1 !! y) -> (fst <$> data s2 !! x) = Some tv ->
    (forall fuel, (F <= fuel)%nat -> schedule_add_modify rnd fuel s1 x = Ret s') ->
    negb (IN_TREE n) || (sigma =? 0) || negb (tv_within_sigma tv (se_tv n) sigma) = true ->
    exists F s', (forall fuel, (F <= fuel)%nat -> schedule_add_entry rnd fuel s x tv sigma = Ret s') /\
      sched_inv s' (<[x := tv]> A) /\ dom (mem s') = dom (mem s)).
  { intros s2 t2 F s' t' Ht2 Hpl Hx2 Hel Hd2 Hm2 Hv2 HF Hcond. exists F, (set_earliest s' None). split; [intros fuel Hfu; by rewrite Hgo, Hcond, E1; cbn [mbind outcome_mbind]; rewrite HF|].
    split; [exists t'; apply (rel_placed s A t x tv s2 t2 s' t'); try done|].
    - intros y Hy. by rewrite Hd2, Hd1.
    - intros y Hy Hyt. rewrite Hm2, M1 by done. by apply lookup_insert_ne.
    - apply dom_data. intros y. destruct Hpl as (_ & _ & Hd & _ & Hv & _). change (data (set_earliest s' None)) with (data s').
      destruct (decide (y = x)) as [->|Hne]; [|by rewrite Hd, Hd2, Hd1]. rewrite <- !(fmap_is_Some fst), Hv, Hv2, Hfst. done. }
  destruct (decide (x ∈ elems t)) as [Hx|Hx].
  - unfold spec_add. rewrite (Hi x Hx), Hfst. cbn [fmap option_fmap option_map dat fst]. rewrite (bool_decide_true _ Hx) in Hin.
    destruct (negb (sigma =? 0) && tv_within_sigma tv (se_tv n) sigma) eqn:Econd.
    + exists 0%nat, s. split; [|split; [by exists t|done]]. intros fuel _. rewrite Hgo, Hin. destruct (sigma =? 0), (tv_within_sigma tv (se_tv n) sigma); by try discriminate Econd.
    + destruct (remove_spec s1 t x (data s) Hs1 Hh1 Hsort ltac:(intros y Hy; by rewrite Hd1) Hx) as (s2 & t2 & E2 & Ht2 & Hp2 & Hx2 & (n2 & Hn2 & L2) & Hd2 & Hm2 & Hv2 & He2).
      destruct (place_spec rnd s2 t2 x Hf) as (F & s' & t' & Hpl & HF); [|done|done|exists n2; split; [done|apply L2]|].
      { pose proof (Permutation_length Hp2) as Hl. cbn in Hl. unfold zlen in *. lia. }
      apply (Hfin s2 t2 F s' t'); try done.
      * intros y Hy. rewrite Hp2. set_solver.
      * intros y Hy Hyt. by apply Hm2.
      * by rewrite Hv2, Hx1.
      * intros fuel Hfu. rewrite (add_modify_eq _ _ _ _ _ Hm1). change (IN_TREE (set_tv tv n)) with (IN_TREE n). rewrite Hin, E2. cbn [mbind outcome_mbind]. by apply HF.
      * rewrite Hin. destruct (sigma =? 0), (tv_within_sigma tv (se_tv n) sigma); by try discriminate Econd.
  - destruct (Ho x Hx) as [HA Hl]. destruct (Hl n Hn) as (Hp & Hpar & Hlt & Hgt). unfold spec_add. rewrite HA. rewrite (bool_decide_false _ Hx) in Hin.
    assert (Ht1 : treap s1 t). { split; [done|]. split; [done|]. eapply sorted_agree; [|done]. intros y Hy. apply Hd1. by intros ->. }
    destruct (place_spec rnd s1 t x Hf ltac:(lia) Ht1 Hx) as (F & s' & t' & Hpl & HF); [by exists (set_tv tv n)|].
    apply (Hfin s1 t F s' t'); try done.
    + by rewrite Hx1.
    + intros fuel Hfu. rewrite (add_modify_eq _ _ _ _ _ Hm1). change (IN_TREE (set_tv tv n)) with (IN_TREE n). rewrite Hin. cbn [mbind outcome_mbind]. by apply HF.
    + by rewrite Hin.
Qed.

(** ** The earliest entry *)

Lemma find_least_spec s t : forall fuel par p x,
  repr (mem s) par p t -> p = Some x -> (length (elems t) <= S fuel)%nat ->
  exists y, find_least_loop fuel s x = Ret y /\ head (elems t) = Some y.
Proof.
  induction t as [|l IHl y r IHr]; intros fuel par p x; cbn [repr]; [congruence|]. intros (-> & n & Hn & _ & Hl & Hr) [= ->] Hf. rewrite length_node in Hf.
  assert (Hg : get s x = Ret n) by (by apply get_Some). destruct l as [|l1 z l2].
  - cbn [repr] in Hl. exists x. split; [|done]. destruct fuel; cbn [find_least_loop]; rewrite Hg; cbn [mbind outcome_mbind]; by rewrite Hl.
  - pose proof Hl as [El _]. rewrite El in Hl. destruct fuel as [|fuel]; [rewrite length_node in Hf; lia|].
    destruct (IHl fuel _ _ z Hl eq_refl ltac:(lia)) as (w & Hw & Hh). exists w. cbn [find_least_loop]. rewrite Hg. cbn [mbind outcome_mbind]. rewrite El.
    split; [done|]. change (elems (Node (Node l1 z l2) x r)) with (elems (Node l1 z l2) ++ x :: elems r). destruct (elems (Node l1 z l2)); [done|exact Hh].
Qed.

Lemma klt_tv_le D x y dx dy : klt D x y -> D !! x = Some dx -> D !! y = Some dy -> tv_le dx.1 dy.1 = true.
Proof. unfold klt, dlt, tv_le. intros H Hx Hy. rewrite Hx, Hy in H. bcase; try done; lia. Qed.

Lemma tv_le_refl t : tv_le t t = true.
Proof. unfold tv_le. rewrite Z.ltb_irrefl. lia. Qed.

(** The head of the tree has the least time. *)
Lemma head_least s A t x :
  sched_rel s A t -> head (elems t) = Some x ->
  exists tv n, A !! x = Some tv /\ mem s !! x = Some n /\ se_tv n = tv /\ forall y tv', A !! y = Some tv' -> tv_le tv tv' = true.
Proof.
  intros [(Hs & _ & Hsort) Hi Ho _] Hh. destruct (elems t) as [|z l] eqn:El; [done|]. injection Hh as ->.
  assert (Hx : x ∈ elems t) by (rewrite El; set_solver). destruct (repr_alloc _ _ _ _ _ (proj1 Hs) Hx) as [n Hn].
  assert (HAx : A !! x = Some (se_tv n)) by (rewrite Hi by (by rewrite <- El); by rewrite data_lookup, Hn).
  exists (se_tv n), n. do 3 (split; [done|]). intros y tv' Hy. destruct (decide (y ∈ x :: l)) as [Hyt|Hyt]; [|by destruct (Ho y Hyt); congruence].
  apply elem_of_cons in Hyt as [->|Hyl]; [assert (tv' = se_tv n) as -> by congruence; apply tv_le_refl|].
  assert (Hyt : y ∈ elems t) by (rewrite El; set_solver). destruct (repr_alloc _ _ _ _ _ (proj1 Hs) Hyt) as [ny Hny].
  rewrite Hi in Hy by set_solver. rewrite data_lookup, Hny in Hy. injection Hy as <-. inversion Hsort as [|? ? _ Hf]; subst. rewrite Forall_forall in Hf.
  apply (klt_tv_le (data s) x y (dat n) (dat ny)); [by apply Hf|by rewrite data_lookup, Hn|by rewrite data_lookup, Hny].
Qed.

(** The answer: an entry with the least time, or none if there is no entry. *)
Definition least_answer (A : gmap Z timeval) (r : option (Z * timeval)) : Prop :=
  match r with
  | Some (x, tv) => A !! x = Some tv /\ forall y tv', A !! y = Some tv' -> tv_le tv tv' = true
  | None => A = ∅
  end.

Lemma get_earliest_spec s A :
  sched_inv s A -> exists s' r, schedule_get_earliest_wakeup s = Ret (s', r) /\ sched_inv s' A /\ mem s' = mem s /\ least_answer A r.
Proof.
  intros (t & Ht). pose proof Ht as [Htr Hi Ho Hc]. unfold schedule_get_earliest_wakeup.
  assert (exists e, (match earliest_wakeup s with Some _ => Ret s | None => e ← schedule_find_least s (root s); Ret (set_earliest s e) end) = Ret (set_earliest s e) /\
    e = head (elems t)) as (e & E & He).
  { destruct (earliest_wakeup s) as [z|] eqn:Ew; [exists (Some z); split; [by destruct s; cbn in *; subst|by rewrite (Hc z)]|].
    destruct (root s) as [x|] eqn:Er; cbn [schedule_find_least].
    - destruct (find_least_spec s t (size (mem s)) None (root s) x (proj1 (proj1 Htr)) Er) as (y & -> & Hy); [by apply Nat.lt_le_incl, Nat.lt_succ_r, shape_size, Htr|].
      by exists (Some y).
    - exists None. split; [done|]. destruct Htr as [[Hr _] _]. rewrite Er in Hr. destruct t; cbn [repr] in Hr; [done|]. by destruct Hr. }
  rewrite E. cbn [mbind outcome_mbind earliest_wakeup set_earliest].
  assert (Hinv : sched_inv (set_earliest s e) A). { exists t. split; [exact Htr|exact Hi|exact Ho|]. cbn [earliest_wakeup set_earliest]. intros x ->. done. }
  destruct e as [x|].
  - destruct (head_least s A t x Ht (eq_sym He)) as (tv & n & HA & Hn & Etv & Hle). rewrite (get_Some _ _ n) by done. cbn [mbind outcome_mbind].
    eexists _, _. split; [done|]. split; [done|]. split; [done|]. cbn [least_answer]. by rewrite Etv.
  - eexists _, _. split; [done|]. split; [done|]. split; [done|]. cbn [least_answer]. apply map_eq. intros x. rewrite lookup_empty.
    apply Ho. destruct (elems t); [set_solver|done].
Qed.

(** ** Sequences of operations *)

(** An entry lives in its owner, which allocates it cleared and frees it when it is not
    scheduled. *)
Inductive sched_op : Type :=
| SAlloc (x : Z)
| SAdd (x : Z) (tv : timeval) (sigma : Z)
| SRemove (x : Z)
| SEarliest
| SFree (x : Z).

Definition sched_exec (rnd : nat -> Z) (fuel : nat) (s : schedule) (op : sched_op) : outcome (schedule * option (Z * timeval)) :=
  match op with
  | SAlloc x => Ret (set_mem s (<[x := mkse (mktv 0 0) 0 None None None]> (mem s)), None)
  | SAdd x tv sigma => s ← schedule_add_entry rnd fuel s x tv sigma; Ret (s, None)
  | SRemove x => s ← schedule_remove_entry s x; Ret (s, None)
  | SEarliest => schedule_get_earliest_wakeup s
  | SFree x => Ret (set_mem s (delete x (mem s)), None)
  end.

Fixpoint sched_run (rnd : nat -> Z) (fuel : nat) (s : schedule) (ops : list sched_op) : outcome (schedule * list (option (Z * timeval))) :=
  match ops with
  | [] => Ret (s, [])
  | op :: ops => '(s, r) ← sched_exec rnd fuel s op; '(s, rs) ← sched_run rnd fuel s ops; Ret (s, r :: rs)
  end.

(** The allocated entries and the abstract schedule after an operation, and when the
    operation may be used. *)
Definition spec_alloc (al : gset Z) (op : sched_op) : gset Z :=
  match op with SAlloc x => {[x]} ∪ al | SFree x => al ∖ {[x]} | _ => al end.

Definition spec_exec (A : gmap Z timeval) (op : sched_op) : gmap Z timeval :=
  match op with SAdd x tv sigma => spec_add A x tv sigma | SRemove x => delete x A | _ => A end.

Definition spec_pre (al : gset Z) (A : gmap Z timeval) (op : sched_op) : Prop :=
  match op with
  | SAlloc x => x ∉ al
  | SAdd x _ _ => x ∈ al
  | SRemove x => x ∈ al
  | SEarliest => True
  | SFree x => x ∈ al /\ A !! x = None
  end.

Fixpoint spec_ok (al : gset Z) (A : gmap Z timeval) (ops : list sched_op) : Prop :=
  match ops with
  | [] => True
  | op :: ops => spec_pre al A op /\ spec_ok (spec_alloc al op) (spec_exec A op) ops
  end.

Fixpoint spec_answers (A : gmap Z timeval) (ops : list sched_op) (rs : list (option (Z * timeval))) : Prop :=
  match ops, rs with
  | [], [] => True
  | op :: ops, r :: rs => match op with SEarliest => least_answer A r | _ => r = None end /\ spec_answers (spec_exec A op) ops rs
  | _, _ => False
  end.

(** Changes of memory outside the tree. *)
Lemma rel_outside s A t m :
  sched_rel s A t -> (forall x, x ∈ elems t -> m !! x = mem s !! x) ->
  (forall x n, x ∉ elems t -> m !! x = Some n -> mem s !! x = Some n \/ n = mkse (mktv 0 0) 0 None None None) -> sched_rel (set_mem s m) A t.
Proof.
  intros [([Hr Hn] & Hh & Hsort) Hi Ho Hc] Ha Hb.
  assert (HD : forall x, x ∈ elems t -> data (set_mem s m) !! x = data s !! x) by (intros x Hx; by rewrite !data_lookup; cbn [mem set_mem]; rewrite Ha).
  split; [split; [split; [by eapply repr_agree|done]|split; [by eapply heap_ge_agree|by eapply sorted_agree]]|..|exact Hc].
  - intros x Hx. rewrite HD by done. by apply Hi.
  - intros x Hx. destruct (Ho x Hx) as [HA Hl]. split; [done|]. intros n Hnx. destruct (Hb x n Hx Hnx) as [H| ->]; [by apply Hl|done].
Qed.

Lemma sched_exec_spec rnd s A op :
  fair rnd -> Z.of_nat (size (mem s)) < 2 ^ 31 - 1 -> sched_inv s A -> spec_pre (dom (mem s)) A op ->
  exists F s' r, (forall fuel, (F <= fuel)%nat -> sched_exec rnd fuel s op = Ret (s', r)) /\ sched_inv s' (spec_exec A op) /\
    dom (mem s') = spec_alloc (dom (mem s)) op /\ match op with SEarliest => least_answer A r | _ => r = None end.
Proof.
  intros Hf Hsz Hinv Hpre. destruct op as [x|x tv sigma|x| |x]; cbn [spec_pre spec_exec spec_alloc sched_exec] in *.
  - apply not_elem_of_dom in Hpre. destruct Hinv as (t & Ht). eexists 0%nat, _, None. split; [done|]. split; [|split; [apply dom_insert_L|done]].
    assert (Hx : x ∉ elems t) by (intros Hx; destruct Ht as [([Hr _] & _) _ _ _]; destruct (repr_alloc _ _ _ _ _ Hr Hx); congruence).
    exists t. apply rel_outside; [done|..].
    + intros y Hy. apply lookup_insert_ne. by intros ->.
    + intros y n Hy. destruct (decide (y = x)) as [->|Hne]; [rewrite lookup_insert_eq; intros [= <-]; by right|rewrite lookup_insert_ne by done; by left].
  - apply elem_of_dom in Hpre as [n Hn]. destruct (add_entry_spec rnd s A x n tv sigma Hf Hsz Hinv Hn) as (F & s' & HF & Hi & Hd). exists F, s', None.
    split; [intros fuel Hfu; by rewrite HF|]. done.
  - apply elem_of_dom in Hpre as [n Hn]. destruct (remove_entry_spec s A x n Hinv Hn) as (s' & E & Hi & Hd). exists 0%nat, s', None. rewrite E. done.
  - destruct (get_earliest_spec s A Hinv) as (s' & r & E & Hi & Hm & Hr). exists 0%nat, s', r. split; [done|]. split; [done|]. split; [by rewrite Hm|done].
  - destruct Hpre as [Hx HA]. destruct Hinv as (t & Ht). eexists 0%nat, _, None. split; [done|]. split; [|split; [apply dom_delete_L|done]].
    assert (Hxt : x ∉ elems t).
    { intros Hxt. pose proof (rel_in _ _ _ Ht x Hxt) as HA'. apply elem_of_dom in Hx as [n Hn]. rewrite HA, data_lookup, Hn in HA'. done. }
    exists t. apply rel_outside; [done|..].
    + intros y Hy. apply lookup_delete_ne. by intros ->.
    + intros y n Hy [_ H]%lookup_delete_Some. by left.
Qed.

Lemma size_alloc (al : gset Z) op : (size (spec_alloc al op) <= S (size al))%nat.
Proof.
  destruct op; cbn [spec_alloc]; try lia.
  - rewrite size_union_alt, size_singleton. pose proof (subseteq_size (al ∖ {[x]}) al ltac:(set_solver)). lia.
  - pose proof (subseteq_size (al ∖ {[x]}) al ltac:(set_solver)). lia.
Qed.

Lemma sched_run_spec rnd ops : forall s A,
  fair rnd -> Z.of_nat (size (mem s)) + zlen ops < 2 ^ 31 - 1 -> sched_inv s A -> spec_ok (dom (mem s)) A ops ->
  exists F s' rs, (forall fuel, (F <= fuel)%nat -> sched_run rnd fuel s ops = Ret (s', rs)) /\ spec_answers A ops rs /\
    sched_inv s' (fold_left spec_exec ops A).
Proof.
  induction ops as [|op ops IH]; intros s A Hf Hsz Hinv Hok; cbn [spec_ok] in Hok.
  - by exists 0%nat, s, [].
  - destruct Hok as [Hpre Hok]. autorewrite with zlen in Hsz. pose proof (zlen_nonneg ops).
    destruct (sched_exec_spec rnd s A op Hf ltac:(lia) Hinv Hpre) as (F1 & s1 & r & HF1 & Hi1 & Hd1 & Hr).
    destruct (IH s1 (spec_exec A op) Hf) as (F2 & s2 & rs & HF2 & Hr2 & Hi2); [|done|by rewrite Hd1|].
    { pose proof (size_alloc (dom (mem s)) op) as Hsa. rewrite <- Hd1, !size_dom in Hsa. lia. }
    exists (F1 + F2)%nat, s2, (r :: rs). split; [|done]. intros fuel Hfu. cbn [sched_run]. rewrite HF1 by lia. cbn [mbind outcome_mbind]. by rewrite HF2 by lia.
Qed.

(** C29: the schedule is a priority queue.  For every sequence of operations on allocated
    entries and every source of random numbers that does not run out of values, every
    loop ends (the retries of an insertion included) and no pointer outside the entries
    is followed; every query returns an entry of the abstract schedule with the least
    wake-up time, or none if nothing is scheduled, where the abstract schedule maps each
    entry to the time it was last given, up to [sigma]; and the nodes form a treap: a
    search tree on the keys and a heap on the priorities, with all back pointers right. *)
Theorem schedule_is_priority_queue (rnd : nat -> Z) (ops : list sched_op) :
  fair rnd -> zlen ops < 2 ^ 31 - 1 -> spec_ok ∅ ∅ ops ->
  exists F s rs, (forall fuel, (F <= fuel)%nat -> sched_run rnd fuel schedule_init ops = Ret (s, rs)) /\
    spec_answers ∅ ops rs /\ exists t, treap s t /\ forall x tv, fold_left spec_exec ops ∅ !! x = Some tv <-> x ∈ elems t /\ (fst <$> data s !! x) = Some tv.
Proof.
  intros Hf Hlen Hok. destruct (sched_run_spec rnd ops schedule_init ∅ Hf) as (F & s & rs & HF & Hr & t & Ht).
  - cbn [mem schedule_init]. rewrite map_size_empty. lia.
  - exists Leaf. split; [split; [split; [done|constructor]|split; [done|constructor]]|..|done]; [by intros x ?%elem_of_nil|].
    intros x _. split; [apply lookup_empty|]. intros n. cbn [mem schedule_init]. by rewrite lookup_empty.
  - cbn [mem schedule_init]. by rewrite dom_empty_L.
  - exists F, s, rs. split; [done|]. split; [done|]. exists t. destruct Ht as [Htr Hi Ho _]. split; [done|]. intros x tv.
    destruct (decide (x ∈ elems t)) as [Hx|Hx]; [rewrite (Hi x Hx); naive_solver|]. destruct (Ho x Hx) as [-> _]. naive_solver.
Qed.

(** A source that counts through the range, and a run with two entries. *)
Definition counter (k : nat) : Z := Z.of_nat k mod 2 ^ 31.

Definition demo_ops : list sched_op :=
  [SAlloc 1; SAlloc 2; SAdd 1 (mktv 50 0) 0; SAdd 2 (mktv 40 7) 0; SEarliest; SAdd 2 (mktv 60 0) 0; SEarliest; SRemove 1; SFree 1; SEarliest].

Lemma counter_fair : fair counter.
Proof.
  intros n v Hv. exists (n * Z.to_nat (2 ^ 31) + Z.to_nat v)%nat. unfold counter. split; [nia|].
  rewrite Nat2Z.inj_add, Nat2Z.inj_mul, !Z2Nat.id, Z.add_comm, Z_mod_plus_full by lia. by apply Z.mod_small; lia.
Qed.

Lemma schedule_is_priority_queue_witness :
  (exists s, sched_run counter 10 schedule_init demo_ops =
    Ret (s, [None; None; None; None; Some (2, mktv 40 7); None; Some (1, mktv 50 0); None; None; Some (2, mktv 60 0)])) /\
  exists F s rs, (forall fuel, (F <= fuel)%nat -> sched_run counter fuel schedule_init demo_ops = Ret (s, rs)) /\ spec_answers ∅ demo_ops rs.
Proof.
  split; [eexists; vm_compute; reflexivity|].
  destruct (schedule_is_priority_queue counter demo_ops counter_fair) as (F & s & rs & H1 & H2 & _).
  - vm_compute. reflexivity.
  - cbn [spec_ok demo_ops spec_pre spec_alloc spec_exec]. repeat split; try set_solver; vm_compute; reflexivity.
  - by exists F, s, rs.
Defined.
