(* ===== verification/Proto.v ===== *)
(** * Rewriting of tunnelled packets ([proto.h], [proto.c], [mss.c], [clinat.c], [forward.c])

    Packets that pass through the tunnel are altered in place: the MSS option of TCP SYN
    segments is lowered, addresses are translated, and checksums are updated
    incrementally.  ICMPv6 errors are built from scratch.  16-bit and 32-bit
    members that the code reads without [ntohs]/[ntohl] have the byte order of the host,
    which is little endian on every platform the repository builds for. *)
From S2P Require Import Prelude Integer Buffer Mroute.

(** Words in the byte order of the host. *)
Fixpoint le_value (l : list Z) : Z :=
  match l with
  | [] => 0
  | b :: l => b + 256 * le_value l
  end.

Fixpoint le_bytes (n : nat) (x : Z) : list Z :=
  match n with
  | O => []
  | S k => x mod 256 :: le_bytes k (x / 256)
  end.

(** [htons], as a number. *)
Definition htons (x : Z) : Z := le_value (be_bytes 2 x).

(** The copy [newbuf] of [buf] points into the same object: what was written through it is
    seen in [buf]. *)
Definition with_data (buf newbuf : buffer) : buffer := mkbuffer (capacity buf) (offset buf) (len buf) (data newbuf).

(** ** Constants of [proto.h] *)

Inductive dev_type : Type := DEV_TYPE_UNDEF | DEV_TYPE_NULL | DEV_TYPE_TUN | DEV_TYPE_TAP.

Definition OPENVPN_ETH_P_IPV6 : Z := 0x86DD.
Definition OPENVPN_IPH_GET_LEN (v : Z) : Z := Z.shiftl (Z.land v 0x0F) 2.
Definition OPENVPN_IP_OFFMASK : Z := 0x1fff.
Definition OPENVPN_IPPROTO_TCP : Z := 6.
Definition OPENVPN_IPPROTO_UDP : Z := 17.
Definition OPENVPN_IPPROTO_ICMPV6 : Z := 58.
Definition OPENVPN_TCPH_GET_DOFF (d : Z) : Z := Z.shiftr (Z.land d 0xF0) 2.
Definition OPENVPN_TCPH_SYN_MASK : Z := 2.
Definition OPENVPN_TCPOPT_EOL : Z := 0.
Definition OPENVPN_TCPOPT_NOP : Z := 1.
Definition OPENVPN_TCPOPT_MAXSEG : Z := 2.
Definition OPENVPN_TCPOLEN_MAXSEG : Z := 4.
Definition tcphdr_size : Z := 20.
Definition udphdr_size : Z := 8.
Definition icmp6hdr_size : Z := 8.

(** ** Incremental checksums *)

(** [acc] and [cksum] are [int]s of the sizes the callers produce; there is no overflow. *)
Definition ADJUST_CHECKSUM (acc cksum : Z) : Z :=
  let acc := acc + cksum in
  if acc <? 0
  then
    let acc := - acc in
    let acc := Z.shiftr acc 16 + Z.land acc 0xffff in
    let acc := acc + Z.shiftr acc 16 in
    u16 (Z.lnot acc)
  else
    let acc := Z.shiftr acc 16 + Z.land acc 0xffff in
    let acc := acc + Z.shiftr acc 16 in
    u16 acc.

Definition ADD_CHECKSUM_32 (acc x : Z) : Z := acc + Z.land x 0xffff + Z.shiftr x 16.
Definition SUB_CHECKSUM_32 (acc x : Z) : Z := acc - Z.land x 0xffff - Z.shiftr x 16.

(** ** Kinds of packets *)

Definition is_ipv_X (tunnel_type : dev_type) (buf : buffer) (ip_ver : Z) : outcome (buffer * bool) :=
  off ← match tunnel_type with
        | DEV_TYPE_TUN => Ret (if buf_len buf <? iphdr_size then None else Some 0)
        | DEV_TYPE_TAP =>
            if buf_len buf <? ethhdr_size + iphdr_size then Ret None
            else
              p ← bptr buf;
              proto ← buf_load buf (p + 12) 2;
              Ret (if negb (be_value proto =? (if ip_ver =? 6 then OPENVPN_ETH_P_IPV6 else OPENVPN_ETH_P_IPV4)) then None else Some ethhdr_size)
        | _ => Ret None
        end;
  match off with
  | None => Ret (buf, false)
  | Some off =>
      p ← bptr buf;
      v ← buf_load1 buf (p + off);
      Ret (if OPENVPN_IPH_GET_VER v =? ip_ver then buf_advance buf off else (buf, false))
  end.

Definition is_ipv4 (tunnel_type : dev_type) (buf : buffer) : outcome (buffer * bool) := is_ipv_X tunnel_type buf 4.
Definition is_ipv6 (tunnel_type : dev_type) (buf : buffer) : outcome (buffer * bool) := is_ipv_X tunnel_type buf 6.

(** The version and the offset; the offset is not written for other tunnel types. *)
Definition get_tun_ip_ver (tunnel_type : dev_type) (buf : buffer) : outcome (Z * option Z) :=
  match tunnel_type with
  | DEV_TYPE_TUN =>
      if iphdr_size <=? buf_len buf
      then p ← bptr buf; v ← buf_load1 buf p; Ret (OPENVPN_IPH_GET_VER v, Some 0)
      else Ret (-1, Some 0)
  | DEV_TYPE_TAP =>
      if ethhdr_size <=? buf_len buf
      then
        p ← bptr buf;
        proto ← buf_load buf (p + 12) 2;
        Ret (if be_value proto =? OPENVPN_ETH_P_IPV6 then 6 else if be_value proto =? OPENVPN_ETH_P_IPV4 then 4 else -1, Some ethhdr_size)
      else Ret (-1, Some ethhdr_size)
  | _ => Ret (-1, None)
  end.

(** ** The checksum of a segment with its pseudo header *)

(** The loop over the payload. *)
Fixpoint checksum_payload (sum : Z) (payload : list Z) : Z :=
  match payload with
  | a :: b :: l => checksum_payload (sum +u u16 (Z.land (Z.shiftl a 8) 0xFF00 + Z.land b 0xFF)) l
  | [a] => sum +u u16 (Z.land (Z.shiftl a 8) 0xFF00)
  | [] => sum
  end.

(** The loops over the addresses. *)
Fixpoint checksum_addr (sum : Z) (addr : list Z) : Z :=
  match addr with
  | a :: b :: l => checksum_addr (sum +u (u16 (Z.land (Z.shiftl a 8) 0xFF00) + Z.land b 0xFF)) l
  | _ => sum
  end.

(** [while (sum >> 16)], with fuel. *)
Fixpoint checksum_fold (fuel : nat) (sum : Z) : outcome Z :=
  if Z.shiftr sum 16 =? 0 then Ret sum
  else match fuel with
       | O => Oob
       | S fuel => checksum_fold fuel (Z.land sum 0xFFFF +u Z.shiftr sum 16)
       end.

(** [inet6] is [af != AF_INET]. *)
Definition ip_checksum (inet6 : bool) (payload src_addr dest_addr : list Z) (proto : Z) : outcome Z :=
  let addr_len := if inet6 then 16 else 4 in
  let sum := checksum_payload 0 payload in
  src ← load src_addr 0 addr_len;
  let sum := checksum_addr sum src in
  dest ← load dest_addr 0 addr_len;
  let sum := checksum_addr sum dest in
  let sum := sum +u u16 (zlen payload) in
  let sum := sum +u u16 proto in
  sum ← checksum_fold 3 sum;
  Ret (u16 (Z.lnot sum)).

(** ** Lowering the MSS ([mss.c]) *)

(** An MSS option at the position [opt] of the object; the TCP header is at [tc]. *)
Definition mss_clamp (buf : buffer) (tc opt maxmss : Z) : outcome buffer :=
  o2 ← buf_load1 buf (opt + 2);
  o3 ← buf_load1 buf (opt + 3);
  let mssval := u16 (Z.shiftl o2 8 + o3) in
  if maxmss <? mssval
  then
    let accumulate := htons mssval in
    buf ← buf_store buf (opt + 2) [Z.land (Z.shiftr maxmss 8) 0xff];
    buf ← buf_store buf (opt + 3) [Z.land maxmss 0xff];
    let accumulate := accumulate - htons maxmss in
    check ← buf_load buf (tc + 16) 2;
    buf_store buf (tc + 16) (le_bytes 2 (ADJUST_CHECKSUM accumulate (le_value check)))
  else Ret buf.

(** The loop over the options, with fuel. *)
Fixpoint mss_loop (fuel : nat) (buf : buffer) (tc opt olen maxmss : Z) : outcome buffer :=
  if olen <=? 1 then Ret buf
  else match fuel with
  | O => Oob
  | S fuel =>
      kind ← buf_load1 buf opt;
      if kind =? OPENVPN_TCPOPT_EOL then Ret buf
      else if kind =? OPENVPN_TCPOPT_NOP then mss_loop fuel buf tc (opt + 1) (olen - 1) maxmss
      else
        optlen ← buf_load1 buf (opt + 1);
        if (optlen <=? 0) || (olen <? optlen) then Ret buf
        else
          buf ← (if (kind =? OPENVPN_TCPOPT_MAXSEG) && (optlen =? OPENVPN_TCPOLEN_MAXSEG)
                 then mss_clamp buf tc opt maxmss else Ret buf);
          mss_loop fuel buf tc (opt + optlen) (olen - optlen) maxmss
  end.

(** Every option takes at least one byte, so the length of the options is enough fuel. *)
Definition mss_fixup_dowork (buf : buffer) (maxmss : Z) : outcome buffer :=
  if buf_len buf <? tcphdr_size then Ret buf
  else
    tc ← bptr buf;
    doff ← buf_load1 buf (tc + 12);
    let hlen := OPENVPN_TCPH_GET_DOFF doff in
    if (hlen <=? tcphdr_size) || (buf_len buf <? hlen) then Ret buf
    else mss_loop (Z.to_nat (hlen - tcphdr_size)) buf tc (tc + tcphdr_size) (hlen - tcphdr_size) maxmss.

Definition mss_fixup_ipv4 (buf : buffer) (maxmss : Z) : outcome buffer :=
  if buf_len buf <? iphdr_size then Ret buf
  else
    pip ← bptr buf;
    version_len ← buf_load1 buf pip;
    let hlen := OPENVPN_IPH_GET_LEN version_len in
    protocol ← buf_load1 buf (pip + 9);
    tot_len ← buf_load buf (pip + 2) 2;
    frag_off ← buf_load buf (pip + 6) 2;
    if (protocol =? OPENVPN_IPPROTO_TCP) && (be_value tot_len =? buf_len buf) &&
       (Z.land (be_value frag_off) OPENVPN_IP_OFFMASK =? 0) && (hlen <=? buf_len buf) && (tcphdr_size <=? buf_len buf - hlen)
    then
      let '(newbuf, ok) := buf_advance buf hlen in
      if ok : bool
      then
        tc ← bptr newbuf;
        flags ← buf_load1 newbuf (tc + 13);
        if negb (Z.land flags OPENVPN_TCPH_SYN_MASK =? 0)
        then newbuf ← mss_fixup_dowork newbuf (u16 maxmss); Ret (with_data buf newbuf)
        else Ret buf
      else Ret buf
    else Ret buf.

Definition mss_fixup_ipv6 (buf : buffer) (maxmss : Z) : outcome buffer :=
  if buf_len buf <? ipv6hdr_size then Ret buf
  else
    pip6 ← bptr buf;
    payload_len ← buf_load buf (pip6 + 4) 2;
    if negb (buf_len buf =? be_value payload_len + 40) then Ret buf
    else
      nexthdr ← buf_load1 buf (pip6 + 6);
      if negb (nexthdr =? OPENVPN_IPPROTO_TCP) then Ret buf
      else
        let '(newbuf, ok) := buf_advance buf 40 in
        if ok && (tcphdr_size <=? buf_len newbuf)
        then
          tc ← bptr newbuf;
          flags ← buf_load1 newbuf (tc + 13);
          if negb (Z.land flags OPENVPN_TCPH_SYN_MASK =? 0)
          then newbuf ← mss_fixup_dowork newbuf (u16 (u16 maxmss - 20)); Ret (with_data buf newbuf)
          else Ret buf
        else Ret buf.

(** ** Address translation ([clinat.c]) *)

Definition MAX_CLIENT_NAT : Z := 64.
Definition CN_OUTGOING : Z := 0.
Definition CN_INCOMING : Z := 1.
Definition CN_SNAT : Z := 0.
Definition CN_DNAT : Z := 1.

(** [struct client_nat_entry]; the addresses are in network byte order, here as the
    numbers the host reads. *)
Record client_nat_entry : Type := mkcn { cn_type : Z; cn_network : Z; cn_netmask : Z; cn_foreign_network : Z }.

(** [struct client_nat_option_list]: the entries in use. *)
Definition client_nat_option_list : Type := list client_nat_entry.

Definition add_entry (dest : client_nat_option_list) (e : client_nat_entry) : client_nat_option_list * bool :=
  if MAX_CLIENT_NAT <=? zlen dest then (dest, false) else (dest ++ [e], true).

Definition new_client_nat_list : client_nat_option_list := [].

Fixpoint copy_client_nat_option_list (dest src : client_nat_option_list) : client_nat_option_list :=
  match src with
  | [] => dest
  | e :: src => let '(dest, ok) := add_entry dest e in if ok : bool then copy_client_nat_option_list dest src else dest
  end.

(** The loop over the rules: the packet, [accumulate] and [alog]. *)
Fixpoint nat_loop (l : client_nat_option_list) (direction : Z) (buf : buffer) (h accumulate alog : Z) : outcome (buffer * Z * Z) :=
  match l with
  | [] => Ret (buf, accumulate, alog)
  | e :: l =>
      let '(addr_ptr, amask) := if negb (Z.lxor (cn_type e) direction =? 0) then (h + 16, 2) else (h + 12, 1) in
      a ← buf_load buf addr_ptr 4;
      let addr := le_value a in
      let '(from, to) := if negb (direction =? 0) then (cn_foreign_network e, cn_network e) else (cn_network e, cn_foreign_network e) in
      if (Z.land addr (cn_netmask e) =? from) && (Z.land amask alog =? 0)
      then
        let accumulate := ADD_CHECKSUM_32 accumulate addr in
        let addr := Z.lor (Z.land addr (u32 (Z.lnot (cn_netmask e)))) to in
        let accumulate := SUB_CHECKSUM_32 accumulate addr in
        buf ← buf_store buf addr_ptr (le_bytes 4 addr);
        nat_loop l direction buf h accumulate (Z.lor alog amask)
      else nat_loop l direction buf h accumulate alog
  end.

(** A checksum in the packet is updated in place. *)
Definition adjust_at (buf : buffer) (pos accumulate : Z) : outcome buffer :=
  check ← buf_load buf pos 2;
  buf_store buf pos (le_bytes 2 (ADJUST_CHECKSUM accumulate (le_value check))).

Definition client_nat_transform (l : client_nat_option_list) (ipbuf : buffer) (direction : Z) : outcome buffer :=
  h ← bptr ipbuf;
  '(ipbuf, accumulate, alog) ← nat_loop l direction ipbuf h 0 0;
  if negb (alog =? 0)
  then
    ipbuf ← adjust_at ipbuf (h + 10) accumulate;
    protocol ← buf_load1 ipbuf (h + 9);
    if protocol =? OPENVPN_IPPROTO_TCP
    then if iphdr_size + tcphdr_size <=? buf_len ipbuf then adjust_at ipbuf (h + iphdr_size + 16) accumulate else Ret ipbuf
    else if protocol =? OPENVPN_IPPROTO_UDP
    then if iphdr_size + udphdr_size <=? buf_len ipbuf then adjust_at ipbuf (h + iphdr_size + 6) accumulate else Ret ipbuf
    else Ret ipbuf
  else Ret ipbuf.

(** ** ICMPv6 errors ([forward.c]) *)

Definition MAX_ICMPV6LEN : Z := 1280.

(** [saddr_] is the address [inet_pton] yields for [ifconfig_ipv6_remote] or, without it,
    for fe80::7; [mtu] is [TUN_MTU_SIZE]; the result is the packet to send, if any. *)
Definition ipv6_send_icmp_unreachable (tunnel_type : dev_type) (buf aux_buf : buffer) (saddr_ : list Z) (mtu : Z)
  : outcome (option buffer) :=
  '(inputipbuf, _) ← is_ipv6 tunnel_type buf;
  if buf_len inputipbuf <? ipv6hdr_size then Ret None
  else
    pip6 ← bptr inputipbuf;
    hdr ← buf_load inputipbuf pip6 ipv6hdr_size;
    let tap := match tunnel_type with DEV_TYPE_TAP => true | _ => false end in
    let icmpheader_len := ipv6hdr_size + icmp6hdr_size in
    let totalheader_len := icmpheader_len + (if tap then ethhdr_size else 0) in
    let max_payload_size := min_int MAX_ICMPV6LEN (mtu - icmpheader_len) in
    let payload_len := min_int max_payload_size (buf_len inputipbuf) in
    let daddr := ztake 16 (zdrop 8 hdr) in
    let pip6out := ztake 4 hdr ++ be_bytes 2 (icmp6hdr_size + payload_len) ++ [OPENVPN_IPPROTO_ICMPV6] ++ ztake 1 (zdrop 7 hdr) ++ saddr_ ++ daddr in
    let icmp6out := [1; 0; 0; 0; 0; 0; 0; 0] in
    let '(outbuf, ok) := buf_init aux_buf totalheader_len in
    _ ← c_assert ok;
    _ ← c_assert (buf_safe outbuf payload_len);
    '(outbuf, _, ok) ← buf_copy_n outbuf inputipbuf payload_len;
    _ ← c_assert ok;
    '(outbuf, ok) ← buf_write_prepend outbuf icmp6out;
    _ ← c_assert ok;
    payload ← buf_contents outbuf;
    new_csum ← ip_checksum true payload saddr_ daddr OPENVPN_IPPROTO_ICMPV6;
    p ← bptr outbuf;
    outbuf ← buf_store outbuf (p + 2) (be_bytes 2 new_csum);
    '(outbuf, ok) ← buf_write_prepend outbuf pip6out;
    _ ← c_assert ok;
    if tap
    then
      if buf_len buf <? ethhdr_size then Ret (Some outbuf)
      else
        orig ← bptr buf;
        dest ← buf_load buf orig 6;
        source ← buf_load buf (orig + 6) 6;
        '(outbuf, ok) ← buf_write_prepend outbuf (source ++ dest ++ be_bytes 2 OPENVPN_ETH_P_IPV6);
        _ ← c_assert ok;
        Ret (Some outbuf)
    else Ret (Some outbuf).
