(* ===== verification/ProtoSpec.v ===== *)
(** * Rewritten packets keep valid checksums

    Checksums are sums of 16-bit words modulo 65535.  [sum16] is the sum in network byte
    order; the code works in host order, which multiplies every sum by 256 modulo 65535
    and so preserves which checksums are right. *)
From S2P Require Import Prelude Integer Buffer Mroute MrouteSpec Proto.

(** ** Sums of words *)

(** The internet checksum's sum over the bytes; an odd last byte counts as a high byte. *)
Fixpoint sum16 (l : list Z) : Z :=
  match l with
  | a :: b :: l => a * 256 + b + sum16 l
  | [a] => a * 256
  | [] => 0
  end.

(** Congruence modulo 65535, which one's complement sums respect. *)
Definition cong (a b : Z) : Prop := exists k, a - b = 65535 * k.

#[export] Instance cong_equiv : Equivalence cong.
Proof.
  split.
  - intros a. exists 0. lia.
  - intros a b [k H]. exists (- k). lia.
  - intros a b c [k H] [k' H']. exists (k + k'). lia.
Qed.

#[export] Instance cong_add : Proper (cong ==> cong ==> cong) Z.add.
Proof. intros a b [k H] c d [k' H']. exists (k + k'). lia. Qed.

#[export] Instance cong_sub : Proper (cong ==> cong ==> cong) Z.sub.
Proof. intros a b [k H] c d [k' H']. exists (k - k'). lia. Qed.

#[export] Instance cong_mul n : Proper (cong ==> cong) (Z.mul n).
Proof. intros a b [k H]. exists (n * k). lia. Qed.

Lemma cong_mod a b : cong a b <-> a mod 65535 = b mod 65535.
Proof.
  split.
  - intros [k H]. replace a with (b + k * 65535) by lia. apply Z.mod_add. lia.
  - intros H. exists (a / 65535 - b / 65535). pose proof (Z.div_mod a 65535). pose proof (Z.div_mod b 65535). lia.
Qed.

Lemma list_ind2 {A} (P : list A -> Prop) :
  P [] -> (forall a, P [a]) -> (forall a b l, P l -> P (a :: b :: l)) -> forall l, P l.
Proof.
  intros H0 H1 H2. enough (H : forall l, P l /\ forall a, P (a :: l)) by (intros l; apply H).
  induction l as [|a l [IH1 IH2]]; [done|]. split; [apply IH2|]. intros b. by apply H2.
Qed.

Lemma sum16_app l1 l2 : Z.even (zlen l1) = true -> sum16 (l1 ++ l2) = sum16 l1 + sum16 l2.
Proof.
  induction l1 as [|a|a b l1 IH] using list_ind2; intros He; [done|done|].
  cbn [app sum16]. rewrite IH; [lia|]. rewrite !zlen_cons in He. rewrite <- He. replace (1 + (1 + zlen l1)) with (zlen l1 + 2 * 1) by lia. by rewrite Z.even_add_mul_2.
Qed.

Lemma len2 {A} (l : list A) : zlen l = 2 -> exists a b, l = [a; b].
Proof. destruct l as [|a [|b [|c l]]]; unfold zlen; cbn; intros; try lia. by exists a, b. Qed.

(** The word at index [p]. *)
Definition word_at (c : list Z) (p : Z) : Z := be_value (slice p 2 c).

Lemma slice_splice p x c : 0 <= p -> p + zlen x <= zlen c -> slice p (zlen x) (splice p x c) = x.
Proof.
  intros Hp Hl. unfold slice, splice. rewrite (zdrop_app_eq p) by zlia. by apply ztake_app_eq.
Qed.

Lemma split3 p n (c : list Z) : 0 <= p -> 0 <= n -> p + n <= zlen c -> c = ztake p c ++ slice p n c ++ zdrop (p + n) c.
Proof. intros Hp Hn Hl. unfold slice. rewrite <- zdrop_zdrop by lia. by rewrite ztake_zdrop, ztake_zdrop. Qed.

Lemma sum16_splice p x y c :
  0 <= p -> Z.even p = true -> p + 2 <= zlen c -> sum16 (splice p [x; y] c) = sum16 c - word_at c p + (x * 256 + y).
Proof.
  intros Hp He Hl. rewrite (split3 p 2 c) at 2 by lia. unfold splice, word_at. change (zlen [x; y]) with 2.
  assert (Ht : zlen (ztake p c) = p) by zlia. assert (Hs : zlen (slice p 2 c) = 2) by (unfold slice; zlia).
  rewrite !sum16_app by (rewrite ?Ht, ?Hs; done). cbn [sum16].
  destruct (len2 _ Hs) as (a & b & ->). cbn [sum16]. unfold be_value. cbn [fold_left]. lia.
Qed.

(** ** Host order *)

Lemma le2 a b : le_value [a; b] = a + 256 * b.
Proof. cbn [le_value]. lia. Qed.

Lemma le_bytes2 v : is_u16 v -> le_bytes 2 v = [v mod 256; v / 256].
Proof. unfold is_u16. intros Hv. cbn [le_bytes]. rewrite (Z.mod_small (v / 256)); [done|]. split; [apply Z.div_pos; lia|]. apply Z.div_lt_upper_bound; lia. Qed.

Lemma swap_cong a b : cong (a * 256 + b) (256 * (a + 256 * b)).
Proof. exists (- b). lia. Qed.

Lemma htons_cong v : is_u16 v -> cong v (256 * htons v).
Proof.
  intros Hv. unfold is_u16 in Hv. unfold htons. cbn [be_bytes app le_value]. rewrite Z.mul_0_r, Z.add_0_r.
  rewrite (Z.mod_small (v / 256)) by (split; [apply Z.div_pos; lia|apply Z.div_lt_upper_bound; lia]).
  etransitivity; [|apply swap_cong]. exists 0. pose proof (Z.div_mod v 256). lia.
Qed.

Lemma htons_range v : is_u16 v -> 0 <= htons v < 2 ^ 16.
Proof.
  intros Hv. unfold is_u16 in Hv. unfold htons. cbn [be_bytes app le_value]. pose proof (Z.mod_pos_bound v 256). pose proof (Z.mod_pos_bound (v / 256) 256). lia.
Qed.

(** ** The checksum update *)

Lemma fold_cong a : 0 <= a < 2 ^ 31 -> let f := Z.shiftr a 16 + Z.land a 0xffff in
  cong (u16 (f + Z.shiftr f 16)) a /\ 0 <= f + Z.shiftr f 16.
Proof.
  intros Ha f. assert (Hf : f = a / 65536 + a mod 65536).
  { unfold f. change 0xffff with (Z.ones 16). by rewrite Z.shiftr_div_pow2, Z.land_ones by lia. }
  rewrite Z.shiftr_div_pow2 by lia. change (2 ^ 16) with 65536. pose proof (Z.div_mod a 65536). pose proof (Z.mod_pos_bound a 65536).
  assert (0 <= a / 65536 < 32768) by (split; [apply Z.div_pos; lia|apply Z.div_lt_upper_bound; lia]).
  unfold u16. change (2 ^ 16) with 65536. destruct (Z.lt_ge_cases f 65536).
  - rewrite (Z.div_small f) by lia. rewrite Z.mod_small by lia. split; [|lia]. exists (- (a / 65536)). lia.
  - assert (E : f / 65536 = 1) by (symmetry; apply (Z.div_unique f 65536 1 (f - 65536)); lia). rewrite E.
    assert (E2 : (f + 1) mod 65536 = f + 1 - 65536) by (symmetry; apply (Z.mod_unique (f + 1) 65536 1); lia).
    rewrite E2. split; [|lia]. exists (- (a / 65536) - 1). lia.
Qed.

(** The updated checksum is the old one plus the change, as one's complement sums. *)
Lemma adjust_checksum_spec acc ck :
  Z.abs acc < 2 ^ 30 -> is_u16 ck -> cong (ADJUST_CHECKSUM acc ck) (acc + ck) /\ is_u16 (ADJUST_CHECKSUM acc ck).
Proof.
  unfold is_u16. intros Ha Hc. unfold ADJUST_CHECKSUM. destruct (acc + ck <? 0) eqn:E; breflect; (split; [|apply Z.mod_pos_bound; lia]).
  - destruct (fold_cong (- (acc + ck)) ltac:(lia)) as [H1 H2]. set (f := _ + Z.land _ _) in *. set (g := f + Z.shiftr f 16) in *.
    assert (Hn : u16 (Z.lnot g) = 65535 - u16 g).
    { unfold Z.lnot, u16. change (2 ^ 16) with 65536. replace (Z.pred (- g)) with ((65535 - g mod 65536) + (- (g / 65536) - 1) * 65536) by (pose proof (Z.div_mod g 65536); lia).
      rewrite Z.mod_add by lia. apply Z.mod_small. pose proof (Z.mod_pos_bound g 65536). lia. }
    rewrite Hn. destruct H1 as [k H1]. exists (1 - k). lia.
  - by apply fold_cong; lia.
Qed.

(** ** Writes into a packet *)

Lemma buf_store_conc pre c post k x :
  0 <= k -> k + zlen x <= zlen c -> buf_store (conc pre c post) (zlen pre + k) x = Ret (conc pre (splice k x c) post).
Proof.
  intros Hk Hl. unfold buf_store, conc at 1. cbn [data capacity offset len].
  rewrite (store_eq _ (pre ++ ztake k c) (slice k (zlen x) c) (zdrop (k + zlen x) c ++ post)); [|..|by unfold slice; zlia].
  - cbn [mbind outcome_mbind]. f_equal. apply mkbuffer_conc; rewrite ?zlen_splice by done; try done. unfold splice. by rewrite <- !app_assoc.
  - rewrite (split3 k (zlen x) c) at 1 by (try apply zlen_nonneg; lia). by rewrite <- !app_assoc.
  - zlia.
Qed.

Lemma buf_load1_total pre c post k :
  0 <= k < zlen c -> buf_load1 (conc pre c post) (zlen pre + k) = Ret (c !!! Z.to_nat k).
Proof.
  intros Hk. destruct (c !! Z.to_nat k) as [b|] eqn:E; [|apply lookup_ge_None in E; unfold zlen in Hk; lia].
  rewrite (buf_load1_conc _ _ _ k b) by (done || lia). by rewrite (list_lookup_total_correct _ _ _ E).
Qed.

Lemma buf_load1_head pre c post : 0 < zlen c -> buf_load1 (conc pre c post) (zlen pre) = Ret (c !!! 0%nat).
Proof. intros Hc. pose proof (buf_load1_total pre c post 0 ltac:(lia)) as H. by rewrite Z.add_0_r in H. Qed.

Lemma splice_pair p x y c : 0 <= p -> p + 2 <= zlen c -> splice (p + 1) [y] (splice p [x] c) = splice p [x; y] c.
Proof.
  intros Hp Hl. apply list_eq. intros k. change (zlen [x; y]) with 2.
  rewrite lookup_splice by (try rewrite zlen_splice; change (zlen [y]) with 1; change (zlen [x]) with 1; lia).
  rewrite !lookup_splice by (change (zlen [x]) with 1; change (zlen [x; y]) with 2; lia).
  change (zlen [y]) with 1; change (zlen [x]) with 1; change (zlen [x; y]) with 2. bcase; breflect; try done; try lia.
  - replace (k - Z.to_nat (p + 1))%nat with 0%nat by lia. by replace (k - Z.to_nat p)%nat with 1%nat by lia.
  - replace (k - Z.to_nat p)%nat with 0%nat by lia. done.
Qed.

Lemma splice_u8 p x c : Forall is_u8 x -> Forall is_u8 c -> Forall is_u8 (splice p x c).
Proof. intros Hx Hc. unfold splice. rewrite !Forall_app. split; [by apply Forall_take|]. split; [done|by apply Forall_drop]. Qed.

Lemma splice_total p x c j :
  0 <= p -> p + zlen x <= zlen c -> 0 <= j -> (j < p \/ p + zlen x <= j) -> splice p x c !!! Z.to_nat j = c !!! Z.to_nat j.
Proof. intros Hp Hl Hj Ho. rewrite !list_lookup_total_alt, lookup_splice by done. bcase; breflect; [lia|done]. Qed.

Lemma slice_total p c : 0 <= p -> p + 2 <= zlen c -> slice p 2 c = [c !!! Z.to_nat p; c !!! Z.to_nat (p + 1)].
Proof.
  intros Hp Hl. unfold slice, ztake, zdrop. apply list_eq. intros k. rewrite lookup_take. change (Z.to_nat 2) with 2%nat. rewrite lookup_drop.
  assert (Hc : forall j, (j < length c)%nat -> c !! j = Some (c !!! j)) by (intros j Hj; by apply list_lookup_lookup_total_lt). unfold zlen in Hl.
  destruct k as [|[|k]]; cbn [lookup list_lookup decide]; case_decide; try lia; rewrite ?Hc by lia; [by rewrite Nat.add_0_r|by replace (Z.to_nat (p + 1)) with (Z.to_nat p + 1)%nat by lia|done].
Qed.

Lemma word_at_total p c : 0 <= p -> p + 2 <= zlen c -> word_at c p = c !!! Z.to_nat p * 256 + c !!! Z.to_nat (p + 1).
Proof. intros Hp Hl. unfold word_at. rewrite slice_total by done. unfold be_value. cbn [fold_left]. lia. Qed.

Lemma u8_total c j : Forall is_u8 c -> is_u8 (c !!! j).
Proof.
  intros Hc. destruct (c !! j) as [b|] eqn:E.
  - rewrite (list_lookup_total_correct _ _ _ E). by eapply Forall_lookup_1.
  - rewrite list_lookup_total_alt, E. unfold is_u8. cbn. lia.
Qed.

Lemma word_at_u16 p c : Forall is_u8 c -> 0 <= p -> p + 2 <= zlen c -> is_u16 (word_at c p).
Proof.
  intros Hc Hp Hl. rewrite word_at_total by done. pose proof (u8_total c (Z.to_nat p) Hc). pose proof (u8_total c (Z.to_nat (p + 1)) Hc).
  unfold is_u8, is_u16 in *. lia.
Qed.

(** A checksum in the packet, updated by the difference of the words around it. *)
Definition adjusted (pos acc : Z) (c : list Z) : list Z := splice pos (le_bytes 2 (ADJUST_CHECKSUM acc (le_value (slice pos 2 c)))) c.

Lemma adjusted_spec pos acc c :
  Forall is_u8 c -> 0 <= pos -> pos + 2 <= zlen c -> Z.abs acc < 2 ^ 30 ->
  zlen (adjusted pos acc c) = zlen c /\ Forall is_u8 (adjusted pos acc c) /\
  (forall j, 0 <= j -> j <> pos -> j <> pos + 1 -> adjusted pos acc c !!! Z.to_nat j = c !!! Z.to_nat j) /\
  (Z.even pos = true -> cong (sum16 (adjusted pos acc c)) (sum16 c + 256 * acc)).
Proof.
  intros Hc Hp Hl Ha. unfold adjusted. pose proof (slice_total pos c Hp Hl) as Es. set (a := c !!! Z.to_nat pos) in *. set (b := c !!! Z.to_nat (pos + 1)) in *.
  rewrite Es, le2. pose proof (u8_total c (Z.to_nat pos) Hc) as Ba. pose proof (u8_total c (Z.to_nat (pos + 1)) Hc) as Bb. fold a in Ba. fold b in Bb.
  unfold is_u8 in Ba, Bb. destruct (adjust_checksum_spec acc (a + 256 * b) Ha) as [Hcg Hu]; [unfold is_u16; lia|].
  set (v := ADJUST_CHECKSUM acc (a + 256 * b)) in *. rewrite (le_bytes2 v Hu). unfold is_u16 in Hu.
  assert (0 <= v / 256 < 256) by (split; [apply Z.div_pos; lia|apply Z.div_lt_upper_bound; lia]). pose proof (Z.mod_pos_bound v 256).
  split; [by apply zlen_splice|]. split; [apply splice_u8; [|done]; repeat (apply Forall_cons_2; [unfold is_u8; lia|]); apply Forall_nil_2|].
  split; [intros j Hj H1 H2; apply splice_total; change (zlen [v mod 256; v / 256]) with 2; lia|].
  intros He. rewrite sum16_splice by done. rewrite word_at_total by done. fold a b.
  assert (E1 : cong (v mod 256 * 256 + v / 256) (256 * (acc + (a + 256 * b)))).
  { rewrite <- Hcg. rewrite swap_cong. pose proof (Z.div_mod v 256). replace (v mod 256 + 256 * (v / 256)) with v by lia. done. }
  rewrite E1. rewrite (swap_cong a b). exists 0. lia.
Qed.

Lemma adjust_at_conc pre c post pos acc :
  0 <= pos -> pos + 2 <= zlen c -> adjust_at (conc pre c post) (zlen pre + pos) acc = Ret (conc pre (adjusted pos acc c) post).
Proof.
  intros Hp Hl. unfold adjust_at. rewrite buf_load_conc by lia. cbn [mbind outcome_mbind]. unfold adjusted. by apply buf_store_conc.
Qed.

(** ** The MSS option *)

(** The positions in the segment of the MSS options among the TCP options. *)
Fixpoint mss_positions (fuel : nat) (c : list Z) (opt olen : Z) : list Z :=
  if olen <=? 1 then []
  else match fuel with
  | O => []
  | S fuel =>
      let kind := c !!! Z.to_nat opt in
      let optlen := c !!! Z.to_nat (opt + 1) in
      if kind =? OPENVPN_TCPOPT_EOL then []
      else if kind =? OPENVPN_TCPOPT_NOP then mss_positions fuel c (opt + 1) (olen - 1)
      else if (optlen <=? 0) || (olen <? optlen) then []
      else (if (kind =? OPENVPN_TCPOPT_MAXSEG) && (optlen =? OPENVPN_TCPOLEN_MAXSEG) then [opt] else []) ++
           mss_positions fuel c (opt + optlen) (olen - optlen)
  end.

Lemma mss_positions_range fuel c : forall opt olen i, i ∈ mss_positions fuel c opt olen -> opt <= i /\ i + 4 <= opt + olen.
Proof.
  induction fuel as [|fuel IH]; intros opt olen i; cbn [mss_positions]; bcase; breflect; try (by intros ?%elem_of_nil).
  - intros Hi%IH. lia.
  - rewrite elem_of_app, list_elem_of_singleton. unfold OPENVPN_TCPOLEN_MAXSEG in *. intros [->|Hi%IH]; lia.
  - cbn [app]. intros Hi%IH. lia.
Qed.

Lemma mss_positions_agree fuel c c' : forall opt olen,
  0 <= opt -> (forall j, opt <= j -> c' !!! Z.to_nat j = c !!! Z.to_nat j) -> mss_positions fuel c' opt olen = mss_positions fuel c opt olen.
Proof.
  induction fuel as [|fuel IH]; intros opt olen Ho Ha; cbn [mss_positions]; [done|]. rewrite !Ha by lia. bcase; breflect; try done.
  - apply IH; [lia|]. intros j Hj. apply Ha. lia.
  - f_equal. apply IH; [lia|]. intros j Hj. apply Ha. lia.
  - cbn [app]. apply IH; [lia|]. intros j Hj. apply Ha. lia.
Qed.

(** The segment [c'] is [c] with the MSS values at [ps] lowered to [maxmss]. *)
Definition clamped (maxmss : Z) (ps : list Z) (c c' : list Z) : Prop :=
  zlen c' = zlen c /\ Forall is_u8 c' /\
  (forall i, i ∈ ps -> word_at c' (i + 2) = Z.min (word_at c (i + 2)) maxmss) /\
  (forall j, 0 <= j -> j <> 16 -> j <> 17 -> (forall i, i ∈ ps -> j <> i + 2 /\ j <> i + 3) -> c' !!! Z.to_nat j = c !!! Z.to_nat j) /\
  (Forall (fun i => Z.even i = true) ps -> cong (sum16 c') (sum16 c)).

Lemma mss_clamp_spec pre c post opt maxmss :
  Forall is_u8 c -> 20 <= opt -> opt + 4 <= zlen c -> is_u16 maxmss ->
  exists c', mss_clamp (conc pre c post) (zlen pre) (zlen pre + opt) maxmss = Ret (conc pre c' post) /\ clamped maxmss [opt] c c'.
Proof.
  intros Hc Ho Hl Hm. unfold mss_clamp. rewrite <- !Z.add_assoc. rewrite !buf_load1_total by lia. cbn [mbind outcome_mbind].
  pose proof (word_at_total (opt + 2) c ltac:(lia) ltac:(lia)) as Ew. rewrite <- Z.add_assoc in Ew. pose proof (word_at_u16 (opt + 2) c Hc ltac:(lia) ltac:(lia)) as Hw.
  change (2 + 1) with 3 in Ew. rewrite Z.shiftl_mul_pow2 by lia. change (2 ^ 8) with 256. rewrite <- Ew. rewrite u16_id by done. set (w := word_at c (opt + 2)) in *.
  destruct (maxmss <? w) eqn:E; breflect.
  - rewrite buf_store_conc by (change (zlen [Z.land (Z.shiftr maxmss 8) 255]) with 1; lia). cbn [mbind outcome_mbind].
    rewrite buf_store_conc by (try rewrite zlen_splice; change (zlen [Z.land (Z.shiftr maxmss 8) 255]) with 1; change (zlen [Z.land maxmss 255]) with 1; lia).
    cbn [mbind outcome_mbind]. replace (opt + 3) with (opt + 2 + 1) by lia. rewrite splice_pair by lia.
    assert (Ehi : Z.land (Z.shiftr maxmss 8) 255 = maxmss / 256).
    { change 255 with (Z.ones 8). rewrite Z.land_ones, Z.shiftr_div_pow2 by lia. change (2 ^ 8) with 256. unfold is_u16 in Hm.
      apply Z.mod_small. split; [apply Z.div_pos; lia|apply Z.div_lt_upper_bound; lia]. }
    assert (Elo : Z.land maxmss 255 = maxmss mod 256) by (change 255 with (Z.ones 8); by rewrite Z.land_ones by lia). rewrite Ehi, Elo.
    unfold is_u16 in Hm. assert (0 <= maxmss / 256 < 256) by (split; [apply Z.div_pos; lia|apply Z.div_lt_upper_bound; lia]). pose proof (Z.mod_pos_bound maxmss 256).
    pose proof (Z.div_mod maxmss 256). set (x := [maxmss / 256; maxmss mod 256]). assert (Hx : zlen x = 2) by done.
    set (c1 := splice (opt + 2) x c). assert (Hl1 : zlen c1 = zlen c) by (apply zlen_splice; lia).
    assert (Ec1 : word_at c1 (opt + 2) = maxmss).
    { unfold word_at. change (slice (opt + 2) 2 c1) with (slice (opt + 2) (zlen x) c1). unfold c1. rewrite slice_splice by lia. unfold x, be_value. cbn [fold_left]. lia. }
    assert (Hc1 : Forall is_u8 c1). { apply splice_u8; [|done]. unfold x. repeat (apply Forall_cons_2; [unfold is_u8; lia|]). apply Forall_nil_2. }
    assert (Hcm : forall acc, (check ← buf_load (conc pre c1 post) (zlen pre + 16) 2;
      buf_store (conc pre c1 post) (zlen pre + 16) (le_bytes 2 (ADJUST_CHECKSUM acc (le_value check)))) = Ret (conc pre (adjusted 16 acc c1) post)).
    { intros acc. apply (adjust_at_conc pre c1 post 16 acc); lia. }
    rewrite Hcm. eexists. split; [done|]. pose proof (htons_range w Hw). pose proof (htons_range maxmss Hm).
    destruct (adjusted_spec 16 (htons w - htons maxmss) c1 Hc1 ltac:(lia) ltac:(lia) ltac:(lia)) as (A1 & A2 & A3 & A4).
    split; [lia|]. split; [done|]. split; [|split].
    + intros i ->%list_elem_of_singleton. rewrite word_at_total by lia. rewrite !A3 by lia.
      rewrite <- (word_at_total (opt + 2) c1) by lia. rewrite Ec1. fold w. lia.
    + intros j Hj H16 H17 Hi. destruct (Hi opt ltac:(set_solver)). rewrite A3 by lia. apply splice_total; lia.
    + intros He. rewrite Forall_singleton in He. assert (He2 : Z.even (opt + 2) = true) by (change (opt + 2) with (opt + 2 * 1); by rewrite Z.even_add_mul_2).
      rewrite A4 by done. unfold c1, x. rewrite sum16_splice by (done || lia). fold w.
      rewrite Z.mul_sub_distr_l. rewrite <- !htons_cong by done. exists 0. lia.
  - exists c. split; [done|]. split; [done|]. split; [done|]. split; [|done]. intros i ->%list_elem_of_singleton. fold w. lia.
Qed.

Lemma mss_loop_spec pre post maxmss fuel : forall c opt olen,
  Forall is_u8 c -> 20 <= opt -> 0 <= olen -> opt + olen <= zlen c -> (Z.to_nat olen <= fuel)%nat -> is_u16 maxmss ->
  exists c', mss_loop fuel (conc pre c post) (zlen pre) (zlen pre + opt) olen maxmss = Ret (conc pre c' post) /\
    clamped maxmss (mss_positions fuel c opt olen) c c'.
Proof.
  assert (Hid : forall c, Forall is_u8 c -> clamped maxmss [] c c). { intros c Hc. split; [done|]. split; [done|]. split; [by intros i ?%elem_of_nil|done]. }
  induction fuel as [|fuel IH]; intros c opt olen Hc Ho Hn Hl Hf Hm; cbn [mss_loop mss_positions].
  { rewrite (proj2 (Z.leb_le olen 1)) by lia. exists c. split; [done|by apply Hid]. }
  destruct (olen <=? 1) eqn:E1; breflect; [exists c; split; [done|by apply Hid]|].
  rewrite buf_load1_total by lia. cbn [mbind outcome_mbind]. destruct (c !!! Z.to_nat opt =? OPENVPN_TCPOPT_EOL); [exists c; split; [done|by apply Hid]|].
  destruct (c !!! Z.to_nat opt =? OPENVPN_TCPOPT_NOP).
  { rewrite <- Z.add_assoc. apply IH; lia || done. }
  rewrite <- Z.add_assoc, buf_load1_total by lia. cbn [mbind outcome_mbind]. set (optlen := c !!! Z.to_nat (opt + 1)).
  destruct ((optlen <=? 0) || (olen <? optlen)) eqn:E2; breflect; [exists c; split; [done|by apply Hid]|].
  destruct ((c !!! Z.to_nat opt =? OPENVPN_TCPOPT_MAXSEG) && (optlen =? OPENVPN_TCPOLEN_MAXSEG)) eqn:E3; breflect.
  - unfold OPENVPN_TCPOLEN_MAXSEG in *. destruct (mss_clamp_spec pre c post opt maxmss Hc Ho ltac:(lia) Hm) as (c1 & -> & L1 & U1 & W1 & O1 & S1).
    cbn [mbind outcome_mbind]. rewrite <- Z.add_assoc. destruct (IH c1 (opt + optlen) (olen - optlen) U1 ltac:(lia) ltac:(lia) ltac:(lia) ltac:(lia) Hm) as (c2 & -> & L2 & U2 & W2 & O2 & S2).
    assert (Hag : forall j, opt + optlen <= j -> c1 !!! Z.to_nat j = c !!! Z.to_nat j) by (intros j Hj; apply O1; try lia; intros i ->%list_elem_of_singleton; lia).
    rewrite (mss_positions_agree fuel c c1) in W2, O2, S2 by (lia || done). set (ps := mss_positions fuel c (opt + optlen) (olen - optlen)) in *.
    assert (Hps : forall i, i ∈ ps -> opt + optlen <= i /\ i + 4 <= opt + olen) by (intros i Hi; apply mss_positions_range in Hi; lia).
    exists c2. split; [done|]. cbn [app]. split; [lia|]. split; [done|]. split; [|split].
    + intros i [->|Hi]%elem_of_cons.
      * rewrite <- W1 by set_solver. rewrite !word_at_total by lia. rewrite !O2; try lia; try done; intros i Hi; apply Hps in Hi; lia.
      * rewrite (W2 i Hi). pose proof (Hps i Hi). f_equal. rewrite !word_at_total by lia. by rewrite !Hag by lia.
    + intros j Hj H16 H17 Hi. rewrite O2 by (try done; intros i ?; apply Hi; set_solver). apply O1; try done. intros i ->%list_elem_of_singleton. apply Hi. set_solver.
    + intros [He1 He2]%Forall_cons. rewrite S2 by done. by apply S1, Forall_singleton.
  - cbn [mbind outcome_mbind app]. rewrite <- Z.add_assoc. apply IH; lia || done.
Qed.

(** The MSS options of a TCP segment. *)
Definition tcp_mss_options (seg : list Z) : list Z :=
  let hlen := OPENVPN_TCPH_GET_DOFF (seg !!! 12%nat) in
  if (hlen <=? tcphdr_size) || (zlen seg <? hlen) then []
  else mss_positions (Z.to_nat (hlen - tcphdr_size)) seg tcphdr_size (hlen - tcphdr_size).

Lemma clamped_nil maxmss c : Forall is_u8 c -> clamped maxmss [] c c.
Proof. intros Hc. split; [done|]. split; [done|]. split; [by intros i ?%elem_of_nil|done]. Qed.

Lemma mss_dowork_spec pre c post maxmss :
  Forall is_u8 c -> tcphdr_size <= zlen c -> is_u16 maxmss ->
  exists c', mss_fixup_dowork (conc pre c post) maxmss = Ret (conc pre c' post) /\ clamped maxmss (tcp_mss_options c) c c'.
Proof.
  unfold tcphdr_size. intros Hc Hl Hm. unfold mss_fixup_dowork, bptr, tcp_mss_options. rewrite buf_len_conc, buf_bptr_conc. cbn [mbind outcome_mbind].
  unfold tcphdr_size. rewrite (proj2 (Z.ltb_ge _ _)) by lia. rewrite buf_load1_total by lia. cbn [mbind outcome_mbind]. change (Z.to_nat 12) with 12%nat.
  destruct ((OPENVPN_TCPH_GET_DOFF (c !!! 12%nat) <=? 20) || (zlen c <? OPENVPN_TCPH_GET_DOFF (c !!! 12%nat))) eqn:E; breflect.
  - exists c. split; [done|]. by apply clamped_nil.
  - apply mss_loop_spec; try done; lia.
Qed.

(** Does the guard of [mss_fixup_ipv4] let the packet pass? *)
Definition is_syn4 (c : list Z) : bool :=
  let hlen := OPENVPN_IPH_GET_LEN (c !!! 0%nat) in
  (iphdr_size <=? zlen c) && (c !!! 9%nat =? OPENVPN_IPPROTO_TCP) && (word_at c 2 =? zlen c) && (Z.land (word_at c 6) OPENVPN_IP_OFFMASK =? 0) &&
  (hlen + tcphdr_size <=? zlen c) && negb (Z.land (c !!! Z.to_nat (hlen + 13)) OPENVPN_TCPH_SYN_MASK =? 0).

Definition is_syn6 (c : list Z) : bool :=
  (ipv6hdr_size + tcphdr_size <=? zlen c) && (word_at c 4 + 40 =? zlen c) && (c !!! 6%nat =? OPENVPN_IPPROTO_TCP) &&
  negb (Z.land (c !!! 53%nat) OPENVPN_TCPH_SYN_MASK =? 0).

(** The packet [c'] is [c] with the MSS of the segment behind the first [h] bytes lowered. *)
Definition lowered (h maxmss : Z) (c c' : list Z) : Prop :=
  exists seg', c' = ztake h c ++ seg' /\ clamped maxmss (tcp_mss_options (zdrop h c)) (zdrop h c) seg'.

Lemma zdrop_total (h : Z) (c : list Z) j : 0 <= h -> 0 <= j -> zdrop h c !!! Z.to_nat j = c !!! Z.to_nat (h + j).
Proof. intros Hh Hj. unfold zdrop. rewrite !list_lookup_total_alt, lookup_drop. by rewrite Z2Nat.inj_add. Qed.

Lemma iph_len_range v : is_u8 v -> 0 <= OPENVPN_IPH_GET_LEN v <= 60.
Proof.
  intros Hv. unfold OPENVPN_IPH_GET_LEN. rewrite Z.shiftl_mul_pow2 by lia. change 0x0F with (Z.ones 4). rewrite Z.land_ones by lia.
  pose proof (Z.mod_pos_bound v (2 ^ 4)). lia.
Qed.

(** What follows the guards: the segment behind [h] bytes is rewritten in place. *)
Lemma fix_segment pre c post h maxmss :
  Forall is_u8 c -> 0 <= h -> h + tcphdr_size <= zlen c -> is_u16 maxmss ->
  exists c', (newbuf ← mss_fixup_dowork (conc (pre ++ ztake h c) (zdrop h c) post) maxmss; Ret (with_data (conc pre c post) newbuf)) = Ret (conc pre c' post) /\
    lowered h maxmss c c'.
Proof.
  intros Hc Hh Hl Hm. destruct (mss_dowork_spec (pre ++ ztake h c) (zdrop h c) post maxmss) as (seg' & E & Hcl); [by apply Forall_drop|unfold tcphdr_size in *; zlia|done|].
  rewrite E. cbn [mbind outcome_mbind]. exists (ztake h c ++ seg'). split; [|by exists seg'].
  f_equal. unfold with_data. cbn [capacity offset len conc data]. unfold tcphdr_size in Hl. destruct Hcl as (Hz & _). rewrite zlen_zdrop in Hz. apply mkbuffer_conc; [zlia..|]. by rewrite <- !app_assoc.
Qed.

Lemma mss_ipv4_spec pre c post maxmss :
  Forall is_u8 c -> exists c', mss_fixup_ipv4 (conc pre c post) maxmss = Ret (conc pre c' post) /\
    if is_syn4 c then lowered (OPENVPN_IPH_GET_LEN (c !!! 0%nat)) (u16 maxmss) c c' else c' = c.
Proof.
  intros Hc. unfold mss_fixup_ipv4, is_syn4, bptr. rewrite buf_len_conc, buf_bptr_conc. unfold iphdr_size. zlen_facts.
  destruct (zlen c <? 20) eqn:E; breflect; [rewrite (proj2 (Z.leb_gt _ _)) by lia; by exists c|]. rewrite (proj2 (Z.leb_le 20 _)) by lia. cbn [andb mbind outcome_mbind].
  rewrite buf_load1_head by lia. cbn [mbind outcome_mbind]. rewrite !buf_load1_total by lia. cbn [mbind outcome_mbind]. rewrite !buf_load_conc by lia. cbn [mbind outcome_mbind].
  change (Z.to_nat 0) with 0%nat. change (Z.to_nat 9) with 9%nat. fold (word_at c 2) (word_at c 6). pose proof (iph_len_range (c !!! 0%nat) (u8_total c 0 Hc)) as Hh.
  set (h := OPENVPN_IPH_GET_LEN (c !!! 0%nat)) in *. unfold tcphdr_size. destruct (c !!! 9%nat =? OPENVPN_IPPROTO_TCP); [|by exists c].
  destruct (word_at c 2 =? zlen c); [|by exists c]. destruct (Z.land (word_at c 6) OPENVPN_IP_OFFMASK =? 0); [|by exists c]. cbn [andb].
  destruct (Z.le_gt_cases (h + 20) (zlen c)) as [Hl|Hl].
  2:{ rewrite (proj2 (Z.leb_gt (h + 20) _)) by lia. rewrite (proj2 (Z.leb_gt 20 (zlen c - h))) by lia. rewrite andb_false_r. by exists c. }
  rewrite (proj2 (Z.leb_le (h + 20) _)) by lia. rewrite (proj2 (Z.leb_le 20 (zlen c - h))) by lia. rewrite (proj2 (Z.leb_le h _)) by lia. cbn [andb].
  rewrite buf_advance_conc. rewrite (proj2 (Z.leb_le h _)), (proj2 (Z.leb_le 0 h)) by lia. cbn [andb]. rewrite buf_bptr_conc. cbn [mbind outcome_mbind].
  rewrite buf_load1_total by zlia. rewrite zdrop_total by lia. cbn [mbind outcome_mbind].
  destruct (Z.land (c !!! Z.to_nat (h + 13)) OPENVPN_TCPH_SYN_MASK =? 0); cbn [negb]; [by exists c|].
  apply fix_segment; [done|lia|done|]. apply u16_range.
Qed.

Lemma mss_ipv6_spec pre c post maxmss :
  Forall is_u8 c -> exists c', mss_fixup_ipv6 (conc pre c post) maxmss = Ret (conc pre c' post) /\
    if is_syn6 c then lowered ipv6hdr_size (u16 (u16 maxmss - 20)) c c' else c' = c.
Proof.
  intros Hc. unfold mss_fixup_ipv6, is_syn6, bptr. rewrite buf_len_conc, buf_bptr_conc. unfold ipv6hdr_size, tcphdr_size. zlen_facts. change (40 + 20) with 60.
  destruct (zlen c <? 40) eqn:E; breflect; [rewrite (proj2 (Z.leb_gt 60 _)) by lia; by exists c|]. cbn [mbind outcome_mbind].
  rewrite !buf_load_conc by lia. cbn [mbind outcome_mbind]. fold (word_at c 4). rewrite (Z.eqb_sym (zlen c)).
  destruct (word_at c 4 + 40 =? zlen c); cbn [negb]; [|rewrite andb_false_r; by exists c]. rewrite buf_load1_total by lia. cbn [mbind outcome_mbind].
  change (Z.to_nat 6) with 6%nat. destruct (c !!! 6%nat =? OPENVPN_IPPROTO_TCP); cbn [negb]; [|rewrite andb_false_r; by exists c].
  rewrite buf_advance_conc. rewrite (proj2 (Z.leb_le 40 _)) by lia. cbn [andb Z.leb Z.compare]. rewrite buf_len_conc. unfold tcphdr_size.
  destruct (Z.le_gt_cases 60 (zlen c)) as [Hl|Hl].
  2:{ rewrite (proj2 (Z.leb_gt 60 _)) by lia. rewrite (proj2 (Z.leb_gt 20 _)) by zlia. by exists c. }
  rewrite (proj2 (Z.leb_le 60 _)) by lia. rewrite (proj2 (Z.leb_le 20 _)) by zlia. rewrite buf_bptr_conc. cbn [andb mbind outcome_mbind].
  rewrite buf_load1_total by zlia. rewrite zdrop_total by lia. cbn [mbind outcome_mbind]. change (Z.to_nat (40 + 13)) with 53%nat.
  destruct (Z.land (c !!! 53%nat) OPENVPN_TCPH_SYN_MASK =? 0); cbn [negb]; [by exists c|].
  apply fix_segment; [done|lia|unfold tcphdr_size; lia|]. apply u16_range.
Qed.

(** MSS clamping.  On any bytes whatever the packet handlers return without leaving the
    packet.  In a complete unfragmented TCP SYN packet, IPv4 or IPv6, every MSS option gets the lesser
    of its value and the limit; no other byte but the TCP checksum changes; and, if
    the options are at even offsets, the sum that verifies the checksum is unchanged modulo
    65535, so that a valid checksum stays valid.  Every other packet is unchanged. *)
Theorem mss_fixup_lowers_mss (pre c post : list Z) (maxmss : Z) :
  Forall is_u8 c ->
  (exists c', mss_fixup_ipv4 (conc pre c post) maxmss = Ret (conc pre c' post) /\
     if is_syn4 c then lowered (OPENVPN_IPH_GET_LEN (c !!! 0%nat)) (u16 maxmss) c c' else c' = c) /\
  (exists c', mss_fixup_ipv6 (conc pre c post) maxmss = Ret (conc pre c' post) /\
     if is_syn6 c then lowered ipv6hdr_size (u16 (u16 maxmss - 20)) c c' else c' = c).
Proof. intros Hc. split; [by apply mss_ipv4_spec|by apply mss_ipv6_spec]. Qed.

(** A SYN packet with one MSS option of 1460, at offset 20 of the segment or behind a NOP. *)
Definition demo_ip : list Z := [69; 0; 0; 48; 0; 0; 64; 0; 64; 6; 0; 0; 10; 8; 0; 1; 10; 8; 0; 2].
Definition demo_syn (check options : list Z) : list Z := demo_ip ++ [0; 80; 4; 0; 0; 0; 0; 1; 0; 0; 0; 0; 112; 2; 16; 0] ++ check ++ [0; 0] ++ options.
Definition demo_even : list Z := demo_syn [113; 243] [2; 4; 5; 180; 1; 1; 1; 0].
Definition demo_odd : list Z := demo_syn [193; 163] [1; 2; 4; 5; 180; 1; 1; 0].

Ltac bytes := unfold demo_even, demo_odd, demo_syn, demo_ip; cbn [app]; repeat (apply Forall_cons_2; [unfold is_u8; lia|]); apply Forall_nil_2.

Lemma mss_fixup_lowers_mss_witness :
  is_syn4 demo_even = true /\ tcp_mss_options (zdrop 20 demo_even) = [20] /\
  exists c', mss_fixup_ipv4 (conc [] demo_even []) 1400 = Ret (conc [] c' []) /\ lowered 20 1400 demo_even c'.
Proof.
  split; [vm_compute; reflexivity|]. split; [vm_compute; reflexivity|].
  destruct (mss_fixup_lowers_mss [] demo_even [] 1400) as [(c' & E & H) _]; [bytes|]. exists c'. split; [exact E|exact H].
Defined.

(** The TCP checksum of a SYN packet is valid for a pseudo header that sums to [ps]. *)
Definition tcp_check_ok (ps : Z) (c : list Z) : Prop := (ps + sum16 (zdrop 20 c)) mod 65535 = 0.

(** An MSS option behind a single NOP is at an odd offset, where its two bytes belong to
    different words of the checksum: the update is wrong, and a valid checksum becomes
    invalid. *)
Theorem mss_at_odd_offset_breaks_checksum :
  exists c', is_syn4 demo_odd = true /\ tcp_check_ok 0 demo_odd /\
    mss_fixup_ipv4 (conc [] demo_odd []) 1400 = Ret (conc [] c' []) /\ word_at c' 43 = 1400 /\ ~ tcp_check_ok 0 c'.
Proof.
  exists (match mss_fixup_ipv4 (conc [] demo_odd []) 1400 with Ret b => content b | _ => [] end).
  split; [vm_compute; reflexivity|]. split; [vm_compute; reflexivity|]. split; [vm_compute; reflexivity|].
  split; [vm_compute; reflexivity|]. unfold tcp_check_ok. vm_compute. discriminate.
Qed.

(** ** Address translation *)

(** A rule: the addresses it matches and what it makes of them. *)
Definition rule_from (direction : Z) (e : client_nat_entry) : Z := if negb (direction =? 0) then cn_foreign_network e else cn_network e.
Definition rule_to (direction : Z) (e : client_nat_entry) : Z := if negb (direction =? 0) then cn_network e else cn_foreign_network e.
Definition rule_on_dest (direction : Z) (e : client_nat_entry) : bool := negb (Z.lxor (cn_type e) direction =? 0).

(** An address is translated by the first rule for its side that matches it. *)
Fixpoint translate (l : client_nat_option_list) (direction : Z) (dest : bool) (addr : Z) : Z :=
  match l with
  | [] => addr
  | e :: l =>
      if Bool.eqb (rule_on_dest direction e) dest && (Z.land addr (cn_netmask e) =? rule_from direction e)
      then Z.lor (Z.land addr (u32 (Z.lnot (cn_netmask e)))) (rule_to direction e)
      else translate l direction dest addr
  end.

Definition nat_wf (l : client_nat_option_list) : Prop :=
  zlen l <= MAX_CLIENT_NAT /\ Forall (fun e => is_u32 (cn_network e) /\ is_u32 (cn_netmask e) /\ is_u32 (cn_foreign_network e)) l.

Lemma le_value_bytes4 v : is_u32 v -> le_value (le_bytes 4 v) = v.
Proof.
  unfold is_u32. intros Hv. cbn [le_bytes le_value]. pose proof (Z.div_mod v 256). pose proof (Z.div_mod (v / 256) 256). pose proof (Z.div_mod (v / 256 / 256) 256).
  rewrite (Z.mod_small (v / 256 / 256 / 256)); [lia|]. rewrite !Z.div_div by lia. split; [apply Z.div_pos; lia|apply Z.div_lt_upper_bound; lia].
Qed.

Lemma le_bytes_u8 n : forall v, Forall is_u8 (le_bytes n v).
Proof. induction n as [|n IH]; intros v; cbn [le_bytes]; constructor; [unfold is_u8; apply Z.mod_pos_bound; lia|apply IH]. Qed.

Lemma zlen_le_bytes n : forall v, zlen (le_bytes n v) = Z.of_nat n.
Proof. induction n as [|n IH]; intros v; cbn [le_bytes]; [done|]. rewrite zlen_cons, IH. lia. Qed.

Lemma len4 {A} (l : list A) : zlen l = 4 -> exists a b c d, l = [a; b; c; d].
Proof. destruct l as [|a [|b [|c [|d [|e l]]]]]; unfold zlen; cbn; intros; try lia. by exists a, b, c, d. Qed.

(** The two halves of an address as the checksum accumulates them. *)
Definition halves (v : Z) : Z := Z.land v 0xffff + Z.shiftr v 16.

Lemma halves_spec l : zlen l = 4 -> Forall is_u8 l -> is_u32 (le_value l) /\ cong (sum16 l) (256 * halves (le_value l)) /\ 0 <= halves (le_value l) <= 131070.
Proof.
  intros Hl Hu. destruct (len4 l Hl) as (a & b & c & d & ->). rewrite !Forall_cons in Hu. unfold is_u8 in Hu. destruct Hu as (Ha & Hb & Hc & Hd & _).
  cbn [le_value sum16]. unfold halves, is_u32. change 0xffff with (Z.ones 16). rewrite Z.land_ones, Z.shiftr_div_pow2 by lia. change (2 ^ 16) with 65536.
  set (v := a + 256 * (b + 256 * (c + 256 * (d + 256 * 0)))).
  assert (E1 : v / 65536 = c + 256 * d) by (symmetry; apply (Z.div_unique v 65536 _ (a + 256 * b)); lia).
  assert (E2 : v mod 65536 = a + 256 * b) by (symmetry; apply (Z.mod_unique v 65536 (c + 256 * d)); lia). rewrite E1, E2.
  split; [lia|]. split; [|lia]. exists (- (b + d)). lia.
Qed.

Lemma lor_u32 a b : is_u32 a -> is_u32 b -> is_u32 (Z.lor a b).
Proof.
  unfold is_u32. intros Ha Hb. split; [apply Z.lor_nonneg; lia|]. destruct (Z.eq_dec (Z.lor a b) 0) as [->|Hne]; [lia|].
  apply Z.log2_lt_pow2; [pose proof (proj2 (Z.lor_nonneg a b)); lia|]. rewrite Z.log2_lor by lia. apply Z.max_lub_lt.
  - destruct (Z.eq_dec a 0) as [->|]; [cbn; lia|]. apply Z.log2_lt_pow2; lia.
  - destruct (Z.eq_dec b 0) as [->|]; [cbn; lia|]. apply Z.log2_lt_pow2; lia.
Qed.

Lemma land_u32 a b : is_u32 a -> 0 <= b -> is_u32 (Z.land a b).
Proof.
  unfold is_u32. intros Ha Hb. split; [apply Z.land_nonneg; lia|]. destruct (Z.eq_dec (Z.land a b) 0) as [->|Hne]; [lia|].
  apply Z.log2_lt_pow2; [pose proof (proj2 (Z.land_nonneg a b)); lia|]. eapply Z.le_lt_trans; [apply Z.log2_land; lia|].
  destruct (Z.eq_dec a 0) as [->|]; [cbn; lia|]. eapply Z.le_lt_trans; [apply Z.le_min_l|]. apply Z.log2_lt_pow2; lia.
Qed.

(** An address of a packet, rewritten. *)
Lemma rewrite_addr s to mask :
  zlen s = 4 -> Forall is_u8 s -> is_u32 to ->
  let v' := Z.lor (Z.land (le_value s) (u32 (Z.lnot mask))) to in
  zlen (le_bytes 4 v') = 4 /\ Forall is_u8 (le_bytes 4 v') /\ le_value (le_bytes 4 v') = v' /\ cong (sum16 (le_bytes 4 v')) (256 * halves v') /\ 0 <= halves v' <= 131070.
Proof.
  intros Hl Hu Ht v'. destruct (halves_spec s Hl Hu) as (Hs & _). assert (Hv : is_u32 v') by (apply lor_u32; [apply land_u32; [done|apply u32_range]|done]).
  pose proof (le_value_bytes4 v' Hv) as E. pose proof (zlen_le_bytes 4 v') as Hz. pose proof (le_bytes_u8 4 v') as Hu'.
  destruct (halves_spec (le_bytes 4 v') Hz Hu') as (_ & H1 & H2). rewrite E in H1, H2. done.
Qed.

(** What the loop makes of the addresses [s] and [d], of which those with their flag set have
    been translated before. *)
Record nat_result (l : client_nat_option_list) (direction : Z) (sb db : bool) (acc : Z) (s d s' d' : list Z) (acc' : Z) (sb' db' : bool) : Prop := {
  nat_lens : zlen s' = 4 /\ zlen d' = 4;
  nat_u8 : Forall is_u8 s' /\ Forall is_u8 d';
  nat_src : le_value s' = if sb then le_value s else translate l direction false (le_value s);
  nat_dest : le_value d' = if db then le_value d else translate l direction true (le_value d);
  nat_sum : cong (sum16 s' + sum16 d' + 256 * acc') (sum16 s + sum16 d + 256 * acc);
  nat_acc : Z.abs acc' <= Z.abs acc + 131070 * zlen l;
  nat_none : sb' = false -> db' = false -> sb = false /\ db = false /\ s' = s /\ d' = d
}.

Lemma load_mid pre a x b post n : zlen x = n -> buf_load (conc pre (a ++ x ++ b) post) (zlen pre + zlen a) n = Ret x.
Proof. intros <-. rewrite buf_load_conc by zlia. unfold slice. rewrite zdrop_app_zlen. by rewrite ztake_app_zlen. Qed.

Lemma store_mid pre a x b post y :
  zlen y = zlen x -> buf_store (conc pre (a ++ x ++ b) post) (zlen pre + zlen a) y = Ret (conc pre (a ++ y ++ b) post).
Proof.
  intros Hy. rewrite buf_store_conc by zlia. unfold splice. rewrite ztake_app_zlen. do 3 f_equal. rewrite Hy, zdrop_app_ge by zlia.
  replace (zlen a + zlen x - zlen a) with (zlen x) by lia. by rewrite zdrop_app_zlen.
Qed.

(** One rule that applies to an address [x]. *)
Lemma rule_applies pre a x b post e direction acc :
  zlen x = 4 -> Forall is_u8 x -> is_u32 (rule_to direction e) ->
  let v' := Z.lor (Z.land (le_value x) (u32 (Z.lnot (cn_netmask e)))) (rule_to direction e) in
  let acc' := SUB_CHECKSUM_32 (ADD_CHECKSUM_32 acc (le_value x)) v' in
  exists x', x' = le_bytes 4 v' /\ zlen x' = 4 /\ Forall is_u8 x' /\ le_value x' = v' /\ cong (sum16 x' + 256 * acc') (sum16 x + 256 * acc) /\
    Z.abs acc' <= Z.abs acc + 131070 /\
    buf_store (conc pre (a ++ x ++ b) post) (zlen pre + zlen a) x' = Ret (conc pre (a ++ x' ++ b) post).
Proof.
  intros Hl Hu Ht v' acc'. destruct (rewrite_addr x (rule_to direction e) (cn_netmask e) Hl Hu Ht) as (H1 & H2 & H3 & H4 & H5). fold v' in H1, H2, H3, H4, H5.
  destruct (halves_spec x Hl Hu) as (_ & H6 & H7). exists (le_bytes 4 v'). split; [done|]. split; [done|]. split; [done|]. split; [done|].
  assert (Ea : acc' = acc + halves (le_value x) - halves v') by (unfold acc', ADD_CHECKSUM_32, SUB_CHECKSUM_32, halves; lia).
  split; [rewrite H4, H6, Ea; exists 0; lia|]. split; [lia|]. apply store_mid. by rewrite H1.
Qed.

Lemma nat_loop_spec pre post h1 rest direction l : forall s d acc sb db,
  zlen h1 = 12 -> zlen s = 4 -> zlen d = 4 -> Forall is_u8 s -> Forall is_u8 d ->
  Forall (fun e => is_u32 (cn_network e) /\ is_u32 (cn_netmask e) /\ is_u32 (cn_foreign_network e)) l ->
  exists s' d' acc' sb' db', nat_loop l direction (conc pre (h1 ++ s ++ d ++ rest) post) (zlen pre) acc (Z.b2z sb + 2 * Z.b2z db) =
      Ret (conc pre (h1 ++ s' ++ d' ++ rest) post, acc', Z.b2z sb' + 2 * Z.b2z db') /\ nat_result l direction sb db acc s d s' d' acc' sb' db'.
Proof.
  induction l as [|e l IH]; intros s d acc sb db Hh Hs Hd Us Ud Hl; cbn [nat_loop].
  { exists s, d, acc, sb, db. split; [done|]. split; cbn [translate]; [done|done|by destruct sb|by destruct db|done|zlia|done]. }
  apply Forall_cons in Hl as [(He1 & He2 & He3) Hl].
  assert (Ht : is_u32 (rule_to direction e)) by (unfold rule_to; by destruct (direction =? 0)).
  assert (Hft : (if negb (direction =? 0) then (cn_foreign_network e, cn_network e) else (cn_network e, cn_foreign_network e)) = (rule_from direction e, rule_to direction e)).
  { unfold rule_from, rule_to. by destruct (direction =? 0). }
  fold (rule_on_dest direction e). pose proof (zlen_nonneg l).
  assert (Hskip : (if rule_on_dest direction e then db else sb) = true \/ Z.land (if rule_on_dest direction e then le_value d else le_value s) (cn_netmask e) <> rule_from direction e ->
    forall s' d' acc' sb' db', nat_result l direction sb db acc s d s' d' acc' sb' db' -> nat_result (e :: l) direction sb db acc s d s' d' acc' sb' db').
  { intros Hno s' d' acc' sb' db' [R1 R2 R3 R4 R5 R6 R7]. split; try done; [| |rewrite zlen_cons; lia]; cbn [translate].
    - rewrite R3. destruct sb; [done|]. destruct (rule_on_dest direction e); cbn [Bool.eqb andb]; [done|]. destruct Hno as [?|Hno]; [done|]. by rewrite (proj2 (Z.eqb_neq _ _) Hno).
    - rewrite R4. destruct db; [done|]. destruct (rule_on_dest direction e); cbn [Bool.eqb andb]; [|done]. destruct Hno as [?|Hno]; [done|]. by rewrite (proj2 (Z.eqb_neq _ _) Hno). }
  destruct (rule_on_dest direction e) eqn:Eside; rewrite Hft.
  - replace (zlen pre + 16) with (zlen pre + zlen (h1 ++ s)) by zlia. rewrite (app_assoc h1 s). rewrite load_mid by done. cbn [mbind outcome_mbind].
    destruct ((Z.land (le_value d) (cn_netmask e) =? rule_from direction e) && (Z.land 2 (Z.b2z sb + 2 * Z.b2z db) =? 0)) eqn:E.
    + apply andb_true_iff in E as [Em Ef]. assert (db = false) as -> by (by destruct sb, db).
      destruct (rule_applies pre (h1 ++ s) d rest post e direction acc Hd Ud Ht) as (d1 & Ed1 & L1 & U1 & V1 & C1 & B1 & Hst). rewrite <- Ed1, Hst. cbn [mbind outcome_mbind].
      rewrite <- app_assoc. replace (Z.lor (Z.b2z sb + 2 * Z.b2z false) 2) with (Z.b2z sb + 2 * Z.b2z true) by (by destruct sb).
      set (acc1 := SUB_CHECKSUM_32 _ _) in *. destruct (IH s d1 acc1 sb true Hh Hs L1 Us U1 Hl) as (s' & d' & acc' & sb' & db' & Hrun & [R1 R2 R3 R4 R5 R6 R7]).
      exists s', d', acc', sb', db'. split; [exact Hrun|]. split; try done; [| | |rewrite zlen_cons; lia|naive_solver]; cbn [translate]; rewrite ?Eside; cbn [Bool.eqb andb].
      * done.
      * by rewrite R4, V1, Em.
      * rewrite R5, <- !Z.add_assoc, C1. done.
    + rewrite <- app_assoc. destruct (IH s d acc sb db Hh Hs Hd Us Ud Hl) as (s' & d' & acc' & sb' & db' & Hrun & R). exists s', d', acc', sb', db'. split; [exact Hrun|].
      apply Hskip; [|done]. apply andb_false_iff in E as [E|E]; [right; by apply Z.eqb_neq|left; by destruct sb, db].
  - replace (zlen pre + 12) with (zlen pre + zlen h1) by lia. rewrite load_mid by done. cbn [mbind outcome_mbind].
    destruct ((Z.land (le_value s) (cn_netmask e) =? rule_from direction e) && (Z.land 1 (Z.b2z sb + 2 * Z.b2z db) =? 0)) eqn:E.
    + apply andb_true_iff in E as [Em Ef]. assert (sb = false) as -> by (by destruct sb, db).
      destruct (rule_applies pre h1 s (d ++ rest) post e direction acc Hs Us Ht) as (s1 & Es1 & L1 & U1 & V1 & C1 & B1 & Hst). rewrite <- Es1, Hst. cbn [mbind outcome_mbind].
      replace (Z.lor (Z.b2z false + 2 * Z.b2z db) 1) with (Z.b2z true + 2 * Z.b2z db) by (by destruct db).
      set (acc1 := SUB_CHECKSUM_32 _ _) in *. destruct (IH s1 d acc1 true db Hh L1 Hd U1 Ud Hl) as (s' & d' & acc' & sb' & db' & Hrun & [R1 R2 R3 R4 R5 R6 R7]).
      exists s', d', acc', sb', db'. split; [exact Hrun|]. split; try done; [| | |rewrite zlen_cons; lia|naive_solver]; cbn [translate]; rewrite ?Eside; cbn [Bool.eqb andb].
      * by rewrite R3, V1, Em.
      * done.
      * rewrite R5. rewrite (Z.add_comm (sum16 s1)), (Z.add_comm (sum16 s)), <- !Z.add_assoc, C1. done.
    + destruct (IH s d acc sb db Hh Hs Hd Us Ud Hl) as (s' & d' & acc' & sb' & db' & Hrun & R). exists s', d', acc', sb', db'. split; [exact Hrun|].
      apply Hskip; [|done]. apply andb_false_iff in E as [E|E]; [right; by apply Z.eqb_neq|left; by destruct sb, db].
Qed.

Lemma adjusted_app_l pos acc a b : 0 <= pos -> pos + 2 <= zlen a -> adjusted pos acc (a ++ b) = adjusted pos acc a ++ b.
Proof.
  intros Hp Hl. unfold adjusted. assert (E : slice pos 2 (a ++ b) = slice pos 2 a) by (unfold slice; rewrite zdrop_app_le by lia; by rewrite ztake_app_le by zlia).
  rewrite E. set (x := le_bytes 2 _). assert (Hx : zlen x = 2) by apply zlen_le_bytes. unfold splice. rewrite ztake_app_le, zdrop_app_le by lia. by rewrite <- !app_assoc.
Qed.

Lemma adjusted_app_r pos acc a b : 0 <= pos -> adjusted (zlen a + pos) acc (a ++ b) = a ++ adjusted pos acc b.
Proof.
  intros Hp. unfold adjusted. zlen_facts. assert (E : slice (zlen a + pos) 2 (a ++ b) = slice pos 2 b) by (unfold slice; rewrite zdrop_app_ge by lia; do 2 f_equal; lia).
  rewrite E. set (x := le_bytes 2 _). assert (Hx : zlen x = 2) by apply zlen_le_bytes. unfold splice. rewrite ztake_app_ge, zdrop_app_ge by lia. rewrite <- app_assoc.
  by replace (zlen a + pos - zlen a) with pos by lia; replace (zlen a + pos + zlen x - zlen a) with (pos + zlen x) by lia.
Qed.

(** The header up to the addresses, the addresses and what follows. *)
Lemma split_ip (c : list Z) :
  20 <= zlen c -> exists h1 s d rest, c = h1 ++ s ++ d ++ rest /\ zlen h1 = 12 /\ zlen s = 4 /\ zlen d = 4 /\ zlen rest = zlen c - 20.
Proof.
  intros Hl. destruct (zsplit 12 c) as (h1 & t1 & -> & H1 & T1); [zlia|]. rewrite zlen_app in *. destruct (zsplit 4 t1) as (s & t2 & -> & H2 & T2); [zlia|].
  rewrite zlen_app in *. destruct (zsplit 4 t2) as (d & rest & -> & H3 & T3); [zlia|]. rewrite zlen_app in *. exists h1, s, d, rest. split; [done|]. repeat split; lia.
Qed.

(** Where the transport protocol keeps its checksum, when it is complete. *)
Definition transport_check (proto n : Z) : option Z :=
  if (proto =? OPENVPN_IPPROTO_TCP) && (tcphdr_size <=? n) then Some 16
  else if (proto =? OPENVPN_IPPROTO_UDP) && (udphdr_size <=? n) then Some 6
  else None.

Definition adjust_transport (proto acc : Z) (rest : list Z) : list Z :=
  match transport_check proto (zlen rest) with Some pos => adjusted pos acc rest | None => rest end.

Lemma nat_transform_eq pre post h1 s d rest l direction :
  zlen h1 = 12 -> zlen s = 4 -> zlen d = 4 -> Forall is_u8 s -> Forall is_u8 d -> Forall is_u8 h1 -> nat_wf l ->
  exists s' d' acc sb db, nat_result l direction false false 0 s d s' d' acc sb db /\ Z.abs acc < 2 ^ 30 /\
    client_nat_transform l (conc pre (h1 ++ s ++ d ++ rest) post) direction =
      Ret (conc pre (if sb || db then adjusted 10 acc h1 ++ s' ++ d' ++ adjust_transport (h1 !!! 9%nat) acc rest else h1 ++ s ++ d ++ rest) post).
Proof.
  intros Hh Hs Hd Us Ud Uh [Hn Hw]. destruct (nat_loop_spec pre post h1 rest direction l s d 0 false false Hh Hs Hd Us Ud Hw) as (s' & d' & acc & sb & db & Hrun & R).
  exists s', d', acc, sb, db. split; [done|]. pose proof R as [[L1 L2] _ _ _ _ Ha Hnone]. unfold MAX_CLIENT_NAT in Hn. split; [lia|].
  unfold client_nat_transform, bptr. rewrite buf_bptr_conc. cbn [mbind outcome_mbind]. change (Z.b2z false + 2 * Z.b2z false) with 0 in Hrun. rewrite Hrun. cbn [mbind outcome_mbind].
  assert (Ef : negb (Z.b2z sb + 2 * Z.b2z db =? 0) = sb || db) by (by destruct sb, db). rewrite Ef.
  destruct (sb || db) eqn:Eb; [|apply orb_false_iff in Eb as [-> ->]; by destruct (Hnone eq_refl eq_refl) as (_ & _ & -> & ->)].
  pose proof (zlen_nonneg rest). set (c1 := h1 ++ s' ++ d' ++ rest). assert (Hc1 : zlen c1 = 20 + zlen rest) by (unfold c1; zlia).
  rewrite adjust_at_conc by lia. unfold c1. rewrite adjusted_app_l by lia. cbn [mbind outcome_mbind].
  destruct (adjusted_spec 10 acc h1 Uh ltac:(lia) ltac:(lia) ltac:(lia)) as (A1 & A2 & A3 & _). set (h1' := adjusted 10 acc h1) in *.
  assert (E9 : (h1' ++ s' ++ d' ++ rest) !!! Z.to_nat 9 = h1 !!! 9%nat).
  { rewrite lookup_total_app_l by (unfold zlen in A1, Hh; lia). rewrite A3 by lia. done. }
  rewrite buf_load1_total by zlia. rewrite E9. cbn [mbind outcome_mbind]. rewrite buf_len_conc. unfold adjust_transport, transport_check, iphdr_size, tcphdr_size, udphdr_size.
  assert (Hl : zlen (h1' ++ s' ++ d' ++ rest) = 20 + zlen rest) by zlia. rewrite Hl.
  assert (Hadj : forall pos, 0 <= pos -> pos + 2 <= zlen rest -> adjust_at (conc pre (h1' ++ s' ++ d' ++ rest) post) (zlen pre + 20 + pos) acc = Ret (conc pre (h1' ++ s' ++ d' ++ adjusted pos acc rest) post)).
  { intros pos Hp Hpl. rewrite <- Z.add_assoc. rewrite adjust_at_conc by lia. do 2 f_equal. rewrite !(app_assoc _ _ rest), !(app_assoc _ _ (adjusted pos acc rest)), !(app_assoc h1').
    replace (20 + pos) with (zlen ((h1' ++ s') ++ d') + pos) by zlia. by rewrite adjusted_app_r. }
  destruct (h1 !!! 9%nat =? OPENVPN_IPPROTO_TCP) eqn:Et; cbn [andb].
  - breflect. rewrite Et. change (OPENVPN_IPPROTO_TCP =? OPENVPN_IPPROTO_UDP) with false. cbn [andb].
    destruct (20 <=? zlen rest) eqn:E2; breflect; [rewrite (proj2 (Z.leb_le (20 + 20) _)) by lia; apply Hadj; lia|rewrite (proj2 (Z.leb_gt (20 + 20) _)) by lia; done].
  - destruct (h1 !!! 9%nat =? OPENVPN_IPPROTO_UDP); cbn [andb]; [|done].
    destruct (8 <=? zlen rest) eqn:E2; breflect; [rewrite (proj2 (Z.leb_le (20 + 8) _)) by lia; apply Hadj; lia|rewrite (proj2 (Z.leb_gt (20 + 8) _)) by lia; done].
Qed.

Definition addr_at (c : list Z) (p : Z) : Z := le_value (slice p 4 c).

(** The sum that verifies the checksum of the IP header (without options), and that of the
    transport protocol, up to the constant part of the pseudo header. *)
Definition ip_sum (c : list Z) : Z := sum16 (ztake 20 c).
Definition transport_sum (c : list Z) : Z := sum16 (slice 12 8 c) + sum16 (zdrop 20 c).

(** The pieces of a packet with a header of 20 bytes. *)
Lemma packet_pieces h1 s d rest :
  zlen h1 = 12 -> zlen s = 4 -> zlen d = 4 -> let c := h1 ++ s ++ d ++ rest in
  addr_at c 12 = le_value s /\ addr_at c 16 = le_value d /\ ip_sum c = sum16 h1 + (sum16 s + sum16 d) /\ transport_sum c = sum16 s + sum16 d + sum16 rest.
Proof.
  intros Hh Hs Hd c. unfold addr_at, ip_sum, transport_sum, slice.
  assert (E12 : zdrop 12 c = s ++ d ++ rest) by (by apply zdrop_app_eq).
  assert (E16 : zdrop 16 c = d ++ rest) by (unfold c; rewrite app_assoc; apply zdrop_app_eq; zlia).
  assert (E20 : zdrop 20 c = rest) by (unfold c; rewrite !app_assoc; apply zdrop_app_eq; zlia).
  assert (T20 : ztake 20 c = h1 ++ s ++ d) by (unfold c; rewrite !app_assoc; apply ztake_app_eq; zlia).
  rewrite E12, E16, E20, T20. rewrite (ztake_app_eq 4 s), (ztake_app_eq 4 d) by done. rewrite (app_assoc s d), (ztake_app_eq 8) by zlia.
  do 2 (split; [done|]). rewrite !sum16_app by (by rewrite ?Hh, ?Hs). lia.
Qed.

Lemma zlen_app3 (h1 s d rest : list Z) : zlen h1 = 12 -> zlen s = 4 -> zlen d = 4 -> zlen (h1 ++ s ++ d ++ rest) - 20 = zlen rest.
Proof. intros. zlia. Qed.

Lemma zdrop_rest (h1 s d rest : list Z) n : zlen h1 = 12 -> zlen s = 4 -> zlen d = 4 -> n = 20 -> zdrop n (h1 ++ s ++ d ++ rest) = rest.
Proof. intros. subst n. rewrite !app_assoc. apply zdrop_app_eq. zlia. Qed.

(** The bytes that translation may change. *)
Definition nat_byte (proto n j : Z) : Prop :=
  10 <= j < 20 \/ exists pos, transport_check proto (n - 20) = Some pos /\ (j = 20 + pos \/ j = 21 + pos).

Lemma adjust_transport_spec proto acc rest :
  Forall is_u8 rest -> Z.abs acc < 2 ^ 30 ->
  zlen (adjust_transport proto acc rest) = zlen rest /\ Forall is_u8 (adjust_transport proto acc rest) /\
  (transport_check proto (zlen rest) <> None -> cong (sum16 (adjust_transport proto acc rest)) (sum16 rest + 256 * acc)) /\
  (forall j, 0 <= j -> (forall pos, transport_check proto (zlen rest) = Some pos -> j <> pos /\ j <> pos + 1) ->
    adjust_transport proto acc rest !!! Z.to_nat j = rest !!! Z.to_nat j).
Proof.
  intros Hu Ha. unfold adjust_transport. destruct (transport_check proto (zlen rest)) as [pos|] eqn:E; [|done].
  assert (Hp : (pos = 16 \/ pos = 6) /\ pos + 2 <= zlen rest).
  { revert E. unfold transport_check, tcphdr_size, udphdr_size. bcase; intros [= <-]; breflect; lia. }
  destruct (adjusted_spec pos acc rest Hu ltac:(lia) ltac:(lia) Ha) as (A1 & A2 & A3 & A4). split; [done|]. split; [done|].
  split; [intros _; apply A4; by destruct Hp as [[-> | ->] _]|]. intros j Hj Ho. destruct (Ho pos eq_refl). by apply A3.
Qed.

(** The translation changes the addresses and keeps the two sums. *)
Lemma nat_transform_spec (pre c post : list Z) (l : client_nat_option_list) (direction : Z) :
  Forall is_u8 c -> 20 <= zlen c -> nat_wf l ->
  exists c', client_nat_transform l (conc pre c post) direction = Ret (conc pre c' post) /\ zlen c' = zlen c /\
    addr_at c' 12 = translate l direction false (addr_at c 12) /\ addr_at c' 16 = translate l direction true (addr_at c 16) /\
    cong (ip_sum c') (ip_sum c) /\
    (transport_check (c !!! 9%nat) (zlen c - 20) <> None -> cong (transport_sum c') (transport_sum c)) /\
    (forall j, 0 <= j -> ~ nat_byte (c !!! 9%nat) (zlen c) j -> c' !!! Z.to_nat j = c !!! Z.to_nat j).
Proof.
  intros Hu Hl Hw. destruct (split_ip c Hl) as (h1 & s & d & rest & -> & Hh & Hs & Hd & Hr). rewrite !Forall_app in Hu. destruct Hu as (Uh & Us & Ud & Ur).
  destruct (nat_transform_eq pre post h1 s d rest l direction Hh Hs Hd Us Ud Uh Hw) as (s' & d' & acc & sb & db & [[L1 L2] [U1 U2] Rs Rd Rsum _ Rn] & Ha & ->).
  destruct (packet_pieces h1 s d rest Hh Hs Hd) as (P1 & P2 & P3 & P4). pose proof (zlen_nonneg rest) as Hrn.
  assert (E9 : (h1 ++ s ++ d ++ rest) !!! 9%nat = h1 !!! 9%nat) by (apply lookup_total_app_l; unfold zlen in Hh; lia). rewrite P1, P2, P3, P4, E9, <- Hr.
  destruct (sb || db) eqn:Eb.
  2:{ apply orb_false_iff in Eb as [-> ->]. destruct (Rn eq_refl eq_refl) as (_ & _ & -> & ->). eexists. split; [done|]. split; [done|]. rewrite P1, P2, P3, P4. done. }
  eexists. split; [done|]. destruct (adjusted_spec 10 acc h1 Uh ltac:(lia) ltac:(lia) Ha) as (A1 & A2 & A3 & A4). set (h1' := adjusted 10 acc h1) in *.
  destruct (adjust_transport_spec (h1 !!! 9%nat) acc rest Ur Ha) as (B1 & B2 & B3 & B4). set (rest' := adjust_transport _ _ _) in *.
  destruct (packet_pieces h1' s' d' rest' ltac:(lia) L1 L2) as (Q1 & Q2 & Q3 & Q4). rewrite Q1, Q2, Q3, Q4. split; [zlia|]. do 2 (split; [done|]).
  destruct (A4 eq_refl) as [k1 K1], Rsum as [k2 K2]. split; [exists (k1 + k2); lia|].
  split; [intros Ht; destruct (B3 Ht) as [k3 K3]; exists (k3 + k2); lia|].
  intros j Hj Hno. unfold nat_byte in Hno. destruct (Z.lt_ge_cases j 10) as [Hlo|Hhi].
  - rewrite !lookup_total_app_l by (unfold zlen in *; lia). apply A3; lia.
  - assert (20 <= j) as H20 by (destruct (Z.lt_ge_cases j 20); [exfalso; apply Hno; left; lia|done]).
    replace j with (20 + (j - 20)) by lia. rewrite <- !zdrop_total by lia. rewrite !(zdrop_rest _ _ _ _ 20) by (done || lia). apply B4; [lia|].
    intros pos Hpos. destruct (Z.eq_dec j (20 + pos)), (Z.eq_dec j (21 + pos)); [exfalso; apply Hno; right; exists pos; split; [|lia]; by rewrite zlen_app3 by done..|lia].
Qed.

(** The checksum of an IP header of 20 bytes is right. *)
Definition header_ok (c : list Z) : Prop := ip_sum c mod 65535 = 0.

(** A UDP checksum of 0 says that there is no checksum. *)
Definition no_checksum (c : list Z) : bool := (c !!! 9%nat =? OPENVPN_IPPROTO_UDP) && (word_at c 26 =? 0).

(** The TCP or UDP checksum behind an IP header of 20 bytes is right, or there is none. *)
Definition segment_ok (c : list Z) : Prop :=
  no_checksum c = true \/ (transport_sum c + c !!! 9%nat + (zlen c - 20)) mod 65535 = 0.

(** C30: address translation.  On any packet with at least the 20 bytes of an IPv4 header the
    translation returns and stays inside the packet; source and destination address are
    rewritten by the first rule for their side that matches, host bits kept; and no other byte
    changes but the header checksum and the two bytes where, behind 20 bytes of header, a complete
    TCP or UDP header has its checksum.  When the IP header has no options, the header
    checksum is right after the translation exactly if it was before, and the checksum of
    a complete TCP header, or of a complete UDP header that has one (is not 0), stays right, both
    of which cover the addresses. *)
Theorem client_nat_keeps_checksums (pre c post : list Z) (l : client_nat_option_list) (direction : Z) :
  Forall is_u8 c -> 20 <= zlen c -> nat_wf l ->
  exists c', client_nat_transform l (conc pre c post) direction = Ret (conc pre c' post) /\ zlen c' = zlen c /\
    addr_at c' 12 = translate l direction false (addr_at c 12) /\ addr_at c' 16 = translate l direction true (addr_at c 16) /\
    (forall j, 0 <= j -> ~ nat_byte (c !!! 9%nat) (zlen c) j -> c' !!! Z.to_nat j = c !!! Z.to_nat j) /\
    (OPENVPN_IPH_GET_LEN (c !!! 0%nat) = 20 ->
       (header_ok c' <-> header_ok c) /\
       (transport_check (c !!! 9%nat) (zlen c - 20) <> None -> no_checksum c = false -> segment_ok c -> segment_ok c')).
Proof.
  intros Hu Hl Hw. destruct (nat_transform_spec pre c post l direction Hu Hl Hw) as (c' & E & L & A1 & A2 & S1 & S2 & O). exists c'.
  do 5 (split; [done|]). intros _. unfold header_ok. split; [apply cong_mod in S1; by rewrite S1|].
  intros Ht Hn [Hs|Hs]; [congruence|]. right. rewrite L. change 9%nat with (Z.to_nat 9) at 1. rewrite (O 9 ltac:(lia)).
  - rewrite <- Hs. apply cong_mod. change (Z.to_nat 9) with 9%nat. by rewrite (S2 Ht).
  - unfold nat_byte, transport_check. intros [?|(pos & Hp & Hj)]; [lia|].
    assert (pos = 16 \/ pos = 6) by (revert Hp; bcase; intros [= <-]; auto). lia.
Qed.

(** A UDP packet without a checksum, from 10.8.0.1, and a rule that translates 10.8.0.0/24. *)
Definition demo_udp : list Z := [69; 0; 0; 28; 0; 0; 0; 0; 64; 17; 0; 0; 10; 8; 0; 1; 8; 8; 8; 8; 4; 0; 0; 53; 0; 8; 0; 0].
Definition demo_rule : client_nat_entry := mkcn CN_SNAT 0x00080A 0x00FFFFFF 0x00A8C0.

(** The packet with its checksum. *)
Definition demo_checked : list Z := ztake 26 demo_udp ++ [0xE1; 0x90].

Lemma demo_rule_wf : nat_wf [demo_rule].
Proof. split; [by vm_compute|]. repeat constructor; cbn; lia. Qed.

Lemma client_nat_keeps_checksums_witness :
  exists c', client_nat_transform [demo_rule] (conc [] demo_checked []) CN_OUTGOING = Ret (conc [] c' []) /\ addr_at c' 12 = 0x0100A8C0 /\
    segment_ok demo_checked /\ segment_ok c'.
Proof.
  destruct (client_nat_keeps_checksums [] demo_checked [] [demo_rule] CN_OUTGOING) as (c' & E & _ & H1 & _ & _ & H2).
  - repeat (apply Forall_cons_2; [unfold is_u8; lia|]). apply Forall_nil_2.
  - by vm_compute.
  - exact demo_rule_wf.
  - assert (Hs : segment_ok demo_checked) by (right; vm_compute; reflexivity). exists c'. split; [exact E|]. split; [rewrite H1; vm_compute; reflexivity|].
    split; [exact Hs|]. apply (proj2 (H2 ltac:(vm_compute; reflexivity))); [vm_compute; discriminate|vm_compute; reflexivity|exact Hs].
Defined.

(** A UDP checksum of 0 says that there is no checksum; translation makes it a wrong one. *)
Theorem client_nat_corrupts_absent_udp_checksum :
  exists c', word_at demo_udp 26 = 0 /\ client_nat_transform [demo_rule] (conc [] demo_udp []) CN_OUTGOING = Ret (conc [] c' []) /\
    word_at c' 26 <> 0 /\ (transport_sum c' + OPENVPN_IPPROTO_UDP + word_at c' 24) mod 65535 <> 0.
Proof.
  exists (match client_nat_transform [demo_rule] (conc [] demo_udp []) CN_OUTGOING with Ret b => content b | _ => [] end).
  split; [vm_compute; reflexivity|]. split; [vm_compute; reflexivity|]. split; vm_compute; discriminate.
Qed.

(** The same packet behind a header with four bytes of options. *)
Definition demo_optioned : list Z := 70 :: ztake 19 (zdrop 1 demo_udp) ++ [1; 1; 1; 0] ++ zdrop 20 demo_udp.

(** Translation takes the transport header to begin after 20 bytes.  With four bytes of IP options, it is the UDP
    destination port (bytes 26 and 27) that it takes for the checksum and changes. *)
Theorem client_nat_changes_port_behind_options :
  exists c', OPENVPN_IPH_GET_LEN (demo_optioned !!! 0%nat) = 24 /\ word_at demo_optioned 26 = 53 /\
    client_nat_transform [demo_rule] (conc [] demo_optioned []) CN_OUTGOING = Ret (conc [] c' []) /\ word_at c' 26 <> 53.
Proof.
  exists (match client_nat_transform [demo_rule] (conc [] demo_optioned []) CN_OUTGOING with Ret b => content b | _ => [] end).
  split; [vm_compute; reflexivity|]. split; [vm_compute; reflexivity|]. split; [vm_compute; reflexivity|]. vm_compute. discriminate.
Qed.

(** Translation back: what a rule makes of an address of its network, the same rule in the
    other direction and on the other side undoes. *)
Lemma translate_back e direction a :
  (direction = CN_OUTGOING \/ direction = CN_INCOMING) -> cn_type e = CN_SNAT \/ cn_type e = CN_DNAT ->
  is_u32 a -> is_u32 (cn_netmask e) -> Z.land (rule_to direction e) (cn_netmask e) = rule_to direction e ->
  Z.land a (cn_netmask e) = rule_from direction e ->
  let dest := rule_on_dest direction e in
  translate [e] (1 - direction) (negb dest) (translate [e] direction dest a) = a.
Proof.
  intros Hd Ht Ha Hm Hto Hfrom dest. set (m := cn_netmask e) in *.
  assert (Hnm : u32 (Z.lnot m) = Z.ldiff (Z.ones 32) m).
  { unfold u32. rewrite <- Z.land_ones by lia. rewrite Z.ldiff_land. apply Z.land_comm. }
  assert (Ha32 : Z.land a (Z.ones 32) = a) by (rewrite Z.land_ones by lia; apply Z.mod_small; exact Ha).
  assert (E1 : translate [e] direction dest a = Z.lor (Z.land a (u32 (Z.lnot m))) (rule_to direction e)).
  { cbn [translate]. unfold dest. rewrite Bool.eqb_reflx. fold m. by rewrite Hfrom, Z.eqb_refl. }
  assert (Esw : rule_from (1 - direction) e = rule_to direction e /\ rule_to (1 - direction) e = rule_from direction e /\ rule_on_dest (1 - direction) e = negb dest).
  { unfold dest, rule_from, rule_to, rule_on_dest, CN_OUTGOING, CN_INCOMING, CN_SNAT, CN_DNAT in *. destruct Hd as [-> | ->], Ht as [-> | ->]; done. }
  destruct Esw as (E2 & E3 & E4). rewrite E1. cbn [translate]. rewrite E2, E3, E4, Bool.eqb_reflx. fold m. rewrite Hnm.
  assert (E5 : Z.land (Z.lor (Z.land a (Z.ldiff (Z.ones 32) m)) (rule_to direction e)) m = rule_to direction e).
  { rewrite Z.land_lor_distr_l, Hto. rewrite <- Z.land_assoc, Z.land_ldiff, Z.land_0_r. apply Z.lor_0_l. }
  rewrite E5, Z.eqb_refl. cbn [andb]. rewrite <- Hto, <- Hfrom. apply Z.bits_inj'. intros n Hn.
  assert (Hb : Z.testbit a n = Z.testbit a n && Z.testbit (Z.ones 32) n) by (by rewrite <- Z.land_spec, Ha32).
  rewrite !Z.lor_spec, !Z.land_spec, !Z.lor_spec, !Z.land_spec, !Z.ldiff_spec.
  destruct (Z.testbit a n), (Z.testbit m n), (Z.testbit (Z.ones 32) n), (Z.testbit (rule_to direction e) n); done.
Qed.

(** ** ICMPv6 errors *)

Lemma sum16_bounds l : Forall is_u8 l -> 0 <= sum16 l <= 65535 * zlen l.
Proof.
  induction l as [|a|a b l IH] using list_ind2; intros Hu; rewrite ?Forall_cons in Hu; unfold is_u8 in *; cbn [sum16]; rewrite ?zlen_cons; change (@zlen Z []) with 0.
  - lia.
  - lia.
  - destruct Hu as (Ha & Hb & Hl). specialize (IH Hl). lia.
Qed.

Lemma word_bytes a b : is_u8 a -> is_u8 b -> Z.land (Z.shiftl a 8) 0xFF00 = a * 256 /\ Z.land b 0xFF = b.
Proof.
  unfold is_u8. intros Ha Hb. split.
  - rewrite Z.shiftl_mul_pow2 by lia. change 0xFF00 with (Z.shiftl (Z.ones 8) 8). rewrite <- (Z.shiftl_mul_pow2 a 8) by lia. rewrite <- Z.shiftl_land.
    rewrite Z.land_ones by lia. rewrite Z.mod_small by lia. by rewrite Z.shiftl_mul_pow2 by lia.
  - change 0xFF with (Z.ones 8). rewrite Z.land_ones by lia. by apply Z.mod_small.
Qed.

Lemma checksum_payload_spec l : forall sum, Forall is_u8 l -> 0 <= sum -> sum + sum16 l < 2 ^ 32 -> checksum_payload sum l = sum + sum16 l.
Proof.
  induction l as [|a|a b l IH] using list_ind2; intros sum Hu Hs Hb; cbn [checksum_payload sum16] in *; rewrite ?Forall_cons in Hu.
  - lia.
  - destruct Hu as [Ha _]. destruct (word_bytes a 0 Ha) as [-> _]; [done|]. unfold is_u8 in Ha. rewrite u16_id, u32_id; unfold is_u16, is_u32; lia.
  - destruct Hu as (Ha & Hb' & Hl). destruct (word_bytes a b Ha Hb') as [-> ->]. pose proof (sum16_bounds l Hl). unfold is_u8 in *.
    rewrite u16_id by (unfold is_u16; lia). rewrite u32_id by (unfold is_u32; lia). rewrite IH by (done || lia). lia.
Qed.

Lemma checksum_addr_spec l : forall sum, Forall is_u8 l -> Z.even (zlen l) = true -> 0 <= sum -> sum + sum16 l < 2 ^ 32 -> checksum_addr sum l = sum + sum16 l.
Proof.
  induction l as [|a|a b l IH] using list_ind2; intros sum Hu He Hs Hb; cbn [checksum_addr sum16] in *; rewrite ?Forall_cons in Hu; [lia|done|].
  destruct Hu as (Ha & Hb' & Hl). destruct (word_bytes a b Ha Hb') as [-> ->]. pose proof (sum16_bounds l Hl). unfold is_u8 in *.
  rewrite u16_id by (unfold is_u16; lia). rewrite u32_id by (unfold is_u32; lia). rewrite IH; [lia|done| |lia|lia].
  rewrite !zlen_cons in He. rewrite <- He. replace (1 + (1 + zlen l)) with (zlen l + 2 * 1) by lia. by rewrite Z.even_add_mul_2.
Qed.

Lemma checksum_fold_spec sum : 0 <= sum < 2 ^ 32 -> exists r, checksum_fold 3 sum = Ret r /\ is_u16 r /\ cong r sum.
Proof.
  intros Hs. assert (Hstep : forall x, 0 <= x < 2 ^ 32 -> Z.shiftr x 16 = x / 65536 /\ Z.land x 0xFFFF +u Z.shiftr x 16 = x mod 65536 + x / 65536).
  { intros x Hx. change 0xFFFF with (Z.ones 16). rewrite Z.land_ones, Z.shiftr_div_pow2 by lia. change (2 ^ 16) with 65536. split; [done|].
    pose proof (Z.mod_pos_bound x 65536). assert (0 <= x / 65536 < 65536) by (split; [apply Z.div_pos; lia|apply Z.div_lt_upper_bound; lia]).
    apply u32_id. unfold is_u32. lia. }
  assert (Hdm : forall x, x = 65536 * (x / 65536) + x mod 65536 /\ 0 <= x mod 65536 < 65536) by (intros x; split; [apply Z.div_mod; lia|apply Z.mod_pos_bound; lia]).
  set (s1 := sum mod 65536 + sum / 65536). set (s2 := s1 mod 65536 + s1 / 65536).
  pose proof (Hdm sum). pose proof (Hdm s1). pose proof (Hdm s2).
  assert (0 <= sum / 65536 < 65536) by (split; [apply Z.div_pos; lia|apply Z.div_lt_upper_bound; lia]).
  assert (0 <= s1 / 65536 <= 1) by (split; [apply Z.div_pos; lia|]; apply Z.lt_succ_r, Z.div_lt_upper_bound; lia).
  assert (0 <= s2 < 65536) by lia.
  destruct (Hstep sum ltac:(lia)) as [A1 A2]. destruct (Hstep s1 ltac:(lia)) as [B1 B2]. destruct (Hstep s2 ltac:(lia)) as [C1 C2].
  cbn [checksum_fold]. rewrite A2, A1. fold s1. rewrite B2, B1. fold s2. rewrite C2, C1.
  destruct (sum / 65536 =? 0) eqn:E1; breflect; [exists sum; split; [done|]; split; [unfold is_u16; lia|done]|].
  destruct (s1 / 65536 =? 0) eqn:E2; breflect; [exists s1; split; [done|]; split; [unfold is_u16; lia|exists (- (sum / 65536)); lia]|].
  rewrite (Z.div_small s2) by lia. cbn [Z.eqb]. exists s2. split; [done|]. split; [unfold is_u16; lia|]. exists (- (sum / 65536) - s1 / 65536). lia.
Qed.

(** The checksum makes the sum over segment and pseudo header vanish. *)
Lemma ip_checksum_spec (inet6 : bool) payload src dest proto :
  let n := if inet6 then 16 else 4 in
  Forall is_u8 payload -> Forall is_u8 src -> Forall is_u8 dest -> zlen payload <= 2 ^ 15 -> zlen src = n -> zlen dest = n -> is_u16 proto ->
  exists k, ip_checksum inet6 payload src dest proto = Ret k /\ is_u16 k /\ cong (k + sum16 payload + sum16 src + sum16 dest + zlen payload + proto) 0.
Proof.
  intros n Up Us Ud Hp Hs Hd Hpr. unfold ip_checksum. fold n. pose proof (sum16_bounds payload Up). pose proof (sum16_bounds src Us). pose proof (sum16_bounds dest Ud).
  assert (Hn : 0 <= n <= 16 /\ Z.even n = true) by (unfold n; destruct inet6; split; done || lia). destruct Hn as [Hn He].
  pose proof (zlen_nonneg payload). unfold is_u16 in *. rewrite checksum_payload_spec by (done || lia).
  rewrite (load_eq src [] src [] 0 n) by (rewrite ?app_nil_r; done). cbn [mbind outcome_mbind]. rewrite checksum_addr_spec by (rewrite ?Hs; done || lia).
  rewrite (load_eq dest [] dest [] 0 n) by (rewrite ?app_nil_r; done). cbn [mbind outcome_mbind]. rewrite checksum_addr_spec by (rewrite ?Hd; done || lia).
  rewrite (u16_id (zlen payload)) by (unfold is_u16; lia). rewrite (u16_id proto) by done. rewrite !u32_id by (unfold is_u32; rewrite ?u32_id; unfold is_u32; lia).
  set (sum := 0 + _ + _ + _ + _ + _). destruct (checksum_fold_spec sum ltac:(lia)) as (r & -> & Hr & [q Hq]). cbn [mbind outcome_mbind].
  unfold is_u16 in Hr. assert (E : u16 (Z.lnot r) = 65535 - r). { unfold u16, Z.lnot. symmetry. apply (Z.mod_unique (Z.pred (- r)) (2 ^ 16) (-1)); lia. }
  rewrite E. eexists. split; [done|]. split; [lia|]. exists (1 - q). lia.
Qed.

Lemma is_ipv6_tun pre c post : 0 < zlen c -> exists ok, is_ipv6 DEV_TYPE_TUN (conc pre c post) = Ret (conc pre c post, ok).
Proof.
  intros Hc. unfold is_ipv6, is_ipv_X, bptr. rewrite buf_len_conc, buf_bptr_conc. cbn [mbind outcome_mbind]. destruct (zlen c <? iphdr_size); [by exists false|].
  cbn [mbind outcome_mbind]. rewrite Z.add_0_r, buf_load1_head by done. cbn [mbind outcome_mbind]. destruct (_ =? 6); [|by exists false].
  rewrite buf_advance_conc. rewrite (proj2 (Z.leb_le 0 (zlen c))) by lia. cbn [andb Z.leb Z.compare]. exists true. by rewrite ztake_0, zdrop_0, app_nil_r.
Qed.

Lemma ztake_ztake {A} a b (l : list A) : a <= b -> ztake a (ztake b l) = ztake a l.
Proof. intros H. unfold ztake. rewrite take_take. f_equal. lia. Qed.

(** The ICMPv6 message for a packet: type, code, checksum, an unused word and the start of
    the packet. *)
Definition icmp6_message (k : Z) (x : list Z) : list Z := [1; 0] ++ be_bytes 2 k ++ [0; 0; 0; 0] ++ x.

Lemma icmp6_message_sum k x : is_u16 k -> splice 2 (be_bytes 2 k) ([1; 0; 0; 0; 0; 0; 0; 0] ++ x) = icmp6_message k x /\
  sum16 (icmp6_message k x) = sum16 ([1; 0; 0; 0; 0; 0; 0; 0] ++ x) + k.
Proof.
  intros Hk. assert (E : splice 2 (be_bytes 2 k) ([1; 0; 0; 0; 0; 0; 0; 0] ++ x) = icmp6_message k x).
  { unfold splice, icmp6_message, ztake, zdrop. rewrite zlen_be_bytes. done. }
  split; [done|]. unfold icmp6_message. cbn [be_bytes app sum16]. unfold is_u16 in Hk.
  rewrite (Z.mod_small (k / 256)) by (split; [apply Z.div_pos; lia|apply Z.div_lt_upper_bound; lia]). pose proof (Z.div_mod k 256). lia.
Qed.

(** ICMPv6 errors.  For every packet with a complete IPv6 header, from a tun device, the
    error is built without failing, provided the buffer has room: an IPv6 header
    addressed to the sender of the packet, an ICMPv6 "no route" message whose checksum
    verifies, and as much of the packet as the limit [MAX_ICMPV6LEN] and the MTU leave: the
    whole has up to [48 + MAX_ICMPV6LEN] bytes. *)
Theorem icmp_unreachable_is_well_formed (pre c post apre ac apost saddr_ : list Z) (mtu : Z) :
  let n := Z.min (Z.min MAX_ICMPV6LEN (mtu - 48)) (zlen c) in
  Forall is_u8 c -> Forall is_u8 saddr_ -> 40 <= zlen c -> zlen saddr_ = 16 -> 48 <= mtu ->
  fits apre ac apost -> 48 + n <= zlen (apre ++ ac ++ apost) ->
  exists out k, ipv6_send_icmp_unreachable DEV_TYPE_TUN (conc pre c post) (conc apre ac apost) saddr_ mtu = Ret (Some out) /\
    content out = (ztake 4 c ++ be_bytes 2 (8 + n) ++ [OPENVPN_IPPROTO_ICMPV6] ++ slice 7 1 c ++ saddr_ ++ slice 8 16 c) ++ icmp6_message k (ztake n c) /\
    buf_len out = 48 + n /\
    cong (sum16 saddr_ + sum16 (slice 8 16 c) + (8 + n) + OPENVPN_IPPROTO_ICMPV6 + sum16 (icmp6_message k (ztake n c))) 0.
Proof.
  intros n Uc Us Hc Hs Hm HF Hroom. unfold ipv6_send_icmp_unreachable. destruct (is_ipv6_tun pre c post ltac:(lia)) as (ok & ->). cbn [mbind outcome_mbind].
  rewrite buf_len_conc. unfold ipv6hdr_size, icmp6hdr_size, bptr. rewrite (proj2 (Z.ltb_ge _ _)) by lia. rewrite buf_bptr_conc. cbn [mbind outcome_mbind].
  assert (Hhdr : buf_load (conc pre c post) (zlen pre) 40 = Ret (ztake 40 c)).
  { pose proof (buf_load_conc pre c post 0 40 ltac:(lia) ltac:(lia) ltac:(lia)) as H. rewrite Z.add_0_r in H. rewrite H. unfold slice. by rewrite zdrop_0. }
  rewrite Hhdr. cbn [mbind outcome_mbind]. change (40 + 8) with 48. rewrite Z.add_0_r.
  assert (En : min_int (min_int MAX_ICMPV6LEN (mtu - 48)) (zlen c) = n) by (by rewrite !min_int_min). rewrite En.
  assert (E16 : ztake 16 (zdrop 8 (ztake 40 c)) = slice 8 16 c) by (unfold slice; by rewrite !ztake_zdrop_comm, ztake_ztake by lia).
  assert (E4 : ztake 4 (ztake 40 c) = ztake 4 c) by (by apply ztake_ztake).
  assert (E7 : ztake 1 (zdrop 7 (ztake 40 c)) = slice 7 1 c) by (unfold slice; by rewrite !ztake_zdrop_comm, ztake_ztake by lia).
  rewrite E16, E4, E7. assert (U8 : Forall is_u8 (slice 8 16 c) /\ zlen (slice 8 16 c) = 16) by (split; [by apply Forall_take, Forall_drop|unfold slice; zlia]).
  destruct U8 as [U8 L8]. unfold fits, BUF_SIZE_MAX in HF. assert (Hn : 0 <= n <= 1280 /\ n <= zlen c) by (unfold n, MAX_ICMPV6LEN; lia).
  set (d := apre ++ ac ++ apost) in *. assert (Hd : zlen d = zlen apre + zlen ac + zlen apost) by (unfold d; zlia).
  rewrite buf_init_conc. rewrite (proj2 (Z.leb_le 48 _)) by lia. cbn [andb Z.leb Z.compare c_assert mbind outcome_mbind]. fold d.
  assert (Hpre : zlen (ztake 48 d) = 48) by zlia. assert (Hpost : zlen (zdrop 48 d) = zlen d - 48) by zlia.
  assert (Hsafe : buf_safe (conc (ztake 48 d) [] (zdrop 48 d)) n = true).
  { unfold buf_safe. rewrite buf_valid_conc. cbn [offset len capacity conc]. rewrite buf_size_valid_iff by lia. unfold BUF_SIZE_MAX.
    rewrite Hpre, Hpost. change (@zlen Z []) with 0. rewrite (proj2 (Z.ltb_lt _ _)) by lia. cbn [andb]. apply Z.leb_le. lia. }
  rewrite Hsafe. cbn [c_assert mbind outcome_mbind]. set (x := ztake n c). assert (Hx : zlen x = n) by (unfold x; zlia).
  assert (Ec : conc pre c post = conc pre (x ++ zdrop n c) post) by (unfold x; by rewrite ztake_zdrop). rewrite Ec.
  rewrite buf_copy_n_conc; [|unfold fits, BUF_SIZE_MAX; change (@zlen Z []) with 0; lia|lia|done]. cbn [c_assert mbind outcome_mbind app].
  rewrite buf_write_prepend_conc. rewrite Hpre. change (zlen [1; 0; 0; 0; 0; 0; 0; 0]) with 8. change (8 <=? 48) with true. cbn [c_assert mbind outcome_mbind].
  rewrite buf_contents_conc. cbn [mbind outcome_mbind]. set (msg := [1; 0; 0; 0; 0; 0; 0; 0] ++ x). assert (Hmsg : zlen msg = 8 + n) by (unfold msg; rewrite zlen_app, Hx; done).
  assert (Ux : Forall is_u8 x) by (by apply Forall_take).
  assert (Um : Forall is_u8 msg). { apply Forall_app. split; [|done]. repeat (apply Forall_cons_2; [unfold is_u8; lia|]). apply Forall_nil_2. }
  destruct (ip_checksum_spec true msg saddr_ (slice 8 16 c) OPENVPN_IPPROTO_ICMPV6 Um Us U8 ltac:(lia) Hs L8 ltac:(unfold is_u16, OPENVPN_IPPROTO_ICMPV6; lia)) as (k & -> & Hk & Hck).
  cbn [mbind outcome_mbind]. rewrite buf_bptr_conc. cbn [mbind outcome_mbind]. rewrite buf_store_conc by (rewrite ?zlen_be_bytes; lia). cbn [mbind outcome_mbind].
  destruct (icmp6_message_sum k x Hk) as [Ek Sk]. unfold msg at 1. rewrite Ek. rewrite buf_write_prepend_conc.
  set (hdr := ztake 4 c ++ _). assert (Hh : zlen hdr = 40) by (unfold hdr, slice; autorewrite with zlen; rewrite Hs; change (@zlen Z [OPENVPN_IPPROTO_ICMPV6]) with 1; zlen_facts; lia).
  rewrite Hh, zlen_ztake, Hpre. change (40 <=? Z.min (Z.max 0 (48 - 8)) 48) with true. cbn [c_assert mbind outcome_mbind].
  eexists _, k. split; [done|]. split; [by rewrite content_conc|]. split; [rewrite buf_len_conc, zlen_app, Hh; unfold icmp6_message; autorewrite with zlen; rewrite Hx; change (@zlen Z [1; 0]) with 2; change (@zlen Z [0; 0; 0; 0]) with 4; lia|].
  destruct Hck as [q Hq]. exists q. rewrite Sk. fold msg. lia.
Qed.

(** The start of a packet from ::1, and a buffer of 200 bytes for the answer. *)
Definition demo_ip6 : list Z := [96; 0; 0; 0; 0; 0; 59; 64] ++ (replicate 15 0 ++ [1]) ++ (replicate 15 0 ++ [2]).

Lemma icmp_unreachable_is_well_formed_witness :
  exists out, ipv6_send_icmp_unreachable DEV_TYPE_TUN (conc [] demo_ip6 []) (conc [] [] (replicate 200 0)) (replicate 15 0 ++ [7]) 1500 = Ret (Some out) /\ buf_len out = 88.
Proof.
  destruct (icmp_unreachable_is_well_formed [] demo_ip6 [] [] [] (replicate 200 0) (replicate 15 0 ++ [7]) 1500) as (out & k & E & _ & H & _).
  1, 2: unfold demo_ip6; cbn [app replicate]; repeat (apply Forall_cons_2; [unfold is_u8; lia|]); apply Forall_nil_2.
  1-5: vm_compute; first [reflexivity | discriminate].
  exists out. split; [exact E|]. rewrite H. vm_compute. reflexivity.
Defined.
