(* ===== verification/Mtu.v ===== *)
(** * Packet geometry ([mtu.h], [mtu.c], [do_init_frame] of [init.c])

    [struct frame] says how large packets may get and how much room the buffers
    that hold them have before and after the payload.  The macros of mtu.h are
    functions of the same name; the members are updated by the [frame_*]
    functions.  [do_init_frame] runs the adjustments the process makes once,
    before any buffer is allocated.  The last part shows how much room the
    buffers allocated from such a frame have. *)
From S2P Require Import Prelude Integer Buffer.

Record frame : Type := mkframe {
  link_mtu : Z;
  link_mtu_dynamic : Z;
  extra_frame : Z;
  extra_buffer : Z;
  extra_tun : Z;
  extra_link : Z;
  align_flags : Z;
  align_adjust : Z
}.

Definition TUN_MTU_MIN : Z := 100.
Definition PAYLOAD_ALIGN : Z := 4.
Definition FRAME_HEADROOM_MARKER_DECRYPT : Z := 1.
Definition FRAME_HEADROOM_MARKER_FRAGMENT : Z := 2.
Definition FRAME_HEADROOM_MARKER_READ_LINK : Z := 4.
Definition FRAME_HEADROOM_MARKER_READ_STREAM : Z := 8.
Definition SET_MTU_TUN : Z := 1.
Definition SET_MTU_UPPER_BOUND : Z := 2.

(** ** The macros *)

Definition TUN_LINK_DELTA (f : frame) : Z := extra_frame f + extra_tun f.
Definition TUN_MTU_SIZE (f : frame) : Z := link_mtu f - TUN_LINK_DELTA f.
Definition TUN_MTU_SIZE_DYNAMIC (f : frame) : Z := link_mtu_dynamic f - TUN_LINK_DELTA f.
Definition PAYLOAD_SIZE (f : frame) : Z := link_mtu f - extra_frame f.
Definition PAYLOAD_SIZE_DYNAMIC (f : frame) : Z := link_mtu_dynamic f - extra_frame f.
Definition EXPANDED_SIZE (f : frame) : Z := link_mtu f.
Definition EXPANDED_SIZE_DYNAMIC (f : frame) : Z := link_mtu_dynamic f.
Definition EXPANDED_SIZE_MIN (f : frame) : Z := TUN_MTU_MIN + TUN_LINK_DELTA f.
Definition MAX_RW_SIZE_TUN (f : frame) : Z := PAYLOAD_SIZE f.
Definition MAX_RW_SIZE_LINK (f : frame) : Z := EXPANDED_SIZE f + extra_link f.
Definition FRAME_HEADROOM_BASE (f : frame) : Z := TUN_LINK_DELTA f + extra_buffer f + extra_link f.
Definition BUF_SIZE (f : frame) : Z := TUN_MTU_SIZE f + FRAME_HEADROOM_BASE f * 2.

(** The starting offset of a packet: the headroom, moved up to the alignment. *)
Definition frame_headroom (f : frame) (flag_mask : Z) : Z :=
  let offset := FRAME_HEADROOM_BASE f in
  let adjust := if Z.land flag_mask (align_flags f) =? 0 then 0 else align_adjust f in
  let delta := Z.land (Z.shiftl PAYLOAD_ALIGN 24 - (offset + adjust)) (PAYLOAD_ALIGN - 1) in
  offset + delta.

Definition FRAME_HEADROOM_ADJ (f : frame) (fm : Z) : Z := frame_headroom f fm.

(** ** Member adjustment functions *)

Definition frame_add_to_link_mtu (f : frame) (increment : Z) : frame :=
  mkframe (link_mtu f + increment) (link_mtu_dynamic f) (extra_frame f) (extra_buffer f)
    (extra_tun f) (extra_link f) (align_flags f) (align_adjust f).

Definition set_extra_frame (f : frame) (x : Z) : frame :=
  mkframe (link_mtu f) (link_mtu_dynamic f) x (extra_buffer f)
    (extra_tun f) (extra_link f) (align_flags f) (align_adjust f).

(** The parameter is unsigned: the sum is computed in [unsigned int] and
    converted back to [int]. *)
Definition frame_add_to_extra_frame (f : frame) (increment : Z) : frame :=
  set_extra_frame f (i32 (u32 (extra_frame f) +u increment)).

Definition frame_remove_from_extra_frame (f : frame) (decrement : Z) : frame :=
  set_extra_frame f (i32 (u32 (extra_frame f) -u decrement)).

Definition frame_add_to_extra_tun (f : frame) (increment : Z) : frame :=
  mkframe (link_mtu f) (link_mtu_dynamic f) (extra_frame f) (extra_buffer f)
    (extra_tun f + increment) (extra_link f) (align_flags f) (align_adjust f).

Definition frame_add_to_extra_link (f : frame) (increment : Z) : frame :=
  mkframe (link_mtu f) (link_mtu_dynamic f) (extra_frame f) (extra_buffer f)
    (extra_tun f) (extra_link f + increment) (align_flags f) (align_adjust f).

Definition frame_add_to_extra_buffer (f : frame) (increment : Z) : frame :=
  mkframe (link_mtu f) (link_mtu_dynamic f) (extra_frame f) (extra_buffer f + increment)
    (extra_tun f) (extra_link f) (align_flags f) (align_adjust f).

Definition set_align (f : frame) (flags adjust : Z) : frame :=
  mkframe (link_mtu f) (link_mtu_dynamic f) (extra_frame f) (extra_buffer f)
    (extra_tun f) (extra_link f) flags adjust.

Definition frame_add_to_align_adjust (f : frame) (increment : Z) : frame :=
  set_align f (align_flags f) (align_adjust f + increment).

Definition frame_align_to_extra_frame (f : frame) : frame :=
  set_align f (align_flags f) (extra_frame f + extra_link f).

Definition frame_or_align_flags (f : frame) (flag_mask : Z) : frame :=
  set_align f (Z.lor (align_flags f) flag_mask) (align_adjust f).

Definition frame_defined (f : frame) : bool := 0 <? link_mtu f.

(** ** mtu.c *)

(** [alloc_buf_sock_tun] *)
Definition alloc_buf_sock_tun (f : frame) (tuntap_buffer : bool) (align_mask : Z) : outcome buffer :=
  b ← alloc_buf (BUF_SIZE f);
  let '(b, ok) := buf_init b (FRAME_HEADROOM_ADJ f align_mask) in
  _ ← c_assert ok;
  let b := set_len b (if tuntap_buffer then MAX_RW_SIZE_TUN f else MAX_RW_SIZE_LINK f) in
  _ ← c_assert (buf_safe b 0);
  Ret b.

Definition set_link_mtu (f : frame) (m d : Z) : frame :=
  mkframe m d (extra_frame f) (extra_buffer f)
    (extra_tun f) (extra_link f) (align_flags f) (align_adjust f).

(** A tun MTU that is too small is fatal. *)
Definition frame_finalize (f : frame) (link_mtu_defined : bool) (lmtu : Z)
    (tun_mtu_defined : bool) (tun_mtu : Z) : outcome frame :=
  f ← (if tun_mtu_defined
       then _ ← c_assert (negb link_mtu_defined);
            Ret (set_link_mtu f (tun_mtu + TUN_LINK_DELTA f) (link_mtu_dynamic f))
       else _ ← c_assert link_mtu_defined;
            Ret (set_link_mtu f lmtu (link_mtu_dynamic f)));
  if TUN_MTU_SIZE f <? TUN_MTU_MIN then Fatal
  else Ret (set_link_mtu f (link_mtu f) (link_mtu f)).

Definition frame_set_mtu_dynamic (f : frame) (mtu flags : Z) : outcome frame :=
  _ ← c_assert (0 <=? mtu);
  let mtu := if Z.land flags SET_MTU_TUN =? 0 then mtu else mtu + TUN_LINK_DELTA f in
  Ret (if (Z.land flags SET_MTU_UPPER_BOUND =? 0) || (mtu <? link_mtu_dynamic f)
       then set_link_mtu f (link_mtu f) (constrain_int mtu (EXPANDED_SIZE_MIN f) (EXPANDED_SIZE f))
       else f).

Definition frame_subtract_extra (f src : frame) : frame :=
  mkframe (link_mtu f) (link_mtu_dynamic f) (extra_frame f - extra_frame src) (extra_buffer f)
    (extra_tun f + extra_frame src) (extra_link f) (align_flags f) (align_adjust f).

Definition frame_init_mssfix (f : frame) (mssfix : Z) : outcome frame :=
  if mssfix =? 0 then Ret f else frame_set_mtu_dynamic f mssfix SET_MTU_UPPER_BOUND.

(** ** Adjustments made by the other layers *)

Definition PROTO_NONE : Z := 0.
Definition PROTO_UDP : Z := 1.
Definition PROTO_TCP : Z := 2.
Definition PROTO_TCP_SERVER : Z := 3.
Definition PROTO_TCP_CLIENT : Z := 4.
Definition PROTO_N : Z := 5.

Definition proto_is_udp (proto : Z) : outcome bool :=
  _ ← c_assert (negb ((proto <? 0) || (PROTO_N <=? proto)));
  Ret (proto =? PROTO_UDP).

Definition proto_is_dgram (proto : Z) : outcome bool := proto_is_udp proto.

Definition link_socket_proto_connection_oriented (proto : Z) : outcome bool :=
  dgram ← proto_is_dgram proto; Ret (negb dgram).

Definition proto_overhead : list Z := [0; 28; 40; 40; 48; 60; 60; 60].

Definition datagram_overhead (proto : Z) : outcome Z :=
  _ ← c_assert ((0 <=? proto) && (proto <? PROTO_N));
  load1 proto_overhead proto.

Definition frame_adjust_path_mtu (f : frame) (pmtu proto : Z) : outcome frame :=
  ov ← datagram_overhead proto;
  frame_set_mtu_dynamic f (pmtu - ov) SET_MTU_UPPER_BOUND.

Definition sizeof_packet_size_type : Z := 2.

Definition socket_adjust_frame_parameters (f : frame) (proto : Z) : outcome frame :=
  stream ← link_socket_proto_connection_oriented proto;
  Ret (if stream : bool then frame_add_to_extra_frame f sizeof_packet_size_type else f).

Definition socks_adjust_frame_parameters (f : frame) (proto : Z) : frame :=
  if proto =? PROTO_UDP then frame_add_to_extra_link f 10 else f.

Definition tun_adjust_frame_parameters (f : frame) (size : Z) : frame :=
  frame_add_to_extra_tun f size.

Definition COMP_PREFIX_LEN : Z := 1.
Definition COMP_EXTRA_BUFFER (n : Z) : Z := Z.quot n 6 + 128 + 3 + COMP_PREFIX_LEN.

Definition comp_add_to_extra_frame (f : frame) : frame :=
  frame_add_to_extra_frame f COMP_PREFIX_LEN.

Definition comp_add_to_extra_buffer (f : frame) : frame :=
  frame_add_to_extra_buffer f (COMP_EXTRA_BUFFER (EXPANDED_SIZE f)).

(** ** Setting the frame up *)

(** The options [do_init_frame] reads, [CIPHER_ENABLED] of the context included. *)
Record frame_options : Type := mkfopt {
  comp_enabled : bool;
  cipher_enabled : bool;
  socks_proxy_server : bool;
  proto : Z;
  link_mtu_defined : bool;
  o_link_mtu : Z;
  tun_mtu_defined : bool;
  o_tun_mtu : Z;
  tun_mtu_extra_defined : bool;
  tun_mtu_extra : Z
}.

Definition frame_finalize_options (o : frame_options) (f : frame) : outcome frame :=
  let f :=
    if negb (cipher_enabled o)
    then frame_or_align_flags (frame_align_to_extra_frame f)
           (Z.lor (Z.lor FRAME_HEADROOM_MARKER_FRAGMENT FRAME_HEADROOM_MARKER_READ_LINK)
              FRAME_HEADROOM_MARKER_READ_STREAM)
    else f in
  let f := frame_add_to_extra_buffer f PAYLOAD_ALIGN in
  frame_finalize f (link_mtu_defined o) (o_link_mtu o) (tun_mtu_defined o) (o_tun_mtu o).

(** [do_init_frame] with LZ4 compiled in, as the configuration of the build has
    it: the new [c2.frame], [c2.frame_fragment_omit] and [c2.frame_fragment]. *)
Definition do_init_frame (o : frame_options) (f omit : frame) : outcome (frame * frame * frame) :=
  let f := if comp_enabled o then comp_add_to_extra_frame f else f in
  let omit := if comp_enabled o then comp_add_to_extra_frame omit else omit in
  let f := if socks_proxy_server o then socks_adjust_frame_parameters f (proto o) else f in
  let f := if tun_mtu_extra_defined o then tun_adjust_frame_parameters f (tun_mtu_extra o) else f in
  f ← socket_adjust_frame_parameters f (proto o);
  f ← frame_finalize_options o f;
  let f := comp_add_to_extra_buffer f in
  let omit := comp_add_to_extra_buffer omit in
  let f := frame_add_to_extra_link f 3 in
  Ret (f, omit, frame_subtract_extra f omit).

(** ** The room buffers have *)

(** A frame whose members are sane: nothing negative, a tun MTU that passed
    [frame_finalize], and buffers below the limit of [alloc_buf]. *)
Definition frame_ok (f : frame) : Prop :=
  0 <= extra_frame f /\ 0 <= extra_tun f /\ 0 <= extra_link f /\ 0 <= extra_buffer f /\
  TUN_MTU_MIN <= TUN_MTU_SIZE f /\ BUF_SIZE f < BUF_SIZE_MAX.

Lemma land_3 x : Z.land x 3 = x mod 4.
Proof. change 3 with (Z.ones 2). by rewrite Z.land_ones. Qed.

(** The headroom asked for, and at most the alignment more. *)
Lemma frame_headroom_bounds f m :
  FRAME_HEADROOM_BASE f <= frame_headroom f m <= FRAME_HEADROOM_BASE f + 3.
Proof.
  unfold frame_headroom, PAYLOAD_ALIGN. cbv zeta. change (4 - 1) with 3. rewrite land_3.
  match goal with |- context [?x mod 4] => pose proof (Z.mod_pos_bound x 4) end. lia.
Qed.

(** Packets start at a multiple of [PAYLOAD_ALIGN] once the adjustment is added. *)
Lemma frame_headroom_aligned f m :
  (frame_headroom f m +
   (if Z.land m (align_flags f) =? 0 then 0 else align_adjust f)) mod PAYLOAD_ALIGN = 0.
Proof.
  unfold frame_headroom, PAYLOAD_ALIGN. cbv zeta. change (4 - 1) with 3. rewrite land_3.
  change (Z.shiftl 4 24) with (4 * 16777216).
  generalize (if Z.land m (align_flags f) =? 0 then 0 else align_adjust f); intros a.
  generalize (FRAME_HEADROOM_BASE f); intros b. Z.div_mod_to_equations. lia.
Qed.

(** A buffer of the socket or tun layer: enough headroom for everything the
    layers prepend, the window for a packet of maximal size, and behind it all
    of [extra_buffer] but what alignment took. *)
Lemma alloc_buf_sock_tun_room f tt m :
  frame_ok f -> 3 <= extra_buffer f ->
  exists pre c post,
    alloc_buf_sock_tun f tt m = Ret (conc pre c post) /\ fits pre c post /\
    zlen c = (if tt : bool then MAX_RW_SIZE_TUN f else MAX_RW_SIZE_LINK f) /\
    FRAME_HEADROOM_BASE f <= zlen pre /\ extra_buffer f - 3 <= zlen post.
Proof.
  intros (Hf & Ht & Hl & Hb & Hmin & Hmax) H3.
  pose proof (frame_headroom_bounds f m) as Hh.
  set (h := frame_headroom f m) in *.
  set (n := if tt then MAX_RW_SIZE_TUN f else MAX_RW_SIZE_LINK f).
  assert (Hn : 0 <= n /\ h + n + (extra_buffer f - 3) <= BUF_SIZE f).
  { unfold n, BUF_SIZE, FRAME_HEADROOM_BASE, MAX_RW_SIZE_TUN, MAX_RW_SIZE_LINK, TUN_MTU_SIZE,
      PAYLOAD_SIZE, EXPANDED_SIZE, TUN_LINK_DELTA, TUN_MTU_MIN in *. destruct tt; lia. }
  assert (H0 : 0 <= h) by (unfold FRAME_HEADROOM_BASE, TUN_LINK_DELTA in Hh; lia).
  set (r := BUF_SIZE f - h - n).
  exists (replicate (Z.to_nat h) 0), (replicate (Z.to_nat n) 0), (replicate (Z.to_nat r) 0).
  assert (Hz : forall x, 0 <= x -> zlen (replicate (Z.to_nat x) 0) = x).
  { intros x Hx. unfold zlen. rewrite length_replicate. lia. }
  assert (Hc : mkbuffer (BUF_SIZE f) h n (Some (replicate (Z.to_nat (BUF_SIZE f)) 0)) =
      conc (replicate (Z.to_nat h) 0) (replicate (Z.to_nat n) 0) (replicate (Z.to_nat r) 0)).
  { apply mkbuffer_conc; rewrite ?Hz by lia; [lia..|]. rewrite <- !replicate_add. f_equal. lia. }
  rewrite <- Hc. unfold fits. rewrite !Hz by lia. split_and!; [|unfold r, BUF_SIZE_MAX in *; lia|done|lia|lia].
  unfold alloc_buf_sock_tun, alloc_buf, buf_init, FRAME_HEADROOM_ADJ. fold h n.
  unfold BUF_SIZE_MAX in *. rewrite buf_size_valid_iff by lia. unfold BUF_SIZE_MAX. bdecide.
  cbn [mbind outcome_mbind capacity buf_defined data]. bdecide.
  unfold buf_safe, buf_valid, set_len, set_offset_len.
  cbn [mbind outcome_mbind c_assert negb orb buf_defined data capacity offset len].
  change (buf_size_valid 0) with true. clearbody h n. bdecide. done.
Qed.

(** ** What [do_init_frame] establishes *)

(** Options and initial frame within the ranges of real configurations: the
    option parser admits exactly one of the two MTU settings, and the layers
    that adjusted [f] before (cipher, packet identifiers, opcode, fragment
    header) add at most a few hundred bytes. *)
Definition frame_options_ok (o : frame_options) (f : frame) : Prop :=
  0 <= extra_frame f <= 1000 /\ 0 <= extra_tun f <= 1000 /\ 0 <= extra_link f <= 1000 /\
  0 <= extra_buffer f <= 1000 /\ 0 <= tun_mtu_extra o <= 1000 /\
  0 <= proto o < PROTO_N /\
  (if tun_mtu_defined o
   then link_mtu_defined o = false /\ TUN_MTU_MIN <= o_tun_mtu o <= 65535
   else link_mtu_defined o = true /\ 3200 <= o_link_mtu o <= 65535).

Lemma frame_add_to_extra_frame_small f n :
  0 <= extra_frame f <= 2000 -> 0 <= n <= 1000 ->
  frame_add_to_extra_frame f n = set_extra_frame f (extra_frame f + n).
Proof. intros Hf Hn. unfold frame_add_to_extra_frame. f_equal. uwrap. Qed.

(** The frame [frame_finalize_options] leaves, up to its alignment. *)
Lemma frame_finalize_options_ok o f :
  0 <= extra_frame f <= 1010 -> 0 <= extra_tun f <= 2000 ->
  (if tun_mtu_defined o
   then link_mtu_defined o = false /\ TUN_MTU_MIN <= o_tun_mtu o <= 65535
   else link_mtu_defined o = true /\ 3200 <= o_link_mtu o <= 65535) ->
  exists f', frame_finalize_options o f = Ret f' /\
    extra_frame f' = extra_frame f /\ extra_tun f' = extra_tun f /\ extra_link f' = extra_link f /\
    extra_buffer f' = extra_buffer f + PAYLOAD_ALIGN /\ link_mtu f' <= 70000 /\
    TUN_MTU_MIN <= TUN_MTU_SIZE f' /\ link_mtu_dynamic f' = link_mtu f'.
Proof.
  intros Hf Ht Hm. unfold frame_finalize_options.
  destruct (cipher_enabled o), (tun_mtu_defined o); destruct Hm as [-> Hm];
    unfold frame_finalize, TUN_MTU_SIZE, TUN_LINK_DELTA, TUN_MTU_MIN in *;
    cbn -[Z.add Z.lor] in *; bdecide; eexists; (split; [reflexivity|]); cbn -[Z.add Z.lor]; lia.
Qed.

(** After [do_init_frame] every buffer allocated from the frame is within
    limits, a stream protocol has its two bytes of length accounted for, and
    [extra_buffer] holds the worst-case expansion of compression. *)
Lemma do_init_frame_ok o f omit :
  frame_options_ok o f ->
  exists f' omit' ff, do_init_frame o f omit = Ret (f', omit', ff) /\ frame_ok f' /\
    132 <= extra_buffer f' /\ 3 <= extra_link f' /\ link_mtu_dynamic f' = link_mtu f' /\
    (proto o <> PROTO_UDP -> 2 <= extra_frame f') /\ COMP_EXTRA_BUFFER (EXPANDED_SIZE f') <= extra_buffer f'.
Proof.
  intros (Hf & Ht & Hl & Hb & He & Hp & Hm). unfold do_init_frame.
  set (f1 := if comp_enabled o then comp_add_to_extra_frame f else f).
  assert (H1 : 0 <= extra_frame f1 <= 1001 /\ extra_tun f1 = extra_tun f /\
    extra_link f1 = extra_link f /\ extra_buffer f1 = extra_buffer f).
  { unfold f1. destruct (comp_enabled o); [|lia].
    unfold comp_add_to_extra_frame, COMP_PREFIX_LEN.
    rewrite frame_add_to_extra_frame_small by lia. cbn -[Z.add]. lia. }
  set (f2 := if socks_proxy_server o then socks_adjust_frame_parameters f1 (proto o) else f1).
  assert (H2 : extra_frame f2 = extra_frame f1 /\ extra_tun f2 = extra_tun f /\
    0 <= extra_link f2 <= 1010 /\ extra_buffer f2 = extra_buffer f).
  { unfold f2, socks_adjust_frame_parameters.
    destruct (socks_proxy_server o); [destruct (_ =? _)|]; cbn -[Z.add]; lia. }
  set (f3 := if tun_mtu_extra_defined o then _ else f2).
  assert (H3 : extra_frame f3 = extra_frame f1 /\ 0 <= extra_tun f3 <= 2000 /\
    extra_link f3 = extra_link f2 /\ extra_buffer f3 = extra_buffer f).
  { unfold f3. destruct (tun_mtu_extra_defined o); cbn -[Z.add]; lia. }
  clearbody f1 f2 f3.
  unfold socket_adjust_frame_parameters, link_socket_proto_connection_oriented, proto_is_dgram,
    proto_is_udp. unfold PROTO_N in *. bdecide. cbn [negb orb c_assert mbind outcome_mbind].
  set (f4 := if negb (proto o =? PROTO_UDP) then _ else f3).
  assert (H4 : 0 <= extra_frame f4 <= 1003 /\ extra_tun f4 = extra_tun f3 /\
    extra_link f4 = extra_link f3 /\ extra_buffer f4 = extra_buffer f /\
    (proto o <> PROTO_UDP -> 2 <= extra_frame f4)).
  { unfold f4, sizeof_packet_size_type. destruct (Z.eqb_spec (proto o) PROTO_UDP); cbn [negb]; [lia|].
    rewrite frame_add_to_extra_frame_small by lia. cbn -[Z.add]. lia. }
  clearbody f4.
  destruct (frame_finalize_options_ok o f4) as (f5 & -> & E1 & E2 & E3 & E4 & E5 & E6 & E7); [lia..|done|].
  cbn [mbind outcome_mbind]. eexists _, _, _. split; [reflexivity|].
  unfold frame_ok, BUF_SIZE, FRAME_HEADROOM_BASE, TUN_MTU_SIZE, TUN_LINK_DELTA, TUN_MTU_MIN,
    BUF_SIZE_MAX, comp_add_to_extra_buffer, COMP_EXTRA_BUFFER, COMP_PREFIX_LEN, EXPANDED_SIZE,
    PAYLOAD_ALIGN in *.
  cbn -[Z.add Z.mul Z.sub Z.quot].
  pose proof (Z.quot_pos (link_mtu f5) 6). pose proof (Z.quot_le_upper_bound (link_mtu f5) 6 70000).
  lia.
Qed.
