(* ===== verification/Stream.v ===== *)
(** * Packets on a TCP stream ([socket.c], [socket.h], [ps.c])

    Over TCP every packet is preceded by its length in two bytes.
    [struct stream_buf] cuts the received stream back into packets.  Its buffers
    [buf_init], [buf] and [next] are three windows into one object; so is the
    buffer a finished packet is handed out in, and the caller may overwrite the
    object while it processes the packet.  The object's bytes are kept once, in
    [sb_buf]; [sb_buf_init] and [sb_next] are headers without bytes.

    [recv] is a function of what the peer has sent and not yet been read
    ([pending]) and of the number of bytes the kernel chooses to deliver. *)
From S2P Require Import Prelude Integer Buffer Mtu.

(** The header of a [struct buffer] whose bytes are those of [sb_buf]. *)
Record window : Type := mkwindow { w_capacity : Z; w_offset : Z; w_len : Z }.

Definition window_of (b : buffer) : window := mkwindow (capacity b) (offset b) (len b).
Definition rewindow (b : buffer) (w : window) : buffer :=
  mkbuffer (w_capacity w) (w_offset w) (w_len w) (data b).

(** [port_share_state] *)
Inductive port_share : Type := PS_DISABLED | PS_ENABLED | PS_FOREIGN.

#[global] Instance port_share_eq_dec : EqDecision port_share.
Proof. solve_decision. Defined.

(** [struct stream_buf]; a reset [next] ([data] is [NULL]) is [None]. *)
Record stream_buf : Type := mksb {
  sb_buf_init : window;
  sb_residual : buffer;
  sb_maxlen : Z;
  sb_residual_fully_formed : bool;
  sb_buf : buffer;
  sb_next : option window;
  sb_len : Z;
  sb_error : bool;
  sb_port_share_state : port_share
}.

Definition sb_set_buf (sb : stream_buf) (b : buffer) : stream_buf :=
  mksb (sb_buf_init sb) (sb_residual sb) (sb_maxlen sb) (sb_residual_fully_formed sb) b
    (sb_next sb) (sb_len sb) (sb_error sb) (sb_port_share_state sb).

Definition sb_set_residual (sb : stream_buf) (r : buffer) : stream_buf :=
  mksb (sb_buf_init sb) r (sb_maxlen sb) (sb_residual_fully_formed sb) (sb_buf sb)
    (sb_next sb) (sb_len sb) (sb_error sb) (sb_port_share_state sb).

Definition sb_set_formed (sb : stream_buf) (v : bool) : stream_buf :=
  mksb (sb_buf_init sb) (sb_residual sb) (sb_maxlen sb) v (sb_buf sb)
    (sb_next sb) (sb_len sb) (sb_error sb) (sb_port_share_state sb).

Definition sb_put_next (sb : stream_buf) (w : option window) : stream_buf :=
  mksb (sb_buf_init sb) (sb_residual sb) (sb_maxlen sb) (sb_residual_fully_formed sb) (sb_buf sb)
    w (sb_len sb) (sb_error sb) (sb_port_share_state sb).

Definition sb_set_len (sb : stream_buf) (n : Z) : stream_buf :=
  mksb (sb_buf_init sb) (sb_residual sb) (sb_maxlen sb) (sb_residual_fully_formed sb) (sb_buf sb)
    (sb_next sb) n (sb_error sb) (sb_port_share_state sb).

Definition sb_set_error (sb : stream_buf) (v : bool) : stream_buf :=
  mksb (sb_buf_init sb) (sb_residual sb) (sb_maxlen sb) (sb_residual_fully_formed sb) (sb_buf sb)
    (sb_next sb) (sb_len sb) v (sb_port_share_state sb).

Definition sb_set_port_share (sb : stream_buf) (p : port_share) : stream_buf :=
  mksb (sb_buf_init sb) (sb_residual sb) (sb_maxlen sb) (sb_residual_fully_formed sb) (sb_buf sb)
    (sb_next sb) (sb_len sb) (sb_error sb) p.

(** ** Operations *)

Definition stream_buf_reset (sb : stream_buf) : stream_buf :=
  let sb := sb_set_formed sb false in
  let sb := sb_set_buf sb (rewindow (sb_buf sb) (sb_buf_init sb)) in
  let sb := sb_put_next sb None in
  sb_set_len sb (-1).

(** [share] is the condition on the socket flags and the protocol. *)
Definition stream_buf_init (buf : buffer) (share : bool) : outcome stream_buf :=
  let maxlen := len buf in
  residual ← alloc_buf maxlen;
  Ret (stream_buf_reset
         (mksb (mkwindow (capacity buf) (offset buf) 0) residual maxlen false buf None 0 false
            (if share then PS_ENABLED else PS_DISABLED))).

Definition stream_buf_set_next (sb : stream_buf) : outcome stream_buf :=
  let b := sb_buf sb in
  let n := (if 0 <=? sb_len sb then sb_len sb else sb_maxlen sb) - len b in
  let sb := sb_put_next sb (Some (mkwindow (capacity b) (offset b + len b) n)) in
  _ ← c_assert (0 <? n);
  _ ← c_assert (buf_safe b n);
  Ret sb.

Definition stream_buf_get_final (sb : stream_buf) : outcome buffer :=
  _ ← c_assert (buf_defined (sb_buf sb));
  Ret (sb_buf sb).

(** [None] is an undefined buffer, which fails the assertion. *)
Definition stream_buf_get_next (sb : stream_buf) : outcome window :=
  match sb_next sb with
  | Some w => Ret w
  | None => Fatal
  end.

Definition P_CONTROL_HARD_RESET_CLIENT_V2 : Z := 7.
Definition P_CONTROL_HARD_RESET_CLIENT_V3 : Z := 10.
Definition P_OPCODE_SHIFT : Z := 3.

(** [is_openvpn_protocol]: the test of the first bytes of a client's stream. *)
Definition is_openvpn_protocol (buf : buffer) : outcome bool :=
  let n := buf_len buf in
  if 3 <=? n
  then p0 ← buf_load1 buf (offset buf); p1 ← buf_load1 buf (offset buf + 1);
       p2 ← buf_load1 buf (offset buf + 2);
       Ret ((p0 =? 0) && (14 <=? p1)
            && ((p2 =? Z.shiftl P_CONTROL_HARD_RESET_CLIENT_V2 P_OPCODE_SHIFT)
                || (p2 =? Z.shiftl P_CONTROL_HARD_RESET_CLIENT_V3 P_OPCODE_SHIFT)))
  else if 2 <=? n
  then p0 ← buf_load1 buf (offset buf); p1 ← buf_load1 buf (offset buf + 1);
       Ret ((p0 =? 0) && (14 <=? p1))
  else Ret true.

(** The part of [stream_buf_added] that reads the length: the new state, and
    whether the function returns there, with [false]. *)
Definition stream_buf_read_len (sb : stream_buf) : outcome (stream_buf * bool) :=
  if (sb_len sb <? 0) && (sizeof_packet_size_type <=? len (sb_buf sb))
  then
    ours ← (match sb_port_share_state sb with
            | PS_ENABLED => is_openvpn_protocol (sb_buf sb)
            | _ => Ret true
            end);
    if negb ours
    then Ret (sb_set_error (sb_set_port_share sb PS_FOREIGN) true, true)
    else
      let sb := match sb_port_share_state sb with
                | PS_ENABLED => sb_set_port_share sb PS_DISABLED
                | _ => sb
                end in
      '(b, r) ← buf_read (sb_buf sb) sizeof_packet_size_type;
      match r with
      | None => Fatal
      | Some net_size =>
          let sb := sb_set_len (sb_set_buf sb b) (be_value net_size) in
          if (sb_len sb <? 1) || (sb_maxlen sb <? sb_len sb)
          then Ret (sb_set_error (stream_buf_reset sb) true, true)
          else Ret (sb, false)
      end
  else Ret (sb, false).

(** The rest of it: whether the packet is complete, with what follows it saved
    as the residual. *)
Definition stream_buf_complete (sb : stream_buf) : outcome (stream_buf * bool) :=
  if (0 <? sb_len sb) && (sb_len sb <=? len (sb_buf sb))
  then
    let '(residual, ok) := buf_init (sb_residual sb) 0 in
    _ ← c_assert ok;
    let sb := sb_set_residual sb residual in
    if sb_len sb <? len (sb_buf sb)
    then
      '(residual, b, ok) ← buf_copy_excess (sb_residual sb) (sb_buf sb) (sb_len sb);
      _ ← c_assert ok;
      Ret (sb_set_buf (sb_set_residual sb residual) b, true)
    else Ret (sb, true)
  else
    sb ← stream_buf_set_next sb;
    Ret (sb, false).

Definition stream_buf_added (sb : stream_buf) (length_added : Z) : outcome (stream_buf * bool) :=
  let sb := if 0 <? length_added
            then sb_set_buf sb (set_len (sb_buf sb) (len (sb_buf sb) + length_added)) else sb in
  '(sb, stop) ← stream_buf_read_len sb;
  if stop : bool then Ret (sb, false) else stream_buf_complete sb.

(** Returns whether the caller should wait for the socket. *)
Definition stream_buf_read_setup_dowork (sb : stream_buf) : outcome (stream_buf * bool) :=
  sb ← (if negb (len (sb_residual sb) =? 0) && negb (sb_residual_fully_formed sb)
        then
          '(b, ok) ← buf_copy (sb_buf sb) (sb_residual sb);
          _ ← c_assert ok;
          let sb := sb_set_buf sb b in
          let '(residual, ok) := buf_init (sb_residual sb) 0 in
          _ ← c_assert ok;
          let sb := sb_set_residual sb residual in
          '(sb, formed) ← stream_buf_added sb 0;
          Ret (sb_set_formed sb formed)
        else Ret sb);
  sb ← (if negb (sb_residual_fully_formed sb) then stream_buf_set_next sb else Ret sb);
  Ret (sb, negb (sb_residual_fully_formed sb)).

Definition stream_buf_close (sb : stream_buf) : stream_buf :=
  sb_set_residual sb (free_buf (sb_residual sb)).

(** ** Reading and writing the socket *)

(** What a call of [recv] meets: up to [n] bytes are available, the peer has
    closed the connection, or the call fails. *)
Inductive recv_event : Type :=
| RecvData (n : Z)
| RecvClosed
| RecvError.

(** [recv (sd, BPTR (&frag), BLEN (&frag), MSG_NOSIGNAL)]: the bytes are stored
    in the object of [sb_buf]; the result is the buffer, what is still pending and
    the value returned.  With nothing to read the call fails. *)
Definition recv (ev : recv_event) (pending : list Z) (b : buffer) (frag : window)
  : outcome (buffer * list Z * Z) :=
  match ev with
  | RecvData n =>
      let k := Z.min (Z.max n 1) (Z.min (w_len frag) (zlen pending)) in
      if k <=? 0 then Ret (b, pending, -1)
      else b' ← buf_store b (w_offset frag) (ztake k pending); Ret (b', zdrop k pending, k)
  | RecvClosed => Ret (b, pending, 0)
  | RecvError => Ret (b, pending, -1)
  end.

(** The members of [struct link_socket] that the stream functions use, and the
    bytes the peer has sent. *)
Record link_socket : Type := mksock {
  ls_stream_buf : stream_buf;
  ls_stream_reset : bool;
  ls_pending : list Z
}.

(** The result is the new state, the buffer handed to the caller when a packet
    is complete, and the length returned. *)
Definition link_socket_read_tcp (sock : link_socket) (ev : recv_event)
  : outcome (link_socket * option buffer * Z) :=
  let sb := ls_stream_buf sock in
  '(sock, n) ← (if negb (sb_residual_fully_formed sb)
                then
                  frag ← stream_buf_get_next sb;
                  '(b, pending, n) ← recv ev (ls_pending sock) (sb_buf sb) frag;
                  Ret (mksock (sb_set_buf sb b) (ls_stream_reset sock || (n =? 0)) pending, n)
                else Ret (sock, 0));
  let sb := ls_stream_buf sock in
  if negb (sb_residual_fully_formed sb) && (n <=? 0)
  then Ret (sock, None, n)
  else
    '(sb, complete) ← (if sb_residual_fully_formed sb then Ret (sb, true)
                       else stream_buf_added sb n);
    if complete : bool
    then
      buf ← stream_buf_get_final sb;
      Ret (mksock (stream_buf_reset sb) (ls_stream_reset sock) (ls_pending sock), Some buf, len buf)
    else Ret (mksock sb (ls_stream_reset sock) (ls_pending sock), None, 0).

(** [socket_connection_reset] for a stream socket, [err_reset] being whether
    [errno] is [ECONNRESET]. *)
Definition socket_connection_reset (sock : link_socket) (status : Z) (err_reset : bool) : bool :=
  if ls_stream_reset sock || sb_error (ls_stream_buf sock) then true
  else (status <? 0) && err_reset.

Definition socket_foreign_protocol_detected (sock : link_socket) : bool :=
  bool_decide (sb_port_share_state (ls_stream_buf sock) = PS_FOREIGN).

Definition socket_read_residual (sock : link_socket) : bool :=
  sb_residual_fully_formed (ls_stream_buf sock).

(** Puts the length in front of a packet; the bytes given to [send] and the
    buffer.  The length is converted to 16 bits before it is compared. *)
Definition link_socket_write_tcp (maxlen : Z) (buf : buffer) : outcome (buffer * list Z) :=
  let n := u16 (buf_len buf) in
  _ ← c_assert (n <=? maxlen);
  '(buf, ok) ← buf_write_prepend buf (be_bytes 2 n);
  _ ← c_assert ok;
  bytes ← buf_contents buf;
  Ret (buf, bytes).

(** [socket_frame_init] for a stream socket. *)
Definition socket_frame_init (f : frame) (share : bool) : outcome stream_buf :=
  data ← alloc_buf_sock_tun f false FRAME_HEADROOM_MARKER_READ_STREAM;
  stream_buf_init data share.

(** ** One round of the event loop *)

(** The socket is set up for reading ([socket_set]), waited for unless a packet
    is already there, and read ([read_incoming_link]); when the connection is
    found to be broken it is closed, otherwise a complete packet is processed
    where it lies, which leaves arbitrary bytes [scribble] in the object. *)
Record round : Type := mkround { rd_event : recv_event; rd_reset : bool; rd_scribble : list Z }.

Inductive round_result : Type :=
| Closed (sock : link_socket)
| Open (sock : link_socket) (packet : option (list Z)).

Definition scribble (b : buffer) (d : list Z) : buffer :=
  mkbuffer (capacity b) (offset b) (len b)
    (match data b with
     | Some old => Some (if zlen d =? zlen old then d else old)
     | None => None
     end).

Definition read_incoming_link_tcp (sock : link_socket) (r : round) : outcome round_result :=
  '(sb, _) ← stream_buf_read_setup_dowork (ls_stream_buf sock);
  '(sock, buf, status) ←
     link_socket_read_tcp (mksock sb (ls_stream_reset sock) (ls_pending sock)) (rd_event r);
  if socket_connection_reset sock status (rd_reset r) then Ret (Closed sock)
  else
    match buf with
    | Some buf =>
        packet ← buf_contents buf;
        let sb := ls_stream_buf sock in
        Ret (Open (mksock (sb_set_buf sb (scribble (sb_buf sb) (rd_scribble r)))
                     (ls_stream_reset sock) (ls_pending sock)) (Some packet))
    | None => Ret (Open sock None)
    end.

(** Rounds until the connection is closed or the list is used up: the final
    state, whether it is still open, and the packets processed. *)
Fixpoint read_loop (sock : link_socket) (rs : list round) : outcome (link_socket * bool * list (list Z)) :=
  match rs with
  | [] => Ret (sock, true, [])
  | r :: rs =>
      res ← read_incoming_link_tcp sock r;
      match res with
      | Closed sock => Ret (sock, false, [])
      | Open sock p =>
          '(sock, opened, ps) ← read_loop sock rs;
          Ret (sock, opened, match p with Some p => p :: ps | None => ps end)
      end
  end.
