(* ===== verification/StreamSpec.v ===== *)
(** * Properties of packets on a TCP stream

    [deframe] is the reference: it reads the packets off the whole stream at
    once.  The state of the reader between two rounds holds some bytes of the
    stream back ([rests]); one round moves bytes from the network to what is held
    and at most one packet out of it ([round_ok]).  From this follow the theorems on
    whole runs: nothing makes the process fail, however the stream is cut up and
    whatever it contains, and the packets processed are those of [deframe]. *)
From S2P Require Import Prelude Integer Buffer Mtu Stream.

(** ** The reference *)

(** The packets of a stream, and whether it then has a length that is out of
    range.  Each packet takes at least three bytes of the stream, so that the
    length of the stream is fuel enough. *)
Fixpoint deframe_fuel (fuel : nat) (maxlen : Z) (s : list Z) : list (list Z) * bool :=
  match fuel, s with
  | S fuel, a :: b :: t =>
      let n := be_value [a; b] in
      if (n <? 1) || (maxlen <? n) then ([], true)
      else if n <=? zlen t
      then let '(ps, bad) := deframe_fuel fuel maxlen (zdrop n t) in (ztake n t :: ps, bad)
      else ([], false)
  | _, _ => ([], false)
  end.

Definition deframe (maxlen : Z) (s : list Z) : list (list Z) * bool :=
  deframe_fuel (length s) maxlen s.

(** A packet behind its length. *)
Definition encapsulate (p : list Z) : list Z := be_bytes 2 (zlen p) ++ p.

Lemma deframe_fuel_enough M f f' s :
  (length s <= f)%nat -> (length s <= f')%nat -> deframe_fuel f M s = deframe_fuel f' M s.
Proof.
  revert f' s. induction f as [|f IH]; intros f' s Hf Hf'.
  - destruct s; [|cbn in Hf; lia]. by destruct f'.
  - destruct f' as [|f']; [destruct s; [done|cbn in Hf'; lia]|].
    destruct s as [|a [|b t]]; try done. cbn [length] in *. cbn [deframe_fuel].
    destruct (_ || _) eqn:E1; [done|]. destruct (_ <=? zlen t); [|done].
    assert (Hl : (length (zdrop (be_value [a; b]) t) <= length t)%nat) by (unfold zdrop; rewrite length_drop; lia).
    by rewrite (IH f') by lia.
Qed.

(** The three forms the head of a stream takes. *)
Definition good_head (M : Z) (h p : list Z) : Prop :=
  zlen h = 2 /\ be_value h = zlen p /\ 1 <= zlen p <= M.
Definition bad_head (M : Z) (s : list Z) : Prop :=
  exists h t, s = h ++ t /\ zlen h = 2 /\ (be_value h < 1 \/ M < be_value h).
Definition incomplete (M : Z) (s : list Z) : Prop :=
  zlen s <= 1 \/
  exists h t, s = h ++ t /\ zlen h = 2 /\ 1 <= be_value h <= M /\ zlen t < be_value h.

Lemma two_bytes (h : list Z) : zlen h = 2 -> exists a b, h = [a; b].
Proof. destruct h as [|a [|b [|]]]; unfold zlen; cbn; try lia. eauto. Qed.

Lemma deframe_good M h p s :
  good_head M h p -> deframe M (h ++ p ++ s) = (p :: (deframe M s).1, (deframe M s).2).
Proof.
  intros (Hh & Hv & Hp). destruct (two_bytes h Hh) as (a & b & ->).
  unfold deframe. cbn [app length]. remember (S (length (p ++ s))) as f eqn:Ef.
  cbn [deframe_fuel]. rewrite Hv. zlen_facts. autorewrite with zlen. bdecide.
  rewrite zdrop_app_zlen, ztake_app_zlen.
  rewrite (deframe_fuel_enough M f (length s)); [|rewrite Ef, length_app; lia|lia].
  by destruct (deframe_fuel _ M s).
Qed.

Lemma deframe_bad M s : bad_head M s -> deframe M s = ([], true).
Proof.
  intros (h & t & -> & Hh & Hb). destruct (two_bytes h Hh) as (a & b & ->).
  unfold deframe. cbn [app length deframe_fuel].
  replace ((be_value [a; b] <? 1) || (M <? be_value [a; b])) with true; [done|].
  symmetry. apply orb_true_iff. rewrite !Z.ltb_lt. lia.
Qed.

Lemma deframe_incomplete M s : incomplete M s -> deframe M s = ([], false).
Proof.
  intros [H|(h & t & -> & Hh & Hv & Ht)].
  - destruct s as [|a [|b t]]; try done. autorewrite with zlen in H. zlen_facts. lia.
  - destruct (two_bytes h Hh) as (a & b & ->).
    unfold deframe. cbn [app length deframe_fuel]. by bdecide.
Qed.

Lemma bad_head_app M s t : bad_head M s -> bad_head M (s ++ t).
Proof. intros (h & u & -> & Hh & Hb). exists h, (u ++ t). by rewrite app_assoc. Qed.

Lemma bad_not_incomplete M s : bad_head M s -> incomplete M s -> False.
Proof. intros Hb Hi. apply deframe_bad in Hb. apply deframe_incomplete in Hi. congruence. Qed.

Lemma good_not_incomplete M h p s : good_head M h p -> incomplete M (h ++ p ++ s) -> False.
Proof. intros Hg Hi. apply deframe_incomplete in Hi. rewrite deframe_good in Hi by done. done. Qed.

Lemma encapsulate_head M p : 1 <= zlen p <= M -> M < 2 ^ 16 -> good_head M (be_bytes 2 (zlen p)) p.
Proof.
  intros Hp HM. split; [by rewrite zlen_be_bytes|]. split; [|done].
  apply be_value_bytes2. unfold is_u16. lia.
Qed.

Lemma deframe_encapsulate M ps s :
  M < 2 ^ 16 -> Forall (fun p => 1 <= zlen p <= M) ps ->
  deframe M (concat (map encapsulate ps) ++ s) = (ps ++ (deframe M s).1, (deframe M s).2).
Proof.
  intros HM. induction ps as [|p ps IH]; intros Hps.
  - cbn [map concat app]. by destruct (deframe M s).
  - apply Forall_cons in Hps as [Hp Hps]. cbn [map concat]. unfold encapsulate at 1.
    rewrite <- !app_assoc, (deframe_good M _ p) by (by apply encapsulate_head).
    by rewrite IH.
Qed.

(** ** The states of the reader *)

Section Reader.

(** The geometry: the offset of [buf_init], the length of the object and
    [maxlen]; there is room for a packet of maximal size and its length. *)
Context (o L M : Z).
Hypothesis Ho : 0 <= o.
Hypothesis HM : 2 <= M.
Hypothesis Hroom : o + 2 + M <= L.
Hypothesis HL : L < BUF_SIZE_MAX.

Definition SB (formed : bool) (pre c post res rpost : list Z) (next : option window) (l : Z)
    (e : bool) (ps : port_share) : stream_buf :=
  mksb (mkwindow L o 0) (conc [] res rpost) M formed (conc pre c post) next l e ps.

(** [pre], [c] and [post] make up the object; [res] and [rpost] the residual's. *)
Definition object_ok (pre c post res rpost : list Z) : Prop :=
  zlen pre + zlen c + zlen post = L /\ zlen res + zlen rpost = M.

Definition next_of (pre c : list Z) (l : Z) : window :=
  mkwindow L (zlen pre + zlen c) ((if 0 <=? l then l else M) - zlen c).

Lemma fits_L pre c post : zlen pre + zlen c + zlen post = L -> fits pre c post.
Proof using HL. unfold fits. lia. Qed.

Lemma fits_M res rpost : zlen res + zlen rpost = M -> fits [] res rpost.
Proof using Ho HL Hroom. unfold fits, BUF_SIZE_MAX in *. autorewrite with zlen. lia. Qed.

Lemma rewindow_conc pre c post :
  zlen pre + zlen c + zlen post = L ->
  rewindow (conc pre c post) (mkwindow L o 0) =
    conc (ztake o (pre ++ c ++ post)) [] (zdrop o (pre ++ c ++ post)).
Proof using Ho Hroom HM.
  intros HL'. unfold rewindow. cbn [w_capacity w_offset w_len data conc].
  apply mkbuffer_conc; [zlia..|]. by rewrite app_nil_l, ztake_zdrop.
Qed.

Lemma stream_buf_reset_SB fm pre c post res rpost nx l e ps :
  zlen pre + zlen c + zlen post = L ->
  exists pre' post', zlen pre' = o /\ zlen pre' + zlen post' = L /\
    stream_buf_reset (SB fm pre c post res rpost nx l e ps) =
      SB false pre' [] post' res rpost None (-1) e ps.
Proof using Ho Hroom HM.
  intros Hl. exists (ztake o (pre ++ c ++ post)), (zdrop o (pre ++ c ++ post)).
  split; [zlia|]. split; [zlia|].
  unfold stream_buf_reset, SB, sb_set_formed, sb_set_buf, sb_put_next, sb_set_len. cbn -[rewindow conc].
  by rewrite rewindow_conc.
Qed.

Lemma stream_buf_set_next_SB fm pre c post res rpost nx l e ps :
  zlen pre + zlen c + zlen post = L ->
  0 < (if 0 <=? l then l else M) - zlen c <= zlen post ->
  stream_buf_set_next (SB fm pre c post res rpost nx l e ps) =
    Ret (SB fm pre c post res rpost (Some (next_of pre c l)) l e ps).
Proof using HL.
  intros Hl Hn. unfold stream_buf_set_next, buf_safe. cbn [sb_buf sb_len sb_maxlen SB].
  rewrite buf_valid_conc. cbn [len offset capacity conc]. unfold BUF_SIZE_MAX in *. zlen_facts.
  rewrite buf_size_valid_iff by lia. unfold BUF_SIZE_MAX. bdecide. cbn [c_assert mbind outcome_mbind].
  unfold SB, sb_put_next, next_of. cbn -[conc]. by rewrite Hl.
Qed.

(** The test of the first bytes, on the bytes. *)
Definition openvpn_head (c : list Z) : bool :=
  match c with
  | p0 :: p1 :: p2 :: _ => (p0 =? 0) && (14 <=? p1) && ((p2 =? 56) || (p2 =? 80))
  | p0 :: p1 :: _ => (p0 =? 0) && (14 <=? p1)
  | _ => true
  end.

Lemma buf_load1_mid pre c c1 x c2 post pos :
  c = c1 ++ x :: c2 -> pos = zlen pre + zlen c1 -> buf_load1 (conc pre c post) pos = Ret x.
Proof using.
  intros -> ->. unfold buf_load1. cbn [data conc].
  apply (load1_eq _ (pre ++ c1) x (c2 ++ post)); [by rewrite <- !app_assoc|by rewrite zlen_app].
Qed.

Lemma is_openvpn_protocol_conc pre c post :
  is_openvpn_protocol (conc pre c post) = Ret (openvpn_head c).
Proof using.
  unfold is_openvpn_protocol. rewrite buf_len_conc. change (offset (conc pre c post)) with (zlen pre).
  destruct c as [|a [|b c]]; [done..|].
  rewrite (buf_load1_mid pre _ [] a (b :: c) post (zlen pre)) by (done || (rewrite zlen_nil; lia)).
  rewrite (buf_load1_mid pre _ [a] b c post (zlen pre + 1)) by (done || (unfold zlen; cbn; lia)).
  destruct c as [|d c]; [done|].
  rewrite (buf_load1_mid pre _ [a; b] d c post (zlen pre + 2)) by (done || (unfold zlen; cbn; lia)).
  autorewrite with zlen. zlen_facts. bdecide. done.
Qed.

(** Waiting for a length: [c] has arrived in the buffer, [res] is left over. *)
Definition waiting (e : bool) (c res : list Z) (ps : port_share) (nx : option window) (sb : stream_buf) : Prop :=
  exists pre post rpost, sb = SB false pre c post res rpost nx (-1) e ps /\
    zlen pre = o /\ object_ok pre c post res rpost.

(** Inside a packet: its length [h] has been read, [c] of it has arrived. *)
Definition body (e : bool) (h c : list Z) (ps : port_share) (nx : option window) (sb : stream_buf) : Prop :=
  exists pre post rpost, sb = SB false pre c post [] rpost nx (be_value h) e ps /\
    zlen pre = o + 2 /\ object_ok pre c post [] rpost /\
    zlen h = 2 /\ 1 <= be_value h <= M /\ zlen c <= be_value h /\ ps <> PS_ENABLED.

(** The packet [p] is complete, [res] follows it. *)
Definition complete (fm e : bool) (h p res : list Z) (ps : port_share) (sb : stream_buf) : Prop :=
  exists pre post rpost nx, sb = SB fm pre p post res rpost nx (be_value h) e ps /\
    zlen pre = o + 2 /\ object_ok pre p post res rpost /\ good_head M h p /\ ps <> PS_ENABLED.

Definition wnext (c : list Z) : window := mkwindow L (o + zlen c) (M - zlen c).
Definition bnext (h c : list Z) : window := mkwindow L (o + 2 + zlen c) (be_value h - zlen c).

(** ** Reading the length *)

Lemma stream_buf_read_len_known fm pre c post res rpost nx l e ps :
  0 <= l \/ zlen c <= 1 ->
  stream_buf_read_len (SB fm pre c post res rpost nx l e ps) =
    Ret (SB fm pre c post res rpost nx l e ps, false).
Proof using.
  intros H. unfold stream_buf_read_len, sizeof_packet_size_type. cbn [sb_len sb_buf SB]. rewrite !len_conc.
  replace ((l <? 0) && (2 <=? zlen c)) with false; [done|].
  symmetry. apply andb_false_iff. rewrite Z.ltb_ge, Z.leb_gt. lia.
Qed.

Definition after_head (ps : port_share) : port_share :=
  match ps with PS_ENABLED => PS_DISABLED | _ => ps end.

Lemma after_head_ne ps : after_head ps <> PS_ENABLED.
Proof using. by destruct ps. Qed.

Lemma stream_buf_read_len_head fm pre h t post res rpost nx e ps :
  zlen h = 2 -> (ps = PS_ENABLED -> openvpn_head (h ++ t) = true) ->
  stream_buf_read_len (SB fm pre (h ++ t) post res rpost nx (-1) e ps) =
    let sb := SB fm (pre ++ h) t post res rpost nx (be_value h) e (after_head ps) in
    Ret (if (be_value h <? 1) || (M <? be_value h)
         then (sb_set_error (stream_buf_reset sb) true, true) else (sb, false)).
Proof using.
  intros Hh Hps. unfold stream_buf_read_len, sizeof_packet_size_type. cbn [sb_len sb_buf SB]. rewrite !len_conc.
  zlen_facts. autorewrite with zlen. bdecide. cbn [sb_port_share_state].
  rewrite is_openvpn_protocol_conc.
  assert (Hr : buf_read (conc pre (h ++ t) post) 2 = Ret (conc (pre ++ h) t post, Some h))
    by (by rewrite buf_read_front).
  destruct ps; [|rewrite Hps by done|]; cbn [sb_port_share_state mbind outcome_mbind negb sb_set_port_share sb_buf SB];
    rewrite Hr; cbn [mbind outcome_mbind sb_set_buf sb_set_len sb_len sb_maxlen]; by destruct (_ || _).
Qed.

Lemma stream_buf_read_len_foreign fm pre c post res rpost nx e :
  2 <= zlen c -> openvpn_head c = false ->
  stream_buf_read_len (SB fm pre c post res rpost nx (-1) e PS_ENABLED) =
    Ret (SB fm pre c post res rpost nx (-1) true PS_FOREIGN, true).
Proof using.
  intros Hc Hf. unfold stream_buf_read_len, sizeof_packet_size_type. cbn [sb_len sb_buf SB]. rewrite !len_conc.
  bdecide. cbn [sb_port_share_state]. 
  rewrite is_openvpn_protocol_conc, Hf. done.
Qed.

(** ** Completing a packet *)

Lemma stream_buf_complete_next fm pre c post rpost nx l e ps :
  zlen pre + zlen c + zlen post = L ->
  l < 0 \/ zlen c < l -> 0 < (if 0 <=? l then l else M) - zlen c <= zlen post ->
  stream_buf_complete (SB fm pre c post [] rpost nx l e ps) =
    Ret (SB fm pre c post [] rpost (Some (next_of pre c l)) l e ps, false).
Proof using HL.
  intros Hl Hc Hn. unfold stream_buf_complete. cbn [sb_len sb_buf SB]. rewrite !len_conc.
  replace ((0 <? l) && (l <=? zlen c)) with false
    by (symmetry; apply andb_false_iff; rewrite Z.ltb_ge, Z.leb_gt; lia).
  fold (SB fm pre c post [] rpost nx l e ps).
  by rewrite stream_buf_set_next_SB.
Qed.

Lemma buf_copy_excess_conc res rpost pre p x post :
  fits [] res rpost -> x <> [] -> zlen x <= zlen rpost ->
  buf_copy_excess (conc [] res rpost) (conc pre (p ++ x) post) (zlen p) =
    Ret (conc [] (res ++ x) (zdrop (zlen x) rpost), conc pre p (x ++ post), true).
Proof using.
  intros HF Hx Hr. unfold buf_copy_excess.
  assert (0 < zlen x) by (by apply zlen_pos).
  zlen_facts. rewrite !len_conc. autorewrite with zlen. bdecide.
  rewrite buf_advance_conc. autorewrite with zlen. bdecide.
  rewrite zdrop_app_zlen, ztake_app_zlen. unfold buf_copy. rewrite buf_contents_conc.
  cbn [mbind outcome_mbind]. rewrite buf_write_fits by done. cbn [mbind outcome_mbind].
  do 3 f_equal. unfold set_len. cbn [capacity offset data conc].
  apply mkbuffer_conc; [zlia..|]. by rewrite <- app_assoc.
Qed.

Lemma stream_buf_complete_done fm pre p x post rpost nx e ps l :
  l = zlen p -> 1 <= zlen p -> zlen pre + zlen (p ++ x) + zlen post = L -> zlen rpost = M -> zlen x <= M ->
  exists rpost', zlen x + zlen rpost' = M /\
    stream_buf_complete (SB fm pre (p ++ x) post [] rpost nx l e ps) =
      Ret (SB fm pre p (x ++ post) x rpost' nx l e ps, true).
Proof using Ho HL Hroom.
  intros -> Hp Hl Hr Hx. unfold stream_buf_complete. cbn [sb_len sb_buf SB sb_residual]. rewrite !len_conc.
  rewrite buf_init_conc. autorewrite with zlen. zlen_facts. bdecide.
  change (ztake 0 ([] ++ [] ++ rpost)) with (@nil Z). change (zdrop 0 ([] ++ [] ++ rpost)) with rpost.
  cbn [c_assert mbind outcome_mbind sb_len sb_buf sb_set_residual sb_residual SB]. rewrite !len_conc.
  autorewrite with zlen. destruct (decide (x = [])) as [->|Hne].
  - exists rpost. autorewrite with zlen. bdecide. split; [lia|]. by rewrite app_nil_r.
  - assert (0 < zlen x) by (by apply zlen_pos). bdecide.
    exists (zdrop (zlen x) rpost). split; [zlia|].
    rewrite buf_copy_excess_conc; [done|apply fits_M; zlia|done|lia].
Qed.

(** What [stream_buf_added] leaves when the bytes [s] have arrived since the last
    packet. *)
Inductive added_case (e : bool) (s : list Z) (ps : port_share) (sb : stream_buf) : bool -> Prop :=
| added_short :
    zlen s <= 1 -> waiting e s [] ps (Some (wnext s)) sb -> added_case e s ps sb false
| added_bad ps' :
    bad_head M s -> waiting true [] [] ps' None sb -> added_case e s ps sb false
| added_foreign :
    ps = PS_ENABLED -> sb_error sb = true -> added_case e s ps sb false
| added_body h t ps' :
    s = h ++ t -> zlen t < be_value h -> body e h t ps' (Some (bnext h t)) sb -> added_case e s ps sb false
| added_complete h p x ps' :
    s = h ++ p ++ x -> complete false e h p x ps' sb -> added_case e s ps sb true.

Lemma stream_buf_added_0 sb :
  stream_buf_added sb 0 =
    ('(sb, stop) ← stream_buf_read_len sb; if stop : bool then Ret (sb, false) else stream_buf_complete sb).
Proof using. done. Qed.

(** With the length there, and the stream ours. *)
Lemma added_head e h t ps nx sb :
  waiting e (h ++ t) [] ps nx sb -> zlen h = 2 -> zlen (h ++ t) <= M ->
  (ps = PS_ENABLED -> openvpn_head (h ++ t) = true) ->
  exists sb' b, stream_buf_added sb 0 = Ret (sb', b) /\ added_case e (h ++ t) ps sb' b.
Proof using Ho HM Hroom HL.
  intros (pre & post & rpost & -> & Hpre & HLs & HR) Hh Hs Hps. rewrite stream_buf_added_0.
  autorewrite with zlen in HR, HLs, Hs. zlen_facts.
  rewrite stream_buf_read_len_head by done. cbv zeta.
  destruct (_ || _) eqn:Eb; breflect; cbn [mbind outcome_mbind].
  { destruct (stream_buf_reset_SB false (pre ++ h) t post [] rpost nx (be_value h) e (after_head ps))
      as (pre' & post' & Hp' & Hl' & ->); [zlia|].
    eexists _, _. split; [done|]. eapply added_bad.
    { exists h, t. split_and!; [done..|]. destruct Eb; breflect; lia. }
    exists pre', post', rpost. split; [done|]. unfold object_ok. zlia. }
  destruct (Z_lt_ge_dec (zlen t) (be_value h)) as [Ht|Ht].
  - rewrite stream_buf_complete_next; [|zlia|lia|bdecide; zlia].
    eexists _, _. split; [done|]. apply (added_body _ _ _ _ h t (after_head ps)); [done..|].
    exists (pre ++ h), post, rpost. unfold bnext, next_of, object_ok. bdecide. autorewrite with zlen.
    rewrite Hpre, Hh. split_and!; first [lia|apply after_head_ne|done].
  - destruct (zsplit (be_value h) t) as (p & x & -> & Hp & Hx); [lia|]. autorewrite with zlen in *.
    destruct (stream_buf_complete_done false (pre ++ h) p x post rpost nx e (after_head ps) (be_value h))
      as (rpost' & Hr' & ->); [lia..|zlia|lia|lia|].
    eexists _, _. split; [done|]. eapply (added_complete _ _ _ _ h p x (after_head ps)); [done|].
    exists (pre ++ h), (x ++ post), rpost', nx. unfold object_ok, good_head. autorewrite with zlen.
    split_and!; first [lia|apply after_head_ne|done].
Qed.

Lemma added_waiting e s ps nx sb :
  waiting e s [] ps nx sb -> zlen s <= M ->
  exists sb' b, stream_buf_added sb 0 = Ret (sb', b) /\ added_case e s ps sb' b.
Proof using Ho HM Hroom HL.
  intros Hw Hs. destruct (Z_le_gt_dec (zlen s) 1) as [Hshort|Hlong].
  - destruct Hw as (pre & post & rpost & -> & Hpre & HLs & HR).
    rewrite stream_buf_added_0, stream_buf_read_len_known by lia. cbn [mbind outcome_mbind].
    autorewrite with zlen in HR. zlen_facts.
    rewrite stream_buf_complete_next; [|lia..|change (0 <=? -1) with false; cbv iota; lia].
    eexists _, _. split; [done|]. apply added_short; [done|].
    exists pre, post, rpost. unfold wnext, next_of, object_ok. rewrite Hpre. split; [done|]. zlia.
  - destruct (decide (ps = PS_ENABLED /\ openvpn_head s = false)) as [[-> Hf]|Hok].
    + destruct Hw as (pre & post & rpost & -> & Hpre & HLs & HR).
      rewrite stream_buf_added_0, stream_buf_read_len_foreign by (done || lia). cbn [mbind outcome_mbind].
      eexists _, _. split; [done|]. by apply added_foreign.
    + destruct (zsplit 2 s) as (h & t & -> & Hh & _); [lia|].
      eapply added_head; [done..|]. intros ->. destruct (openvpn_head (h ++ t)); [done|].
      by destruct Hok.
Qed.

Lemma added_in_body e h c ps nx sb :
  body e h c ps nx sb ->
  exists sb' b, stream_buf_added sb 0 = Ret (sb', b) /\ added_case e (h ++ c) ps sb' b.
Proof using Ho HM Hroom HL.
  intros (pre & post & rpost & -> & Hpre & (HLs & HR) & Hh & Hv & Hc & Hps).
  rewrite stream_buf_added_0, stream_buf_read_len_known by lia. cbn [mbind outcome_mbind].
  autorewrite with zlen in HR. zlen_facts.
  destruct (Z_lt_ge_dec (zlen c) (be_value h)) as [Ht|Ht].
  - rewrite stream_buf_complete_next; [|zlia|lia|bdecide; zlia].
    eexists _, _. split; [done|]. apply (added_body _ _ _ _ h c ps); [done..|].
    exists pre, post, rpost. unfold bnext, next_of, object_ok. bdecide. autorewrite with zlen.
    rewrite Hpre. split_and!; first [lia|done].
  - destruct (stream_buf_complete_done false pre c [] post rpost nx e ps (be_value h))
      as (rpost' & Hr' & E); [lia..|zlia|lia|zlia|]. rewrite app_nil_r in E. rewrite E.
    eexists _, _. split; [done|]. eapply (added_complete _ _ _ _ h c [] ps); [by rewrite app_nil_r|].
    exists pre, ([] ++ post), rpost', nx. unfold object_ok, good_head. autorewrite with zlen.
    split_and!; first [lia|done].
Qed.

(** ** Reading from the socket *)

Lemma recv_data k pending pre c post w :
  w_offset w = zlen pre + zlen c -> 0 < w_len w <= zlen post -> pending <> [] ->
  exists g pending' post', pending = g ++ pending' /\ g <> [] /\ zlen g <= w_len w /\
    zlen g + zlen post' = zlen post /\
    recv (RecvData k) pending (conc pre c post) w = Ret (conc pre c (g ++ post'), pending', zlen g).
Proof using.
  intros Hw Hl Hp. unfold recv. set (n := Z.min _ _).
  assert (Hpos : 0 < zlen pending) by (by apply zlen_pos).
  assert (Hn : 0 < n /\ n <= w_len w /\ n <= zlen pending) by lia. clearbody n. bdecide.
  exists (ztake n pending), (zdrop n pending), (zdrop n post).
  split; [by rewrite ztake_zdrop|]. split; [intros E; apply (f_equal zlen) in E; zlia|].
  split; [zlia|]. split; [zlia|].
  unfold buf_store. cbn [data conc capacity offset len].
  rewrite (store_eq _ (pre ++ c) (ztake n post) (zdrop n post)).
  - cbn [mbind outcome_mbind]. replace (zlen (ztake n pending)) with n by zlia. do 3 f_equal.
    apply mkbuffer_conc; [zlia..|]. by rewrite <- !app_assoc.
  - by rewrite <- app_assoc, ztake_zdrop.
  - by rewrite zlen_app.
  - zlia.
Qed.

Lemma added_grow fm pre c g post res rpost nx l e ps :
  g <> [] ->
  stream_buf_added (SB fm pre c (g ++ post) res rpost nx l e ps) (zlen g) =
    stream_buf_added (SB fm pre (c ++ g) post res rpost nx l e ps) 0.
Proof using.
  intros Hg. rewrite stream_buf_added_0. unfold stream_buf_added.
  assert (0 < zlen g) by (by apply zlen_pos). bdecide. cbv iota.
  replace (sb_set_buf _ _) with (SB fm pre (c ++ g) post res rpost nx l e ps); [done|].
  unfold SB, sb_set_buf. cbn [sb_buf]. f_equal. unfold set_len. cbn [capacity offset len data conc].
  symmetry. apply mkbuffer_conc; [zlia..|]. by rewrite <- app_assoc.
Qed.

(** Ready to receive, with [held] of the stream already here. *)
Inductive ready (e : bool) (ps : port_share) (sb : stream_buf) : list Z -> Prop :=
| ready_wait c : zlen c <= 1 -> waiting e c [] ps (Some (wnext c)) sb -> ready e ps sb c
| ready_body h c : zlen c < be_value h -> body e h c ps (Some (bnext h c)) sb -> ready e ps sb (h ++ c).

Lemma ready_shape e ps sb held :
  ready e ps sb held ->
  exists pre c post rpost w l, sb = SB false pre c post [] rpost (Some w) l e ps /\
    w_offset w = zlen pre + zlen c /\ 0 < w_len w <= zlen post /\
    forall g post', g <> [] -> zlen g <= w_len w -> zlen g + zlen post' = zlen post ->
      exists sb' b, stream_buf_added (SB false pre c (g ++ post') [] rpost (Some w) l e ps) (zlen g) = Ret (sb', b) /\
        added_case e (held ++ g) ps sb' b.
Proof using Ho HM Hroom HL.
  intros [c Hc (pre & post & rpost & -> & Hpre & HLs & HR)
         |h c Hc (pre & post & rpost & -> & Hpre & (HLs & HR) & Hh & Hv & _ & Hps)].
  - exists pre, c, post, rpost, (wnext c), (-1). autorewrite with zlen in HR. zlen_facts.
    cbn [wnext w_offset w_len]. split; [done|]. split; [lia|]. split; [lia|].
    intros g post' Hg Hgl Hpost. rewrite added_grow by done.
    eapply added_waiting; [|zlia]. exists pre, post', rpost. split; [done|]. unfold object_ok. zlia.
  - exists pre, c, post, rpost, (bnext h c), (be_value h). autorewrite with zlen in HR. zlen_facts.
    cbn [bnext w_offset w_len]. split; [done|]. split; [lia|]. split; [lia|].
    intros g post' Hg Hgl Hpost. rewrite added_grow, <- app_assoc by done.
    eapply added_in_body. exists pre, post', rpost. split; [done|]. unfold object_ok. autorewrite with zlen.
    split_and!; first [lia|done].
Qed.

(** The two outcomes of a read that has to wait: nothing arrives, or bytes do. *)
Definition nothing_read (ev : recv_event) (pending : list Z) (n : Z) : Prop :=
  match ev with RecvData _ => n = -1 /\ pending = [] | RecvClosed => n = 0 | RecvError => n = -1 end.

Lemma read_ready e ps sb held rst pending ev :
  ready e ps sb held ->
  (exists n, nothing_read ev pending n /\
     link_socket_read_tcp (mksock sb rst pending) ev = Ret (mksock sb (rst || (n =? 0)) pending, None, n)) \/
  (exists g pending' sb' b, pending = g ++ pending' /\ g <> [] /\ added_case e (held ++ g) ps sb' b /\
     link_socket_read_tcp (mksock sb rst pending) ev =
       Ret (if b : bool
            then (mksock (stream_buf_reset sb') rst pending', Some (sb_buf sb'), len (sb_buf sb'))
            else (mksock sb' rst pending', None, 0))).
Proof using Ho HM Hroom HL.
  intros Hr. destruct (ready_shape _ _ _ _ Hr) as (pre & c & post & rpost & w & l & -> & Hw & Hl & Hadd).
  assert (Hstop : forall n, n <= 0 -> recv ev pending (conc pre c post) w = Ret (conc pre c post, pending, n) ->
    link_socket_read_tcp (mksock (SB false pre c post [] rpost (Some w) l e ps) rst pending) ev =
      Ret (mksock (SB false pre c post [] rpost (Some w) l e ps) (rst || (n =? 0)) pending, None, n)).
  { intros n Hn E. unfold link_socket_read_tcp. cbn -[recv conc Z.leb Z.eqb]. rewrite E.
    cbn -[conc Z.leb Z.eqb]. bdecide. done. }
  destruct ev as [k| |].
  2: { left. exists 0. split; [done|]. by apply Hstop. }
  2: { left. exists (-1). split; [done|]. by apply Hstop. }
  destruct (decide (pending = [])) as [->|Hp].
  { left. exists (-1). split; [done|]. apply Hstop; [lia|]. unfold recv. change (zlen []) with 0.
    bdecide. done. }
  right. destruct (recv_data k pending pre c post w) as (g & pending' & post' & Hg & Hne & Hgl & Hpost & E);
    [done..|].
  destruct (Hadd g post' Hne Hgl Hpost) as (sb' & b & Eadd & Hcase).
  exists g, pending', sb', b. split; [done|]. split; [done|]. split; [done|].
  unfold link_socket_read_tcp. cbn -[recv conc Z.leb Z.eqb stream_buf_added]. rewrite E.
  assert (0 < zlen g) by (by apply zlen_pos).
  cbn -[recv conc Z.leb Z.eqb stream_buf_added]. bdecide. rewrite orb_false_r.
  unfold sb_set_buf. cbn -[conc stream_buf_added]. unfold SB in Eadd. rewrite Eadd.
  cbn -[conc]. destruct b; [|done]. unfold stream_buf_get_final.
  inversion Hcase as [| | | |h p x ps' _ (pre' & post'' & rpost' & nx & -> & _)]. done.
Qed.

(** ** Setting up a read *)

(** Between two rounds: [held] of the stream is in the buffer or left over. *)
Inductive rests (ps : port_share) (sb : stream_buf) : list Z -> Prop :=
| rests_wait c res nx :
    c = [] \/ res = [] -> zlen c <= 1 -> (ps = PS_ENABLED -> res = []) ->
    waiting false c res ps nx sb -> rests ps sb (c ++ res)
| rests_body h c nx : zlen c < be_value h -> body false h c ps nx sb -> rests ps sb (h ++ c).

Lemma set_next_waiting e c ps nx sb :
  waiting e c [] ps nx sb -> zlen c <= 1 ->
  exists sb', stream_buf_set_next sb = Ret sb' /\ ready e ps sb' c /\ sb_residual_fully_formed sb' = false.
Proof using Ho HM Hroom HL.
  intros (pre & post & rpost & -> & Hpre & HLs & HR) Hc. autorewrite with zlen in HR. zlen_facts.
  rewrite stream_buf_set_next_SB; [|lia|change (0 <=? -1) with false; cbv iota; lia].
  eexists. split; [done|]. split; [|done]. apply ready_wait; [done|]. exists pre, post, rpost.
  unfold wnext, next_of, object_ok. rewrite Hpre. split; [done|]. zlia.
Qed.

Lemma set_next_body e h c ps nx sb :
  body e h c ps nx sb -> zlen c < be_value h ->
  exists sb', stream_buf_set_next sb = Ret sb' /\ ready e ps sb' (h ++ c) /\ sb_residual_fully_formed sb' = false.
Proof using Ho HM Hroom HL.
  intros (pre & post & rpost & -> & Hpre & (HLs & HR) & Hh & Hv & Hc & Hps) Hlt.
  autorewrite with zlen in HR. zlen_facts.
  rewrite stream_buf_set_next_SB; [|lia|bdecide; lia].
  eexists. split; [done|]. split; [|done]. apply ready_body; [done|]. exists pre, post, rpost.
  unfold bnext, next_of, object_ok. bdecide. rewrite Hpre. autorewrite with zlen. split_and!; first [lia|done].
Qed.

Lemma waiting_residual_len e c res ps nx sb : waiting e c res ps nx sb -> len (sb_residual sb) = zlen res.
Proof using. by intros (pre & post & rpost & -> & _). Qed.

Lemma set_formed_SB fm fm' pre c post res rpost nx l e ps :
  sb_set_formed (SB fm pre c post res rpost nx l e ps) fm' = SB fm' pre c post res rpost nx l e ps.
Proof using. done. Qed.

Lemma formed_SB fm pre c post res rpost nx l e ps :
  sb_residual_fully_formed (SB fm pre c post res rpost nx l e ps) = fm.
Proof using. done. Qed.

Lemma setup_nothing_left sb :
  len (sb_residual sb) = 0 -> sb_residual_fully_formed sb = false ->
  stream_buf_read_setup_dowork sb =
    (sb ← stream_buf_set_next sb; Ret (sb, negb (sb_residual_fully_formed sb))).
Proof using. intros Hl Hf. unfold stream_buf_read_setup_dowork. rewrite Hl. change (0 =? 0) with true. cbn [negb andb mbind outcome_mbind]. by rewrite Hf. Qed.

(** The residual becomes the content of the buffer. *)
Lemma setup_from_residual res ps nx sb :
  waiting false [] res ps nx sb -> res <> [] ->
  exists sb1, waiting false res [] ps nx sb1 /\ zlen res <= M /\
    stream_buf_read_setup_dowork sb =
      (sb ← ('(sb, formed) ← stream_buf_added sb1 0; Ret (sb_set_formed sb formed));
       sb ← (if negb (sb_residual_fully_formed sb) then stream_buf_set_next sb else Ret sb);
       Ret (sb, negb (sb_residual_fully_formed sb))).
Proof using Ho HM Hroom HL.
  intros (pre & post & rpost & -> & Hpre & HLs & HR) Hne. autorewrite with zlen in HLs. zlen_facts.
  assert (0 < zlen res) by (by apply zlen_pos).
  exists (SB false pre res (zdrop (zlen res) post) [] (res ++ rpost) nx (-1) false ps).
  split; [|split; [lia|]].
  { exists pre, (zdrop (zlen res) post), (res ++ rpost). split; [done|]. unfold object_ok. zlia. }
  unfold stream_buf_read_setup_dowork. cbn [sb_residual sb_residual_fully_formed sb_buf SB].
  rewrite len_conc. bdecide. unfold buf_copy. rewrite buf_contents_conc. cbn [mbind outcome_mbind].
  rewrite buf_write_fits by (done || lia || (apply fits_L; zlia)).
  cbn [mbind outcome_mbind c_assert sb_set_buf sb_residual SB].
  rewrite buf_init_conc. autorewrite with zlen. bdecide. done.
Qed.

Inductive setup_case (ps : port_share) (sb : stream_buf) (held : list Z) : Prop :=
| setup_ready ps' : (ps' = PS_ENABLED -> ps = PS_ENABLED) -> ready false ps' sb held -> setup_case ps sb held
| setup_complete h p x ps' :
    held = h ++ p ++ x -> complete true false h p x ps' sb -> setup_case ps sb held
| setup_bad ps' : bad_head M held -> ready true ps' sb [] -> setup_case ps sb held.

Lemma setup_rests ps sb held :
  rests ps sb held ->
  exists sb' w, stream_buf_read_setup_dowork sb = Ret (sb', w) /\ setup_case ps sb' held.
Proof using Ho HM Hroom HL.
  intros [c res nx Hcr Hc Hps Hw|h c nx Hc Hb].
  - destruct (decide (res = [])) as [->|Hres].
    { rewrite app_nil_r. destruct (set_next_waiting _ _ _ _ _ Hw Hc) as (sb' & E & Hr & _).
      rewrite setup_nothing_left by (by destruct Hw as (? & ? & ? & -> & _)).
      rewrite E. cbn [mbind outcome_mbind]. eexists _, _. split; [done|]. by apply (setup_ready _ _ _ ps). }
    destruct Hcr as [->|]; [|done]. cbn [app].
    destruct (setup_from_residual _ _ _ _ Hw Hres) as (sb1 & Hw1 & Hl & ->).
    destruct (added_waiting _ _ _ _ _ Hw1 Hl) as (sb2 & b & -> & Hcase). cbn [mbind outcome_mbind].
    destruct Hcase as [Hs Hw2|ps' Hbad Hw2|Hf _|h t ps' -> Ht Hb2|h p x ps' -> Hc2].
    + destruct (set_next_waiting _ _ _ _ _ Hw2 Hs) as (sb' & E & Hr & _).
      destruct Hw2 as (? & ? & ? & -> & _). rewrite set_formed_SB, formed_SB.
      cbn [negb]. rewrite E. cbn [mbind outcome_mbind].
      eexists _, _. split; [done|]. by apply (setup_ready _ _ _ ps).
    + destruct (set_next_waiting _ _ _ _ _ Hw2) as (sb' & E & Hr & _); [rewrite zlen_nil; lia|].
      destruct Hw2 as (? & ? & ? & -> & _). rewrite set_formed_SB, formed_SB.
      cbn [negb]. rewrite E. cbn [mbind outcome_mbind].
      eexists _, _. split; [done|]. by apply (setup_bad _ _ _ ps').
    + by destruct Hres; apply Hps.
    + destruct (set_next_body _ _ _ _ _ _ Hb2 Ht) as (sb' & E & Hr & _).
      destruct Hb2 as (? & ? & ? & -> & _ & _ & _ & _ & _ & Hne). rewrite set_formed_SB, formed_SB.
      cbn [negb]. rewrite E. cbn [mbind outcome_mbind].
      eexists _, _. split; [done|]. by apply (setup_ready _ _ _ ps').
    + destruct Hc2 as (pre & post & rpost & nx' & -> & Hcc).
      eexists _, _. split; [done|]. apply (setup_complete _ _ _ h p x ps'); [done|].
      by exists pre, post, rpost, nx'.
  - destruct (set_next_body _ _ _ _ _ _ Hb Hc) as (sb' & E & Hr & _).
    rewrite setup_nothing_left by (by destruct Hb as (? & ? & ? & -> & _)).
    rewrite E. cbn [mbind outcome_mbind]. eexists _, _. split; [done|]. by apply (setup_ready _ _ _ ps).
Qed.

(** ** One round *)

Lemma ready_incomplete e ps sb held : ready e ps sb held -> incomplete M held.
Proof using.
  intros [c Hc _|h c Hc (pre & post & rpost & _ & _ & _ & Hh & Hv & _)]; [by left|].
  right. by exists h, c.
Qed.

Lemma ready_error e ps sb held : ready e ps sb held -> sb_error sb = e.
Proof using. by intros [c Hc (? & ? & ? & -> & _)|h c Hc (? & ? & ? & -> & _)]. Qed.

Lemma ready_rests ps sb held : ready false ps sb held -> rests ps sb held.
Proof using.
  intros [c Hc Hw|h c Hc Hb].
  - rewrite <- (app_nil_r c). by eapply rests_wait; [right| |done|].
  - by eapply rests_body.
Qed.

Lemma added_case_error s ps sb b : added_case true s ps sb b -> sb_error sb = true.
Proof using.
  by intros [_ (? & ? & ? & -> & _)|ps' _ (? & ? & ? & -> & _)|_ He|h t ps' _ _ (? & ? & ? & -> & _)
            |h p x ps' _ (? & ? & ? & ? & -> & _)].
Qed.

Lemma reset_error sb : sb_error (stream_buf_reset sb) = sb_error sb.
Proof using. done. Qed.

Lemma scribble_waiting e res ps nx sb d :
  waiting e [] res ps nx sb ->
  waiting e [] res ps nx (sb_set_buf sb (scribble (sb_buf sb) d)).
Proof using Ho HM Hroom.
  intros (pre & post & rpost & -> & Hpre & HLs & HR). unfold scribble. cbn [sb_buf SB data conc].
  autorewrite with zlen in HLs. destruct (_ =? _) eqn:E; breflect.
  - autorewrite with zlen in E.
    exists (ztake o d), (zdrop o d), rpost. unfold sb_set_buf, object_ok. zlen_facts. split; [|zlia].
    unfold SB. cbn. f_equal. apply mkbuffer_conc; cbn [capacity offset len]; [zlia..|].
    by rewrite app_nil_l, ztake_zdrop.
  - exists pre, post, rpost. by split.
Qed.

(** After a complete packet the reader waits again, with what followed it. *)
Lemma complete_reset fm h p x ps sb :
  complete fm false h p x ps sb ->
  waiting false [] x ps None (stream_buf_reset sb) /\ buf_contents (sb_buf sb) = Ret p /\
  len (sb_buf sb) = zlen p /\ sb_error sb = false /\ good_head M h p /\ ps <> PS_ENABLED.
Proof using Ho HM Hroom.
  intros (pre & post & rpost & nx & -> & Hpre & (HLs & HR) & Hg & Hps).
  destruct (stream_buf_reset_SB fm pre p post x rpost nx (be_value h) false ps HLs)
    as (pre' & post' & Hp' & Hl' & ->).
  split; [|cbn [sb_buf SB]; by rewrite buf_contents_conc]. exists pre', post', rpost. split; [done|].
  unfold object_ok. zlia.
Qed.

Definition breaks (r : round) : Prop := rd_event r = RecvClosed \/ rd_reset r = true.

Inductive round_ok (ps : port_share) (held pending : list Z) (r : round) : round_result -> Prop :=
| round_closed sock :
    breaks r \/ ps = PS_ENABLED \/ bad_head M (held ++ pending) ->
    round_ok ps held pending r (Closed sock)
| round_packet sb ps' pending' got held' h p :
    pending = got ++ pending' -> rests ps' sb held' -> ps' <> PS_ENABLED ->
    good_head M h p -> held ++ got = h ++ p ++ held' ->
    round_ok ps held pending r (Open (mksock sb false pending') (Some p))
| round_none sb ps' pending' got :
    pending = got ++ pending' -> rests ps' sb (held ++ got) -> (ps' = PS_ENABLED -> ps = PS_ENABLED) ->
    incomplete M (held ++ got) ->
    (forall k, rd_event r = RecvData k -> got = [] -> pending = []) ->
    round_ok ps held pending r (Open (mksock sb false pending') None).

(** The part of a round after the read, on a packet that was handed out. *)
Lemma round_deliver fm h p x ps sb pending r :
  complete fm false h p x ps sb ->
  exists sb', rests ps sb' x /\
    (if socket_connection_reset (mksock (stream_buf_reset sb) false pending) (len (sb_buf sb)) (rd_reset r)
     then Ret (Closed (mksock (stream_buf_reset sb) false pending))
     else
       packet ← buf_contents (sb_buf sb);
       Ret (Open (mksock (sb_set_buf (stream_buf_reset sb)
              (scribble (sb_buf (stream_buf_reset sb)) (rd_scribble r))) false pending) (Some packet))) =
    Ret (Open (mksock sb' false pending) (Some p)).
Proof using Ho HM Hroom.
  intros Hc. destruct (complete_reset _ _ _ _ _ _ Hc) as (Hw & -> & -> & He & (_ & _ & Hp) & Hps).
  eexists. split.
  2: { unfold socket_connection_reset. cbn [ls_stream_reset ls_stream_buf orb]. rewrite reset_error, He.
       bdecide. done. }
  apply (rests_wait _ _ [] x None); [by left|rewrite zlen_nil; lia|done|]. by apply scribble_waiting.
Qed.

Lemma read_formed sb rst pending ev :
  sb_residual_fully_formed sb = true -> buf_defined (sb_buf sb) = true ->
  link_socket_read_tcp (mksock sb rst pending) ev =
    Ret (mksock (stream_buf_reset sb) rst pending, Some (sb_buf sb), len (sb_buf sb)).
Proof using.
  intros Hf Hd. unfold link_socket_read_tcp. cbn [ls_stream_buf]. rewrite Hf. cbn [negb mbind outcome_mbind].
  cbn [ls_stream_buf]. rewrite Hf. cbn [negb andb mbind outcome_mbind]. unfold stream_buf_get_final. by rewrite Hd.
Qed.

(** The rest of a round in which nothing arrived. *)
Lemma round_nothing ps ps' sb held pending r n :
  (ps' = PS_ENABLED -> ps = PS_ENABLED) -> ready false ps' sb held -> nothing_read (rd_event r) pending n ->
  exists res,
    (let sock := mksock sb (false || (n =? 0)) pending in
     if socket_connection_reset sock n (rd_reset r) then Ret (Closed sock) else Ret (Open sock None)) = Ret res /\
    round_ok ps held pending r res.
Proof using.
  intros Hps Hr Hn. unfold socket_connection_reset. cbv zeta. cbn [ls_stream_reset ls_stream_buf orb].
  rewrite (ready_error _ _ _ _ Hr), orb_false_r.
  destruct (n =? 0) eqn:E0; breflect.
  { eexists. split; [done|]. apply round_closed. left; left. unfold nothing_read in Hn.
    destruct (rd_event r); [lia|done|lia]. }
  destruct ((n <? 0) && rd_reset r) eqn:E1; breflect.
  { eexists. split; [done|]. apply round_closed. by left; right. }
  eexists. split; [done|]. eapply (round_none _ _ _ _ _ ps' _ []); rewrite ?app_nil_r; try done.
  - by apply ready_rests.
  - by eapply ready_incomplete.
  - intros k Hk _. unfold nothing_read in Hn. rewrite Hk in Hn. by destruct Hn.
Qed.

(** The rest of a round in which [g] arrived. *)
Lemma round_data ps ps' sb held g pending r b :
  (ps' = PS_ENABLED -> ps = PS_ENABLED) -> g <> [] -> added_case false (held ++ g) ps' sb b ->
  exists res,
    ('(sock, buf, status) ←
       Ret (if b : bool
            then (mksock (stream_buf_reset sb) false pending, Some (sb_buf sb), len (sb_buf sb))
            else (mksock sb false pending, None, 0));
     if socket_connection_reset sock status (rd_reset r) then Ret (Closed sock)
     else
       match buf with
       | Some buf =>
           packet ← buf_contents buf;
           let sb := ls_stream_buf sock in
           Ret (Open (mksock (sb_set_buf sb (scribble (sb_buf sb) (rd_scribble r)))
                        (ls_stream_reset sock) (ls_pending sock)) (Some packet))
       | None => Ret (Open sock None)
       end) = Ret res /\
    round_ok ps held (g ++ pending) r res.
Proof using Ho HM Hroom.
  intros Hps Hg Hadd.
  assert (Hready : b = false -> forall ps'', (ps'' = PS_ENABLED -> ps = PS_ENABLED) ->
    ready false ps'' sb (held ++ g) ->
    exists res, (if socket_connection_reset (mksock sb false pending) 0 (rd_reset r)
      then Ret (Closed (mksock sb false pending)) else Ret (Open (mksock sb false pending) None)) = Ret res /\
      round_ok ps held (g ++ pending) r res).
  { intros _ ps'' Hps'' Hr. unfold socket_connection_reset. cbn [ls_stream_reset ls_stream_buf orb].
    rewrite (ready_error _ _ _ _ Hr). eexists. split; [done|].
    eapply (round_none _ _ _ _ _ ps'' _ g); try done; [by apply ready_rests|by eapply ready_incomplete]. }
  destruct Hadd as [Hs Hw|ps'' Hbad Hw|Hf He|h t ps'' Es Ht Hb|h p x ps'' Es Hc]; cbn [mbind outcome_mbind].
  - apply (Hready eq_refl ps' Hps). by apply ready_wait.
  - destruct Hw as (? & ? & ? & -> & _). eexists. split; [done|]. apply round_closed.
    right; right. rewrite app_assoc. by apply bad_head_app.
  - unfold socket_connection_reset. cbn [ls_stream_reset ls_stream_buf]. rewrite He. eexists. split; [done|].
    apply round_closed. right; left. auto.
  - rewrite Es in Hready. apply (Hready eq_refl ps''); [|by apply ready_body].
    by destruct Hb as (? & ? & ? & _ & _ & _ & _ & _ & _ & Hne).
  - destruct (round_deliver _ _ _ _ _ _ pending r Hc) as (sb2 & Hrest2 & E2).
    destruct (complete_reset _ _ _ _ _ _ Hc) as (_ & _ & _ & _ & Hgh & Hps'').
    eexists. split; [exact E2|]. by eapply (round_packet _ _ _ _ _ ps'' _ g x h p).
Qed.

Lemma round_spec ps sb held pending r :
  rests ps sb held ->
  exists res, read_incoming_link_tcp (mksock sb false pending) r = Ret res /\
    round_ok ps held pending r res.
Proof using Ho HM Hroom HL.
  intros Hrest. destruct (setup_rests _ _ _ Hrest) as (sb1 & w & E1 & Hcase).
  unfold read_incoming_link_tcp. cbn [ls_stream_buf ls_stream_reset ls_pending]. rewrite E1.
  cbn [mbind outcome_mbind].
  destruct Hcase as [ps' Hps' Hr|h p x ps' -> Hc|ps' Hbad Hr].
  - destruct (read_ready _ _ _ _ false pending (rd_event r) Hr)
      as [(n & Hn & ->)|(g & pending' & sb2 & b & -> & Hg & Hadd & ->)]; cbn [mbind outcome_mbind].
    + by apply (round_nothing ps ps').
    + by apply (round_data ps ps').
  - destruct (round_deliver _ _ _ _ _ _ pending r Hc) as (sb2 & Hrest2 & E2).
    destruct (complete_reset _ _ _ _ _ _ Hc) as (_ & _ & _ & _ & Hg & Hps).
    rewrite read_formed by (by destruct Hc as (? & ? & ? & ? & -> & _)). cbn [mbind outcome_mbind].
    eexists. split; [exact E2|].
    eapply (round_packet _ _ _ _ _ ps' _ [] x h p); try done. by rewrite app_nil_r.
  - destruct (read_ready _ _ _ _ false pending (rd_event r) Hr)
      as [(n & Hn & ->)|(g & pending' & sb2 & b & -> & Hg & Hadd & ->)]; cbn [mbind outcome_mbind].
    + unfold socket_connection_reset. cbn [ls_stream_buf].
      rewrite (ready_error _ _ _ _ Hr), orb_true_r. eexists. split; [done|].
      apply round_closed. right; right. by apply bad_head_app.
    + apply added_case_error in Hadd. destruct b; cbn [mbind outcome_mbind];
        unfold socket_connection_reset; cbn [ls_stream_buf ls_stream_reset]; rewrite ?reset_error, Hadd;
        (eexists; split; [done|]); apply round_closed; right; right; by apply bad_head_app.
Qed.

(** ** Whole runs *)

Lemma loop_safe ps sb held pending rs :
  rests ps sb held -> exists res, read_loop (mksock sb false pending) rs = Ret res.
Proof using Ho HM Hroom HL.
  revert ps sb held pending. induction rs as [|r rs IH]; intros ps sb held pending Hr; [by eexists|].
  destruct (round_spec ps sb held pending r Hr) as (res & E & Hok). cbn [read_loop]. rewrite E.
  cbn [mbind outcome_mbind].
  destruct Hok as [sock _|sb' ps' pending' got held' h p _ Hr' _ _ _|sb' ps' pending' got _ Hr' _ _ _].
  - by eexists.
  - destruct (IH _ _ _ pending' Hr') as ([[sock o'] out] & ->). by eexists.
  - destruct (IH _ _ _ pending' Hr') as ([[sock o'] out] & ->). by eexists.
Qed.

(** A round that delivers bytes whenever there are any, on a healthy connection. *)
Definition healthy (r : round) : Prop := (exists k, rd_event r = RecvData k) /\ rd_reset r = false.

Lemma healthy_not_breaks r : healthy r -> ~ breaks r.
Proof using. intros [(k & Hk) Hr] [H|H]; congruence. Qed.

Lemma loop_stuck ps sb held rs :
  rests ps sb held -> ps <> PS_ENABLED -> incomplete M held -> Forall healthy rs ->
  exists sock, read_loop (mksock sb false []) rs = Ret (sock, true, []).
Proof using Ho HM Hroom HL.
  revert ps sb held. induction rs as [|r rs IH]; intros ps sb held Hr Hps Hi Hrs; [by eexists|].
  apply Forall_cons in Hrs as [Hh Hrs].
  destruct (round_spec ps sb held [] r Hr) as (res & E & Hok). cbn [read_loop]. rewrite E. cbn [mbind outcome_mbind].
  destruct Hok as [sock Hb|sb' ps' pending' got held' h p Hgot Hr' _ Hg Heq|sb' ps' pending' got Hgot Hr' Hps' Hi' _].
  - exfalso. rewrite app_nil_r in Hb. destruct Hb as [Hb|[Hb|Hb]]; [|done|by eapply bad_not_incomplete].
    by eapply healthy_not_breaks.
  - exfalso. symmetry in Hgot. apply app_nil in Hgot as [-> ->]. rewrite app_nil_r in Heq. subst held.
    by eapply good_not_incomplete.
  - symmetry in Hgot. apply app_nil in Hgot as [-> ->]. rewrite app_nil_r in *.
    destruct (IH ps' sb' held) as (sock & ->); [done|naive_solver|done..|]. by eexists.
Qed.

(** Every round before the last byte is read either moves a byte or a packet. *)
Lemma loop_deframe ps sb held pending rs :
  rests ps sb held -> ps <> PS_ENABLED -> Forall healthy rs ->
  2 * zlen pending + zlen held < zlen rs ->
  exists sock opened out, read_loop (mksock sb false pending) rs = Ret (sock, opened, out) /\
    deframe M (held ++ pending) = (out, negb opened).
Proof using Ho HM Hroom HL.
  revert ps sb held pending. induction rs as [|r rs IH]; intros ps sb held pending Hr Hps Hrs Hl.
  { exfalso. zlia. }
  apply Forall_cons in Hrs as [Hh Hrs]. rewrite zlen_cons in Hl.
  destruct (round_spec ps sb held pending r Hr) as (res & E & Hok). cbn [read_loop]. rewrite E. cbn [mbind outcome_mbind].
  destruct Hok as [sock Hb|sb' ps' pending' got held' h p -> Hr' Hps' Hg Heq|sb' ps' pending' got -> Hr' Hps' Hi' Hmove].
  - exists sock, false, []. split; [done|]. destruct Hb as [Hb|[Hb|Hb]]; [|done|by apply deframe_bad].
    by eapply healthy_not_breaks in Hb.
  - destruct (IH ps' sb' held' pending') as (sock & op & out & -> & Hd); [done..| |].
    { apply (f_equal zlen) in Heq. destruct Hg as (Hh2 & _ & Hp). zlia. }
    exists sock, op, (p :: out). split; [done|].
    rewrite app_assoc, Heq, <- !app_assoc, (deframe_good M h p) by done. by rewrite Hd.
  - destruct (decide (got = [])) as [->|Hne].
    + assert (pending' = []) as -> by (destruct Hh as [(k & Hk) _]; by apply (Hmove k)).
      cbn [app]. rewrite app_nil_r in *.
      destruct (loop_stuck ps' sb' held rs) as (sock & ->); [done|naive_solver|done..|].
      exists sock, true, []. split; [done|]. by apply deframe_incomplete.
    + assert (0 < zlen got) by (by apply zlen_pos).
      destruct (IH ps' sb' (held ++ got) pending') as (sock & op & out & -> & Hd); [done|naive_solver|done|zlia|].
      exists sock, op, out. split; [done|]. by rewrite app_assoc.
Qed.

End Reader.

(** ** From the frame to the reader *)

Lemma stream_buf_init_rests pre c post share :
  fits pre c post -> 2 <= zlen c -> 2 <= zlen post ->
  exists sb, stream_buf_init (conc pre c post) share = Ret sb /\
    rests (zlen pre) (zlen pre + zlen c + zlen post) (zlen c)
      (if share : bool then PS_ENABLED else PS_DISABLED) sb [].
Proof.
  intros HF Hc Hp. unfold fits in HF. zlen_facts. unfold stream_buf_init.
  cbn [len conc capacity offset]. rewrite alloc_buf_conc by lia. cbn [mbind outcome_mbind].
  set (ps := if share then PS_ENABLED else PS_DISABLED).
  pose proof (stream_buf_reset_SB (zlen pre) (zlen pre + zlen c + zlen post) (zlen c)
    ltac:(lia) ltac:(lia) ltac:(lia)
    false pre c post [] (replicate (Z.to_nat (zlen c)) 0) None 0 false ps eq_refl)
    as (pre' & post' & Hpre' & Hl' & E).
  eexists. split; [unfold SB in E; cbn [conc] in E; rewrite E; reflexivity|].
  rewrite <- (app_nil_l []). apply (rests_wait _ _ _ _ _ [] [] None); [by left|done|done|].
  exists pre', post', (replicate (Z.to_nat (zlen c)) 0). split; [done|]. unfold object_ok. zlia.
Qed.

(** The sizes a socket's stream buffer has. *)
Lemma socket_frame_init_rests f share :
  frame_ok f -> 5 <= extra_buffer f ->
  exists sb o L, socket_frame_init f share = Ret sb /\
    0 <= o /\ 2 <= MAX_RW_SIZE_LINK f /\ o + 2 + MAX_RW_SIZE_LINK f <= L /\ L < BUF_SIZE_MAX /\
    rests o L (MAX_RW_SIZE_LINK f) (if share : bool then PS_ENABLED else PS_DISABLED) sb [].
Proof.
  intros Hf Hb.
  destruct (alloc_buf_sock_tun_room f false FRAME_HEADROOM_MARKER_READ_STREAM Hf) as
    (pre & c & post & E & HF & Hc & _ & Hpost); [lia|].
  assert (HM : 2 <= MAX_RW_SIZE_LINK f).
  { destruct Hf as (H1 & H2 & H3 & H4 & H5 & _).
    unfold MAX_RW_SIZE_LINK, EXPANDED_SIZE, TUN_MTU_SIZE, TUN_LINK_DELTA, TUN_MTU_MIN in *. lia. }
  destruct (stream_buf_init_rests pre c post share HF) as (sb & Esb & Hr); [lia..|].
  exists sb, (zlen pre), (zlen pre + zlen c + zlen post).
  unfold socket_frame_init. rewrite E. cbn [mbind outcome_mbind]. rewrite Esb, <- Hc.
  unfold fits in HF. zlen_facts. split_and!; first [lia|done].
Qed.

(** ** The properties *)

(** A TCP connection whose frame was set up by [do_init_frame] can always be
    read: the buffers are allocated, and whatever bytes the peer sends, however
    [recv] cuts them up or fails, whatever the processing of a packet leaves in
    the shared object, and with or without port sharing, no assertion fails and
    no byte outside a buffer is touched. *)
Theorem stream_reader_never_fails o f omit share pending rs :
  frame_options_ok o f ->
  exists f' omit' ff sb res,
    do_init_frame o f omit = Ret (f', omit', ff) /\
    socket_frame_init f' share = Ret sb /\
    read_loop (mksock sb false pending) rs = Ret res.
Proof.
  intros Ho. destruct (do_init_frame_ok o f omit Ho) as (f' & omit' & ff & E & Hf & Hb & _).
  destruct (socket_frame_init_rests f' share Hf) as (sb & off & L & Esb & H1 & H2 & H3 & H4 & Hr); [lia|].
  destruct (loop_safe off L _ H1 H2 H3 H4 _ _ _ pending rs Hr) as (res & Eres).
  by exists f', omit', ff, sb, res.
Qed.

(** C31: Reading refines the reference parser of the whole stream: after twice as
    many rounds as the peer sent bytes, whatever part of them each [recv]
    delivered, the packets processed are those of [deframe], in order, and the
    connection has been given up exactly when the stream has a length that is 0 or
    above the maximum. *)
Theorem stream_reader_is_deframe f s rs :
  frame_ok f -> 5 <= extra_buffer f -> Forall healthy rs -> 2 * zlen s < zlen rs ->
  exists sb sock opened out,
    socket_frame_init f false = Ret sb /\
    read_loop (mksock sb false s) rs = Ret (sock, opened, out) /\
    deframe (MAX_RW_SIZE_LINK f) s = (out, negb opened).
Proof.
  intros Hf Hb Hrs Hl.
  destruct (socket_frame_init_rests f false Hf Hb) as (sb & off & L & Esb & H1 & H2 & H3 & H4 & Hr).
  destruct (loop_deframe off L _ H1 H2 H3 H4 _ _ _ s rs Hr) as (sock & op & out & Eres & Hd);
    [done|done|zlia|].
  by exists sb, sock, op, out.
Qed.

(** The bytes sent for a list of packets. *)
Fixpoint write_all (maxlen : Z) (bs : list buffer) : outcome (list Z) :=
  match bs with
  | [] => Ret []
  | b :: bs =>
      '(_, bytes) ← link_socket_write_tcp maxlen b;
      rest ← write_all maxlen bs;
      Ret (bytes ++ rest)
  end.

(** A packet that may be sent: the length fits in front of it, and it is not
    empty and not too long. *)
Definition sendable (maxlen : Z) (b : buffer) : Prop :=
  buf_wf b /\ sizeof_packet_size_type <= offset b /\ 1 <= len b <= maxlen.

Lemma link_socket_write_tcp_spec M b :
  sendable M b -> M < 2 ^ 16 ->
  1 <= zlen (content b) <= M /\
  exists b', link_socket_write_tcp M b = Ret (b', encapsulate (content b)).
Proof.
  intros (Hwf & Ho & Hl) HM. wf_destruct Hwf. rewrite content_conc.
  unfold sizeof_packet_size_type in Ho. cbn [offset len conc] in Ho, Hl. split; [done|].
  unfold link_socket_write_tcp. rewrite buf_len_conc, u16_id by (unfold is_u16; lia). bdecide.
  cbn [c_assert mbind outcome_mbind]. rewrite buf_write_prepend_conc, zlen_be_bytes. bdecide.
  cbn [c_assert mbind outcome_mbind]. rewrite buf_contents_conc. cbn [mbind outcome_mbind]. by eexists.
Qed.

Lemma write_all_spec M bs :
  M < 2 ^ 16 -> Forall (sendable M) bs ->
  write_all M bs = Ret (concat (map encapsulate (map content bs))) /\
  Forall (fun p => 1 <= zlen p <= M) (map content bs).
Proof.
  intros HM. induction bs as [|b bs IH]; intros Hbs; [done|].
  apply Forall_cons in Hbs as [Hb Hbs]. destruct (IH Hbs) as [E Hps].
  destruct (link_socket_write_tcp_spec M b Hb HM) as (Hp & b' & Eb). split; [|by constructor].
  cbn [write_all]. rewrite Eb. cbn [mbind outcome_mbind]. rewrite E. done.
Qed.

(** Packets written to a TCP connection with [link_socket_write_tcp] arrive:
    a peer with the same maximum, reading the bytes in whatever pieces they are
    delivered, processes exactly these packets in their order and keeps the
    connection. *)
Theorem stream_roundtrip f bs rs :
  frame_ok f -> 5 <= extra_buffer f -> MAX_RW_SIZE_LINK f < 2 ^ 16 ->
  Forall (sendable (MAX_RW_SIZE_LINK f)) bs -> Forall healthy rs ->
  exists s, write_all (MAX_RW_SIZE_LINK f) bs = Ret s /\
    (2 * zlen s < zlen rs ->
     exists sb sock, socket_frame_init f false = Ret sb /\
       read_loop (mksock sb false s) rs = Ret (sock, true, map content bs)).
Proof.
  intros Hf Hb HM Hbs Hrs. destruct (write_all_spec _ bs HM Hbs) as [E Hps].
  eexists. split; [exact E|]. intros Hl.
  destruct (socket_frame_init_rests f false Hf Hb) as (sb & off & L & Esb & H1 & H2 & H3 & H4 & Hr).
  destruct (loop_deframe off L _ H1 H2 H3 H4 _ _ _ (concat (map encapsulate (map content bs))) rs Hr) as (sock & op & out & Eres & Hd);
    [done|done|rewrite zlen_nil; lia|].
  cbn [app] in Hd. rewrite <- (app_nil_r (concat _)), deframe_encapsulate in Hd by done.
  change (deframe _ []) with (@nil (list Z), false) in Hd. cbn [fst snd] in Hd. rewrite app_nil_r in Hd.
  injection Hd as <- Hop. destruct op; [|done]. by exists sb, sock.
Qed.

(** ** Witnesses *)

Definition w_options : frame_options := mkfopt true true false PROTO_TCP_CLIENT false 0 true 1500 false 0.
Definition w_frame0 : frame := mkframe 0 0 69 0 0 0 0 0.
Definition w_frame : frame := mkframe 120 120 20 140 0 3 0 0.
Definition w_round : round := mkround (RecvData 3) false [].

Lemma w_frame_ok : frame_ok w_frame.
Proof. unfold frame_ok. vm_compute. intuition discriminate. Qed.

Lemma w_rounds_healthy n : Forall healthy (replicate n w_round).
Proof. apply Forall_replicate. split; [by exists 3|done]. Qed.

Lemma stream_reader_never_fails_witness :
  frame_options_ok w_options w_frame0 /\
  exists f' omit' ff sb res,
    do_init_frame w_options w_frame0 w_frame0 = Ret (f', omit', ff) /\
    socket_frame_init f' true = Ret sb /\
    read_loop (mksock sb false [0; 3; 1; 2; 3; 0]) [w_round; mkround RecvClosed false []] = Ret res.
Proof.
  assert (H : frame_options_ok w_options w_frame0) by (vm_compute; intuition discriminate).
  split; [exact H|]. exact (stream_reader_never_fails w_options w_frame0 w_frame0 true _ _ H).
Defined.

(** A packet, a packet, a length of zero. *)
Lemma stream_reader_is_deframe_witness :
  deframe (MAX_RW_SIZE_LINK w_frame) [0; 2; 7; 8; 0; 1; 9; 0; 0; 5] = ([[7; 8]; [9]], true) /\
  exists sb sock opened out,
    socket_frame_init w_frame false = Ret sb /\
    read_loop (mksock sb false [0; 2; 7; 8; 0; 1; 9; 0; 0; 5]) (replicate 21 w_round) = Ret (sock, opened, out) /\
    deframe (MAX_RW_SIZE_LINK w_frame) [0; 2; 7; 8; 0; 1; 9; 0; 0; 5] = (out, negb opened).
Proof.
  split; [vm_compute; reflexivity|].
  apply (stream_reader_is_deframe w_frame); [exact w_frame_ok|vm_compute; discriminate|apply w_rounds_healthy|
    vm_compute; reflexivity].
Defined.

Lemma stream_roundtrip_witness :
  let bs := [conc [0; 0] [7; 8] [0]; conc [1; 2; 3] [9] []] in
  write_all (MAX_RW_SIZE_LINK w_frame) bs = Ret [0; 2; 7; 8; 0; 1; 9] /\
  exists s, write_all (MAX_RW_SIZE_LINK w_frame) bs = Ret s /\
    (2 * zlen s < 15 ->
     exists sb sock, socket_frame_init w_frame false = Ret sb /\
       read_loop (mksock sb false s) (replicate 15 w_round) = Ret (sock, true, [[7; 8]; [9]])).
Proof.
  cbv zeta. split; [vm_compute; reflexivity|].
  apply (stream_roundtrip w_frame [conc [0; 0] [7; 8] [0]; conc [1; 2; 3] [9] []] (replicate 15 w_round));
    [exact w_frame_ok|vm_compute; discriminate|vm_compute; reflexivity| |apply w_rounds_healthy].
  repeat constructor; try (vm_compute; discriminate); apply conc_wf; vm_compute; reflexivity.
Defined.
