(* ===== verification/Crypto.v ===== *)
(** * Protection of data packets ([crypto.c], [crypto.h])

    [openvpn_encrypt] and [openvpn_decrypt] in all their modes: AEAD ciphers, CBC,
    OFB and CFB ciphers with or without HMAC, and no cipher at all.  The
    ciphers and digests of the TLS library are parameters: a context is a
    record of the functions crypto_backend.h declares, each as a function of
    what has been fed in since the context was reset (the initialisation vector,
    the additional data and the input); [None] is a failing call.  A pointer into
    a buffer is an index into its object.  [now] is the clock, [prng] the bytes
    [prng_bytes] produced. *)
From S2P Require Import Prelude Integer Buffer PacketId Mtu.

Definition OPENVPN_MAX_IV_LENGTH : Z := 16.
Definition OPENVPN_AEAD_TAG_LENGTH : Z := 16.
Definition OPENVPN_AEAD_MIN_IV_LEN : Z := 4 + 8.
Definition MAX_HMAC_KEY_LENGTH : Z := 64.

Definition OPENVPN_MAX_CIPHER_BLOCK_SIZE : Z := 32.
Definition OPENVPN_MAX_HMAC_SIZE : Z := 64.

(** The most that protecting a packet can add to it. *)
Definition crypto_max_overhead : Z :=
  packet_id_size true + OPENVPN_MAX_IV_LENGTH + OPENVPN_MAX_CIPHER_BLOCK_SIZE
  + max_int OPENVPN_MAX_HMAC_SIZE OPENVPN_AEAD_TAG_LENGTH.

Inductive cipher_mode : Type := MODE_CBC | MODE_OFB | MODE_CFB | MODE_AEAD | MODE_OTHER.

#[global] Instance cipher_mode_eq_dec : EqDecision cipher_mode.
Proof. solve_decision. Defined.

(** A cipher context ([cipher_ctx_t]) for one direction. *)
Record cipher_ctx : Type := mkcipher {
  c_mode : cipher_mode;
  c_iv_length : Z;
  c_block_size : Z;
  c_reset : list Z -> bool;
  c_update_ad : list Z -> list Z -> bool;
  c_update : list Z -> list Z -> list Z -> option (list Z);
  c_final : list Z -> list Z -> list Z -> option (list Z);
  c_get_tag : list Z -> list Z -> list Z -> option (list Z);
  c_final_check_tag : list Z -> list Z -> list Z -> list Z -> option (list Z)
}.

(** A keyed digest ([hmac_ctx_t]). *)
Record hmac_ctx : Type := mkhmac { hmac_ctx_size : Z; hmac_of : list Z -> list Z }.

(** [struct key_ctx]; [k_implicit_iv] has [implicit_iv_len] bytes. *)
Record key_ctx : Type := mkkey {
  k_cipher : option cipher_ctx;
  k_hmac : option hmac_ctx;
  k_implicit_iv : list Z
}.

(** The whole of [struct crypto_options]. *)
Record data_channel : Type := mkdc {
  dc_encrypt : key_ctx;
  dc_decrypt : key_ctx;
  dc_opt : crypto_options;
  dc_ignore_packet_id : bool
}.

Definition set_opt (dc : data_channel) (o : crypto_options) : data_channel :=
  mkdc (dc_encrypt dc) (dc_decrypt dc) o (dc_ignore_packet_id dc).

Definition dc_send (dc : data_channel) : packet_id_send := pid_send (opt_packet_id (dc_opt dc)).

Definition set_send (dc : data_channel) (p : packet_id_send) : data_channel :=
  set_opt dc (mkopt (mkpid p (pid_rec (opt_packet_id (dc_opt dc)))) (pid_persist (dc_opt dc))
                (co_long_form (dc_opt dc))).

Definition packet_id_initialized (p : packet_id) : bool := initialized (pid_rec p).

Definition dc_packet_id_initialized (dc : data_channel) : bool :=
  packet_id_initialized (opt_packet_id (dc_opt dc)).

Definition cipher_kt_mode_cbc (c : cipher_ctx) : bool := bool_decide (c_mode c = MODE_CBC).

Definition cipher_kt_mode_ofb_cfb (c : cipher_ctx) : bool :=
  bool_decide (c_mode c = MODE_OFB) || bool_decide (c_mode c = MODE_CFB).

Definition cipher_kt_mode_aead (c : option cipher_ctx) : bool :=
  match c with Some c => bool_decide (c_mode c = MODE_AEAD) | None => false end.

Definition cipher_kt_tag_size (c : cipher_ctx) : Z :=
  if cipher_kt_mode_aead (Some c) then OPENVPN_AEAD_TAG_LENGTH else 0.

(** [ASSERT] on a call that yields a value when it succeeds. *)
Definition must {A} (r : option A) : outcome A := match r with Some a => Ret a | None => Fatal end.

(** What a cipher call stores at [pos], and the [buf_inc_len] that follows. *)
Definition cipher_put (b : buffer) (pos : Z) (out : list Z) : outcome buffer :=
  b ← buf_store b pos out;
  let '(b, ok) := buf_inc_len b (zlen out) in
  _ ← c_assert ok;
  Ret b.

(** [memcmp_constant_time]: 0 when the bytes are the same. *)
Fixpoint memcmp_constant_time (a b : list Z) : Z :=
  match a, b with
  | x :: a, y :: b => Z.lor (Z.lxor x y) (memcmp_constant_time a b)
  | _, _ => 0
  end.

(** ** AEAD modes *)

(** The buffer is empty when the packet could not be encrypted. *)
Definition openvpn_encrypt_aead (now : Z) (dc : data_channel) (buf work : buffer)
  : outcome (data_channel * buffer) :=
  let ctx := dc_encrypt dc in
  c ← must (k_cipher ctx);
  let mac_len := cipher_kt_tag_size c in
  _ ← c_assert (cipher_kt_mode_aead (Some c));
  _ ← c_assert (dc_packet_id_initialized dc);
  let iv_len := c_iv_length c in
  _ ← c_assert ((OPENVPN_AEAD_MIN_IV_LEN <=? iv_len) && (iv_len <=? OPENVPN_MAX_IV_LENGTH));
  iv_buffer ← buf_set_write (replicate (Z.to_nat iv_len) 0);
  '(send, iv_buffer, ok) ← packet_id_write now (dc_send dc) iv_buffer false false;
  let dc := set_send dc send in
  if negb ok then Ret (dc, set_len buf 0)
  else
    '(iv_buffer, ok) ← buf_write iv_buffer (k_implicit_iv ctx);
    _ ← c_assert ok;
    _ ← c_assert (len iv_buffer =? iv_len);
    iv ← buf_load iv_buffer 0 iv_len;
    '(work, ok) ← buf_write work (ztake (iv_len - zlen (k_implicit_iv ctx)) iv);
    _ ← c_assert ok;
    _ ← c_assert (c_reset c iv);
    let '(work, mac_out) := buf_write_alloc work mac_len in
    mac_out ← must mac_out;
    if negb (buf_safe work (len buf + c_block_size c)) then Ret (dc, set_len buf 0)
    else
      p ← bptr work;
      ad ← buf_load work p (buf_len work - mac_len);
      _ ← c_assert (c_update_ad c iv ad);
      input ← buf_contents buf;
      out ← must (c_update c iv ad input);
      e ← bend work;
      work ← cipher_put work e out;
      out ← must (c_final c iv ad input);
      e ← bend work;
      work ← cipher_put work e out;
      tag ← must (c_get_tag c iv ad input);
      work ← buf_store work mac_out tag;
      Ret (dc, work).

(** [ad_start] is an index into the object of [buf].  The result is the state, the
    buffer and whether the packet was accepted; every error leaves the buffer
    empty. *)
Definition openvpn_decrypt_aead (now : Z) (dc : data_channel) (f : frame) (buf work : buffer)
    (ad_start : Z) : outcome (data_channel * buffer * bool) :=
  let ctx := dc_decrypt dc in
  _ ← c_assert (0 <? len buf);
  c ← must (k_cipher ctx);
  _ ← c_assert (cipher_kt_mode_aead (Some c));
  p ← bptr buf;
  _ ← c_assert ((0 <=? ad_start) && (ad_start <=? p));
  let '(work, ok) := buf_init work (FRAME_HEADROOM_ADJ f FRAME_HEADROOM_MARKER_DECRYPT) in
  _ ← c_assert ok;
  _ ← c_assert (dc_packet_id_initialized dc);
  let iv_len := c_iv_length c in
  let packet_iv_len := iv_len - zlen (k_implicit_iv ctx) in
  _ ← c_assert (zlen (k_implicit_iv ctx) <=? iv_len);
  if len buf + zlen (k_implicit_iv ctx) <? iv_len then Ret (dc, set_len buf 0, false)
  else
    explicit_iv ← buf_load buf p packet_iv_len;
    let iv := explicit_iv ++ k_implicit_iv ctx in
    if OPENVPN_MAX_IV_LENGTH <? iv_len then Oob
    else if negb (c_reset c iv) then Ret (dc, set_len buf 0, false)
    else
      '(buf, pin, ok) ← packet_id_read buf false;
      if negb ok then Ret (dc, set_len buf 0, false)
      else
        let tag_size := cipher_kt_tag_size c in
        if len buf <? tag_size then Ret (dc, set_len buf 0, false)
        else
          tag_ptr ← bptr buf;
          let '(buf, ok) := buf_advance buf tag_size in
          _ ← c_assert ok;
          if len buf <? 1 then Ret (dc, set_len buf 0, false)
          else if negb (buf_safe work (len buf + c_block_size c)) then Ret (dc, set_len buf 0, false)
          else
            p ← bptr buf;
            ad ← buf_load buf ad_start (p - ad_start - tag_size);
            _ ← c_assert (c_update_ad c iv ad);
            input ← buf_contents buf;
            match c_update c iv ad input with
            | None => Ret (dc, set_len buf 0, false)
            | Some out =>
                w ← bptr work;
                work ← cipher_put work w out;
                tag ← buf_load buf tag_ptr tag_size;
                match c_final_check_tag c iv ad input tag with
                | None => Ret (dc, set_len buf 0, false)
                | Some out' =>
                    w ← bptr work;
                    work ← cipher_put work (w + zlen out) out';
                    '(opt, ok) ← crypto_check_replay now (dc_opt dc) pin;
                    let dc := set_opt dc opt in
                    if negb ok then Ret (dc, set_len buf 0, false)
                    else Ret (dc, work, true)
                end
            end.

(** ** CBC, OFB and CFB modes, and no cipher *)

(** The packet given up, with its buffer, or the work buffer and, with an HMAC,
    where its input starts and where it goes. *)
Inductive encrypted : Type :=
| EncryptError (buf : buffer)
| Encrypted (work : buffer) (mac : option (Z * Z)).

(** The initialisation vector and the packet number: in CBC mode the vector is
    random and the number goes in front of the plaintext, in OFB and CFB modes the
    number is the vector. *)
Definition encrypt_v1_iv (now : Z) (prng : list Z) (dc : data_channel) (c : cipher_ctx) (buf : buffer)
  : outcome (data_channel * buffer * list Z * bool) :=
  let iv_size := c_iv_length c in
  if cipher_kt_mode_cbc c
  then
    let iv := ztake iv_size prng in
    if dc_packet_id_initialized dc
    then '(send, buf, ok) ← packet_id_write now (dc_send dc) buf (co_long_form (dc_opt dc)) true;
         Ret (set_send dc send, buf, iv, ok)
    else Ret (dc, buf, iv, true)
  else if cipher_kt_mode_ofb_cfb c
  then
    _ ← c_assert (dc_packet_id_initialized dc);
    b ← buf_set_write (replicate (Z.to_nat iv_size) 0);
    '(send, b, ok) ← packet_id_write now (dc_send dc) b true false;
    _ ← c_assert ok;
    iv ← buf_load b 0 iv_size;
    Ret (set_send dc send, buf, iv, true)
  else Fatal.

(** The first half of [openvpn_encrypt_v1] with a cipher. *)
Definition encrypt_v1_cipher (now : Z) (prng : list Z) (dc : data_channel) (c : cipher_ctx) (buf work : buffer)
  : outcome (data_channel * encrypted) :=
  let ctx := dc_encrypt dc in
  let iv_size := c_iv_length c in
  '(work, mac) ← (match k_hmac ctx with
                  | Some h =>
                      let '(work, mac_out) := buf_write_alloc work (hmac_ctx_size h) in
                      mac_out ← must mac_out;
                      hmac_start ← bend work;
                      Ret (work, Some (hmac_start, mac_out))
                  | None => Ret (work, None)
                  end);
  '(dc, buf, iv, ok) ← encrypt_v1_iv now prng dc c buf;
  if negb ok then Ret (dc, EncryptError buf)
  else
    '(work, ok) ← buf_write work iv;
    _ ← c_assert ok;
    _ ← c_assert (c_reset c iv);
    if negb (buf_safe work (len buf + c_block_size c)) then Ret (dc, EncryptError buf)
    else
      input ← buf_contents buf;
      out ← must (c_update c iv [] input);
      e ← bend work;
      work ← cipher_put work e out;
      out ← must (c_final c iv [] input);
      e ← bend work;
      work ← cipher_put work e out;
      _ ← c_assert (negb (bool_decide (c_mode c = MODE_CBC)) || (zlen out =? iv_size));
      Ret (dc, Encrypted work mac).

(** Without a cipher the packet stays in [buf]. *)
Definition encrypt_v1_plain (now : Z) (dc : data_channel) (buf work : buffer)
  : outcome (data_channel * encrypted) :=
  let ctx := dc_encrypt dc in
  '(dc, buf, ok) ←
     (if dc_packet_id_initialized dc
      then '(send, buf, ok) ← packet_id_write now (dc_send dc) buf (co_long_form (dc_opt dc)) true;
           Ret (set_send dc send, buf, ok)
      else Ret (dc, buf, true));
  if negb ok then Ret (dc, EncryptError buf)
  else
    '(buf, mac) ← (match k_hmac ctx with
                   | Some h =>
                       hmac_start ← bptr buf;
                       let '(buf, mac_out) := buf_prepend buf (hmac_ctx_size h) in
                       mac_out ← must mac_out;
                       Ret (buf, Some (hmac_start, mac_out))
                   | None => Ret (buf, None)
                   end);
    buf ← (if negb (buf_len work =? 0)
           then bytes ← buf_contents work; '(buf, _) ← buf_write_prepend buf bytes; Ret buf
           else Ret buf);
    Ret (dc, Encrypted buf mac).

(** The HMAC over everything from [hmac_start] on, stored at [mac_out]. *)
Definition put_hmac (ctx : key_ctx) (work : buffer) (mac : option (Z * Z)) : outcome buffer :=
  match k_hmac ctx, mac with
  | Some h, Some (hmac_start, mac_out) =>
      e ← bend work;
      bytes ← buf_load work hmac_start (e - hmac_start);
      buf_store work mac_out (hmac_of h bytes)
  | _, _ => Ret work
  end.

Definition openvpn_encrypt_v1 (now : Z) (prng : list Z) (dc : data_channel) (buf work : buffer)
  : outcome (data_channel * buffer) :=
  if 0 <? len buf
  then
    let ctx := dc_encrypt dc in
    '(dc, r) ← (match k_cipher ctx with
                | Some c => encrypt_v1_cipher now prng dc c buf work
                | None => encrypt_v1_plain now dc buf work
                end);
    match r with
    | EncryptError buf => Ret (dc, set_len buf 0)
    | Encrypted work mac => work ← put_hmac ctx work mac; Ret (dc, work)
    end
  else Ret (dc, buf).

Definition openvpn_encrypt (now : Z) (prng : list Z) (dc : data_channel) (buf work : buffer)
  : outcome (data_channel * buffer) :=
  if 0 <? len buf
  then
    if cipher_kt_mode_aead (k_cipher (dc_encrypt dc))
    then openvpn_encrypt_aead now dc buf work
    else openvpn_encrypt_v1 now prng dc buf work
  else Ret (dc, buf).

(** The check of the HMAC: [None] when it fails, otherwise the buffer behind it. *)
Definition decrypt_v1_hmac (ctx : key_ctx) (buf : buffer) : outcome (option buffer) :=
  match k_hmac ctx with
  | None => Ret (Some buf)
  | Some h =>
      let hmac_len := hmac_ctx_size h in
      if len buf <? hmac_len then Ret None
      else
        p ← bptr buf;
        bytes ← buf_load buf (p + hmac_len) (buf_len buf - hmac_len);
        let local_hmac := hmac_of h bytes in
        if MAX_HMAC_KEY_LENGTH <? zlen local_hmac then Oob
        else
          packet_hmac ← buf_load buf p hmac_len;
          if negb (memcmp_constant_time local_hmac packet_hmac =? 0) then Ret None
          else
            let '(buf, ok) := buf_advance buf hmac_len in
            _ ← c_assert ok;
            Ret (Some buf)
  end.

(** The buffer, and on success the plaintext and the packet number if it is to
    be checked. *)
Inductive decrypted : Type :=
| DecryptError (buf : buffer)
| Decrypted (buf work : buffer) (pin : option packet_id_net).

(** The packet number, from the plaintext or the initialisation vector. *)
Definition decrypt_v1_pin (dc : data_channel) (c : cipher_ctx) (iv : list Z) (buf work : buffer)
  : outcome decrypted :=
  if cipher_kt_mode_cbc c
  then
    if dc_packet_id_initialized dc
    then '(work, pin, ok) ← packet_id_read work (co_long_form (dc_opt dc));
         Ret (if ok : bool then Decrypted buf work (Some pin) else DecryptError buf)
    else Ret (Decrypted buf work None)
  else if cipher_kt_mode_ofb_cfb c
  then
    _ ← c_assert (dc_packet_id_initialized dc);
    b ← buf_set_read iv;
    '(_, pin, ok) ← packet_id_read b true;
    Ret (if ok : bool then Decrypted buf work (Some pin) else DecryptError buf)
  else Fatal.

Definition decrypt_v1_cipher (dc : data_channel) (f : frame) (c : cipher_ctx) (buf work : buffer)
  : outcome decrypted :=
  let iv_size := c_iv_length c in
  let '(work, ok) := buf_init work (FRAME_HEADROOM_ADJ f FRAME_HEADROOM_MARKER_DECRYPT) in
  _ ← c_assert ok;
  if len buf <? iv_size then Ret (DecryptError buf)
  else if OPENVPN_MAX_IV_LENGTH <? iv_size then Oob
  else
    p ← bptr buf;
    iv ← buf_load buf p iv_size;
    let '(buf, ok) := buf_advance buf iv_size in
    _ ← c_assert ok;
    if len buf <? 1 then Ret (DecryptError buf)
    else if negb (c_reset c iv) then Ret (DecryptError buf)
    else if negb (buf_safe work (len buf + c_block_size c)) then Ret (DecryptError buf)
    else
      input ← buf_contents buf;
      match c_update c iv [] input with
      | None => Ret (DecryptError buf)
      | Some out =>
          w ← bptr work;
          work ← cipher_put work w out;
          match c_final c iv [] input with
          | None => Ret (DecryptError buf)
          | Some out' =>
              w ← bptr work;
              work ← cipher_put work (w + zlen out) out';
              decrypt_v1_pin dc c iv buf work
          end
      end.

Definition decrypt_v1_plain (dc : data_channel) (buf : buffer) : outcome decrypted :=
  if dc_packet_id_initialized dc
  then '(work, pin, ok) ← packet_id_read buf (co_long_form (dc_opt dc));
       Ret (if ok : bool
            then Decrypted buf work (if dc_ignore_packet_id dc then None else Some pin)
            else DecryptError buf)
  else Ret (Decrypted buf buf None).

Definition openvpn_decrypt_v1 (now : Z) (dc : data_channel) (f : frame) (buf work : buffer)
  : outcome (data_channel * buffer * bool) :=
  if 0 <? len buf
  then
    let ctx := dc_decrypt dc in
    r ← decrypt_v1_hmac ctx buf;
    match r with
    | None => Ret (dc, set_len buf 0, false)
    | Some buf =>
        d ← (match k_cipher ctx with
             | Some c => decrypt_v1_cipher dc f c buf work
             | None => decrypt_v1_plain dc buf
             end);
        match d with
        | DecryptError buf => Ret (dc, set_len buf 0, false)
        | Decrypted _ work None => Ret (dc, work, true)
        | Decrypted buf work (Some pin) =>
            '(opt, ok) ← crypto_check_replay now (dc_opt dc) pin;
            if ok : bool then Ret (set_opt dc opt, work, true)
            else Ret (set_opt dc opt, set_len buf 0, false)
        end
    end
  else Ret (dc, buf, true).

Definition openvpn_decrypt (now : Z) (dc : data_channel) (f : frame) (buf work : buffer) (ad_start : Z)
  : outcome (data_channel * buffer * bool) :=
  if 0 <? len buf
  then
    if cipher_kt_mode_aead (k_cipher (dc_decrypt dc))
    then openvpn_decrypt_aead now dc f buf work ad_start
    else openvpn_decrypt_v1 now dc f buf work
  else Ret (dc, buf, true).
