(* ===== verification/CryptoSpec.v ===== *)
(** * Properties of the protection of data packets

    [CipherPair] and [HmacOk] say what is expected of the library: decryption
    undoes encryption and the outputs have the documented sizes.  [DecryptSafe] is
    what holds of decryption on arbitrary input.  Against these interfaces a packet
    that was encrypted is recovered, and a packet that does not verify leaves no
    trace in the receiver. *)
From S2P Require Import Prelude Integer Buffer PacketId PacketIdSpec Mtu Crypto.

(** ** What is expected of the library *)

(** [d] decrypts what [e] encrypts: the calls succeed, the output is never empty
    and at most a block longer than the input, the last block of CBC is complete,
    the tag has its size and verifies, and the input comes back. *)
Class CipherPair (e d : cipher_ctx) : Prop := {
  cp_mode : c_mode d = c_mode e;
  cp_iv : c_iv_length d = c_iv_length e;
  cp_iv_range : 0 <= c_iv_length e <= OPENVPN_MAX_IV_LENGTH;
  cp_block : c_block_size d = c_block_size e;
  cp_block_range : 0 <= c_block_size e <= OPENVPN_MAX_CIPHER_BLOCK_SIZE;
  cp_reset iv : zlen iv = c_iv_length e -> c_reset e iv = true /\ c_reset d iv = true;
  cp_ad iv ad : c_update_ad e iv ad = true /\ c_update_ad d iv ad = true;
  cp_round iv ad p :
    p <> [] -> Forall is_u8 p ->
    exists u f u' f',
      c_update e iv ad p = Some u /\ c_final e iv ad p = Some f /\
      1 <= zlen u + zlen f <= zlen p + c_block_size e /\
      zlen p <= zlen u + zlen f + c_block_size e /\
      (c_mode e = MODE_CBC -> zlen f = c_iv_length e) /\
      c_update d iv ad (u ++ f) = Some u' /\ u' ++ f' = p /\
      (c_mode e <> MODE_AEAD -> c_final d iv ad (u ++ f) = Some f') /\
      (c_mode e = MODE_AEAD ->
       exists t, c_get_tag e iv ad p = Some t /\ zlen t = OPENVPN_AEAD_TAG_LENGTH /\
         c_final_check_tag d iv ad (u ++ f) t = Some f')
}.

(** Decryption of anything: the calls that are asserted succeed, and no more than
    a block beyond the input is produced. *)
Class DecryptSafe (d : cipher_ctx) : Prop := {
  ds_iv_range : 0 <= c_iv_length d <= OPENVPN_MAX_IV_LENGTH;
  ds_block_range : 0 <= c_block_size d <= OPENVPN_MAX_CIPHER_BLOCK_SIZE;
  ds_ad iv ad : c_update_ad d iv ad = true;
  ds_update iv ad x u : c_update d iv ad x = Some u -> zlen u <= zlen x + c_block_size d;
  ds_final iv ad x u f :
    c_update d iv ad x = Some u -> c_final d iv ad x = Some f -> zlen u + zlen f <= zlen x + c_block_size d;
  ds_check iv ad x u f t :
    c_update d iv ad x = Some u -> c_final_check_tag d iv ad x t = Some f ->
    zlen u + zlen f <= zlen x + c_block_size d;
  ds_update_bytes iv ad x u : c_update d iv ad x = Some u -> Forall is_u8 u;
  ds_final_bytes iv ad x f : c_final d iv ad x = Some f -> Forall is_u8 f
}.

(** An HMAC has its size, which is at most that of the local array. *)
Class HmacOk (h : hmac_ctx) : Prop := {
  hm_size x : zlen (hmac_of h x) = hmac_ctx_size h;
  hm_max : hmac_ctx_size h <= MAX_HMAC_KEY_LENGTH
}.

(** ** Buffers *)

Lemma buf_write_alloc_conc pre c post n :
  fits pre c post -> 0 <= n <= zlen post ->
  buf_write_alloc (conc pre c post) n =
    (conc pre (c ++ ztake n post) (zdrop n post), Some (zlen pre + zlen c)).
Proof.
  intros HF Hn. unfold buf_write_alloc, buf_safe. rewrite buf_valid_conc, buf_bptr_conc.
  unfold fits, BUF_SIZE_MAX in *. zlen_facts. cbn [capacity offset len conc].
  rewrite buf_size_valid_iff by lia. unfold BUF_SIZE_MAX. bdecide. cbv iota.
  unfold set_len. cbn [capacity offset len data conc]. f_equal.
  apply mkbuffer_conc; [zlia..|]. by rewrite <- app_assoc, ztake_zdrop.
Qed.

Lemma buf_safe_conc pre c post n :
  fits pre c post -> 0 <= n <= zlen post -> buf_safe (conc pre c post) n = true.
Proof.
  intros HF Hn. unfold buf_safe. rewrite buf_valid_conc. unfold fits, BUF_SIZE_MAX in *. zlen_facts.
  cbn [capacity offset len conc]. rewrite buf_size_valid_iff by lia. unfold BUF_SIZE_MAX. by bdecide.
Qed.

Lemma buf_safe_room pre c post n :
  fits pre c post -> 0 <= n -> buf_safe (conc pre c post) n = true -> n <= zlen post.
Proof.
  intros HF Hn. unfold buf_safe. cbn [capacity offset len conc]. intros H. breflect. zlen_facts. lia.
Qed.

Lemma set_len_0_conc pre c post :
  exists pre' post', set_len (conc pre c post) 0 = conc pre' [] post'.
Proof.
  exists pre, (c ++ post). unfold set_len. cbn [capacity offset data conc].
  apply mkbuffer_conc; [zlia..|done].
Qed.

(** Bytes produced at the end of the content. *)
Lemma cipher_put_conc pre c post out pos :
  fits pre c post -> zlen out <= zlen post -> pos = zlen pre + zlen c ->
  cipher_put (conc pre c post) pos out = Ret (conc pre (c ++ out) (zdrop (zlen out) post)).
Proof.
  intros HF Ho ->. unfold cipher_put, buf_store. cbn [data conc capacity offset len].
  rewrite (store_eq _ (pre ++ c) (ztake (zlen out) post) (zdrop (zlen out) post));
    [|by rewrite <- app_assoc, ztake_zdrop|by rewrite zlen_app|zlia].
  cbn [mbind outcome_mbind]. unfold buf_inc_len, buf_safe_bidir, buf_valid, buf_size_valid_signed.
  unfold fits, BUF_SIZE_MAX in *. zlen_facts. cbn [buf_defined data len offset capacity andb]. bdecide.
  cbn [c_assert mbind outcome_mbind]. unfold set_len. cbn [capacity offset data len]. f_equal.
  apply mkbuffer_conc; [zlia..|]. by rewrite <- !app_assoc.
Qed.

(** Bytes stored over others inside the content. *)
Lemma buf_store_inside pre c1 old c2 post src pos :
  pos = zlen pre + zlen c1 -> zlen src = zlen old ->
  buf_store (conc pre (c1 ++ old ++ c2) post) pos src = Ret (conc pre (c1 ++ src ++ c2) post).
Proof.
  intros -> Hl. unfold buf_store. cbn [data conc].
  rewrite (store_eq _ (pre ++ c1) old (c2 ++ post)); [|by rewrite <- !app_assoc|by rewrite zlen_app|done].
  cbn [mbind outcome_mbind]. f_equal. apply mkbuffer_conc; cbn [capacity offset len conc]; [zlia..|].
  by rewrite <- !app_assoc.
Qed.

Lemma buf_load_inside pre c c1 x c2 post pos n :
  c = c1 ++ x ++ c2 -> pos = zlen pre + zlen c1 -> n = zlen x ->
  buf_load (conc pre c post) pos n = Ret x.
Proof.
  intros -> -> ->. unfold buf_load. cbn [data conc].
  apply (load_eq _ (pre ++ c1) x (c2 ++ post)); [by rewrite <- !app_assoc|by rewrite zlen_app|done].
Qed.

Lemma buf_load_object pre c post l1 x l2 pos n :
  pre ++ c ++ post = l1 ++ x ++ l2 -> pos = zlen l1 -> n = zlen x ->
  buf_load (conc pre c post) pos n = Ret x.
Proof. intros E -> ->. unfold buf_load. cbn [data conc]. by apply (load_eq _ l1 x l2). Qed.

Lemma buf_set_write_zeros n :
  0 <= n < BUF_SIZE_MAX ->
  buf_set_write (replicate (Z.to_nat n) 0) = Ret (conc [] [] (replicate (Z.to_nat n) 0)).
Proof.
  intros Hn. unfold buf_set_write, BUF_SIZE_MAX in *. autorewrite with zlen.
  rewrite buf_size_valid_iff by lia. unfold BUF_SIZE_MAX. bdecide.
  rewrite Z2Nat.id by lia. destruct (0 <? n) eqn:E; breflect.
  - destruct (Z.to_nat n) eqn:En; [lia|]. cbn [replicate]. unfold buf_store. cbn [data].
    rewrite (store_eq _ [] [0] (replicate n0 0)) by done. cbn [mbind outcome_mbind]. f_equal.
    apply mkbuffer_conc; cbn [capacity offset len app]; [zlia..|done].
  - assert (n = 0) as -> by lia. done.
Qed.

(** ** Packet numbers *)

Definition pid_bytes (p : packet_id_send) (lf : bool) : list Z :=
  be_bytes 4 (send_id p) ++ (if lf then be_bytes 4 (u32 (send_time p)) else []).

Lemma zlen_pid_bytes p lf : zlen (pid_bytes p lf) = packet_id_size lf.
Proof. unfold pid_bytes, packet_id_size. destruct lf; zlia. Qed.

Lemma pid_bytes_u8 p lf : Forall is_u8 (pid_bytes p lf).
Proof. unfold pid_bytes. apply Forall_app. split; [apply be_bytes_u8|]. destruct lf; [apply be_bytes_u8|constructor]. Qed.

Lemma packet_id_read_pid pre p lf c post :
  is_u32 (send_id p) ->
  packet_id_read (conc pre (pid_bytes p lf ++ c) post) lf =
    Ret (conc (pre ++ pid_bytes p lf) c post, net_of_send p lf, true).
Proof. apply packet_id_read_front. Qed.

Lemma packet_id_write_prepend now p p' lf pre c post :
  packet_id_send_update now p lf = (p', true) -> packet_id_size lf <= zlen pre ->
  packet_id_write now p (conc pre c post) lf true =
    Ret (p', conc (ztake (zlen pre - packet_id_size lf) pre) (pid_bytes p' lf ++ c) post, true).
Proof.
  intros Hu Hr. unfold packet_id_write. rewrite Hu. unfold pid_bytes, packet_id_size in *. destruct lf.
  - rewrite buf_write_prepend_conc, zlen_be_bytes. bdecide. cbn [mbind outcome_mbind].
    rewrite buf_write_prepend_conc, zlen_be_bytes, zlen_ztake. bdecide. cbn [mbind outcome_mbind].
    rewrite <- (app_assoc (be_bytes 4 _)). unfold ztake. rewrite take_take. do 5 f_equal. zlen_facts. lia.
  - cbn [mbind outcome_mbind]. rewrite buf_write_prepend_conc, zlen_be_bytes. bdecide.
    cbn [mbind outcome_mbind]. rewrite app_nil_r. do 5 f_equal.
Qed.

Lemma packet_id_write_append now p p' lf pre c post :
  packet_id_send_update now p lf = (p', true) -> fits pre c post -> packet_id_size lf <= zlen post ->
  packet_id_write now p (conc pre c post) lf false =
    Ret (p', conc pre (c ++ pid_bytes p' lf) (zdrop (packet_id_size lf) post), true).
Proof.
  intros Hu HF Hr. unfold packet_id_write. rewrite Hu. unfold pid_bytes, packet_id_size in *. destruct lf.
  - rewrite buf_write_fits by (rewrite ?zlen_be_bytes; done || lia). cbn [mbind outcome_mbind].
    rewrite buf_write_fits;
      [|unfold fits in *; autorewrite with zlen; zlen_facts; lia|autorewrite with zlen; zlen_facts; lia].
    cbn [mbind outcome_mbind]. rewrite <- app_assoc, !zlen_be_bytes, zdrop_zdrop by lia. done.
  - rewrite buf_write_fits by (rewrite ?zlen_be_bytes; done || lia). cbn [mbind outcome_mbind].
    by rewrite app_nil_r, zlen_be_bytes.
Qed.

Lemma send_update_u32 now p lf p' :
  packet_id_send_update now p lf = (p', true) -> is_u32 (send_id p').
Proof.
  unfold packet_id_send_update. destruct (send_time p =? 0), (_ =? PACKET_ID_MAX);
    try destruct (_ || _); intros [= <-]; cbn; auto with vpn.
Qed.

(** ** AEAD packets *)

Section Aead.
Context (e d : cipher_ctx) (imp : list Z).
Context `{!CipherPair e d}.
Hypothesis Hmode : c_mode e = MODE_AEAD.
Hypothesis Hiv : c_iv_length e = 4 + zlen imp.
Hypothesis Himp : OPENVPN_AEAD_MIN_IV_LEN <= c_iv_length e.

Lemma aead_mode_e : cipher_kt_mode_aead (Some e) = true.
Proof using Hmode. unfold cipher_kt_mode_aead. by rewrite Hmode. Qed.

Lemma aead_mode_d : cipher_kt_mode_aead (Some d) = true.
Proof using Hmode CipherPair0. unfold cipher_kt_mode_aead. by rewrite (cp_mode (e := e)), Hmode. Qed.

(** The packet: number, tag and ciphertext behind what the work buffer held. *)
Lemma encrypt_aead_spec now s hm send' bpre p bpost wpre hd wpost u f t :
  dc_encrypt s = mkkey (Some e) hm imp -> dc_packet_id_initialized s = true ->
  packet_id_send_update now (dc_send s) false = (send', true) ->
  let id := be_bytes 4 (send_id send') in
  fits wpre hd wpost -> 4 + OPENVPN_AEAD_TAG_LENGTH + zlen p + c_block_size e <= zlen wpost ->
  c_update e (id ++ imp) (hd ++ id) p = Some u -> c_final e (id ++ imp) (hd ++ id) p = Some f ->
  zlen u + zlen f <= zlen p + c_block_size e ->
  c_get_tag e (id ++ imp) (hd ++ id) p = Some t -> zlen t = OPENVPN_AEAD_TAG_LENGTH ->
  exists wpost',
    openvpn_encrypt_aead now s (conc bpre p bpost) (conc wpre hd wpost) =
      Ret (set_send s send', conc wpre (hd ++ id ++ t ++ u ++ f) wpost').
Proof using Hmode Hiv Himp CipherPair0.
  intros Hk Hinit Hsend id HF Hroom Hu Hf Hlen Ht Htl.
  assert (Hid : zlen id = 4) by (unfold id; by rewrite zlen_be_bytes).
  pose proof (cp_iv_range (e := e)) as Hivr. pose proof (cp_block_range (e := e)) as Hblk. unfold OPENVPN_MAX_CIPHER_BLOCK_SIZE in Hblk.
  unfold OPENVPN_AEAD_MIN_IV_LEN, OPENVPN_MAX_IV_LENGTH, OPENVPN_AEAD_TAG_LENGTH in *. zlen_facts.
  unfold openvpn_encrypt_aead. rewrite Hk. cbn [k_cipher k_implicit_iv must mbind outcome_mbind].
  unfold cipher_kt_tag_size. rewrite aead_mode_e, Hinit. cbn [c_assert mbind outcome_mbind].
  unfold OPENVPN_AEAD_MIN_IV_LEN, OPENVPN_MAX_IV_LENGTH, OPENVPN_AEAD_TAG_LENGTH. bdecide.
  cbn [c_assert mbind outcome_mbind]. rewrite buf_set_write_zeros by (unfold BUF_SIZE_MAX; lia).
  cbn [mbind outcome_mbind]. set (zs := replicate _ 0).
  assert (Hzs : zlen zs = 4 + zlen imp) by (unfold zs; autorewrite with zlen; lia).
  rewrite (packet_id_write_append now _ send' false [] [] zs) by
    (done || (unfold fits, BUF_SIZE_MAX; autorewrite with zlen; lia) || (unfold packet_id_size; lia)).
  cbn [mbind outcome_mbind negb]. unfold packet_id_size, pid_bytes. rewrite !app_nil_r, Z.add_0_r.
  fold id. change ([] ++ id) with id.
  rewrite buf_write_fits;
    [|unfold fits, BUF_SIZE_MAX; autorewrite with zlen; lia|autorewrite with zlen; lia].
  cbn [mbind outcome_mbind c_assert]. rewrite !len_conc.
  replace (zlen (id ++ imp)) with (c_iv_length e) by (autorewrite with zlen; lia).
  bdecide. cbn [mbind outcome_mbind c_assert].
  rewrite (buf_load_inside [] (id ++ imp) [] (id ++ imp) [])
    by ((by rewrite app_nil_r) || (autorewrite with zlen; lia)).
  cbn [mbind outcome_mbind].
  rewrite (ztake_app_eq _ id) by lia. rewrite buf_write_fits by (done || lia). cbn [mbind outcome_mbind c_assert].
  rewrite (proj1 (cp_reset (d := d) (id ++ imp) ltac:(autorewrite with zlen; lia))).
  cbn [mbind outcome_mbind c_assert].
  rewrite buf_write_alloc_conc by ((unfold fits in *; autorewrite with zlen; lia) || (autorewrite with zlen; lia)).
  cbn [must mbind outcome_mbind]. set (old := ztake 16 _). set (wp := zdrop 16 _).
  assert (Hold : zlen old = 16) by (unfold old; autorewrite with zlen; lia).
  assert (Hwp : zlen wp = zlen wpost - 20) by (unfold wp; autorewrite with zlen; lia).
  clearbody old wp.
  rewrite buf_safe_conc by ((unfold fits in *; autorewrite with zlen; lia) || lia). cbn [negb].
  rewrite bptr_conc, buf_len_conc, bend_conc, buf_contents_conc. cbn [mbind outcome_mbind].
  rewrite (buf_load_inside wpre _ [] (hd ++ id) old wp) by (done || (autorewrite with zlen; lia)).
  cbn [mbind outcome_mbind app]. rewrite (proj1 (cp_ad (e := e) (d := d) _ _)), Hu, Hf, Ht.
  cbn [mbind outcome_mbind c_assert must].
  rewrite cipher_put_conc by (done || (unfold fits in *; autorewrite with zlen; lia) || lia).
  cbn [mbind outcome_mbind]. rewrite bend_conc. cbn [mbind outcome_mbind].
  rewrite cipher_put_conc by (done || (unfold fits in *; autorewrite with zlen; lia) || (autorewrite with zlen; lia)).
  cbn [mbind outcome_mbind]. rewrite <- !app_assoc.
  rewrite (app_assoc hd id), (buf_store_inside wpre (hd ++ id) old (u ++ f)) by (autorewrite with zlen; lia).
  cbn [mbind outcome_mbind]. rewrite <- app_assoc. by eexists.
Qed.

(** The other direction, on a packet of that form. *)
Lemma decrypt_aead_spec now r hm fr send' opt' rpre hd rpost work u f t u' f' p :
  dc_decrypt r = mkkey (Some d) hm imp -> dc_packet_id_initialized r = true ->
  is_u32 (send_id send') ->
  let id := be_bytes 4 (send_id send') in
  buf_wf work -> 0 <= FRAME_HEADROOM_ADJ fr FRAME_HEADROOM_MARKER_DECRYPT ->
  FRAME_HEADROOM_ADJ fr FRAME_HEADROOM_MARKER_DECRYPT + (zlen u + zlen f) + c_block_size e <= capacity work ->
  1 <= zlen u + zlen f -> zlen p <= zlen u + zlen f + c_block_size e ->
  zlen t = OPENVPN_AEAD_TAG_LENGTH ->
  c_update d (id ++ imp) (hd ++ id) (u ++ f) = Some u' ->
  c_final_check_tag d (id ++ imp) (hd ++ id) (u ++ f) t = Some f' -> u' ++ f' = p ->
  crypto_check_replay now (dc_opt r) (mknet (send_id send') 0) = Ret (opt', true) ->
  exists b, openvpn_decrypt_aead now r fr (conc (rpre ++ hd) (id ++ t ++ u ++ f) rpost) work (zlen rpre) =
      Ret (set_opt r opt', b, true) /\ content b = p /\ buf_wf b.
Proof using Hmode Hiv Himp CipherPair0.
  intros Hk Hinit Hid32 id Hwf Hhr Hroom Hct Hp Htl Hu Hf Hup Hreplay.
  assert (Hid : zlen id = 4) by (unfold id; by rewrite zlen_be_bytes).
  pose proof (cp_iv_range (e := e)) as Hivr. pose proof (cp_block_range (e := e)) as Hblk. unfold OPENVPN_MAX_CIPHER_BLOCK_SIZE in Hblk.
  pose proof (cp_iv (e := e) (d := d)) as Hivd. pose proof (cp_block (e := e) (d := d)) as Hbd.
  unfold OPENVPN_AEAD_MIN_IV_LEN, OPENVPN_MAX_IV_LENGTH, OPENVPN_AEAD_TAG_LENGTH in *. zlen_facts.
  wf_destruct Hwf. cbn [capacity conc] in Hroom. set (hr := FRAME_HEADROOM_ADJ _ _) in *.
  unfold openvpn_decrypt_aead. rewrite Hk. cbn [k_cipher k_implicit_iv must mbind outcome_mbind].
  rewrite len_conc. autorewrite with zlen. bdecide. cbn [c_assert mbind outcome_mbind].
  rewrite aead_mode_d. cbn [c_assert mbind outcome_mbind]. rewrite bptr_conc. cbn [mbind outcome_mbind].
  autorewrite with zlen. bdecide. cbn [c_assert mbind outcome_mbind]. fold hr. rewrite buf_init_conc.
  bdecide. cbn [c_assert mbind outcome_mbind]. rewrite Hinit. cbn [c_assert mbind outcome_mbind].
  rewrite Hivd. bdecide. cbn [c_assert mbind outcome_mbind].
  set (wpre := ztake hr _). set (wpost := zdrop hr _).
  assert (Hw : zlen wpre + zlen wpost = zlen pre + zlen c + zlen post /\ zlen wpre = hr).
  { unfold wpre, wpost. autorewrite with zlen. lia. }
  clearbody wpre wpost. unfold fits in F.
  rewrite (buf_load_inside (rpre ++ hd) _ [] id (t ++ u ++ f)) by (done || (autorewrite with zlen; lia)).
  cbn [mbind outcome_mbind]. unfold OPENVPN_MAX_IV_LENGTH. bdecide.
  rewrite (proj2 (cp_reset (e := e) (d := d) (id ++ imp) ltac:(autorewrite with zlen; lia))). cbn [negb].
  pose proof (packet_id_read_front (rpre ++ hd) send' false (t ++ u ++ f) rpost Hid32) as Hread.
  fold id in Hread. rewrite app_nil_r in Hread. rewrite Hread. clear Hread. cbn [mbind outcome_mbind negb].
  unfold cipher_kt_tag_size. rewrite aead_mode_d. unfold OPENVPN_AEAD_TAG_LENGTH.
  rewrite len_conc. autorewrite with zlen. bdecide. rewrite !bptr_conc. cbn [mbind outcome_mbind].
  rewrite buf_advance_conc. autorewrite with zlen. bdecide. cbn [c_assert mbind outcome_mbind].
  rewrite (ztake_app_eq 16 t), (zdrop_app_eq 16 t), len_conc, Hbd by lia. autorewrite with zlen. bdecide.
  rewrite buf_safe_conc by ((unfold fits; autorewrite with zlen; lia) || lia). cbn [negb].
  rewrite !bptr_conc, buf_contents_conc. cbn [mbind outcome_mbind]. autorewrite with zlen.
  rewrite (buf_load_object _ _ _ rpre (hd ++ id) (t ++ (u ++ f) ++ rpost) (zlen rpre))
    by ((by rewrite <- !app_assoc) || (autorewrite with zlen; lia)).
  cbn [mbind outcome_mbind]. rewrite (proj2 (cp_ad (e := e) (d := d) _ _)), Hu.
  cbn [c_assert mbind outcome_mbind].
  autorewrite with zlen in Hp. zlen_facts.
  rewrite cipher_put_conc by (done || (unfold fits; autorewrite with zlen; lia) || (autorewrite with zlen; lia)).
  cbn [mbind outcome_mbind].
  rewrite (buf_load_object _ _ _ (rpre ++ hd ++ id) t ((u ++ f) ++ rpost))
    by ((by rewrite <- !app_assoc) || (autorewrite with zlen; lia)).
  cbn [mbind outcome_mbind]. rewrite Hf, bptr_conc. cbn [mbind outcome_mbind app].
  rewrite cipher_put_conc by (done || (unfold fits; autorewrite with zlen; lia) || (autorewrite with zlen; lia)).
  cbn [mbind outcome_mbind]. unfold net_of_send. rewrite Hreplay. cbn [mbind outcome_mbind negb].
  eexists. split; [done|]. rewrite content_conc. split; [done|]. apply conc_wf. unfold fits. autorewrite with zlen. lia.
Qed.

End Aead.

(** ** Packets of the other modes *)

(** The form of the packet number, the initialisation vector and the input of the
    cipher. *)
Definition wire_form (c : cipher_ctx) (lf : bool) : bool := if cipher_kt_mode_cbc c then lf else true.

Definition iv_of (c : cipher_ctx) (prng : list Z) (send : packet_id_send) : list Z :=
  if cipher_kt_mode_cbc c then ztake (c_iv_length c) prng
  else pid_bytes send true ++ replicate (Z.to_nat (c_iv_length c - 8)) 0.

Definition input_of (c : cipher_ctx) (send : packet_id_send) (lf : bool) (p : list Z) : list Z :=
  if cipher_kt_mode_cbc c then pid_bytes send lf ++ p else p.

(** The vector fits the mode. *)
Definition v1_mode (c : cipher_ctx) (prng : list Z) : Prop :=
  (c_mode c = MODE_CBC /\ c_iv_length c <= zlen prng) \/
  ((c_mode c = MODE_OFB \/ c_mode c = MODE_CFB) /\ 8 <= c_iv_length c).

Definition mac_of (hm : option hmac_ctx) (x : list Z) : list Z :=
  match hm with Some h => hmac_of h x | None => [] end.
Definition mac_size (hm : option hmac_ctx) : Z :=
  match hm with Some h => hmac_ctx_size h | None => 0 end.
Definition hmac_ok (hm : option hmac_ctx) : Prop := match hm with Some h => HmacOk h | None => True end.

Lemma zlen_mac_of hm x : hmac_ok hm -> zlen (mac_of hm x) = mac_size hm.
Proof. destruct hm; [intros []; cbn; auto|done]. Qed.

Lemma mac_size_range hm : hmac_ok hm -> 0 <= mac_size hm <= MAX_HMAC_KEY_LENGTH.
Proof.
  intros H. rewrite <- (zlen_mac_of hm []) by done. split; [apply zlen_nonneg|].
  rewrite zlen_mac_of by done. unfold MAX_HMAC_KEY_LENGTH. destruct hm as [h|]; cbn; [|lia].
  apply (hm_max (HmacOk := H)).
Qed.

Section V1.
Context (e d : cipher_ctx).
Context `{!CipherPair e d}.
Context (hm : option hmac_ctx).
Hypothesis Hhm : hmac_ok hm.

Lemma v1_mode_cbc prng : v1_mode e prng -> cipher_kt_mode_cbc e = true -> c_mode e = MODE_CBC /\ c_iv_length e <= zlen prng.
Proof using. unfold cipher_kt_mode_cbc. intros [?|[Hm ?]] Hc; breflect; [done|]. destruct Hm; congruence. Qed.

Lemma v1_mode_ofb prng :
  v1_mode e prng -> cipher_kt_mode_cbc e = false ->
  cipher_kt_mode_ofb_cfb e = true /\ 8 <= c_iv_length e /\ c_mode e <> MODE_CBC /\ c_mode e <> MODE_AEAD.
Proof using.
  unfold cipher_kt_mode_cbc, cipher_kt_mode_ofb_cfb. intros [[? ?]|[[Hm|Hm] ?]] Hc; breflect; [done|..];
    rewrite Hm; repeat split; try done.
Qed.

Lemma v1_mode_not_aead prng : v1_mode e prng -> c_mode e <> MODE_AEAD.
Proof using. intros [[-> _]|[[->| ->] _]]; done. Qed.

Lemma zlen_iv_of prng send : v1_mode e prng -> zlen (iv_of e prng send) = c_iv_length e.
Proof using CipherPair0.
  intros Hv. pose proof (cp_iv_range (e := e)) as Hr. unfold iv_of.
  destruct (cipher_kt_mode_cbc e) eqn:E.
  - destruct (v1_mode_cbc _ Hv E). autorewrite with zlen. lia.
  - destruct (v1_mode_ofb _ Hv E) as (_ & H8 & _).
    rewrite zlen_app, zlen_pid_bytes. unfold packet_id_size. autorewrite with zlen. lia.
Qed.

Lemma encrypt_v1_iv_spec now prng s send' bpre p bpost :
  v1_mode e prng -> dc_packet_id_initialized s = true ->
  packet_id_send_update now (dc_send s) (wire_form e (co_long_form (dc_opt s))) = (send', true) ->
  8 <= zlen bpre ->
  exists bpre', encrypt_v1_iv now prng s e (conc bpre p bpost) =
    Ret (set_send s send', conc bpre' (input_of e send' (co_long_form (dc_opt s)) p) bpost,
         iv_of e prng send', true).
Proof using CipherPair0.
  intros Hv Hinit Hsend Hpre. pose proof (cp_iv_range (e := e)) as Hr.
  unfold encrypt_v1_iv, iv_of, input_of, wire_form in *. destruct (cipher_kt_mode_cbc e) eqn:E.
  - rewrite Hinit. rewrite (packet_id_write_prepend now _ send') by
      (done || (unfold packet_id_size; destruct (co_long_form _); lia)).
    cbn [mbind outcome_mbind]. by eexists.
  - destruct (v1_mode_ofb _ Hv E) as (-> & H8 & _). rewrite Hinit. cbn [c_assert mbind outcome_mbind].
    unfold OPENVPN_MAX_IV_LENGTH in Hr.
    rewrite buf_set_write_zeros by (unfold BUF_SIZE_MAX; lia). cbn [mbind outcome_mbind].
    rewrite (packet_id_write_append now _ send' true [] []) by
      (done || (unfold fits, BUF_SIZE_MAX; autorewrite with zlen; lia)
       || (unfold packet_id_size; autorewrite with zlen; lia)).
    cbn [mbind outcome_mbind c_assert app].
    assert (Hz : zdrop (packet_id_size true) (replicate (Z.to_nat (c_iv_length e)) 0) =
      replicate (Z.to_nat (c_iv_length e - 8)) 0).
    { unfold zdrop, packet_id_size. rewrite drop_replicate. f_equal. lia. }
    rewrite Hz. set (zs := replicate _ 0).
    rewrite (buf_load_object [] _ zs [] (pid_bytes send' true ++ zs) []);
      [|by rewrite !app_nil_r|done|].
    + cbn [mbind outcome_mbind]. by eexists.
    + rewrite zlen_app, zlen_pid_bytes. unfold zs, packet_id_size. autorewrite with zlen. lia.
Qed.

Lemma decrypt_v1_pin_spec prng r send' buf wpre p wpost :
  v1_mode e prng -> dc_packet_id_initialized r = true -> is_u32 (send_id send') ->
  exists wpre',
    decrypt_v1_pin r d (iv_of e prng send') buf (conc wpre (input_of e send' (co_long_form (dc_opt r)) p) wpost) =
      Ret (Decrypted buf (conc wpre' p wpost)
             (Some (net_of_send send' (wire_form e (co_long_form (dc_opt r)))))) /\
    zlen wpre' + zlen p = zlen wpre + zlen (input_of e send' (co_long_form (dc_opt r)) p).
Proof using CipherPair0.
  intros Hv Hinit Hid. unfold decrypt_v1_pin.
  replace (cipher_kt_mode_cbc d) with (cipher_kt_mode_cbc e)
    by (unfold cipher_kt_mode_cbc; by rewrite (cp_mode (e := e) (d := d))).
  replace (cipher_kt_mode_ofb_cfb d) with (cipher_kt_mode_ofb_cfb e)
    by (unfold cipher_kt_mode_ofb_cfb; by rewrite (cp_mode (e := e) (d := d))).
  unfold iv_of, input_of, wire_form. destruct (cipher_kt_mode_cbc e) eqn:E; rewrite Hinit.
  - rewrite packet_id_read_pid by done. cbn [mbind outcome_mbind]. eexists. split; [done|]. rewrite !zlen_app. lia.
  - destruct (v1_mode_ofb _ Hv E) as (-> & H8 & _). cbn [c_assert mbind outcome_mbind].
    pose proof (cp_iv_range (e := e)) as Hr. unfold OPENVPN_MAX_IV_LENGTH in Hr.
    set (zs := replicate _ 0). unfold buf_set_read, BUF_SIZE_MAX.
    assert (Hl : zlen (pid_bytes send' true ++ zs) = c_iv_length e).
    { rewrite zlen_app, zlen_pid_bytes. unfold zs, packet_id_size. autorewrite with zlen. lia. }
    rewrite Hl, buf_size_valid_iff by lia. unfold BUF_SIZE_MAX. bdecide. cbn [mbind outcome_mbind].
    rewrite (mkbuffer_conc _ _ _ _ [] (pid_bytes send' true ++ zs) []);
      [|autorewrite with zlen in *; lia|done|done|by rewrite app_nil_r].
    rewrite packet_id_read_pid by done. cbn [mbind outcome_mbind]. by eexists.
Qed.

(** Where the HMAC starts and where it goes. *)
Definition mac_at (pos : Z) : option (Z * Z) :=
  match hm with Some h => Some (pos + hmac_ctx_size h, pos) | None => None end.

Lemma put_hmac_spec c imp wpre hd old x wpost :
  zlen old = mac_size hm ->
  put_hmac (mkkey c hm imp) (conc wpre (hd ++ old ++ x) wpost) (mac_at (zlen wpre + zlen hd)) =
    Ret (conc wpre (hd ++ mac_of hm x ++ x) wpost).
Proof using Hhm.
  intros Hold. unfold put_hmac, mac_at, mac_of, mac_size in *. cbn [k_hmac].
  destruct hm as [h|]; [|by rewrite (zlen_0_nil old)]. rewrite bend_conc. cbn [mbind outcome_mbind].
  autorewrite with zlen. zlen_facts.
  rewrite (buf_load_object _ _ _ (wpre ++ hd ++ old) x wpost)
    by ((by rewrite <- !app_assoc) || (autorewrite with zlen; lia)).
  cbn [mbind outcome_mbind]. apply buf_store_inside; [done|]. by rewrite (hm_size (HmacOk := Hhm)).
Qed.

Lemma reserve_hmac s imp c wpre hd wpost :
  dc_encrypt s = mkkey c hm imp -> fits wpre hd wpost -> mac_size hm <= zlen wpost ->
  exists old wp, wpost = old ++ wp /\ zlen old = mac_size hm /\
    match k_hmac (dc_encrypt s) with
    | Some h =>
        let '(work, mac_out) := buf_write_alloc (conc wpre hd wpost) (hmac_ctx_size h) in
        mac_out ← must mac_out;
        hmac_start ← bend work;
        Ret (work, Some (hmac_start, mac_out))
    | None => Ret (conc wpre hd wpost, None)
    end = Ret (conc wpre (hd ++ old) wp, mac_at (zlen wpre + zlen hd)).
Proof using Hhm.
  intros -> HF Hr. cbn [k_hmac]. pose proof (mac_size_range hm Hhm) as Hm.
  unfold mac_size, mac_at in *. destruct hm as [h|].
  - exists (ztake (hmac_ctx_size h) wpost), (zdrop (hmac_ctx_size h) wpost).
    split; [by rewrite ztake_zdrop|]. split; [autorewrite with zlen; lia|].
    rewrite buf_write_alloc_conc by (done || lia). cbn [must mbind outcome_mbind]. rewrite bend_conc.
    cbn [mbind outcome_mbind]. autorewrite with zlen. zlen_facts. do 4 f_equal. lia.
  - exists [], wpost. by rewrite app_nil_r.
Qed.

Lemma encrypt_v1_cipher_spec now prng s imp send' bpre p bpost wpre hd wpost u f :
  v1_mode e prng -> dc_encrypt s = mkkey (Some e) hm imp -> dc_packet_id_initialized s = true ->
  packet_id_send_update now (dc_send s) (wire_form e (co_long_form (dc_opt s))) = (send', true) ->
  8 <= zlen bpre -> fits wpre hd wpost ->
  mac_size hm + c_iv_length e + 8 + zlen p + c_block_size e <= zlen wpost ->
  let iv := iv_of e prng send' in
  let x := input_of e send' (co_long_form (dc_opt s)) p in
  c_update e iv [] x = Some u -> c_final e iv [] x = Some f ->
  zlen u + zlen f <= zlen x + c_block_size e -> (c_mode e = MODE_CBC -> zlen f = c_iv_length e) ->
  exists old wpost',
    zlen old = mac_size hm /\
    encrypt_v1_cipher now prng s e (conc bpre p bpost) (conc wpre hd wpost) =
      Ret (set_send s send', Encrypted (conc wpre (hd ++ old ++ iv ++ u ++ f) wpost') (mac_at (zlen wpre + zlen hd))).
Proof using Hhm CipherPair0.
  intros Hv Hk Hinit Hsend Hpre HF Hroom iv x Hu Hf Hlen Hcbc.
  pose proof (cp_iv_range (e := e)) as Hivr. pose proof (cp_block_range (e := e)) as Hblk. unfold OPENVPN_MAX_CIPHER_BLOCK_SIZE in Hblk.
  pose proof (mac_size_range hm Hhm) as Hm.
  assert (Hx : zlen x <= 8 + zlen p).
  { unfold x, input_of. destruct (cipher_kt_mode_cbc e); [|lia]. rewrite zlen_app, zlen_pid_bytes.
    unfold packet_id_size. destruct (co_long_form _); lia. }
  assert (Hivl : zlen iv = c_iv_length e) by (by apply zlen_iv_of). zlen_facts.
  destruct (reserve_hmac s imp (Some e) wpre hd wpost Hk HF) as (old & wp & -> & Hold & E1); [lia|].
  autorewrite with zlen in Hroom. unfold fits in HF. autorewrite with zlen in HF.
  destruct (encrypt_v1_iv_spec now prng s send' bpre p bpost Hv Hinit Hsend Hpre) as (bpre' & E2).
  exists old. unfold encrypt_v1_cipher. rewrite E1. cbn [mbind outcome_mbind]. rewrite E2.
  cbn [mbind outcome_mbind negb]. fold iv x. zlen_facts.
  rewrite buf_write_fits by ((unfold fits; autorewrite with zlen; lia) || lia). cbn [c_assert mbind outcome_mbind].
  rewrite (proj1 (cp_reset (e := e) (d := d) iv Hivl)). cbn [c_assert mbind outcome_mbind]. rewrite len_conc.
  rewrite buf_safe_conc by ((unfold fits; autorewrite with zlen; lia) || (autorewrite with zlen; lia)).
  cbn [negb]. rewrite buf_contents_conc. cbn [mbind outcome_mbind]. rewrite Hu, bend_conc.
  cbn [must mbind outcome_mbind].
  rewrite cipher_put_conc by (done || (unfold fits; autorewrite with zlen; lia) || (autorewrite with zlen; lia)).
  cbn [mbind outcome_mbind]. rewrite Hf, bend_conc. cbn [must mbind outcome_mbind].
  rewrite cipher_put_conc by (done || (unfold fits; autorewrite with zlen; lia) || (autorewrite with zlen; lia)).
  cbn [mbind outcome_mbind].
  replace (negb (bool_decide (c_mode e = MODE_CBC)) || (zlen f =? c_iv_length e)) with true.
  - cbn [c_assert mbind outcome_mbind]. eexists. split; [done|]. by rewrite <- !app_assoc.
  - symmetry. apply orb_true_iff. case_bool_decide; [right; apply Z.eqb_eq; auto|by left].
Qed.

Lemma memcmp_same l : memcmp_constant_time l l = 0.
Proof using. induction l as [|x l IH]; [done|]. cbn [memcmp_constant_time]. by rewrite Z.lxor_nilpotent, IH. Qed.

Lemma decrypt_v1_hmac_spec c imp rpre x rpost :
  decrypt_v1_hmac (mkkey c hm imp) (conc rpre (mac_of hm x ++ x) rpost) =
    Ret (Some (conc (rpre ++ mac_of hm x) x rpost)).
Proof using Hhm.
  pose proof (mac_size_range hm Hhm) as Hm. pose proof (zlen_mac_of hm x Hhm) as Hl.
  unfold decrypt_v1_hmac, mac_of, mac_size in *. cbn [k_hmac]. destruct hm as [h|].
  - rewrite len_conc, bptr_conc, buf_len_conc. autorewrite with zlen. zlen_facts. bdecide. cbn [mbind outcome_mbind].
    rewrite (buf_load_inside rpre _ (hmac_of h x) x [] rpost (zlen rpre + hmac_ctx_size h)) by ((by rewrite app_nil_r) || lia).
    cbn [mbind outcome_mbind]. bdecide.
    rewrite (buf_load_inside rpre _ [] (hmac_of h x) x) by (done || (autorewrite with zlen; lia)).
    cbn [mbind outcome_mbind]. rewrite memcmp_same. cbn [negb Z.eqb].
    rewrite buf_advance_conc. autorewrite with zlen. bdecide. cbn [c_assert mbind outcome_mbind].
    by rewrite (ztake_app_eq _ (hmac_of h x)), (zdrop_app_eq _ (hmac_of h x)).
  - by rewrite app_nil_r.
Qed.

Lemma decrypt_v1_cipher_spec prng r fr send' rpre rpost work u f u' f' p :
  v1_mode e prng -> dc_packet_id_initialized r = true -> is_u32 (send_id send') ->
  let iv := iv_of e prng send' in
  let x := input_of e send' (co_long_form (dc_opt r)) p in
  let hr := FRAME_HEADROOM_ADJ fr FRAME_HEADROOM_MARKER_DECRYPT in
  buf_wf work -> 0 <= hr -> hr + (zlen u + zlen f) + c_block_size e <= capacity work ->
  1 <= zlen u + zlen f -> zlen x <= zlen u + zlen f + c_block_size e ->
  c_update d iv [] (u ++ f) = Some u' -> c_final d iv [] (u ++ f) = Some f' -> u' ++ f' = x ->
  exists buf' wb,
    decrypt_v1_cipher r fr d (conc rpre (iv ++ u ++ f) rpost) work =
      Ret (Decrypted buf' wb (Some (net_of_send send' (wire_form e (co_long_form (dc_opt r)))))) /\
    content wb = p /\ buf_wf wb.
Proof using CipherPair0.
  intros Hv Hinit Hid32 iv x hr Hwf Hhr Hroom Hct Hxl Hu Hf Hx.
  pose proof (cp_iv_range (e := e)) as Hivr. pose proof (cp_block_range (e := e)) as Hblk. unfold OPENVPN_MAX_CIPHER_BLOCK_SIZE in Hblk.
  pose proof (cp_iv (e := e) (d := d)) as Hivd. pose proof (cp_block (e := e) (d := d)) as Hbd.
  assert (Hivl : zlen iv = c_iv_length e) by (by apply zlen_iv_of). zlen_facts.
  unfold OPENVPN_MAX_IV_LENGTH in *. apply wf_conc in Hwf as (pre & c & post & -> & F).
  cbn [capacity conc] in Hroom. unfold fits in F. unfold decrypt_v1_cipher. fold hr. rewrite buf_init_conc.
  bdecide. cbn [c_assert mbind outcome_mbind]. rewrite Hivd, Hbd, len_conc. autorewrite with zlen. bdecide.
  unfold OPENVPN_MAX_IV_LENGTH. bdecide.
  set (wpre := ztake hr _). set (wpost := zdrop hr _).
  assert (Hw : zlen wpre + zlen wpost = zlen pre + zlen c + zlen post /\ zlen wpre = hr).
  { unfold wpre, wpost. autorewrite with zlen. lia. }
  clearbody wpre wpost. rewrite !bptr_conc. cbn [mbind outcome_mbind].
  rewrite (buf_load_inside rpre _ [] iv (u ++ f)) by (done || (autorewrite with zlen; lia)).
  cbn [mbind outcome_mbind]. rewrite buf_advance_conc. autorewrite with zlen. bdecide.
  cbn [c_assert mbind outcome_mbind]. rewrite (ztake_app_eq _ iv), (zdrop_app_eq _ iv), len_conc by done.
  autorewrite with zlen. bdecide. rewrite (proj2 (cp_reset (e := e) (d := d) iv Hivl)). cbn [negb].
  rewrite buf_safe_conc by ((unfold fits; autorewrite with zlen; lia) || lia). cbn [negb].
  rewrite buf_contents_conc. cbn [mbind outcome_mbind]. rewrite Hu. cbn [mbind outcome_mbind].
  assert (Hup : zlen u' + zlen f' = zlen x) by (rewrite <- Hx, zlen_app; lia). zlen_facts.
  rewrite cipher_put_conc by (done || (unfold fits; autorewrite with zlen; lia) || (autorewrite with zlen; lia)).
  cbn [mbind outcome_mbind app]. rewrite Hf, bptr_conc. cbn [mbind outcome_mbind].
  rewrite cipher_put_conc by (done || (unfold fits; autorewrite with zlen; lia) || (autorewrite with zlen; lia)).
  cbn [mbind outcome_mbind]. rewrite Hx. subst x.
  destruct (decrypt_v1_pin_spec prng r send' (conc (rpre ++ iv) (u ++ f) rpost) wpre p
    (zdrop (zlen f') (zdrop (zlen u') wpost)) Hv Hinit Hid32) as (wpre' & E & Hl).
  eexists _, _. split; [exact E|]. rewrite content_conc. split; [done|]. apply conc_wf. unfold fits. autorewrite with zlen. lia.
Qed.

(** Without a cipher: the number in front of the packet, both under the HMAC. *)
Lemma encrypt_v1_plain_spec now s imp send' bpre p bpost wpre hd wpost :
  dc_encrypt s = mkkey None hm imp -> dc_packet_id_initialized s = true ->
  packet_id_send_update now (dc_send s) (co_long_form (dc_opt s)) = (send', true) ->
  8 + mac_size hm + zlen hd <= zlen bpre ->
  exists old bpre',
    zlen old = mac_size hm /\
    encrypt_v1_plain now s (conc bpre p bpost) (conc wpre hd wpost) =
      Ret (set_send s send',
           Encrypted (conc bpre' (hd ++ old ++ pid_bytes send' (co_long_form (dc_opt s)) ++ p) bpost)
             (mac_at (zlen bpre' + zlen hd))) /\
    zlen bpre - 8 - mac_size hm - zlen hd <= zlen bpre' <= zlen bpre.
Proof using Hhm.
  intros Hk Hinit Hsend Hroom. pose proof (mac_size_range hm Hhm) as Hm. zlen_facts.
  unfold encrypt_v1_plain. rewrite Hinit, Hk. cbn [k_hmac].
  assert (Hsz : packet_id_size (co_long_form (dc_opt s)) <= 8).
  { unfold packet_id_size. destruct (co_long_form _); lia. }
  assert (Hsz0 : 0 <= packet_id_size (co_long_form (dc_opt s))).
  { unfold packet_id_size. destruct (co_long_form _); lia. }
  rewrite (packet_id_write_prepend now _ send') by (done || lia). cbn [mbind outcome_mbind negb].
  set (bp := ztake _ bpre).
  assert (Hbp : mac_size hm + zlen hd <= zlen bp /\ zlen bpre - 8 <= zlen bp <= zlen bpre) by (unfold bp; autorewrite with zlen; lia).
  clearbody bp. set (y := pid_bytes _ _ ++ p).
  set (bp1 := ztake (zlen bp - mac_size hm) bp). set (old := zdrop (zlen bp - mac_size hm) bp).
  assert (Hbp1 : zlen bp1 = zlen bp - mac_size hm) by (unfold bp1; autorewrite with zlen; lia).
  assert (Hold : zlen old = mac_size hm) by (unfold old; autorewrite with zlen; lia).
  assert (E1 : match hm with
    | Some h => hmac_start ← bptr (conc bp y bpost);
        let '(buf, mac_out) := buf_prepend (conc bp y bpost) (hmac_ctx_size h) in
        mac_out ← must mac_out; Ret (buf, Some (hmac_start, mac_out))
    | None => Ret (conc bp y bpost, None)
    end = Ret (conc bp1 (old ++ y) bpost, mac_at (zlen bp1))).
  { clear Hk. unfold mac_at, mac_size in *. destruct hm as [h|].
    - rewrite bptr_conc. cbn [mbind outcome_mbind]. unfold buf_prepend. rewrite buf_valid_conc.
      change (offset (conc bp y bpost)) with (zlen bp). rewrite len_conc. bdecide.
      assert (E : set_offset_len (conc bp y bpost) (zlen bp - hmac_ctx_size h) (zlen y + hmac_ctx_size h) =
        conc bp1 (old ++ y) bpost).
      { unfold set_offset_len. cbn [capacity data conc]. apply mkbuffer_conc; [autorewrite with zlen; lia..|].
        unfold bp1, old. by rewrite <- app_assoc, (app_assoc (ztake _ _)), ztake_zdrop. }
      rewrite E, buf_bptr_conc. cbn [must mbind outcome_mbind]. do 4 f_equal. lia.
    - assert (old = []) as -> by (by apply zlen_0_nil). unfold bp1. rewrite Z.sub_0_r, ztake_all by lia. done. }
  rewrite E1. cbn [mbind outcome_mbind].
  exists old, (ztake (zlen bp1 - zlen hd) bp1). split; [done|].
  split; [|autorewrite with zlen; lia]. rewrite buf_len_conc, buf_contents_conc. cbn [mbind outcome_mbind].
  rewrite buf_write_prepend_conc. bdecide. cbn [mbind outcome_mbind].
  replace (zlen (ztake (zlen bp1 - zlen hd) bp1) + zlen hd) with (zlen bp1) by (autorewrite with zlen; lia).
  destruct (zlen hd =? 0) eqn:E0; breflect; cbn [negb mbind outcome_mbind]; [|done].
  apply zlen_0_nil in E0. subst hd. rewrite zlen_nil, Z.sub_0_r, ztake_all by lia. done.
Qed.

End V1.

(** ** Round trip *)

(** Key contexts of the two sides that belong together. *)
Inductive suite_ok (prng : list Z) : key_ctx -> key_ctx -> Prop :=
| suite_aead e d hm hm' imp :
    CipherPair e d -> c_mode e = MODE_AEAD -> c_iv_length e = 4 + zlen imp ->
    OPENVPN_AEAD_MIN_IV_LEN <= c_iv_length e ->
    suite_ok prng (mkkey (Some e) hm imp) (mkkey (Some d) hm' imp)
| suite_v1 e d hm imp imp' :
    CipherPair e d -> v1_mode e prng -> hmac_ok hm ->
    suite_ok prng (mkkey (Some e) hm imp) (mkkey (Some d) hm imp')
| suite_plain hm imp imp' :
    hmac_ok hm -> suite_ok prng (mkkey None hm imp) (mkkey None hm imp').

(** Whether the packet number is sent in its long form. *)
Definition number_form (k : key_ctx) (lf : bool) : bool :=
  match k_cipher k with
  | Some c => if cipher_kt_mode_aead (Some c) then false else wire_form c lf
  | None => lf
  end.

Lemma crypto_max_overhead_120 : crypto_max_overhead = 120.
Proof. reflexivity. Qed.

Section Roundtrip.
Context (now rnow : Z) (prng : list Z) (s r : data_channel) (fr : frame) (send' : packet_id_send)
  (opt' : crypto_options) (bpre p bpost wpre hd wpost : list Z).
Hypothesis Hs : dc_packet_id_initialized s = true.
Hypothesis Hr : dc_packet_id_initialized r = true.
Hypothesis Hlf : co_long_form (dc_opt r) = co_long_form (dc_opt s).
Hypothesis Hp : p <> [].
Hypothesis Hp8 : Forall is_u8 p.
Hypothesis Hfw : fits wpre hd wpost.
Hypothesis Hwork : crypto_max_overhead + zlen p <= zlen wpost.
Hypothesis Hbuf : crypto_max_overhead + zlen hd <= zlen bpre.

(** The packet [body] is accepted by the receiver and yields [p], from any buffer
    and with any work buffer that has the room. *)
Definition accepts (body : list Z) : Prop :=
  forall rpre rpost work,
    let hr := FRAME_HEADROOM_ADJ fr FRAME_HEADROOM_MARKER_DECRYPT in
    buf_wf work -> 0 <= hr -> hr + zlen body + OPENVPN_MAX_CIPHER_BLOCK_SIZE <= capacity work ->
    exists b, openvpn_decrypt rnow r fr (conc (rpre ++ hd) body rpost) work (zlen rpre) =
      Ret (set_opt r opt', b, true) /\ content b = p /\ (fits (rpre ++ hd) body rpost -> buf_wf b).

(** And the packet is made, with some of the headroom left in front of it. *)
Definition roundtrips : Prop :=
  exists pre' body post',
    openvpn_encrypt now prng s (conc bpre p bpost) (conc wpre hd wpost) = Ret (set_send s send', conc pre' (hd ++ body) post') /\
    Z.min (zlen wpre) (zlen bpre - crypto_max_overhead - zlen hd) <= zlen pre' <= Z.max (zlen wpre) (zlen bpre) /\
    0 < zlen body <= zlen p + crypto_max_overhead /\ accepts body.

Lemma roundtrip_aead e d hm hm' imp :
  CipherPair e d -> c_mode e = MODE_AEAD -> c_iv_length e = 4 + zlen imp ->
  OPENVPN_AEAD_MIN_IV_LEN <= c_iv_length e ->
  dc_encrypt s = mkkey (Some e) hm imp -> dc_decrypt r = mkkey (Some d) hm' imp ->
  packet_id_send_update now (dc_send s) false = (send', true) ->
  crypto_check_replay rnow (dc_opt r) (net_of_send send' false) = Ret (opt', true) -> roundtrips.
Proof using Hs Hr Hp Hp8 Hfw Hwork.
  intros HC Hm Hiv Hmin Hke Hkd Hsend Hrep. rewrite crypto_max_overhead_120 in Hwork.
  pose proof (cp_block_range (e := e)) as Hblk. unfold OPENVPN_MAX_CIPHER_BLOCK_SIZE in Hblk.
  pose proof (zlen_pos p Hp) as Hp0. set (id := be_bytes 4 (send_id send')).
  destruct (cp_round (e := e) (d := d) (id ++ imp) (hd ++ id) p Hp Hp8)
    as (u & f & u' & f' & Hu & Hf & Hlen & Hpl & _ & Hu' & Hup & _ & Ht).
  destruct (Ht Hm) as (t & Htag & Htl & Hchk). unfold OPENVPN_AEAD_TAG_LENGTH in *. zlen_facts.
  destruct (encrypt_aead_spec e d imp Hm Hiv Hmin now s hm send' bpre p bpost wpre hd wpost u f t)
    as (wpost' & E); [done..|unfold OPENVPN_AEAD_TAG_LENGTH; lia|done|done|lia|done|done|].
  exists wpre, (id ++ t ++ u ++ f), wpost'.
  assert (Hid : zlen id = 4) by (unfold id; by rewrite zlen_be_bytes).
  split; [|split; [lia|split; [rewrite crypto_max_overhead_120; autorewrite with zlen; lia|]]].
  { unfold openvpn_encrypt. rewrite len_conc, Hke. cbn [k_cipher]. rewrite (aead_mode_e e Hm). bdecide. exact E. }
  intros rpre rpost work hr Hwf Hhr Hroom. unfold openvpn_decrypt. rewrite len_conc, Hkd. cbn [k_cipher].
  rewrite (aead_mode_d e d Hm). autorewrite with zlen in *. unfold OPENVPN_MAX_CIPHER_BLOCK_SIZE in Hroom. bdecide.
  destruct (decrypt_aead_spec e d imp Hm Hiv Hmin rnow r hm' fr send' opt' rpre hd rpost work u f t u' f' p) as (b & Eb & Hc & Hwb);
    try done; [by eapply send_update_u32|lia..|]. by exists b.
Qed.

Lemma v1_not_aead e d : CipherPair e d -> v1_mode e prng ->
  cipher_kt_mode_aead (Some e) = false /\ cipher_kt_mode_aead (Some d) = false.
Proof using.
  intros HC Hv. unfold cipher_kt_mode_aead. rewrite (cp_mode (e := e) (d := d)).
  pose proof (v1_mode_not_aead e prng Hv). by rewrite bool_decide_eq_false_2.
Qed.

Lemma roundtrip_v1 e d hm imp imp' :
  CipherPair e d -> v1_mode e prng -> hmac_ok hm ->
  dc_encrypt s = mkkey (Some e) hm imp -> dc_decrypt r = mkkey (Some d) hm imp' ->
  packet_id_send_update now (dc_send s) (wire_form e (co_long_form (dc_opt s))) = (send', true) ->
  crypto_check_replay rnow (dc_opt r) (net_of_send send' (wire_form e (co_long_form (dc_opt s)))) = Ret (opt', true) ->
  roundtrips.
Proof using Hs Hr Hlf Hp Hp8 Hfw Hwork Hbuf.
  intros HC Hv Hhm Hke Hkd Hsend Hrep. rewrite crypto_max_overhead_120 in Hwork, Hbuf.
  pose proof (cp_block_range (e := e)) as Hblk. pose proof (cp_iv_range (e := e)) as Hivr.
  pose proof (mac_size_range hm Hhm) as Hms. destruct (v1_not_aead e d HC Hv) as [Hae Had].
  unfold OPENVPN_MAX_CIPHER_BLOCK_SIZE, OPENVPN_MAX_IV_LENGTH, MAX_HMAC_KEY_LENGTH in *.
  pose proof (zlen_pos p Hp) as Hp0. set (lf := co_long_form (dc_opt s)) in *.
  set (iv := iv_of e prng send'). set (x := input_of e send' lf p).
  assert (Hx : x <> [] /\ Forall is_u8 x /\ zlen p <= zlen x <= zlen p + 8).
  { unfold x, input_of. destruct (cipher_kt_mode_cbc e); [|split; [done|split; [done|lia]]].
    split; [by intros [_ ?]%app_nil|]. split; [apply Forall_app; split; [apply pid_bytes_u8|done]|]. rewrite zlen_app, zlen_pid_bytes. unfold packet_id_size. destruct lf; lia. }
  destruct Hx as (Hxne & Hx8 & Hxl).
  destruct (cp_round (e := e) (d := d) iv [] x Hxne Hx8)
    as (u & f & u' & f' & Hu & Hf & Hlen & Hpl & Hcbc & Hu' & Hup & Hf' & _).
  specialize (Hf' (v1_mode_not_aead e prng Hv)). zlen_facts.
  destruct (encrypt_v1_cipher_spec e d hm Hhm now prng s imp send' bpre p bpost wpre hd wpost u f)
    as (old & wpost' & Hold & E); [done..|lia|done|lia|done|done|exact (proj2 Hlen)|done|].
  fold lf iv in E. set (y := iv ++ u ++ f) in *.
  assert (Hivl : zlen iv = c_iv_length e) by (by apply (zlen_iv_of e d)).
  assert (Hml : zlen (mac_of hm y) = mac_size hm) by (by apply zlen_mac_of).
  exists wpre, (mac_of hm y ++ y), wpost'. assert (Hy0 : 0 < zlen y) by (unfold y; autorewrite with zlen; lia).
  split; [|split; [lia|split]].
  - unfold openvpn_encrypt. rewrite len_conc, Hke. cbn [k_cipher]. rewrite Hae. bdecide.
    unfold openvpn_encrypt_v1. rewrite len_conc, Hke. bdecide. cbn [k_cipher]. rewrite E.
    cbn [mbind outcome_mbind]. rewrite put_hmac_spec by done. done.
  - rewrite crypto_max_overhead_120, zlen_app, Hml. unfold y. autorewrite with zlen. lia.
  - intros rpre rpost work hr Hwf Hhr Hroom. rewrite zlen_app, Hml in Hroom. unfold y in Hroom. autorewrite with zlen in Hroom.
    unfold OPENVPN_MAX_CIPHER_BLOCK_SIZE in Hroom.
    unfold openvpn_decrypt. rewrite len_conc, Hkd. cbn [k_cipher]. rewrite Had, zlen_app, Hml.
    assert (0 < zlen y) by (unfold y; autorewrite with zlen; lia). bdecide.
    unfold openvpn_decrypt_v1. rewrite len_conc, zlen_app, Hml. bdecide. rewrite Hkd.
    rewrite decrypt_v1_hmac_spec by done. cbn [mbind outcome_mbind k_cipher].
    destruct (decrypt_v1_cipher_spec e d prng r fr send' ((rpre ++ hd) ++ mac_of hm y) rpost work u f u' f' p)
      as (buf' & wb & Ed & Hc & Hwb); try done; try lia; [by eapply send_update_u32|..].
    { rewrite Hlf. fold lf x. lia. } { by rewrite Hlf. }
    fold iv y in Ed. rewrite Ed. cbn [mbind outcome_mbind]. rewrite Hlf. fold lf. rewrite Hrep. cbn [mbind outcome_mbind].
    by eexists.
Qed.

Lemma roundtrip_plain hm imp imp' :
  hmac_ok hm -> dc_ignore_packet_id r = false ->
  dc_encrypt s = mkkey None hm imp -> dc_decrypt r = mkkey None hm imp' ->
  packet_id_send_update now (dc_send s) (co_long_form (dc_opt s)) = (send', true) ->
  crypto_check_replay rnow (dc_opt r) (net_of_send send' (co_long_form (dc_opt s))) = Ret (opt', true) ->
  roundtrips.
Proof using Hs Hr Hlf Hp Hbuf.
  intros Hhm Hign Hke Hkd Hsend Hrep. rewrite crypto_max_overhead_120 in Hbuf.
  pose proof (mac_size_range hm Hhm) as Hms. unfold MAX_HMAC_KEY_LENGTH in Hms.
  pose proof (zlen_pos p Hp) as Hp0. set (lf := co_long_form (dc_opt s)) in *.
  destruct (encrypt_v1_plain_spec hm Hhm now s imp send' bpre p bpost wpre hd wpost)
    as (old & bpre' & Hold & E & Hb'); [done..|lia|]. fold lf in E. set (y := pid_bytes send' lf ++ p) in *.
  assert (Hml : zlen (mac_of hm y) = mac_size hm) by (by apply zlen_mac_of).
  assert (Hyl : zlen p <= zlen y <= zlen p + 8).
  { unfold y. rewrite zlen_app, zlen_pid_bytes. unfold packet_id_size. destruct lf; lia. }
  exists bpre', (mac_of hm y ++ y), bpost. zlen_facts.
  split; [|split; [rewrite crypto_max_overhead_120; lia|split]].
  - unfold openvpn_encrypt. rewrite len_conc, Hke. cbn [k_cipher cipher_kt_mode_aead]. bdecide.
    unfold openvpn_encrypt_v1. rewrite len_conc, Hke. bdecide. cbn [k_cipher]. rewrite E.
    cbn [mbind outcome_mbind]. rewrite put_hmac_spec by done. done.
  - rewrite crypto_max_overhead_120, zlen_app, Hml. lia.
  - intros rpre rpost work hr _ _ _.
    unfold openvpn_decrypt. rewrite len_conc, Hkd. cbn [k_cipher cipher_kt_mode_aead]. rewrite zlen_app, Hml. bdecide.
    unfold openvpn_decrypt_v1. rewrite len_conc, zlen_app, Hml. bdecide. rewrite Hkd.
    rewrite decrypt_v1_hmac_spec by done. cbn [mbind outcome_mbind k_cipher].
    unfold decrypt_v1_plain. rewrite Hr, Hlf, Hign. fold lf. unfold y.
    rewrite packet_id_read_pid by (by eapply send_update_u32). cbn [mbind outcome_mbind]. rewrite Hrep.
    cbn [mbind outcome_mbind]. eexists. split; [done|]. rewrite content_conc. split; [done|]. intros HF. apply conc_wf.
    assert (zlen y = zlen (pid_bytes send' lf) + zlen p) by (unfold y; by rewrite zlen_app).
    unfold fits in *. rewrite !zlen_app in *. fold y in HF |- *. lia.
Qed.

End Roundtrip.

(** All modes together. *)
Lemma packet_roundtrips now rnow prng s r fr send' opt' bpre p bpost wpre hd wpost :
  suite_ok prng (dc_encrypt s) (dc_decrypt r) ->
  dc_packet_id_initialized s = true -> dc_packet_id_initialized r = true ->
  co_long_form (dc_opt r) = co_long_form (dc_opt s) -> dc_ignore_packet_id r = false ->
  p <> [] -> Forall is_u8 p -> fits wpre hd wpost ->
  crypto_max_overhead + zlen p <= zlen wpost -> crypto_max_overhead + zlen hd <= zlen bpre ->
  let form := number_form (dc_encrypt s) (co_long_form (dc_opt s)) in
  packet_id_send_update now (dc_send s) form = (send', true) ->
  crypto_check_replay rnow (dc_opt r) (net_of_send send' form) = Ret (opt', true) ->
  roundtrips now rnow prng s r fr send' opt' bpre p bpost wpre hd wpost.
Proof.
  intros Hsuite Hs Hr Hlf Hign Hp Hp8 Hfw Hw Hb form Hsend Hrep. unfold form, number_form in *. clear form.
  inversion Hsuite as [e d hm hm' imp HC Hm Hiv Hmin Ee Ed|e d hm imp imp' HC Hv Hhm Ee Ed|hm imp imp' Hhm Ee Ed];
    rewrite <- Ee in Hsend, Hrep; cbn [k_cipher] in Hsend, Hrep; symmetry in Ee, Ed.
  - rewrite (aead_mode_e e Hm) in Hsend, Hrep. eapply roundtrip_aead; eassumption.
  - rewrite (proj1 (v1_not_aead prng e d HC Hv)) in Hsend, Hrep. eapply roundtrip_v1; eassumption.
  - eapply roundtrip_plain; eassumption.
Qed.

(** C32: A data packet that one side encrypts is recovered by the other, with every
    cipher mode (AEAD, CBC, OFB, CFB or none) and with or without an HMAC: the
    encryption succeeds, adds at most [crypto_max_overhead] bytes behind the header
    [hd], and whenever the receiver's replay check accepts the packet number that
    was sent, decryption of the packet, wherever it lies, yields the plaintext. *)
Theorem data_packet_roundtrip now rnow prng s r fr send' opt' bpre p bpost wpre hd wpost :
  suite_ok prng (dc_encrypt s) (dc_decrypt r) ->
  dc_packet_id_initialized s = true -> dc_packet_id_initialized r = true ->
  co_long_form (dc_opt r) = co_long_form (dc_opt s) -> dc_ignore_packet_id r = false ->
  p <> [] -> Forall is_u8 p -> fits wpre hd wpost ->
  crypto_max_overhead + zlen p <= zlen wpost -> crypto_max_overhead + zlen hd <= zlen bpre ->
  let form := number_form (dc_encrypt s) (co_long_form (dc_opt s)) in
  packet_id_send_update now (dc_send s) form = (send', true) ->
  crypto_check_replay rnow (dc_opt r) (net_of_send send' form) = Ret (opt', true) ->
  exists b body,
    openvpn_encrypt now prng s (conc bpre p bpost) (conc wpre hd wpost) = Ret (set_send s send', b) /\
    content b = hd ++ body /\ zlen body <= zlen p + crypto_max_overhead /\
    forall rpre rpost work,
      let hr := FRAME_HEADROOM_ADJ fr FRAME_HEADROOM_MARKER_DECRYPT in
      buf_wf work -> 0 <= hr -> hr + zlen body + OPENVPN_MAX_CIPHER_BLOCK_SIZE <= capacity work ->
      exists b', openvpn_decrypt rnow r fr (conc (rpre ++ hd) body rpost) work (zlen rpre) =
        Ret (set_opt r opt', b', true) /\ content b' = p.
Proof.
  intros Hsuite Hs Hr Hlf Hign Hp Hp8 Hfw Hw Hb form Hsend Hrep.
  destruct (packet_roundtrips now rnow prng s r fr send' opt' bpre p bpost wpre hd wpost Hsuite Hs Hr Hlf Hign Hp Hp8 Hfw Hw Hb Hsend Hrep)
    as (pre' & body & post' & E & _ & Hl & Ha).
  eexists _, body. split; [exact E|]. rewrite content_conc. split; [done|]. split; [lia|].
  intros rpre rpost work hr Hwf Hhr Hroom. destruct (Ha rpre rpost work Hwf Hhr Hroom) as (b & Eb & Hc & _). by exists b.
Qed.

(** ** Arbitrary packets *)

Lemma memcmp_0_eq a b : length a = length b -> memcmp_constant_time a b = 0 -> a = b.
Proof.
  revert b. induction a as [|x a IH]; intros [|y b] Hl H; try done.
  cbn [memcmp_constant_time] in H. apply Z.lor_eq_0_iff in H as [Hx Hr]. apply Z.lxor_eq in Hx as ->.
  f_equal. apply IH; [by injection Hl|done].
Qed.

Lemma packet_id_read_any pre c post lf :
  Forall is_u8 c ->
  (exists b pin, packet_id_read (conc pre c post) lf = Ret (b, pin, false) /\ zlen c < packet_id_size lf /\
     exists pre' c', b = conc pre' c' post) \/
  (exists h c' pin, packet_id_read (conc pre c post) lf = Ret (conc (pre ++ h) c' post, pin, true) /\
     c = h ++ c' /\ zlen h = packet_id_size lf /\ net_ok pin).
Proof.
  intros Hu. unfold packet_id_read, packet_id_size.
  destruct (Z_lt_ge_dec (zlen c) 4) as [H4|H4].
  { left. rewrite buf_read_short by lia. cbn [mbind outcome_mbind]. eexists _, _. split; [done|].
    split; [destruct lf; lia|by eexists _, _]. }
  destruct (zsplit 4 c) as (h & c' & -> & Hh & _); [lia|]. apply Forall_app in Hu as [Hu1 Hu2].
  pose proof (be_value_range h Hu1) as Hr1. rewrite Hh in Hr1.
  rewrite buf_read_front by done. cbn [mbind outcome_mbind]. destruct lf.
  - destruct (Z_lt_ge_dec (zlen c') 4) as [H8|H8].
    { left. rewrite buf_read_short by lia. cbn [mbind outcome_mbind]. eexists _, _. split; [done|].
      autorewrite with zlen. split; [lia|by eexists _, _]. }
    destruct (zsplit 4 c') as (h' & c'' & -> & Hh' & _); [lia|]. apply Forall_app in Hu2 as [Hu2 _].
    pose proof (be_value_range h' Hu2) as Hr2. rewrite Hh' in Hr2.
    right. exists (h ++ h'), c''. rewrite buf_read_front by done. cbn [mbind outcome_mbind].
    rewrite <- !app_assoc. eexists. split; [done|]. split; [done|]. split; [autorewrite with zlen; lia|].
    split; cbn [net_id net_time]; [done|lia].
  - right. exists h, c'. eexists. split; [done|]. split; [done|]. split; [lia|].
    split; cbn [net_id net_time]; [done|lia].
Qed.

(** Keys that decrypt safely: an AEAD cipher with a four-byte explicit vector, or
    another mode with a vector that can hold a packet number where it must. *)
Definition decrypt_keys_ok (k : key_ctx) : Prop :=
  hmac_ok (k_hmac k) /\
  match k_cipher k with
  | None => True
  | Some c =>
      DecryptSafe c /\ c_mode c <> MODE_OTHER /\
      (c_mode c = MODE_AEAD -> c_iv_length c = 4 + zlen (k_implicit_iv k))
  end.

(** The packet with headroom [pre] and content [c] verifies: its tag, over the
    header from [ad_start] on, or its HMAC; without either everything does. *)
Definition authentic (k : key_ctx) (pre c : list Z) (ad_start : Z) : Prop :=
  match k_cipher k with
  | Some ci =>
      if cipher_kt_mode_aead (Some ci)
      then exists id t ct out, c = id ++ t ++ ct /\ zlen id = 4 /\ zlen t = OPENVPN_AEAD_TAG_LENGTH /\
             c_final_check_tag ci (id ++ k_implicit_iv k) (zdrop ad_start pre ++ id) ct t = Some out
      else exists x, c = mac_of (k_hmac k) x ++ x
  | None => exists x, c = mac_of (k_hmac k) x ++ x
  end.

(** What a receiver that has accepted the numbers [S] may answer to a packet. *)
Inductive verdict (bt tb : Z) (S : list packet_id_net) (dc : data_channel) (good : Prop)
  : data_channel * buffer * bool -> Prop :=
| verdict_rejected b : len b = 0 -> verdict bt tb S dc good (dc, b, false)
| verdict_replayed opt b :
    good -> rec_inv bt tb S opt -> len b = 0 -> verdict bt tb S dc good (set_opt dc opt, b, false)
| verdict_accepted opt b pin :
    good -> pin ∉ S -> rec_inv bt tb (pin :: S) opt -> verdict bt tb S dc good (set_opt dc opt, b, true)
| verdict_unnumbered b :
    good -> (dc_packet_id_initialized dc = false \/ dc_ignore_packet_id dc = true) ->
    verdict bt tb S dc good (dc, b, true).

Section Arbitrary.
Context (now bt tb : Z) (S : list packet_id_net) (dc : data_channel) (fr : frame).
Hypothesis Hnow : SEQ_EXPIRED < now.
Hypothesis Hinv : rec_inv bt tb S (dc_opt dc).
Notation hr := (FRAME_HEADROOM_ADJ fr FRAME_HEADROOM_MARKER_DECRYPT).

(** The last step: the number of a packet that verified. *)
Lemma verdict_replay_check (good : Prop) pin buf work :
  good -> net_ok pin -> len buf = 0 ->
  exists res,
    ('(opt, ok) ← crypto_check_replay now (dc_opt dc) pin;
     if negb ok then Ret (set_opt dc opt, buf, false) else Ret (set_opt dc opt, work, true)) = Ret res /\
    verdict bt tb S dc good res.
Proof using Hnow Hinv.
  intros Hg Hp Hl. destruct (check_replay_fresh now bt tb S (dc_opt dc) pin Hnow Hp Hinv)
    as (opt & ok & -> & Hfresh & Hinv'). cbn [mbind outcome_mbind].
  destruct ok; (eexists; split; [done|]).
  - eapply verdict_accepted; [done|by apply Hfresh|done].
  - by apply verdict_replayed.
Qed.

Lemma buf_init_wf work :
  buf_wf work -> 0 <= hr <= capacity work ->
  exists wpre wpost, buf_init work hr = (conc wpre [] wpost, true) /\
    zlen wpre = hr /\ zlen wpre + zlen wpost = capacity work /\ capacity work < BUF_SIZE_MAX.
Proof using.
  intros Hwf Hh. apply wf_conc in Hwf as (pre & c & post & -> & F). cbn [capacity conc] in Hh.
  exists (ztake hr (pre ++ c ++ post)), (zdrop hr (pre ++ c ++ post)).
  rewrite buf_init_conc. bdecide. unfold fits in F. cbn [capacity conc]. zlen_facts. autorewrite with zlen.
  split; [done|]. lia.
Qed.

(** The two stores of a decryption. *)
Lemma cipher_put_first wpre wpost u :
  zlen wpre + zlen wpost < BUF_SIZE_MAX -> zlen u <= zlen wpost ->
  cipher_put (conc wpre [] wpost) (zlen wpre) u = Ret (conc wpre u (zdrop (zlen u) wpost)).
Proof using.
  intros HF Hl. zlen_facts.
  apply (cipher_put_conc wpre [] wpost u); [unfold fits; autorewrite with zlen; lia|lia|rewrite zlen_nil; lia].
Qed.

Lemma cipher_put_second wpre wpost u f :
  zlen wpre + zlen wpost < BUF_SIZE_MAX -> zlen u + zlen f <= zlen wpost ->
  exists wpost', cipher_put (conc wpre u (zdrop (zlen u) wpost)) (zlen wpre + zlen u) f =
    Ret (conc wpre (u ++ f) wpost').
Proof using.
  intros HF Hl. zlen_facts. eexists.
  apply cipher_put_conc; [unfold fits; autorewrite with zlen; lia|autorewrite with zlen; lia|done].
Qed.

Lemma len_set_len b n : len (set_len b n) = n.
Proof using. done. Qed.

Ltac reject := eexists; split; [reflexivity|]; apply verdict_rejected; apply len_set_len.

Lemma decrypt_aead_any ci hm imp pre c post work ad_start :
  dc_decrypt dc = mkkey (Some ci) hm imp -> DecryptSafe ci -> c_mode ci = MODE_AEAD ->
  c_iv_length ci = 4 + zlen imp -> dc_packet_id_initialized dc = true ->
  c <> [] -> Forall is_u8 c -> 0 <= ad_start <= zlen pre ->
  buf_wf work -> 0 <= hr <= capacity work ->
  exists res, openvpn_decrypt_aead now dc fr (conc pre c post) work ad_start = Ret res /\
    verdict bt tb S dc (authentic (dc_decrypt dc) pre c ad_start) res.
Proof using Hnow Hinv.
  intros Hk HD Hm Hiv Hinit Hc Hu8 Had Hwf Hhr. pose proof (zlen_pos c Hc) as Hc0.
  assert (Hmode : cipher_kt_mode_aead (Some ci) = true) by (unfold cipher_kt_mode_aead; by rewrite Hm).
  pose proof (ds_iv_range (d := ci)) as Hivr. pose proof (ds_block_range (d := ci)) as Hblk.
  destruct (buf_init_wf work Hwf Hhr) as (wpre & wpost & Ework & Hwp & Hwc & Hcap).
  unfold openvpn_decrypt_aead. rewrite len_conc. bdecide. rewrite Hk. cbn [c_assert k_cipher k_implicit_iv must mbind outcome_mbind].
  rewrite Hmode. cbn [c_assert mbind outcome_mbind]. rewrite bptr_conc. cbn [mbind outcome_mbind]. bdecide.
  cbn [c_assert mbind outcome_mbind]. rewrite Ework. cbn [c_assert mbind outcome_mbind]. rewrite Hinit, Hiv.
  zlen_facts. bdecide. cbn [c_assert mbind outcome_mbind].
  destruct (packet_id_read_any pre c post false Hu8) as [(b & pin & _ & Hs & _)|(id & c' & pin & Eread & -> & Hid & Hpin)].
  { unfold packet_id_size in Hs. bdecide. reject. }
  change (packet_id_size false) with 4 in Hid. rewrite zlen_app, Hid. bdecide.
  rewrite (buf_load_inside pre _ [] id c') by (done || (autorewrite with zlen; lia)). cbn [mbind outcome_mbind].
  unfold OPENVPN_MAX_IV_LENGTH in *. bdecide. destruct (c_reset ci (id ++ imp)); cbn [negb]; [|reject].
  rewrite Eread. cbn [mbind outcome_mbind negb]. unfold cipher_kt_tag_size. rewrite Hmode. unfold OPENVPN_AEAD_TAG_LENGTH.
  rewrite len_conc. destruct (zlen c' <? 16) eqn:E16; breflect; [reject|].
  destruct (zsplit 16 c') as (t & ct & -> & Ht & _); [lia|]. rewrite !bptr_conc. cbn [mbind outcome_mbind].
  rewrite buf_advance_conc, zlen_app. zlen_facts. bdecide. cbn [c_assert mbind outcome_mbind].
  rewrite (ztake_app_eq 16 t), (zdrop_app_eq 16 t), len_conc by done.
  destruct (zlen ct <? 1) eqn:E1; breflect; [reject|].
  destruct (buf_safe _ _) eqn:Esafe; cbn [negb]; [|reject].
  apply buf_safe_room in Esafe; [|unfold fits; autorewrite with zlen; lia|lia].
  rewrite bptr_conc, buf_contents_conc. cbn [mbind outcome_mbind].
  rewrite (buf_load_object _ _ _ (ztake ad_start pre) (zdrop ad_start pre ++ id) (t ++ ct ++ post) ad_start);
    [|by rewrite <- !app_assoc, (app_assoc (ztake _ _)), ztake_zdrop|autorewrite with zlen; lia..].
  cbn [mbind outcome_mbind]. rewrite ds_ad. cbn [c_assert mbind outcome_mbind].
  destruct (c_update ci _ _ ct) as [u|] eqn:Eu; [|reject].
  pose proof (ds_update _ _ _ _ Eu) as Hul.
  rewrite cipher_put_first by lia. cbn [mbind outcome_mbind].
  rewrite (buf_load_object _ _ _ (pre ++ id) t (ct ++ post)) by ((by rewrite <- !app_assoc) || (autorewrite with zlen; lia)).
  cbn [mbind outcome_mbind]. destruct (c_final_check_tag ci _ _ ct t) as [f|] eqn:Ef; [|reject].
  rewrite bptr_conc. cbn [mbind outcome_mbind]. pose proof (ds_check _ _ _ _ _ _ Eu Ef) as Hfl.
  destruct (cipher_put_second wpre wpost u f) as (wpost' & ->); [lia..|]. cbn [mbind outcome_mbind].
  apply verdict_replay_check; [|done|apply len_set_len].
  unfold authentic. cbn [k_cipher k_implicit_iv]. rewrite Hmode. by exists id, t, ct, f.
Qed.

Lemma decrypt_v1_hmac_any ci hm imp pre c post :
  hmac_ok hm ->
  decrypt_v1_hmac (mkkey ci hm imp) (conc pre c post) = Ret None \/
  exists m x, c = m ++ x /\ m = mac_of hm x /\
    decrypt_v1_hmac (mkkey ci hm imp) (conc pre c post) = Ret (Some (conc (pre ++ m) x post)).
Proof using.
  intros Hhm. unfold decrypt_v1_hmac, mac_of. cbn [k_hmac]. destruct hm as [h|].
  2: { right. exists [], c. by rewrite app_nil_r. }
  pose proof (mac_size_range (Some h) Hhm) as Hms. cbn [mac_size] in Hms. rewrite len_conc.
  destruct (zlen c <? hmac_ctx_size h) eqn:E; breflect; [by left|].
  destruct (zsplit (hmac_ctx_size h) c) as (m & x & -> & Hm & _); [lia|]. zlen_facts.
  rewrite bptr_conc, buf_len_conc. cbn [mbind outcome_mbind]. autorewrite with zlen.
  rewrite (buf_load_inside pre _ m x [] post (zlen pre + hmac_ctx_size h)) by ((by rewrite app_nil_r) || lia).
  cbn [mbind outcome_mbind]. rewrite (hm_size (HmacOk := Hhm)). bdecide.
  rewrite (buf_load_inside pre _ [] m x) by (done || (autorewrite with zlen; lia)). cbn [mbind outcome_mbind].
  destruct (_ =? 0) eqn:E0; breflect; cbn [negb]; [|by left].
  right. exists m, x. split; [done|]. split.
  - symmetry. apply memcmp_0_eq; [|done]. pose proof (hm_size (HmacOk := Hhm) x) as Hl. unfold zlen in *. lia.
  - rewrite buf_advance_conc. autorewrite with zlen. bdecide. cbn [c_assert mbind outcome_mbind].
    by rewrite (ztake_app_eq _ m), (zdrop_app_eq _ m).
Qed.

(** A packet number read from a packet is a number. *)
Definition decrypted_ok (r : decrypted) : Prop :=
  match r with
  | DecryptError _ => True
  | Decrypted _ _ (Some pin) => net_ok pin
  | Decrypted _ _ None => dc_ignore_packet_id dc = true
  end.

Lemma decrypt_v1_pin_any ci iv buf wpre x wpost :
  dc_packet_id_initialized dc = true -> c_mode ci <> MODE_AEAD -> c_mode ci <> MODE_OTHER ->
  Forall is_u8 iv -> Forall is_u8 x -> zlen iv <= OPENVPN_MAX_IV_LENGTH ->
  exists r, decrypt_v1_pin dc ci iv buf (conc wpre x wpost) = Ret r /\ decrypted_ok r.
Proof using.
  intros Hinit Hm1 Hm2 Hiv Hx Hl. unfold decrypt_v1_pin. rewrite Hinit.
  destruct (cipher_kt_mode_cbc ci) eqn:Ecbc.
  - destruct (packet_id_read_any wpre x wpost (co_long_form (dc_opt dc)) Hx)
      as [(b & pin & -> & _)|(h & c' & pin & -> & _ & _ & Hpin)]; cbn [mbind outcome_mbind]; by eexists.
  - assert (cipher_kt_mode_ofb_cfb ci = true) as ->.
    { unfold cipher_kt_mode_cbc, cipher_kt_mode_ofb_cfb in *. breflect. by destruct (c_mode ci). }
    cbn [c_assert mbind outcome_mbind]. unfold buf_set_read, OPENVPN_MAX_IV_LENGTH in *. zlen_facts.
    rewrite buf_size_valid_iff by lia. unfold BUF_SIZE_MAX. bdecide. cbn [mbind outcome_mbind].
    rewrite (mkbuffer_conc _ _ _ _ [] iv []); [|autorewrite with zlen; lia|done|done|by rewrite app_nil_r].
    destruct (packet_id_read_any [] iv [] true Hiv)
      as [(b & pin & -> & _)|(h & c' & pin & -> & _ & _ & Hpin)]; cbn [mbind outcome_mbind]; by eexists.
Qed.

Lemma decrypt_v1_cipher_any ci pre x post work :
  DecryptSafe ci -> dc_packet_id_initialized dc = true -> c_mode ci <> MODE_AEAD -> c_mode ci <> MODE_OTHER ->
  Forall is_u8 x -> buf_wf work -> 0 <= hr <= capacity work ->
  exists r, decrypt_v1_cipher dc fr ci (conc pre x post) work = Ret r /\ decrypted_ok r.
Proof using.
  intros HD Hinit Hm1 Hm2 Hx Hwf Hhr.
  pose proof (ds_iv_range (d := ci)) as Hivr. pose proof (ds_block_range (d := ci)) as Hblk.
  destruct (buf_init_wf work Hwf Hhr) as (wpre & wpost & Ework & Hwp & Hwc & Hcap).
  assert (Herr : forall b, exists r, Ret (DecryptError b) = Ret r /\ decrypted_ok r) by (intros b; by eexists).
  unfold decrypt_v1_cipher. rewrite Ework. cbn [c_assert mbind outcome_mbind]. rewrite len_conc.
  destruct (zlen x <? c_iv_length ci) eqn:E1; breflect; [apply Herr|].
  destruct (zsplit (c_iv_length ci) x) as (iv & ct & -> & Hiv & _); [lia|].
  apply Forall_app in Hx as [Hu1 Hu2]. zlen_facts. bdecide. rewrite !bptr_conc. cbn [mbind outcome_mbind].
  rewrite (buf_load_inside pre _ [] iv ct) by (done || (autorewrite with zlen; lia)). cbn [mbind outcome_mbind].
  rewrite buf_advance_conc, zlen_app. bdecide. cbn [c_assert mbind outcome_mbind].
  rewrite (ztake_app_eq _ iv), (zdrop_app_eq _ iv), len_conc by done.
  destruct (zlen ct <? 1) eqn:E2; breflect; [apply Herr|].
  destruct (c_reset ci iv); cbn [negb]; [|apply Herr].
  destruct (buf_safe _ _) eqn:Esafe; cbn [negb]; [|apply Herr].
  apply buf_safe_room in Esafe; [|unfold fits; autorewrite with zlen; lia|lia].
  rewrite buf_contents_conc. cbn [mbind outcome_mbind].
  destruct (c_update ci iv [] ct) as [u|] eqn:Eu; [|apply Herr]. pose proof (ds_update _ _ _ _ Eu) as Hul.
  rewrite cipher_put_first by lia. cbn [mbind outcome_mbind].
  destruct (c_final ci iv [] ct) as [f|] eqn:Ef; [|apply Herr].
  rewrite bptr_conc. cbn [mbind outcome_mbind]. pose proof (ds_final _ _ _ _ _ Eu Ef) as Hfl.
  destruct (cipher_put_second wpre wpost u f) as (wpost' & ->); [lia..|]. cbn [mbind outcome_mbind].
  apply decrypt_v1_pin_any; try done; [|lia].
  apply Forall_app. split; [by eapply ds_update_bytes|by eapply ds_final_bytes].
Qed.

Lemma decrypt_v1_any k pre c post work :
  dc_decrypt dc = k -> decrypt_keys_ok k -> cipher_kt_mode_aead (k_cipher k) = false ->
  dc_packet_id_initialized dc = true -> c <> [] -> Forall is_u8 c ->
  buf_wf work -> 0 <= hr <= capacity work ->
  exists res, openvpn_decrypt_v1 now dc fr (conc pre c post) work = Ret res /\
    verdict bt tb S dc (exists x, c = mac_of (k_hmac k) x ++ x) res.
Proof using Hnow Hinv.
  intros Hk [Hhm Hci] Hae Hinit Hc Hu8 Hwf Hhr. destruct k as [oc hm imp]. cbn [k_hmac k_cipher k_implicit_iv] in *.
  pose proof (zlen_pos c Hc) as Hc0. unfold openvpn_decrypt_v1. rewrite len_conc, Hk. bdecide.
  destruct (decrypt_v1_hmac_any oc hm imp pre c post Hhm) as [->|(m & x & -> & -> & ->)]; cbn [mbind outcome_mbind]; [reject|].
  apply Forall_app in Hu8 as [_ Hx]. cbn [k_cipher].
  assert (Hd : exists r, (match oc with
      | Some c => decrypt_v1_cipher dc fr c (conc (pre ++ mac_of hm x) x post) work
      | None => decrypt_v1_plain dc (conc (pre ++ mac_of hm x) x post)
      end) = Ret r /\ decrypted_ok r).
  { destruct oc as [ci|].
    - destruct Hci as (HD & Ho & _). cbn [cipher_kt_mode_aead] in Hae. breflect. by apply decrypt_v1_cipher_any.
    - unfold decrypt_v1_plain. rewrite Hinit.
      destruct (packet_id_read_any (pre ++ mac_of hm x) x post (co_long_form (dc_opt dc)) Hx)
        as [(b & pin & -> & _)|(h & c' & pin & -> & _ & _ & Hpin)]; cbn [mbind outcome_mbind]; [by eexists|].
      eexists. split; [done|]. cbn [decrypted_ok]. by destruct (dc_ignore_packet_id dc) eqn:?. }
  destruct Hd as (r & -> & Hok). cbn [mbind outcome_mbind]. destruct r as [b|b w [pin|]]; cbn [decrypted_ok] in Hok.
  - reject.
  - destruct (verdict_replay_check (exists y, mac_of hm x ++ x = mac_of hm y ++ y) pin (set_len b 0) w) as (res & E & Hv);
      [by exists x|done|apply len_set_len|].
    exists res. split; [|done]. rewrite <- E. destruct (crypto_check_replay _ _ _) as [[opt [|]]| |]; done.
  - eexists. split; [reflexivity|]. apply verdict_unnumbered; [by exists x|by right].
Qed.

End Arbitrary.

Lemma rec_inv_initialized bt tb S dc : rec_inv bt tb S (dc_opt dc) -> dc_packet_id_initialized dc = true.
Proof.
  unfold dc_packet_id_initialized, packet_id_initialized.
  intros [(_ & [[time id] win] & (sl & H1 & H2 & H3 & H4 & H5 & _) & _)|(_ & H & _)]; done.
Qed.

(** C33: Whatever bytes arrive as a data packet, in every mode, decryption does not
    fail an assertion or leave its buffers.  A packet that does not verify (AEAD
    tag or HMAC) is dropped without any change to the receiver: it cannot move
    the replay window.  An accepted packet verified and has a number that was not
    accepted before (unless numbers are ignored), and a rejected one leaves an
    empty buffer. *)
Theorem arbitrary_packet_is_handled now bt tb S dc fr pre c post work ad_start :
  SEQ_EXPIRED < now -> rec_inv bt tb S (dc_opt dc) -> decrypt_keys_ok (dc_decrypt dc) ->
  c <> [] -> Forall is_u8 c -> 0 <= ad_start <= zlen pre -> buf_wf work ->
  0 <= FRAME_HEADROOM_ADJ fr FRAME_HEADROOM_MARKER_DECRYPT <= capacity work ->
  exists dc' b ok S',
    openvpn_decrypt now dc fr (conc pre c post) work ad_start = Ret (dc', b, ok) /\
    (~ authentic (dc_decrypt dc) pre c ad_start -> dc' = dc /\ ok = false) /\
    (ok = false -> len b = 0 /\ S' = S) /\
    (ok = true -> dc_ignore_packet_id dc = true \/ exists pin, S' = pin :: S /\ (pin ∉ S)) /\
    rec_inv bt tb S' (dc_opt dc').
Proof.
  intros Hnow Hinv Hkeys Hc Hu8 Had Hwf Hhr. pose proof (rec_inv_initialized _ _ _ _ Hinv) as Hinit.
  assert (H : exists res, openvpn_decrypt now dc fr (conc pre c post) work ad_start = Ret res /\
    verdict bt tb S dc (authentic (dc_decrypt dc) pre c ad_start) res).
  { unfold openvpn_decrypt. rewrite len_conc. pose proof (zlen_pos c Hc). bdecide.
    destruct (cipher_kt_mode_aead (k_cipher (dc_decrypt dc))) eqn:Eae.
    - pose proof Hkeys as [_ Hci]. destruct (dc_decrypt dc) as [[ci|] hm imp] eqn:Ek; [|done].
      destruct Hci as (HD & _ & Hiv). cbn [k_cipher k_implicit_iv cipher_kt_mode_aead] in *. breflect. rewrite <- Ek.
      by apply (decrypt_aead_any now bt tb S dc fr Hnow Hinv ci hm imp); auto.
    - destruct (decrypt_v1_any now bt tb S dc fr Hnow Hinv (dc_decrypt dc) pre c post work) as (res & E & Hv); [done..|].
      exists res. split; [done|]. unfold authentic. destruct (k_cipher (dc_decrypt dc)); [by rewrite Eae|done]. }
  destruct H as (res & E & Hv). destruct Hv as [b Hl|opt b Hg Hi Hl|opt b pin Hg Hf Hi|b Hg Hi].
  - exists dc, b, false, S. naive_solver.
  - exists (set_opt dc opt), b, false, S. naive_solver.
  - exists (set_opt dc opt), b, true, (pin :: S). naive_solver.
  - exists dc, b, true, S. destruct Hi; [congruence|]. naive_solver.
Qed.

(** ** Witnesses *)

(** A toy AEAD cipher: the stream is constant and the tag a sum of header and
    ciphertext. *)
Definition toy_crypt (x : list Z) : list Z := map (Z.lxor 90) x.
Definition toy_tag (ad ct : list Z) : list Z :=
  u8 (foldr Z.add 0 (ad ++ ct)) :: replicate 15 7.

Definition toy_enc : cipher_ctx :=
  mkcipher MODE_AEAD 12 16 (fun _ => true) (fun _ _ => true)
    (fun _ _ x => Some (toy_crypt x)) (fun _ _ _ => Some [])
    (fun _ ad x => Some (toy_tag ad (toy_crypt x))) (fun _ _ _ _ => None).
Definition toy_dec : cipher_ctx :=
  mkcipher MODE_AEAD 12 16 (fun _ => true) (fun _ _ => true)
    (fun _ _ x => if bool_decide (Forall is_u8 (toy_crypt x)) then Some (toy_crypt x) else None)
    (fun _ _ _ => Some []) (fun _ _ _ => None)
    (fun _ ad x t => if bool_decide (t = toy_tag ad x) then Some [] else None).

Lemma toy_crypt_u8 x : Forall is_u8 x -> Forall is_u8 (toy_crypt x).
Proof.
  intros Hx. unfold toy_crypt. apply Forall_fmap. eapply Forall_impl; [exact Hx|]. intros y Hy.
  unfold compose, is_u8 in *. split; [apply Z.lxor_nonneg; lia|].
  destruct (Z.eq_dec (Z.lxor 90 y) 0) as [->|]; [lia|]. assert (0 <= Z.lxor 90 y) by (apply Z.lxor_nonneg; lia).
  apply Z.log2_lt_pow2; [lia|]. eapply Z.le_lt_trans; [apply Z.log2_lxor; lia|].
  apply Z.max_lub_lt; [vm_compute; reflexivity|]. destruct (Z.eq_dec y 0) as [->|]; [vm_compute; reflexivity|].
  apply Z.log2_lt_pow2; lia.
Qed.

Lemma toy_crypt_twice x : toy_crypt (toy_crypt x) = x.
Proof.
  unfold toy_crypt. induction x as [|y x IH]; [done|]. cbn [map].
  by rewrite IH, <- Z.lxor_assoc, Z.lxor_nilpotent, Z.lxor_0_l.
Qed.

Lemma zlen_toy_crypt x : zlen (toy_crypt x) = zlen x.
Proof. unfold zlen, toy_crypt. by rewrite length_map. Qed.

#[global] Instance toy_pair : CipherPair toy_enc toy_dec.
Proof.
  constructor; try done.
  intros iv ad p Hp Hp8. exists (toy_crypt p), [], p, []. pose proof (zlen_pos p Hp).
  cbn [toy_enc toy_dec c_update c_final c_get_tag c_final_check_tag c_mode c_block_size].
  rewrite !app_nil_r, toy_crypt_twice, zlen_toy_crypt, zlen_nil, bool_decide_true by done.
  split_and!; try done; try lia. intros _. exists (toy_tag ad (toy_crypt p)).
  rewrite bool_decide_true by done. done.
Qed.

#[global] Instance toy_safe : DecryptSafe toy_dec.
Proof.
  constructor; try done; cbn [toy_dec c_update c_final c_final_check_tag c_block_size].
  - intros iv ad x u. case_bool_decide; intros [= <-]. rewrite zlen_toy_crypt. lia.
  - intros iv ad x u f. case_bool_decide; intros [= <-] [= <-]. rewrite zlen_toy_crypt, zlen_nil. lia.
  - intros iv ad x u f t. do 2 case_bool_decide; intros [= <-]; try done. intros [= <-].
    rewrite zlen_toy_crypt, zlen_nil. lia.
  - intros iv ad x u. case_bool_decide; by intros [= <-].
  - intros iv ad x f [= <-]. constructor.
Qed.

(** Two sides with that cipher and a fresh replay window. *)
Definition w_pid : packet_id := match packet_id_init 64 15 with Ret p => p | _ => mkpid (mksend 0 0) packet_id_rec_zero end.
Definition w_side : data_channel :=
  mkdc (mkkey (Some toy_enc) None [1; 2; 3; 4; 5; 6; 7; 8]) (mkkey (Some toy_dec) None [1; 2; 3; 4; 5; 6; 7; 8])
    (mkopt w_pid None false) false.
Lemma w_side_fresh : rec_inv 64 15 [] (dc_opt w_side).
Proof.
  destruct (start_udp 64 15 None false) as (opt & E & Hi & _); [vm_compute; split; (reflexivity || discriminate)..|].
  left. split; [vm_compute; split; (reflexivity || discriminate)|]. exists (0, 0, []).
  assert (Eo : Ret opt = Ret (dc_opt w_side)) by (rewrite <- E; vm_compute; reflexivity).
  injection Eo as Eo. rewrite Eo in Hi. exact Hi.
Qed.

Definition w_side_opt' : crypto_options :=
  match crypto_check_replay 1000 (dc_opt w_side) (mknet 1 0) with Ret (o, _) => o | _ => dc_opt w_side end.
Definition w_geometry : frame := mkframe 1500 1500 40 8 0 0 0 0.

Lemma data_packet_roundtrip_witness :
  exists b body,
    openvpn_encrypt 1000 [] w_side (conc (replicate 130 0) [65; 66; 67] []) (conc [9] [50] (replicate 130 0)) =
      Ret (set_send w_side (mksend 1 1000), b) /\
    content b = [50] ++ body /\ zlen body <= zlen [65; 66; 67] + crypto_max_overhead /\
    forall rpre rpost work,
      let hr := FRAME_HEADROOM_ADJ w_geometry FRAME_HEADROOM_MARKER_DECRYPT in
      buf_wf work -> 0 <= hr -> hr + zlen body + OPENVPN_MAX_CIPHER_BLOCK_SIZE <= capacity work ->
      exists b', openvpn_decrypt 1000 w_side w_geometry (conc (rpre ++ [50]) body rpost) work (zlen rpre) =
        Ret (set_opt w_side w_side_opt', b', true) /\ content b' = [65; 66; 67].
Proof.
  apply (data_packet_roundtrip 1000 1000 [] w_side w_side w_geometry (mksend 1 1000) w_side_opt').
  - apply suite_aead; [exact toy_pair|reflexivity|reflexivity|vm_compute; discriminate].
  - vm_compute; reflexivity.
  - vm_compute; reflexivity.
  - reflexivity.
  - reflexivity.
  - discriminate.
  - repeat constructor; vm_compute; (reflexivity || discriminate).
  - vm_compute; reflexivity.
  - vm_compute; discriminate.
  - vm_compute; discriminate.
  - vm_compute; reflexivity.
  - vm_compute; reflexivity.
Defined.

(** A packet of 25 zero bytes, which does not verify. *)
Lemma arbitrary_packet_is_handled_witness :
  exists dc' b ok S',
    openvpn_decrypt 1000 w_side w_geometry (conc [7; 50] (replicate 25 0) []) (conc [] [] (replicate 300 0)) 1 =
      Ret (dc', b, ok) /\
    (~ authentic (dc_decrypt w_side) [7; 50] (replicate 25 0) 1 -> dc' = w_side /\ ok = false) /\
    (ok = false -> len b = 0 /\ S' = []) /\
    (ok = true -> dc_ignore_packet_id w_side = true \/ exists pin, S' = pin :: [] /\ (pin ∉ [])) /\
    rec_inv 64 15 S' (dc_opt dc').
Proof.
  apply (arbitrary_packet_is_handled 1000 64 15 []).
  - vm_compute; reflexivity.
  - exact w_side_fresh.
  - split; [exact I|]. split; [exact toy_safe|]. split; [discriminate|reflexivity].
  - discriminate.
  - apply Forall_replicate. vm_compute; split; (reflexivity || discriminate).
  - vm_compute; split; discriminate.
  - apply conc_wf. vm_compute; reflexivity.
  - vm_compute; split; discriminate.
Defined.
