(* ===== verification/Mbuf.v ===== *)
(** * The server's packet queue ([mbuf.c], [mbuf.h])

    A ring of (packet, client) pairs whose capacity is a power of two.  Packets are
    shared between entries and counted; [mheap] is the memory they live in, a map
    from addresses to packets, and a packet that is freed is removed from it, so
    that an access to it afterwards is [Oob].  Clients are identified by numbers;
    [NULL] is [None] for packets and clients. *)
From stdpp Require Import gmap.
From S2P Require Import Prelude Integer Buffer.

Record mbuf_buffer : Type := mkmb { mb_buf : buffer; mb_refcount : Z; mb_flags : Z }.

Record mbuf_item : Type := mkmi { mi_buffer : option Z; mi_instance : option Z }.

Record mbuf_set : Type := mkms {
  ms_head : Z;
  ms_len : Z;
  ms_capacity : Z;
  ms_max_queued : Z;
  ms_array : list mbuf_item
}.

Notation mheap := (gmap Z mbuf_buffer).

Definition MF_UNICAST : Z := 1.

(** All the operands are [unsigned int]. *)
Definition MBUF_INDEX (head off size : Z) : Z := Z.land (head +u off) (size -u 1).

Definition set_array (ms : mbuf_set) (a : list mbuf_item) : mbuf_set :=
  mkms (ms_head ms) (ms_len ms) (ms_capacity ms) (ms_max_queued ms) a.

(** [garbage] is the content of the array [malloc] returned. *)
Definition mbuf_init (size : Z) (garbage : nat -> mbuf_item) : outcome mbuf_set :=
  c ← adjust_power_of_2 size;
  Ret (mkms 0 0 (u32 c) 0 (map garbage (seq 0 (Z.to_nat (u32 c))))).

(** [p] is the address of the new packet, [fresh] the bytes of its new object. *)
Definition mbuf_alloc_buf (h : mheap) (p : Z) (fresh : list Z) (buf : buffer) : outcome mheap :=
  b ← clone_buf fresh buf;
  Ret (<[p := mkmb b 1 0]> h).

Definition mbuf_free_buf (h : mheap) (mb : option Z) : outcome mheap :=
  match mb with
  | None => Ret h
  | Some p =>
      match h !! p with
      | None => Oob
      | Some b =>
          let refcount := mb_refcount b - 1 in
          Ret (if refcount <=? 0 then delete p h
               else <[p := mkmb (mb_buf b) refcount (mb_flags b)]> h)
      end
  end.

(** The loop of [mbuf_extract_item]; each round takes one entry away. *)
Fixpoint extract_loop (fuel : nat) (ms : mbuf_set) : outcome (mbuf_set * option mbuf_item) :=
  match fuel with
  | O => Ret (ms, None)
  | S fuel =>
      item ← array_get (ms_array ms) (ms_head ms);
      let ms := mkms (MBUF_INDEX (ms_head ms) 1 (ms_capacity ms)) (ms_len ms -u 1) (ms_capacity ms)
                  (ms_max_queued ms) (ms_array ms) in
      match mi_instance item with
      | Some _ => Ret (ms, Some item)
      | None => extract_loop fuel ms
      end
  end.

(** The item, if there is one with a client. *)
Definition mbuf_extract_item (ms : mbuf_set) : outcome (mbuf_set * option mbuf_item) :=
  extract_loop (Z.to_nat (ms_len ms)) ms.

Definition mbuf_add_item (h : mheap) (ms : mbuf_set) (item : mbuf_item) : outcome (mheap * mbuf_set) :=
  '(h, ms) ←
     (if ms_len ms =? ms_capacity ms
      then
        '(ms, rm) ← mbuf_extract_item ms;
        match rm with
        | None => Fatal
        | Some rm => h ← mbuf_free_buf h (mi_buffer rm); Ret (h, ms)
        end
      else Ret (h, ms));
  _ ← c_assert (ms_len ms <? ms_capacity ms);
  a ← array_set (ms_array ms) (MBUF_INDEX (ms_head ms) (ms_len ms) (ms_capacity ms)) item;
  let ms := set_array ms a in
  let n := ms_len ms +u 1 in
  let ms := mkms (ms_head ms) n (ms_capacity ms)
              (if ms_max_queued ms <? n then n else ms_max_queued ms) (ms_array ms) in
  match mi_buffer item with
  | None => Oob
  | Some p =>
      match h !! p with
      | None => Oob
      | Some b => Ret (<[p := mkmb (mb_buf b) (mb_refcount b + 1) (mb_flags b)]> h, ms)
      end
  end.

(** Entry [i] counted from the head. *)
Definition mbuf_entry (ms : mbuf_set) (i : Z) : outcome mbuf_item :=
  array_get (ms_array ms) (MBUF_INDEX (ms_head ms) i (ms_capacity ms)).

(** The loops over the entries, [n] of them left from [i] on. *)
Fixpoint peek_loop (n : nat) (ms : mbuf_set) (i : Z) : outcome (option Z) :=
  match n with
  | O => Ret None
  | S n =>
      item ← mbuf_entry ms i;
      match mi_instance item with
      | Some mi => Ret (Some mi)
      | None => peek_loop n ms (i + 1)
      end
  end.

Definition mbuf_peek_dowork (ms : mbuf_set) : outcome (option Z) :=
  peek_loop (Z.to_nat (ms_len ms)) ms 0.

Definition mbuf_defined (ms : mbuf_set) : bool := negb (ms_len ms =? 0).

Definition mbuf_len (ms : mbuf_set) : Z := ms_len ms.

(** An [int]. *)
Definition mbuf_maximum_queued (ms : mbuf_set) : Z := i32 (ms_max_queued ms).

Definition mbuf_peek (ms : mbuf_set) : outcome (option Z) :=
  if mbuf_defined ms then mbuf_peek_dowork ms else Ret None.

Fixpoint dereference_loop (n : nat) (h : mheap) (ms : mbuf_set) (i mi : Z) : outcome (mheap * mbuf_set) :=
  match n with
  | O => Ret (h, ms)
  | S n =>
      item ← mbuf_entry ms i;
      '(h, ms) ←
         (if bool_decide (mi_instance item = Some mi)
          then
            h ← mbuf_free_buf h (mi_buffer item);
            a ← array_set (ms_array ms) (MBUF_INDEX (ms_head ms) i (ms_capacity ms)) (mkmi None None);
            Ret (h, set_array ms a)
          else Ret (h, ms));
      dereference_loop n h ms (i + 1) mi
  end.

(** The loop bound [(int) ms->len] is the length: the cast only matters for a queue of 2^31 packets. *)
Definition mbuf_dereference_instance (h : mheap) (ms : mbuf_set) (mi : Z) : outcome (mheap * mbuf_set) :=
  dereference_loop (Z.to_nat (ms_len ms)) h ms 0 mi.

(** The packets of the queue are released; the array goes with the set. *)
Fixpoint free_loop (n : nat) (h : mheap) (ms : mbuf_set) (i : Z) : outcome mheap :=
  match n with
  | O => Ret h
  | S n =>
      item ← mbuf_entry ms i;
      h ← mbuf_free_buf h (mi_buffer item);
      free_loop n h ms (i + 1)
  end.

Definition mbuf_free (h : mheap) (ms : mbuf_set) : outcome mheap :=
  free_loop (Z.to_nat (ms_len ms)) h ms 0.

(** ** Its users in the server *)

(** [ready] is [multi_output_queue_ready (m, mi)]. *)
Definition multi_add_mbuf (h : mheap) (ms : mbuf_set) (ready : bool) (mi p : Z) : outcome (mheap * mbuf_set) :=
  if ready then mbuf_add_item h ms (mkmi (Some p) (Some mi)) else Ret (h, ms).

Definition multi_unicast (h : mheap) (ms : mbuf_set) (p : Z) (fresh : list Z) (buf : buffer) (ready : bool) (mi : Z)
  : outcome (mheap * mbuf_set) :=
  if 0 <? buf_len buf
  then
    h ← mbuf_alloc_buf h p fresh buf;
    h ← (match h !! p with
         | Some b => Ret (<[p := mkmb (mb_buf b) (mb_refcount b) MF_UNICAST]> h)
         | None => Oob
         end);
    '(h, ms) ← multi_add_mbuf h ms ready mi p;
    h ← mbuf_free_buf h (Some p);
    Ret (h, ms)
  else Ret (h, ms).

(** The loop of [multi_bcast] over the clients that pass its tests, each with
    whether its output queue is ready. *)
Fixpoint bcast_loop (h : mheap) (ms : mbuf_set) (p : Z) (targets : list (Z * bool)) : outcome (mheap * mbuf_set) :=
  match targets with
  | [] => Ret (h, ms)
  | (mi, ready) :: targets =>
      '(h, ms) ← multi_add_mbuf h ms ready mi p;
      bcast_loop h ms p targets
  end.

Definition multi_bcast (h : mheap) (ms : mbuf_set) (p : Z) (fresh : list Z) (buf : buffer) (targets : list (Z * bool))
  : outcome (mheap * mbuf_set) :=
  if 0 <? buf_len buf
  then
    h ← mbuf_alloc_buf h p fresh buf;
    '(h, ms) ← bcast_loop h ms p targets;
    h ← mbuf_free_buf h (Some p);
    Ret (h, ms)
  else Ret (h, ms).

(** [multi_get_queue]: the packet and client taken from the queue; the packet is
    processed and released. *)
Definition multi_get_queue (h : mheap) (ms : mbuf_set) : outcome (mheap * mbuf_set * option (buffer * bool * Z)) :=
  '(ms, r) ← mbuf_extract_item ms;
  match r with
  | None => Ret (h, ms, None)
  | Some item =>
      match mi_buffer item, mi_instance item with
      | Some p, Some mi =>
          match h !! p with
          | None => Oob
          | Some b =>
              h ← mbuf_free_buf h (Some p);
              Ret (h, ms, Some (mb_buf b, negb (Z.land (mb_flags b) MF_UNICAST =? 0), mi))
          end
      | _, _ => Oob
      end
  end.
