(* ===== verification/MbufSpec.v ===== *)
(** * Properties of the server's packet queue

    The queue is specified as a list of (packet, client) pairs of bounded length
    ([spec_step]); [queue_refines_spec] shows that the ring with its shared, counted
    packets implements it along every sequence of the server's operations, that no
    packet is leaked or used after it was freed, and in which one situation the
    process gives up. *)
From stdpp Require Import gmap fin_maps.
From S2P Require Import Prelude Integer Buffer Mbuf.

(** ** Counting references *)

Definition occ (p : Z) (l : list Z) : Z := zlen (filter (fun x => x = p) l).

Lemma occ_cons p x l : occ p (x :: l) = (if bool_decide (x = p) then 1 else 0) + occ p l.
Proof.
  unfold occ. rewrite filter_cons. destruct (decide (x = p)) as [Hx|Hx].
  - rewrite bool_decide_true by done. by rewrite zlen_cons.
  - rewrite bool_decide_false by done. lia.
Qed.

Lemma occ_nonneg p l : 0 <= occ p l.
Proof. apply zlen_nonneg. Qed.

Lemma occ_elem p l : p ∈ l <-> 0 < occ p l.
Proof.
  induction l as [|x l IH].
  - split; [by intros ?%elem_of_nil|change (occ p []) with 0; lia].
  - rewrite elem_of_cons, occ_cons, IH. pose proof (occ_nonneg p l). case_bool_decide; naive_solver lia.
Qed.

Lemma occ_perm p l l' : l ≡ₚ l' -> occ p l = occ p l'.
Proof. intros H. unfold occ, zlen. f_equal. by rewrite H. Qed.

(** Every packet in memory has as many references as [l] lists, and at least one;
    no packet of [l] has been freed. *)
Definition counted (l : list Z) (h : mheap) : Prop :=
  forall p, match h !! p with
       | Some b => mb_refcount b = occ p l /\ 0 < occ p l
       | None => occ p l = 0
       end.

#[global] Instance counted_proper : Proper ((≡ₚ) ==> (=) ==> iff) counted.
Proof.
  intros l l' Hl h h' ->. unfold counted. split; intros H p; specialize (H p);
    [rewrite <- (occ_perm p _ _ Hl)|rewrite (occ_perm p _ _ Hl)]; done.
Qed.

(** The bytes and flags of a packet. *)
Definition pkt_of (h : mheap) (p : Z) : list Z * Z :=
  match h !! p with Some b => (content (mb_buf b), mb_flags b) | None => ([], 0) end.

Definition same_packets (l : list Z) (h h' : mheap) : Prop := forall p, p ∈ l -> pkt_of h' p = pkt_of h p.

Lemma same_packets_trans l h1 h2 h3 : same_packets l h1 h2 -> same_packets l h2 h3 -> same_packets l h1 h3.
Proof. intros H1 H2 p Hp. rewrite H2, H1; done. Qed.

Lemma counted_alive l h p : counted l h -> p ∈ l -> exists b, h !! p = Some b /\ mb_refcount b = occ p l.
Proof.
  intros H Hp. specialize (H p). apply occ_elem in Hp. destruct (h !! p); [|lia]. naive_solver.
Qed.

Lemma mbuf_free_buf_spec l h p :
  counted (p :: l) h ->
  exists h', mbuf_free_buf h (Some p) = Ret h' /\ counted l h' /\ same_packets l h h'.
Proof.
  intros H. destruct (counted_alive _ _ p H) as (b & Hb & Hr); [apply elem_of_cons; by left|].
  rewrite occ_cons, bool_decide_true in Hr by done. pose proof (occ_nonneg p l).
  unfold mbuf_free_buf. rewrite Hb. cbv zeta. destruct (mb_refcount b - 1 <=? 0) eqn:E; breflect.
  - eexists. split; [done|]. split.
    + intros q. specialize (H q). rewrite occ_cons in H. destruct (decide (p = q)) as [<-|Hne].
      * rewrite lookup_delete_eq. lia.
      * rewrite lookup_delete_ne by done. by rewrite bool_decide_false in H by done.
    + intros q Hq. apply occ_elem in Hq. unfold pkt_of. destruct (decide (p = q)) as [<-|Hne]; [lia|].
      by rewrite lookup_delete_ne.
  - eexists. split; [done|]. split.
    + intros q. specialize (H q). rewrite occ_cons in H. destruct (decide (p = q)) as [<-|Hne].
      * rewrite lookup_insert_eq. cbn [mb_refcount]. lia.
      * rewrite lookup_insert_ne by done. by rewrite bool_decide_false in H by done.
    + intros q Hq. unfold pkt_of. destruct (decide (p = q)) as [<-|Hne].
      * by rewrite lookup_insert_eq, Hb.
      * by rewrite lookup_insert_ne.
Qed.

Lemma refcount_inc_spec l h p b :
  counted l h -> p ∈ l -> h !! p = Some b ->
  let h' := <[p := mkmb (mb_buf b) (mb_refcount b + 1) (mb_flags b)]> h in
  counted (p :: l) h' /\ same_packets (p :: l) h h'.
Proof.
  intros H Hp Hb h'. split.
  - intros q. specialize (H q). rewrite occ_cons. unfold h'. destruct (decide (p = q)) as [<-|Hne].
    + rewrite lookup_insert_eq, bool_decide_true by done. rewrite Hb in H. cbn [mb_refcount]. lia.
    + rewrite lookup_insert_ne, bool_decide_false by done. by rewrite Z.add_0_l.
  - intros q _. unfold pkt_of, h'. destruct (decide (p = q)) as [<-|Hne].
    + by rewrite lookup_insert_eq, Hb.
    + by rewrite lookup_insert_ne.
Qed.

Lemma counted_alloc l h p b f :
  counted l h -> h !! p = None ->
  counted (p :: l) (<[p := mkmb b 1 f]> h) /\ same_packets l h (<[p := mkmb b 1 f]> h).
Proof.
  intros H Hp. split.
  - intros q. specialize (H q). rewrite occ_cons. destruct (decide (p = q)) as [<-|Hne].
    + rewrite lookup_insert_eq, bool_decide_true by done. rewrite Hp in H. cbn [mb_refcount]. lia.
    + rewrite lookup_insert_ne, bool_decide_false by done. by rewrite Z.add_0_l.
  - intros q Hq. destruct (counted_alive _ _ _ H Hq) as (b' & Hb' & _). unfold pkt_of.
    destruct (decide (p = q)) as [<-|Hne]; [congruence|]. by rewrite lookup_insert_ne.
Qed.

(** ** The ring *)

(** An entry of the queue: an address and a client, or nothing after the client
    was dereferenced. *)
Notation entry := (option (Z * Z)).

Definition item_of (e : entry) : mbuf_item :=
  match e with Some (p, mi) => mkmi (Some p) (Some mi) | None => mkmi None None end.

Definition packets (l : list entry) : list Z :=
  l ≫= (fun e : entry => match e with Some (p, _) => [p] | None => [] end).

Lemma packets_app l l' : packets (l ++ l') = packets l ++ packets l'.
Proof. apply bind_app. Qed.

Lemma packets_live p mi l : packets (Some (p, mi) :: l) = p :: packets l.
Proof. done. Qed.

Lemma packets_dead l : packets (None :: l) = packets l.
Proof. done. Qed.

Record ring (ms : mbuf_set) (k : Z) (l : list entry) : Prop := mkring {
  ring_pow : 0 <= k <= 31;
  ring_cap : ms_capacity ms = 2 ^ k;
  ring_array : zlen (ms_array ms) = 2 ^ k;
  ring_head : 0 <= ms_head ms < 2 ^ k;
  ring_len : ms_len ms = zlen l;
  ring_max : zlen l <= 2 ^ k;
  ring_at : forall i e, l !! i = Some e ->
    ms_array ms !! Z.to_nat ((ms_head ms + Z.of_nat i) mod 2 ^ k) = Some (item_of e)
}.

Lemma pow_range k : 0 <= k <= 31 -> 1 <= 2 ^ k < 2 ^ 32.
Proof.
  intros Hk. split; [|apply Z.pow_lt_mono_r; lia]. pose proof (Z.pow_pos_nonneg 2 k). lia.
Qed.

Lemma MBUF_INDEX_mod head i k : 0 <= k <= 31 -> MBUF_INDEX head i (2 ^ k) = (head + i) mod 2 ^ k.
Proof.
  intros Hk. pose proof (pow_range k Hk) as Hp. unfold MBUF_INDEX. rewrite (u32_id (2 ^ k - 1)) by (unfold is_u32; lia).
  rewrite land_mask by lia. unfold u32. rewrite <- Znumtheory.Zmod_div_mod; [done|lia..|].
  exists (2 ^ (32 - k)). rewrite <- Z.pow_add_r by lia. f_equal. lia.
Qed.

(** Positions of the ring are different as long as there are at most as many as
    it has places. *)
Lemma mod_inj_small h i j n : 0 < n -> 0 <= i < n -> 0 <= j < n -> (h + i) mod n = (h + j) mod n -> i = j.
Proof.
  intros Hn Hi Hj H. assert (E : (i - j) mod n = 0).
  { replace (i - j) with ((h + i) - (h + j)) by lia. rewrite Zminus_mod, H, Z.sub_diag. done. }
  apply Z.mod_divide in E as [q Hq]; [|lia]. assert (q = 0) by nia. lia.
Qed.

Lemma ring_entry ms k l i e :
  ring ms k l -> l !! i = Some e -> mbuf_entry ms (Z.of_nat i) = Ret (item_of e).
Proof.
  intros [Hk Hc Ha Hh Hl Hm Hat] He. unfold mbuf_entry. rewrite Hc, MBUF_INDEX_mod by done.
  pose proof (pow_range k Hk). apply array_get_Some; [apply Z.mod_pos_bound; lia|]. by apply Hat.
Qed.

(** Replacing an entry. *)
Lemma ring_set ms k l i e e' :
  ring ms k l -> l !! i = Some e ->
  array_set (ms_array ms) (MBUF_INDEX (ms_head ms) (Z.of_nat i) (ms_capacity ms)) (item_of e') =
    Ret (<[Z.to_nat ((ms_head ms + Z.of_nat i) mod 2 ^ k) := item_of e']> (ms_array ms)) /\
  ring (set_array ms (<[Z.to_nat ((ms_head ms + Z.of_nat i) mod 2 ^ k) := item_of e']> (ms_array ms))) k (<[i := e']> l).
Proof.
  intros [Hk Hc Ha Hh Hl Hm Hat] He. pose proof (pow_range k Hk) as Hp. pose proof (lookup_lt_Some _ _ _ He) as Hi.
  rewrite Hc, MBUF_INDEX_mod by done. pose proof (Z.mod_pos_bound (ms_head ms + Z.of_nat i) (2 ^ k)) as Hb.
  split; [apply array_set_in; lia|]. constructor; cbn [ms_capacity ms_array ms_head ms_len set_array]; try done.
  - by rewrite zlen_insert.
  - by rewrite zlen_insert.
  - by rewrite zlen_insert.
  - intros j x Hj. destruct (decide (i = j)) as [<-|Hne].
    + rewrite list_lookup_insert_eq in Hj by done. injection Hj as <-.
      apply list_lookup_insert_eq. unfold zlen in Ha. lia.
    + rewrite list_lookup_insert_ne in Hj by done. pose proof (lookup_lt_Some _ _ _ Hj).
      rewrite list_lookup_insert_ne; [by apply Hat|]. intros E. apply Hne. unfold zlen in Hm.
      apply Nat2Z.inj, (mod_inj_small (ms_head ms) _ _ (2 ^ k)); try lia.
      pose proof (Z.mod_pos_bound (ms_head ms + Z.of_nat j) (2 ^ k)). lia.
Qed.

(** Adding an entry at the end. *)
Lemma ring_push ms k l e :
  ring ms k l -> zlen l < 2 ^ k ->
  array_set (ms_array ms) (MBUF_INDEX (ms_head ms) (ms_len ms) (ms_capacity ms)) (item_of e) =
    Ret (<[Z.to_nat ((ms_head ms + zlen l) mod 2 ^ k) := item_of e]> (ms_array ms)) /\
  forall mq, ring (mkms (ms_head ms) (ms_len ms +u 1) (ms_capacity ms) mq
          (<[Z.to_nat ((ms_head ms + zlen l) mod 2 ^ k) := item_of e]> (ms_array ms))) k (l ++ [e]).
Proof.
  intros [Hk Hc Ha Hh Hl Hm Hat] Hr. pose proof (pow_range k Hk) as Hp. zlen_facts.
  rewrite Hc, Hl, MBUF_INDEX_mod by done. pose proof (Z.mod_pos_bound (ms_head ms + zlen l) (2 ^ k)) as Hb.
  split; [apply array_set_in; lia|]. intros mq. constructor; cbn [ms_capacity ms_array ms_head ms_len]; try done.
  - by rewrite zlen_insert.
  - rewrite u32_id by (unfold is_u32; lia). by rewrite zlen_app.
  - rewrite zlen_app. change (zlen [e]) with 1. lia.
  - intros j x Hj. apply lookup_snoc_Some in Hj as [[Hlt Hj]|[-> ->]].
    + rewrite list_lookup_insert_ne; [by apply Hat|]. intros E. unfold zlen in *.
      assert (Z.of_nat (length l) = Z.of_nat j); [|lia].
      apply (mod_inj_small (ms_head ms) _ _ (2 ^ k)); try lia.
      pose proof (Z.mod_pos_bound (ms_head ms + Z.of_nat j) (2 ^ k)). lia.
    + apply list_lookup_insert_eq. unfold zlen in Ha, Hb. unfold zlen. lia.
Qed.

(** Taking the first entry. *)
Lemma ring_pop ms k e l :
  ring ms k (e :: l) ->
  array_get (ms_array ms) (ms_head ms) = Ret (item_of e) /\
  ring (mkms (MBUF_INDEX (ms_head ms) 1 (ms_capacity ms)) (ms_len ms -u 1) (ms_capacity ms)
          (ms_max_queued ms) (ms_array ms)) k l.
Proof.
  intros [Hk Hc Ha Hh Hl Hm Hat]. pose proof (pow_range k Hk) as Hp. rewrite zlen_cons in Hl, Hm. zlen_facts.
  split.
  - apply array_get_Some; [lia|]. specialize (Hat O e eq_refl). cbn [Z.of_nat] in Hat.
    by rewrite Z.add_0_r, Z.mod_small in Hat by lia.
  - rewrite Hc, MBUF_INDEX_mod by done. pose proof (Z.mod_pos_bound (ms_head ms + 1) (2 ^ k)) as Hb.
    constructor; cbn [ms_capacity ms_array ms_head ms_len]; try done; try lia.
    + rewrite u32_id by (unfold is_u32; lia). lia.
    + intros i x Hx. rewrite Zplus_mod_idemp_l.
      replace (ms_head ms + 1 + Z.of_nat i) with (ms_head ms + Z.of_nat (S i)) by lia. by apply Hat.
Qed.

(** ** The operations on the queue as a list *)

(** The queue from its first live entry on. *)
Fixpoint drop_dead {A} (q : list (option A)) : list (option A) :=
  match q with
  | None :: q => drop_dead q
  | _ => q
  end.

(** Adding to a full queue drops the dead entries at its front and the first live
    one; [None] is the end of the process. *)
Definition spec_add {A} (cap : Z) (q : list (option A)) (x : A) : option (list (option A)) :=
  if zlen q =? cap
  then match drop_dead q with [] => None | _ :: q' => Some (q' ++ [Some x]) end
  else Some (q ++ [Some x]).

Definition spec_deref {A} (q : list (option (A * Z))) (mi : Z) : list (option (A * Z)) :=
  map (fun e => match e with
                | Some (x, m) => if m =? mi then None else Some (x, m)
                | None => None
                end) q.

Lemma drop_dead_cases {A} (q : list (option A)) :
  drop_dead q = [] \/ exists x q', drop_dead q = Some x :: q'.
Proof. induction q as [|[x|] q IH]; cbn; eauto. Qed.

Lemma drop_dead_le {A} (q : list (option A)) : zlen (drop_dead q) <= zlen q.
Proof. induction q as [|[x|] q IH]; cbn [drop_dead]; rewrite ?zlen_cons; lia. Qed.

Lemma packets_drop_dead l : packets (drop_dead l) = packets l.
Proof. induction l as [|[[p mi]|] l IH]; cbn; auto. Qed.

Lemma drop_dead_map {A B} (f : A -> B) q : drop_dead (map (option_map f) q) = map (option_map f) (drop_dead q).
Proof. induction q as [|[x|] q IH]; cbn; auto. Qed.

Lemma spec_add_map {A B} (f : A -> B) cap q x :
  spec_add cap (map (option_map f) q) (f x) = option_map (map (option_map f)) (spec_add cap q x).
Proof.
  unfold spec_add, zlen. rewrite length_map, drop_dead_map.
  destruct (_ =? cap); [destruct (drop_dead q)|]; cbn; rewrite ?List.map_app; done.
Qed.

Lemma extract_loop_spec k l : forall ms,
  ring ms k l ->
  exists ms', extract_loop (length l) ms = Ret (ms', item_of <$> head (drop_dead l)) /\
    ring ms' k (tail (drop_dead l)).
Proof.
  induction l as [|e l IH]; intros ms Hr; [by exists ms|].
  destruct (ring_pop ms k e l Hr) as [Eg Hr']. cbn [length extract_loop]. rewrite Eg. cbn [mbind outcome_mbind].
  destruct e as [[p mi]|]; cbn [item_of mi_instance drop_dead head tail].
  - by eexists.
  - by apply IH.
Qed.

Lemma mbuf_extract_item_spec ms k l :
  ring ms k l ->
  exists ms', mbuf_extract_item ms = Ret (ms', item_of <$> head (drop_dead l)) /\ ring ms' k (tail (drop_dead l)).
Proof.
  intros Hr. unfold mbuf_extract_item. rewrite (ring_len _ _ _ Hr). unfold zlen. rewrite Nat2Z.id.
  by apply extract_loop_spec.
Qed.

Lemma same_packets_sub l l' h h' : (forall p, p ∈ l -> p ∈ l') -> same_packets l' h h' -> same_packets l h h'.
Proof. intros Hs H p Hp. apply H, Hs, Hp. Qed.

(** The part of [mbuf_add_item] that makes room. *)
Lemma add_makes_room ms k l refs h :
  ring ms k l -> counted (packets l ++ refs) h ->
  let room := if ms_len ms =? ms_capacity ms
              then '(ms, rm) ← mbuf_extract_item ms;
                   match rm with
                   | None => Fatal
                   | Some rm => h ← mbuf_free_buf h (mi_buffer rm); Ret (h, ms)
                   end
              else Ret (h, ms) in
  (zlen l = 2 ^ k /\ drop_dead l = [] /\ room = Fatal) \/
  (exists l' h' ms', room = Ret (h', ms') /\ ring ms' k l' /\ zlen l' < 2 ^ k /\
     counted (packets l' ++ refs) h' /\ same_packets (packets l' ++ refs) h h' /\
     forall x, spec_add (2 ^ k) l x = Some (l' ++ [Some x])).
Proof.
  intros Hr Hc room. pose proof (ring_max _ _ _ Hr) as Hm. unfold room, spec_add.
  rewrite (ring_len _ _ _ Hr), (ring_cap _ _ _ Hr). destruct (zlen l =? 2 ^ k) eqn:E; breflect.
  - destruct (mbuf_extract_item_spec ms k l Hr) as (ms' & -> & Hr'). cbn [mbind outcome_mbind].
    destruct (drop_dead_cases l) as [Ed|(x & l' & Ed)]; rewrite Ed in *; cbn [head tail fmap option_fmap option_map] in *.
    + by left.
    + right. destruct x as [p mi]. cbn [item_of mi_buffer].
      assert (Hc' : counted (p :: packets l' ++ refs) h).
      { rewrite <- (packets_drop_dead l), Ed in Hc. done. }
      destruct (mbuf_free_buf_spec _ _ _ Hc') as (h' & -> & Hc'' & Hs). cbn [mbind outcome_mbind].
      exists l', h', ms'. pose proof (drop_dead_le l) as Hle. rewrite Ed, zlen_cons in Hle.
      split_and!; try done; try lia; intros x; by bdecide.
  - right. exists l, h, ms. split_and!; try done; try lia; intros x; by bdecide.
Qed.

Lemma mbuf_add_item_spec ms k l refs h p mi :
  ring ms k l -> counted (packets l ++ refs) h -> p ∈ refs ->
  match spec_add (2 ^ k) l (p, mi) with
  | None => mbuf_add_item h ms (mkmi (Some p) (Some mi)) = Fatal
  | Some l' =>
      exists h' ms', mbuf_add_item h ms (mkmi (Some p) (Some mi)) = Ret (h', ms') /\ ring ms' k l' /\
        counted (packets l' ++ refs) h' /\ same_packets (packets l' ++ refs) h h'
  end.
Proof.
  intros Hr Hc Hp. unfold mbuf_add_item.
  destruct (add_makes_room ms k l refs h Hr Hc) as [(El & Ed & ->)|(l' & h1 & ms1 & -> & Hr1 & Hl1 & Hc1 & Hs1 & ->)].
  { unfold spec_add. rewrite Ed. by bdecide. }
  cbn [mbind outcome_mbind].
  assert ((ms_len ms1 <? ms_capacity ms1) = true) as ->
    by (rewrite (ring_len _ _ _ Hr1), (ring_cap _ _ _ Hr1); by apply Z.ltb_lt).
  cbn [c_assert mbind outcome_mbind].
  destruct (counted_alive _ _ p Hc1) as (b & Hb & _); [apply elem_of_app; by right|].
  destruct (refcount_inc_spec _ _ _ _ Hc1 (proj2 (elem_of_app _ _ _) (or_intror Hp)) Hb) as [Hc2 Hs2].
  destruct (ring_push ms1 k l' (Some (p, mi)) Hr1 Hl1) as [Ea Hr2]. cbn [item_of] in Ea. rewrite Ea.
  cbn [mbind outcome_mbind mi_buffer set_array ms_head ms_len ms_capacity ms_max_queued ms_array].
  rewrite Hb. eexists _, _. split; [done|]. split; [apply Hr2|].
  rewrite packets_app. cbn [packets mbind list_bind app].
  assert (Hperm : (packets l' ++ [p]) ++ refs ≡ₚ p :: packets l' ++ refs).
  { rewrite <- app_assoc. cbn [app]. by rewrite Permutation_middle. }
  split; [by rewrite Hperm|]. eapply same_packets_trans.
  - eapply same_packets_sub; [|exact Hs1]. intros q Hq. rewrite Hperm in Hq. apply elem_of_cons in Hq as [->|Hq]; [|done].
    apply elem_of_app. by right.
  - eapply same_packets_sub; [|exact Hs2]. intros q Hq. by rewrite Hperm in Hq.
Qed.

(** Dereferencing a client goes through the entries one by one. *)
Lemma dereference_loop_spec k refs mi l2 : forall l1 h ms,
  ring ms k (l1 ++ l2) -> counted (packets (l1 ++ l2) ++ refs) h ->
  exists h' ms', dereference_loop (length l2) h ms (zlen l1) mi = Ret (h', ms') /\
    ring ms' k (l1 ++ spec_deref l2 mi) /\ counted (packets (l1 ++ spec_deref l2 mi) ++ refs) h' /\
    same_packets (packets (l1 ++ spec_deref l2 mi) ++ refs) h h'.
Proof.
  induction l2 as [|e l2 IH]; intros l1 h ms Hr Hc.
  { exists h, ms. cbn [spec_deref map length dereference_loop]. by split_and!. }
  assert (He : (l1 ++ e :: l2) !! length l1 = Some e) by apply list_lookup_middle, eq_refl.
  cbn [length dereference_loop]. unfold zlen. rewrite (ring_entry _ _ _ _ _ Hr He). cbn [mbind outcome_mbind].
  assert (Hnext : forall h1 ms1 e1, ring ms1 k (l1 ++ e1 :: l2) -> counted (packets (l1 ++ e1 :: l2) ++ refs) h1 ->
    spec_deref (e :: l2) mi = e1 :: spec_deref l2 mi ->
    same_packets (packets (l1 ++ e1 :: l2) ++ refs) h h1 ->
    exists h' ms', dereference_loop (length l2) h1 ms1 (Z.of_nat (length l1) + 1) mi = Ret (h', ms') /\
      ring ms' k (l1 ++ spec_deref (e :: l2) mi) /\ counted (packets (l1 ++ spec_deref (e :: l2) mi) ++ refs) h' /\
      same_packets (packets (l1 ++ spec_deref (e :: l2) mi) ++ refs) h h').
  { intros h1 ms1 e1 Hr1 Hc1 Ee Hs1. rewrite Ee.
    replace (l1 ++ e1 :: l2) with ((l1 ++ [e1]) ++ l2) in Hr1, Hc1, Hs1 by (by rewrite <- app_assoc).
    destruct (IH (l1 ++ [e1]) h1 ms1 Hr1 Hc1) as (h' & ms' & E & Hr' & Hc' & Hs').
    replace ((l1 ++ [e1]) ++ spec_deref l2 mi) with (l1 ++ e1 :: spec_deref l2 mi) in Hr', Hc', Hs' by (by rewrite <- app_assoc).
    exists h', ms'. split; [|split; [done|split; [done|]]].
    - rewrite <- E. f_equal. unfold zlen. rewrite length_app. cbn [length]. lia.
    - eapply same_packets_trans; [|exact Hs']. eapply same_packets_sub; [|exact Hs1]. intros q.
      rewrite !packets_app, !elem_of_app. intros [[Hq|Hq]|Hq]; auto. left.
      change (packets (e1 :: spec_deref l2 mi)) with (packets ([e1] ++ spec_deref l2 mi)) in Hq.
      rewrite packets_app in Hq. apply elem_of_app in Hq as [Hq|Hq]; [auto|]. right.
      clear -Hq. induction l2 as [|[[p m]|] l2 IH]; cbn in *; [done| |auto].
      destruct (m =? mi); cbn in Hq; rewrite ?elem_of_cons in *; naive_solver. }
  destruct e as [[p m]|]; cbn [item_of mi_instance mi_buffer].
  - case_bool_decide as Hm.
    + injection Hm as ->.
      assert (Hperm : packets (l1 ++ Some (p, mi) :: l2) ++ refs ≡ₚ p :: packets (l1 ++ None :: l2) ++ refs).
      { rewrite !packets_app, packets_live, packets_dead, <- !app_assoc. cbn [app].
        symmetry. apply Permutation_middle. }
      rewrite Hperm in Hc. destruct (mbuf_free_buf_spec _ _ _ Hc) as (h1 & -> & Hc1 & Hs1). cbn [mbind outcome_mbind].
      destruct (ring_set ms k _ _ _ None Hr He) as [Ea Hr1]. cbn [item_of] in Ea. rewrite Ea. cbn [mbind outcome_mbind].
      rewrite insert_app_r_alt, Nat.sub_diag in Hr1 by done. cbn [insert list_insert] in Hr1.
      apply (Hnext h1 _ None); [done|done| |done]. cbn [spec_deref map]. by rewrite Z.eqb_refl.
    + cbn [mbind outcome_mbind]. apply (Hnext h ms (Some (p, m))); [done|done| |done].
      cbn [spec_deref map]. destruct (Z.eqb_spec m mi); [congruence|done].
  - cbn [mbind outcome_mbind]. rewrite bool_decide_false by done. cbn [mbind outcome_mbind].
    by apply (Hnext h ms None).
Qed.

Lemma mbuf_dereference_instance_spec ms k l refs h mi :
  ring ms k l -> counted (packets l ++ refs) h ->
  exists h' ms', mbuf_dereference_instance h ms mi = Ret (h', ms') /\
    ring ms' k (spec_deref l mi) /\ counted (packets (spec_deref l mi) ++ refs) h' /\
    same_packets (packets (spec_deref l mi) ++ refs) h h'.
Proof.
  intros Hr Hc. unfold mbuf_dereference_instance. rewrite (ring_len _ _ _ Hr). unfold zlen. rewrite Nat2Z.id.
  by apply (dereference_loop_spec k refs mi l []).
Qed.

(** Peeking finds the client of the first live entry. *)
Lemma peek_loop_spec k l2 : forall l1 ms,
  ring ms k (l1 ++ l2) ->
  peek_loop (length l2) ms (zlen l1) = Ret (match drop_dead l2 with Some (_, mi) :: _ => Some mi | _ => None end).
Proof.
  induction l2 as [|e l2 IH]; intros l1 ms Hr; [done|].
  assert (He : (l1 ++ e :: l2) !! length l1 = Some e) by apply list_lookup_middle, eq_refl.
  cbn [length peek_loop]. unfold zlen. rewrite (ring_entry _ _ _ _ _ Hr He). cbn [mbind outcome_mbind].
  destruct e as [[p m]|]; cbn [item_of mi_instance drop_dead]; [done|].
  replace (l1 ++ None :: l2) with ((l1 ++ [None]) ++ l2) in Hr by (by rewrite <- app_assoc).
  rewrite <- (IH _ _ Hr). f_equal. unfold zlen. rewrite length_app. cbn [length]. lia.
Qed.

Lemma mbuf_peek_spec ms k l :
  ring ms k l -> mbuf_peek ms = Ret (match drop_dead l with Some (_, mi) :: _ => Some mi | _ => None end).
Proof.
  intros Hr. unfold mbuf_peek, mbuf_defined, mbuf_peek_dowork. rewrite (ring_len _ _ _ Hr).
  destruct (zlen l =? 0) eqn:E; breflect; cbn [negb].
  - by rewrite (zlen_0_nil l).
  - unfold zlen. rewrite Nat2Z.id. by apply (peek_loop_spec k l []).
Qed.

(** ** The server's use of the queue *)

(** What the server does with its queue: a packet for one client, a packet for
    several, taking a packet out, and the end of a client. *)
Inductive queue_op : Type :=
| OpUnicast (buf : buffer) (ready : bool) (mi : Z)
| OpBcast (buf : buffer) (targets : list (Z * bool))
| OpGet
| OpClose (mi : Z).

(** New packets get an address that is not in use, in memory with arbitrary
    bytes. *)
Definition new_addr (h : mheap) : Z := fresh (dom h : gset Z).
Definition new_bytes (buf : buffer) : list Z := replicate (Z.to_nat (capacity buf)) 165.

Definition queue_step (st : mheap * mbuf_set) (op : queue_op) : outcome (mheap * mbuf_set * option (list Z * bool * Z)) :=
  let '(h, ms) := st in
  match op with
  | OpUnicast buf ready mi =>
      '(h, ms) ← multi_unicast h ms (new_addr h) (new_bytes buf) buf ready mi; Ret (h, ms, None)
  | OpBcast buf targets =>
      '(h, ms) ← multi_bcast h ms (new_addr h) (new_bytes buf) buf targets; Ret (h, ms, None)
  | OpGet =>
      '(h, ms, r) ← multi_get_queue h ms;
      Ret (h, ms, match r with Some (b, uni, mi) => Some (content b, uni, mi) | None => None end)
  | OpClose mi => '(h, ms) ← mbuf_dereference_instance h ms mi; Ret (h, ms, None)
  end.

Fixpoint queue_run (st : mheap * mbuf_set) (ops : list queue_op) : outcome (mheap * mbuf_set * list (list Z * bool * Z)) :=
  match ops with
  | [] => Ret (st.1, st.2, [])
  | op :: ops =>
      '(h, ms, r) ← queue_step st op;
      '(h, ms, out) ← queue_run (h, ms) ops;
      Ret (h, ms, match r with Some x => x :: out | None => out end)
  end.

(** The specification: a queue of packets (bytes and flags) and clients. *)
Definition squeue : Type := list (option (list Z * Z * Z)).

Definition spec_send (cap : Z) (q : squeue) (x : list Z) (flags : Z) (t : Z * bool) : option squeue :=
  if t.2 then spec_add cap q (x, flags, t.1) else Some q.

Fixpoint spec_send_all (cap : Z) (q : squeue) (x : list Z) (flags : Z) (ts : list (Z * bool)) : option squeue :=
  match ts with
  | [] => Some q
  | t :: ts => q ← spec_send cap q x flags t; spec_send_all cap q x flags ts
  end.

Definition spec_step (cap : Z) (q : squeue) (op : queue_op) : option (squeue * option (list Z * bool * Z)) :=
  match op with
  | OpUnicast buf ready mi =>
      if 0 <? buf_len buf
      then q ← spec_send cap q (content buf) MF_UNICAST (mi, ready); Some (q, None)
      else Some (q, None)
  | OpBcast buf targets =>
      if 0 <? buf_len buf
      then q ← spec_send_all cap q (content buf) 0 targets; Some (q, None)
      else Some (q, None)
  | OpGet =>
      match drop_dead q with
      | Some (x, flags, mi) :: q => Some (q, Some (x, negb (Z.land flags MF_UNICAST =? 0), mi))
      | _ => Some ([], None)
      end
  | OpClose mi => Some (spec_deref q mi, None)
  end.

Fixpoint spec_run (cap : Z) (q : squeue) (ops : list queue_op) : option (squeue * list (list Z * bool * Z)) :=
  match ops with
  | [] => Some (q, [])
  | op :: ops =>
      '(q, r) ← spec_step cap q op;
      '(q, out) ← spec_run cap q ops;
      Some (q, match r with Some x => x :: out | None => out end)
  end.

Definition op_ok (op : queue_op) : Prop :=
  match op with OpUnicast buf _ _ | OpBcast buf _ => buf_wf buf | _ => True end.

(** ** Representation *)

Definition see (h : mheap) (e : Z * Z) : list Z * Z * Z := (pkt_of h e.1, e.2).
Definition abs (h : mheap) (l : list entry) : squeue := map (option_map (see h)) l.

(** The ring holds [l], memory exactly its packets and those of [refs]. *)
Definition holds (h : mheap) (ms : mbuf_set) (k : Z) (l : list entry) (refs : list Z) : Prop :=
  ring ms k l /\ counted (packets l ++ refs) h.

Lemma abs_same l h h' refs : same_packets (packets l ++ refs) h h' -> abs h' l = abs h l.
Proof.
  intros Hs. assert (H : same_packets (packets l) h h').
  { eapply same_packets_sub; [|exact Hs]. intros p Hp. apply elem_of_app. by left. }
  clear Hs. induction l as [|[[p mi]|] l IH]; [done|..]; cbn [abs map]; fold (abs h l) (abs h' l).
  - rewrite packets_live in H. rewrite IH by (eapply same_packets_sub; [|exact H]; intros; by apply elem_of_cons; right).
    unfold see, option_map. cbn [fst snd]. rewrite (H p); [done|]. apply elem_of_cons. by left.
  - rewrite packets_dead in H. by rewrite IH.
Qed.

Lemma abs_deref h l mi : abs h (spec_deref l mi) = spec_deref (abs h l) mi.
Proof.
  unfold abs, spec_deref. rewrite !List.map_map. apply List.map_ext. intros [[p m]|]; [|done]. cbn.
  by destruct (m =? mi).
Qed.

Lemma multi_add_mbuf_spec h ms k l refs p t :
  holds h ms k l refs -> p ∈ refs ->
  match spec_send (2 ^ k) (abs h l) (pkt_of h p).1 (pkt_of h p).2 t with
  | None => multi_add_mbuf h ms t.2 t.1 p = Fatal
  | Some q =>
      exists h' ms' l', multi_add_mbuf h ms t.2 t.1 p = Ret (h', ms') /\ holds h' ms' k l' refs /\
        abs h' l' = q /\ same_packets refs h h'
  end.
Proof.
  intros [Hr Hc] Hp. unfold spec_send, multi_add_mbuf. destruct t as [mi [|]]; cbn [fst snd].
  - rewrite <- surjective_pairing. change (pkt_of h p, mi) with (see h (p, mi)). unfold abs. rewrite spec_add_map.
    pose proof (mbuf_add_item_spec ms k l refs h p mi Hr Hc Hp) as H.
    destruct (spec_add (2 ^ k) l (p, mi)) as [l'|]; cbn [option_map]; [|done].
    destruct H as (h' & ms' & E & Hr' & Hc' & Hs). exists h', ms', l'. split; [done|]. split; [done|].
    split; [by eapply abs_same|]. eapply same_packets_sub; [|exact Hs]. intros q Hq. apply elem_of_app. by right.
  - exists h, ms, l. by split_and!.
Qed.

Lemma bcast_loop_spec k refs p x flags ts : forall h ms l,
  holds h ms k l refs -> p ∈ refs -> pkt_of h p = (x, flags) ->
  match spec_send_all (2 ^ k) (abs h l) x flags ts with
  | None => bcast_loop h ms p ts = Fatal
  | Some q => exists h' ms' l', bcast_loop h ms p ts = Ret (h', ms') /\ holds h' ms' k l' refs /\ abs h' l' = q
  end.
Proof.
  induction ts as [|t ts IH]; intros h ms l Hh Hp Hx; cbn [spec_send_all bcast_loop].
  { by exists h, ms, l. }
  pose proof (multi_add_mbuf_spec h ms k l refs p t Hh Hp) as H. rewrite Hx in H. cbn [fst snd] in H.
  destruct (spec_send _ _ _ _ t) as [q|]; cbn [mbind option_bind].
  - destruct H as (h' & ms' & l' & E & Hh' & <- & Hs). destruct t as [mi ready]. cbn [fst snd] in E.
    rewrite E. cbn [mbind outcome_mbind]. apply IH; [done|done|]. by rewrite Hs.
  - destruct t as [mi ready]. cbn [fst snd] in H. by rewrite H.
Qed.

Lemma clone_buf_content buf :
  buf_wf buf -> 0 < buf_len buf ->
  exists b, clone_buf (new_bytes buf) buf = Ret b /\ content b = content buf.
Proof.
  intros Hwf Hl. wf_destruct Hwf. rewrite buf_len_conc in Hl. unfold clone_buf, new_bytes.
  rewrite buf_contents_conc, buf_len_conc, content_conc. cbn [mbind outcome_mbind capacity offset len conc]. bdecide.
  zlen_facts. unfold buf_store. cbn [data]. set (d := replicate _ 165).
  assert (Hd : zlen d = zlen pre + zlen c + zlen post) by (unfold d; rewrite zlen_replicate; lia).
  rewrite (store_eq d (ztake (zlen pre) d) (ztake (zlen c) (zdrop (zlen pre) d)) (zdrop (zlen c) (zdrop (zlen pre) d)));
    [|by rewrite !ztake_zdrop|autorewrite with zlen; lia..].
  cbn [mbind outcome_mbind]. eexists. split; [done|]. unfold content. cbn [data len offset].
  rewrite zdrop_app_eq by (autorewrite with zlen; lia). apply ztake_app_zlen.
Qed.

Lemma new_addr_unused h : h !! new_addr h = None.
Proof. apply (not_elem_of_dom (D := gset Z)). exact (is_fresh _). Qed.

(** The sender's own reference goes away in the end. *)
Lemma release_own h ms k l p q :
  holds h ms k l [p] -> abs h l = q ->
  exists h', mbuf_free_buf h (Some p) = Ret h' /\ holds h' ms k l [] /\ abs h' l = q.
Proof.
  intros [Hr Hc] <-. assert (Hc' : counted (p :: packets l) h) by (by rewrite Permutation_cons_append).
  destruct (mbuf_free_buf_spec _ _ _ Hc') as (h' & E & Hc'' & Hs). exists h'. split; [done|].
  split; [split; [done|by rewrite app_nil_r]|]. apply (abs_same l h h' []). by rewrite app_nil_r.
Qed.

(** A packet just made belongs to the sender and disturbs no other. *)
Lemma alloc_own h ms k l b f :
  holds h ms k l [] ->
  let h1 := <[new_addr h := mkmb b 1 f]> h in
  holds h1 ms k l [new_addr h] /\ abs h1 l = abs h l /\ pkt_of h1 (new_addr h) = (content b, f).
Proof.
  intros [Hr Hc] h1. rewrite app_nil_r in Hc.
  destruct (counted_alloc _ _ _ b f Hc (new_addr_unused h)) as [Hc1 Hs]. split; [split; [done|]|split].
  - by rewrite <- Permutation_cons_append.
  - apply (abs_same l h h1 []). by rewrite app_nil_r.
  - unfold pkt_of, h1. by rewrite lookup_insert_eq.
Qed.

Lemma queue_step_spec h ms k l op :
  holds h ms k l [] -> op_ok op ->
  match spec_step (2 ^ k) (abs h l) op with
  | None => queue_step (h, ms) op = Fatal
  | Some (q, r) =>
      exists h' ms' l', queue_step (h, ms) op = Ret (h', ms', r) /\ holds h' ms' k l' [] /\ abs h' l' = q
  end.
Proof.
  intros Hh Hok. destruct op as [buf ready mi|buf targets| |mi]; cbn [spec_step queue_step op_ok] in *.
  - unfold multi_unicast. destruct (0 <? buf_len buf) eqn:E; breflect; [|by exists h, ms, l].
    destruct (clone_buf_content buf Hok E) as (b & Eb & Hcb). unfold mbuf_alloc_buf. rewrite Eb. cbn [mbind outcome_mbind].
    rewrite lookup_insert_eq. cbn [mbind outcome_mbind mb_buf mb_refcount]. rewrite insert_insert_eq.
    destruct (alloc_own h ms k l b MF_UNICAST Hh) as (Hh1 & Ha1 & Hp1). set (h1 := <[_ := _]> h) in *.
    pose proof (multi_add_mbuf_spec h1 ms k l [new_addr h] (new_addr h) (mi, ready) Hh1) as H.
    rewrite Hp1, Ha1, Hcb in H. cbn [fst snd] in H. specialize (H (list_elem_of_here _ _)).
    destruct (spec_send _ _ _ _ _) as [q|]; cbn [mbind option_bind].
    + destruct H as (h2 & ms2 & l2 & -> & Hh2 & Ha2 & _). cbn [mbind outcome_mbind].
      destruct (release_own _ _ _ _ _ _ Hh2 Ha2) as (h3 & -> & Hh3 & Ha3). cbn [mbind outcome_mbind].
      by exists h3, ms2, l2.
    + by rewrite H.
  - unfold multi_bcast. destruct (0 <? buf_len buf) eqn:E; breflect; [|by exists h, ms, l].
    destruct (clone_buf_content buf Hok E) as (b & Eb & Hcb). unfold mbuf_alloc_buf. rewrite Eb. cbn [mbind outcome_mbind].
    destruct (alloc_own h ms k l b 0 Hh) as (Hh1 & Ha1 & Hp1). set (h1 := <[_ := _]> h) in *.
    pose proof (bcast_loop_spec k [new_addr h] (new_addr h) (content b) 0 targets h1 ms l Hh1
      (list_elem_of_here _ _) Hp1) as H. rewrite Ha1, Hcb in H.
    destruct (spec_send_all _ _ _ _ _) as [q|]; cbn [mbind option_bind].
    + destruct H as (h2 & ms2 & l2 & -> & Hh2 & Ha2). cbn [mbind outcome_mbind].
      destruct (release_own _ _ _ _ _ _ Hh2 Ha2) as (h3 & -> & Hh3 & Ha3). cbn [mbind outcome_mbind].
      by exists h3, ms2, l2.
    + by rewrite H.
  - destruct Hh as [Hr Hc]. destruct (mbuf_extract_item_spec ms k l Hr) as (ms' & Ex & Hr').
    unfold multi_get_queue, abs. rewrite Ex, drop_dead_map. cbn [mbind outcome_mbind].
    destruct (drop_dead_cases l) as [Ed|([p mi] & l' & Ed)]; rewrite Ed in *; cbn [map option_map head tail fmap option_fmap see fst snd] in *.
    + exists h, ms', []. split; [done|]. split; [|done]. split; [done|].
      by rewrite <- (packets_drop_dead l), Ed in Hc.
    + rewrite <- (packets_drop_dead l), Ed, packets_live in Hc. rewrite app_nil_r in Hc.
      destruct (counted_alive _ _ p Hc) as (b & Hb & _); [apply elem_of_cons; by left|].
      destruct (mbuf_free_buf_spec _ _ _ Hc) as (h' & Ef & Hc' & Hs).
      cbn [item_of mi_buffer mi_instance]. rewrite Hb, Ef. cbn [mbind outcome_mbind].
      destruct (pkt_of h p) as [x flags] eqn:Epk. unfold pkt_of in Epk. rewrite Hb in Epk. injection Epk as <- <-.
      exists h', ms', l'. split; [done|]. split; [split; [done|by rewrite app_nil_r]|].
      apply (abs_same l' h h' []). by rewrite app_nil_r.
  - destruct Hh as [Hr Hc]. destruct (mbuf_dereference_instance_spec ms k l [] h mi Hr Hc) as (h' & ms' & -> & Hr' & Hc' & Hs).
    cbn [mbind outcome_mbind]. exists h', ms', (spec_deref l mi). split; [done|]. split; [done|].
    rewrite (abs_same _ _ _ _ Hs). apply abs_deref.
Qed.

Lemma queue_run_spec k ops : forall h ms l,
  holds h ms k l [] -> Forall op_ok ops ->
  match spec_run (2 ^ k) (abs h l) ops with
  | None => queue_run (h, ms) ops = Fatal
  | Some (q, out) =>
      exists h' ms' l', queue_run (h, ms) ops = Ret (h', ms', out) /\ holds h' ms' k l' [] /\ abs h' l' = q
  end.
Proof.
  induction ops as [|op ops IH]; intros h ms l Hh Hops; cbn [spec_run queue_run].
  { by exists h, ms, l. }
  apply Forall_cons in Hops as [Hop Hops]. pose proof (queue_step_spec h ms k l op Hh Hop) as H.
  destruct (spec_step _ _ op) as [[q r]|]; cbn [mbind option_bind]; [|by rewrite H].
  destruct H as (h1 & ms1 & l1 & -> & Hh1 & <-). cbn [mbind outcome_mbind].
  specialize (IH h1 ms1 l1 Hh1 Hops). destruct (spec_run _ _ ops) as [[q' out]|]; cbn [mbind option_bind].
  - destruct IH as (h2 & ms2 & l2 & -> & Hh2 & Ha2). by exists h2, ms2, l2.
  - by rewrite IH.
Qed.

Lemma mbuf_init_holds size garbage :
  0 <= size <= 2 ^ 31 ->
  exists k ms, mbuf_init size garbage = Ret ms /\ 0 <= k <= 31 /\ ms_capacity ms = 2 ^ k /\ size <= 2 ^ k /\
    holds ∅ ms k [] [].
Proof.
  intros Hs. unfold mbuf_init, adjust_power_of_2.
  destruct (adjust_power_of_2_loop_spec 65 0 size) as (j & E & _ & Hu & Hlow); [lia..|by left|].
  change (2 ^ Z.of_nat 0) with 1 in E. rewrite E. cbn [mbind outcome_mbind].
  assert (Hj : 0 <= Z.of_nat j <= 31).
  { destruct Hlow as [->|Hlow]; [lia|]. split; [lia|].
    assert (2 ^ (Z.of_nat j - 1) < 2 ^ 31) as Hp%Z.pow_lt_mono_r_iff by lia; lia. }
  pose proof (pow_range _ Hj). rewrite u32_id by (unfold is_u32; lia).
  exists (Z.of_nat j). eexists. split; [done|]. split; [done|]. split; [done|]. split; [done|]. split.
  - constructor; cbn [ms_capacity ms_array ms_head ms_len]; try done; try lia.
    + unfold zlen. rewrite length_map, length_seq. lia.
    + rewrite zlen_nil. lia.
  - intros p. rewrite lookup_empty. done.
Qed.

(** C38: The server's packet queue is a bounded queue of packets and clients.  Along
    every sequence of packets sent to one client or to many, packets taken out and
    clients closed, the ring of shared, reference-counted packets hands out exactly
    the packets of the specification, in order and with their bytes, and never a
    packet of a closed client; memory holds exactly the packets that are queued
    (nothing is leaked, nothing used after it was freed).  The process gives up in
    exactly one case: a packet is added to a full queue all of whose clients are
    gone. *)
Theorem queue_refines_spec size garbage ops :
  0 <= size <= 2 ^ 31 -> Forall op_ok ops ->
  exists ms, mbuf_init size garbage = Ret ms /\ size <= ms_capacity ms /\
    match spec_run (ms_capacity ms) [] ops with
    | None => queue_run (∅, ms) ops = Fatal
    | Some (q, out) =>
        exists h' ms' l, queue_run (∅, ms) ops = Ret (h', ms', out) /\
          zlen l <= ms_capacity ms /\ abs h' l = q /\
          forall p, p ∈ dom h' <-> p ∈ packets l
    end.
Proof.
  intros Hs Hops. destruct (mbuf_init_holds size garbage Hs) as (k & ms & E & Hk & Hc & Hsz & Hh).
  exists ms. split; [done|]. rewrite Hc. split; [done|].
  pose proof (queue_run_spec k ops ∅ ms [] Hh Hops) as H. cbn [abs map] in H.
  destruct (spec_run _ _ ops) as [[q out]|]; [|done].
  destruct H as (h' & ms' & l & Er & [Hr Hcn] & Ha). exists h', ms', l. split; [done|].
  split; [by apply (ring_max _ _ _ Hr)|]. split; [done|]. rewrite app_nil_r in Hcn.
  intros p. rewrite elem_of_dom, occ_elem. specialize (Hcn p). unfold is_Some. destruct (h' !! p); naive_solver lia.
Qed.

(** ** Witnesses *)

Definition w_packet (x : list Z) : buffer := conc [0; 0] x [0].

(** A packet for one client, one for two; the second client goes; one packet is
    taken out. *)
Definition w_ops : list queue_op :=
  [OpUnicast (w_packet [1; 2]) true 7; OpBcast (w_packet [3]) [(7, true); (8, true); (9, false)]; OpClose 7; OpGet].

Lemma queue_refines_spec_witness :
  spec_run 4 [] w_ops = Some ([], [([3], false, 8)]) /\
  exists ms, mbuf_init 3 (fun _ => mkmi None None) = Ret ms /\ 3 <= ms_capacity ms /\
    match spec_run (ms_capacity ms) [] w_ops with
    | None => queue_run (∅, ms) w_ops = Fatal
    | Some (q, out) =>
        exists h' ms' l, queue_run (∅, ms) w_ops = Ret (h', ms', out) /\
          zlen l <= ms_capacity ms /\ abs h' l = q /\
          forall p, p ∈ dom h' <-> p ∈ packets l
    end.
Proof.
  split; [vm_compute; reflexivity|].
  apply (queue_refines_spec 3 (fun _ => mkmi None None) w_ops); [split; [discriminate|vm_compute; discriminate]|].
  repeat constructor; apply conc_wf; vm_compute; reflexivity.
Defined.

(** A server with a queue of two entries, both for a client that then
    disconnects, ends at the next packet for another client. *)
Theorem full_queue_of_closed_client_is_fatal :
  exists ms, mbuf_init 2 (fun _ => mkmi None None) = Ret ms /\
    queue_run (∅, ms) [OpUnicast (w_packet [1]) true 7; OpUnicast (w_packet [2]) true 7; OpClose 7;
                       OpUnicast (w_packet [3]) true 8] = Fatal.
Proof. eexists. split; [vm_compute; reflexivity|]. vm_compute. reflexivity. Qed.
