(* ===== verification/TlsWrap.v ===== *)
(** * Wrapping of control packets ([tls_crypt.c], the control channel authentication of [ssl.c])

    A control packet starts with its opcode and the session number of its sender.
    With --tls-auth an HMAC and a packet number follow them; with --tls-crypt the
    rest is also encrypted, under a key that is the same for all clients or, with
    --tls-crypt-v2, is sent along, itself wrapped for the server.

    The AES-256-CTR cipher and the HMAC of a key are parameters ([ctr_cipher],
    [sha_hmac]), as in [Crypto]; [script] is the answer of the --tls-crypt-v2-verify
    script to the type and the content of the metadata, [None] without script. *)
From S2P Require Import Prelude Integer Buffer Reliable PacketId Mtu Crypto.

Definition P_KEY_ID_MASK : Z := 7.
Definition P_OPCODE_SHIFT : Z := 3.
Definition P_CONTROL_HARD_RESET_CLIENT_V2 : Z := 7.
Definition P_CONTROL_HARD_RESET_CLIENT_V3 : Z := 10.

Definition TLS_CRYPT_TAG_SIZE : Z := 32.
Definition TLS_CRYPT_PID_SIZE : Z := 4 + 4.
Definition TLS_CRYPT_BLOCK_SIZE : Z := 16.
Definition TLS_CRYPT_OFF_PID : Z := 1 + SID_SIZE.
Definition TLS_CRYPT_OFF_TAG : Z := TLS_CRYPT_OFF_PID + TLS_CRYPT_PID_SIZE.
Definition TLS_CRYPT_OFF_CT : Z := TLS_CRYPT_OFF_TAG + TLS_CRYPT_TAG_SIZE.
Definition TLS_CRYPT_V2_MAX_WKC_LEN : Z := 1024.
Definition TLS_CRYPT_V2_CLIENT_KEY_LEN : Z := 256.
Definition TLS_CRYPT_V2_TAG_SIZE : Z := TLS_CRYPT_TAG_SIZE.
Definition TLS_CRYPT_V2_MAX_METADATA_LEN : Z :=
  TLS_CRYPT_V2_MAX_WKC_LEN - (TLS_CRYPT_V2_CLIENT_KEY_LEN + TLS_CRYPT_V2_TAG_SIZE + 2).

Definition tls_crypt_buf_overhead : Z := packet_id_size true + TLS_CRYPT_TAG_SIZE + TLS_CRYPT_BLOCK_SIZE.

Definition tls_crypt_adjust_frame_parameters (f : frame) : frame :=
  frame_add_to_extra_frame f tls_crypt_buf_overhead.

(** ** Encryption of control packets *)

(** The state, [dst] and whether it succeeded.  The packet number is counted even
    when the packet does not fit.  [cipher_ctx_final] is given the start of [dst]. *)
Definition tls_crypt_wrap (now : Z) (dc : data_channel) (src dst : buffer)
  : outcome (data_channel * buffer * bool) :=
  let ctx := dc_encrypt dc in
  c ← must (k_cipher ctx);
  h ← must (k_hmac ctx);
  _ ← c_assert (dc_packet_id_initialized dc);
  _ ← c_assert (hmac_ctx_size h =? 256 / 8);
  '(send, dst, ok) ← packet_id_write now (dc_send dc) dst true false;
  let dc := set_send dc send in
  if negb ok then Ret (dc, set_len dst 0, false)
  else if negb (buf_safe dst (buf_len src + TLS_CRYPT_BLOCK_SIZE + TLS_CRYPT_TAG_SIZE))
  then Ret (dc, set_len dst 0, false)
  else
    ad ← buf_contents dst;
    body ← buf_contents src;
    let '(dst, tag) := buf_write_alloc dst TLS_CRYPT_TAG_SIZE in
    tag ← must tag;
    dst ← buf_store dst tag (hmac_of h (ad ++ body));
    iv ← buf_load dst tag (c_iv_length c);
    _ ← c_assert (c_reset c iv);
    out ← must (c_update c iv [] body);
    e ← bend dst;
    dst ← cipher_put dst e out;
    out ← must (c_final c iv [] body);
    p ← bptr dst;
    dst ← cipher_put dst p out;
    Ret (dc, dst, true).

(** The comparison of a tag with the array [tag_check], which is zeroed before the
    HMAC is stored into it. *)
Definition tag_matches (h : hmac_ctx) (x tag : list Z) : outcome bool :=
  let mac := hmac_of h x in
  if TLS_CRYPT_TAG_SIZE <? zlen mac then Oob
  else
    let tag_check := mac ++ replicate (Z.to_nat (TLS_CRYPT_TAG_SIZE - zlen mac)) 0 in
    Ret (memcmp_constant_time tag tag_check =? 0).

(** The replay check at the end of [tls_crypt_unwrap]. *)
Definition unwrap_replay_check (now : Z) (dc : data_channel) (src : buffer)
  : outcome (data_channel * bool) :=
  if dc_ignore_packet_id dc then Ret (dc, true)
  else
    let '(tmp, ok) := buf_advance src TLS_CRYPT_OFF_PID in
    _ ← c_assert ok;
    '(_, pin, ok) ← packet_id_read tmp true;
    _ ← c_assert ok;
    '(opt, ok) ← crypto_check_replay now (dc_opt dc) pin;
    Ret (set_opt dc opt, ok).

Definition tls_crypt_unwrap (now : Z) (dc : data_channel) (src dst : buffer)
  : outcome (data_channel * buffer * bool) :=
  let ctx := dc_decrypt dc in
  _ ← c_assert (0 <? len src);
  c ← must (k_cipher ctx);
  _ ← c_assert (dc_packet_id_initialized dc || dc_ignore_packet_id dc);
  if buf_len src <? TLS_CRYPT_OFF_CT then Ret (dc, set_len dst 0, false)
  else if negb (buf_safe dst (buf_len src - TLS_CRYPT_OFF_CT + TLS_CRYPT_BLOCK_SIZE))
  then Ret (dc, set_len dst 0, false)
  else
    p ← bptr src;
    iv ← buf_load src (p + TLS_CRYPT_OFF_TAG) (c_iv_length c);
    if negb (c_reset c iv) then Ret (dc, set_len dst 0, false)
    else
      input ← buf_load src (p + TLS_CRYPT_OFF_CT) (buf_len src - TLS_CRYPT_OFF_CT);
      match c_update c iv [] input with
      | None => Ret (dc, set_len dst 0, false)
      | Some out =>
          w ← bptr dst;
          dst ← cipher_put dst w out;
          match c_final c iv [] input with
          | None => Ret (dc, set_len dst 0, false)
          | Some out =>
              w ← bptr dst;
              dst ← cipher_put dst w out;
              ad ← buf_load src p TLS_CRYPT_OFF_TAG;
              text ← buf_contents dst;
              tag ← buf_load src (p + TLS_CRYPT_OFF_TAG) TLS_CRYPT_TAG_SIZE;
              match k_hmac ctx with
              | None => Oob
              | Some h =>
                  same ← tag_matches h (ad ++ text) tag;
                  if negb same then Ret (dc, set_len dst 0, false)
                  else
                    '(dc, ok) ← unwrap_replay_check now dc src;
                    if ok : bool then Ret (dc, dst, true) else Ret (dc, set_len dst 0, false)
              end
          end
      end.

(** ** Client keys *)

Inductive wrap_mode : Type := TLS_WRAP_NONE | TLS_WRAP_AUTH | TLS_WRAP_CRYPT.

#[global] Instance wrap_mode_eq_dec : EqDecision wrap_mode.
Proof. solve_decision. Defined.

(** [struct tls_wrap_ctx] *)
Record tls_wrap_ctx : Type := mkwrap {
  tw_mode : wrap_mode;
  tw_opt : data_channel;
  tw_work : buffer;
  tw_server_key : key_ctx;
  tw_wkc : buffer;
  tw_metadata : buffer;
  tw_cleanup_key_ctx : bool
}.

Definition tw_set_opt (ctx : tls_wrap_ctx) (dc : data_channel) : tls_wrap_ctx :=
  mkwrap (tw_mode ctx) dc (tw_work ctx) (tw_server_key ctx) (tw_wkc ctx) (tw_metadata ctx)
    (tw_cleanup_key_ctx ctx).

Definition tw_set_work (ctx : tls_wrap_ctx) (b : buffer) : tls_wrap_ctx :=
  mkwrap (tw_mode ctx) (tw_opt ctx) b (tw_server_key ctx) (tw_wkc ctx) (tw_metadata ctx)
    (tw_cleanup_key_ctx ctx).

Definition tw_set_metadata (ctx : tls_wrap_ctx) (b : buffer) : tls_wrap_ctx :=
  mkwrap (tw_mode ctx) (tw_opt ctx) (tw_work ctx) (tw_server_key ctx) (tw_wkc ctx) b
    (tw_cleanup_key_ctx ctx).

(** The second half of [tls_crypt_v2_unwrap_client_key]: [wkc] is the ciphertext, with
    the tag in front of it, at [tag_ptr].  The metadata and, when the key
    verifies, its bytes ([client_key->keys]). *)
Definition decrypt_client_key (server_key : key_ctx) (metadata wkc : buffer) (tag_ptr : Z) (net_len : list Z)
  : outcome (buffer * option (list Z)) :=
  match k_cipher server_key with
  | None => Oob
  | Some c =>
      iv ← buf_load wkc tag_ptr (c_iv_length c);
      if negb (c_reset c iv) then Ret (metadata, None)
      else
        plaintext ← buf_set_write (replicate (Z.to_nat TLS_CRYPT_V2_MAX_WKC_LEN) 0);
        input ← buf_contents wkc;
        match c_update c iv [] input with
        | None => Ret (metadata, None)
        | Some out =>
            w ← bptr plaintext;
            plaintext ← cipher_put plaintext w out;
            match c_final c iv [] input with
            | None => Ret (metadata, None)
            | Some out =>
                w ← bend plaintext;
                plaintext ← cipher_put plaintext w out;
                text ← buf_contents plaintext;
                tag ← buf_load wkc tag_ptr TLS_CRYPT_TAG_SIZE;
                match k_hmac server_key with
                | None => Oob
                | Some h =>
                    same ← tag_matches h (net_len ++ text) tag;
                    if negb same then Ret (metadata, None)
                    else if buf_len plaintext <? TLS_CRYPT_V2_CLIENT_KEY_LEN
                    then Ret (metadata, None)
                    else
                      w ← bptr plaintext;
                      keys ← buf_load plaintext w TLS_CRYPT_V2_CLIENT_KEY_LEN;
                      let '(plaintext, ok) := buf_advance plaintext TLS_CRYPT_V2_CLIENT_KEY_LEN in
                      _ ← c_assert ok;
                      '(metadata, ok) ← buf_copy metadata plaintext;
                      Ret (metadata, if ok : bool then Some keys else None)
                end
            end
        end
  end.

Definition tls_crypt_v2_unwrap_client_key (server_key : key_ctx) (metadata wrapped_client_key : buffer)
  : outcome (buffer * option (list Z)) :=
  if TLS_CRYPT_V2_MAX_WKC_LEN <? buf_len wrapped_client_key then Ret (metadata, None)
  else if buf_len wrapped_client_key <? 2 then Ret (metadata, None)
  else
    tag_ptr ← bptr wrapped_client_key;
    e ← bend wrapped_client_key;
    net_len ← buf_load wrapped_client_key (e - 2) 2;
    if negb (be_value net_len =? buf_len wrapped_client_key) then Ret (metadata, None)
    else
      let '(wkc, _) := buf_inc_len wrapped_client_key (-2) in
      let '(wkc, ok) := buf_advance wkc TLS_CRYPT_TAG_SIZE in
      if negb ok then Ret (metadata, None)
      else decrypt_client_key server_key metadata wkc tag_ptr net_len.

(** The script sees the type, the first byte, and the rest of the metadata. *)
Definition tls_crypt_v2_verify_metadata (script : Z -> list Z -> bool) (metadata : buffer) : outcome bool :=
  '(metadata, metadata_type) ← buf_read_u8 metadata;
  if metadata_type <? 0 then Ret false
  else bytes ← buf_contents metadata; Ret (script metadata_type bytes).

Inductive direction : Type := KEY_DIRECTION_BIDIRECTIONAL | KEY_DIRECTION_NORMAL | KEY_DIRECTION_INVERSE.

(** The index of the key that is sent with, of the key that is received with, and
    how many keys are needed. *)
Definition key_direction_state_init (key_direction : direction) : Z * Z * Z :=
  match key_direction with
  | KEY_DIRECTION_NORMAL => (0, 1, 2)
  | KEY_DIRECTION_INVERSE => (1, 0, 2)
  | KEY_DIRECTION_BIDIRECTIONAL => (0, 0, 1)
  end.

Section Wrapping.
Context (ctr_cipher : list Z -> bool -> cipher_ctx) (sha_hmac : list Z -> hmac_ctx).

(** [init_key_ctx] with the key type of [tls_crypt_kt]: both lengths are 32 bytes.
    [key] is a [struct key], 64 bytes of cipher key and 64 bytes of HMAC key. *)
Definition init_key_ctx (key : list Z) (enc : bool) : key_ctx :=
  mkkey (Some (ctr_cipher (ztake 32 key) enc)) (Some (sha_hmac (ztake 32 (zdrop 64 key)))) [].

(** [init_key_ctx_bi]: encryption and decryption.  [keys] are the bytes of the two
    keys of a [struct key2]. *)
Definition init_key_ctx_bi (keys : list Z) (key_direction : direction) : key_ctx * key_ctx :=
  let '(out_key, in_key, _) := key_direction_state_init key_direction in
  (init_key_ctx (ztake 128 (zdrop (128 * out_key) keys)) true,
   init_key_ctx (ztake 128 (zdrop (128 * in_key) keys)) false).

Definition tls_crypt_v2_load_client_key (keys : list Z) (tls_server : bool) : key_ctx * key_ctx :=
  init_key_ctx_bi keys (if tls_server then KEY_DIRECTION_NORMAL else KEY_DIRECTION_INVERSE).

(** The assignments once the key is unwrapped. *)
Definition load_wrapped_key (ctx : tls_wrap_ctx) (keys : list Z) : tls_wrap_ctx :=
  let '(encrypt, decrypt) := tls_crypt_v2_load_client_key keys true in
  let o := dc_opt (tw_opt ctx) in
  mkwrap TLS_WRAP_CRYPT
    (mkdc encrypt decrypt (mkopt (opt_packet_id o) (pid_persist o) true) (dc_ignore_packet_id (tw_opt ctx)))
    (tw_work ctx) (tw_server_key ctx) (tw_wkc ctx) (tw_metadata ctx) true.

(** The context, the buffer without the key, and the result.  A message that is too
    short for the length field is reported, and the field is read all the same. *)
Definition tls_crypt_v2_extract_client_key (script : option (Z -> list Z -> bool))
    (ctx : tls_wrap_ctx) (buf : buffer) : outcome (tls_wrap_ctx * buffer * bool) :=
  match k_cipher (tw_server_key ctx) with
  | None => Ret (ctx, buf, false)
  | Some _ =>
      e ← bend buf;
      net_len ← buf_load buf (e - 2) 2;
      let wkc_len := be_value net_len in
      let '(wrapped_client_key, ok) := buf_advance buf (buf_len buf - wkc_len) in
      if negb ok then Ret (ctx, buf, false)
      else
        metadata ← alloc_buf TLS_CRYPT_V2_MAX_METADATA_LEN;
        '(metadata, client_key) ← tls_crypt_v2_unwrap_client_key (tw_server_key ctx) metadata wrapped_client_key;
        let ctx := tw_set_metadata ctx metadata in
        match client_key with
        | None => Ret (ctx, buf, false)
        | Some keys =>
            let ctx := load_wrapped_key ctx keys in
            let '(buf, ok) := buf_inc_len buf (- buf_len wrapped_client_key) in
            _ ← c_assert ok;
            match script with
            | Some script => ok ← tls_crypt_v2_verify_metadata script (tw_metadata ctx); Ret (ctx, buf, ok)
            | None => Ret (ctx, buf, true)
            end
        end
  end.

(** ** Writing and reading control packets *)

Definition SWAP_BUF_SIZE : Z := 256.

Definition swap_hmac (buf : buffer) (co : data_channel) (incoming : bool) : outcome (buffer * bool) :=
  let ctx := if incoming then dc_decrypt co else dc_encrypt co in
  h ← must (k_hmac ctx);
  let hmac_size := hmac_ctx_size h + packet_id_size true in
  let osid_size := 1 + SID_SIZE in
  let '(e1, e2) := if incoming then (osid_size, hmac_size) else (hmac_size, osid_size) in
  _ ← c_assert ((e1 <=? SWAP_BUF_SIZE) && (e2 <=? SWAP_BUF_SIZE));
  if e1 + e2 <=? len buf
  then
    b ← bptr buf;
    buf1 ← buf_load buf b e1;
    buf2 ← buf_load buf (b + e1) e2;
    buf ← buf_store buf b buf2;
    buf ← buf_store buf (b + e2) buf1;
    Ret (buf, true)
  else Ret (buf, false).

(** [clear_buf] *)
Definition clear_buf : buffer := mkbuffer 0 0 0 None.

(** The opcode and the key number. *)
Definition control_header (key_id opcode : Z) : Z := u8 (Z.lor key_id (Z.shiftl opcode P_OPCODE_SHIFT)).

(** What [write_control_auth] does once the acknowledgements are in [buf]: the
    context, the packet, and whether the outgoing address was set.  [sid] is the
    number of the local session. *)
Definition wrap_control_packet (now : Z) (prng : list Z) (ctx : tls_wrap_ctx) (sid : list Z)
    (key_id opcode : Z) (buf : buffer) : outcome (tls_wrap_ctx * buffer * bool) :=
  let header := control_header key_id opcode in
  buf ← (if bool_decide (tw_mode ctx = TLS_WRAP_AUTH) || bool_decide (tw_mode ctx = TLS_WRAP_NONE)
         then
           '(buf, ok) ← session_id_write_prepend sid buf;
           _ ← c_assert ok;
           '(buf, ok) ← buf_write_prepend buf [header];
           _ ← c_assert ok;
           Ret buf
         else Ret buf);
  match tw_mode ctx with
  | TLS_WRAP_NONE => Ret (ctx, buf, true)
  | TLS_WRAP_AUTH =>
      '(dc, buf) ← openvpn_encrypt now prng (tw_opt ctx) buf clear_buf;
      '(buf, ok) ← swap_hmac buf dc false;
      _ ← c_assert ok;
      Ret (tw_set_opt ctx dc, buf, true)
  | TLS_WRAP_CRYPT =>
      let '(work, ok) := buf_init (tw_work ctx) (offset buf) in
      _ ← c_assert ok;
      '(work, ok) ← buf_write work [header];
      _ ← c_assert ok;
      '(work, ok) ← session_id_write sid work;
      _ ← c_assert ok;
      '(dc, work, ok) ← tls_crypt_wrap now (tw_opt ctx) buf work;
      let ctx := tw_set_opt ctx dc in
      if negb ok then Ret (tw_set_work ctx work, set_len buf 0, false)
      else
        '(work, ok) ← (if opcode =? P_CONTROL_HARD_RESET_CLIENT_V3
                       then buf_copy work (tw_wkc ctx) else Ret (work, true));
        if negb ok then Ret (tw_set_work ctx work, set_len buf 0, false)
        else Ret (tw_set_work ctx work, work, true)
  end.

(** The acknowledgements left over, and the rest as above.  [sid_remote] is the
    number of the peer's session, [addr_defined] whether its address is known. *)
Definition write_control_auth (now : Z) (prng : list Z) (ctx : tls_wrap_ctx) (sid sid_remote : list Z)
    (addr_defined : bool) (key_id : Z) (rec_ack : reliable_ack) (buf : buffer) (opcode max_ack : Z)
    (prepend_ack : bool) : outcome (tls_wrap_ctx * reliable_ack * buffer * bool) :=
  _ ← c_assert addr_defined;
  '(rec_ack, buf, ok) ← reliable_ack_write rec_ack buf sid_remote max_ack prepend_ack;
  _ ← c_assert ok;
  '(ctx, buf, sent) ← wrap_control_packet now prng ctx sid key_id opcode buf;
  Ret (ctx, rec_ack, buf, sent).

(** The HMAC of --tls-auth.  [openvpn_decrypt] is called without frame, which only
    a cipher would use. *)
Definition read_auth (now : Z) (ctx : tls_wrap_ctx) (buf : buffer) : outcome (tls_wrap_ctx * buffer * bool) :=
  '(buf, ok) ← swap_hmac buf (tw_opt ctx) true;
  if negb ok then Ret (ctx, buf, false)
  else
    p ← bptr buf;
    match k_cipher (dc_decrypt (tw_opt ctx)) with
    | Some _ => Oob
    | None =>
        '(dc, buf, _) ← openvpn_decrypt now (tw_opt ctx) (mkframe 0 0 0 0 0 0 0 0) buf clear_buf p;
        Ret (tw_set_opt ctx dc, buf, negb (len buf =? 0))
    end.

(** The decryption of --tls-crypt. *)
Definition read_crypt (now : Z) (ctx : tls_wrap_ctx) (buf : buffer) : outcome (tls_wrap_ctx * buffer * bool) :=
  tmp ← alloc_buf (buf_forward_capacity_total buf);
  '(dc, tmp, ok) ← tls_crypt_unwrap now (tw_opt ctx) buf tmp;
  let ctx := tw_set_opt ctx dc in
  if negb ok then Ret (ctx, buf, false)
  else
    let '(buf, ok) := buf_init buf (offset buf) in
    _ ← c_assert ok;
    '(buf, ok) ← buf_copy buf tmp;
    _ ← c_assert ok;
    Ret (ctx, buf, true).

Definition read_control_auth (now : Z) (script : option (Z -> list Z -> bool)) (ctx : tls_wrap_ctx) (buf : buffer)
  : outcome (tls_wrap_ctx * buffer * bool) :=
  p ← bptr buf;
  first ← buf_load1 buf p;
  let opcode := Z.shiftr first P_OPCODE_SHIFT in
  '(ctx, buf, ok) ← (if opcode =? P_CONTROL_HARD_RESET_CLIENT_V3
                     then tls_crypt_v2_extract_client_key script ctx buf else Ret (ctx, buf, true));
  if negb ok then Ret (ctx, buf, false)
  else
    '(ctx, buf, ok) ←
       (match tw_mode ctx with
        | TLS_WRAP_AUTH => read_auth now ctx buf
        | TLS_WRAP_CRYPT => read_crypt now ctx buf
        | TLS_WRAP_NONE =>
            match k_cipher (tw_server_key ctx) with
            | Some _ => Ret (ctx, buf, false)
            | None => Ret (ctx, buf, true)
            end
        end);
    if negb ok then Ret (ctx, buf, false)
    else
      match tw_mode ctx with
      | TLS_WRAP_NONE | TLS_WRAP_AUTH => Ret (ctx, (buf_advance buf (SID_SIZE + 1)).1, true)
      | TLS_WRAP_CRYPT => Ret (ctx, buf, true)
      end.

(** ** The first packet of a client *)

(** [struct tls_auth_standalone] is a frame and a wrapping context; [fresh] is the
    memory [clone_buf] is given.  The result is whether to open an instance. *)
Definition tls_pre_decrypt_lite (now : Z) (fresh : list Z) (tas_frame : frame) (tas_wrap : tls_wrap_ctx) (buf : buffer)
  : outcome bool :=
  if 0 <? len buf
  then
    p ← bptr buf;
    c ← buf_load1 buf p;
    let op := Z.shiftr c P_OPCODE_SHIFT in
    let key_id := Z.land c P_KEY_ID_MASK in
    if negb (op =? P_CONTROL_HARD_RESET_CLIENT_V2) && negb (op =? P_CONTROL_HARD_RESET_CLIENT_V3)
    then Ret false
    else if negb (key_id =? 0) then Ret false
    else if EXPANDED_SIZE_DYNAMIC tas_frame <? len buf then Ret false
    else
      newbuf ← clone_buf fresh buf;
      '(_, _, status) ← read_control_auth now None tas_wrap newbuf;
      Ret status
  else Ret false.

End Wrapping.
