(* ===== verification/TlsWrapSpec.v ===== *)
(** * Properties of the wrapping of control packets

    Against the interfaces [CtrPair], [CtrSafe] and [HmacOk] of the library: what one
    side writes the other reads, in every mode, with the client's key sent along
    or not; packets that do not verify are rejected and change nothing; and the one
    kind of packet that ends the process. *)
From S2P Require Import Prelude Integer Buffer Reliable PacketId PacketIdSpec Mtu Crypto CryptoSpec TlsWrap.

(** ** What is expected of the library *)

(** A stream cipher with 16-byte vectors: the output is as long as the input, there
    is nothing left to flush, and decryption undoes encryption. *)
Class CtrPair (e d : cipher_ctx) : Prop := {
  ctr_iv : c_iv_length e = 16 /\ c_iv_length d = 16;
  ctr_reset iv : zlen iv = 16 -> c_reset e iv = true /\ c_reset d iv = true;
  ctr_round iv p :
    Forall is_u8 p ->
    exists x, c_update e iv [] p = Some x /\ c_final e iv [] p = Some [] /\ zlen x = zlen p /\
      c_update d iv [] x = Some p /\ c_final d iv [] x = Some []
}.

(** The same of decryption, on anything. *)
Class CtrSafe (d : cipher_ctx) : Prop := {
  ctr_safe_iv : c_iv_length d = 16;
  ctr_safe_update iv x u : c_update d iv [] x = Some u -> zlen u = zlen x;
  ctr_safe_final iv x f : c_final d iv [] x = Some f -> f = []
}.

(** The HMAC of a tag. *)
Definition tag_hmac (h : hmac_ctx) : Prop := HmacOk h /\ hmac_ctx_size h = TLS_CRYPT_TAG_SIZE.

Lemma zlen_tag h x : tag_hmac h -> zlen (hmac_of h x) = 32.
Proof. intros [Hh Hs]. by rewrite (hm_size (HmacOk := Hh)), Hs. Qed.

(** ** Buffers *)

Lemma cipher_put_nil pre c post :
  fits pre c post -> cipher_put (conc pre c post) (zlen pre) [] = Ret (conc pre c post).
Proof.
  intros HF. unfold cipher_put, buf_store. cbn [data conc].
  rewrite (store_eq _ pre [] (c ++ post)) by done. cbn [mbind outcome_mbind app].
  unfold buf_inc_len, buf_safe_bidir, buf_valid, buf_size_valid_signed. change (zlen (@nil Z)) with 0.
  unfold fits, BUF_SIZE_MAX in *. zlen_facts. cbn [buf_defined data len offset capacity andb conc]. bdecide.
  cbn [c_assert mbind outcome_mbind]. unfold set_len. cbn [capacity offset data len].
  f_equal. apply mkbuffer_conc; cbn [conc capacity offset len]; (done || lia).
Qed.

(** The last bytes of the content are given up. *)
Lemma buf_inc_len_less pre a b post n :
  n = - zlen b -> zlen b <= BUF_SIZE_MAX -> buf_inc_len (conc pre (a ++ b) post) n = (conc pre a (b ++ post), true).
Proof.
  intros -> Hb. unfold buf_inc_len, buf_safe_bidir, buf_size_valid_signed. rewrite buf_valid_conc.
  unfold BUF_SIZE_MAX in *. zlen_facts. cbn [len offset capacity conc]. autorewrite with zlen. bdecide. cbn [negb].
  f_equal. unfold set_len. cbn [capacity offset data conc]. apply mkbuffer_conc; [zlia..|by rewrite <- !app_assoc].
Qed.

(** ** The encrypted packet *)

(** Decryption of [x] under the vector of the tag [t] succeeds with [p]. *)
Definition ctr_decrypts (c : cipher_ctx) (t x p : list Z) : Prop :=
  c_reset c (ztake 16 t) = true /\ c_update c (ztake 16 t) [] x = Some p /\ c_final c (ztake 16 t) [] x = Some [].

Lemma tag_matches_spec h x t :
  tag_hmac h -> zlen t = 32 -> tag_matches h x t = Ret (bool_decide (t = hmac_of h x)).
Proof.
  intros Hh Ht. unfold tag_matches. pose proof (zlen_tag h x Hh) as Hl. rewrite Hl. unfold TLS_CRYPT_TAG_SIZE.
  bdecide. cbn [replicate Z.to_nat Z.sub]. change (replicate _ 0) with (@nil Z). rewrite app_nil_r. f_equal.
  destruct (_ =? 0) eqn:E; breflect; symmetry.
  - apply bool_decide_true. apply memcmp_0_eq; [unfold zlen in *; lia|done].
  - apply bool_decide_false. intros ->. by rewrite memcmp_same in E.
Qed.

Section Wrap.
Context (e d : cipher_ctx) (h : hmac_ctx) (imp imp' : list Z).
Context `{!CtrPair e d}.
Hypothesis Hh : tag_hmac h.

(** What goes out: the header, the number, the tag over header and text, the
    ciphertext. *)
Lemma tls_crypt_wrap_spec now s send' bpre p bpost wpre hd wpost :
  dc_encrypt s = mkkey (Some e) (Some h) imp -> dc_packet_id_initialized s = true ->
  packet_id_send_update now (dc_send s) true = (send', true) ->
  fits wpre hd wpost -> tls_crypt_buf_overhead + zlen p <= zlen wpost -> Forall is_u8 p ->
  let ad := hd ++ pid_bytes send' true in
  let t := hmac_of h (ad ++ p) in
  exists x wpost',
    tls_crypt_wrap now s (conc bpre p bpost) (conc wpre hd wpost) =
      Ret (set_send s send', conc wpre (ad ++ t ++ x) wpost', true) /\
    zlen wpost' = zlen wpost - (40 + zlen p) /\ zlen x = zlen p /\ ctr_decrypts d t x p.
Proof using Hh CtrPair0.
  intros Hk Hinit Hsend HF Hroom Hp8 ad t.
  pose proof (zlen_tag h (ad ++ p) Hh) as Htl. fold t in Htl.
  unfold tls_crypt_buf_overhead, packet_id_size, TLS_CRYPT_TAG_SIZE, TLS_CRYPT_BLOCK_SIZE in Hroom.
  destruct (ctr_round (e := e) (d := d) (ztake 16 t) p Hp8) as (x & Hu & Hf & Hxl & Hdu & Hdf).
  destruct (ctr_iv (e := e) (d := d)) as [Hive Hivd].
  destruct (ctr_reset (e := e) (d := d) (ztake 16 t)) as [Hre Hrd]; [zlia|].
  destruct Hh as [_ Hsz]. unfold TLS_CRYPT_TAG_SIZE in Hsz. zlen_facts.
  assert (Hpid : zlen (pid_bytes send' true) = 8) by (by rewrite zlen_pid_bytes).
  unfold tls_crypt_wrap. rewrite Hk. cbn [k_cipher k_hmac must mbind outcome_mbind].
  rewrite Hinit, Hsz. change (32 =? 256 / 8) with true. cbn [c_assert mbind outcome_mbind].
  rewrite (packet_id_write_append now _ send' true wpre hd wpost) by (done || (unfold packet_id_size; lia)).
  cbn [mbind outcome_mbind negb]. fold ad. unfold packet_id_size.
  change (4 + 4) with 8. set (wp := zdrop 8 wpost). assert (Hwp : zlen wp = zlen wpost - 8) by (unfold wp; autorewrite with zlen; lia).
  assert (Had : zlen ad = zlen hd + 8) by (unfold ad; autorewrite with zlen; lia).
  clearbody wp. unfold fits in HF. unfold TLS_CRYPT_BLOCK_SIZE, TLS_CRYPT_TAG_SIZE.
  rewrite buf_len_conc, buf_safe_conc by ((unfold fits; lia) || lia). cbn [negb].
  rewrite !buf_contents_conc. cbn [mbind outcome_mbind]. fold t.
  rewrite buf_write_alloc_conc by ((unfold fits; lia) || lia). cbn [must mbind outcome_mbind].
  rewrite <- (app_nil_r (ad ++ ztake 32 wp)), <- app_assoc.
  rewrite buf_store_inside by (autorewrite with zlen; lia). cbn [mbind outcome_mbind]. rewrite app_nil_r, Hive.
  rewrite (buf_load_inside wpre _ ad (ztake 16 t) (zdrop 16 t))
    by ((by rewrite ztake_zdrop) || (autorewrite with zlen; lia)).
  cbn [mbind outcome_mbind]. rewrite Hre, Hu, Hf. cbn [c_assert must mbind outcome_mbind].
  rewrite bend_conc. cbn [mbind outcome_mbind].
  rewrite cipher_put_conc by ((unfold fits; autorewrite with zlen; lia) || (autorewrite with zlen; lia)).
  cbn [mbind outcome_mbind]. rewrite bptr_conc. cbn [mbind outcome_mbind].
  rewrite cipher_put_nil by (unfold fits; autorewrite with zlen; lia). cbn [mbind outcome_mbind].
  eexists x, _. rewrite <- app_assoc. split; [done|]. split; [|by split]. autorewrite with zlen. lia.
Qed.

End Wrap.

(** The packet [c] is header and number, the tag, and the ciphertext of [p]. *)
Definition crypt_packet (d : cipher_ctx) (h : hmac_ctx) (c p : list Z) : Prop :=
  exists ad x, let t := hmac_of h (ad ++ p) in
    c = ad ++ t ++ x /\ zlen ad = TLS_CRYPT_OFF_TAG /\ ctr_decrypts d t x p.

Lemma app3_inj {A} (a b c a' b' c' : list A) :
  a ++ b ++ c = a' ++ b' ++ c' -> zlen a = zlen a' -> zlen b = zlen b' -> a = a' /\ b = b' /\ c = c'.
Proof.
  unfold zlen. intros E Ha Hb. apply app_inj_1 in E as [-> E]; [|lia]. apply app_inj_1 in E as [-> ->]; [done|lia].
Qed.

(** Closes the branches that reject the packet: the buffer is empty. *)
Ltac gives_up := eexists; split; cycle 1; [reflexivity|done].

Section Unwrap.
Context (d : cipher_ctx) (h : hmac_ctx) (imp : list Z) (now : Z) (r : data_channel).
Context `{!CtrSafe d}.
Hypothesis Hh : tag_hmac h.
Hypothesis Hk : dc_decrypt r = mkkey (Some d) (Some h) imp.
Hypothesis Hinit : dc_packet_id_initialized r = true \/ dc_ignore_packet_id r = true.

Lemma crypt_packet_parts ad t x p :
  zlen ad = TLS_CRYPT_OFF_TAG -> zlen t = 32 -> crypt_packet d h (ad ++ t ++ x) p ->
  t = hmac_of h (ad ++ p) /\ ctr_decrypts d t x p.
Proof using Hh.
  intros Ha Ht (ad' & x' & E & Ha' & Hd). pose proof (zlen_tag h (ad' ++ p) Hh).
  apply app3_inj in E as (-> & -> & ->); [done|lia|lia].
Qed.

(** Any packet: one that does not verify is rejected, of one that does the number is
    checked next. *)
Lemma tls_crypt_unwrap_any rpre c rpost dpost :
  c <> [] -> zlen c <= zlen dpost -> zlen dpost < BUF_SIZE_MAX ->
  let src := conc rpre c rpost in
  let run := tls_crypt_unwrap now r src (conc [] [] dpost) in
  ((forall p, ~ crypt_packet d h c p) /\ exists b, len b = 0 /\ run = Ret (r, b, false)) \/
  (exists p dpost', crypt_packet d h c p /\ zlen p <= zlen c /\
     run = ('(dc, ok) ← unwrap_replay_check now r src;
            if ok : bool then Ret (dc, conc [] p dpost', true) else Ret (dc, set_len (conc [] p dpost') 0, false))).
Proof using Hh Hk Hinit CtrSafe0.
  intros Hc Hroom Hmax src run. pose proof (zlen_pos c Hc). zlen_facts. unfold run, tls_crypt_unwrap, src.
  rewrite len_conc, Hk. bdecide. cbn [c_assert must mbind outcome_mbind k_cipher k_hmac].
  replace (dc_packet_id_initialized r || dc_ignore_packet_id r) with true by (destruct Hinit as [-> | ->]; by rewrite ?orb_true_r).
  cbn [c_assert mbind outcome_mbind]. rewrite buf_len_conc.
  unfold TLS_CRYPT_OFF_CT, TLS_CRYPT_OFF_TAG, TLS_CRYPT_OFF_PID, TLS_CRYPT_PID_SIZE, TLS_CRYPT_TAG_SIZE, TLS_CRYPT_BLOCK_SIZE, SID_SIZE.
  change (1 + 8 + (4 + 4) + 32) with 49. change (1 + 8 + (4 + 4)) with 17.
  destruct (zlen c <? 49) eqn:E49; breflect.
  { left. split; [|gives_up]. intros p (ad & x & E & Ha & _). pose proof (zlen_tag h (ad ++ p) Hh) as Ht.
    apply (f_equal zlen) in E. rewrite !zlen_app, Ha, Ht in E. zlen_facts.
    unfold TLS_CRYPT_OFF_TAG, TLS_CRYPT_OFF_PID, TLS_CRYPT_PID_SIZE, SID_SIZE in E. lia. }
  destruct (zsplit 17 c) as (ad & c' & -> & Ha & _); [lia|]. rewrite zlen_app in *.
  destruct (zsplit 32 c') as (t & x & -> & Ht & _); [lia|]. rewrite zlen_app in *. zlen_facts.
  rewrite buf_safe_conc by ((unfold fits; autorewrite with zlen; lia) || lia). cbn [negb].
  rewrite !bptr_conc, (ctr_safe_iv (d := d)). cbn [mbind outcome_mbind].
  rewrite (buf_load_inside rpre _ ad (ztake 16 t) (zdrop 16 t ++ x) rpost _ 16)
    by ((by rewrite (app_assoc (ztake 16 t)), ztake_zdrop) || (autorewrite with zlen; lia)).
  cbn [mbind outcome_mbind]. set (iv := ztake 16 t).
  assert (Hno : (~ (c_reset d iv = true /\ exists p, c_update d iv [] x = Some p /\ c_final d iv [] x = Some [] /\
      t = hmac_of h (ad ++ p))) -> forall p, ~ crypt_packet d h (ad ++ t ++ x) p).
  { intros Hn p Hp. apply crypt_packet_parts in Hp as (-> & Hr & Hu & Hf); [|done..]. apply Hn. split; [done|]. by exists p. }
  destruct (c_reset d iv) eqn:Er; cbn [negb]; [|left; split; [apply Hno; naive_solver|gives_up]].
  rewrite (buf_load_inside rpre _ (ad ++ t) x [] rpost (zlen rpre + 49)) by ((by rewrite app_nil_r, app_assoc) || (autorewrite with zlen; lia)).
  cbn [mbind outcome_mbind].
  destruct (c_update d iv [] x) as [p|] eqn:Eu; [|left; split; [apply Hno; naive_solver|gives_up]].
  pose proof (ctr_safe_update _ _ _ Eu) as Hpl. cbn [mbind outcome_mbind].
  rewrite cipher_put_conc by ((unfold fits; autorewrite with zlen; lia) || (autorewrite with zlen; lia)).
  cbn [mbind outcome_mbind app].
  destruct (c_final d iv [] x) as [f|] eqn:Ef; [|left; split; [apply Hno; naive_solver|gives_up]].
  apply ctr_safe_final in Ef as Ef'. subst f. rewrite bptr_conc. cbn [mbind outcome_mbind].
  rewrite cipher_put_nil by (unfold fits; autorewrite with zlen; lia). cbn [mbind outcome_mbind].
  rewrite (buf_load_inside rpre _ [] ad (t ++ x) rpost (zlen rpre)) by (done || (autorewrite with zlen; lia)).
  rewrite buf_contents_conc. cbn [mbind outcome_mbind].
  rewrite (buf_load_inside rpre _ ad t x) by (done || lia). cbn [mbind outcome_mbind].
  rewrite tag_matches_spec by done. cbn [mbind outcome_mbind]. case_bool_decide as Et; cbn [negb].
  - right. exists p, (zdrop (zlen p) dpost). split; [|split; [lia|done]].
    exists ad, x. rewrite <- Et. split; [done|]. split; [done|by split].
  - left. split; [|gives_up]. apply Hno. intros (_ & p' & [= <-] & _ & Ht'). done.
Qed.

End Unwrap.

(** ** The authenticated packet *)

Definition osid_size : Z := 1 + SID_SIZE.

(** The first two pieces of a packet change places. *)
Lemma swap_pieces pre a b c post :
  (buf1 ← buf_load (conc pre (a ++ b ++ c) post) (zlen pre) (zlen a);
   buf2 ← buf_load (conc pre (a ++ b ++ c) post) (zlen pre + zlen a) (zlen b);
   buf ← buf_store (conc pre (a ++ b ++ c) post) (zlen pre) buf2;
   buf ← buf_store buf (zlen pre + zlen b) buf1;
   Ret (buf, true)) = Ret (conc pre (b ++ a ++ c) post, true).
Proof.
  zlen_facts. rewrite (buf_load_inside pre _ [] a (b ++ c) post (zlen pre)) by (done || (autorewrite with zlen; lia)).
  cbn [mbind outcome_mbind]. rewrite (buf_load_inside pre _ a b c) by done. cbn [mbind outcome_mbind].
  rewrite (app_assoc a b c). rewrite <- (ztake_zdrop (zlen b) (a ++ b)), <- (app_assoc (ztake _ _)).
  pose proof (buf_store_inside pre [] (ztake (zlen b) (a ++ b)) (zdrop (zlen b) (a ++ b) ++ c) post b (zlen pre)) as E.
  cbn [app] in E. rewrite E by (autorewrite with zlen; zlen_facts; lia). cbn [mbind outcome_mbind]. rewrite (buf_store_inside pre b) by (autorewrite with zlen; zlen_facts; lia).
  by cbn [mbind outcome_mbind].
Qed.

Lemma swap_hmac_spec dc (incoming : bool) h pre a b c post :
  k_hmac (if incoming then dc_decrypt dc else dc_encrypt dc) = Some h -> HmacOk h ->
  zlen a = (if incoming then osid_size else hmac_ctx_size h + 8) ->
  zlen b = (if incoming then hmac_ctx_size h + 8 else osid_size) ->
  swap_hmac (conc pre (a ++ b ++ c) post) dc incoming = Ret (conc pre (b ++ a ++ c) post, true).
Proof.
  intros Hk Hh Ha Hb. pose proof (hm_max (h := h)) as Hmax. unfold MAX_HMAC_KEY_LENGTH in Hmax. zlen_facts.
  unfold swap_hmac. rewrite Hk. cbn [must mbind outcome_mbind].
  unfold osid_size, packet_id_size, SWAP_BUF_SIZE, SID_SIZE in *. change (4 + 4) with 8.
  destruct incoming; cbv iota beta; rewrite <- Ha, <- Hb; bdecide; cbn [c_assert mbind outcome_mbind];
    rewrite len_conc; autorewrite with zlen; bdecide; rewrite bptr_conc; cbn [mbind outcome_mbind]; apply swap_pieces.
Qed.

Lemma swap_hmac_short dc h pre c post :
  k_hmac (dc_decrypt dc) = Some h -> HmacOk h -> zlen c < osid_size + (hmac_ctx_size h + 8) ->
  swap_hmac (conc pre c post) dc true = Ret (conc pre c post, false).
Proof.
  intros Hk Hh Hl. pose proof (hm_max (h := h)) as Hmax. unfold MAX_HMAC_KEY_LENGTH in Hmax.
  unfold swap_hmac. rewrite Hk. cbn [must mbind outcome_mbind].
  unfold osid_size, packet_id_size, SWAP_BUF_SIZE, SID_SIZE in *. change (4 + 4) with 8.
  bdecide. cbn [c_assert mbind outcome_mbind]. rewrite len_conc. by bdecide.
Qed.

(** The packet [c]: opcode and session [os], the HMAC over what follows it and
    them, the number [pid] and the rest. *)
Definition auth_packet (h : hmac_ctx) (c os pid x : list Z) : Prop :=
  c = os ++ hmac_of h (pid ++ os ++ x) ++ pid ++ x /\ zlen os = osid_size /\ zlen pid = 8.

Lemma tw_set_opt_same ctx : tw_set_opt ctx (tw_opt ctx) = ctx.
Proof. by destruct ctx. Qed.

(** The packet number in its long form. *)
Definition pin_of (pid : list Z) : packet_id_net := mknet (be_value (ztake 4 pid)) (be_value (zdrop 4 pid)).

Lemma packet_id_read_long pre pid c post :
  zlen pid = 8 -> packet_id_read (conc pre (pid ++ c) post) true = Ret (conc (pre ++ pid) c post, pin_of pid, true).
Proof.
  intros Hp. unfold packet_id_read, pin_of. destruct (zsplit 4 pid) as (a & b & -> & Ha & Hb); [lia|].
  rewrite zlen_app in Hp. rewrite (ztake_app_eq 4 a), (zdrop_app_eq 4 a) by done.
  rewrite <- (app_assoc a), (buf_read_front _ a) by done. cbn [mbind outcome_mbind].
  rewrite (buf_read_front _ b) by lia. cbn [mbind outcome_mbind]. by rewrite <- app_assoc.
Qed.

Lemma pin_of_ok pid : Forall is_u8 pid -> zlen pid = 8 -> net_ok (pin_of pid).
Proof.
  intros Hu Hp. unfold net_ok, pin_of, is_u32. cbn [net_id net_time].
  pose proof (be_value_range (ztake 4 pid) (Forall_take _ _ _ Hu)) as H1.
  pose proof (be_value_range (zdrop 4 pid) (Forall_drop _ _ _ Hu)) as H2.
  rewrite zlen_ztake, Hp in H1. rewrite zlen_zdrop, Hp in H2. change (256 ^ Z.min (Z.max 0 4) 8) with (2 ^ 32) in H1.
  change (256 ^ Z.max 0 (8 - Z.max 0 4)) with (2 ^ 32) in H2. lia.
Qed.

Section Auth.
Context (h : hmac_ctx) (imp : list Z) (now : Z) (ctx : tls_wrap_ctx).
Context `{!HmacOk h}.
Hypothesis Hk : dc_decrypt (tw_opt ctx) = mkkey None (Some h) imp.
Hypothesis Hlf : co_long_form (dc_opt (tw_opt ctx)) = true.

(** Any packet: one that does not verify is rejected; of one that does the number
    is checked, unless numbers are ignored or not tracked. *)
Lemma read_auth_any pre c post :
  let run := read_auth now ctx (conc pre c post) in
  let dc := tw_opt ctx in
  ((forall os pid x, ~ auth_packet h c os pid x) /\ exists b, run = Ret (ctx, b, false)) \/
  (exists os pid x, auth_packet h c os pid x /\
     let m := hmac_of h (pid ++ os ++ x) in
     run = if dc_packet_id_initialized dc
           then if dc_ignore_packet_id dc then Ret (ctx, conc (pre ++ m ++ pid) (os ++ x) post, true)
                else '(opt, ok) ← crypto_check_replay now (dc_opt dc) (pin_of pid);
                     Ret (tw_set_opt ctx (set_opt dc opt),
                          if ok : bool then conc (pre ++ m ++ pid) (os ++ x) post
                          else set_len (conc (pre ++ m) (pid ++ os ++ x) post) 0, ok)
           else Ret (ctx, conc (pre ++ m) (pid ++ os ++ x) post, true)).
Proof using Hk Hlf HmacOk0.
  intros run dc. unfold run, read_auth. zlen_facts.
  assert (Hkh : k_hmac (dc_decrypt (tw_opt ctx)) = Some h) by (by rewrite Hk).
  assert (Hsz : forall y, zlen (hmac_of h y) = hmac_ctx_size h) by (intros y; apply hm_size).
  pose proof (hm_max (h := h)) as Hmax. unfold MAX_HMAC_KEY_LENGTH in Hmax.
  assert (Hpos : 0 <= hmac_ctx_size h) by (rewrite <- (Hsz []); apply zlen_nonneg).
  destruct (Z_lt_ge_dec (zlen c) (osid_size + (hmac_ctx_size h + 8))) as [Hs|Hs].
  { left. rewrite (swap_hmac_short _ h) by done. cbn [mbind outcome_mbind negb]. split; [|by eexists].
    intros os pid x (-> & Ho & Hp). rewrite !zlen_app, Hsz in Hs. zlen_facts. lia. }
  unfold osid_size, SID_SIZE in Hs. destruct (zsplit 9 c) as (os & c' & -> & Ho & _); [lia|]. rewrite zlen_app in *.
  destruct (zsplit (hmac_ctx_size h) c') as (m & c2 & -> & Hm & _); [lia|]. rewrite zlen_app in *.
  destruct (zsplit 8 c2) as (pid & x & -> & Hp & _); [lia|]. rewrite zlen_app in *.
  rewrite !(app_assoc m), (swap_hmac_spec _ true h pre os (m ++ pid) x) by
    (done || (unfold osid_size, SID_SIZE; autorewrite with zlen; lia)).
  rewrite <- !(app_assoc m). cbn [mbind outcome_mbind negb]. rewrite bptr_conc, Hk. cbn [k_cipher mbind outcome_mbind].
  unfold openvpn_decrypt, openvpn_decrypt_v1. rewrite !len_conc. rewrite Hk. cbn [k_cipher cipher_kt_mode_aead].
  autorewrite with zlen. zlen_facts. bdecide.
  destruct (decide (m = hmac_of h (pid ++ os ++ x))) as [->|Hne].
  - right. exists os, pid, x. split; [done|].
    pose proof (decrypt_v1_hmac_spec (Some h) HmacOk0 None imp pre (pid ++ os ++ x) post) as E. cbn [mac_of] in E.
    rewrite E. clear E. cbn [mbind outcome_mbind k_cipher]. unfold decrypt_v1_plain. rewrite Hlf. fold dc.
    destruct (dc_packet_id_initialized dc).
    + rewrite packet_id_read_long by done. cbn [mbind outcome_mbind]. rewrite <- app_assoc.
      destruct (dc_ignore_packet_id dc); cbn [mbind outcome_mbind].
      * rewrite len_conc. autorewrite with zlen. bdecide. by rewrite tw_set_opt_same.
      * destruct (crypto_check_replay _ _ _) as [[opt [|]]| |]; cbn [mbind outcome_mbind]; [|done..].
        rewrite len_conc. autorewrite with zlen. by bdecide.
    + cbn [mbind outcome_mbind]. rewrite len_conc. autorewrite with zlen. bdecide. by rewrite tw_set_opt_same.
  - left. split.
    { intros os' pid' x' (E & Ho' & Hp'). unfold osid_size, SID_SIZE in Ho'.
      apply app3_inj in E as (-> & -> & E); [|lia|by rewrite Hsz, Hm].
      apply app_inj_1 in E as [-> ->]; [done|unfold zlen in *; lia]. }
    destruct (decrypt_v1_hmac_any None (Some h) imp pre (m ++ pid ++ os ++ x) post HmacOk0) as [->|(m' & x' & E & Em & _)].
    { cbn [mbind outcome_mbind]. rewrite len_set_len, tw_set_opt_same. by eexists. }
    cbn [mac_of] in Em. apply app_inj_1 in E as [-> <-]; [done|]. pose proof (Hsz x'). unfold zlen in *. subst m'. lia.
Qed.

End Auth.

(** ** Verdicts *)

(** The numbers [S] have been accepted, or none are tracked. *)
Definition numbers_ok (bt tb : Z) (S : list packet_id_net) (dc : data_channel) : Prop :=
  dc_ignore_packet_id dc = true \/ rec_inv bt tb S (dc_opt dc).

(** What may become of a packet that is [good] or not. *)
Inductive control_verdict (bt tb : Z) (S : list packet_id_net) (good : Prop) (dc : data_channel)
  : data_channel -> bool -> Prop :=
| cv_rejected : control_verdict bt tb S good dc dc false
| cv_replayed opt : good -> rec_inv bt tb S opt -> control_verdict bt tb S good dc (set_opt dc opt) false
| cv_accepted opt pin :
    good -> pin ∉ S -> rec_inv bt tb (pin :: S) opt -> control_verdict bt tb S good dc (set_opt dc opt) true
| cv_unnumbered : good -> dc_ignore_packet_id dc = true -> control_verdict bt tb S good dc dc true.

(** The number of a good packet. *)
Lemma number_verdict now bt tb S (good : Prop) dc pin :
  SEQ_EXPIRED < now -> rec_inv bt tb S (dc_opt dc) -> net_ok pin -> good ->
  exists opt ok, crypto_check_replay now (dc_opt dc) pin = Ret (opt, ok) /\
    control_verdict bt tb S good dc (set_opt dc opt) ok.
Proof.
  intros Hnow Hinv Hp Hg. destruct (check_replay_fresh now bt tb S (dc_opt dc) pin Hnow Hp Hinv) as (opt & ok & E & Hf & Hr).
  exists opt, ok. split; [done|]. destruct ok; [by apply (cv_accepted _ _ _ _ _ _ pin); auto|by apply cv_replayed].
Qed.

Definition auth_good (h : hmac_ctx) (c : list Z) : Prop := exists os pid x, auth_packet h c os pid x.

Lemma read_auth_verdict h imp now bt tb S ctx pre c post :
  HmacOk h -> dc_decrypt (tw_opt ctx) = mkkey None (Some h) imp -> co_long_form (dc_opt (tw_opt ctx)) = true ->
  SEQ_EXPIRED < now -> numbers_ok bt tb S (tw_opt ctx) -> Forall is_u8 c ->
  exists dc' b ok, read_auth now ctx (conc pre c post) = Ret (tw_set_opt ctx dc', b, ok) /\
    control_verdict bt tb S (auth_good h c) (tw_opt ctx) dc' ok.
Proof.
  intros Hh Hk Hlf Hnow Hn Hu.
  destruct (read_auth_any h imp now ctx Hk Hlf pre c post) as [(_ & b & ->)|(os & pid & x & Hg & ->)].
  { exists (tw_opt ctx), b, false. rewrite tw_set_opt_same. split; [done|constructor]. }
  assert (Hgood : auth_good h c) by (by exists os, pid, x). destruct Hg as (-> & _ & Hp).
  assert (Hpin : net_ok (pin_of pid)).
  { apply pin_of_ok; [|done]. repeat (apply Forall_app in Hu as [? Hu]). done. }
  destruct Hn as [Hi|Hr].
  - rewrite Hi. destruct (dc_packet_id_initialized _); (eexists (tw_opt ctx), _, true; rewrite tw_set_opt_same; split; [done|by constructor]).
  - rewrite (rec_inv_initialized _ _ _ _ Hr). destruct (dc_ignore_packet_id (tw_opt ctx)) eqn:Hi.
    { eexists (tw_opt ctx), _, true. rewrite tw_set_opt_same. split; [done|by constructor]. }
    destruct (number_verdict now bt tb S _ (tw_opt ctx) (pin_of pid) Hnow Hr Hpin Hgood) as (opt & ok & -> & Hv).
    cbn [mbind outcome_mbind]. by eexists _, _, ok.
Qed.

Definition crypt_good (d : cipher_ctx) (h : hmac_ctx) (c : list Z) : Prop := exists p, crypt_packet d h c p.

(** The number of an encrypted packet. *)
Definition crypt_pid (c : list Z) : list Z := ztake 8 (zdrop 9 c).

Lemma crypt_pid_spec d h c p :
  crypt_packet d h c p -> exists os pid c', c = os ++ pid ++ c' /\ zlen os = 9 /\ zlen pid = 8 /\ crypt_pid c = pid.
Proof.
  intros (ad & x & -> & Ha & _). unfold TLS_CRYPT_OFF_TAG, TLS_CRYPT_OFF_PID, TLS_CRYPT_PID_SIZE, SID_SIZE in Ha.
  destruct (zsplit 9 ad) as (os & pid & -> & Ho & _); [lia|]. rewrite zlen_app in Ha. rewrite <- app_assoc.
  eexists os, pid, _. split; [done|]. split; [done|]. split; [lia|].
  unfold crypt_pid. rewrite (zdrop_app_eq 9 os) by done. by rewrite (ztake_app_eq 8 pid) by lia.
Qed.

Lemma unwrap_replay_check_spec now dc pre c post p d h :
  crypt_packet d h c p -> dc_ignore_packet_id dc = false ->
  unwrap_replay_check now dc (conc pre c post) =
    ('(opt, ok) ← crypto_check_replay now (dc_opt dc) (pin_of (crypt_pid c)); Ret (set_opt dc opt, ok)).
Proof.
  intros Hp Hi. destruct (crypt_pid_spec d h c p Hp) as (os & pid & c' & -> & Ho & Hpid & ->).
  unfold unwrap_replay_check. rewrite Hi, buf_advance_conc. zlen_facts. autorewrite with zlen.
  unfold TLS_CRYPT_OFF_PID, SID_SIZE. bdecide. cbn [c_assert mbind outcome_mbind].
  rewrite (zdrop_app_eq _ os) by lia. rewrite packet_id_read_long by done. by cbn [c_assert mbind outcome_mbind].
Qed.

(** Any packet, as above; the text takes the place of the packet. *)
Lemma read_crypt_any d h imp now ctx pre c post :
  CtrSafe d -> tag_hmac h -> dc_decrypt (tw_opt ctx) = mkkey (Some d) (Some h) imp ->
  dc_packet_id_initialized (tw_opt ctx) = true \/ dc_ignore_packet_id (tw_opt ctx) = true ->
  c <> [] -> fits pre c post ->
  let run := read_crypt now ctx (conc pre c post) in
  let dc := tw_opt ctx in
  ((forall p, ~ crypt_packet d h c p) /\ run = Ret (ctx, conc pre c post, false)) \/
  (exists p post', crypt_packet d h c p /\
     run = if dc_ignore_packet_id dc then Ret (ctx, conc pre p post', true)
           else '(opt, ok) ← crypto_check_replay now (dc_opt dc) (pin_of (crypt_pid c));
                Ret (tw_set_opt ctx (set_opt dc opt), if ok : bool then conc pre p post' else conc pre c post, ok)).
Proof.
  intros Hd Hh Hk Hi Hc HF run dc. unfold run, read_crypt. unfold fits in HF. zlen_facts.
  assert (Hcap : buf_forward_capacity_total (conc pre c post) = zlen c + zlen post).
  { unfold buf_forward_capacity_total. rewrite buf_valid_conc. cbn [capacity offset conc]. bdecide. lia. }
  rewrite Hcap, alloc_buf_conc by lia. cbn [mbind outcome_mbind]. set (room := replicate _ 0).
  assert (Hroom : zlen room = zlen c + zlen post) by (unfold room; autorewrite with zlen; lia). clearbody room. fold dc.
  destruct (tls_crypt_unwrap_any d h imp now dc Hh Hk Hi pre c post room) as [(Hno & b & _ & ->)|(p & room' & Hp & Hl & ->)];
    [done|lia|lia|..].
  { left. split; [done|]. cbn [mbind outcome_mbind negb]. by rewrite tw_set_opt_same. }
  right. exists p, (zdrop (zlen p) (c ++ post)). split; [done|].
  assert (Hback : forall dc', (let '(buf, ok) := buf_init (conc pre c post) (offset (conc pre c post)) in
      _ ← c_assert ok; '(buf, ok) ← buf_copy buf (conc [] p room'); _ ← c_assert ok; Ret (tw_set_opt ctx dc', buf, true)) =
      Ret (tw_set_opt ctx dc', conc pre p (zdrop (zlen p) (c ++ post)), true)).
  { intros dc'. change (offset (conc pre c post)) with (zlen pre). rewrite buf_init_conc. bdecide.
    cbn [c_assert mbind outcome_mbind]. rewrite (ztake_app_eq _ pre), (zdrop_app_eq _ pre) by done.
    unfold buf_copy. rewrite buf_contents_conc. cbn [mbind outcome_mbind].
    rewrite buf_write_fits by ((unfold fits; autorewrite with zlen; lia) || (autorewrite with zlen; lia)). done. }
  destruct (dc_ignore_packet_id dc) eqn:Ei.
  - unfold unwrap_replay_check. rewrite Ei. cbn [mbind outcome_mbind negb]. by rewrite Hback, tw_set_opt_same.
  - rewrite (unwrap_replay_check_spec now dc pre c post p d h Hp Ei).
    destruct (crypto_check_replay _ _ _) as [[opt [|]]| |]; cbn [mbind outcome_mbind negb]; [apply Hback|done..].
Qed.

Lemma read_crypt_verdict d h imp now bt tb S ctx pre c post :
  CtrSafe d -> tag_hmac h -> dc_decrypt (tw_opt ctx) = mkkey (Some d) (Some h) imp ->
  SEQ_EXPIRED < now -> numbers_ok bt tb S (tw_opt ctx) -> Forall is_u8 c -> c <> [] -> fits pre c post ->
  exists dc' b ok, read_crypt now ctx (conc pre c post) = Ret (tw_set_opt ctx dc', b, ok) /\
    control_verdict bt tb S (crypt_good d h c) (tw_opt ctx) dc' ok.
Proof.
  intros Hd Hh Hk Hnow Hn Hu Hc HF.
  assert (Hi : dc_packet_id_initialized (tw_opt ctx) = true \/ dc_ignore_packet_id (tw_opt ctx) = true).
  { destruct Hn as [->|Hr]; [by right|left]. by apply (rec_inv_initialized _ _ _ _ Hr). }
  destruct (read_crypt_any d h imp now ctx pre c post Hd Hh Hk Hi Hc HF) as [(_ & ->)|(p & post' & Hp & ->)].
  { exists (tw_opt ctx). eexists _, false. rewrite tw_set_opt_same. split; [done|constructor]. }
  assert (Hgood : crypt_good d h c) by (by exists p).
  destruct (dc_ignore_packet_id (tw_opt ctx)) eqn:Ei.
  { eexists (tw_opt ctx), _, true. rewrite tw_set_opt_same. split; [done|by constructor]. }
  destruct Hn as [?|Hr]; [congruence|].
  destruct (crypt_pid_spec d h c p Hp) as (os & pid & c' & -> & _ & Hl & Epid). rewrite Epid.
  assert (Hpin : net_ok (pin_of pid)) by (apply pin_of_ok; [repeat (apply Forall_app in Hu as [? Hu]); done|done]).
  destruct (number_verdict now bt tb S _ (tw_opt ctx) (pin_of pid) Hnow Hr Hpin Hgood) as (opt & ok & -> & Hv).
  cbn [mbind outcome_mbind]. by eexists _, _, ok.
Qed.

(** ** Client keys *)

(** [w] is the key [keys] with its metadata, wrapped for the server. *)
Definition wrapped_key (srv : key_ctx) (w keys md : list Z) : Prop :=
  match k_cipher srv, k_hmac srv with
  | Some c, Some h =>
      exists x net, let t := hmac_of h (net ++ keys ++ md) in
        w = t ++ x ++ net /\ zlen net = 2 /\ be_value net = zlen w /\ zlen w <= TLS_CRYPT_V2_MAX_WKC_LEN /\
        zlen keys = TLS_CRYPT_V2_CLIENT_KEY_LEN /\ ctr_decrypts c t x (keys ++ md)
  | _, _ => False
  end.

(** The server's key, when there is one. *)
Definition server_key_ok (srv : key_ctx) : Prop :=
  match k_cipher srv with
  | Some c => CtrSafe c /\ exists h, k_hmac srv = Some h /\ tag_hmac h
  | None => True
  end.

Section ServerKey.
Context (c : cipher_ctx) (h : hmac_ctx) (srv : key_ctx).
Context `{!CtrSafe c}.
Hypothesis Hc : k_cipher srv = Some c.
Hypothesis Hkh : k_hmac srv = Some h.
Hypothesis Hh : tag_hmac h.

Lemma wrapped_key_parts t x net keys md :
  zlen t = 32 -> zlen net = 2 -> wrapped_key srv (t ++ x ++ net) keys md ->
  t = hmac_of h (net ++ keys ++ md) /\ ctr_decrypts c t x (keys ++ md) /\ zlen keys = 256 /\
  be_value net = zlen (t ++ x ++ net).
Proof using Hc Hkh Hh.
  unfold wrapped_key. rewrite Hc, Hkh. intros Ht Hn (x' & net' & E & Hn' & Hv & Hl & Hk & Hd).
  pose proof (zlen_tag h (net' ++ keys ++ md) Hh). rewrite E in Hv. rewrite E.
  apply app_inj_1 in E as [-> E]; [|unfold zlen in *; lia].
  apply (f_equal reverse) in E as Er. rewrite !reverse_app in Er.
  apply app_inj_1 in Er as [E1 _]; [|rewrite !length_reverse; unfold zlen in *; lia].
  apply (inj reverse) in E1. subst net'. apply (inj (.++ net)) in E. by subst x'.
Qed.

(** The ciphertext [x] under the tag [t]. *)
Lemma decrypt_client_key_any pre t x net post mroom :
  zlen t = 32 -> zlen x <= 990 -> zlen mroom = TLS_CRYPT_V2_MAX_METADATA_LEN ->
  let run := decrypt_client_key srv (conc [] [] mroom) (conc (pre ++ t) x (net ++ post)) (zlen pre) net in
  ((forall keys md, t = hmac_of h (net ++ keys ++ md) -> zlen keys = 256 -> ~ ctr_decrypts c t x (keys ++ md)) /\
   exists m, run = Ret (m, None)) \/
  (exists keys md m, t = hmac_of h (net ++ keys ++ md) /\ zlen keys = 256 /\ ctr_decrypts c t x (keys ++ md) /\
     run = Ret (conc [] md m, Some keys)).
Proof using Hc Hkh Hh CtrSafe0.
  intros Ht Hx Hroom run. unfold run, decrypt_client_key. rewrite Hc, (ctr_safe_iv (d := c)). zlen_facts.
  unfold TLS_CRYPT_V2_MAX_METADATA_LEN, TLS_CRYPT_V2_MAX_WKC_LEN, TLS_CRYPT_V2_CLIENT_KEY_LEN, TLS_CRYPT_V2_TAG_SIZE,
    TLS_CRYPT_TAG_SIZE in *.
  rewrite (buf_load_object (pre ++ t) x (net ++ post) pre (ztake 16 t) (zdrop 16 t ++ x ++ net ++ post) _ 16);
    [|by rewrite <- app_assoc, (app_assoc (ztake 16 t)), ztake_zdrop|done|rewrite zlen_ztake; lia].
  cbn [mbind outcome_mbind]. set (iv := ztake 16 t).
  assert (Hno : (~ (c_reset c iv = true /\ exists text, c_update c iv [] x = Some text /\ c_final c iv [] x = Some [] /\
      t = hmac_of h (net ++ text) /\ 256 <= zlen text)) -> forall keys md, t = hmac_of h (net ++ keys ++ md) ->
      zlen keys = 256 -> ~ ctr_decrypts c t x (keys ++ md)).
  { intros Hn keys md E Hk (Hr & Hu & Hf). apply Hn. split; [done|]. exists (keys ++ md). rewrite zlen_app. zlen_facts.
    split_and!; (done || lia). }
  destruct (c_reset c iv) eqn:Er; cbn [negb]; [|left; split; [apply Hno; naive_solver|by eexists]].
  rewrite buf_set_write_zeros, buf_contents_conc by (unfold BUF_SIZE_MAX; lia). cbn [mbind outcome_mbind].
  set (room := replicate _ 0). assert (Hzr : zlen room = 1024) by (unfold room; by rewrite zlen_replicate). clearbody room.
  destruct (c_update c iv [] x) as [text|] eqn:Eu; [|left; split; [apply Hno; naive_solver|by eexists]].
  pose proof (ctr_safe_update _ _ _ Eu) as Htl. rewrite bptr_conc. cbn [mbind outcome_mbind].
  rewrite cipher_put_conc by ((unfold fits, BUF_SIZE_MAX; autorewrite with zlen; lia) || (autorewrite with zlen; lia)).
  cbn [mbind outcome_mbind app].
  destruct (c_final c iv [] x) as [f|] eqn:Ef; [|left; split; [apply Hno; naive_solver|by eexists]].
  apply ctr_safe_final in Ef as Ef'. subst f. rewrite bend_conc. cbn [mbind outcome_mbind].
  rewrite cipher_put_conc by ((unfold fits, BUF_SIZE_MAX; autorewrite with zlen; lia) || (autorewrite with zlen; lia)).
  cbn [mbind outcome_mbind]. rewrite app_nil_r, !buf_contents_conc, Hkh. cbn [mbind outcome_mbind].
  rewrite (buf_load_object (pre ++ t) x (net ++ post) pre t (x ++ net ++ post)) by (done || (by rewrite <- app_assoc)).
  cbn [mbind outcome_mbind]. rewrite tag_matches_spec by done. cbn [mbind outcome_mbind].
  case_bool_decide as Et; cbn [negb]; [|left; split; [apply Hno; naive_solver|by eexists]].
  rewrite buf_len_conc. destruct (zlen text <? 256) eqn:E256; breflect.
  { left. split; [|by eexists]. apply Hno. intros (_ & text' & [= <-] & _ & _ & ?). lia. }
  destruct (zsplit 256 text) as (keys & md & -> & Hkl & _); [lia|]. rewrite !zlen_app in *. zlen_facts.
  rewrite bptr_conc. cbn [mbind outcome_mbind].
  rewrite (buf_load_inside [] _ [] keys md) by (done || (autorewrite with zlen; lia)). cbn [mbind outcome_mbind].
  rewrite buf_advance_conc, zlen_app. bdecide. cbn [c_assert mbind outcome_mbind].
  rewrite (zdrop_app_eq 256 keys) by done. unfold buf_copy. rewrite buf_contents_conc. cbn [mbind outcome_mbind].
  rewrite buf_write_fits by ((unfold fits, BUF_SIZE_MAX; autorewrite with zlen; lia) || lia). cbn [mbind outcome_mbind app].
  right. eexists keys, md, _. by split_and!.
Qed.

(** Any bytes: the key and its metadata, exactly when they are a wrapped key. *)
Lemma unwrap_client_key_any pre w post mroom :
  zlen mroom = TLS_CRYPT_V2_MAX_METADATA_LEN ->
  let run := tls_crypt_v2_unwrap_client_key srv (conc [] [] mroom) (conc pre w post) in
  ((forall keys md, ~ wrapped_key srv w keys md) /\ exists m, run = Ret (m, None)) \/
  (exists keys md m, wrapped_key srv w keys md /\ run = Ret (conc [] md m, Some keys)).
Proof using Hc Hkh Hh CtrSafe0.
  intros Hroom run. unfold run, tls_crypt_v2_unwrap_client_key, TLS_CRYPT_V2_MAX_WKC_LEN, TLS_CRYPT_TAG_SIZE.
  rewrite !buf_len_conc. zlen_facts.
  assert (Hsize : forall keys md, wrapped_key srv w keys md -> 34 <= zlen w <= 1024).
  { intros keys md. unfold wrapped_key. rewrite Hc, Hkh. intros (x & net & E & Hn & _ & Hl & _).
    split; [|done]. pose proof (zlen_tag h (net ++ keys ++ md) Hh) as Ht. rewrite E, !zlen_app, Ht. zlen_facts. lia. }
  assert (Hshort : zlen w < 34 \/ 1024 < zlen w -> forall keys md, ~ wrapped_key srv w keys md).
  { intros Hb keys md Hw. apply Hsize in Hw. lia. }
  destruct (1024 <? zlen w) eqn:E1; breflect; [left; split; [apply Hshort; lia|by eexists]|].
  destruct (zlen w <? 2) eqn:E2; breflect; [left; split; [apply Hshort; lia|by eexists]|].
  destruct (zsplit (zlen w - 2) w) as (w0 & net & Ew & Hw0 & Hnet); [lia|].
  assert (Hl : zlen w = zlen w0 + 2) by lia. assert (Hn2 : zlen net = 2) by lia.
  rewrite bptr_conc, bend_conc. cbn [mbind outcome_mbind].
  rewrite (buf_load_inside pre _ w0 net []) by ((by rewrite app_nil_r) || lia). cbn [mbind outcome_mbind].
  replace (conc pre w post) with (conc pre (w0 ++ net) post) by (by rewrite Ew).
  rewrite buf_inc_len_less by (unfold BUF_SIZE_MAX; lia). rewrite buf_advance_conc.
  destruct (zlen w0 <? 32) eqn:E32; breflect.
  { left. split; [apply Hshort; lia|]. destruct (negb _); [by eexists|]. bdecide. by eexists. }
  bdecide. cbn [negb]. destruct (zsplit 32 w0) as (t & x & -> & Ht & Hx); [lia|]. rewrite zlen_app in Hl.
  rewrite (ztake_app_eq 32 t), (zdrop_app_eq 32 t) by done. rewrite <- app_assoc in Ew. subst w.
  destruct (be_value net =? zlen (t ++ x ++ net)) eqn:Ev; breflect; cbn [negb].
  2: { left. split; [|by eexists]. intros keys md Hw. by apply wrapped_key_parts in Hw as (_ & _ & _ & Hv). }
  destruct (decrypt_client_key_any pre t x net post mroom) as [(Hno & m & ->)|(keys & md & m & E & Hk & Hd & ->)]; [lia..|done| |].
  - left. split; [|by eexists]. intros keys md Hw. apply wrapped_key_parts in Hw as (E & Hd & Hk & _); [|done..]. by apply (Hno keys md).
  - right. exists keys, md, m. split; [|done]. unfold wrapped_key. rewrite Hc, Hkh. exists x, net. rewrite <- E.
    by split_and!.
Qed.

End ServerKey.

(** ** Reading any packet *)

Section Control.
Context (ctr_cipher : list Z -> bool -> cipher_ctx) (sha_hmac : list Z -> hmac_ctx).
Hypothesis Hctr : forall k, CtrSafe (ctr_cipher k false).
Hypothesis Hsha : forall k, tag_hmac (sha_hmac k).

(** The last two bytes of a packet that ends in a wrapped key are its length. *)
Lemma wrapped_key_length srv msg w keys md l1 net pre :
  wrapped_key srv w keys md -> pre ++ msg ++ w = l1 ++ net -> zlen net = 2 -> be_value net = zlen w.
Proof using.
  unfold wrapped_key. destruct (k_cipher srv), (k_hmac srv); try done.
  intros (x & net' & E & Hn & Hv & _) Ec Hl. rewrite <- Hv. f_equal. rewrite E in Ec.
  apply (f_equal reverse) in Ec. rewrite !reverse_app, <- !app_assoc in Ec.
  apply app_inj_1 in Ec as [Ec _]; [|rewrite !length_reverse; unfold zlen in *; lia]. by apply (inj reverse).
Qed.

Lemma verify_metadata_returns script md room :
  exists ok, tls_crypt_v2_verify_metadata script (conc [] md room) = Ret ok.
Proof using.
  unfold tls_crypt_v2_verify_metadata, buf_read_u8. rewrite buf_len_conc, buf_bptr_conc.
  destruct md as [|b md]; [by eexists|]. rewrite zlen_cons. zlen_facts. bdecide.
  unfold buf_load1. cbn [data conc]. rewrite (load1_eq _ [] b (md ++ room)) by done. cbn [mbind outcome_mbind].
  rewrite buf_advance_conc, zlen_cons. bdecide. cbn [fst]. destruct (b <? 0); [by eexists|].
  rewrite buf_contents_conc. by eexists.
Qed.

Lemma extract_client_key_any script ctx pre c post ci h :
  k_cipher (tw_server_key ctx) = Some ci -> CtrSafe ci -> k_hmac (tw_server_key ctx) = Some h -> tag_hmac h ->
  2 <= zlen pre + zlen c ->
  let run := tls_crypt_v2_extract_client_key ctr_cipher sha_hmac script ctx (conc pre c post) in
  ((forall msg w keys md, c = msg ++ w -> ~ wrapped_key (tw_server_key ctx) w keys md) /\
   exists m, run = Ret (tw_set_metadata ctx m, conc pre c post, false)) \/
  (exists msg w keys md m ok, c = msg ++ w /\ wrapped_key (tw_server_key ctx) w keys md /\ (script = None -> ok = true) /\
     run = Ret (load_wrapped_key ctr_cipher sha_hmac (tw_set_metadata ctx (conc [] md m)) keys, conc pre msg (w ++ post), ok)).
Proof using.
  intros Hc Hcs Hkh Hh Hl run. unfold run, tls_crypt_v2_extract_client_key. rewrite Hc, bend_conc. cbn [mbind outcome_mbind].
  destruct (zsplit (zlen pre + zlen c - 2) (pre ++ c)) as (l1 & net & El & Hl1 & Hnet); [zlen_facts; rewrite zlen_app; lia|].
  rewrite zlen_app in Hnet. rewrite (buf_load_object pre c post l1 net post); [|by rewrite !app_assoc, El|lia|lia].
  cbn [mbind outcome_mbind]. rewrite buf_len_conc, buf_advance_conc. zlen_facts.
  assert (Hlen : forall msg w keys md, c = msg ++ w -> wrapped_key (tw_server_key ctx) w keys md -> be_value net = zlen w).
  { intros msg w keys md -> Hw. apply (wrapped_key_length (tw_server_key ctx) msg w keys md l1 net pre); [done..|lia]. }
  destruct (_ && _) eqn:En; cbn [negb].
  2: { left. split; [|exists (tw_metadata ctx); by destruct ctx]. intros msg w keys md E Hw. pose proof (Hlen _ _ _ _ E Hw) as Hv.
       rewrite Hv, E, zlen_app in En. zlen_facts. breflect. destruct En; breflect; lia. }
  breflect. set (n := zlen c - be_value net) in *. rewrite alloc_buf_conc by (vm_compute; split; [discriminate|reflexivity]).
  cbn [mbind outcome_mbind]. set (room := replicate _ 0).
  assert (Hroom : zlen room = TLS_CRYPT_V2_MAX_METADATA_LEN) by (unfold room; by rewrite zlen_replicate). clearbody room.
  destruct (unwrap_client_key_any ci h (tw_server_key ctx) Hc Hkh Hh (pre ++ ztake n c) (zdrop n c) post room Hroom)
    as [(Hno & m & ->)|(keys & md & m & Hw & ->)]; cbn [mbind outcome_mbind].
  - left. split; [|by eexists]. intros msg w keys md E Hw. pose proof (Hlen _ _ _ _ E Hw) as Hv. apply (Hno keys md).
    rewrite E, (zdrop_app_eq n msg); [done|]. unfold n. rewrite E, zlen_app. lia.
  - right. destruct (verify_metadata_returns (default (fun _ _ => true) script) md m) as (ok & Eok).
    exists (ztake n c), (zdrop n c), keys, md, m, (if script then ok else true).
    split; [by rewrite ztake_zdrop|]. split; [done|]. split; [by intros ->|]. rewrite buf_len_conc.
    assert (zlen (zdrop n c) <= 1024).
    { unfold wrapped_key in Hw. rewrite Hc, Hkh in Hw. destruct Hw as (? & ? & _ & _ & _ & ? & _). done. }
    replace (conc pre c post) with (conc pre (ztake n c ++ zdrop n c) post) by (by rewrite ztake_zdrop).
    rewrite buf_inc_len_less by (unfold BUF_SIZE_MAX; lia). cbn [c_assert mbind outcome_mbind].
    destruct script as [f|]; [|done]. cbn [default id] in Eok.
    assert (Em : tw_metadata (load_wrapped_key ctr_cipher sha_hmac (tw_set_metadata ctx (conc [] md m)) keys) = conc [] md m) by done.
    rewrite Em, Eok. by cbn [mbind outcome_mbind].
Qed.

(** Setting the flag leaves the receiver's numbers alone. *)
Lemma numbers_ok_load bt tb S ctx keys :
  numbers_ok bt tb S (tw_opt ctx) -> numbers_ok bt tb S (tw_opt (load_wrapped_key ctr_cipher sha_hmac ctx keys)).
Proof using. intros [H|H]; [by left|right]. exact H. Qed.

Definition opcode_of (c : list Z) : Z := match c with b :: _ => Z.shiftr b P_OPCODE_SHIFT | [] => 0 end.

(** The packet verifies under the keys of the context. *)
Definition control_good (ctx : tls_wrap_ctx) (c : list Z) : Prop :=
  match tw_mode ctx, k_cipher (dc_decrypt (tw_opt ctx)), k_hmac (dc_decrypt (tw_opt ctx)) with
  | TLS_WRAP_NONE, _, _ => k_cipher (tw_server_key ctx) = None
  | TLS_WRAP_AUTH, _, Some h => auth_good h c
  | TLS_WRAP_CRYPT, Some d, Some h => crypt_good d h c
  | _, _, _ => False
  end.

(** A packet that brings its key verifies under that key. *)
Definition packet_good (ctx : tls_wrap_ctx) (c : list Z) : Prop :=
  if opcode_of c =? P_CONTROL_HARD_RESET_CLIENT_V3
  then exists msg w keys md, c = msg ++ w /\ wrapped_key (tw_server_key ctx) w keys md /\
         control_good (load_wrapped_key ctr_cipher sha_hmac ctx keys) msg
  else control_good ctx c.

Definition mode_keys_ok (ctx : tls_wrap_ctx) : Prop :=
  match tw_mode ctx with
  | TLS_WRAP_NONE => True
  | TLS_WRAP_AUTH =>
      exists h imp, dc_decrypt (tw_opt ctx) = mkkey None (Some h) imp /\ HmacOk h /\
        co_long_form (dc_opt (tw_opt ctx)) = true
  | TLS_WRAP_CRYPT =>
      exists d h imp, dc_decrypt (tw_opt ctx) = mkkey (Some d) (Some h) imp /\ CtrSafe d /\ tag_hmac h
  end.

(** What becomes of a packet: the context changes only in its packet numbers, only
    for a good packet, and an accepted number is new. *)
Definition handled (bt tb : Z) (S : list packet_id_net) (ctx : tls_wrap_ctx) (good : Prop)
    (ctx' : tls_wrap_ctx) (ok : bool) : Prop :=
  tw_mode ctx' = tw_mode ctx /\ (~ good -> ctx' = ctx) /\ (ok = true -> good) /\
  exists S', numbers_ok bt tb S' (tw_opt ctx') /\ (ok = false -> S' = S) /\
    (ok = true -> tw_mode ctx = TLS_WRAP_NONE \/ dc_ignore_packet_id (tw_opt ctx) = true \/
       exists pin, S' = pin :: S /\ pin ∉ S).

Lemma verdict_handled bt tb S ctx good dc' ok :
  numbers_ok bt tb S (tw_opt ctx) -> control_verdict bt tb S good (tw_opt ctx) dc' ok ->
  handled bt tb S ctx good (tw_set_opt ctx dc') ok.
Proof using.
  intros Hn Hv. unfold handled. split; [done|]. destruct Hv as [|opt Hg Hr|opt pin Hg Hf Hr|Hg Hi].
  - rewrite tw_set_opt_same. split; [done|]. split; [done|]. by exists S.
  - split; [done|]. split; [done|]. exists S. split; [by right|done].
  - split; [done|]. split; [done|]. exists (pin :: S). split; [by right|]. split; [done|]. intros _. right. right. by exists pin.
  - rewrite tw_set_opt_same. split; [done|]. split; [done|]. exists S. split; [done|]. split; [done|]. intros _. right. by left.
Qed.

(** [read_control_auth] behind the extraction of a key. *)
Definition read_wrapped (now : Z) (ctx : tls_wrap_ctx) (buf : buffer) : outcome (tls_wrap_ctx * buffer * bool) :=
  '(ctx, buf, ok) ←
     (match tw_mode ctx with
      | TLS_WRAP_AUTH => read_auth now ctx buf
      | TLS_WRAP_CRYPT => read_crypt now ctx buf
      | TLS_WRAP_NONE =>
          match k_cipher (tw_server_key ctx) with
          | Some _ => Ret (ctx, buf, false)
          | None => Ret (ctx, buf, true)
          end
      end);
  if negb ok then Ret (ctx, buf, false)
  else
    match tw_mode ctx with
    | TLS_WRAP_NONE | TLS_WRAP_AUTH => Ret (ctx, (buf_advance buf (SID_SIZE + 1)).1, true)
    | TLS_WRAP_CRYPT => Ret (ctx, buf, true)
    end.

Lemma read_wrapped_any now bt tb S ctx pre c post :
  SEQ_EXPIRED < now -> numbers_ok bt tb S (tw_opt ctx) -> mode_keys_ok ctx ->
  fits pre c post -> c <> [] -> Forall is_u8 c ->
  exists ctx' b ok, read_wrapped now ctx (conc pre c post) = Ret (ctx', b, ok) /\
    handled bt tb S ctx (control_good ctx c) ctx' ok.
Proof using.
  intros Hnow Hn Hk HF Hc Hu. unfold read_wrapped, control_good, mode_keys_ok in *. destruct (tw_mode ctx) eqn:Em.
  - destruct (k_cipher (tw_server_key ctx)) eqn:Ec; cbn [mbind outcome_mbind negb]; rewrite ?Em;
      (eexists ctx, _, _; split; [reflexivity|]); unfold handled; split_and!; try done; exists S; rewrite Em; auto.
  - destruct Hk as (h & imp & Hk & Hh & Hlf).
    destruct (read_auth_verdict h imp now bt tb S ctx pre c post Hh Hk Hlf Hnow Hn Hu) as (dc' & b & ok & -> & Hv).
    cbn [mbind outcome_mbind]. rewrite Hk. cbn [k_hmac k_cipher].
    pose proof (verdict_handled _ _ _ _ _ _ _ Hn Hv) as HH. destruct ok; cbn [negb].
    + replace (tw_mode (tw_set_opt ctx dc')) with TLS_WRAP_AUTH by (by rewrite <- Em). by eexists _, _, _.
    + by eexists _, _, _.
  - destruct Hk as (d & h & imp & Hk & Hd & Hh).
    destruct (read_crypt_verdict d h imp now bt tb S ctx pre c post Hd Hh Hk Hnow Hn Hu Hc HF) as (dc' & b & ok & -> & Hv).
    cbn [mbind outcome_mbind]. rewrite Hk. cbn [k_hmac k_cipher].
    pose proof (verdict_handled _ _ _ _ _ _ _ Hn Hv) as HH. destruct ok; cbn [negb].
    + replace (tw_mode (tw_set_opt ctx dc')) with TLS_WRAP_CRYPT by (by rewrite <- Em). by eexists _, _, _.
    + by eexists _, _, _.
Qed.

Lemma read_control_auth_eq now script ctx b pre c post :
  read_control_auth ctr_cipher sha_hmac now script ctx (conc pre (b :: c) post) =
    ('(ctx, buf, ok) ← (if Z.shiftr b P_OPCODE_SHIFT =? P_CONTROL_HARD_RESET_CLIENT_V3
                        then tls_crypt_v2_extract_client_key ctr_cipher sha_hmac script ctx (conc pre (b :: c) post)
                        else Ret (ctx, conc pre (b :: c) post, true));
     if negb ok then Ret (ctx, buf, false) else read_wrapped now ctx buf).
Proof using.
  unfold read_control_auth. rewrite bptr_conc. cbn [mbind outcome_mbind]. unfold buf_load1. cbn [data conc].
  by rewrite (load1_eq _ pre b (c ++ post)).
Qed.

(** What a packet does to the receiver; the context differs from [ctx] in its packet
    numbers and, behind the extraction of a key, in the key. *)
Definition control_outcome (bt tb : Z) (S : list packet_id_net) (ctx : tls_wrap_ctx) (c : list Z)
    (run : outcome (tls_wrap_ctx * buffer * bool)) : Prop :=
  exists ctx' b ok S', run = Ret (ctx', b, ok) /\ numbers_ok bt tb S' (tw_opt ctx') /\ (ok = false -> S' = S) /\
    (ok = true -> packet_good ctx c) /\
    (~ packet_good ctx c -> opt_packet_id (dc_opt (tw_opt ctx')) = opt_packet_id (dc_opt (tw_opt ctx))) /\
    (ok = true -> tw_mode ctx' = TLS_WRAP_NONE \/ dc_ignore_packet_id (tw_opt ctx) = true \/
       exists pin, S' = pin :: S /\ pin ∉ S).

(** The packet consists of a wrapped key and nothing else. *)
Definition bare_key (ctx : tls_wrap_ctx) (c : list Z) : Prop :=
  opcode_of c = P_CONTROL_HARD_RESET_CLIENT_V3 /\ exists keys md, wrapped_key (tw_server_key ctx) c keys md.

Lemma outcome_of_handled bt tb S ctx ctx0 c good ctx' b ok :
  handled bt tb S ctx0 good ctx' ok -> (good -> packet_good ctx c) ->
  opt_packet_id (dc_opt (tw_opt ctx0)) = opt_packet_id (dc_opt (tw_opt ctx)) ->
  dc_ignore_packet_id (tw_opt ctx0) = dc_ignore_packet_id (tw_opt ctx) ->
  control_outcome bt tb S ctx c (Ret (ctx', b, ok)).
Proof using.
  intros (Hm & Hno & Hok & S' & Hn & Hf & Ht) Hg Hid Hig. exists ctx', b, ok, S'. split; [done|]. split; [done|]. split; [done|].
  split; [tauto|]. split.
  - intros Hbad. by rewrite Hno by tauto.
  - intros Hok'. rewrite Hm, <- Hig. by apply Ht.
Qed.

Lemma outcome_rejected bt tb S ctx c ctx' b :
  tw_opt ctx' = tw_opt ctx -> numbers_ok bt tb S (tw_opt ctx) -> control_outcome bt tb S ctx c (Ret (ctx', b, false)).
Proof using. intros E Hn. exists ctx', b, false, S. by rewrite E. Qed.

Lemma read_crypt_empty now ctx pre post : fits pre [] post -> read_crypt now ctx (conc pre [] post) = Fatal.
Proof using.
  unfold fits. intros HF. zlen_facts. unfold read_crypt, buf_forward_capacity_total. rewrite buf_valid_conc.
  cbn [capacity offset conc]. change (zlen (@nil Z)) with 0 in *. bdecide. rewrite alloc_buf_conc by lia. done.
Qed.

Lemma load_wrapped_keys_ok ctx keys : mode_keys_ok (load_wrapped_key ctr_cipher sha_hmac ctx keys).
Proof using Hctr Hsha. by eexists _, _, _. Qed.

Lemma read_control_auth_any now script bt tb S ctx pre c post :
  SEQ_EXPIRED < now -> numbers_ok bt tb S (tw_opt ctx) -> mode_keys_ok ctx -> server_key_ok (tw_server_key ctx) ->
  fits pre c post -> c <> [] -> Forall is_u8 c -> 2 <= zlen pre + zlen c ->
  let run := read_control_auth ctr_cipher sha_hmac now script ctx (conc pre c post) in
  control_outcome bt tb S ctx c run \/ (run = Fatal /\ bare_key ctx c).
Proof using Hctr Hsha.
  intros Hnow Hn Hk Hs HF Hc Hu Hl run. destruct c as [|b c]; [done|]. unfold run. clear run. rewrite read_control_auth_eq.
  unfold bare_key, control_outcome. destruct (Z.shiftr b P_OPCODE_SHIFT =? _) eqn:Eop; cbn [mbind outcome_mbind negb].
  - unfold server_key_ok in Hs. destruct (k_cipher (tw_server_key ctx)) as [ci|] eqn:Hci.
    2: { left. unfold tls_crypt_v2_extract_client_key. rewrite Hci. cbn [mbind outcome_mbind negb]. by apply outcome_rejected. }
    destruct Hs as (Hci' & h & Hkh & Hh).
    destruct (extract_client_key_any script ctx pre (b :: c) post ci h Hci Hci' Hkh Hh Hl)
      as [(_ & m & ->)|(msg & w & keys & md & m & ok & Ec & Hw & _ & ->)]; cbn [mbind outcome_mbind].
    { left. cbn [negb]. by apply outcome_rejected. }
    set (ctx1 := load_wrapped_key _ _ _ _). destruct ok; cbn [negb].
    2: { left. exists ctx1. eexists _, false, S. split; [reflexivity|]. split; [by apply numbers_ok_load|]. done. }
    destruct msg as [|b' msg].
    { right. cbn [app] in Ec. subst w. split; [|split; [breflect; exact Eop|by exists keys, md]].
      unfold read_wrapped. change (tw_mode ctx1) with TLS_WRAP_CRYPT. rewrite read_crypt_empty; [done|].
      unfold fits in *. autorewrite with zlen in *. lia. }
    left. rewrite Ec in Hu, HF. apply Forall_app in Hu as [Hu _].
    destruct (read_wrapped_any now bt tb S ctx1 pre (b' :: msg) (w ++ post) Hnow) as (ctx' & b0 & ok & -> & HH);
      [by apply numbers_ok_load|apply load_wrapped_keys_ok|unfold fits in *; autorewrite with zlen in *; lia|done|done|].
    apply (outcome_of_handled bt tb S ctx ctx1 (b :: c) (control_good ctx1 (b' :: msg))); try done.
    intros Hg. unfold packet_good. cbn [opcode_of]. rewrite Eop. by exists (b' :: msg), w, keys, md.
  - left. destruct (read_wrapped_any now bt tb S ctx pre (b :: c) post Hnow Hn Hk HF) as (ctx' & b' & ok & -> & HH); [done..|].
    apply (outcome_of_handled bt tb S ctx ctx (b :: c) (control_good ctx (b :: c))); try done.
    unfold packet_good. cbn [opcode_of]. by rewrite Eop.
Qed.

End Control.

(** ** Writing packets *)

Definition header_bytes (key_id opcode : Z) (sid : list Z) : list Z := control_header key_id opcode :: sid.

Lemma control_header_opcode key_id opcode sid rest :
  0 <= key_id < 8 -> 0 <= opcode < 32 -> opcode_of (header_bytes key_id opcode sid ++ rest) = opcode.
Proof.
  intros Hk Ho. cbn [opcode_of header_bytes app]. unfold control_header, P_OPCODE_SHIFT.
  rewrite lor_shiftl_add by lia. change (2 ^ 3) with 8. rewrite u8_id by (unfold is_u8; lia).
  rewrite Z.shiftr_div_pow2 by lia. change (2 ^ 3) with 8. rewrite Z.div_add by lia. rewrite Z.div_small by lia. lia.
Qed.

Lemma write_header pre c post sid b :
  zlen sid = SID_SIZE -> osid_size <= zlen pre ->
  exists pre', zlen pre' = zlen pre - osid_size /\
    ('(buf, ok) ← session_id_write_prepend sid (conc pre c post);
     _ ← c_assert ok;
     '(buf, ok) ← buf_write_prepend buf [b];
     _ ← c_assert ok;
     Ret buf) = Ret (conc pre' ((b :: sid) ++ c) post).
Proof.
  unfold osid_size, SID_SIZE. intros Hs Hp. unfold session_id_write_prepend. rewrite buf_write_prepend_conc, Hs. bdecide.
  cbn [c_assert mbind outcome_mbind]. rewrite buf_write_prepend_conc. change (zlen [b]) with 1. rewrite zlen_ztake. bdecide.
  cbn [c_assert mbind outcome_mbind]. eexists. split; [|done]. rewrite !zlen_ztake. lia.
Qed.

Lemma pin_of_pid_bytes p : is_u32 (send_id p) -> pin_of (pid_bytes p true) = net_of_send p true.
Proof.
  intros Hu. unfold pin_of, pid_bytes, net_of_send. rewrite (ztake_app_eq 4), (zdrop_app_eq 4) by (by rewrite zlen_be_bytes).
  by rewrite !be_value_bytes4 by (done || apply u32_range).
Qed.

Section Writing.
Context (ctr_cipher : list Z -> bool -> cipher_ctx) (sha_hmac : list Z -> hmac_ctx).
Context (now : Z) (prng : list Z) (ctx : tls_wrap_ctx) (sid : list Z) (key_id opcode : Z) (send' : packet_id_send).
Hypothesis Hsid : zlen sid = SID_SIZE.
Notation hs := (header_bytes key_id opcode sid).

Lemma zlen_header : zlen hs = osid_size.
Proof using Hsid. unfold header_bytes. rewrite zlen_cons, Hsid. done. Qed.

(** With --tls-auth: header, HMAC, number, body. *)
Lemma wrap_auth_spec h imp bpre p bpost :
  tw_mode ctx = TLS_WRAP_AUTH -> dc_encrypt (tw_opt ctx) = mkkey None (Some h) imp -> HmacOk h ->
  dc_packet_id_initialized (tw_opt ctx) = true -> co_long_form (dc_opt (tw_opt ctx)) = true ->
  packet_id_send_update now (dc_send (tw_opt ctx)) true = (send', true) -> 96 <= zlen bpre ->
  let pid := pid_bytes send' true in
  exists bpre',
    wrap_control_packet now prng ctx sid key_id opcode (conc bpre p bpost) =
      Ret (tw_set_opt ctx (set_send (tw_opt ctx) send'),
           conc bpre' (hs ++ hmac_of h (pid ++ hs ++ p) ++ pid ++ p) bpost, true).
Proof using Hsid.
  intros Hm Hk Hh Hinit Hlf Hsend Hroom pid. unfold wrap_control_packet. rewrite Hm.
  rewrite bool_decide_true by done. cbn [orb]. pose proof (hm_max (h := h)) as Hmax. unfold MAX_HMAC_KEY_LENGTH in Hmax.
  destruct (write_header bpre p bpost sid (control_header key_id opcode)) as (pre1 & Hp1 & ->); [done|unfold osid_size, SID_SIZE; lia|].
  fold hs. cbn [mbind outcome_mbind]. unfold openvpn_encrypt, openvpn_encrypt_v1. rewrite Hk. cbn [k_cipher cipher_kt_mode_aead].
  pose proof zlen_header as Hhs. unfold osid_size, SID_SIZE in *. zlen_facts. rewrite len_conc, zlen_app. bdecide.
  change (encrypt_v1_plain now (tw_opt ctx) (conc pre1 (hs ++ p) bpost) clear_buf)
    with (encrypt_v1_plain now (tw_opt ctx) (conc pre1 (hs ++ p) bpost) (conc [] [] [])).
  destruct (encrypt_v1_plain_spec (Some h) Hh now (tw_opt ctx) imp send' pre1 (hs ++ p) bpost [] [] [])
    as (old & bpre' & Hold & -> & _); [done..|by rewrite Hlf|cbn [mac_size]; rewrite zlen_nil; lia|].
  cbn [mbind outcome_mbind]. rewrite Hlf. fold pid.
  rewrite (put_hmac_spec (Some h) Hh None imp bpre' [] old) by done. cbn [mbind outcome_mbind app mac_of].
  rewrite !app_assoc, <- (app_assoc (hmac_of h _ ++ pid)).
  rewrite (swap_hmac_spec _ false h bpre' (hmac_of h ((pid ++ hs) ++ p) ++ pid) hs p).
  - cbn [c_assert mbind outcome_mbind]. exists bpre'. by rewrite <- !app_assoc.
  - cbn [set_send set_opt dc_encrypt]. by rewrite Hk.
  - done.
  - rewrite zlen_app, (hm_size (h := h)). unfold pid. rewrite zlen_pid_bytes. unfold packet_id_size. lia.
  - apply zlen_header.
Qed.

(** With --tls-crypt: header, number, tag, ciphertext, and the wrapped key if the
    packet is the first of a client that has one. *)
Lemma wrap_crypt_spec e d h imp bpre p bpost wkc :
  tw_mode ctx = TLS_WRAP_CRYPT -> dc_encrypt (tw_opt ctx) = mkkey (Some e) (Some h) imp -> CtrPair e d -> tag_hmac h ->
  dc_packet_id_initialized (tw_opt ctx) = true ->
  packet_id_send_update now (dc_send (tw_opt ctx)) true = (send', true) -> Forall is_u8 p ->
  buf_wf (tw_work ctx) -> content (tw_wkc ctx) = wkc -> buf_wf (tw_wkc ctx) ->
  zlen bpre + osid_size + tls_crypt_buf_overhead + zlen p + zlen wkc <= capacity (tw_work ctx) ->
  exists ctx' b msg,
    wrap_control_packet now prng ctx sid key_id opcode (conc bpre p bpost) = Ret (ctx', b, true) /\
    content b = hs ++ msg ++ (if opcode =? P_CONTROL_HARD_RESET_CLIENT_V3 then wkc else []) /\
    crypt_packet d h (hs ++ msg) p /\ crypt_pid (hs ++ msg) = pid_bytes send' true.
Proof using Hsid.
  intros Hm Hk Hpair Hh Hinit Hsend Hu Hwf Hwkc Hwkf Hcap. unfold wrap_control_packet. rewrite Hm. cbn [mbind outcome_mbind].
  rewrite !bool_decide_false by done. cbn [orb mbind outcome_mbind]. change (offset (conc bpre p bpost)) with (zlen bpre).
  destruct (wf_conc _ Hwf) as (w1 & w2 & w3 & Ew & Hfw). destruct (wf_conc _ Hwkf) as (k1 & k2 & k3 & Ek & Hfk).
  rewrite Ek, content_conc in Hwkc. subst k2. rewrite Ew in *. unfold fits in Hfw. cbn [capacity conc] in Hcap.
  pose proof zlen_header as Hhs. unfold tls_crypt_buf_overhead, packet_id_size, TLS_CRYPT_TAG_SIZE, TLS_CRYPT_BLOCK_SIZE, osid_size, SID_SIZE in *.
  zlen_facts. rewrite buf_init_conc. bdecide. cbn [c_assert mbind outcome_mbind].
  set (wp := ztake _ _). set (wq := zdrop _ _).
  assert (Hwp : zlen wp = zlen bpre) by (unfold wp; autorewrite with zlen; lia).
  assert (Hwq : zlen wq = zlen w1 + zlen w2 + zlen w3 - zlen bpre) by (unfold wq; autorewrite with zlen; lia). clearbody wp wq.
  rewrite buf_write_fits by ((unfold fits; autorewrite with zlen; lia) || (autorewrite with zlen; lia)).
  cbn [c_assert mbind outcome_mbind]. unfold session_id_write.
  rewrite buf_write_fits by ((unfold fits; autorewrite with zlen; lia) || (autorewrite with zlen; lia)).
  cbn [c_assert mbind outcome_mbind]. change (([] ++ [control_header key_id opcode]) ++ sid) with hs.
  set (wr := zdrop _ (zdrop _ wq)). assert (Hwr : zlen wr = zlen wq - 9) by (unfold wr; autorewrite with zlen; lia). clearbody wr.
  destruct (tls_crypt_wrap_spec e d h imp Hh now (tw_opt ctx) send' bpre p bpost wp hs wr) as (x & wpost & -> & Hwl & Hxl & Hd);
    [done..|unfold fits; lia|unfold tls_crypt_buf_overhead, packet_id_size, TLS_CRYPT_TAG_SIZE, TLS_CRYPT_BLOCK_SIZE; lia|done|].
  cbn [mbind outcome_mbind negb]. set (pid := pid_bytes send' true) in *. set (t := hmac_of h _) in *.
  assert (Hpid : zlen pid = 8) by (unfold pid; by rewrite zlen_pid_bytes).
  assert (Ht : zlen t = 32) by (apply (zlen_tag h _ Hh)).
  assert (Hpk : crypt_packet d h (hs ++ pid ++ t ++ x) p).
  { exists (hs ++ pid), x. fold t. split; [by rewrite <- app_assoc|]. split; [|done]. autorewrite with zlen.
    unfold TLS_CRYPT_OFF_TAG, TLS_CRYPT_OFF_PID, TLS_CRYPT_PID_SIZE, SID_SIZE. lia. }
  assert (Hcp : crypt_pid (hs ++ pid ++ t ++ x) = pid).
  { unfold crypt_pid. rewrite (zdrop_app_eq 9 hs), (ztake_app_eq 8 pid) by lia. done. }
  destruct (opcode =? _).
  - change (tw_wkc (tw_set_opt ctx (set_send (tw_opt ctx) send'))) with (tw_wkc ctx). rewrite Ek. unfold buf_copy.
    rewrite buf_contents_conc. cbn [mbind outcome_mbind].
    rewrite buf_write_fits by ((unfold fits; autorewrite with zlen; lia) || lia). cbn [mbind outcome_mbind negb].
    eexists _, _, (pid ++ t ++ x). split; [reflexivity|]. rewrite content_conc, <- !app_assoc. done.
  - cbn [mbind outcome_mbind negb]. eexists _, _, (pid ++ t ++ x). split; [reflexivity|].
    rewrite content_conc, app_nil_r, <- !app_assoc. done.
Qed.


End Writing.

(** ** One side writes, the other reads *)

Section ControlRoundtrip.
Context (ctr_cipher : list Z -> bool -> cipher_ctx) (sha_hmac : list Z -> hmac_ctx).
Hypothesis Hpair : forall k, CtrPair (ctr_cipher k true) (ctr_cipher k false).
Hypothesis Hsafe : forall k, CtrSafe (ctr_cipher k false).
Hypothesis Hsha : forall k, tag_hmac (sha_hmac k).
Context (now rnow : Z) (send' : packet_id_send).
Notation load r keys := (load_wrapped_key ctr_cipher sha_hmac r keys).

(** The sender can number a packet, as [send'], and the receiver takes the number. *)
Definition numbered (s r : data_channel) : Prop :=
  dc_packet_id_initialized s = true /\ dc_packet_id_initialized r = true /\ dc_ignore_packet_id r = false /\
  packet_id_send_update now (dc_send s) true = (send', true) /\
  exists opt', crypto_check_replay rnow (dc_opt r) (net_of_send send' true) = Ret (opt', true).

(** The receiver [r] has the keys for what the sender [s] wraps: the same HMAC key,
    the same cipher key, or the server's key to the client's key. *)
Inductive paired (opcode : Z) (s r : tls_wrap_ctx) : Prop :=
| paired_none :
    tw_mode s = TLS_WRAP_NONE -> tw_mode r = TLS_WRAP_NONE -> k_cipher (tw_server_key r) = None ->
    opcode <> P_CONTROL_HARD_RESET_CLIENT_V3 -> paired opcode s r
| paired_auth h imp imp' :
    tw_mode s = TLS_WRAP_AUTH -> tw_mode r = TLS_WRAP_AUTH ->
    dc_encrypt (tw_opt s) = mkkey None (Some h) imp -> dc_decrypt (tw_opt r) = mkkey None (Some h) imp' -> HmacOk h ->
    co_long_form (dc_opt (tw_opt s)) = true -> co_long_form (dc_opt (tw_opt r)) = true ->
    numbered (tw_opt s) (tw_opt r) -> opcode <> P_CONTROL_HARD_RESET_CLIENT_V3 -> paired opcode s r
| paired_crypt e d h imp imp' :
    tw_mode s = TLS_WRAP_CRYPT -> tw_mode r = TLS_WRAP_CRYPT ->
    dc_encrypt (tw_opt s) = mkkey (Some e) (Some h) imp -> dc_decrypt (tw_opt r) = mkkey (Some d) (Some h) imp' ->
    CtrPair e d -> CtrSafe d -> tag_hmac h ->
    numbered (tw_opt s) (tw_opt r) -> opcode <> P_CONTROL_HARD_RESET_CLIENT_V3 -> paired opcode s r
| paired_client_key keys md :
    tw_mode s = TLS_WRAP_CRYPT ->
    (dc_encrypt (tw_opt s), dc_decrypt (tw_opt s)) = tls_crypt_v2_load_client_key ctr_cipher sha_hmac keys false ->
    wrapped_key (tw_server_key r) (content (tw_wkc s)) keys md -> server_key_ok (tw_server_key r) ->
    numbered (tw_opt s) (tw_opt (load r keys)) -> opcode = P_CONTROL_HARD_RESET_CLIENT_V3 -> paired opcode s r.

Lemma numbered_pin s r : numbered s r -> pin_of (pid_bytes send' true) = net_of_send send' true.
Proof using. intros (_ & _ & _ & Hs & _). apply pin_of_pid_bytes. by apply send_update_u32 in Hs. Qed.

(** The reader's side, with --tls-auth. *)
Lemma read_auth_back r h imp s os p rpre rpost :
  tw_mode r = TLS_WRAP_AUTH -> dc_decrypt (tw_opt r) = mkkey None (Some h) imp -> HmacOk h ->
  co_long_form (dc_opt (tw_opt r)) = true -> numbered s (tw_opt r) -> zlen os = osid_size ->
  let pid := pid_bytes send' true in
  exists r' b, read_wrapped rnow r (conc rpre (os ++ hmac_of h (pid ++ os ++ p) ++ pid ++ p) rpost) = Ret (r', b, true) /\
    content b = p.
Proof using.
  intros Hm Hk Hh Hlf Hn Ho pid. unfold read_wrapped. rewrite Hm.
  assert (Hpid : zlen pid = 8) by (unfold pid; by rewrite zlen_pid_bytes).
  pose proof (numbered_pin _ _ Hn) as Hpin. destruct Hn as (_ & Hi & Hig & _ & opt' & Hch).
  assert (Hap : forall x, auth_packet h (os ++ hmac_of h (pid ++ os ++ x) ++ pid ++ x) os pid x) by (by intros).
  destruct (read_auth_any h imp rnow r Hk Hlf rpre (os ++ hmac_of h (pid ++ os ++ p) ++ pid ++ p) rpost)
    as [(Hno & _)|(os' & pid' & x' & (E & Ho' & Hp') & ->)]; [by destruct (Hno os pid p)|].
  apply app3_inj in E as (<- & Em & E); [|lia|by rewrite !(hm_size (h := h))].
  apply app_inj_1 in E as [<- <-]; [|unfold zlen in *; lia].
  rewrite Hi, Hig. fold pid in Hpin. rewrite Hpin, Hch. cbn [mbind outcome_mbind negb].
  change (tw_mode (tw_set_opt r _)) with (tw_mode r). rewrite Hm, buf_advance_conc, zlen_app, Ho. zlen_facts.
  unfold osid_size, SID_SIZE in *. bdecide. cbn [fst]. eexists _, _. split; [done|]. rewrite content_conc.
  by rewrite (zdrop_app_eq _ os) by lia.
Qed.

(** The reader's side, with --tls-crypt. *)
Lemma read_crypt_back r d h imp s c p rpre rpost :
  tw_mode r = TLS_WRAP_CRYPT -> dc_decrypt (tw_opt r) = mkkey (Some d) (Some h) imp -> CtrSafe d -> tag_hmac h ->
  numbered s (tw_opt r) -> crypt_packet d h c p -> crypt_pid c = pid_bytes send' true -> c <> [] -> fits rpre c rpost ->
  exists r' b, read_wrapped rnow r (conc rpre c rpost) = Ret (r', b, true) /\ content b = p.
Proof using.
  intros Hm Hk Hd Hh Hn Hp Hpid Hc HF. unfold read_wrapped. rewrite Hm.
  pose proof (numbered_pin _ _ Hn) as Hpin. destruct Hn as (_ & Hi & Hig & _ & opt' & Hch).
  destruct (read_crypt_any d h imp rnow r rpre c rpost Hd Hh Hk (or_introl Hi) Hc HF) as [(Hno & _)|(p' & post' & Hp' & ->)];
    [by destruct (Hno p)|].
  rewrite Hig, Hpid, Hpin, Hch. cbn [mbind outcome_mbind negb]. change (tw_mode (tw_set_opt r _)) with (tw_mode r). rewrite Hm.
  eexists _, _. split; [done|]. rewrite content_conc. destruct Hp as (ad & x & -> & Ha & Hdec).
  apply (crypt_packet_parts d h Hh) in Hp' as (E & Hdec'); [|done|by apply zlen_tag].
  destruct Hdec as (_ & Hu & _), Hdec' as (_ & Hu' & _). congruence.
Qed.

Lemma wrapped_key_server srv w keys md :
  wrapped_key srv w keys md -> server_key_ok srv ->
  exists c h x net, k_cipher srv = Some c /\ k_hmac srv = Some h /\ CtrSafe c /\ tag_hmac h /\
    w = hmac_of h (net ++ keys ++ md) ++ x ++ net /\ zlen net = 2.
Proof using.
  unfold wrapped_key, server_key_ok. destruct (k_cipher srv) as [c|]; [|done]. intros Hw (Hcs & h & Hkh & Hh).
  rewrite Hkh in Hw. destruct Hw as (x & net & Ew & Hn & _). by exists c, h, x, net.
Qed.

Lemma wrapped_key_unique srv w keys md keys' md' :
  wrapped_key srv w keys md -> wrapped_key srv w keys' md' -> server_key_ok srv -> keys' = keys.
Proof using.
  intros Hw Hw' Hs. destruct (wrapped_key_server srv w keys md Hw Hs) as (c & h & x & net & Hc & Hkh & _ & Hh & -> & Hn).
  pose proof (wrapped_key_parts c h srv Hc Hkh Hh _ x net keys md (zlen_tag h _ Hh) Hn Hw) as (_ & (_ & Hu & _) & Hl & _).
  pose proof (wrapped_key_parts c h srv Hc Hkh Hh _ x net keys' md' (zlen_tag h _ Hh) Hn Hw') as (_ & (_ & Hu' & _) & Hl' & _).
  rewrite Hu in Hu'. apply (inj Some) in Hu'. apply app_inj_1 in Hu' as [<- _]; [done|unfold zlen in *; lia].
Qed.

(** The key comes off the end of the packet. *)
Lemma extract_back r msg w keys md rpre rpost :
  wrapped_key (tw_server_key r) w keys md -> server_key_ok (tw_server_key r) ->
  exists m, tls_crypt_v2_extract_client_key ctr_cipher sha_hmac None r (conc rpre (msg ++ w) rpost) =
    Ret (load (tw_set_metadata r m) keys, conc rpre msg (w ++ rpost), true).
Proof using.
  intros Hw Hs. destruct (wrapped_key_server _ w keys md Hw Hs) as (c & h & x & net & Hc & Hkh & Hcs & Hh & Ew & Hn). zlen_facts.
  destruct (extract_client_key_any ctr_cipher sha_hmac None r rpre (msg ++ w) rpost c h Hc Hcs Hkh Hh)
    as [(Hno & _)|(msg' & w' & keys' & md' & m & ok & E & Hw' & Hok & ->)].
  - rewrite Ew, !zlen_app. zlen_facts. lia.
  - by destruct (Hno msg w keys md).
  - rewrite Hok by done. exists (conc [] md' m).
    assert (Hl : zlen w' = zlen w).
    { rewrite <- (wrapped_key_length _ msg w keys md (rpre ++ msg ++ hmac_of h (net ++ keys ++ md) ++ x) net rpre Hw)
        by (done || (rewrite Ew, <- ?app_assoc; done)).
      symmetry. apply (wrapped_key_length _ msg' w' keys' md' (rpre ++ msg ++ hmac_of h (net ++ keys ++ md) ++ x) net rpre Hw');
        [rewrite <- E, Ew, <- ?app_assoc; done|done]. }
    apply (f_equal reverse) in E as Er. rewrite !reverse_app in Er.
    apply app_inj_1 in Er as [Er _]; [|rewrite !length_reverse; unfold zlen in *; lia]. apply (inj reverse) in Er. subst w'.
    apply (inj (.++ w)) in E. subst msg'. by rewrite (wrapped_key_unique _ w keys md keys' md' Hw Hw' Hs).
Qed.

(** The room the sender needs: in front of the packet, and in its work buffer. *)
Definition room_ok (s : tls_wrap_ctx) (bpre p : list Z) : Prop :=
  96 <= zlen bpre /\
  (tw_mode s = TLS_WRAP_CRYPT ->
     buf_wf (tw_work s) /\ buf_wf (tw_wkc s) /\
     zlen bpre + osid_size + tls_crypt_buf_overhead + zlen p + zlen (content (tw_wkc s)) <= capacity (tw_work s)).

Lemma read_wrapped_packet r opcode key_id sid rest rpre rpost :
  0 <= key_id < 8 -> 0 <= opcode < 32 -> opcode <> P_CONTROL_HARD_RESET_CLIENT_V3 ->
  read_control_auth ctr_cipher sha_hmac rnow None r (conc rpre (header_bytes key_id opcode sid ++ rest) rpost) =
    read_wrapped rnow r (conc rpre (header_bytes key_id opcode sid ++ rest) rpost).
Proof using.
  intros Hk Ho Hne. pose proof (control_header_opcode key_id opcode sid rest Hk Ho) as E. cbn [opcode_of header_bytes app] in E |- *.
  rewrite read_control_auth_eq, E. by rewrite (proj2 (Z.eqb_neq _ _) Hne).
Qed.

Lemma wrap_and_read prng s r sid key_id opcode bpre p bpost :
  paired opcode s r -> zlen sid = SID_SIZE -> 0 <= key_id < 8 -> 0 <= opcode < 32 -> Forall is_u8 p -> room_ok s bpre p ->
  exists s' b,
    wrap_control_packet now prng s sid key_id opcode (conc bpre p bpost) = Ret (s', b, true) /\
    (exists rest, content b = header_bytes key_id opcode sid ++ rest) /\
    forall rpre rpost, fits rpre (content b) rpost ->
      exists r' b', read_control_auth ctr_cipher sha_hmac rnow None r (conc rpre (content b) rpost) = Ret (r', b', true) /\
        content b' = p.
Proof using Hpair Hsafe Hsha.
  intros Hp Hsid Hkid Hop Hu (Hroom & Hwork). pose proof (zlen_header sid key_id opcode Hsid) as Hhs.
  destruct Hp as [Hm Hmr Hsrv Hne|h imp imp' Hm Hmr Hk Hkr Hh Hlf Hlfr Hn Hne|e d h imp imp' Hm Hmr Hk Hkr Hed Hd Hh Hn Hne|keys md Hm Hk Hw Hs Hn ->].
  - unfold wrap_control_packet. rewrite Hm. cbn [bool_decide orb].
    destruct (write_header bpre p bpost sid (control_header key_id opcode)) as (pre1 & _ & E); [done|unfold osid_size, SID_SIZE; lia|].
    change (bool_decide (TLS_WRAP_NONE = TLS_WRAP_AUTH) || bool_decide (TLS_WRAP_NONE = TLS_WRAP_NONE)) with true. rewrite E. fold (header_bytes key_id opcode sid).
    cbn [mbind outcome_mbind]. eexists _, _. split; [done|]. rewrite content_conc. split; [by exists p|]. intros rpre rpost _.
    rewrite (read_wrapped_packet r opcode key_id sid p rpre rpost) by done. unfold read_wrapped. rewrite Hmr, Hsrv. cbn [mbind outcome_mbind negb].
    rewrite Hmr, buf_advance_conc, zlen_app, Hhs. zlen_facts. unfold osid_size, SID_SIZE in *. bdecide. cbn [fst]. eexists _, _.
    split; [done|]. rewrite content_conc. by rewrite (zdrop_app_eq _ (header_bytes key_id opcode sid)) by lia.
  - destruct (wrap_auth_spec now prng s sid key_id opcode send' Hsid h imp bpre p bpost Hm Hk Hh) as (pre1 & ->); [apply Hn|done|apply Hn|done|].
    eexists _, _. split; [done|]. rewrite content_conc. split; [by eexists|]. intros rpre rpost _. rewrite read_wrapped_packet by done.
    by apply (read_auth_back r h imp' (tw_opt s)).
  - destruct (Hwork Hm) as (Hwf & Hwk & Hcap).
    destruct (wrap_crypt_spec now prng s sid key_id opcode send' Hsid e d h imp bpre p bpost (content (tw_wkc s)) Hm Hk Hed Hh) as (s' & b & msg & -> & Hb & Hpk & Hpid);
      [apply Hn|apply Hn|done..|]. exists s', b. split; [done|]. rewrite (proj2 (Z.eqb_neq _ _) Hne), app_nil_r in Hb.
    rewrite Hb. split; [by eexists|]. intros rpre rpost HF. rewrite read_wrapped_packet by done.
    by apply (read_crypt_back r d h imp' (tw_opt s)).
  - destruct (Hwork Hm) as (Hwf & Hwk & Hcap). injection Hk as Hk _.
    destruct (wrap_crypt_spec now prng s sid key_id P_CONTROL_HARD_RESET_CLIENT_V3 send' Hsid _ _ _ _ bpre p bpost (content (tw_wkc s)) Hm Hk (Hpair _) (Hsha _))
      as (s' & b & msg & -> & Hb & Hpk & Hpid); [apply Hn|apply Hn|done..|].
    exists s', b. split; [done|]. rewrite Z.eqb_refl in Hb. rewrite Hb. split; [by eexists|]. intros rpre rpost HF.
    destruct (extract_back r (header_bytes key_id P_CONTROL_HARD_RESET_CLIENT_V3 sid ++ msg) (content (tw_wkc s)) keys md rpre rpost Hw Hs) as (m & E).
    pose proof (control_header_opcode key_id _ sid msg Hkid Hop) as Eop. rewrite <- app_assoc in E.
    cbn [opcode_of header_bytes app] in E, Eop, HF, Hpk, Hpid |- *. rewrite read_control_auth_eq, Eop, Z.eqb_refl, E. cbn [mbind outcome_mbind negb].
    eapply (read_crypt_back (load (tw_set_metadata r m) keys) _ _ _ (tw_opt s)); [done|reflexivity|apply Hsafe|apply Hsha|exact Hn|exact Hpk|exact Hpid|done|].
    unfold fits in *. autorewrite with zlen in *. lia.
Qed.

End ControlRoundtrip.

(** C34: What one side writes on the control channel the other reads, in every mode of
    wrapping: none, --tls-auth, --tls-crypt, and --tls-crypt-v2, where the packet brings
    the client's key and the server unwraps it first.  The packet starts with the
    opcode and the session number; the reader recovers exactly the body with the
    acknowledgements in it. *)
Theorem control_packet_roundtrip ctr_cipher sha_hmac now rnow prng send' s r sid sid_remote key_id opcode
    ack ack' buf bpre p bpost max_ack prepend_ack :
  (forall k, CtrPair (ctr_cipher k true) (ctr_cipher k false)) -> (forall k, CtrSafe (ctr_cipher k false)) ->
  (forall k, tag_hmac (sha_hmac k)) ->
  paired ctr_cipher sha_hmac now rnow send' opcode s r ->
  zlen sid = SID_SIZE -> 0 <= key_id < 8 -> 0 <= opcode < 32 ->
  reliable_ack_write ack buf sid_remote max_ack prepend_ack = Ret (ack', conc bpre p bpost, true) ->
  Forall is_u8 p -> room_ok s bpre p ->
  exists s' b,
    write_control_auth now prng s sid sid_remote true key_id ack buf opcode max_ack prepend_ack = Ret (s', ack', b, true) /\
    (exists rest, content b = header_bytes key_id opcode sid ++ rest) /\
    forall rpre rpost, fits rpre (content b) rpost ->
      exists r' b', read_control_auth ctr_cipher sha_hmac rnow None r (conc rpre (content b) rpost) = Ret (r', b', true) /\
        content b' = p.
Proof.
  intros Hpair Hsafe Hsha Hp Hsid Hkid Hop Hack Hu Hroom.
  destruct (wrap_and_read ctr_cipher sha_hmac Hpair Hsafe Hsha now rnow send' prng s r sid key_id opcode bpre p bpost) as (s' & b & E & H); [done..|].
  exists s', b. split; [|done]. unfold write_control_auth. cbn [c_assert mbind outcome_mbind]. rewrite Hack.
  cbn [c_assert mbind outcome_mbind]. by rewrite E.
Qed.

(** C35: Whatever bytes arrive on the control channel, in every mode of wrapping,
    reading them does not fail an assertion or leave the buffers, with one
    exception: a packet that consists of a wrapped client key and nothing else.
    A packet that does not verify is rejected and leaves the packet numbers as they
    were; an accepted one verified, under the key it brought if it brought one, and
    its number was not accepted before (unless numbers are ignored). *)
Theorem any_control_packet_is_handled ctr_cipher sha_hmac now script bt tb S ctx pre c post :
  (forall k, CtrSafe (ctr_cipher k false)) -> (forall k, tag_hmac (sha_hmac k)) ->
  SEQ_EXPIRED < now -> numbers_ok bt tb S (tw_opt ctx) -> mode_keys_ok ctx -> server_key_ok (tw_server_key ctx) ->
  fits pre c post -> c <> [] -> Forall is_u8 c -> 2 <= zlen pre + zlen c ->
  let run := read_control_auth ctr_cipher sha_hmac now script ctx (conc pre c post) in
  (run = Fatal /\ bare_key ctx c) \/
  exists ctx' b ok S', run = Ret (ctx', b, ok) /\ numbers_ok bt tb S' (tw_opt ctx') /\ (ok = false -> S' = S) /\
    (ok = true -> packet_good ctr_cipher sha_hmac ctx c) /\
    (~ packet_good ctr_cipher sha_hmac ctx c ->
       opt_packet_id (dc_opt (tw_opt ctx')) = opt_packet_id (dc_opt (tw_opt ctx))) /\
    (ok = true -> tw_mode ctx' = TLS_WRAP_NONE \/ dc_ignore_packet_id (tw_opt ctx) = true \/
       exists pin, S' = pin :: S /\ pin ∉ S).
Proof.
  intros Hctr Hsha Hnow Hn Hk Hs HF Hc Hu Hl run.
  by destruct (read_control_auth_any ctr_cipher sha_hmac Hctr Hsha now script bt tb S ctx pre c post Hnow Hn Hk Hs HF Hc Hu Hl); [right|left].
Qed.

(** ** The first packet of a client *)

Lemma clone_buf_conc fresh pre c post :
  zlen fresh = zlen pre + zlen c + zlen post ->
  exists pre' post', clone_buf fresh (conc pre c post) = Ret (conc pre' c post') /\ zlen pre' = zlen pre /\ zlen post' = zlen post.
Proof.
  intros Hf. unfold clone_buf. rewrite buf_contents_conc, buf_len_conc. cbn [mbind outcome_mbind capacity offset len conc]. zlen_facts.
  destruct (zsplit (zlen pre) fresh) as (f1 & f2 & -> & Hf1 & Hf2); [lia|]. destruct (zsplit (zlen c) f2) as (f3 & f4 & -> & Hf3 & Hf4); [lia|].
  rewrite !zlen_app in *. exists f1, f4. split; [|lia]. destruct (zlen c =? 0) eqn:E; breflect.
  - apply zlen_0_nil in E. subst c. change (zlen (@nil Z)) with 0 in *. assert (f3 = []) as -> by (by apply zlen_0_nil).
    f_equal. apply mkbuffer_conc; [zlia..|done].
  - unfold buf_store. cbn [data]. rewrite (store_eq _ f1 f3 f4) by (done || lia). cbn [mbind outcome_mbind]. f_equal.
    cbn [capacity offset len]. apply mkbuffer_conc; [lia..|done].
Qed.

(** The test before the packet is authenticated. *)
Definition initial_packet (f : frame) (c : list Z) : Prop :=
  (opcode_of c = P_CONTROL_HARD_RESET_CLIENT_V2 \/ opcode_of c = P_CONTROL_HARD_RESET_CLIENT_V3) /\
  Z.land (hd 0 c) P_KEY_ID_MASK = 0 /\ zlen c <= EXPANDED_SIZE_DYNAMIC f.

Lemma pre_decrypt_lite_eq ctr_cipher sha_hmac now fresh f ctx pre b c post :
  let run := tls_pre_decrypt_lite ctr_cipher sha_hmac now fresh f ctx (conc pre (b :: c) post) in
  (~ initial_packet f (b :: c) /\ run = Ret false) \/
  (initial_packet f (b :: c) /\
   run = (newbuf ← clone_buf fresh (conc pre (b :: c) post);
          '(_, _, status) ← read_control_auth ctr_cipher sha_hmac now None ctx newbuf;
          Ret status)).
Proof.
  unfold tls_pre_decrypt_lite, initial_packet. cbn [opcode_of hd]. rewrite len_conc, zlen_cons. zlen_facts. bdecide.
  rewrite bptr_conc. cbn [mbind outcome_mbind]. unfold buf_load1. cbn [data conc]. rewrite (load1_eq _ pre b (c ++ post)) by done.
  cbn [mbind outcome_mbind].
  destruct (negb _ && negb _) eqn:E1; breflect; [left; split; [intros ([] & _); breflect; congruence|done]|].
  destruct (negb (Z.land _ _ =? 0)) eqn:E2; breflect; [left; split; [intros (_ & ? & _); congruence|done]|].
  destruct (EXPANDED_SIZE_DYNAMIC f <? 1 + zlen c) eqn:E3; breflect; [left; split; [intros (_ & _ & ?); lia|done]|].
  right. split; [|done]. destruct E1; breflect; auto.
Qed.

(** C36: The first-line check of a server opens an instance for a client only when its
    packet is an initial one, small enough, from a key number 0, and verifies; any
    other bytes are refused without a failure, except a bare wrapped key. *)
Theorem firewall_admits_only_authentic ctr_cipher sha_hmac now fresh f ctx pre c post :
  (forall k, CtrSafe (ctr_cipher k false)) -> (forall k, tag_hmac (sha_hmac k)) ->
  SEQ_EXPIRED < now -> dc_ignore_packet_id (tw_opt ctx) = true -> mode_keys_ok ctx -> server_key_ok (tw_server_key ctx) ->
  fits pre c post -> Forall is_u8 c -> 1 <= zlen pre -> zlen fresh = zlen pre + zlen c + zlen post ->
  let run := tls_pre_decrypt_lite ctr_cipher sha_hmac now fresh f ctx (conc pre c post) in
  (run = Fatal /\ bare_key ctx c) \/
  exists status, run = Ret status /\
    (status = true -> initial_packet f c /\ packet_good ctr_cipher sha_hmac ctx c).
Proof.
  intros Hctr Hsha Hnow Hig Hk Hs HF Hu Hl Hf run. unfold run. clear run.
  destruct c as [|b c]; [right; by exists false|].
  destruct (pre_decrypt_lite_eq ctr_cipher sha_hmac now fresh f ctx pre b c post) as [(_ & ->)|(Hi & ->)]; [right; by exists false|].
  destruct (clone_buf_conc fresh pre (b :: c) post Hf) as (pre' & post' & -> & Hp & Hq). cbn [mbind outcome_mbind].
  destruct (read_control_auth_any ctr_cipher sha_hmac Hctr Hsha now None 0 0 [] ctx pre' (b :: c) post')
    as [(ctx' & b' & ok & S' & -> & _ & _ & Hg & _)|(-> & Hb)]; try done; cbn [mbind outcome_mbind].
  - by left.
  - unfold fits in *. by rewrite Hp, Hq.
  - rewrite zlen_cons. zlen_facts. lia.
  - right. exists ok. auto.
  - by left.
Qed.

(** C37: A packet that is a wrapped client key and nothing else, with a tag whose first
    byte reads as the opcode of an initial packet, ends the server: once the key
    is taken off nothing is left, and [tls_crypt_unwrap] asserts that there is
    something.  Every holder of such a key can send it. *)
Theorem bare_client_key_is_fatal ctr_cipher sha_hmac now fresh f ctx pre c post keys md :
  wrapped_key (tw_server_key ctx) c keys md -> server_key_ok (tw_server_key ctx) ->
  opcode_of c = P_CONTROL_HARD_RESET_CLIENT_V3 -> initial_packet f c -> fits pre c post ->
  zlen fresh = zlen pre + zlen c + zlen post ->
  tls_pre_decrypt_lite ctr_cipher sha_hmac now fresh f ctx (conc pre c post) = Fatal.
Proof.
  intros Hw Hs Hop Hi HF Hf. destruct c as [|b c]; [done|].
  destruct (pre_decrypt_lite_eq ctr_cipher sha_hmac now fresh f ctx pre b c post) as [(? & _)|(_ & ->)]; [done|].
  destruct (clone_buf_conc fresh pre (b :: c) post Hf) as (pre' & post' & -> & Hp & Hq). cbn [mbind outcome_mbind].
  rewrite read_control_auth_eq. cbn [opcode_of] in Hop. rewrite Hop, Z.eqb_refl.
  destruct (extract_back ctr_cipher sha_hmac ctx [] (b :: c) keys md pre' post' Hw Hs) as (m & E). cbn [app] in E. rewrite E.
  cbn [mbind outcome_mbind negb]. unfold read_wrapped. change (tw_mode (load_wrapped_key _ _ _ _)) with TLS_WRAP_CRYPT.
  rewrite read_crypt_empty; [done|]. unfold fits in *. autorewrite with zlen in *. lia.
Qed.

(** ** Witnesses *)

(** A toy stream cipher, and a toy digest whose first byte is the opcode and key
    number of an initial packet. *)
Definition toy_ctr (k : list Z) (enc : bool) : cipher_ctx :=
  mkcipher MODE_OTHER 16 1 (fun _ => true) (fun _ _ => true)
    (fun _ _ x => Some (toy_crypt x)) (fun _ _ _ => Some []) (fun _ _ _ => None) (fun _ _ _ _ => None).
Definition toy_sha (k : list Z) : hmac_ctx :=
  mkhmac 32 (fun x => 80 :: u8 (foldr Z.add 0 x) :: replicate 30 7).

Lemma toy_ctr_pair k : CtrPair (toy_ctr k true) (toy_ctr k false).
Proof.
  constructor; [done|done|]. intros iv p _. exists (toy_crypt p). cbn [toy_ctr c_update c_final].
  by rewrite toy_crypt_twice, zlen_toy_crypt.
Qed.

Lemma toy_ctr_safe k : CtrSafe (toy_ctr k false).
Proof.
  constructor; [done|..]; cbn [toy_ctr c_update c_final]; [|congruence]. intros iv x u [= <-]. apply zlen_toy_crypt.
Qed.

Lemma toy_sha_tag k : tag_hmac (toy_sha k).
Proof. split; [|done]. constructor; [done|vm_compute; discriminate]. Qed.

(** A key of zeros, with one byte of metadata, wrapped; the context of a server that
    can unwrap it and of the client that holds it. *)
Definition toy_keys : list Z := replicate 256 0.
Definition toy_wkc : list Z :=
  hmac_of (toy_sha []) ([1; 35] ++ toy_keys ++ [0]) ++ toy_crypt (toy_keys ++ [0]) ++ [1; 35].
Definition toy_server_key : key_ctx := mkkey (Some (toy_ctr [] false)) (Some (toy_sha [])) [].
Definition no_key : key_ctx := mkkey None None [].
Definition toy_server (ignore : bool) : tls_wrap_ctx :=
  mkwrap TLS_WRAP_NONE (mkdc no_key no_key (mkopt w_pid None true) ignore) clear_buf toy_server_key clear_buf clear_buf false.
Definition toy_client : tls_wrap_ctx :=
  let '(encrypt, decrypt) := tls_crypt_v2_load_client_key toy_ctr toy_sha toy_keys false in
  mkwrap TLS_WRAP_CRYPT (mkdc encrypt decrypt (mkopt w_pid None true) false) (conc [] [] (replicate 600 0)) no_key
    (conc [] toy_wkc []) clear_buf false.

Lemma toy_wrapped : wrapped_key toy_server_key toy_wkc toy_keys [0].
Proof.
  exists (toy_crypt (toy_keys ++ [0])), [1; 35]. split; [reflexivity|]. split; [reflexivity|]. split; [reflexivity|].
  split; [vm_compute; discriminate|]. split; [reflexivity|]. split; [reflexivity|]. split; reflexivity.
Qed.

Lemma toy_server_key_ok : server_key_ok toy_server_key.
Proof. split; [apply toy_ctr_safe|]. exists (toy_sha []). split; [done|apply toy_sha_tag]. Qed.

Lemma w_pid_rec ignore : numbers_ok 64 15 [] (mkdc no_key no_key (mkopt w_pid None true) ignore).
Proof.
  right. destruct (start_udp 64 15 None true) as (opt & E & Hi & _); [vm_compute; split; (reflexivity || discriminate)..|].
  left. split; [vm_compute; split; (reflexivity || discriminate)|]. exists (0, 0, []).
  assert (Eo : Ret opt = Ret (mkopt w_pid None true)) by (rewrite <- E; vm_compute; reflexivity).
  injection Eo as Eo. rewrite Eo in Hi. exact Hi.
Qed.

Definition w_session : list Z := [1; 2; 3; 4; 5; 6; 7; 8].

Lemma control_packet_roundtrip_witness :
  exists s' b,
    write_control_auth 1000 [] toy_client w_session w_session true 0 [] (conc (replicate 120 0) [0; 0; 0; 0] [])
      P_CONTROL_HARD_RESET_CLIENT_V3 4 true = Ret (s', [], b, true) /\
    (exists rest, content b = header_bytes 0 P_CONTROL_HARD_RESET_CLIENT_V3 w_session ++ rest) /\
    forall rpre rpost, fits rpre (content b) rpost ->
      exists r' b', read_control_auth toy_ctr toy_sha 1000 None (toy_server false) (conc rpre (content b) rpost) = Ret (r', b', true) /\
        content b' = [0; 0; 0; 0; 0].
Proof.
  apply (control_packet_roundtrip toy_ctr toy_sha 1000 1000 [] (mksend 1 1000) toy_client (toy_server false) w_session w_session
    0 P_CONTROL_HARD_RESET_CLIENT_V3 [] [] (conc (replicate 120 0) [0; 0; 0; 0] []) (replicate 119 0) [0; 0; 0; 0; 0] [] 4 true).
  - exact toy_ctr_pair.
  - exact toy_ctr_safe.
  - exact toy_sha_tag.
  - apply (paired_client_key toy_ctr toy_sha 1000 1000 (mksend 1 1000) _ _ _ toy_keys [0]).
    + reflexivity.
    + reflexivity.
    + exact toy_wrapped.
    + exact toy_server_key_ok.
    + repeat split; try (vm_compute; reflexivity). eexists. vm_compute. reflexivity.
    + reflexivity.
  - reflexivity.
  - vm_compute; split; (reflexivity || discriminate).
  - vm_compute; split; (reflexivity || discriminate).
  - vm_compute. reflexivity.
  - repeat constructor; vm_compute; (reflexivity || discriminate).
  - split; [vm_compute; discriminate|]. intros _. split; [apply conc_wf; vm_compute; reflexivity|].
    split; [apply conc_wf; vm_compute; reflexivity|vm_compute; discriminate].
Defined.

(** The key of zeros behind a message that is too short. *)
Lemma any_control_packet_is_handled_witness :
  let c := [80; 1; 2; 3] ++ toy_wkc in
  let run := read_control_auth toy_ctr toy_sha 1000 None (toy_server false) (conc [] c []) in
  (run = Fatal /\ bare_key (toy_server false) c) \/
  exists ctx' b ok S', run = Ret (ctx', b, ok) /\ numbers_ok 64 15 S' (tw_opt ctx') /\ (ok = false -> S' = []) /\
    (ok = true -> packet_good toy_ctr toy_sha (toy_server false) c) /\
    (~ packet_good toy_ctr toy_sha (toy_server false) c ->
       opt_packet_id (dc_opt (tw_opt ctx')) = opt_packet_id (dc_opt (tw_opt (toy_server false)))) /\
    (ok = true -> tw_mode ctx' = TLS_WRAP_NONE \/ dc_ignore_packet_id (tw_opt (toy_server false)) = true \/
       exists pin, S' = pin :: [] /\ pin ∉ []).
Proof.
  apply (any_control_packet_is_handled toy_ctr toy_sha 1000 None 64 15 [] (toy_server false) [] ([80; 1; 2; 3] ++ toy_wkc) []).
  - exact toy_ctr_safe.
  - exact toy_sha_tag.
  - vm_compute; reflexivity.
  - apply w_pid_rec.
  - exact I.
  - exact toy_server_key_ok.
  - vm_compute; reflexivity.
  - discriminate.
  - vm_compute. repeat constructor; (reflexivity || discriminate).
  - vm_compute; discriminate.
Defined.

Lemma firewall_admits_only_authentic_witness :
  let c := [56; 1; 2; 3; 4; 5; 6; 7; 8; 0] in
  let run := tls_pre_decrypt_lite toy_ctr toy_sha 1000 (replicate 11 0) w_geometry (toy_server true) (conc [0] c []) in
  (run = Fatal /\ bare_key (toy_server true) c) \/
  exists status, run = Ret status /\
    (status = true -> initial_packet w_geometry c /\ packet_good toy_ctr toy_sha (toy_server true) c).
Proof.
  apply (firewall_admits_only_authentic toy_ctr toy_sha 1000 (replicate 11 0) w_geometry (toy_server true) [0]
    [56; 1; 2; 3; 4; 5; 6; 7; 8; 0] []).
  - exact toy_ctr_safe.
  - exact toy_sha_tag.
  - vm_compute; reflexivity.
  - reflexivity.
  - exact I.
  - exact toy_server_key_ok.
  - vm_compute; reflexivity.
  - repeat constructor; vm_compute; (reflexivity || discriminate).
  - vm_compute; discriminate.
  - reflexivity.
Defined.

Lemma bare_client_key_is_fatal_witness :
  tls_pre_decrypt_lite toy_ctr toy_sha 1000 (replicate 291 0) w_geometry (toy_server true) (conc [] toy_wkc []) = Fatal.
Proof.
  apply (bare_client_key_is_fatal toy_ctr toy_sha 1000 (replicate 291 0) w_geometry (toy_server true) [] toy_wkc [] toy_keys [0]).
  - exact toy_wrapped.
  - exact toy_server_key_ok.
  - vm_compute; reflexivity.
  - split; [right; vm_compute; reflexivity|]. split; [vm_compute; reflexivity|vm_compute; discriminate].
  - vm_compute; reflexivity.
  - vm_compute; reflexivity.
Defined.
