(* ===== verification/Base64.v ===== *)
(** * Base 64 ([base64.c])

    The encoder and the decoder, which accepts only so many bytes of output.
    Strings are their bytes without the terminating zero.  A group of four
    characters is a number of 24 bits with the count of padding characters above it,
    computed in an [unsigned int]. *)
From S2P Require Import Prelude.
From Stdlib Require Import Ascii String.

(** The bytes of a C string. *)
Fixpoint cstr (s : string) : list Z :=
  match s with
  | EmptyString => []
  | String c s => Z.of_nat (nat_of_ascii c) :: cstr s
  end.

Definition base64_chars : list Z :=
  cstr "ABCDEFGHIJKLMNOPQRSTUVWXYZabcdefghijklmnopqrstuvwxyz0123456789+/".

Definition EQUALS : Z := 61.

Definition base64_char (i : Z) : Z := nth (Z.to_nat i) base64_chars 0.

(** The four characters of a group; [over] is by how much the index has passed the
    end of the data. *)
Definition base64_group (c over : Z) : list Z :=
  [ base64_char (Z.shiftr (Z.land c 0x00fc0000) 18);
    base64_char (Z.shiftr (Z.land c 0x0003f000) 12);
    if 1 <? over then EQUALS else base64_char (Z.shiftr (Z.land c 0x00000fc0) 6);
    if 0 <? over then EQUALS else base64_char (Z.land c 0x0000003f) ].

(** The loop of [openvpn_base64_encode]: three bytes each time, as long as there are
    any. *)
Fixpoint openvpn_base64_encode (data : list Z) : list Z :=
  match data with
  | [] => []
  | [a] => base64_group ((a * 256) * 256) 2
  | [a; b] => base64_group ((a * 256 + b) * 256) 1
  | a :: b :: c :: data => base64_group ((a * 256 + b) * 256 + c) 0 ++ openvpn_base64_encode data
  end.

(** [pos]: the first position of [c], -1 when there is none. *)
Fixpoint pos_from (chars : list Z) (c i : Z) : Z :=
  match chars with
  | [] => -1
  | x :: chars => if x =? c then i else pos_from chars c (i + 1)
  end.

Definition pos (c : Z) : Z := pos_from base64_chars c 0.

Definition DECODE_ERROR : Z := 0xffffffff.

(** The [for] loop of [token_decode]; [None] is a character after the padding. *)
Fixpoint token_loop (token : list Z) (val marker : Z) : option (Z * Z) :=
  match token with
  | [] => Some (val, marker)
  | t :: token =>
      let val := u32 (val * 64) in
      if t =? EQUALS then token_loop token val (marker + 1)
      else if 0 <? marker then None
      else token_loop token (val +u pos t) marker
  end.

Definition token_decode (token : list Z) : Z :=
  match token_loop token 0 0 with
  | None => DECODE_ERROR
  | Some (val, marker) => if 2 <? marker then DECODE_ERROR else Z.lor (Z.shiftl marker 24) val
  end.

(** One more byte, when there is room for it; [size] is negative for no limit. *)
Definition base64_put (size : Z) (out : list Z) (b : Z) : option (list Z) :=
  if (0 <=? size) && (size <=? zlen out) then None else Some (out ++ [b]).

Definition is_base64 (c : Z) : bool := (c =? EQUALS) || existsb (Z.eqb c) base64_chars.

(** [openvpn_base64_decode]: the bytes written, [None] for -1. *)
Fixpoint base64_decode_loop (str : list Z) (size : Z) (out : list Z) : option (list Z) :=
  match str with
  | [] => Some out
  | t0 :: rest =>
      if negb (is_base64 t0) then Some out
      else
        match rest with
        | t1 :: t2 :: t3 :: str =>
            let val := token_decode [t0; t1; t2; t3] in
            let marker := Z.land (Z.shiftr val 24) 0xff in
            if val =? DECODE_ERROR then None
            else
              out ← base64_put size out (Z.land (Z.shiftr val 16) 0xff);
              out ← (if marker <? 2 then base64_put size out (Z.land (Z.shiftr val 8) 0xff) else Some out);
              out ← (if marker <? 1 then base64_put size out (Z.land val 0xff) else Some out);
              base64_decode_loop str size out
        | _ => None
        end
  end.

Definition openvpn_base64_decode (str : list Z) (size : Z) : option (list Z) := base64_decode_loop str size [].

(** ** One group *)

(** The four digits of a number of 24 bits. *)
Definition digit (c k : Z) : Z := (c / 64 ^ k) mod 64.

Lemma mask_digit c mask s k :
  mask = Z.shiftl 63 (6 * k) -> s = 6 * k -> 0 <= k -> Z.shiftr (Z.land c mask) s = digit c k.
Proof.
  intros -> -> Hk. unfold digit. rewrite Z.shiftr_land, Z.shiftr_shiftl_l by lia.
  rewrite Z.sub_diag, Z.shiftl_0_r. change 63 with (2 ^ 6 - 1). rewrite land_mask by lia.
  rewrite Z.shiftr_div_pow2 by lia. f_equal. f_equal. rewrite Z.pow_mul_r by lia. done.
Qed.

Lemma base64_char_ok :
  forallb (fun i => (pos (base64_char (Z.of_nat i)) =? Z.of_nat i) && negb (base64_char (Z.of_nat i) =? EQUALS)
                    && is_base64 (base64_char (Z.of_nat i))) (seq 0 64) = true.
Proof. vm_compute. reflexivity. Qed.

Lemma digit_range c k : 0 <= digit c k < 64.
Proof. unfold digit. apply Z.mod_pos_bound. lia. Qed.

Lemma base64_char_spec v :
  0 <= v < 64 -> pos (base64_char v) = v /\ (base64_char v =? EQUALS) = false /\ is_base64 (base64_char v) = true.
Proof.
  intros Hv. pose proof base64_char_ok as H. rewrite forallb_forall in H.
  specialize (H (Z.to_nat v)). rewrite Z2Nat.id in H by lia.
  assert (Hin : In (Z.to_nat v) (seq 0 64)) by (apply in_seq; lia). specialize (H Hin).
  apply andb_prop in H as [H Hc]. apply andb_prop in H as [Ha Hb].
  split; [by apply Z.eqb_eq|]. split; [by apply negb_true_iff|done].
Qed.

Lemma token_loop_char v token val :
  0 <= v < 64 -> 0 <= val < 2 ^ 18 ->
  token_loop (base64_char v :: token) val 0 = token_loop token (val * 64 + v) 0.
Proof.
  intros Hv Hval. cbn [token_loop]. destruct (base64_char_spec v Hv) as (-> & -> & _). bdecide.
  rewrite !u32_id; [done|..]; unfold is_u32; rewrite ?u32_id by (unfold is_u32; lia); lia.
Qed.

Lemma token_loop_pad token val :
  0 <= val < 2 ^ 18 -> forall marker, token_loop (EQUALS :: token) val marker = token_loop token (val * 64) (marker + 1).
Proof. intros Hval marker. cbn [token_loop]. rewrite Z.eqb_refl, u32_id by (unfold is_u32; lia). done. Qed.

(** The number a group encodes. *)
Definition group_value (c over : Z) : Z :=
  over * 2 ^ 24 + (digit c 3 * 64 + digit c 2) * 4096
    + (if 1 <? over then 0 else digit c 1 * 64) + (if 0 <? over then 0 else digit c 0).

Lemma token_decode_group c over :
  0 <= c < 2 ^ 24 -> 0 <= over <= 2 -> token_decode (base64_group c over) = group_value c over.
Proof.
  intros Hc Ho. unfold base64_group, token_decode.
  rewrite (mask_digit c _ 18 3), (mask_digit c _ 12 2), (mask_digit c _ 6 1) by (done || lia).
  replace (Z.land c 0x3f) with (digit c 0) by (rewrite <- (mask_digit c 0x3f 0 0) by (done || lia); apply Z.shiftr_0_r).
  pose proof (digit_range c 3). pose proof (digit_range c 2). pose proof (digit_range c 1). pose proof (digit_range c 0).
  rewrite token_loop_char, token_loop_char by lia. unfold group_value.
  assert (over = 0 \/ over = 1 \/ over = 2) as [->|[->| ->]] by lia; cbn [Z.ltb Z.compare Pos.compare Pos.compare_cont];
    rewrite ?token_loop_char, ?token_loop_pad by lia; cbn [token_loop]; bdecide;
    rewrite Z.lor_comm, lor_shiftl_add by lia; lia.
Qed.

(** ** The decoder reads what the encoder writes *)

(** Several bytes. *)
Definition base64_puts (size : Z) (out l : list Z) : option (list Z) :=
  if (0 <=? size) && (size <? zlen out + zlen l) then None else Some (out ++ l).

Lemma base64_puts_nil size out : size < 0 \/ zlen out <= size -> base64_puts size out [] = Some out.
Proof. intros H. unfold base64_puts. rewrite app_nil_r. zlen_facts. change (zlen (@nil Z)) with 0. bcase; try done; breflect; lia. Qed.

Lemma base64_puts_app size out l l' :
  (out ← base64_puts size out l; base64_puts size out l') = base64_puts size out (l ++ l').
Proof.
  unfold base64_puts. rewrite zlen_app. zlen_facts.
  destruct (0 <=? size) eqn:E0; cbn [andb mbind option_bind]; [|by rewrite <- app_assoc].
  bcase; cbn [mbind option_bind]; rewrite ?zlen_app; breflect; try lia; bdecide; try done; by rewrite <- app_assoc.
Qed.

Lemma base64_puts_room size out l out' :
  base64_puts size out l = Some out' -> size < 0 \/ zlen out' <= size.
Proof. unfold base64_puts. bcase; try done; breflect; intros [= <-]; zlia. Qed.

Lemma group_bytes c over :
  0 <= c < 2 ^ 24 -> 0 <= over <= 2 ->
  (over = 2 -> c mod 65536 = 0) -> (over = 1 -> c mod 256 = 0) ->
  let val := group_value c over in
  val <> DECODE_ERROR /\ Z.land (Z.shiftr val 24) 0xff = over /\ Z.land (Z.shiftr val 16) 0xff = c / 65536 /\
  Z.land (Z.shiftr val 8) 0xff = c / 256 mod 256 /\ Z.land val 0xff = c mod 256.
Proof.
  intros Hc Ho H2 H1 val.
  assert (E : val = over * 2 ^ 24 + c).
  { unfold val, group_value, digit. change (64 ^ 3) with 262144. change (64 ^ 2) with 4096. change (64 ^ 1) with 64.
    change (64 ^ 0) with 1. destruct (1 <? over) eqn:E1, (0 <? over) eqn:E0; breflect;
    [specialize (H2 ltac:(lia))|lia|specialize (H1 ltac:(lia))|]; Z.div_mod_to_equations; lia. }
  unfold DECODE_ERROR. change 0xff with (2 ^ 8 - 1). rewrite !land_mask, !Z.shiftr_div_pow2 by lia. rewrite E.
  change (2 ^ 24) with 16777216 in *. change (2 ^ 16) with 65536. change (2 ^ 8) with 256.
  split; [lia|]. split_and!; Z.div_mod_to_equations; lia.
Qed.

Lemma decode_group c over str size out :
  0 <= c < 2 ^ 24 -> 0 <= over <= 2 -> (over = 2 -> c mod 65536 = 0) -> (over = 1 -> c mod 256 = 0) ->
  size < 0 \/ zlen out <= size ->
  base64_decode_loop (base64_group c over ++ str) size out =
    (out ← base64_puts size out
             ([c / 65536] ++ (if over <? 2 then [c / 256 mod 256] else []) ++ (if over <? 1 then [c mod 256] else []));
     base64_decode_loop str size out).
Proof.
  intros Hc Ho H2 H1 Hroom. pose proof (token_decode_group c over Hc Ho) as Ht.
  destruct (group_bytes c over Hc Ho H2 H1) as (He & Hm & Ha & Hb & Hd). unfold base64_group in *. cbn [app base64_decode_loop].
  rewrite (mask_digit c _ 18 3) in * by (done || lia).
  destruct (base64_char_spec _ (digit_range c 3)) as (_ & _ & ->). cbn [negb]. rewrite Ht, Hm, Ha, Hb, Hd. bdecide.
  assert (Hput : forall out b, base64_put size out b = base64_puts size out [b]).
  { intros o b. unfold base64_put, base64_puts. change (zlen [b]) with 1. f_equal. bcase; try done; breflect; lia. }
  assert (Hcons : forall b l, (out ← base64_puts size out [b]; base64_puts size out l) = base64_puts size out (b :: l)).
  { intros b l. apply (base64_puts_app _ _ [b] l). }
  assert (over = 0 \/ over = 1 \/ over = 2) as [->|[->| ->]] by lia;
    cbn [Z.ltb Z.compare Pos.compare Pos.compare_cont app]; rewrite Hput; [| |done]; rewrite <- (Hcons _ (_ :: _));
    (destruct (base64_puts size out _) as [o|]; cbn [mbind option_bind]; [|done]); rewrite Hput; [|done].
  rewrite <- (base64_puts_app _ _ [_] [_] : _ = base64_puts size o [_; _]).
  destruct (base64_puts size o _); cbn [mbind option_bind]; [|done]. by rewrite Hput.
Qed.

Lemma group_split a b c :
  is_u8 a -> is_u8 b -> is_u8 c ->
  let v := (a * 256 + b) * 256 + c in
  0 <= v < 2 ^ 24 /\ v / 65536 = a /\ v / 256 mod 256 = b /\ v mod 256 = c /\ v mod 65536 = b * 256 + c.
Proof. unfold is_u8. cbv zeta. intros Ha Hb Hc. split; [lia|]. split_and!; Z.div_mod_to_equations; lia. Qed.

Lemma decode_encode n data size out :
  (List.length data <= n)%nat -> Forall is_u8 data -> size < 0 \/ zlen out <= size ->
  base64_decode_loop (openvpn_base64_encode data) size out = base64_puts size out data.
Proof.
  assert (H0 : is_u8 0) by (unfold is_u8; lia).
  revert data out. induction n as [|n IH]; intros data out Hn Hu Hr.
  { destruct data; [by rewrite base64_puts_nil|cbn in Hn; lia]. }
  assert (Hend : forall l, (out ← base64_puts size out l; base64_decode_loop [] size out) = base64_puts size out l).
  { intros l. by destruct (base64_puts size out l). }
  destruct data as [|a [|b [|c data]]]; cbn [openvpn_base64_encode]; repeat (apply Forall_cons in Hu as [? Hu]).
  - by rewrite base64_puts_nil.
  - destruct (group_split a 0 0) as (Hv & E1 & E2 & E3 & E4); [done..|]. rewrite <- (app_nil_r (base64_group _ _)).
    replace (a * 256 * 256) with ((a * 256 + 0) * 256 + 0) by lia. rewrite decode_group by (done || lia).
    rewrite E1. apply Hend.
  - destruct (group_split a b 0) as (Hv & E1 & E2 & E3 & E4); [done..|]. rewrite <- (app_nil_r (base64_group _ _)).
    replace ((a * 256 + b) * 256) with ((a * 256 + b) * 256 + 0) by lia. rewrite decode_group by (done || lia).
    rewrite E1, E2. apply Hend.
  - destruct (group_split a b c) as (Hv & E1 & E2 & E3 & E4); [done..|]. rewrite decode_group by (done || lia).
    rewrite E1, E2, E3. cbn [Z.ltb Z.compare Pos.compare Pos.compare_cont app].
    rewrite <- (base64_puts_app _ _ [a; b; c] data : _ = base64_puts size out (a :: b :: c :: data)).
    destruct (base64_puts size out [a; b; c]) as [out'|] eqn:E; cbn [mbind option_bind]; [|done].
    apply IH; [cbn in Hn; lia|done|]. by apply base64_puts_room in E.
Qed.

Lemma zlen_encode n data :
  (List.length data <= n)%nat -> zlen (openvpn_base64_encode data) = 4 * ((zlen data + 2) / 3).
Proof.
  revert data. induction n as [|n IH]; intros data Hn; [by destruct data; [|cbn in Hn; lia]|].
  destruct data as [|a [|b [|c data]]]; [done..|]. cbn [openvpn_base64_encode]. rewrite zlen_app, IH by (cbn in Hn; lia).
  rewrite !zlen_cons. unfold base64_group. rewrite !zlen_cons. change (zlen (@nil Z)) with 0. Z.div_mod_to_equations; lia.
Qed.

(** What the encoder writes has four characters for three bytes, and the decoder
    gives the bytes back; when it is told that there is less room than they need, it
    reports an error. *)
Theorem base64_roundtrip data size :
  Forall is_u8 data ->
  zlen (openvpn_base64_encode data) = 4 * ((zlen data + 2) / 3) /\
  openvpn_base64_decode (openvpn_base64_encode data) size =
    if (0 <=? size) && (size <? zlen data) then None else Some data.
Proof.
  intros Hu. split; [by eapply zlen_encode|]. unfold openvpn_base64_decode.
  assert (size < 0 \/ zlen (@nil Z) <= size) as Hr by (change (zlen (@nil Z)) with 0; lia).
  by rewrite (decode_encode _ _ _ _ (Nat.le_refl _) Hu Hr).
Qed.

Lemma base64_roundtrip_witness :
  Forall is_u8 [1; 2; 3; 250] /\
  openvpn_base64_decode (openvpn_base64_encode [1; 2; 3; 250]) 4 = Some [1; 2; 3; 250].
Proof.
  assert (H : Forall is_u8 [1; 2; 3; 250]) by (repeat constructor; unfold is_u8; lia).
  split; [exact H|]. exact (proj2 (base64_roundtrip [1; 2; 3; 250] 4 H)).
Defined.

(** Whatever the string, the decoder stays within its room. *)
Lemma base64_decode_bounded_loop n str size out out' :
  (List.length str <= n)%nat -> 0 <= size -> zlen out <= size ->
  base64_decode_loop str size out = Some out' -> zlen out' <= size.
Proof.
  revert str out. induction n as [|n IH]; intros str out Hn Hs Ho.
  { destruct str; [by intros [= <-]|cbn in Hn; lia]. }
  destruct str as [|t0 rest]; [by intros [= <-]|]. cbn [base64_decode_loop].
  destruct (negb _); [by intros [= <-]|].
  destruct rest as [|t1 [|t2 [|t3 str]]]; [intros [=]..|]. generalize (token_decode [t0; t1; t2; t3]). intros val.
  destruct (val =? DECODE_ERROR); [intros [=]|].
  assert (Hput : forall o b o', base64_put size o b = Some o' -> zlen o' <= size).
  { intros o b o'. unfold base64_put. bcase; try done; breflect; intros [= <-]; zlia. }
  intros H. apply bind_Some in H as (o1 & H1 & H). apply Hput in H1.
  apply bind_Some in H as (o2 & H2 & H). apply bind_Some in H as (o3 & H3 & H).
  apply (IH str o3); [cbn in Hn; lia|done| |done].
  assert (zlen o2 <= size) by (destruct (_ <? 2); [by apply Hput in H2|congruence]).
  destruct (_ <? 1); [by apply Hput in H3|congruence].
Qed.

(** For any string, of base 64 or not, the decoder reports an error or writes at
    most as many bytes as it was given room for. *)
Theorem base64_decode_within_room str size out :
  0 <= size -> openvpn_base64_decode str size = Some out -> zlen out <= size.
Proof. intros Hs. by apply (base64_decode_bounded_loop _ _ _ _ _ (Nat.le_refl _)). Qed.

Lemma base64_decode_within_room_witness : zlen [1; 2] <= 2.
Proof. apply (base64_decode_within_room (cstr "AQI=") 2); [lia|vm_compute; reflexivity]. Defined.

(** A character that is not of base 64 is noticed only at the start of a group:
    elsewhere its position, -1, is added to the number as if it were a digit. *)
Lemma base64_accepts_junk : openvpn_base64_decode (cstr "A*==") 8 = Some [255].
Proof. vm_compute. reflexivity. Qed.
