(* ===== verification/Text.v ===== *)
(** * Text ([buffer.c], [options.c], [ssl.c])

    Character classes and the rewriting of strings that come from the peer, the
    strings in which two ends describe their options to each other, and the lists of
    cipher names.  C strings are their bytes without the terminating zero; [isalnum]
    and the like are those of the C locale. *)
From S2P Require Import Prelude Base64.
From Stdlib Require Import String.

(** ** Character classes *)

Definition CC_ANY : Z := 0x1.
Definition CC_NULL : Z := 0x2.
Definition CC_ALNUM : Z := 0x4.
Definition CC_ALPHA : Z := 0x8.
Definition CC_ASCII : Z := 0x10.
Definition CC_CNTRL : Z := 0x20.
Definition CC_DIGIT : Z := 0x40.
Definition CC_PRINT : Z := 0x80.
Definition CC_PUNCT : Z := 0x100.
Definition CC_SPACE : Z := 0x200.
Definition CC_XDIGIT : Z := 0x400.
Definition CC_BLANK : Z := 0x800.
Definition CC_NEWLINE : Z := 0x1000.
Definition CC_CR : Z := 0x2000.
Definition CC_CRLF : Z := Z.lor CC_CR CC_NEWLINE.

(** The classes of one character each, from CC_BACKSLASH (1<<14) on. *)
Definition CC_SINGLE : list Z := cstr "\_-.,:/'" ++ [34] ++ cstr "`@=<>|?*".

Definition between (lo hi c : Z) : bool := (lo <=? c) && (c <=? hi).
Definition isdigit (c : Z) : bool := between 48 57 c.
Definition isalpha (c : Z) : bool := between 65 90 c || between 97 122 c.
Definition isalnum (c : Z) : bool := isdigit c || isalpha c.
Definition isascii (c : Z) : bool := between 0 127 c.
Definition iscntrl (c : Z) : bool := between 0 31 c || (c =? 127).
Definition ispunct (c : Z) : bool := between 33 126 c && negb (isalnum c).
Definition isspace (c : Z) : bool := between 9 13 c || (c =? 32).
Definition isxdigit (c : Z) : bool := isdigit c || between 65 70 c || between 97 102 c.

Definition has (flags cc : Z) : bool := negb (Z.land flags cc =? 0).

(** The tests of [char_class] from CC_BACKSLASH on. *)
Fixpoint char_single (chars : list Z) (bit : Z) (c flags : Z) : bool :=
  match chars with
  | [] => false
  | x :: chars => if has flags (Z.shiftl 1 bit) && (c =? x) then true else char_single chars (bit + 1) c flags
  end.

Definition char_class (c flags : Z) : bool :=
  if flags =? 0 then false
  else if has flags CC_ANY then true
  else if has flags CC_NULL && (c =? 0) then true
  else if has flags CC_ALNUM && isalnum c then true
  else if has flags CC_ALPHA && isalpha c then true
  else if has flags CC_ASCII && isascii c then true
  else if has flags CC_CNTRL && iscntrl c then true
  else if has flags CC_DIGIT && isdigit c then true
  else if has flags CC_PRINT && ((32 <=? c) && negb (c =? 127)) then true
  else if has flags CC_PUNCT && ispunct c then true
  else if has flags CC_SPACE && isspace c then true
  else if has flags CC_XDIGIT && isxdigit c then true
  else if has flags CC_BLANK && ((c =? 32) || (c =? 9)) then true
  else if has flags CC_NEWLINE && (c =? 10) then true
  else if has flags CC_CR && (c =? 13) then true
  else char_single CC_SINGLE 14 c flags.

Definition char_inc_exc (c inclusive exclusive : Z) : bool :=
  char_class c inclusive && negb (char_class c exclusive).

Definition string_class (str : list Z) (inclusive exclusive : Z) : bool :=
  forallb (fun c => char_inc_exc c inclusive exclusive) str.

(** The string and whether nothing was replaced; [replace] 0 removes. *)
Fixpoint string_mod (str : list Z) (inclusive exclusive replace : Z) : list Z * bool :=
  match str with
  | [] => ([], true)
  | c :: str =>
      let '(out, ret) := string_mod str inclusive exclusive replace in
      if char_inc_exc c inclusive exclusive then (c :: out, ret)
      else if replace =? 0 then (out, false) else (replace :: out, false)
  end.

Definition string_mod_remap_name (str : list Z) : list Z := (string_mod str CC_PRINT CC_CRLF 95).1.

Fixpoint string_replace_leading (str : list Z) (c replace : Z) : list Z :=
  match str with
  | [] => []
  | x :: rest => if x =? c then replace :: string_replace_leading rest c replace else str
  end.

Definition skip_leading_whitespace (str : list Z) : list Z :=
  (fix skip (l : list Z) : list Z :=
     match l with c :: l' => if (c =? 32) || (c =? 9) then skip l' else l | [] => [] end) str.

(** [rm_trailing_chars]: the loop that removes one character at a time. *)
Fixpoint rm_trailing_loop (fuel : nat) (str what : list Z) : list Z :=
  match fuel with
  | O => str
  | S fuel =>
      match last str with
      | Some c => if existsb (Z.eqb c) what then rm_trailing_loop fuel (removelast str) what else str
      | None => str
      end
  end.

Definition rm_trailing_chars (str what : list Z) : list Z := rm_trailing_loop (List.length str) str what.
Definition chomp (str : list Z) : list Z := rm_trailing_chars str [13; 10].

(** ** Option strings *)

(** [strncmp (l, p, strlen (p)) == 0] *)
Fixpoint strprefix (p l : list Z) : bool :=
  match p, l with
  | [], _ => true
  | x :: p, y :: l => (x =? y) && strprefix p l
  | _ :: _, [] => false
  end.

(** [strchr]: what follows the first [c], and what precedes it. *)
Fixpoint strchr (l : list Z) (c : Z) : option (list Z * list Z) :=
  match l with
  | [] => None
  | x :: rest =>
      if x =? c then Some ([], rest)
      else match strchr rest c with Some (before, after) => Some (x :: before, after) | None => None end
  end.

(** [strstr]: the string from the first occurrence of [p] on. *)
Fixpoint strstr (l p : list Z) : option (list Z) :=
  if strprefix p l then Some l
  else match l with [] => None | _ :: l => strstr l p end.

Definition COMMA : Z := 44.
Definition SPACE : Z := 32.

(** The value of the first option [opt_name], [None] when there is none. *)
Fixpoint options_string_extract_loop (fuel : nat) (p opt_name : list Z) : option (list Z) :=
  match fuel with
  | O => None
  | S fuel =>
      if strprefix opt_name p && (zlen opt_name + 1 <? zlen p)
         && bool_decide (p !! Z.to_nat (zlen opt_name) = Some SPACE)
      then
        let start := zdrop (zlen opt_name + 1) p in
        match strchr p COMMA with
        | Some (before, _) => Some (ztake (zlen before - (zlen opt_name + 1)) start)
        | None => Some start
        end
      else
        match strchr p COMMA with
        | Some (_, after) => options_string_extract_loop fuel after opt_name
        | None => None
        end
  end.

(** The remaining string gets shorter each time. *)
Definition options_string_extract_option (options_string opt_name : list Z) : option (list Z) :=
  options_string_extract_loop (S (List.length options_string)) options_string opt_name.

(** Strings of different versions, which differ in their first two characters, are
    not compared.  [strncmp] compares up to the first string's end. *)
Definition options_cmp_equal (actual expected : list Z) : bool :=
  if negb (bool_decide (ztake 2 actual = ztake 2 expected)) then true else bool_decide (actual = expected).

(** [sscanf] with %d: white space, a sign, digits; the value as a [long] made an
    [int]. *)
Fixpoint scan_digits (l : list Z) (acc : Z) : Z :=
  match l with
  | c :: l => if isdigit c then scan_digits l (acc * 10 + (c - 48)) else acc
  | [] => acc
  end.

Fixpoint skip_space (l : list Z) : list Z :=
  match l with c :: l' => if isspace c then skip_space l' else l | [] => [] end.

Definition scan_int (l : list Z) : option Z :=
  let l := skip_space l in
  let '(neg, l) := match l with
                   | c :: l' => if c =? 45 then (true, l') else if c =? 43 then (false, l') else (false, l)
                   | [] => (false, [])
                   end in
  match l with
  | c :: _ =>
      if isdigit c
      then let v := scan_digits l 0 in
           Some (i32 (Z.max (- 2 ^ 63) (Z.min (2 ^ 63 - 1) (if neg : bool then - v else v))))
      else None
  | [] => None
  end.

Definition IV_NCP : list Z := cstr "IV_NCP=".

Definition tls_peer_info_ncp_ver (peer_info : option (list Z)) : Z :=
  match peer_info ≫= fun l => strstr l IV_NCP with
  | Some ncpstr => default 0 (scan_int (zdrop (zlen IV_NCP) ncpstr))
  | None => 0
  end.

(** ** Lists of ciphers *)

(** The tokens [strtok] finds: the parts between delimiters that are not empty. *)
Fixpoint strtok_tokens (l : list Z) (delim : Z) (token : list Z) : list (list Z) :=
  let done := match token with [] => [] | _ => [token] end in
  match l with
  | [] => done
  | c :: l => if c =? delim then done ++ strtok_tokens l delim [] else strtok_tokens l delim (token ++ [c])
  end.

Definition COLON : Z := 58.

Definition tls_item_in_cipher_list (item list : list Z) : bool :=
  existsb (fun token => bool_decide (token = item)) (strtok_tokens list COLON []).

(** [supported] is what the TLS library says of a cipher's name. *)
Definition tls_check_ncp_cipher_list (supported : list Z -> bool) (list : list Z) : bool :=
  (0 <? zlen list) && forallb supported (strtok_tokens list COLON []).

(** [tls_poor_mans_ncp]: the cipher of the client afterwards. *)
Definition tls_poor_mans_ncp (ncp_enabled : bool) (ciphername ncp_ciphers : list Z) (remote : option (list Z)) : list Z :=
  match remote with
  | Some remote =>
      if ncp_enabled && negb (bool_decide (ciphername = remote)) && tls_item_in_cipher_list remote ncp_ciphers
      then remote else ciphername
  | None => ciphername
  end.
