(* ===== verification/LinkAddr.v ===== *)
(** * Addresses of peers ([socket.h], [socket.c])

    The address a packet comes from or goes to, the comparison of addresses, and the
    address a socket sends to, which follows the peer when it is allowed to. *)
From S2P Require Import Prelude Buffer.

(** [struct link_socket_actual]: the union of an IPv4 and an IPv6 address.  The
    family and the port are at the same place in both; [sin_addr] is the address of
    the first, [sin6_addr] the 16 bytes of the second. *)
Record link_socket_actual : Type := mkaddr {
  sa_family : Z;
  sa_port : Z;
  sin_addr : Z;
  sin6_addr : list Z
}.

#[export] Instance link_socket_actual_eq_dec : EqDecision link_socket_actual.
Proof. solve_decision. Defined.

Definition AF_INET : Z := 2.
Definition AF_INET6 : Z := 10.

Definition addr_undef : link_socket_actual := mkaddr 0 0 0 (replicate 16 0).

Definition link_socket_actual_defined (a : link_socket_actual) : bool :=
  if sa_family a =? AF_INET then negb (sin_addr a =? 0)
  else if sa_family a =? AF_INET6 then negb (bool_decide (sin6_addr a = replicate 16 0))
  else false.

(** A comparison for each family of the first address; another family fails an
    assertion. *)
Definition by_family {A} (a : link_socket_actual) (in4 in6 : A) : outcome A :=
  if sa_family a =? AF_INET then Ret in4 else if sa_family a =? AF_INET6 then Ret in6 else Fatal.

Definition addr_match (a1 a2 : link_socket_actual) : outcome bool :=
  by_family a1 (sin_addr a1 =? sin_addr a2) (bool_decide (sin6_addr a1 = sin6_addr a2)).

(** [addr_port_match] *)
Definition link_socket_actual_match (a1 a2 : link_socket_actual) : outcome bool :=
  by_family a1 ((sin_addr a1 =? sin_addr a2) && (sa_port a1 =? sa_port a2))
    (bool_decide (sin6_addr a1 = sin6_addr a2) && (sa_port a1 =? sa_port a2)).

(** The addresses [getaddrinfo] gave for the remote host. *)
Fixpoint addrlist_match (a1 : link_socket_actual) (l : list link_socket_actual) : outcome bool :=
  match l with
  | [] => Ret false
  | a2 :: l => same ← addr_match a1 a2; if same : bool then Ret true else addrlist_match a1 l
  end.

Fixpoint addrlist_port_match (a1 : link_socket_actual) (l : list link_socket_actual) : outcome bool :=
  match l with
  | [] => Ret false
  | a2 :: l =>
      same ← link_socket_actual_match a1 a2;
      if same && (sa_family a2 =? sa_family a1) then Ret true else addrlist_port_match a1 l
  end.

(** [struct link_socket_info]; [li_tcp] is whether the protocol is connection
    oriented, [li_remotes] the list of addresses of the remote host, if there is one. *)
Record link_socket_info : Type := mkinfo {
  li_actual : link_socket_actual;
  li_connection_established : bool;
  li_remote_float : bool;
  li_remotes : option (list link_socket_actual);
  li_tcp : bool
}.

Definition addr_match_proto (a1 a2 : link_socket_actual) (tcp : bool) : outcome bool :=
  if tcp then addr_match a1 a2 else link_socket_actual_match a1 a2.

Definition addrlist_match_proto (a1 : link_socket_actual) (l : list link_socket_actual) (tcp : bool) : outcome bool :=
  if tcp then addrlist_match a1 l else addrlist_port_match a1 l.

(** [link_socket_connection_initiated], without its messages and scripts. *)
Definition link_socket_connection_initiated (info : link_socket_info) (act : link_socket_actual) : link_socket_info :=
  mkinfo act true (li_remote_float info) (li_remotes info) (li_tcp info).

(** [link_socket_set_outgoing_addr] without buffer: a new or changed address, which
    is allowed. *)
Definition link_socket_set_outgoing_addr (info : link_socket_info) (act : link_socket_actual) : outcome link_socket_info :=
  same ← (if li_connection_established info then addr_match_proto act (li_actual info) (li_tcp info) else Ret false);
  if same : bool then Ret info
  else
    allowed ← (if li_remote_float info then Ret true
               else match li_remotes info with
                    | None => Ret true
                    | Some l => addrlist_match_proto act l (li_tcp info)
                    end);
    Ret (if allowed : bool then link_socket_connection_initiated info act else info).

Definition link_socket_verify_incoming_addr (buf : buffer) (info : link_socket_info) (from : link_socket_actual)
  : outcome bool :=
  if (0 <? len buf) && ((sa_family from =? AF_INET) || (sa_family from =? AF_INET6))
  then
    if negb (link_socket_actual_defined from) then Ret false
    else if li_remote_float info then Ret true
    else match li_remotes info with
         | None => Ret true
         | Some l => addrlist_match_proto from l (li_tcp info)
         end
  else Ret false.

(** The buffer and the address to send to; without address the packet is dropped. *)
Definition link_socket_get_outgoing_addr (buf : buffer) (info : link_socket_info) (act : option link_socket_actual)
  : buffer * option link_socket_actual :=
  if 0 <? len buf
  then if link_socket_actual_defined (li_actual info) then (buf, Some (li_actual info)) else (set_len buf 0, None)
  else (buf, act).

Lemma defined_family a : link_socket_actual_defined a = true -> sa_family a = AF_INET \/ sa_family a = AF_INET6.
Proof. unfold link_socket_actual_defined. bcase; try done; breflect; auto. Qed.

(** A defined address can be compared with any other. *)
Lemma match_defined a b : link_socket_actual_defined a = true -> exists r, link_socket_actual_match a b = Ret r.
Proof.
  intros H. unfold link_socket_actual_match, by_family.
  destruct (defined_family a H) as [-> | ->]; cbn; by eexists.
Qed.
