(* ===== verification/SslCommon.v ===== *)
(** * The structures of the TLS control channel ([ssl_common.h], [crypto.h])

    The tables of sessions and keys an OpenVPN instance keeps for its peer: a
    [tls_multi] has three [tls_session]s, a session has two [key_state]s.  The
    objects of the TLS library a [key_state] points to are not part of it: their
    answers are arguments of the operations.  C strings are their bytes without the
    terminating zero, [None] is a null pointer.  Times are [time_t].

    Only what the modelled operations use is here; the fields of the build options
    ENABLE_DEF_AUTH, MANAGEMENT_DEF_AUTH and PLUGIN_DEF_AUTH are not: the program is
    built without them ([openvpn-config/config.h]). *)
From S2P Require Import Prelude Integer Buffer PacketId Reliable Mtu Crypto TlsWrap LinkAddr.

(** ** Ciphers and keys *)

(** What the library says of a cipher: its mode, the length of its initialisation
    vectors, its key and block sizes, whether its blocks are too short, and how many
    keys of DES it has, with the functions that check and repair such a key.  [ckt_new] makes a context for
    encryption ([true]) or decryption. *)
Record cipher_kt : Type := mkckt {
  ckt_mode : cipher_mode;
  ckt_iv_size : Z;
  ckt_key_size : Z;
  ckt_block_size : Z;
  ckt_insecure : bool;
  ckt_des_num_cblocks : Z;
  ckt_des_check : list Z -> bool;
  ckt_des_fixup : list Z -> list Z;
  ckt_new : list Z -> bool -> cipher_ctx
}.

(** [struct key_type]; a digest is the function that makes its keyed context. *)
Record key_type : Type := mkkt {
  kt_cipher_length : Z;
  kt_hmac_length : Z;
  kt_cipher : option cipher_kt;
  kt_digest : option (list Z -> hmac_ctx)
}.

Definition MAX_CIPHER_KEY_LENGTH : Z := 64.

(** [struct key] *)
Record key : Type := mkk { key_cipher : list Z; key_hmac : list Z }.

(** [struct key_ctx_bi] *)
Record key_ctx_bi : Type := mkbi { kb_encrypt : key_ctx; kb_decrypt : key_ctx; kb_initialized : bool }.

Definition key_ctx_none : key_ctx := mkkey None None [].
Definition key_ctx_bi_none : key_ctx_bi := mkbi key_ctx_none key_ctx_none false.

(** ** Keys under negotiation *)

(** [struct key_source] and [struct key_source2] *)
Record key_source : Type := mksrc { pre_master : list Z; random1 : list Z; random2 : list Z }.
Record key_source2 : Type := mksrc2 { src_client : key_source; src_server : key_source }.

Definition key_source_zero : key_source := mksrc (replicate 48 0) (replicate 32 0) (replicate 32 0).
Definition key_source2_zero : key_source2 := mksrc2 key_source_zero key_source_zero.

Definition S_ERROR : Z := -1.
Definition S_UNDEF : Z := 0.
Definition S_INITIAL : Z := 1.
Definition S_PRE_START : Z := 2.
Definition S_START : Z := 3.
Definition S_SENT_KEY : Z := 4.
Definition S_GOT_KEY : Z := 5.
Definition S_ACTIVE : Z := 6.
Definition S_NORMAL_OP : Z := 7.

(** [struct key_state].  [ks_opt] and [ks_ignore_packet_id] are the rest of
    [crypto_options], beside the keys; [ks_paybuf] are the payloads that wait for the
    channel to open, the list it points to being empty when it is null. *)
Record key_state : Type := mkks {
  ks_state : Z;
  ks_key_id : Z;
  ks_established : Z;
  ks_must_negotiate : Z;
  ks_must_die : Z;
  ks_initial_opcode : Z;
  ks_session_id_remote : list Z;
  ks_remote_addr : link_socket_actual;
  ks_keys : key_ctx_bi;
  ks_opt : crypto_options;
  ks_ignore_packet_id : bool;
  ks_key_src : key_source2;
  ks_plaintext_read_buf : buffer;
  ks_plaintext_write_buf : buffer;
  ks_ack_write_buf : buffer;
  ks_send_reliable : reliable;
  ks_rec_reliable : reliable;
  ks_rec_ack : reliable_ack;
  ks_paybuf : list (list Z);
  ks_n_bytes : Z;
  ks_n_packets : Z;
  ks_authenticated : bool;
  ks_auth_deferred_expire : Z
}.

#[export] Instance eta_key_state : Eta key_state := fun k =>
  mkks (ks_state k) (ks_key_id k) (ks_established k) (ks_must_negotiate k) (ks_must_die k)
    (ks_initial_opcode k) (ks_session_id_remote k) (ks_remote_addr k) (ks_keys k) (ks_opt k)
    (ks_ignore_packet_id k) (ks_key_src k) (ks_plaintext_read_buf k) (ks_plaintext_write_buf k)
    (ks_ack_write_buf k) (ks_send_reliable k) (ks_rec_reliable k) (ks_rec_ack k) (ks_paybuf k)
    (ks_n_bytes k) (ks_n_packets k) (ks_authenticated k) (ks_auth_deferred_expire k).

(** ** Sessions *)

(** [struct cert_hash_set]: the hash of the certificate at each depth, if any. *)
Notation cert_hash_set := (list (option (list Z))).

Record tls_options : Type := mkopts {
  o_key_type : key_type;
  o_server : bool;
  o_xmit_hold : bool;
  o_local_options : list Z;
  o_remote_options : list Z;
  o_key_method : Z;
  o_replay : bool;
  o_single_session : bool;
  o_disable_occ : bool;
  o_mode_server : bool;
  o_pull : bool;
  o_transition_window : Z;
  o_handshake_window : Z;
  o_packet_timeout : Z;
  o_renegotiate_bytes : Z;
  o_renegotiate_packets : Z;
  o_renegotiate_seconds : Z;
  o_long_form : bool;
  o_ignore_packet_id : bool;
  o_replay_window : Z;
  o_replay_time : Z;
  o_config_ciphername : list Z;
  o_ncp_enabled : bool;
  o_tls_crypt_v2 : bool;
  o_tls_wrap : tls_wrap_ctx;
  o_frame : frame;
  o_user_pass_script : bool;
  o_user_pass_optional : bool;
  o_username_as_cn : bool;
  o_opt_verify : bool;
  o_auth_token_generate : bool;
  o_auth_token_lifetime : Z;
  o_ccd_exclusive : bool
}.

#[export] Instance eta_tls_options : Eta tls_options := fun o =>
  mkopts (o_key_type o) (o_server o) (o_xmit_hold o) (o_local_options o) (o_remote_options o)
    (o_key_method o) (o_replay o) (o_single_session o) (o_disable_occ o) (o_mode_server o) (o_pull o)
    (o_transition_window o) (o_handshake_window o) (o_packet_timeout o) (o_renegotiate_bytes o)
    (o_renegotiate_packets o) (o_renegotiate_seconds o) (o_long_form o) (o_ignore_packet_id o)
    (o_replay_window o) (o_replay_time o) (o_config_ciphername o) (o_ncp_enabled o) (o_tls_crypt_v2 o)
    (o_tls_wrap o) (o_frame o) (o_user_pass_script o) (o_user_pass_optional o) (o_username_as_cn o)
    (o_opt_verify o) (o_auth_token_generate o) (o_auth_token_lifetime o) (o_ccd_exclusive o).

Inductive ks_index : Type := KS_PRIMARY | KS_LAME_DUCK.
Inductive tm_index : Type := TM_ACTIVE | TM_UNTRUSTED | TM_LAME_DUCK.

#[export] Instance ks_index_eq_dec : EqDecision ks_index.
Proof. solve_decision. Defined.
#[export] Instance tm_index_eq_dec : EqDecision tm_index.
Proof. solve_decision. Defined.

(** [struct tls_session]; [s_key0] and [s_key1] are the array [key]. *)
Record tls_session : Type := mksession {
  s_burst : bool;
  s_tls_wrap : tls_wrap_ctx;
  s_initial_opcode : Z;
  s_session_id : list Z;
  s_key_id : Z;
  s_common_name : option (list Z);
  s_cert_hash_set : option cert_hash_set;
  s_verified : bool;
  s_untrusted_addr : link_socket_actual;
  s_key0 : key_state;
  s_key1 : key_state
}.

#[export] Instance eta_tls_session : Eta tls_session := fun s =>
  mksession (s_burst s) (s_tls_wrap s) (s_initial_opcode s) (s_session_id s) (s_key_id s)
    (s_common_name s) (s_cert_hash_set s) (s_verified s) (s_untrusted_addr s) (s_key0 s) (s_key1 s).

Definition s_key (s : tls_session) (j : ks_index) : key_state :=
  match j with KS_PRIMARY => s_key0 s | KS_LAME_DUCK => s_key1 s end.

Definition s_set_key (s : tls_session) (j : ks_index) (k : key_state) : tls_session :=
  match j with KS_PRIMARY => s <| s_key0 := k |> | KS_LAME_DUCK => s <| s_key1 := k |> end.

(** [struct tls_multi]; a pointer to a key, such as [save_ks], is its place in the
    tables, and [m_session0], [m_session1], [m_session2] are the array [session]. *)
Record tls_multi : Type := mkmulti {
  m_opt : tls_options;
  m_save_ks : option (tm_index * ks_index);
  m_to_link_addr : link_socket_actual;
  m_n_sessions : Z;
  m_n_hard_errors : Z;
  m_n_soft_errors : Z;
  m_locked_cn : option (list Z);
  m_locked_username : option (list Z);
  m_locked_cert_hash_set : option cert_hash_set;
  m_peer_info : option (list Z);
  m_peer_id : Z;
  m_use_peer_id : bool;
  m_remote_ciphername : option (list Z);
  m_auth_token : option (list Z);
  m_auth_token_tstamp : Z;
  m_auth_token_sent : bool;
  m_session0 : tls_session;
  m_session1 : tls_session;
  m_session2 : tls_session
}.

#[export] Instance eta_tls_multi : Eta tls_multi := fun m =>
  mkmulti (m_opt m) (m_save_ks m) (m_to_link_addr m) (m_n_sessions m) (m_n_hard_errors m)
    (m_n_soft_errors m) (m_locked_cn m) (m_locked_username m) (m_locked_cert_hash_set m) (m_peer_info m)
    (m_peer_id m) (m_use_peer_id m) (m_remote_ciphername m) (m_auth_token m) (m_auth_token_tstamp m)
    (m_auth_token_sent m) (m_session0 m) (m_session1 m) (m_session2 m).

Definition m_session (m : tls_multi) (i : tm_index) : tls_session :=
  match i with TM_ACTIVE => m_session0 m | TM_UNTRUSTED => m_session1 m | TM_LAME_DUCK => m_session2 m end.

Definition m_set_session (m : tls_multi) (i : tm_index) (s : tls_session) : tls_multi :=
  match i with
  | TM_ACTIVE => m <| m_session0 := s |>
  | TM_UNTRUSTED => m <| m_session1 := s |>
  | TM_LAME_DUCK => m <| m_session2 := s |>
  end.

Definition m_key (m : tls_multi) (ij : tm_index * ks_index) : key_state := s_key (m_session m ij.1) ij.2.

Definition m_set_key (m : tls_multi) (ij : tm_index * ks_index) (k : key_state) : tls_multi :=
  m_set_session m ij.1 (s_set_key (m_session m ij.1) ij.2 k).

(** [key_scan], as [tls_multi_init] sets it. *)
Definition key_scan : list (tm_index * ks_index) :=
  [(TM_ACTIVE, KS_PRIMARY); (TM_ACTIVE, KS_LAME_DUCK); (TM_LAME_DUCK, KS_LAME_DUCK)].

(** [DECRYPT_KEY_ENABLED] *)
Definition DECRYPT_KEY_ENABLED (m : tls_multi) (k : key_state) : bool :=
  S_GOT_KEY - (if o_server (m_opt m) then 1 else 0) <=? ks_state k.

(** ** Cleared structures *)

Definition packet_id_zero : packet_id := mkpid (mksend 0 0) packet_id_rec_zero.
Definition crypto_options_zero : crypto_options := mkopt packet_id_zero None false.
Definition buffer_zero : buffer := mkbuffer 0 0 0 None.
Definition reliable_zero : reliable := mkreliable 0 0 0 0 false (replicate 8 entry_zero).
Definition sid_zero : list Z := replicate 8 0.

Definition key_state_zero : key_state :=
  mkks S_UNDEF 0 0 0 0 0 sid_zero addr_undef key_ctx_bi_none crypto_options_zero false key_source2_zero
    buffer_zero buffer_zero buffer_zero reliable_zero reliable_zero [] [] 0 0 false 0.

Definition tls_wrap_zero : tls_wrap_ctx :=
  mkwrap TLS_WRAP_NONE (mkdc key_ctx_none key_ctx_none crypto_options_zero false) buffer_zero key_ctx_none
    buffer_zero buffer_zero false.

Definition tls_session_zero : tls_session :=
  mksession false tls_wrap_zero 0 sid_zero 0 None None false addr_undef key_state_zero key_state_zero.

(** ** The tables as arrays *)

Lemma s_key_set s j k j' : s_key (s_set_key s j k) j' = if decide (j' = j) then k else s_key s j'.
Proof. by destruct j, j'. Qed.

Lemma m_session_set m i s i' : m_session (m_set_session m i s) i' = if decide (i' = i) then s else m_session m i'.
Proof. by destruct i, i'. Qed.

Lemma m_key_set m ij k ij' : m_key (m_set_key m ij k) ij' = if decide (ij' = ij) then k else m_key m ij'.
Proof.
  destruct ij as [i j], ij' as [i' j']. unfold m_key, m_set_key. cbn [fst snd]. rewrite m_session_set.
  destruct (decide (i' = i)) as [->|Hi].
  - rewrite s_key_set. repeat case_decide; congruence.
  - rewrite decide_False by congruence. done.
Qed.

Lemma m_opt_set_session m i s : m_opt (m_set_session m i s) = m_opt m.
Proof. by destruct i. Qed.

Lemma m_opt_set_key m ij k : m_opt (m_set_key m ij k) = m_opt m.
Proof. apply m_opt_set_session. Qed.

#[export] Hint Rewrite s_key_set m_session_set m_key_set m_opt_set_session m_opt_set_key : tls.
