(* ===== verification/Auth.v ===== *)
(** * Who the peer is ([ssl_verify.c])

    What is remembered of the peer's certificate and user name, the checks that a
    renegotiation does not change them, passwords and authentication tokens.

    The outside world is a record [auth_env]: the clock, the answer of the
    --auth-user-pass-verify script to the common name, the user name and the
    password, whether --client-config-dir has a file of some name, and 32 random bytes.
    The verification of certificates ([verify_cert]) runs inside the calls of the TLS
    library and is not modelled: see [TlsProcess]. *)
From S2P Require Import Prelude Integer Base64 Text SslCommon.
From Stdlib Require Import String.

Record auth_env : Type := mkauth {
  ae_now : Z;
  ae_script : option (list Z) -> list Z -> list Z -> bool;
  ae_ccd_file : list Z -> bool;
  ae_random : list Z
}.

Definition TLS_USERNAME_LEN : Z := 64.
Definition AUTH_TOKEN_SIZE : Z := 32.
Definition MAX_CERT_DEPTH : Z := 16.
Definition CCD_DEFAULT : list Z := cstr "DEFAULT".

Definition wipe_auth_token (m : tls_multi) : tls_multi :=
  m <| m_auth_token := None |> <| m_auth_token_sent := false |>.

Definition deauthenticate_session (s : tls_session) : tls_session :=
  s <| s_key0 := s_key0 s <| ks_authenticated := false |> |>
    <| s_key1 := s_key1 s <| ks_authenticated := false |> |>.

Definition tls_deauthenticate (m : tls_multi) : tls_multi :=
  let m := wipe_auth_token m in
  m <| m_session0 := deauthenticate_session (m_session0 m) |>
    <| m_session1 := deauthenticate_session (m_session1 m) |>
    <| m_session2 := deauthenticate_session (m_session2 m) |>.

Definition set_common_name (s : tls_session) (common_name : option (list Z)) : tls_session :=
  s <| s_common_name := common_name |>.

Definition set_common_name_at (m : tls_multi) (i : tm_index) (common_name : option (list Z)) : tls_multi :=
  m_set_session m i (set_common_name (m_session m i) common_name).

Definition UNDEF_NAME : list Z := cstr "UNDEF".

(** A name that is neither null nor empty, else null or "UNDEF". *)
Definition name_or (name : option (list Z)) (null : bool) : option (list Z) :=
  match name with
  | Some (c :: l) => Some (c :: l)
  | _ => if null then None else Some UNDEF_NAME
  end.

Definition tls_common_name (m : tls_multi) (null : bool) : option (list Z) :=
  name_or (s_common_name (m_session m TM_ACTIVE)) null.

Definition tls_username (m : tls_multi) (null : bool) : option (list Z) := name_or (m_locked_username m) null.

Definition tls_lock_common_name (m : tls_multi) : tls_multi :=
  match s_common_name (m_session m TM_ACTIVE), m_locked_cn m with
  | Some cn, None => m <| m_locked_cn := Some cn |>
  | _, _ => m
  end.

(** The new state and whether the user name is the locked one, or now is. *)
Definition tls_lock_username (m : tls_multi) (username : list Z) : tls_multi * bool :=
  match m_locked_username m with
  | Some locked =>
      if negb (bool_decide (username = locked)) then (tls_deauthenticate m, false) else (m, true)
  | None => (m <| m_locked_username := Some username |>, true)
  end.

(** [cert_hash_remember]: the hash of the certificate at a depth.  A hash has 32 bytes. *)
Definition cert_hash_remember (s : tls_session) (error_depth : Z) (cert_hash : list Z) : outcome tls_session :=
  if (0 <=? error_depth) && (error_depth <? MAX_CERT_DEPTH)
  then
    let chs := default (replicate 16 None) (s_cert_hash_set s) in
    _ ← c_assert (zlen cert_hash =? 32);
    Ret (s <| s_cert_hash_set := Some (<[Z.to_nat error_depth := Some cert_hash]> chs) |>)
  else Ret s.

Definition cert_hash_compare (chs1 chs2 : option cert_hash_set) : bool := bool_decide (chs1 = chs2).

Definition tls_lock_cert_hash_set (m : tls_multi) : tls_multi :=
  match s_cert_hash_set (m_session m TM_ACTIVE), m_locked_cert_hash_set m with
  | Some chs, None => m <| m_locked_cert_hash_set := Some chs |>
  | _, _ => m
  end.

(** ** Passwords and tokens *)

Definition set_authenticated (m : tls_multi) (i : tm_index) (b : bool) : tls_multi :=
  let ij := (i, KS_PRIMARY) in m_set_key m ij (m_key m ij <| ks_authenticated := b |>).

Definition verify_user_pass_script (env : auth_env) (m : tls_multi) (i : tm_index) (username password : list Z) : bool :=
  if o_user_pass_optional (m_opt m) || negb (zlen username =? 0)
  then ae_script env (s_common_name (m_session m i)) username password
  else false.

(** The common name, when the user name is to be it. *)
Definition username_as_cn (m : tls_multi) (i : tm_index) (username : list Z) : tls_multi :=
  if o_username_as_cn (m_opt m) then set_common_name_at m i (Some username) else m.

(** The round that compares the password with the token sent earlier.  The token is
    compared with as many bytes of the password, so that a password may go on. *)
Definition verify_auth_token (env : auth_env) (m : tls_multi) (i : tm_index) (token username password : list Z) : tls_multi :=
  match tls_lock_username m username with
  | (m, false) => set_authenticated m i false
  | (m, true) =>
      if (0 <? o_auth_token_lifetime (m_opt m)) && (m_auth_token_tstamp m + o_auth_token_lifetime (m_opt m) <? ae_now env)
      then set_authenticated (wipe_auth_token m) i false
      else if negb (strprefix token password)
      then tls_deauthenticate (set_authenticated m i false)
      else username_as_cn (set_authenticated m i true) i username
  end.

(** A token for the next time, when tokens are on and there is none yet. *)
Definition generate_auth_token (env : auth_env) (m : tls_multi) : outcome tls_multi :=
  if o_auth_token_generate (m_opt m) && negb (bool_decide (is_Some (m_auth_token m)))
  then
    let token := openvpn_base64_encode (ae_random env) in
    _ ← c_assert (AUTH_TOKEN_SIZE <? zlen token);
    Ret (m <| m_auth_token := Some token |> <| m_auth_token_tstamp := ae_now env |>)
  else Ret m.

(** The last part of [verify_user_pass], once the checks are made. *)
Definition accept_user_pass (env : auth_env) (m : tls_multi) (i : tm_index) (username : list Z) : outcome tls_multi :=
  m ← generate_auth_token env (set_authenticated m i true);
  Ret (username_as_cn m i username).

(** A user name that is too long to be a common name fails the check like a wrong
    password; only a peer that passes gets its name locked, and a peer that fails
    keeps the state it has. *)
Definition verify_user_pass (env : auth_env) (m : tls_multi) (i : tm_index) (username password : list Z)
  : outcome tls_multi :=
  let username := string_mod_remap_name username in
  let password := (string_mod password CC_PRINT CC_CRLF 95).1 in
  match (if o_auth_token_generate (m_opt m) && m_auth_token_sent m then m_auth_token m else None) with
  | Some token => Ret (verify_auth_token env m i token username password)
  | None =>
      let s1 := negb (o_username_as_cn (m_opt m) && (TLS_USERNAME_LEN <? zlen username)) in
      let s2 := if o_user_pass_script (m_opt m) then verify_user_pass_script env m i username password else true in
      if s1 && s2
      then match tls_lock_username m username with
           | (m, true) => accept_user_pass env m i username
           | (m, false) => Ret m
           end
      else Ret m
  end.

(** ** The last checks *)

(** The common name must not change once it is locked. *)
Definition check_locked_cn (m : tls_multi) (i : tm_index) : tls_multi :=
  match m_locked_cn m, s_common_name (m_session m i) with
  | Some locked, Some cn =>
      if ks_authenticated (m_key m (i, KS_PRIMARY)) && negb (bool_decide (cn = locked))
      then tls_deauthenticate (set_common_name_at m i (Some locked)) else m
  | _, _ => m
  end.

(** Nor must the certificates. *)
Definition check_locked_certs (m : tls_multi) (i : tm_index) : tls_multi :=
  match m_locked_cert_hash_set m, s_cert_hash_set (m_session m i) with
  | Some locked, Some chs =>
      if ks_authenticated (m_key m (i, KS_PRIMARY)) && negb (cert_hash_compare (Some chs) (Some locked))
      then tls_deauthenticate m else m
  | _, _ => m
  end.

(** With --ccd-exclusive the common name must have a file of its own. *)
Definition check_ccd_exclusive (env : auth_env) (m : tls_multi) (i : tm_index) : tls_multi :=
  if ks_authenticated (m_key m (i, KS_PRIMARY)) && o_ccd_exclusive (m_opt m)
  then match s_common_name (m_session m i) with
       | Some cn =>
           if bool_decide (cn = CCD_DEFAULT) || negb (ae_ccd_file env cn)
           then wipe_auth_token (set_authenticated m i false) else m
       | None => wipe_auth_token (set_authenticated m i false)
       end
  else m.

Definition verify_final_auth_checks (env : auth_env) (m : tls_multi) (i : tm_index) : tls_multi :=
  let m := match s_common_name (m_session m i) with
           | None => set_common_name_at m i (Some [])
           | Some _ => m
           end in
  check_ccd_exclusive env (check_locked_certs (check_locked_cn m i) i) i.

(** ** The state of the authentication *)

Inductive auth_status : Type :=
| TLS_AUTHENTICATION_SUCCEEDED | TLS_AUTHENTICATION_FAILED | TLS_AUTHENTICATION_DEFERRED.

Definition tls_authentication_status (m : tls_multi) : auth_status :=
  let enabled := filter (fun ij => DECRYPT_KEY_ENABLED m (m_key m ij)) key_scan in
  let success := existsb (fun ij => ks_authenticated (m_key m ij)) enabled in
  let active := negb (bool_decide (enabled = [])) in
  if success then TLS_AUTHENTICATION_SUCCEEDED
  else if negb active then TLS_AUTHENTICATION_DEFERRED
  else TLS_AUTHENTICATION_FAILED.
