(* ===== verification/KeyExchange.v ===== *)
(** * The exchange of data channel keys ([ssl.c], [crypto.c])

    Once TLS is up, the two ends send each other random bytes (key method 2) or keys
    (key method 1) over it, with a description of their options, a user name and a
    password, and information about the peer.  The keys of method 2 are derived from
    the random bytes of both ends by the PRF of TLS 1.0.

    MD5 and SHA1, as keyed digests, are parameters, like the ciphers of [SslCommon].
    [kx_input] is what the outside world contributes to an exchange. *)
From S2P Require Import Prelude Integer Buffer PacketId Reliable Crypto TlsWrap Text SslCommon Auth.
From S2P Require Import Base64.
From Stdlib Require Import String.

(** ** Strings with a length in front *)

Definition write_empty_string (buf : buffer) : outcome (buffer * bool) := buf_write_u16 buf 0.

Definition write_string (buf : buffer) (str : list Z) (maxlen : Z) : outcome (buffer * bool) :=
  let n := zlen str + 1 in
  if (n <? 1) || ((0 <=? maxlen) && (maxlen <? n)) then Ret (buf, false)
  else
    '(buf, ok) ← buf_write_u16 buf n;
    if negb ok then Ret (buf, false)
    else '(buf, ok) ← buf_write buf (str ++ [0]); Ret (buf, ok).

(** The C string an array holds: the bytes before the first zero. *)
Fixpoint c_string (l : list Z) : list Z :=
  match l with
  | [] => []
  | c :: l => if c =? 0 then [] else c :: c_string l
  end.

(** [str[len-1] = '\0'] *)
Definition terminate (l : list Z) : list Z := c_string (removelast l).

Definition read_string (buf : buffer) (capacity : Z) : outcome (buffer * option (list Z)) :=
  '(buf, n) ← buf_read_u16 buf;
  if (n <? 1) || (capacity <? n) then Ret (buf, None)
  else '(buf, r) ← buf_read buf n; Ret (buf, option_map terminate r).

Definition read_string_alloc (buf : buffer) : outcome (buffer * option (list Z)) :=
  '(buf, n) ← buf_read_u16 buf;
  if n <? 1 then Ret (buf, None)
  else '(buf, r) ← buf_read buf n; Ret (buf, option_map terminate r).

(** ** Keys *)

(** The bytes of a field of fixed size, the rest of it being zero. *)
Definition zero_pad (n : Z) (l : list Z) : list Z := l ++ replicate (Z.to_nat (n - zlen l)) 0.

Definition kt_init_key_ctx (kt : key_type) (k : key) (enc : bool) : key_ctx :=
  mkkey (match kt_cipher kt with
         | Some c => if 0 <? kt_cipher_length kt
                     then Some (ckt_new c (ztake (kt_cipher_length kt) (key_cipher k)) enc) else None
         | None => None
         end)
        (match kt_digest kt with
         | Some d => if 0 <? kt_hmac_length kt then Some (d (ztake (kt_hmac_length kt) (key_hmac k))) else None
         | None => None
         end) [].

Definition key_is_zero (k : key) (kt : key_type) : bool :=
  forallb (fun b => b =? 0) (ztake (kt_cipher_length kt) (key_cipher k)).

Definition check_key (k : key) (kt : key_type) : bool :=
  match kt_cipher kt with
  | Some c =>
      if key_is_zero k kt then false
      else if negb (ckt_des_num_cblocks c =? 0) then ckt_des_check c (key_cipher k) else true
  | None => true
  end.

Definition fixup_key (k : key) (kt : key_type) : key :=
  match kt_cipher kt with
  | Some c => if negb (ckt_des_num_cblocks c =? 0) then mkk (ckt_des_fixup c (key_cipher k)) (key_hmac k) else k
  | None => k
  end.

Definition write_key (k : key) (kt : key_type) (buf : buffer) : outcome (buffer * bool) :=
  _ ← c_assert ((kt_cipher_length kt <=? MAX_CIPHER_KEY_LENGTH) && (kt_hmac_length kt <=? MAX_HMAC_KEY_LENGTH));
  '(buf, ok) ← buf_write buf [kt_cipher_length kt];
  if negb ok then Ret (buf, false)
  else
    '(buf, ok) ← buf_write buf [kt_hmac_length kt];
    if negb ok then Ret (buf, false)
    else
      '(buf, ok) ← buf_write buf (ztake (kt_cipher_length kt) (key_cipher k));
      if negb ok then Ret (buf, false)
      else buf_write buf (ztake (kt_hmac_length kt) (key_hmac k)).

(** [None] for -1 and 0. *)
Definition read_key (kt : key_type) (buf : buffer) : outcome (buffer * option key) :=
  '(buf, r1) ← buf_read buf 1;
  match r1 with
  | None => Ret (buf, None)
  | Some cipher_length =>
      '(buf, r2) ← buf_read buf 1;
      match r2 with
      | None => Ret (buf, None)
      | Some hmac_length =>
          if negb (be_value cipher_length =? kt_cipher_length kt) || negb (be_value hmac_length =? kt_hmac_length kt)
          then Ret (buf, None)
          else if (MAX_CIPHER_KEY_LENGTH <? kt_cipher_length kt) || (MAX_HMAC_KEY_LENGTH <? kt_hmac_length kt) then Oob
          else
            '(buf, r3) ← buf_read buf (kt_cipher_length kt);
            match r3 with
            | None => Ret (buf, None)
            | Some cipher =>
                '(buf, r4) ← buf_read buf (kt_hmac_length kt);
                match r4 with
                | None => Ret (buf, None)
                | Some hmac => Ret (buf, Some (mkk (zero_pad MAX_CIPHER_KEY_LENGTH cipher)
                                                  (zero_pad MAX_HMAC_KEY_LENGTH hmac)))
                end
            end
      end
  end.

(** ** The PRF of TLS 1.0 *)

(** The loop of [tls1_P_hash].  [None] when the fuel does not suffice: the loop gets
    [olen + 1] rounds, enough for any digest that is not empty. *)
Fixpoint P_hash_loop (fuel : nat) (ctx : hmac_ctx) (seed A1 out : list Z) (olen : Z) : option (list Z) :=
  match fuel with
  | O => None
  | S fuel =>
      let chunk := hmac_ctx_size ctx in
      if chunk <? olen
      then P_hash_loop fuel ctx seed (hmac_of ctx A1) (out ++ hmac_of ctx (A1 ++ seed)) (olen - chunk)
      else Some (out ++ ztake olen (hmac_of ctx (A1 ++ seed)))
  end.

(** The array [A1] has 64 bytes.  An empty digest would make the loop endless, for
    which [Fatal] stands. *)
Definition tls1_P_hash (ctx : hmac_ctx) (seed : list Z) (olen : Z) : outcome (list Z) :=
  if MAX_HMAC_KEY_LENGTH <? hmac_ctx_size ctx then Oob
  else must (P_hash_loop (S (Z.to_nat olen)) ctx seed (hmac_of ctx seed) [] olen).

Section Digests.
Context (md5 sha1 : list Z -> hmac_ctx).

Definition tls1_PRF (label sec : list Z) (olen : Z) : outcome (list Z) :=
  let slen := zlen sec in
  let half := slen / 2 in
  let n := half + Z.land slen 1 in
  out1 ← tls1_P_hash (md5 (ztake n sec)) label olen;
  out2 ← tls1_P_hash (sha1 (ztake n (zdrop half sec))) label olen;
  Ret (zip_with Z.lxor out1 out2).

(** The identifiers of the sessions are given or not. *)
Definition write_sid (seed : buffer) (sid : option (list Z)) : outcome buffer :=
  match sid with
  | Some sid => '(seed, ok) ← buf_write seed sid; _ ← c_assert ok; Ret seed
  | None => Ret seed
  end.

Definition openvpn_PRF (secret label client_seed server_seed : list Z) (client_sid server_sid : option (list Z))
    (output_len : Z) : outcome (list Z) :=
  seed ← alloc_buf (zlen label + zlen client_seed + zlen server_seed + SID_SIZE * 2);
  '(seed, ok) ← buf_write seed label;
  _ ← c_assert ok;
  '(seed, ok) ← buf_write seed client_seed;
  _ ← c_assert ok;
  '(seed, ok) ← buf_write seed server_seed;
  _ ← c_assert ok;
  seed ← write_sid seed client_sid;
  seed ← write_sid seed server_sid;
  bytes ← buf_contents seed;
  tls1_PRF bytes secret output_len.

Definition KEY_EXPANSION_ID : list Z := cstr "OpenVPN".
Definition MASTER_LABEL : list Z := KEY_EXPANSION_ID ++ cstr " master secret".
Definition EXPANSION_LABEL : list Z := KEY_EXPANSION_ID ++ cstr " key expansion".

(** The key of index [i] in the 256 bytes of [key2.keys]. *)
Definition key2_key (keys : list Z) (i : Z) : key :=
  let k := ztake 128 (zdrop (128 * i) keys) in mkk (ztake 64 k) (zdrop 64 k).

Definition key_ctx_update_implicit_iv (ctx : key_ctx) (hmac_key : list Z) : outcome key_ctx :=
  match k_cipher ctx with
  | Some c =>
      if cipher_kt_mode_aead (Some c)
      then
        _ ← c_assert (OPENVPN_AEAD_MIN_IV_LEN <=? c_iv_length c);
        let impl_iv_len := c_iv_length c - 4 in
        _ ← c_assert (impl_iv_len <=? OPENVPN_MAX_IV_LENGTH);
        _ ← c_assert (impl_iv_len <=? MAX_HMAC_KEY_LENGTH);
        Ret (mkkey (k_cipher ctx) (k_hmac ctx) (ztake impl_iv_len hmac_key))
      else Ret ctx
  | None => Ret ctx
  end.

(** [init_key_ctx_bi] and the implicit vectors. *)
Definition init_data_keys (kt : key_type) (k0 k1 : key) (server : bool) : outcome key_ctx_bi :=
  let '(out_key, in_key, _) :=
    key_direction_state_init (if server then KEY_DIRECTION_INVERSE else KEY_DIRECTION_NORMAL) in
  let pick (i : Z) := if i =? 0 then k0 else k1 in
  encrypt ← key_ctx_update_implicit_iv (kt_init_key_ctx kt (pick out_key) true)
              (key_hmac (pick (if server then 1 else 0)));
  decrypt ← key_ctx_update_implicit_iv (kt_init_key_ctx kt (pick in_key) false)
              (key_hmac (pick (1 - (if server then 1 else 0))));
  Ret (mkbi encrypt decrypt true).

(** The keys and whether they were made. *)
Definition generate_key_expansion (keys : key_ctx_bi) (kt : key_type) (src : key_source2)
    (client_sid server_sid : list Z) (server : bool) : outcome (key_ctx_bi * bool) :=
  if kb_initialized keys then Ret (keys, false)
  else
    master ← openvpn_PRF (pre_master (src_client src)) MASTER_LABEL
               (random1 (src_client src)) (random1 (src_server src)) None None 48;
    bytes ← openvpn_PRF master EXPANSION_LABEL
              (random2 (src_client src)) (random2 (src_server src)) (Some client_sid) (Some server_sid) 256;
    let k0 := fixup_key (key2_key bytes 0) kt in
    if negb (check_key k0 kt) then Ret (keys, false)
    else
      let k1 := fixup_key (key2_key bytes 1) kt in
      if negb (check_key k1 kt) then Ret (keys, false)
      else keys ← init_data_keys kt k0 k1 server; Ret (keys, true).

Definition tls_limit_reneg_bytes (c : option cipher_kt) (reneg_bytes : Z) : Z :=
  match c with
  | Some c => if ckt_insecure c && (reneg_bytes =? -1) then 64 * 1024 * 1024 else reneg_bytes
  | None => reneg_bytes
  end.

(** ** Random bytes *)

Definition key_source2_side (k2 : key_source2) (client : bool) (k : key_source) : key_source2 :=
  if client then mksrc2 k (src_server k2) else mksrc2 (src_client k2) k.

(** [r0], [r1] and [r2] are what [rand_bytes] gives; the fields that are not reached
    stay zero. *)
Definition key_source2_randomize_write (k2 : key_source2) (buf : buffer) (server : bool) (r0 r1 r2 : list Z)
  : outcome (key_source2 * buffer * bool) :=
  let z := key_source_zero in
  let k := if server then z else mksrc r0 (random1 z) (random2 z) in
  '(buf, ok) ← (if server then Ret (buf, true) else buf_write buf r0);
  if negb ok then Ret (key_source2_side k2 (negb server) k, buf, false)
  else
    let k := mksrc (pre_master k) r1 (random2 k) in
    '(buf, ok) ← buf_write buf r1;
    if negb ok then Ret (key_source2_side k2 (negb server) k, buf, false)
    else
      let k := mksrc (pre_master k) r1 r2 in
      '(buf, ok) ← buf_write buf r2;
      Ret (key_source2_side k2 (negb server) k, buf, ok).

Definition key_source2_read (k2 : key_source2) (buf : buffer) (server : bool)
  : outcome (key_source2 * buffer * bool) :=
  let z := key_source_zero in
  '(buf, r0) ← (if server then buf_read buf 48 else Ret (buf, Some (pre_master z)));
  match r0 with
  | None => Ret (key_source2_side k2 server z, buf, false)
  | Some r0 =>
      '(buf, r1) ← buf_read buf 32;
      match r1 with
      | None => Ret (key_source2_side k2 server (mksrc r0 (random1 z) (random2 z)), buf, false)
      | Some r1 =>
          '(buf, r2) ← buf_read buf 32;
          match r2 with
          | None => Ret (key_source2_side k2 server (mksrc r0 r1 (random2 z)), buf, false)
          | Some r2 => Ret (key_source2_side k2 server (mksrc r0 r1 r2), buf, true)
          end
      end
  end.

(** ** The messages *)

(** What comes from outside: random bytes, a random key that passed [check_key], the
    user name and the password to send, the information about this peer to send
    ([push_peer_info]'s text), and what [Auth] needs. *)
Record kx_input : Type := mkkx {
  kx_pre_master : list Z;
  kx_random1 : list Z;
  kx_random2 : list Z;
  kx_key1 : key;
  kx_user_pass : option (list Z * list Z);
  kx_peer_info : option (list Z);
  kx_auth : auth_env
}.

Definition TLS_OPTIONS_LEN : Z := 512.
Definition USER_PASS_LEN : Z := 128.
Definition KEY_METHOD_MASK : Z := 0x0F.

Definition prim (i : tm_index) : tm_index * ks_index := (i, KS_PRIMARY).

Definition set_key_src (m : tls_multi) (i : tm_index) (src : key_source2) : tls_multi :=
  m_set_key m (prim i) (m_key m (prim i) <| ks_key_src := src |>).

Definition set_write_buf (m : tls_multi) (i : tm_index) (b : buffer) : tls_multi :=
  m_set_key m (prim i) (m_key m (prim i) <| ks_plaintext_write_buf := b |>).

Definition set_read_buf (m : tls_multi) (i : tm_index) (b : buffer) : tls_multi :=
  m_set_key m (prim i) (m_key m (prim i) <| ks_plaintext_read_buf := b |>).

(** [crypto_options.flags] *)
Definition set_crypto_flags (k : key_state) (o : tls_options) : key_state :=
  k <| ks_opt := mkopt (opt_packet_id (ks_opt k)) (pid_persist (ks_opt k)) (o_long_form o) |>
    <| ks_ignore_packet_id := o_ignore_packet_id o |>.

Definition tls_session_generate_data_channel_keys (m : tls_multi) (i : tm_index) : outcome (tls_multi * bool) :=
  let o := m_opt m in
  let ks := m_key m (prim i) in
  let sid := s_session_id (m_session m i) in
  let client_sid := if o_server o then ks_session_id_remote ks else sid in
  let server_sid := if negb (o_server o) then ks_session_id_remote ks else sid in
  _ ← c_assert (ks_authenticated ks);
  let ks := set_crypto_flags ks o in
  '(keys, ok) ← generate_key_expansion (ks_keys ks) (o_key_type o) (ks_key_src ks) client_sid server_sid (o_server o);
  let m := m_set_key m (prim i) (ks <| ks_keys := keys |> <| ks_key_src := key_source2_zero |>) in
  if ok : bool
  then Ret (m <| m_opt := o <| o_renegotiate_bytes :=
              tls_limit_reneg_bytes (kt_cipher (o_key_type o)) (o_renegotiate_bytes o) |> |>, true)
  else Ret (m, false).

(** The fields of a message, written one after the other until one does not fit. *)
Definition and_then (r : outcome (buffer * bool)) (f : buffer -> outcome (buffer * bool)) : outcome (buffer * bool) :=
  '(buf, ok) ← r; if ok : bool then f buf else Ret (buf, false).

Definition push_peer_info (peer_info : option (list Z)) (buf : buffer) : outcome (buffer * bool) :=
  match peer_info with
  | Some info => write_string buf info (-1)
  | None => write_empty_string buf
  end.

Definition write_user_pass (user_pass : option (list Z * list Z)) (buf : buffer) : outcome (buffer * bool) :=
  match user_pass with
  | Some (username, password) =>
      and_then (write_string buf username (-1)) (fun buf => write_string buf password (-1))
  | None => and_then (write_empty_string buf) write_empty_string
  end.

(** A server makes its keys now, unless the cipher is still to be negotiated. *)
Definition server_generates_now (o : tls_options) (key_id : Z) : bool :=
  o_server o && negb (o_ncp_enabled o && o_mode_server o && (key_id <=? 0)).

Definition key_method_2_write (kx : kx_input) (m : tls_multi) (i : tm_index) : outcome (tls_multi * bool) :=
  let o := m_opt m in
  let ks := m_key m (prim i) in
  _ ← c_assert (o_key_method o =? 2);
  let '(buf, ok) := buf_init (ks_plaintext_write_buf ks) 0 in
  _ ← c_assert ok;
  '(buf, ok) ← and_then (buf_write_u32 buf 0) (fun buf => buf_write_u8 buf (Z.land (o_key_method o) KEY_METHOD_MASK));
  if negb ok then Ret (set_key_src (set_write_buf m i buf) i key_source2_zero, false)
  else
    '(src, buf, ok) ← key_source2_randomize_write (ks_key_src ks) buf (o_server o)
                        (kx_pre_master kx) (kx_random1 kx) (kx_random2 kx);
    let m := set_key_src m i src in
    '(buf, ok) ← (if negb ok then Ret (buf, false)
                  else and_then (write_string buf (o_local_options o) TLS_OPTIONS_LEN) (fun buf =>
                       and_then (write_user_pass (kx_user_pass kx) buf) (push_peer_info (kx_peer_info kx))));
    let m := set_write_buf m i buf in
    if negb ok then Ret (set_key_src m i key_source2_zero, false)
    else if server_generates_now o (ks_key_id ks) && ks_authenticated ks
    then
      '(m, ok) ← tls_session_generate_data_channel_keys m i;
      if ok : bool then Ret (m, true) else Ret (set_key_src m i key_source2_zero, false)
    else Ret (m, true).

(** What a message of method 2 holds. *)
Record km2_message : Type := mkkm2 {
  km2_src : key_source2;
  km2_options : list Z;
  km2_username : option (list Z);
  km2_password : option (list Z);
  km2_peer_info : option (list Z)
}.

(** The reading of the message, up to the peer information: the state of the random
    bytes, the buffer, and the fields when none of the required ones is missing. *)
Definition read_km2_message (src : key_source2) (server : bool) (buf : buffer)
  : outcome (key_source2 * buffer * option km2_message) :=
  let '(buf, ok) := buf_advance buf 4 in
  if negb ok then Ret (src, buf, None)
  else
    '(buf, key_method_flags) ← buf_read_u8 buf;
    if negb (Z.land key_method_flags KEY_METHOD_MASK =? 2) then Ret (src, buf, None)
    else
      '(src, buf, ok) ← key_source2_read src buf server;
      if negb ok then Ret (src, buf, None)
      else
        '(buf, options) ← read_string buf TLS_OPTIONS_LEN;
        match options with
        | None => Ret (src, buf, None)
        | Some options =>
            '(buf, username) ← read_string buf USER_PASS_LEN;
            '(buf, password) ← read_string buf USER_PASS_LEN;
            '(buf, peer_info) ← read_string_alloc buf;
            Ret (src, buf, Some (mkkm2 src options username password peer_info))
        end.

(** What the peer says of itself is kept, and the negotiation of ciphers turned off
    when it does not know it and has the configured cipher. *)
Definition note_peer (m : tls_multi) (msg : km2_message) : tls_multi :=
  let remote := options_string_extract_option (km2_options msg) (cstr "cipher") in
  let m := m <| m_peer_info := km2_peer_info msg |> <| m_remote_ciphername := remote |> in
  if (tls_peer_info_ncp_ver (km2_peer_info msg) <? 2)
     && (match remote with None => true | Some r => bool_decide (r = o_config_ciphername (m_opt m)) end)
  then m <| m_opt := m_opt m <| o_ncp_enabled := false |> |>
  else m.

(** The user name and the password, or the certificate; [None] ends the exchange. *)
Definition authenticate_peer (kx : kx_input) (m : tls_multi) (i : tm_index) (msg : km2_message)
  : outcome (option tls_multi) :=
  if o_user_pass_script (m_opt m)
  then
    match km2_username msg, km2_password msg with
    | Some u, Some p => m ← verify_user_pass (kx_auth kx) m i u p; Ret (Some m)
    | _, _ =>
        if negb (o_user_pass_optional (m_opt m)) then Ret None
        else m ← verify_user_pass (kx_auth kx) m i [] []; Ret (Some m)
    end
  else if negb (s_verified (m_session m i)) then Ret None
  else Ret (Some (set_authenticated m i true)).

(** Options that do not match end the authentication with --opt-verify. *)
Definition check_occ (m : tls_multi) (i : tm_index) (options : list Z) : tls_multi :=
  if negb (o_disable_occ (m_opt m)) && negb (options_cmp_equal options (o_remote_options (m_opt m)))
     && o_opt_verify (m_opt m)
  then set_authenticated m i false else m.

Definition client_generates_now (o : tls_options) (key_id : Z) : bool :=
  negb (o_server o) && (negb (o_pull o) || (0 <? key_id)).

(** [error]: the random bytes and the buffer are wiped. *)
Definition km2_read_error (m : tls_multi) (i : tm_index) (buf : buffer) : outcome (tls_multi * bool) :=
  buf ← buf_clear buf;
  Ret (set_read_buf (set_key_src m i key_source2_zero) i buf, false).

Definition key_method_2_read (kx : kx_input) (m : tls_multi) (i : tm_index) : outcome (tls_multi * bool) :=
  let ks := m_key m (prim i) in
  _ ← c_assert (o_key_method (m_opt m) =? 2);
  '(src, buf, msg) ← read_km2_message (ks_key_src ks) (o_server (m_opt m)) (ks_plaintext_read_buf ks);
  let m := set_key_src m i src in
  match msg with
  | None => km2_read_error m i buf
  | Some msg =>
      let m := note_peer (set_authenticated m i false) msg in
      r ← authenticate_peer kx m i msg;
      match r with
      | None => km2_read_error m i buf
      | Some m =>
          let m := if ks_authenticated (m_key m (prim i)) then verify_final_auth_checks (kx_auth kx) m i else m in
          let m := check_occ m i (km2_options msg) in
          buf ← buf_clear buf;
          let m := set_read_buf m i buf in
          if client_generates_now (m_opt m) (ks_key_id ks)
          then
            '(m, ok) ← tls_session_generate_data_channel_keys m i;
            if ok : bool then Ret (m, true) else km2_read_error m i buf
          else Ret (m, true)
      end
  end.

(** ** Key method 1 *)

Definition key_method_1_write (kx : kx_input) (m : tls_multi) (i : tm_index) : outcome (tls_multi * bool) :=
  let o := m_opt m in
  let ks := m_key m (prim i) in
  _ ← c_assert (o_key_method o =? 1);
  let '(buf, ok) := buf_init (ks_plaintext_write_buf ks) 0 in
  _ ← c_assert ok;
  let k := kx_key1 kx in
  if negb (check_key k (o_key_type o)) then Ret (set_write_buf m i buf, false)
  else
    '(buf, ok) ← write_key k (o_key_type o) buf;
    if negb ok then Ret (set_write_buf m i buf, false)
    else
      let keys := mkbi (kt_init_key_ctx (o_key_type o) k true) (kb_decrypt (ks_keys ks)) (kb_initialized (ks_keys ks)) in
      '(buf, ok) ← buf_write buf (o_local_options o ++ [0]);
      Ret (m_set_key m (prim i) (ks <| ks_plaintext_write_buf := buf |> <| ks_keys := keys |>), ok).

Definition key_method_1_read (m : tls_multi) (i : tm_index) : outcome (tls_multi * bool) :=
  let o := m_opt m in
  let ks := m_key m (prim i) in
  _ ← c_assert (o_key_method o =? 1);
  if negb (s_verified (m_session m i))
  then buf ← buf_clear (ks_plaintext_read_buf ks); Ret (set_read_buf m i buf, false)
  else
    '(buf, r) ← read_key (o_key_type o) (ks_plaintext_read_buf ks);
    match r with
    | Some k =>
        if negb (check_key k (o_key_type o)) || (len buf <? 1)
        then buf ← buf_clear buf; Ret (set_read_buf m i buf, false)
        else
          buf ← buf_clear buf;
          let keys := mkbi (kb_encrypt (ks_keys ks)) (kt_init_key_ctx (o_key_type o) k false) (kb_initialized (ks_keys ks)) in
          Ret (m_set_key m (prim i) (ks <| ks_plaintext_read_buf := buf |> <| ks_keys := keys |>
                                        <| ks_authenticated := true |>), true)
    | None => buf ← buf_clear buf; Ret (set_read_buf m i buf, false)
    end.

End Digests.
