(* ===== verification/CryptoParams.v ===== *)
(** * The cipher of the data channel ([crypto.c], [ssl.c])

    The cipher and digest a name stands for, what they add to a packet, and the
    change of both when the two ends agree on another cipher (NCP).  The names are
    looked up in the crypto library: [cipher_kt_get] is the library's answer for the name
    as [translate_cipher_name_from_openvpn] gives it, [md_kt_get] the digest and
    its size. *)
From S2P Require Import Prelude Integer Buffer PacketId Reliable Mtu Crypto TlsWrap LinkAddr Text SslCommon Auth KeyExchange.

(** "none" *)
Definition NONE : list Z := [110; 111; 110; 101].

Definition cipher_kt_mode_cbc (c : cipher_kt) : bool := bool_decide (ckt_mode c = MODE_CBC).
Definition cipher_kt_mode_aead (c : cipher_kt) : bool := bool_decide (ckt_mode c = MODE_AEAD).
Definition cipher_kt_mode_ofb_cfb (c : cipher_kt) : bool :=
  bool_decide (ckt_mode c = MODE_OFB) || bool_decide (ckt_mode c = MODE_CFB).
Definition cipher_kt_tag_size (c : cipher_kt) : Z := if cipher_kt_mode_aead c then OPENVPN_AEAD_TAG_LENGTH else 0.

Section Library.
Context (cipher_kt_get : list Z -> option cipher_kt) (md_kt_get : list Z -> option ((list Z -> hmac_ctx) * Z)).

(** The digest of a key type; none with an AEAD cipher. *)
Definition key_type_digest (authname : list Z) (aead : bool) : outcome (option (list Z -> hmac_ctx) * Z) :=
  if negb (bool_decide (authname = NONE)) && negb aead
  then
    '(d, n) ← must (md_kt_get authname);
    if OPENVPN_MAX_HMAC_SIZE <? n then Fatal else Ret (Some d, n)
  else Ret (None, 0).

(** A name the library does not know, a mode or a size that is not supported are
    fatal; [md_kt_get] itself is fatal on an unknown digest. *)
Definition init_key_type (ciphername authname : list Z) (keysize : Z) (tls_mode : bool) : outcome key_type :=
  '(cipher, cipher_length, aead) ←
     (if negb (bool_decide (ciphername = NONE))
      then
        c ← must (cipher_kt_get ciphername);
        let length := if (0 <? keysize) && (keysize <=? MAX_CIPHER_KEY_LENGTH) then keysize else ckt_key_size c in
        let aead := cipher_kt_mode_aead c in
        if negb (cipher_kt_mode_cbc c || (tls_mode && aead) || (tls_mode && cipher_kt_mode_ofb_cfb c)) then Fatal
        else if OPENVPN_MAX_CIPHER_BLOCK_SIZE <? ckt_block_size c then Fatal
        else Ret (Some c, length, aead)
      else Ret (None, 0, false));
  '(digest, hmac_length) ← key_type_digest authname aead;
  Ret (mkkt cipher_length hmac_length cipher digest).

(** What protection adds to a packet, as [unsigned int]. *)
Definition crypto_overhead (kt : key_type) (packet_id packet_id_long_form : bool) : Z :=
  u32 ((if packet_id then packet_id_size packet_id_long_form else 0)
       + match kt_cipher kt with
         | Some c => ckt_iv_size c + (if cipher_kt_mode_aead c then cipher_kt_tag_size c else 0) + ckt_block_size c
         | None => 0
         end
       + kt_hmac_length kt).

Definition crypto_adjust_frame_parameters (f : frame) (kt : key_type) (packet_id packet_id_long_form : bool) : frame :=
  frame_add_to_extra_frame f (crypto_overhead kt packet_id packet_id_long_form).

(** The options [tls_session_update_crypto_params] reads; [co_fragment] is
    [ce.fragment]. *)
Record cipher_options : Type := mkco {
  co_ciphername : list Z;
  co_authname : list Z;
  co_keysize : Z;
  co_ncp_ciphers : list Z;
  co_replay : bool;
  co_mtu : frame_options;
  co_mssfix : Z;
  co_fragment : Z
}.

#[export] Instance eta_cipher_options : Eta cipher_options := fun o =>
  mkco (co_ciphername o) (co_authname o) (co_keysize o) (co_ncp_ciphers o) (co_replay o) (co_mtu o) (co_mssfix o) (co_fragment o).

(** Whether a client may use the cipher the server pushed. *)
Definition cipher_allowed (o : tls_options) (co : cipher_options) : bool :=
  o_server o || bool_decide (co_ciphername co = o_config_ciphername o)
  || tls_item_in_cipher_list (co_ciphername co) (co_ncp_ciphers co).

(** "undo worst-case overhead, add actual overhead" *)
Definition actual_overhead (f : frame) (kt : key_type) (replay long_form : bool) : frame :=
  crypto_adjust_frame_parameters (frame_remove_from_extra_frame f crypto_max_overhead) kt replay long_form.

Definition long_form (kt : key_type) : bool :=
  match kt_cipher kt with Some c => cipher_kt_mode_ofb_cfb c | None => false end.

Context (md5 sha1 : list Z -> hmac_ctx).

(** The session's options, the options, both frames (the second is not there when
    fragmentation is off), and whether it worked. *)
Definition tls_session_update_crypto_params (m : tls_multi) (i : tm_index) (co : cipher_options) (f : frame)
    (frag : option frame) : outcome (tls_multi * cipher_options * frame * option frame * bool) :=
  let o := m_opt m in
  if negb (cipher_allowed o co)
  then Ret (m, co <| co_ciphername := o_config_ciphername o |>, f, frag, false)
  else
    let co := if negb (bool_decide (co_ciphername co = o_config_ciphername o)) && negb (co_keysize co =? 0)
              then co <| co_keysize := 0 |> else co in
    kt ← init_key_type (co_ciphername co) (co_authname co) (co_keysize co) true;
    let lf := long_form kt in
    let m := m <| m_opt := o <| o_key_type := kt |> <| o_long_form := lf |> |> in
    let f := actual_overhead f kt (co_replay co) lf in
    f ← frame_finalize f (link_mtu_defined (co_mtu co)) (o_link_mtu (co_mtu co)) (tun_mtu_defined (co_mtu co)) (o_tun_mtu (co_mtu co));
    f ← frame_init_mssfix f (co_mssfix co);
    frag ← match frag with
           | Some g =>
               g ← frame_set_mtu_dynamic (actual_overhead g kt (co_replay co) lf) (co_fragment co) SET_MTU_UPPER_BOUND;
               Ret (Some g)
           | None => Ret None
           end;
    '(m, ok) ← tls_session_generate_data_channel_keys md5 sha1 m i;
    Ret (m, co, f, frag, ok).

End Library.

(** ** Negotiation keeps packets within what was allocated *)

Section Bounds.
Context (cipher_kt_get : list Z -> option cipher_kt) (md_kt_get : list Z -> option ((list Z -> hmac_ctx) * Z)).

(** What the crypto library promises of the sizes it reports. *)
Definition library_sizes : Prop :=
  (forall n c, cipher_kt_get n = Some c -> 0 <= ckt_iv_size c <= OPENVPN_MAX_IV_LENGTH /\ 0 <= ckt_block_size c) /\
  (forall n d z, md_kt_get n = Some (d, z) -> 0 <= z).

Hypothesis Hlib : library_sizes.

Definition kt_sized (kt : key_type) : Prop :=
  0 <= kt_hmac_length kt <= OPENVPN_MAX_HMAC_SIZE /\
  match kt_cipher kt with
  | Some c => 0 <= ckt_iv_size c <= OPENVPN_MAX_IV_LENGTH /\ 0 <= ckt_block_size c <= OPENVPN_MAX_CIPHER_BLOCK_SIZE
              /\ (cipher_kt_mode_aead c = true -> kt_hmac_length kt = 0)
  | None => True
  end.

Lemma key_type_digest_sized an aead d z :
  key_type_digest md_kt_get an aead = Ret (d, z) -> 0 <= z <= OPENVPN_MAX_HMAC_SIZE /\ (aead = true -> z = 0).
Proof using Hlib.
  destruct Hlib as [_ Hd]. unfold key_type_digest. destruct (_ && negb aead) eqn:Eb; [|intros [= _ <-]; done].
  apply andb_prop in Eb as [_ Eb]. destruct (md_kt_get an) as [[d' n]|] eqn:E; [|done]. cbn [must mbind outcome_mbind].
  destruct (OPENVPN_MAX_HMAC_SIZE <? n) eqn:El; intros [= _ <-]. apply Hd in E. apply Z.ltb_ge in El. split; [lia|].
  by destruct aead.
Qed.

Lemma init_key_type_sized cn an ks tls kt : init_key_type cipher_kt_get md_kt_get cn an ks tls = Ret kt -> kt_sized kt.
Proof using Hlib.
  pose proof (key_type_digest_sized an) as Hd. unfold init_key_type.
  destruct (bool_decide (cn = NONE)); cbn [negb mbind outcome_mbind].
  - destruct (key_type_digest md_kt_get an false) as [[d z]| |] eqn:E; cbn [mbind outcome_mbind]; intros [= <-]. apply Hd in E as [E _]. done.
  - destruct (cipher_kt_get cn) as [c|] eqn:Ec; [|done]. cbn [must mbind outcome_mbind].
    destruct Hlib as [Hc _]. destruct (Hc _ _ Ec) as [Hiv Hbs]. destruct (negb (_ || _)); [done|].
    destruct (_ <? ckt_block_size c) eqn:Eb; [done|]. apply Z.ltb_ge in Eb. cbn [mbind outcome_mbind].
    destruct (key_type_digest md_kt_get an (cipher_kt_mode_aead c)) as [[d z]| |] eqn:E; cbn [mbind outcome_mbind]; intros [= <-].
    apply Hd in E as [Hz Ha]. split; [done|]. cbn. auto.
Qed.

(** Protection adds at most the worst case. *)
Lemma crypto_overhead_le kt replay lf : kt_sized kt -> 0 <= crypto_overhead kt replay lf <= crypto_max_overhead.
Proof.
  intros [Hh Hc]. unfold crypto_overhead. change crypto_max_overhead with 120.
  assert (0 <= (if replay then packet_id_size lf else 0) <= 8) by (destruct replay, lf; vm_compute; split; discriminate).
  unfold cipher_kt_tag_size, OPENVPN_MAX_HMAC_SIZE, OPENVPN_MAX_IV_LENGTH, OPENVPN_MAX_CIPHER_BLOCK_SIZE, OPENVPN_AEAD_TAG_LENGTH in *.
  destruct (kt_cipher kt) as [c|]; [|rewrite u32_id; unfold is_u32; lia].
  destruct Hc as (Hiv & Hbs & Ha). destruct (cipher_kt_mode_aead c); [specialize (Ha eq_refl)|]; rewrite u32_id; unfold is_u32; lia.
Qed.

Lemma actual_overhead_extra f kt replay lf :
  kt_sized kt -> crypto_max_overhead <= extra_frame f < 2 ^ 31 ->
  extra_frame (actual_overhead f kt replay lf) = extra_frame f - crypto_max_overhead + crypto_overhead kt replay lf.
Proof.
  intros Hk Hf. pose proof (crypto_overhead_le kt replay lf Hk) as Ho. change crypto_max_overhead with 120 in *.
  unfold actual_overhead, crypto_adjust_frame_parameters, frame_add_to_extra_frame, frame_remove_from_extra_frame, set_extra_frame.
  cbn [extra_frame]. change crypto_max_overhead with 120. uwrap.
Qed.

(** The frame as its options set it up. *)
Definition frame_of_options (o : frame_options) (f : frame) : Prop :=
  link_mtu f = if tun_mtu_defined o then o_tun_mtu o + TUN_LINK_DELTA f else o_link_mtu o.

(** What a frame is but for its link MTUs. *)
Definition extras (f : frame) : Z * Z * Z * Z := (extra_frame f, extra_buffer f, extra_tun f, extra_link f).

Lemma finalize_of_options o f f' :
  frame_finalize f (link_mtu_defined o) (o_link_mtu o) (tun_mtu_defined o) (o_tun_mtu o) = Ret f' ->
  frame_of_options o f' /\ extras f' = extras f.
Proof.
  unfold frame_finalize, frame_of_options. destruct (tun_mtu_defined o); intros H; ret_inv; destruct (_ <? _); ret_inv; done.
Qed.

Lemma set_mtu_dynamic_same f mtu flags f' :
  frame_set_mtu_dynamic f mtu flags = Ret f' -> link_mtu f' = link_mtu f /\ extras f' = extras f.
Proof. unfold frame_set_mtu_dynamic. intros H. ret_inv. by destruct (_ || _). Qed.

Lemma init_mssfix_same f mssfix f' :
  frame_init_mssfix f mssfix = Ret f' -> link_mtu f' = link_mtu f /\ extras f' = extras f.
Proof. unfold frame_init_mssfix. destruct (_ =? _); [by intros [= <-]|apply set_mtu_dynamic_same]. Qed.

Lemma negotiation_frame md5 sha1 m i co f frag m' co' f' frag' ok :
  tls_session_update_crypto_params cipher_kt_get md_kt_get md5 sha1 m i co f frag = Ret (m', co', f', frag', ok) ->
  crypto_max_overhead <= extra_frame f < 2 ^ 31 -> frame_of_options (co_mtu co) f ->
  extra_frame f' <= extra_frame f /\ link_mtu f' <= link_mtu f /\ BUF_SIZE f' <= BUF_SIZE f /\ TUN_MTU_SIZE f <= TUN_MTU_SIZE f'.
Proof using Hlib.
  unfold tls_session_update_crypto_params. intros H Hf Hmtu. destruct (negb _); [ret_inv; lia|].
  set (co1 := if _ && _ then _ else _) in *. assert (Hco : co_mtu co1 = co_mtu co) by (unfold co1; by destruct (_ && _)). clearbody co1.
  ret_inv. apply init_key_type_sized in H0. rewrite Hco in *.
  match goal with H : frame_finalize _ _ _ _ _ = _ |- _ => apply finalize_of_options in H as [Hfo He] end.
  match goal with H : frame_init_mssfix _ _ = _ |- _ => apply init_mssfix_same in H as [Hl He'] end.
  match goal with H : extras ?g = extras (actual_overhead f ?kt ?r ?lf) |- _ =>
    pose proof (actual_overhead_extra f kt r lf H0 Hf) as Hx; pose proof (crypto_overhead_le kt r lf H0) as Ho;
    set (a := actual_overhead f kt r lf) in *;
    assert (Ha : extra_buffer a = extra_buffer f /\ extra_tun a = extra_tun f /\ extra_link a = extra_link f) by done; clearbody a end.
  rewrite He in He'. injection He' as E1 E2 E3 E4. destruct Ha as (A1 & A2 & A3). rewrite A1 in E2. rewrite A2 in E3. rewrite A3 in E4.
  injection He as F1 F2 F3 F4.
  revert Hfo Hmtu. unfold frame_of_options, BUF_SIZE, FRAME_HEADROOM_BASE, TUN_MTU_SIZE, TUN_LINK_DELTA.
  destruct (tun_mtu_defined _); intros; lia.
Qed.

End Bounds.

(** C12: the cipher agreed on during the session never needs more room than the
    program reserved for the worst case before the connection: after
    [tls_session_update_crypto_params] the overhead per packet, the link MTU and the
    size of the buffers are at most what they were, and packets of the tunnel device
    as large as before still fit. *)
Theorem negotiation_keeps_buffers cipher_kt_get md_kt_get md5 sha1 m i co f frag m' co' f' frag' ok :
  library_sizes cipher_kt_get md_kt_get ->
  tls_session_update_crypto_params cipher_kt_get md_kt_get md5 sha1 m i co f frag = Ret (m', co', f', frag', ok) ->
  crypto_max_overhead <= extra_frame f < 2 ^ 31 -> frame_of_options (co_mtu co) f ->
  extra_frame f' <= extra_frame f /\ link_mtu f' <= link_mtu f /\ BUF_SIZE f' <= BUF_SIZE f /\ TUN_MTU_SIZE f <= TUN_MTU_SIZE f'.
Proof. intros Hlib. by apply (negotiation_frame _ _ Hlib md5 sha1 m i co f frag m' co' f' frag' ok). Qed.
