(* ===== verification/KeyExchangeSpec.v ===== *)
(** * Correctness of the key exchange

    The PRF is the one of RFC 2246; what [key_method_2_write] sends is what
    [read_km2_message] of the other end reads; and two ends that exchanged their
    messages hold matching keys, or the secrets from which [tls_session_update_crypto_params]
    makes them later. *)
From S2P Require Import CryptoParams.
From S2P Require Import Prelude Integer Buffer PacketId Reliable Mtu Crypto CryptoSpec TlsWrap Text SslCommon Auth.
From S2P Require Import Base64 KeyExchange.

(** ** The PRF *)

(** A digest that is not empty. *)
Definition digest_ok (h : hmac_ctx) : Prop := HmacOk h /\ 0 < hmac_ctx_size h.

(** A(i) and P_hash of RFC 2246, section 5: [n] blocks of it. *)
Fixpoint rfc_A (h : hmac_ctx) (seed : list Z) (i : nat) : list Z :=
  match i with O => seed | S i => hmac_of h (rfc_A h seed i) end.

Definition rfc_block (h : hmac_ctx) (seed : list Z) (i : nat) : list Z := hmac_of h (rfc_A h seed i ++ seed).

Definition rfc_P_hash (h : hmac_ctx) (seed : list Z) (n : nat) : list Z := concat (rfc_block h seed <$> seq 1 n).

Lemma P_hash_loop_spec h seed fuel i out olen :
  digest_ok h -> 0 <= olen <= Z.of_nat fuel * hmac_ctx_size h -> (0 < fuel)%nat ->
  P_hash_loop fuel h seed (rfc_A h seed (S i)) out olen =
    Some (out ++ ztake olen (concat (rfc_block h seed <$> seq (S i) fuel))).
Proof.
  intros [Hh Hpos]. revert i out olen. induction fuel as [|fuel IH]; intros i out olen Ho Hf; [lia|].
  cbn [P_hash_loop seq fmap list_fmap concat]. fold (rfc_block h seed (S i)).
  assert (Hl : zlen (rfc_block h seed (S i)) = hmac_ctx_size h) by apply hm_size.
  destruct (hmac_ctx_size h <? olen) eqn:E; breflect.
  - rewrite (IH (S i)) by lia. rewrite ztake_app_ge by lia. rewrite Hl, <- app_assoc. done.
  - rewrite ztake_app_le by lia. done.
Qed.

Lemma zlen_rfc_blocks h seed i n :
  digest_ok h -> zlen (concat (rfc_block h seed <$> seq i n)) = Z.of_nat n * hmac_ctx_size h.
Proof.
  intros [Hh _]. revert i. induction n as [|n IH]; intros i; [done|]. cbn [seq fmap list_fmap concat].
  rewrite zlen_app, IH. unfold rfc_block. rewrite hm_size. lia.
Qed.

(** [olen] bytes of P_hash. *)
Definition P_hash (h : hmac_ctx) (seed : list Z) (olen : Z) : list Z :=
  ztake olen (rfc_P_hash h seed (S (Z.to_nat olen))).

Lemma tls1_P_hash_spec h seed olen :
  digest_ok h -> 0 <= olen -> tls1_P_hash h seed olen = Ret (P_hash h seed olen) /\ zlen (P_hash h seed olen) = olen.
Proof.
  intros Hd Ho. pose proof Hd as [Hh Hpos]. pose proof (hm_max (h := h)).
  assert (Hb : olen <= Z.of_nat (S (Z.to_nat olen)) * hmac_ctx_size h) by nia. split.
  - unfold tls1_P_hash. bdecide.
    rewrite (P_hash_loop_spec h seed (S (Z.to_nat olen)) 0 []) by (done || lia). done.
  - unfold P_hash, rfc_P_hash. rewrite zlen_ztake, zlen_rfc_blocks by done. lia.
Qed.

(** ** The message of key method 2 *)

(** [f] adds the bytes [bs] when there is room. *)
Definition appends (f : buffer -> outcome (buffer * bool)) (bs : list Z) : Prop :=
  forall pre c post, fits pre c post -> zlen bs <= zlen post ->
    f (conc pre c post) = Ret (conc pre (c ++ bs) (zdrop (zlen bs) post), true).

Lemma appends_write bs : appends (fun buf => buf_write buf bs) bs.
Proof. intros pre c post. apply buf_write_fits. Qed.

Lemma appends_then f g a b : appends f a -> appends g b -> appends (fun buf => and_then (f buf) g) (a ++ b).
Proof.
  intros Hf Hg pre c post HF Hl. rewrite zlen_app in Hl. zlen_facts. unfold and_then.
  rewrite Hf by (done || lia). cbn [mbind outcome_mbind]. rewrite Hg by (try apply fits_write; (done || zlia)).
  rewrite zdrop_zdrop, zlen_app, app_assoc by done. done.
Qed.

Definition km2_string (s : list Z) : list Z := be_bytes 2 (zlen s + 1) ++ s ++ [0].
Definition km2_opt_string (s : option (list Z)) : list Z :=
  match s with Some s => km2_string s | None => be_bytes 2 0 end.

(** A string of at most [n] bytes with the terminating zero, and no other zero. *)
Definition str_ok (n : Z) (s : list Z) : Prop := zlen s + 1 <= n /\ 0 ∉ s.

Lemma zlen_km2_string s : zlen (km2_string s) = zlen s + 3.
Proof. unfold km2_string. rewrite !zlen_app, zlen_be_bytes. change (zlen [0]) with 1. lia. Qed.

Lemma write_string_appends s maxlen n :
  str_ok n s -> maxlen < 0 \/ n <= maxlen -> n <= 2 ^ 16 - 1 -> appends (fun buf => write_string buf s maxlen) (km2_string s).
Proof.
  intros [Hl _] Hm Hn pre c post HF Hr. pose proof (zlen_nonneg s). unfold write_string.
  replace ((zlen s + 1 <? 1) || ((0 <=? maxlen) && (maxlen <? zlen s + 1))) with false
    by (symmetry; destruct (0 <=? maxlen) eqn:E; cbn [andb]; breflect; bdecide; done).
  unfold buf_write_u16. rewrite u16_id by (unfold is_u16; lia).
  pose proof (appends_then _ _ _ _ (appends_write (be_bytes 2 (zlen s + 1))) (appends_write (s ++ [0])) pre c post HF Hr) as H1.
  unfold and_then in H1. destruct (buf_write (conc pre c post) (be_bytes 2 (zlen s + 1))) as [[b [|]]| |]; try done.
  cbn [mbind outcome_mbind negb] in *. by rewrite H1.
Qed.

Lemma write_empty_appends : appends write_empty_string (be_bytes 2 0).
Proof. apply appends_write. Qed.

Lemma c_string_id s : 0 ∉ s -> c_string s = s.
Proof.
  induction s as [|x s IH]; intros H; [done|]. cbn [c_string]. apply not_elem_of_cons in H as [Hx Hs].
  bdecide. by rewrite IH.
Qed.

Lemma terminate_km2 s : 0 ∉ s -> terminate (s ++ [0]) = s.
Proof. intros H. unfold terminate. rewrite removelast_last. by apply c_string_id. Qed.

Lemma read_string_alloc_km2 pre s c post n :
  str_ok n s -> n <= 2 ^ 16 - 1 ->
  read_string_alloc (conc pre (km2_string s ++ c) post) = Ret (conc (pre ++ km2_string s) c post, Some s).
Proof.
  intros [Hl H0] Hn. pose proof (zlen_nonneg s). unfold read_string_alloc, km2_string, buf_read_u16.
  rewrite <- !app_assoc. rewrite buf_read_front by (by rewrite zlen_be_bytes). cbn [mbind outcome_mbind].
  rewrite be_value_bytes2 by (unfold is_u16; lia). bdecide.
  rewrite (app_assoc s). rewrite buf_read_front by zlia. cbn [mbind outcome_mbind option_map].
  rewrite terminate_km2 by done. by rewrite <- app_assoc.
Qed.

Lemma read_string_km2 pre s c post n :
  str_ok n s -> n <= 2 ^ 16 - 1 ->
  read_string (conc pre (km2_string s ++ c) post) n = Ret (conc (pre ++ km2_string s) c post, Some s).
Proof.
  intros [Hl H0] Hn. pose proof (read_string_alloc_km2 pre s c post n (conj Hl H0) Hn) as H.
  pose proof (zlen_nonneg s). unfold read_string_alloc, read_string, km2_string, buf_read_u16 in *. rewrite <- !app_assoc in *.
  rewrite buf_read_front in * by (by rewrite zlen_be_bytes). cbn [mbind outcome_mbind] in *.
  rewrite be_value_bytes2 in * by (unfold is_u16; lia). revert H. bdecide. done.
Qed.

Lemma read_string_empty pre c post n :
  read_string (conc pre (be_bytes 2 0 ++ c) post) n = Ret (conc (pre ++ be_bytes 2 0) c post, None).
Proof.
  unfold read_string, buf_read_u16. by rewrite buf_read_front.
Qed.

Lemma read_string_alloc_empty pre c post :
  read_string_alloc (conc pre (be_bytes 2 0 ++ c) post) = Ret (conc (pre ++ be_bytes 2 0) c post, None).
Proof. unfold read_string_alloc, buf_read_u16. by rewrite buf_read_front. Qed.

(** Optional strings. *)
Definition opt_str_ok (n : Z) (s : option (list Z)) : Prop := match s with Some s => str_ok n s | None => True end.

Lemma read_opt_string pre s c post n :
  opt_str_ok n s -> n <= 2 ^ 16 - 1 ->
  read_string (conc pre (km2_opt_string s ++ c) post) n = Ret (conc (pre ++ km2_opt_string s) c post, s).
Proof. destruct s as [s|]; cbn [km2_opt_string opt_str_ok]; intros; [by apply read_string_km2|apply read_string_empty]. Qed.

Lemma read_opt_string_alloc pre s c post n :
  opt_str_ok n s -> n <= 2 ^ 16 - 1 ->
  read_string_alloc (conc pre (km2_opt_string s ++ c) post) = Ret (conc (pre ++ km2_opt_string s) c post, s).
Proof.
  destruct s as [s|]; cbn [km2_opt_string opt_str_ok]; intros; [by eapply read_string_alloc_km2|apply read_string_alloc_empty].
Qed.

(** What an end sends: its random bytes, its options, the user name and the password
    if it has them, and what it says of itself. *)
Record km2_fields : Type := mkfields {
  f_server : bool;
  f_src : key_source;
  f_options : list Z;
  f_user_pass : option (list Z * list Z);
  f_peer_info : option (list Z)
}.

Definition INFO_LEN : Z := 2 ^ 16 - 1.

(** A server sends no pre-master secret: it stays zero. *)
Definition src_ok (f : km2_fields) : Prop :=
  zlen (pre_master (f_src f)) = 48 /\ zlen (random1 (f_src f)) = 32 /\ zlen (random2 (f_src f)) = 32 /\
  (f_server f = true -> pre_master (f_src f) = replicate 48 0).

Definition km2_random (f : km2_fields) : list Z :=
  (if f_server f then [] else pre_master (f_src f)) ++ random1 (f_src f) ++ random2 (f_src f).

Definition km2_bytes (f : km2_fields) : list Z :=
  be_bytes 4 0 ++ [2] ++ km2_random f ++ km2_string (f_options f) ++
  km2_opt_string (fst <$> f_user_pass f) ++ km2_opt_string (snd <$> f_user_pass f) ++ km2_opt_string (f_peer_info f).

Definition fields_ok (f : km2_fields) : Prop :=
  src_ok f /\ str_ok TLS_OPTIONS_LEN (f_options f) /\
  opt_str_ok USER_PASS_LEN (fst <$> f_user_pass f) /\ opt_str_ok USER_PASS_LEN (snd <$> f_user_pass f) /\
  opt_str_ok INFO_LEN (f_peer_info f).

Lemma buf_read_u8_front pre b c post : buf_read_u8 (conc pre (b :: c) post) = Ret (conc (pre ++ [b]) c post, b).
Proof.
  unfold buf_read_u8. rewrite buf_len_conc, buf_bptr_conc, zlen_cons. zlen_facts. bdecide.
  unfold buf_load1. cbn [data conc]. rewrite (load1_eq _ pre b (c ++ post)) by done. cbn [mbind outcome_mbind].
  rewrite buf_advance_conc, zlen_cons. bdecide. done.
Qed.

Lemma key_source2_read_front src f pre c post :
  src_ok f ->
  key_source2_read src (conc pre (km2_random f ++ c) post) (negb (f_server f)) =
    Ret (key_source2_side src (negb (f_server f)) (f_src f), conc (pre ++ km2_random f) c post, true).
Proof.
  intros (H0 & H1 & H2 & Hz). unfold key_source2_read, km2_random. destruct (f_src f) as [r0 r1 r2]. cbn [pre_master random1 random2] in *.
  destruct (f_server f); cbn [negb].
  - specialize (Hz eq_refl). subst r0. cbn [mbind outcome_mbind app]. rewrite <- !app_assoc.
    rewrite buf_read_front by done. cbn [mbind outcome_mbind]. rewrite buf_read_front by done. cbn [mbind outcome_mbind].
    by rewrite <- !app_assoc.
  - rewrite <- !app_assoc. rewrite buf_read_front by done. cbn [mbind outcome_mbind].
    rewrite buf_read_front by done. cbn [mbind outcome_mbind]. rewrite buf_read_front by done. cbn [mbind outcome_mbind].
    by rewrite <- !app_assoc.
Qed.

(** The other end reads what was sent. *)
Lemma read_km2_bytes src f pre post :
  fields_ok f ->
  let src' := key_source2_side src (negb (f_server f)) (f_src f) in
  read_km2_message src (negb (f_server f)) (conc pre (km2_bytes f) post) =
    Ret (src', conc (pre ++ km2_bytes f) [] post,
         Some (mkkm2 src' (f_options f) (fst <$> f_user_pass f) (snd <$> f_user_pass f) (f_peer_info f))).
Proof.
  intros (Hs & Ho & Hu & Hp & Hi) src'. unfold read_km2_message, km2_bytes.
  rewrite buf_advance_conc. rewrite !zlen_app, zlen_be_bytes. zlen_facts. cbn [Z.of_nat]. bdecide. cbn [negb].
  rewrite (ztake_app_eq 4), (zdrop_app_eq 4) by (by rewrite zlen_be_bytes). cbn [app].
  rewrite buf_read_u8_front. cbn [mbind outcome_mbind].
  change (negb (Z.land 2 KEY_METHOD_MASK =? 2)) with false. cbn iota.
  rewrite key_source2_read_front by done. cbn [mbind outcome_mbind negb].
  rewrite read_string_km2 by (done || (unfold TLS_OPTIONS_LEN; lia)). cbn [mbind outcome_mbind].
  rewrite read_opt_string by (done || (unfold USER_PASS_LEN; lia)). cbn [mbind outcome_mbind].
  rewrite read_opt_string by (done || (unfold USER_PASS_LEN; lia)). cbn [mbind outcome_mbind].
  rewrite <- (app_nil_r (km2_opt_string (f_peer_info f))) at 1.
  rewrite (read_opt_string_alloc _ _ _ _ INFO_LEN) by (done || (unfold INFO_LEN; lia)). cbn [mbind outcome_mbind].
  fold src'. by rewrite <- !app_assoc.
Qed.

(** ** Writing it *)

Definition fields_of (kx : kx_input) (o : tls_options) : km2_fields :=
  mkfields (o_server o)
    (mksrc (if o_server o then replicate 48 0 else kx_pre_master kx) (kx_random1 kx) (kx_random2 kx))
    (o_local_options o) (kx_user_pass kx) (kx_peer_info kx).

Lemma randomize_write_spec src kx o pre c post :
  let f := fields_of kx o in
  fits pre c post -> zlen (km2_random f) <= zlen post ->
  key_source2_randomize_write src (conc pre c post) (o_server o) (kx_pre_master kx) (kx_random1 kx) (kx_random2 kx) =
    Ret (key_source2_side src (negb (o_server o)) (f_src f),
         conc pre (c ++ km2_random f) (zdrop (zlen (km2_random f)) post), true).
Proof.
  intros f HF Hl. unfold key_source2_randomize_write, km2_random, f, fields_of in *. cbn [f_server f_src pre_master random1 random2] in *.
  rewrite !zlen_app in *. zlen_facts. destruct (o_server o); cbn [mbind outcome_mbind negb app] in *; change (zlen (@nil Z)) with 0 in *.
  - rewrite buf_write_fits by (done || lia). cbn [mbind outcome_mbind negb].
    rewrite buf_write_fits by (try apply fits_write; (done || zlia)). cbn [mbind outcome_mbind negb].
    rewrite zdrop_zdrop by done. by rewrite <- app_assoc.
  - rewrite buf_write_fits by (done || lia). cbn [mbind outcome_mbind negb].
    rewrite buf_write_fits by (try apply fits_write; (done || zlia)). cbn [mbind outcome_mbind negb].
    rewrite buf_write_fits by (try repeat apply fits_write; (done || zlia)). cbn [mbind outcome_mbind negb].
    rewrite !zdrop_zdrop by lia. rewrite <- !app_assoc. do 4 f_equal.
Qed.

Lemma write_user_pass_appends up :
  opt_str_ok USER_PASS_LEN (fst <$> up) -> opt_str_ok USER_PASS_LEN (snd <$> up) ->
  appends (write_user_pass up) (km2_opt_string (fst <$> up) ++ km2_opt_string (snd <$> up)).
Proof.
  unfold USER_PASS_LEN. destruct up as [[u p]|]; cbn [write_user_pass fmap option_fmap option_map fst snd opt_str_ok km2_opt_string].
  - intros Hu Hp. apply (appends_then (fun b => write_string b u (-1)) (fun b => write_string b p (-1)));
      (eapply write_string_appends; [eassumption|lia..]).
  - intros _ _. apply (appends_then write_empty_string write_empty_string); apply write_empty_appends.
Qed.

Lemma push_peer_info_appends info : opt_str_ok INFO_LEN info -> appends (push_peer_info info) (km2_opt_string info).
Proof.
  unfold INFO_LEN. destruct info as [s|]; cbn [push_peer_info opt_str_ok km2_opt_string]; intros H.
  - eapply write_string_appends; [eassumption|lia..].
  - apply write_empty_appends.
Qed.

(** The message and the random bytes that are in it; a server goes on to make its keys. *)
Lemma key_method_2_write_spec md5 sha1 kx m i :
  let o := m_opt m in
  let ks := m_key m (prim i) in
  let f := fields_of kx o in
  o_key_method o = 2 -> fields_ok f -> buf_wf (ks_plaintext_write_buf ks) ->
  zlen (km2_bytes f) <= capacity (ks_plaintext_write_buf ks) ->
  exists post,
    let m1 := set_write_buf (set_key_src m i (key_source2_side (ks_key_src ks) (negb (o_server o)) (f_src f)))
                i (conc [] (km2_bytes f) post) in
    key_method_2_write md5 sha1 kx m i =
      if server_generates_now o (ks_key_id ks) && ks_authenticated ks
      then '(m, ok) ← tls_session_generate_data_channel_keys md5 sha1 m1 i;
           if ok : bool then Ret (m, true) else Ret (set_key_src m i key_source2_zero, false)
      else Ret (m1, true).
Proof.
  intros o ks f Hm (Hs & Ho & Hu & Hp & Hi) Hwf Hcap. apply wf_conc in Hwf as (pre & c & post & Hb & HF).
  unfold key_method_2_write. fold o ks. rewrite Hm, Hb. cbn [c_assert mbind outcome_mbind Z.eqb Pos.eqb].
  rewrite Hb in Hcap. cbn [capacity conc] in Hcap. rewrite buf_init_conc. unfold fits in HF. zlen_facts. bdecide. cbn [ztake zdrop Z.to_nat take drop].
  cbn [c_assert mbind outcome_mbind]. change (ztake 0 _) with (@nil Z). change (zdrop 0 ?l) with l. set (room := pre ++ c ++ post).
  assert (Hr : zlen (km2_bytes f) <= zlen room) by (unfold room; zlia). assert (HF0 : fits [] [] room) by (unfold fits, room; zlia).
  clearbody room. clear Hb Hcap HF. unfold km2_bytes in Hr. rewrite !zlen_app in Hr. zlen_facts.
  assert (E1 : and_then (buf_write_u32 (conc [] [] room) 0) (fun buf => buf_write_u8 buf (Z.land 2 KEY_METHOD_MASK)) =
    Ret (conc [] (be_bytes 4 0 ++ [2]) (zdrop 5 room), true)).
  { apply (appends_then _ _ _ _ (appends_write (be_bytes 4 0)) (appends_write [2])); [done|]. rewrite zlen_app. lia. }
  rewrite E1. cbn [mbind outcome_mbind negb]. clear E1.
  assert (HF1 : fits [] (be_bytes 4 0 ++ [2]) (zdrop 5 room)).
  { apply (fits_write [] [] room (be_bytes 4 0 ++ [2])); [done|]. rewrite zlen_app. lia. }
  rewrite randomize_write_spec; [|done|rewrite zlen_zdrop; change (zlen (be_bytes 4 0)) with 4 in *; change (zlen [2]) with 1 in *; fold f; lia].
  cbn [mbind outcome_mbind negb]. fold f.
  assert (Hz4 : zlen (be_bytes 4 0) = 4) by done. change (zlen [2]) with 1 in *.
  assert (E2 : appends (fun buf => and_then (write_string buf (o_local_options o) TLS_OPTIONS_LEN) (fun buf =>
      and_then (write_user_pass (kx_user_pass kx) buf) (push_peer_info (kx_peer_info kx))))
    (km2_string (f_options f) ++ (km2_opt_string (fst <$> f_user_pass f) ++ km2_opt_string (snd <$> f_user_pass f))
     ++ km2_opt_string (f_peer_info f))).
  { apply (appends_then (fun buf => write_string buf (o_local_options o) TLS_OPTIONS_LEN)).
    - eapply write_string_appends; [exact Ho|lia|unfold TLS_OPTIONS_LEN; lia].
    - apply appends_then; [by apply write_user_pass_appends|by apply push_peer_info_appends]. }
  rewrite E2; [|apply fits_write; [done|rewrite zlen_zdrop; lia]|rewrite !zlen_zdrop, !zlen_app; lia].
  cbn [mbind outcome_mbind negb]. unfold km2_bytes. rewrite <- !app_assoc. eexists. reflexivity.
Qed.

Create HintDb view discriminated.

Section Spec.
Context (md5 sha1 : list Z -> hmac_ctx).
Hypothesis Hmd5 : forall k, digest_ok (md5 k).
Hypothesis Hsha1 : forall k, digest_ok (sha1 k).

(** The PRF of RFC 2246: the halves of the secret share a byte when its length is
    odd. *)
Definition prf (secret seed : list Z) (olen : Z) : list Z :=
  let n := (zlen secret + 1) / 2 in
  zip_with Z.lxor (P_hash (md5 (ztake n secret)) seed olen)
                  (P_hash (sha1 (zdrop (zlen secret - n) secret)) seed olen).

Lemma zlen_zip_with {A B C} (f : A -> B -> C) l k : zlen l = zlen k -> zlen (zip_with f l k) = zlen l.
Proof using. intros E. unfold zlen in *. rewrite length_zip_with. lia. Qed.

(** The function ends, with the bytes asked for. *)
Lemma tls1_PRF_spec label sec olen :
  0 <= olen ->
  tls1_PRF md5 sha1 label sec olen = Ret (prf sec label olen) /\ zlen (prf sec label olen) = olen.
Proof using Hmd5 Hsha1.
  intros Ho. unfold tls1_PRF, prf.
  replace (Z.land (zlen sec) 1) with (zlen sec mod 2) by (symmetry; apply (land_mask _ 1); lia).
  assert (En : zlen sec / 2 + zlen sec mod 2 = (zlen sec + 1) / 2) by (Z.div_mod_to_equations; lia).
  assert (Ed : zlen sec - (zlen sec + 1) / 2 = zlen sec / 2) by (Z.div_mod_to_equations; lia).
  rewrite En, Ed. rewrite (ztake_all _ (zdrop _ _)) by (rewrite zlen_zdrop; zlen_facts; Z.div_mod_to_equations; lia).
  destruct (tls1_P_hash_spec (md5 (ztake ((zlen sec + 1) / 2) sec)) label olen) as [-> H1]; [done..|].
  destruct (tls1_P_hash_spec (sha1 (zdrop (zlen sec / 2) sec)) label olen) as [-> H2]; [done..|].
  split; [done|]. rewrite zlen_zip_with; lia.
Qed.

(** The identifiers at the end of the seed. *)
Definition sid_bytes (sid : option (list Z)) : list Z := default [] sid.

Lemma openvpn_PRF_spec secret label cs ss csid ssid olen :
  0 <= olen -> zlen label + zlen cs + zlen ss + 16 < BUF_SIZE_MAX ->
  zlen (sid_bytes csid) <= 8 -> zlen (sid_bytes ssid) <= 8 ->
  let seed := label ++ cs ++ ss ++ sid_bytes csid ++ sid_bytes ssid in
  openvpn_PRF md5 sha1 secret label cs ss csid ssid olen = Ret (prf secret seed olen) /\
  zlen (prf secret seed olen) = olen.
Proof using Hmd5 Hsha1.
  intros Ho Hmax Hc Hs seed. unfold openvpn_PRF. zlen_facts.
  rewrite alloc_buf_conc by (unfold SID_SIZE; lia). cbn [mbind outcome_mbind].
  set (room := replicate _ 0). assert (Hroom : zlen room = zlen label + zlen cs + zlen ss + 16).
  { unfold room. rewrite zlen_replicate. unfold SID_SIZE. lia. }
  clearbody room. assert (HF : fits [] [] room) by (unfold fits; zlia).
  assert (Hsid : forall sid c post, fits [] c post -> zlen (sid_bytes sid) <= zlen post ->
    write_sid (conc [] c post) sid = Ret (conc [] (c ++ sid_bytes sid) (zdrop (zlen (sid_bytes sid)) post))).
  { intros [sid|] c post HF' Hl; cbn [write_sid sid_bytes default] in *; [|by rewrite app_nil_r].
    by rewrite buf_write_fits. }
  rewrite buf_write_fits by (done || zlia). cbn [mbind outcome_mbind c_assert].
  rewrite buf_write_fits by (try apply fits_write; (done || zlia)). cbn [mbind outcome_mbind c_assert].
  rewrite buf_write_fits by (try repeat apply fits_write; (done || zlia)). cbn [mbind outcome_mbind c_assert].
  rewrite Hsid by (try repeat apply fits_write; (done || zlia)). cbn [mbind outcome_mbind].
  rewrite Hsid by (try repeat apply fits_write; (done || zlia)). cbn [mbind outcome_mbind].
  rewrite buf_contents_conc. cbn [mbind outcome_mbind app]. rewrite <- !app_assoc. by apply tls1_PRF_spec.
Qed.

(** ** The keys *)

(** The contexts of the ciphers are of the kind the key type says. *)
Definition kt_ok (kt : key_type) : Prop :=
  match kt_cipher kt with
  | Some c => forall k enc, c_mode (ckt_new c k enc) = MODE_AEAD -> 12 <= c_iv_length (ckt_new c k enc) <= 20
  | None => True
  end.

Definition src_wf (s : key_source) : Prop := zlen (pre_master s) = 48 /\ zlen (random1 s) = 32 /\ zlen (random2 s) = 32.
Definition src2_wf (s : key_source2) : Prop := src_wf (src_client s) /\ src_wf (src_server s).

(** The key block of 256 bytes. *)
Definition key_block (src : key_source2) (client_sid server_sid : list Z) : list Z :=
  let master := prf (pre_master (src_client src))
                  (MASTER_LABEL ++ random1 (src_client src) ++ random1 (src_server src)) 48 in
  prf master (EXPANSION_LABEL ++ random2 (src_client src) ++ random2 (src_server src)
              ++ client_sid ++ server_sid) 256.

(** One direction of the data channel, with the implicit vector of AEAD ciphers. *)
Definition data_key (kt : key_type) (k : key) (enc : bool) : key_ctx :=
  let ctx := kt_init_key_ctx kt k enc in
  match k_cipher ctx with
  | Some c => if cipher_kt_mode_aead (Some c)
              then mkkey (k_cipher ctx) (k_hmac ctx) (ztake (c_iv_length c - 4) (key_hmac k)) else ctx
  | None => ctx
  end.

(** The client encrypts with the first key, the server with the second. *)
Definition data_keys (kt : key_type) (k0 k1 : key) (server : bool) : key_ctx_bi :=
  if server then mkbi (data_key kt k1 true) (data_key kt k0 false) true
  else mkbi (data_key kt k0 true) (data_key kt k1 false) true.

Lemma implicit_iv_spec kt k enc :
  kt_ok kt -> key_ctx_update_implicit_iv (kt_init_key_ctx kt k enc) (key_hmac k) = Ret (data_key kt k enc).
Proof using.
  unfold kt_ok, data_key, key_ctx_update_implicit_iv, kt_init_key_ctx. cbn [k_cipher k_hmac].
  destruct (kt_cipher kt) as [c|]; [|done]. intros Hok. destruct (0 <? kt_cipher_length kt); [|done].
  destruct (cipher_kt_mode_aead _) eqn:Em; [|done]. apply bool_decide_eq_true in Em.
  specialize (Hok _ _ Em). unfold OPENVPN_AEAD_MIN_IV_LEN, OPENVPN_MAX_IV_LENGTH, MAX_HMAC_KEY_LENGTH. bdecide. done.
Qed.

Lemma init_data_keys_spec kt k0 k1 server :
  kt_ok kt -> init_data_keys kt k0 k1 server = Ret (data_keys kt k0 k1 server).
Proof using.
  intros Hok. unfold init_data_keys. destruct server; cbn [key_direction_state_init Z.eqb Z.sub Z.opp Z.add Z.pos_sub Pos.eqb];
    rewrite !implicit_iv_spec by done; done.
Qed.

Definition expanded_key (kt : key_type) (block : list Z) (i : Z) : key := fixup_key (key2_key block i) kt.

Definition keys_good (kt : key_type) (block : list Z) : bool :=
  check_key (expanded_key kt block 0) kt && check_key (expanded_key kt block 1) kt.

Lemma generate_key_expansion_spec keys kt src csid ssid server :
  kb_initialized keys = false -> kt_ok kt -> src2_wf src -> zlen csid = 8 -> zlen ssid = 8 ->
  let block := key_block src csid ssid in
  generate_key_expansion md5 sha1 keys kt src csid ssid server =
    Ret (if keys_good kt block
         then (data_keys kt (expanded_key kt block 0) (expanded_key kt block 1) server, true) else (keys, false)).
Proof using Hmd5 Hsha1.
  intros Hi Hk ((Ha & Hb & Hc) & (_ & Hd & He)) Hcs Hss block. unfold generate_key_expansion. rewrite Hi.
  unfold BUF_SIZE_MAX in *.
  destruct (openvpn_PRF_spec (pre_master (src_client src)) MASTER_LABEL
              (random1 (src_client src)) (random1 (src_server src)) None None 48) as [-> _];
    [lia|rewrite Hb, Hd; vm_compute; reflexivity|done..|]. cbn [mbind outcome_mbind].
  destruct (openvpn_PRF_spec
              (prf (pre_master (src_client src)) (MASTER_LABEL ++ random1 (src_client src)
                ++ random1 (src_server src) ++ sid_bytes None ++ sid_bytes None) 48)
              EXPANSION_LABEL
              (random2 (src_client src)) (random2 (src_server src)) (Some csid) (Some ssid) 256) as [-> _];
    [lia|rewrite Hc, He; vm_compute; reflexivity|cbn; lia..|]. cbn [mbind outcome_mbind sid_bytes default app id].
  rewrite app_nil_r. change (prf _ _ 256) with block. unfold keys_good.
  fold (expanded_key kt block 0). fold (expanded_key kt block 1).
  destruct (check_key (expanded_key kt block 0) kt); cbn [negb andb]; [|done].
  destruct (check_key (expanded_key kt block 1) kt); cbn [negb andb]; [|done].
  by rewrite init_data_keys_spec.
Qed.

(** ** Making the keys of a session *)

Lemma m_key_set_key m ij k : m_key (m_set_key m ij k) ij = k.
Proof using. autorewrite with tls. by rewrite decide_True. Qed.

Lemma m_session_id_set_key m ij k i : s_session_id (m_session (m_set_key m ij k) i) = s_session_id (m_session m i).
Proof using. by destruct m, ij as [[] []], i. Qed.

(** The identifiers of the two ends, in the order of the key expansion. *)
Definition client_sid (m : tls_multi) (i : tm_index) : list Z :=
  if o_server (m_opt m) then ks_session_id_remote (m_key m (prim i)) else s_session_id (m_session m i).
Definition server_sid (m : tls_multi) (i : tm_index) : list Z :=
  if negb (o_server (m_opt m)) then ks_session_id_remote (m_key m (prim i)) else s_session_id (m_session m i).

Definition session_block (m : tls_multi) (i : tm_index) : list Z :=
  key_block (ks_key_src (m_key m (prim i))) (client_sid m i) (server_sid m i).

Definition block_keys (kt : key_type) (block : list Z) (server : bool) : key_ctx_bi :=
  data_keys kt (expanded_key kt block 0) (expanded_key kt block 1) server.

(** What the keys of a session are made from, and the keys. *)
Definition secrets_of (m : tls_multi) (i : tm_index) : bool * list Z * list Z * bool * key_source2 * key_ctx_bi :=
  let ks := m_key m (prim i) in
  (o_server (m_opt m), client_sid m i, server_sid m i, ks_authenticated ks, ks_key_src ks, ks_keys ks).

(** An end that has the random bytes of both ends, has let its peer in, and has not made keys. *)
Definition has_secrets (m : tls_multi) (i : tm_index) (server : bool) (src : key_source2) (sc ss : list Z) : Prop :=
  exists keys, kb_initialized keys = false /\ secrets_of m i = (server, sc, ss, true, src, keys).

(** The block gives usable keys under the key type. *)
Definition strong (kt : key_type) (block : list Z) : Prop := kt_ok kt /\ keys_good kt block = true.

Lemma generate_data_channel_keys_spec m i server src sc ss :
  has_secrets m i server src sc ss -> src2_wf src -> zlen sc = 8 -> zlen ss = 8 ->
  let kt := o_key_type (m_opt m) in
  let block := key_block src sc ss in
  strong kt block ->
  exists m', tls_session_generate_data_channel_keys md5 sha1 m i = Ret (m', true) /\
    ks_keys (m_key m' (prim i)) = block_keys kt block server /\
    ks_plaintext_write_buf (m_key m' (prim i)) = ks_plaintext_write_buf (m_key m (prim i)) /\
    forall k, server_generates_now (m_opt m') k = server_generates_now (m_opt m) k.
Proof using Hmd5 Hsha1.
  intros (keys & Hi & [= <- Hsc Hss Ha Hsrc Hk]) Hwf Hlc Hls kt block [Hkt Hg]. unfold client_sid, server_sid in Hsc, Hss.
  unfold tls_session_generate_data_channel_keys. rewrite Hsc, Hss, Ha. cbn [c_assert mbind outcome_mbind].
  change (ks_keys (set_crypto_flags ?ks ?o)) with (ks_keys ks). change (ks_key_src (set_crypto_flags ?ks ?o)) with (ks_key_src ks).
  rewrite Hk, Hsrc, generate_key_expansion_spec by done. fold kt block. rewrite Hg. cbn [mbind outcome_mbind].
  eexists. split; [reflexivity|]. by destruct m, i.
Qed.

(** *** Keys made once the cipher is agreed on *)

(** The options of the cipher, without the key size of the configured one. *)
Definition negotiated (o : tls_options) (co : cipher_options) : cipher_options :=
  if negb (bool_decide (co_ciphername co = o_config_ciphername o)) && negb (co_keysize co =? 0)
  then co <| co_keysize := 0 |> else co.

(** The sizes of the frames under the new key type. *)
Definition new_frames (co : cipher_options) (kt : key_type) (f : frame) (frag : option frame) : outcome (frame * option frame) :=
  let o := co_mtu co in
  f ← frame_finalize (actual_overhead f kt (co_replay co) (long_form kt)) (link_mtu_defined o) (o_link_mtu o) (tun_mtu_defined o) (o_tun_mtu o);
  f ← frame_init_mssfix f (co_mssfix co);
  frag ← match frag with
         | Some g =>
             g ← frame_set_mtu_dynamic (actual_overhead g kt (co_replay co) (long_form kt)) (co_fragment co) SET_MTU_UPPER_BOUND;
             Ret (Some g)
         | None => Ret None
         end;
  Ret (f, frag).

Definition with_key_type (m : tls_multi) (kt : key_type) : tls_multi :=
  m <| m_opt := m_opt m <| o_key_type := kt |> <| o_long_form := long_form kt |> |>.

Lemma update_crypto_params_spec get md m i co f frag kt f' frag' :
  cipher_allowed (m_opt m) co = true ->
  let co' := negotiated (m_opt m) co in
  init_key_type get md (co_ciphername co') (co_authname co') (co_keysize co') true = Ret kt ->
  new_frames co' kt f frag = Ret (f', frag') ->
  tls_session_update_crypto_params get md md5 sha1 m i co f frag =
    ('(m', ok) ← tls_session_generate_data_channel_keys md5 sha1 (with_key_type m kt) i; Ret (m', co', f', frag', ok)).
Proof using.
  intros Ha co' Hkt Hf. unfold tls_session_update_crypto_params. rewrite Ha. cbn [negb]. fold (negotiated (m_opt m) co). fold co'.
  rewrite Hkt. cbn [mbind outcome_mbind]. unfold new_frames in Hf.
  destruct (frame_finalize _ _ _ _ _) as [f1| |]; try done. cbn [mbind outcome_mbind] in *.
  destruct (frame_init_mssfix f1 _) as [f2| |]; try done. cbn [mbind outcome_mbind] in *.
  destruct (match frag with Some _ => _ | None => _ end) as [g| |]; try done. cbn [mbind outcome_mbind] in *.
  by injection Hf as -> ->.
Qed.

(** The end [m] of an exchange has its keys: when it makes them [now], those of the block under its configured
    key type [kt0]; otherwise it has none, and [tls_session_update_crypto_params] makes those of the block
    under the key type of the cipher agreed on, in every later state that still has the secrets. *)
Definition gets_keys (now : bool) (kt0 : key_type) (block : list Z) (server : bool) (m : tls_multi) (i : tm_index) : Prop :=
  if now then ks_keys (m_key m (prim i)) = block_keys kt0 block server
  else
    kb_initialized (ks_keys (m_key m (prim i))) = false /\
    forall m2 get md co f frag kt f' frag',
      secrets_of m2 i = secrets_of m i -> cipher_allowed (m_opt m2) co = true ->
      let co' := negotiated (m_opt m2) co in
      init_key_type get md (co_ciphername co') (co_authname co') (co_keysize co') true = Ret kt ->
      new_frames co' kt f frag = Ret (f', frag') -> strong kt block ->
      exists m', tls_session_update_crypto_params get md md5 sha1 m2 i co f frag = Ret (m', co', f', frag', true) /\
        ks_keys (m_key m' (prim i)) = block_keys kt block server.

Lemma deferred_keys kt0 m i server src sc ss :
  has_secrets m i server src sc ss -> src2_wf src -> zlen sc = 8 -> zlen ss = 8 ->
  gets_keys false kt0 (key_block src sc ss) server m i.
Proof using Hmd5 Hsha1.
  intros Hs Hwf Hlc Hls. split.
  - destruct Hs as (keys & Hi & [= _ _ _ _ _ ->]). exact Hi.
  - intros m2 get md co f frag kt f' frag' E Ha co' Hkt Hf Hst.
    rewrite (update_crypto_params_spec get md m2 i co f frag kt f' frag' Ha Hkt Hf).
    destruct (generate_data_channel_keys_spec (with_key_type m2 kt) i server src sc ss) as (m' & -> & Hk & _); try done.
    + destruct Hs as (keys & Hi & Hs). exists keys. split; [done|]. rewrite <- Hs, <- E. by destruct m2, i.
    + cbn [mbind outcome_mbind]. exists m'. split; [reflexivity|]. exact Hk.
Qed.

(** ** The peer is let in *)

(** The part of [key_method_2_read] between the message and the keys. *)
Definition peer_admitted (kx : kx_input) (m : tls_multi) (i : tm_index) (msg : km2_message) : outcome (option tls_multi) :=
  r ← authenticate_peer kx m i msg;
  match r with
  | None => Ret None
  | Some m =>
      let m := if ks_authenticated (m_key m (prim i)) then verify_final_auth_checks (kx_auth kx) m i else m in
      Ret (Some (check_occ m i (km2_options msg)))
  end.

(** The peer that sent [msg] passes all the checks. *)
Definition admits (kx : kx_input) (m : tls_multi) (i : tm_index) (msg : km2_message) : Prop :=
  exists m', peer_admitted kx (note_peer (set_authenticated m i false) msg) i msg = Ret (Some m') /\
    ks_authenticated (m_key m' (prim i)) = true.

(** What the checks leave alone: the options, the identifier of the session, and all
    of the key but the result. *)
Definition kx_view (m : tls_multi) (i : tm_index) : tls_options * list Z * key_state :=
  (m_opt m, s_session_id (m_session m i), m_key m (prim i) <| ks_authenticated := true |>).

Lemma view_set_authenticated m i j b : kx_view (set_authenticated m i b) j = kx_view m j.
Proof using. by destruct m, i, j. Qed.

Lemma view_deauthenticate m i : kx_view (tls_deauthenticate m) i = kx_view m i.
Proof using. by destruct m, i. Qed.

Lemma view_wipe m i : kx_view (wipe_auth_token m) i = kx_view m i.
Proof using. by destruct m, i. Qed.

Lemma view_common_name m i j cn : kx_view (set_common_name_at m i cn) j = kx_view m j.
Proof using. by destruct m, i, j. Qed.

Lemma view_lock_username m u i : kx_view (tls_lock_username m u).1 i = kx_view m i.
Proof using.
  unfold tls_lock_username. destruct (m_locked_username m); [|by destruct m, i].
  destruct (negb _); [apply view_deauthenticate|done].
Qed.

#[local] Hint Rewrite view_set_authenticated view_deauthenticate view_wipe view_common_name view_lock_username : view.

Lemma view_verify_user_pass env m i u p m' : verify_user_pass env m i u p = Ret m' -> kx_view m' i = kx_view m i.
Proof using.
  unfold verify_user_pass. destruct (if o_auth_token_generate (m_opt m) && m_auth_token_sent m then m_auth_token m else None) as [token|].
  - intros [= <-]. unfold verify_auth_token. pose proof (view_lock_username m (string_mod_remap_name u) i) as Hl.
    destruct (tls_lock_username m _) as [m1 [|]]; cbn [fst] in Hl; [|by autorewrite with view].
    unfold username_as_cn. repeat (case_match; autorewrite with view; try done).
  - destruct (_ && _); [|by intros [= <-]]. pose proof (view_lock_username m (string_mod_remap_name u) i) as Hl.
    destruct (tls_lock_username m _) as [m1 [|]]; cbn [fst] in Hl; [|by intros [= <-]].
    unfold accept_user_pass, generate_auth_token, username_as_cn. destruct (_ && _).
    + destruct (c_assert _); try done. cbn [mbind outcome_mbind]. intros [= <-].
      destruct (o_username_as_cn _); autorewrite with view; rewrite <- Hl; by destruct m1, i.
    + cbn [mbind outcome_mbind]. intros [= <-]. destruct (o_username_as_cn _); by autorewrite with view.
Qed.

Lemma view_final_checks env m i : kx_view (verify_final_auth_checks env m i) i = kx_view m i.
Proof using.
  unfold verify_final_auth_checks, check_ccd_exclusive, check_locked_certs, check_locked_cn.
  repeat (case_match; autorewrite with view; try done).
Qed.

Lemma view_authenticate_peer kx m i msg m' : authenticate_peer kx m i msg = Ret (Some m') -> kx_view m' i = kx_view m i.
Proof using.
  unfold authenticate_peer. destruct (o_user_pass_script (m_opt m)).
  - destruct (km2_username msg), (km2_password msg); try destruct (negb _); intros H; ret_inv; try done;
      by eapply view_verify_user_pass.
  - destruct (negb _); intros H; ret_inv; [done|]. apply view_set_authenticated.
Qed.

Lemma view_checks kx m i msg :
  kx_view (check_occ (if ks_authenticated (m_key m (prim i)) then verify_final_auth_checks (kx_auth kx) m i else m) i
             (km2_options msg)) i = kx_view m i.
Proof using.
  unfold check_occ. destruct (ks_authenticated _); destruct (_ && _); autorewrite with view; rewrite ?view_final_checks; done.
Qed.

Lemma view_admitted kx m i msg m' : peer_admitted kx m i msg = Ret (Some m') -> kx_view m' i = kx_view m i.
Proof using.
  unfold peer_admitted. intros H. ret_inv. destruct x as [m1|]; ret_inv; [|done].
  rewrite view_checks. by eapply view_authenticate_peer.
Qed.

(** ** The exchange *)

Lemma buf_clear_conc pre c post : fits pre c post -> exists post', buf_clear (conc pre c post) = Ret (conc [] [] post').
Proof using.
  unfold fits. intros HF. zlen_facts. unfold buf_clear. cbn [capacity conc]. destruct (0 <? _) eqn:E; breflect.
  - unfold buf_store. cbn [data conc]. rewrite (store_eq _ [] (pre ++ c ++ post) []); [| |done|].
    + cbn [mbind outcome_mbind app]. 
      exists (replicate (Z.to_nat (zlen pre + zlen c + zlen post)) 0). f_equal. unfold set_offset_len. cbn [capacity data conc].
      apply mkbuffer_conc; [|done..|by rewrite app_nil_r]. rewrite zlen_replicate. zlia.
    + cbn [app]. by rewrite app_nil_r.
    + rewrite zlen_replicate, !zlen_app. lia.
  - exists []. destruct pre, c, post; try (rewrite ?zlen_cons in *; zlen_facts; lia). done.
Qed.

(** The options after [note_peer]: at most the negotiation of ciphers is off. *)
Definition same_options (o o' : tls_options) : Prop := o' = o \/ o' = o <| o_ncp_enabled := false |>.

Lemma note_peer_view m msg i :
  same_options (m_opt m) (m_opt (note_peer m msg)) /\
  s_session_id (m_session (note_peer m msg) i) = s_session_id (m_session m i) /\
  m_key (note_peer m msg) (prim i) = m_key m (prim i).
Proof using. unfold note_peer, same_options. destruct (_ && _); (split; [auto|]); by destruct m, i. Qed.

(** The message the other end reads. *)
Definition message_of (src : key_source2) (f : km2_fields) : km2_message :=
  mkkm2 src (f_options f) (fst <$> f_user_pass f) (snd <$> f_user_pass f) (f_peer_info f).

Lemma ks_authenticated_id k : ks_authenticated k = true -> k <| ks_authenticated := true |> = k.
Proof using. destruct k. cbn. by intros ->. Qed.

Lemma key_method_2_read_spec kx m i f pre post :
  let o := m_opt m in
  let ks := m_key m (prim i) in
  let src := key_source2_side (ks_key_src ks) (o_server o) (f_src f) in
  o_key_method o = 2 -> f_server f = negb (o_server o) -> fields_ok f -> fits pre (km2_bytes f) post ->
  ks_plaintext_read_buf ks = conc pre (km2_bytes f) post -> admits kx (set_key_src m i src) i (message_of src f) ->
  exists m1, key_method_2_read md5 sha1 kx m i =
      (if client_generates_now (m_opt m1) (ks_key_id ks)
       then '(m, ok) ← tls_session_generate_data_channel_keys md5 sha1 m1 i;
            if ok : bool then Ret (m, true) else km2_read_error m i (ks_plaintext_read_buf (m_key m1 (prim i)))
       else Ret (m1, true)) /\
    same_options o (m_opt m1) /\ s_session_id (m_session m1 i) = s_session_id (m_session m i) /\
    m_key m1 (prim i) = ks <| ks_key_src := src |> <| ks_authenticated := true |>
                           <| ks_plaintext_read_buf := ks_plaintext_read_buf (m_key m1 (prim i)) |>.
Proof using.
  intros o ks src Hm Hf Hok HF Hb (mA & Hadm & Hau).
  pose proof (view_admitted _ _ _ _ _ Hadm) as Hv. unfold key_method_2_read. fold o ks. rewrite Hm, Hb.
  assert (Hs : o_server o = negb (f_server f)) by (rewrite Hf; by destruct (o_server o)).
  cbn [c_assert mbind outcome_mbind Z.eqb Pos.eqb]. rewrite Hs, read_km2_bytes by done. rewrite <- Hs. fold src (message_of src f).
  cbn [mbind outcome_mbind]. unfold peer_admitted in Hadm.
  destruct (authenticate_peer kx _ i (message_of src f)) as [[mB|]| |]; try done. cbn [mbind outcome_mbind] in *.
  change (km2_options (message_of src f)) with (f_options f) in *. injection Hadm as ->.
  destruct (buf_clear_conc (pre ++ km2_bytes f) [] post) as (post' & ->).
  { unfold fits in *. rewrite zlen_app. change (zlen (@nil Z)) with 0. lia. }
  cbn [mbind outcome_mbind].
  destruct (note_peer_view (set_authenticated (set_key_src m i src) i false) (message_of src f) i) as (Ho & Hsid & Hk).
  pose proof (f_equal (fun v => v.1.1) Hv) as Hv1. pose proof (f_equal (fun v => v.1.2) Hv) as Hv2.
  pose proof (f_equal snd Hv) as Hv3. unfold kx_view in Hv1, Hv2, Hv3. cbn [fst snd] in Hv1, Hv2, Hv3.
  rewrite Hk, (ks_authenticated_id _ Hau) in Hv3.
  eexists (set_read_buf mA i (conc [] [] post')). split; [|split; [|split]].
  - by destruct mA, i.
  - unfold set_read_buf, set_authenticated, set_key_src in *. autorewrite with tls in *. rewrite Hv1. exact Ho.
  - unfold set_read_buf. rewrite m_session_id_set_key, Hv2, Hsid. by destruct m, i.
  - unfold set_read_buf. rewrite m_key_set_key, Hv3. unfold ks. by destruct m, i.
Qed.

(** The plaintext [bytes] has come out of the TLS engine. *)
Definition received (m : tls_multi) (i : tm_index) (bytes : list Z) : tls_multi := set_read_buf m i (conc [] bytes []).

(** One end writes its message, which the other reads. *)
Definition km2_send (kx kx' : kx_input) (m : tls_multi) (i : tm_index) (m' : tls_multi) (j : tm_index)
  : outcome (tls_multi * tls_multi * bool) :=
  '(m, ok) ← key_method_2_write md5 sha1 kx m i;
  if negb ok then Ret (m, m', false)
  else
    bytes ← buf_contents (ks_plaintext_write_buf (m_key m (prim i)));
    '(m', ok) ← key_method_2_read md5 sha1 kx' (received m' j bytes) j;
    Ret (m, m', ok).

(** The client's message, then the server's. *)
Definition km2_exchange (kxc kxs kxs' kxc' : kx_input) (mc : tls_multi) (i : tm_index) (ms : tls_multi) (j : tm_index)
  : outcome (tls_multi * tls_multi * bool) :=
  '(mc, ms, ok) ← km2_send kxc kxs mc i ms j;
  if negb ok then Ret (mc, ms, false)
  else '(ms, mc, ok) ← km2_send kxs' kxc' ms j mc i; Ret (mc, ms, ok).

(** An end is ready for the exchange with the key type [kt]. *)
Definition ready (kt : key_type) (f : km2_fields) (m : tls_multi) (i : tm_index) : Prop :=
  let ks := m_key m (prim i) in
  o_key_method (m_opt m) = 2 /\ o_key_type (m_opt m) = kt /\ fields_ok f /\ zlen (km2_bytes f) < BUF_SIZE_MAX /\
  buf_wf (ks_plaintext_write_buf ks) /\ zlen (km2_bytes f) <= capacity (ks_plaintext_write_buf ks) /\
  kb_initialized (ks_keys ks) = false /\ zlen (s_session_id (m_session m i)) = 8.

Lemma same_options_facts o o' :
  same_options o o' ->
  o_key_method o' = o_key_method o /\ o_key_type o' = o_key_type o /\ o_server o' = o_server o /\ o_pull o' = o_pull o /\
  o_local_options o' = o_local_options o.
Proof using. intros [->| ->]; cbn; split_and!; auto. Qed.

Lemma side_src c s' s b : key_source2_side (key_source2_side s' b c) (negb b) s = if b then mksrc2 c s else mksrc2 s c.
Proof using. by destruct b. Qed.

Lemma write_buf_set m i b : ks_plaintext_write_buf (m_key (set_write_buf m i b) (prim i)) = b.
Proof using. by destruct m, i. Qed.

(** The client's message: the server has it, and has let the client in. *)
Lemma km2_send_client kxc kxs mc i ms j kt :
  let fc := fields_of kxc (m_opt mc) in
  let kc := m_key mc (prim i) in
  let ks := m_key ms (prim j) in
  ready kt fc mc i -> o_server (m_opt mc) = false -> o_server (m_opt ms) = true -> o_key_method (m_opt ms) = 2 ->
  (forall src, admits kxs (set_key_src (received ms j (km2_bytes fc)) j src) j (message_of src fc)) ->
  exists b ms1, km2_send kxc kxs mc i ms j =
      Ret (set_write_buf (set_key_src mc i (key_source2_side (ks_key_src kc) true (f_src fc))) i b, ms1, true) /\
    same_options (m_opt ms) (m_opt ms1) /\ s_session_id (m_session ms1 j) = s_session_id (m_session ms j) /\
    exists rb, m_key ms1 (prim j) = ks <| ks_key_src := key_source2_side (ks_key_src ks) true (f_src fc) |>
                                      <| ks_authenticated := true |> <| ks_plaintext_read_buf := rb |>.
Proof using.
  intros fc kc ks (Hm & Ht & Hfc & Hlc & Hw & Hcap & Hi & Hsid) Hsrv Hsrv' Hm' Hadm. unfold km2_send.
  destruct (key_method_2_write_spec md5 sha1 kxc mc i Hm Hfc Hw Hcap) as (post & ->).
  fold fc kc. unfold server_generates_now at 1. rewrite Hsrv. cbn [andb mbind outcome_mbind negb].
  rewrite write_buf_set, buf_contents_conc.
  cbn [mbind outcome_mbind].
  assert (Eo : m_opt (received ms j (km2_bytes fc)) = m_opt ms) by apply m_opt_set_key.
  assert (Ek : m_key (received ms j (km2_bytes fc)) (prim j) = ks <| ks_plaintext_read_buf := conc [] (km2_bytes fc) [] |>)
    by apply m_key_set_key.
  destruct (key_method_2_read_spec kxs (received ms j (km2_bytes fc)) j fc [] []) as (ms1 & -> & Ho & Hs & Hk).
  { by rewrite Eo. } { rewrite Eo, Hsrv'. unfold fc, fields_of. cbn. by rewrite Hsrv. } { done. }
  { unfold fits. change (zlen (@nil Z)) with 0. lia. } { by rewrite Ek. } { apply Hadm. }
  rewrite Eo in Ho. destruct (same_options_facts _ _ Ho) as (_ & _ & E3 & _). unfold client_generates_now. rewrite E3, Hsrv'.
  cbn [negb andb mbind outcome_mbind]. eexists _, ms1. split; [reflexivity|]. split; [done|].
  split; [rewrite Hs; apply m_session_id_set_key|]. exists (ks_plaintext_read_buf (m_key ms1 (prim j))).
  rewrite Hk at 1. rewrite Ek, Eo, Hsrv'. done.
Qed.

(** The server's answer, once both have each other's random bytes. *)
Lemma km2_send_server kxs kxc ms j mc i ktc kts fc sc :
  let fs := fields_of kxs (m_opt ms) in
  let kc := m_key mc (prim i) in
  let ks := m_key ms (prim j) in
  let ss := s_session_id (m_session ms j) in
  let block := key_block (mksrc2 (f_src fc) (f_src fs)) sc ss in
  ready kts fs ms j -> src_wf (f_src fc) -> zlen sc = 8 ->
  o_server (m_opt ms) = true -> ks_authenticated ks = true ->
  src_client (ks_key_src ks) = f_src fc -> ks_session_id_remote ks = sc ->
  o_server (m_opt mc) = false -> o_key_method (m_opt mc) = 2 -> o_key_type (m_opt mc) = ktc ->
  kb_initialized (ks_keys kc) = false ->
  src_client (ks_key_src kc) = f_src fc -> ks_session_id_remote kc = ss -> s_session_id (m_session mc i) = sc ->
  (forall src, admits kxc (set_key_src (received mc i (km2_bytes fs)) i src) i (message_of src fs)) ->
  strong ktc block -> strong kts block ->
  exists ms' mc', km2_send kxs kxc ms j mc i = Ret (ms', mc', true) /\
    gets_keys (client_generates_now (m_opt mc) (ks_key_id kc)) ktc block false mc' i /\
    gets_keys (server_generates_now (m_opt ms') (ks_key_id ks)) kts block true ms' j.
Proof using Hmd5 Hsha1.
  intros fs kc ks ss block (Hm & Ht & Hfs & Hls & Hw & Hcap & Hi & Hsid) Hwc Hlc Hsrv Hau Hsc Hrem
    Hsrv' Hm' Ht' Hi' Hsc' Hrem' Hsid' Hadm Hgc Hgs. unfold km2_send.
  assert (Hws : src2_wf (mksrc2 (f_src fc) (f_src fs))) by (split; [done|]; destruct Hfs as ((H0 & H1 & H2 & _) & _); by split_and!).
  destruct (key_method_2_write_spec md5 sha1 kxs ms j Hm Hfs Hw Hcap) as (post & ->).
  fold fs ks. rewrite Hau, andb_true_r, Hsrv. cbn [negb]. set (m1 := set_write_buf _ j _).
  assert (Ek : m_key m1 (prim j) = ks <| ks_key_src := mksrc2 (f_src fc) (f_src fs) |>
                 <| ks_plaintext_write_buf := conc [] (km2_bytes fs) post |>).
  { unfold m1, set_write_buf, set_key_src. rewrite !m_key_set_key. by rewrite <- Hsc. }
  assert (Eo : m_opt m1 = m_opt ms) by (unfold m1, set_write_buf, set_key_src; by autorewrite with tls).
  assert (Es : s_session_id (m_session m1 j) = ss) by (unfold m1, set_write_buf, set_key_src; by rewrite !m_session_id_set_key).
  assert (Hsec : has_secrets m1 j true (mksrc2 (f_src fc) (f_src fs)) sc ss).
  { exists (ks_keys ks). split; [done|]. unfold secrets_of, client_sid, server_sid. rewrite Ek, Eo, Es, Hsrv. repeat (f_equal; try done). }
  assert (Hserver : exists ms', (if server_generates_now (m_opt ms) (ks_key_id ks)
      then '(m, ok) ← tls_session_generate_data_channel_keys md5 sha1 m1 j;
           if ok : bool then Ret (m, true) else Ret (set_key_src m j key_source2_zero, false)
      else Ret (m1, true)) = Ret (ms', true) /\
      gets_keys (server_generates_now (m_opt ms') (ks_key_id ks)) kts block true ms' j /\
      ks_plaintext_write_buf (m_key ms' (prim j)) = conc [] (km2_bytes fs) post).
  { destruct (server_generates_now (m_opt ms) (ks_key_id ks)) eqn:Eg.
    - destruct (generate_data_channel_keys_spec m1 j _ _ _ _ Hsec Hws Hlc Hsid) as (ms' & -> & Hk' & Hwb & Hnow); [by rewrite Eo, Ht|].
      cbn [mbind outcome_mbind]. exists ms'. split; [done|]. rewrite Hnow, Eo, Eg, Hwb, Ek. split; [|done].
      unfold gets_keys. rewrite Hk', Eo, Ht. done.
    - exists m1. split; [done|]. rewrite Eo, Eg, Ek. split; [|done]. by apply deferred_keys. }
  destruct Hserver as (ms' & -> & Hks & Hwb). cbn [mbind outcome_mbind negb]. rewrite Hwb, buf_contents_conc. cbn [mbind outcome_mbind].
  assert (Ec : m_key (received mc i (km2_bytes fs)) (prim i) = kc <| ks_plaintext_read_buf := conc [] (km2_bytes fs) [] |>)
    by apply m_key_set_key.
  assert (Eoc : m_opt (received mc i (km2_bytes fs)) = m_opt mc) by apply m_opt_set_key.
  destruct (key_method_2_read_spec kxc (received mc i (km2_bytes fs)) i fs [] []) as (mc1 & -> & Ho & Hs & Hk).
  { by rewrite Eoc. } { rewrite Eoc, Hsrv'. unfold fs, fields_of. cbn. by rewrite Hsrv. } { done. }
  { unfold fits. change (zlen (@nil Z)) with 0. lia. } { by rewrite Ec. } { apply Hadm. }
  rewrite Eoc in Ho. destruct (same_options_facts _ _ Ho) as (_ & E2 & E3 & E4 & _).
  rewrite Eoc, Hsrv' in Hk. change (received mc i (km2_bytes fs)) with (set_read_buf mc i (conc [] (km2_bytes fs) [])) in Hs.
  rewrite Ec in Hk |- *. change (ks_key_id (kc <| ks_plaintext_read_buf := _ |>)) with (ks_key_id kc).
  replace (client_generates_now (m_opt mc1) (ks_key_id kc)) with (client_generates_now (m_opt mc) (ks_key_id kc))
    by (unfold client_generates_now; by rewrite E3, E4).
  assert (Ek1 : exists rb, m_key mc1 (prim i) = kc <| ks_key_src := mksrc2 (f_src fc) (f_src fs) |>
                 <| ks_authenticated := true |> <| ks_plaintext_read_buf := rb |>).
  { eexists. rewrite Hk at 1. by rewrite <- Hsc'. }
  destruct Ek1 as (rb & Ek1). clear Hk.
  assert (Es1 : s_session_id (m_session mc1 i) = sc).
  { rewrite Hs. unfold set_read_buf. by rewrite m_session_id_set_key. }
  assert (Hsec1 : has_secrets mc1 i false (mksrc2 (f_src fc) (f_src fs)) sc ss).
  { exists (ks_keys kc). split; [done|]. unfold secrets_of, client_sid, server_sid. rewrite Ek1, Es1, E3, Hsrv'. repeat (f_equal; try done). }
  destruct (client_generates_now (m_opt mc) (ks_key_id kc)).
  - destruct (generate_data_channel_keys_spec mc1 i _ _ _ _ Hsec1 Hws Hlc Hsid) as (mc' & -> & Hkc & _); [by rewrite E2, Ht'|].
    cbn [mbind outcome_mbind]. exists ms', mc'. split; [done|]. split; [|done]. unfold gets_keys. by rewrite Hkc, E2, Ht'.
  - cbn [mbind outcome_mbind]. exists ms', mc1. split; [done|]. split; [|done]. by apply deferred_keys.
Qed.

(** C8: An exchange of key method 2 in which both ends let the other in ends with
    the same secrets at both ends, and the keys made from them match.  An end that makes its keys in the
    exchange has the two keys of the common block under its configured key type; an end that leaves
    them until the cipher is agreed on (the first key of a client that pulls its options, or of a server that
    negotiates ciphers) has none yet, and the later [tls_session_update_crypto_params] with a
    cipher that is allowed gives it the two keys of the same block under the key type of that cipher.  Under one
    key type, each end encrypts with the key the other decrypts with, implicit vectors included.
    Assumed: the derived keys are not refused as weak, AEAD vectors have 12 to 20 bytes, and the
    messages fit the buffers. *)
Theorem data_keys_agree kxc kxs kxs' kxc' mc i ms j ktc kts :
  let fc := fields_of kxc (m_opt mc) in
  let fs := fields_of kxs' (m_opt ms) in
  let kc := m_key mc (prim i) in
  let ks := m_key ms (prim j) in
  let sc := s_session_id (m_session mc i) in
  let ss := s_session_id (m_session ms j) in
  ready ktc fc mc i -> ready kts fs ms j ->
  o_server (m_opt mc) = false -> o_server (m_opt ms) = true ->
  ks_session_id_remote kc = ss -> ks_session_id_remote ks = sc ->
  (forall src, admits kxs (set_key_src (received ms j (km2_bytes fc)) j src) j (message_of src fc)) ->
  (forall src src' b, admits kxc' (set_key_src (received (set_write_buf (set_key_src mc i src) i b) i (km2_bytes fs)) i src')
                        i (message_of src' fs)) ->
  let block := key_block (mksrc2 (f_src fc) (f_src fs)) sc ss in
  strong ktc block -> strong kts block ->
  (exists mc' ms', km2_exchange kxc kxs kxs' kxc' mc i ms j = Ret (mc', ms', true) /\
     gets_keys (client_generates_now (m_opt mc) (ks_key_id kc)) ktc block false mc' i /\
     gets_keys (server_generates_now (m_opt ms') (ks_key_id ks)) kts block true ms' j) /\
  forall kt, exists k0 k1,
    block_keys kt block false = mkbi (data_key kt k0 true) (data_key kt k1 false) true /\
    block_keys kt block true = mkbi (data_key kt k1 true) (data_key kt k0 false) true.
Proof using Hmd5 Hsha1.
  intros fc fs kc ks sc ss Hrc Hrs Hsrv Hsrv' Hrem Hrem' Hadm Hadm' block Hgc Hgs.
  split; [|intros kt; by exists (expanded_key kt block 0), (expanded_key kt block 1)]. unfold km2_exchange.
  pose proof Hrc as (Hm & Ht & Hfc & _ & _ & _ & Hi & Hl). pose proof Hrs as (Hm' & Ht' & Hfs & Hls & Hw' & Hcap' & Hi' & Hl').
  destruct (km2_send_client kxc kxs mc i ms j ktc Hrc Hsrv Hsrv' Hm' Hadm) as (b & ms1 & -> & Ho & Hs & rb & Hk).
  cbn [mbind outcome_mbind negb]. destruct (same_options_facts _ _ Ho) as (E1 & E2 & E3 & _ & E5). fold fc kc ks in Hk |- *.
  set (mc1 := set_write_buf _ i b).
  assert (Ec : m_key mc1 (prim i) = kc <| ks_key_src := key_source2_side (ks_key_src kc) true (f_src fc) |>
                                      <| ks_plaintext_write_buf := b |>).
  { unfold mc1, set_write_buf, set_key_src. by rewrite !m_key_set_key. }
  assert (Eo : m_opt mc1 = m_opt mc) by (unfold mc1, set_write_buf, set_key_src; by autorewrite with tls).
  assert (Es : s_session_id (m_session mc1 i) = sc) by (unfold mc1, set_write_buf, set_key_src; by rewrite !m_session_id_set_key).
  assert (Ef : fields_of kxs' (m_opt ms1) = fs) by (unfold fs, fields_of; by rewrite E3, E5).
  assert (Hwf : src_wf (f_src fc)) by (destruct Hfc as ((H0 & H1 & H2 & _) & _); by split_and!).
  destruct (km2_send_server kxs' kxc' ms1 j mc1 i ktc kts fc sc) as (ms' & mc' & -> & Hkc & Hks);
    rewrite ?Ef, ?Eo, ?Ec, ?Hs, ?E3; try done.
  - unfold ready. rewrite E1, E2, Hs, Hk. by split_and!.
  - by rewrite Hk.
  - by rewrite Hk.
  - by rewrite Hk.
  - intros src. apply Hadm'.
  - rewrite Ef, Hs, Eo, Ec, Hk in *. cbn [mbind outcome_mbind]. by exists mc', ms'.
Qed.

End Spec.

(** C10: The pseudo-random function of the key exchange, which writes its blocks into
    the output as it goes and xors the halves over each other, is the one of RFC 2246, section 5, for secrets
    and outputs of every length: the secret split into halves (sharing the middle byte when its length is
    odd), P_MD5 of the first xored with P_SHA1 of the second; and it always ends. *)
Theorem tls1_PRF_is_rfc2246 md5 sha1 label sec olen :
  (forall k, digest_ok (md5 k)) -> (forall k, digest_ok (sha1 k)) -> 0 <= olen ->
  tls1_PRF md5 sha1 label sec olen = Ret (prf md5 sha1 sec label olen) /\ zlen (prf md5 sha1 sec label olen) = olen.
Proof. intros H5 H1 Ho. by apply tls1_PRF_spec. Qed.

(** ** What the exchange leaves alone *)

(** A key but for what the exchange sets. *)
Definition key_rest (k : key_state) : key_state :=
  k <| ks_key_src := key_source2_zero |> <| ks_keys := key_ctx_bi_none |>
    <| ks_opt := mkopt (opt_packet_id (ks_opt k)) (pid_persist (ks_opt k)) false |> <| ks_ignore_packet_id := false |>
    <| ks_plaintext_read_buf := buffer_zero |> <| ks_plaintext_write_buf := buffer_zero |> <| ks_authenticated := false |>.

Definition session_rest (s : tls_session) : tls_session :=
  s <| s_key0 := key_state_zero |> <| s_key1 := key_state_zero |> <| s_common_name := None |>.

Definition options_rest (o : tls_options) : tls_options :=
  o <| o_ncp_enabled := false |> <| o_renegotiate_bytes := 0 |> <| o_key_type := mkkt 0 0 None None |> <| o_long_form := false |>.

(** The other keys lose their authentication at most. *)
Definition key_kept (k k' : key_state) : Prop := k' = k \/ k' = k <| ks_authenticated := false |>.

Record kx_frame (i : tm_index) (m m' : tls_multi) : Prop := {
  kf_options : options_rest (m_opt m') = options_rest (m_opt m);
  kf_session j : session_rest (m_session m' j) = session_rest (m_session m j);
  kf_key : key_rest (m_key m' (prim i)) = key_rest (m_key m (prim i));
  kf_others ij : ij <> prim i -> key_kept (m_key m ij) (m_key m' ij)
}.

Lemma key_kept_trans a b c : key_kept a b -> key_kept b c -> key_kept a c.
Proof. unfold key_kept. intros [->| ->] [->| ->]; auto. Qed.

#[export] Instance kx_frame_refl i : Reflexive (kx_frame i).
Proof. intros m. split; try done. intros ij _. by left. Qed.

#[export] Instance kx_frame_trans i : Transitive (kx_frame i).
Proof.
  intros m1 m2 m3 [H1 H2 H3 H4] [K1 K2 K3 K4].
  split; [congruence|intros j; by rewrite K2|congruence|]. intros ij Hij. eapply key_kept_trans; eauto.
Qed.

(** Changes of the primary key only. *)
Lemma frame_set_key m i k : key_rest k = key_rest (m_key m (prim i)) -> kx_frame i m (m_set_key m (prim i) k).
Proof.
  intros Hk. split.
  - by autorewrite with tls.
  - intros j. by destruct m, i, j.
  - by rewrite m_key_set_key.
  - intros ij Hij. left. autorewrite with tls. by rewrite decide_False.
Qed.

Lemma frame_set_authenticated m i b : kx_frame i m (set_authenticated m i b).
Proof. by apply frame_set_key. Qed.
Lemma frame_set_key_src m i src : kx_frame i m (set_key_src m i src).
Proof. by apply frame_set_key. Qed.
Lemma frame_set_read_buf m i b : kx_frame i m (set_read_buf m i b).
Proof. by apply frame_set_key. Qed.
Lemma frame_set_write_buf m i b : kx_frame i m (set_write_buf m i b).
Proof. by apply frame_set_key. Qed.

Lemma frame_same m i m' :
  options_rest (m_opt m') = options_rest (m_opt m) ->
  (forall j, m_session m' j = m_session m j) -> kx_frame i m m'.
Proof.
  intros Ho Hs. split; [done|intros j; by rewrite Hs| |]; unfold m_key; [by rewrite Hs|].
  intros ij _. left. by rewrite Hs.
Qed.

Lemma frame_wipe m i : kx_frame i m (wipe_auth_token m).
Proof. apply frame_same; [done|intros j; by destruct j]. Qed.

Lemma frame_deauthenticate m i : kx_frame i m (tls_deauthenticate m).
Proof.
  split; [done|intros j; by destruct m, j|by destruct m, i|]. intros [j []] _; right; by destruct m, j.
Qed.

Lemma frame_common_name m i cn : kx_frame i m (set_common_name_at m i cn).
Proof.
  split; [by destruct m, i|intros j; by destruct m, i, j|by destruct m, i|].
  intros [j []] _; left; by destruct m, i, j.
Qed.

Lemma frame_lock_username m i u : kx_frame i m (tls_lock_username m u).1.
Proof.
  unfold tls_lock_username. destruct (m_locked_username m).
  - destruct (negb _); [apply frame_deauthenticate|reflexivity].
  - apply frame_same; [done|]. intros j; by destruct j.
Qed.

Lemma frame_note_peer m i msg : kx_frame i m (note_peer m msg).
Proof. unfold note_peer. destruct (_ && _); (apply frame_same; [done|intros j; by destruct j]). Qed.

#[export] Hint Resolve frame_set_authenticated frame_set_key_src frame_set_read_buf frame_set_write_buf frame_wipe
  frame_deauthenticate frame_common_name frame_note_peer : vpn.

Lemma frame_username_as_cn m i u : kx_frame i m (username_as_cn m i u).
Proof. unfold username_as_cn. destruct (o_username_as_cn _); [apply frame_common_name|reflexivity]. Qed.

Lemma frame_generate_token env m i m' : generate_auth_token env m = Ret m' -> kx_frame i m m'.
Proof.
  unfold generate_auth_token. destruct (_ && _); intros H; ret_inv; [|reflexivity].
  apply frame_same; [done|]. intros j; by destruct j.
Qed.

Lemma frame_verify_user_pass env m i u p m' : verify_user_pass env m i u p = Ret m' -> kx_frame i m m'.
Proof.
  unfold verify_user_pass.
  destruct (if o_auth_token_generate (m_opt m) && m_auth_token_sent m then m_auth_token m else None) as [token|].
  - intros [= <-]. unfold verify_auth_token. pose proof (frame_lock_username m i (string_mod_remap_name u)) as Hl.
    destruct (tls_lock_username m _) as [m1 [|]]; cbn [fst] in Hl; [|etrans; [exact Hl|auto with vpn]].
    etrans; [exact Hl|]. destruct (_ && _); [etrans; [|eauto with vpn]; auto with vpn|].
    destruct (negb _); [etrans; [|eauto with vpn]; auto with vpn|].
    etrans; [|apply frame_username_as_cn]. auto with vpn.
  - destruct (_ && _); [|by intros [= <-]]. pose proof (frame_lock_username m i (string_mod_remap_name u)) as Hl.
    destruct (tls_lock_username m _) as [m1 [|]]; cbn [fst] in Hl; intros H; ret_inv; [|done].
    etrans; [exact Hl|]. unfold accept_user_pass in H. ret_inv.
    etrans; [apply (frame_set_authenticated m1 i true)|]. etrans; [by eapply frame_generate_token|]. apply frame_username_as_cn.
Qed.

Lemma frame_final_checks env m i : kx_frame i m (verify_final_auth_checks env m i).
Proof.
  set (m0 := match s_common_name (m_session m i) with Some _ => m | None => set_common_name_at m i (Some []) end).
  assert (H0 : kx_frame i m m0) by (unfold m0; destruct (s_common_name _); [reflexivity|auto with vpn]).
  assert (H1 : forall m, kx_frame i m (check_locked_cn m i)).
  { intros n. unfold check_locked_cn. repeat case_match; try reflexivity. etrans; [|apply frame_deauthenticate]. auto with vpn. }
  assert (H2 : forall m, kx_frame i m (check_locked_certs m i)).
  { intros n. unfold check_locked_certs. repeat case_match; try reflexivity. auto with vpn. }
  assert (H3 : forall m, kx_frame i m (check_ccd_exclusive env m i)).
  { intros n. unfold check_ccd_exclusive. repeat case_match; try reflexivity; (etrans; [|apply frame_wipe]; auto with vpn). }
  assert (E : verify_final_auth_checks env m i = check_ccd_exclusive env (check_locked_certs (check_locked_cn m0 i) i) i).
  { unfold verify_final_auth_checks, m0. by destruct (s_common_name (m_session m i)). }
  rewrite E. etrans; [exact H0|]. etrans; [apply H1|]. etrans; [apply H2|]. apply H3.
Qed.

Lemma frame_authenticate_peer kx m i msg m' : authenticate_peer kx m i msg = Ret (Some m') -> kx_frame i m m'.
Proof.
  unfold authenticate_peer. destruct (o_user_pass_script (m_opt m)).
  - destruct (km2_username msg), (km2_password msg); try destruct (negb _); intros H; ret_inv; try done;
      by eapply frame_verify_user_pass.
  - destruct (negb _); intros H; ret_inv; [done|]. auto with vpn.
Qed.

Lemma frame_generate md5 sha1 m i m' ok : tls_session_generate_data_channel_keys md5 sha1 m i = Ret (m', ok) -> kx_frame i m m'.
Proof.
  unfold tls_session_generate_data_channel_keys. intros H. ret_inv.
  match goal with H : (if ?b then Ret (?m1 <| m_opt := _ |>, _) else _) = _ |- _ =>
    assert (Hm1 : kx_frame i m m1) by (by apply frame_set_key); set (m2 := m1) in *; clearbody m2; destruct b; ret_inv end;
    [|done]. etrans; [exact Hm1|]. apply frame_same; [|intros j; by destruct j].
  by rewrite (kf_options _ _ _ Hm1).
Qed.

(** [m'] is [m] but for the primary key of session [i], of which the buffer [f] reads
    and what [kx_frame] says are the same. *)
Definition kx_step (f : key_state -> buffer) (i : tm_index) (m m' : tls_multi) : Prop :=
  kx_frame i m m' /\ f (m_key m' (prim i)) = f (m_key m (prim i)).

Lemma kx_step_trans f i m1 m2 m3 : kx_step f i m1 m2 -> kx_step f i m2 m3 -> kx_step f i m1 m3.
Proof. intros [H1 H2] [K1 K2]. split; [by etrans|congruence]. Qed.

Lemma step_generate md5 sha1 m i m' ok :
  tls_session_generate_data_channel_keys md5 sha1 m i = Ret (m', ok) ->
  kx_step ks_plaintext_read_buf i m m' /\ kx_step ks_plaintext_write_buf i m m'.
Proof.
  intros H. pose proof (frame_generate _ _ _ _ _ _ H) as HF. revert H.
  unfold tls_session_generate_data_channel_keys. intros H. ret_inv.
  match goal with H : (if ?b then _ else _) = _ |- _ => destruct b end; ret_inv; (split; (split; [done|])); by destruct m, i.
Qed.

(** The steps of both methods. *)
Lemma step_key_method_2_write md5 sha1 kx m i m' ok :
  key_method_2_write md5 sha1 kx m i = Ret (m', ok) -> kx_step ks_plaintext_read_buf i m m'.
Proof.
  unfold key_method_2_write. intros H. ret_inv. destruct (buf_init _ _) as [b0 ok0]. ret_inv.
  assert (Hw : forall n b, kx_step ks_plaintext_read_buf i n (set_write_buf n i b)).
  { intros n b'. split; [auto with vpn|by destruct n, i]. }
  assert (Hs : forall n src, kx_step ks_plaintext_read_buf i n (set_key_src n i src)).
  { intros n src. split; [auto with vpn|by destruct n, i]. }
  match goal with H : (if negb ?b then _ else _) = _ |- _ => destruct b end; cbn [negb] in H; ret_inv.
  2: { eapply kx_step_trans; [apply Hw|apply Hs]. }
  match goal with H : (if negb ?b then Ret (set_key_src _ _ _, _) else _) = _ |- _ => destruct b end; cbn [negb] in H; ret_inv.
  2: { eapply kx_step_trans; [|apply Hs]. eapply kx_step_trans; [apply Hs|apply Hw]. }
  match goal with H : (if ?b then _ else Ret (set_write_buf (set_key_src ?n i ?src) i ?bb, true)) = _ |- _ =>
    assert (Hbase : kx_step ks_plaintext_read_buf i n (set_write_buf (set_key_src n i src) i bb)) by (eapply kx_step_trans; [apply Hs|apply Hw]);
    destruct b end; ret_inv; [|done].
  match goal with H : tls_session_generate_data_channel_keys _ _ _ _ = _ |- _ => apply step_generate in H as [H _]; rename H into Hg end.
  match goal with H : (if ?b then _ else _) = _ |- _ => destruct b end; ret_inv; [by eapply kx_step_trans|].
  eapply kx_step_trans; [|apply Hs]. by eapply kx_step_trans.
Qed.

Lemma step_key_method_1_write kx m i m' ok :
  key_method_1_write kx m i = Ret (m', ok) -> kx_step ks_plaintext_read_buf i m m'.
Proof.
  unfold key_method_1_write. intros H. ret_inv. destruct (buf_init _ _) as [b0 ok0]. ret_inv.
  assert (Hw : forall n b, kx_step ks_plaintext_read_buf i n (set_write_buf n i b)).
  { intros n b'. split; [auto with vpn|by destruct n, i]. }
  destruct (negb (check_key _ _)); ret_inv; [apply Hw|].
  match goal with H : (if negb ?b then _ else _) = _ |- _ => destruct b end; cbn [negb] in H; ret_inv; [|apply Hw].
  split; [by apply frame_set_key|by destruct m, i].
Qed.

(** [buf_clear] leaves an empty buffer. *)
Lemma buf_clear_len b b' : buf_clear b = Ret b' -> len b' = 0.
Proof. unfold buf_clear. destruct (0 <? capacity b); intros H; ret_inv; done. Qed.

Lemma step_read_error m i b m' ok :
  km2_read_error m i b = Ret (m', ok) ->
  kx_step ks_plaintext_write_buf i m m' /\ len (ks_plaintext_read_buf (m_key m' (prim i))) = 0.
Proof.
  unfold km2_read_error. intros H. ret_inv. split; [split|].
  - etrans; [apply frame_set_key_src|apply frame_set_read_buf].
  - by destruct m, i.
  - match goal with H : buf_clear _ = _ |- _ => apply buf_clear_len in H end. by destruct m, i.
Qed.

Lemma view_write_buf m m' i : kx_view m' i = kx_view m i -> ks_plaintext_write_buf (m_key m' (prim i)) = ks_plaintext_write_buf (m_key m (prim i)).
Proof. intros H. apply (f_equal (fun v => ks_plaintext_write_buf v.2)) in H. exact H. Qed.

Lemma step_checks kx m i msg :
  kx_step ks_plaintext_write_buf i m
    (check_occ (if ks_authenticated (m_key m (prim i)) then verify_final_auth_checks (kx_auth kx) m i else m) i (km2_options msg)).
Proof.
  split; [|apply view_write_buf, view_checks].
  etrans; [|unfold check_occ; destruct (_ && _); [apply frame_set_authenticated|reflexivity]].
  destruct (ks_authenticated _); [apply frame_final_checks|reflexivity].
Qed.

Lemma step_key_method_2_read md5 sha1 kx m i m' ok :
  key_method_2_read md5 sha1 kx m i = Ret (m', ok) ->
  kx_step ks_plaintext_write_buf i m m' /\ len (ks_plaintext_read_buf (m_key m' (prim i))) = 0.
Proof.
  unfold key_method_2_read. intros H. ret_inv.
  assert (Hsrc : kx_step ks_plaintext_write_buf i m (set_key_src m i k)) by (split; [auto with vpn|by destruct m, i]).
  destruct o as [msg|].
  2: { apply step_read_error in H as [H Hl]. split; [by eapply kx_step_trans|done]. }
  assert (Hn : kx_step ks_plaintext_write_buf i m (note_peer (set_authenticated (set_key_src m i k) i false) msg)).
  { eapply kx_step_trans; [exact Hsrc|]. split; [etrans; [|apply frame_note_peer]; auto with vpn|].
    destruct (note_peer_view (set_authenticated (set_key_src m i k) i false) msg i) as (_ & _ & ->). by destruct m, i. }
  ret_inv. destruct x0 as [m0|].
  2: { apply step_read_error in H as [H Hl]. split; [by eapply kx_step_trans|done]. }
  ret_inv. match goal with H : buf_clear _ = Ret ?b |- _ => apply buf_clear_len in H; rename H into Hb end.
  match goal with H : context [client_generates_now (m_opt (set_read_buf ?n _ _))] |- _ =>
    assert (Hc : kx_step ks_plaintext_write_buf i m n) end.
  { eapply kx_step_trans; [exact Hn|]. eapply kx_step_trans; [|apply step_checks].
    split; [by eapply frame_authenticate_peer|]. by eapply view_write_buf, view_authenticate_peer. }
  match goal with H : context [client_generates_now (m_opt (set_read_buf ?n _ ?b))] |- _ =>
    assert (Hr : kx_step ks_plaintext_write_buf i m (set_read_buf n i b) /\ len (ks_plaintext_read_buf (m_key (set_read_buf n i b) (prim i))) = 0)
      by (split; [eapply kx_step_trans; [exact Hc|]; split; [auto with vpn|by destruct n, i]|by destruct n, i]);
    set (m1 := set_read_buf n i b) in *; clearbody m1 end.
  destruct Hr as [Hr Hrb]. destruct (client_generates_now _ _); ret_inv.
  - match goal with H : tls_session_generate_data_channel_keys _ _ _ _ = _ |- _ =>
      apply step_generate in H as [[_ Hg1] Hg2] end.
    match goal with H : (if ?b then _ else _) = _ |- _ => destruct b end; ret_inv.
    + split; [by eapply kx_step_trans|]. by rewrite Hg1.
    + apply step_read_error in H as [H Hl]. split; [|done]. do 2 (eapply kx_step_trans; [eassumption|]). done.
  - done.
Qed.

Lemma step_key_method_1_read m i m' ok :
  key_method_1_read m i = Ret (m', ok) ->
  kx_step ks_plaintext_write_buf i m m' /\ len (ks_plaintext_read_buf (m_key m' (prim i))) = 0.
Proof.
  unfold key_method_1_read. intros H. ret_inv.
  assert (Hset : forall b, len b = 0 -> kx_step ks_plaintext_write_buf i m (set_read_buf m i b) /\
    len (ks_plaintext_read_buf (m_key (set_read_buf m i b) (prim i))) = 0).
  { intros b Hb. split; [split; [auto with vpn|by destruct m, i]|by destruct m, i]. }
  destruct (negb (s_verified _)); ret_inv; [apply Hset; by eapply buf_clear_len|].
  destruct o as [kk|]; [|ret_inv; apply Hset; by eapply buf_clear_len].
  destruct (negb _ || _); ret_inv; [apply Hset; by eapply buf_clear_len|].
  match goal with H : buf_clear _ = Ret ?b |- _ => apply buf_clear_len in H end.
  split; [split; [by apply frame_set_key|by destruct m, i]|]. by rewrite m_key_set_key.
Qed.
