(* ===== verification/TlsSession.v ===== *)
(** * Sessions and keys ([ssl.c])

    The life of the key states and sessions of a tunnel, the choice of the key for a
    data packet, and the reception of packets.  [now] is the clock, [sid] the random
    number of a new session: the first drawn that is not zero.  The ciphers of
    --tls-crypt are parameters, as in [TlsWrap].

    A key is named by its place in the tables ([tm_index * ks_index]), which is what
    the pointers [save_ks], [key_scan] and the [crypto_options *] returned to the
    caller designate. *)
From S2P Require Import Prelude Integer Buffer PacketId Reliable ControlChannel Mtu Crypto TlsWrap LinkAddr SslCommon.

Definition P_CONTROL_HARD_RESET_CLIENT_V1 : Z := 1.
Definition P_CONTROL_HARD_RESET_SERVER_V1 : Z := 2.
Definition P_CONTROL_SOFT_RESET_V1 : Z := 3.
Definition P_CONTROL_HARD_RESET_SERVER_V2 : Z := 8.
Definition P_DATA_V1 : Z := 6.
Definition P_DATA_V2 : Z := 9.
Definition P_FIRST_OPCODE : Z := 1.
Definition P_LAST_OPCODE : Z := 10.

Definition TLS_CHANNEL_BUF_SIZE : Z := 2048.

Definition is_hard_reset (op key_method : Z) : bool :=
  (((key_method =? 0) || (key_method =? 1))
   && ((op =? P_CONTROL_HARD_RESET_CLIENT_V1) || (op =? P_CONTROL_HARD_RESET_SERVER_V1)))
  || (((key_method =? 0) || (2 <=? key_method))
      && ((op =? P_CONTROL_HARD_RESET_CLIENT_V2) || (op =? P_CONTROL_HARD_RESET_SERVER_V2)
          || (op =? P_CONTROL_HARD_RESET_CLIENT_V3))).

(** ** Frame parameters of the control channel *)

Definition tls_adjust_frame_parameters (f : frame) : frame := frame_add_to_extra_frame f 1.

Definition tls_init_control_channel_frame_parameters (data_channel f : frame) : outcome frame :=
  let f := mkframe (link_mtu data_channel) (link_mtu_dynamic f) (extra_frame f) (extra_buffer f) (extra_tun f)
             (extra_link data_channel) (align_flags f) (align_adjust f) in
  let f := frame_add_to_extra_frame (tls_adjust_frame_parameters f) (ACK_SIZE CONTROL_SEND_ACK_MAX) in
  let f := frame_add_to_extra_frame f (SID_SIZE + 4) in
  let cap := min_int (link_mtu f) 1250 in
  _ ← c_assert (TUN_LINK_DELTA f <? cap);
  Ret (mkframe (link_mtu f) (cap - TUN_LINK_DELTA f) (extra_frame f) (extra_buffer f) (extra_tun f)
         (extra_link f) (align_flags f) (align_adjust f)).

(** ** Life of a key *)

Definition FRAME_HEADROOM (f : frame) : Z := frame_headroom f 0.

(** [key_id] counts to 7 and goes on with 1: 0 is the first key of a session. *)
Definition next_key_id (key_id : Z) : Z :=
  let k := Z.land (key_id + 1) P_KEY_ID_MASK in if k =? 0 then 1 else k.

(** The session, with its next opcode and key number, and the key. *)
Definition key_state_init (o : tls_options) (s : tls_session) : outcome (tls_session * key_state) :=
  let key_id := s_key_id s in
  let bs := BUF_SIZE (o_frame o) in
  let hr := FRAME_HEADROOM (o_frame o) in
  read_buf ← alloc_buf TLS_CHANNEL_BUF_SIZE;
  write_buf ← alloc_buf TLS_CHANNEL_BUF_SIZE;
  p ← key_state_alloc_reliable bs hr (o_packet_timeout o) (if negb (key_id =? 0) then false else o_xmit_hold o)
        (s_session_id s) sid_zero;
  pid ← (if o_replay o then packet_id_init (o_replay_window o) (o_replay_time o) else Ret packet_id_zero);
  let ks := key_state_zero
              <| ks_initial_opcode := s_initial_opcode s |> <| ks_state := S_INITIAL |> <| ks_key_id := key_id |>
              <| ks_plaintext_read_buf := read_buf |> <| ks_plaintext_write_buf := write_buf |>
              <| ks_ack_write_buf := ack_write_buf p |> <| ks_send_reliable := send_reliable p |>
              <| ks_rec_reliable := rec_reliable p |> <| ks_rec_ack := rec_ack p |>
              <| ks_opt := mkopt pid None false |> in
  Ret (s <| s_initial_opcode := P_CONTROL_SOFT_RESET_V1 |> <| s_key_id := next_key_id key_id |>, ks).

Definition free_key_ctx_bi (k : key_ctx_bi) : key_ctx_bi := mkbi key_ctx_none key_ctx_none (kb_initialized k).

(** What is freed is empty afterwards; without [clear] the other fields stay. *)
Definition key_state_free (ks : key_state) (clear : bool) : key_state :=
  if clear then key_state_zero
  else ks <| ks_state := S_UNDEF |> <| ks_keys := free_key_ctx_bi (ks_keys ks) |>
          <| ks_plaintext_read_buf := free_buf (ks_plaintext_read_buf ks) |>
          <| ks_plaintext_write_buf := free_buf (ks_plaintext_write_buf ks) |>
          <| ks_ack_write_buf := free_buf (ks_ack_write_buf ks) |> <| ks_paybuf := [] |>
          <| ks_send_reliable := reliable_free (ks_send_reliable ks) |>
          <| ks_rec_reliable := reliable_free (ks_rec_reliable ks) |> <| ks_rec_ack := [] |>
          <| ks_key_src := key_source2_zero |>
          <| ks_opt := mkopt (packet_id_free (opt_packet_id (ks_opt ks))) (pid_persist (ks_opt ks)) (co_long_form (ks_opt ks)) |>.

(** ** Life of a session *)

Definition session_initial_opcode (o : tls_options) : Z :=
  if o_key_method o =? 1
  then if o_server o then P_CONTROL_HARD_RESET_SERVER_V1 else P_CONTROL_HARD_RESET_CLIENT_V1
  else if o_server o then P_CONTROL_HARD_RESET_SERVER_V2
  else if o_tls_crypt_v2 o then P_CONTROL_HARD_RESET_CLIENT_V3 else P_CONTROL_HARD_RESET_CLIENT_V2.

(** The packet numbers of the wrapping start from the ones kept in a file, if any. *)
Definition session_tls_wrap (o : tls_options) : outcome tls_wrap_ctx :=
  let w := o_tls_wrap o in
  work ← alloc_buf (BUF_SIZE (o_frame o));
  pid ← packet_id_init (o_replay_window o) (o_replay_time o);
  let co := dc_opt (tw_opt w) in
  let rec := match pid_persist co with
             | Some p => packet_id_persist_load_obj p (pid_rec pid)
             | None => pid_rec pid
             end in
  Ret (tw_set_work (tw_set_opt w (set_opt (tw_opt w) (mkopt (mkpid (pid_send pid) rec) (pid_persist co) (co_long_form co)))) work).

Definition tls_session_init (o : tls_options) (sid : list Z) : outcome tls_session :=
  _ ← c_assert (1 <=? o_key_method o);
  w ← session_tls_wrap o;
  let s := tls_session_zero <| s_session_id := sid |> <| s_initial_opcode := session_initial_opcode o |>
             <| s_tls_wrap := w |> in
  '(s, ks) ← key_state_init o s;
  Ret (s <| s_key0 := ks |>).

Definition tls_session_free (s : tls_session) (clear : bool) : tls_session :=
  if clear then tls_session_zero
  else s <| s_key0 := key_state_free (s_key0 s) false |> <| s_key1 := key_state_free (s_key1 s) false |>
         <| s_common_name := None |> <| s_cert_hash_set := None |>.

(** The destination takes the source's place; the source starts anew or is cleared. *)
Definition move_session (sid : list Z) (m : tls_multi) (dest src : tm_index) (reinit_src : bool) : outcome tls_multi :=
  _ ← c_assert (negb (bool_decide (src = dest)));
  let m := m_set_session m dest (tls_session_free (m_session m dest) false) in
  let m := m_set_session m dest (m_session m src) in
  if reinit_src
  then s ← tls_session_init (m_opt m) sid; Ret (m_set_session m src s)
  else Ret (m_set_session m src tls_session_zero).

Definition reset_session (sid : list Z) (m : tls_multi) (i : tm_index) : outcome tls_multi :=
  let m := m_set_session m i (tls_session_free (m_session m i) false) in
  s ← tls_session_init (m_opt m) sid;
  Ret (m_set_session m i s).

Definition tls_multi_init (o : tls_options) : tls_multi :=
  mkmulti o None addr_undef 0 0 0 None None None None 0 false None None 0 false
    tls_session_zero tls_session_zero tls_session_zero.

Definition tls_multi_init_finalize (sid0 sid1 : list Z) (m : tls_multi) (data_frame : frame) : outcome tls_multi :=
  f ← tls_init_control_channel_frame_parameters data_frame (o_frame (m_opt m));
  let m := m <| m_opt := m_opt m <| o_frame := f |> |> in
  s ← tls_session_init (m_opt m) sid0;
  let m := m_set_session m TM_ACTIVE s in
  if negb (o_single_session (m_opt m))
  then s ← tls_session_init (m_opt m) sid1; Ret (m_set_session m TM_UNTRUSTED s)
  else Ret m.

(** The primary key retires and a new one starts. *)
Definition key_state_soft_reset (now : Z) (o : tls_options) (s : tls_session) : outcome tls_session :=
  let lame := s_key0 s <| ks_must_die := now + o_transition_window o |> in
  let s := s <| s_key1 := lame |> in
  '(s, ks) ← key_state_init o s;
  Ret (s <| s_key0 := ks <| ks_session_id_remote := ks_session_id_remote lame |>
                          <| ks_remote_addr := ks_remote_addr lame |> |>).

Definition compute_earliest_wakeup (earliest seconds_from_now : Z) : Z :=
  let e := if seconds_from_now <? earliest then seconds_from_now else earliest in
  if e <? 0 then 0 else e.

(** Whether the retiring key has expired, and the time to wake up.  [interval_t] is an
    [int]. *)
Definition lame_duck_must_die (now : Z) (s : tls_session) (wakeup : Z) : outcome (Z * bool) :=
  let lame := s_key1 s in
  if S_INITIAL <=? ks_state lame
  then
    _ ← c_assert (negb (ks_must_die lame =? 0));
    if now <? ks_must_die lame
    then Ret (compute_earliest_wakeup wakeup (i32 (ks_must_die lame - now)), false)
    else Ret (wakeup, true)
  else Ret (wakeup, ks_state lame =? S_ERROR).

(** ** The key of an outgoing data packet *)

(** The loop over [key_scan]. *)
Fixpoint select_encrypt_key (now : Z) (m : tls_multi) (scan : list (tm_index * ks_index))
    (selected : option (tm_index * ks_index)) : option (tm_index * ks_index) :=
  match scan with
  | [] => selected
  | ij :: scan =>
      let ks := m_key m ij in
      if (S_ACTIVE <=? ks_state ks) && ks_authenticated ks && kb_initialized (ks_keys ks)
      then
        let selected := match selected with None => Some ij | Some _ => selected end in
        if ks_auth_deferred_expire ks <=? now then Some ij else select_encrypt_key now m scan selected
      else select_encrypt_key now m scan selected
  end.

(** The state, the buffer, and the key; without key the buffer is emptied. *)
Definition tls_pre_encrypt (now : Z) (m : tls_multi) (buf : buffer)
  : tls_multi * buffer * option (tm_index * ks_index) :=
  let m := m <| m_save_ks := None |> in
  if 0 <? len buf
  then match select_encrypt_key now m key_scan None with
       | Some ij => (m <| m_save_ks := Some ij |>, buf, Some ij)
       | None => (m, set_len buf 0, None)
       end
  else (m, set_len buf 0, None).

Definition tls_prepend_opcode_v1 (m : tls_multi) (buf : buffer) : outcome buffer :=
  ij ← must (m_save_ks m);
  let op := u8 (Z.lor (Z.shiftl P_DATA_V1 P_OPCODE_SHIFT) (ks_key_id (m_key m ij))) in
  '(buf, ok) ← buf_write_prepend buf [op];
  _ ← c_assert ok;
  Ret buf.

Definition tls_prepend_opcode_v2 (m : tls_multi) (buf : buffer) : outcome buffer :=
  ij ← must (m_save_ks m);
  let peer := Z.lor (Z.shiftl (Z.lor (Z.shiftl P_DATA_V2 P_OPCODE_SHIFT) (ks_key_id (m_key m ij))) 24)
                (Z.land (m_peer_id m) 0xFFFFFF) in
  '(buf, ok) ← buf_write_prepend buf (be_bytes 4 (u32 peer));
  _ ← c_assert ok;
  Ret buf.

(** One more packet under a key; the counters have 64 bits. *)
Definition count_packet (k : key_state) (n : Z) : key_state :=
  k <| ks_n_packets := u64 (ks_n_packets k + 1) |> <| ks_n_bytes := u64 (ks_n_bytes k + n) |>.

Definition tls_post_encrypt (m : tls_multi) (buf : buffer) : outcome tls_multi :=
  let save := m_save_ks m in
  let m := m <| m_save_ks := None |> in
  if 0 <? len buf
  then ij ← must save; Ret (m_set_key m ij (count_packet (m_key m ij) (len buf)))
  else Ret m.

(** ** Incoming packets *)

(** What [tls_pre_decrypt] leaves: the state, the buffer, the key to decrypt with and
    where the additional data starts, and whether it was a control packet. *)
Record pre_decrypt : Type := mkpd {
  pd_multi : tls_multi;
  pd_buf : buffer;
  pd_opt : option (tm_index * ks_index);
  pd_ad_start : option Z;
  pd_ret : bool
}.

(** [done] and [error] *)
Definition pd_done (m : tls_multi) (buf : buffer) (ret : bool) : pre_decrypt := mkpd m (set_len buf 0) None None ret.

Definition pd_error (m : tls_multi) (buf : buffer) (ret : bool) : pre_decrypt :=
  pd_done (m <| m_n_soft_errors := m_n_soft_errors m + 1 |>) buf ret.

(** A key for the packet: established, of the packet's number, and of the sender's
    address unless the packet [floated] in. *)
Definition decrypt_key_match (m : tls_multi) (from : link_socket_actual) (key_id : Z) (floated : bool)
    (ks : key_state) : outcome bool :=
  if DECRYPT_KEY_ENABLED m ks && (key_id =? ks_key_id ks) && ks_authenticated ks
  then if floated then Ret true else link_socket_actual_match from (ks_remote_addr ks)
  else Ret false.

Fixpoint find_decrypt_key (m : tls_multi) (from : link_socket_actual) (key_id : Z) (floated : bool)
    (scan : list (tm_index * ks_index)) : outcome (option (tm_index * ks_index)) :=
  match scan with
  | [] => Ret None
  | ij :: scan =>
      ok ← decrypt_key_match m from key_id floated (m_key m ij);
      if ok : bool then Ret (Some ij) else find_decrypt_key m from key_id floated scan
  end.

(** The additional data starts after the opcode (P_DATA_V1) or with it (P_DATA_V2). *)
Definition tls_pre_decrypt_data (m : tls_multi) (from : link_socket_actual) (buf : buffer) (op key_id : Z)
    (floated : bool) : outcome pre_decrypt :=
  r ← find_decrypt_key m from key_id floated key_scan;
  match r with
  | None => Ret (pd_done m buf false)
  | Some ij =>
      if negb (kb_initialized (ks_keys (m_key m ij))) then Ret (pd_done m buf false)
      else
        start ← bptr buf;
        let '(buf, ok) := buf_advance buf 1 in
        _ ← c_assert ok;
        if op =? P_DATA_V1
        then
          p ← bptr buf;
          Ret (mkpd (m_set_key m ij (count_packet (m_key m ij) (len buf))) buf (Some ij) (Some p) false)
        else if len buf <? 4 then Ret (pd_error m buf false)
        else
          let '(buf, ok) := buf_advance buf 3 in
          _ ← c_assert ok;
          Ret (mkpd (m_set_key m ij (count_packet (m_key m ij) (len buf))) buf (Some ij) (Some start) false)
  end.

(** The session a control packet belongs to: [inl] for an error. *)
Definition find_session (m : tls_multi) (sid : list Z) : () + option tm_index :=
  let same i := session_id_equal (ks_session_id_remote (m_key m (i, KS_PRIMARY))) sid in
  if same TM_ACTIVE then inr (Some TM_ACTIVE)
  else if same TM_UNTRUSTED then inr (Some TM_UNTRUSTED)
  else if same TM_LAME_DUCK then inl ()
  else inr None.

(** The reliability objects of a key, as [ControlChannel] has them. *)
Definition peer_of (o : tls_options) (s : tls_session) (ks : key_state) : peer :=
  mkpeer (ks_send_reliable ks) (ks_rec_reliable ks) (ks_rec_ack ks) (ks_ack_write_buf ks)
    (FRAME_HEADROOM (o_frame o)) (s_session_id s) (ks_session_id_remote ks).

Definition put_peer (ks : key_state) (p : peer) : key_state :=
  ks <| ks_send_reliable := send_reliable p |> <| ks_rec_reliable := rec_reliable p |> <| ks_rec_ack := rec_ack p |>
     <| ks_ack_write_buf := ack_write_buf p |>.

Definition set_untrusted_addr (m : tls_multi) (i : tm_index) (from : link_socket_actual) : tls_multi :=
  m_set_session m i (m_session m i <| s_untrusted_addr := from |>).

Section Control.
Context (ctr_cipher : list Z -> bool -> cipher_ctx) (sha_hmac : list Z -> hmac_ctx).
Context (now : Z) (script : option (Z -> list Z -> bool)).

(** [read_control_auth] with the keys of session [i]. *)
Definition read_session_auth (m : tls_multi) (i : tm_index) (buf : buffer) : outcome (tls_multi * buffer * bool) :=
  let s := m_session m i in
  '(w, buf, ok) ← read_control_auth ctr_cipher sha_hmac now script (s_tls_wrap s) buf;
  Ret (m_set_session m i (s <| s_tls_wrap := w |>), buf, ok).

(** An existing session, or the first packet of the active one ([new_link]): the
    address, the authentication and the request of a new key.  The flag returned is
    [do_burst]. *)
Definition route_existing (m : tls_multi) (from : link_socket_actual) (buf : buffer) (op : Z) (i : tm_index)
    (new_link do_burst : bool) : outcome (tls_multi * buffer * option bool) :=
  let ks := m_key m (i, KS_PRIMARY) in
  same ← (if new_link then Ret true else link_socket_actual_match (ks_remote_addr ks) from);
  if negb same then Ret (m, buf, None)
  else
    '(m, buf, ok) ← read_session_auth m i buf;
    if negb ok then Ret (m, buf, None)
    else if op =? P_CONTROL_SOFT_RESET_V1
    then
      if DECRYPT_KEY_ENABLED m ks
      then s ← key_state_soft_reset now (m_opt m) (m_session m i); Ret (m_set_session m i s, buf, Some do_burst)
      else Ret (m, buf, Some true)
    else Ret (m, buf, Some do_burst).

(** Where a control packet goes: the session, [do_burst] and [new_link]; [None] for
    an error. *)
Definition route_control (m : tls_multi) (from : link_socket_actual) (buf : buffer) (op : Z) (sid : list Z)
  : outcome (tls_multi * buffer * option (tm_index * bool * bool)) :=
  let o := m_opt m in
  match find_session m sid with
  | inl _ => Ret (m, buf, None)
  | inr (Some i) =>
      '(m, buf, r) ← route_existing m from buf op i false false;
      Ret (m, buf, match r with Some do_burst => Some (i, do_burst, false) | None => None end)
  | inr None =>
      if negb (is_hard_reset op 0) then Ret (m, buf, None)
      else if negb (is_hard_reset op (o_key_method o)) then Ret (m, buf, None)
      else if negb (session_id_defined (ks_session_id_remote (m_key m (TM_ACTIVE, KS_PRIMARY))))
      then
        if o_single_session o && negb (m_n_sessions m =? 0) then Ret (m, buf, None)
        else
          '(m, buf, r) ← route_existing (set_untrusted_addr m TM_ACTIVE from) from buf op TM_ACTIVE true true;
          Ret (m, buf, match r with Some do_burst => Some (TM_ACTIVE, do_burst, true) | None => None end)
      else if o_single_session o then Ret (m, buf, None)
      else
        '(m, buf, ok) ← read_session_auth m TM_UNTRUSTED buf;
        if negb ok then Ret (m, buf, None)
        else Ret (set_untrusted_addr m TM_UNTRUSTED from, buf, Some (TM_UNTRUSTED, false, true))
  end.

(** "Set our remote address and remote session_id" *)
Definition set_remote (m : tls_multi) (i : tm_index) (sid : list Z) (from : link_socket_actual) : tls_multi :=
  let ij := (i, KS_PRIMARY) in
  (m_set_key m ij (m_key m ij <| ks_session_id_remote := sid |> <| ks_remote_addr := from |>))
    <| m_n_sessions := m_n_sessions m + 1 |>.

(** The burst of retransmissions at the start of a session. *)
Definition start_burst (m : tls_multi) (i : tm_index) (do_burst : bool) : tls_multi :=
  let s := m_session m i in
  if do_burst && negb (s_burst s)
  then
    let ks := s_key0 s in
    m_set_session m i (s <| s_key0 := ks <| ks_send_reliable := reliable_schedule_now now (ks_send_reliable ks) |> |>
                         <| s_burst := true |>)
  else m.

(** The authenticated packet, passed on to the reliability layer. *)
Definition accept_control (m : tls_multi) (from : link_socket_actual) (buf : buffer) (op key_id : Z) (sid : list Z)
    (i : tm_index) (do_burst new_link : bool) : outcome pre_decrypt :=
  let ij := (i, KS_PRIMARY) in
  _ ← c_assert (negb (ks_state (m_key m ij) =? S_UNDEF));
  _ ← c_assert (negb (ks_state (m_key m ij) =? S_ERROR));
  _ ← c_assert (session_id_defined (s_session_id (m_session m i)));
  same ← (if new_link then Ret true else link_socket_actual_match (ks_remote_addr (m_key m ij)) from);
  if negb same then Ret (pd_error m buf true)
  else
    let m := if new_link then set_remote m i sid from else m in
    let m := start_burst m i do_burst in
    let ks := m_key m ij in
    if negb (ks_key_id ks =? key_id) then Ret (pd_error m buf true)
    else
      bytes ← buf_contents buf;
      '(p, out) ← tls_receive (op, bytes) (peer_of (m_opt m) (m_session m i) ks);
      let m := m_set_key m ij (put_peer ks p) in
      match out with
      | Error => Ret (pd_error m buf true)
      | _ => Ret (pd_done m buf true)
      end.

Definition tls_pre_decrypt_control (m : tls_multi) (from : link_socket_actual) (buf : buffer) (op key_id : Z)
  : outcome pre_decrypt :=
  if (op <? P_FIRST_OPCODE) || (P_LAST_OPCODE <? op) then Ret (pd_error m buf false)
  else if ((op =? P_CONTROL_HARD_RESET_CLIENT_V1) || (op =? P_CONTROL_HARD_RESET_CLIENT_V2)
           || (op =? P_CONTROL_HARD_RESET_CLIENT_V3)) && negb (o_server (m_opt m))
          || ((op =? P_CONTROL_HARD_RESET_SERVER_V1) || (op =? P_CONTROL_HARD_RESET_SERVER_V2)) && o_server (m_opt m)
  then Ret (pd_error m buf false)
  else
    '(_, r) ← session_id_read (buf_advance buf 1).1;
    match r with
    | None => Ret (pd_error m buf false)
    | Some sid =>
        if negb (session_id_defined sid) then Ret (pd_error m buf false)
        else
          '(m, buf, r) ← route_control m from buf op sid;
          match r with
          | None => Ret (pd_error m buf false)
          | Some (i, do_burst, new_link) => accept_control m from buf op key_id sid i do_burst new_link
          end
    end.

Definition tls_pre_decrypt (m : tls_multi) (from : link_socket_actual) (buf : buffer) (floated : bool)
  : outcome pre_decrypt :=
  if 0 <? len buf
  then
    p ← bptr buf;
    c ← buf_load1 buf p;
    let op := Z.shiftr c P_OPCODE_SHIFT in
    let key_id := Z.land c P_KEY_ID_MASK in
    if (op =? P_DATA_V1) || (op =? P_DATA_V2)
    then tls_pre_decrypt_data m from buf op key_id floated
    else tls_pre_decrypt_control m from buf op key_id
  else Ret (pd_done m buf false).

End Control.

(** ** Payloads and addresses *)

(** [sent] is whether the TLS engine took the payload. *)
Definition tls_send_payload (m : tls_multi) (data : list Z) (sent : bool) : tls_multi * bool :=
  let ij := (TM_ACTIVE, KS_PRIMARY) in
  let ks := m_key m ij in
  if S_ACTIVE <=? ks_state ks then (m, sent)
  else (m_set_key m ij (ks <| ks_paybuf := ks_paybuf ks ++ [data] |>), true).

Definition tls_rec_payload (m : tls_multi) (buf : buffer) : outcome (tls_multi * buffer * bool) :=
  let ij := (TM_ACTIVE, KS_PRIMARY) in
  let ks := m_key m ij in
  if (S_ACTIVE <=? ks_state ks) && negb (buf_len (ks_plaintext_read_buf ks) =? 0)
  then
    '(buf, ok) ← buf_copy buf (ks_plaintext_read_buf ks);
    Ret (m_set_key m ij (ks <| ks_plaintext_read_buf := set_len (ks_plaintext_read_buf ks) 0 |>), buf, ok)
  else Ret (m, buf, false).

Definition update_addr (addr : link_socket_actual) (ks : key_state) : outcome key_state :=
  if negb (link_socket_actual_defined (ks_remote_addr ks)) then Ret ks
  else
    same ← link_socket_actual_match addr (ks_remote_addr ks);
    Ret (if same : bool then ks else ks <| ks_remote_addr := addr |>).

Fixpoint update_addrs (addr : link_socket_actual) (keys : list (tm_index * ks_index)) (m : tls_multi) : outcome tls_multi :=
  match keys with
  | [] => Ret m
  | ij :: keys => ks ← update_addr addr (m_key m ij); update_addrs addr keys (m_set_key m ij ks)
  end.

Definition all_keys : list (tm_index * ks_index) :=
  i ← [TM_ACTIVE; TM_UNTRUSTED; TM_LAME_DUCK]; (i,.) <$> [KS_PRIMARY; KS_LAME_DUCK].

Definition tls_update_remote_addr (m : tls_multi) (addr : link_socket_actual) : outcome tls_multi :=
  update_addrs addr all_keys m.
