(* ===== verification/TlsProcess.v ===== *)
(** * The handshake ([tls_process], [tls_multi_process] of [ssl.c])

    The state machine that takes a key from S_INITIAL to S_ACTIVE, run by the event
    loop.  Each call goes round a loop as long as something moves: packets to the
    network, ciphertext to and from the TLS engine, plaintext to and from the key
    exchange.

    What the TLS engine, the clock and the random generator answer in a round is a
    [round_env]; a call is given one for each round it may make.  The verification of
    the peer's certificate runs inside the engine's calls that do the handshake; what it leaves
    in the session is a [cert_result] of these calls. *)
From S2P Require Import Prelude Integer Buffer PacketId Reliable ControlChannel Mtu Crypto TlsWrap LinkAddr SslCommon.
From S2P Require Import Auth KeyExchange TlsSession.

(** What the verification of certificates left in the session. *)
Record cert_result : Type := mkcert {
  cert_verified : bool;
  cert_common_name : option (list Z);
  cert_hashes : option cert_hash_set
}.

Record round_env : Type := mkround {
  re_now : Z;
  re_prng : list Z;
  re_write_ciphertext : list Z -> Z + bool;
  re_read_plaintext : Z -> bio_answer;
  re_read_verify : option cert_result;
  re_kx : kx_input;
  re_write_plaintext : list Z -> Z + bool;
  re_write_verify : option cert_result;
  re_read_ciphertext : Z -> bio_answer
}.

(** The answers in one call of [tls_process], round by round, and at its end. *)
Record process_env : Type := mkpe {
  pe_now : Z;
  pe_rounds : nat -> round_env;
  pe_now_end : Z;
  pe_prng_end : list Z
}.

Definition auth_deferred_expire_window (o : tls_options) : Z :=
  let ret := o_handshake_window o in
  let r2 := Z.quot (o_renegotiate_seconds o) 2 in
  if negb (o_renegotiate_seconds o =? 0) && (r2 <? ret) then r2 else ret.

(** [FULL_SYNC] *)
Definition FULL_SYNC (ks : key_state) : bool :=
  reliable_empty (ks_send_reliable ks) && reliable_ack_empty (ks_rec_ack ks).

Definition set_cert (s : tls_session) (c : option cert_result) : tls_session :=
  match c with
  | Some c => s <| s_verified := cert_verified c |> <| s_common_name := cert_common_name c |>
                <| s_cert_hash_set := cert_hashes c |>
  | None => s
  end.

Definition key_state_write_plaintext (BIO_write : list Z -> Z + bool) (b : buffer) : outcome (buffer * Z) :=
  bytes ← buf_contents b;
  let ret := bio_write BIO_write bytes in
  b ← bio_write_post ret b;
  Ret (b, ret).

(** ** The state of a call *)

Record pstate : Type := mkp {
  p_multi : tls_multi;
  p_info : link_socket_info;
  p_wakeup : Z;
  p_change : bool
}.

#[export] Instance eta_pstate : Eta pstate := fun p => mkp (p_multi p) (p_info p) (p_wakeup p) (p_change p).

(** A step goes on or jumps to [error]. *)
Inductive step_out : Type := Go (p : pstate) | Err (p : pstate).

Fixpoint run_steps (steps : list (pstate -> outcome step_out)) (p : pstate) : outcome step_out :=
  match steps with
  | [] => Ret (Go p)
  | f :: steps =>
      r ← f p;
      match r with
      | Go p => run_steps steps p
      | Err p => Ret (Err p)
      end
  end.

Section Process.
Context (md5 sha1 : list Z -> hmac_ctx).

Section Round.
Context (env : round_env) (i : tm_index).

Definition p_ks (p : pstate) : key_state := m_key (p_multi p) (prim i).
Definition p_opt (p : pstate) : tls_options := m_opt (p_multi p).
Definition p_session (p : pstate) : tls_session := m_session (p_multi p) i.

Definition set_ks (p : pstate) (ks : key_state) : pstate := p <| p_multi := m_set_key (p_multi p) (prim i) ks |>.
Definition changed (p : pstate) : pstate := p <| p_change := true |>.

Definition p_peer (p : pstate) : peer := peer_of (p_opt p) (p_session p) (p_ks p).

(** "Initial handshake" *)
Definition step_initial (p : pstate) : outcome step_out :=
  let ks := p_ks p in
  if ks_state ks =? S_INITIAL
  then
    '(q, out) ← tls_queue_initial (ks_initial_opcode ks) (p_peer p);
    let ks := put_peer ks q in
    match out with
    | Queued _ =>
        let ks := ks <| ks_must_negotiate := re_now env + o_handshake_window (p_opt p) |>
                     <| ks_auth_deferred_expire := re_now env + auth_deferred_expire_window (p_opt p) |>
                     <| ks_state := S_PRE_START |> in
        Ret (Go (changed (set_ks p ks)))
    | _ => Ret (Go (set_ks p ks))
    end
  else Ret (Go p).

(** "Are we timed out on receive?" *)
Definition step_timeout (p : pstate) : outcome step_out :=
  let ks := p_ks p in
  if ks_must_negotiate ks <=? re_now env
  then
    if ks_state ks <? S_ACTIVE then Ret (Err p)
    else Ret (Go (set_ks p (ks <| ks_state := S_NORMAL_OP |> <| ks_must_negotiate := 0 |>)))
  else Ret (Go p).

(** "Wait for Initial Handshake ACK" *)
Definition step_pre_start (p : pstate) : outcome step_out :=
  let ks := p_ks p in
  if (ks_state ks =? S_PRE_START) && FULL_SYNC ks
  then Ret (Go (changed (set_ks p (ks <| ks_state := S_START |>))))
  else Ret (Go p).

(** "Wait for ACK"; the payloads that waited go to the TLS engine, whatever it
    answers. *)
Definition step_wait_ack (p : pstate) : outcome step_out :=
  let ks := p_ks p in
  let server := o_server (p_opt p) in
  if (((ks_state ks =? S_GOT_KEY) && negb server) || ((ks_state ks =? S_SENT_KEY) && server)) && FULL_SYNC ks
  then
    let ks := ks <| ks_established := re_now env |> <| ks_state := S_ACTIVE |> <| ks_paybuf := [] |> in
    info ← link_socket_set_outgoing_addr (p_info p) (ks_remote_addr ks);
    Ret (Go (changed (set_ks p ks <| p_info := info |>)))
  else Ret (Go p).

(** [write_control_auth]: the acknowledgements left over, the wrapping context, the
    storage the record was written to ([buf]'s, also when the packet itself is in
    the work buffer), the packet, and whether the outgoing address was set. *)
Definition write_packet (now : Z) (prng : list Z) (s : tls_session) (ks : key_state) (buf : buffer) (opcode max_ack : Z)
    (prepend_ack : bool) : outcome (reliable_ack * tls_wrap_ctx * option (list Z) * buffer * bool) :=
  _ ← c_assert (link_socket_actual_defined (ks_remote_addr ks));
  '(ack, b, ok) ← reliable_ack_write (ks_rec_ack ks) buf (ks_session_id_remote ks) max_ack prepend_ack;
  _ ← c_assert ok;
  '(w, out, sent) ← wrap_control_packet now prng (s_tls_wrap s) (s_session_id s) (ks_key_id ks) opcode b;
  let storage := match tw_mode (s_tls_wrap s) with TLS_WRAP_CRYPT => data b | _ => data out end in
  Ret (ack, w, storage, out, sent).

(** "Reliable buffer to outgoing TCP/UDP": the packet and whether the address was
    set, when there is one to send. *)
Definition tls_send_reliable (p : pstate) : outcome (pstate * buffer * bool) :=
  let ks := p_ks p in
  match reliable_send (re_now env) (ks_send_reliable ks) with
  | (_, None) => Fatal
  | (rel, Some (k, op)) =>
      match entries rel !! k with
      | None => Oob
      | Some e =>
          '(ack, w, storage, out, sent) ← write_packet (re_now env) (re_prng env) (p_session p) ks (buf e) op
                                            CONTROL_SEND_ACK_MAX true;
          let b := mkbuffer (capacity (buf e)) (offset (buf e)) (len (buf e)) storage in
          let ks := ks <| ks_send_reliable := set_entry rel k (set_buf e b) |> <| ks_rec_ack := ack |> in
          let m := m_set_session (p_multi p) i (p_session p <| s_tls_wrap := w |> <| s_key0 := ks |>) in
          Ret (p <| p_multi := m |>, out, sent)
      end
  end.

(** "Write incoming ciphertext to TLS object" *)
Definition step_deliver (p : pstate) : outcome step_out :=
  '(q, out) ← tls_deliver (re_write_ciphertext env) (p_peer p);
  let p := set_ks p (put_peer (p_ks p) q) in
  match out with
  | Error => Ret (Err p)
  | Delivered _ => Ret (Go (changed p))
  | _ => Ret (Go p)
  end.

(** "Read incoming plaintext from TLS object" *)
Definition step_read_plaintext (p : pstate) : outcome step_out :=
  let ks := p_ks p in
  if len (ks_plaintext_read_buf ks) =? 0
  then
    let '(b, ok) := buf_init (ks_plaintext_read_buf ks) 0 in
    _ ← c_assert ok;
    '(b, status) ← bio_read (re_read_plaintext env) b TLS_CHANNEL_BUF_SIZE;
    let s := set_cert (p_session p) (re_read_verify env) <| s_key0 := ks <| ks_plaintext_read_buf := b |> |> in
    let p := p <| p_multi := m_set_session (p_multi p) i s |> in
    if status =? -1 then Ret (Err p)
    else if status =? 1 then Ret (Go (changed p <| p_wakeup := 0 |>))
    else Ret (Go p)
  else Ret (Go p).

(** The outcome of a key exchange step, which leads to state [st]. *)
Definition key_step (p : pstate) (st : Z) (r : outcome (tls_multi * bool)) : outcome step_out :=
  '(m, ok) ← r;
  let p := p <| p_multi := m |> in
  if negb ok then Ret (Err p)
  else Ret (Go (changed (set_ks p (p_ks p <| ks_state := st |>)))).

(** "Send Key" *)
Definition step_send_key (p : pstate) : outcome step_out :=
  let ks := p_ks p in
  let server := o_server (p_opt p) in
  if (len (ks_plaintext_write_buf ks) =? 0)
     && (((ks_state ks =? S_START) && negb server) || ((ks_state ks =? S_GOT_KEY) && server))
  then
    if o_key_method (p_opt p) =? 1 then key_step p S_SENT_KEY (key_method_1_write (re_kx env) (p_multi p) i)
    else if o_key_method (p_opt p) =? 2 then key_step p S_SENT_KEY (key_method_2_write md5 sha1 (re_kx env) (p_multi p) i)
    else Fatal
  else Ret (Go p).

(** "Receive Key" *)
Definition step_receive_key (p : pstate) : outcome step_out :=
  let ks := p_ks p in
  let server := o_server (p_opt p) in
  if negb (len (ks_plaintext_read_buf ks) =? 0)
     && (((ks_state ks =? S_SENT_KEY) && negb server) || ((ks_state ks =? S_START) && server))
  then
    if o_key_method (p_opt p) =? 1 then key_step p S_GOT_KEY (key_method_1_read (p_multi p) i)
    else if o_key_method (p_opt p) =? 2 then key_step p S_GOT_KEY (key_method_2_read md5 sha1 (re_kx env) (p_multi p) i)
    else Fatal
  else Ret (Go p).

(** "Write outgoing plaintext to TLS object" *)
Definition step_write_plaintext (p : pstate) : outcome step_out :=
  let ks := p_ks p in
  if negb (len (ks_plaintext_write_buf ks) =? 0)
  then
    '(b, status) ← key_state_write_plaintext (re_write_plaintext env) (ks_plaintext_write_buf ks);
    let s := set_cert (p_session p) (re_write_verify env) <| s_key0 := ks <| ks_plaintext_write_buf := b |> |> in
    let p := p <| p_multi := m_set_session (p_multi p) i s |> in
    if status =? -1 then Ret (Err p)
    else if status =? 1 then Ret (Go (changed p))
    else Ret (Go p)
  else Ret (Go p).

(** "Outgoing Ciphertext to reliable buffer" *)
Definition step_queue_ciphertext (p : pstate) : outcome step_out :=
  if S_START <=? ks_state (p_ks p)
  then
    '(q, out) ← tls_queue_ciphertext (re_read_ciphertext env) (PAYLOAD_SIZE_DYNAMIC (o_frame (p_opt p))) (p_peer p);
    let p := set_ks p (put_peer (p_ks p) q) in
    match out with
    | Error => Ret (Err p)
    | Queued _ => Ret (Go (changed p))
    | _ => Ret (Go p)
    end
  else Ret (Go p).

(** One round: an error, a packet to send (which ends the loop), or the state after
    it. *)
Inductive round_out : Type :=
| RoundErr (p : pstate)
| RoundSend (p : pstate) (out : buffer) (sent : bool)
| RoundEnd (p : pstate).

Definition tls_round (to_link : buffer) (p : pstate) : outcome round_out :=
  r ← run_steps [step_initial; step_timeout; step_pre_start; step_wait_ack] (p <| p_change := false |>);
  match r with
  | Err p => Ret (RoundErr p)
  | Go p =>
      if (len to_link =? 0) && reliable_can_send (re_now env) (ks_send_reliable (p_ks p))
      then '(p, out, sent) ← tls_send_reliable p; Ret (RoundSend p out sent)
      else
        r ← run_steps [step_deliver; step_read_plaintext; step_send_key; step_receive_key; step_write_plaintext;
                       step_queue_ciphertext] p;
        match r with
        | Err p => Ret (RoundErr p)
        | Go p => Ret (RoundEnd p)
        end
  end.

End Round.

(** ** The loop *)

(** [do ... while (state_change)]; [None] when [fuel] rounds do not suffice. *)
Fixpoint tls_loop (fuel : nat) (rounds : nat -> round_env) (n : nat) (i : tm_index) (to_link : buffer) (p : pstate)
  : outcome (option round_out) :=
  match fuel with
  | O => Ret None
  | S fuel =>
      r ← tls_round (rounds n) i to_link p;
      match r with
      | RoundEnd p => if p_change p then tls_loop fuel rounds (S n) i to_link p else Ret (Some (RoundEnd p))
      | _ => Ret (Some r)
      end
  end.

(** The loop needs at most 25 rounds, whatever the TLS engine answers. *)
Definition TLS_PROCESS_FUEL : nat := 25.

Record process_result : Type := mkpr {
  pr_multi : tls_multi;
  pr_info : link_socket_info;
  pr_to_link : buffer;
  pr_addr : option link_socket_actual;
  pr_wakeup : Z;
  pr_active : bool
}.

(** "Should we trigger a soft reset?" *)
Definition renegotiate (now : Z) (o : tls_options) (ks : key_state) : bool :=
  (S_ACTIVE <=? ks_state ks)
  && ((negb (o_renegotiate_seconds o =? 0) && (ks_established ks + o_renegotiate_seconds o <=? now))
      || ((0 <? o_renegotiate_bytes o) && (o_renegotiate_bytes o <=? ks_n_bytes ks))
      || (negb (o_renegotiate_packets o =? 0) && (o_renegotiate_packets o <=? ks_n_packets ks))
      || packet_id_close_to_wrapping (pid_send (opt_packet_id (ks_opt ks)))).

(** The part before the loop: a new key, and the end of the retiring one. *)
Definition tls_process_start (now : Z) (m : tls_multi) (i : tm_index) (wakeup : Z) : outcome (tls_multi * Z) :=
  let ks := m_key m (prim i) in
  _ ← c_assert (negb (ks_state ks =? S_UNDEF));
  _ ← c_assert (negb (ks_state ks =? S_ERROR));
  _ ← c_assert (session_id_defined (s_session_id (m_session m i)));
  s ← (if renegotiate now (m_opt m) ks then key_state_soft_reset now (m_opt m) (m_session m i)
       else Ret (m_session m i));
  '(wakeup, die) ← lame_duck_must_die now s wakeup;
  let s := if die : bool then s <| s_key1 := key_state_free (s_key1 s) true |> else s in
  Ret (m_set_session m i s, wakeup).

(** "Send 1 or more ACKs" *)
Definition send_acks (now : Z) (prng : list Z) (i : tm_index) (m : tls_multi) : outcome (tls_multi * buffer * bool) :=
  let s := m_session m i in
  let ks := m_key m (prim i) in
  let '(b, ok) := buf_init (ks_ack_write_buf ks) (FRAME_HEADROOM (o_frame (m_opt m))) in
  _ ← c_assert ok;
  '(ack, w, storage, out, sent) ← write_packet now prng s ks b P_ACK_V1 RELIABLE_ACK_SIZE false;
  let ab := mkbuffer (capacity (ks_ack_write_buf ks)) (offset (ks_ack_write_buf ks)) (len (ks_ack_write_buf ks)) storage in
  Ret (m_set_session m i (s <| s_tls_wrap := w |> <| s_key0 := ks <| ks_rec_ack := ack |> <| ks_ack_write_buf := ab |> |>),
       out, sent).

(** "When should we wake up again?" *)
Definition next_wakeup (now : Z) (o : tls_options) (ks : key_state) (wakeup : Z) : Z :=
  let wakeup :=
    if S_INITIAL <=? ks_state ks
    then
      let w := compute_earliest_wakeup wakeup (reliable_send_timeout now (ks_send_reliable ks)) in
      if negb (ks_must_negotiate ks =? 0) then compute_earliest_wakeup w (i32 (ks_must_negotiate ks - now)) else w
    else wakeup in
  if negb (ks_established ks =? 0) && negb (o_renegotiate_seconds o =? 0)
  then compute_earliest_wakeup wakeup (i32 (ks_established ks + o_renegotiate_seconds o - now))
  else wakeup.

(** The part after the loop; [sent] is whether the loop put a packet into [to_link]. *)
Definition tls_process_finish (env : process_env) (i : tm_index) (p : pstate) (to_link : buffer) (sent addr_set : bool)
  : outcome process_result :=
  let addr (m : tls_multi) := Some (ks_remote_addr (m_key m (prim i))) in
  '(m, to_link, active, a) ←
     (if (len to_link =? 0) && negb (reliable_ack_empty (ks_rec_ack (p_ks i p)))
      then '(m, out, ok) ← send_acks (pe_now_end env) (pe_prng_end env) i (p_multi p);
           Ret (m, out, true, ok || addr_set)
      else Ret (p_multi p, to_link, sent, addr_set));
  let w := next_wakeup (pe_now_end env) (m_opt m) (m_key m (prim i)) (p_wakeup p) in
  Ret (mkpr m (p_info p) to_link (if a : bool then addr m else None)
         (if w <=? 0 then 1 else w) (active || (w <=? 0))).

(** The address of the outgoing packet, when there is one, is in [pr_addr]. *)
Definition tls_process (fuel : nat) (env : process_env) (m : tls_multi) (i : tm_index) (info : link_socket_info)
    (to_link : buffer) (wakeup : Z) : outcome (option process_result) :=
  '(m, wakeup) ← tls_process_start (pe_now env) m i wakeup;
  r ← tls_loop fuel (pe_rounds env) 0 i to_link (mkp m info wakeup false);
  match r with
  | None => Ret None
  | Some (RoundErr p) =>
      Ret (Some (mkpr (p_multi (set_ks i p (p_ks i p <| ks_state := S_ERROR |>))) (p_info p) to_link None
                   (p_wakeup p) false))
  | Some (RoundSend p out sent) =>
      res ← tls_process_finish env i p out true sent; Ret (Some res)
  | Some (RoundEnd p) =>
      res ← tls_process_finish env i p to_link false false; Ret (Some res)
  end.

(** ** All sessions *)

(** The answers during one call of [tls_multi_process]: those of the calls of
    [tls_process], the numbers of the sessions started anew, and the clock. *)
Record multi_env : Type := mkme {
  me_process : tm_index -> process_env;
  me_sid : tm_index -> list Z;
  me_sid_promoted : list Z;
  me_now : Z
}.

(** What is passed from one session to the next. *)
Record mstate : Type := mkms {
  ms_multi : tls_multi;
  ms_info : link_socket_info;
  ms_to_link : buffer;
  ms_addr : option link_socket_actual;
  ms_wakeup : Z;
  ms_active : bool;
  ms_error : bool
}.

#[export] Instance eta_mstate : Eta mstate := fun s =>
  mkms (ms_multi s) (ms_info s) (ms_to_link s) (ms_addr s) (ms_wakeup s) (ms_active s) (ms_error s).

(** A session that hit an error: its retiring key is kept when it is still good, and
    the session starts anew. *)
Definition after_error (env : multi_env) (i : tm_index) (m : tls_multi) : outcome tls_multi :=
  let m := m <| m_n_soft_errors := m_n_soft_errors m + 1 |> in
  if bool_decide (i = TM_ACTIVE) && (S_ACTIVE <=? ks_state (m_key m (i, KS_LAME_DUCK)))
     && negb (o_single_session (m_opt m))
  then move_session (me_sid env i) m TM_LAME_DUCK TM_ACTIVE true
  else reset_session (me_sid env i) m i.

(** One turn of the loop over the sessions. *)
Definition process_session (env : multi_env) (i : tm_index) (st : mstate) : outcome mstate :=
  let m := ms_multi st in
  let ks := m_key m (prim i) in
  let m := if bool_decide (i = TM_ACTIVE) && (ks_state ks =? S_INITIAL)
              && link_socket_actual_defined (li_actual (ms_info st))
           then m_set_key m (prim i) (ks <| ks_remote_addr := li_actual (ms_info st) |>) else m in
  let ks := m_key m (prim i) in
  let st := st <| ms_multi := m |> in
  if (S_INITIAL <=? ks_state ks) && link_socket_actual_defined (ks_remote_addr ks)
  then
    r ← tls_process TLS_PROCESS_FUEL (me_process env i) m i (ms_info st) (ms_to_link st) (ms_wakeup st);
    pr ← must r;
    let m := match pr_addr pr with Some a => pr_multi pr <| m_to_link_addr := a |> | None => pr_multi pr end in
    let addr := match pr_addr pr with Some a => Some a | None => ms_addr st end in
    let st := mkms m (pr_info pr) (pr_to_link pr) addr (pr_wakeup pr) (ms_active st || pr_active pr) (ms_error st) in
    if ks_state (m_key m (prim i)) =? S_ERROR
    then
      m ← after_error env i m;
      Ret (st <| ms_multi := m |> <| ms_error := ms_error st || bool_decide (i = TM_ACTIVE) |>)
    else Ret st
  else Ret st.

(** "A hard error means that TM_ACTIVE hit an S_ERROR state and that no other key
    state objects are S_ACTIVE or higher." *)
Definition count_hard_error (m : tls_multi) (error : bool) : tls_multi :=
  if error && negb (existsb (fun ij => S_ACTIVE <=? ks_state (m_key m ij)) key_scan)
  then m <| m_n_hard_errors := m_n_hard_errors m + 1 |> else m.

(** An untrusted session that achieved authentication takes over. *)
Definition promote_untrusted (sid : list Z) (m : tls_multi) : outcome tls_multi :=
  if DECRYPT_KEY_ENABLED m (m_key m (prim TM_UNTRUSTED))
  then move_session sid m TM_ACTIVE TM_UNTRUSTED true
  else Ret m.

Inductive tlsmp : Type := TLSMP_INACTIVE | TLSMP_ACTIVE | TLSMP_KILL.

(** The state and the answer to the event loop: a failed authentication ends the
    tunnel. *)
Definition tls_multi_process (env : multi_env) (m : tls_multi) (info : link_socket_info) (to_link : buffer)
    (addr : option link_socket_actual) (wakeup : Z) : outcome (mstate * tlsmp) :=
  st ← process_session env TM_ACTIVE (mkms m info to_link addr wakeup false false);
  st ← process_session env TM_UNTRUSTED st;
  st ← process_session env TM_LAME_DUCK st;
  let tas := tls_authentication_status (ms_multi st) in
  '(wakeup, die) ← lame_duck_must_die (me_now env) (m_session (ms_multi st) TM_LAME_DUCK) (ms_wakeup st);
  let m := if die : bool then m_set_session (ms_multi st) TM_LAME_DUCK
                              (tls_session_free (m_session (ms_multi st) TM_LAME_DUCK) true)
           else ms_multi st in
  m ← promote_untrusted (me_sid_promoted env) m;
  Ret (st <| ms_multi := count_hard_error m (ms_error st) |> <| ms_wakeup := wakeup |>,
       match tas with
       | TLS_AUTHENTICATION_FAILED => TLSMP_KILL
       | _ => if ms_active st then TLSMP_ACTIVE else TLSMP_INACTIVE
       end).

End Process.
