(* ===== verification/TlsProcessSpec.v ===== *)
(** * The handshake ends

    Whatever the TLS engine, the clock and the peer do, each call of [tls_process]
    leaves its loop after at most 25 rounds: every round that asks for another one
    has moved the handshake on, freed a received packet, used up a buffer for a
    packet to send, or filled or emptied one of the two plaintext buffers. *)
From S2P Require Import Prelude Integer Buffer PacketId Reliable ControlChannel Mtu Crypto TlsWrap LinkAddr SslCommon.
From S2P Require Import Auth KeyExchange KeyExchangeSpec TlsSession TlsProcess.

(** ** What a round uses up *)

(** The states that are still ahead; a server gets the key of its client before it
    sends its own. *)
Definition steps_left (server : bool) (st : Z) : nat :=
  if st =? S_INITIAL then 5
  else if st =? S_PRE_START then 4
  else if st =? S_START then 3
  else if st =? S_SENT_KEY then (if server then 1 else 2)
  else if st =? S_GOT_KEY then (if server then 2 else 1)
  else 0.

Definition count (P : reliable_entry -> bool) (rel : reliable) : nat := length (filter (fun e => P e = true) (entries rel)).

Definition busy (e : reliable_entry) : bool := active e.
Definition free (e : reliable_entry) : bool := negb (active e).

Definition bit (b : bool) : nat := if b then 1 else 0.

Definition measure (server : bool) (ks : key_state) : nat :=
  2 * steps_left server (ks_state ks) + count busy (ks_rec_reliable ks) + count free (ks_send_reliable ks)
  + bit (len (ks_plaintext_read_buf ks) =? 0) + bit (negb (len (ks_plaintext_write_buf ks) =? 0)).

(** Replacing an entry. *)
Lemma count_set P rel k e e' :
  entries rel !! k = Some e -> (count P (set_entry rel k e') + bit (P e) = count P rel + bit (P e'))%nat.
Proof.
  intros Hk. unfold count. rewrite entries_set_entry.
  rewrite insert_take_drop by (by eapply lookup_lt_Some). rewrite <- (take_drop_middle (entries rel) k e Hk) at 3.
  rewrite !filter_app, !length_app, !filter_cons.
  destruct (P e) eqn:E1, (P e') eqn:E2; repeat case_decide; try done; cbn [length bit]; lia.
Qed.

Lemma count_set_packet_id P rel pid : count P (set_packet_id rel pid) = count P rel.
Proof. done. Qed.

Lemma get_buf_count rel rel' r :
  reliable_get_buf rel = Ret (rel', r) ->
  count free rel' = count free rel /\ match r with Some k => exists e, entries rel' !! k = Some e /\ active e = false | None => True end.
Proof.
  unfold reliable_get_buf. destruct (list_find _ (entries rel)) as [[k e]|] eqn:E; [|by intros [= <- <-]].
  apply list_find_Some in E as (Hk & Ha & _). apply Is_true_true, negb_true_iff in Ha.
  destruct (buf_init (buf e) (rel_offset rel)) as [b ok]. intros H. ret_inv.
  pose proof (count_set free rel k e (set_buf e b) Hk) as Hc. unfold free in Hc at 2 4. cbn [active set_buf] in Hc. split; [lia|].
  exists (set_buf e b). split; [|done]. rewrite entries_set_entry. apply list_lookup_insert_eq. by eapply lookup_lt_Some.
Qed.

Lemma get_buf_output_count rel rel' r :
  reliable_get_buf_output_sequenced rel = Ret (rel', r) ->
  count free rel' = count free rel /\ match r with Some k => exists e, entries rel' !! k = Some e /\ active e = false | None => True end.
Proof.
  unfold reliable_get_buf_output_sequenced. destruct (min_active_id _ _); [|apply get_buf_count].
  destruct (reliable_pid_in_range1 _ _ _); [apply get_buf_count|by intros [= <- <-]].
Qed.

Lemma mark_outgoing_count rel k op rel' e :
  entries rel !! k = Some e -> active e = false -> reliable_mark_active_outgoing rel k op = Ret rel' ->
  (count free rel' < count free rel)%nat.
Proof.
  intros Hk Ha. unfold reliable_mark_active_outgoing. rewrite Hk. intros H. ret_inv.
  rewrite count_set_packet_id. match goal with |- (count free (set_entry rel k ?e') < _)%nat => pose proof (count_set free rel k e e' Hk) as Hc end.
  unfold free in Hc at 2 4. rewrite Ha in Hc. cbn [active negb bit] in Hc. lia.
Qed.

(** ** The steps of a round on the reliability layer *)

(** The reliability objects of a peer, measured. *)
Definition rel_measure (p : peer) : nat := count busy (rec_reliable p) + count free (send_reliable p).

(** Queueing or delivering a packet is progress. *)
Definition progress (o : output) : nat := match o with Queued _ | Delivered _ => 1 | _ => 0 end.

Lemma queue_initial_measure op p p' o :
  tls_queue_initial op p = Ret (p', o) -> (rel_measure p' + progress o <= rel_measure p)%nat.
Proof.
  unfold tls_queue_initial, rel_measure. intros H. ret_inv.
  match goal with H : reliable_get_buf_output_sequenced _ = _ |- _ => apply get_buf_output_count in H as [Hc Hr] end.
  destruct o0 as [k|]; ret_inv; cbn [rec_reliable send_reliable ControlChannel.set_send progress]; [|lia].
  destruct Hr as (e & Hk & Ha). pose proof (mark_outgoing_count _ _ _ _ _ Hk Ha H0). lia.
Qed.

Lemma queue_ciphertext_measure BIO_read maxlen p p' o :
  tls_queue_ciphertext BIO_read maxlen p = Ret (p', o) -> (rel_measure p' + progress o <= rel_measure p)%nat.
Proof.
  unfold tls_queue_ciphertext, rel_measure. intros H. ret_inv.
  match goal with H : reliable_get_buf_output_sequenced _ = _ |- _ => apply get_buf_output_count in H as [Hc Hr] end.
  destruct o0 as [k|]; ret_inv; [|cbn; lia].
  destruct Hr as (e & Hk & Ha). rewrite Hk in H. ret_inv.
  pose proof (count_set free r k e (set_buf e b) Hk) as Hs. unfold free in Hs at 2 4. cbn [active set_buf] in Hs.
  destruct (z =? -1); [ret_inv; cbn; lia|]. destruct (z =? 1); ret_inv; [|cbn; lia].
  cbn [rec_reliable send_reliable ControlChannel.set_send progress].
  match goal with H : reliable_mark_active_outgoing _ k _ = _ |- _ =>
    apply (mark_outgoing_count _ _ _ _ (set_buf e b)) in H; [lia| |done] end.
  rewrite entries_set_entry. apply list_lookup_insert_eq. by eapply lookup_lt_Some.
Qed.

Lemma deliver_measure BIO_write p p' o :
  tls_deliver BIO_write p = Ret (p', o) -> (rel_measure p' + progress o <= rel_measure p)%nat.
Proof.
  unfold tls_deliver, rel_measure. destruct (reliable_get_buf_sequenced (rec_reliable p)) as [k|] eqn:E; intros H; [|ret_inv; cbn; lia].
  unfold reliable_get_buf_sequenced, find_entry in E. apply fmap_Some in E as ([k' e] & E & ->). cbn [fst] in *.
  apply list_find_Some in E as (Hk & Ha & _). apply Is_true_true, andb_prop in Ha as [Ha _]. rewrite Hk in H. ret_inv.
  pose proof (count_set busy (rec_reliable p) k' e (set_buf e b) Hk) as Hs. unfold busy in Hs at 2 4. cbn [active set_buf] in Hs.
  destruct (z =? -1); [ret_inv; cbn; lia|]. destruct (z =? 1); ret_inv; [|cbn; lia].
  cbn [rec_reliable send_reliable set_rec_rel progress].
  match goal with H : reliable_mark_deleted _ _ _ = _ |- _ => revert H end. unfold reliable_mark_deleted.
  rewrite entries_set_entry, list_lookup_insert_eq by (by eapply lookup_lt_Some). intros [= <-]. rewrite count_set_packet_id.
  assert (Hk' : entries (set_entry (rec_reliable p) k' (set_buf e b)) !! k' = Some (set_buf e b)).
  { rewrite entries_set_entry. apply list_lookup_insert_eq. by eapply lookup_lt_Some. }
  pose proof (count_set busy _ k' _ (set_active (set_buf e b) false) Hk') as Hd. unfold busy in Hd at 2 4.
  cbn [active set_buf set_active bit] in Hd. rewrite Ha in Hd. cbn [bit] in Hd. lia.
Qed.

(** ** The steps of a round *)

(** A key exchange step moves the reliability objects, the state and the role not at
    all. *)
Definition moves (k : key_state) : Z * reliable * reliable := (ks_state k, ks_send_reliable k, ks_rec_reliable k).

Lemma frame_moves i m m' :
  kx_frame i m m' -> moves (m_key m' (prim i)) = moves (m_key m (prim i)) /\ o_server (m_opt m') = o_server (m_opt m).
Proof.
  intros [Ho _ Hk _]. split.
  - apply (f_equal moves) in Hk. exact Hk.
  - apply (f_equal o_server) in Ho. exact Ho.
Qed.

Lemma measure_moves server k k' :
  moves k' = moves k -> (measure server k' + bit (len (ks_plaintext_read_buf k) =? 0)%Z + bit (negb (len (ks_plaintext_write_buf k) =? 0)%Z)
    = measure server k + bit (len (ks_plaintext_read_buf k') =? 0)%Z + bit (negb (len (ks_plaintext_write_buf k') =? 0)%Z))%nat.
Proof. unfold moves, measure. intros [= -> -> ->]. lia. Qed.

Lemma measure_state server k st :
  (measure server (k <| ks_state := st |>) + 2 * steps_left server (ks_state k) = measure server k + 2 * steps_left server st)%nat.
Proof. unfold measure. cbn. lia. Qed.

Lemma measure_peer server opt s k q :
  (measure server (put_peer k q) + rel_measure (peer_of opt s k) = measure server k + rel_measure q)%nat.
Proof. unfold measure, rel_measure, put_peer, peer_of. cbn. lia. Qed.

Section Round.
Context (md5 sha1 : list Z -> hmac_ctx) (env : round_env) (i : tm_index).

Definition potential (p : pstate) : nat := measure (o_server (p_opt p)) (p_ks i p) + bit (p_change p).

(** A step that goes on keeps the role and does not add to what is left; asking for
    another round counts. *)
Definition descends (p : pstate) (r : step_out) : Prop :=
  match r with
  | Go p' => o_server (p_opt p') = o_server (p_opt p) /\ (potential p' <= potential p)%nat
  | Err _ => True
  end.

Lemma bit_le b : (bit b <= 1)%nat.
Proof. destruct b; cbn; lia. Qed.

Lemma descends_refl p : descends p (Go p).
Proof. split; [done|lia]. Qed.

Lemma p_ks_set p k : p_ks i (set_ks i p k) = k.
Proof. apply m_key_set_key. Qed.

Lemma p_opt_set p k : p_opt (set_ks i p k) = p_opt p.
Proof. apply m_opt_set_key. Qed.

(** Replacing the key, with and without asking for another round. *)
Lemma descends_set p k :
  (measure (o_server (p_opt p)) k <= measure (o_server (p_opt p)) (p_ks i p))%nat -> descends p (Go (set_ks i p k)).
Proof. intros H. split; [by rewrite p_opt_set|]. unfold potential. rewrite p_opt_set, p_ks_set. change (p_change (set_ks i p k)) with (p_change p). lia. Qed.

Lemma descends_changed p p' :
  o_server (p_opt p') = o_server (p_opt p) ->
  (measure (o_server (p_opt p)) (p_ks i p') < measure (o_server (p_opt p)) (p_ks i p))%nat ->
  descends p (Go (changed p')).
Proof.
  intros Ho H. split; [done|]. unfold potential. change (p_opt (changed p')) with (p_opt p'). rewrite Ho.
  change (p_ks i (changed p')) with (p_ks i p'). change (bit (p_change (changed p'))) with 1%nat. lia.
Qed.

Lemma descends_changed_set p k :
  (measure (o_server (p_opt p)) k < measure (o_server (p_opt p)) (p_ks i p))%nat -> descends p (Go (changed (set_ks i p k))).
Proof. intros H. apply descends_changed; [by rewrite p_opt_set|]. by rewrite p_ks_set. Qed.

Lemma descends_info p p' info : descends p (Go p') -> descends p (Go (p' <| p_info := info |>)).
Proof. done. Qed.

Lemma descends_wakeup p p' w : descends p (Go p') -> descends p (Go (p' <| p_wakeup := w |>)).
Proof. done. Qed.

Lemma initial_descends p r : step_initial env i p = Ret r -> descends p r.
Proof.
  unfold step_initial. destruct (ks_state (p_ks i p) =? S_INITIAL) eqn:E; intros H; ret_inv; [|apply descends_refl].
  match goal with H : tls_queue_initial _ _ = Ret (?q, ?o) |- _ => apply queue_initial_measure in H;
    pose proof (measure_peer (o_server (p_opt p)) (p_opt p) (p_session i p) (p_ks i p) q) end.
  unfold p_peer in *. destruct o; ret_inv; cbn [progress] in *; try (apply descends_set; lia).
  apply descends_changed_set. apply Z.eqb_eq in E.
  generalize dependent (p_session i p). generalize dependent (p_ks i p). intros k E s Hm Hq.
  unfold measure in *. cbn in *. rewrite E in *. cbn in *. lia.
Qed.

Lemma timeout_descends p r : step_timeout env i p = Ret r -> descends p r.
Proof.
  unfold step_timeout. destruct (_ <=? _); [|intros [= <-]; apply descends_refl].
  destruct (_ <? _) eqn:E; intros [= <-]; [done|]. apply descends_set. generalize (p_ks i p). intros k. unfold measure. cbn. lia.
Qed.

Lemma pre_start_descends p r : step_pre_start i p = Ret r -> descends p r.
Proof.
  unfold step_pre_start. destruct (ks_state (p_ks i p) =? S_PRE_START) eqn:E; cbn [andb]; [|intros [= <-]; apply descends_refl].
  destruct (FULL_SYNC _); intros [= <-]; [|apply descends_refl]. apply descends_changed_set.
  apply Z.eqb_eq in E. generalize dependent (p_ks i p). intros k E. unfold measure. cbn. rewrite E. cbn. lia.
Qed.

Lemma wait_ack_descends p r : step_wait_ack env i p = Ret r -> descends p r.
Proof.
  unfold step_wait_ack. destruct (_ && _) eqn:E; intros H; ret_inv; [|apply descends_refl].
  apply andb_prop in E as [E _].
  match goal with |- descends p (Go (changed (update _ (fun _ => ?x) ?p'))) => apply (descends_info p (changed p') x) end.
  apply descends_changed_set. generalize dependent (p_ks i p). intros k E. unfold measure. cbn.
  apply orb_prop in E as [E|E]; apply andb_prop in E as [E1 E2]; apply Z.eqb_eq in E1; rewrite E1;
    destruct (o_server (p_opt p)); try discriminate; cbn; lia.
Qed.

Lemma deliver_descends p r : step_deliver env i p = Ret r -> descends p r.
Proof.
  unfold step_deliver. intros H. ret_inv.
  match goal with H : tls_deliver _ _ = Ret (?q, ?o) |- _ => apply deliver_measure in H;
    pose proof (measure_peer (o_server (p_opt p)) (p_opt p) (p_session i p) (p_ks i p) q) end.
  unfold p_peer in *. destruct o; ret_inv; cbn [progress] in *; try done;
    solve [apply descends_set; lia | apply descends_changed_set; lia].
Qed.

Lemma queue_ciphertext_descends p r : step_queue_ciphertext env i p = Ret r -> descends p r.
Proof.
  unfold step_queue_ciphertext. destruct (_ <=? _); intros H; ret_inv; [|apply descends_refl].
  match goal with H : tls_queue_ciphertext _ _ _ = Ret (?q, ?o) |- _ => apply queue_ciphertext_measure in H;
    pose proof (measure_peer (o_server (p_opt p)) (p_opt p) (p_session i p) (p_ks i p) q) end.
  unfold p_peer in *. destruct o; ret_inv; cbn [progress] in *; try done;
    solve [apply descends_set; lia | apply descends_changed_set; lia].
Qed.

(** Storing a session whose primary key is [k]. *)
Lemma p_ks_session p c k :
  p_ks i (p <| p_multi := m_set_session (p_multi p) i (set_cert (p_session i p) c <| s_key0 := k |>) |>) = k.
Proof. unfold p_ks. by destruct p as [m], m, i. Qed.

Lemma p_opt_session p s : p_opt (p <| p_multi := m_set_session (p_multi p) i s |>) = p_opt p.
Proof. unfold p_opt. by destruct p as [m], m, i. Qed.

Lemma descends_key p p' :
  p_opt p' = p_opt p -> p_change p' = p_change p ->
  (measure (o_server (p_opt p)) (p_ks i p') <= measure (o_server (p_opt p)) (p_ks i p))%nat -> descends p (Go p').
Proof. intros Ho Hc H. split; [by rewrite Ho|]. unfold potential. rewrite Ho, Hc. lia. Qed.

(** What the status 1 says of the buffer. *)
Lemma bio_read_one BIO_read b maxlen b' z : bio_read BIO_read b maxlen = Ret (b', z) -> z = 1 -> len b' <> 0.
Proof.
  unfold bio_read. intros H ->. ret_inv. destruct (negb _); [by ret_inv|].
  destruct (BIO_read _) as [[|y l]|[]]; try by ret_inv. destruct (buf_bptr _); [|done]. ret_inv. cbn [len set_len]. unfold zlen. cbn [length]. lia.
Qed.

Lemma write_plaintext_one BIO_write b b' z : key_state_write_plaintext BIO_write b = Ret (b', z) -> z = 1 -> len b' = 0.
Proof.
  unfold key_state_write_plaintext, bio_write_post. intros H Hz. ret_inv. rewrite Hz in *. cbn in *.
  destruct (buf_bptr _); [|done]. by ret_inv.
Qed.

Lemma read_plaintext_descends p r : step_read_plaintext env i p = Ret r -> descends p r.
Proof.
  unfold step_read_plaintext. destruct (len (ks_plaintext_read_buf (p_ks i p)) =? 0) eqn:E; [|intros [= <-]; apply descends_refl].
  destruct (buf_init _ _) as [b ok]. intros H. ret_inv.
  match goal with H : bio_read _ _ _ = Ret (?b, ?z) |- _ => rename H into Hr;
    assert (Hz : z = 1 -> len b <> 0) end.
  { by eapply bio_read_one. }
  match goal with H : (if ?c then _ else _) = Ret r |- _ => revert H end.
  set (p' := p <| p_multi := _ |>).
  assert (Ho : p_opt p' = p_opt p) by apply p_opt_session.
  assert (Hk : p_ks i p' = p_ks i p <| ks_plaintext_read_buf := b0 |>) by apply p_ks_session.
  assert (Hc : p_change p' = p_change p) by done. clearbody p'.
  destruct (_ =? -1); [by intros [= <-]|]. destruct (z =? 1) eqn:Ez; intros [= <-].
  - apply (descends_wakeup p (changed p') 0). apply (descends_changed p p'); [exact (f_equal o_server Ho)|]. rewrite Hk.
    apply Z.eqb_eq in Ez. specialize (Hz Ez). apply Z.eqb_neq in Hz.
    clear -E Hz. generalize dependent (p_ks i p). intros k E. unfold measure. cbn. rewrite E, Hz. cbn. lia.
  - apply descends_key; [done..|]. rewrite Hk. clear -E. generalize dependent (p_ks i p). intros k E. unfold measure. cbn.
    rewrite E. pose proof (bit_le (len b0 =? 0)). cbn [bit] in *. lia.
Qed.

Lemma write_plaintext_descends p r : step_write_plaintext env i p = Ret r -> descends p r.
Proof.
  unfold step_write_plaintext. destruct (len (ks_plaintext_write_buf (p_ks i p)) =? 0) eqn:E; cbn [negb]; [intros [= <-]; apply descends_refl|].
  intros H. ret_inv.
  match goal with H : key_state_write_plaintext _ _ = Ret (?b, ?z) |- _ => rename H into Hr;
    assert (Hz : z = 1 -> len b = 0) end.
  { by eapply write_plaintext_one. }
  match goal with H : (if ?c then _ else _) = Ret r |- _ => revert H end.
  set (p' := p <| p_multi := _ |>).
  assert (Ho : p_opt p' = p_opt p) by apply p_opt_session.
  assert (Hk : p_ks i p' = p_ks i p <| ks_plaintext_write_buf := b |>) by apply p_ks_session.
  assert (Hc : p_change p' = p_change p) by done. clearbody p'.
  destruct (_ =? -1); [by intros [= <-]|]. destruct (z =? 1) eqn:Ez; intros [= <-].
  - apply (descends_changed p p'); [exact (f_equal o_server Ho)|]. rewrite Hk.
    apply Z.eqb_eq in Ez. specialize (Hz Ez). apply Z.eqb_eq in Hz.
    clear -E Hz. generalize dependent (p_ks i p). intros k E. unfold measure. cbn. rewrite E, Hz. cbn. lia.
  - apply descends_key; [done..|]. rewrite Hk. clear -E. generalize dependent (p_ks i p). intros k E. unfold measure. cbn.
    rewrite E. pose proof (bit_le (negb (len b =? 0))). cbn [bit negb] in *. lia.
Qed.

(** A key exchange step takes a state off and fills at most one buffer. *)
Lemma key_step_descends p st m ok r :
  kx_frame i (p_multi p) m ->
  (steps_left (o_server (p_opt p)) st < steps_left (o_server (p_opt p)) (ks_state (p_ks i p)))%nat ->
  (bit (len (ks_plaintext_read_buf (m_key m (prim i))) =? 0)%Z + bit (negb (len (ks_plaintext_write_buf (m_key m (prim i))) =? 0)%Z)
   <= 1 + bit (len (ks_plaintext_read_buf (p_ks i p)) =? 0)%Z + bit (negb (len (ks_plaintext_write_buf (p_ks i p)) =? 0)%Z))%nat ->
  key_step i p st (Ret (m, ok)) = Ret r -> descends p r.
Proof.
  intros Hf Hs Hb. unfold key_step. cbn [mbind outcome_mbind]. destruct ok; cbn [negb]; intros [= <-]; [|done].
  apply frame_moves in Hf as [Hm Ho]. pose proof (measure_moves (o_server (p_opt p)) _ _ Hm) as Hmm.
  apply descends_changed; [by rewrite p_opt_set|]. rewrite p_ks_set.
  change (p_ks i (p <| p_multi := m |>)) with (m_key m (prim i)).
  pose proof (measure_state (o_server (p_opt p)) (m_key m (prim i)) st) as Hst.
  assert (Hks : ks_state (m_key m (prim i)) = ks_state (p_ks i p)) by (exact (f_equal (fun x => x.1.1) Hm)).
  rewrite Hks in Hst. change (m_key (p_multi p) (prim i)) with (p_ks i p) in Hmm. lia.
Qed.

Lemma send_key_descends p r : step_send_key md5 sha1 env i p = Ret r -> descends p r.
Proof.
  unfold step_send_key. destruct (len (ks_plaintext_write_buf (p_ks i p)) =? 0) eqn:E; cbn [andb];
    [|intros [= <-]; apply descends_refl].
  destruct (_ || _) eqn:Es; [|intros [= <-]; apply descends_refl].
  assert (Hs : (steps_left (o_server (p_opt p)) S_SENT_KEY < steps_left (o_server (p_opt p)) (ks_state (p_ks i p)))%nat).
  { apply orb_prop in Es as [Es|Es]; apply andb_prop in Es as [->%Z.eqb_eq Es]; destruct (o_server (p_opt p)); done || (cbn; lia). }
  assert (Hgo : forall m ok, kx_step ks_plaintext_read_buf i (p_multi p) m ->
    key_step i p S_SENT_KEY (Ret (m, ok)) = Ret r -> descends p r).
  { intros m ok [Hf Hb]. apply key_step_descends; [done..|]. rewrite Hb, E. change (m_key (p_multi p) (prim i)) with (p_ks i p).
    pose proof (bit_le (negb (len (ks_plaintext_write_buf (m_key m (prim i))) =? 0)%Z)). lia. }
  destruct (_ =? 1); [|destruct (_ =? 2); [|done]].
  - destruct (key_method_1_write _ _ _) as [[m ok]| |] eqn:Ew; try done. apply Hgo. by eapply step_key_method_1_write.
  - destruct (key_method_2_write _ _ _ _ _) as [[m ok]| |] eqn:Ew; try done. apply Hgo. by eapply step_key_method_2_write.
Qed.

Lemma receive_key_descends p r : step_receive_key md5 sha1 env i p = Ret r -> descends p r.
Proof.
  unfold step_receive_key. destruct (len (ks_plaintext_read_buf (p_ks i p)) =? 0) eqn:E; cbn [andb negb];
    [intros [= <-]; apply descends_refl|].
  destruct (_ || _) eqn:Es; [|intros [= <-]; apply descends_refl].
  assert (Hs : (steps_left (o_server (p_opt p)) S_GOT_KEY < steps_left (o_server (p_opt p)) (ks_state (p_ks i p)))%nat).
  { apply orb_prop in Es as [Es|Es]; apply andb_prop in Es as [->%Z.eqb_eq Es]; destruct (o_server (p_opt p)); done || (cbn; lia). }
  assert (Hgo : forall m ok, kx_step ks_plaintext_write_buf i (p_multi p) m ->
    key_step i p S_GOT_KEY (Ret (m, ok)) = Ret r -> descends p r).
  { intros m ok [Hf Hb]. apply key_step_descends; [done..|]. rewrite Hb, E. change (m_key (p_multi p) (prim i)) with (p_ks i p).
    pose proof (bit_le (len (ks_plaintext_read_buf (m_key m (prim i))) =? 0)%Z). cbn [bit]. lia. }
  destruct (_ =? 1); [|destruct (_ =? 2); [|done]].
  - destruct (key_method_1_read _ _) as [[m ok]| |] eqn:Ew; try done. apply Hgo. by eapply step_key_method_1_read.
  - destruct (key_method_2_read _ _ _ _ _) as [[m ok]| |] eqn:Ew; try done. apply Hgo. by eapply step_key_method_2_read.
Qed.

Lemma run_steps_descends steps p r :
  Forall (fun f => forall p r, f p = Ret r -> descends p r) steps -> run_steps steps p = Ret r -> descends p r.
Proof.
  intros Hall. revert p. induction Hall as [|f steps Hf _ IH]; intros p H; cbn [run_steps] in H.
  { ret_inv. apply descends_refl. }
  ret_inv. match goal with Hp : f p = Ret ?x |- _ => apply Hf in Hp; destruct x as [p1|p1] end; [|by ret_inv].
  match goal with Hr : run_steps _ _ = _ |- _ => apply IH in Hr end. destruct r as [p2|]; [|done].
  cbn [descends] in *. split; [|lia]. naive_solver congruence.
Qed.

(** A round that asks for another has taken something off. *)
Lemma round_descends to_link p p' :
  tls_round md5 sha1 env i to_link p = Ret (RoundEnd p') -> p_change p' = true ->
  o_server (p_opt p') = o_server (p_opt p) /\
  (measure (o_server (p_opt p')) (p_ks i p') < measure (o_server (p_opt p)) (p_ks i p))%nat.
Proof.
  unfold tls_round. intros H Hc. ret_inv.
  match goal with Hr : run_steps _ _ = Ret ?x |- _ => apply run_steps_descends in Hr; [|repeat constructor;
    auto using initial_descends, timeout_descends, pre_start_descends, wait_ack_descends]; rename Hr into H1; destruct x as [p1|] end;
    [|by ret_inv].
  destruct (_ && _); [by ret_inv|]. ret_inv.
  match goal with Hr : run_steps _ _ = Ret ?x |- _ => apply run_steps_descends in Hr; [|repeat constructor;
    auto using deliver_descends, read_plaintext_descends, send_key_descends, receive_key_descends, write_plaintext_descends,
      queue_ciphertext_descends]; rename Hr into H2; destruct x as [p2|] end; [|done]. ret_inv.
  destruct H1 as [E1 L1], H2 as [E2 L2]. change (o_server (p_opt (p <| p_change := false |>))) with (o_server (p_opt p)) in E1.
  split; [congruence|]. unfold potential in *. rewrite Hc in L2. cbn [bit] in L2.
  change (p_opt (p <| p_change := false |>)) with (p_opt p) in L1. change (p_ks i (p <| p_change := false |>)) with (p_ks i p) in L1.
  change (bit (p_change (p <| p_change := false |>))) with 0%nat in L1. lia.
Qed.

End Round.

(** ** The loop *)

Section Loop.
Context (md5 sha1 : list Z -> hmac_ctx).

Lemma loop_ends fuel rounds n i to_link p :
  (measure (o_server (p_opt p)) (p_ks i p) < fuel)%nat -> tls_loop md5 sha1 fuel rounds n i to_link p <> Ret None.
Proof.
  revert n p. induction fuel as [|fuel IH]; intros n p Hm; [lia|]. cbn [tls_loop].
  destruct (tls_round md5 sha1 (rounds n) i to_link p) as [[p1|p1 out sent|p1]| |] eqn:E; try done. cbn [mbind outcome_mbind].
  destruct (p_change p1) eqn:Hc; [|done]. apply round_descends in E as [_ E]; [|done]. apply IH. lia.
Qed.

(** Keys as [key_state_init] makes them: the reliability objects have 4 and 8
    places. *)
Definition key_sized (k : key_state) : Prop := size (ks_send_reliable k) <= 4 /\ size (ks_rec_reliable k) <= 8.

Lemma count_le P rel n : size rel <= Z.of_nat n -> (count P rel <= n)%nat.
Proof.
  intros Hn. unfold count. etrans; [apply length_filter|]. unfold entries, ztake. rewrite length_take. lia.
Qed.

Lemma measure_le server k : key_sized k -> (measure server k <= 24)%nat.
Proof.
  intros [Hs Hr]. unfold measure. pose proof (count_le busy _ 8 Hr). pose proof (count_le free _ 4 Hs).
  assert (steps_left server (ks_state k) <= 5)%nat by (unfold steps_left; repeat case_match; lia).
  pose proof (bit_le (len (ks_plaintext_read_buf k) =? 0)). pose proof (bit_le (negb (len (ks_plaintext_write_buf k) =? 0))). lia.
Qed.

Lemma key_state_init_sized o s s' k : key_state_init o s = Ret (s', k) -> key_sized k.
Proof.
  unfold key_state_init. intros H. ret_inv.
  match goal with H : key_state_alloc_reliable _ _ _ _ _ _ = _ |- _ => revert H end.
  unfold key_state_alloc_reliable. intros H. ret_inv. unfold reliable_init in *. ret_inv. by cbn.
Qed.

(** What comes before the loop keeps the key or makes a new one. *)
Lemma start_sized now m i wakeup m' w :
  key_sized (m_key m (prim i)) -> tls_process_start now m i wakeup = Ret (m', w) -> key_sized (m_key m' (prim i)).
Proof.
  intros Hk. unfold tls_process_start. intros H. ret_inv.
  match goal with |- key_sized (m_key (m_set_session m i ?s) _) =>
    replace (m_key (m_set_session m i s) (prim i)) with (s_key0 s) by (by destruct m, i) end.
  match goal with H : (if _ then _ else _) = Ret ?s |- context [?s] => assert (key_sized (s_key0 s)) end.
  { destruct (renegotiate _ _ _); [|by ret_inv]. unfold key_state_soft_reset in *. ret_inv.
    match goal with H : key_state_init _ _ = _ |- _ => apply key_state_init_sized in H end. done. }
  by destruct b.
Qed.

Lemma process_ends env m i info to_link wakeup :
  key_sized (m_key m (prim i)) -> tls_process md5 sha1 TLS_PROCESS_FUEL env m i info to_link wakeup <> Ret None.
Proof.
  intros Hk. unfold tls_process. destruct (tls_process_start _ _ _ _) as [[m1 w]| |] eqn:E; try done. cbn [mbind outcome_mbind].
  apply start_sized in E; [|done]. pose proof (loop_ends TLS_PROCESS_FUEL (pe_rounds env) 0 i to_link (mkp m1 info w false)) as Hl.
  destruct (tls_loop _ _ _ _ _ _ _ _) as [[[]|]| |]; cbn [mbind outcome_mbind]; try done;
    repeat match goal with |- context [tls_process_finish ?a ?b ?c ?d ?e ?f] => destruct (tls_process_finish a b c d e f) end; try done.
  exfalso. apply Hl; [|done]. pose proof (measure_le (o_server (m_opt m1)) _ E). unfold TLS_PROCESS_FUEL. change (p_ks i (mkp m1 info w false)) with (m_key m1 (prim i)).
  change (p_opt (mkp m1 info w false)) with (m_opt m1). lia.
Qed.

End Loop.
