(* ===== verification/TlsInvariant.v ===== *)
(** * The tables of sessions and keys stay well formed

    What holds of a [tls_multi] whenever the event loop is not inside an operation,
    from [tls_multi_init_finalize] on: every state is one of the enumeration, the
    active session is under negotiation or open, key numbers have three bits, the two keys of a
    session have different numbers, a retiring key has a time to die, and the
    reliability objects have their sizes.  The assertions of [ssl.c] on the
    states of keys rest on it, and so does the bound on the rounds of [tls_process]. *)
From S2P Require Import Prelude Integer Buffer PacketId Reliable ControlChannel Mtu Crypto TlsWrap LinkAddr SslCommon.
From S2P Require Import Auth KeyExchange CryptoParams KeyExchangeSpec TlsSession TlsProcess TlsProcessSpec.

(** ** The sizes of the reliability objects *)

Lemma size_set_entry rel k e : size (set_entry rel k e) = size rel.
Proof. done. Qed.

Lemma get_buf_size rel rel' r : reliable_get_buf rel = Ret (rel', r) -> size rel' = size rel.
Proof.
  unfold reliable_get_buf. destruct (list_find _ _) as [[k e]|]; [|by intros [= <- _]].
  destruct (buf_init _ _). intros H. by ret_inv.
Qed.

Lemma get_buf_output_size rel rel' r : reliable_get_buf_output_sequenced rel = Ret (rel', r) -> size rel' = size rel.
Proof.
  unfold reliable_get_buf_output_sequenced. destruct (min_active_id _ _); [|apply get_buf_size].
  destruct (reliable_pid_in_range1 _ _ _); [apply get_buf_size|by intros [= <- _]].
Qed.

Lemma mark_outgoing_size rel k op rel' : reliable_mark_active_outgoing rel k op = Ret rel' -> size rel' = size rel.
Proof. unfold reliable_mark_active_outgoing. destruct (_ !! _); [|done]. intros H. by ret_inv. Qed.

Lemma mark_incoming_size rel k id op rel' : reliable_mark_active_incoming rel k id op = Ret rel' -> size rel' = size rel.
Proof. unfold reliable_mark_active_incoming. destruct (_ !! _); [|done]. intros H. by ret_inv. Qed.

Lemma mark_deleted_size rel k b rel' : reliable_mark_deleted rel k b = Ret rel' -> size rel' = size rel.
Proof. unfold reliable_mark_deleted. destruct (_ !! _); [|done]. intros [= <-]. by destruct b. Qed.

Lemma send_purge_size rel ack : size (reliable_send_purge rel ack) = size rel.
Proof.
  unfold reliable_send_purge. revert rel. induction ack as [|pid ack IH]; intros rel; [done|]. cbn [fold_left]. rewrite IH.
  unfold purge_one. by destruct (list_find _ _) as [[k e]|].
Qed.

Lemma schedule_now_size now rel : size (reliable_schedule_now now rel) = size rel.
Proof. done. Qed.

Lemma reliable_send_size now rel : size (reliable_send now rel).1 = size rel.
Proof. unfold reliable_send. by destruct (reliable_send_best _ _ _ _) as [[k e]|]. Qed.

(** The sizes of both objects of a peer. *)
Definition sizes (p : peer) : Z * Z := (size (send_reliable p), size (rec_reliable p)).

Ltac size_facts :=
  repeat match goal with
  | H : reliable_get_buf _ = _ |- _ => apply get_buf_size in H
  | H : reliable_get_buf_output_sequenced _ = _ |- _ => apply get_buf_output_size in H
  | H : reliable_mark_active_outgoing _ _ _ = _ |- _ => apply mark_outgoing_size in H
  | H : reliable_mark_active_incoming _ _ _ _ = _ |- _ => apply mark_incoming_size in H
  | H : reliable_mark_deleted _ _ _ = _ |- _ => apply mark_deleted_size in H
  end; rewrite ?size_set_entry, ?send_purge_size in *.

Ltac size_done := cbn [send_reliable rec_reliable ControlChannel.set_send set_rec_rel set_ack] in *; size_facts; congruence.

Lemma queue_initial_sizes op p p' o : tls_queue_initial op p = Ret (p', o) -> sizes p' = sizes p.
Proof.
  unfold tls_queue_initial, sizes. intros H. ret_inv. destruct o0; ret_inv; size_done.
Qed.

Lemma queue_ciphertext_sizes BIO_read maxlen p p' o : tls_queue_ciphertext BIO_read maxlen p = Ret (p', o) -> sizes p' = sizes p.
Proof.
  unfold tls_queue_ciphertext, sizes. intros H. ret_inv. destruct o0; ret_inv; [|size_done].
  destruct (_ !! _); [|done]. ret_inv. destruct (_ =? -1); [|destruct (_ =? 1)]; ret_inv; size_done.
Qed.

Lemma deliver_sizes BIO_write p p' o : tls_deliver BIO_write p = Ret (p', o) -> sizes p' = sizes p.
Proof.
  unfold tls_deliver, sizes. destruct (reliable_get_buf_sequenced _); [|by intros [= <- _]].
  destruct (_ !! _); [|done]. intros H. ret_inv. destruct (_ =? -1); [|destruct (_ =? 1)]; ret_inv; size_done.
Qed.

Lemma receive_sizes pkt p p' o : tls_receive pkt p = Ret (p', o) -> sizes p' = sizes p.
Proof.
  unfold tls_receive, sizes. destruct pkt as [op bytes]. intros H. ret_inv.
  destruct (negb _); [by ret_inv|]. destruct (_ && _); [|ret_inv; size_done]. ret_inv.
  destruct o0 as [id|]; [|ret_inv; size_done].
  destruct (reliable_wont_break_sequentiality _ _); [|ret_inv; size_done].
  destruct (reliable_not_replay _ _); [|ret_inv; size_done]. ret_inv.
  destruct o0; [|done]. destruct (_ !! _); [|done]. ret_inv. destruct (negb _); ret_inv; size_done.
Qed.

(** ** What a step of the handshake leaves alone *)

Definition key_tag (m1 : bool) (k : key_state) : Z * Z * (Z * Z) * bool * list Z :=
  (ks_key_id k, ks_must_die k, (size (ks_send_reliable k), size (ks_rec_reliable k)), m1 && kb_initialized (ks_keys k),
   ks_session_id_remote k).

(** The keys are negotiated by the first method. *)
Definition method_1 (m : tls_multi) : bool := o_key_method (m_opt m) =? 1.

Definition session_tag (s : tls_session) : list Z * Z := (s_session_id s, s_key_id s).

(** A key under negotiation or established. *)
Definition live (st : Z) : Prop := S_INITIAL <= st <= S_NORMAL_OP.

Record step_frame (i : tm_index) (m m' : tls_multi) : Prop := {
  sf_opt : options_rest (m_opt m') = options_rest (m_opt m);
  sf_session j : session_tag (m_session m' j) = session_tag (m_session m j);
  sf_tag ij : key_tag (method_1 m) (m_key m' ij) = key_tag (method_1 m) (m_key m ij);
  sf_state ij : ij <> prim i -> ks_state (m_key m' ij) = ks_state (m_key m ij);
  sf_live : live (ks_state (m_key m (prim i))) -> live (ks_state (m_key m' (prim i)))
}.

Lemma options_method m m' : options_rest (m_opt m') = options_rest (m_opt m) -> method_1 m' = method_1 m.
Proof. intros H. apply (f_equal (fun o => o_key_method o =? 1)) in H. exact H. Qed.

#[export] Instance step_frame_refl i : Reflexive (step_frame i).
Proof. by intros m; split. Qed.

#[export] Instance step_frame_trans i : Transitive (step_frame i).
Proof.
  intros m1 m2 m3 [H1 H2 H3 H4 H5] [K1 K2 K3 K4 K5]. rewrite (options_method _ _ H1) in K3. split; [congruence|..|auto].
  - intros j. by rewrite K2.
  - intros ij. by rewrite K3.
  - intros ij Hij. by rewrite K4, H4.
Qed.

(** A new primary key of the session, with the rest of the session. *)
Lemma sf_set_session i m s :
  session_tag s = session_tag (m_session m i) -> s_key1 s = s_key1 (m_session m i) ->
  key_tag (method_1 m) (s_key0 s) = key_tag (method_1 m) (m_key m (prim i)) ->
  (live (ks_state (m_key m (prim i))) -> live (ks_state (s_key0 s))) ->
  step_frame i m (m_set_session m i s).
Proof.
  intros Ht H1 H0 Hl.
  assert (Hk : m_key (m_set_session m i s) (prim i) = s_key0 s) by (by destruct m, i).
  split.
  - by rewrite m_opt_set_session.
  - intros j. rewrite m_session_set. by case_decide as Hj; [rewrite Hj|].
  - intros [j j']. unfold m_key at 1. cbn [fst snd]. rewrite m_session_set. case_decide as Hj; [|done]. rewrite Hj.
    destruct j'; [exact H0|]. cbn [s_key]. rewrite H1. by destruct m, i.
  - intros [j j'] Hij. unfold m_key at 1. cbn [fst snd]. rewrite m_session_set. case_decide as Hj; [|done]. rewrite Hj in *.
    destruct j'; [by destruct Hij|]. cbn [s_key]. rewrite H1. by destruct m, i.
  - by rewrite Hk.
Qed.

Lemma sf_set_key i m k :
  key_tag (method_1 m) k = key_tag (method_1 m) (m_key m (prim i)) -> (live (ks_state (m_key m (prim i))) -> live (ks_state k)) ->
  step_frame i m (m_set_key m (prim i) k).
Proof. intros Ht Hl. unfold m_set_key. apply sf_set_session; [done..| |]; done. Qed.

Lemma key_rest_tag b k k' :
  key_rest k' = key_rest k -> (b = true -> kb_initialized (ks_keys k') = kb_initialized (ks_keys k)) -> key_tag b k' = key_tag b k.
Proof.
  intros Hk Hb. unfold key_tag. apply (f_equal (fun k => (ks_key_id k, ks_must_die k, size (ks_send_reliable k),
    size (ks_rec_reliable k), ks_session_id_remote k))) in Hk. injection Hk as E1 E2 E3 E4 E5. cbn in E1, E2, E3, E4, E5.
  rewrite E1, E2, E3, E4, E5. destruct b; [by rewrite Hb|done].
Qed.

Lemma sf_frame i m m' :
  kx_frame i m m' ->
  (method_1 m = true -> kb_initialized (ks_keys (m_key m' (prim i))) = kb_initialized (ks_keys (m_key m (prim i)))) ->
  step_frame i m m'.
Proof.
  intros [Ho Hs Hk Hj] H1.
  assert (Hst : ks_state (m_key m' (prim i)) = ks_state (m_key m (prim i))) by (apply (f_equal ks_state) in Hk; exact Hk).
  split.
  - done.
  - intros j. specialize (Hs j). apply (f_equal session_tag) in Hs. exact Hs.
  - intros ij. destruct (decide (ij = prim i)) as [->|Hij].
    + by apply key_rest_tag.
    + by destruct (Hj ij Hij) as [->| ->].
  - intros ij Hij. by destruct (Hj ij Hij) as [->| ->].
  - by rewrite Hst.
Qed.

Lemma tag_put_peer k o s q : sizes q = sizes (peer_of o s k) -> forall b, key_tag b (put_peer k q) = key_tag b k.
Proof. unfold sizes, key_tag. cbn. by intros [= -> ->] b. Qed.

Section Steps.
Context (md5 sha1 : list Z -> hmac_ctx) (env : round_env) (i : tm_index).

Definition out_multi (r : step_out) : tls_multi := match r with Go p | Err p => p_multi p end.

Definition framed (f : pstate -> outcome step_out) : Prop :=
  forall p r, f p = Ret r -> step_frame i (p_multi p) (out_multi r).

(** The primary key gets a new peer, and maybe a new state. *)
Lemma sf_peer p q :
  sizes q = sizes (p_peer i p) -> step_frame i (p_multi p) (p_multi (set_ks i p (put_peer (p_ks i p) q))).
Proof. intros Hs. apply sf_set_key; [by eapply tag_put_peer|done]. Qed.

Lemma initial_framed : framed (step_initial env i).
Proof.
  intros p r. unfold step_initial. destruct (_ =? _); intros H; ret_inv; [|reflexivity].
  match goal with H : tls_queue_initial _ _ = _ |- _ => apply queue_initial_sizes in H as Hs end.
  destruct o; ret_inv; try by apply sf_peer. apply sf_set_key; [by eapply tag_put_peer|done].
Qed.

Lemma timeout_framed : framed (step_timeout env i).
Proof.
  intros p r. unfold step_timeout. destruct (_ <=? _); [destruct (_ <? _)|]; intros [= <-]; try reflexivity. by apply sf_set_key.
Qed.

Lemma pre_start_framed : framed (step_pre_start i).
Proof. intros p r. unfold step_pre_start. destruct (_ && _); intros [= <-]; [|reflexivity]. by apply sf_set_key. Qed.

Lemma wait_ack_framed : framed (step_wait_ack env i).
Proof.
  intros p r. unfold step_wait_ack. destruct (_ && _); intros H; ret_inv; [|reflexivity]. by apply (sf_set_key i (p_multi p)).
Qed.

Lemma deliver_framed : framed (step_deliver env i).
Proof.
  intros p r. unfold step_deliver. intros H. ret_inv.
  match goal with H : tls_deliver _ _ = _ |- _ => apply deliver_sizes in H as Hs end.
  destruct o; ret_inv; by apply sf_peer.
Qed.

Lemma queue_ciphertext_framed : framed (step_queue_ciphertext env i).
Proof.
  intros p r. unfold step_queue_ciphertext. destruct (_ <=? _); intros H; ret_inv; [|reflexivity].
  match goal with H : tls_queue_ciphertext _ _ _ = _ |- _ => apply queue_ciphertext_sizes in H as Hs end.
  destruct o; ret_inv; by apply sf_peer.
Qed.

Lemma sf_cert p c k :
  (forall b, key_tag b k = key_tag b (p_ks i p)) -> ks_state k = ks_state (p_ks i p) ->
  step_frame i (p_multi p) (m_set_session (p_multi p) i (set_cert (p_session i p) c <| s_key0 := k |>)).
Proof. intros Ht Hs. apply sf_set_session; [by destruct c..|apply Ht|]. cbn. by rewrite Hs. Qed.

Lemma read_plaintext_framed : framed (step_read_plaintext env i).
Proof.
  intros p r. unfold step_read_plaintext. destruct (_ =? _); [|by intros [= <-]]. destruct (buf_init _ _) as [b ok].
  intros H. ret_inv. destruct (_ =? -1); [|destruct (_ =? 1)]; ret_inv; by apply sf_cert.
Qed.

Lemma write_plaintext_framed : framed (step_write_plaintext env i).
Proof.
  intros p r. unfold step_write_plaintext. destruct (negb _); [|by intros [= <-]].
  intros H. ret_inv. destruct (_ =? -1); [|destruct (_ =? 1)]; ret_inv; by apply sf_cert.
Qed.

Lemma key_step_framed p st m ok r :
  kx_frame i (p_multi p) m ->
  (method_1 (p_multi p) = true -> kb_initialized (ks_keys (m_key m (prim i))) = kb_initialized (ks_keys (p_ks i p))) -> live st -> key_step i p st (Ret (m, ok)) = Ret r -> step_frame i (p_multi p) (out_multi r).
Proof.
  intros Hf Hi Hst. unfold key_step. cbn [mbind outcome_mbind]. apply sf_frame in Hf; [|done].
  destruct (negb ok); intros [= <-]; [done|]. etrans; [exact Hf|]. by apply (sf_set_key i m).
Qed.

Lemma method_1_write_keys kx m m' ok :
  key_method_1_write kx m i = Ret (m', ok) ->
  kb_initialized (ks_keys (m_key m' (prim i))) = kb_initialized (ks_keys (m_key m (prim i))).
Proof.
  unfold key_method_1_write. intros H. ret_inv. destruct (buf_init _ _) as [b0 ok0]. ret_inv.
  destruct (negb (check_key _ _)); ret_inv; [by destruct m, i|].
  match goal with H : (if negb ?b then _ else _) = _ |- _ => destruct b end; cbn [negb] in H; ret_inv; by destruct m, i.
Qed.

Lemma method_1_read_keys m m' ok :
  key_method_1_read m i = Ret (m', ok) ->
  kb_initialized (ks_keys (m_key m' (prim i))) = kb_initialized (ks_keys (m_key m (prim i))).
Proof.
  unfold key_method_1_read. intros H. ret_inv.
  destruct (negb (s_verified _)); ret_inv; [by destruct m, i|].
  destruct o as [kk|]; [|ret_inv; by destruct m, i]. destruct (negb _ || _); ret_inv; by destruct m, i.
Qed.

Lemma send_key_framed : framed (step_send_key md5 sha1 env i).
Proof.
  intros p r. unfold step_send_key. destruct (_ && _); [|by intros [= <-]].
  destruct (_ =? 1) eqn:E1; [|destruct (_ =? 2); [|done]].
  - destruct (key_method_1_write _ _ _) as [[m ok]| |] eqn:E; try done.
    apply key_step_framed; [by eapply step_key_method_1_write|intros _; by eapply method_1_write_keys|done].
  - destruct (key_method_2_write _ _ _ _ _) as [[m ok]| |] eqn:E; try done.
    apply key_step_framed; [by eapply step_key_method_2_write|intros Hm; exfalso; unfold method_1, p_opt in *; congruence|done].
Qed.

Lemma receive_key_framed : framed (step_receive_key md5 sha1 env i).
Proof.
  intros p r. unfold step_receive_key. destruct (_ && _); [|by intros [= <-]].
  destruct (_ =? 1) eqn:E1; [|destruct (_ =? 2); [|done]].
  - destruct (key_method_1_read _ _) as [[m ok]| |] eqn:E; try done.
    apply key_step_framed; [by eapply step_key_method_1_read|intros _; by eapply method_1_read_keys|done].
  - destruct (key_method_2_read _ _ _ _ _) as [[m ok]| |] eqn:E; try done.
    apply key_step_framed; [by eapply step_key_method_2_read|intros Hm; exfalso; unfold method_1, p_opt in *; congruence|done].
Qed.

Lemma run_steps_framed steps p r :
  Forall framed steps -> run_steps steps p = Ret r -> step_frame i (p_multi p) (out_multi r).
Proof.
  intros Hall. revert p. induction Hall as [|f steps Hf _ IH]; intros p H; cbn [run_steps] in H.
  { ret_inv. reflexivity. }
  ret_inv. match goal with Hp : f p = Ret ?x |- _ => apply Hf in Hp; destruct x as [p1|p1] end; [|by ret_inv].
  match goal with Hr : run_steps _ _ = _ |- _ => apply IH in Hr end. by etrans.
Qed.

Lemma send_reliable_framed p p' out sent : tls_send_reliable env i p = Ret (p', out, sent) -> step_frame i (p_multi p) (p_multi p').
Proof.
  unfold tls_send_reliable. pose proof (reliable_send_size (re_now env) (ks_send_reliable (p_ks i p))) as Hz.
  destruct (reliable_send _ _) as [rel [[k op]|]]; [|done]. destruct (_ !! _) as [e|]; [|done]. intros H. ret_inv.
  apply sf_set_session; [done..| |done]. unfold key_tag. cbn in Hz |- *. by rewrite Hz.
Qed.

End Steps.

Definition round_multi (r : round_out) : tls_multi :=
  match r with RoundErr p | RoundEnd p => p_multi p | RoundSend p _ _ => p_multi p end.

Section Frames.
Context (md5 sha1 : list Z -> hmac_ctx).

Lemma round_framed env i to_link p r :
  tls_round md5 sha1 env i to_link p = Ret r -> step_frame i (p_multi p) (round_multi r).
Proof.
  unfold tls_round. intros H. ret_inv.
  match goal with Hr : run_steps _ _ = Ret ?x |- _ => apply (run_steps_framed i) in Hr; [|repeat apply List.Forall_cons;
    auto using List.Forall_nil, initial_framed, timeout_framed, pre_start_framed, wait_ack_framed]; rename Hr into H1; destruct x as [p1|] end;
    [|by ret_inv].
  cbn [out_multi] in H1. change (p_multi (p <| p_change := false |>)) with (p_multi p) in H1.
  destruct (_ && _); ret_inv.
  - etrans; [exact H1|]. by eapply send_reliable_framed.
  - match goal with Hr : run_steps _ _ = Ret ?x |- _ => apply (run_steps_framed i) in Hr; [|repeat apply List.Forall_cons;
      auto using List.Forall_nil, deliver_framed, read_plaintext_framed, send_key_framed, receive_key_framed, write_plaintext_framed,
        queue_ciphertext_framed]; rename Hr into H2; destruct x as [p2|] end; ret_inv; by etrans.
Qed.

Lemma loop_framed fuel rounds n i to_link p r :
  tls_loop md5 sha1 fuel rounds n i to_link p = Ret (Some r) -> step_frame i (p_multi p) (round_multi r).
Proof.
  revert n p. induction fuel as [|fuel IH]; intros n p; cbn [tls_loop]; [done|]. intros H. ret_inv.
  match goal with H : tls_round _ _ _ _ _ _ = Ret ?x |- _ => apply round_framed in H; rename H into Hr; destruct x as [p1|p1 out sent|p1] end;
    [by ret_inv|by ret_inv|].
  destruct (p_change p1); [|by ret_inv]. apply IH in H. by etrans.
Qed.

Lemma finish_framed env i p to_link sent addr_set res :
  tls_process_finish env i p to_link sent addr_set = Ret res -> step_frame i (p_multi p) (pr_multi res).
Proof.
  unfold tls_process_finish. intros H. ret_inv. cbn [pr_multi].
  match goal with H : (if ?b then _ else _) = _ |- _ => destruct b end; ret_inv; [|reflexivity].
  unfold send_acks in *. destruct (buf_init _ _) as [b ok]. ret_inv. by apply sf_set_session.
Qed.

(** ** Sessions *)

(** With the first method no key is ever marked as set up ([m1]). *)
Record key_ok (m1 : bool) (k : key_state) : Prop := {
  ok_key_id : 0 <= ks_key_id k <= 7;
  ok_sized : key_sized k;
  ok_initialized : m1 && kb_initialized (ks_keys k) = false;
  ok_state : S_ERROR <= ks_state k <= S_NORMAL_OP
}.

Record session_ok (m1 : bool) (s : tls_session) : Prop := {
  so_key0 : key_ok m1 (s_key0 s);
  so_key1 : key_ok m1 (s_key1 s);
  so_key_id : 0 <= s_key_id s <= 7;
  so_sid : S_INITIAL <= ks_state (s_key0 s) -> session_id_defined (s_session_id s) = true;
  so_next : S_INITIAL <= ks_state (s_key0 s) -> s_key_id s = next_key_id (ks_key_id (s_key0 s));
  so_must_die : S_INITIAL <= ks_state (s_key1 s) -> ks_must_die (s_key1 s) <> 0;
  so_distinct : S_INITIAL <= ks_state (s_key1 s) -> ks_key_id (s_key1 s) <> ks_key_id (s_key0 s)
}.

Lemma key_ok_tag b k k' : key_tag b k' = key_tag b k -> S_ERROR <= ks_state k' <= S_NORMAL_OP -> key_ok b k -> key_ok b k'.
Proof. intros [= E1 E2 E3 E4 E5 E6] Hs [K1 [K2 K3] K4 K5]. split; [congruence|split; congruence|congruence|done]. Qed.

(** A session with the same tags, whose primary key is live or failed. *)
Lemma session_ok_tags b s s' :
  session_tag s' = session_tag s -> key_tag b (s_key0 s') = key_tag b (s_key0 s) -> key_tag b (s_key1 s') = key_tag b (s_key1 s) ->
  ks_state (s_key1 s') = ks_state (s_key1 s) ->
  ks_state (s_key0 s') = S_ERROR \/ ks_state (s_key0 s') = ks_state (s_key0 s) \/ live (ks_state (s_key0 s)) /\ live (ks_state (s_key0 s')) ->
  session_ok b s -> session_ok b s'.
Proof.
  intros Ht T0 T1 S1 Hst [K0 K1 K2 K3 K4 K5 K6]. pose proof K0 as [_ _ _ B0]. pose proof K1 as [_ _ _ B1].
  assert (Hl : S_INITIAL <= ks_state (s_key0 s') -> S_INITIAL <= ks_state (s_key0 s)).
  { destruct Hst as [->|[->|[[]]]]; [unfold S_INITIAL, S_ERROR; lia|lia|lia]. }
  injection Ht as E1 E2. pose proof T0 as [= E3 E4 E5 E6 E7 E8]. pose proof T1 as [= F3 F4 F5 F6 F7 F8]. split.
  - eapply key_ok_tag; [exact T0| |done]. destruct Hst as [->|[->|[_ []]]]; [done|done|].
    unfold S_INITIAL, S_ERROR in *. lia.
  - eapply key_ok_tag; [exact T1| |done]. by rewrite S1.
  - by rewrite E2.
  - rewrite E1. auto.
  - rewrite E2, E3. auto.
  - rewrite S1, F4. auto.
  - rewrite S1, F3, E3. auto.
Qed.

Lemma sf_session_ok i m m' j :
  step_frame i m m' -> live (ks_state (m_key m (prim i))) -> session_ok (method_1 m) (m_session m j) -> session_ok (method_1 m) (m_session m' j).
Proof.
  intros [_ Hs Ht Hst Hl] Hlive. apply session_ok_tags; [apply Hs|apply (Ht (j, KS_PRIMARY))|apply (Ht (j, KS_LAME_DUCK))| |].
  - by apply (Hst (j, KS_LAME_DUCK)).
  - right. destruct (decide (j = i)) as [->|Hj]; [right; split; [exact Hlive|by apply Hl]|].
    left. apply (Hst (j, KS_PRIMARY)). intros [= E]. by apply Hj.
Qed.

(** A cleared session. *)
Lemma session_zero_ok b : session_ok b tls_session_zero.
Proof. repeat split; cbn; rewrite ?andb_false_r; done || lia. Qed.

Lemma next_key_id_range k : 1 <= next_key_id k <= 7.
Proof.
  unfold next_key_id. change P_KEY_ID_MASK with (Z.ones 3). rewrite Z.land_ones by lia.
  pose proof (Z.mod_pos_bound (k + 1) (2 ^ 3) ltac:(lia)). destruct (Z.eqb_spec ((k + 1) `mod` 2 ^ 3) 0); lia.
Qed.

Lemma next_key_id_neq k : 0 <= k <= 7 -> next_key_id k <> k.
Proof. intros Hk. assert (k ∈ seqZ 0 8) as Hin by (apply elem_of_seqZ; lia). revert Hin. clear. vm_compute seqZ. set_unfold. naive_solver. Qed.

(** A new key. *)
Lemma key_state_init_ok b o s s' k :
  key_state_init o s = Ret (s', k) -> 0 <= s_key_id s <= 7 ->
  key_ok b k /\ ks_state k = S_INITIAL /\ ks_key_id k = s_key_id s /\ ks_session_id_remote k = sid_zero /\
  s_key_id s' = next_key_id (s_key_id s) /\ s_session_id s' = s_session_id s /\ s_key1 s' = s_key1 s.
Proof.
  intros H Hid. pose proof (key_state_init_sized _ _ _ _ H) as Hz. revert H. unfold key_state_init. intros H. ret_inv.
  split_and!; try done. split; try done. apply andb_false_r.
Qed.

Lemma session_init_ok b o sid s :
  tls_session_init o sid = Ret s -> session_id_defined sid = true ->
  session_ok b s /\ ks_state (s_key0 s) = S_INITIAL /\ ks_session_id_remote (s_key0 s) = sid_zero.
Proof.
  unfold tls_session_init. intros H Hsid. ret_inv.
  match goal with H : key_state_init _ _ = _ |- _ => apply (key_state_init_ok b) in H as (Hk & Hst & Hid & Hr & Hn & Hs & Hk1); [|cbn; lia] end.
  split; [|done]. destruct (session_zero_ok b) as [_ Z1 _ _ _ _ _]. split; cbn; rewrite ?Hn, ?Hs, ?Hk1, ?Hid, ?Hst; try done.
Qed.

Lemma soft_reset_ok b now o s s' :
  key_state_soft_reset now o s = Ret s' -> session_ok b s -> S_INITIAL <= ks_state (s_key0 s) -> 0 < now -> 0 <= o_transition_window o ->
  session_ok b s' /\ ks_state (s_key0 s') = S_INITIAL /\ ks_session_id_remote (s_key0 s') = ks_session_id_remote (s_key0 s).
Proof.
  unfold key_state_soft_reset. intros H Hs Hst Hnow Ho. pose proof Hs as [K0 K1 K2 K3 K4 K5 K6]. ret_inv.
  match goal with H : key_state_init _ _ = _ |- _ => apply (key_state_init_ok b) in H as (Hk & Hks & Hid & Hr & Hn & Hsid & Hk1); [|done] end.
  split; [|done]. destruct K0 as [L1 L2 L4 L3], Hk as [M1 M2 M4 M3].
  change (s_key_id (s <| s_key1 := _ |>)) with (s_key_id s) in Hn, Hid.
  split; cbn; rewrite ?Hk1, ?Hn, ?Hid, ?Hsid; cbn; auto.
  - split; cbn; rewrite ?Hid; done.
  - split; done.
  - rewrite K4 by done. pose proof (next_key_id_range (ks_key_id (s_key0 s))). pose proof (next_key_id_range (next_key_id (ks_key_id (s_key0 s)))). lia.
  - intros _. lia.
  - intros _. rewrite K4 by done. intros E. by apply (next_key_id_neq (ks_key_id (s_key0 s))).
Qed.

End Frames.

(** ** All sessions *)

(** What is asked of the options: the retiring of a key takes no negative time, and the
    buffers, replay windows and tables of new sessions and keys can be set up. *)
Definition options_ok (o : tls_options) : Prop :=
  0 <= o_transition_window o /\ (forall s, exists r, key_state_init o s = Ret r) /\
  (forall sid, exists s, tls_session_init o sid = Ret s).

Lemma key_state_init_any o s s' r : key_state_init o s = Ret r -> exists r', key_state_init o s' = Ret r'.
Proof.
  unfold key_state_init, key_state_alloc_reliable, reliable_init. intros H. ret_inv.
  repeat match goal with H : _ = Ret _ |- _ => rewrite H end. cbn [mbind outcome_mbind].
  repeat match goal with H : _ = Ret _ |- _ => rewrite H end. by eexists.
Qed.

Lemma session_init_any o sid sid' s : tls_session_init o sid = Ret s -> exists s', tls_session_init o sid' = Ret s'.
Proof.
  unfold tls_session_init. intros H. ret_inv. cbn [c_assert mbind outcome_mbind].
  match goal with H : session_tls_wrap _ = Ret _ |- _ => rewrite H end. cbn [mbind outcome_mbind].
  match goal with H : key_state_init _ _ = Ret _ |- context [key_state_init _ ?s1] =>
    destruct (key_state_init_any _ _ s1 _ H) as ([? ?] & ->) end. by eexists.
Qed.

(** What works once at the start works always. *)
Lemma options_ok_init o sid s : 0 <= o_transition_window o -> tls_session_init o sid = Ret s -> options_ok o.
Proof.
  intros Hw H. split; [done|]. split.
  - intros s0. unfold tls_session_init in H. ret_inv. by eapply key_state_init_any.
  - intros sid'. by eapply session_init_any.
Qed.

Lemma options_ok_rest o o' : options_rest o' = options_rest o -> options_ok o -> options_ok o'.
Proof.
  assert (Hk : forall o s, key_state_init (options_rest o) s = key_state_init o s) by (by intros []).
  assert (Hs : forall o sid, tls_session_init (options_rest o) sid = tls_session_init o sid) by (by intros []).
  intros H (H1 & H2 & H3). split; [apply (f_equal o_transition_window) in H; change (o_transition_window o' = o_transition_window o) in H; lia|].
  split; intros x; [rewrite <- Hk, H, Hk|rewrite <- Hs, H, Hs]; auto.
Qed.

(** What is asked of the session at place [i]: the active one is live; so is the
    untrusted one, unless the peer may have one session only. *)
Definition role_ok (single : bool) (i : tm_index) (s : tls_session) : Prop :=
  match i with
  | TM_ACTIVE => live (ks_state (s_key0 s))
  | TM_UNTRUSTED =>
      if single then ks_state (s_key0 s) = S_UNDEF /\ ks_session_id_remote (s_key0 s) = sid_zero
      else live (ks_state (s_key0 s))
  | TM_LAME_DUCK => True
  end.

Record multi_ok (m : tls_multi) : Prop := {
  mo_options : options_ok (m_opt m);
  mo_session i : session_ok (method_1 m) (m_session m i);
  mo_role i : role_ok (o_single_session (m_opt m)) i (m_session m i)
}.

Lemma method_1_set_session m i s : method_1 (m_set_session m i s) = method_1 m.
Proof. unfold method_1. by rewrite m_opt_set_session. Qed.

Lemma multi_ok_set_session m i s :
  multi_ok m -> session_ok (method_1 m) s -> role_ok (o_single_session (m_opt m)) i s -> multi_ok (m_set_session m i s).
Proof.
  intros [Hw Hs Hr] Hok Hrole. split.
  - by rewrite m_opt_set_session.
  - intros j. rewrite method_1_set_session, m_session_set. by case_decide.
  - intros j. rewrite m_session_set, m_opt_set_session. case_decide as E; [by subst j|done].
Qed.

Lemma role_ok_live m i : multi_ok m -> live (ks_state (m_key m (prim i))) ->
  forall s, live (ks_state (s_key0 s)) -> role_ok (o_single_session (m_opt m)) i s.
Proof.
  intros [_ _ Hr] Hl s Hs. destruct i; [done| |done]. specialize (Hr TM_UNTRUSTED). cbn [role_ok] in *.
  destruct (o_single_session _); [|done]. destruct Hr as [Hr _]. exfalso. revert Hl. unfold live, m_key. cbn [prim fst snd s_key].
  rewrite Hr. unfold S_UNDEF, S_INITIAL. lia.
Qed.

Lemma options_single o o' : options_rest o' = options_rest o -> o_single_session o' = o_single_session o.
Proof. intros H. apply (f_equal o_single_session) in H. exact H. Qed.

Lemma multi_ok_frame i m m' :
  step_frame i m m' -> live (ks_state (m_key m (prim i))) -> multi_ok m -> multi_ok m'.
Proof.
  intros Hf Hl Hm. pose proof Hm as [Hw Hs Hr]. pose proof Hf as [Ho _ Ht Hst Hlive]. split.
  - by eapply options_ok_rest.
  - intros j. rewrite (options_method _ _ Ho). by eapply sf_session_ok.
  - intros j. rewrite (options_single _ _ Ho). destruct (decide (j = i)) as [->|Hj].
    + apply role_ok_live; [done..|]. by apply Hlive.
    + specialize (Hr j). assert (E : ks_state (s_key0 (m_session m' j)) = ks_state (s_key0 (m_session m j))).
      { apply (Hst (j, KS_PRIMARY)). intros [= E]. by apply Hj. }
      pose proof (f_equal snd (Ht (j, KS_PRIMARY))) as E'. cbn in E'.
      destruct j; cbn [role_ok] in *; [by rewrite E| |done]. rewrite E. destruct (o_single_session _); [|done].
      split; [apply Hr|]. destruct Hr as [_ Hr]. cbn in *. by rewrite E', Hr.
Qed.

(** The same keys and sessions but for what the invariant does not mention. *)
Record same_tags (m m' : tls_multi) : Prop := {
  st_opt : options_rest (m_opt m') = options_rest (m_opt m);
  st_session j : session_tag (m_session m' j) = session_tag (m_session m j);
  st_tag ij : key_tag (method_1 m) (m_key m' ij) = key_tag (method_1 m) (m_key m ij);
  st_state ij : ks_state (m_key m' ij) = ks_state (m_key m ij)
}.

Lemma multi_ok_same m m' : same_tags m m' -> multi_ok m -> multi_ok m'.
Proof.
  intros [Ho Hs Ht Hst] Hm. apply (multi_ok_frame TM_ACTIVE m); [split; auto| |done].
  - by rewrite Hst.
  - apply (mo_role _ Hm TM_ACTIVE).
Qed.

Lemma same_set_key m ij k :
  (forall b, key_tag b k = key_tag b (m_key m ij)) -> ks_state k = ks_state (m_key m ij) -> same_tags m (m_set_key m ij k).
Proof.
  intros Ht Hs. split.
  - by rewrite m_opt_set_key.
  - intros j. unfold m_set_key. rewrite m_session_set. case_decide as E; [|done]. rewrite E. by destruct ij as [[] []], m.
  - intros ij'. rewrite m_key_set. by case_decide as E; [rewrite E|].
  - intros ij'. rewrite m_key_set. by case_decide as E; [rewrite E|].
Qed.

Lemma same_set_session m i s :
  session_tag s = session_tag (m_session m i) -> (forall b, key_tag b (s_key0 s) = key_tag b (s_key0 (m_session m i))) ->
  ks_state (s_key0 s) = ks_state (s_key0 (m_session m i)) -> s_key1 s = s_key1 (m_session m i) ->
  same_tags m (m_set_session m i s).
Proof.
  intros Ht H0 Hs H1. split; [by rewrite m_opt_set_session|..].
  - intros j. rewrite m_session_set. by case_decide as E; [rewrite E|].
  - intros [j []]; unfold m_key; cbn [fst snd]; rewrite m_session_set; (case_decide as E; [|done]); rewrite E; [done|].
    cbn [s_key]. by rewrite H1.
  - intros [j []]; unfold m_key; cbn [fst snd]; rewrite m_session_set; (case_decide as E; [|done]); rewrite E; [done|].
    cbn [s_key]. by rewrite H1.
Qed.

(** *** Life of sessions *)

Lemma reset_ok sid m i m' :
  reset_session sid m i = Ret m' -> session_id_defined sid = true -> (i = TM_UNTRUSTED -> o_single_session (m_opt m) = false) ->
  options_ok (m_opt m) ->
  (forall j, j <> i -> session_ok (method_1 m) (m_session m j) /\ role_ok (o_single_session (m_opt m)) j (m_session m j)) -> multi_ok m'.
Proof.
  unfold reset_session. intros H Hsid Hi Hw Hj. ret_inv.
  match goal with H : tls_session_init _ _ = _ |- _ => apply (session_init_ok (method_1 m)) in H as (Hs & Hst & _); [|done] end.
  split.
  - by rewrite !m_opt_set_session.
  - intros j. rewrite !method_1_set_session, !m_session_set. repeat case_decide; try done. by apply Hj.
  - intros j. rewrite !m_session_set, !m_opt_set_session. case_decide as E; [subst j|by apply Hj].
    destruct i; cbn [role_ok]; [by rewrite Hst| |done]. rewrite Hi by done. by rewrite Hst.
Qed.

Lemma move_ok sid m dest src m' :
  move_session sid m dest src true = Ret m' -> session_id_defined sid = true ->
  (src = TM_UNTRUSTED -> o_single_session (m_opt m) = false) -> options_ok (m_opt m) ->
  session_ok (method_1 m) (m_session m src) -> role_ok (o_single_session (m_opt m)) dest (m_session m src) ->
  (forall j, j <> src -> j <> dest -> session_ok (method_1 m) (m_session m j) /\ role_ok (o_single_session (m_opt m)) j (m_session m j)) -> multi_ok m'.
Proof.
  unfold move_session. intros H Hsid Hi Hw Hs Hr Hj. ret_inv.
  match goal with H : tls_session_init _ _ = _ |- _ => apply (session_init_ok (method_1 m)) in H as (Hn & Hst & _); [|done] end.
  match goal with H : negb (bool_decide _) = true |- _ => apply negb_true_iff, bool_decide_eq_false in H; rename H into Hne end.
  split.
  - by rewrite !m_opt_set_session.
  - intros j. rewrite !method_1_set_session, !m_session_set. destruct (decide (j = src)); [done|]. rewrite (decide_False (P := src = dest)) by done.
    repeat case_decide; try done. by apply Hj.
  - intros j. rewrite !m_session_set, !m_opt_set_session. destruct (decide (j = src)) as [->|].
    + destruct src; cbn [role_ok]; [by rewrite Hst| |done]. rewrite Hi by done. by rewrite Hst.
    + rewrite (decide_False (P := src = dest)) by done. destruct (decide (j = dest)) as [->|]; [done|]. by apply Hj.
Qed.

(** *** The handshake *)

Lemma die_ok b s : session_ok b s -> session_ok b (s <| s_key1 := key_state_free (s_key1 s) true |>).
Proof. intros [K0 K1 K2 K3 K4 K5 K6]. split; cbn; try done. apply (session_zero_ok b). Qed.

Lemma start_ok now m i w m' w' :
  tls_process_start now m i w = Ret (m', w') -> multi_ok m -> live (ks_state (m_key m (prim i))) -> 0 < now ->
  multi_ok m' /\ m_opt m' = m_opt m /\ live (ks_state (m_key m' (prim i))).
Proof.
  unfold tls_process_start. intros H Hm Hl Hnow. ret_inv.
  match goal with H : (if _ then _ else _) = Ret ?s |- _ =>
    assert (Hs : session_ok (method_1 m) s /\ live (ks_state (s_key0 s))) by
      (destruct (renegotiate _ _ _) in H; [|injection H as <-; split; [apply Hm|exact Hl]];
       apply (soft_reset_ok (method_1 m)) in H as (Ha & Hb & _); [by rewrite Hb|apply Hm|apply Hl|done|apply (mo_options _ Hm)]) end.
  destruct Hs as [Hs Hst]. set (s' := if b then _ else _).
  assert (Hs' : session_ok (method_1 m) s' /\ live (ks_state (s_key0 s'))) by (unfold s'; destruct b; [split; [by apply die_ok|done]|done]).
  destruct Hs' as [Hs' Hst']. split_and!.
  - apply multi_ok_set_session; [done..|]. by apply role_ok_live.
  - by rewrite m_opt_set_session.
  - by destruct m, i.
Qed.

(** The state after [tls_process]: the session it worked on may have failed. *)
Record after_process (i : tm_index) (m : tls_multi) : Prop := {
  ap_options : options_ok (m_opt m);
  ap_single : i = TM_UNTRUSTED -> o_single_session (m_opt m) = false;
  ap_session j : session_ok (method_1 m) (m_session m j);
  ap_role j : j <> i -> role_ok (o_single_session (m_opt m)) j (m_session m j);
  ap_failed : ks_state (m_key m (prim i)) <> S_ERROR -> role_ok (o_single_session (m_opt m)) i (m_session m i)
}.

Lemma after_process_ok i m : multi_ok m -> live (ks_state (m_key m (prim i))) -> after_process i m.
Proof.
  intros Hm Hl. pose proof Hm as [Hw Hs Hr]. split; auto. intros ->. specialize (Hr TM_UNTRUSTED). cbn [role_ok] in Hr.
  destruct (o_single_session _); [|done]. destruct Hr as [Hr _]. exfalso. revert Hl. unfold live, m_key. cbn [prim fst snd s_key].
  rewrite Hr. unfold S_UNDEF, S_INITIAL. lia.
Qed.

Lemma after_process_failed i p :
  multi_ok (p_multi p) -> live (ks_state (p_ks i p)) -> after_process i (p_multi (set_ks i p (p_ks i p <| ks_state := S_ERROR |>))).
Proof.
  intros Hm Hl. pose proof (after_process_ok i _ Hm Hl) as [Hw Hsi Hs Hr _]. unfold set_ks. set (k := _ <| ks_state := _ |>).
  change (p_multi (p <| p_multi := ?m |>)) with m.
  assert (Ho : m_opt (m_set_key (p_multi p) (prim i) k) = m_opt (p_multi p)) by apply m_opt_set_key.
  split; rewrite ?Ho; try done.
  - intros j. unfold m_set_key. cbn [fst snd prim]. rewrite method_1_set_session, m_session_set. case_decide as E; [|done]. subst j.
    eapply session_ok_tags; [..|apply (Hs i)]; try done. by left.
  - intros j Hj. unfold m_set_key. cbn [fst snd prim]. rewrite m_session_set, decide_False by done. auto.
  - rewrite m_key_set_key. intros E. by destruct E.
Qed.

Section Operations.
Context (md5 sha1 : list Z -> hmac_ctx).

Lemma process_ok fuel env m i info to_link w res :
  tls_process md5 sha1 fuel env m i info to_link w = Ret (Some res) -> multi_ok m ->
  live (ks_state (m_key m (prim i))) -> 0 < pe_now env -> after_process i (pr_multi res).
Proof.
  unfold tls_process. intros H Hm Hl Hnow. ret_inv.
  match goal with H : tls_process_start _ _ _ _ = Ret (?m1, _) |- _ => apply start_ok in H as (Hm1 & _ & Hl1); [|done..] end.
  match goal with H : tls_loop _ _ _ _ _ _ _ _ = Ret ?x |- _ => destruct x as [r|]; [|done]; apply loop_framed in H as Hf end.
  cbn [p_multi] in Hf. pose proof (multi_ok_frame _ _ _ Hf Hl1 Hm1) as Hm2. pose proof (sf_live _ _ _ Hf Hl1) as Hl2.
  destruct r as [p|p out sent|p]; ret_inv; cbn [round_multi] in *; [by apply after_process_failed|..];
    match goal with H : tls_process_finish _ _ _ _ _ _ = _ |- _ => apply finish_framed in H as Hf3 end;
    (apply after_process_ok; [by eapply multi_ok_frame|by apply (sf_live _ _ _ Hf3)]).
Qed.

Lemma after_error_ok env i m m' :
  after_error env i m = Ret m' -> after_process i m -> session_id_defined (me_sid env i) = true -> multi_ok m'.
Proof.
  unfold after_error. intros H [Hw Hsi Hs Hr _] Hsid.
  destruct (_ && negb _) eqn:E.
  - apply andb_prop in E as [[E _]%andb_prop _]. apply bool_decide_eq_true in E as ->.
    apply move_ok in H; [done|done|done|exact Hw|apply (Hs TM_ACTIVE)|done|].
    intros j Hj _. split; [apply Hs|by apply Hr].
  - apply reset_ok in H; [done|done|done|exact Hw|]. intros j Hj. split; [apply Hs|by apply Hr].
Qed.

(** The clocks are past the epoch and the session numbers drawn are not zero. *)
Definition env_ok (env : multi_env) : Prop :=
  forall i, 0 < pe_now (me_process env i) /\ session_id_defined (me_sid env i) = true.

Lemma same_addr m i a : same_tags m (m_set_key m (prim i) (m_key m (prim i) <| ks_remote_addr := a |>)).
Proof. by apply same_set_key. Qed.

Lemma same_tags_refl m : same_tags m m.
Proof. done. Qed.

Lemma process_session_ok env i st st' :
  process_session md5 sha1 env i st = Ret st' -> env_ok env -> multi_ok (ms_multi st) -> multi_ok (ms_multi st').
Proof.
  unfold process_session. intros H Henv Hm. destruct (Henv i) as [Hnow Hsid].
  set (m1 := if bool_decide (i = TM_ACTIVE) && _ && _ then _ else _) in H.
  assert (Hm1 : multi_ok m1).
  { unfold m1. destruct (_ && _); [|done]. by eapply multi_ok_same, Hm; apply same_addr. }
  clearbody m1. destruct (_ && _) eqn:E; [|by ret_inv]. apply andb_prop in E as [E%Z.leb_le _]. ret_inv.
  match goal with H : must ?x = _ |- _ => destruct x as [res|]; [|done]; injection H as <- end.
  match goal with H : tls_process _ _ _ _ _ _ _ _ _ = _ |- _ => apply process_ok in H as Hap; [|done| |done] end.
  2: { split; [done|]. apply (so_key0 _ _ (mo_session _ Hm1 i)). }
  set (m2 := match pr_addr res with Some _ => _ | None => _ end) in *.
  assert (Hap2 : after_process i m2) by (unfold m2; destruct (pr_addr res); [destruct Hap; split|]; done). clearbody m2.
  destruct (_ =? S_ERROR) eqn:Ee; ret_inv.
  - by eapply after_error_ok.
  - apply Z.eqb_neq in Ee. destruct Hap2 as [Hw Hsi Hs Hr Hf]. split; [done..|].
    intros j. cbn. destruct (decide (j = i)) as [->|]; auto.
Qed.

Lemma count_hard_ok m e : multi_ok m -> multi_ok (count_hard_error m e).
Proof. unfold count_hard_error. destruct (_ && _); [|done]. by apply multi_ok_same. Qed.

Lemma promote_ok sid m m' : promote_untrusted sid m = Ret m' -> session_id_defined sid = true -> multi_ok m -> multi_ok m'.
Proof.
  unfold promote_untrusted. intros H Hsid Hm. destruct (DECRYPT_KEY_ENABLED _ _) eqn:E; ret_inv; [|done].
  assert (Hl : live (ks_state (m_key m (prim TM_UNTRUSTED)))).
  { unfold DECRYPT_KEY_ENABLED in E. apply Z.leb_le in E. split; [|apply (so_key0 _ _ (mo_session _ Hm TM_UNTRUSTED))].
    unfold S_GOT_KEY, S_INITIAL in *. destruct (o_server _); lia. }
  pose proof (after_process_ok _ _ Hm Hl) as [Hw Hsi Hs Hr _].
  apply move_ok in H; [done|done|done|done|apply Hs|exact Hl|]. intros j Hj _. split; [apply Hs|by apply Hr].
Qed.

Lemma multi_process_ok env m info to_link addr w st r :
  tls_multi_process md5 sha1 env m info to_link addr w = Ret (st, r) -> env_ok env ->
  session_id_defined (me_sid_promoted env) = true -> multi_ok m -> multi_ok (ms_multi st).
Proof.
  unfold tls_multi_process. intros H Henv Hsid Hm. ret_inv.
  repeat match goal with H : process_session _ _ _ _ _ = _ |- _ => apply process_session_ok in H; [|done|done] end.
  cbn. apply count_hard_ok. eapply promote_ok; [done..|]. case_match; [|done].
  apply multi_ok_set_session; [done|apply session_zero_ok|done].
Qed.

End Operations.

(** *** Incoming packets *)

Lemma pd_error_ok m b r : multi_ok m -> multi_ok (pd_multi (pd_error m b r)).
Proof. by apply multi_ok_same. Qed.

Lemma count_packet_ok m ij n : multi_ok m -> multi_ok (m_set_key m ij (count_packet (m_key m ij) n)).
Proof. apply multi_ok_same. by apply same_set_key. Qed.

Lemma pre_decrypt_data_ok m from buf op key_id floated pd :
  tls_pre_decrypt_data m from buf op key_id floated = Ret pd -> multi_ok m -> multi_ok (pd_multi pd).
Proof.
  unfold tls_pre_decrypt_data. intros H Hm. ret_inv.
  match goal with H : match ?o with Some _ => _ | None => _ end = Ret pd |- _ => destruct o as [ij|]; [|by injection H as <-] end.
  destruct (negb _); ret_inv; [done|]. destruct (buf_advance _ _) as [b1 ok1]. ret_inv.
  destruct (_ =? P_DATA_V1); ret_inv; [by apply count_packet_ok|]. destruct (_ <? 4); ret_inv; [by apply pd_error_ok|].
  destruct (buf_advance _ _) as [b2 ok2]. ret_inv. by apply count_packet_ok.
Qed.

Section Incoming.
Context (ctr_cipher : list Z -> bool -> cipher_ctx) (sha_hmac : list Z -> hmac_ctx).
Context (now : Z) (script : option (Z -> list Z -> bool)) (Hnow : 0 < now).

Lemma read_session_auth_same m i buf m' buf' ok :
  read_session_auth ctr_cipher sha_hmac now script m i buf = Ret (m', buf', ok) -> same_tags m m'.
Proof. unfold read_session_auth. intros H. ret_inv. by apply same_set_session. Qed.

(** The session a packet is routed to, for a key that is under way. *)
Lemma route_existing_ok m from buf op i new_link burst m' buf' r :
  route_existing ctr_cipher sha_hmac now script m from buf op i new_link burst = Ret (m', buf', r) -> multi_ok m ->
  multi_ok m' /\ o_single_session (m_opt m') = o_single_session (m_opt m).
Proof.
  unfold route_existing. intros H Hm. ret_inv. destruct (negb _); ret_inv; [done|].
  match goal with H : read_session_auth _ _ _ _ _ _ _ = Ret (?m1, _, _) |- _ => apply read_session_auth_same in H as Hst;
    pose proof (multi_ok_same _ _ Hst Hm) as Hm1; pose proof (options_single _ _ (st_opt _ _ Hst)) as Hs1 end.
  destruct (negb _); ret_inv; [done|]. destruct (_ =? P_CONTROL_SOFT_RESET_V1); [|by ret_inv].
  destruct (DECRYPT_KEY_ENABLED _ _) eqn:E; ret_inv; [|done].
  unfold DECRYPT_KEY_ENABLED in E. apply Z.leb_le in E.
  match goal with H : key_state_soft_reset _ _ (m_session ?m1 _) = _ |- _ =>
    assert (Hl : live (ks_state (m_key m1 (prim i)))); [|apply (soft_reset_ok (method_1 m1)) in H as (Ha & Hb & _); [|apply Hm1|apply Hl|done|apply Hm1]] end.
  { rewrite (st_state _ _ Hst). split; [|apply (so_key0 _ _ (mo_session _ Hm i))].
    unfold prim in *. unfold S_GOT_KEY, S_INITIAL in *. destruct (o_server _); lia. }
  split; [|by rewrite m_opt_set_session]. apply multi_ok_set_session; [done..|]. apply role_ok_live; [done..|]. by rewrite Hb.
Qed.

Lemma same_untrusted_addr m i a : same_tags m (set_untrusted_addr m i a).
Proof. by apply same_set_session. Qed.

Lemma find_session_ok m sid :
  multi_ok m -> session_id_defined sid = true ->
  match find_session m sid with
  | inr (Some i) => i <> TM_LAME_DUCK /\ (i = TM_UNTRUSTED -> o_single_session (m_opt m) = false)
  | _ => True
  end.
Proof.
  intros Hm Hsid. unfold find_session. destruct (session_id_equal _ _); [done|].
  destruct (session_id_equal (ks_session_id_remote (m_key m (TM_UNTRUSTED, KS_PRIMARY))) sid) eqn:E; [|clear E; by destruct (session_id_equal _ sid)].
  split; [done|]. intros _. pose proof (mo_role _ Hm TM_UNTRUSTED) as Hr. cbn [role_ok] in Hr. destruct (o_single_session _); [|done].
  destruct Hr as [_ Hr]. apply bool_decide_eq_true in E. unfold m_key in E. cbn [fst snd s_key] in E. rewrite Hr in E.
  rewrite <- E in Hsid. by vm_compute in Hsid.
Qed.

(** A packet goes to a session under way, and to the untrusted one only where the
    peer may have several. *)
Lemma route_control_ok m from buf op sid m' buf' r :
  route_control ctr_cipher sha_hmac now script m from buf op sid = Ret (m', buf', r) -> multi_ok m ->
  session_id_defined sid = true ->
  multi_ok m' /\
  match r with
  | Some (i, _, _) => i <> TM_LAME_DUCK /\ (i = TM_UNTRUSTED -> o_single_session (m_opt m') = false)
  | None => True
  end.
Proof.
  unfold route_control. intros H Hm Hsid. pose proof (find_session_ok m sid Hm Hsid) as Hf.
  destruct (find_session m sid) as [|[i|]]; [by ret_inv|..]; ret_inv.
  - match goal with H : route_existing _ _ _ _ _ _ _ _ _ _ _ = _ |- _ => apply route_existing_ok in H as [Ha Hb]; [|done] end.
    split; [done|]. destruct o; [|done]. by rewrite Hb.
  - destruct (negb (is_hard_reset op 0)); [by ret_inv|]. destruct (negb _); [by ret_inv|].
    destruct (negb _).
    + destruct (_ && _); [by ret_inv|]. ret_inv.
      match goal with H : route_existing _ _ _ _ _ _ _ _ _ _ _ = _ |- _ => apply route_existing_ok in H as [Ha Hb];
        [|by eapply multi_ok_same, Hm; apply same_untrusted_addr] end.
      split; [done|]. by destruct o.
    + destruct (o_single_session (m_opt m)) eqn:Es; [by ret_inv|]. ret_inv.
      match goal with H : read_session_auth _ _ _ _ _ _ _ = Ret (?m1, _, _) |- _ => apply read_session_auth_same in H as Hst;
        pose proof (multi_ok_same _ _ Hst Hm) as Hm1; pose proof (options_single _ _ (st_opt _ _ Hst)) as Hs1 end.
      destruct (negb _); ret_inv; [done|]. split; [exact (multi_ok_same _ _ (same_untrusted_addr t TM_UNTRUSTED from) Hm1)|].
      split; [done|]. intros _. cbn. by rewrite Hs1.
Qed.

(** Another number and address for the peer of the session. *)
Lemma set_remote_ok m i sid from :
  multi_ok m -> (i = TM_UNTRUSTED -> o_single_session (m_opt m) = false) -> multi_ok (set_remote m i sid from).
Proof.
  intros Hm Hi. eapply (multi_ok_same (m_set_key m (i, KS_PRIMARY) (m_key m (i, KS_PRIMARY) <| ks_session_id_remote := sid |> <| ks_remote_addr := from |>))).
  { split; [done|intros j; by destruct j|intros [[] []]; done|intros [[] []]; done]. }
  unfold m_set_key. cbn [fst snd]. apply multi_ok_set_session; [done|..].
  - destruct (mo_session _ Hm i) as [[L1 L2 L3] K1 K2 K3 K4 K5 K6]. by split.
  - pose proof (mo_role _ Hm i) as Hr. destruct i; [done| |done]. cbn [role_ok] in *. specialize (Hi eq_refl). rewrite Hi in *. done.
Qed.

Lemma start_burst_same m i b : same_tags m (start_burst now m i b).
Proof. unfold start_burst. destruct (_ && _); [|done]. by apply same_set_session. Qed.

Lemma accept_control_ok m from buf op key_id sid i burst new_link pd :
  accept_control now m from buf op key_id sid i burst new_link = Ret pd -> multi_ok m ->
  (i = TM_UNTRUSTED -> o_single_session (m_opt m) = false) -> multi_ok (pd_multi pd).
Proof.
  unfold accept_control. intros H Hm Hi. ret_inv.
  match goal with H : (if negb ?b then _ else _) = Ret pd |- _ => destruct b; cbn [negb] in H end; [|ret_inv; by apply pd_error_ok].
  set (m1 := start_burst _ _ _ _) in H.
  assert (Hm1 : multi_ok m1).
  { eapply multi_ok_same; [apply start_burst_same|]. destruct new_link; [by apply set_remote_ok|done]. }
  clearbody m1.
  match goal with H : (if negb ?b then _ else _) = Ret pd |- _ => destruct b; cbn [negb] in H end; ret_inv; [|by apply pd_error_ok].
  match goal with H : tls_receive _ _ = Ret (?p, ?o) |- _ => apply receive_sizes in H as Hs end.
  assert (Hm2 : multi_ok (m_set_key m1 (i, KS_PRIMARY) (put_peer (m_key m1 (i, KS_PRIMARY)) p))).
  { eapply multi_ok_same, Hm1. apply same_set_key; [by eapply tag_put_peer|done]. }
  destruct o; ret_inv; done || by apply pd_error_ok.
Qed.

Lemma pre_decrypt_ok m from buf floated pd :
  tls_pre_decrypt ctr_cipher sha_hmac now script m from buf floated = Ret pd -> multi_ok m -> multi_ok (pd_multi pd).
Proof.
  unfold tls_pre_decrypt. destruct (0 <? _); intros H Hm; ret_inv; [|done].
  destruct (_ || _); [by eapply pre_decrypt_data_ok|]. unfold tls_pre_decrypt_control in H.
  destruct (_ || _); [ret_inv; by apply pd_error_ok|]. destruct (_ || _); [ret_inv; by apply pd_error_ok|]. ret_inv.
  destruct o as [sid|]; [|ret_inv; by apply pd_error_ok]. destruct (session_id_defined sid) eqn:Hsid; cbn [negb] in H; ret_inv; [|by apply pd_error_ok].
  match goal with H : route_control _ _ _ _ _ _ _ _ _ = _ |- _ => apply route_control_ok in H as [Ha Hb]; [|done..] end.
  destruct o as [[[i burst] new_link]|]; [|ret_inv; by apply pd_error_ok]. destruct Hb as [_ Hb]. by eapply accept_control_ok.
Qed.

End Incoming.

(** *** The other operations *)

Lemma pre_encrypt_ok now m buf : multi_ok m -> multi_ok (tls_pre_encrypt now m buf).1.1.
Proof.
  intros Hm. unfold tls_pre_encrypt. destruct (0 <? _); [destruct (select_encrypt_key _ _ _ _)|]; eapply multi_ok_same, Hm; done.
Qed.

Lemma post_encrypt_ok m buf m' : tls_post_encrypt m buf = Ret m' -> multi_ok m -> multi_ok m'.
Proof.
  unfold tls_post_encrypt. destruct (0 <? _); intros H Hm; ret_inv; [|by eapply multi_ok_same, Hm].
  apply count_packet_ok. by eapply multi_ok_same, Hm.
Qed.

Lemma send_payload_ok m l sent : multi_ok m -> multi_ok (tls_send_payload m l sent).1.
Proof. unfold tls_send_payload. destruct (_ <=? _); [done|]. apply multi_ok_same. by apply same_set_key. Qed.

Lemma rec_payload_ok m buf m' buf' ok : tls_rec_payload m buf = Ret (m', buf', ok) -> multi_ok m -> multi_ok m'.
Proof. unfold tls_rec_payload. destruct (_ && _); intros H Hm; ret_inv; [|done]. eapply multi_ok_same, Hm. by apply same_set_key. Qed.

Lemma update_addrs_ok a keys m m' : update_addrs a keys m = Ret m' -> multi_ok m -> multi_ok m'.
Proof.
  revert m. induction keys as [|ij keys IH]; intros m H Hm; cbn [update_addrs] in H; ret_inv; [done|].
  apply IH in H; [done|]. eapply multi_ok_same, Hm. unfold update_addr in *. destruct (negb _); ret_inv; [by apply same_set_key|].
  case_match; by apply same_set_key.
Qed.

Lemma deauthenticate_ok m : multi_ok m -> multi_ok (tls_deauthenticate m).
Proof.
  apply multi_ok_same. pose proof (frame_deauthenticate m TM_ACTIVE) as Hf. apply sf_frame in Hf as [Ho Hs Ht _ _]; [|intros _; by destruct m].
  split; [done..|]. intros [[] []]; by destruct m.
Qed.

Lemma init_ok o f sid0 sid1 m :
  tls_multi_init_finalize sid0 sid1 (tls_multi_init o) f = Ret m -> session_id_defined sid0 = true -> session_id_defined sid1 = true ->
  0 <= o_transition_window o -> multi_ok m.
Proof.
  unfold tls_multi_init_finalize. intros H H0 H1 Hw. ret_inv.
  match goal with H : tls_session_init _ _ = _ |- _ => apply options_ok_init in H as Hopt; [|done] end.
  match goal with H : tls_session_init _ _ = _ |- _ => apply (session_init_ok (o_key_method o =? 1)) in H as (Ha & Hst & _); [|done] end.
  cbn in H. destruct (o_single_session o) eqn:Es; cbn [negb] in H; ret_inv.
  - split; [done|intros []; cbn; done || apply session_zero_ok|]. intros []; cbn; [by rewrite Hst|by rewrite Es|done].
  - match goal with H : tls_session_init _ _ = _ |- _ => apply (session_init_ok (o_key_method o =? 1)) in H as (Hb & Hst' & _); [|done] end.
    split; [done|intros []; cbn; done || apply session_zero_ok|]. intros []; cbn; [by rewrite Hst|by rewrite Es, Hst'|done].
Qed.

(** The keys of an agreed cipher. *)
Lemma update_crypto_params_ok cipher_kt_get md_kt_get md5 sha1 m i co f frag m' co' f' frag' ok :
  tls_session_update_crypto_params cipher_kt_get md_kt_get md5 sha1 m i co f frag = Ret (m', co', f', frag', ok) ->
  method_1 m = false -> multi_ok m -> multi_ok m'.
Proof.
  unfold tls_session_update_crypto_params. intros H H1 Hm. destruct (negb _); [by ret_inv|].
  set (co1 := if _ && _ then _ else _) in *. clearbody co1. ret_inv.
  match goal with H : tls_session_generate_data_channel_keys _ _ ?m0 _ = _ |- _ =>
    assert (H0m : multi_ok m0) by (eapply multi_ok_same, Hm; split; [done|intros []; done|intros [[] []]; done|intros [[] []]; done]);
    assert (Hmm : method_1 m0 = false) by done; set (m2 := m0) in *; clearbody m2; apply frame_generate in H as Hf end.
  destruct Hf as [Ho Hs Hk Hj].
  eapply (multi_ok_same m2), H0m. split; [done|..].
  - intros j. specialize (Hs j). apply (f_equal session_tag) in Hs. exact Hs.
  - intros ij. destruct (decide (ij = prim i)) as [->|Hij]; [apply key_rest_tag; [done|congruence]|].
    by destruct (Hj ij Hij) as [->| ->].
  - intros ij. destruct (decide (ij = prim i)) as [->|Hij]; [apply (f_equal ks_state) in Hk; exact Hk|].
    by destruct (Hj ij Hij) as [->| ->].
Qed.

(** ** Every state the program can reach *)

(** The operations of the TLS layer, in any order and with any answers of the
    network, the TLS engine, the scripts and the libraries.  A session number drawn is not zero and the
    clock is past the epoch; a cipher is negotiated only with the second method,
    which --client and --mode server require. *)
Inductive tls_reachable : tls_multi -> Prop :=
| reach_init o f sid0 sid1 m :
    0 <= o_transition_window o -> session_id_defined sid0 = true -> session_id_defined sid1 = true ->
    tls_multi_init_finalize sid0 sid1 (tls_multi_init o) f = Ret m -> tls_reachable m
| reach_process md5 sha1 env m info to_link addr w st r :
    tls_reachable m -> env_ok env -> session_id_defined (me_sid_promoted env) = true ->
    tls_multi_process md5 sha1 env m info to_link addr w = Ret (st, r) -> tls_reachable (ms_multi st)
| reach_pre_decrypt ctr sha now script m from buf floated pd :
    tls_reachable m -> 0 < now -> tls_pre_decrypt ctr sha now script m from buf floated = Ret pd -> tls_reachable (pd_multi pd)
| reach_pre_encrypt now m buf : tls_reachable m -> tls_reachable (tls_pre_encrypt now m buf).1.1
| reach_post_encrypt m buf m' : tls_reachable m -> tls_post_encrypt m buf = Ret m' -> tls_reachable m'
| reach_send_payload m l sent : tls_reachable m -> tls_reachable (tls_send_payload m l sent).1
| reach_rec_payload m buf m' buf' ok : tls_reachable m -> tls_rec_payload m buf = Ret (m', buf', ok) -> tls_reachable m'
| reach_update_addr m a m' : tls_reachable m -> tls_update_remote_addr m a = Ret m' -> tls_reachable m'
| reach_deauthenticate m : tls_reachable m -> tls_reachable (tls_deauthenticate m)
| reach_crypto_params get md md5 sha1 m i co f frag m' co' f' frag' ok :
    tls_reachable m -> o_key_method (m_opt m) <> 1 ->
    tls_session_update_crypto_params get md md5 sha1 m i co f frag = Ret (m', co', f', frag', ok) -> tls_reachable m'.

Lemma reachable_ok m : tls_reachable m -> multi_ok m.
Proof.
  induction 1; eauto using init_ok, multi_process_ok, pre_decrypt_ok, pre_encrypt_ok, post_encrypt_ok, send_payload_ok,
    rec_payload_ok, update_addrs_ok, deauthenticate_ok.
  eapply update_crypto_params_ok; [done| |done]. by apply Z.eqb_neq.
Qed.
