(* ===== verification/TlsDemo.v ===== *)
(** * A handshake, run

    A peer-to-peer server takes its first client: the packets of the client, the
    answers of the TLS engine and the states they lead to, to have a concrete open tunnel.
    The digests are toys; the data channel has no cipher and a toy digest. *)
From S2P Require Import Prelude Integer Buffer PacketId Reliable ControlChannel Mtu Crypto TlsWrap LinkAddr SslCommon.
From S2P Require Import Auth KeyExchange CryptoParams KeyExchangeSpec TlsSession TlsProcess TlsProcessSpec TlsInvariant.

Definition toy_digest (n : Z) (k : list Z) : hmac_ctx :=
  mkhmac n (fun l => replicate (Z.to_nat n) (Z.land (fold_left Z.add (k ++ l) n) 255)).

Definition demo_kt : key_type := mkkt 0 20 None (Some (toy_digest 20)).

Definition demo_frame : frame := mkframe 1500 0 0 0 0 0 0 0.

(** [server] is the role, [method] the key method. *)
Definition demo_options (server : bool) (method : Z) : tls_options :=
  mkopts demo_kt server false [65; 66] [65; 66] method true false false false false 3600 60 2 0 0 0 false false 64 15
    [] false false tls_wrap_zero demo_frame false false false false false 0 false.

Definition demo_sid (n : Z) : list Z := n :: replicate 7 1.
Definition client_sid : list Z := demo_sid 7.
Definition client_addr : link_socket_actual := mkaddr 2 5000 1 (replicate 16 0).

Definition demo_tables (server : bool) (method : Z) : tls_multi :=
  match tls_multi_init_finalize (demo_sid 1) (demo_sid 2) (tls_multi_init (demo_options server method)) demo_frame with
  | Ret m => m
  | _ => tls_multi_init (demo_options server method)
  end.

(** A packet as it comes from the network. *)
Definition incoming (l : list Z) : buffer := mkbuffer (zlen l) 0 (zlen l) (Some l).

Definition no_cipher (k : list Z) (enc : bool) : cipher_ctx :=
  mkcipher MODE_OTHER 0 1 (fun _ => true) (fun _ _ => true) (fun _ _ l => Some l) (fun _ _ _ => Some []) (fun _ _ _ => None)
    (fun _ _ _ _ => None).

Definition demo_src : key_source := mksrc (replicate 48 5) (replicate 32 6) (replicate 32 7).

(** The message of the client's key exchange. *)
Definition client_km2 : list Z := km2_bytes (mkfields false demo_src [65; 66] None None).

Definition toy_md5 : list Z -> hmac_ctx := toy_digest 16.
Definition toy_sha1 : list Z -> hmac_ctx := toy_digest 20.

Definition demo_auth : auth_env := mkauth 100 (fun _ _ _ => true) (fun _ => true) (replicate 32 9).
Definition demo_kx : kx_input := mkkx (replicate 48 1) (replicate 32 2) (replicate 32 3) (mkk (replicate 64 1) (replicate 64 2)) None None demo_auth.

(** The engine has [plaintext] for the program, if any, and takes all it is given. *)
Definition demo_round (plaintext : option (list Z)) : round_env :=
  mkround 100 (replicate 32 4) (fun l => inl (zlen l))
    (fun _ => match plaintext with Some l => BIO_data l | None => BIO_fail true end)
    (Some (mkcert true (Some [67]) None)) demo_kx (fun l => inl (zlen l)) None (fun _ => BIO_fail true).

Definition demo_env (plaintext : option (list Z)) : multi_env :=
  mkme (fun _ => mkpe 100 (fun n => demo_round (if bool_decide (n = 1)%nat then plaintext else None)) 100 (replicate 32 4))
    (fun _ => demo_sid 3) (demo_sid 4) 100.

Definition demo_info : link_socket_info := mkinfo addr_undef false false None false.

Definition demo_receive (l : list Z) (m : tls_multi) : outcome tls_multi :=
  pd ← tls_pre_decrypt no_cipher toy_sha1 100 None m client_addr (incoming l) false;
  Ret (pd_multi pd).

Definition demo_process (plaintext : option (list Z)) (m : tls_multi) : outcome tls_multi :=
  '(st, _) ← tls_multi_process toy_md5 toy_sha1 (demo_env plaintext) m demo_info buffer_zero None 10;
  Ret (ms_multi st).

(** The client's hard reset, and its acknowledgement of the server's. *)
Definition hard_reset : list Z := 56 :: client_sid ++ [0] ++ be_bytes 4 0.
Definition first_ack : list Z := 40 :: client_sid ++ [1] ++ be_bytes 4 0 ++ demo_sid 1.

(** The four turns; [reset] and [km] are the client's first packet and key message. *)
Definition demo_run (method : Z) (reset km : list Z) : outcome tls_multi :=
  m ← demo_receive reset (demo_tables true method);
  m ← demo_process None m;
  m ← demo_receive first_ack m;
  demo_process (Some km) m.

(** The tunnel open, and open with the first key method. *)
Definition demo_open : tls_multi :=
  match demo_run 2 hard_reset client_km2 with Ret m => m | _ => demo_tables true 2 end.

Definition hard_reset_v1 : list Z := 8 :: client_sid ++ [0] ++ be_bytes 4 0.
Definition client_km1 : list Z := [0; 20] ++ replicate 20 8 ++ [65; 66; 0].

Definition demo_open_1 : tls_multi :=
  match demo_run 1 hard_reset_v1 client_km1 with Ret m => m | _ => demo_tables true 1 end.

(** The runs are made of operations of the program. *)
Lemma demo_receive_reachable l m m' : tls_reachable m -> demo_receive l m = Ret m' -> tls_reachable m'.
Proof. intros Hm H. unfold demo_receive in H. ret_inv. by eapply (reach_pre_decrypt no_cipher toy_sha1 100). Qed.

Lemma demo_env_ok p : env_ok (demo_env p).
Proof. done. Qed.

Lemma demo_process_reachable p m m' : tls_reachable m -> demo_process p m = Ret m' -> tls_reachable m'.
Proof. intros Hm H. unfold demo_process in H. ret_inv. by eapply (reach_process toy_md5 toy_sha1 (demo_env p)). Qed.

Lemma demo_run_reachable method reset km m :
  tls_reachable (demo_tables true method) -> demo_run method reset km = Ret m -> tls_reachable m.
Proof.
  intros H0 H. unfold demo_run in H. ret_inv.
  eapply demo_process_reachable; [eapply demo_receive_reachable; [eapply demo_process_reachable; [eapply demo_receive_reachable|]|]|];
    eassumption.
Qed.

Lemma demo_tables_reachable server method : method = 1 \/ method = 2 -> tls_reachable (demo_tables server method).
Proof.
  intros Hm. apply (reach_init (demo_options server method) demo_frame (demo_sid 1) (demo_sid 2)); [done..|].
  destruct Hm as [-> | ->], server; vm_compute; reflexivity.
Qed.

Lemma demo_open_reachable : tls_reachable demo_open.
Proof.
  apply (demo_run_reachable 2 hard_reset client_km2); [by apply demo_tables_reachable; right|]. vm_compute. reflexivity.
Qed.

Lemma demo_open_1_reachable : tls_reachable demo_open_1.
Proof.
  apply (demo_run_reachable 1 hard_reset_v1 client_km1); [by apply demo_tables_reachable; left|]. vm_compute. reflexivity.
Qed.

(** ** Two ends before the exchange of key method 2 *)

(** The session of one end, whose peer has a verified certificate and the number
    both ends drew. *)
Definition demo_end (server : bool) : tls_multi :=
  let m := demo_tables server 2 in
  let s := m_session m TM_ACTIVE in
  m_set_session m TM_ACTIVE
    (s <| s_verified := true |> <| s_common_name := Some [67] |>
       <| s_key0 := s_key0 s <| ks_session_id_remote := demo_sid 1 |> <| ks_remote_addr := client_addr |> |>).

Lemma toy_digest_ok n k : 0 < n <= 64 -> digest_ok (toy_digest n k).
Proof.
  intros Hn. split; [split|]; cbn [hmac_ctx_size hmac_of toy_digest]; [|unfold MAX_HMAC_KEY_LENGTH; lia|lia].
  intros x. unfold zlen. rewrite length_replicate. lia.
Qed.

Lemma tls1_PRF_is_rfc2246_witness :
  tls1_PRF toy_md5 toy_sha1 [1; 2; 3] [4; 5; 6] 30 = Ret (prf toy_md5 toy_sha1 [4; 5; 6] [1; 2; 3] 30).
Proof.
  apply (tls1_PRF_is_rfc2246 toy_md5 toy_sha1 [1; 2; 3] [4; 5; 6] 30 (fun k => toy_digest_ok 16 k ltac:(lia))
    (fun k => toy_digest_ok 20 k ltac:(lia)) ltac:(lia)).
Defined.

(** ** A cipher agreed on *)

(** A library with one cipher, "A", and the toy digest. *)
Definition demo_cipher : cipher_kt :=
  mkckt MODE_AEAD 12 16 16 false 0 (fun _ => true) (fun k => k)
    (fun _ _ => mkcipher MODE_AEAD 12 16 (fun _ => true) (fun _ _ => true) (fun _ _ l => Some l) (fun _ _ _ => Some [])
                  (fun _ _ _ => Some (replicate 16 0)) (fun _ _ _ _ => Some [])).
Definition demo_ciphers (n : list Z) : option cipher_kt := if bool_decide (n = [65]) then Some demo_cipher else None.
Definition demo_digests (n : list Z) : option ((list Z -> hmac_ctx) * Z) := Some (toy_digest 20, 20).

Definition demo_mtu : frame_options := mkfopt false true false PROTO_UDP false 1500 true 1500 false 0.
Definition demo_data_frame : frame := mkframe 1621 1621 121 4 0 0 0 0.
Definition demo_co : cipher_options := mkco [65] NONE 0 [65; 58; 66] true demo_mtu 0 0.

(** The client of the demonstration, its peer authenticated. *)
Definition demo_client : tls_multi := set_authenticated (demo_end false) TM_ACTIVE true.

Notation demo_update := (tls_session_update_crypto_params demo_ciphers demo_digests toy_md5 toy_sha1 demo_client TM_ACTIVE
  demo_co demo_data_frame None).

Lemma demo_library_sizes : library_sizes demo_ciphers demo_digests.
Proof.
  split.
  - intros n c. unfold demo_ciphers. destruct (bool_decide _); [|done]. intros [= <-]. by vm_compute.
  - intros n d z [= <- <-]. lia.
Qed.

Lemma demo_update_ok : exists m co f frag, demo_update = Ret (m, co, f, frag, true).
Proof. do 4 eexists. vm_compute. reflexivity. Qed.

Lemma negotiation_keeps_buffers_witness :
  exists m co f frag, demo_update = Ret (m, co, f, frag, true) /\ BUF_SIZE f <= BUF_SIZE demo_data_frame.
Proof.
  destruct demo_update_ok as (m & co & f & frag & E). exists m, co, f, frag. split; [exact E|].
  assert (Hx : crypto_max_overhead <= extra_frame demo_data_frame < 2 ^ 31) by (vm_compute; split; [discriminate|reflexivity]).
  assert (Ho : frame_of_options (co_mtu demo_co) demo_data_frame) by (vm_compute; reflexivity).
  exact (proj1 (proj2 (proj2 (negotiation_keeps_buffers demo_ciphers demo_digests toy_md5 toy_sha1 demo_client TM_ACTIVE demo_co
    demo_data_frame None m co f frag true demo_library_sizes E Hx Ho)))).
Defined.

(** ** An exchange whose client waits for the cipher the server pushes *)

Definition demo_pulling (server : bool) : tls_multi :=
  let m := demo_end server in m <| m_opt := m_opt m <| o_pull := negb server |> |>.

Lemma demo_ready server : ready demo_kt (fields_of demo_kx (m_opt (demo_pulling server))) (demo_pulling server) TM_ACTIVE.
Proof.
  assert (Hs : str_ok TLS_OPTIONS_LEN (f_options (fields_of demo_kx (m_opt (demo_pulling server))))).
  { split; [by destruct server; vm_compute|]. replace (f_options _) with [65; 66] by (by destruct server; vm_compute). set_solver. }
  unfold ready, fields_ok, src_ok, buf_wf. destruct server; (split_and!; try exact Hs); try (by vm_compute);
    (exists (replicate 2048 0); split_and!; by vm_compute).
Qed.

Definition demo_block : list Z :=
  key_block toy_md5 toy_sha1
    (mksrc2 (f_src (fields_of demo_kx (m_opt (demo_pulling false)))) (f_src (fields_of demo_kx (m_opt (demo_pulling true)))))
    (s_session_id (m_session (demo_pulling false) TM_ACTIVE)) (s_session_id (m_session (demo_pulling true) TM_ACTIVE)).

(** The key type of the cipher "A". *)
Definition demo_agreed : key_type := mkkt 16 0 (Some demo_cipher) None.

Lemma demo_strong : strong demo_agreed demo_block.
Proof. split; [intros k enc _; vm_compute; by split|]. vm_compute. reflexivity. Qed.

Definition demo_frames : frame * option frame :=
  match new_frames demo_co demo_agreed demo_data_frame None with Ret r => r | _ => (demo_data_frame, None) end.

Lemma demo_frames_eq : new_frames demo_co demo_agreed demo_data_frame None = Ret (demo_frames.1, demo_frames.2).
Proof. vm_compute. reflexivity. Qed.

Notation demo_exchange := (km2_exchange toy_md5 toy_sha1 demo_kx demo_kx demo_kx demo_kx (demo_pulling false) TM_ACTIVE
  (demo_pulling true) TM_ACTIVE).

Lemma demo_exchange_allows :
  match demo_exchange with
  | Ret (mc, _, _) => cipher_allowed (m_opt mc) demo_co && bool_decide (o_config_ciphername (m_opt mc) = [])
  | _ => false
  end = true.
Proof. vm_compute. reflexivity. Qed.

Lemma data_keys_agree_witness :
  exists mc ms m',
    demo_exchange = Ret (mc, ms, true) /\
    kb_initialized (ks_keys (m_key mc (prim TM_ACTIVE))) = false /\
    tls_session_update_crypto_params demo_ciphers demo_digests toy_md5 toy_sha1 mc TM_ACTIVE demo_co demo_data_frame None
      = Ret (m', demo_co, demo_frames.1, demo_frames.2, true) /\
    ks_keys (m_key m' (prim TM_ACTIVE)) = block_keys demo_agreed demo_block false.
Proof.
  destruct (data_keys_agree toy_md5 toy_sha1 (fun k => toy_digest_ok 16 k ltac:(lia)) (fun k => toy_digest_ok 20 k ltac:(lia))
    demo_kx demo_kx demo_kx demo_kx (demo_pulling false) TM_ACTIVE (demo_pulling true) TM_ACTIVE demo_kt demo_kt)
    as [(mc & ms & H & Hc & Hs) _].
  - apply demo_ready.
  - apply demo_ready.
  - vm_compute; reflexivity.
  - vm_compute; reflexivity.
  - vm_compute; reflexivity.
  - vm_compute; reflexivity.
  - intros src. eexists. split; vm_compute; reflexivity.
  - intros src src' b. eexists. split; vm_compute; reflexivity.
  - split; [exact I|vm_compute; reflexivity].
  - split; [exact I|vm_compute; reflexivity].
  - pose proof demo_exchange_allows as Ha. rewrite H in Ha. apply andb_prop in Ha as [Ha Hn]. apply bool_decide_eq_true in Hn.
    assert (En : negotiated (m_opt mc) demo_co = demo_co) by (unfold negotiated; by rewrite Hn).
    change (client_generates_now _ _) with false in Hc. destruct Hc as [Hi Hc].
    destruct (Hc mc demo_ciphers demo_digests demo_co demo_data_frame None demo_agreed demo_frames.1 demo_frames.2 eq_refl Ha)
      as (m' & E & Hk).
    + rewrite En. reflexivity.
    + rewrite En. exact demo_frames_eq.
    + exact demo_strong.
    + rewrite En in E. exists mc, ms, m'. exact (conj H (conj Hi (conj E Hk))).
Defined.
