(* ===== verification/AuthSpec.v ===== *)
(** * Who is authenticated

    A key becomes authenticated by the exchange of method 2 only for a peer that
    passed every check the configuration asks for. *)
From S2P Require Import Prelude Integer Buffer PacketId Reliable ControlChannel Mtu Crypto TlsWrap LinkAddr Text SslCommon.
From S2P Require Import Auth KeyExchange KeyExchangeSpec TlsSession TlsProcess TlsProcessSpec TlsInvariant TlsDemo.

Definition authenticated (m : tls_multi) (i : tm_index) : bool := ks_authenticated (m_key m (prim i)).

(** The user name is the one the connection is locked to, if any, and the password
    is a token handed out earlier that has not expired, or the script accepts both. *)
Definition user_admitted (env : auth_env) (m : tls_multi) (i : tm_index) (username password : list Z) : Prop :=
  (forall locked, m_locked_username m = Some locked -> locked = username) /\
  ((exists token, o_auth_token_generate (m_opt m) = true /\ m_auth_token_sent m = true /\ m_auth_token m = Some token /\
      strprefix token password = true /\
      (0 < o_auth_token_lifetime (m_opt m) -> ae_now env <= m_auth_token_tstamp m + o_auth_token_lifetime (m_opt m))) \/
   (o_user_pass_script (m_opt m) = true -> verify_user_pass_script env m i username password = true)).

(** The user name and password of the message, both empty when they are optional
    and one is missing; without password check, the certificate. *)
Definition peer_credentials (env : auth_env) (m : tls_multi) (i : tm_index) (msg : km2_message) : Prop :=
  if o_user_pass_script (m_opt m)
  then exists u p,
    (km2_username msg = Some u /\ km2_password msg = Some p \/ o_user_pass_optional (m_opt m) = true /\ u = [] /\ p = []) /\
    user_admitted env m i (string_mod_remap_name u) (string_mod p CC_PRINT CC_CRLF 95).1
  else s_verified (m_session m i) = true.

(** ** The steps *)

Lemma authenticated_set m i b : authenticated (set_authenticated m i b) i = b.
Proof. by destruct m, i. Qed.

Lemma authenticated_deauthenticate m i : authenticated (tls_deauthenticate m) i = false.
Proof. by destruct m, i. Qed.

Lemma authenticated_wipe m i : authenticated (wipe_auth_token m) i = authenticated m i.
Proof. by destruct m, i. Qed.

Lemma authenticated_common_name m i cn : authenticated (set_common_name_at m i cn) i = authenticated m i.
Proof. by destruct m, i. Qed.

#[local] Hint Rewrite authenticated_set authenticated_deauthenticate authenticated_wipe authenticated_common_name : auth.

Lemma lock_username_sound m u m' : tls_lock_username m u = (m', true) -> forall locked, m_locked_username m = Some locked -> locked = u.
Proof.
  unfold tls_lock_username. destruct (m_locked_username m) as [l|]; [|done].
  destruct (bool_decide (u = l)) eqn:E; cbn [negb]; [|done]. apply bool_decide_eq_true in E. by intros _ locked [= <-].
Qed.

(** What locking the name leaves alone. *)
Lemma lock_username_fields m u m' b :
  tls_lock_username m u = (m', b) ->
  m_opt m' = m_opt m /\ (b = true -> m_auth_token_tstamp m' = m_auth_token_tstamp m /\ forall i, authenticated m' i = authenticated m i) /\
  (b = false -> forall i, authenticated m' i = false).
Proof.
  unfold tls_lock_username. destruct (m_locked_username m); [destruct (negb _)|]; intros [= <- <-]; (split; [done|split; [|]]); try done.
  intros _ i. apply authenticated_deauthenticate.
Qed.

Lemma verify_auth_token_sound env m i token u p :
  authenticated (verify_auth_token env m i token u p) i = true ->
  (forall locked, m_locked_username m = Some locked -> locked = u) /\ strprefix token p = true /\
  (0 < o_auth_token_lifetime (m_opt m) -> ae_now env <= m_auth_token_tstamp m + o_auth_token_lifetime (m_opt m)).
Proof.
  unfold verify_auth_token. destruct (tls_lock_username m u) as [m1 b] eqn:E. pose proof (lock_username_fields _ _ _ _ E) as (Ho & Ht & _).
  destruct b; [|by autorewrite with auth]. destruct Ht as [Ht _]; [done|]. rewrite Ho, Ht.
  destruct (0 <? _) eqn:El; cbn [andb]; [destruct (_ <? ae_now env) eqn:En|]; try (by autorewrite with auth);
    (destruct (strprefix token p) eqn:Ep; cbn [negb]; [|by autorewrite with auth]); intros _;
    (split; [by eapply lock_username_sound|split; [done|]]).
  - intros _. by apply Z.ltb_ge in En.
  - apply Z.ltb_ge in El. lia.
Qed.

Lemma authenticated_username_as_cn m i u : authenticated (username_as_cn m i u) i = authenticated m i.
Proof. unfold username_as_cn. destruct (o_username_as_cn _); [apply authenticated_common_name|done]. Qed.

Lemma verify_user_pass_sound env m i u p m' :
  verify_user_pass env m i u p = Ret m' -> authenticated m i = false -> authenticated m' i = true ->
  user_admitted env m i (string_mod_remap_name u) (string_mod p CC_PRINT CC_CRLF 95).1.
Proof.
  unfold verify_user_pass. set (u' := string_mod_remap_name u). set (p' := (string_mod p _ _ _).1). intros H Hf Ht.
  destruct (if o_auth_token_generate (m_opt m) && m_auth_token_sent m then m_auth_token m else None) as [token|] eqn:Etok.
  - injection H as <-. apply verify_auth_token_sound in Ht as (Hl & Hp & He). split; [done|]. left. exists token.
    destruct (o_auth_token_generate (m_opt m)); [|done]. destruct (m_auth_token_sent m); [|done]. done.
  - match type of H with (if ?b then _ else _) = _ => destruct b eqn:Es end; [|injection H as <-; congruence]. apply andb_prop in Es as [_ Es].
    destruct (tls_lock_username m u') as [m1 b] eqn:El. pose proof (lock_username_fields _ _ _ _ El) as (_ & _ & Hn).
    destruct b; [|ret_inv; rewrite Hn in Ht by done; done].
    split; [by eapply lock_username_sound|]. right. intros Hs. by rewrite Hs in Es.
Qed.

Lemma authenticate_peer_sound kx m i msg m' :
  authenticate_peer kx m i msg = Ret (Some m') -> authenticated m i = false -> authenticated m' i = true ->
  peer_credentials (kx_auth kx) m i msg.
Proof.
  unfold authenticate_peer, peer_credentials. destruct (o_user_pass_script (m_opt m)).
  - destruct (km2_username msg) as [u|], (km2_password msg) as [p|]; intros H Hf Ht; try destruct (o_user_pass_optional _) eqn:Eo;
      cbn [negb] in H; ret_inv; try discriminate; eexists _, _; (split; [|by eapply verify_user_pass_sound]); auto.
  - destruct (s_verified _); [done|by intros].
Qed.

(** ** The last checks only take away *)

Definition locked_cn_ok (m : tls_multi) (i : tm_index) : Prop :=
  forall locked, m_locked_cn m = Some locked -> s_common_name (m_session m i) = Some locked.

Definition locked_certs_ok (m : tls_multi) (i : tm_index) : Prop :=
  forall locked chs, m_locked_cert_hash_set m = Some locked -> s_cert_hash_set (m_session m i) = Some chs -> chs = locked.

Definition ccd_ok (env : auth_env) (m : tls_multi) (i : tm_index) : Prop :=
  o_ccd_exclusive (m_opt m) = true ->
  exists cn, s_common_name (m_session m i) = Some cn /\ cn <> CCD_DEFAULT /\ ae_ccd_file env cn = true.

(** Each check, on an authenticated key, keeps it so only when it holds, and then
    changes nothing. *)
Lemma check_locked_cn_sound m i :
  authenticated (check_locked_cn m i) i = true -> is_Some (s_common_name (m_session m i)) ->
  check_locked_cn m i = m /\ authenticated m i = true /\ locked_cn_ok m i.
Proof.
  unfold check_locked_cn, locked_cn_ok. intros Ha [cn Hcn]. rewrite Hcn in *. destruct (m_locked_cn m) as [l|]; [|by split_and!].
  change (ks_authenticated (m_key m (i, KS_PRIMARY))) with (authenticated m i) in *.
  destruct (authenticated m i) eqn:E; cbn [andb] in *; [|congruence]. destruct (bool_decide (cn = l)) eqn:El; cbn [negb] in *.
  - apply bool_decide_eq_true in El as ->. split_and!; [done..|]. by intros ? [= <-].
  - by rewrite authenticated_deauthenticate in Ha.
Qed.

Lemma check_locked_certs_sound m i :
  authenticated (check_locked_certs m i) i = true ->
  check_locked_certs m i = m /\ authenticated m i = true /\ locked_certs_ok m i.
Proof.
  unfold check_locked_certs, locked_certs_ok. intros Ha.
  destruct (m_locked_cert_hash_set m) as [l|]; [|by split_and!]. destruct (s_cert_hash_set _) as [chs|]; [|by split_and!].
  change (ks_authenticated (m_key m (i, KS_PRIMARY))) with (authenticated m i) in *.
  destruct (authenticated m i) eqn:E; cbn [andb] in *; [|congruence]. unfold cert_hash_compare in *.
  destruct (bool_decide (Some chs = Some l)) eqn:El; cbn [negb] in *; [|by rewrite authenticated_deauthenticate in Ha].
  apply bool_decide_eq_true in El as [= ->]. split_and!; [done..|]. by intros ? ? [= <-] [= <-].
Qed.

Lemma check_ccd_sound env m i :
  authenticated (check_ccd_exclusive env m i) i = true ->
  check_ccd_exclusive env m i = m /\ authenticated m i = true /\ ccd_ok env m i.
Proof.
  unfold check_ccd_exclusive, ccd_ok. intros Ha. change (ks_authenticated (m_key m (i, KS_PRIMARY))) with (authenticated m i) in *.
  destruct (authenticated m i) eqn:E; cbn [andb] in *; [|congruence]. destruct (o_ccd_exclusive (m_opt m)); [|by split_and!].
  destruct (s_common_name _) as [cn|] eqn:Ecn; [|by autorewrite with auth in Ha].
  destruct (bool_decide (cn = CCD_DEFAULT)) eqn:Ed; cbn [orb] in *; [by autorewrite with auth in Ha|].
  destruct (ae_ccd_file env cn) eqn:Ef; cbn [negb] in *; [|by autorewrite with auth in Ha].
  split_and!; [done..|]. intros _. exists cn. by apply bool_decide_eq_false in Ed.
Qed.

Lemma final_checks_sound env m i :
  authenticated (verify_final_auth_checks env m i) i = true ->
  authenticated m i = true /\
  locked_cn_ok (verify_final_auth_checks env m i) i /\ locked_certs_ok (verify_final_auth_checks env m i) i /\
  ccd_ok env (verify_final_auth_checks env m i) i.
Proof.
  set (m0 := match s_common_name (m_session m i) with Some _ => m | None => set_common_name_at m i (Some []) end).
  assert (E : verify_final_auth_checks env m i = check_ccd_exclusive env (check_locked_certs (check_locked_cn m0 i) i) i).
  { unfold verify_final_auth_checks, m0. by destruct (s_common_name (m_session m i)). }
  assert (E0 : authenticated m0 i = authenticated m i /\ is_Some (s_common_name (m_session m0 i))).
  { unfold m0. destruct (s_common_name (m_session m i)) eqn:En; [rewrite En; eauto|]. split; [apply authenticated_common_name|].
    destruct m, i; by eexists. }
  destruct E0 as [E0 Hcn]. rewrite E, <- E0. clearbody m0. intros Ha.
  destruct (check_ccd_sound _ _ _ Ha) as (-> & Ha2 & H3). destruct (check_locked_certs_sound _ _ Ha2) as (E2 & Ha1 & H2).
  rewrite E2 in *. destruct (check_locked_cn_sound _ _ Ha1 Hcn) as (E1 & Ha0 & H1). rewrite E1 in *. done.
Qed.

(** ** The exchange *)

(** The fields the conditions read. *)
Definition auth_view (m : tls_multi) (i : tm_index) :=
  (m_locked_cn m, m_locked_cert_hash_set m, s_common_name (m_session m i), s_cert_hash_set (m_session m i),
   o_ccd_exclusive (m_opt m), authenticated m i).

Lemma auth_view_ok env m m' i :
  auth_view m' i = auth_view m i ->
  locked_cn_ok m i /\ locked_certs_ok m i /\ ccd_ok env m i -> locked_cn_ok m' i /\ locked_certs_ok m' i /\ ccd_ok env m' i.
Proof.
  unfold auth_view, locked_cn_ok, locked_certs_ok, ccd_ok. intros [= -> -> -> -> -> _]. done.
Qed.

Lemma generate_auth_view md5 sha1 m i m' ok :
  tls_session_generate_data_channel_keys md5 sha1 m i = Ret (m', ok) -> auth_view m' i = auth_view m i.
Proof.
  unfold tls_session_generate_data_channel_keys. intros H. ret_inv.
  match goal with H : (if ?b then _ else _) = _ |- _ => destruct b end; ret_inv; by destruct m, i.
Qed.

Lemma read_buf_auth_view m i b : auth_view (set_read_buf m i b) i = auth_view m i.
Proof. by destruct m, i. Qed.

Lemma note_peer_credentials env m i src msg :
  peer_credentials env (note_peer (set_authenticated (set_key_src m i src) i false) msg) i msg -> peer_credentials env m i msg.
Proof. unfold note_peer. destruct (_ && _); by destruct m, i. Qed.

Lemma check_occ_sound m i opts :
  authenticated (check_occ m i opts) i = true ->
  check_occ m i opts = m /\ authenticated m i = true /\
  (o_opt_verify (m_opt m) = true -> o_disable_occ (m_opt m) = false -> options_cmp_equal opts (o_remote_options (m_opt m)) = true).
Proof.
  unfold check_occ. destruct (o_disable_occ (m_opt m)); cbn [negb andb]; [by intros Ha; split_and!|].
  destruct (options_cmp_equal _ _); cbn [negb andb]; [by intros Ha; split_and!|]. destruct (o_opt_verify (m_opt m)); [|by intros Ha; split_and!].
  by rewrite authenticated_set.
Qed.

(** The options keep what the exchange does not negotiate. *)
Lemma frame_occ i m m' :
  kx_frame i m m' -> o_opt_verify (m_opt m') = o_opt_verify (m_opt m) /\ o_disable_occ (m_opt m') = o_disable_occ (m_opt m) /\
    o_remote_options (m_opt m') = o_remote_options (m_opt m).
Proof.
  intros [Ho _ _ _]. apply (f_equal (fun o => (o_opt_verify o, o_disable_occ o, o_remote_options o))) in Ho.
  injection Ho as E1 E2 E3. done.
Qed.

(** C9: the exchange of key method 2 leaves the key authenticated only if the peer's
    message passes every check asked for: the user name and password are accepted
    by the script or are a token still valid, under the user name the connection
    is locked to, or (without password check) the certificate was verified; the
    common name and the certificates are those the connection is locked to;
    --ccd-exclusive finds the client's file; and with --opt-verify the options match. *)
Theorem peer_authenticated_only_if_admitted md5 sha1 kx m i m' :
  key_method_2_read md5 sha1 kx m i = Ret (m', true) -> authenticated m' i = true ->
  exists src buf msg,
    read_km2_message (ks_key_src (m_key m (prim i))) (o_server (m_opt m)) (ks_plaintext_read_buf (m_key m (prim i)))
      = Ret (src, buf, Some msg) /\
    peer_credentials (kx_auth kx) m i msg /\
    locked_cn_ok m' i /\ locked_certs_ok m' i /\ ccd_ok (kx_auth kx) m' i /\
    (o_opt_verify (m_opt m) = true -> o_disable_occ (m_opt m) = false ->
       options_cmp_equal (km2_options msg) (o_remote_options (m_opt m)) = true).
Proof.
  unfold key_method_2_read. intros H Ha. ret_inv.
  destruct o as [msg|]; [|unfold km2_read_error in H; ret_inv; done]. exists k, b, msg. split; [done|]. ret_inv.
  match goal with H : authenticate_peer _ _ _ _ = Ret ?x |- _ => rename H into Hp; destruct x as [m1|] end;
    [|unfold km2_read_error in H; ret_inv; done]. ret_inv.
  set (m2 := check_occ _ _ _) in H.
  assert (Hv : auth_view m' i = auth_view m2 i).
  { destruct (client_generates_now _ _); ret_inv; [|apply read_buf_auth_view].
    match goal with H : tls_session_generate_data_channel_keys _ _ _ _ = _ |- _ => apply generate_auth_view in H end.
    match goal with H : (if ?b then _ else _) = _ |- _ => destruct b end;
      [injection H as <-|unfold km2_read_error in H; ret_inv; done].
    etrans; [eassumption|apply read_buf_auth_view]. }
  assert (Ha2 : authenticated m2 i = true) by (rewrite <- Ha; symmetry; exact (f_equal snd Hv)).
  destruct (check_occ_sound _ _ _ Ha2) as (E2 & Ha3 & Hocc). clear H. unfold m2 in *. rewrite E2 in Hv. clear m2 E2 Ha2.
  destruct (ks_authenticated (m_key m1 (prim i))) eqn:E1.
  2: { unfold authenticated in Ha3. congruence. }
  destruct (final_checks_sound _ _ _ Ha3) as (_ & Hfin).
  pose proof (frame_authenticate_peer _ _ _ _ _ Hp) as F1. pose proof (frame_final_checks (kx_auth kx) m1 i) as F2.
  assert (F0 : kx_frame i m (note_peer (set_authenticated (set_key_src m i k) i false) msg)).
  { etrans; [apply frame_set_key_src|]. etrans; [apply frame_set_authenticated|apply frame_note_peer]. }
  destruct (frame_occ _ _ _ (transitivity F0 (transitivity F1 F2))) as (O1 & O2 & O3). rewrite O1, O2, O3 in Hocc.
  split; [|destruct (auth_view_ok _ _ _ _ Hv Hfin) as (? & ? & ?); by split_and!].
  eapply note_peer_credentials, authenticate_peer_sound; [exact Hp| |exact E1].
  destruct (note_peer_view (set_authenticated (set_key_src m i k) i false) msg i) as (_ & _ & Hk).
  unfold authenticated. rewrite Hk. by destruct m, i.
Qed.

(** A server that checks passwords, and the message of its user "u". *)
Definition demo_auth_server : tls_multi :=
  let m := demo_end true in
  received (m <| m_opt := m_opt m <| o_user_pass_script := true |> |>) TM_ACTIVE
    (km2_bytes (mkfields false demo_src [65; 66] (Some ([117], [112])) None)).

Definition demo_auth_kx : kx_input :=
  mkkx (replicate 48 1) (replicate 32 2) (replicate 32 3) (mkk [] []) None None
    (mkauth 100 (fun _ u p => bool_decide (u = [117]) && bool_decide (p = [112])) (fun _ => true) (replicate 32 9)).

Definition demo_auth_result : tls_multi :=
  match key_method_2_read toy_md5 toy_sha1 demo_auth_kx demo_auth_server TM_ACTIVE with Ret (m, _) => m | _ => demo_auth_server end.

Lemma peer_authenticated_only_if_admitted_witness :
  key_method_2_read toy_md5 toy_sha1 demo_auth_kx demo_auth_server TM_ACTIVE = Ret (demo_auth_result, true) /\
  authenticated demo_auth_result TM_ACTIVE = true /\
  exists msg, peer_credentials (kx_auth demo_auth_kx) demo_auth_server TM_ACTIVE msg.
Proof.
  assert (E : key_method_2_read toy_md5 toy_sha1 demo_auth_kx demo_auth_server TM_ACTIVE = Ret (demo_auth_result, true))
    by (vm_compute; reflexivity).
  assert (A : authenticated demo_auth_result TM_ACTIVE = true) by (vm_compute; reflexivity).
  split; [exact E|]. split; [exact A|].
  destruct (peer_authenticated_only_if_admitted toy_md5 toy_sha1 demo_auth_kx demo_auth_server TM_ACTIVE demo_auth_result E A)
    as (src & buf & msg & _ & H & _). exists msg. exact H.
Defined.
