(* ===== verification/TlsSafety.v ===== *)
(** * What the tables of keys guarantee

    The consequences of the invariant for the operations of [ssl.c]: its assertions
    on the states of keys hold, each call of [tls_process] ends, and a data packet
    is sent and accepted only under a key that its exchange has finished. *)
From S2P Require Import Prelude Integer Buffer PacketId Reliable ControlChannel Mtu Crypto CryptoSpec TlsWrap LinkAddr SslCommon.
From S2P Require Import Auth KeyExchange CryptoParams KeyExchangeSpec TlsSession TlsProcess TlsProcessSpec TlsInvariant TlsDemo.

(** ** Keys for data packets *)

Lemma select_encrypt_sound now m scan sel r :
  select_encrypt_key now m scan sel = Some r ->
  sel = Some r \/ r ∈ scan /\ S_ACTIVE <= ks_state (m_key m r) /\ ks_authenticated (m_key m r) = true
                 /\ kb_initialized (ks_keys (m_key m r)) = true.
Proof.
  revert sel. induction scan as [|ij scan IH]; intros sel; cbn [select_encrypt_key]; [by left|].
  destruct (_ && _ && _) eqn:E.
  - apply andb_prop in E as [[E1%Z.leb_le E2]%andb_prop E3].
    destruct (_ <=? now); [intros [= <-]; right; split_and!; [left|done..]|].
    intros [Hs|(Hin & ?)]%IH; [|right; split; [by right|done]]. destruct sel; [by left|]. injection Hs as <-.
    right. split; [left|done].
  - intros [->|(Hin & ?)]%IH; [by left|]. right. split; [by right|done].
Qed.

(** Which keys may decrypt a packet of a number, from an address. *)
Definition may_decrypt (m : tls_multi) (from : link_socket_actual) (key_id : Z) (floated : bool) (k : key_state) : Prop :=
  DECRYPT_KEY_ENABLED m k = true /\ ks_key_id k = key_id /\ ks_authenticated k = true /\
  (floated = true \/ link_socket_actual_match from (ks_remote_addr k) = Ret true).

Lemma decrypt_key_match_spec m from key_id floated k :
  decrypt_key_match m from key_id floated k = Ret true <-> may_decrypt m from key_id floated k.
Proof.
  unfold decrypt_key_match, may_decrypt. destruct (DECRYPT_KEY_ENABLED m k); cbn [andb]; [|naive_solver].
  destruct (Z.eqb_spec key_id (ks_key_id k)) as [E|E]; cbn [andb]; [|naive_solver].
  destruct (ks_authenticated k); [|naive_solver]. destruct floated; naive_solver.
Qed.

Lemma find_decrypt_sound m from key_id floated scan r :
  find_decrypt_key m from key_id floated scan = Ret (Some r) -> r ∈ scan /\ may_decrypt m from key_id floated (m_key m r).
Proof.
  induction scan as [|ij scan IH]; cbn [find_decrypt_key]; [done|]. intros H. ret_inv.
  match goal with H : decrypt_key_match _ _ _ _ _ = Ret ?b |- _ => destruct b; ret_inv end.
  - split; [left|by apply decrypt_key_match_spec].
  - destruct (IH H) as [? ?]. split; [by right|done].
Qed.

(** The number in the packet's first byte. *)
Definition packet_key_id (buf : buffer) : outcome Z := p ← bptr buf; c ← buf_load1 buf p; Ret (Z.land c P_KEY_ID_MASK).

Lemma pre_decrypt_key ctr sha now script m from buf floated pd ij :
  tls_pre_decrypt ctr sha now script m from buf floated = Ret pd -> pd_opt pd = Some ij ->
  exists id, packet_key_id buf = Ret id /\ ij ∈ key_scan /\ may_decrypt m from id floated (m_key m ij) /\
    kb_initialized (ks_keys (m_key m ij)) = true.
Proof.
  unfold tls_pre_decrypt. destruct (0 <? _); intros H Hp; ret_inv; [|done]. 
  destruct (_ || _).
  - exists (Z.land x0 P_KEY_ID_MASK). unfold packet_key_id. rewrite H0. cbn [mbind outcome_mbind]. rewrite H1. split; [done|].
    unfold tls_pre_decrypt_data in H. ret_inv.
    match goal with H : match ?o with Some _ => _ | None => _ end = Ret pd |- _ => destruct o as [r|]; [|by injection H as <-] end.
    destruct (kb_initialized (ks_keys (m_key m r))) eqn:Ei; cbn [negb] in H; [|by injection H as <-].
    match goal with H : find_decrypt_key _ _ _ _ _ = _ |- _ => apply find_decrypt_sound in H as [Hin Hmay] end.
    ret_inv. destruct (buf_advance _ _) as [b1 ok1]. ret_inv.
    destruct (_ =? P_DATA_V1); ret_inv; [cbn in Hp; by simplify_eq|]. destruct (_ <? 4); ret_inv; [done|].
    destruct (buf_advance _ _) as [b2 ok2]. ret_inv. cbn in Hp. by simplify_eq.
  - exfalso. unfold tls_pre_decrypt_control in H. destruct (_ || _); [by ret_inv|]. destruct (_ || _); [by ret_inv|]. ret_inv.
    destruct o as [sid|]; [|by ret_inv]. destruct (negb _); [by ret_inv|]. ret_inv.
    destruct o as [[[i burst] new_link]|]; [|by ret_inv]. unfold accept_control in H. ret_inv.
    match goal with H : (if negb ?b then _ else _) = Ret pd |- _ => destruct b; cbn [negb] in H end; [|by ret_inv].
    match goal with H : (if negb ?b then _ else _) = Ret pd |- _ => destruct b; cbn [negb] in H end; ret_inv; [|done].
    match goal with H : match ?o with Error => _ | _ => _ end = Ret pd |- _ => destruct o; by injection H as <- end.
Qed.

(** The two keys of a session never answer to the same number. *)
Lemma may_decrypt_unique m i from id floated j j' :
  multi_ok m -> may_decrypt m from id floated (m_key m (i, j)) -> may_decrypt m from id floated (m_key m (i, j')) -> j = j'.
Proof.
  intros Hm (E1 & I1 & _) (E2 & I2 & _). pose proof (mo_session _ Hm i) as Hs. pose proof (so_distinct _ _ Hs) as Hd.
  assert (Hen : forall k, DECRYPT_KEY_ENABLED m k = true -> S_INITIAL <= ks_state k).
  { intros k Hk%Z.leb_le. unfold S_GOT_KEY, S_INITIAL in *. destruct (o_server _); lia. }
  destruct j, j'; try done; apply Hen in E1, E2; unfold m_key in *; cbn [fst snd s_key] in *; exfalso; apply Hd; auto; congruence.
Qed.

(** C5: in every state the TLS layer can reach, a key selected for an outgoing data
    packet has finished its handshake, is authenticated and has its ciphers set up;
    and a key is handed to the decryption of an incoming data packet only if its exchange got
    that far, it is authenticated and set up, it has the number in the packet's first byte, and
    the packet comes from the key's address (unless the caller already accepted a new
    one); it is then the only key of its session that could be meant. *)
Theorem data_keys_sound m :
  tls_reachable m ->
  (forall now buf ij, (tls_pre_encrypt now m buf).2 = Some ij ->
     ij ∈ key_scan /\ S_ACTIVE <= ks_state (m_key m ij) /\ ks_authenticated (m_key m ij) = true /\
     kb_initialized (ks_keys (m_key m ij)) = true) /\
  (forall ctr sha now script from buf floated pd i j,
     tls_pre_decrypt ctr sha now script m from buf floated = Ret pd -> pd_opt pd = Some (i, j) ->
     exists id, packet_key_id buf = Ret id /\ (i, j) ∈ key_scan /\
       may_decrypt m from id floated (m_key m (i, j)) /\ kb_initialized (ks_keys (m_key m (i, j))) = true /\
       forall j', may_decrypt m from id floated (m_key m (i, j')) -> j' = j).
Proof.
  intros Hm%reachable_ok. split.
  - intros now buf ij. unfold tls_pre_encrypt. destruct (0 <? _); [|done].
    destruct (select_encrypt_key _ _ _ _) as [r|] eqn:E; [|done]. cbn [snd]. intros [= ->].
    apply select_encrypt_sound in E as [E|E]; [done|]. destruct ij as [[] []]; exact E.
  - intros ctr sha now script from buf floated pd i j H Hp. destruct (pre_decrypt_key _ _ _ _ _ _ _ _ _ _ H Hp) as (id & H1 & H2 & H3 & H4).
    exists id. split_and!; try done. intros j' Hj. by eapply may_decrypt_unique.
Qed.

(** ** Assertions *)

Lemma lame_duck_returns b now s w : session_ok b s -> exists w' die, lame_duck_must_die now s w = Ret (w', die).
Proof.
  intros Hs. unfold lame_duck_must_die. destruct (_ <=? _) eqn:E; [|by eauto]. apply Z.leb_le, (so_must_die _ _ Hs) in E.
  apply Z.eqb_neq in E. rewrite E. cbn. destruct (_ <? _); by eauto.
Qed.

(** The part of [tls_process] before its loop, a soft reset included. *)
Lemma start_returns now m i w :
  multi_ok m -> S_INITIAL <= ks_state (m_key m (prim i)) -> 0 < now -> exists m' w', tls_process_start now m i w = Ret (m', w').
Proof.
  intros Hm Hst Hnow. pose proof (mo_session _ Hm i) as Hs. pose proof (so_sid _ _ Hs Hst) as Hsid.
  destruct (mo_options _ Hm) as (Hw & Hinit & _). unfold tls_process_start. rewrite Hsid.
  replace (ks_state (m_key m (prim i)) =? S_UNDEF) with false by (symmetry; apply Z.eqb_neq; unfold S_UNDEF, S_INITIAL in *; lia).
  replace (ks_state (m_key m (prim i)) =? S_ERROR) with false by (symmetry; apply Z.eqb_neq; unfold S_ERROR, S_INITIAL in *; lia).
  cbn [negb c_assert mbind outcome_mbind].
  assert (Hr : exists s, (if renegotiate now (m_opt m) (m_key m (prim i)) then key_state_soft_reset now (m_opt m) (m_session m i)
                          else Ret (m_session m i)) = Ret s /\ session_ok (method_1 m) s).
  { destruct (renegotiate _ _ _); [|by eauto].
    destruct (key_state_soft_reset now (m_opt m) (m_session m i)) as [s| |] eqn:E.
    - exists s. split; [done|]. by eapply soft_reset_ok.
    - exfalso. revert E. unfold key_state_soft_reset. match goal with |- context [key_state_init _ ?s1] => destruct (Hinit s1) as ([s2 k2] & ->) end. done.
    - exfalso. revert E. unfold key_state_soft_reset. match goal with |- context [key_state_init _ ?s1] => destruct (Hinit s1) as ([s2 k2] & ->) end. done. }
  destruct Hr as (s & -> & Hs'). cbn [mbind outcome_mbind]. destruct (lame_duck_returns _ now s w Hs') as (w' & die & ->).
  cbn [mbind outcome_mbind]. by eauto.
Qed.

Lemma move_returns sid m dest src reinit : options_ok (m_opt m) -> src <> dest -> exists m', move_session sid m dest src reinit = Ret m'.
Proof.
  intros (_ & _ & Hi) Hne. unfold move_session. rewrite bool_decide_eq_false_2 by done. cbn [negb c_assert mbind outcome_mbind].
  destruct reinit; [|by eauto]. rewrite !m_opt_set_session. destruct (Hi sid) as (s & ->). cbn. by eauto.
Qed.

Lemma after_error_returns env i m : options_ok (m_opt m) -> exists m', after_error env i m = Ret m'.
Proof.
  intros Ho. unfold after_error. destruct (_ && _); [by apply move_returns|]. unfold reset_session. rewrite m_opt_set_session.
  destruct (proj2 (proj2 Ho) (me_sid env i)) as (s & E). cbn [m_opt update] in *. rewrite E. cbn. by eauto.
Qed.

(** The tables a turn of the loop works on: the active session has taken over the peer's
    address. *)
Definition turn_tables (i : tm_index) (st : mstate) : tls_multi :=
  let m := ms_multi st in
  if bool_decide (i = TM_ACTIVE) && (ks_state (m_key m (prim i)) =? S_INITIAL) && link_socket_actual_defined (li_actual (ms_info st))
  then m_set_key m (prim i) (m_key m (prim i) <| ks_remote_addr := li_actual (ms_info st) |>) else m.

Lemma turn_tables_ok i st : multi_ok (ms_multi st) -> multi_ok (turn_tables i st).
Proof. intros Hm. unfold turn_tables. destruct (_ && _); [|done]. by eapply multi_ok_same, Hm; apply same_addr. Qed.

Section Turns.
Context (md5 sha1 : list Z -> hmac_ctx) (env : multi_env) (Henv : env_ok env).

(** The state in which the loop of [tls_multi_process] comes to the session [i]. *)
Definition turn (st0 : mstate) (i : tm_index) (st : mstate) : Prop :=
  match i with
  | TM_ACTIVE => st = st0
  | TM_UNTRUSTED => process_session md5 sha1 env TM_ACTIVE st0 = Ret st
  | TM_LAME_DUCK => exists st1, process_session md5 sha1 env TM_ACTIVE st0 = Ret st1 /\ process_session md5 sha1 env TM_UNTRUSTED st1 = Ret st
  end.

Lemma turn_ok st0 i st : multi_ok (ms_multi st0) -> turn st0 i st -> multi_ok (ms_multi st).
Proof using Henv.
  intros Hm. destruct i; cbn [turn]; [by intros ->|intros H; by eapply process_session_ok|].
  intros (st1 & H1 & H2). eapply process_session_ok; [exact H2|done|]. by eapply process_session_ok.
Qed.

(** A turn that does not return is stopped inside [tls_process], past its assertions. *)
Lemma turn_stops i st :
  multi_ok (ms_multi st) -> (forall st', process_session md5 sha1 env i st <> Ret st') ->
  (exists m' w', tls_process_start (pe_now (me_process env i)) (turn_tables i st) i (ms_wakeup st) = Ret (m', w')) /\
  forall r, tls_process md5 sha1 TLS_PROCESS_FUEL (me_process env i) (turn_tables i st) i (ms_info st) (ms_to_link st) (ms_wakeup st) <> Ret r.
Proof using Henv.
  intros Hm Hno. destruct (Henv i) as [Hnow Hsid]. pose proof (turn_tables_ok i st Hm) as Hm1.
  unfold process_session in Hno. fold (turn_tables i st) in Hno. cbn [ms_info ms_to_link ms_wakeup update] in Hno.
  destruct ((S_INITIAL <=? ks_state (m_key (turn_tables i st) (prim i))) && _) eqn:E in Hno; [|by edestruct Hno].
  apply andb_prop in E as [E%Z.leb_le _]. split; [by apply start_returns|]. intros r Hr.
  set (st1 := st <| ms_multi := turn_tables i st |>) in Hno.
  change (ms_info st1) with (ms_info st) in Hno. change (ms_to_link st1) with (ms_to_link st) in Hno. change (ms_wakeup st1) with (ms_wakeup st) in Hno.
  destruct r as [res|]; [|by apply (process_ends md5 sha1) in Hr; [|apply (ok_sized _ _ (so_key0 _ _ (mo_session _ Hm1 i)))]].
  rewrite Hr in Hno. cbn [mbind outcome_mbind must] in Hno.
  pose proof (process_ok md5 sha1 _ _ _ _ _ _ _ _ Hr Hm1 (conj E (proj2 (ok_state _ _ (so_key0 _ _ (mo_session _ Hm1 i))))) Hnow) as Hap.
  set (m2 := match pr_addr res with Some _ => _ | None => _ end) in Hno.
  assert (Ho : options_ok (m_opt m2)) by (unfold m2; destruct (pr_addr res); apply Hap).
  destruct (_ =? S_ERROR) in Hno; [|by edestruct Hno]. destruct (after_error_returns env i m2 Ho) as (m3 & E3).
  rewrite E3 in Hno. by edestruct Hno.
Qed.

(** Once the three turns have returned the rest does: the retiring session has a time to
    die, and the untrusted session can be promoted. *)
Lemma rest_returns m info to_link addr w st2 st3 :
  multi_ok m -> turn (mkms m info to_link addr w false false) TM_LAME_DUCK st2 -> process_session md5 sha1 env TM_LAME_DUCK st2 = Ret st3 ->
  exists st r, tls_multi_process md5 sha1 env m info to_link addr w = Ret (st, r).
Proof using Henv.
  intros Hm Ht H3. pose proof (turn_ok (mkms m info to_link addr w false false) TM_LAME_DUCK st2 Hm Ht) as Hm2. pose proof (process_session_ok _ _ _ _ _ _ H3 Henv Hm2) as Hm3.
  destruct Ht as (st1 & H1 & H2). unfold tls_multi_process. rewrite H1. cbn [mbind outcome_mbind]. rewrite H2. cbn [mbind outcome_mbind]. rewrite H3. cbn [mbind outcome_mbind].
  destruct (lame_duck_returns _ (me_now env) _ (ms_wakeup st3) (mo_session _ Hm3 TM_LAME_DUCK)) as (w' & die & ->). cbn [mbind outcome_mbind].
  set (m4 := if die then _ else _). assert (Ho : options_ok (m_opt m4)) by (unfold m4; destruct die; rewrite ?m_opt_set_session; apply Hm3).
  assert (Hp : exists m5, promote_untrusted (me_sid_promoted env) m4 = Ret m5)
    by (unfold promote_untrusted; destruct (DECRYPT_KEY_ENABLED _ _); [by apply move_returns|by eauto]).
  destruct Hp as (m5 & ->). cbn [mbind outcome_mbind]. by eauto.
Qed.
End Turns.

(** C6: the assertions of [ssl.c] on the states of keys and sessions hold.  In every state the
    TLS layer can reach, and for all clocks past the epoch: a retiring key has a time to die; a
    turn of the loop of [tls_multi_process], for each of the three sessions as the turns before
    it left them, passes the assertions at the start of [tls_process] (the key is neither
    undefined nor failed, the session has a number) and the soft reset that renegotiation asks
    for, so that a turn that does not return was stopped in the exchange itself, not
    by them nor by what follows a failed exchange; when the three turns return, so does
    [tls_multi_process], whose further assertions are on the retiring session and on the moves
    of sessions; and the session that an authenticated control packet is routed to is
    neither undefined nor failed and has a number. *)
Theorem tls_assertions_hold m :
  tls_reachable m ->
  (forall now i w, exists w' die, lame_duck_must_die now (m_session m i) w = Ret (w', die)) /\
  (forall md5 sha1 env info to_link addr w i st, env_ok env -> turn md5 sha1 env (mkms m info to_link addr w false false) i st ->
     (forall st', process_session md5 sha1 env i st <> Ret st') ->
     (exists m' w', tls_process_start (pe_now (me_process env i)) (turn_tables i st) i (ms_wakeup st) = Ret (m', w')) /\
     forall r, tls_process md5 sha1 TLS_PROCESS_FUEL (me_process env i) (turn_tables i st) i (ms_info st) (ms_to_link st) (ms_wakeup st) <> Ret r) /\
  (forall md5 sha1 env info to_link addr w st2 st3, env_ok env -> turn md5 sha1 env (mkms m info to_link addr w false false) TM_LAME_DUCK st2 ->
     process_session md5 sha1 env TM_LAME_DUCK st2 = Ret st3 -> exists st r, tls_multi_process md5 sha1 env m info to_link addr w = Ret (st, r)) /\
  (forall ctr sha now script from buf op sid m' buf' i do_burst new_link,
     0 < now -> session_id_defined sid = true ->
     route_control ctr sha now script m from buf op sid = Ret (m', buf', Some (i, do_burst, new_link)) ->
     ks_state (m_key m' (prim i)) <> S_UNDEF /\ ks_state (m_key m' (prim i)) <> S_ERROR /\
     session_id_defined (s_session_id (m_session m' i)) = true).
Proof.
  intros Hm%reachable_ok. split_and!.
  - intros now i w. eapply lame_duck_returns, Hm.
  - intros md5 sha1 env info to_link addr w i st Henv Ht. apply turn_stops; [done|].
    exact (turn_ok md5 sha1 env Henv (mkms m info to_link addr w false false) i st Hm Ht).
  - intros md5 sha1 env info to_link addr w st2 st3 Henv. by apply rest_returns.
  - intros ctr sha now script from buf op sid m' buf' i do_burst new_link Hnow Hsid H.
    apply route_control_ok in H as (Hm' & Hi & Hu); [|done..].
    assert (Hl : live (ks_state (m_key m' (prim i)))).
    { pose proof (mo_role _ Hm' i) as Hr. destruct i; [exact Hr| |done]. cbn [role_ok] in Hr. by rewrite Hu in Hr. }
    pose proof (so_sid _ _ (mo_session _ Hm' i) (proj1 Hl)) as Hsid'. unfold live, S_UNDEF, S_ERROR, S_INITIAL in *.
    split_and!; [lia|lia|done].
Qed.

(** ** Termination *)

(** C7: whatever the TLS engine answers in each round, whatever the clock says and
    whatever packets arrived, the loop of [tls_process] ends within 25 rounds, for
    every session of every state the TLS layer can reach: a call never spins. *)
Theorem tls_process_terminates md5 sha1 env m i info to_link wakeup :
  tls_reachable m -> tls_process md5 sha1 TLS_PROCESS_FUEL env m i info to_link wakeup <> Ret None.
Proof.
  intros Hm%reachable_ok. apply process_ends. apply (ok_sized _ _ (so_key0 _ _ (mo_session _ Hm i))).
Qed.

(** ** The first key method *)

(** With --key-method 1 no data packet is ever sent or accepted: the exchange
    sets the two ciphers up but not the mark [initialized] of the pair, which the selection
    of keys has required since ciphers can be negotiated. *)
Theorem key_method_1_carries_no_data m :
  tls_reachable m -> o_key_method (m_opt m) = 1 ->
  (forall now buf, (tls_pre_encrypt now m buf).2 = None) /\
  (forall ctr sha now script from buf floated pd,
     tls_pre_decrypt ctr sha now script m from buf floated = Ret pd -> pd_opt pd = None).
Proof.
  intros Hm%reachable_ok H1.
  assert (Hno : forall ij, kb_initialized (ks_keys (m_key m ij)) = false).
  { intros [i j]. pose proof (mo_session _ Hm i) as Hs. unfold method_1 in Hs. rewrite H1 in Hs.
    destruct j; [apply (ok_initialized _ _ (so_key0 _ _ Hs))|apply (ok_initialized _ _ (so_key1 _ _ Hs))]. }
  split.
  - intros now buf. unfold tls_pre_encrypt. destruct (0 <? _); [|done].
    destruct (select_encrypt_key _ _ _ _) as [r|] eqn:E; [|done]. exfalso.
    apply select_encrypt_sound in E as [E|(_ & _ & _ & E)]; [done|]. specialize (Hno r). destruct r as [[] []]; cbn in *; congruence.
  - intros ctr sha now script from buf floated pd H. destruct (pd_opt pd) as [ij|] eqn:E; [|done]. exfalso.
    destruct (pre_decrypt_key _ _ _ _ _ _ _ _ _ _ H E) as (id & _ & _ & _ & E'). specialize (Hno ij). congruence.
Qed.

(** ** Well-formed tables *)

(** C11: in every state the TLS layer can reach the tables are well formed: states
    are in range, the active session is live and the untrusted one too (or absent
    when one session is allowed), key numbers have three bits, a session number is
    set while its key is under way and the next key number follows the current one,
    a retiring key has a time to die and another number than its successor, and the
    reliability objects have at most 4 and 8 places. *)
Theorem tls_tables_well_formed m : tls_reachable m -> multi_ok m.
Proof. apply reachable_ok. Qed.

(** ** Data packets from one end to the other *)

Definition tls_prepend_opcode (v2 : bool) (m : tls_multi) (buf : buffer) : outcome buffer :=
  if v2 then tls_prepend_opcode_v2 m buf else tls_prepend_opcode_v1 m buf.

Definition data_op (v2 : bool) : Z := if v2 then P_DATA_V2 else P_DATA_V1.

(** The header: the opcode and the key's number, and 24 bits of the peer's
    number in the second version. *)
Definition data_header (v2 : bool) (m : tls_multi) (ij : tm_index * ks_index) : list Z :=
  (data_op v2 * 8 + ks_key_id (m_key m ij)) :: if v2 then be_bytes 3 (m_peer_id m mod 2 ^ 24) else [].

Lemma first_byte op k : 0 <= k <= 7 -> Z.lor (Z.shiftl op P_OPCODE_SHIFT) k = op * 8 + k.
Proof.
  intros Hk. rewrite Z.lor_comm. change P_OPCODE_SHIFT with 3. rewrite lor_shiftl_add by (change (2 ^ 3) with 8; lia).
  change (2 ^ 3) with 8. lia.
Qed.

Lemma list_eq_cons {A} (x y : A) l l' : x = y -> l = l' -> x :: l = y :: l'.
Proof. by intros -> ->. Qed.

Lemma prepend_header v2 m ij pre c post :
  m_save_ks m = Some ij -> 0 <= ks_key_id (m_key m ij) <= 7 -> zlen (data_header v2 m ij) <= zlen pre ->
  tls_prepend_opcode v2 m (conc pre c post)
    = Ret (conc (ztake (zlen pre - zlen (data_header v2 m ij)) pre) (data_header v2 m ij ++ c) post).
Proof.
  intros Hs Hk. unfold tls_prepend_opcode, tls_prepend_opcode_v1, tls_prepend_opcode_v2. rewrite Hs. cbn [must mbind outcome_mbind].
  rewrite !first_byte by done. set (k := ks_key_id (m_key m ij)) in *. destruct v2.
  - replace (be_bytes 4 _) with (data_header true m ij).
    + intros Hl. rewrite buf_write_prepend_conc. bdecide. done.
    + change 0xFFFFFF with (2 ^ 24 - 1). rewrite Z.lor_comm, land_mask by lia.
      rewrite lor_shiftl_add by (pose proof (Z.mod_pos_bound (m_peer_id m) (2 ^ 24)); lia).
      unfold data_header. fold k. set (q := m_peer_id m mod 2 ^ 24).
      assert (Hq : 0 <= q < 2 ^ 24) by (apply Z.mod_pos_bound; lia).
      rewrite (u32_id (q + _)) by (unfold is_u32, P_DATA_V2; lia). change (data_op true) with 9. change P_DATA_V2 with 9.
      clearbody q k. cbn [be_bytes app]. rewrite !Z.div_div by lia. change (2 ^ 24) with 16777216 in *.
      apply list_eq_cons; [|apply list_eq_cons; [|apply list_eq_cons; [|apply list_eq_cons; [|done]]]]; Z.div_mod_to_equations; lia.
  - intros Hl. unfold data_header in *. fold k in Hl |- *. rewrite buf_write_prepend_conc. cbn [data_op] in *.
    replace (u8 (P_DATA_V1 * 8 + k)) with (P_DATA_V1 * 8 + k) by (unfold u8, P_DATA_V1; rewrite Z.mod_small; lia).
    bdecide. done.
Qed.

Lemma header_byte v2 m ij :
  0 <= ks_key_id (m_key m ij) <= 7 ->
  Z.shiftr (data_op v2 * 8 + ks_key_id (m_key m ij)) P_OPCODE_SHIFT = data_op v2 /\
  Z.land (data_op v2 * 8 + ks_key_id (m_key m ij)) P_KEY_ID_MASK = ks_key_id (m_key m ij).
Proof.
  intros Hk. set (k := ks_key_id _) in *. rewrite Z.shiftr_div_pow2 by (vm_compute; discriminate).
  change P_KEY_ID_MASK with (2 ^ 3 - 1). rewrite land_mask by lia. change (2 ^ P_OPCODE_SHIFT) with 8. change (2 ^ 3) with 8.
  split; Z.div_mod_to_equations; lia.
Qed.

Lemma header_decrypts v2 m ij ctr sha now script m' from floated pre c post ij' :
  0 <= ks_key_id (m_key m ij) <= 7 -> 1 <= zlen c ->
  find_decrypt_key m' from (ks_key_id (m_key m ij)) floated key_scan = Ret (Some ij') ->
  kb_initialized (ks_keys (m_key m' ij')) = true ->
  let hd := data_header v2 m ij in
  tls_pre_decrypt ctr sha now script m' from (conc pre (hd ++ c) post) floated =
    Ret (mkpd (m_set_key m' ij' (count_packet (m_key m' ij') (zlen c))) (conc (pre ++ hd) c post) (Some ij')
           (Some (if v2 then zlen pre else zlen (pre ++ hd))) false).
Proof.
  intros Hk Hc Hf Hi hd. unfold tls_pre_decrypt. rewrite len_conc, bptr_conc. unfold hd, data_header.
  set (x := data_op v2 * 8 + _). set (tl := if v2 then _ else []).
  assert (Htl : zlen tl = if v2 then 3 else 0) by (unfold tl; by destruct v2). cbn [app]. rewrite zlen_cons, zlen_app.
  zlen_facts. bdecide. cbn [mbind outcome_mbind].
  unfold buf_load1. cbn [data conc]. rewrite (load1_eq _ pre x ((tl ++ c) ++ post)) by done. cbn [mbind outcome_mbind].
  destruct (header_byte v2 m ij Hk) as [Eo Ek]. fold x in Eo, Ek. rewrite Eo, Ek.
  replace ((data_op v2 =? P_DATA_V1) || (data_op v2 =? P_DATA_V2)) with true by (by destruct v2).
  unfold tls_pre_decrypt_data. rewrite Hf. cbn [mbind outcome_mbind]. rewrite Hi. cbn [negb]. rewrite bptr_conc. cbn [mbind outcome_mbind].
  rewrite buf_advance_conc, zlen_cons, zlen_app. bdecide. cbn [andb c_assert mbind outcome_mbind].
  change (ztake 1 (x :: tl ++ c)) with [x]. change (zdrop 1 (x :: tl ++ c)) with (tl ++ c).
  destruct v2; cbn [data_op]; cbn [Z.eqb P_DATA_V1 P_DATA_V2].
  - rewrite len_conc, zlen_app. bdecide. rewrite buf_advance_conc, zlen_app. bdecide. cbn [andb c_assert mbind outcome_mbind].
    rewrite (ztake_app_eq 3 tl), (zdrop_app_eq 3 tl) by done. rewrite <- app_assoc, len_conc. done.
  - rewrite bptr_conc, len_conc. cbn [mbind outcome_mbind]. done.
Qed.

(** A key of the active session that can decrypt a packet is the one found. *)
Lemma find_active m from id floated j :
  multi_ok m -> may_decrypt m from id floated (m_key m (TM_ACTIVE, j)) ->
  find_decrypt_key m from id floated key_scan = Ret (Some (TM_ACTIVE, j)).
Proof.
  intros Hm Hj. pose proof (proj2 (decrypt_key_match_spec m from id floated _) Hj) as Hd.
  change key_scan with ((TM_ACTIVE, KS_PRIMARY) :: (TM_ACTIVE, KS_LAME_DUCK) :: [(TM_LAME_DUCK, KS_LAME_DUCK)]). cbn [find_decrypt_key].
  destruct j; [by rewrite Hd|].
  replace (decrypt_key_match m from id floated (m_key m (TM_ACTIVE, KS_PRIMARY))) with (Ret false); [cbn [mbind outcome_mbind]; by rewrite Hd|].
  unfold decrypt_key_match. destruct Hj as (He & <- & _ & _).
  assert (Hne : ks_key_id (m_key m (TM_ACTIVE, KS_LAME_DUCK)) <> ks_key_id (m_key m (TM_ACTIVE, KS_PRIMARY))).
  { apply (so_distinct _ _ (mo_session _ Hm TM_ACTIVE)). apply Z.leb_le in He. unfold m_key in He. cbn [fst snd s_key] in He.
    unfold S_GOT_KEY, S_INITIAL in *. destruct (o_server _); lia. }
  apply Z.eqb_neq in Hne. rewrite Hne. by rewrite andb_false_r.
Qed.

(** A data packet finds its key at the other end, in both formats: whatever the
    protection made of the payload, the header put in front of it under the key
    selected for sending leads the receiver to its own key of that number, the
    current one or the retiring one, and leaves the payload as it was handed over. *)
Theorem data_packet_finds_its_key v2 now m b m1 b1 ij pre c post ctr sha now' script m' from floated j :
  tls_reachable m -> tls_reachable m' ->
  tls_pre_encrypt now m b = (m1, b1, Some ij) -> 4 <= zlen pre -> 1 <= zlen c ->
  may_decrypt m' from (ks_key_id (m_key m ij)) floated (m_key m' (TM_ACTIVE, j)) ->
  kb_initialized (ks_keys (m_key m' (TM_ACTIVE, j))) = true ->
  exists packet pd,
    tls_prepend_opcode v2 m1 (conc pre c post) = Ret packet /\
    tls_pre_decrypt ctr sha now' script m' from packet floated = Ret pd /\
    pd_opt pd = Some (TM_ACTIVE, j) /\ content (pd_buf pd) = c.
Proof.
  intros Hm%reachable_ok Hm'%reachable_ok He Hp Hc Hmay Hi.
  assert (Hs : m_save_ks m1 = Some ij /\ m_key m1 ij = m_key m ij).
  { revert He. unfold tls_pre_encrypt. destruct (0 <? _); [|done]. destruct (select_encrypt_key _ _ _ _); [|done].
    intros [= <- _ ->]. split; [done|]. by destruct ij as [[] []]. }
  destruct Hs as [Hs Hk1].
  assert (Hid : 0 <= ks_key_id (m_key m1 ij) <= 7).
  { rewrite Hk1. destruct ij as [i []]; [apply (so_key0 _ _ (mo_session _ Hm i))|apply (so_key1 _ _ (mo_session _ Hm i))]. }
  rewrite <- Hk1 in Hmay. apply find_active in Hmay; [|done].
  assert (Hl : zlen (data_header v2 m1 ij) <= zlen pre) by (destruct v2; unfold data_header; autorewrite with zlen; cbn; lia).
  rewrite (prepend_header v2 m1 ij pre c post Hs Hid Hl).
  pose proof (header_decrypts v2 m1 ij ctr sha now' script m' from floated (ztake (zlen pre - zlen (data_header v2 m1 ij)) pre) c post _
    Hid Hc Hmay Hi) as E.
  do 2 eexists. split; [done|]. split; [exact E|]. split; [done|]. cbn [pd_buf]. apply content_conc.
Qed.

(** ** On the open tunnel of the demonstration *)

(** A data packet of the client, under its first key. *)
Definition demo_data : buffer := incoming [48; 1; 2; 3].

Definition demo_pd : pre_decrypt :=
  match tls_pre_decrypt no_cipher toy_sha1 100 None demo_open client_addr demo_data false with
  | Ret pd => pd
  | _ => pd_done demo_open demo_data false
  end.

Lemma demo_pd_eq : tls_pre_decrypt no_cipher toy_sha1 100 None demo_open client_addr demo_data false = Ret demo_pd.
Proof. vm_compute. reflexivity. Qed.

Lemma data_keys_sound_witness :
  (tls_pre_encrypt 100 demo_open demo_data).2 = Some (TM_ACTIVE, KS_PRIMARY) /\
  S_ACTIVE <= ks_state (m_key demo_open (TM_ACTIVE, KS_PRIMARY)) /\
  exists id, packet_key_id demo_data = Ret id /\ may_decrypt demo_open client_addr id false (m_key demo_open (TM_ACTIVE, KS_PRIMARY)).
Proof.
  destruct (data_keys_sound demo_open demo_open_reachable) as [He Hd].
  assert (E : (tls_pre_encrypt 100 demo_open demo_data).2 = Some (TM_ACTIVE, KS_PRIMARY)) by (vm_compute; reflexivity).
  split; [exact E|split; [apply (He 100 demo_data _ E)|]].
  destruct (Hd no_cipher toy_sha1 100 None client_addr demo_data false demo_pd TM_ACTIVE KS_PRIMARY demo_pd_eq) as (id & H1 & _ & H2 & _);
    [vm_compute; reflexivity|]. exists id. exact (conj H1 H2).
Defined.

(** The three turns of a call on the open tunnel. *)
Notation demo_turn i st := (process_session toy_md5 toy_sha1 (demo_env None) i st).

Definition demo_turns : outcome (mstate * mstate) :=
  st1 ← demo_turn TM_ACTIVE (mkms demo_open demo_info buffer_zero None 10 false false);
  st2 ← demo_turn TM_UNTRUSTED st1;
  st3 ← demo_turn TM_LAME_DUCK st2;
  Ret (st2, st3).

Lemma demo_turns_return : match demo_turns with Ret _ => true | _ => false end = true.
Proof. vm_compute. reflexivity. Qed.

Lemma demo_turns_each : exists st1 st2 st3,
  demo_turn TM_ACTIVE (mkms demo_open demo_info buffer_zero None 10 false false) = Ret st1 /\
  demo_turn TM_UNTRUSTED st1 = Ret st2 /\ demo_turn TM_LAME_DUCK st2 = Ret st3.
Proof.
  pose proof demo_turns_return as H. unfold demo_turns in H.
  destruct (demo_turn TM_ACTIVE _) as [st1| |] eqn:E1; cbn [mbind outcome_mbind] in H; [|discriminate H..].
  destruct (demo_turn TM_UNTRUSTED st1) as [st2| |] eqn:E2; cbn [mbind outcome_mbind] in H; [|discriminate H..].
  destruct (demo_turn TM_LAME_DUCK st2) as [st3| |] eqn:E3; cbn [mbind outcome_mbind] in H; [|discriminate H..].
  exists st1, st2, st3. exact (conj eq_refl (conj E2 E3)).
Qed.

Lemma tls_assertions_hold_witness :
  (exists w' die, lame_duck_must_die 100 (m_session demo_open TM_ACTIVE) 10 = Ret (w', die)) /\
  exists st r, tls_multi_process toy_md5 toy_sha1 (demo_env None) demo_open demo_info buffer_zero None 10 = Ret (st, r).
Proof.
  destruct (tls_assertions_hold demo_open demo_open_reachable) as (H1 & _ & H3 & _). split; [apply H1|].
  destruct demo_turns_each as (st1 & st2 & st3 & E1 & E2 & E3).
  exact (H3 toy_md5 toy_sha1 (demo_env None) demo_info buffer_zero None 10 st2 st3 (demo_env_ok None)
    (ex_intro _ st1 (conj E1 E2)) E3).
Defined.

(** A round with work left to do: the first turn of the open tunnel's handshake. *)
Lemma tls_process_terminates_witness :
  tls_process toy_md5 toy_sha1 TLS_PROCESS_FUEL (me_process (demo_env (Some client_km2)) TM_ACTIVE) (demo_tables true 2)
    TM_ACTIVE demo_info buffer_zero 10 <> Ret None.
Proof. apply tls_process_terminates. apply demo_tables_reachable. right; reflexivity. Defined.

Lemma key_method_1_carries_no_data_witness :
  ks_state (m_key demo_open_1 (prim TM_ACTIVE)) = S_ACTIVE /\ ks_authenticated (m_key demo_open_1 (prim TM_ACTIVE)) = true /\
  (tls_pre_encrypt 100 demo_open_1 demo_data).2 = None.
Proof.
  split; [vm_compute; reflexivity|split; [vm_compute; reflexivity|]].
  apply (proj1 (key_method_1_carries_no_data demo_open_1 demo_open_1_reachable ltac:(vm_compute; reflexivity))).
Defined.

Lemma tls_tables_well_formed_witness : multi_ok demo_open.
Proof. apply (tls_tables_well_formed demo_open demo_open_reachable). Defined.

(** From the demonstration's server to itself, with the peer's address. *)
Lemma data_packet_finds_its_key_witness :
  exists packet pd,
    tls_prepend_opcode true (tls_pre_encrypt 100 demo_open demo_data).1.1 (conc (replicate 4 0) [9; 9] []) = Ret packet /\
    tls_pre_decrypt no_cipher toy_sha1 100 None demo_open client_addr packet false = Ret pd /\
    pd_opt pd = Some (TM_ACTIVE, KS_PRIMARY) /\ content (pd_buf pd) = [9; 9].
Proof.
  apply (data_packet_finds_its_key true 100 demo_open demo_data _ (tls_pre_encrypt 100 demo_open demo_data).1.2
    (TM_ACTIVE, KS_PRIMARY) (replicate 4 0) [9; 9] [] no_cipher toy_sha1 100 None demo_open client_addr false KS_PRIMARY
    demo_open_reachable demo_open_reachable).
  - rewrite <- surjective_pairing. vm_compute. reflexivity.
  - by vm_compute.
  - by vm_compute.
  - apply decrypt_key_match_spec. vm_compute. reflexivity.
  - vm_compute. reflexivity.
Defined.
