(* ===== verification/Comp.v ===== *)
(** * Compression of data packets ([comp.c], [comp.h], [compstub.c], [lzo.c], [comp-lz4.c])

    The framing that tells the peer whether and how a packet was compressed: the first
    version puts one byte in front of the packet (or in place of its first byte, which
    moves to the end), the second one marks only packets that need it.  The compression
    itself is done by the LZO and LZ4 libraries, which are parameters ([comp_lib]).
    [struct compress_context] is a record; the algorithm's table of functions is the
    constructor [cc_alg] on which [compress] and [decompress] dispatch.  Both libraries
    are compiled in, as in the configuration of the build. *)
From S2P Require Import Prelude Integer Buffer Mtu Crypto.

(** ** Constants *)

Definition COMP_ALG_UNDEF : Z := 0.
Definition COMP_ALG_STUB : Z := 1.
Definition COMP_ALG_LZO : Z := 2.
Definition COMP_ALG_LZ4 : Z := 4.
Definition COMP_ALGV2_UNCOMPRESSED : Z := 10.
Definition COMP_ALGV2_LZ4 : Z := 11.

Definition COMP_F_ADAPTIVE : Z := 1.
Definition COMP_F_NO_ASYM : Z := 2.
Definition COMP_F_SWAP : Z := 4.
Definition COMP_F_ADVERTISE_STUBS_ONLY : Z := 8.

Definition LZO_COMPRESS_BYTE : Z := 0x66.
Definition LZ4_COMPRESS_BYTE : Z := 0x69.
Definition NO_COMPRESS_BYTE : Z := 0xFA.
Definition NO_COMPRESS_BYTE_SWAP : Z := 0xFB.
Definition COMP_ALGV2_INDICATOR_BYTE : Z := 0x50.
Definition COMP_ALGV2_UNCOMPRESSED_BYTE : Z := 0.
Definition COMP_ALGV2_LZ4_BYTE : Z := 1.

Definition COMPRESS_THRESHOLD : Z := 100.

Definition AC_SAMP_SEC : Z := 2.
Definition AC_MIN_BYTES : Z := 1000.
Definition AC_SAVE_PCT : Z := 5.
Definition AC_OFF_SEC : Z := 60.

Definition LZO_E_OK : Z := 0.

(** ** The libraries *)

(** The calls of LZO and LZ4: what [lzo_init] returns, the status and the output of the
    LZO functions (the decompressor is told the room there is), and the output of the
    LZ4 functions, [None] when they return a value that is not positive. *)
Record comp_lib : Type := mklib {
  lzo_init : Z;
  LZO_COMPRESS : list Z -> Z * list Z;
  LZO_DECOMPRESS : list Z -> Z -> Z * list Z;
  LZ4_compress_default : list Z -> Z -> option (list Z);
  LZ4_decompress_safe : list Z -> Z -> option (list Z)
}.

(** ** The context *)

Inductive compress_alg : Type := comp_stub_alg | compv2_stub_alg | lzo_alg | lz4_alg | lz4v2_alg.

#[global] Instance compress_alg_eq_dec : EqDecision compress_alg.
Proof. solve_decision. Defined.

Record lzo_adaptive_compress : Type := mkac {
  compress_state : bool;
  ac_next : Z;
  n_total : Z;
  n_comp : Z
}.

Record compress_context : Type := mkcc {
  cc_flags : Z;
  cc_alg : compress_alg;
  cc_ac : lzo_adaptive_compress;
  pre_decompress : Z;
  post_decompress : Z;
  pre_compress : Z;
  post_compress : Z
}.

Record compress_options : Type := mkcompopt { alg : Z; flags : Z }.

Definition flag_set (flags bit : Z) : bool := negb (Z.land flags bit =? 0).

Definition comp_enabled (info : compress_options) : bool := negb (alg info =? COMP_ALG_UNDEF).

Definition comp_non_stub_enabled (info : compress_options) : bool :=
  negb (alg info =? COMP_ALGV2_UNCOMPRESSED) && negb (alg info =? COMP_ALG_STUB) && negb (alg info =? COMP_ALG_UNDEF).

Definition comp_unswapped_prefix (info : compress_options) : bool := negb (flag_set (flags info) COMP_F_SWAP).

Definition count_compress (cc : compress_context) (n m : Z) : compress_context :=
  mkcc (cc_flags cc) (cc_alg cc) (cc_ac cc) (pre_decompress cc) (post_decompress cc)
    (u64 (pre_compress cc + n)) (u64 (post_compress cc + m)).

Definition count_decompress (cc : compress_context) (n m : Z) : compress_context :=
  mkcc (cc_flags cc) (cc_alg cc) (cc_ac cc) (u64 (pre_decompress cc + n)) (u64 (post_decompress cc + m))
    (pre_compress cc) (post_compress cc).

Definition set_ac (cc : compress_context) (ac : lzo_adaptive_compress) : compress_context :=
  mkcc (cc_flags cc) (cc_alg cc) ac (pre_decompress cc) (post_decompress cc) (pre_compress cc) (post_compress cc).

Section Libraries.
Context (lib : comp_lib).

(** ** Setting up *)

Definition lzo_compress_init (cc : compress_context) : outcome compress_context :=
  _ ← c_assert (negb (flag_set (cc_flags cc) COMP_F_SWAP));
  if negb (lzo_init lib =? LZO_E_OK) then Fatal else Ret cc.

Definition lz4_compress_init (cc : compress_context) : outcome compress_context :=
  _ ← c_assert (flag_set (cc_flags cc) COMP_F_SWAP);
  Ret cc.

Definition comp_init (opt : compress_options) : outcome (option compress_context) :=
  let cc a := mkcc (flags opt) a (mkac false 0 0 0) 0 0 0 0 in
  if alg opt =? COMP_ALG_STUB then Ret (Some (cc comp_stub_alg))
  else if alg opt =? COMP_ALGV2_UNCOMPRESSED then Ret (Some (cc compv2_stub_alg))
  else if alg opt =? COMP_ALG_LZO then cc ← lzo_compress_init (cc lzo_alg); Ret (Some cc)
  else if alg opt =? COMP_ALG_LZ4 then cc ← lz4_compress_init (cc lz4_alg); Ret (Some cc)
  else if alg opt =? COMP_ALGV2_LZ4 then Ret (Some (cc lz4v2_alg))
  else Ret None.

(** ** Framing *)

(** [*buf_prepend (buf, 1) = byte]: the pointer is not tested. *)
Definition prepend_byte (buf : buffer) (byte : Z) : outcome buffer :=
  let '(buf, p) := buf_prepend buf 1 in
  match p with
  | Some p => buf_store buf p [byte]
  | None => Oob
  end.

(** The first byte moves to the end and [byte] takes its place. *)
Definition swap_in (buf : buffer) (byte : Z) : outcome buffer :=
  head ← bptr buf;
  tail ← bend buf;
  _ ← c_assert (buf_safe buf 1);
  let buf := set_len buf (len buf + 1) in
  first ← buf_load1 buf head;
  buf ← buf_store buf tail [first];
  buf_store buf head [byte].

(** And back: the buffer and the byte that was in front. *)
Definition swap_out (buf : buffer) : outcome (buffer * Z) :=
  head ← bptr buf;
  c ← buf_load1 buf head;
  let buf := set_len buf (len buf - 1) in
  tail ← bend buf;
  last ← buf_load1 buf tail;
  buf ← buf_store buf head [last];
  Ret (buf, c).

(** The two bytes in front of an uncompressed packet that would look compressed. *)
Definition compv2_escape_data_ifneeded (buf : buffer) : outcome buffer :=
  head ← bptr buf;
  c ← buf_load1 buf head;
  if negb (c =? COMP_ALGV2_INDICATOR_BYTE) then Ret buf
  else
    let '(buf, p) := buf_prepend buf 2 in
    p ← must p;
    buf_store buf p [COMP_ALGV2_INDICATOR_BYTE; COMP_ALGV2_UNCOMPRESSED].

(** ** Without compression *)

Definition stub_compress (cc : compress_context) (buf : buffer) : outcome (compress_context * buffer) :=
  if len buf <=? 0 then Ret (cc, buf)
  else
    buf ← (if flag_set (cc_flags cc) COMP_F_SWAP then swap_in buf NO_COMPRESS_BYTE_SWAP
           else prepend_byte buf NO_COMPRESS_BYTE);
    Ret (cc, buf).

Definition stub_decompress (cc : compress_context) (buf : buffer) : outcome (compress_context * buffer) :=
  if len buf <=? 0 then Ret (cc, buf)
  else if flag_set (cc_flags cc) COMP_F_SWAP
  then
    '(buf, c) ← swap_out buf;
    Ret (cc, if negb (c =? NO_COMPRESS_BYTE_SWAP) then set_len buf 0 else buf)
  else
    head ← bptr buf;
    c ← buf_load1 buf head;
    let '(buf, ok) := buf_advance buf 1 in
    _ ← c_assert ok;
    Ret (cc, if negb (c =? NO_COMPRESS_BYTE) then set_len buf 0 else buf).

Definition stubv2_compress (cc : compress_context) (buf : buffer) : outcome (compress_context * buffer) :=
  if len buf <=? 0 then Ret (cc, buf)
  else buf ← compv2_escape_data_ifneeded buf; Ret (cc, buf).

Definition stubv2_decompress (cc : compress_context) (buf : buffer) : outcome (compress_context * buffer) :=
  if len buf <=? 0 then Ret (cc, buf)
  else
    head ← bptr buf;
    c ← buf_load1 buf head;
    if negb (c =? COMP_ALGV2_INDICATOR_BYTE) then Ret (cc, buf)
    else
      let '(buf, _) := buf_advance buf 1 in
      if len buf <=? 0 then Ret (cc, buf)
      else
        head ← bptr buf;
        c ← buf_load1 buf head;
        let '(buf, _) := buf_advance buf 1 in
        Ret (cc, if negb (c =? COMP_ALGV2_UNCOMPRESSED_BYTE) then set_len buf 0 else buf).

(** ** LZO *)

(** Adaptive compression: off for a minute when it saved less than five percent in a
    sample.  [compress_state] is true while compression is off. *)
Definition lzo_adaptive_compress_test (now : Z) (ac : lzo_adaptive_compress) : lzo_adaptive_compress * bool :=
  let ac :=
    if negb (compress_state ac)
    then
      if ac_next ac <=? now
      then
        if (AC_MIN_BYTES <? n_total ac)
           && (i32 (n_total ac - n_comp ac) <? Z.quot (n_total ac) (Z.quot 100 AC_SAVE_PCT))
        then mkac true (now + AC_OFF_SEC) 0 0
        else mkac false (now + AC_SAMP_SEC) 0 0
      else ac
    else
      if ac_next ac <=? now then mkac false (now + AC_SAMP_SEC) 0 0 else ac in
  (ac, negb (compress_state ac)).

Definition lzo_adaptive_compress_data (ac : lzo_adaptive_compress) (total comp : Z) : lzo_adaptive_compress :=
  mkac (compress_state ac) (ac_next ac) (i32 (n_total ac + total)) (i32 (n_comp ac + comp)).

Definition lzo_compression_enabled (now : Z) (cc : compress_context) : compress_context * bool :=
  if negb (flag_set (cc_flags cc) COMP_F_NO_ASYM) then (cc, false)
  else if flag_set (cc_flags cc) COMP_F_ADAPTIVE
  then let '(ac, ok) := lzo_adaptive_compress_test now (cc_ac cc) in (set_ac cc ac, ok)
  else (cc, true).

(** What an attempt to compress comes to: an error (the packet is dropped), no attempt,
    or the work buffer with the output. *)
Inductive attempt : Type := Failed | NotTried | Compressed (work : buffer).

(** The library's output behind the headroom of the work buffer. *)
Definition put_output (work : buffer) (out : list Z) : outcome buffer :=
  p ← bptr work;
  work ← buf_store work p out;
  _ ← c_assert (buf_safe work (zlen out));
  Ret (set_len work (zlen out)).

Definition lzo_try (now : Z) (cc : compress_context) (buf work : buffer) (f : frame)
  : outcome (compress_context * attempt) :=
  if negb (COMPRESS_THRESHOLD <=? len buf) then Ret (cc, NotTried)
  else
    let '(cc, enabled) := lzo_compression_enabled now cc in
    if negb enabled then Ret (cc, NotTried)
    else
      let ps := u64 (PAYLOAD_SIZE f) in
      let '(work, ok) := buf_init work (frame_headroom f 0) in
      _ ← c_assert ok;
      _ ← c_assert (buf_safe work (u64 (ps + COMP_EXTRA_BUFFER ps)));
      if ps <? len buf then Ret (cc, Failed)
      else
        src ← buf_contents buf;
        let '(err, out) := LZO_COMPRESS lib src in
        if negb (err =? LZO_E_OK) then Ret (cc, Failed)
        else
          work ← put_output work out;
          let cc := count_compress cc (len buf) (len work) in
          let cc :=
            if flag_set (cc_flags cc) COMP_F_ADAPTIVE
            then set_ac cc (lzo_adaptive_compress_data (cc_ac cc) (len buf) (len work)) else cc in
          Ret (cc, Compressed work).

Definition lzo_compress (now : Z) (cc : compress_context) (buf work : buffer) (f : frame)
  : outcome (compress_context * buffer) :=
  if len buf <=? 0 then Ret (cc, buf)
  else
    '(cc, r) ← lzo_try now cc buf work f;
    match r with
    | Failed => Ret (cc, set_len buf 0)
    | Compressed work =>
        if len work <? len buf
        then buf ← prepend_byte work LZO_COMPRESS_BYTE; Ret (cc, buf)
        else buf ← prepend_byte buf NO_COMPRESS_BYTE; Ret (cc, buf)
    | NotTried => buf ← prepend_byte buf NO_COMPRESS_BYTE; Ret (cc, buf)
    end.

Definition lzo_decompress (cc : compress_context) (buf work : buffer) (f : frame)
  : outcome (compress_context * buffer) :=
  let zlen_max := u64 (EXPANDED_SIZE f) in
  if len buf <=? 0 then Ret (cc, buf)
  else
    let '(work, ok) := buf_init work (frame_headroom f 0) in
    _ ← c_assert ok;
    head ← bptr buf;
    c ← buf_load1 buf head;
    let '(buf, ok) := buf_advance buf 1 in
    _ ← c_assert ok;
    if c =? LZO_COMPRESS_BYTE
    then
      _ ← c_assert (buf_safe work zlen_max);
      src ← buf_contents buf;
      let '(err, out) := LZO_DECOMPRESS lib src zlen_max in
      if negb (err =? LZO_E_OK) then Ret (cc, set_len buf 0)
      else
        work ← put_output work out;
        Ret (count_decompress cc (len buf) (len work), work)
    else if c =? NO_COMPRESS_BYTE then Ret (cc, buf)
    else Ret (cc, set_len buf 0).

(** ** LZ4 *)

Definition do_lz4_compress (cc : compress_context) (buf work : buffer) (f : frame)
  : outcome (compress_context * attempt) :=
  if negb ((COMPRESS_THRESHOLD <=? len buf) && flag_set (cc_flags cc) COMP_F_NO_ASYM) then Ret (cc, NotTried)
  else
    let ps := u64 (PAYLOAD_SIZE f) in
    let zlen_max := i32 (ps + COMP_EXTRA_BUFFER ps) in
    let '(work, ok) := buf_init work (frame_headroom f 0) in
    _ ← c_assert ok;
    _ ← c_assert (buf_safe work zlen_max);
    if ps <? len buf then Ret (cc, Failed)
    else
      src ← buf_contents buf;
      match LZ4_compress_default lib src zlen_max with
      | None => Ret (cc, Failed)
      | Some out =>
          work ← put_output work out;
          Ret (count_compress cc (len buf) (len work), Compressed work)
      end.

Definition lz4_compress (cc : compress_context) (buf work : buffer) (f : frame)
  : outcome (compress_context * buffer) :=
  if len buf <=? 0 then Ret (cc, buf)
  else
    '(cc, r) ← do_lz4_compress cc buf work f;
    match r with
    | Failed => Ret (cc, set_len buf 0)
    | Compressed work =>
        if len work <? len buf
        then buf ← swap_in work LZ4_COMPRESS_BYTE; Ret (cc, buf)
        else buf ← swap_in buf NO_COMPRESS_BYTE_SWAP; Ret (cc, buf)
    | NotTried => buf ← swap_in buf NO_COMPRESS_BYTE_SWAP; Ret (cc, buf)
    end.

Definition lz4v2_compress (cc : compress_context) (buf work : buffer) (f : frame)
  : outcome (compress_context * buffer) :=
  if len buf <=? 0 then Ret (cc, buf)
  else
    '(cc, r) ← do_lz4_compress cc buf work f;
    match r with
    | Failed => Ret (cc, set_len buf 0)
    | Compressed work =>
        if len work + 2 <? len buf
        then
          let '(work, p) := buf_prepend work 2 in
          p ← must p;
          buf ← buf_store work p [COMP_ALGV2_INDICATOR_BYTE; COMP_ALGV2_LZ4_BYTE];
          Ret (cc, buf)
        else buf ← compv2_escape_data_ifneeded buf; Ret (cc, buf)
    | NotTried => buf ← compv2_escape_data_ifneeded buf; Ret (cc, buf)
    end.

Definition do_lz4_decompress (cc : compress_context) (zlen_max : Z) (work buf : buffer)
  : outcome (compress_context * buffer) :=
  _ ← c_assert (buf_safe work zlen_max);
  src ← buf_contents buf;
  match LZ4_decompress_safe lib src zlen_max with
  | None => Ret (cc, set_len buf 0)
  | Some out =>
      work ← put_output work out;
      Ret (count_decompress cc (len buf) (len work), work)
  end.

Definition lz4_decompress (cc : compress_context) (buf work : buffer) (f : frame)
  : outcome (compress_context * buffer) :=
  if len buf <=? 0 then Ret (cc, buf)
  else
    let '(work, ok) := buf_init work (frame_headroom f 0) in
    _ ← c_assert ok;
    '(buf, c) ← swap_out buf;
    if c =? LZ4_COMPRESS_BYTE then do_lz4_decompress cc (u64 (EXPANDED_SIZE f)) work buf
    else if c =? NO_COMPRESS_BYTE_SWAP then Ret (cc, buf)
    else Ret (cc, set_len buf 0).

Definition lz4v2_decompress (cc : compress_context) (buf work : buffer) (f : frame)
  : outcome (compress_context * buffer) :=
  if len buf <=? 0 then Ret (cc, buf)
  else
    let '(work, ok) := buf_init work (frame_headroom f 0) in
    _ ← c_assert ok;
    head ← bptr buf;
    c ← buf_load1 buf head;
    if negb (c =? COMP_ALGV2_INDICATOR_BYTE) then Ret (cc, buf)
    else if len buf <=? 1 then Ret (cc, set_len buf 0)
    else
      c ← buf_load1 buf (head + 1);
      if c =? COMP_ALGV2_LZ4_BYTE
      then let '(buf, _) := buf_advance buf 2 in do_lz4_decompress cc (u64 (EXPANDED_SIZE f)) work buf
      else if c =? COMP_ALGV2_UNCOMPRESSED_BYTE then let '(buf, _) := buf_advance buf 2 in Ret (cc, buf)
      else Ret (cc, set_len buf 0).

(** ** The table of functions *)

Definition compress (now : Z) (cc : compress_context) (buf work : buffer) (f : frame)
  : outcome (compress_context * buffer) :=
  match cc_alg cc with
  | comp_stub_alg => stub_compress cc buf
  | compv2_stub_alg => stubv2_compress cc buf
  | lzo_alg => lzo_compress now cc buf work f
  | lz4_alg => lz4_compress cc buf work f
  | lz4v2_alg => lz4v2_compress cc buf work f
  end.

Definition decompress (cc : compress_context) (buf work : buffer) (f : frame)
  : outcome (compress_context * buffer) :=
  match cc_alg cc with
  | comp_stub_alg => stub_decompress cc buf
  | compv2_stub_alg => stubv2_decompress cc buf
  | lzo_alg => lzo_decompress cc buf work f
  | lz4_alg => lz4_decompress cc buf work f
  | lz4v2_alg => lz4v2_decompress cc buf work f
  end.
End Libraries.
