(* ===== verification/CompSpec.v ===== *)
(** * Theorems on the compression of data packets

    What the framing does to the content of a buffer, for each of the primitives; then:
    a packet that one side compresses is recovered by the other in every mode, but for
    the packets the second version escapes; and any bytes whatever are decompressed
    without failure. *)
From S2P Require Import Prelude Integer Buffer Mtu Crypto CryptoSpec Comp.

(** ** The framing, on the content of buffers *)

Lemma load1_front pre x c post : buf_load1 (conc pre (x :: c) post) (zlen pre) = Ret x.
Proof. unfold buf_load1, conc. cbn [data]. apply (load1_eq _ pre x (c ++ post)); done. Qed.

Lemma load1_behind pre c x post : buf_load1 (conc pre c (x :: post)) (zlen pre + zlen c) = Ret x.
Proof.
  unfold buf_load1, conc. cbn [data]. apply (load1_eq _ (pre ++ c) x post); [by rewrite <- app_assoc|by rewrite zlen_app].
Qed.

Lemma set_len_0 pre c post : set_len (conc pre c post) 0 = conc pre [] (c ++ post).
Proof. unfold set_len. apply mkbuffer_conc; cbn [capacity offset conc]; [zlia|done..]. Qed.

(** Room made in front of the content by [buf_prepend], and the bytes stored there. *)
Lemma prepend_store_conc pre c post src :
  zlen src <= zlen pre ->
  exists b p, buf_prepend (conc pre c post) (zlen src) = (b, Some p) /\
    buf_store b p src = Ret (conc (ztake (zlen pre - zlen src) pre) (src ++ c) post).
Proof.
  intros Hl. pose proof (buf_write_prepend_conc pre c post src) as H. unfold buf_write_prepend in H.
  destruct (buf_prepend (conc pre c post) (zlen src)) as [b [p|]] eqn:E.
  - exists b, p. split; [done|]. destruct (buf_store b p src); cbn in H; revert H; bdecide; congruence.
  - exfalso. revert H. bdecide. done.
Qed.

Lemma prepend_byte_conc pre c post x :
  1 <= zlen pre -> prepend_byte (conc pre c post) x = Ret (conc (ztake (zlen pre - 1) pre) (x :: c) post).
Proof.
  intros Hl. destruct (prepend_store_conc pre c post [x] Hl) as (b & p & E & H).
  unfold prepend_byte. change (zlen [x]) with 1 in *. by rewrite E.
Qed.

Lemma swap_in_conc pre x c post b :
  fits pre (x :: c) post -> 1 <= zlen post ->
  swap_in (conc pre (x :: c) post) b = Ret (conc pre (b :: c ++ [x]) (zdrop 1 post)).
Proof.
  intros HF Hp. unfold swap_in. rewrite bptr_conc, bend_conc. cbn [mbind outcome_mbind].
  destruct post as [|y post]; [done|].
  assert (Hs : buf_safe (conc pre (x :: c) (y :: post)) 1 = true).
  { unfold buf_safe, fits, BUF_SIZE_MAX in *. rewrite buf_valid_conc. change (buf_size_valid 1) with true. cbn [andb].
    apply Z.leb_le. cbn [offset len capacity conc]. zlia. }
  rewrite Hs. cbn [c_assert mbind outcome_mbind].
  assert (E : set_len (conc pre (x :: c) (y :: post)) (len (conc pre (x :: c) (y :: post)) + 1) =
              conc pre (x :: c ++ [y]) post).
  { unfold set_len. apply mkbuffer_conc; cbn [capacity offset len conc]; [zlia..|].
    cbn. by rewrite <- app_assoc. }
  rewrite E, load1_front. cbn [mbind outcome_mbind].
  change (x :: c ++ [y]) with ((x :: c) ++ [y] ++ []).
  rewrite (buf_store_inside pre (x :: c) [y] [] post [x]) by done. cbn [mbind outcome_mbind].
  change ((x :: c) ++ [x] ++ []) with ([] ++ [x] ++ c ++ [x]).
  by rewrite (buf_store_inside pre [] [x] (c ++ [x]) post [b]) by (autorewrite with zlen; lia || done).
Qed.

(** The payload back from behind the byte in front: its last byte goes first. *)
Definition unswap (q : list Z) : list Z :=
  match last q with Some x => x :: removelast q | None => [] end.

Lemma unswap_snoc q x : unswap (q ++ [x]) = x :: q.
Proof. unfold unswap. by rewrite last_snoc, removelast_last. Qed.

Lemma swap_out_conc pre b q post :
  exists y, swap_out (conc pre (b :: q) post) = Ret (conc pre (unswap q) (y :: post), b).
Proof.
  unfold swap_out. rewrite bptr_conc. cbn [mbind outcome_mbind]. rewrite load1_front. cbn [mbind outcome_mbind].
  destruct q as [|x q _] using rev_ind.
  - exists b. assert (E : set_len (conc pre [b] post) (len (conc pre [b] post) - 1) = conc pre [] (b :: post)).
    { apply mkbuffer_conc; cbn [capacity offset len conc]; [zlia..|done]. }
    rewrite E, bend_conc. cbn [mbind outcome_mbind]. rewrite load1_behind. cbn [mbind outcome_mbind].
    unfold buf_store, conc at 1. cbn [data app]. by rewrite (store_eq _ pre [b] post).
  - exists x. assert (E : set_len (conc pre (b :: q ++ [x]) post) (len (conc pre (b :: q ++ [x]) post) - 1) =
                          conc pre (b :: q) (x :: post)).
    { apply mkbuffer_conc; cbn [capacity offset len conc]; [zlia..|]. cbn. by rewrite <- app_assoc. }
    rewrite E, bend_conc. cbn [mbind outcome_mbind]. rewrite load1_behind. cbn [mbind outcome_mbind]. change (b :: q) with ([] ++ [b] ++ q).
    rewrite (buf_store_inside pre [] [b] q (x :: post) [x]) by (autorewrite with zlen; lia || done).
    by rewrite unswap_snoc.
Qed.

Lemma escape_conc pre x c post :
  2 <= zlen pre ->
  compv2_escape_data_ifneeded (conc pre (x :: c) post) =
    Ret (if x =? COMP_ALGV2_INDICATOR_BYTE
         then conc (ztake (zlen pre - 2) pre) (COMP_ALGV2_INDICATOR_BYTE :: COMP_ALGV2_UNCOMPRESSED :: x :: c) post
         else conc pre (x :: c) post).
Proof.
  intros Hl. unfold compv2_escape_data_ifneeded. rewrite bptr_conc. cbn [mbind outcome_mbind]. rewrite load1_front.
  cbn [mbind outcome_mbind]. destruct (x =? _); cbn [negb]; [|done].
  destruct (prepend_store_conc pre (x :: c) post [COMP_ALGV2_INDICATOR_BYTE; COMP_ALGV2_UNCOMPRESSED] Hl) as (b & p & E & H).
  change (zlen [COMP_ALGV2_INDICATOR_BYTE; COMP_ALGV2_UNCOMPRESSED]) with 2 in *. by rewrite E.
Qed.

Lemma advance_conc pre x c post : buf_advance (conc pre (x :: c) post) 1 = (conc (pre ++ [x]) c post, true).
Proof. rewrite buf_advance_conc, zlen_cons. by bdecide. Qed.

(** ** The work buffer *)

(** The room compression counts on: the headroom of the frame, then the largest packet
    with the worst case of its expansion. *)
Definition comp_room (f : frame) (work : buffer) : Prop :=
  buf_wf work /\ 0 <= PAYLOAD_SIZE f <= EXPANDED_SIZE f /\ 2 <= frame_headroom f 0 /\
  frame_headroom f 0 + EXPANDED_SIZE f + COMP_EXTRA_BUFFER (EXPANDED_SIZE f) <= capacity work.

Lemma buf_init_work f work :
  comp_room f work ->
  exists wpre wpost, buf_init work (frame_headroom f 0) = (conc wpre [] wpost, true) /\ fits wpre [] wpost /\
    zlen wpre = frame_headroom f 0 /\ EXPANDED_SIZE f + COMP_EXTRA_BUFFER (EXPANDED_SIZE f) <= zlen wpost.
Proof.
  intros (Hwf & Hp & Hh & Hc). wf_destruct Hwf. rewrite buf_init_conc.
  cbn [capacity conc] in Hc. unfold COMP_EXTRA_BUFFER, COMP_PREFIX_LEN in *.
  pose proof (Z.quot_pos (EXPANDED_SIZE f) 6). bdecide.
  eexists _, _. split; [done|]. unfold fits in *. split_and!; zlia.
Qed.

Lemma put_output_conc wpre wpost out :
  fits wpre [] wpost -> zlen out <= zlen wpost ->
  put_output (conc wpre [] wpost) out = Ret (conc wpre out (zdrop (zlen out) wpost)).
Proof.
  intros HF Hl. unfold put_output. rewrite bptr_conc. cbn [mbind outcome_mbind].
  unfold buf_store, conc at 1. cbn [data app].
  rewrite (store_eq _ wpre (ztake (zlen out) wpost) (zdrop (zlen out) wpost)); [|by rewrite ztake_zdrop|done|zlia].
  cbn [mbind outcome_mbind capacity offset len conc]. unfold buf_safe, buf_valid. cbn [buf_defined data len offset capacity].
  unfold fits, BUF_SIZE_MAX in HF. zlen_facts. rewrite buf_size_valid_iff by (change (zlen (@nil Z)) with 0 in *; lia).
  unfold BUF_SIZE_MAX. change (zlen (@nil Z)) with 0 in *. bdecide. cbn [c_assert mbind outcome_mbind andb]. unfold set_len. f_equal.
  apply mkbuffer_conc; cbn [capacity offset len]; [zlia..|done].
Qed.

Lemma safe_work wpre wpost n :
  fits wpre [] wpost -> 0 <= n <= zlen wpost -> buf_safe (conc wpre [] wpost) n = true.
Proof.
  intros HF Hn. unfold buf_safe. rewrite buf_valid_conc. unfold fits, BUF_SIZE_MAX in HF. zlen_facts.
  change (zlen (@nil Z)) with 0 in *. rewrite buf_size_valid_iff by lia. unfold BUF_SIZE_MAX. cbn [offset len capacity conc].
  change (zlen (@nil Z)) with 0. bdecide. done.
Qed.

Lemma extra_mono n m : 0 <= n <= m -> COMP_EXTRA_BUFFER n <= COMP_EXTRA_BUFFER m.
Proof. intros H. unfold COMP_EXTRA_BUFFER. pose proof (Z.quot_le_mono n m 6). lia. Qed.

Lemma room_small f work : comp_room f work -> EXPANDED_SIZE f + COMP_EXTRA_BUFFER (EXPANDED_SIZE f) < BUF_SIZE_MAX.
Proof. intros ((d & _ & _ & _ & _ & _ & H) & _ & ? & ?). lia. Qed.

(** ** What the code relies on of the libraries *)

(** The documented worst cases of the output, that the decompressors invert the
    compressors and that the safe decompressors keep to the room they are given. *)
Class CompLib (lib : comp_lib) : Prop := {
  lzo_output src : exists out, LZO_COMPRESS lib src = (LZO_E_OK, out) /\ zlen out <= zlen src + zlen src / 16 + 67;
  lzo_inverse src out n :
    LZO_COMPRESS lib src = (LZO_E_OK, out) -> zlen src <= n -> LZO_DECOMPRESS lib out n = (LZO_E_OK, src);
  lzo_safe src n out : LZO_DECOMPRESS lib src n = (LZO_E_OK, out) -> zlen out <= n;
  lz4_output src n :
    src <> [] -> zlen src + zlen src / 255 + 16 <= n -> exists out, LZ4_compress_default lib src n = Some out;
  lz4_bound src n out : LZ4_compress_default lib src n = Some out -> 0 < zlen out <= n;
  lz4_inverse src n out m :
    src <> [] -> LZ4_compress_default lib src n = Some out -> zlen src <= m -> LZ4_decompress_safe lib out m = Some src;
  lz4_safe src n out : LZ4_decompress_safe lib src n = Some out -> 0 < zlen out <= n;
  lzo_bytes src out : Forall is_u8 src -> LZO_COMPRESS lib src = (LZO_E_OK, out) -> Forall is_u8 out;
  lz4_bytes src n out : Forall is_u8 src -> LZ4_compress_default lib src n = Some out -> Forall is_u8 out
}.

(** ** The frames *)

Section Frames.
Context (lib : comp_lib) `{!CompLib lib}.

Definition v2 (a : compress_alg) : bool := bool_decide (a = compv2_stub_alg \/ a = lz4v2_alg).

(** The packets [q] that stand for the payload [p], for an algorithm and the flag
    [COMP_F_SWAP]. *)
Inductive framed (p : list Z) : compress_alg -> bool -> list Z -> Prop :=
| framed_stub : framed p comp_stub_alg false (NO_COMPRESS_BYTE :: p)
| framed_stub_swap x c : p = x :: c -> framed p comp_stub_alg true (NO_COMPRESS_BYTE_SWAP :: c ++ [x])
| framed_lzo swap : framed p lzo_alg swap (NO_COMPRESS_BYTE :: p)
| framed_lzo_compressed swap z :
    LZO_COMPRESS lib p = (LZO_E_OK, z) -> framed p lzo_alg swap (LZO_COMPRESS_BYTE :: z)
| framed_lz4 swap x c : p = x :: c -> framed p lz4_alg swap (NO_COMPRESS_BYTE_SWAP :: c ++ [x])
| framed_lz4_compressed swap n x z :
    LZ4_compress_default lib p n = Some (x :: z) -> framed p lz4_alg swap (LZ4_COMPRESS_BYTE :: z ++ [x])
| framed_v2_compressed swap n z :
    LZ4_compress_default lib p n = Some z ->
    framed p lz4v2_alg swap (COMP_ALGV2_INDICATOR_BYTE :: COMP_ALGV2_LZ4_BYTE :: z)
| framed_v2 a swap x c : v2 a = true -> p = x :: c -> x <> COMP_ALGV2_INDICATOR_BYTE -> framed p a swap p
| framed_v2_escaped a swap c :
    v2 a = true -> p = COMP_ALGV2_INDICATOR_BYTE :: c -> framed p a swap (COMP_ALGV2_INDICATOR_BYTE :: COMP_ALGV2_UNCOMPRESSED :: p).

Lemma framed_bytes p a swap q : Forall is_u8 p -> framed p a swap q -> Forall is_u8 q.
Proof.
  intros Hp Hf. destruct Hf as [|x c ->|swap|swap z Ez|swap x c ->|swap m x z Ez|swap m z Ez|a swap x c Hv -> Hx|a swap c Hv ->];
    try pose proof (lzo_bytes _ _ Hp Ez); try pose proof (lz4_bytes _ _ _ Hp Ez);
    rewrite ?Forall_cons, ?Forall_app, ?Forall_singleton in *; repeat match goal with H : _ /\ _ |- _ => destruct H end;
    split_and!; first [assumption | by unfold is_u8; vm_compute].
Qed.

(** What is the same before and after a packet. *)
Definition same_context (cc cc' : compress_context) : Prop := cc_flags cc' = cc_flags cc /\ cc_alg cc' = cc_alg cc.

Lemma same_context_trans a b c : same_context a b -> same_context b c -> same_context a c.
Proof. unfold same_context. intuition congruence. Qed.

(** A compressed packet: framed, with little less headroom than there was. *)
Definition compresses (cc : compress_context) (h : Z) (p : list Z) (r : outcome (compress_context * buffer)) : Prop :=
  exists cc' pre' q post', r = Ret (cc', conc pre' q post') /\ same_context cc cc' /\ fits pre' q post' /\
    h <= zlen pre' /\ 0 < zlen q <= zlen p + 2 /\
    framed p (cc_alg cc) (flag_set (cc_flags cc) COMP_F_SWAP) q.

Lemma u64_small n : 0 <= n < BUF_SIZE_MAX -> u64 n = n.
Proof. unfold BUF_SIZE_MAX. intros H. apply Z.mod_small. lia. Qed.

Lemma i32_small n : 0 <= n < BUF_SIZE_MAX -> i32 n = n.
Proof. unfold BUF_SIZE_MAX. intros H. unfold i32. rewrite Z.mod_small; lia. Qed.

Lemma lzo_enabled_same now cc : same_context cc (lzo_compression_enabled now cc).1.
Proof.
  unfold lzo_compression_enabled. bcase; [done| |done]. by destruct (lzo_adaptive_compress_test now (cc_ac cc)).
Qed.

(** An attempt on a packet of admissible size never fails; its output lies behind the
    headroom of the frame. *)
Definition attempts (f : frame) (p : list Z) (cc : compress_context) (good : list Z -> Prop)
    (r : outcome (compress_context * attempt)) : Prop :=
  exists cc' a, r = Ret (cc', a) /\ same_context cc cc' /\
    match a with
    | Failed => False
    | NotTried => True
    | Compressed work => exists wpre z wpost, work = conc wpre z wpost /\ fits wpre z wpost /\
        zlen wpre = frame_headroom f 0 /\ (zlen z < zlen p -> 1 <= zlen wpost) /\ good z
    end.

Lemma lzo_try_spec now cc pre p post work f :
  comp_room f work -> zlen p <= PAYLOAD_SIZE f ->
  attempts f p cc (fun z => LZO_COMPRESS lib p = (LZO_E_OK, z)) (lzo_try lib now cc (conc pre p post) work f).
Proof.
  intros Hr Hp. unfold lzo_try, attempts. destruct (negb _); [by exists cc, NotTried|].
  pose proof (lzo_enabled_same now cc) as Hs. destruct (lzo_compression_enabled now cc) as [cc1 en]. cbn [fst] in Hs.
  destruct (negb en); [by exists cc1, NotTried|].
  destruct (buf_init_work f work Hr) as (wpre & wpost & E & HF & Hh & Hl). rewrite E.
  pose proof (room_small f work Hr) as Hsm. destruct Hr as (_ & Hps & _). zlen_facts.
  pose proof (extra_mono (PAYLOAD_SIZE f) (EXPANDED_SIZE f) ltac:(lia)) as Hm.
  assert (0 <= COMP_EXTRA_BUFFER (PAYLOAD_SIZE f)).
  { unfold COMP_EXTRA_BUFFER, COMP_PREFIX_LEN. pose proof (Z.quot_pos (PAYLOAD_SIZE f) 6). lia. }
  rewrite (u64_small (PAYLOAD_SIZE f)), u64_small by lia. cbn [c_assert mbind outcome_mbind].
  rewrite safe_work by (done || lia). cbn [c_assert mbind outcome_mbind]. rewrite len_conc. bdecide.
  rewrite buf_contents_conc. cbn [mbind outcome_mbind].
  destruct (lzo_output p) as (z & Ez & Hz). rewrite Ez. change (negb (LZO_E_OK =? LZO_E_OK)) with false. cbn iota.
  assert (zlen z < zlen wpost).
  { unfold COMP_EXTRA_BUFFER, COMP_PREFIX_LEN in *. rewrite Z.quot_div_nonneg in * by lia. Z.div_mod_to_equations. lia. }
  rewrite put_output_conc by (done || lia). cbn [mbind outcome_mbind].
  eexists _, _. split; [reflexivity|]. split.
  - eapply same_context_trans; [done|]. bcase; done.
  - eexists wpre, z, _. split; [done|]. unfold fits in *. split_and!; [zlia|done|intros ?; zlia|done].
Qed.

Lemma lz4_try_spec cc pre p post work f :
  comp_room f work -> zlen p <= PAYLOAD_SIZE f ->
  attempts f p cc (fun z => z <> [] /\ exists n, LZ4_compress_default lib p n = Some z)
    (do_lz4_compress lib cc (conc pre p post) work f).
Proof.
  intros Hr Hp. unfold do_lz4_compress, attempts. rewrite len_conc.
  destruct (COMPRESS_THRESHOLD <=? zlen p) eqn:Eth; cbn [negb andb]; [|by exists cc, NotTried]. unfold COMPRESS_THRESHOLD in Eth. breflect.
  destruct (flag_set _ _); cbn [negb]; [|by exists cc, NotTried].
  destruct (buf_init_work f work Hr) as (wpre & wpost & E & HF & Hh & Hl). rewrite E.
  pose proof (room_small f work Hr) as Hsm. destruct Hr as (_ & Hps & _). zlen_facts.
  pose proof (extra_mono (PAYLOAD_SIZE f) (EXPANDED_SIZE f) ltac:(lia)) as Hm.
  assert (HB : 0 <= COMP_EXTRA_BUFFER (PAYLOAD_SIZE f) /\ zlen p + zlen p / 255 + 16 <= PAYLOAD_SIZE f + COMP_EXTRA_BUFFER (PAYLOAD_SIZE f)).
  { unfold COMP_EXTRA_BUFFER, COMP_PREFIX_LEN in *. rewrite Z.quot_div_nonneg in * by lia. Z.div_mod_to_equations. lia. }
  destruct HB as [Hx Hb]. rewrite (u64_small (PAYLOAD_SIZE f)), i32_small by lia. cbn [c_assert mbind outcome_mbind].
  rewrite safe_work by (done || lia). cbn [c_assert mbind outcome_mbind]. bdecide.
  rewrite buf_contents_conc. cbn [mbind outcome_mbind].
  destruct (lz4_output p _ ltac:(intros ->; unfold zlen in *; cbn in *; lia) Hb) as (z & Ez). rewrite Ez.
  pose proof (lz4_bound _ _ _ Ez). rewrite put_output_conc by (done || lia). cbn [mbind outcome_mbind].
  eexists _, _. split; [reflexivity|]. split; [done|].
  eexists wpre, z, _. split; [done|]. unfold fits in *.
  split_and!; [zlia|done|intros ?; unfold COMP_EXTRA_BUFFER, COMP_PREFIX_LEN in *; zlia| |by eauto].
  intros ->. unfold zlen in *; cbn in *; lia.
Qed.

(** ** Compressing *)

Lemma flag_same cc cc' : same_context cc cc' -> flag_set (cc_flags cc') COMP_F_SWAP = flag_set (cc_flags cc) COMP_F_SWAP.
Proof. by intros [-> _]. Qed.

Lemma prepends cc cc' h pre c post p x :
  same_context cc cc' -> fits pre c post -> 0 <= h <= zlen pre - 2 -> zlen c <= zlen p ->
  framed p (cc_alg cc) (flag_set (cc_flags cc) COMP_F_SWAP) (x :: c) ->
  compresses cc h p (buf ← prepend_byte (conc pre c post) x; Ret (cc', buf)).
Proof.
  intros Hs HF Hh Hc Hf. rewrite prepend_byte_conc by lia. cbn [mbind outcome_mbind].
  eexists _, _, _, _. split; [done|]. unfold fits in *. split_and!; [apply Hs..|zlia|zlia|zlia|zlia|done].
Qed.

Lemma swaps cc cc' h pre x c post p b :
  same_context cc cc' -> fits pre (x :: c) post -> 0 <= h <= zlen pre -> 1 <= zlen post -> zlen (x :: c) <= zlen p ->
  framed p (cc_alg cc) (flag_set (cc_flags cc) COMP_F_SWAP) (b :: c ++ [x]) ->
  compresses cc h p (buf ← swap_in (conc pre (x :: c) post) b; Ret (cc', buf)).
Proof.
  intros Hs HF Hh Ht Hc Hf. rewrite swap_in_conc by done. cbn [mbind outcome_mbind].
  eexists _, _, _, _. split; [done|]. unfold fits in *. split_and!; [apply Hs..|zlia|zlia|zlia|zlia|done].
Qed.

Lemma escapes cc cc' h pre x c post :
  same_context cc cc' -> fits pre (x :: c) post -> 0 <= h <= zlen pre - 2 -> v2 (cc_alg cc) = true ->
  compresses cc h (x :: c) (buf ← compv2_escape_data_ifneeded (conc pre (x :: c) post); Ret (cc', buf)).
Proof.
  intros Hs HF Hh Hv. rewrite escape_conc by lia. cbn [mbind outcome_mbind].
  destruct (Z.eqb_spec x COMP_ALGV2_INDICATOR_BYTE); eexists _, _, _, _; (split; [done|]); unfold fits in *;
    (split_and!; [apply Hs..|zlia|zlia|zlia|zlia|]); [subst; by eapply framed_v2_escaped|by eapply framed_v2].
Qed.

Lemma compress_spec now cc pre p post work f :
  comp_room f work -> fits pre p post -> p <> [] -> 2 <= zlen pre -> 1 <= zlen post -> zlen p <= PAYLOAD_SIZE f ->
  compresses cc (Z.min (zlen pre) (frame_headroom f 0) - 2) p (compress lib now cc (conc pre p post) work f).
Proof.
  intros Hr HF Hp Hpre Hpost Hl. pose proof (zlen_pos p Hp). destruct p as [|x c]; [done|].
  assert (Hh : 2 <= frame_headroom f 0) by apply Hr. set (h := Z.min _ _ - 2). assert (Hb : 0 <= h <= zlen pre - 2) by lia.
  unfold compress. destruct (cc_alg cc) eqn:Ea.
  - unfold stub_compress. rewrite len_conc. bdecide.
    destruct (flag_set _ _) eqn:Efl; [apply swaps|apply prepends]; rewrite ?Ea, ?Efl; try done; try lia; by econstructor.
  - unfold stubv2_compress. rewrite len_conc. bdecide. apply escapes; [done..|lia|by rewrite Ea].
  - unfold lzo_compress. rewrite len_conc. bdecide.
    destruct (lzo_try_spec now cc pre (x :: c) post work f Hr Hl) as (cc' & a & -> & Hs & Ha). cbn [mbind outcome_mbind].
    destruct a as [| |wk]; [done| |].
    + apply prepends; rewrite ?Ea; [done..|lia|lia|constructor].
    + destruct Ha as (wpre & z & wpost & -> & HF' & Hw & _ & Hz). rewrite len_conc.
      destruct (zlen z <? zlen (x :: c)) eqn:El; breflect; apply prepends; rewrite ?Ea; try done; try lia; by constructor.
  - unfold lz4_compress. rewrite len_conc. bdecide.
    destruct (lz4_try_spec cc pre (x :: c) post work f Hr Hl) as (cc' & a & -> & Hs & Ha). cbn [mbind outcome_mbind].
    destruct a as [| |wk]; [done| |].
    + apply swaps; rewrite ?Ea; [done..|lia|lia|lia|by econstructor].
    + destruct Ha as (wpre & z & wpost & -> & HF' & Hw & Ht & Hz & n & En). rewrite len_conc.
      destruct z as [|y z]; [done|].
      destruct (zlen (y :: z) <? zlen (x :: c)) eqn:El; breflect; apply swaps; rewrite ?Ea; try done; try lia; by econstructor.
  - unfold lz4v2_compress. rewrite len_conc. bdecide.
    destruct (lz4_try_spec cc pre (x :: c) post work f Hr Hl) as (cc' & a & -> & Hs & Ha). cbn [mbind outcome_mbind].
    destruct a as [| |wk]; [done| |].
    + apply escapes; [done..|lia|by rewrite Ea].
    + destruct Ha as (wpre & z & wpost & -> & HF' & Hw & Ht & Hz & n & En). rewrite len_conc.
      destruct (_ <? _) eqn:El; breflect; [|apply escapes; [done..|lia|by rewrite Ea]].
      destruct (prepend_store_conc wpre z wpost [COMP_ALGV2_INDICATOR_BYTE; COMP_ALGV2_LZ4_BYTE]) as (b & p & Eb & Es).
      { change (zlen [COMP_ALGV2_INDICATOR_BYTE; COMP_ALGV2_LZ4_BYTE]) with 2. lia. }
      change (zlen [COMP_ALGV2_INDICATOR_BYTE; COMP_ALGV2_LZ4_BYTE]) with 2 in *. rewrite Eb. cbn [must mbind outcome_mbind].
      rewrite Es. cbn [mbind outcome_mbind app].
      eexists _, _, _, _. split; [done|]. unfold fits in *. rewrite Ea.
      split_and!; [apply Hs..|zlia|zlia|zlia|zlia|by econstructor].
Qed.

(** ** Decompressing *)

(** The payload a packet stands for, with [n] bytes of room; empty when there is none. *)
Definition expand (a : compress_alg) (swap : bool) (n : Z) (q : list Z) : list Z :=
  let lzo z := match LZO_DECOMPRESS lib z n with (e, out) => if e =? LZO_E_OK then out else [] end in
  let lz4 z := default [] (LZ4_decompress_safe lib z n) in
  match q with
  | [] => []
  | b :: r =>
      match a with
      | comp_stub_alg =>
          if swap then if b =? NO_COMPRESS_BYTE_SWAP then unswap r else []
          else if b =? NO_COMPRESS_BYTE then r else []
      | lzo_alg => if b =? LZO_COMPRESS_BYTE then lzo r else if b =? NO_COMPRESS_BYTE then r else []
      | lz4_alg =>
          if b =? LZ4_COMPRESS_BYTE then lz4 (unswap r) else if b =? NO_COMPRESS_BYTE_SWAP then unswap r else []
      | compv2_stub_alg =>
          if negb (b =? COMP_ALGV2_INDICATOR_BYTE) then q
          else match r with
               | [] => []
               | c :: r => if c =? COMP_ALGV2_UNCOMPRESSED_BYTE then r else []
               end
      | lz4v2_alg =>
          if negb (b =? COMP_ALGV2_INDICATOR_BYTE) then q
          else match r with
               | [] => []
               | c :: r =>
                   if c =? COMP_ALGV2_LZ4_BYTE then lz4 r else if c =? COMP_ALGV2_UNCOMPRESSED_BYTE then r else []
               end
      end
  end.

(** A packet handled: the payload [p] is left in a buffer with at least [h] bytes of
    headroom. *)
Definition expands (cc : compress_context) (h : Z) (p : list Z) (r : outcome (compress_context * buffer)) : Prop :=
  exists cc' pre' post', r = Ret (cc', conc pre' p post') /\ same_context cc cc' /\ fits pre' p post' /\ h <= zlen pre'.

Lemma zlen_unswap q : zlen (unswap q) = zlen q.
Proof. destruct q as [|x q _] using rev_ind; [done|]. rewrite unswap_snoc. zlia. Qed.

Lemma expands_at cc cc' h pre p post :
  same_context cc cc' -> fits pre p post -> h <= zlen pre -> expands cc h p (Ret (cc', conc pre p post)).
Proof. intros. by exists cc', pre, post. Qed.

Lemma expands_nothing cc cc' h pre p post :
  same_context cc cc' -> fits pre p post -> h <= zlen pre -> expands cc h [] (Ret (cc', set_len (conc pre p post) 0)).
Proof. intros. rewrite set_len_0. apply expands_at; [done| |done]. unfold fits in *. zlia. Qed.

Lemma lz4_expands cc pre q post wpre wpost n h :
  fits pre q post -> fits wpre [] wpost -> h <= zlen pre -> h <= zlen wpre -> 0 <= n <= zlen wpost ->
  expands cc h (default [] (LZ4_decompress_safe lib q n)) (do_lz4_decompress lib cc n (conc wpre [] wpost) (conc pre q post)).
Proof.
  intros HF HW Hh Hw Hn. unfold do_lz4_decompress. rewrite safe_work, buf_contents_conc by done. cbn [c_assert mbind outcome_mbind].
  destruct (LZ4_decompress_safe lib q n) as [out|] eqn:E; cbn [default].
  - pose proof (lz4_safe _ _ _ E). rewrite put_output_conc by (done || lia). cbn [mbind outcome_mbind].
    apply expands_at; [done| |done]. unfold fits in *. zlia.
  - by eapply expands_nothing.
Qed.

Lemma decompress_spec cc pre q post work f :
  comp_room f work -> fits pre q post -> q <> [] ->
  expands cc (Z.min (zlen pre) (frame_headroom f 0))
    (expand (cc_alg cc) (flag_set (cc_flags cc) COMP_F_SWAP) (EXPANDED_SIZE f) q) (decompress lib cc (conc pre q post) work f).
Proof.
  intros Hr HF Hq. destruct q as [|b r]; [done|]. pose proof (zlen_nonneg r).
  destruct (buf_init_work f work Hr) as (wpre & wpost & E & HW & Hh & Hl).
  pose proof (room_small f work Hr) as Hsm. destruct Hr as (_ & Hps & _). set (h := Z.min _ _).
  assert (Hh1 : h <= zlen pre) by (unfold h; lia). assert (Hh2 : h <= zlen wpre) by (unfold h; lia).
  assert (Hex : 0 <= COMP_EXTRA_BUFFER (EXPANDED_SIZE f)).
  { unfold COMP_EXTRA_BUFFER, COMP_PREFIX_LEN. pose proof (Z.quot_pos (EXPANDED_SIZE f) 6). lia. }
  assert (Hpos : zlen (b :: r) <=? 0 = false) by (rewrite zlen_cons; apply Z.leb_gt; lia).
  assert (HF1 : fits (pre ++ [b]) r post) by (unfold fits in *; zlia).
  assert (Hh3 : h <= zlen (pre ++ [b])) by zlia.
  destruct (swap_out_conc pre b r post) as (y & Ey).
  assert (HF2 : fits pre (unswap r) (y :: post)).
  { unfold fits in *. rewrite zlen_unswap. zlia. }
  unfold decompress, expand. destruct (cc_alg cc) eqn:Ea.
  - unfold stub_decompress. rewrite len_conc, Hpos. destruct (flag_set _ _).
    + rewrite Ey. cbn [mbind outcome_mbind]. destruct (b =? _); cbn [negb]; [by apply expands_at|by eapply expands_nothing].
    + rewrite bptr_conc. cbn [mbind outcome_mbind]. rewrite load1_front. cbn [mbind outcome_mbind].
      rewrite advance_conc. cbn [c_assert mbind outcome_mbind].
      destruct (b =? _); cbn [negb]; [by apply expands_at|by eapply expands_nothing].
  - unfold stubv2_decompress. rewrite len_conc, Hpos, bptr_conc. cbn [mbind outcome_mbind]. rewrite load1_front. cbn [mbind outcome_mbind].
    destruct (b =? _); cbn [negb]; [|by apply expands_at]. rewrite advance_conc, len_conc.
    destruct r as [|c r]; [by apply expands_at|]. pose proof (zlen_nonneg r). rewrite zlen_cons. bdecide.
    rewrite bptr_conc. cbn [mbind outcome_mbind]. rewrite load1_front. cbn [mbind outcome_mbind]. rewrite advance_conc.
    assert (HF3 : fits ((pre ++ [b]) ++ [c]) r post) by (unfold fits in *; zlia).
    destruct (c =? _); cbn [negb]; [apply expands_at|eapply expands_nothing]; done || zlia.
  - unfold lzo_decompress. rewrite len_conc, Hpos, E. cbn [c_assert mbind outcome_mbind].
    rewrite bptr_conc. cbn [mbind outcome_mbind]. rewrite load1_front. cbn [mbind outcome_mbind].
    rewrite advance_conc. cbn [c_assert mbind outcome_mbind]. rewrite u64_small by lia.
    destruct (b =? LZO_COMPRESS_BYTE).
    + rewrite safe_work, buf_contents_conc by (done || lia). cbn [c_assert mbind outcome_mbind].
      destruct (LZO_DECOMPRESS lib r (EXPANDED_SIZE f)) as [e out] eqn:Eo.
      destruct (Z.eqb_spec e LZO_E_OK) as [->|]; cbn [negb]; [|by eapply expands_nothing].
      pose proof (lzo_safe _ _ _ Eo). rewrite put_output_conc by (done || lia). cbn [mbind outcome_mbind].
      apply expands_at; [done| |done]. unfold fits in *. zlia.
    + destruct (b =? _); [by apply expands_at|by eapply expands_nothing].
  - unfold lz4_decompress. rewrite len_conc, Hpos, E. cbn [c_assert mbind outcome_mbind]. rewrite Ey. cbn [mbind outcome_mbind].
    rewrite u64_small by lia. destruct (b =? LZ4_COMPRESS_BYTE); [apply lz4_expands; done || lia|].
    destruct (b =? _); [by apply expands_at|by eapply expands_nothing].
  - unfold lz4v2_decompress. rewrite len_conc, Hpos, E. cbn [c_assert mbind outcome_mbind].
    rewrite bptr_conc. cbn [mbind outcome_mbind]. rewrite load1_front. cbn [mbind outcome_mbind].
    destruct (b =? _); cbn [negb]; [|by apply expands_at].
    destruct r as [|c r]; [by eapply expands_nothing|]. pose proof (zlen_nonneg r). rewrite !zlen_cons. bdecide.
    assert (E1 : buf_load1 (conc pre (b :: c :: r) post) (zlen pre + 1) = Ret c).
    { unfold buf_load1, conc. cbn [data]. apply (load1_eq _ (pre ++ [b]) c (r ++ post)); [by rewrite <- app_assoc|zlia]. }
    rewrite E1. cbn [mbind outcome_mbind].
    assert (E2 : buf_advance (conc pre (b :: c :: r) post) 2 = (conc (pre ++ [b; c]) r post, true)).
    { rewrite buf_advance_conc, !zlen_cons. by bdecide. }
    assert (HF3 : fits (pre ++ [b; c]) r post) by (unfold fits in *; zlia).
    rewrite E2, u64_small by lia. destruct (c =? COMP_ALGV2_LZ4_BYTE); [apply lz4_expands; done || zlia|].
    destruct (c =? _); [apply expands_at|eapply expands_nothing]; done || zlia.
Qed.

(** A framed packet stands for its payload, unless it is one of those that were
    escaped. *)
Lemma expand_framed p a swap q n :
  framed p a swap q -> p <> [] -> zlen p <= n ->
  expand a swap n q = if v2 a && bool_decide (q = [COMP_ALGV2_INDICATOR_BYTE; COMP_ALGV2_UNCOMPRESSED] ++ p) then [] else p.
Proof.
  intros Hf Hne Hn. destruct Hf as [|x c ->|swap|swap z Ez|swap x c ->|swap m x z Ez|swap m z Ez|a swap x c Hv -> Hx|a swap c Hv ->].
  - done.
  - cbn. by rewrite unswap_snoc.
  - done.
  - cbn. by rewrite (lzo_inverse _ _ n Ez).
  - cbn. by rewrite unswap_snoc.
  - cbn. rewrite unswap_snoc. by rewrite (lz4_inverse _ _ _ n Hne Ez).
  - cbn [expand]. change (v2 lz4v2_alg) with true. rewrite bool_decide_eq_false_2 by (by intros [=]).
    cbn [andb]. change (COMP_ALGV2_LZ4_BYTE =? COMP_ALGV2_LZ4_BYTE) with true. cbn. by rewrite (lz4_inverse _ _ _ n Hne Ez).
  - rewrite bool_decide_eq_false_2 by (cbn; congruence). rewrite andb_false_r. unfold v2 in Hv. breflect.
    assert (x =? COMP_ALGV2_INDICATOR_BYTE = false) as E by by apply Z.eqb_neq.
    destruct Hv as [-> | ->]; cbn [expand]; by rewrite E.
  - rewrite Hv, bool_decide_eq_true_2 by done. unfold v2 in Hv. breflect. by destruct Hv as [-> | ->].
Qed.
End Frames.

(** ** The theorems *)

(** Both ends use the same algorithm and, where it is not fixed by the algorithm, the same
    place for the byte that marks the packet. *)
Definition same_framing (cs cr : compress_context) : Prop :=
  cc_alg cr = cc_alg cs /\ flag_set (cc_flags cr) COMP_F_SWAP = flag_set (cc_flags cs) COMP_F_SWAP.

(** C39: A packet that one side compresses is recovered by the other, with every algorithm
    and whether or not compression was tried or paid off; it grows by two bytes at
    most.  The exception are the packets which the second version of the framing
    escapes, because their first byte is the one that marks compressed packets: these
    the receiver drops. *)
Theorem compression_roundtrip lib now cs cr fs fr pre p post work :
  CompLib lib -> same_framing cs cr -> p <> [] -> fits pre p post -> 2 <= zlen pre -> 1 <= zlen post ->
  zlen p <= PAYLOAD_SIZE fs -> zlen p <= EXPANDED_SIZE fr -> comp_room fs work ->
  exists cs' b,
    compress lib now cs (conc pre p post) work fs = Ret (cs', b) /\ 0 < zlen (content b) <= zlen p + 2 /\
    forall rpre rpost rwork, fits rpre (content b) rpost -> comp_room fr rwork ->
      exists cr' b', decompress lib cr (conc rpre (content b) rpost) rwork fr = Ret (cr', b') /\
        content b' = if v2 (cc_alg cs) && bool_decide (content b = [COMP_ALGV2_INDICATOR_BYTE; COMP_ALGV2_UNCOMPRESSED] ++ p)
                     then [] else p.
Proof.
  intros HL [Ha Hs] Hp HF Hpre Hpost Hl Hl' Hr.
  destruct (compress_spec lib now cs pre p post work fs Hr HF Hp Hpre Hpost Hl)
    as (cs' & pre' & q & post' & -> & _ & HF' & _ & Hq & Hf).
  eexists _, _. split; [done|]. rewrite content_conc. split; [done|]. intros rpre rpost rwork HFr Hrr.
  destruct (decompress_spec lib cr rpre q rpost rwork fr Hrr HFr) as (cr' & rpre' & rpost' & -> & _).
  { intros ->. unfold zlen in Hq. cbn in Hq. lia. }
  eexists _, _. split; [done|]. rewrite content_conc, Ha, Hs. by apply expand_framed.
Qed.

(** With the second version of the framing a packet that begins with the byte 0x50 and
    is not compressed (always so without an algorithm, and for packets below the threshold)
    never arrives: the sender escapes it with the number of the option, the receiver
    expects the code for the wire and drops it. *)
Theorem escaped_packets_are_lost lib now cs cr fs fr pre c post work :
  let p := COMP_ALGV2_INDICATOR_BYTE :: c in
  CompLib lib -> same_framing cs cr -> v2 (cc_alg cs) = true -> cc_alg cs = compv2_stub_alg \/ zlen p < COMPRESS_THRESHOLD ->
  2 <= zlen pre ->
  exists b, compress lib now cs (conc pre p post) work fs = Ret (cs, b) /\
    content b = [COMP_ALGV2_INDICATOR_BYTE; COMP_ALGV2_UNCOMPRESSED] ++ p /\
    forall rpre rpost rwork, fits rpre (content b) rpost -> comp_room fr rwork ->
      exists cr' b', decompress lib cr (conc rpre (content b) rpost) rwork fr = Ret (cr', b') /\ content b' = [].
Proof.
  intros p HL [Ha Hs] Hv Hno Hpre. pose proof (zlen_nonneg c).
  assert (E : compress lib now cs (conc pre p post) work fs =
    Ret (cs, conc (ztake (zlen pre - 2) pre) ([COMP_ALGV2_INDICATOR_BYTE; COMP_ALGV2_UNCOMPRESSED] ++ p) post)).
  { unfold v2 in Hv. breflect. unfold compress.
    assert (zlen p <=? 0 = false) as Hpos by (unfold p; rewrite zlen_cons; apply Z.leb_gt; lia).
    assert (Es : compv2_escape_data_ifneeded (conc pre p post) =
      Ret (conc (ztake (zlen pre - 2) pre) ([COMP_ALGV2_INDICATOR_BYTE; COMP_ALGV2_UNCOMPRESSED] ++ p) post)).
    { unfold p. by rewrite escape_conc by done. }
    destruct Hv as [Ev | Ev]; rewrite Ev.
    - unfold stubv2_compress. rewrite len_conc, Hpos, Es. done.
    - destruct Hno as [Hno|Hno]; [congruence|]. unfold lz4v2_compress, do_lz4_compress. rewrite len_conc, Hpos.
      bdecide. cbn [mbind outcome_mbind]. by rewrite Es. }
  eexists. split; [exact E|]. rewrite content_conc. split; [done|]. intros rpre rpost rwork HFr Hrr.
  destruct (decompress_spec lib cr rpre _ rpost rwork fr Hrr HFr) as (cr' & rpre' & rpost' & -> & _); [done|].
  eexists _, _. split; [done|]. rewrite content_conc, Ha, Hs. unfold v2 in Hv. breflect. by destruct Hv as [-> | ->].
Qed.

Lemma zlen_expand lib a swap n q : CompLib lib -> 0 <= n -> zlen (expand lib a swap n q) <= Z.max (zlen q) n.
Proof.
  intros HL Hn. destruct q as [|b r]; [cbn; lia|]. unfold expand. rewrite zlen_cons. pose proof (zlen_nonneg r).
  assert (Hlz4 : forall z, zlen (default [] (LZ4_decompress_safe lib z n)) <= n).
  { intros z. destruct (LZ4_decompress_safe _ _ _) eqn:E; [exact (proj2 (lz4_safe _ _ _ E))|done]. }
  assert (Hlzo : forall z, zlen (let (e, out) := LZO_DECOMPRESS lib z n in if e =? LZO_E_OK then out else []) <= n).
  { intros z. destruct (LZO_DECOMPRESS lib z n) as [e out] eqn:E. destruct (Z.eqb_spec e LZO_E_OK) as [->|]; [|done].
    exact (lzo_safe _ _ _ E). }
  pose proof (zlen_unswap r). change (zlen (@nil Z)) with 0 in *.
  destruct a; repeat match goal with
  | |- context [let (_, _) := LZO_DECOMPRESS lib ?z n in _] => pose proof (Hlzo z); lia
  | |- context [LZ4_decompress_safe lib ?z n] => pose proof (Hlz4 z); lia
  | |- context [match ?r with [] => _ | _ :: _ => _ end] => destruct r; autorewrite with zlen in *; zlen_facts
  | |- context [if ?x then _ else _] => destruct x
  end; autorewrite with zlen in *; lia.
Qed.

(** Whatever bytes arrive, decompression returns, and leaves a payload no larger than the
    packet or the largest packet of the frame. *)
Lemma decompress_any lib cc pre q post work f :
  CompLib lib -> comp_room f work -> fits pre q post -> q <> [] ->
  exists cc' b, decompress lib cc (conc pre q post) work f = Ret (cc', b) /\ same_context cc cc' /\ buf_wf b /\
    len b <= Z.max (zlen q) (EXPANDED_SIZE f).
Proof.
  intros HL Hr HF Hq. destruct (decompress_spec lib cc pre q post work f Hr HF Hq) as (cc' & pre' & post' & -> & Hs & HF' & _).
  eexists _, _. split; [done|]. split; [done|]. split; [by apply conc_wf|]. rewrite len_conc.
  apply zlen_expand; [done|]. destruct Hr as (_ & ? & _); lia.
Qed.

(** ** The room there is *)

(** The buffers for compression have the room it counts on, when they are allocated
    for a frame that [do_init_frame] made. *)
Lemma do_init_frame_comp_room o f omit f' omit' ff work :
  frame_options_ok o f -> do_init_frame o f omit = Ret (f', omit', ff) ->
  alloc_buf (BUF_SIZE f') = Ret work -> comp_room f' work.
Proof.
  intros Hok Ei Ew. destruct (do_init_frame_ok o f omit Hok) as (g & go & gf & E & Hf & Hb & Hl & _ & _ & Hc).
  rewrite E in Ei. injection Ei as <- <- <-. destruct Hf as (H1 & H2 & H3 & H4 & H5 & H6).
  pose proof (frame_headroom_bounds g 0) as Hh.
  unfold TUN_MTU_MIN, BUF_SIZE_MAX, BUF_SIZE, FRAME_HEADROOM_BASE, TUN_MTU_SIZE, TUN_LINK_DELTA in *.
  rewrite alloc_buf_conc in Ew by (unfold BUF_SIZE_MAX; lia). injection Ew as <-.
  unfold comp_room, PAYLOAD_SIZE, EXPANDED_SIZE in *.
  split_and!; [apply conc_wf; unfold fits, BUF_SIZE_MAX|lia..|cbn [capacity conc]]; autorewrite with zlen; lia.
Qed.

(** ** Witnesses *)

(** A toy compressor: a packet of one repeated byte becomes the byte and a count. *)
Definition toy_pack (src : list Z) : list Z :=
  match src with
  | x :: _ => if forallb (Z.eqb x) src && (zlen src <? 2 ^ 32) then 1 :: x :: be_bytes 4 (zlen src) else 0 :: src
  | [] => [0]
  end.

Definition toy_unpack (z : list Z) (n : Z) : option (list Z) :=
  let fit out := if (0 <? zlen out) && (zlen out <=? n) then Some out else None in
  match z with
  | 0 :: src => fit src
  | 1 :: x :: l => fit (replicate (Z.to_nat (be_value l)) x)
  | _ => None
  end.

Definition toy_lib : comp_lib := {|
  lzo_init := LZO_E_OK;
  LZO_COMPRESS src := (LZO_E_OK, toy_pack src);
  LZO_DECOMPRESS z n :=
    match z with [0] => if 0 <=? n then (LZO_E_OK, []) else (-4, []) | _ => match toy_unpack z n with Some out => (LZO_E_OK, out) | None => (-4, []) end end;
  LZ4_compress_default src n := if zlen (toy_pack src) <=? n then Some (toy_pack src) else None;
  LZ4_decompress_safe := toy_unpack
|}.

Lemma toy_pack_length src : 0 < zlen (toy_pack src) <= zlen src + 6.
Proof. destruct src; cbn [toy_pack]; bcase; zlia. Qed.

Lemma toy_unpack_pack src n : src <> [] -> zlen src <= n -> toy_unpack (toy_pack src) n = Some src.
Proof.
  intros Hs Hn. pose proof (zlen_pos src Hs). destruct src as [|x l]; [done|]. unfold toy_pack.
  destruct (forallb (Z.eqb x) (x :: l)) eqn:Ef; cbn [andb]; [|unfold toy_unpack; by bdecide].
  destruct (zlen (x :: l) <? 2 ^ 32) eqn:El; [|unfold toy_unpack; by bdecide]. breflect.
  unfold toy_unpack. rewrite be_value_bytes4 by (unfold is_u32; lia).
  assert (replicate (Z.to_nat (zlen (x :: l))) x = x :: l) as ->; [|by bdecide].
  unfold zlen. rewrite Nat2Z.id. apply replicate_as_Forall_2; [done|].
  apply Is_true_true in Ef. rewrite forallb_True in Ef. eapply Forall_impl; [exact Ef|]. intros y Hy.
  apply Is_true_true, Z.eqb_eq in Hy. done.
Qed.

Lemma toy_unpack_room z n out : toy_unpack z n = Some out -> 0 < zlen out <= n.
Proof.
  unfold toy_unpack. intros H. repeat case_match; try done; injection H as <-; breflect; done.
Qed.

Lemma toy_pack_bytes src : Forall is_u8 src -> Forall is_u8 (toy_pack src).
Proof.
  intros H. destruct src as [|x l]; [by repeat constructor|]. cbn [toy_pack]. bcase; [|by constructor].
  inversion H. repeat (constructor; [done|]). apply be_bytes_u8.
Qed.

Instance toy_lib_ok : CompLib toy_lib.
Proof.
  split; cbn [toy_lib LZO_COMPRESS LZO_DECOMPRESS LZ4_compress_default LZ4_decompress_safe].
  - intros src. eexists. split; [done|]. pose proof (toy_pack_length src). pose proof (zlen_nonneg src).
    pose proof (Z.div_pos (zlen src) 16). lia.
  - intros src out n [= <-] Hn. destruct (decide (src = [])) as [->|Hs]; [cbn in Hn |- *; by bdecide|].
    rewrite toy_unpack_pack by done. destruct src as [|x [|y l]]; [done|..]; cbn [toy_pack]; by bcase.
  - intros src n out H. assert (Hr : toy_unpack src n = Some out -> zlen out <= n) by (intros E; apply toy_unpack_room in E; lia).
    destruct (toy_unpack src n) as [o|]; repeat case_match; simplify_eq; breflect; done || auto.
  - intros src n Hs Hn. pose proof (toy_pack_length src). pose proof (zlen_nonneg src).
    pose proof (Z.div_pos (zlen src) 255). bdecide. eauto.
  - intros src n out H. pose proof (toy_pack_length src). destruct (_ <=? _) eqn:E; [|done]. injection H as <-. breflect. lia.
  - intros src n out m Hs H Hm. destruct (_ <=? _); [|done]. injection H as <-. by apply toy_unpack_pack.
  - intros src n out H. by apply toy_unpack_room in H.
  - intros src out Hs [= <-]. by apply toy_pack_bytes.
  - intros src n out Hs H. destruct (_ <=? _); [|done]. injection H as <-. by apply toy_pack_bytes.
Qed.

Definition demo_frame : frame := mkframe 1600 1600 60 450 0 3 0 0.
Definition demo_work : buffer := conc [] [] (replicate 3000 0).
Definition demo_cc (a : compress_alg) : compress_context := mkcc COMP_F_NO_ASYM a (mkac false 0 0 0) 0 0 0 0.
Definition demo_pre : list Z := replicate 64 0.

Lemma demo_room : comp_room demo_frame demo_work.
Proof. split; [apply conc_wf; by vm_compute|]. by vm_compute. Qed.

Lemma compression_roundtrip_witness :
  exists cs' b, compress toy_lib 5 (demo_cc lz4v2_alg) (conc demo_pre (replicate 200 7) demo_pre) demo_work demo_frame = Ret (cs', b) /\
    content b = [COMP_ALGV2_INDICATOR_BYTE; COMP_ALGV2_LZ4_BYTE; 1; 7; 0; 0; 0; 200] /\
    forall rpre rpost rwork, fits rpre (content b) rpost -> comp_room demo_frame rwork ->
      exists cr' b', decompress toy_lib (demo_cc lz4v2_alg) (conc rpre (content b) rpost) rwork demo_frame = Ret (cr', b') /\
        content b' = replicate 200 7.
Proof.
  destruct (compression_roundtrip toy_lib 5 (demo_cc lz4v2_alg) (demo_cc lz4v2_alg) demo_frame demo_frame
              demo_pre (replicate 200 7) demo_pre demo_work toy_lib_ok) as (cs' & b & E & Hb & H);
    [done|done|by vm_compute..|exact demo_room|].
  vm_compute in E. injection E as <- <-. eexists _, _. split; [by vm_compute|]. split; [by vm_compute|].
  intros rpre rpost rwork HF Hr. destruct (H rpre rpost rwork HF Hr) as (cr' & b' & E' & Hc).
  exists cr', b'. split; [exact E'|]. rewrite Hc. by vm_compute.
Defined.

Lemma escaped_packets_are_lost_witness :
  exists b, compress toy_lib 5 (demo_cc compv2_stub_alg) (conc demo_pre [0x50; 1; 2; 3] demo_pre) demo_work demo_frame =
      Ret (demo_cc compv2_stub_alg, b) /\
    content b = [0x50; 10; 0x50; 1; 2; 3] /\
    exists cr' b', decompress toy_lib (demo_cc compv2_stub_alg) (conc demo_pre (content b) demo_pre) demo_work demo_frame =
      Ret (cr', b') /\ content b' = [].
Proof.
  destruct (escaped_packets_are_lost toy_lib 5 (demo_cc compv2_stub_alg) (demo_cc compv2_stub_alg) demo_frame demo_frame
              demo_pre [1; 2; 3] demo_pre demo_work toy_lib_ok) as (b & E & Hb & H); [done|done|by left|by vm_compute|].
  exists b. split; [exact E|]. split; [exact Hb|]. apply H; [|exact demo_room]. rewrite Hb. by vm_compute.
Defined.
