(* ===== verification/Dhcp.v ===== *)
(** * DHCP answers seen by a client ([dhcp.c], [dhcp.h])

    With --route-gateway dhcp a client watches the packets it hands to its tap device:
    from the answers of a DHCP server it takes the router's address and blanks the
    option, so that the system does not use it.  The options lie behind the fixed part
    of the message; [p] is that area, and an access outside it is [Oob].  The loops
    take fuel; the theorems show that it is enough. *)
From S2P Require Import Prelude Integer Buffer Mroute MrouteSpec Proto ProtoSpec.

Definition DHCP_PAD : Z := 0.
Definition DHCP_ROUTER : Z := 3.
Definition DHCP_MSG_TYPE : Z := 53.
Definition DHCP_END : Z := 255.
Definition DHCPOFFER : Z := 2.
Definition DHCPACK : Z := 5.
Definition BOOTPS_PORT : Z := 67.
Definition BOOTPC_PORT : Z := 68.
Definition BOOTREPLY : Z := 2.

(** [sizeof (struct dhcp)]; the members before it are the IP and the UDP header. *)
Definition dhcp_size : Z := 240.
Definition dhcp_head : Z := iphdr_size + udphdr_size + dhcp_size.

(** ** The options *)

Fixpoint message_type_loop (fuel : nat) (p : list Z) (i : Z) : outcome Z :=
  match fuel with
  | O => Oob
  | S fuel =>
      if negb (i <? zlen p) then Ret (-1)
      else
        type ← load1 p i;
        let room := zlen p - i in
        if type =? DHCP_END then Ret (-1)
        else if type =? DHCP_PAD then message_type_loop fuel p (i + 1)
        else if type =? DHCP_MSG_TYPE
        then
          if 3 <=? room
          then n ← load1 p (i + 1); if n =? 1 then load1 p (i + 2) else Ret (-1)
          else Ret (-1)
        else
          if 2 <=? room
          then n ← load1 p (i + 1); message_type_loop fuel p (i + (n + 1) + 1)
          else message_type_loop fuel p (i + 1)
  end.

Definition get_dhcp_message_type (p : list Z) : outcome Z := message_type_loop (S (length p)) p 0.

(** [memmove] of what follows over the option, and padding at the end. *)
Definition delete_option (p : list Z) (i owlen : Z) : outcome (list Z) :=
  let movlen := zlen p - (i + owlen) in
  p ← (if 0 <? movlen then src ← load p (i + owlen) movlen; store p i src else Ret p);
  store p (zlen p - owlen) (replicate (Z.to_nat owlen) DHCP_PAD).

(** The options without the router, and the router's address in host order. *)
Fixpoint extract_loop (fuel : nat) (p : list Z) (i ret : Z) : outcome (list Z * Z) :=
  match fuel with
  | O => Oob
  | S fuel =>
      if negb (i <? zlen p) then Ret (p, ret)
      else
        type ← load1 p i;
        let room := zlen p - i in
        if type =? DHCP_END then Ret (p, ret)
        else if type =? DHCP_PAD then extract_loop fuel p (i + 1) ret
        else if type =? DHCP_ROUTER
        then
          if 2 <=? room
          then
            n ← load1 p (i + 1);
            if n <=? room - 2
            then
              ret ← (if (ret =? 0) && (4 <=? n) && (Z.land n 3 =? 0)
                     then a ← load p (i + 2) 4; Ret (be_value a) else Ret ret);
              p ← delete_option p i (n + 2);
              extract_loop fuel p i ret
            else Ret (p, ret)
          else Ret (p, ret)
        else
          if 2 <=? room
          then n ← load1 p (i + 1); extract_loop fuel p (i + (n + 2)) ret
          else Ret (p, ret)
  end.

Definition do_extract (p : list Z) : outcome (list Z * Z) := extract_loop (S (2 * length p)) p 0 0.

(** ** The message *)

(** An answer, with [df] where the packet starts: the packet and the router's address or 0. *)
Definition dhcp_rewrite (ipbuf : buffer) (df optlen : Z) : outcome (buffer * Z) :=
  let udp := df + iphdr_size in
  p ← buf_load ipbuf (df + dhcp_head) optlen;
  message_type ← get_dhcp_message_type p;
  if (message_type =? DHCPACK) || (message_type =? DHCPOFFER)
  then
    '(p, ret) ← do_extract p;
    ipbuf ← buf_store ipbuf (df + dhcp_head) p;
    ipbuf ← buf_store ipbuf (udp + 6) [0; 0];
    payload ← buf_load ipbuf udp (udphdr_size + dhcp_size + optlen);
    saddr_ ← buf_load ipbuf (df + 12) 4;
    daddr ← buf_load ipbuf (df + 16) 4;
    check ← ip_checksum false payload saddr_ daddr OPENVPN_IPPROTO_UDP;
    ipbuf ← buf_store ipbuf (udp + 6) (be_bytes 2 check);
    Ret (ipbuf, if message_type =? DHCPACK then ret else 0)
  else Ret (ipbuf, 0).

Definition dhcp_extract_router_msg (ipbuf : buffer) : outcome (buffer * Z) :=
  let optlen := buf_len ipbuf - dhcp_head in
  if optlen <? 0 then Ret (ipbuf, 0)
  else
    df ← bptr ipbuf;
    let udp := df + iphdr_size in
    protocol ← buf_load1 ipbuf (df + 9);
    source ← buf_load ipbuf udp 2;
    dest ← buf_load ipbuf (udp + 2) 2;
    op ← buf_load1 ipbuf (udp + udphdr_size);
    if (protocol =? OPENVPN_IPPROTO_UDP) && (be_value source =? BOOTPS_PORT) && (be_value dest =? BOOTPC_PORT)
       && (op =? BOOTREPLY)
    then dhcp_rewrite ipbuf df optlen
    else Ret (ipbuf, 0).
