(* ===== verification/DhcpSpec.v ===== *)
(** * Theorems on DHCP answers

    The options of a message as a list, and what the extraction of the router's address
    does to it: the router options go, all others stay, and the checksum of the message
    is right again; on malformed messages it neither fails nor leaves the packet. *)
From S2P Require Import Prelude Integer Buffer Mroute MrouteSpec Proto ProtoSpec CryptoSpec Dhcp.

(** ** The list of options *)

(** The options of an area without truncated options: number and data of each. *)
Inductive dhcp_options : list Z -> list (Z * list Z) -> Prop :=
| options_nil : dhcp_options [] []
| options_end r : dhcp_options (DHCP_END :: r) []
| options_pad p o : dhcp_options p o -> dhcp_options (DHCP_PAD :: p) o
| options_item t d p o :
    t <> DHCP_END -> t <> DHCP_PAD -> dhcp_options p o -> dhcp_options (t :: zlen d :: d ++ p) ((t, d) :: o).

(** The first usable router address, when none is known yet. *)
Fixpoint router_address (ret : Z) (o : list (Z * list Z)) : Z :=
  match o with
  | [] => ret
  | (t, d) :: o =>
      router_address (if (t =? DHCP_ROUTER) && (ret =? 0) && (4 <=? zlen d) && (Z.land (zlen d) 3 =? 0)
                      then be_value (ztake 4 d) else ret) o
  end.

Definition not_router (x : Z * list Z) : Prop := x.1 <> DHCP_ROUTER.
#[global] Instance not_router_dec x : Decision (not_router x).
Proof. unfold not_router. apply _. Defined.

(** Areas that come out whole in front of any other. *)
Definition parsed (dn : list Z) (od : list (Z * list Z)) : Prop :=
  forall x o, dhcp_options x o -> dhcp_options (dn ++ x) (od ++ o).

Lemma parsed_nil : parsed [] [].
Proof. by intros x o. Qed.

Lemma parsed_pad dn od : parsed dn od -> parsed (dn ++ [DHCP_PAD]) od.
Proof. intros H x o Hx. rewrite <- app_assoc. apply H. by constructor. Qed.

Lemma parsed_item dn od t d :
  parsed dn od -> t <> DHCP_END -> t <> DHCP_PAD -> parsed (dn ++ t :: zlen d :: d) (od ++ [(t, d)]).
Proof. intros H He Hp x o Hx. rewrite <- !app_assoc. cbn. apply H. by constructor. Qed.

Lemma options_padded p o n : dhcp_options p o -> dhcp_options (p ++ replicate n DHCP_PAD) o.
Proof.
  induction 1 as [|r|p o H IH|t d p o He Hp H IH]; cbn.
  - induction n as [|n IH]; cbn; by constructor.
  - constructor.
  - by constructor.
  - rewrite <- app_assoc. by constructor.
Qed.

(** ** Deleting an option *)

Lemma delete_option_spec dn x r :
  delete_option (dn ++ x ++ r) (zlen dn) (zlen x) = Ret (dn ++ r ++ replicate (length x) DHCP_PAD).
Proof.
  unfold delete_option. zlen_facts. rewrite !zlen_app. set (movlen := _ - (zlen dn + zlen x)).
  assert (Hm : movlen = zlen r) by (unfold movlen; lia). rewrite Hm.
  replace (Z.to_nat (zlen x)) with (length x) by (unfold zlen; lia). assert (Hx : zlen x = Z.of_nat (length x)) by done.
  destruct (zsplit (zlen r) (x ++ r)) as (a & b & E & Ha & Hb); [zlia|]. rewrite zlen_app in Hb.
  destruct (0 <? zlen r) eqn:Er; breflect.
  - rewrite (load_eq _ (dn ++ x) r []); [|by rewrite app_nil_r, <- app_assoc|zlia|done]. cbn [mbind outcome_mbind].
    rewrite E, (store_eq _ dn a b) by done. cbn [mbind outcome_mbind].
    rewrite (store_eq _ (dn ++ r) b []); rewrite ?app_nil_r, <- ?app_assoc; [done..|zlia|zlia].
  - assert (r = []) as -> by (apply zlen_0_nil; pose proof (zlen_nonneg r); lia). cbn [mbind outcome_mbind app]. rewrite app_nil_r.
    rewrite (store_eq _ dn x []); rewrite ?app_nil_r; [done..|zlia|zlia].
Qed.

(** ** The loop *)

(** The bytes that are not padding, which every deletion has fewer of. *)
Fixpoint nonzero (l : list Z) : Z :=
  match l with [] => 0 | x :: l => (if x =? 0 then 0 else 1) + nonzero l end.

Lemma nonzero_app a b : nonzero (a ++ b) = nonzero a + nonzero b.
Proof. induction a as [|x a IH]; cbn; [lia|]. destruct (x =? 0); lia. Qed.

Lemma nonzero_bounds l : 0 <= nonzero l <= zlen l.
Proof. induction l as [|x l IH]; cbn -[zlen]; [done|]. rewrite zlen_cons. destruct (x =? 0); lia. Qed.

Lemma nonzero_pads n : nonzero (replicate n DHCP_PAD) = 0.
Proof. induction n; cbn; lia. Qed.

(** What is known of a result, from where the loop is: the options before it and
    those ahead of it. *)
Definition extracted (dn rest : list Z) (ret : Z) (r : outcome (list Z * Z)) : Prop :=
  exists p' ret', r = Ret (p', ret') /\ zlen p' = zlen (dn ++ rest) /\ Forall is_u8 p' /\
    forall od o, parsed dn od -> dhcp_options rest o ->
      dhcp_options p' (od ++ filter not_router o) /\ ret' = router_address ret o.

Lemma extracted_done dn rest ret :
  Forall is_u8 (dn ++ rest) -> (forall o, dhcp_options rest o -> o = []) -> extracted dn rest ret (Ret (dn ++ rest, ret)).
Proof.
  intros Hu Ho. eexists _, _. split; [done|]. split; [done|]. split; [done|]. intros od o Hp Hr.
  pose proof (Ho o Hr) as ->. split; [apply Hp; exact Hr|done].
Qed.

Lemma dhcp_extract_loop_spec fuel : forall dn rest ret,
  Forall is_u8 (dn ++ rest) -> zlen rest + nonzero rest < Z.of_nat fuel ->
  extracted dn rest ret (extract_loop fuel (dn ++ rest) (zlen dn) ret).
Proof.
  induction fuel as [|fuel IH]; intros dn rest ret Hu Hf; pose proof (nonzero_bounds rest); [lia|].
  cbn [extract_loop]. rewrite zlen_app. destruct rest as [|t r].
  { replace (zlen dn <? zlen dn + zlen []) with false by (symmetry; apply Z.ltb_ge; change (@zlen Z []) with 0; lia).
    cbn [negb]. apply extracted_done; [done|]. intros o Ho. by inversion Ho. }
  rewrite zlen_cons in *. pose proof (zlen_nonneg r). bdecide. rewrite load1_app. cbn [mbind outcome_mbind nonzero] in *.
  pose proof (nonzero_bounds r). replace (zlen dn + (1 + zlen r) - zlen dn) with (1 + zlen r) by lia.
  destruct (Z.eqb_spec t DHCP_END) as [->|Hend].
  { apply extracted_done; [done|]. intros o Ho. inversion Ho; subst; done. }
  destruct (Z.eqb_spec t DHCP_PAD) as [->|Hpad].
  { destruct (IH (dn ++ [DHCP_PAD]) r ret) as (p' & ret' & E & Hl & Hu' & Hs); [by rewrite <- app_assoc|cbn in Hf; lia|].
    rewrite <- app_assoc, zlen_app in E. cbn [app] in E. change (zlen [DHCP_PAD]) with 1 in E. rewrite E.
    eexists _, _. split; [done|]. split; [rewrite Hl; zlia|]. split; [done|]. intros od o Hp Ho.
    inversion Ho; subst; [|done]. apply Hs; [by apply parsed_pad|done]. }
  assert (Hshort : r = [] -> forall o, dhcp_options (t :: r) o -> o = []) by (intros -> o Ho; inversion Ho; subst; done).
  change DHCP_PAD with 0 in Hpad. destruct (t =? 0) eqn:Et0; breflect; [done|].
  destruct (2 <=? 1 + zlen r) eqn:E2; breflect.
  2: { assert (r = []) by (apply zlen_0_nil; lia). destruct (t =? DHCP_ROUTER); apply extracted_done; auto. }
  destruct r as [|n r]; [done|]. rewrite zlen_cons in *. pose proof (zlen_nonneg r). pose proof (nonzero_bounds r).
  assert (Hn : is_u8 n) by (rewrite Forall_app, !Forall_cons in Hu; tauto). unfold is_u8 in Hn.
  rewrite (load1_eq _ (dn ++ [t]) n r) by (rewrite <- ?app_assoc; done || zlia). cbn [mbind outcome_mbind nonzero] in *.
  destruct (n <=? zlen r) eqn:En; breflect.
  2: { assert (Hno : forall o, dhcp_options (t :: n :: r) o -> False).
       { intros o Ho. inversion Ho as [| | |? d p ?]; subst; try done. rewrite zlen_app in En. zlen_facts. lia. }
       destruct (t =? DHCP_ROUTER).
       - bdecide. eexists _, _. split; [done|]. split; [done|]. split; [done|]. intros ? o _ Ho. by destruct (Hno o).
       - destruct fuel as [|fuel]; [lia|]. cbn [extract_loop]. rewrite zlen_app, !zlen_cons. bdecide.
         eexists _, _. split; [done|]. split; [done|]. split; [done|]. intros ? o _ Ho. by destruct (Hno o). }
  destruct (zsplit n r) as (d & p & -> & Hd & Hp); [lia|]. subst n. rewrite zlen_app, nonzero_app in *. pose proof (nonzero_bounds p). pose proof (nonzero_bounds d).
  assert (Hinv : forall o, dhcp_options (t :: zlen d :: d ++ p) o -> exists o', o = (t, d) :: o' /\ dhcp_options p o').
  { intros o Ho. inversion Ho as [| | |? d' p' o' _ _ Ho' Et]; subst; try done.
    match goal with H : ?a ++ ?b = d ++ p |- _ => apply app_inj_1 in H as [-> ->] end; [by eexists|]. unfold zlen in *. lia. }
  destruct (Z.eqb_spec t DHCP_ROUTER) as [->|Hnr].
  - bdecide. set (ret1 := if (ret =? 0) && (4 <=? zlen d) && (Z.land (zlen d) 3 =? 0) then be_value (ztake 4 d) else ret).
    assert (Er : (if (ret =? 0) && (4 <=? zlen d) && (Z.land (zlen d) 3 =? 0)
                  then a ← load (dn ++ DHCP_ROUTER :: zlen d :: d ++ p) (zlen dn + 2) 4; Ret (be_value a) else Ret ret) = Ret ret1).
    { unfold ret1. destruct (ret =? 0); [cbn [andb]|done]. destruct (4 <=? zlen d) eqn:E4; [cbn [andb]|done]. destruct (Z.land (zlen d) 3 =? 0); [|done]. breflect.
      rewrite (load_eq _ (dn ++ [DHCP_ROUTER; zlen d]) (ztake 4 d) (zdrop 4 d ++ p)); [done| |zlia|zlia].
      rewrite <- app_assoc. cbn. do 3 f_equal. by rewrite app_assoc, ztake_zdrop. }
    rewrite Er. cbn [mbind outcome_mbind]. change (DHCP_ROUTER :: zlen d :: d ++ p) with ((DHCP_ROUTER :: zlen d :: d) ++ p).
    replace (zlen d + 2) with (zlen (DHCP_ROUTER :: zlen d :: d)) by zlia. rewrite delete_option_spec. cbn [mbind outcome_mbind].
    assert (Hx : Z.of_nat (length (DHCP_ROUTER :: zlen d :: d)) = 2 + zlen d) by (unfold zlen; cbn [length]; lia).
    destruct (IH dn (p ++ replicate (length (DHCP_ROUTER :: zlen d :: d)) DHCP_PAD) ret1) as (p' & ret' & E & Hl & Hu' & Hs).
    + rewrite !Forall_app, !Forall_cons, Forall_app in *. destruct Hu as (? & ? & ? & ? & ?). split_and!; [done..|]. by apply Forall_replicate.
    + rewrite zlen_app, nonzero_app, nonzero_pads, zlen_replicate, Hx. destruct (zlen d =? 0); lia.
    + rewrite E. eexists _, _. split; [done|]. split.
      { rewrite Hl, zlen_app, zlen_app, zlen_replicate, Hx. zlia. }
      split; [done|]. intros od o Hpd Ho. destruct (Hinv o Ho) as (o' & -> & Ho').
      rewrite filter_cons_False by (unfold not_router; cbn; auto). apply Hs; [done|]. by apply options_padded.
  - destruct (IH (dn ++ t :: zlen d :: d) p ret) as (p' & ret' & E & Hl & Hu' & Hs).
    + by rewrite <- app_assoc.
    + destruct (zlen d =? 0); lia.
    + rewrite <- app_assoc in E. cbn [app] in E. replace (zlen dn + (zlen d + 2)) with (zlen (dn ++ t :: zlen d :: d)) by zlia. rewrite E.
      eexists _, _. split; [done|]. split; [rewrite Hl; zlia|]. split; [done|]. intros od o Hpd Ho. destruct (Hinv o Ho) as (o' & -> & Ho').
      rewrite filter_cons_True by (unfold not_router; done). rewrite cons_middle, app_assoc. cbn [router_address].
      apply (proj2 (Z.eqb_neq t DHCP_ROUTER)) in Hnr as Hnr'. rewrite Hnr'. cbn [andb]. apply Hs; [|done]. by apply parsed_item.
Qed.

Fixpoint message_type (o : list (Z * list Z)) : Z :=
  match o with
  | [] => -1
  | (t, d) :: o => if t =? DHCP_MSG_TYPE then match d with [x] => x | _ => -1 end else message_type o
  end.

Lemma message_type_loop_spec fuel : forall dn rest,
  Forall is_u8 (dn ++ rest) -> zlen rest < Z.of_nat fuel ->
  exists t, message_type_loop fuel (dn ++ rest) (zlen dn) = Ret t /\
    forall o, dhcp_options rest o -> t = message_type o.
Proof.
  induction fuel as [|fuel IH]; intros dn rest Hu Hf; [zlen_facts; lia|]. cbn [message_type_loop]. rewrite zlen_app.
  destruct rest as [|t r].
  { replace (zlen dn <? zlen dn + zlen []) with false by (symmetry; apply Z.ltb_ge; change (@zlen Z []) with 0; lia).
    eexists. split; [done|]. intros o Ho. by inversion Ho. }
  rewrite zlen_cons in *. pose proof (zlen_nonneg r). bdecide. rewrite load1_app. cbn [mbind outcome_mbind].
  replace (zlen dn + (1 + zlen r) - zlen dn) with (1 + zlen r) by lia.
  destruct (Z.eqb_spec t DHCP_END) as [->|Hend].
  { eexists. split; [done|]. intros o Ho. inversion Ho; subst; done. }
  destruct (Z.eqb_spec t DHCP_PAD) as [->|Hpad].
  { destruct (IH (dn ++ [DHCP_PAD]) r) as (t & E & Hs); [by rewrite <- app_assoc|lia|].
    rewrite <- app_assoc, zlen_app in E. cbn [app] in E. change (zlen [DHCP_PAD]) with 1 in E. rewrite E.
    eexists. split; [done|]. intros o Ho. inversion Ho; subst; [|done]. by apply Hs. }
  assert (Hshort : r = [] -> forall o, dhcp_options (t :: r) o -> False) by (intros -> o Ho; inversion Ho; subst; done).
  destruct r as [|n r].
  { change (zlen []) with 0. destruct (t =? DHCP_MSG_TYPE).
    - eexists. split; [done|]. intros o Ho. by destruct (Hshort eq_refl o).
    - cbn [Z.leb Z.add Z.compare Pos.compare Pos.compare_cont]. destruct (IH (dn ++ [t]) []) as (t' & E & _); [by rewrite <- app_assoc|change (@zlen Z []) with 0; lia|].
      rewrite <- app_assoc, zlen_app in E. change (zlen [t]) with 1 in E. cbn [app] in E. rewrite E.
      eexists. split; [done|]. intros o Ho. by destruct (Hshort eq_refl o). }
  rewrite zlen_cons in *. pose proof (zlen_nonneg r).
  assert (Hn : is_u8 n) by (rewrite Forall_app, !Forall_cons in Hu; tauto). unfold is_u8 in Hn.
  assert (El : load1 (dn ++ t :: n :: r) (zlen dn + 1) = Ret n).
  { apply (load1_eq _ (dn ++ [t]) n r); rewrite <- ?app_assoc; done || zlia. }
  assert (Hinv : forall o, dhcp_options (t :: n :: r) o -> exists d p o', r = d ++ p /\ n = zlen d /\ o = (t, d) :: o' /\ dhcp_options p o').
  { intros o Ho. inversion Ho; subst; try done. by eexists _, _, _. }
  destruct (Z.eqb_spec t DHCP_MSG_TYPE) as [->|Hmt].
  - destruct (3 <=? 1 + (1 + zlen r)) eqn:E3; breflect.
    + rewrite El. cbn [mbind outcome_mbind]. destruct (Z.eqb_spec n 1) as [->|Hn1].
      * destruct r as [|x r]; [change (@zlen Z []) with 0 in E3; lia|].
        rewrite (load1_eq _ (dn ++ [DHCP_MSG_TYPE; 1]) x r) by (rewrite <- ?app_assoc; done || zlia).
        eexists. split; [done|]. intros o Ho. destruct (Hinv o Ho) as (d & p & o' & E & Ed & -> & _). cbn.
        destruct d as [|y [|z d]]; [done| |unfold zlen in Ed; cbn in Ed; lia]. cbn in E. congruence.
      * eexists. split; [done|]. intros o Ho. destruct (Hinv o Ho) as (d & p & o' & E & Ed & -> & _). cbn.
        destruct d as [|y [|z d]]; done.
    + eexists. split; [done|]. intros o Ho. destruct (Hinv o Ho) as (d & p & o' & E & Ed & -> & _). subst r.
      rewrite zlen_app in E3. zlen_facts. destruct d as [|y d]; [done|]. rewrite zlen_cons in *. zlen_facts. lia.
  - bdecide. rewrite El. cbn [mbind outcome_mbind]. destruct (n <=? zlen r) eqn:En; breflect.
    + destruct (zsplit n r) as (d & p & -> & Hd & Hp); [lia|]. subst n.
      destruct (IH (dn ++ t :: zlen d :: d) p) as (t' & E & Hs); [by rewrite <- app_assoc|rewrite zlen_app in *; lia|].
      rewrite <- app_assoc in E. cbn [app] in E. replace (zlen dn + (zlen d + 1) + 1) with (zlen (dn ++ t :: zlen d :: d)) by zlia. rewrite E.
      eexists. split; [done|]. intros o Ho. destruct (Hinv o Ho) as (d' & p' & o' & E' & Ed & -> & Ho').
      apply app_inj_1 in E' as [-> ->]; [|unfold zlen in Ed; lia]. cbn. apply (proj2 (Z.eqb_neq t DHCP_MSG_TYPE)) in Hmt as ->. by apply Hs.
    + destruct fuel as [|fuel]; [lia|]. cbn [message_type_loop]. rewrite zlen_app, !zlen_cons. bdecide.
      eexists. split; [done|]. intros o Ho. destruct (Hinv o Ho) as (d & p & o' & -> & -> & _). rewrite zlen_app in En. zlen_facts. lia.
Qed.

(** ** Messages *)

Lemma do_extract_spec p :
  Forall is_u8 p ->
  exists p' r, do_extract p = Ret (p', r) /\ zlen p' = zlen p /\ Forall is_u8 p' /\
    forall o, dhcp_options p o -> dhcp_options p' (filter not_router o) /\ r = router_address 0 o.
Proof.
  intros Hu. pose proof (nonzero_bounds p).
  destruct (dhcp_extract_loop_spec (S (2 * length p)) [] p 0) as (p' & r & E & Hl & Hu' & Hs); [done|unfold zlen in *; lia|].
  exists p', r. split; [exact E|]. split; [done|]. split; [done|]. intros o Ho. by apply (Hs [] o parsed_nil).
Qed.

Lemma get_message_type_spec p :
  Forall is_u8 p -> exists t, get_dhcp_message_type p = Ret t /\ forall o, dhcp_options p o -> t = message_type o.
Proof. intros Hu. apply (message_type_loop_spec (S (length p)) [] p); [done|]. unfold zlen. lia. Qed.

(** A packet with a DHCP message: the IP header up to the addresses, the two addresses, the
    UDP header (ports, length, checksum), the message's fixed part and its options. *)
Definition dhcp_packet (h sa da sport dport ulen ck m p : list Z) : list Z :=
  h ++ sa ++ da ++ sport ++ dport ++ ulen ++ ck ++ m ++ p.

Definition dhcp_lengths (h sa da sport dport ulen ck m : list Z) : Prop :=
  zlen h = 12 /\ zlen sa = 4 /\ zlen da = 4 /\ zlen sport = 2 /\ zlen dport = 2 /\ zlen ulen = 2 /\ zlen ck = 2 /\ zlen m = 240.

(** An answer of a server. *)
Definition is_answer (h sport dport m : list Z) : bool :=
  (h !!! 9%nat =? OPENVPN_IPPROTO_UDP) && (be_value sport =? BOOTPS_PORT) && (be_value dport =? BOOTPC_PORT) && (m !!! 0%nat =? BOOTREPLY).

(** Bytes stored inside the content, wherever it is split. *)
Lemma buf_store_at pre c c1 old c2 post src pos :
  c = c1 ++ old ++ c2 -> pos = zlen pre + zlen c1 -> zlen src = zlen old ->
  buf_store (conc pre c post) pos src = Ret (conc pre (c1 ++ src ++ c2) post).
Proof. intros ->. by apply buf_store_inside. Qed.

(** The checks of the header. *)
Lemma extract_checks pre h sa da sport dport ulen ck m p post :
  dhcp_lengths h sa da sport dport ulen ck m ->
  let buf := conc pre (dhcp_packet h sa da sport dport ulen ck m p) post in
  dhcp_extract_router_msg buf = if is_answer h sport dport m then dhcp_rewrite buf (zlen pre) (zlen p) else Ret (buf, 0).
Proof.
  intros (Lh & Lsa & Lda & Lsp & Ldp & Lul & Lck & Lm) buf. zlen_facts. unfold buf, dhcp_extract_router_msg.
  rewrite buf_len_conc. unfold dhcp_head, iphdr_size, udphdr_size, dhcp_size, bptr. rewrite buf_bptr_conc. set (c := dhcp_packet _ _ _ _ _ _ _ _ _).
  assert (Lc : zlen c = 268 + zlen p) by (unfold c, dhcp_packet; rewrite !zlen_app, Lh, Lsa, Lda, Lsp, Ldp, Lul, Lck, Lm; lia).
  rewrite Lc. bdecide. cbn [mbind outcome_mbind].
  rewrite (buf_load1_conc pre c post 9 (h !!! 9%nat)); [|done|].
  2: { unfold c, dhcp_packet. apply lookup_app_l_Some, list_lookup_lookup_total_lt. unfold zlen in *. lia. }
  cbn [mbind outcome_mbind].
  rewrite (buf_load_inside pre c (h ++ sa ++ da) sport (dport ++ ulen ++ ck ++ m ++ p) post (zlen pre + 20) 2) by
    (unfold c, dhcp_packet; rewrite <- ?app_assoc, ?zlen_app; done || lia).
  cbn [mbind outcome_mbind].
  rewrite (buf_load_inside pre c (h ++ sa ++ da ++ sport) dport (ulen ++ ck ++ m ++ p) post (zlen pre + 20 + 2) 2) by
    (unfold c, dhcp_packet; rewrite <- ?app_assoc, ?zlen_app; done || lia).
  cbn [mbind outcome_mbind]. replace (zlen pre + 20 + 8) with (zlen pre + 28) by lia.
  rewrite (buf_load1_conc pre c post 28 (m !!! 0%nat)); [|done|].
  2: { unfold c, dhcp_packet. rewrite !app_assoc, <- (app_assoc _ m p). rewrite lookup_app_r; [|unfold zlen in *; rewrite !length_app; lia].
       apply lookup_app_l_Some. replace (_ - _)%nat with 0%nat; [apply list_lookup_lookup_total_lt|]; unfold zlen in *; rewrite ?length_app; lia. }
  cbn [mbind outcome_mbind]. unfold is_answer. replace (268 + zlen p - (20 + 8 + 240)) with (zlen p) by lia. done.
Qed.

(** What the rewriting of an answer does: [p'] are the new options, [k] the checksum. *)
Lemma rewrite_answer pre h sa da sport dport ulen ck m p post :
  dhcp_lengths h sa da sport dport ulen ck m -> is_answer h sport dport m = true ->
  Forall is_u8 (dhcp_packet h sa da sport dport ulen ck m p) -> zlen p <= 30000 ->
  exists t p' r k, get_dhcp_message_type p = Ret t /\ do_extract p = Ret (p', r) /\ is_u16 k /\
    dhcp_extract_router_msg (conc pre (dhcp_packet h sa da sport dport ulen ck m p) post) =
      Ret (if (t =? DHCPACK) || (t =? DHCPOFFER)
           then (conc pre (dhcp_packet h sa da sport dport ulen (be_bytes 2 k) m p') post, if t =? DHCPACK then r else 0)
           else (conc pre (dhcp_packet h sa da sport dport ulen ck m p) post, 0)) /\
    cong (sum16 (sport ++ dport ++ ulen ++ be_bytes 2 k ++ m ++ p') + sum16 sa + sum16 da + (248 + zlen p) + OPENVPN_IPPROTO_UDP) 0.
Proof.
  intros (Lh & Lsa & Lda & Lsp & Ldp & Lul & Lck & Lm) HA Hu Hp. zlen_facts.
  unfold dhcp_packet in Hu. rewrite !Forall_app in Hu. destruct Hu as (Uh & Usa & Uda & Usp & Udp & Uul & Uck & Um & Up).
  destruct (get_message_type_spec p Up) as (t & Et & _). destruct (do_extract_spec p Up) as (p' & r & Er & Lp & Up' & _).
  set (body k0 p0 := sport ++ dport ++ ulen ++ k0 ++ m ++ p0).
  assert (Lb : forall k0, zlen k0 = 2 -> zlen (body k0 p') = 248 + zlen p).
  { intros k0 L0. unfold body. rewrite !zlen_app, Lsp, Ldp, Lul, L0, Lm, Lp. lia. }
  destruct (ip_checksum_spec false (body [0; 0] p') sa da OPENVPN_IPPROTO_UDP) as (k & Ek & Hk & Hc); try done.
  { unfold body. rewrite !Forall_app. split_and!; try done. repeat (apply Forall_cons_2; [unfold is_u8; lia|]); apply Forall_nil_2. }
  { rewrite Lb by done. lia. }
  exists t, p', r, k. split; [done|]. split; [done|]. split; [done|]. split.
  - rewrite extract_checks by (by repeat split). rewrite HA. unfold dhcp_rewrite, dhcp_packet, dhcp_head, iphdr_size, udphdr_size, dhcp_size.
    set (c := h ++ _).
    rewrite (buf_load_inside pre c (h ++ sa ++ da ++ sport ++ dport ++ ulen ++ ck ++ m) p [] post (zlen pre + (20 + 8 + 240)) (zlen p));
      [|unfold c; rewrite <- ?app_assoc, app_nil_r; done|rewrite ?zlen_app; lia|lia].
    cbn [mbind outcome_mbind]. rewrite Et. cbn [mbind outcome_mbind].
    destruct ((t =? DHCPACK) || (t =? DHCPOFFER)); [|done]. rewrite Er. cbn [mbind outcome_mbind].
    rewrite (buf_store_at pre c (h ++ sa ++ da ++ sport ++ dport ++ ulen ++ ck ++ m) p []) by
      (unfold c; rewrite <- ?app_assoc, ?app_nil_r, ?zlen_app; done || lia).
    cbn [mbind outcome_mbind]. rewrite app_nil_r.
    rewrite (buf_store_at pre _ (h ++ sa ++ da ++ sport ++ dport ++ ulen) ck (m ++ p')) by
      (rewrite <- ?app_assoc, ?zlen_app; done || lia).
    cbn [mbind outcome_mbind]. set (c2 := (h ++ _) ++ _).
    assert (E2 : c2 = (h ++ sa ++ da) ++ body [0; 0] p') by (unfold c2, body; by rewrite <- !app_assoc).
    assert (Lc2 : zlen c2 = 268 + zlen p) by (rewrite E2, zlen_app, Lb, !zlen_app by done; lia).
    rewrite (buf_load_inside pre c2 (h ++ sa ++ da) (body [0; 0] p') [] post (zlen pre + 20) _);
      [|by rewrite app_nil_r|rewrite !zlen_app; lia|rewrite Lb by done; lia]. cbn [mbind outcome_mbind].
    rewrite (buf_load_inside pre c2 h sa (da ++ body [0; 0] p') post (zlen pre + 12) 4);
      [|by rewrite E2, <- !app_assoc|lia|lia]. cbn [mbind outcome_mbind].
    rewrite (buf_load_inside pre c2 (h ++ sa) da (body [0; 0] p') post (zlen pre + 16) 4);
      [|by rewrite E2, <- !app_assoc|rewrite zlen_app; lia|lia]. cbn [mbind outcome_mbind].
    rewrite Ek. cbn [mbind outcome_mbind].
    rewrite (buf_store_at pre _ (h ++ sa ++ da ++ sport ++ dport ++ ulen) [0; 0] (m ++ p')) by
      (rewrite ?zlen_be_bytes, ?zlen_app; done || lia).
    cbn [mbind outcome_mbind]. by rewrite <- !app_assoc.
  - destruct Hc as [q Hq]. exists q. rewrite <- Hq. rewrite Lb by done.
    assert (S : forall k0, zlen k0 = 2 -> sum16 (body k0 p') = sum16 sport + (sum16 dport + (sum16 ulen + (sum16 k0 + sum16 (m ++ p'))))).
    { intros k0 L0. unfold body. by rewrite !sum16_app by (rewrite ?Lsp, ?Ldp, ?Lul, ?L0; done). }
    fold (body (be_bytes 2 k) p'). rewrite !S by (rewrite ?zlen_be_bytes; done).
    assert (sum16 (be_bytes 2 k) = k) as ->.
    { cbn [be_bytes app sum16]. unfold is_u16 in Hk.
      rewrite (Z.mod_small (k / 256)) by (split; [apply Z.div_pos; lia|apply Z.div_lt_upper_bound; lia]). pose proof (Z.div_mod k 256). lia. }
    cbn [sum16]. lia.
Qed.

(** From a DHCP answer (an acknowledgement or an offer) the client takes the router's
    address out: the router options are gone, all other options are there in their
    order, nothing else in the packet changed but the UDP checksum, which verifies, and for
    an acknowledgement the first usable router address is reported. *)
Theorem dhcp_router_extracted pre h sa da sport dport ulen ck m p post o :
  dhcp_lengths h sa da sport dport ulen ck m -> is_answer h sport dport m = true ->
  Forall is_u8 (dhcp_packet h sa da sport dport ulen ck m p) -> zlen p <= 30000 ->
  dhcp_options p o -> message_type o = DHCPACK \/ message_type o = DHCPOFFER ->
  exists p' k,
    dhcp_extract_router_msg (conc pre (dhcp_packet h sa da sport dport ulen ck m p) post) =
      Ret (conc pre (dhcp_packet h sa da sport dport ulen (be_bytes 2 k) m p') post,
           if message_type o =? DHCPACK then router_address 0 o else 0) /\
    zlen p' = zlen p /\ dhcp_options p' (filter not_router o) /\
    cong (sum16 (sport ++ dport ++ ulen ++ be_bytes 2 k ++ m ++ p') + sum16 sa + sum16 da + (248 + zlen p) + OPENVPN_IPPROTO_UDP) 0.
Proof.
  intros HL HA Hu Hp Ho Ht. destruct (rewrite_answer pre h sa da sport dport ulen ck m p post HL HA Hu Hp) as (t & p' & r & k & Et & Er & _ & E & Hc).
  assert (Up : Forall is_u8 p) by (unfold dhcp_packet in Hu; rewrite !Forall_app in Hu; tauto).
  destruct (get_message_type_spec p Up) as (t' & Et' & Hs). destruct (do_extract_spec p Up) as (p'' & r' & Er' & Hl & _ & Hx).
  rewrite Et in Et'. rewrite Er in Er'. injection Et' as <-. injection Er' as <- <-. destruct (Hx o Ho) as [Ho' ->].
  rewrite (Hs o Ho) in E. exists p', k. split; [|done]. rewrite E. by destruct Ht as [-> | ->].
Qed.

(** Whatever the packet, the check returns and leaves a packet of the same length. *)
Lemma dhcp_extract_any pre c post :
  Forall is_u8 c -> zlen c <= 30000 ->
  exists c' r, dhcp_extract_router_msg (conc pre c post) = Ret (conc pre c' post, r) /\ zlen c' = zlen c.
Proof.
  intros Hu Hl. destruct (zlen c - dhcp_head <? 0) eqn:E0; breflect.
  { unfold dhcp_extract_router_msg. rewrite buf_len_conc. bdecide. by eexists _, _. }
  unfold dhcp_head, iphdr_size, udphdr_size, dhcp_size in E0.
  assert (Hs : forall n (l : list Z), 0 <= n <= zlen l -> exists a b, l = a ++ b /\ zlen a = n /\ zlen b = zlen l - n) by (intros; by apply zsplit).
  destruct (Hs 12 c) as (h & c1 & -> & Lh & L1); [lia|]. destruct (Hs 4 c1) as (sa & c2 & -> & Lsa & L2); [lia|].
  destruct (Hs 4 c2) as (da & c3 & -> & Lda & L3); [lia|]. destruct (Hs 2 c3) as (sport & c4 & -> & Lsp & L4); [lia|].
  destruct (Hs 2 c4) as (dport & c5 & -> & Ldp & L5); [lia|]. destruct (Hs 2 c5) as (ulen & c6 & -> & Lul & L6); [lia|].
  destruct (Hs 2 c6) as (ck & c7 & -> & Lck & L7); [lia|]. destruct (Hs 240 c7) as (m & p & -> & Lm & L8); [lia|]. clear Hs.
  assert (HL : dhcp_lengths h sa da sport dport ulen ck m) by (by repeat split).
  fold (dhcp_packet h sa da sport dport ulen ck m p) in *.
  destruct (is_answer h sport dport m) eqn:Ha.
  - destruct (rewrite_answer pre h sa da sport dport ulen ck m p post HL Ha Hu ltac:(lia)) as (t & p' & r & k & _ & Er & _ & E & _).
    assert (Up : Forall is_u8 p) by (unfold dhcp_packet in Hu; rewrite !Forall_app in Hu; tauto).
    destruct (do_extract_spec p Up) as (p'' & r' & Er' & Hl' & _). rewrite Er in Er'. injection Er' as <- <-.
    rewrite E. destruct (_ || _); eexists _, _; (split; [done|]); [|done].
    unfold dhcp_packet. rewrite !zlen_app, zlen_be_bytes, Hl'. lia.
  - rewrite extract_checks, Ha by done. by eexists _, _.
Qed.

(** ** A witness *)

(** An acknowledgement with a router and a name server. *)
Definition demo_options : list Z := [53; 1; 5; 3; 4; 10; 8; 0; 1; 6; 4; 8; 8; 8; 8; 255; 0].

Lemma demo_options_parse : dhcp_options demo_options [(53, [5]); (3, [10; 8; 0; 1]); (6, [8; 8; 8; 8])].
Proof.
  apply (options_item 53 [5]); [done..|]. apply (options_item 3 [10; 8; 0; 1]); [done..|].
  apply (options_item 6 [8; 8; 8; 8]); [done..|]. constructor.
Qed.

Notation demo_answer p ck := (dhcp_packet [69; 0; 1; 29; 0; 0; 0; 0; 64; 17; 0; 0] [10; 8; 0; 1] [10; 8; 0; 6] [0; 67] [0; 68] [1; 9] ck
  (2 :: replicate 239 0) p).

Lemma demo_answer_bytes : Forall is_u8 (demo_answer demo_options [0; 0]).
Proof.
  unfold dhcp_packet. rewrite !Forall_app. split_and!; repeat (apply Forall_cons_2; [unfold is_u8; lia|]);
    first [apply Forall_nil_2 | apply Forall_replicate; unfold is_u8; lia].
Qed.

Lemma dhcp_router_extracted_witness :
  exists k p', dhcp_extract_router_msg (conc [] (demo_answer demo_options [0; 0]) []) = Ret (conc [] (demo_answer p' (be_bytes 2 k)) [], 0x0A080001) /\
    dhcp_options p' [(53, [5]); (6, [8; 8; 8; 8])].
Proof.
  destruct (dhcp_router_extracted [] [69; 0; 1; 29; 0; 0; 0; 0; 64; 17; 0; 0] [10; 8; 0; 1] [10; 8; 0; 6] [0; 67] [0; 68] [1; 9] [0; 0]
              (2 :: replicate 239 0) demo_options [] [(53, [5]); (3, [10; 8; 0; 1]); (6, [8; 8; 8; 8])]) as (p' & k & E & _ & Ho & _).
  - by vm_compute.
  - by vm_compute.
  - exact demo_answer_bytes.
  - by vm_compute.
  - exact demo_options_parse.
  - by left.
  - exists k, p'. split; [exact E|exact Ho].
Defined.
