(* ===== verification/Forward.v ===== *)
(** * The data channel ([forward.c], [ping.h], [ping.c], [occ.c], [occ.h])

    How the parts work together on a data packet: a packet read from the tunnel device is
    rewritten, compressed, cut, encrypted under the key the TLS layer selects, and handed
    to the link ([process_incoming_tun], [encrypt_sign]); a packet from the link goes the
    other way ([process_incoming_link_part1], [process_incoming_link_part2]), and the
    messages the peers exchange inside the tunnel (pings, and the OCC protocol) are taken
    out.

    The state is the part of [struct context] these functions use.  The buffers in
    [c2_*_buf] are the objects of [struct context_buffers]; a stage that works in one of
    them leaves it to the next stage as [c2_buf], and the model does not track the bytes
    left behind in a work buffer, which every stage initialises before it uses it.  Whether
    [buffer_turnover] finds that the packet still lies in the object it came from, and that
    this is not the object it is to be kept in, is an argument ([moved]); it is false for
    packets read from the device or the link, which come from the object they are kept in.
    The clock and the random bytes of
    a call are arguments; the compression libraries and the ciphers of the control channel
    are parameters.  Statistics for the management interface, the test mode that damages
    packets (--gremlin) and the traffic shaper are left out. *)
From S2P Require Import Prelude Integer Buffer Fragment Mroute Proto Otime PacketId Reliable ControlChannel Mtu Crypto.
From S2P Require Import TlsWrap LinkAddr SslCommon TlsSession TlsProcess Comp Dhcp.

(** ** The state *)

(** The options used here.  [fo_icmp_saddr] is the address --ifconfig-ipv6-push or a
    constant gives for ICMPv6 errors, [fo_options_string_local] is the string the OCC
    protocol sends. *)
Record fwd_options : Type := mkfo {
  fo_key_method : Z;
  fo_ping_rec_timeout : bool;
  fo_ping_send_timeout : bool;
  fo_tuntap_defined : bool;
  fo_tunnel_type : dev_type;
  fo_point_to_point : bool;
  fo_allow_recursive_routing : bool;
  fo_mssfix : bool;
  fo_passtos : bool;
  fo_client_nat : option client_nat_option_list;
  fo_route_gateway_via_dhcp : bool;
  fo_block_ipv6 : bool;
  fo_icmp_saddr : list Z;
  fo_occ : bool;
  fo_options_string_local : option (list Z);
  fo_options_string_remote : option (list Z)
}.

(** The state of the OCC protocol. *)
Record occ_state : Type := mkocc {
  occ_op : Z;
  occ_n_tries : Z;
  occ_interval : event_timeout;
  occ_mtu_load_size : Z;
  occ_mtu_load_n_tries : Z;
  occ_mtu_load_test_interval : event_timeout;
  max_recv_size_local : Z;
  max_recv_size_remote : Z;
  max_send_size_local : Z;
  max_send_size_remote : Z
}.

Record context : Type := mkcontext {
  c2_opt : fwd_options;
  c2_buf : buffer;
  c2_to_link : buffer;
  c2_to_tun : buffer;
  c2_read_link_buf : buffer;
  c2_read_tun_buf : buffer;
  c2_aux_buf : buffer;
  c2_encrypt_buf : buffer;
  c2_decrypt_buf : buffer;
  c2_compress_buf : buffer;
  c2_decompress_buf : buffer;
  c2_frame : frame;
  c2_frame_fragment : frame;
  c2_frame_initial : frame;
  c2_frame_fragment_initial : frame;
  c2_fragment : option fragment_master;
  c2_comp_context : option compress_context;
  c2_tls_multi : option tls_multi;
  c2_crypto_options : data_channel;
  c2_info : link_socket_info;
  c2_from : link_socket_actual;
  c2_to_link_addr : option link_socket_actual;
  c2_context_auth : bool;
  c2_ptos : option Z;
  c2_dhcp_router : option Z;
  c2_signal : option Z;
  c2_tun_read_bytes : Z;
  c2_link_read_bytes : Z;
  c2_link_read_bytes_auth : Z;
  c2_original_recv_size : Z;
  c2_tmp_int : interval;
  c2_ping_rec_interval : event_timeout;
  c2_ping_send_interval : event_timeout;
  c2_timeval : timeval;
  c2_occ : occ_state
}.

#[export] Instance eta_occ_state : Eta occ_state := fun o =>
  mkocc (occ_op o) (occ_n_tries o) (occ_interval o) (occ_mtu_load_size o) (occ_mtu_load_n_tries o)
    (occ_mtu_load_test_interval o) (max_recv_size_local o) (max_recv_size_remote o) (max_send_size_local o)
    (max_send_size_remote o).

#[export] Instance eta_context : Eta context := fun c =>
  mkcontext (c2_opt c) (c2_buf c) (c2_to_link c) (c2_to_tun c) (c2_read_link_buf c) (c2_read_tun_buf c) (c2_aux_buf c)
    (c2_encrypt_buf c) (c2_decrypt_buf c) (c2_compress_buf c) (c2_decompress_buf c) (c2_frame c) (c2_frame_fragment c)
    (c2_frame_initial c) (c2_frame_fragment_initial c) (c2_fragment c) (c2_comp_context c) (c2_tls_multi c)
    (c2_crypto_options c) (c2_info c) (c2_from c) (c2_to_link_addr c) (c2_context_auth c) (c2_ptos c) (c2_dhcp_router c)
    (c2_signal c) (c2_tun_read_bytes c) (c2_link_read_bytes c) (c2_link_read_bytes_auth c) (c2_original_recv_size c)
    (c2_tmp_int c) (c2_ping_rec_interval c) (c2_ping_send_interval c) (c2_timeval c) (c2_occ c).

Definition SIGUSR1 : Z := 10.
Definition SIGTERM : Z := 15.

(** What [fragment.c] uses of a frame. *)
Definition fragment_frame (f : frame) : Fragment.frame :=
  Fragment.mkframe (PAYLOAD_SIZE_DYNAMIC f) (frame_headroom f 0) (FRAME_HEADROOM_ADJ f FRAME_HEADROOM_MARKER_FRAGMENT) (BUF_SIZE f).

(** The crypto options of a key. *)
Definition key_dc (k : key_state) : data_channel :=
  mkdc (kb_encrypt (ks_keys k)) (kb_decrypt (ks_keys k)) (ks_opt k) (ks_ignore_packet_id k).

Definition put_key_dc (m : tls_multi) (ij : tm_index * ks_index) (dc : data_channel) : tls_multi :=
  m_set_key m ij (m_key m ij <| ks_opt := dc_opt dc |>).

(** ** Outgoing packets *)

(** [buffer_turnover]; [moved] is whether the packet still lies in the object it came
    from and that is not [storage].  The new destination and storage. *)
Definition buffer_turnover (moved : bool) (src storage : buffer) : outcome (buffer * buffer) :=
  if moved
  then '(storage, _) ← buf_assign storage src; Ret (storage, storage)
  else Ret (src, storage).

Section Calls.
Context (lib : comp_lib) (ctr_cipher : list Z -> bool -> cipher_ctx) (sha_hmac : list Z -> hmac_ctx).
Context (script : option (Z -> list Z -> bool)).

(** The stages that [comp_frag] asks for. *)
Definition compress_fragment (now : Z) (c : context) : outcome context :=
  c ← match c2_comp_context c with
      | Some cc =>
          '(cc, buf) ← compress lib now cc (c2_buf c) (c2_compress_buf c) (c2_frame c);
          Ret (c <| c2_comp_context := Some cc |> <| c2_buf := buf |>)
      | None => Ret c
      end;
  match c2_fragment c with
  | Some m =>
      '(m, buf) ← fragment_outgoing m (c2_buf c) (fragment_frame (c2_frame_fragment c));
      Ret (c <| c2_fragment := Some m |> <| c2_buf := buf |>)
  | None => Ret c
  end.

(** The TLS part: the key, the header in front of what is encrypted (P_DATA_V2) or of
    the result (P_DATA_V1). *)
Definition encrypt_tls (now : Z) (prng : list Z) (m : tls_multi) (buf work : buffer) : outcome (tls_multi * buffer) :=
  let '(m, buf, co) := tls_pre_encrypt now m buf in
  work ← (if (0 <? len buf) && m_use_peer_id m then tls_prepend_opcode_v2 m work else Ret work);
  '(m, buf) ← match co with
              | Some ij => '(dc, buf) ← openvpn_encrypt now prng (key_dc (m_key m ij)) buf work; Ret (put_key_dc m ij dc, buf)
              | None => Ret (m, buf)
              end;
  buf ← (if (0 <? len buf) && negb (m_use_peer_id m) then tls_prepend_opcode_v1 m buf else Ret buf);
  m ← tls_post_encrypt m buf;
  Ret (m, buf).

Definition encrypt_sign (now : Z) (prng : list Z) (moved : bool) (c : context) (comp_frag : bool) : outcome context :=
  let c := if c2_context_auth c then c else c <| c2_buf := set_len (c2_buf c) 0 |> in
  c ← (if comp_frag then compress_fragment now c else Ret c);
  let '(work, ok) := buf_init (c2_encrypt_buf c) (FRAME_HEADROOM (c2_frame c)) in
  _ ← c_assert ok;
  let c := c <| c2_encrypt_buf := work |> in
  c ← match c2_tls_multi c with
      | Some m =>
          '(m, buf) ← encrypt_tls now prng m (c2_buf c) work;
          Ret (c <| c2_tls_multi := Some m |> <| c2_buf := buf |>)
      | None =>
          '(dc, buf) ← openvpn_encrypt now prng (c2_crypto_options c) (c2_buf c) work;
          Ret (c <| c2_crypto_options := dc |> <| c2_buf := buf |>)
      end;
  let '(buf, addr) := link_socket_get_outgoing_addr (c2_buf c) (c2_info c) (c2_to_link_addr c) in
  '(to_link, storage) ← buffer_turnover moved buf (c2_read_tun_buf c);
  Ret (c <| c2_buf := buf |> <| c2_to_link_addr := addr |> <| c2_to_link := to_link |> <| c2_read_tun_buf := storage |>).

(** [check_fragment] and [check_fragment_dowork]; [mtu_changed] is the new path MTU and the
    protocol, if the system reported one, [due] whether the timer of the fragments ran
    out. *)
Definition check_fragment (now : Z) (prng : list Z) (moved : bool) (mtu_changed : option (Z * Z)) (due : bool) (c : context)
  : outcome context :=
  match c2_fragment c with
  | None => Ret c
  | Some m =>
      c ← match mtu_changed with
          | Some (mtu, proto) =>
              f ← frame_adjust_path_mtu (c2_frame_fragment c) mtu proto;
              Ret (c <| c2_frame_fragment := f |>)
          | None => Ret c
          end;
      '(c, m) ← (if fragment_outgoing_defined m && (len (c2_to_link c) =? 0)
                 then
                   '(m, r) ← fragment_ready_to_send m (fragment_frame (c2_frame_fragment c));
                   buf ← must r;
                   c ← encrypt_sign now prng moved (c <| c2_buf := buf |>) false;
                   Ret (c, m)
                 else Ret (c, m));
      Ret (c <| c2_fragment := Some (if due then fragment_wakeup now m else m) |>)
  end.

(** ** Looking into IP packets *)

Definition PIPV4_PASSTOS : Z := 1.
Definition PIP_MSSFIX : Z := 2.
Definition PIP_OUTGOING : Z := 4.
Definition PIPV4_EXTRACT_DHCP_ROUTER : Z := 8.
Definition PIPV4_CLIENT_NAT : Z := 16.
Definition PIPV6_IMCP_NOHOST_CLIENT : Z := 32.
Definition PIPV6_IMCP_NOHOST_SERVER : Z := 64.

Definition any_of (flags mask : Z) : bool := negb (Z.land flags mask =? 0).

Definition MTU_TO_MSS (mtu : Z) : Z := mtu - iphdr_size - tcphdr_size.

(** The flags the options leave. *)
Definition ip_header_flags (o : fwd_options) (flags : Z) : Z :=
  let off (on : bool) mask flags := if on then flags else Z.ldiff flags mask in
  off (fo_block_ipv6 o) (Z.lor PIPV6_IMCP_NOHOST_CLIENT PIPV6_IMCP_NOHOST_SERVER)
    (off (fo_route_gateway_via_dhcp o) PIPV4_EXTRACT_DHCP_ROUTER
       (off (match fo_client_nat o with Some _ => true | None => false end) PIPV4_CLIENT_NAT
          (off (fo_passtos o) PIPV4_PASSTOS (off (fo_mssfix o) PIP_MSSFIX flags)))).

(** The work on an IPv4 packet. *)
Definition process_ipv4 (c : context) (flags : Z) (ipbuf : buffer) : outcome (context * buffer) :=
  c ← (if any_of flags PIPV4_PASSTOS
       then p ← bptr ipbuf; tos ← buf_load1 ipbuf (p + 1); Ret (c <| c2_ptos := Some tos |>)
       else Ret c);
  ipbuf ← (if any_of flags PIP_MSSFIX
           then mss_fixup_ipv4 ipbuf (MTU_TO_MSS (TUN_MTU_SIZE_DYNAMIC (c2_frame c))) else Ret ipbuf);
  ipbuf ← match fo_client_nat (c2_opt c) with
          | Some l =>
              if any_of flags PIPV4_CLIENT_NAT
              then client_nat_transform l ipbuf (if any_of flags PIP_OUTGOING then CN_INCOMING else CN_OUTGOING)
              else Ret ipbuf
          | None => Ret ipbuf
          end;
  if any_of flags PIPV4_EXTRACT_DHCP_ROUTER
  then
    '(ipbuf, router) ← dhcp_extract_router_msg ipbuf;
    Ret (if router =? 0 then c else c <| c2_dhcp_router := Some router |>, ipbuf)
  else Ret (c, ipbuf).

(** The work on an IPv6 packet; the packet [buf] is dropped where IPv6 is blocked. *)
Definition process_ipv6 (c : context) (flags : Z) (buf ipbuf : buffer) : outcome (context * buffer) :=
  ipbuf ← (if any_of flags PIP_MSSFIX
           then mss_fixup_ipv6 ipbuf (MTU_TO_MSS (TUN_MTU_SIZE_DYNAMIC (c2_frame c))) else Ret ipbuf);
  let buf := with_data buf ipbuf in
  if negb (any_of flags PIP_OUTGOING) && any_of flags (Z.lor PIPV6_IMCP_NOHOST_CLIENT PIPV6_IMCP_NOHOST_SERVER)
  then
    out ← ipv6_send_icmp_unreachable (fo_tunnel_type (c2_opt c)) buf (c2_aux_buf c) (fo_icmp_saddr (c2_opt c)) (TUN_MTU_SIZE (c2_frame c));
    let c := match out with
             | Some out => if any_of flags PIPV6_IMCP_NOHOST_CLIENT then c <| c2_to_tun := out |> else c <| c2_to_link := out |>
             | None => c
             end in
    Ret (c, set_len buf 0)
  else Ret (c, buf).

Definition process_ip_header (c : context) (flags : Z) (buf : buffer) : outcome (context * buffer) :=
  let flags := ip_header_flags (c2_opt c) flags in
  if (0 <? len buf) && any_of flags (Z.lor (Z.lor PIP_MSSFIX PIPV4_PASSTOS) PIPV4_CLIENT_NAT)
  then
    '(ipbuf, v4) ← is_ipv4 (fo_tunnel_type (c2_opt c)) buf;
    if v4 : bool
    then '(c, ipbuf) ← process_ipv4 c flags ipbuf; Ret (c, with_data buf ipbuf)
    else
      '(ipbuf, v6) ← is_ipv6 (fo_tunnel_type (c2_opt c)) ipbuf;
      if v6 : bool then process_ipv6 c flags buf ipbuf else Ret (c, buf)
  else Ret (c, buf).

(** Packets that would be sent through the tunnel to the tunnel's own server. *)
Definition drop_if_recursive_routing (c : context) (buf : buffer) : outcome context :=
  match c2_to_link_addr c with
  | None => Ret c
  | Some tun_sa =>
      '(ver, off) ← get_tun_ip_ver (fo_tunnel_type (c2_opt c)) (c2_buf c);
      let off := default 0 off in
      if ver =? 4
      then
        if buf_len buf <? iphdr_size + off then Ret c
        else if negb (sa_family tun_sa =? AF_INET) then Ret c
        else
          p ← bptr buf;
          daddr ← buf_load buf (p + off + 16) 4;
          Ret (if le_value daddr =? sin_addr tun_sa then c <| c2_buf := set_len (c2_buf c) 0 |> else c)
      else if ver =? 6
      then
        if buf_len buf <? ipv6hdr_size + off then Ret c
        else if negb (sa_family tun_sa =? AF_INET6) then Ret c
        else
          p ← bptr buf;
          daddr ← buf_load buf (p + off + 24) 16;
          Ret (if bool_decide (daddr = sin6_addr tun_sa) then c <| c2_buf := set_len (c2_buf c) 0 |> else c)
      else Ret c
  end.

(** What a system call that reads left in the buffer: at most [n] bytes at the pointer, or -1
    as the length. *)
Definition receive (buf : buffer) (n : Z) (answer : option (list Z)) : outcome buffer :=
  match answer with
  | Some bytes =>
      let bytes := ztake n bytes in
      p ← bptr buf;
      buf ← buf_store buf p bytes;
      Ret (set_len buf (zlen bytes))
  | None => Ret (set_len buf (-1))
  end.

Definition read_incoming_tun (answer : option (list Z)) (c : context) : outcome context :=
  let '(buf, ok) := buf_init (c2_read_tun_buf c) (FRAME_HEADROOM (c2_frame c)) in
  _ ← c_assert ok;
  _ ← c_assert (buf_safe buf (MAX_RW_SIZE_TUN (c2_frame c)));
  buf ← receive buf (MAX_RW_SIZE_TUN (c2_frame c)) answer;
  Ret (c <| c2_buf := buf |>).

Definition process_incoming_tun (now : Z) (prng : list Z) (moved : bool) (c : context) : outcome context :=
  let c := if 0 <? len (c2_buf c) then c <| c2_tun_read_bytes := u64 (c2_tun_read_bytes c + len (c2_buf c)) |> else c in
  c ← (if 0 <? len (c2_buf c)
       then
         c ← (if fo_point_to_point (c2_opt c) && negb (fo_allow_recursive_routing (c2_opt c))
              then drop_if_recursive_routing c (c2_buf c) else Ret c);
         '(c, buf) ← process_ip_header c
           (Z.lor (Z.lor PIPV4_PASSTOS PIP_MSSFIX) (Z.lor PIPV4_CLIENT_NAT PIPV6_IMCP_NOHOST_CLIENT)) (c2_buf c);
         Ret (c <| c2_buf := buf |>)
       else Ret c);
  if 0 <? len (c2_buf c) then encrypt_sign now prng moved c true
  else Ret (c <| c2_to_link := buf_reset (c2_to_link c) |>).

(** ** Pings and the OCC protocol *)

Definition ping_string : list Z :=
  [0x2a; 0x18; 0x7b; 0xf3; 0x64; 0x1e; 0xb4; 0xcb; 0x07; 0xed; 0x2d; 0x0a; 0x98; 0x1f; 0xc7; 0x48].

Definition is_ping_msg (buf : buffer) : outcome bool := buf_string_match buf ping_string.

Definition occ_magic : list Z :=
  [0x28; 0x7f; 0x34; 0x6b; 0xd4; 0xef; 0x7a; 0x81; 0x2d; 0x56; 0xb8; 0xd3; 0xaf; 0xc5; 0x45; 0x9c].

Definition OCC_STRING_SIZE : Z := 16.
Definition OCC_REQUEST : Z := 0.
Definition OCC_REPLY : Z := 1.
Definition OCC_MTU_LOAD_REQUEST : Z := 2.
Definition OCC_MTU_LOAD : Z := 3.
Definition OCC_MTU_REQUEST : Z := 4.
Definition OCC_MTU_REPLY : Z := 5.
Definition OCC_EXIT : Z := 6.
Definition OCC_N_TRIES : Z := 12.

Definition is_occ_msg (buf : buffer) : outcome bool := buf_string_match_head buf occ_magic.

(** The string that [options_cmp_equal_safe] and [options_warning_safe] end with a zero
    in the packet, before they compare and report. *)
Definition terminate_string (buf : buffer) : outcome buffer :=
  if 0 <? len buf then p ← bptr buf; buf_store buf (p + len buf - 1) [0] else Ret buf.

Definition set_occ (c : context) (o : occ_state) : context := c <| c2_occ := o |>.

Definition process_received_occ_msg (c : context) : outcome context :=
  let '(buf, ok) := buf_advance (c2_buf c) OCC_STRING_SIZE in
  _ ← c_assert ok;
  '(buf, op) ← buf_read_u8 buf;
  let o := c2_occ c in
  c ← (if op =? OCC_REQUEST then Ret (set_occ c (o <| occ_op := OCC_REPLY |>) <| c2_buf := buf |>)
       else if op =? OCC_MTU_REQUEST then Ret (set_occ c (o <| occ_op := OCC_MTU_REPLY |>) <| c2_buf := buf |>)
       else if op =? OCC_MTU_LOAD_REQUEST
       then
         '(buf, size) ← buf_read_u16 buf;
         let o := o <| occ_mtu_load_size := size |> in
         Ret (set_occ c (if 0 <=? size then o <| occ_op := OCC_MTU_LOAD |> else o) <| c2_buf := buf |>)
       else if op =? OCC_REPLY
       then
         buf ← (match c2_tls_multi c, fo_options_string_remote (c2_opt c) with
                | None, Some _ => if fo_occ (c2_opt c) then terminate_string buf else Ret buf
                | _, _ => Ret buf
                end);
         Ret (set_occ c (o <| occ_interval := event_timeout_clear |>) <| c2_buf := buf |>)
       else if op =? OCC_MTU_REPLY
       then
         '(buf, recv) ← buf_read_u16 buf;
         '(buf, send) ← buf_read_u16 buf;
         Ret (set_occ c (o <| max_recv_size_remote := recv |> <| max_send_size_remote := send |>
                           <| occ_mtu_load_test_interval := event_timeout_clear |>) <| c2_buf := buf |>)
       else if op =? OCC_EXIT then Ret (c <| c2_signal := Some SIGTERM |> <| c2_buf := buf |>)
       else Ret (c <| c2_buf := buf |>));
  Ret (c <| c2_buf := set_len (c2_buf c) 0 |>).

(** ** Incoming packets *)

Definition addr_zero_host (a : link_socket_actual) : link_socket_actual :=
  if sa_family a =? AF_INET then mkaddr (sa_family a) (sa_port a) 0 (sin6_addr a)
  else if sa_family a =? AF_INET6 then mkaddr (sa_family a) (sa_port a) (sin_addr a) (replicate 16 0)
  else a.

(** [read_incoming_link] on a datagram socket ([link_socket_read_udp_posix]); a stream is
    read by [Stream.link_socket_read_tcp]. *)
Definition read_incoming_link (answer : option (list Z * link_socket_actual)) (c : context) : outcome context :=
  let '(buf, ok) := buf_init (c2_read_link_buf c) (FRAME_HEADROOM_ADJ (c2_frame c) FRAME_HEADROOM_MARKER_READ_LINK) in
  _ ← c_assert ok;
  buf ← receive buf (buf_forward_capacity buf) (fst <$> answer);
  Ret (c <| c2_buf := buf |> <| c2_from := default (addr_zero_host (c2_from c)) (snd <$> answer) |>).

(** [link_socket_bad_incoming_addr]: its message prints the expected address, which it
    takes from the list of addresses without a test. *)
Definition link_socket_bad_incoming_addr (buf : buffer) (info : link_socket_info) (from : link_socket_actual) : outcome buffer :=
  if (sa_family from =? AF_INET) || (sa_family from =? AF_INET6)
  then match li_remotes info with Some (_ :: _) => Ret (set_len buf 0) | _ => Oob end
  else Ret (set_len buf 0).

(** The TLS layer's part: a control packet is taken out, a data packet gets its key. *)
Definition decrypt_tls (now : Z) (floated : bool) (c : context) (m : tls_multi)
  : outcome (context * option (tm_index * ks_index) * Z) :=
  p ← bptr (c2_buf c);
  b ← buf_load1 (c2_buf c) p;
  let opcode := Z.shiftr b P_OPCODE_SHIFT in
  pd ← tls_pre_decrypt ctr_cipher sha_hmac now script m (c2_from c) (c2_buf c) floated;
  let c := c <| c2_tls_multi := Some (pd_multi pd) |> <| c2_buf := pd_buf pd |> in
  let c :=
    if pd_ret pd
    then
      let c := if is_hard_reset opcode (fo_key_method (c2_opt c))
               then c <| c2_frame := c2_frame_initial c |> <| c2_frame_fragment := c2_frame_fragment_initial c |> else c in
      let c := c <| c2_tmp_int := interval_action now (c2_tmp_int c) |> in
      if fo_ping_rec_timeout (c2_opt c)
      then c <| c2_ping_rec_interval := event_timeout_reset now (c2_ping_rec_interval c) |> else c
    else c in
  Ret (c, pd_opt pd, default 0 (pd_ad_start pd)).

(** [openvpn_decrypt] with the options of the key, or those of the static key. *)
Definition decrypt_packet (now : Z) (c : context) (co : option (tm_index * ks_index)) (ad_start : Z) : outcome (context * bool) :=
  match c2_tls_multi c, co with
  | Some m, Some ij =>
      '(dc, buf, ok) ← openvpn_decrypt now (key_dc (m_key m ij)) (c2_frame c) (c2_buf c) (c2_decrypt_buf c) ad_start;
      Ret (c <| c2_tls_multi := Some (put_key_dc m ij dc) |> <| c2_buf := buf |>, ok)
  | Some m, None => Ret (c, true)
  | None, _ =>
      '(dc, buf, ok) ← openvpn_decrypt now (c2_crypto_options c) (c2_frame c) (c2_buf c) (c2_decrypt_buf c) ad_start;
      Ret (c <| c2_crypto_options := dc |> <| c2_buf := buf |>, ok)
  end.

Definition process_incoming_link_part1 (now : Z) (floated : bool) (c : context) : outcome (context * bool) :=
  let n := len (c2_buf c) in
  if 0 <? n
  then
    let c := c <| c2_link_read_bytes := u64 (c2_link_read_bytes c + n) |> <| c2_original_recv_size := n |> in
    good ← link_socket_verify_incoming_addr (c2_buf c) (c2_info c) (c2_from c);
    buf ← (if good : bool then Ret (c2_buf c) else link_socket_bad_incoming_addr (c2_buf c) (c2_info c) (c2_from c));
    let c := c <| c2_buf := buf |> in
    '(c, co, ad_start) ← match c2_tls_multi c with
                         | Some m => decrypt_tls now floated c m
                         | None => Ret (c, None, 0)
                         end;
    let c := if c2_context_auth c then c else c <| c2_buf := set_len (c2_buf c) 0 |> in
    '(c, decrypt_status) ← decrypt_packet now c co ad_start;
    Ret (if negb decrypt_status && li_tcp (c2_info c) then c <| c2_signal := Some SIGUSR1 |> else c, decrypt_status)
  else Ret (c <| c2_original_recv_size := 0 |> <| c2_to_tun := buf_reset (c2_to_tun c) |>, false).

(** The stages after decryption. *)
Definition reassemble_decompress (now : Z) (c : context) : outcome context :=
  c ← match c2_fragment c with
      | Some m =>
          '(m, buf) ← fragment_incoming now m (c2_buf c) (fragment_frame (c2_frame_fragment c));
          Ret (c <| c2_fragment := Some m |> <| c2_buf := buf |>)
      | None => Ret c
      end;
  match c2_comp_context c with
  | Some cc =>
      '(cc, buf) ← decompress lib cc (c2_buf c) (c2_decompress_buf c) (c2_frame c);
      Ret (c <| c2_comp_context := Some cc |> <| c2_buf := buf |>)
  | None => Ret c
  end.

(** The accounting of an authenticated packet. *)
Definition packet_received (now : Z) (c : context) : outcome context :=
  let n := len (c2_buf c) in
  if 0 <? n
  then
    info ← (match c2_tls_multi c with Some _ => Ret (c2_info c) | None => link_socket_set_outgoing_addr (c2_info c) (c2_from c) end);
    let c := c <| c2_info := info |> in
    let c := if fo_ping_rec_timeout (c2_opt c)
             then c <| c2_ping_rec_interval := event_timeout_reset now (c2_ping_rec_interval c) |> else c in
    let o := c2_occ c in
    Ret (set_occ c (o <| max_recv_size_local := max_int (c2_original_recv_size c) (max_recv_size_local o) |>)
           <| c2_link_read_bytes_auth := u64 (c2_link_read_bytes_auth c + n) |>)
  else Ret c.

Definition process_incoming_link_part2 (now : Z) (moved : bool) (c : context) : outcome context :=
  if 0 <? len (c2_buf c)
  then
    c ← reassemble_decompress now c;
    c ← packet_received now c;
    ping ← is_ping_msg (c2_buf c);
    let c := if ping : bool then c <| c2_buf := set_len (c2_buf c) 0 |> else c in
    occ ← is_occ_msg (c2_buf c);
    c ← (if occ : bool then process_received_occ_msg c else Ret c);
    '(to_tun, storage) ← buffer_turnover moved (c2_buf c) (c2_read_link_buf c);
    Ret (c <| c2_to_tun := (if fo_tuntap_defined (c2_opt c) then to_tun else set_len to_tun 0) |> <| c2_read_link_buf := storage |>)
  else Ret (c <| c2_to_tun := buf_reset (c2_to_tun c) |>).

Definition process_incoming_link (now : Z) (moved : bool) (c : context) : outcome context :=
  '(c, _) ← process_incoming_link_part1 now false c;
  process_incoming_link_part2 now moved c.

(** ** Writing *)

(** [process_outgoing_tun]: what is written to the tunnel device, if anything. *)
Definition process_outgoing_tun (c : context) : outcome (context * option (list Z)) :=
  if len (c2_to_tun c) <=? 0 then Ret (c, None)
  else
    '(c, buf) ← process_ip_header c
      (Z.lor (Z.lor PIP_MSSFIX PIPV4_EXTRACT_DHCP_ROUTER) (Z.lor PIPV4_CLIENT_NAT PIP_OUTGOING)) (c2_to_tun c);
    out ← (if len buf <=? MAX_RW_SIZE_TUN (c2_frame c) then bytes ← buf_contents buf; Ret (Some bytes) else Ret None);
    Ret (c <| c2_to_tun := buf_reset buf |>, out).

(** [process_outgoing_link]: what is sent, and where to.  [size] is what the call that sends
    returns, [unreachable] whether it failed with ENETUNREACH. *)
Definition process_outgoing_link (now size : Z) (unreachable : bool) (c : context)
  : outcome (context * option (link_socket_actual * list Z)) :=
  '(c, out) ← (if (0 <? len (c2_to_link c)) && (len (c2_to_link c) <=? EXPANDED_SIZE (c2_frame c))
               then
                 addr ← must (c2_to_link_addr c);
                 _ ← c_assert (link_socket_actual_defined addr);
                 let c := if fo_ping_send_timeout (c2_opt c)
                          then c <| c2_ping_send_interval := event_timeout_reset now (c2_ping_send_interval c) |> else c in
                 bytes ← buf_contents (c2_to_link c);
                 let o := c2_occ c in
                 let c := if 0 <? size
                          then c <| c2_occ := o <| max_send_size_local := max_int size (max_send_size_local o) |> |> else c in
                 let c := match c2_tls_multi c with
                          | Some m =>
                              if (size <? 0) && unreachable && negb (0 <? m_n_sessions m) && fo_point_to_point (c2_opt c)
                              then c <| c2_signal := Some SIGUSR1 |> else c
                          | None => c
                          end in
                 Ret (c, Some (addr, bytes))
               else Ret (c, None));
  Ret (c <| c2_to_link := buf_reset (c2_to_link c) |>, out).

(** ** The TLS layer's turn *)

Definition context_reschedule_sec (c : context) (sec : Z) : context :=
  let sec := if sec <? 0 then 0 else sec in
  if sec <? tv_sec (c2_timeval c) then c <| c2_timeval := mktv sec 0 |> else c.

(** [env] has the answers of the TLS engine during the call; [later] is the clock after
    it. *)
Definition check_tls_dowork (md5 sha1 : list Z -> hmac_ctx) (now later : Z) (env : multi_env) (c : context) (m : tls_multi)
  : outcome context :=
  let '(ti, test) := interval_test now (c2_tmp_int c) in
  let c := c <| c2_tmp_int := ti |> in
  '(c, wakeup) ←
    (if test : bool
     then
       '(st, status) ← tls_multi_process md5 sha1 env m (c2_info c) (c2_to_link c) (c2_to_link_addr c) BIG_TIMEOUT;
       let c := c <| c2_tls_multi := Some (ms_multi st) |> <| c2_info := ms_info st |> <| c2_to_link := ms_to_link st |>
                  <| c2_to_link_addr := ms_addr st |> in
       let c := match status with
                | TLSMP_ACTIVE => c <| c2_tmp_int := interval_action later (c2_tmp_int c) |>
                | TLSMP_KILL => c <| c2_signal := Some SIGTERM |>
                | TLSMP_INACTIVE => c
                end in
       Ret (c <| c2_tmp_int := interval_future_trigger later (c2_tmp_int c) (ms_wakeup st) |>, ms_wakeup st)
     else Ret (c, BIG_TIMEOUT));
  let wakeup := interval_schedule_wakeup later (c2_tmp_int c) wakeup in
  Ret (if wakeup =? 0 then c else context_reschedule_sec c wakeup).

(** ** Messages to the peer *)

(** The auxiliary buffer as the current packet, with [bytes] in it. *)
Definition aux_packet (c : context) (bytes : list Z) : outcome context :=
  let '(buf, ok) := buf_init (c2_aux_buf c) (FRAME_HEADROOM (c2_frame c)) in
  _ ← c_assert ok;
  _ ← c_assert (buf_safe buf (MAX_RW_SIZE_TUN (c2_frame c)));
  '(buf, ok) ← buf_write buf bytes;
  _ ← c_assert ok;
  Ret (c <| c2_buf := buf |>).

Definition check_ping_send_dowork (now : Z) (prng : list Z) (moved : bool) (c : context) : outcome context :=
  c ← aux_packet c ping_string;
  c ← encrypt_sign now prng moved c true;
  Ret (c <| c2_buf := set_len (c2_buf c) 0 |>).

Definition check_send_occ_req_dowork (now : Z) (c : context) : context :=
  let o := c2_occ c in
  let o := o <| occ_n_tries := occ_n_tries o + 1 |> in
  if OCC_N_TRIES <=? occ_n_tries o then set_occ c (o <| occ_interval := event_timeout_clear |>)
  else set_occ c (o <| occ_op := OCC_REQUEST |> <| occ_interval := event_timeout_reset now (occ_interval o) |>).

(** The sequence of requests that measures the MTU: six steps for each size, then the
    questions for the result. *)
Definition mtu_load_test_sequence : list (Z * Z) :=
  concat ((fun delta => concat (replicate 3 [(OCC_MTU_LOAD_REQUEST, delta); (OCC_MTU_LOAD, delta)]))
            <$> [-1000; -750; -500; -400; -300; -200; -150; -100; -50; 0])
  ++ replicate 10 (OCC_MTU_REQUEST, 0) ++ [(-1, 0)].

(** [established] is [CONNECTION_ESTABLISHED]. *)
Definition check_send_occ_load_test_dowork (established : bool) (c : context) : outcome context :=
  if established
  then
    let o := c2_occ c in
    let n := occ_mtu_load_n_tries o in
    '(op, delta) ← (if 0 <=? n then match mtu_load_test_sequence !! Z.to_nat n with Some e => Ret e | None => Oob end else Oob);
    let o := o <| occ_mtu_load_n_tries := n + 1 |> in
    Ret (set_occ c (if 0 <=? op
                    then o <| occ_op := op |> <| occ_mtu_load_size := EXPANDED_SIZE (c2_frame c) + delta |>
                    else o <| occ_mtu_load_test_interval := event_timeout_clear |> <| occ_mtu_load_n_tries := 0 |>))
  else Ret c.

(** The loop that fills a load test packet; it ends early when the buffer is full. *)
Fixpoint write_random (bytes : list Z) (buf : buffer) : outcome buffer :=
  match bytes with
  | [] => Ret buf
  | b :: bytes => '(buf, ok) ← buf_write_u8 buf b; if ok : bool then write_random bytes buf else Ret buf
  end.

(** Several fields in a row; [None] as soon as one does not fit. *)
Fixpoint write_fields (fields : list (list Z)) (buf : buffer) : outcome (buffer * bool) :=
  match fields with
  | [] => Ret (buf, true)
  | f :: fields => '(buf, ok) ← buf_write buf f; if ok : bool then write_fields fields buf else Ret (buf, false)
  end.

(** The message: the packet and whether it is complete.  [random] is what the generator
    returns, a byte for each call. *)
Definition write_occ_msg (c : context) (random : Z -> list Z) : outcome (buffer * bool) :=
  let o := c2_occ c in
  let op := occ_op o in
  if (op =? OCC_REQUEST) || (op =? OCC_MTU_REQUEST) || (op =? OCC_EXIT) then write_fields [[op]] (c2_buf c)
  else if op =? OCC_REPLY
  then match fo_options_string_local (c2_opt c) with
       | Some s => write_fields [[op]; s ++ [0]] (c2_buf c)
       | None => Ret (c2_buf c, false)
       end
  else if op =? OCC_MTU_REPLY
  then write_fields [[op]; be_bytes 2 (u16 (max_recv_size_local o)); be_bytes 2 (u16 (max_send_size_local o))] (c2_buf c)
  else if op =? OCC_MTU_LOAD_REQUEST then write_fields [[op]; be_bytes 2 (u16 (occ_mtu_load_size o))] (c2_buf c)
  else if op =? OCC_MTU_LOAD
  then
    '(buf, ok) ← write_fields [[op]] (c2_buf c);
    if ok : bool
    then
      let need_to_add := min_int (occ_mtu_load_size o) (EXPANDED_SIZE (c2_frame c)) - OCC_STRING_SIZE - 1 - extra_frame (c2_frame c) in
      buf ← write_random (ztake need_to_add (random need_to_add)) buf;
      Ret (buf, true)
    else Ret (buf, false)
  else Ret (c2_buf c, false).

Definition check_send_occ_msg_dowork (now : Z) (prng : list Z) (moved : bool) (random : Z -> list Z) (c : context) : outcome context :=
  c ← aux_packet c occ_magic;
  '(buf, doit) ← write_occ_msg c random;
  let c := c <| c2_buf := buf |> in
  c ← (if doit : bool then encrypt_sign now prng moved c true else Ret c);
  Ret (set_occ c (c2_occ c <| occ_op := -1 |>)).
End Calls.
