(* ===== verification/ForwardSpec.v ===== *)
(** * From one tunnel device to the other

    The layers composed: a packet that is read from the tunnel device at one end is
    compressed, encrypted under the key that the TLS layer selects, marked with the header
    of a data packet and sent; at the other end the header leads to the key, and the
    packet is decrypted, checked against replays, decompressed and written to the tunnel
    device, with the bytes it had.  [sender] and [receiver] are what the two contexts
    need for this, [linked] what they must agree on, [ordinary] and [carried] which packets neither end
    takes for a message or rewrites; the first three are kept by every packet, so that
    the statement holds for any number of packets. *)
From S2P Require Import MrouteSpec ProtoSpec.
From S2P Require Import Prelude Integer Buffer Fragment Mroute Proto Otime PacketId PacketIdSpec Reliable Mtu Crypto CryptoSpec.
From S2P Require Import LinkAddr SslCommon TlsSession TlsProcess TlsDemo TlsSafety Comp CompSpec Forward.

(** ** Tables of keys that differ in their counters only *)

Definition same_key (k k' : key_state) : Prop :=
  ks_state k' = ks_state k /\ ks_key_id k' = ks_key_id k /\ ks_authenticated k' = ks_authenticated k /\
  ks_keys k' = ks_keys k /\ ks_auth_deferred_expire k' = ks_auth_deferred_expire k /\
  ks_remote_addr k' = ks_remote_addr k /\ ks_ignore_packet_id k' = ks_ignore_packet_id k.

Definition same_keys (m m' : tls_multi) : Prop :=
  m_opt m' = m_opt m /\ m_use_peer_id m' = m_use_peer_id m /\ m_peer_id m' = m_peer_id m /\
  forall ij, same_key (m_key m ij) (m_key m' ij).

#[export] Instance same_key_equiv : Equivalence same_key.
Proof. split; unfold same_key; red; intuition congruence. Qed.

#[export] Instance same_keys_equiv : Equivalence same_keys.
Proof.
  split; unfold same_keys; red.
  - intros m. by split_and!.
  - intros m m' (E1 & E2 & E3 & Hk). split_and!; [congruence..|]. intros ij. symmetry. apply Hk.
  - intros m1 m2 m3 (E1 & E2 & E3 & Hk) (F1 & F2 & F3 & Hl). split_and!; [congruence..|]. intros ij.
    etrans; [apply Hk|apply Hl].
Qed.

#[export] Instance select_encrypt_key_proper now : Proper (same_keys ==> eq ==> eq ==> eq) (select_encrypt_key now).
Proof.
  intros m m' (_ & _ & _ & Hk) scan ? <- sel ? <-. revert sel. induction scan as [|ij scan IH]; intros sel; [done|].
  cbn [select_encrypt_key]. destruct (Hk ij) as (-> & _ & -> & -> & -> & _). rewrite !IH. done.
Qed.

#[export] Instance find_decrypt_key_proper : Proper (same_keys ==> eq ==> eq ==> eq ==> eq ==> eq) find_decrypt_key.
Proof.
  intros m m' (Ho & _ & _ & Hk) from ? <- id ? <- fl ? <- scan ? <-. induction scan as [|ij scan IH]; [done|].
  cbn [find_decrypt_key]. unfold decrypt_key_match, DECRYPT_KEY_ENABLED. rewrite Ho.
  destruct (Hk ij) as (-> & -> & -> & _ & _ & -> & _). by rewrite IH.
Qed.

#[export] Instance data_header_proper v : Proper (same_keys ==> eq ==> eq) (data_header v).
Proof. intros m m' (_ & _ & Hp & Hk) ij ? <-. unfold data_header. destruct (Hk ij) as (_ & -> & _). by rewrite Hp. Qed.

Lemma same_keys_set m ij k : same_key (m_key m ij) k -> same_keys m (m_set_key m ij k).
Proof.
  intros Hk. split_and!; [apply m_opt_set_key|destruct ij as [[] []]; done..|]. intros ij'. rewrite m_key_set.
  destruct (decide (ij' = ij)) as [->|]; done.
Qed.

Lemma same_keys_save m s : same_keys m (m <| m_save_ks := s |>).
Proof. split_and!; [done..|]. intros [[] []]; done. Qed.

Lemma m_key_save m s ij : m_key (m <| m_save_ks := s |>) ij = m_key m ij.
Proof. by destruct ij as [[] []]. Qed.

Lemma m_save_ks_set m ij k : m_save_ks (m_set_key m ij k) = m_save_ks m.
Proof. by destruct ij as [[] []]. Qed.

(** ** Encryption under a key of the table *)

(** The bytes of the header that are authenticated with the payload. *)
Definition signed_header (m : tls_multi) (ij : tm_index * ks_index) : list Z :=
  if m_use_peer_id m then data_header true m ij else [].

Lemma zlen_data_header v m ij : zlen (data_header v m ij) = if v then 4 else 1.
Proof. unfold data_header. by destruct v; autorewrite with zlen. Qed.

Lemma zlen_signed_header m ij : zlen (signed_header m ij) = if m_use_peer_id m then 4 else 0.
Proof. unfold signed_header. destruct (m_use_peer_id m); [apply zlen_data_header|done]. Qed.

Lemma same_keys_id m m' ij : same_keys m m' -> ks_key_id (m_key m' ij) = ks_key_id (m_key m ij).
Proof. intros (_ & _ & _ & Hk). apply Hk. Qed.

Lemma pre_encrypt_spec now m ij buf :
  select_encrypt_key now m key_scan None = Some ij -> 0 < len buf ->
  tls_pre_encrypt now m buf = (m <| m_save_ks := None |> <| m_save_ks := Some ij |>, buf, Some ij).
Proof.
  intros Hsel Hb. unfold tls_pre_encrypt. bdecide. cbv zeta.
  assert (Hsel' : select_encrypt_key now (m <| m_save_ks := None |>) key_scan None = Some ij).
  { by rewrite <- (same_keys_save m None). }
  by rewrite Hsel'.
Qed.

Lemma post_encrypt_spec m ij pre c post :
  m_save_ks m = Some ij -> 0 < zlen c ->
  exists m', tls_post_encrypt m (conc pre c post) = Ret m' /\ same_keys m m' /\ ks_opt (m_key m' ij) = ks_opt (m_key m ij).
Proof.
  intros Hs Hc. unfold tls_post_encrypt. cbv zeta. rewrite len_conc. bdecide. rewrite Hs.
  eexists. split; [done|]. split.
  - etrans; [apply (same_keys_save m None)|]. by apply same_keys_set.
  - rewrite m_key_set, decide_True by done. cbn. by rewrite m_key_save.
Qed.

(** The header of the second version goes into the work buffer, before encryption. *)
Lemma work_header_spec m m1 ij wpre wpost :
  same_keys m m1 -> m_save_ks m1 = Some ij -> 0 <= ks_key_id (m_key m ij) <= 7 -> 4 <= zlen wpre -> fits wpre [] wpost ->
  exists wpre', (if m_use_peer_id m then tls_prepend_opcode_v2 m1 (conc wpre [] wpost) else Ret (conc wpre [] wpost))
    = Ret (conc wpre' (signed_header m ij) wpost) /\
    zlen wpre' = zlen wpre - zlen (signed_header m ij) /\ fits wpre' (signed_header m ij) wpost.
Proof.
  intros Hm Hs Hid Hw HF. pose proof (zlen_signed_header m ij) as Hsh. unfold signed_header in *. destruct (m_use_peer_id m).
  - change (tls_prepend_opcode_v2 m1) with (tls_prepend_opcode true m1).
    rewrite (prepend_header true m1 ij wpre [] wpost) by (done || by rewrite ?(same_keys_id m m1), ?zlen_data_header).
    rewrite zlen_data_header, app_nil_r, <- (data_header_proper true m m1 Hm ij ij eq_refl).
    eexists. split; [done|]. unfold fits in *. split; zlia.
  - exists wpre. split; [done|]. change (zlen (@nil Z)) with 0. split; [lia|done].
Qed.

(** The header of the first version goes in front of what encryption made. *)
Lemma packet_header_spec m m2 ij pre body post :
  same_keys m m2 -> m_save_ks m2 = Some ij -> 0 <= ks_key_id (m_key m ij) <= 7 -> (m_use_peer_id m = false -> 1 <= zlen pre) ->
  exists pre', (if negb (m_use_peer_id m) then tls_prepend_opcode_v1 m2 (conc pre (signed_header m ij ++ body) post)
                else Ret (conc pre (signed_header m ij ++ body) post))
    = Ret (conc pre' (data_header (m_use_peer_id m) m ij ++ body) post).
Proof.
  intros Hm Hs Hid Hp. unfold signed_header. destruct (m_use_peer_id m) eqn:Eu; cbn [negb]; [by eexists|].
  specialize (Hp eq_refl). change (tls_prepend_opcode_v1 m2) with (tls_prepend_opcode false m2). cbn [app].
  rewrite (prepend_header false m2 ij) by (done || by rewrite ?(same_keys_id m m2), ?zlen_data_header).
  rewrite <- (data_header_proper false m m2 Hm ij ij eq_refl). by eexists.
Qed.

(** Encryption and the headers: what is sent is the header and a body that the holder [r] of
    the other keys accepts. *)
Lemma encrypt_tls_spec now rnow prng m ij r fr send' opt' bpre q bpost wpre wpost :
  let s := key_dc (m_key m ij) in
  let form := number_form (dc_encrypt s) (co_long_form (dc_opt s)) in
  select_encrypt_key now m key_scan None = Some ij -> 0 <= ks_key_id (m_key m ij) <= 7 ->
  suite_ok prng (dc_encrypt s) (dc_decrypt r) ->
  dc_packet_id_initialized s = true -> dc_packet_id_initialized r = true ->
  co_long_form (dc_opt r) = co_long_form (dc_opt s) -> dc_ignore_packet_id r = false ->
  q <> [] -> Forall is_u8 q -> fits wpre [] wpost ->
  4 <= zlen wpre -> crypto_max_overhead + zlen q <= zlen wpost -> crypto_max_overhead + 4 <= zlen bpre ->
  packet_id_send_update now (dc_send s) form = (send', true) ->
  crypto_check_replay rnow (dc_opt r) (net_of_send send' form) = Ret (opt', true) ->
  exists m' pre' body post',
    encrypt_tls now prng m (conc bpre q bpost) (conc wpre [] wpost) =
      Ret (m', conc pre' (data_header (m_use_peer_id m) m ij ++ body) post') /\
    same_keys m m' /\ ks_opt (m_key m' ij) = dc_opt (set_send s send') /\
    0 < zlen body <= zlen q + crypto_max_overhead /\ accepts rnow r fr opt' q (signed_header m ij) body.
Proof.
  intros s form Hsel Hid Hsuite Hs Hr Hlf Hig Hq Hq8 HF Hw Hwp Hb Hsend Hrep.
  pose proof (zlen_pos q Hq) as Hqpos. pose proof crypto_max_overhead_120 as H120.
  unfold encrypt_tls. rewrite (pre_encrypt_spec now m ij) by (done || by rewrite len_conc).
  set (m1 := m <| m_save_ks := None |> <| m_save_ks := Some ij |>).
  assert (Hm1 : same_keys m m1) by (unfold m1; etrans; apply same_keys_save).
  assert (Hk1 : m_key m1 ij = m_key m ij) by (unfold m1; by rewrite !m_key_save).
  rewrite len_conc. bdecide. change (m_use_peer_id m1) with (m_use_peer_id m). rewrite Hk1. fold s.
  destruct (work_header_spec m m1 ij wpre wpost Hm1 eq_refl Hid Hw HF) as (wpre' & -> & Hwl & HFw). cbn [mbind outcome_mbind].
  pose proof (zlen_signed_header m ij) as Hsh.
  destruct (packet_roundtrips now rnow prng s r fr send' opt' bpre q bpost wpre' (signed_header m ij) wpost)
    as (pre' & body & post' & -> & Hpre & Hbody & Hacc); try done; [rewrite Hsh; destruct (m_use_peer_id m); lia|].
  cbn [mbind outcome_mbind]. rewrite len_conc, zlen_app. bdecide. cbn [andb].
  set (m2 := put_key_dc m1 ij (set_send s send')).
  assert (Hm2 : same_keys m m2) by (etrans; [exact Hm1|]; by apply same_keys_set).
  assert (Hsave : m_save_ks m2 = Some ij) by (unfold m2, put_key_dc; by rewrite m_save_ks_set).
  assert (E : m_use_peer_id m2 = m_use_peer_id m) by apply Hm2. rewrite E.
  destruct (packet_header_spec m m2 ij pre' body post' Hm2 Hsave Hid) as (pre'' & ->); [intros Eu; rewrite Eu in *; lia|].
  cbn [mbind outcome_mbind]. destruct (post_encrypt_spec m2 ij pre'' (data_header (m_use_peer_id m) m ij ++ body) post' Hsave)
    as (m' & -> & Hm' & Hopt); [zlia|].
  cbn [mbind outcome_mbind]. eexists _, _, _, _. split; [done|]. split; [by etrans|]. split; [|done].
  rewrite Hopt. unfold m2, put_key_dc. by rewrite m_key_set, decide_True.
Qed.

(** ** What the two ends need *)

(** A buffer that holds [n] bytes behind [h] bytes of headroom. *)
Definition room (h n : Z) (b : buffer) : Prop := buf_wf b /\ 0 <= h /\ h + n <= capacity b.

Lemma room_init h n b :
  room h n b -> 0 <= n ->
  exists pre post, buf_init b h = (conc pre [] post, true) /\ fits pre [] post /\ zlen pre = h /\ n <= zlen post /\
    capacity b = zlen pre + zlen post.
Proof.
  intros (Hw & Hh & Hc) Hn. apply wf_conc in Hw as (pre & c & post & -> & HF). cbn [capacity conc] in *.
  rewrite buf_init_conc. bdecide. eexists _, _. split; [done|]. unfold fits in *.
  split_and!; autorewrite with zlen; lia.
Qed.

Lemma room_conc h n b pre post :
  room h n b -> fits pre [] post -> capacity b = zlen pre + zlen post -> room h n (conc pre [] post).
Proof.
  intros (Hw & Hh & Hc) HF Hcap. split; [by apply conc_wf|]. cbn [capacity conc]. change (zlen (@nil Z)) with 0. lia.
Qed.

(** No address translation; and where packets are looked into at all, IPv6 is not blocked and the gateway is
    not taken from DHCP. *)
Definition gentle (o : fwd_options) : Prop :=
  fo_client_nat o = None /\ (fo_mssfix o || fo_passtos o = true -> fo_route_gateway_via_dhcp o = false /\ fo_block_ipv6 o = false).

(** The Ethernet header of a packet of the device, and the IP packet. *)
Definition eth_part (t : dev_type) (p : list Z) : list Z := match t with DEV_TYPE_TAP => ztake ethhdr_size p | _ => [] end.
Definition ip_part (t : dev_type) (p : list Z) : list Z := match t with DEV_TYPE_TAP => zdrop ethhdr_size p | _ => p end.

(** The packet opens a TCP connection: --mssfix may lower its MSS. *)
Definition tcp_syn (t : dev_type) (p : list Z) : bool :=
  let ip := ip_part t p in
  let v := OPENVPN_IPH_GET_VER (ip !!! 0%nat) in
  (v =? 4) && is_syn4 ip || (v =? 6) && is_syn6 ip.

(** The packet is for the peer's own address: sent through the tunnel, it would come back. *)
Definition ip_version (t : dev_type) (p : list Z) : Z :=
  match t with
  | DEV_TYPE_TUN => if iphdr_size <=? zlen p then OPENVPN_IPH_GET_VER (p !!! 0%nat) else -1
  | DEV_TYPE_TAP =>
      let proto := be_value (slice 12 2 p) in
      if ethhdr_size <=? zlen p then if proto =? OPENVPN_ETH_P_IPV6 then 6 else if proto =? OPENVPN_ETH_P_IPV4 then 4 else -1 else -1
  | _ => -1
  end.

Definition for_peer (t : dev_type) (peer : link_socket_actual) (p : list Z) : bool :=
  let ip := ip_part t p in
  (ip_version t p =? 4) && (iphdr_size <=? zlen ip) && (sa_family peer =? AF_INET) && (le_value (slice 16 4 ip) =? sin_addr peer) ||
  (ip_version t p =? 6) && (ipv6hdr_size <=? zlen ip) && (sa_family peer =? AF_INET6) && bool_decide (slice 24 16 ip = sin6_addr peer).

(** A packet that the options of this end pass on as it is. *)
Definition passes (o : fwd_options) (p : list Z) : Prop := fo_mssfix o = true -> tcp_syn (fo_tunnel_type o) p = false.

(** A packet that the sender does not take for one that would come back. *)
Definition not_recursive (c : context) (p : list Z) : Prop :=
  fo_point_to_point (c2_opt c) && negb (fo_allow_recursive_routing (c2_opt c)) = true ->
  for_peer (fo_tunnel_type (c2_opt c)) (li_actual (c2_info c)) p = false.

Definition tunnel_overhead : Z := 126.

Record sender (n : Z) (c : context) : Prop := mksender {
  sd_auth : c2_context_auth c = true;
  sd_fragment : c2_fragment c = None;
  sd_opt : gentle (c2_opt c);
  sd_peer : c2_to_link_addr c = None \/ c2_to_link_addr c = Some (li_actual (c2_info c));
  sd_addr : link_socket_actual_defined (li_actual (c2_info c)) = true;
  sd_tun : n <= MAX_RW_SIZE_TUN (c2_frame c);
  sd_link : n + tunnel_overhead <= EXPANDED_SIZE (c2_frame c);
  sd_headroom : tunnel_overhead <= FRAME_HEADROOM (c2_frame c);
  sd_read : room (FRAME_HEADROOM (c2_frame c)) (MAX_RW_SIZE_TUN (c2_frame c) + 1) (c2_read_tun_buf c);
  sd_encrypt : room (FRAME_HEADROOM (c2_frame c)) (n + tunnel_overhead) (c2_encrypt_buf c);
  sd_compress : is_Some (c2_comp_context c) -> comp_room (c2_frame c) (c2_compress_buf c)
}.

Record receiver (n : Z) (from : link_socket_actual) (c : context) : Prop := mkreceiver {
  rv_auth : c2_context_auth c = true;
  rv_fragment : c2_fragment c = None;
  rv_opt : gentle (c2_opt c);
  rv_device : fo_tuntap_defined (c2_opt c) = true;
  rv_from : forall buf, 0 < len buf -> link_socket_verify_incoming_addr buf (c2_info c) from = Ret true;
  rv_tun : n <= MAX_RW_SIZE_TUN (c2_frame c);
  rv_expanded : n <= EXPANDED_SIZE (c2_frame c);
  rv_read : room (FRAME_HEADROOM_ADJ (c2_frame c) FRAME_HEADROOM_MARKER_READ_LINK) (n + tunnel_overhead) (c2_read_link_buf c);
  rv_decrypt : room (FRAME_HEADROOM_ADJ (c2_frame c) FRAME_HEADROOM_MARKER_DECRYPT)
                 (n + tunnel_overhead + OPENVPN_MAX_CIPHER_BLOCK_SIZE) (c2_decrypt_buf c);
  rv_decompress : is_Some (c2_comp_context c) -> comp_room (c2_frame c) (c2_decompress_buf c)
}.

(** The payload as the compression of the sender leaves it. *)
Definition marked (lib : comp_lib) (cc : option compress_context) (p q : list Z) : Prop :=
  match cc with
  | Some cc => framed lib p (cc_alg cc) (flag_set (cc_flags cc) COMP_F_SWAP) q
  | None => q = p
  end.

(** The same algorithm with the same flags. *)
Definition same_comp (a b : option compress_context) : Prop :=
  match a, b with
  | Some a, Some b => same_context a b
  | None, None => True
  | _, _ => False
  end.

Lemma eth_ip t p : eth_part t p ++ ip_part t p = p.
Proof. destruct t; try done. apply ztake_zdrop. Qed.

Lemma is_ipv_X_spec t pre p post ver :
  exists b : bool,
    is_ipv_X t (conc pre p post) ver =
      Ret (if b then (conc (pre ++ eth_part t p) (ip_part t p) post, true) else (conc pre p post, false)) /\
    (b = true -> OPENVPN_IPH_GET_VER (ip_part t p !!! 0%nat) = ver /\ iphdr_size <= zlen (ip_part t p)).
Proof.
  unfold is_ipv_X, eth_part, ip_part. rewrite buf_len_conc. unfold iphdr_size, ethhdr_size. destruct t; try (by exists false).
  - destruct (zlen p <? 20) eqn:El; cbn [mbind outcome_mbind]; [by exists false|]. breflect. rewrite bptr_conc. cbn [mbind outcome_mbind].
    rewrite buf_load1_total by lia. cbn [mbind outcome_mbind]. change (Z.to_nat 0) with 0%nat.
    destruct (OPENVPN_IPH_GET_VER (p !!! 0%nat) =? ver) eqn:Ev; [|by exists false]. breflect. exists true. split; [|done].
    rewrite buf_advance_conc. bdecide. done.
  - destruct (zlen p <? 14 + 20) eqn:El; cbn [mbind outcome_mbind]; [by exists false|]. breflect. rewrite bptr_conc. cbn [mbind outcome_mbind].
    rewrite buf_load_conc by lia. cbn [mbind outcome_mbind]. destruct (negb _); cbn [mbind outcome_mbind]; [by exists false|].
    rewrite buf_load1_total by lia. cbn [mbind outcome_mbind].
    destruct (OPENVPN_IPH_GET_VER (p !!! Z.to_nat 14) =? ver) eqn:Ev; [|by exists false]. breflect. exists true. split.
    + rewrite buf_advance_conc. bdecide. done.
    + intros _. split; [|zlia]. change 0%nat with (Z.to_nat 0). rewrite zdrop_total by lia. exact Ev.
Qed.

Lemma with_data_same t pre p post : with_data (conc pre p post) (conc (pre ++ eth_part t p) (ip_part t p) post) = conc pre p post.
Proof.
  unfold with_data, conc. cbn [capacity offset len data]. do 2 f_equal. rewrite <- app_assoc. f_equal. rewrite app_assoc. by rewrite eth_ip.
Qed.

(** Looking into a packet without rewriting it. *)
Lemma process_ipv4_plain c f pre ip post :
  fo_client_nat (c2_opt c) = None -> any_of f PIPV4_EXTRACT_DHCP_ROUTER = false -> Forall is_u8 ip -> iphdr_size <= zlen ip ->
  (any_of f PIP_MSSFIX = true -> is_syn4 ip = false) ->
  exists o, process_ipv4 c f (conc pre ip post) = Ret (c <| c2_ptos := o |>, conc pre ip post).
Proof.
  unfold iphdr_size. intros Hn He Hu Hl Hs. unfold process_ipv4. rewrite He.
  assert (Ht : exists o, (if any_of f PIPV4_PASSTOS
       then p ← bptr (conc pre ip post); tos ← buf_load1 (conc pre ip post) (p + 1); Ret (c <| c2_ptos := Some tos |>)
       else Ret c) = Ret (c <| c2_ptos := o |>)).
  { destruct (any_of f PIPV4_PASSTOS).
    - rewrite bptr_conc. cbn [mbind outcome_mbind]. rewrite buf_load1_total by lia. cbn [mbind outcome_mbind]. by eexists.
    - exists (c2_ptos c). by destruct c. }
  destruct Ht as (o & ->). cbn [mbind outcome_mbind]. exists o.
  destruct (any_of f PIP_MSSFIX).
  - destruct (mss_ipv4_spec pre ip post (MTU_TO_MSS (TUN_MTU_SIZE_DYNAMIC (c2_frame c))) Hu) as (ip' & E & Hi).
    rewrite (Hs eq_refl) in Hi. subst ip'. change (c2_frame (c <| c2_ptos := o |>)) with (c2_frame c). rewrite E. cbn [mbind outcome_mbind].
    change (fo_client_nat (c2_opt (c <| c2_ptos := o |>))) with (fo_client_nat (c2_opt c)). by rewrite Hn.
  - cbn [mbind outcome_mbind]. change (fo_client_nat (c2_opt (c <| c2_ptos := o |>))) with (fo_client_nat (c2_opt c)). by rewrite Hn.
Qed.

Lemma process_ipv6_plain c f t pre p post :
  any_of f (Z.lor PIPV6_IMCP_NOHOST_CLIENT PIPV6_IMCP_NOHOST_SERVER) = false -> Forall is_u8 (ip_part t p) ->
  (any_of f PIP_MSSFIX = true -> is_syn6 (ip_part t p) = false) ->
  process_ipv6 c f (conc pre p post) (conc (pre ++ eth_part t p) (ip_part t p) post) = Ret (c, conc pre p post).
Proof.
  intros Hb Hu Hs. unfold process_ipv6. rewrite Hb, andb_false_r. destruct (any_of f PIP_MSSFIX).
  - destruct (mss_ipv6_spec (pre ++ eth_part t p) (ip_part t p) post (MTU_TO_MSS (TUN_MTU_SIZE_DYNAMIC (c2_frame c))) Hu) as (ip' & -> & Hi).
    rewrite (Hs eq_refl) in Hi. subst ip'. cbn [mbind outcome_mbind]. by rewrite with_data_same.
  - cbn [mbind outcome_mbind]. by rewrite with_data_same.
Qed.

(** What the flags come to under gentle options. *)
Lemma gentle_flags o flags :
  gentle o ->
  flags ∈ [Z.lor (Z.lor PIPV4_PASSTOS PIP_MSSFIX) (Z.lor PIPV4_CLIENT_NAT PIPV6_IMCP_NOHOST_CLIENT);
           Z.lor (Z.lor PIP_MSSFIX PIPV4_EXTRACT_DHCP_ROUTER) (Z.lor PIPV4_CLIENT_NAT PIP_OUTGOING)] ->
  let f := ip_header_flags o flags in
  any_of f (Z.lor (Z.lor PIP_MSSFIX PIPV4_PASSTOS) PIPV4_CLIENT_NAT) = false \/
  (any_of f PIPV4_EXTRACT_DHCP_ROUTER = false /\ any_of f (Z.lor PIPV6_IMCP_NOHOST_CLIENT PIPV6_IMCP_NOHOST_SERVER) = false /\
   any_of f PIP_MSSFIX = fo_mssfix o).
Proof.
  intros [Hn Hg] Hf. unfold ip_header_flags. rewrite Hn. rewrite list_elem_of_In in Hf.
  destruct (fo_mssfix o), (fo_passtos o); cbn [orb] in Hg;
    try (destruct (Hg eq_refl) as [-> ->]; right; by destruct Hf as [<-|[<-|[]]]).
  left. destruct Hf as [<-|[<-|[]]]; by destruct (fo_route_gateway_via_dhcp o), (fo_block_ipv6 o).
Qed.

Lemma ip_header_plain c flags pre p post :
  gentle (c2_opt c) -> Forall is_u8 p -> passes (c2_opt c) p ->
  flags ∈ [Z.lor (Z.lor PIPV4_PASSTOS PIP_MSSFIX) (Z.lor PIPV4_CLIENT_NAT PIPV6_IMCP_NOHOST_CLIENT);
           Z.lor (Z.lor PIP_MSSFIX PIPV4_EXTRACT_DHCP_ROUTER) (Z.lor PIPV4_CLIENT_NAT PIP_OUTGOING)] ->
  exists o, process_ip_header c flags (conc pre p post) = Ret (c <| c2_ptos := o |>, conc pre p post).
Proof.
  intros Hg Hu Hp Hf. pose proof Hg as [Hn _]. pose proof (gentle_flags (c2_opt c) flags Hg Hf) as HG. cbv zeta in HG.
  unfold process_ip_header. set (f := ip_header_flags (c2_opt c) flags) in *. set (t := fo_tunnel_type (c2_opt c)).
  assert (Hid : exists o, Ret (c, conc pre p post) = Ret (c <| c2_ptos := o |>, conc pre p post)) by (exists (c2_ptos c); by destruct c).
  destruct HG as [E|(E1 & E2 & E3)]; [by rewrite E, andb_false_r|].
  destruct ((0 <? len (conc pre p post)) && _); [|exact Hid]. unfold is_ipv4, is_ipv6.
  assert (Hui : Forall is_u8 (ip_part t p)) by (unfold ip_part; destruct t; try done; by apply Forall_drop).
  unfold passes, tcp_syn in Hp. fold t in Hp.
  destruct (is_ipv_X_spec t pre p post 4) as (b & -> & Hb). destruct b; cbn [mbind outcome_mbind].
  - destruct (Hb eq_refl) as [Ev Hl]. rewrite Ev in Hp. cbn [Z.eqb Pos.eqb andb] in Hp.
    destruct (process_ipv4_plain c f (pre ++ eth_part t p) (ip_part t p) post Hn E1 Hui Hl) as (o & ->).
    { rewrite E3. intros Hm. specialize (Hp Hm). by apply orb_false_iff in Hp as [? _]. }
    cbn [mbind outcome_mbind]. rewrite with_data_same. by exists o.
  - destruct (is_ipv_X_spec t pre p post 6) as (b & -> & Hb6). destruct b; cbn [mbind outcome_mbind]; [|exact Hid].
    destruct (Hb6 eq_refl) as [Ev _]. rewrite Ev in Hp. cbn [Z.eqb Pos.eqb andb orb] in Hp.
    rewrite process_ipv6_plain; [exact Hid|done|done|]. rewrite E3. exact Hp.
Qed.

Lemma slice_zdrop off k n (c : list Z) : 0 <= off -> 0 <= k -> slice k n (zdrop off c) = slice (off + k) n c.
Proof. intros Ho Hk. unfold slice. by rewrite zdrop_zdrop by lia. Qed.

(** The check for recursive routing lets other packets pass. *)
Lemma recursive_routing_passes c pre p post :
  c2_buf c = conc pre p post -> c2_to_link_addr c = None \/ c2_to_link_addr c = Some (li_actual (c2_info c)) ->
  for_peer (fo_tunnel_type (c2_opt c)) (li_actual (c2_info c)) p = false ->
  drop_if_recursive_routing c (c2_buf c) = Ret c.
Proof.
  intros Hb [Ha|Ha] Hp; unfold drop_if_recursive_routing; rewrite Ha; [done|]. rewrite Hb. set (t := fo_tunnel_type (c2_opt c)) in *.
  set (peer := li_actual (c2_info c)) in *.
  assert (Hv : get_tun_ip_ver t (conc pre p post) =
    Ret (ip_version t p, match t with DEV_TYPE_TUN => Some 0 | DEV_TYPE_TAP => Some ethhdr_size | _ => None end)).
  { unfold get_tun_ip_ver, ip_version. rewrite buf_len_conc, bptr_conc. unfold iphdr_size, ethhdr_size. destruct t; try done.
    - destruct (20 <=? zlen p) eqn:E; [|done]. breflect. cbn [mbind outcome_mbind].
      pose proof (buf_load1_total pre p post 0 ltac:(lia)) as E0. rewrite Z.add_0_r in E0. by rewrite E0.
    - destruct (14 <=? zlen p) eqn:E; [|done]. breflect. cbn [mbind outcome_mbind]. by rewrite buf_load_conc by lia. }
  rewrite Hv. cbn [mbind outcome_mbind]. set (off := default 0 _). rewrite buf_len_conc, bptr_conc. cbn [mbind outcome_mbind].
  assert (Hip : (t = DEV_TYPE_TUN \/ t = DEV_TYPE_TAP) -> 0 <= off /\ ip_part t p = zdrop off p).
  { intros [Et|Et]; unfold off, ip_part; rewrite Et; done. }
  assert (Hver : ip_version t p = 4 \/ ip_version t p = 6 -> t = DEV_TYPE_TUN \/ t = DEV_TYPE_TAP) by (unfold ip_version; destruct t; auto; intros [?|?]; done).
  unfold for_peer in Hp. apply orb_false_iff in Hp as [H4 H6]. unfold iphdr_size, ipv6hdr_size in *.
  destruct (ip_version t p =? 4) eqn:E4; [|destruct (ip_version t p =? 6) eqn:E6; [|done]].
  - breflect. destruct (Hip (Hver (or_introl E4))) as [Ho Ei]. rewrite Ei in *. destruct (zlen p <? 20 + off) eqn:El; [done|]. breflect.
    destruct (sa_family peer =? AF_INET) eqn:Ef; cbn [negb]; [|done]. rewrite <- Z.add_assoc, buf_load_conc by lia. cbn [mbind outcome_mbind].
    rewrite slice_zdrop in H4 by lia. rewrite (proj2 (Z.leb_le 20 _)) in H4 by zlia. cbn [andb] in H4.
    by destruct H4 as [?| ->].
  - breflect. destruct (Hip (Hver (or_intror E6))) as [Ho Ei]. rewrite Ei in *. destruct (zlen p <? 40 + off) eqn:El; [done|]. breflect.
    destruct (sa_family peer =? AF_INET6) eqn:Ef; cbn [negb]; [|done]. rewrite <- Z.add_assoc, buf_load_conc by lia. cbn [mbind outcome_mbind].
    rewrite slice_zdrop in H6 by lia. rewrite (proj2 (Z.leb_le 40 _)) in H6 by zlia. cbn [andb] in H6. by destruct H6 as [?| ->].
Qed.

(** ** The way out *)

Definition packet_out (lib : comp_lib) (now sent : Z) (prng p : list Z) (c : context)
  : outcome (context * option (link_socket_actual * list Z)) :=
  c ← read_incoming_tun (Some p) c;
  c ← process_incoming_tun lib now prng false c;
  process_outgoing_link now sent false c.

(** What the calls read stands at the pointer, with the rest of the object behind. *)
Lemma receive_conc pre post n bytes :
  zlen bytes <= n -> zlen bytes <= zlen post ->
  receive (conc pre [] post) n (Some bytes) = Ret (conc pre bytes (zdrop (zlen bytes) post)).
Proof.
  intros Hn Hp. unfold receive. rewrite (ztake_all n bytes) by done. rewrite bptr_conc. cbn [mbind outcome_mbind].
  unfold buf_store, conc at 1. cbn [data app].
  rewrite (store_eq _ pre (ztake (zlen bytes) post) (zdrop (zlen bytes) post)); [|by rewrite ztake_zdrop|done|zlia].
  cbn [mbind outcome_mbind capacity offset len conc]. unfold set_len. f_equal.
  apply mkbuffer_conc; cbn [capacity offset len]; [zlia..|done].
Qed.

Lemma read_tun_spec n c p :
  sender n c -> zlen p <= n ->
  exists pre post, read_incoming_tun (Some p) c = Ret (c <| c2_buf := conc pre p post |>) /\ fits pre p post /\
    zlen pre = FRAME_HEADROOM (c2_frame c) /\ 1 <= zlen post.
Proof.
  intros Hs Hp. destruct (room_init _ _ _ (sd_read _ _ Hs)) as (pre & post & E & HF & Hpre & Hpost & _).
  { pose proof (sd_tun _ _ Hs). pose proof (zlen_nonneg p). lia. }
  pose proof (sd_tun _ _ Hs) as Hn. unfold read_incoming_tun. rewrite E. cbn [c_assert mbind outcome_mbind].
  pose proof (zlen_nonneg p). unfold fits in *. change (zlen (@nil Z)) with 0 in *.
  rewrite safe_work by (done || lia). cbn [c_assert mbind outcome_mbind].
  rewrite receive_conc by lia. cbn [mbind outcome_mbind]. eexists _, _. split; [done|]. unfold fits. split_and!; zlia.
Qed.

Lemma compress_stage lib now n c pre p post :
  CompLib lib -> sender n c -> c2_buf c = conc pre p post -> fits pre p post -> p <> [] -> zlen p <= n ->
  zlen pre = FRAME_HEADROOM (c2_frame c) -> 1 <= zlen post ->
  exists cc' pre' q post',
    compress_fragment lib now c = Ret (c <| c2_comp_context := cc' |> <| c2_buf := conc pre' q post' |>) /\
    same_comp (c2_comp_context c) cc' /\ zlen pre - 2 <= zlen pre' /\ 0 < zlen q <= zlen p + 2 /\
    marked lib (c2_comp_context c) p q.
Proof.
  intros HL Hs Hb HF Hp Hl Hpre Hpost. pose proof (sd_headroom _ _ Hs) as Hh. pose proof (sd_tun _ _ Hs) as Ht. pose proof (zlen_pos p Hp).
  unfold tunnel_overhead in Hh. unfold compress_fragment, same_comp, marked. rewrite Hb.
  destruct (c2_comp_context c) as [cc|] eqn:Ec.
  - destruct (compress_spec lib now cc pre p post (c2_compress_buf c) (c2_frame c)) as (cc' & pre' & q & post' & -> & Hcc & _ & Hp' & Hq & Hf);
      [apply (sd_compress _ _ Hs); by rewrite Ec|done..|lia|done|unfold MAX_RW_SIZE_TUN in *; lia|].
    cbn [mbind outcome_mbind]. change (c2_fragment (_ <| _ := _ |>)) with (c2_fragment c). rewrite (sd_fragment _ _ Hs).
    exists (Some cc'), pre', q, post'. split; [done|]. split; [done|]. unfold FRAME_HEADROOM in *. split; [lia|done].
  - cbn [mbind outcome_mbind]. rewrite (sd_fragment _ _ Hs). exists None, pre, p, post.
    split; [destruct c; cbn in *; by subst|]. split_and!; lia || done.
Qed.

(** What [encrypt_sign] needs of the two ends of a key. *)
Record paired (now rnow : Z) (prng : list Z) (m : tls_multi) (ij : tm_index * ks_index) (r : data_channel)
    (send' : packet_id_send) (opt' : crypto_options) : Prop := mkpaired {
  pr_select : select_encrypt_key now m key_scan None = Some ij;
  pr_id : 0 <= ks_key_id (m_key m ij) <= 7;
  pr_suite : suite_ok prng (kb_encrypt (ks_keys (m_key m ij))) (dc_decrypt r);
  pr_send_init : packet_id_initialized (opt_packet_id (ks_opt (m_key m ij))) = true;
  pr_recv_init : dc_packet_id_initialized r = true;
  pr_form : co_long_form (dc_opt r) = co_long_form (ks_opt (m_key m ij));
  pr_check : dc_ignore_packet_id r = false;
  pr_send : packet_id_send_update now (dc_send (key_dc (m_key m ij)))
              (number_form (kb_encrypt (ks_keys (m_key m ij))) (co_long_form (ks_opt (m_key m ij)))) = (send', true);
  pr_replay : crypto_check_replay rnow (dc_opt r)
                (net_of_send send' (number_form (kb_encrypt (ks_keys (m_key m ij))) (co_long_form (ks_opt (m_key m ij)))))
              = Ret (opt', true)
}.

Lemma outgoing_addr_spec buf info a :
  link_socket_actual_defined (li_actual info) = true -> 0 < len buf ->
  link_socket_get_outgoing_addr buf info a = (buf, Some (li_actual info)).
Proof. intros Ha Hb. unfold link_socket_get_outgoing_addr. bdecide. by rewrite Ha. Qed.

Lemma encrypt_sign_spec lib now rnow prng n c m ij r fr send' opt' pre p post :
  CompLib lib -> sender n c -> c2_tls_multi c = Some m -> paired now rnow prng m ij r send' opt' ->
  c2_buf c = conc pre p post -> fits pre p post -> p <> [] -> Forall is_u8 p -> zlen p <= n ->
  zlen pre = FRAME_HEADROOM (c2_frame c) -> 1 <= zlen post ->
  exists cc' work m' pre' q body post',
    let b := conc pre' (data_header (m_use_peer_id m) m ij ++ body) post' in
    encrypt_sign lib now prng false c true =
      Ret (c <| c2_comp_context := cc' |> <| c2_encrypt_buf := work |> <| c2_tls_multi := Some m' |> <| c2_buf := b |>
             <| c2_to_link_addr := Some (li_actual (c2_info c)) |> <| c2_to_link := b |>) /\
    same_comp (c2_comp_context c) cc' /\ room (FRAME_HEADROOM (c2_frame c)) (n + tunnel_overhead) work /\
    same_keys m m' /\ ks_opt (m_key m' ij) = dc_opt (set_send (key_dc (m_key m ij)) send') /\
    marked lib (c2_comp_context c) p q /\ 0 < zlen q <= zlen p + 2 /\
    0 < zlen body <= zlen q + crypto_max_overhead /\ accepts rnow r fr opt' q (signed_header m ij) body.
Proof.
  intros HL Hs Hm Hpr Hb HF Hp Hp8 Hl Hpre Hpost.
  destruct (compress_stage lib now n c pre p post HL Hs Hb HF Hp Hl Hpre Hpost)
    as (cc' & pre1 & q & post1 & Ec & Hcc & Hpre1 & Hq & Hmk).
  unfold encrypt_sign. rewrite (sd_auth _ _ Hs), Ec. cbn [mbind outcome_mbind].
  set (c1 := c <| c2_comp_context := cc' |> <| c2_buf := conc pre1 q post1 |>).
  pose proof (sd_encrypt _ _ Hs) as Hroom. pose proof (sd_headroom _ _ Hs) as Hh. unfold tunnel_overhead in *.
  destruct (room_init _ _ _ Hroom) as (wpre & wpost & Ew & HFw & Hwpre & Hwpost & Hcap); [pose proof (zlen_nonneg p); lia|].
  change (c2_encrypt_buf c1) with (c2_encrypt_buf c). change (c2_frame c1) with (c2_frame c). rewrite Ew.
  cbn [c_assert mbind outcome_mbind]. change (c2_tls_multi (_ <| _ := _ |>)) with (c2_tls_multi c). rewrite Hm.
  change (c2_buf (_ <| _ := _ |>)) with (conc pre1 q post1).
  assert (Hq8 : Forall is_u8 q) by (unfold marked in Hmk; destruct (c2_comp_context c); [by eapply framed_bytes|by subst]).
  assert (Hqne : q <> []) by (intros ->; change (zlen (@nil Z)) with 0 in Hq; lia). destruct Hpr.
  destruct (encrypt_tls_spec now rnow prng m ij r fr send' opt' pre1 q post1 wpre wpost)
    as (m' & pre2 & body & post2 & Ee & Hsame & Hopt & Hbody & Hacc);
    [first [done | rewrite ?crypto_max_overhead_120; lia]..|].
  rewrite Ee. cbn [mbind outcome_mbind]. 
  rewrite outgoing_addr_spec; [|exact (sd_addr _ _ Hs)|].
  2:{ change (c2_buf (_ <| _ := _ |>)) with (conc pre2 (data_header (m_use_peer_id m) m ij ++ body) post2). rewrite len_conc. zlia. }
  cbn [buffer_turnover mbind outcome_mbind].
  exists cc', (conc wpre [] wpost), m', pre2, q, body, post2. cbv zeta. split; [reflexivity|].
  split; [exact Hcc|]. split; [by eapply room_conc|]. auto 10.
Qed.

(** What neither counters nor timers nor the packets under way are part of. *)
Definition same_end (c c' : context) : Prop :=
  c2_opt c' = c2_opt c /\ c2_context_auth c' = c2_context_auth c /\ c2_fragment c' = c2_fragment c /\
  c2_frame c' = c2_frame c /\ c2_info c' = c2_info c /\ c2_comp_context c' = c2_comp_context c /\
  c2_tls_multi c' = c2_tls_multi c /\ c2_read_tun_buf c' = c2_read_tun_buf c /\ c2_encrypt_buf c' = c2_encrypt_buf c /\
  c2_compress_buf c' = c2_compress_buf c /\ c2_read_link_buf c' = c2_read_link_buf c /\
  c2_decrypt_buf c' = c2_decrypt_buf c /\ c2_decompress_buf c' = c2_decompress_buf c /\ c2_to_link_addr c' = c2_to_link_addr c.

Lemma same_end_sender n c c' : same_end c c' -> sender n c -> sender n c'.
Proof.
  intros (E1 & E2 & E3 & E4 & E5 & E6 & _ & E7 & E8 & E9 & _ & _ & _ & E10) [].
  constructor; rewrite ?E1, ?E2, ?E3, ?E4, ?E5, ?E6, ?E7, ?E8, ?E9, ?E10; done.
Qed.

Lemma same_end_receiver n from c c' : same_end c c' -> receiver n from c -> receiver n from c'.
Proof.
  intros (E1 & E2 & E3 & E4 & E5 & E6 & _ & _ & _ & _ & E7 & E8 & E9 & _) []. constructor; rewrite ?E1, ?E2, ?E3, ?E4, ?E5, ?E6, ?E7, ?E8, ?E9; done.
Qed.

Lemma write_link_spec now sent c addr pre w post :
  c2_to_link c = conc pre w post -> c2_to_link_addr c = Some addr -> link_socket_actual_defined addr = true ->
  0 < zlen w <= EXPANDED_SIZE (c2_frame c) ->
  exists c', process_outgoing_link now sent false c = Ret (c', Some (addr, w)) /\ same_end c c'.
Proof.
  intros Hl Ha Hd Hw. unfold process_outgoing_link. rewrite Hl, len_conc. bdecide. rewrite Ha. cbn [must mbind outcome_mbind].
  rewrite Hd. cbn [c_assert mbind outcome_mbind]. set (c1 := if fo_ping_send_timeout (c2_opt c) then _ else c).
  assert (Hc1 : same_end c c1 /\ c2_to_link c1 = c2_to_link c) by (unfold c1; by destruct (fo_ping_send_timeout (c2_opt c))).
  destruct Hc1 as [Hc1 E]. rewrite E, Hl, buf_contents_conc. cbn [mbind outcome_mbind]. rewrite andb_false_r. cbn [andb].
  eexists. split; [reflexivity|]. revert Hc1. clearbody c1. clear.
  destruct (0 <? sent); cbn; by destruct (c2_tls_multi c1).
Qed.

Lemma outgoing_spec lib now sent rnow prng n c m ij r fr send' opt' p :
  CompLib lib -> sender n c -> c2_tls_multi c = Some m -> paired now rnow prng m ij r send' opt' ->
  p <> [] -> Forall is_u8 p -> zlen p <= n -> passes (c2_opt c) p -> not_recursive c p ->
  exists c' m' q body,
    packet_out lib now sent prng p c = Ret (c', Some (li_actual (c2_info c), data_header (m_use_peer_id m) m ij ++ body)) /\
    sender n c' /\ c2_opt c' = c2_opt c /\ c2_info c' = c2_info c /\
    c2_tls_multi c' = Some m' /\ same_comp (c2_comp_context c) (c2_comp_context c') /\
    same_keys m m' /\ ks_opt (m_key m' ij) = dc_opt (set_send (key_dc (m_key m ij)) send') /\
    marked lib (c2_comp_context c) p q /\ 0 < zlen q <= zlen p + 2 /\
    0 < zlen body <= zlen q + crypto_max_overhead /\ accepts rnow r fr opt' q (signed_header m ij) body.
Proof.
  intros HL Hs Hm Hpr Hp Hp8 Hl Hpass Hrec. destruct (read_tun_spec n c p Hs Hl) as (pre & post & E & HF & Hpre & Hpost).
  unfold packet_out. rewrite E. cbn [mbind outcome_mbind]. unfold process_incoming_tun.
  change (c2_buf (c <| c2_buf := conc pre p post |>)) with (conc pre p post). rewrite len_conc. pose proof (zlen_pos p Hp). bdecide.
  match goal with |- context [drop_if_recursive_routing ?c _] => set (c1 := c) end.
  assert (He1 : same_end c c1) by done. pose proof (same_end_sender n c c1 He1 Hs) as Hs1.
  replace (0 <? len (c2_buf c1)) with true by (change (c2_buf c1) with (conc pre p post); rewrite len_conc; by bdecide).
  assert (Hrt : (if fo_point_to_point (c2_opt c1) && negb (fo_allow_recursive_routing (c2_opt c1))
      then drop_if_recursive_routing c1 (c2_buf c1) else Ret c1) = Ret c1).
  { destruct (_ && _) eqn:Erec; [|done]. apply (recursive_routing_passes c1 pre p post); [done|exact (sd_peer _ _ Hs1)|]. by apply Hrec. }
  rewrite Hrt. cbn [mbind outcome_mbind]. change (c2_buf c1) with (conc pre p post).
  destruct (ip_header_plain c1 (Z.lor (Z.lor PIPV4_PASSTOS PIP_MSSFIX) (Z.lor PIPV4_CLIENT_NAT PIPV6_IMCP_NOHOST_CLIENT)) pre p post)
    as (tos & ->); [exact (sd_opt _ _ Hs1)|done|done|by left|]. cbn [mbind outcome_mbind].
  set (c2 := c1 <| c2_ptos := tos |> <| c2_buf := conc pre p post |>). change (c2_buf c2) with (conc pre p post). rewrite len_conc. bdecide.
  assert (Hs2 : sender n c2) by (by apply (same_end_sender n c1 c2)).
  destruct (encrypt_sign_spec lib now rnow prng n c2 m ij r fr send' opt' pre p post)
    as (cc' & work & m' & pre' & q & body & post' & Ee & Hcc & Hw & Hrest); try done. cbv zeta in Ee. rewrite Ee. clear Ee. cbn [mbind outcome_mbind].
  match goal with |- context [process_outgoing_link _ _ _ ?c] => set (c3 := c) end.
  assert (Hs3 : sender n c3).
  { destruct Hs2 as [???????????]. constructor; try assumption; [by right|]. intros HS. apply sd_compress0.
    change (is_Some cc') in HS. by destruct (c2_comp_context c2), cc', HS. }
  destruct Hrest as (Hk & Hopt & Hmk & Hq & Hbody & Hacc).
  destruct (write_link_spec now sent c3 _ pre' _ post' eq_refl eq_refl) as (c4 & -> & Hc4).
  { exact (sd_addr _ _ Hs3). }
  { pose proof (sd_link _ _ Hs3) as H1. rewrite crypto_max_overhead_120 in Hbody. unfold tunnel_overhead in H1.
    rewrite zlen_app, zlen_data_header. destruct (m_use_peer_id m); lia. }
  exists c4, m', q, body. split; [done|]. split; [by eapply same_end_sender|].
  destruct Hc4 as (Eopt & _ & _ & _ & Einfo & Ecc & Em & _). rewrite Eopt, Einfo, Ecc, Em. auto 15.
Qed.

(** ** The way in *)

Definition packet_in (lib : comp_lib) (ctr_cipher : list Z -> bool -> cipher_ctx) (sha_hmac : list Z -> hmac_ctx)
    (script : option (Z -> list Z -> bool)) (now : Z) (from : link_socket_actual) (w : list Z) (c : context)
  : outcome (context * option (list Z)) :=
  c ← read_incoming_link (Some (w, from)) c;
  c ← process_incoming_link lib ctr_cipher sha_hmac script now false c;
  process_outgoing_tun c.

(** Packets that are meant for the other device, and that compression does not escape. *)
Definition ordinary (cc : option compress_context) (p : list Z) : Prop :=
  p <> [] /\ Forall is_u8 p /\ p <> ping_string /\ ztake OCC_STRING_SIZE p <> occ_magic /\
  forall c, cc = Some c -> v2 (cc_alg c) = true -> head p <> Some COMP_ALGV2_INDICATOR_BYTE.

Lemma read_link_spec n from c w :
  receiver n from c -> 0 <= n -> zlen w <= n + tunnel_overhead ->
  exists pre post, read_incoming_link (Some (w, from)) c = Ret (c <| c2_buf := conc pre w post |> <| c2_from := from |>) /\
    fits pre w post.
Proof.
  intros Hr Hn Hw. destruct (room_init _ _ _ (rv_read _ _ _ Hr)) as (pre & post & E & HF & _ & Hpost & _); [unfold tunnel_overhead; lia|].
  unfold read_incoming_link. rewrite E. cbn [c_assert mbind outcome_mbind].
  assert (Hcap : buf_forward_capacity (conc pre [] post) = zlen post).
  { unfold buf_forward_capacity. rewrite buf_valid_conc. cbn. zlen_facts. change (zlen (@nil Z)) with 0. bcase; lia. }
  cbn [fmap option_fmap option_map fst]. rewrite Hcap, receive_conc by lia. cbn [mbind outcome_mbind].
  eexists _, _. split; [done|]. unfold fits in *. zlia.
Qed.

(** The header leads to the key. *)
Lemma decrypt_tls_spec ctr sha script now c ms ij m ij' pre body post :
  let hd := data_header (m_use_peer_id ms) ms ij in
  c2_buf c = conc pre (hd ++ body) post -> 0 <= ks_key_id (m_key ms ij) <= 7 -> 1 <= zlen body ->
  find_decrypt_key m (c2_from c) (ks_key_id (m_key ms ij)) false key_scan = Ret (Some ij') ->
  kb_initialized (ks_keys (m_key m ij')) = true ->
  exists m1 pre1, pre ++ hd = pre1 ++ signed_header ms ij /\
    decrypt_tls ctr sha script now false c m =
      Ret (c <| c2_tls_multi := Some m1 |> <| c2_buf := conc (pre ++ hd) body post |>, Some ij', zlen pre1) /\
    same_keys m m1 /\ key_dc (m_key m1 ij') = key_dc (m_key m ij').
Proof.
  intros hd Hb Hid Hbody Hfind Hinit. unfold decrypt_tls. rewrite Hb, bptr_conc. cbn [mbind outcome_mbind].
  assert (Hx : exists x l, hd ++ body = x :: l) by (unfold hd, data_header; by eexists _, _).
  destruct Hx as (x & l & Ex). rewrite Ex, load1_front, <- Ex. cbn [mbind outcome_mbind].
  pose proof (header_decrypts (m_use_peer_id ms) ms ij ctr sha now script m (c2_from c) false pre body post ij' Hid Hbody Hfind Hinit) as E.
  cbv zeta in E. fold hd in E. rewrite E. cbn [mbind outcome_mbind pd_multi pd_buf pd_ret pd_opt pd_ad_start default].
  exists (m_set_key m ij' (count_packet (m_key m ij') (zlen body))), (if m_use_peer_id ms then pre else pre ++ hd).
  split; [|split; [|split]].
  - unfold signed_header, hd. destruct (m_use_peer_id ms); [done|by rewrite app_nil_r].
  - by destruct (m_use_peer_id ms).
  - by apply same_keys_set.
  - by rewrite m_key_set, decide_True.
Qed.

Lemma decrypt_packet_spec now c m ij' opt' q rpre hd body post :
  c2_tls_multi c = Some m -> c2_buf c = conc (rpre ++ hd) body post -> fits (rpre ++ hd) body post ->
  accepts now (key_dc (m_key m ij')) (c2_frame c) opt' q hd body ->
  room (FRAME_HEADROOM_ADJ (c2_frame c) FRAME_HEADROOM_MARKER_DECRYPT) (zlen body + OPENVPN_MAX_CIPHER_BLOCK_SIZE) (c2_decrypt_buf c) ->
  exists m2 pre2 post2,
    decrypt_packet now c (Some ij') (zlen rpre) = Ret (c <| c2_tls_multi := Some m2 |> <| c2_buf := conc pre2 q post2 |>, true) /\
    fits pre2 q post2 /\ same_keys m m2 /\ ks_opt (m_key m2 ij') = opt'.
Proof.
  intros Hm Hb HF Hacc (Hw & Hh & Hcap). unfold decrypt_packet. rewrite Hm, Hb.
  destruct (Hacc rpre post (c2_decrypt_buf c) Hw Hh) as (b & -> & Hq & Hwf); [lia|]. cbn [mbind outcome_mbind].
  destruct (wf_conc b (Hwf HF)) as (pre2 & q' & post2 & -> & HF2). rewrite content_conc in Hq. subst q'.
  exists (put_key_dc m ij' (set_opt (key_dc (m_key m ij')) opt')), pre2, post2. split; [done|]. split; [done|]. split.
  - by apply same_keys_set.
  - unfold put_key_dc. by rewrite m_key_set, decide_True.
Qed.

(** The key opens the packet. *)
Lemma part1_spec ctr sha script now c ms ij m ij' opt' q pre body post :
  let w := data_header (m_use_peer_id ms) ms ij ++ body in
  c2_context_auth c = true -> link_socket_verify_incoming_addr (c2_buf c) (c2_info c) (c2_from c) = Ret true ->
  c2_tls_multi c = Some m -> c2_buf c = conc pre w post -> fits pre w post ->
  0 <= ks_key_id (m_key ms ij) <= 7 -> 1 <= zlen body ->
  find_decrypt_key m (c2_from c) (ks_key_id (m_key ms ij)) false key_scan = Ret (Some ij') ->
  kb_initialized (ks_keys (m_key m ij')) = true ->
  accepts now (key_dc (m_key m ij')) (c2_frame c) opt' q (signed_header ms ij) body ->
  room (FRAME_HEADROOM_ADJ (c2_frame c) FRAME_HEADROOM_MARKER_DECRYPT) (zlen body + OPENVPN_MAX_CIPHER_BLOCK_SIZE) (c2_decrypt_buf c) ->
  exists x y m2 pre2 post2,
    process_incoming_link_part1 ctr sha script now false c =
      Ret (c <| c2_link_read_bytes := x |> <| c2_original_recv_size := y |> <| c2_tls_multi := Some m2 |>
             <| c2_buf := conc pre2 q post2 |>, true) /\
    fits pre2 q post2 /\ same_keys m m2 /\ ks_opt (m_key m2 ij') = opt'.
Proof.
  intros w Hauth Hver Hm Hb HF Hid Hbody Hfind Hinit Hacc Hroom.
  unfold process_incoming_link_part1.
  assert (Hlen : 0 < len (c2_buf c)) by (rewrite Hb, len_conc; unfold w; zlia). bdecide.
  match goal with |- context [link_socket_verify_incoming_addr _ _ (c2_from ?c)] => set (c1 := c) end.
  change (c2_buf c1) with (c2_buf c). change (c2_info c1) with (c2_info c). change (c2_from c1) with (c2_from c).
  rewrite Hver. cbn [mbind outcome_mbind]. set (c2 := c1 <| c2_buf := c2_buf c |>).
  change (c2_tls_multi c2) with (c2_tls_multi c). rewrite Hm.
  destruct (decrypt_tls_spec ctr sha script now c2 ms ij m ij' pre body post) as (m1 & pre1 & Epre & -> & Hm1 & Hk1); try done.
  cbn [mbind outcome_mbind].
  set (c3 := c2 <| c2_tls_multi := Some m1 |> <| c2_buf := _ |>). change (c2_context_auth c3) with (c2_context_auth c). rewrite Hauth.
  destruct (decrypt_packet_spec now c3 m1 ij' opt' q pre1 (signed_header ms ij) body post) as (m2 & pre2 & post2 & -> & HF2 & Hm2 & Ho2).
  { done. }
  { by rewrite <- Epre. }
  { rewrite <- Epre. unfold w, fits in *. rewrite !zlen_app in *. lia. }
  { rewrite Hk1. exact Hacc. }
  { exact Hroom. }
  cbn [mbind outcome_mbind negb andb]. eexists _, _, m2, pre2, post2. split; [reflexivity|]. split; [done|]. split; [by etrans|done].
Qed.

(** Both ends frame their packets the same way, or neither does. *)
Definition agreed (a b : option compress_context) : Prop :=
  match a, b with
  | Some a, Some b => same_framing a b
  | None, None => True
  | _, _ => False
  end.

Lemma expand_ordinary lib p a swap q n :
  CompLib lib -> framed lib p a swap q -> p <> [] -> zlen p <= n -> (v2 a = true -> head p <> Some COMP_ALGV2_INDICATOR_BYTE) ->
  expand lib a swap n q = p.
Proof.
  intros HL Hf Hp Hn Hesc. rewrite (expand_framed lib p a swap q n) by done.
  destruct (v2 a) eqn:Hv; [|done]. specialize (Hesc eq_refl). rewrite bool_decide_eq_false_2; [done|]. intros E.
  destruct Hf; try done; subst.
  - apply (f_equal (@length Z)) in E. cbn in E. lia.
  - by apply Hesc.
Qed.

Lemma decompress_stage lib now n from c cs p q pre post :
  CompLib lib -> receiver n from c -> agreed cs (c2_comp_context c) -> c2_buf c = conc pre q post -> fits pre q post ->
  marked lib cs p q -> ordinary cs p -> q <> [] -> zlen p <= n ->
  exists cc' pre' post',
    reassemble_decompress lib now c = Ret (c <| c2_comp_context := cc' |> <| c2_buf := conc pre' p post' |>) /\
    same_comp (c2_comp_context c) cc' /\ fits pre' p post'.
Proof.
  intros HL Hr Hag Hb HF Hmk (Hp & _ & _ & _ & Hesc) Hq Hl. unfold reassemble_decompress. rewrite (rv_fragment _ _ _ Hr).
  cbn [mbind outcome_mbind]. unfold marked, agreed, same_comp in *.
  destruct cs as [cs|], (c2_comp_context c) as [cr|] eqn:Ec; try done.
  - destruct Hag as [Ha Hs]. rewrite Hb.
    destruct (decompress_spec lib cr pre q post (c2_decompress_buf c) (c2_frame c)) as (cc' & pre' & post' & -> & Hcc & HF' & _);
      [apply (rv_decompress _ _ _ Hr); by rewrite Ec|done..|].
    cbn [mbind outcome_mbind]. rewrite Ha, Hs in HF' |- *.
    pose proof (rv_expanded _ _ _ Hr). rewrite (expand_ordinary lib p _ _ q) in HF' |- * by (done || lia || by apply Hesc).
    by exists (Some cc'), pre', post'.
  - subst q. exists None, pre, post. split; [destruct c; cbn in *; by subst|done].
Qed.

Lemma memeq_conc pre c post pat :
  pat <> [] -> zlen pat <= zlen c -> buf_memeq (conc pre c post) pat = Ret (bool_decide (ztake (zlen pat) c = pat)).
Proof.
  intros Hp Hl. pose proof (zlen_pos pat Hp). unfold buf_memeq. bdecide. rewrite buf_bptr_conc.
  rewrite (buf_load_inside pre c [] (ztake (zlen pat) c) (zdrop (zlen pat) c) post (zlen pre));
    [done|by rewrite ztake_zdrop|zlia|zlia].
Qed.

Lemma not_a_message cc p pre post :
  ordinary cc p -> is_ping_msg (conc pre p post) = Ret false /\ is_occ_msg (conc pre p post) = Ret false.
Proof.
  intros (_ & _ & Hping & Hocc & _). split.
  - unfold is_ping_msg, buf_string_match. rewrite len_conc. destruct (zlen ping_string =? zlen p) eqn:E; [|done]. breflect.
    rewrite memeq_conc by (done || lia). rewrite bool_decide_eq_false_2; [done|]. rewrite E, ztake_all by lia. done.
  - unfold is_occ_msg, buf_string_match_head. rewrite len_conc. change (zlen occ_magic) with OCC_STRING_SIZE.
    destruct (zlen p <? OCC_STRING_SIZE) eqn:E; [done|]. breflect.
    rewrite memeq_conc by (done || exact E). by rewrite bool_decide_eq_false_2.
Qed.

Lemma packet_received_spec now c m :
  c2_tls_multi c = Some m -> 0 < len (c2_buf c) ->
  exists c', packet_received now c = Ret c' /\ same_end c c' /\ c2_buf c' = c2_buf c.
Proof.
  intros Hm Hl. unfold packet_received. bdecide. rewrite Hm. cbn [mbind outcome_mbind]. eexists. split; [reflexivity|].
  cbn. destruct (fo_ping_rec_timeout (c2_opt c)); (split; [unfold same_end; by split_and!|done]).
Qed.

Lemma part2_spec lib now n from c m cs p q pre post :
  CompLib lib -> receiver n from c -> c2_tls_multi c = Some m -> agreed cs (c2_comp_context c) ->
  c2_buf c = conc pre q post -> fits pre q post ->
  marked lib cs p q -> ordinary cs p -> q <> [] -> zlen p <= n ->
  exists c' cc' pre' post',
    process_incoming_link_part2 lib now false c = Ret c' /\ c2_to_tun c' = conc pre' p post' /\
    same_comp (c2_comp_context c) cc' /\ same_end (c <| c2_comp_context := cc' |>) c'.
Proof.
  intros HL Hr Hm Hag Hb HF Hmk Ho Hq Hl. unfold process_incoming_link_part2. rewrite Hb, len_conc.
  pose proof (zlen_pos q Hq). bdecide.
  destruct (decompress_stage lib now n from c cs p q pre post HL Hr Hag Hb HF Hmk Ho Hq Hl) as (cc' & pre' & post' & -> & Hcc & HF').
  cbn [mbind outcome_mbind]. set (c1 := c <| c2_comp_context := cc' |> <| c2_buf := conc pre' p post' |>).
  destruct (packet_received_spec now c1 m) as (c2 & -> & Hc2 & Eb2); [done|change (c2_buf c1) with (conc pre' p post'); rewrite len_conc; apply zlen_pos, Ho|].
  cbn [mbind outcome_mbind]. rewrite Eb2. change (c2_buf c1) with (conc pre' p post').
  destruct (not_a_message cs p pre' post' Ho) as [-> Hno]. cbn [mbind outcome_mbind]. rewrite Eb2. change (c2_buf c1) with (conc pre' p post').
  rewrite Hno. cbn [buffer_turnover mbind outcome_mbind]. rewrite Eb2.
  exists (c2 <| c2_to_tun := conc pre' p post' |> <| c2_read_link_buf := c2_read_link_buf c2 |>), cc', pre', post'.
  assert (Ed : fo_tuntap_defined (c2_opt c2) = true) by (rewrite (proj1 Hc2); apply (rv_device _ _ _ Hr)).
  rewrite Ed. split; [reflexivity|]. split; [done|]. split; [done|]. exact Hc2.
Qed.

Lemma write_tun_spec c pre p post :
  gentle (c2_opt c) -> Forall is_u8 p -> passes (c2_opt c) p -> c2_to_tun c = conc pre p post -> 0 < zlen p <= MAX_RW_SIZE_TUN (c2_frame c) ->
  exists c', process_outgoing_tun c = Ret (c', Some p) /\ same_end c c'.
Proof.
  intros Hg Hu Hpass Ht Hp. unfold process_outgoing_tun. rewrite Ht, len_conc. bdecide.
  destruct (ip_header_plain c (Z.lor (Z.lor PIP_MSSFIX PIPV4_EXTRACT_DHCP_ROUTER) (Z.lor PIPV4_CLIENT_NAT PIP_OUTGOING)) pre p post Hg Hu Hpass)
    as (tos & ->); [by right; left|]. cbn [mbind outcome_mbind]. change (c2_frame (c <| c2_ptos := tos |>)) with (c2_frame c). rewrite len_conc. bdecide.
  rewrite buf_contents_conc. cbn [mbind outcome_mbind]. by eexists.
Qed.

Lemma same_comp_receiver n from c cc' :
  receiver n from c -> same_comp (c2_comp_context c) cc' -> receiver n from (c <| c2_comp_context := cc' |>).
Proof.
  intros [] Hcc. constructor; try assumption. intros HS. apply rv_decompress0. change (is_Some cc') in HS.
  by destruct (c2_comp_context c), cc', HS.
Qed.

Lemma incoming_spec lib ctr sha script now n from c m ij' cs ms ij opt' p q body :
  CompLib lib -> receiver n from c -> c2_tls_multi c = Some m -> agreed cs (c2_comp_context c) ->
  0 <= ks_key_id (m_key ms ij) <= 7 ->
  find_decrypt_key m from (ks_key_id (m_key ms ij)) false key_scan = Ret (Some ij') ->
  kb_initialized (ks_keys (m_key m ij')) = true ->
  accepts now (key_dc (m_key m ij')) (c2_frame c) opt' q (signed_header ms ij) body ->
  marked lib cs p q -> ordinary cs p -> zlen p <= n -> 0 < zlen q <= zlen p + 2 -> 0 < zlen body <= zlen q + crypto_max_overhead ->
  passes (c2_opt c) p ->
  exists c' m',
    packet_in lib ctr sha script now from (data_header (m_use_peer_id ms) ms ij ++ body) c = Ret (c', Some p) /\
    receiver n from c' /\ c2_opt c' = c2_opt c /\ c2_tls_multi c' = Some m' /\ same_comp (c2_comp_context c) (c2_comp_context c') /\
    same_keys m m' /\ ks_opt (m_key m' ij') = opt'.
Proof.
  intros HL Hr Hm Hag Hid Hfind Hinit Hacc Hmk Ho Hl Hq Hbody Hpass. rewrite crypto_max_overhead_120 in Hbody.
  set (w := data_header (m_use_peer_id ms) ms ij ++ body).
  assert (Hw : 0 < zlen w <= n + tunnel_overhead).
  { unfold w, tunnel_overhead. rewrite zlen_app, zlen_data_header. destruct (m_use_peer_id ms); lia. }
  destruct (read_link_spec n from c w Hr) as (pre & post & E & HF); [pose proof (zlen_nonneg p); lia|lia|].
  unfold packet_in. rewrite E. cbn [mbind outcome_mbind]. set (c1 := c <| c2_buf := conc pre w post |> <| c2_from := from |>).
  unfold process_incoming_link.
  destruct (part1_spec ctr sha script now c1 ms ij m ij' opt' q pre body post) as (x & y & m2 & pre2 & post2 & -> & HF2 & Hm2 & Ho2); try done.
  { apply (rv_auth _ _ _ Hr). }
  { apply (rv_from _ _ _ Hr). change (c2_buf c1) with (conc pre w post). rewrite len_conc. lia. }
  { lia. }
  { destruct (rv_decrypt _ _ _ Hr) as (H1 & H2 & H3). split; [exact H1|]. split; [exact H2|].
    change (c2_decrypt_buf c1) with (c2_decrypt_buf c). change (c2_frame c1) with (c2_frame c). unfold tunnel_overhead in H3. lia. }
  cbn [mbind outcome_mbind].
  set (c2 := c1 <| c2_link_read_bytes := x |> <| c2_original_recv_size := y |> <| c2_tls_multi := Some m2 |>
               <| c2_buf := conc pre2 q post2 |>).
  assert (Hr2 : receiver n from c2) by (by destruct Hr; constructor).
  assert (Hqne : q <> []) by (intros ->; change (zlen (@nil Z)) with 0 in Hq; lia).
  destruct (part2_spec lib now n from c2 m2 cs p q pre2 post2 HL Hr2 eq_refl Hag eq_refl HF2 Hmk Ho Hqne Hl)
    as (c3 & cc' & pre3 & post3 & -> & Ht3 & Hcc & Hc3). cbn [mbind outcome_mbind].
  pose proof (same_comp_receiver n from c2 cc' Hr2 Hcc) as Hr2'. pose proof (same_end_receiver n from _ c3 Hc3 Hr2') as Hr3.
  assert (Eo3 : c2_opt c3 = c2_opt c) by (rewrite (proj1 Hc3); done).
  destruct (write_tun_spec c3 pre3 p post3 (rv_opt _ _ _ Hr3) (proj1 (proj2 Ho)) ltac:(by rewrite Eo3) Ht3) as (c4 & -> & Hc4).
  { pose proof (rv_tun _ _ _ Hr3). pose proof (zlen_pos p (proj1 Ho)). lia. }
  exists c4, m2. split; [done|]. split; [by eapply same_end_receiver|].
  destruct Hc4 as (Eo4 & _ & _ & _ & _ & Ecc & Em & _), Hc3 as (_ & _ & _ & _ & _ & Ecc3 & Em3 & _).
  rewrite Eo4, Eo3, Ecc, Em, Ecc3, Em3. done.
Qed.

(** ** Both ends *)

(** The calls at the two ends: their clocks, what sending returns, the random bytes. *)
Record tick : Type := mktick { t_send : Z; t_recv : Z; t_sent : Z; t_random : list Z }.

Section Carry.
Context (lib : comp_lib) (ctr_cipher : list Z -> bool -> cipher_ctx) (sha_hmac : list Z -> hmac_ctx)
  (script : option (Z -> list Z -> bool)) (from : link_socket_actual).

(** One packet from device to device; the network hands over what was sent. *)
Definition carry (t : tick) (p : list Z) (cs cr : context) : outcome (context * context * option (list Z)) :=
  '(cs, sent) ← packet_out lib (t_send t) (t_sent t) (t_random t) p cs;
  match sent with
  | Some (_, w) =>
      '(cr, out) ← packet_in lib ctr_cipher sha_hmac script (t_recv t) from w cr;
      Ret (cs, cr, out)
  | None => Ret (cs, cr, None)
  end.

(** One after the other; what is written for each. *)
Fixpoint carry_all (l : list (tick * list Z)) (cs cr : context) : outcome (list (option (list Z))) :=
  match l with
  | [] => Ret []
  | (t, p) :: l =>
      '(cs, cr, out) ← carry t p cs cr;
      outs ← carry_all l cs cr;
      Ret (out :: outs)
  end.
End Carry.

Definition key_form (k : key_state) : bool := number_form (kb_encrypt (ks_keys k)) (co_long_form (ks_opt k)).
Definition key_send (k : key_state) : packet_id_send := pid_send (opt_packet_id (ks_opt k)).

(** The keys [ij] of the sender and [ij'] of the receiver belong together: the number of the one
    leads to the other, and the receiver has accepted up to what was sent. *)
Record keys_match (from : link_socket_actual) (ij ij' : tm_index * ks_index) (m m' : tls_multi) : Prop := mkmatch {
  km_id : 0 <= ks_key_id (m_key m ij) <= 7;
  km_find : find_decrypt_key m' from (ks_key_id (m_key m ij)) false key_scan = Ret (Some ij');
  km_init : kb_initialized (ks_keys (m_key m' ij')) = true;
  km_send_init : packet_id_initialized (opt_packet_id (ks_opt (m_key m ij))) = true;
  km_check : ks_ignore_packet_id (m_key m' ij') = false;
  km_form : co_long_form (ks_opt (m_key m' ij')) = co_long_form (ks_opt (m_key m ij));
  km_send_id : is_u32 (send_id (key_send (m_key m ij)));
  km_send_time : 0 <= send_time (key_send (m_key m ij)) < 2 ^ 32;
  km_send_new : send_time (key_send (m_key m ij)) = 0 -> send_id (key_send (m_key m ij)) = 0;
  km_rec : exists bt tb S, rec_inv bt tb S (ks_opt (m_key m' ij'));
  km_step : in_step (key_send (m_key m ij)) (key_form (m_key m ij)) (ks_opt (m_key m' ij'))
}.

Record linked (n : Z) (from : link_socket_actual) (ij ij' : tm_index * ks_index) (m m' : tls_multi) (cs cr : context) : Prop := mklinked {
  lk_sender : sender n cs;
  lk_receiver : receiver n from cr;
  lk_comp : agreed (c2_comp_context cs) (c2_comp_context cr);
  lk_send : c2_tls_multi cs = Some m;
  lk_recv : c2_tls_multi cr = Some m';
  lk_keys : keys_match from ij ij' m m'
}.

(** At each packet the sender's layer selects the key, whose ciphers are those of the
    receiver's. *)
Definition tick_ok (ij ij' : tm_index * ks_index) (m m' : tls_multi) (t : tick) : Prop :=
  0 < t_send t < 2 ^ 32 /\ SEQ_EXPIRED < t_recv t /\ select_encrypt_key (t_send t) m key_scan None = Some ij /\
  suite_ok (t_random t) (kb_encrypt (ks_keys (m_key m ij))) (kb_decrypt (ks_keys (m_key m' ij'))).

Lemma send_update_room now s lf :
  is_u32 (send_id s) -> send_id s < PACKET_ID_MAX ->
  exists s', packet_id_send_update now s lf = (s', true) /\ send_id s' = send_id s + 1.
Proof.
  unfold is_u32, packet_id_send_update. intros Hu Hm. destruct s as [id time]; cbn [send_id send_time] in *.
  assert (E : (id =? PACKET_ID_MAX) = false) by (apply Z.eqb_neq; lia). unfold PACKET_ID_MAX in Hm.
  destruct (time =? 0); cbn [send_id send_time]; rewrite E; (eexists; split; [done|]); apply u32_id; unfold is_u32; lia.
Qed.

Lemma check_replay_form now opt pin opt' ok :
  crypto_check_replay now opt pin = Ret (opt', ok) -> co_long_form opt' = co_long_form opt.
Proof.
  unfold crypto_check_replay. intros H. ret_inv. match type of H with (if ?b then _ else _) = _ => destruct b end; ret_inv; [|done].
  destruct (pid_persist opt); [destruct (co_long_form opt) eqn:E|]; cbn; congruence.
Qed.

(** The next packet's number is accepted, and the keys stay in step. *)
Lemma next_number ij ij' from m m' t :
  keys_match from ij ij' m m' -> tick_ok ij ij' m m' t -> send_id (key_send (m_key m ij)) < PACKET_ID_MAX ->
  exists send' opt', paired (t_send t) (t_recv t) (t_random t) m ij (key_dc (m_key m' ij')) send' opt' /\
    send_id send' = send_id (key_send (m_key m ij)) + 1 /\
    forall m1 m1', same_keys m m1 -> same_keys m' m1' ->
      ks_opt (m_key m1 ij) = dc_opt (set_send (key_dc (m_key m ij)) send') -> ks_opt (m_key m1' ij') = opt' ->
      keys_match from ij ij' m1 m1' /\ key_send (m_key m1 ij) = send'.
Proof.
  intros [] (Hnow & Hrnow & Hsel & Hsuite) Hmax. destruct km_rec0 as (bt & tb & S & Hrec).
  destruct (send_update_room (t_send t) _ (key_form (m_key m ij)) km_send_id0 Hmax) as (send' & Es & Eid).
  destruct (send_update_next _ _ _ _ Hnow km_send_id0 km_send_time0 km_send_new0 Es) as (Ht' & Hi' & Hnext).
  destruct (check_replay_in_step (t_recv t) bt tb S _ _ send' _ Hrnow Hrec km_step0 km_send_id0 Ht' Hi' Hnext) as (opt' & Er & Hrec' & Hstep').
  exists send', opt'. split; [|split; [done|]].
  - constructor; try done. exact (rec_inv_initialized bt tb S (key_dc (m_key m' ij')) Hrec).
  - intros m1 m1' Hm1 Hm1' Ho Ho'. pose proof Hm1 as (_ & _ & _ & Hk). destruct (Hk ij) as (_ & Hid & _ & Hkeys & _).
    pose proof Hm1' as (_ & _ & _ & Hk'). destruct (Hk' ij') as (_ & _ & _ & Hkeys' & _ & _ & Hig').
    assert (Ef : key_form (m_key m1 ij) = key_form (m_key m ij)) by (unfold key_form; by rewrite Hkeys, Ho).
    assert (Esend : key_send (m_key m1 ij) = send') by (unfold key_send; by rewrite Ho).
    split; [|done]. constructor; rewrite ?Hid, ?Hkeys', ?Hig', ?Ef, ?Esend, ?Ho'; try done.
    + by rewrite <- (find_decrypt_key_proper _ _ Hm1' from from eq_refl _ _ eq_refl false false eq_refl key_scan key_scan eq_refl).
    + by rewrite Ho.
    + rewrite Ho. cbn. rewrite (check_replay_form _ _ _ _ _ Er). done.
    + unfold is_u32. lia.
    + lia.
    + lia.
    + by exists bt, tb, (net_of_send send' (key_form (m_key m ij)) :: S).
Qed.

(** A packet that the options at both ends pass on as it is. *)
Definition carried (cs cr : context) (p : list Z) : Prop := passes (c2_opt cs) p /\ not_recursive cs p /\ passes (c2_opt cr) p.

Lemma carry_spec lib ctr sha script n from ij ij' m m' cs cr t p :
  CompLib lib -> linked n from ij ij' m m' cs cr -> tick_ok ij ij' m m' t -> ordinary (c2_comp_context cs) p -> carried cs cr p -> zlen p <= n ->
  send_id (key_send (m_key m ij)) < PACKET_ID_MAX ->
  exists m1 m1' cs1 cr1,
    carry lib ctr sha script from t p cs cr = Ret (cs1, cr1, Some p) /\ linked n from ij ij' m1 m1' cs1 cr1 /\
    same_comp (c2_comp_context cs) (c2_comp_context cs1) /\ (forall p', carried cs cr p' -> carried cs1 cr1 p') /\
    same_keys m m1 /\ same_keys m' m1' /\
    send_id (key_send (m_key m1 ij)) = send_id (key_send (m_key m ij)) + 1.
Proof.
  intros HL [Hs Hr Hcomp Hm Hm' Hk] Ht Ho (Hp1 & Hp2 & Hp3) Hl Hmax.
  destruct (next_number ij ij' from m m' t Hk Ht Hmax) as (send' & opt' & Hpr & Eid & Hnext).
  destruct (outgoing_spec lib (t_send t) (t_sent t) (t_recv t) (t_random t) n cs m ij _ (c2_frame cr) send' opt' p HL Hs Hm Hpr
              (proj1 Ho) (proj1 (proj2 Ho)) Hl Hp1 Hp2)
    as (cs1 & m1 & q & body & Eo & Hs1 & Eopt & Einfo & Hm1 & Hcc & Hsame & Hopt & Hmk & Hq & Hbody & Hacc).
  destruct (incoming_spec lib ctr sha script (t_recv t) n from cr m' ij' (c2_comp_context cs) m ij opt' p q body HL Hr Hm' Hcomp
              (km_id _ _ _ _ _ Hk) (km_find _ _ _ _ _ Hk) (km_init _ _ _ _ _ Hk) Hacc Hmk Ho Hl Hq Hbody Hp3)
    as (cr1 & m1' & Ei & Hr1 & Eopt' & Hm1' & Hcc' & Hsame' & Hopt').
  exists m1, m1', cs1, cr1. unfold carry. rewrite Eo. cbn [mbind outcome_mbind]. rewrite Ei. cbn [mbind outcome_mbind].
  destruct (Hnext m1 m1' Hsame Hsame' Hopt Hopt') as [Hk1 Es1].
  split; [done|]. split; [|split; [done|split; [|by rewrite Es1]]].
  2: { intros p' (H1 & H2 & H3). unfold carried, passes, not_recursive. by rewrite Eopt, Einfo, Eopt'. }
  constructor; try done. unfold agreed, same_comp, same_framing, same_context in *.
  destruct (c2_comp_context cs), (c2_comp_context cs1), (c2_comp_context cr), (c2_comp_context cr1); try done. intuition congruence.
Qed.

Lemma same_comp_ordinary a b p : same_comp a b -> ordinary a p -> ordinary b p.
Proof.
  intros Hc (H1 & H2 & H3 & H4 & H5). split_and!; try done. intros c -> Hv. destruct a as [c'|]; [|done].
  destruct Hc as [_ Ha]. apply (H5 c' eq_refl). by rewrite <- Ha.
Qed.

Lemma same_keys_tick ij ij' m m' m1 m1' t : same_keys m m1 -> same_keys m' m1' -> tick_ok ij ij' m m' t -> tick_ok ij ij' m1 m1' t.
Proof.
  intros Hm Hm' (H1 & H2 & H3 & H4). split; [done|]. split; [done|]. split.
  - by rewrite <- (select_encrypt_key_proper _ _ _ Hm key_scan key_scan eq_refl None None eq_refl).
  - destruct Hm as (_ & _ & _ & Hk), Hm' as (_ & _ & _ & Hk').
    destruct (Hk ij) as (_ & _ & _ & -> & _), (Hk' ij') as (_ & _ & _ & -> & _). done.
Qed.


(** ** A tunnel *)

(** A key with the toy cipher and a fresh packet number, in the tables of the
    demonstration. *)
Definition tunnel_key (k : key_state) : key_state :=
  k <| ks_state := S_ACTIVE |> <| ks_authenticated := true |> <| ks_remote_addr := client_addr |>
    <| ks_keys := mkbi (dc_encrypt w_side) (dc_decrypt w_side) true |> <| ks_opt := dc_opt w_side |>
    <| ks_ignore_packet_id := false |>.

Definition tunnel_ij : tm_index * ks_index := (TM_ACTIVE, KS_PRIMARY).

Definition tunnel_tables : tls_multi :=
  let m := demo_tables true 2 in m_set_key m tunnel_ij (tunnel_key (m_key m tunnel_ij)) <| m_use_peer_id := true |>.

Definition tunnel_buf : buffer := conc [] [] (replicate 4000 0).

(** Without rewriting of packets, with LZ4 in the second framing. *)
Definition tunnel_context : context :=
  mkcontext (mkfo 2 false false true DEV_TYPE_TUN false false false false None false false [] false None None)
    tunnel_buf tunnel_buf tunnel_buf tunnel_buf tunnel_buf tunnel_buf tunnel_buf tunnel_buf tunnel_buf tunnel_buf
    CompSpec.demo_frame CompSpec.demo_frame CompSpec.demo_frame CompSpec.demo_frame None (Some (demo_cc lz4v2_alg))
    (Some tunnel_tables) w_side (mkinfo client_addr true true None false) client_addr None true None None None 0 0 0 0
    (interval_init 0 0) event_timeout_clear event_timeout_clear (mktv 10 0)
    (mkocc (-1) 0 event_timeout_clear 0 0 event_timeout_clear 0 0 0 0).

(** A client with the checks that are on by default, and with --passtos. *)
Definition tunnel_client : context :=
  tunnel_context <| c2_opt := mkfo 2 false false true DEV_TYPE_TUN true false true true None false false [] false None None |>.

Definition tunnel_packets : list (tick * list Z) :=
  [(mktick 1000 1000 40 [], replicate 200 7); (mktick 1001 1002 40 [], [65; 66; 67])].

Lemma tunnel_room h n : 0 <= h -> h + n <= 4000 -> room h n tunnel_buf.
Proof. intros Hh Hn. split; [apply conc_wf; vm_compute; reflexivity|]. split; [done|exact Hn]. Qed.

Lemma tunnel_linked : linked 1400 client_addr tunnel_ij tunnel_ij tunnel_tables tunnel_tables tunnel_client tunnel_context.
Proof.
  constructor; try reflexivity.
  - constructor; try reflexivity; try (vm_compute; discriminate).
    + by split.
    + by left.
    + apply tunnel_room; vm_compute; discriminate.
    + apply tunnel_room; vm_compute; discriminate.
    + intros _. split; [apply conc_wf; vm_compute; reflexivity|]. by vm_compute.
  - constructor; try reflexivity; try (vm_compute; discriminate).
    + by split.
    + intros buf Hb. unfold link_socket_verify_incoming_addr. bdecide. reflexivity.
    + apply tunnel_room; vm_compute; discriminate.
    + apply tunnel_room; vm_compute; discriminate.
    + intros _. split; [apply conc_wf; vm_compute; reflexivity|]. by vm_compute.
  - done.
  - constructor; try (vm_compute; reflexivity); try (by vm_compute).
    exists 64, 15, []. replace (ks_opt (m_key tunnel_tables tunnel_ij)) with (dc_opt w_side) by (vm_compute; reflexivity).
    exact w_side_fresh.
Qed.

Lemma tunnel_ticks :
  Forall (fun '(t, p) => tick_ok tunnel_ij tunnel_ij tunnel_tables tunnel_tables t /\
    ordinary (c2_comp_context tunnel_client) p /\ carried tunnel_client tunnel_context p /\ zlen p <= 1400) tunnel_packets.
Proof.
  assert (Hsuite : forall prng, suite_ok prng (kb_encrypt (ks_keys (m_key tunnel_tables tunnel_ij)))
                                 (kb_decrypt (ks_keys (m_key tunnel_tables tunnel_ij)))).
  { intros prng. change (ks_keys (m_key tunnel_tables tunnel_ij)) with (mkbi (dc_encrypt w_side) (dc_decrypt w_side) true).
    apply suite_aead; [exact toy_pair|reflexivity|reflexivity|vm_compute; discriminate]. }
  assert (Hp : forall p, p <> [] -> Forall is_u8 p -> p <> ping_string -> ztake OCC_STRING_SIZE p <> occ_magic ->
    head p <> Some COMP_ALGV2_INDICATOR_BYTE -> ordinary (c2_comp_context tunnel_client) p) by (intros; by split_and!).
  unfold tunnel_packets. apply Forall_cons_2; [|apply Forall_cons_2; [|apply Forall_nil_2]]; cbv beta iota.
  all: split; [split; [by vm_compute|split; [by vm_compute|split; [by vm_compute|apply Hsuite]]]|].
  all: split; [apply Hp; try (vm_compute; discriminate)|split; [split_and!; intros _; by vm_compute|by vm_compute]].
  - apply Forall_replicate. by vm_compute.
  - repeat constructor; by vm_compute.
Qed.

