(* ===== verification/Pf.v ===== *)
(** * The packet filter of a server ([pf.c], [pf.h])

    A client of the server may have a filter: rules on the common names of other clients,
    kept in a hash table, and rules on IPv4 networks, of which the first that matches
    counts.  The filter is read from a file, or from lines given by the management
    interface; [pf_init] parses it.  Lines are C strings, without their terminating zero.
    A rule in the hash table stands for the pointer to it, since rules are never changed.
    The numbers of lines in messages are left out. *)
From S2P Require Import Prelude Integer Base64 Text Hash Mroute Otime SslCommon.
From Stdlib Require Import String.

Record ipv4_subnet : Type := mksubnet { sn_exclude : bool; sn_network : Z; sn_netmask : Z }.

Record pf_cn : Type := mkpfcn { cn_exclude : bool; cn_name : list Z }.

#[global] Instance ipv4_subnet_eq_dec : EqDecision ipv4_subnet.
Proof. solve_decision. Defined.
#[global] Instance pf_cn_eq_dec : EqDecision pf_cn.
Proof. solve_decision. Defined.

(** ** Common names as keys *)

(** A key of the table of common names, a C string. *)
Record cn_key : Type := mkcn { cn_str : list Z }.

Definition cn_hash_function (key : cn_key) (iv : Z) : outcome Z :=
  hash_func (cn_str key ++ [0]) (zlen (cn_str key) + 1) iv.

Definition cn_compare_function (key1 key2 : cn_key) : bool := bool_decide (cn_str key1 = cn_str key2).

(** The hash of a string reads exactly the string, see [cn_hash_returns]. *)
#[global] Instance cn_ops : HashOps cn_key := {|
  hash_function := fun key iv => match cn_hash_function key iv with Ret hv => hv | _ => 0 end;
  compare_function := cn_compare_function
|}.

(** ** Filters *)

(** [struct pf_set] with its parts [sns] and [cns]. *)
Record pf_set : Type := mkpfs {
  pfs_kill : bool;
  sns_default_allow : bool;
  sns_list : list ipv4_subnet;
  cns_default_allow : bool;
  cns_list : list pf_cn;
  cns_hash_table : option (hash cn_key pf_cn)
}.

Definition pf_set_clear : pf_set := mkpfs false false [] false [] None.

(** [struct pf_context].  [pf_filename] says whether there is a file. *)
Record pf_context : Type := mkpfc {
  pf_enabled : bool;
  pf_pfs : option pf_set;
  pf_filename : bool;
  pf_file_last_mod : Z;
  pf_n_check_reload : Z;
  pf_reload : event_timeout
}.

Definition set_pfs (c : pf_context) (pfs : option pf_set) : pf_context :=
  mkpfc (pf_enabled c) pfs (pf_filename c) (pf_file_last_mod c) (pf_n_check_reload c) (pf_reload c).

(** ** Reading a filter *)

Definition PF_MAX_LINE_LEN : Z := 256.

(** [strncpynt] on C strings. *)
Definition strncpynt (src : list Z) (maxlen : Z) : list Z := ztake (maxlen - 1) src.

(** [sscanf] with %u: white space, a sign, digits; the value as an [unsigned long] made an
    [unsigned int].  Also what follows. *)
Fixpoint after_digits (l : list Z) : list Z :=
  match l with c :: l' => if isdigit c then after_digits l' else l | [] => [] end.

Definition scan_uint (l : list Z) : option (Z * list Z) :=
  let l := skip_space l in
  let '(neg, l) := match l with
                   | c :: l' => if c =? 45 then (true, l') else if c =? 43 then (false, l') else (false, l)
                   | [] => (false, [])
                   end in
  match l with
  | c :: _ =>
      if isdigit c
      then let v := scan_digits l 0 in
           let v := if 2 ^ 64 <=? v then 2 ^ 64 - 1 else if neg : bool then - v else v in
           Some (u32 v, after_digits l)
      else None
  | [] => None
  end.

Definition scan_dot (l : list Z) : option (list Z) :=
  match l with c :: l => if c =? 46 then Some l else None | [] => None end.

(** [sscanf (l, "%u.%u.%u.%u", ...) == 4] *)
Definition scan_quad (l : list Z) : option (Z * Z * Z * Z) :=
  '(a, l) ← scan_uint l; l ← scan_dot l;
  '(b, l) ← scan_uint l; l ← scan_dot l;
  '(c, l) ← scan_uint l; l ← scan_dot l;
  '(d, _) ← scan_uint l;
  Some (a, b, c, d).

Definition CC_DOT : Z := Z.shiftl 1 17.

Inductive oia : Type := OIA_HOSTNAME | OIA_IP (addr : Z) | OIA_ERROR.

(** [openvpn_inet_aton] of socket.c; the address in host order. *)
Definition openvpn_inet_aton (dotted_quad : list Z) : oia :=
  let failed := if string_class dotted_quad (Z.lor CC_DIGIT CC_DOT) 0 then OIA_ERROR else OIA_HOSTNAME in
  match scan_quad dotted_quad with
  | Some (a, b, c, d) =>
      if (a <? 256) && (b <? 256) && (c <? 256) && (d <? 256)
      then OIA_IP (Z.lor (Z.lor (Z.lor (Z.shiftl a 24) (Z.shiftl b 16)) (Z.shiftl c 8)) d)
      else failed
  | None => failed
  end.

(** The new rule; [None] for a line that is refused. *)
Definition add_client (line : list Z) (exclude : bool) : option pf_cn := Some (mkpfcn exclude line).

Definition add_subnet (line : list Z) (exclude : bool) : option ipv4_subnet :=
  if bool_decide (line = cstr "unknown")
  then Some (mksubnet exclude 0 IPV4_NETMASK_HOST)
  else
    '(line, netbits) ← match strchr line 47 with
                       | Some (before, div) =>
                           netbits ← scan_int div;
                           if (netbits <? 0) || (32 <? netbits) then None else Some (before, netbits)
                       | None => Some (line, 32)
                       end;
    match openvpn_inet_aton line with
    | OIA_IP network =>
        let netmask := netbits_to_netmask netbits in
        Some (mksubnet exclude (Z.land network netmask) netmask)
    | _ => None
    end.

(** The loop of [genhash], and whether all names were new. *)
Fixpoint genhash_loop (h : hash cn_key pf_cn) (l : list pf_cn) (status : bool) : outcome (hash cn_key pf_cn * bool) :=
  match l with
  | [] => Ret (h, status)
  | e :: l =>
      '(h, added) ← hash_add h (mkcn (cn_name e)) e false;
      genhash_loop h l (if added : bool then status else false)
  end.

Definition genhash (l : list pf_cn) (n_clients : Z) : outcome (hash cn_key pf_cn * bool) :=
  h ← hash_init (if n_clients <? 16 then 16 else n_clients) 0;
  genhash_loop h l true.

Inductive pf_mode : Type := MODE_UNDEF | MODE_CLIENTS | MODE_SUBNETS.

(** The local variables of [pf_init] and the lists it builds. *)
Record pf_parse : Type := mkpp {
  pp_mode : pf_mode;
  pp_n_clients : Z;
  pp_n_errors : Z;
  pp_cns_default : bool;
  pp_clients : list pf_cn;
  pp_sns_default : bool;
  pp_subnets : list ipv4_subnet
}.

Definition pp_start : pf_parse := mkpp MODE_UNDEF 0 0 false [] false [].

Definition pp_error (s : pf_parse) : pf_parse :=
  mkpp (pp_mode s) (pp_n_clients s) (pp_n_errors s + 1) (pp_cns_default s) (pp_clients s) (pp_sns_default s) (pp_subnets s).

Definition pp_add_client (s : pf_parse) (e : pf_cn) : pf_parse :=
  mkpp (pp_mode s) (pp_n_clients s + 1) (pp_n_errors s) (pp_cns_default s) (pp_clients s ++ [e]) (pp_sns_default s)
    (pp_subnets s).

Definition pp_add_subnet (s : pf_parse) (e : ipv4_subnet) : pf_parse :=
  mkpp (pp_mode s) (pp_n_clients s) (pp_n_errors s) (pp_cns_default s) (pp_clients s) (pp_sns_default s)
    (pp_subnets s ++ [e]).

Definition pp_section_clients (s : pf_parse) (accept : bool) : pf_parse :=
  mkpp MODE_CLIENTS (pp_n_clients s) (pp_n_errors s) accept (pp_clients s) (pp_sns_default s) (pp_subnets s).

Definition pp_section_subnets (s : pf_parse) (accept : bool) : pf_parse :=
  mkpp MODE_SUBNETS (pp_n_clients s) (pp_n_errors s) (pp_cns_default s) (pp_clients s) accept (pp_subnets s).

Definition pp_section_unknown (s : pf_parse) : pf_parse :=
  mkpp MODE_UNDEF (pp_n_clients s) (pp_n_errors s + 1) (pp_cns_default s) (pp_clients s) (pp_sns_default s) (pp_subnets s).

(** [strcasecmp] in the C locale. *)
Definition tolower (c : Z) : Z := if between 65 90 c then c + 32 else c.
Definition strcaseeq (a b : list Z) : bool := bool_decide (map tolower a = map tolower b).

(** What a line leads to: the next line, [goto done] or [goto kill]. *)
Inductive pf_goto : Type := PfNext (s : pf_parse) | PfDone (s : pf_parse) | PfKill.

(** A line that begins with + or -. *)
Definition pf_rule_line (s : pf_parse) (exclude : bool) (rest : list Z) : pf_parse :=
  match rest with
  | [] => pp_error s
  | _ :: _ =>
      match pp_mode s with
      | MODE_CLIENTS => match add_client rest exclude with Some e => pp_add_client s e | None => pp_error s end
      | MODE_SUBNETS => match add_subnet rest exclude with Some e => pp_add_subnet s e | None => pp_error s end
      | MODE_UNDEF => s
      end
  end.

(** A line that begins with a bracket. *)
Definition pf_tag_line (allow_kill : bool) (s : pf_parse) (line : list Z) : pf_goto :=
  if strcaseeq line (cstr "[clients accept]") then PfNext (pp_section_clients s true)
  else if strcaseeq line (cstr "[clients drop]") then PfNext (pp_section_clients s false)
  else if strcaseeq line (cstr "[subnets accept]") then PfNext (pp_section_subnets s true)
  else if strcaseeq line (cstr "[subnets drop]") then PfNext (pp_section_subnets s false)
  else if strcaseeq line (cstr "[end]") then PfDone s
  else if allow_kill && strcaseeq line (cstr "[kill]") then PfKill
  else PfNext (pp_section_unknown s).

Definition pf_line (allow_kill : bool) (s : pf_parse) (text : list Z) : pf_goto :=
  let line := rm_trailing_chars (strncpynt text PF_MAX_LINE_LEN) [13; 10; 9; 32] in
  match line with
  | [] => PfNext s
  | c :: rest =>
      if c =? 35 then PfNext s
      else if (c =? 43) || (c =? 45) then PfNext (pf_rule_line s (c =? 45) rest)
      else if c =? 91 then pf_tag_line allow_kill s line
      else PfNext (pp_error s)
  end.

(** The loop over the lines; without "[end]" there is an error more. *)
Fixpoint pf_lines (allow_kill : bool) (s : pf_parse) (bl : list (list Z)) : pf_goto :=
  match bl with
  | [] => PfDone (pp_error s)
  | text :: bl =>
      match pf_line allow_kill s text with
      | PfNext s => pf_lines allow_kill s bl
      | g => g
      end
  end.

Definition pf_init (bl : option (list (list Z))) (allow_kill : bool) : outcome (option pf_set) :=
  match bl with
  | None => Ret None
  | Some bl =>
      match pf_lines allow_kill pp_start bl with
      | PfKill => Ret (Some (mkpfs true false [] false [] None))
      | PfDone s | PfNext s =>
          if pp_n_errors s =? 0
          then
            '(h, status) ← genhash (pp_clients s) (pp_n_clients s);
            Ret (if status : bool
                 then Some (mkpfs false (pp_sns_default s) (pp_subnets s) (pp_cns_default s) (pp_clients s) (Some h))
                 else None)
          else Ret None
      end
  end.

Definition pf_load_from_buffer_list (c : pf_context) (config : option (list (list Z))) : outcome (pf_context * bool) :=
  pfs ← pf_init config false;
  match pfs with
  | Some pfs => Ret (set_pfs c (Some pfs), true)
  | None => Ret (c, false)
  end.

(** ** The tests *)

Definition pf_kill_test (pfs : pf_set) : bool := pfs_kill pfs.

(** The value [common_name_hashval] of a session is set together with its name. *)
Definition common_name_hashval (s : tls_session) : outcome Z :=
  match s_common_name s with
  | Some (c :: l) => hash_func ((c :: l) ++ [0]) (zlen (c :: l) + 1) 0
  | _ => Ret 0
  end.

Definition tls_common_name_hash (multi : option tls_multi) : outcome (option (list Z * Z)) :=
  match multi with
  | Some multi =>
      let s := m_session multi TM_ACTIVE in
      match s_common_name s with
      | Some (c :: l) => hv ← common_name_hashval s; Ret (Some (c :: l, hv))
      | _ => Ret None
      end
  | None => Ret None
  end.

Definition lookup_cn_rule (h : hash cn_key pf_cn) (cn : list Z) (cn_hash : Z)
  : outcome (hash cn_key pf_cn * option pf_cn) :=
  '(h, he) ← hash_lookup_fast h (hash_bucket h cn_hash) (mkcn cn) cn_hash;
  Ret (h, match he with Some he => Some (value he) | None => None end).

Definition set_hash_table (pfs : pf_set) (h : hash cn_key pf_cn) : pf_set :=
  mkpfs (pfs_kill pfs) (sns_default_allow pfs) (sns_list pfs) (cns_default_allow pfs) (cns_list pfs) (Some h).

(** The filter with its table after the lookup, and the verdict. *)
Definition pf_cn_test (pfs : option pf_set) (tm : option tls_multi) : outcome (option pf_set * bool) :=
  match pfs with
  | Some p =>
      if pfs_kill p then Ret (pfs, false)
      else
        cn ← tls_common_name_hash tm;
        match cn with
        | Some (cn, cn_hash) =>
            match cns_hash_table p with
            | Some h =>
                '(h, rule) ← lookup_cn_rule h cn cn_hash;
                Ret (Some (set_hash_table p h),
                     match rule with Some rule => negb (cn_exclude rule) | None => cns_default_allow p end)
            | None => Oob
            end
        | None => Ret (pfs, false)
        end
  | None => Ret (pfs, false)
  end.

Fixpoint pf_subnet_loop (addr : Z) (l : list ipv4_subnet) (default_allow : bool) : bool :=
  match l with
  | [] => default_allow
  | se :: l =>
      if Z.land addr (sn_netmask se) =? sn_network se then negb (sn_exclude se)
      else pf_subnet_loop addr l default_allow
  end.

Definition pf_addr_test_dowork (src : pf_context) (dest : mroute_addr) : outcome bool :=
  match pf_pfs src with
  | Some pfs =>
      if pfs_kill pfs then Ret false
      else
        addr ← in_addr_t_from_mroute_addr dest;
        Ret (pf_subnet_loop addr (sns_list pfs) (sns_default_allow pfs))
  | None => Ret false
  end.

Definition pf_addr_test (src_pf : pf_context) (dest : mroute_addr) : outcome bool :=
  if pf_enabled src_pf then pf_addr_test_dowork src_pf dest else Ret true.

(** One half of [pf_c2c_test]: [!pf->enabled || pf_cn_test (pf->pfs, tm)]. *)
Definition pf_cn_side (pf : pf_context) (tm : option tls_multi) : outcome (pf_context * bool) :=
  if negb (pf_enabled pf) then Ret (pf, true)
  else '(pfs, ok) ← pf_cn_test (pf_pfs pf) tm; Ret (set_pfs pf pfs, ok).

(** ** Reloading *)

(** [stat] is what [platform_stat] says of the time of the file's last change, [file] the
    lines that are read from it.  Also [tv], and whether the client is to be killed. *)
Definition pf_check_reload (now : Z) (stat : option Z) (file : option (list (list Z))) (c : pf_context) (tv : timeval)
  : outcome (pf_context * timeval * bool) :=
  if pf_enabled c && pf_filename c
  then
    let '(et, tv', fired) := event_timeout_trigger now (pf_reload c) (Some tv) ETT_DEFAULT in
    let tv := default tv tv' in
    let c := mkpfc (pf_enabled c) (pf_pfs c) (pf_filename c) (pf_file_last_mod c) (pf_n_check_reload c) et in
    if fired : bool
    then
      '(c, kill) ← match stat with
                   | Some st_mtime =>
                       if pf_file_last_mod c <? st_mtime
                       then
                         pfs ← (match file with Some bl => pf_init (Some bl) true | None => Ret None end);
                         let c' := match pfs with Some _ => set_pfs c pfs | None => c end in
                         Ret (mkpfc (pf_enabled c') (pf_pfs c') (pf_filename c') st_mtime (pf_n_check_reload c') (pf_reload c'),
                              match pfs with Some pfs => pf_kill_test pfs | None => false end)
                       else Ret (c, false)
                   | None => Ret (c, false)
                   end;
      let wakeup := match pf_pfs c with None => if pf_n_check_reload c <? 60 then 1 else 15 | Some _ => 15 end in
      Ret (mkpfc (pf_enabled c) (pf_pfs c) (pf_filename c) (pf_file_last_mod c) (pf_n_check_reload c +u 1)
             (event_timeout_init wakeup now), tv, kill)
    else Ret (c, tv, false)
  else Ret (c, tv, false).
