(* ===== verification/PfSpec.v ===== *)
(** * Theorems on the packet filter

    A filter that has been read decides as its rules say: the rule for the name, or the
    first rule whose network holds the address, or else the default; and everything is
    refused while there is no filter.  A filter that is written out in the syntax of the
    file is read back as it was. *)
From S2P Require Import Prelude Integer Base64 Text Hash HashSpec Mroute MrouteSpec Otime SslCommon Auth Pf.
From Stdlib Require Import String.

(** ** Common names as keys *)

Lemma cn_hash_returns key iv : exists hv, cn_hash_function key iv = Ret hv.
Proof. apply hash_func_in_range. zlia. Qed.

#[global] Instance cn_laws : HashLaws cn_key.
Proof.
  split; unfold hash_function, compare_function, cn_ops, cn_compare_function.
  - intros k. by apply bool_decide_eq_true.
  - intros k1 k2 E%bool_decide_eq_true. by apply bool_decide_eq_true.
  - intros k1 k2 k3 E1%bool_decide_eq_true E2%bool_decide_eq_true. apply bool_decide_eq_true. congruence.
  - intros [k1] [k2] iv E%bool_decide_eq_true. cbn in E. by subst.
  - intros k iv. destruct (cn_hash_returns k iv) as [hv E]. rewrite E. by eapply hash_func_u32.
Qed.

(** The tables of filters have the initial value 0, which operations keep. *)
Lemma set_bucket_iv {K V} (h h' : hash K V) b l n : set_bucket h b l n = Ret h' -> iv h' = iv h.
Proof. unfold set_bucket. destruct (array_set _ _ _); cbn [mbind outcome_mbind]; [|done..]. by intros [= <-]. Qed.

Lemma lookup_fast_iv {K V} `{HashOps K} (h h' : hash K V) b k hv r : hash_lookup_fast h b k hv = Ret (h', r) -> iv h' = iv h.
Proof.
  unfold hash_lookup_fast. destruct (array_get _ _) as [l| |]; cbn [mbind outcome_mbind]; [|done..].
  destruct (hash_lookup_loop _ _ _ _) as [[[he l']|]| |]; cbn [mbind outcome_mbind]; [|by intros [= <- <-]|done..].
  destruct (set_bucket _ _ _ _) as [h1| |] eqn:E; cbn [mbind outcome_mbind]; [|done..]. intros [= <- <-]. by eapply set_bucket_iv.
Qed.

Lemma hash_add_iv {K V} `{HashOps K} (h h' : hash K V) k v b : hash_add h k v false = Ret (h', b) -> iv h' = iv h.
Proof.
  unfold hash_add. destruct (hash_lookup_fast _ _ _ _) as [[h1 [he|]]| |] eqn:E; cbn [mbind outcome_mbind]; [..|done|done];
    pose proof (lookup_fast_iv _ _ _ _ _ _ E) as Ei; [by intros [= <- <-]|].
  unfold hash_add_fast. destruct (array_get _ _); cbn [mbind outcome_mbind]; [|done..].
  destruct (array_set _ _ _); cbn [mbind outcome_mbind]; [|done..]. by intros [= <- <-].
Qed.

(** ** Rules on names *)

Definition rule_pairs (l : list pf_cn) : list (cn_key * pf_cn) := (fun e => (mkcn (cn_name e), e)) <$> l.

Definition find_rule (l : list pf_cn) (cn : list Z) : option pf_cn := snd <$> list_find (fun e => cn_name e = cn) l.

Definition cn_verdict (l : list pf_cn) (default_allow : bool) (cn : list Z) : bool :=
  match find_rule l cn with Some e => negb (cn_exclude e) | None => default_allow end.

Lemma find_rule_lookup l cn : map_lookup (mkcn cn) (rule_pairs l) = find_rule l cn.
Proof.
  unfold find_rule. induction l as [|e l IH]; [done|].
  change (map_lookup (mkcn cn) (rule_pairs (e :: l))) with (if same (mkcn cn) (mkcn (cn_name e), e) then Some e else map_lookup (mkcn cn) (rule_pairs l)).
  rewrite IH. unfold same, compare_function, cn_ops, cn_compare_function. cbn [fst cn_str list_find].
  destruct (decide (cn_name e = cn)) as [E|E]; [by rewrite bool_decide_true|]. rewrite bool_decide_false by congruence.
  by destruct (list_find _ l) as [[]|].
Qed.

Lemma find_rule_none l cn : find_rule l cn = None <-> cn ∉ cn_name <$> l.
Proof.
  unfold find_rule. rewrite fmap_None, list_find_None, Forall_forall, list_elem_of_fmap. split.
  - intros H (e & -> & He). by apply (H e He).
  - intros H e He E. apply H. by exists e.
Qed.

Lemma genhash_loop_spec l : forall h d status,
  rel h (rule_pairs d) -> iv h = 0 ->
  exists h' status', genhash_loop h l status = Ret (h', status') /\
    (status' = true <-> status = true /\ NoDup (cn_name <$> l) /\ (forall e, e ∈ l -> cn_name e ∉ cn_name <$> d)) /\
    (status' = true -> rel h' (rule_pairs (d ++ l)) /\ iv h' = 0).
Proof.
  induction l as [|e l IH]; intros h d status Hr Hi; cbn [genhash_loop].
  { exists h, status. rewrite app_nil_r. split; [done|]. split; [|done]. split; [|tauto].
    intros ->. split; [done|]. split; [constructor|]. by intros e ?%elem_of_nil. }
  destruct (hash_add_spec h (mkcn (cn_name e)) e false _ Hr) as (h1 & E & Hr1). pose proof (hash_add_iv _ _ _ _ _ E) as Hi1.
  rewrite E. cbn [mbind outcome_mbind]. unfold map_add in *. rewrite find_rule_lookup in *.
  destruct (find_rule d (cn_name e)) as [e0|] eqn:Ef; cbn [fst snd] in *.
  - destruct (IH h1 d false Hr1 ltac:(congruence)) as (h' & s' & -> & Hs & _). exists h', s'. split; [done|].
    assert (s' = false) as -> by (destruct s'; [|done]; exfalso; by destruct (proj1 Hs eq_refl)). split; [|done].
    split; [done|]. intros (_ & _ & Hd). exfalso. apply (Hd e); [left|]. destruct (decide (cn_name e ∈ cn_name <$> d)) as [|Hn]; [done|].
    by apply find_rule_none in Hn; rewrite Hn in Ef.
  - apply find_rule_none in Ef. assert (Hr2 : rel h1 (rule_pairs (d ++ [e]))).
    { destruct Hr1 as [Hw Hp]. split; [done|]. rewrite Hp. unfold rule_pairs. rewrite fmap_app. cbn. apply Permutation_cons_append. }
    destruct (IH h1 (d ++ [e]) status Hr2 ltac:(congruence)) as (h' & s' & -> & Hs & Hf). exists h', s'. split; [done|].
    rewrite <- app_assoc in Hf. split; [|done]. rewrite Hs, fmap_cons, NoDup_cons. clear -Ef. split.
    + intros (-> & Hn & Hd). split; [done|]. split.
      * split; [|done]. intros (x & Ex & Hx)%list_elem_of_fmap. apply (Hd x Hx). rewrite fmap_app, elem_of_app. right. cbn. rewrite Ex. left.
      * intros x [-> |Hx]%elem_of_cons; [done|]. intros Hin. apply (Hd x Hx). rewrite fmap_app, elem_of_app. by left.
    + intros (-> & (He & Hn) & Hd). split; [done|]. split; [done|]. intros x Hx. rewrite fmap_app, elem_of_app. intros [Hin|Hin].
      * by apply (Hd x); [right|].
      * apply list_elem_of_singleton in Hin. apply He, list_elem_of_fmap. by exists x.
Qed.

Lemma genhash_spec l n :
  n <= 2 ^ 30 ->
  exists h status, genhash l n = Ret (h, status) /\ (status = true <-> NoDup (cn_name <$> l)) /\
    (status = true -> rel h (rule_pairs l) /\ iv h = 0).
Proof.
  intros Hn. unfold genhash. destruct (hash_init_spec (K := cn_key) (V := pf_cn) (if n <? 16 then 16 else n) 0) as (h & E & Hr).
  { destruct (n <? 16) eqn:E; breflect; lia. }
  assert (Hi : iv h = 0).
  { revert E. unfold hash_init. destruct (c_assert _); cbn [mbind outcome_mbind]; [|done..].
    destruct (adjust_power_of_2 _); cbn [mbind outcome_mbind]; [|done..]. by intros [= <-]. }
  rewrite E. cbn [mbind outcome_mbind]. destruct (genhash_loop_spec l h [] true Hr Hi) as (h' & s & -> & Hs & Hf).
  exists h', s. split; [done|]. split; [|done]. rewrite Hs. split; [tauto|]. intros Hd. split; [done|]. split; [done|]. intros e _. by intros ?%elem_of_nil.
Qed.

(** ** Filters *)

(** A filter as [pf_init] leaves it. *)
Definition pf_wf (p : pf_set) : Prop :=
  pfs_kill p = false -> exists h, cns_hash_table p = Some h /\ rel h (rule_pairs (cns_list p)) /\ iv h = 0.

(** Filters with the same rules; lookups reorder the table. *)
Definition same_rules (p p' : pf_set) : Prop :=
  pfs_kill p' = pfs_kill p /\ sns_default_allow p' = sns_default_allow p /\ sns_list p' = sns_list p /\
  cns_default_allow p' = cns_default_allow p /\ cns_list p' = cns_list p.

#[global] Instance same_rules_equiv : Equivalence same_rules.
Proof. split; unfold same_rules; red; intuition congruence. Qed.

(** Whether a filter lets the client with this name through; [None] is a client without. *)
Definition name_allowed (p : pf_set) (cn : option (list Z)) : bool :=
  negb (pfs_kill p) && match cn with Some cn => cn_verdict (cns_list p) (cns_default_allow p) cn | None => false end.

#[global] Instance name_allowed_proper : Proper (same_rules ==> eq ==> eq) name_allowed.
Proof. intros p p' (E1 & _ & _ & E4 & E5) cn ? <-. unfold name_allowed. by rewrite E1, E4, E5. Qed.

(** The name of a client: that of its active session, if any. *)
Definition client_name (tm : option tls_multi) : option (list Z) := m ← tm; tls_common_name m true.

Lemma cn_test_spec p tm :
  pf_wf p -> exists p', pf_cn_test (Some p) tm = Ret (Some p', name_allowed p (client_name tm)) /\ pf_wf p' /\ same_rules p p'.
Proof.
  intros Hw. unfold pf_cn_test, name_allowed. destruct (pfs_kill p) eqn:Ek; [by exists p|]. cbn [negb andb].
  unfold tls_common_name_hash, client_name, tls_common_name, name_or, common_name_hashval.
  destruct tm as [m|]; [|by exists p]. cbn [mbind option_bind]. destruct (s_common_name (m_session m TM_ACTIVE)) as [[|c l]|]; [by exists p| |by exists p].
  destruct (Hw Ek) as (h & -> & Hr & Hi). destruct (cn_hash_returns (mkcn (c :: l)) 0) as [hv Hhv].
  unfold cn_hash_function in Hhv. cbn [cn_str] in Hhv. rewrite Hhv. cbn [mbind outcome_mbind].
  assert (Ehv : hv = hash_value h (mkcn (c :: l))).
  { unfold hash_value, hash_function, cn_ops, cn_hash_function. cbn [cn_str]. by rewrite Hi, Hhv. }
  destruct (hash_lookup_spec h (mkcn (c :: l)) _ Hr) as (h' & El & Hr'). unfold hash_lookup in El. cbv zeta in El. rewrite <- Ehv in El. unfold lookup_cn_rule.
  destruct (hash_lookup_fast h (hash_bucket h hv) (mkcn (c :: l)) hv) as [[h1 r]| |] eqn:E; cbn [mbind outcome_mbind] in El |- *; [|done..].
  pose proof (lookup_fast_iv _ _ _ _ _ _ E) as Hi1. injection El as -> El.
  rewrite El, find_rule_lookup. exists (set_hash_table p h'). split; [done|]. split; [|done].
  intros _. exists h'. split; [done|]. split; [done|congruence].
Qed.

(** What a client's filter makes of packets from and to another one. *)
Definition side_allowed (pf : pf_context) (tm : option tls_multi) : bool :=
  negb (pf_enabled pf) || match pf_pfs pf with Some p => name_allowed p (client_name tm) | None => false end.

Definition filter_wf (pf : pf_context) : Prop := forall p, pf_pfs pf = Some p -> pf_wf p.

(** Contexts that differ in the order of the table only. *)
Definition same_filter (pf pf' : pf_context) : Prop :=
  pf_enabled pf' = pf_enabled pf /\ option_Forall2 same_rules (pf_pfs pf) (pf_pfs pf').

#[global] Instance same_filter_equiv : Equivalence same_filter.
Proof.
  split; unfold same_filter; red.
  - intros pf. by split.
  - intros pf pf' [E H]. split; [done|]. by symmetry.
  - intros p1 p2 p3 [E1 H1] [E2 H2]. split; [congruence|]. by etrans.
Qed.

#[global] Instance side_allowed_proper : Proper (same_filter ==> eq ==> eq) side_allowed.
Proof. intros pf pf' [E H] tm ? <-. unfold side_allowed. rewrite E. destruct H as [p p' Hp|]; [|done]. by rewrite Hp. Qed.

Lemma cn_side_spec pf tm :
  filter_wf pf -> exists pf', pf_cn_side pf tm = Ret (pf', side_allowed pf tm) /\ filter_wf pf' /\ same_filter pf pf'.
Proof.
  intros Hw. unfold pf_cn_side, side_allowed. destruct (pf_enabled pf) eqn:Ee; cbn [negb orb]; [|by exists pf].
  destruct (pf_pfs pf) as [p|] eqn:Ep.
  - destruct (cn_test_spec p tm (Hw p Ep)) as (p' & -> & Hw' & Hs). cbn [mbind outcome_mbind]. eexists. split; [done|].
    split; [by intros q [= <-]|]. split; [done|]. cbn. rewrite Ep. by constructor.
  - cbn. eexists. split; [done|]. split; [by intros q [=]|]. split; [done|]. cbn. by rewrite Ep.
Qed.

(** ** Rules on addresses *)

(** The network of a rule holds the address. *)
Definition subnet_holds (e : ipv4_subnet) (addr : Z) : Prop := Z.land addr (sn_netmask e) = sn_network e.
#[global] Instance subnet_holds_dec e addr : Decision (subnet_holds e addr).
Proof. unfold subnet_holds. apply _. Defined.

Definition subnet_verdict (l : list ipv4_subnet) (default_allow : bool) (addr : Z) : bool :=
  match list_find (fun e => subnet_holds e addr) l with Some (_, e) => negb (sn_exclude e) | None => default_allow end.

Lemma subnet_loop_spec addr l d : pf_subnet_loop addr l d = subnet_verdict l d addr.
Proof.
  unfold subnet_verdict. induction l as [|e l IH]; [done|]. cbn. rewrite IH. unfold subnet_holds.
  destruct (decide (Z.land addr (sn_netmask e) = sn_network e)) as [E|E].
  - by rewrite E, Z.eqb_refl.
  - apply Z.eqb_neq in E. rewrite E. by destruct (list_find _ l) as [[]|].
Qed.

(** The IPv4 address a rule is compared with; 0 for all others. *)
Definition ipv4_value (a : mroute_addr) : Z :=
  if (ip_kind a =? MR_ADDR_IPV4) && (ma_netbits a =? 0) && (ma_len a =? 4) then be_value (ztake 4 (raw_addr a)) else 0.

Definition addr_allowed (pf : pf_context) (a : mroute_addr) : bool :=
  negb (pf_enabled pf) ||
  match pf_pfs pf with
  | Some p => negb (pfs_kill p) && subnet_verdict (sns_list p) (sns_default_allow p) (ipv4_value a)
  | None => false
  end.

#[global] Instance addr_allowed_proper : Proper (same_filter ==> eq ==> eq) addr_allowed.
Proof. intros pf pf' [E H] a ? <-. unfold addr_allowed. rewrite E. destruct H as [p p' (-> & -> & -> & _)|]; done. Qed.

Lemma addr_test_spec pf a : mroute_wf a -> pf_addr_test pf a = Ret (addr_allowed pf a).
Proof.
  intros [Hl _]. unfold pf_addr_test, addr_allowed, pf_addr_test_dowork. destruct (pf_enabled pf); cbn [negb orb]; [|done].
  destruct (pf_pfs pf) as [p|]; [|done]. destruct (pfs_kill p); cbn [negb andb]; [done|].
  unfold in_addr_t_from_mroute_addr, ipv4_value, ip_kind. destruct (_ && _).
  - rewrite load_prefix by lia. cbn [mbind outcome_mbind]. by rewrite subnet_loop_spec.
  - cbn [mbind outcome_mbind]. by rewrite subnet_loop_spec.
Qed.

(** ** Reading *)

(** The counters of the parser. *)
Definition pp_counts (s : pf_parse) (n : Z) : Prop := 0 <= pp_n_errors s /\ 0 <= pp_n_clients s <= n.

Lemma pf_rule_line_counts s exclude rest n : pp_counts s n -> pp_counts (pf_rule_line s exclude rest) (n + 1).
Proof.
  unfold pp_counts, pf_rule_line. intros [H1 H2]. destruct rest as [|c rest]; [cbn; lia|]. destruct (pp_mode s); [cbn; lia|cbn; lia|].
  destruct (add_subnet _ _); cbn; lia.
Qed.

Lemma pf_line_counts k s text n :
  pp_counts s n ->
  match pf_line k s text with PfNext s' | PfDone s' => pp_counts s' (n + 1) | PfKill => True end.
Proof.
  intros Hs. assert (Hn : pp_counts s (n + 1)) by (unfold pp_counts in *; lia).
  unfold pf_line. destruct (rm_trailing_chars _ _) as [|c rest]; [done|]. destruct (c =? 35); [done|].
  destruct ((c =? 43) || (c =? 45)); [by apply pf_rule_line_counts|].
  destruct (c =? 91); [|unfold pp_counts in *; cbn; lia]. unfold pf_tag_line. destruct (strcaseeq _ _); [done|].
  destruct (strcaseeq _ _); [done|]. destruct (strcaseeq _ _); [done|]. destruct (strcaseeq _ _); [done|].
  destruct (strcaseeq _ _); [done|]. destruct (k && _); [done|]. unfold pp_counts in *; cbn; lia.
Qed.

Lemma pf_lines_counts k bl : forall s n,
  pp_counts s n -> match pf_lines k s bl with PfNext s' | PfDone s' => pp_counts s' (n + zlen bl) | PfKill => True end.
Proof.
  induction bl as [|text bl IH]; intros s n Hs; cbn [pf_lines].
  { change (zlen []) with 0. unfold pp_counts in *; cbn; lia. }
  pose proof (pf_line_counts k s text n Hs) as Hl. rewrite zlen_cons. destruct (pf_line k s text) as [s'|s'|]; [|unfold pp_counts in *; zlia|done].
  specialize (IH s' (n + 1) Hl). by replace (n + (1 + zlen bl)) with (n + 1 + zlen bl) by lia.
Qed.

(** Whatever the lines are, reading them does not fail, and a filter that is accepted is
    well formed. *)
Lemma pf_init_returns bl k :
  zlen bl <= 2 ^ 30 -> exists r, pf_init (Some bl) k = Ret r /\ forall p, r = Some p -> pf_wf p.
Proof.
  intros Hl. pose proof (pf_lines_counts k bl pp_start 0 ltac:(unfold pp_counts; cbn; lia)) as Hc. unfold pf_init.
  assert (Hend : forall s, pp_counts s (0 + zlen bl) -> exists r,
    (if pp_n_errors s =? 0
     then '(h, status) ← genhash (pp_clients s) (pp_n_clients s);
          Ret (if status : bool then Some (mkpfs false (pp_sns_default s) (pp_subnets s) (pp_cns_default s) (pp_clients s) (Some h)) else None)
     else Ret None) = Ret r /\ forall p, r = Some p -> pf_wf p).
  { intros s Hs. destruct (pp_n_errors s =? 0); [|by eexists].
    destruct (genhash_spec (pp_clients s) (pp_n_clients s)) as (h & st & -> & _ & Hf); [unfold pp_counts in Hs; lia|]. cbn [mbind outcome_mbind].
    destruct st; eexists; (split; [done|]); [|done]. intros p [= <-] _. exists h. destruct (Hf eq_refl). by split_and!. }
  destruct (pf_lines k pp_start bl) as [s|s|]; [by apply Hend|by apply Hend|]. eexists. split; [done|]. by intros p [= <-].
Qed.

(** ** The syntax of the file *)

(** A filter as an administrator sees it: each network with its prefix length. *)
Record filter_text : Type := mkft {
  ft_cns_accept : bool;
  ft_clients : list pf_cn;
  ft_sns_accept : bool;
  ft_subnets : list (bool * Z * Z)
}.

Definition print_dec (n : Z) : list Z :=
  if n <? 10 then [48 + n]
  else if n <? 100 then [48 + n / 10; 48 + n mod 10]
  else [48 + n / 100; 48 + n / 10 mod 10; 48 + n mod 10].

Definition print_quad (n : Z) : list Z :=
  match be_bytes 4 n with
  | [a; b; c; d] => print_dec a ++ 46 :: print_dec b ++ 46 :: print_dec c ++ 46 :: print_dec d
  | _ => []
  end.

Definition print_sign (exclude : bool) : Z := if exclude then 45 else 43.
Definition print_client (e : pf_cn) : list Z := print_sign (cn_exclude e) :: cn_name e.
Definition print_subnet (e : bool * Z * Z) : list Z := print_sign e.1.1 :: print_quad e.1.2 ++ 47 :: print_dec e.2.

Definition print_filter (f : filter_text) : list (list Z) :=
  cstr (if ft_cns_accept f then "[clients accept]" else "[clients drop]") :: map print_client (ft_clients f) ++
  cstr (if ft_sns_accept f then "[subnets accept]" else "[subnets drop]") :: map print_subnet (ft_subnets f) ++
  [cstr "[end]"].

(** Names are given once, fit in a line and do not end in white space; networks have no
    bits behind the prefix. *)
Definition name_ok (cn : list Z) : Prop :=
  cn <> [] /\ zlen cn <= 254 /\ forall c, list.last cn = Some c -> c ∉ [13; 10; 9; 32].

Definition subnet_ok (e : bool * Z * Z) : Prop := is_u32 e.1.2 /\ 0 <= e.2 <= 32 /\ prefix_of 32 e.2 e.1.2 = e.1.2.

Definition filter_ok (f : filter_text) : Prop :=
  Forall (fun e => name_ok (cn_name e)) (ft_clients f) /\ NoDup (cn_name <$> ft_clients f) /\
  zlen (ft_clients f) <= 2 ^ 30 /\ Forall subnet_ok (ft_subnets f).

Definition subnet_of (e : bool * Z * Z) : ipv4_subnet := mksubnet e.1.1 e.1.2 (netbits_to_netmask e.2).

(** Numbers below 256 in front of anything but a digit. *)
Definition no_digit (r : list Z) : Prop := match r with c :: _ => isdigit c = false | [] => True end.

Lemma isdigit_dec n : 0 <= n <= 9 -> isdigit (48 + n) = true.
Proof. intros Hn. unfold isdigit, between. by bdecide. Qed.

Lemma scan_digits_stop r acc : no_digit r -> scan_digits r acc = acc /\ after_digits r = r.
Proof. destruct r as [|c r]; cbn; [done|]. intros E. by rewrite E. Qed.

Lemma scan_digits_dec b r : 0 <= b < 256 -> no_digit r -> scan_digits (print_dec b ++ r) 0 = b /\ after_digits (print_dec b ++ r) = r.
Proof.
  intros Hb Hr. unfold print_dec. destruct (b <? 10) eqn:E1; breflect; [|destruct (b <? 100) eqn:E2; breflect];
    cbn [app scan_digits after_digits]; rewrite !isdigit_dec by (Z.div_mod_to_equations; lia);
    match goal with |- scan_digits r ?acc = _ /\ _ => destruct (scan_digits_stop r acc Hr) as [-> ->] end;
    (split; [Z.div_mod_to_equations; lia|done]).
Qed.

(** The first character is a digit, so neither white space nor a sign. *)
Lemma print_dec_head b r : 0 <= b < 256 -> exists n l, print_dec b ++ r = (48 + n) :: l /\ 0 <= n <= 9.
Proof.
  intros Hb. unfold print_dec. destruct (b <? 10) eqn:E1; breflect; [|destruct (b <? 100) eqn:E2; breflect];
    (eexists _, _; split; [done|]; Z.div_mod_to_equations; lia).
Qed.

Lemma skip_space_digit n l : 0 <= n <= 9 -> skip_space ((48 + n) :: l) = (48 + n) :: l.
Proof. intros Hn. cbn [skip_space]. unfold isspace, between. by bdecide. Qed.

Lemma scan_uint_dec b r : 0 <= b < 256 -> no_digit r -> scan_uint (print_dec b ++ r) = Some (b, r).
Proof.
  intros Hb Hr. destruct (scan_digits_dec b r Hb Hr) as [E1 E2]. destruct (print_dec_head b r Hb) as (n & l & El & Hn). rewrite El in *.
  unfold scan_uint. rewrite skip_space_digit by done. bdecide. rewrite isdigit_dec by done. cbv zeta. rewrite E1, E2. bdecide.
  by rewrite u32_id by (unfold is_u32; lia).
Qed.

Lemma scan_uint_dot b : 0 <= b < 256 -> forall r, scan_uint (print_dec b ++ 46 :: r) = Some (b, 46 :: r).
Proof. intros Hb r. by apply scan_uint_dec. Qed.

Lemma scan_uint_end b : 0 <= b < 256 -> scan_uint (print_dec b) = Some (b, []).
Proof. intros Hb. rewrite <- (app_nil_r (print_dec b)). by apply scan_uint_dec. Qed.

Lemma scan_int_dec b : 0 <= b < 256 -> scan_int (print_dec b) = Some b.
Proof.
  intros Hb. destruct (scan_digits_dec b [] Hb I) as [E1 _]. destruct (print_dec_head b [] Hb) as (n & l & El & Hn). rewrite app_nil_r in *. rewrite El in *.
  unfold scan_int. rewrite skip_space_digit by done. bdecide. rewrite isdigit_dec by done. cbv zeta. rewrite E1. f_equal.
  rewrite Z.min_r, Z.max_r by lia. uwrap.
Qed.

Lemma print_dec_chars b : 0 <= b < 256 -> Forall (fun c => 48 <= c <= 57) (print_dec b).
Proof.
  intros Hb. unfold print_dec. destruct (b <? 10) eqn:E1; breflect; [repeat constructor; lia|].
  destruct (b <? 100) eqn:E2; breflect; repeat constructor; Z.div_mod_to_equations; lia.
Qed.

Lemma print_dec_nonempty b : print_dec b <> [].
Proof. unfold print_dec. destruct (b <? 10); [done|]. by destruct (b <? 100). Qed.

Lemma quad_value a b c d :
  is_u8 a -> is_u8 b -> is_u8 c -> is_u8 d ->
  Z.lor (Z.lor (Z.lor (Z.shiftl a 24) (Z.shiftl b 16)) (Z.shiftl c 8)) d = be_value [a; b; c; d].
Proof.
  unfold is_u8. intros Ha Hb Hc Hd.
  rewrite (Z.lor_comm (Z.shiftl a 24)), (lor_shiftl_add (Z.shiftl b 16) a 24) by (rewrite ?Z.shiftl_mul_pow2 by lia; lia).
  rewrite (Z.shiftl_mul_pow2 b) by lia. replace (b * 2 ^ 16 + a * 2 ^ 24) with (Z.shiftl (b + a * 256) 16) by (rewrite ?Z.shiftl_mul_pow2 by lia; lia).
  rewrite Z.lor_comm, (Z.lor_comm _ (Z.shiftl c 8)), (lor_shiftl_add (Z.shiftl c 8)) by (rewrite ?Z.shiftl_mul_pow2 by lia; lia).
  rewrite (Z.shiftl_mul_pow2 c) by lia. replace (c * 2 ^ 8 + (b + a * 256) * 2 ^ 16) with (Z.shiftl (c + (b + a * 256) * 256) 8) by (rewrite ?Z.shiftl_mul_pow2 by lia; lia).
  rewrite lor_shiftl_add by lia. cbn. lia.
Qed.

Lemma print_quad_bytes n : is_u32 n ->
  exists a b c d, be_bytes 4 n = [a; b; c; d] /\ is_u8 a /\ is_u8 b /\ is_u8 c /\ is_u8 d /\ be_value [a; b; c; d] = n.
Proof.
  intros Hn. pose proof (be_bytes_u8 4 n) as Hu. pose proof (be_value_bytes4 n Hn) as Hv.
  change (be_bytes 4 n) with [n / 256 / 256 / 256 mod 256; n / 256 / 256 mod 256; n / 256 mod 256; n mod 256] in *.
  apply Forall_cons in Hu as [H1 Hu]. apply Forall_cons in Hu as [H2 Hu]. apply Forall_cons in Hu as [H3 Hu]. apply Forall_cons in Hu as [H4 _].
  by eexists _, _, _, _.
Qed.

Lemma inet_aton_quad n : is_u32 n -> openvpn_inet_aton (print_quad n) = OIA_IP n.
Proof.
  intros Hn. destruct (print_quad_bytes n Hn) as (a & b & c & d & E & Ha & Hb & Hc & Hd & Hv). unfold print_quad. rewrite E.
  unfold openvpn_inet_aton, scan_quad. rewrite scan_uint_dot by done. cbn [mbind option_bind scan_dot Z.eqb Pos.eqb].
  rewrite scan_uint_dot by done. cbn [mbind option_bind scan_dot Z.eqb Pos.eqb].
  rewrite scan_uint_dot by done. cbn [mbind option_bind scan_dot Z.eqb Pos.eqb]. rewrite scan_uint_end by done. cbn [mbind option_bind].
  unfold is_u8 in *. bdecide. by rewrite quad_value, Hv.
Qed.

(** A string of digits and dots has no other character. *)
Lemma print_quad_chars n : is_u32 n -> Forall (fun c => c <> 47) (print_quad n) /\ exists x l, print_quad n = x :: l /\ 48 <= x <= 57.
Proof.
  intros Hn. destruct (print_quad_bytes n Hn) as (a & b & c & d & E & Ha & Hb & Hc & Hd & _). unfold print_quad. rewrite E.
  assert (Hp : forall x, is_u8 x -> Forall (fun c => c <> 47) (print_dec x)).
  { intros x Hx. eapply Forall_impl; [by apply print_dec_chars|]. cbn. lia. }
  split.
  - repeat (apply Forall_app; split; [by apply Hp|]; apply Forall_cons; split; [lia|]). by apply Hp.
  - pose proof (print_dec_chars a Ha) as Hc'. destruct (print_dec a) as [|x l] eqn:Ea; [by destruct (print_dec_nonempty a)|].
    apply Forall_cons in Hc' as [Hx _]. by eexists x, _.
Qed.

Lemma strchr_app l c r : Forall (fun x => x <> c) l -> strchr (l ++ c :: r) c = Some (l, r).
Proof.
  induction 1 as [|x l Hx _ IH]; cbn [strchr app]; [by rewrite Z.eqb_refl|]. apply Z.eqb_neq in Hx. by rewrite Hx, IH.
Qed.

Lemma add_subnet_printed e : subnet_ok e -> add_subnet (print_quad e.1.2 ++ 47 :: print_dec e.2) e.1.1 = Some (subnet_of e).
Proof.
  destruct e as [[ex n] k]. intros (Hn & Hk & Hp). cbn [fst snd] in *. destruct (print_quad_chars n Hn) as (Hc & x & l & El & Hx).
  unfold add_subnet. rewrite bool_decide_false by (change (cstr "unknown") with (117 :: cstr "nknown"); rewrite El; intros E; injection E; lia).
  rewrite strchr_app by done. cbn [mbind option_bind]. rewrite scan_int_dec by lia. cbn [mbind option_bind]. bdecide. cbn [mbind option_bind].
  rewrite inet_aton_quad by done. unfold subnet_of. cbn [fst snd]. by rewrite land_netmask, Hp.
Qed.

(** Lines that are not too long and do not end in white space come through unchanged. *)
Lemma line_kept l c : zlen l <= 255 -> list.last l = Some c -> c ∉ [13; 10; 9; 32] -> rm_trailing_chars (strncpynt l PF_MAX_LINE_LEN) [13; 10; 9; 32] = l.
Proof.
  intros Hl Hc Hn. unfold strncpynt, PF_MAX_LINE_LEN. replace (ztake (256 - 1) l) with l by (symmetry; apply ztake_all; lia).
  unfold rm_trailing_chars. destruct l as [|x l]; [done|]. cbn [List.length rm_trailing_loop]. rewrite Hc.
  destruct (existsb (Z.eqb c) _) eqn:E; [|done]. apply existsb_exists in E as (y & Hy & Exy). apply Z.eqb_eq in Exy as ->.
  exfalso. by apply Hn, list_elem_of_In.
Qed.

(** ** Files read back *)

Lemma print_sign_char x : (print_sign x =? 35) = false /\ ((print_sign x =? 43) || (print_sign x =? 45)) = true /\ (print_sign x =? 45) = x.
Proof. by destruct x. Qed.

Lemma rule_line k s ex rest c :
  zlen rest <= 254 -> list.last rest = Some c -> c ∉ [13; 10; 9; 32] ->
  pf_line k s (print_sign ex :: rest) = PfNext (pf_rule_line s ex rest).
Proof.
  intros Hl Hc Hn. unfold pf_line. destruct rest as [|x rest]; [done|]. rewrite (line_kept _ c) by (try zlia; done).
  destruct (print_sign_char ex) as (-> & -> & ->). done.
Qed.

Lemma client_lines k cs : forall s rest,
  pp_mode s = MODE_CLIENTS -> Forall (fun e => name_ok (cn_name e)) cs ->
  pf_lines k s (map print_client cs ++ rest) =
  pf_lines k (mkpp MODE_CLIENTS (pp_n_clients s + zlen cs) (pp_n_errors s) (pp_cns_default s) (pp_clients s ++ cs) (pp_sns_default s) (pp_subnets s)) rest.
Proof.
  induction cs as [|e cs IH]; intros s rest Hm Hok.
  { rewrite app_nil_r. change (zlen []) with 0. rewrite Z.add_0_r, <- Hm. by destruct s. }
  apply Forall_cons in Hok as [(He & Hl & Hc) Hok]. cbn [map app pf_lines]. unfold print_client at 1.
  destruct (cn_name e) as [|x cn] eqn:En; [done|]. destruct (list.last (x :: cn)) as [c|] eqn:El; [|by apply last_None in El].
  rewrite (rule_line k s _ _ c) by auto. unfold pf_rule_line. rewrite Hm. unfold add_client. rewrite <- En.
  rewrite IH by done. f_equal. unfold pp_add_client. cbn. rewrite <- app_assoc. destruct e. f_equal. zlia.
Qed.

Lemma last_print_subnet q b : 0 <= b < 256 -> exists c, list.last (q ++ 47 :: print_dec b) = Some c /\ c ∉ [13; 10; 9; 32].
Proof.
  intros Hb. pose proof (print_dec_chars b Hb) as Hc. destruct (print_dec b) as [|x l] eqn:E using rev_ind; [by destruct (print_dec_nonempty b)|].
  apply Forall_app in Hc as [_ [Hx _]%Forall_cons]. exists x. split; [by rewrite app_comm_cons, app_assoc, last_snoc|].
  intros Hin. repeat (apply elem_of_cons in Hin as [->|Hin]; [lia|]). by apply elem_of_nil in Hin.
Qed.

Lemma print_dec_length b : zlen (print_dec b) <= 3.
Proof. unfold print_dec. destruct (b <? 10); [done|]. by destruct (b <? 100). Qed.

Lemma print_quad_length n : zlen (print_quad n) <= 15.
Proof.
  unfold print_quad. destruct (be_bytes 4 n) as [|a [|b [|c [|d [|]]]]]; try done.
  pose proof (print_dec_length a). pose proof (print_dec_length b). pose proof (print_dec_length c). pose proof (print_dec_length d). zlia.
Qed.

Lemma subnet_lines k cs : forall s rest,
  pp_mode s = MODE_SUBNETS -> Forall subnet_ok cs ->
  pf_lines k s (map print_subnet cs ++ rest) =
  pf_lines k (mkpp MODE_SUBNETS (pp_n_clients s) (pp_n_errors s) (pp_cns_default s) (pp_clients s) (pp_sns_default s)
                (pp_subnets s ++ map subnet_of cs)) rest.
Proof.
  induction cs as [|e cs IH]; intros s rest Hm Hok; [rewrite app_nil_r, <- Hm; by destruct s|].
  apply Forall_cons in Hok as [He Hok]. cbn [map app pf_lines]. unfold print_subnet at 1. pose proof He as (Hn & Hk & _).
  destruct (last_print_subnet (print_quad e.1.2) e.2 ltac:(lia)) as (c & Hc & Hc').
  rewrite (rule_line k s _ _ c) by (try done; pose proof (print_quad_length e.1.2); pose proof (print_dec_length e.2); zlia).
  unfold pf_rule_line. destruct (print_quad e.1.2 ++ 47 :: print_dec e.2) as [|x l] eqn:El; [by destruct (print_quad e.1.2)|].
  rewrite <- El, Hm, add_subnet_printed by done. rewrite IH by done. unfold pp_add_subnet. cbn. by rewrite <- app_assoc.
Qed.

Lemma tag_line k s (t : bool) :
  pf_line k s (cstr (if t then "[clients accept]" else "[clients drop]")) = PfNext (pp_section_clients s t) /\
  pf_line k s (cstr (if t then "[subnets accept]" else "[subnets drop]")) = PfNext (pp_section_subnets s t) /\
  pf_line k s (cstr "[end]") = PfDone s.
Proof. by destruct t. Qed.

Lemma pf_lines_printed k f : filter_ok f ->
  pf_lines k pp_start (print_filter f) =
  PfDone (mkpp MODE_SUBNETS (zlen (ft_clients f)) 0 (ft_cns_accept f) (ft_clients f) (ft_sns_accept f) (map subnet_of (ft_subnets f))).
Proof.
  intros (Hc & _ & _ & Hs). unfold print_filter. cbn [pf_lines]. destruct (tag_line k pp_start (ft_cns_accept f)) as [-> _].
  rewrite client_lines by done. cbn [pf_lines].
  match goal with |- context [pf_line k ?s _] => destruct (tag_line k s (ft_sns_accept f)) as (_ & -> & _) end.
  rewrite subnet_lines by done. cbn [pf_lines].
  match goal with |- context [pf_line k ?s (cstr "[end]")] => destruct (tag_line k s true) as (_ & _ & ->) end. done.
Qed.

(** The verdict of a filter on an address: that of the first network that has the
    address's prefix, else the default. *)
Definition text_verdict (f : filter_text) (addr : Z) : bool :=
  match list_find (fun e => prefix_of 32 e.2 addr = e.1.2) (ft_subnets f) with
  | Some (_, e) => negb e.1.1
  | None => ft_sns_accept f
  end.

Lemma text_verdict_spec f addr :
  is_u32 addr -> Forall subnet_ok (ft_subnets f) ->
  subnet_verdict (map subnet_of (ft_subnets f)) (ft_sns_accept f) addr = text_verdict f addr.
Proof.
  intros Ha Hok. unfold subnet_verdict, text_verdict. induction Hok as [|e l (Hn & Hk & _) _ IH]; [done|]. cbn [map list_find].
  destruct (decide (subnet_holds (subnet_of e) addr)) as [H|H], (decide (prefix_of 32 e.2 addr = e.1.2)) as [H'|H'];
    unfold subnet_holds, subnet_of in H; cbn [sn_netmask sn_network] in H; rewrite land_netmask in H by done; [done|done|done|].
  revert IH. by destruct (list_find _ (map _ l)) as [[]|], (list_find _ l) as [[]|].
Qed.

Lemma ipv4_value_u32 a : mroute_wf a -> is_u32 (ipv4_value a).
Proof.
  intros [Hl Hu]. unfold ipv4_value. destruct (_ && _); [|unfold is_u32; lia].
  pose proof (be_value_range (ztake 4 (raw_addr a)) ltac:(by apply Forall_take)) as H.
  assert (E : zlen (ztake 4 (raw_addr a)) = 4) by zlia. rewrite E in H. exact H.
Qed.

(** C40: filters do what their file says.  A filter written in the syntax of the file is read
    back as it was: the file is accepted, clients are let through by the rule for their name or else the default of
    its section, and addresses by the first network that holds them or else the default. *)
Theorem filter_file_means_its_rules (f : filter_text) (allow_kill : bool) :
  filter_ok f ->
  exists p, pf_init (Some (print_filter f)) allow_kill = Ret (Some p) /\
    (forall tm, exists p', pf_cn_test (Some p) tm =
       Ret (Some p', match client_name tm with Some cn => cn_verdict (ft_clients f) (ft_cns_accept f) cn | None => false end) /\
       same_rules p p') /\
    (forall pf a, pf_enabled pf = true -> pf_pfs pf = Some p -> mroute_wf a ->
       pf_addr_test pf a = Ret (text_verdict f (ipv4_value a))).
Proof.
  intros Hf. pose proof Hf as (_ & Hd & Hl & Hs). unfold pf_init. rewrite (pf_lines_printed _ f Hf). cbn [pp_n_errors pp_clients pp_n_clients pp_sns_default pp_subnets pp_cns_default Z.eqb].
  destruct (genhash_spec (ft_clients f) (zlen (ft_clients f)) Hl) as (h & st & -> & Hst & Hh). cbn [mbind outcome_mbind].
  apply Hst in Hd as ->. destruct (Hh eq_refl) as [Hr Hi]. eexists. split; [reflexivity|]. split.
  - intros tm. destruct (cn_test_spec (mkpfs false (ft_sns_accept f) (map subnet_of (ft_subnets f)) (ft_cns_accept f) (ft_clients f) (Some h)) tm)
      as (p' & E & _ & Hsame); [intros _; by exists h|]. by exists p'.
  - intros pf a He Hp Ha. rewrite (addr_test_spec pf a Ha). unfold addr_allowed. rewrite He, Hp. cbn [negb orb andb pfs_kill sns_list sns_default_allow].
    by rewrite text_verdict_spec by (done || by apply ipv4_value_u32).
Qed.

Definition w_filter : filter_text :=
  mkft false [mkpfcn false (cstr "alice"); mkpfcn true (cstr "bob")] true [(true, 0x0A000000, 8); (false, 0xC0A80100, 24)].

Definition w_pf_addr (a b c d : Z) : mroute_addr := mkma 4 MR_ADDR_IPV4 0 ([a; b; c; d] ++ replicate 16 0).

Lemma filter_file_means_its_rules_witness :
  print_filter w_filter = [cstr "[clients drop]"; cstr "+alice"; cstr "-bob"; cstr "[subnets accept]"; cstr "-10.0.0.0/8"; cstr "+192.168.1.0/24"; cstr "[end]"] /\
  exists p, pf_init (Some (print_filter w_filter)) false = Ret (Some p) /\
    pf_addr_test (mkpfc true (Some p) false 0 0 (mket false 0 0)) (w_pf_addr 10 8 0 1) = Ret false /\
    pf_addr_test (mkpfc true (Some p) false 0 0 (mket false 0 0)) (w_pf_addr 172 16 0 1) = Ret true.
Proof.
  split; [vm_compute; reflexivity|]. destruct (filter_file_means_its_rules w_filter false) as (p & H1 & _ & H2).
  - assert (Hn : forall s, s = cstr "alice" \/ s = cstr "bob" -> name_ok s).
    { intros s [-> | ->]; (split; [done|]; split; [vm_compute; discriminate|]; intros c Hc; vm_compute in Hc; injection Hc as <-; vm_compute;
        by intros Hin; repeat (apply elem_of_cons in Hin as [?|Hin]; [done|]); apply elem_of_nil in Hin). }
    split; [repeat constructor; apply Hn; auto|]. split; [|split; [vm_compute; discriminate|]].
    + cbn [ft_clients w_filter fmap list_fmap cn_name]. repeat constructor; intros Hin; repeat (apply elem_of_cons in Hin as [Hin|Hin]; [vm_compute in Hin; congruence|]);
        by apply elem_of_nil in Hin.
    + repeat constructor; unfold is_u32; cbn; lia.
  - exists p. split; [exact H1|]. assert (Hw : forall a b c d, Forall is_u8 [a; b; c; d] -> mroute_wf (w_pf_addr a b c d)).
    { intros a b c d Hu. split; [done|]. apply Forall_app. split; [done|]. repeat constructor; unfold is_u8; lia. }
    split; (rewrite (H2 (mkpfc true (Some p) false 0 0 (mket false 0 0)) _ eq_refl eq_refl) by (apply Hw; repeat constructor; unfold is_u8; lia); vm_compute; reflexivity).
Defined.
