(* ===== verification/Server.v ===== *)
(** * The server as a switch ([multi.c], [multi.h])

    What a server does with a packet once it is decrypted, and with a packet from its
    tunnel device: the source address must belong to the client that sent it, the
    destination decides whether it goes to the device, to another client or to all of
    them, and the packet filters of the clients concerned are asked.

    The state brings together the parts modelled in other files: the routes and instances
    ([Multi]), the queue of packets ([Mbuf]), the filters ([Pf]), and for every instance the
    context that [Forward] works on.  The instances are identified by their addresses in
    the heap of [Multi]; the members of [struct multi_instance] that the routing does not use
    are in [sv_clients], and can be reached as long as the instance is not freed.

    [multi_process_post] is left out (timers, the handshake and the end of a client on a
    signal).  A new packet in the queue gets an address that is not in use ([new_addr]).  How
    clients connect is in [Udp]. *)
From stdpp Require Import gmap.
From S2P Require Import Prelude Integer Buffer Hash Mroute Multi MultiSpec Otime Proto Mbuf MbufSpec Mtu LinkAddr SslCommon Comp Crypto Pf Forward.

#[global] Instance dev_type_eq_dec : EqDecision dev_type.
Proof. solve_decision. Defined.

(** ** The state *)

(** The members that watch for inactivity ([--inactive]). *)
Record inactivity : Type := mkinactive {
  inactivity_timeout : Z;
  inactivity_minimum_bytes : Z;
  inactivity_bytes : Z;
  inactivity_interval : event_timeout
}.

Record client : Type := mkclient {
  cl_context : context;
  cl_pf : pf_context;
  cl_real : mroute_addr;
  cl_did_real_hash : bool;
  cl_did_iter : bool;
  cl_n_clients_delta : Z;
  cl_inactivity : inactivity;
  cl_tcp_link_out_deferred : option mbuf_set
}.

#[export] Instance eta_client : Eta client := fun c =>
  mkclient (cl_context c) (cl_pf c) (cl_real c) (cl_did_real_hash c) (cl_did_iter c) (cl_n_clients_delta c) (cl_inactivity c) (cl_tcp_link_out_deferred c).

(** [sv_hash] and [sv_iter] are the tables of clients by their real addresses, [sv_instances] is
    the array of clients by their peer ids. *)
Record server : Type := mkserver {
  sv_multi : multi_context;
  sv_clients : gmap Z client;
  sv_hash : hash mroute_addr Z;
  sv_iter : hash mroute_addr Z;
  sv_instances : list (option Z);
  sv_mheap : gmap Z mbuf_buffer;
  sv_mbuf : mbuf_set;
  sv_pending : option Z;
  sv_earliest_wakeup : option Z;
  sv_n_clients : Z;
  sv_max_clients : Z;
  sv_enable_c2c : bool;
  sv_tunnel_type : dev_type;
  sv_tcp_queue_limit : Z
}.

#[export] Instance eta_server : Eta server := fun s =>
  mkserver (sv_multi s) (sv_clients s) (sv_hash s) (sv_iter s) (sv_instances s) (sv_mheap s) (sv_mbuf s) (sv_pending s)
    (sv_earliest_wakeup s) (sv_n_clients s) (sv_max_clients s) (sv_enable_c2c s) (sv_tunnel_type s) (sv_tcp_queue_limit s).

(** A client whose instance has not been freed. *)
Definition get_client (s : server) (mi : Z) : outcome client :=
  match inst_heap (sv_multi s) !! mi, sv_clients s !! mi with Some _, Some c => Ret c | _, _ => Oob end.

Definition put_client (s : server) (mi : Z) (c : client) : server := s <| sv_clients := <[mi := c]> (sv_clients s) |>.

Definition put_context (s : server) (mi : Z) (c : client) (ctx : context) : server :=
  put_client s mi (c <| cl_context := ctx |>).

(** ** Sending to clients *)

Definition multi_output_queue_ready (s : server) (c : client) : bool :=
  match cl_tcp_link_out_deferred c with
  | Some ms => mbuf_len ms <=? sv_tcp_queue_limit s
  | None => true
  end.

Definition multi_unicast (s : server) (buf : buffer) (mi : Z) : outcome server :=
  c ← get_client s mi;
  '(h, ms) ← Mbuf.multi_unicast (sv_mheap s) (sv_mbuf s) (new_addr (sv_mheap s)) (new_bytes buf) buf
               (multi_output_queue_ready s c) mi;
  Ret (s <| sv_mheap := h |> <| sv_mbuf := ms |>).

(** One side of the test: the filter of [mi] on the client with the TLS state [tm]. *)
Definition pf_side_test (s : server) (mi : Z) (tm : option tls_multi) : outcome (server * bool) :=
  c ← get_client s mi;
  '(pf, ok) ← pf_cn_side (cl_pf c) tm;
  Ret (put_client s mi (c <| cl_pf := pf |>), ok).

(** [pf_c2c_test] between two clients, which may be the same: both filters must agree. *)
Definition pf_c2c_test (s : server) (src dest : Z) : outcome (server * bool) :=
  cs ← get_client s src;
  cd ← get_client s dest;
  '(s, ok) ← pf_side_test s src (c2_tls_multi (cl_context cd));
  if ok : bool then pf_side_test s dest (c2_tls_multi (cl_context cs)) else Ret (s, false).

(** The tests of [multi_bcast] on the client [mi]; [sender_instance] and [sender_addr] may
    be null. *)
Definition bcast_to (s : server) (mi : Z) (sender_instance : option Z) (sender_addr : option mroute_addr)
  : outcome (server * bool) :=
  i ← get_inst (sv_multi s) mi;
  if bool_decide (Some mi = sender_instance) || halt i then Ret (s, false)
  else
    '(s, ok) ← match sender_instance with
               | Some sender => pf_c2c_test s sender mi
               | None => Ret (s, true)
               end;
    if ok : bool
    then
      match sender_addr with
      | Some addr =>
          c ← get_client s mi;
          ok ← pf_addr_test (cl_pf c) addr;
          Ret (s, ok)
      | None => Ret (s, true)
      end
    else Ret (s, false).

(** The body of the loop: [p] is the packet. *)
Definition bcast_body (p : Z) (sender_instance : option Z) (sender_addr : option mroute_addr)
    (s : server) (he : hash_element mroute_addr Z) : outcome (server * bool) :=
  let mi := value he in
  '(s, ok) ← bcast_to s mi sender_instance sender_addr;
  if ok : bool
  then
    c ← get_client s mi;
    '(h, ms) ← multi_add_mbuf (sv_mheap s) (sv_mbuf s) (multi_output_queue_ready s c) mi p;
    Ret (s <| sv_mheap := h |> <| sv_mbuf := ms |>, false)
  else Ret (s, false).

Definition multi_bcast (s : server) (buf : buffer) (sender_instance : option Z) (sender_addr : option mroute_addr)
  : outcome server :=
  if 0 <? buf_len buf
  then
    let p := new_addr (sv_mheap s) in
    h ← mbuf_alloc_buf (sv_mheap s) p (new_bytes buf) buf;
    hi ← hash_iterator_init (sv_iter s);
    '(s, iter, hi) ← hash_sweep (S (Z.to_nat (n_elements (sv_iter s)))) (bcast_body p sender_instance sender_addr)
                       (s <| sv_mheap := h |>) (sv_iter s) hi;
    '(iter, _) ← hash_iterator_free iter hi;
    h ← mbuf_free_buf (sv_mheap s) (Some p);
    Ret (s <| sv_iter := iter |> <| sv_mheap := h |>)
  else Ret s.

(** ** From a client *)

Definition register_activity (now : Z) (a : inactivity) (size : Z) : inactivity :=
  if negb (inactivity_timeout a =? 0)
  then
    let bytes := i32 (inactivity_bytes a + size) in
    if inactivity_minimum_bytes a <=? bytes
    then mkinactive (inactivity_timeout a) (inactivity_minimum_bytes a) 0 (event_timeout_reset now (inactivity_interval a))
    else mkinactive (inactivity_timeout a) (inactivity_minimum_bytes a) bytes (inactivity_interval a)
  else a.

(** [c->c2.to_tun.len = 0] *)
Definition drop_to_tun (s : server) (mi : Z) : outcome server :=
  c ← get_client s mi;
  let ctx := cl_context c in
  Ret (put_context s mi c (ctx <| c2_to_tun := set_len (c2_to_tun ctx) 0 |>)).

(** The packet goes to another client, if the filters agree; it is not written to the device
    in any case. *)
Definition client_to_client (now : Z) (s : server) (pending mi : Z) : outcome server :=
  '(s, ok) ← pf_c2c_test s pending mi;
  s ← (if ok : bool
       then
         c ← get_client s pending;
         let to_tun := c2_to_tun (cl_context c) in
         s ← multi_unicast s to_tun mi;
         c ← get_client s pending;
         Ret (put_client s pending (c <| cl_inactivity := register_activity now (cl_inactivity c) (buf_len to_tun) |>))
       else Ret s);
  drop_to_tun s pending.

(** The last test: the packet goes to the device if the client's filter admits [dest]. *)
Definition to_tun_filter (s : server) (pending : Z) (dest : mroute_addr) : outcome server :=
  c ← get_client s pending;
  if negb (len (c2_to_tun (cl_context c)) =? 0)
  then
    ok ← pf_addr_test (cl_pf c) dest;
    if ok : bool then Ret s else drop_to_tun s pending
  else Ret s.

Section Routing.
Context (now : Z) (learn_address_script : option Z -> learn_op -> mroute_addr -> bool).

(** The lookup changes the routes of the server only. *)
Definition find_instance (s : server) (addr : mroute_addr) (cidr_routing : bool) : outcome (server * option Z) :=
  '(m, mi) ← multi_get_instance_by_virtual_addr now learn_address_script (sv_multi s) addr cidr_routing;
  Ret (s <| sv_multi := m |>, mi).

(** The part of [multi_process_incoming_link] for tun devices, behind the decryption. *)
Definition switch_from_client_tun (s : server) (pending : Z) : outcome server :=
  c ← get_client s pending;
  let to_tun := c2_to_tun (cl_context c) in
  '(flags, src, dest) ← mroute_extract_addr_ip (Some mroute_addr_init) (Some mroute_addr_init) to_tun;
  src ← must src;
  dest ← must dest;
  s ← (if negb (any_of flags MROUTE_EXTRACT_SUCCEEDED) then drop_to_tun s pending
       else
         '(s, mi) ← find_instance s src true;
         if negb (bool_decide (mi = Some pending)) then drop_to_tun s pending
         else if sv_enable_c2c s
         then
           if any_of flags MROUTE_EXTRACT_MCAST then multi_bcast s to_tun (Some pending) None
           else
             _ ← c_assert (negb (any_of flags MROUTE_EXTRACT_BCAST));
             '(s, mi) ← find_instance s dest true;
             match mi with
             | Some mi => client_to_client now s pending mi
             | None => Ret s
             end
         else Ret s);
  to_tun_filter s pending dest.

(** The part for tap devices. *)
Definition switch_from_client_tap (s : server) (pending : Z) : outcome server :=
  c ← get_client s pending;
  let to_tun := c2_to_tun (cl_context c) in
  '((flags, src, dest), (_, edest)) ←
     mroute_extract_addr_ether (Some mroute_addr_init) (Some mroute_addr_init) None
       (Some (mroute_addr_reset mroute_addr_init)) to_tun;
  src ← must src;
  dest ← must dest;
  edest ← must edest;
  if any_of flags MROUTE_EXTRACT_SUCCEEDED
  then
    '(m, owner) ← multi_learn_addr now learn_address_script (sv_multi s) pending src 0;
    let s := s <| sv_multi := m |> in
    if bool_decide (owner = Some pending)
    then
      s ← (if sv_enable_c2c s
           then
             if any_of flags (Z.lor MROUTE_EXTRACT_BCAST MROUTE_EXTRACT_MCAST)
             then multi_bcast s to_tun (Some pending) None
             else
               '(s, mi) ← find_instance s dest false;
               match mi with
               | Some mi => client_to_client now s pending mi
               | None => Ret s
               end
           else Ret s);
      to_tun_filter s pending edest
    else drop_to_tun s pending
  else drop_to_tun s pending.

Definition switch_from_client (s : server) (pending : Z) : outcome server :=
  match sv_tunnel_type s with
  | DEV_TYPE_TUN => switch_from_client_tun s pending
  | DEV_TYPE_TAP => switch_from_client_tap s pending
  | _ => Ret s
  end.
End Routing.

(** ** The events of the server *)

Section Events.
Context (lib : comp_lib).
Context (now : Z) (learn_address_script : option Z -> learn_op -> mroute_addr -> bool).

(** The packet [buf] from the device, as far as [multi_process_post]: it goes to all clients,
    or is encrypted for the one that has the destination address. *)
Definition multi_process_incoming_tun (prng : list Z) (moved : bool) (s : server) (buf : buffer) : outcome server :=
  if 0 <? buf_len buf
  then
    match sv_pending s with
    | Some _ => Ret s
    | None =>
        let ini := Some mroute_addr_init in
        '(flags, src, dest, e2) ←
           match sv_tunnel_type s with
           | DEV_TYPE_TUN => '(flags, src, dest) ← mroute_extract_addr_ip ini ini buf; Ret (flags, src, dest, src)
           | DEV_TYPE_TAP =>
               '((flags, src, dest), (esrc, _)) ←
                  mroute_extract_addr_ether ini ini (Some (mroute_addr_reset mroute_addr_init)) None buf;
               Ret (flags, src, dest, esrc)
           | _ => Ret (0, ini, ini, Some (mroute_addr_reset mroute_addr_init))
           end;
        dest ← must dest;
        e2 ← must e2;
        if any_of flags MROUTE_EXTRACT_SUCCEEDED
        then
          if any_of flags (Z.lor MROUTE_EXTRACT_BCAST MROUTE_EXTRACT_MCAST) then multi_bcast s buf None (Some e2)
          else
            '(s, mi) ← find_instance now learn_address_script s dest (bool_decide (sv_tunnel_type s = DEV_TYPE_TUN));
            let s := s <| sv_pending := mi |> in
            match mi with
            | Some mi =>
                c ← get_client s mi;
                ok ← pf_addr_test (cl_pf c) e2;
                let ctx := cl_context c in
                let ctx := ctx <| c2_buf := (if ok && multi_output_queue_ready s c then buf else buf_reset_len (c2_buf ctx)) |> in
                ctx ← process_incoming_tun lib now prng moved ctx;
                Ret (put_context s mi c ctx)
            | None => Ret s
            end
        else Ret s
    end
  else Ret s.

(** The object a packet of the queue lies in is shared by all its receivers.  What the
    compression of [encrypt_sign] leaves in it: the stages that work in place change it, the
    compressors that succeed write elsewhere.  (The headers that are put in front later lie
    outside of the packet.) *)
Definition object_left (ctx : context) : outcome (option (list Z)) :=
  let buf := c2_buf ctx in
  match c2_comp_context ctx with
  | Some cc =>
      if negb (c2_context_auth ctx) || (len buf <=? 0) then Ret (data buf)
      else
        '(_, r) ← match cc_alg cc with
                  | lzo_alg => lzo_try lib now cc buf (c2_compress_buf ctx) (c2_frame ctx)
                  | lz4_alg | lz4v2_alg => do_lz4_compress lib cc buf (c2_compress_buf ctx) (c2_frame ctx)
                  | comp_stub_alg | compv2_stub_alg => Ret (cc, NotTried)
                  end;
        let elsewhere := match r with
                         | Compressed work =>
                             len work + (if bool_decide (cc_alg cc = lz4v2_alg) then 2 else 0) <? len buf
                         | _ => false
                         end in
        if elsewhere : bool then Ret (data buf)
        else '(_, buf) ← compress lib now cc buf (c2_compress_buf ctx) (c2_frame ctx); Ret (data buf)
  | None => Ret (data buf)
  end.

Definition set_data (b : buffer) (d : option (list Z)) : buffer := mkbuffer (capacity b) (offset b) (len b) d.

(** The next packet of the queue is encrypted for its client, which is returned. *)
Definition multi_get_queue (prng : list Z) (moved : bool) (s : server) : outcome (server * option Z) :=
  '(ms, r) ← mbuf_extract_item (sv_mbuf s);
  let s := s <| sv_mbuf := ms |> in
  match r with
  | None => Ret (s, None)
  | Some item =>
      match mi_buffer item, mi_instance item with
      | Some p, Some mi =>
          match sv_mheap s !! p with
          | None => Oob
          | Some b =>
              c ← get_client s mi;
              let pip_flags := Z.lor (Z.lor PIPV4_PASSTOS PIPV6_IMCP_NOHOST_SERVER)
                                 (if any_of (mb_flags b) MF_UNICAST then PIP_MSSFIX else 0) in
              let ctx := cl_context c <| c2_buf := mb_buf b |> in
              '(ctx, buf) ← process_ip_header ctx pip_flags (c2_buf ctx);
              let ctx := ctx <| c2_buf := buf |> in
              object ← object_left ctx;
              ctx ← encrypt_sign lib now prng moved ctx true;
              let s := put_context s mi c ctx in
              let h := <[p := mkmb (set_data (mb_buf b) object) (mb_refcount b) (mb_flags b)]> (sv_mheap s) in
              h ← mbuf_free_buf h (Some p);
              Ret (s <| sv_mheap := h |>, Some mi)
          end
      | _, _ => Oob
      end
  end.
End Events.

(** ** Opening and closing instances *)

Definition MAX_PEER_ID : Z := 0xFFFFFF.

(** An entry of a table that is there, or an assertion fails. *)
Definition table_remove (h : hash mroute_addr Z) (entered : bool) (k : mroute_addr) : outcome (hash mroute_addr Z) :=
  if entered then '(h, ok) ← hash_remove h k; _ ← c_assert ok; Ret h else Ret h.

(** [multi_close_instance] of a server that goes on.  The parts of the state are independent
    of each other, so the routes are closed in one step ([close_instance]).  The entries in the
    schedule, the address pool and the tables of the management interface and of TCP sockets
    are not part of this state; neither are the script and the memory of the context. *)
Definition multi_close_instance (s : server) (mi : Z) : outcome server :=
  c ← get_client s mi;
  m ← close_instance (sv_multi s) mi;
  let s := put_client s mi (c <| cl_n_clients_delta := 0 |>) <| sv_n_clients := i32 (sv_n_clients s + cl_n_clients_delta c) |> in
  let s := s <| sv_pending := (if bool_decide (sv_pending s = Some mi) then None else sv_pending s) |> in
  let s := s <| sv_earliest_wakeup := (if bool_decide (sv_earliest_wakeup s = Some mi) then None else sv_earliest_wakeup s) |> in
  hash ← table_remove (sv_hash s) (cl_did_real_hash c) (cl_real c);
  iter ← table_remove (sv_iter s) (cl_did_iter c) (cl_real c);
  tm ← must (c2_tls_multi (cl_context c));
  insts ← (if negb (m_peer_id tm =? MAX_PEER_ID) then array_set (sv_instances s) (m_peer_id tm) None else Ret (sv_instances s));
  '(h, ms) ← mbuf_dereference_instance (sv_mheap s) (sv_mbuf s) mi;
  Ret (s <| sv_hash := hash |> <| sv_iter := iter |> <| sv_instances := insts |> <| sv_multi := m |> <| sv_mheap := h |> <| sv_mbuf := ms |>).

(** [multi_create_instance], with the instance and the context that [inherit_context_child]
    (and [multi_tcp_instance_specific_init]) set up, as far as [multi_process_post]: it is entered
    in the table [iter] under its real address, or closed again. *)
Definition multi_create_instance (s : server) (mi : Z) (i : multi_instance) (c : client) : outcome (server * option Z) :=
  let s := put_client s mi c <| sv_multi := set_insts (sv_multi s) (<[mi := i]> (inst_heap (sv_multi s))) |> in
  let err s := s ← multi_close_instance s mi; Ret (s, None) in
  match c2_signal (cl_context c) with
  | Some _ => err s
  | None =>
      let c := c <| cl_context := cl_context c <| c2_context_auth := false |> |> in
      let s := put_client s mi c in
      if sv_max_clients s <=? n_elements (sv_hash s) then err s
      else
        '(iter, ok) ← hash_add (sv_iter s) (cl_real c) mi false;
        let s := s <| sv_iter := iter |> in
        if ok : bool then Ret (put_client s mi (c <| cl_did_iter := true |>), Some mi) else err s
  end.
