(* ===== verification/ServerSpec.v ===== *)
(** * Theorems on the server as a switch

    What the switch does with a packet of a client, in a state where every connected client has
    its context and its filter is well formed: packets with a source address that is not the
    client's are dropped, and the others go where the routes and the filters say ([fate]).
    That all reachable states are of this kind is shown in [ServerInvariant]. *)
From stdpp Require Import gmap.
From S2P Require Import Prelude Integer Buffer Hash HashSpec Mroute MrouteSpec Multi MultiSpec Otime Proto Mbuf MbufSpec Mtu LinkAddr.
From S2P Require Import SslCommon Auth Comp CompSpec Crypto CryptoSpec Pf PfSpec Forward Server.

(** The members of a state that was updated. *)
Ltac sv_reduce t := let r := eval cbn in t in progress change t with r.
Ltac sv_simpl :=
  repeat match goal with
  | |- context [sv_multi ?t] => sv_reduce (sv_multi t)
  | |- context [sv_clients ?t] => sv_reduce (sv_clients t)
  | |- context [sv_hash ?t] => sv_reduce (sv_hash t)
  | |- context [sv_iter ?t] => sv_reduce (sv_iter t)
  | |- context [sv_instances ?t] => sv_reduce (sv_instances t)
  | |- context [sv_mheap ?t] => sv_reduce (sv_mheap t)
  | |- context [sv_mbuf ?t] => sv_reduce (sv_mbuf t)
  | |- context [sv_pending ?t] => sv_reduce (sv_pending t)
  | |- context [sv_earliest_wakeup ?t] => sv_reduce (sv_earliest_wakeup t)
  | |- context [sv_max_clients ?t] => sv_reduce (sv_max_clients t)
  | |- context [sv_enable_c2c ?t] => sv_reduce (sv_enable_c2c t)
  | |- context [sv_tunnel_type ?t] => sv_reduce (sv_tunnel_type t)
  end.

(** ** Clients up to the order of their filters' tables *)

Definition same_client (c c' : client) : Prop :=
  cl_context c' = cl_context c /\ same_filter (cl_pf c) (cl_pf c') /\ cl_real c' = cl_real c /\ cl_did_iter c' = cl_did_iter c /\
  cl_did_real_hash c' = cl_did_real_hash c /\ cl_tcp_link_out_deferred c' = cl_tcp_link_out_deferred c.

#[export] Instance same_client_equiv : Equivalence same_client.
Proof.
  split; unfold same_client; red.
  - intros c. by split_and!.
  - intros c c' (E1 & E2 & E3 & E4 & E5 & E6). split_and!; [congruence|by symmetry|congruence..].
  - intros c1 c2 c3 (E1 & E2 & E3 & E4 & E5 & E6) (F1 & F2 & F3 & F4 & F5 & F6). split_and!; [congruence|by etrans|congruence..].
Qed.

Definition same_clients (M M' : gmap Z client) : Prop := forall mi, option_Forall2 same_client (M !! mi) (M' !! mi).

#[export] Instance same_clients_equiv : Equivalence same_clients.
Proof.
  split; unfold same_clients; red.
  - done.
  - intros M M' H mi. symmetry. apply H.
  - intros M1 M2 M3 H1 H2 mi. etrans; [apply H1|apply H2].
Qed.

Lemma same_clients_insert M mi c c' : M !! mi = Some c -> same_client c c' -> same_clients M (<[mi := c']> M).
Proof.
  intros Hc Hs x. destruct (decide (x = mi)) as [->|Hne]; [rewrite lookup_insert_eq, Hc; by constructor|by rewrite lookup_insert_ne].
Qed.

Lemma same_clients_lookup M M' mi c : same_clients M M' -> M !! mi = Some c -> exists c', M' !! mi = Some c' /\ same_client c c'.
Proof. intros H Hc. specialize (H mi). rewrite Hc in H. inversion H as [? c' Hs E1 E2|]; subst. by exists c'. Qed.

(** ** What the filters say *)

(** Both filters let packets of the one through to the other. *)
Definition c2c_allowed (M : gmap Z client) (a b : Z) : bool :=
  match M !! a, M !! b with
  | Some ca, Some cb =>
      side_allowed (cl_pf ca) (c2_tls_multi (cl_context cb)) && side_allowed (cl_pf cb) (c2_tls_multi (cl_context ca))
  | _, _ => false
  end.

#[export] Instance c2c_allowed_proper : Proper (same_clients ==> eq ==> eq ==> eq) c2c_allowed.
Proof.
  intros M M' H a ? <- b ? <-. unfold c2c_allowed. destruct (H a) as [ca ca' (Ea & Fa & _)|]; [|done].
  destruct (H b) as [cb cb' (Eb & Fb & _)|]; [|done]. by rewrite Ea, Eb, Fa, Fb.
Qed.

Definition client_admits (M : gmap Z client) (mi : Z) (a : mroute_addr) : bool :=
  match M !! mi with Some c => addr_allowed (cl_pf c) a | None => false end.

#[export] Instance client_admits_proper : Proper (same_clients ==> eq ==> eq ==> eq) client_admits.
Proof. intros M M' H mi ? <- a ? <-. unfold client_admits. destruct (H mi) as [c c' (_ & F & _)|]; [|done]. by rewrite F. Qed.

(** The receivers of a broadcast. *)
Definition bcast_allowed (M : gmap Z client) (sender : option Z) (addr : option mroute_addr) (mi : Z) : bool :=
  negb (bool_decide (Some mi = sender)) && match sender with Some x => c2c_allowed M x mi | None => true end &&
  match addr with Some a => client_admits M mi a | None => true end.

#[export] Instance bcast_allowed_proper : Proper (same_clients ==> eq ==> eq ==> eq ==> eq) bcast_allowed.
Proof.
  intros M M' H sender ? <- addr ? <- mi ? <-. unfold bcast_allowed.
  destruct sender, addr; repeat first [rewrite (c2c_allowed_proper M M' H _ _ eq_refl _ _ eq_refl) | rewrite (client_admits_proper M M' H _ _ eq_refl _ _ eq_refl)]; done.
Qed.

(** Whether packets can be queued for a client. *)
Definition client_ready (s : server) (mi : Z) : bool :=
  match sv_clients s !! mi with Some c => multi_output_queue_ready s c | None => false end.

(** ** The tests *)

Definition filters_wf (M : gmap Z client) : Prop := forall mi c, M !! mi = Some c -> filter_wf (cl_pf c).

(** Every connected client has its context, and all filters are well formed. *)
Definition clients_ok (s : server) : Prop :=
  (forall mi, conn (sv_multi s) mi -> is_Some (sv_clients s !! mi)) /\ filters_wf (sv_clients s).

(** The state after tests: tables were reordered at most. *)
Definition tested (s s' : server) : Prop :=
  exists M', s' = s <| sv_clients := M' |> /\ same_clients (sv_clients s) M' /\ filters_wf M'.

Lemma tested_refl s : filters_wf (sv_clients s) -> tested s s.
Proof. intros H. exists (sv_clients s). split; [by destruct s|done]. Qed.

Lemma tested_trans s1 s2 s3 : tested s1 s2 -> tested s2 s3 -> tested s1 s3.
Proof. intros (M2 & -> & H2 & _) (M3 & -> & H3 & W3). exists M3. split; [done|]. cbn in H3. split; [by etrans|done]. Qed.

Lemma tested_ok s s' : clients_ok s -> tested s s' -> clients_ok s'.
Proof.
  intros [H1 H2] (M' & -> & Hs & Hw). split; [|done]. cbn. intros mi Hc. destruct (H1 mi Hc) as [c E].
  destruct (same_clients_lookup _ _ _ _ Hs E) as (c' & -> & _). done.
Qed.

Lemma get_client_spec s mi : clients_ok s -> conn (sv_multi s) mi -> exists c, sv_clients s !! mi = Some c /\ get_client s mi = Ret c.
Proof. intros [H _] (i & Hi & Hh). destruct (H mi) as [c Hc]; [by exists i|]. exists c. split; [done|]. unfold get_client. by rewrite Hi, Hc. Qed.

Lemma side_test_spec s mi c tm :
  clients_ok s -> conn (sv_multi s) mi -> sv_clients s !! mi = Some c ->
  exists s', pf_side_test s mi tm = Ret (s', side_allowed (cl_pf c) tm) /\ tested s s'.
Proof.
  intros Hok Hc E. destruct (get_client_spec s mi Hok Hc) as (c0 & E0 & Hg). rewrite E in E0. injection E0 as <-.
  unfold pf_side_test. rewrite Hg. cbn [mbind outcome_mbind]. pose proof Hok as [_ Hw].
  destruct (cn_side_spec (cl_pf c) tm (Hw mi c E)) as (pf & -> & Hwf & Hs). cbn [mbind outcome_mbind]. eexists. split; [reflexivity|].
  exists (<[mi := c <| cl_pf := pf |>]> (sv_clients s)). split; [done|]. split.
  - by apply (same_clients_insert _ _ c); [|split_and!].
  - intros x cx Hx. destruct (decide (x = mi)) as [->|Hne]; [rewrite lookup_insert_eq in Hx; by injection Hx as <-|].
    rewrite lookup_insert_ne in Hx by done. by eapply Hw.
Qed.

Lemma c2c_test_spec s a b :
  clients_ok s -> conn (sv_multi s) a -> conn (sv_multi s) b ->
  exists s', pf_c2c_test s a b = Ret (s', c2c_allowed (sv_clients s) a b) /\ tested s s'.
Proof.
  intros Hok Ha Hb. destruct (get_client_spec s a Hok Ha) as (ca & Ea & Ga). destruct (get_client_spec s b Hok Hb) as (cb & Eb & Gb).
  unfold pf_c2c_test, c2c_allowed. rewrite Ga, Gb, Ea, Eb. cbn [mbind outcome_mbind].
  destruct (side_test_spec s a ca (c2_tls_multi (cl_context cb)) Hok Ha Ea) as (s1 & -> & T1). cbn [mbind outcome_mbind].
  destruct (side_allowed (cl_pf ca) _); cbn [andb]; [|by exists s1]. pose proof (tested_ok _ _ Hok T1) as Hok1. pose proof T1 as (M1 & -> & HM1 & _).
  destruct (same_clients_lookup _ _ _ _ HM1 Eb) as (cb' & Eb' & (_ & Fb & _)).
  destruct (side_test_spec (s <| sv_clients := M1 |>) b cb' (c2_tls_multi (cl_context ca)) Hok1 Hb Eb') as (s2 & E2 & T2).
  exists s2. rewrite Fb. split; [done|]. by eapply tested_trans.
Qed.

Lemma bcast_to_spec s mi sender addr :
  clients_ok s -> conn (sv_multi s) mi -> (forall x, sender = Some x -> conn (sv_multi s) x) -> (forall a, addr = Some a -> mroute_wf a) ->
  exists s', bcast_to s mi sender addr = Ret (s', bcast_allowed (sv_clients s) sender addr mi) /\ tested s s'.
Proof.
  intros Hok Hc Hs Ha. pose proof Hc as (i & Hi & Hh). unfold bcast_to, bcast_allowed, get_inst. rewrite Hi. cbn [mbind outcome_mbind]. rewrite Hh, orb_false_r.
  destruct (bool_decide (Some mi = sender)); cbn [negb andb]; [exists s; split; [done|apply tested_refl, Hok]|].
  assert (H1 : exists s', match sender with Some x => pf_c2c_test s x mi | None => Ret (s, true) end =
    Ret (s', match sender with Some x => c2c_allowed (sv_clients s) x mi | None => true end) /\ tested s s').
  { destruct sender as [x|]; [by apply c2c_test_spec; auto|]. exists s. split; [done|apply tested_refl, Hok]. }
  destruct H1 as (s1 & -> & T1). cbn [mbind outcome_mbind]. destruct (match sender with Some _ => _ | None => _ end); cbn [andb]; [|by exists s1].
  destruct addr as [a|]; [|by exists s1]. pose proof (tested_ok _ _ Hok T1) as Hok1. pose proof T1 as (M1 & -> & HM1 & _).
  destruct (get_client_spec _ mi Hok1 Hc) as (c & Ec & ->). cbn [mbind outcome_mbind]. rewrite (addr_test_spec _ a (Ha a eq_refl)). cbn [mbind outcome_mbind].
  eexists. split; [|exact T1]. do 2 f_equal. rewrite (client_admits_proper _ _ HM1 mi mi eq_refl a a eq_refl). unfold client_admits. cbn in Ec. by rewrite Ec.
Qed.

(** ** The queue *)

(** The queue holds [q]; [refs] are packets in use elsewhere. *)
Definition queue_is (s : server) (k : Z) (refs : list Z) (q : squeue) : Prop :=
  exists l, holds (sv_mheap s) (sv_mbuf s) k l refs /\ abs (sv_mheap s) l = q.

(** The queue is not full, or has an entry that can be dropped. *)
Definition room {A} (cap : Z) (q : list (option A)) : Prop := zlen q <> cap \/ drop_dead q <> [].

Lemma drop_dead_live {A} (q : list (option A)) x : drop_dead (q ++ [Some x]) <> [].
Proof. induction q as [|[y|] q IH]; cbn; done. Qed.

Lemma spec_send_room cap q x f t : room cap q -> exists q', spec_send cap q x f t = Some q' /\ room cap q'.
Proof.
  unfold spec_send, spec_add. intros Hr. destruct t.2; [|by exists q]. destruct (zlen q =? cap) eqn:E; breflect.
  - destruct Hr as [Hr|Hr]; [done|]. destruct (drop_dead q) as [|y q']; [done|]. eexists. split; [done|]. right. apply drop_dead_live.
  - eexists. split; [done|]. right. apply drop_dead_live.
Qed.

Lemma spec_send_all_app cap q x f ts1 ts2 :
  spec_send_all cap q x f (ts1 ++ ts2) = q' ← spec_send_all cap q x f ts1; spec_send_all cap q' x f ts2.
Proof. revert q. induction ts1 as [|t ts1 IH]; intros q; cbn [spec_send_all app]; [done|]. destruct (spec_send cap q x f t); cbn [mbind option_bind]; [apply IH|done]. Qed.

(** The clients that have packets in the queue. *)
Definition queued_for (q : squeue) (mi : Z) : Prop := exists x, Some (x, mi) ∈ q.

Lemma drop_dead_tail {A} (q : list (option A)) x : x ∈ tail (drop_dead q) -> x ∈ q.
Proof. induction q as [|[y|] q IH]; cbn; [done|intros H; by right|intros H; right; by apply IH]. Qed.

Lemma drop_dead_sub {A} (q : list (option A)) x : x ∈ drop_dead q -> x ∈ q.
Proof. induction q as [|[y|] q IH]; cbn; [done|done|intros H; right; by apply IH]. Qed.

Lemma spec_send_for cap q x f t q' mi : spec_send cap q x f t = Some q' -> queued_for q' mi -> queued_for q mi \/ mi = t.1.
Proof.
  unfold spec_send, spec_add. destruct t as [m r]. cbn [fst snd]. destruct r; [|intros [= <-]; by left].
  assert (H1 : forall q0, (forall y, y ∈ q0 -> y ∈ q) -> queued_for (q0 ++ [Some (x, f, m)]) mi -> queued_for q mi \/ mi = m).
  { intros q0 H0 (y & [Hy|Hy]%elem_of_app); [left; exists y; by apply H0|]. apply list_elem_of_singleton in Hy. injection Hy as _ ->. by right. }
  destruct (zlen q =? cap); [|intros [= <-]; by apply H1].
  destruct (drop_dead q) as [|y q0] eqn:E; [done|]. intros [= <-]. apply H1. intros z Hz. apply drop_dead_tail. by rewrite E.
Qed.

Lemma spec_send_all_for cap x f ts : forall q q' mi, spec_send_all cap q x f ts = Some q' -> queued_for q' mi -> queued_for q mi \/ mi ∈ ts.*1.
Proof.
  induction ts as [|t ts IH]; intros q q' mi; cbn [spec_send_all]; [intros [= <-]; by left|].
  destruct (spec_send cap q x f t) as [q1|] eqn:E; cbn [mbind option_bind]; [|done]. intros H Hq. rewrite fmap_cons, elem_of_cons.
  destruct (IH q1 q' mi H Hq) as [H1|H1]; [|tauto]. destruct (spec_send_for _ _ _ _ _ _ _ E H1); tauto.
Qed.

(** ** Sending *)

(** The state after packets were queued: the queue changed, and filters' tables. *)
Definition sent (s s' : server) : Prop :=
  exists M' h ms, s' = s <| sv_clients := M' |> <| sv_mheap := h |> <| sv_mbuf := ms |> /\ same_clients (sv_clients s) M' /\ filters_wf M'.

Lemma sent_refl s : filters_wf (sv_clients s) -> sent s s.
Proof. intros H. exists (sv_clients s), (sv_mheap s), (sv_mbuf s). split; [by destruct s|done]. Qed.

Lemma sent_trans s1 s2 s3 : sent s1 s2 -> sent s2 s3 -> sent s1 s3.
Proof.
  intros (M2 & h2 & ms2 & -> & H2 & _) (M3 & h3 & ms3 & -> & H3 & W3). exists M3, h3, ms3. split; [done|]. split; [|done]. etrans; [exact H2|exact H3].
Qed.

Lemma tested_sent s s' : tested s s' -> sent s s'.
Proof. intros (M' & -> & H & W). exists M', (sv_mheap s), (sv_mbuf s). split; [by destruct s|done]. Qed.

Lemma sent_ok s s' : clients_ok s -> sent s s' -> clients_ok s'.
Proof.
  intros Hok (M' & h & ms & -> & Hs & Hw). pose proof (tested_ok s (s <| sv_clients := M' |>) Hok) as H. apply H. by exists M'.
Qed.

Lemma sent_ready s s' mi : sent s s' -> client_ready s' mi = client_ready s mi.
Proof.
  intros (M' & h & ms & -> & Hs & _). unfold client_ready. cbn. destruct (Hs mi) as [c c' (_ & _ & _ & _ & _ & E)|]; [|done].
  unfold multi_output_queue_ready. by rewrite E.
Qed.

Lemma sent_allowed s s' sender addr mi : sent s s' -> bcast_allowed (sv_clients s') sender addr mi = bcast_allowed (sv_clients s) sender addr mi.
Proof. intros (M' & h & ms & -> & Hs & _). symmetry. by apply bcast_allowed_proper. Qed.

(** What the loop of a broadcast needs. *)
Definition bcast_ready (s : server) (sender : option Z) (addr : option mroute_addr) : Prop :=
  clients_ok s /\ (forall x, sender = Some x -> conn (sv_multi s) x) /\ (forall a, addr = Some a -> mroute_wf a).

Lemma bcast_ready_sent s s' sender addr : bcast_ready s sender addr -> sent s s' -> bcast_ready s' sender addr.
Proof. intros (H1 & H2 & H3) Hs. split; [by eapply sent_ok|]. destruct Hs as (M' & h & ms & -> & _). done. Qed.

Lemma bcast_body_spec p sender addr s he k q x f :
  bcast_ready s sender addr -> conn (sv_multi s) (value he) -> queue_is s k [p] q -> pkt_of (sv_mheap s) p = (x, f) -> room (2 ^ k) q ->
  exists s' q', bcast_body p sender addr s he = Ret (s', false) /\
    (if bcast_allowed (sv_clients s) sender addr (value he) then spec_send (2 ^ k) q x f (value he, client_ready s (value he)) else Some q) = Some q' /\
    room (2 ^ k) q' /\ queue_is s' k [p] q' /\ pkt_of (sv_mheap s') p = (x, f) /\ sent s s'.
Proof.
  intros Hb Hc Hq Hp Hr. pose proof Hb as (Hok & Hs & Ha). unfold bcast_body. cbv zeta.
  destruct (bcast_to_spec s (value he) sender addr Hok Hc Hs Ha) as (s1 & -> & T1). cbn [mbind outcome_mbind].
  destruct (bcast_allowed _ _ _ _); [|exists s1, q; pose proof T1 as (M1 & -> & _); split_and!; try done; by apply tested_sent].
  pose proof (tested_ok _ _ Hok T1) as Hok1. pose proof (sent_ready _ _ (value he) (tested_sent _ _ T1)) as Er. pose proof T1 as (M1 & -> & HM & HW).
  destruct (get_client_spec _ (value he) Hok1 Hc) as (c & Ec & ->). cbn [mbind outcome_mbind]. unfold client_ready at 1 in Er. rewrite Ec in Er. rewrite Er.
  destruct Hq as (l & Hh & <-). pose proof (multi_add_mbuf_spec _ _ _ _ _ p (value he, client_ready s (value he)) Hh ltac:(left)) as Hadd.
  rewrite Hp in Hadd. cbn [fst snd] in Hadd. destruct (spec_send_room (2 ^ k) (abs (sv_mheap s) l) x f (value he, client_ready s (value he)) Hr) as (q' & E & Hr').
  rewrite E in Hadd. destruct Hadd as (h' & ms' & l' & Hrun & Hh' & Hab & Hsame). sv_simpl. rewrite Hrun. cbn [mbind outcome_mbind].
  eexists _, q'. split; [reflexivity|]. split; [done|]. split; [done|]. split; [by exists l'|]. split.
  - cbn. rewrite <- Hp. apply Hsame. left.
  - by exists M1, h', ms'.
Qed.

(** The receivers of a broadcast, in the order of the table. *)
Definition bcast_targets (s : server) (sender : option Z) (addr : option mroute_addr) (l : list (hash_element mroute_addr Z)) : list (Z * bool) :=
  (fun mi => (mi, client_ready s mi)) <$> filter (fun mi => bcast_allowed (sv_clients s) sender addr mi = true) (value <$> l).

Definition all_clients (s : server) : list (hash_element mroute_addr Z) := concat (buckets (sv_iter s)).

(** The table of clients holds connected ones. *)
Definition iter_ok (s : server) : Prop :=
  hash_wf (sv_iter s) /\ Forall (fun he => conn (sv_multi s) (value he)) (all_clients s).

(** The state of the loop: [don] is done, [l] is to come. *)
Definition bcast_loop_inv s0 p sender addr k q x f (s : server) (l : list (hash_element mroute_addr Z)) : Prop :=
  exists don q', all_clients s0 = don ++ l /\ sent s0 s /\
    spec_send_all (2 ^ k) q x f (bcast_targets s0 sender addr don) = Some q' /\ room (2 ^ k) q' /\
    queue_is s k [p] q' /\ pkt_of (sv_mheap s) p = (x, f).

Lemma bcast_loop_step s0 p sender addr k q x f s he l :
  bcast_ready s0 sender addr -> iter_ok s0 -> bcast_loop_inv s0 p sender addr k q x f s (he :: l) ->
  exists s', bcast_body p sender addr s he = Ret (s', false) /\ bcast_loop_inv s0 p sender addr k q x f s' l.
Proof.
  intros Hb [_ Hc] (don & q1 & El & Hs & Hq1 & Hr1 & Hqi & Hp). rewrite El in Hc. apply Forall_app in Hc as [_ [Hc _]%Forall_cons].
  assert (Hc' : conn (sv_multi s) (value he)) by (destruct Hs as (M' & h & ms & -> & _); done).
  destruct (bcast_body_spec p sender addr s he k q1 x f (bcast_ready_sent _ _ _ _ Hb Hs) Hc' Hqi Hp Hr1) as (s' & q2 & Hrun & E & Hr2 & Hqi2 & Hp2 & Hs2).
  exists s'. split; [done|]. exists (don ++ [he]), q2. split; [by rewrite <- app_assoc|]. split; [by eapply sent_trans|]. split; [|done].
  rewrite (sent_allowed _ _ _ _ _ Hs), (sent_ready _ _ _ Hs) in E.
  unfold bcast_targets in *. rewrite fmap_app, filter_app, fmap_app, spec_send_all_app, Hq1. cbn [mbind option_bind fmap list_fmap].
  rewrite filter_cons. destruct (decide _) as [Ea|Ea].
  - rewrite Ea in E. rewrite filter_nil. cbn [fmap list_fmap spec_send_all]. by rewrite E.
  - apply not_true_is_false in Ea. rewrite Ea in E. by rewrite filter_nil.
Qed.

Lemma hash_same (h h' : hash mroute_addr Z) :
  hash_wf h -> hash_wf h' -> n_buckets h' = n_buckets h -> iv h' = iv h -> mask h' = mask h -> next_addr h' = next_addr h ->
  buckets h' = buckets h -> h' = h.
Proof.
  intros [_ _ _ _ _ C _ _] [_ _ _ _ _ C' _ _] E1 E2 E3 E4 E5. destruct h, h'; cbn in *. congruence.
Qed.

Lemma multi_bcast_spec s buf sender addr k q :
  bcast_ready s sender addr -> iter_ok s -> buf_wf buf -> queue_is s k [] q -> room (2 ^ k) q ->
  exists s' q', multi_bcast s buf sender addr = Ret s' /\ sent s s' /\ queue_is s' k [] q' /\
    (if 0 <? buf_len buf then spec_send_all (2 ^ k) q (content buf) 0 (bcast_targets s sender addr (all_clients s)) else Some q) = Some q'.
Proof.
  intros Hb Hit Hw Hq Hr. unfold multi_bcast. destruct (0 <? buf_len buf) eqn:Ebl; breflect; [|exists s, q; split_and!; try done; apply sent_refl, Hb].
  cbv zeta. set (p := new_addr (sv_mheap s)). destruct Hq as (l & Hh & <-).
  destruct (clone_buf_content buf Hw Ebl) as (b & Eb & Hcb). unfold mbuf_alloc_buf. rewrite Eb. cbn [mbind outcome_mbind].
  destruct (alloc_own _ _ _ _ b 0 Hh) as (Hh1 & Hab & Hpk). set (h1 := <[new_addr (sv_mheap s) := mkmb b 1 0]> (sv_mheap s)) in *.
  change (<[p := mkmb b 1 0]> (sv_mheap s)) with h1. set (s1 := s <| sv_mheap := h1 |>).
  assert (Hs1 : sent s s1) by (exists (sv_clients s), h1, (sv_mbuf s); split; [by destruct s|split; [done|apply Hb]]).
  destruct Hit as [Hwf Hall]. destruct (wf_size _ Hwf) as (j & Hj & Hnb). assert (0 < n_buckets (sv_iter s)) by (rewrite Hnb; apply Z.pow_pos_nonneg; lia).
  unfold hash_iterator_init.
  destruct (sweep_range_spec (bcast_body p sender addr) (fun _ => false) (bcast_loop_inv s1 p sender addr k (abs (sv_mheap s) l) (content buf) 0)
    (sv_iter s) 0 (n_buckets (sv_iter s)) s1) as (hi0 & s' & h2 & hi1 & h' & hi2 & Hi & Hsw & Hfr & HP & Hwf' & E1 & E2 & E3 & E4 & E5 & E6); [|exact Hwf|lia|lia|..].
  { intros s2 he l2 Hinv. apply bcast_loop_step; [|done|exact Hinv]. by eapply bcast_ready_sent. }
  { exists [], (abs (sv_mheap s) l). split.
    - unfold all_clients. change (sv_iter s1) with (sv_iter s). rewrite Z.min_id, Z.sub_0_r, zdrop_0. cbn [app].
      by rewrite ztake_all by (rewrite (wf_len _ Hwf); lia).
    - split; [apply sent_refl, Hb|]. split; [done|]. split; [done|]. split; [|rewrite <- Hcb; exact Hpk]. exists l. split; [exact Hh1|exact Hab]. }
  rewrite Hi. cbn [mbind outcome_mbind]. rewrite Hsw. cbn [mbind outcome_mbind]. rewrite Hfr. cbn [mbind outcome_mbind].
  assert (h' = sv_iter s) as ->.
  { apply hash_same; try done. rewrite E6. assert (Ecl : forall m : list (list (hash_element mroute_addr Z)), clean (fun _ => false) <$> m = m).
    { intros m. induction m as [|y m IHm]; [done|]. cbn. rewrite IHm. f_equal. unfold clean. clear. induction y as [|z y IH]; [done|]. by rewrite filter_cons_True, IH. }
    by rewrite Ecl, <- E5. }
  destruct HP as (don & q' & El & Hs' & Hq' & Hr' & (l' & Hh' & Hab') & _). rewrite app_nil_r in El.
  destruct (release_own _ _ _ _ _ _ Hh' Hab') as (h3 & Hfree & Hh3 & Hab3). rewrite Hfree. cbn [mbind outcome_mbind].
  eexists _, q'. split; [reflexivity|]. pose proof (sent_trans _ _ _ Hs1 Hs') as (M' & h4 & ms4 & -> & HM & HW). split; [|split].
  - exists M', h3, ms4. split; [by destruct s|done].
  - exists l'. split; [exact Hh3|exact Hab3].
  - rewrite <- El in Hq'. exact Hq'.
Qed.

Lemma multi_unicast_spec s buf mi k q :
  clients_ok s -> conn (sv_multi s) mi -> buf_wf buf -> queue_is s k [] q -> room (2 ^ k) q ->
  exists s' q', Server.multi_unicast s buf mi = Ret s' /\ sent s s' /\ queue_is s' k [] q' /\
    (if 0 <? buf_len buf then spec_send (2 ^ k) q (content buf) MF_UNICAST (mi, client_ready s mi) else Some q) = Some q'.
Proof.
  intros Hok Hc Hw (l & Hh & <-) Hr. unfold Server.multi_unicast. destruct (get_client_spec s mi Hok Hc) as (c & Ec & ->). cbn [mbind outcome_mbind].
  unfold client_ready. rewrite Ec. set (ready := multi_output_queue_ready s c).
  assert (Hq : exists q', (if 0 <? buf_len buf then spec_send (2 ^ k) (abs (sv_mheap s) l) (content buf) MF_UNICAST (mi, ready) else Some (abs (sv_mheap s) l)) = Some q').
  { destruct (0 <? buf_len buf); [|by eexists]. destruct (spec_send_room (2 ^ k) (abs (sv_mheap s) l) (content buf) MF_UNICAST (mi, ready) Hr) as (q' & E & _). by exists q'. }
  destruct Hq as [q' Hq]. pose proof (queue_step_spec _ _ _ _ (OpUnicast buf ready mi) Hh Hw) as Hst.
  assert (Es : spec_step (2 ^ k) (abs (sv_mheap s) l) (OpUnicast buf ready mi) = Some (q', None)).
  { cbn [spec_step]. destruct (0 <? buf_len buf); [by rewrite Hq|congruence]. }
  rewrite Es in Hst. destruct Hst as (h' & ms' & l' & Hrun & Hh' & Hab). cbn [queue_step] in Hrun.
  destruct (Mbuf.multi_unicast _ _ _ _ _ _ _) as [[h ms]| |]; cbn [mbind outcome_mbind] in Hrun |- *; [|done..]. injection Hrun as -> ->.
  eexists _, q'. split; [reflexivity|]. split; [|split; [by exists l'|done]]. exists (sv_clients s), h', ms'. split; [by destruct s|]. split; [done|apply Hok].
Qed.

(** ** Looking up *)

Lemma host_ip a type n bytes c d : ip_header c = Some (type, n, bytes, d) \/ ip_header c = Some (type, n, d, bytes) -> is_host_addr a type n bytes -> ip_host a.
Proof.
  intros H (Hw & Ht & _ & Hl & _). split; [done|]. rewrite Ht, Hl. unfold ip_header in H. destruct c as [|v c]; [by destruct H|].
  destruct (_ && _); [destruct H as [[= <- <- _ _]|[= <- <- _ _]]; by left|]. destruct (_ && _); [|by destruct H].
  destruct H as [[= <- <- _ _]|[= <- <- _ _]]; by right.
Qed.

(** What the lookup answers: nobody has the server's own address. *)
Definition answer now (m : multi_context) (a : mroute_addr) (o : option Z) : Prop :=
  if mroute_addr_equal a (m_local m) then o = None else owner now m a o.

Lemma lookup_answers now script m a :
  server_inv m -> ip_host a ->
  exists m' o, multi_get_instance_by_virtual_addr now script m a true = Ret (m', o) /\ server_inv m' /\ m_local m' = m_local m /\
    conn_kept m m' /\ answer now m a o.
Proof.
  intros Hi Ha. unfold answer. destruct (mroute_addr_equal a (m_local m)) eqn:E.
  - unfold multi_get_instance_by_virtual_addr. rewrite E. exists m, None. by split_and!.
  - by apply lookup_owner.
Qed.

(** The answer is a connected client. *)
Lemma answer_conn now m a mi : answer now m a (Some mi) -> conn m mi.
Proof.
  unfold answer. destruct (mroute_addr_equal a (m_local m)); [done|]. intros [(r & Hl & _ & [= ->])|[_ (r & Hl & _ & <- & _)]];
    destruct (live_instance _ _ _ Hl) as (i & Hi); by exists i.
Qed.

(** ** Dropping *)

Definition drop_packet (c : client) : client :=
  c <| cl_context := cl_context c <| c2_to_tun := set_len (c2_to_tun (cl_context c)) 0 |> |>.

Lemma alter_insert_some (M : gmap Z client) mi c f : M !! mi = Some c -> <[mi := f c]> M = alter f mi M.
Proof.
  intros Hc. apply map_eq. intros x. destruct (decide (x = mi)) as [->|Hne].
  - by rewrite lookup_insert_eq, lookup_alter_eq, Hc.
  - by rewrite lookup_insert_ne, lookup_alter_ne.
Qed.

Lemma drop_to_tun_spec s mi : clients_ok s -> conn (sv_multi s) mi -> drop_to_tun s mi = Ret (s <| sv_clients := alter drop_packet mi (sv_clients s) |>).
Proof.
  intros Hok Hc. unfold drop_to_tun. destruct (get_client_spec s mi Hok Hc) as (c & Ec & ->). cbn [mbind outcome_mbind]. unfold put_context, put_client.
  by rewrite <- (alter_insert_some _ _ c drop_packet Ec).
Qed.

#[export] Instance alter_drop_proper mi : Proper (same_clients ==> same_clients) (alter drop_packet mi).
Proof.
  intros M M' H x. destruct (decide (x = mi)) as [->|Hne]; [|rewrite !lookup_alter_ne by done; apply H].
  rewrite !lookup_alter_eq. destruct (H mi) as [c c' (E1 & E2)|]; [|constructor]. constructor. unfold same_client, drop_packet. cbn. by rewrite E1.
Qed.

Lemma drop_packet_idem mi M : same_clients (alter drop_packet mi (alter drop_packet mi M)) (alter drop_packet mi M).
Proof.
  intros x. destruct (decide (x = mi)) as [->|Hne]; [|rewrite !lookup_alter_ne by done; reflexivity].
  rewrite !lookup_alter_eq. destruct (M !! mi) as [c|]; [|constructor]. constructor. by split_and!.
Qed.

(** The clients after a packet of [mi] was kept or dropped. *)
Definition kept (keep : bool) (mi : Z) (M : gmap Z client) : gmap Z client := if keep then M else alter drop_packet mi M.

Lemma filters_alter mi M : filters_wf M -> filters_wf (alter drop_packet mi M).
Proof.
  intros H x c Hx. destruct (decide (x = mi)) as [->|Hne]; [|rewrite lookup_alter_ne in Hx by done; by eapply H].
  rewrite lookup_alter_eq in Hx. destruct (M !! mi) as [c0|] eqn:E; [|done]. injection Hx as <-. by apply (H mi c0).
Qed.

Lemma filters_kept keep mi M : filters_wf M -> filters_wf (kept keep mi M).
Proof. destruct keep; [done|apply filters_alter]. Qed.

(** The last filter: the packet stays when it is empty already, or is admitted. *)
Lemma to_tun_filter_spec s mi dest c :
  clients_ok s -> conn (sv_multi s) mi -> mroute_wf dest -> sv_clients s !! mi = Some c ->
  to_tun_filter s mi dest =
  Ret (s <| sv_clients := kept ((len (c2_to_tun (cl_context c)) =? 0) || client_admits (sv_clients s) mi dest) mi (sv_clients s) |>).
Proof.
  intros Hok Hc Hd Ec. unfold to_tun_filter, client_admits. destruct (get_client_spec s mi Hok Hc) as (c0 & E0 & ->). rewrite Ec in E0. injection E0 as <-.
  cbn [mbind outcome_mbind]. rewrite Ec. assert (Es : s <| sv_clients := sv_clients s |> = s) by by destruct s.
  destruct (len _ =? 0); cbn [negb orb kept]; [by rewrite Es|].
  rewrite (addr_test_spec _ dest Hd). cbn [mbind outcome_mbind]. destruct (addr_allowed _ _); cbn [kept]; [by rewrite Es|]. by apply drop_to_tun_spec.
Qed.

(** ** The switch *)

(** [sent], with the packet of [mi] kept or dropped. *)
Definition passed (s s' : server) (mi : Z) (keep : bool) : Prop :=
  exists M' h ms, s' = s <| sv_clients := M' |> <| sv_mheap := h |> <| sv_mbuf := ms |> /\
    same_clients (kept keep mi (sv_clients s)) M' /\ filters_wf M'.

Lemma sent_passed s s' mi : sent s s' -> passed s s' mi true.
Proof. done. Qed.

Lemma sent_then_passed s1 s2 s3 mi keep : sent s1 s2 -> passed s2 s3 mi keep -> passed s1 s3 mi keep.
Proof.
  intros (M2 & h2 & ms2 & -> & H2 & _) (M3 & h3 & ms3 & -> & H3 & W3). exists M3, h3, ms3. split; [done|]. split; [|done].
  cbn in H3. etrans; [|exact H3]. destruct keep; cbn; [done|]. by rewrite H2.
Qed.

Lemma passed_drop s mi : clients_ok s -> passed s (s <| sv_clients := alter drop_packet mi (sv_clients s) |>) mi false.
Proof. intros [_ Hw]. exists (alter drop_packet mi (sv_clients s)), (sv_mheap s), (sv_mbuf s). split; [by destruct s|]. split; [done|by apply filters_alter]. Qed.

Lemma client_to_client_spec now s a b k q c :
  clients_ok s -> conn (sv_multi s) a -> conn (sv_multi s) b -> sv_clients s !! a = Some c -> buf_wf (c2_to_tun (cl_context c)) ->
  queue_is s k [] q -> room (2 ^ k) q ->
  exists s' q', client_to_client now s a b = Ret s' /\ passed s s' a false /\ queue_is s' k [] q' /\
    (if c2c_allowed (sv_clients s) a b && (0 <? buf_len (c2_to_tun (cl_context c)))
     then spec_send (2 ^ k) q (content (c2_to_tun (cl_context c))) MF_UNICAST (b, client_ready s b) else Some q) = Some q'.
Proof.
  intros Hok Ha Hb Ec Hw Hq Hr. unfold client_to_client. destruct (c2c_test_spec s a b Hok Ha Hb) as (s1 & -> & T1). cbn [mbind outcome_mbind].
  pose proof (tested_ok _ _ Hok T1) as Hok1. pose proof (tested_sent _ _ T1) as S1. pose proof (sent_ready _ _ b S1) as Er.
  pose proof T1 as (M1 & -> & HM1 & HW1). destruct (c2c_allowed (sv_clients s) a b); cbn [andb].
  - destruct (same_clients_lookup _ _ _ _ HM1 Ec) as (c1 & Ec1 & Hc1). destruct (get_client_spec _ a Hok1 Ha) as (c1' & E1' & ->). cbn in E1'. rewrite Ec1 in E1'. injection E1' as <-.
    cbn [mbind outcome_mbind]. pose proof Hc1 as (Ectx & _). rewrite Ectx. set (to_tun := c2_to_tun (cl_context c)) in *.
    destruct (multi_unicast_spec (s <| sv_clients := M1 |>) to_tun b k q Hok1 Hb Hw Hq Hr) as (s2 & q' & -> & S2 & Hq2 & Eq). rewrite Er in Eq. cbn [mbind outcome_mbind].
    pose proof (sent_ok _ _ Hok1 S2) as Hok2. pose proof (sent_trans _ _ _ S1 S2) as S3. pose proof S2 as (M2 & h2 & ms2 & -> & HM2 & HW2).
    destruct (get_client_spec _ a Hok2 Ha) as (c2 & Ec2 & ->). cbn [mbind outcome_mbind]. cbn in Ec2.
    match goal with |- context [put_client ?st a ?cc] => set (s2 := st); set (c3 := cc) end.
    assert (S4 : sent s2 (put_client s2 a c3)).
    { exists (<[a := c3]> M2), h2, ms2. split; [by destruct s|]. split; [by apply (same_clients_insert _ _ c2); [|split_and!]|].
      intros x cx Hx. destruct (decide (x = a)) as [->|Hne]; [rewrite lookup_insert_eq in Hx; injection Hx as <-; by apply (HW2 a c2)|].
      rewrite lookup_insert_ne in Hx by done. by eapply HW2. }
    pose proof (sent_ok _ _ Hok2 S4) as Hok4. rewrite (drop_to_tun_spec _ a Hok4 Ha). eexists _, q'. split; [reflexivity|]. split; [|split; [exact Hq2|exact Eq]].
    eapply sent_then_passed; [exact S3|]. eapply sent_then_passed; [exact S4|]. by apply passed_drop.
  - cbn [mbind outcome_mbind]. rewrite (drop_to_tun_spec _ a Hok1 Ha). eexists _, q. split; [reflexivity|]. split; [|split; [exact Hq|done]].
    eapply sent_then_passed; [exact S1|]. by apply passed_drop.
Qed.

(** [passed], with the routes as lookups leave them. *)
Definition switched (s s' : server) (mi : Z) (keep : bool) : Prop :=
  exists m', server_inv m' /\ m_local m' = m_local (sv_multi s) /\ conn_kept (sv_multi s) m' /\ passed (s <| sv_multi := m' |>) s' mi keep.

(** What the switch does with the packet of client [mi] to [dest] once the source is right:
    whether it goes to the device, and the queue then; [m1] are the routes. *)
Definition fate now (s : server) (m1 : multi_context) (mi : Z) (x : list Z) (dest : mroute_addr) (mcast : bool) k (q : squeue) (keep : bool) (q' : squeue) : Prop :=
  if sv_enable_c2c s
  then
    if mcast
    then keep = client_admits (sv_clients s) mi dest /\
         spec_send_all (2 ^ k) q x 0 (bcast_targets s (Some mi) None (all_clients s)) = Some q'
    else exists o, answer now m1 dest o /\
      match o with
      | Some b => keep = false /\
          (if c2c_allowed (sv_clients s) mi b then spec_send (2 ^ k) q x MF_UNICAST (b, client_ready s b) else Some q) = Some q'
      | None => keep = client_admits (sv_clients s) mi dest /\ q' = q
      end
  else keep = client_admits (sv_clients s) mi dest /\ q' = q.

(** Where the packet of [mi] stays unless the last filter refuses it. *)
Lemma finish s0 s mi dest c :
  clients_ok s0 -> sent s0 s -> conn (sv_multi s0) mi -> mroute_wf dest -> sv_clients s0 !! mi = Some c -> 0 < len (c2_to_tun (cl_context c)) ->
  exists s', to_tun_filter s mi dest = Ret s' /\ passed s0 s' mi (client_admits (sv_clients s0) mi dest) /\ sv_mheap s' = sv_mheap s /\ sv_mbuf s' = sv_mbuf s.
Proof.
  intros Hok Hs Hc Hd Ec Hl. pose proof (sent_ok _ _ Hok Hs) as Hok1. pose proof Hs as (M1 & h1 & ms1 & -> & HM1 & HW1).
  destruct (same_clients_lookup _ _ _ _ HM1 Ec) as (c1 & Ec1 & (Ectx & _)).
  rewrite (to_tun_filter_spec _ mi dest c1 Hok1 Hc Hd Ec1), Ectx. bdecide. eexists. split; [reflexivity|]. split; [|done].
  eapply sent_then_passed; [exact Hs|]. rewrite (client_admits_proper _ _ HM1 mi mi eq_refl dest dest eq_refl).
  exists (kept (client_admits M1 mi dest) mi M1), h1, ms1. split; [by destruct s0|]. split; [reflexivity|by apply filters_kept].
Qed.

(** A packet that was dropped passes the last filter as it is. *)
Lemma finish_dropped s0 s mi dest :
  clients_ok s0 -> passed s0 s mi false -> conn (sv_multi s0) mi -> mroute_wf dest ->
  exists s', to_tun_filter s mi dest = Ret s' /\ passed s0 s' mi false /\ sv_mheap s' = sv_mheap s /\ sv_mbuf s' = sv_mbuf s.
Proof.
  intros [H1 H2] (M' & h & ms & -> & HM & HW) Hc Hd. destruct (H1 mi Hc) as [c Ec]. cbn [kept] in HM.
  assert (Ea : alter drop_packet mi (sv_clients s0) !! mi = Some (drop_packet c)) by (by rewrite lookup_alter_eq, Ec).
  destruct (same_clients_lookup _ _ _ _ HM Ea) as (c' & Ec' & (Ectx & _)).
  assert (Hok' : clients_ok (s0 <| sv_clients := M' |> <| sv_mheap := h |> <| sv_mbuf := ms |>)).
  { split; [|done]. sv_simpl. intros x Hx. destruct (H1 x Hx) as [cx Ex]. specialize (HM x).
    destruct (decide (x = mi)) as [->|Hne]; [by rewrite Ec'|]. rewrite lookup_alter_ne, Ex in HM by done. by inversion HM. }
  rewrite (to_tun_filter_spec _ mi dest c' Hok' Hc Hd Ec'), Ectx. cbn [drop_packet]. change (len (c2_to_tun (cl_context (drop_packet c)))) with 0. cbn [Z.eqb orb kept].
  eexists. split; [reflexivity|]. split; [|done]. by exists M', h, ms.
Qed.

Lemma any_of_bit r i : 0 <= i -> any_of r (2 ^ i) = Z.testbit r i.
Proof.
  intros Hi. unfold any_of. destruct (Z.testbit r i) eqn:E.
  - apply negb_true_iff, Z.eqb_neq. intros H0. assert (H : Z.testbit (Z.land r (2 ^ i)) i = true) by (rewrite Z.land_spec, E, Z.pow2_bits_true by done; done).
    by rewrite H0, Z.bits_0 in H.
  - apply negb_false_iff, Z.eqb_eq. apply Z.bits_inj_0. intros n. rewrite Z.land_spec. destruct (decide (n = i)) as [->|Hne]; [by rewrite E|].
    rewrite Z.pow2_bits_false by lia. apply andb_false_r.
Qed.

Lemma ip_header_nonempty c h : ip_header c = Some h -> 0 < zlen c.
Proof. destruct c; [done|]. intros _. zlia. Qed.

Lemma same_queue s s' k q : queue_is s k [] q -> sv_mheap s' = sv_mheap s -> sv_mbuf s' = sv_mbuf s -> queue_is s' k [] q.
Proof. intros (l & Hh & Ha) E1 E2. exists l. rewrite E1, E2. by split. Qed.

Lemma find_instance_run now script s a cidr m o :
  multi_get_instance_by_virtual_addr now script (sv_multi s) a cidr = Ret (m, o) -> find_instance now script s a cidr = Ret (s <| sv_multi := m |>, o).
Proof. intros E. unfold find_instance. by rewrite E. Qed.

(** The part of the switch behind the check of the source address. *)
Definition forward_packet now script (s : server) (mi : Z) (to_tun : buffer) (mcast bcast : bool) (dest : mroute_addr) : outcome server :=
  s ← (if sv_enable_c2c s
       then
         if mcast then Server.multi_bcast s to_tun (Some mi) None
         else
           _ ← c_assert (negb bcast);
           '(s, o) ← find_instance now script s dest true;
           match o with Some b => client_to_client now s mi b | None => Ret s end
       else Ret s);
  to_tun_filter s mi dest.

Lemma forward_packet_spec now script s mi c k q mcast dest :
  server_inv (sv_multi s) -> clients_ok s -> iter_ok s -> conn (sv_multi s) mi -> sv_clients s !! mi = Some c ->
  buf_wf (c2_to_tun (cl_context c)) -> 0 < len (c2_to_tun (cl_context c)) -> ip_host dest -> queue_is s k [] q -> room (2 ^ k) q ->
  exists s' keep q', forward_packet now script s mi (c2_to_tun (cl_context c)) mcast false dest = Ret s' /\ switched s s' mi keep /\ queue_is s' k [] q' /\
    fate now s (sv_multi s) mi (content (c2_to_tun (cl_context c))) dest mcast k q keep q'.
Proof.
  intros Hinv Hok Hit Hc Ec Hw Hl Hd Hq Hr. unfold forward_packet, fate. set (to_tun := c2_to_tun (cl_context c)) in *.
  assert (Hbl : 0 < buf_len to_tun) by (destruct (wf_conc _ Hw) as (pre & x & post & -> & _); by rewrite buf_len_conc).
  assert (Hst : forall s' keep, passed s s' mi keep -> switched s s' mi keep).
  { intros s' keep Hp. exists (sv_multi s). split; [done|]. split; [done|]. split; [reflexivity|]. by destruct s. }
  pose proof (proj1 Hd) as Hdw. assert (Hw' : filters_wf (sv_clients s)) by apply Hok.
  destruct (sv_enable_c2c s); [destruct mcast|].
  - destruct (multi_bcast_spec s to_tun (Some mi) None k q) as (s1 & q1 & -> & S1 & Hq1 & Eq); try done; [by split_and!; [|intros x [= <-]|]|].
    cbn [mbind outcome_mbind]. destruct (finish s s1 mi dest c Hok S1 Hc Hdw Ec Hl) as (s' & -> & Hp & Eh & Em).
    eexists s', _, q1. split; [done|]. split; [by apply Hst|]. split; [by apply (same_queue s1)|]. split; [done|]. revert Eq. by bdecide.
  - cbn [negb c_assert mbind outcome_mbind]. unfold find_instance.
    destruct (lookup_answers now script (sv_multi s) dest Hinv Hd) as (m2 & o & -> & Hinv2 & El2 & Hk2 & Hans). cbn [mbind outcome_mbind].
    set (s2 := s <| sv_multi := m2 |>). assert (Hok2 : clients_ok s2) by (split; [intros x Hx; apply Hok, Hk2, Hx|apply Hok]).
    assert (Hsw : forall s' keep, passed s2 s' mi keep -> switched s s' mi keep) by (intros s' keep Hp; by exists m2).
    assert (Hc2 : conn (sv_multi s2) mi) by by apply Hk2. destruct o as [b|].
    + assert (Hb2 : conn (sv_multi s2) b) by (apply Hk2; by eapply answer_conn).
      destruct (client_to_client_spec now s2 mi b k q c Hok2 Hc2 Hb2 Ec Hw Hq Hr) as (s3 & q3 & -> & P3 & Hq3 & Eq). cbn [mbind outcome_mbind].
      destruct (finish_dropped s2 s3 mi dest Hok2 P3 Hc2 Hdw) as (s' & -> & Hp & Eh & Em).
      exists s', false, q3. split; [done|]. split; [by apply Hsw|]. split; [by apply (same_queue s3)|]. exists (Some b). split; [done|]. split; [done|].
      fold to_tun in Eq. revert Eq. bdecide. rewrite andb_true_r. done.
    + cbn [mbind outcome_mbind]. destruct (finish s2 s2 mi dest c Hok2 (sent_refl s2 Hw') Hc2 Hdw Ec Hl) as (s' & -> & Hp & Eh & Em).
      eexists s', _, q. split; [done|]. split; [by apply Hsw|]. split; [by apply (same_queue s2)|]. exists None. by split.
  - cbn [mbind outcome_mbind]. destruct (finish s s mi dest c Hok (sent_refl s Hw') Hc Hdw Ec Hl) as (s' & -> & Hp & Eh & Em).
    eexists s', _, q. split; [done|]. split; [by apply Hst|]. split; [by apply (same_queue s)|]. by split.
Qed.

(** The whole switch, for a connected client and any packet. *)
Lemma switch_tun_spec now script s mi c k q :
  server_inv (sv_multi s) -> clients_ok s -> iter_ok s -> conn (sv_multi s) mi -> sv_clients s !! mi = Some c ->
  buf_wf (c2_to_tun (cl_context c)) -> Forall is_u8 (content (c2_to_tun (cl_context c))) -> queue_is s k [] q -> room (2 ^ k) q ->
  exists s' keep q', switch_from_client_tun now script s mi = Ret s' /\ switched s s' mi keep /\ queue_is s' k [] q' /\
    match ip_header (content (c2_to_tun (cl_context c))) with
    | None => keep = false /\ q' = q
    | Some (type, n, sb, db) => exists src dest o m1, is_host_addr src type n sb /\ is_host_addr dest type n db /\
        answer now (sv_multi s) src o /\ multi_get_instance_by_virtual_addr now script (sv_multi s) src true = Ret (m1, o) /\ conn_kept (sv_multi s) m1 /\
        if decide (o = Some mi) then fate now s m1 mi (content (c2_to_tun (cl_context c))) dest (dest_mcast type db) k q keep q'
        else keep = false /\ q' = q
    end.
Proof.
  intros Hinv Hok Hit Hc Ec Hw Hu Hq Hr. unfold switch_from_client_tun. destruct (get_client_spec s mi Hok Hc) as (c0 & E0 & ->). rewrite Ec in E0. injection E0 as <-.
  cbn [mbind outcome_mbind]. set (to_tun := c2_to_tun (cl_context c)) in *.
  pose proof (extract_addr_ip_spec mroute_addr_init mroute_addr_init to_tun Hw Hu init_wf init_wf) as Hex.
  destruct (ip_header (content to_tun)) as [[[[type n] sb] db]|] eqn:Eh.
  2: { rewrite Hex. cbn [mbind outcome_mbind must]. change (any_of 0 MROUTE_EXTRACT_SUCCEEDED) with false. cbn [negb].
    rewrite (drop_to_tun_spec s mi Hok Hc). cbn [mbind outcome_mbind].
    destruct (finish_dropped s _ mi mroute_addr_init Hok (passed_drop s mi Hok) Hc init_wf) as (s' & -> & Hp & Eh' & Em'). exists s', false, q. split; [done|]. split; [|split; [|done]].
    - exists (sv_multi s). split; [done|]. split; [done|]. split; [reflexivity|]. by destruct s.
    - by eapply same_queue. }
  destruct Hex as (r & src & dest & -> & (R0 & R1 & R2) & Hsrc & Hdest). cbn [mbind outcome_mbind must].
  change MROUTE_EXTRACT_SUCCEEDED with (2 ^ 0). change MROUTE_EXTRACT_MCAST with (2 ^ 2). change MROUTE_EXTRACT_BCAST with (2 ^ 1).
  rewrite !any_of_bit by lia. rewrite R0, R1, R2. cbn [negb].
  pose proof (host_ip src type n sb (content to_tun) db (or_introl Eh) Hsrc) as Hsi. pose proof (host_ip dest type n db (content to_tun) sb (or_intror Eh) Hdest) as Hdi.
  destruct (lookup_answers now script (sv_multi s) src Hinv Hsi) as (m1 & o & Hrun & Hinv1 & El1 & Hk1 & Hans). rewrite (find_instance_run _ _ _ _ _ _ _ Hrun). cbn [mbind outcome_mbind].
  set (s1 := s <| sv_multi := m1 |>). assert (Hok1 : clients_ok s1) by (split; [intros x Hx; apply Hok, Hk1, Hx|apply Hok]).
  assert (Hc1 : conn (sv_multi s1) mi) by by apply Hk1. destruct (decide (o = Some mi)) as [->|Hne].
  - rewrite bool_decide_true by done. cbn [negb]. assert (Hl : 0 < len to_tun).
    { apply ip_header_nonempty in Eh. destruct (wf_conc _ Hw) as (pre & x & post & E & _). rewrite E, content_conc in Eh. by rewrite E. }
    assert (Hit1 : iter_ok s1) by (destruct Hit as [H1 H2]; split; [done|]; eapply Forall_impl; [exact H2|]; intros he He; by apply Hk1).
    destruct (forward_packet_spec now script s1 mi c k q (dest_mcast type db) dest Hinv1 Hok1 Hit1 Hc1 Ec Hw Hl Hdi Hq Hr) as (s' & keep & q' & Hf & Hsw & Hq' & Hfate).
    exists s', keep, q'. split; [exact Hf|]. split; [|split; [done|]].
    + destruct Hsw as (m2 & A1 & A2 & A3 & A4). exists m2. split; [done|]. split; [by rewrite A2|]. split; [by etrans|done].
    + exists src, dest, (Some mi), m1. rewrite decide_True by done. done.
  - rewrite bool_decide_false by done. cbn [negb]. rewrite (drop_to_tun_spec s1 mi Hok1 Hc1). cbn [mbind outcome_mbind].
    destruct (finish_dropped s1 _ mi dest Hok1 (passed_drop s1 mi Hok1) Hc1 (proj1 Hdi)) as (s' & -> & Hp & Eh' & Em'). exists s', false, q. split; [done|]. split; [by exists m1|].
    split; [by apply (same_queue s1)|]. exists src, dest, o, m1. rewrite decide_False by done. done.
Qed.
