(* ===== verification/Udp.v ===== *)
(** * Clients and the packets they send ([mudp.c], [mtcp.c], [multi.c])

    Which client a datagram belongs to: data packets may name it by a peer id, all others are
    looked up by the address they come from.  An unknown address opens a new instance when
    its packet is admitted.  A client whose data packets come from another address moves
    there ([multi_process_float]).

    A new instance gets the address [mi] in memory and the members [i] and [c], as the other
    files have them.  [real] is a local variable that the functions fill in; its unused bytes
    are 0 here. *)
From stdpp Require Import gmap.
From S2P Require Import Prelude Integer Buffer Hash Mroute Multi MultiSpec Otime Proto Mbuf MbufSpec Mtu LinkAddr SslCommon Auth Comp Crypto.
From S2P Require Import TlsWrap TlsSession Pf Forward Server.

Definition sockaddr_of (a : link_socket_actual) : openvpn_sockaddr :=
  if sa_family a =? AF_INET then SA_INET (be_bytes 4 (sin_addr a)) (be_bytes 2 (sa_port a))
  else if sa_family a =? AF_INET6 then SA_INET6 (sin6_addr a) (be_bytes 2 (sa_port a))
  else SA_OTHER.

(** The first free slot of the array. *)
Fixpoint free_slot (l : list (option Z)) : nat :=
  match l with
  | None :: _ => 0
  | Some _ :: l => S (free_slot l)
  | [] => 0
  end.

(** A new client is entered under its real address and gets a peer id. *)
Definition assign_peer_id (s : server) (hv : Z) (mi : Z) : outcome server :=
  c ← get_client s mi;
  hash ← hash_add_fast (sv_hash s) (hash_bucket (sv_hash s) hv) (cl_real c) hv mi;
  let c := c <| cl_did_real_hash := true |> in
  _ ← c_assert (sv_max_clients s <? MAX_PEER_ID);
  let i := Z.of_nat (free_slot (sv_instances s)) in
  _ ← c_assert (i <? sv_max_clients s);
  tm ← must (c2_tls_multi (cl_context c));
  insts ← array_set (sv_instances s) i (Some mi);
  let ctx := cl_context c <| c2_tls_multi := Some (tm <| m_peer_id := i |>) |> in
  Ret (put_client (s <| sv_hash := hash |> <| sv_instances := insts |>) mi (c <| cl_context := ctx |>)).

Section Dispatch.
Context (ctr_cipher : list Z -> bool -> cipher_ctx) (sha_hmac : list Z -> hmac_ctx) (now : Z).

(** The client that a data packet names, and whether its address is a new one. *)
Definition by_peer_id (s : server) (buf : buffer) (from : link_socket_actual) (p : Z) : outcome (option Z * bool * bool) :=
  w ← buf_load buf p 4;
  let peer_id := Z.land (be_value w) 0xFFFFFF in
  let peer_id_disabled := peer_id =? MAX_PEER_ID in
  if negb peer_id_disabled && (peer_id <? sv_max_clients s)
  then
    mi ← array_get (sv_instances s) peer_id;
    match mi with
    | Some mi =>
        c ← get_client s mi;
        same ← link_socket_actual_match (c2_from (cl_context c)) from;
        Ret (Some mi, negb same, peer_id_disabled)
    | None => Ret (None, false, peer_id_disabled)
    end
  else Ret (None, false, peer_id_disabled).

(** The client of the packet if it is known: by its peer id, or by its real address. *)
Definition find_instance_udp (s : server) (buf : buffer) (from : link_socket_actual) (real : mroute_addr) (hv : Z)
  : outcome (server * option Z * bool) :=
  p ← bptr buf;
  b ← buf_load1 buf p;
  let v2 := (Z.shiftr b P_OPCODE_SHIFT =? P_DATA_V2) && (4 <=? len buf) in
  '(mi, floated, peer_id_disabled) ← (if v2 then by_peer_id s buf from p else Ret (None, false, false));
  if negb v2 || peer_id_disabled
  then
    '(h, he) ← hash_lookup_fast (sv_hash s) (hash_bucket (sv_hash s) hv) real hv;
    Ret (s <| sv_hash := h |>, match he with Some he => Some (value he) | None => mi end, floated)
  else Ret (s, mi, floated).

(** [tas] is the standalone object for the first packets, if there is one, [fresh] the memory
    for a copy of the packet.  The client, and whether it has floated. *)
Definition multi_get_create_instance_udp (tas : option (frame * tls_wrap_ctx)) (fresh : list Z) (limiter : frequency_limit)
    (new : Z * multi_instance * client) (s : server) (buf : buffer) (from : link_socket_actual)
  : outcome (server * frequency_limit * option Z * bool) :=
  let '(real, ok) := mroute_extract_openvpn_sockaddr mroute_addr_init (sockaddr_of from) true in
  '(s, limiter, mi, floated) ←
    (if ok && (0 <? len buf)
     then
       let hv := hash_value (sv_hash s) real in
       '(s, mi, floated) ← find_instance_udp s buf from real hv;
       match mi with
       | Some mi => Ret (s, limiter, Some mi, floated)
       | None =>
           admitted ← match tas with
                      | Some (f, wrap) => tls_pre_decrypt_lite ctr_cipher sha_hmac now fresh f wrap buf
                      | None => Ret true
                      end;
           if admitted : bool
           then
             let '(limiter, allowed) := frequency_limit_event_allowed now limiter in
             if allowed : bool
             then
               let '(mi, i, c) := new in
               '(s, r) ← multi_create_instance s mi i (c <| cl_real := real |>);
               match r with
               | Some mi => s ← assign_peer_id s hv mi; Ret (s, limiter, Some mi, floated)
               | None => Ret (s, limiter, None, floated)
               end
             else Ret (s, limiter, None, floated)
           else Ret (s, limiter, None, floated)
       end
     else Ret (s, limiter, None, false));
  _ ← match mi with Some mi => i ← get_inst (sv_multi s) mi; c_assert (negb (halt i)) | None => Ret () end;
  Ret (s, limiter, mi, floated).
End Dispatch.

(** A client of a TCP server: one with the same address makes room. *)
Definition multi_create_instance_tcp (new : Z * multi_instance * client) (s : server) : outcome (server * option Z) :=
  let '(mi, i, c) := new in
  '(s, r) ← multi_create_instance s mi i c;
  match r with
  | Some mi =>
      c ← get_client s mi;
      let hv := hash_value (sv_hash s) (cl_real c) in
      let bucket := hash_bucket (sv_hash s) hv in
      '(h, he) ← hash_lookup_fast (sv_hash s) bucket (cl_real c) hv;
      let s := s <| sv_hash := h |> in
      s ← match he with
          | Some he =>
              let oldmi := value he in
              old ← get_client s oldmi;
              s ← multi_close_instance (put_client s oldmi (old <| cl_did_real_hash := false |>)) oldmi;
              bs ← array_get (buckets (sv_hash s)) bucket;
              bs ← write_elem (he_addr he) (fun e => mkhe (he_addr e) mi (Some (cl_real c)) (hash_value_ e)) bs;
              h ← set_bucket (sv_hash s) bucket bs (n_elements (sv_hash s));
              Ret (s <| sv_hash := h |>)
          | None => h ← hash_add_fast (sv_hash s) bucket (cl_real c) hv mi; Ret (s <| sv_hash := h |>)
          end;
      c ← get_client s mi;
      i ← get_inst (sv_multi s) mi;
      _ ← c_assert (negb (halt i));
      Ret (put_client s mi (c <| cl_did_real_hash := true |>), Some mi)
  | None => Ret (s, None)
  end.

(** ** A new address *)

(** [ASSERT (hash_add (h, k, mi, false))] *)
Definition table_add (h : hash mroute_addr Z) (k : mroute_addr) (mi : Z) : outcome (hash mroute_addr Z) :=
  '(h, ok) ← hash_add h k mi false; _ ← c_assert ok; Ret h.

Definition float_to (s : server) (mi : Z) (real : mroute_addr) (from : link_socket_actual) : outcome server :=
  c ← get_client s mi;
  hash ← table_remove (sv_hash s) true (cl_real c);
  iter ← table_remove (sv_iter s) true (cl_real c);
  tm ← must (c2_tls_multi (cl_context c));
  tm ← tls_update_remote_addr tm from;
  let info := c2_info (cl_context c) in
  let info := mkinfo from (li_connection_established info) (li_remote_float info) (li_remotes info) (li_tcp info) in
  let ctx := cl_context c <| c2_from := from |> <| c2_to_link_addr := Some from |> <| c2_info := info |> <| c2_tls_multi := Some tm |> in
  hash ← table_add hash real mi;
  iter ← table_add iter real mi;
  Ret (put_client (s <| sv_hash := hash |> <| sv_iter := iter |>) mi (c <| cl_real := real |> <| cl_context := ctx |>)).

(** Client [mi] moves to [from], unless that address belongs to a client with another
    certificate; a client with the same one is closed. *)
Definition multi_process_float (s : server) (mi : Z) (from : link_socket_actual) : outcome server :=
  let '(real, ok) := mroute_extract_openvpn_sockaddr mroute_addr_init (sockaddr_of from) true in
  if ok : bool
  then
    let hv := hash_value (sv_hash s) real in
    '(h, he) ← hash_lookup_fast (sv_hash s) (hash_bucket (sv_hash s) hv) real hv;
    let s := s <| sv_hash := h |> in
    match he with
    | Some he =>
        let ex_mi := value he in
        c ← get_client s mi;
        ex ← get_client s ex_mi;
        m1 ← must (c2_tls_multi (cl_context c));
        m2 ← must (c2_tls_multi (cl_context ex));
        if negb (cert_hash_compare (m_locked_cert_hash_set m1) (m_locked_cert_hash_set m2))
        then Ret (put_context s mi c (cl_context c <| c2_buf := set_len (c2_buf (cl_context c)) 0 |>))
        else s ← multi_close_instance s ex_mi; float_to s mi real from
    | None => float_to s mi real from
    end
  else Ret s.

(** ** From the socket *)

Section Link.
Context (lib : comp_lib) (ctr_cipher : list Z -> bool -> cipher_ctx) (sha_hmac : list Z -> hmac_ctx).
Context (script : option (Z -> list Z -> bool)).
Context (now : Z) (learn_address_script : option Z -> learn_op -> mroute_addr -> bool).

(** The packet of the pending instance [mi]: it is decrypted, the client may move, and the
    packet is switched.  [from] is the address the packet came from. *)
Definition process_pending (moved : bool) (s : server) (mi : Z) (floated : bool) (from : link_socket_actual) : outcome server :=
  c ← get_client s mi;
  if 0 <? buf_len (c2_buf (cl_context c))
  then
    '(ctx, ok) ← process_incoming_link_part1 ctr_cipher sha_hmac script now floated (cl_context c);
    let s := put_context s mi c ctx in
    s ← (if ok : bool
         then
           s ← (if floated then multi_process_float s mi from else Ret s);
           c ← get_client s mi;
           ctx ← process_incoming_link_part2 lib now moved (cl_context c);
           Ret (put_context s mi c ctx)
         else Ret s);
    switch_from_client now learn_address_script s mi
  else Ret s.

(** [multi_process_incoming_link] as far as [multi_process_post], for a UDP server: the packet
    [buf] and its sender [from] are handed to the client. *)
Definition multi_process_incoming_link_udp (tas : option (frame * tls_wrap_ctx)) (fresh : list Z) (limiter : frequency_limit)
    (new : Z * multi_instance * client) (moved : bool) (s : server) (buf : buffer) (from : link_socket_actual)
  : outcome (server * frequency_limit) :=
  match sv_pending s with
  | Some _ => Ret (s, limiter)
  | None =>
      '(s, limiter, mi, floated) ← multi_get_create_instance_udp ctr_cipher sha_hmac now tas fresh limiter new s buf from;
      let s := s <| sv_pending := mi |> in
      match mi with
      | Some mi =>
          c ← get_client s mi;
          let ctx := cl_context c <| c2_buf := buf |> in
          let ctx := if floated : bool then ctx else ctx <| c2_from := from |> in
          s ← process_pending moved (put_context s mi c ctx) mi floated from;
          Ret (s, limiter)
      | None => Ret (s, limiter)
      end
  end.

(** The same for the client [mi] of a TCP server, whose packet is in its context already. *)
Definition multi_process_incoming_link_tcp (moved : bool) (s : server) (mi : Z) : outcome server :=
  match sv_pending s with
  | Some _ => Ret s
  | None =>
      let s := s <| sv_pending := Some mi |> in
      c ← get_client s mi;
      process_pending moved s mi false (c2_from (cl_context c))
  end.
End Link.
