(* ===== verification/ServerInvariant.v ===== *)
(** * The invariant of the server

    The parts of the server name its clients in many places: the routes, the tables of real
    addresses, the array of peer ids, the queue of packets, the pending instance.  The
    invariant says that all of them name connected clients only, that every connected client
    has its context, and that the tables agree with what the clients note of themselves.  It
    holds in every state that a server can reach ([sv_reachable]), whatever clients connect,
    send, move and go. *)
From stdpp Require Import gmap.
From S2P Require Import Prelude Integer Buffer Hash HashSpec Mroute MrouteSpec Multi MultiSpec Otime Proto Mbuf MbufSpec Mtu LinkAddr.
From S2P Require Import SslCommon Auth Comp CompSpec Crypto TlsWrap TlsSession Pf PfSpec Forward Server ServerSpec Udp.

(** ** The peer id of a client *)

Definition ctx_peer_id (ctx : context) : option Z := m_peer_id <$> c2_tls_multi ctx.
Definition peer_id_of (c : client) : option Z := ctx_peer_id (cl_context c).

Lemma set_key_peer m ij k : m_peer_id (m_set_key m ij k) = m_peer_id m.
Proof. destruct ij as [[] []]; reflexivity. Qed.

Lemma pre_encrypt_peer now m buf m' buf' co : tls_pre_encrypt now m buf = (m', buf', co) -> m_peer_id m' = m_peer_id m.
Proof.
  unfold tls_pre_encrypt. destruct (0 <? len buf); [|by intros [= <- <- <-]]. destruct (select_encrypt_key _ _ _ _); by intros [= <- <- <-].
Qed.

Lemma post_encrypt_peer m buf m' : tls_post_encrypt m buf = Ret m' -> m_peer_id m' = m_peer_id m.
Proof.
  unfold tls_post_encrypt. destruct (0 <? len buf); [|by intros [= <-]]. destruct (m_save_ks m); [|done].
  intros [= <-]. by rewrite set_key_peer.
Qed.

Lemma encrypt_tls_peer now prng m buf work m' buf' : encrypt_tls now prng m buf work = Ret (m', buf') -> m_peer_id m' = m_peer_id m.
Proof.
  unfold encrypt_tls. destruct (tls_pre_encrypt now m buf) as [[m1 buf1] co] eqn:E1. rewrite <- (pre_encrypt_peer _ _ _ _ _ _ E1).
  intros (work' & _ & E)%bind_Ret. apply bind_Ret in E as ([m2 buf2] & E2 & E). apply bind_Ret in E as (buf3 & _ & E).
  apply bind_Ret in E as (m3 & E3 & E). injection E as <- <-. rewrite (post_encrypt_peer _ _ _ E3). destruct co as [ij|]; [|by injection E2 as <- <-].
  apply bind_Ret in E2 as ([dc b] & _ & E2). injection E2 as <- <-. apply set_key_peer.
Qed.

Lemma compress_fragment_peer lib now ctx ctx' : compress_fragment lib now ctx = Ret ctx' -> ctx_peer_id ctx' = ctx_peer_id ctx.
Proof.
  unfold compress_fragment. intros (c1 & E1 & E)%bind_Ret. assert (H1 : ctx_peer_id c1 = ctx_peer_id ctx).
  { destruct (c2_comp_context ctx); [|by injection E1 as <-]. apply bind_Ret in E1 as ([cc b] & _ & E1). by injection E1 as <-. }
  rewrite <- H1. destruct (c2_fragment c1); [|by injection E as <-]. apply bind_Ret in E as ([fm b] & _ & E). by injection E as <-.
Qed.

Lemma encrypt_sign_peer lib now prng moved ctx comp_frag ctx' :
  encrypt_sign lib now prng moved ctx comp_frag = Ret ctx' -> ctx_peer_id ctx' = ctx_peer_id ctx.
Proof.
  unfold encrypt_sign. set (ctx0 := if c2_context_auth ctx then _ else _). assert (H0 : ctx_peer_id ctx0 = ctx_peer_id ctx) by (unfold ctx0; by destruct (c2_context_auth ctx)).
  intros (c1 & E1 & E)%bind_Ret. assert (H1 : ctx_peer_id c1 = ctx_peer_id ctx0) by (destruct comp_frag; [by eapply compress_fragment_peer|by injection E1 as <-]).
  rewrite <- H0, <- H1. destruct (buf_init _ _) as [work ok]. apply bind_Ret in E as ([] & _ & E). apply bind_Ret in E as (c2 & E2 & E).
  destruct (link_socket_get_outgoing_addr _ _ _) as [buf addr]. apply bind_Ret in E as ([to_link storage] & _ & E). injection E as <-.
  change (ctx_peer_id c2 = ctx_peer_id c1). change (c2_tls_multi (c1 <| c2_encrypt_buf := work |>)) with (c2_tls_multi c1) in E2.
  unfold ctx_peer_id. destruct (c2_tls_multi c1) as [m|] eqn:Em.
  - apply bind_Ret in E2 as ([m' b] & E2 & E3). injection E3 as <-. cbn. f_equal. by eapply encrypt_tls_peer.
  - apply bind_Ret in E2 as ([dc b] & _ & E3). injection E3 as <-. cbn. by rewrite Em.
Qed.

Lemma ip_header_peer ctx flags buf ctx' buf' : process_ip_header ctx flags buf = Ret (ctx', buf') -> ctx_peer_id ctx' = ctx_peer_id ctx.
Proof.
  unfold process_ip_header. destruct (_ && _); [|by intros [= <- <-]]. intros ([b v4] & _ & E)%bind_Ret. destruct v4.
  - apply bind_Ret in E as ([c1 b1] & E1 & E). injection E as <- <-. unfold process_ipv4 in E1. apply bind_Ret in E1 as (c2 & E2 & E1).
    assert (H2 : ctx_peer_id c2 = ctx_peer_id ctx).
    { destruct (any_of _ PIPV4_PASSTOS); [|by injection E2 as <-]. apply bind_Ret in E2 as (p & _ & E2). apply bind_Ret in E2 as (tos & _ & E2). by injection E2 as <-. }
    rewrite <- H2. apply bind_Ret in E1 as (b2 & _ & E1). apply bind_Ret in E1 as (b3 & _ & E1).
    destruct (any_of _ PIPV4_EXTRACT_DHCP_ROUTER); [|by injection E1 as <- <-]. apply bind_Ret in E1 as ([b4 router] & _ & E1). injection E1 as <- <-. by destruct (router =? 0).
  - apply bind_Ret in E as ([b1 v6] & _ & E). destruct v6; [|by injection E as <- <-]. unfold process_ipv6 in E. apply bind_Ret in E as (b2 & _ & E).
    destruct (_ && _); [|by injection E as <- <-]. apply bind_Ret in E as (out & _ & E). injection E as <- <-. destruct out; [|done]. by destruct (any_of _ _).
Qed.

Lemma recursive_routing_peer ctx buf ctx' : drop_if_recursive_routing ctx buf = Ret ctx' -> ctx_peer_id ctx' = ctx_peer_id ctx.
Proof.
  unfold drop_if_recursive_routing. destruct (c2_to_link_addr ctx) as [sa|]; [|by intros [= <-]]. intros ([ver off] & _ & E)%bind_Ret.
  destruct (ver =? 4); [|destruct (ver =? 6); [|by injection E as <-]]; (destruct (buf_len buf <? _); [by injection E as <-|]; destruct (negb _); [by injection E as <-|];
    apply bind_Ret in E as (p & _ & E); apply bind_Ret in E as (d & _ & E); injection E as <-).
  - by destruct (_ =? _).
  - by case_bool_decide.
Qed.

Lemma incoming_tun_peer lib now prng moved ctx ctx' : process_incoming_tun lib now prng moved ctx = Ret ctx' -> ctx_peer_id ctx' = ctx_peer_id ctx.
Proof.
  unfold process_incoming_tun. set (ctx0 := if 0 <? len (c2_buf ctx) then _ else _).
  assert (H0 : ctx_peer_id ctx0 = ctx_peer_id ctx) by (unfold ctx0; by destruct (0 <? len (c2_buf ctx))). intros (c1 & E1 & E)%bind_Ret.
  assert (H1 : ctx_peer_id c1 = ctx_peer_id ctx0).
  { destruct (0 <? len (c2_buf ctx0)); [|by injection E1 as <-]. apply bind_Ret in E1 as (c2 & E2 & E1). apply bind_Ret in E1 as ([c3 b] & E3 & E1). injection E1 as <-.
    change (ctx_peer_id c3 = ctx_peer_id ctx0). rewrite (ip_header_peer _ _ _ _ _ E3). destruct (_ && _); [by eapply recursive_routing_peer|by injection E2 as <-]. }
  rewrite <- H0, <- H1. destruct (0 <? len (c2_buf c1)); [by eapply encrypt_sign_peer|by injection E as <-].
Qed.

(** ** The invariant *)

(** Client [mi] is in a table under [k]; [f] is what the client notes of it. *)
Definition listed (f : client -> bool) (s : server) (k : mroute_addr) (mi : Z) : Prop :=
  conn (sv_multi s) mi /\ exists c, sv_clients s !! mi = Some c /\ f c = true /\ cl_real c = k.

(** The table [t] has exactly the connected clients that note so. *)
Definition table_ok (f : client -> bool) (t : hash mroute_addr Z) (s : server) : Prop :=
  exists ps, rel t ps /\ forall k mi, (k, mi) ∈ ps <-> listed f s k mi.

(** Clients in the array of peer ids. *)
Definition numbered (s : server) (i : Z) (mi : Z) : Prop :=
  conn (sv_multi s) mi /\ exists c, sv_clients s !! mi = Some c /\ cl_did_real_hash c = true /\ peer_id_of c = Some i.

Record sv_inv (s : server) : Prop := {
  inv_routes : server_inv (sv_multi s);
  inv_clients : clients_ok s;
  inv_iter : table_ok cl_did_iter (sv_iter s) s;
  inv_hash : table_ok cl_did_real_hash (sv_hash s) s;
  inv_both : forall mi c, conn (sv_multi s) mi -> sv_clients s !! mi = Some c -> cl_did_real_hash c = true -> cl_did_iter c = true;
  inv_ids : forall mi c, conn (sv_multi s) mi -> sv_clients s !! mi = Some c -> exists i, peer_id_of c = Some i /\ 0 <= i < sv_max_clients s;
  inv_instances : zlen (sv_instances s) = sv_max_clients s /\ 0 < sv_max_clients s < MAX_PEER_ID /\
    forall i mi, sv_instances s !! i = Some (Some mi) -> numbered s (Z.of_nat i) mi;
  inv_queue : exists k q, queue_is s k [] q /\ forall mi, queued_for q mi -> conn (sv_multi s) mi;
  inv_pending : forall mi, sv_pending s = Some mi -> conn (sv_multi s) mi;
  inv_wakeup : forall mi, sv_earliest_wakeup s = Some mi -> conn (sv_multi s) mi;
  inv_tun : sv_tunnel_type s = DEV_TYPE_TUN
}.

(** The entries of a table are connected clients. *)
Lemma table_members f t s he : table_ok f t s -> he ∈ concat (buckets t) -> conn (sv_multi s) (value he).
Proof.
  intros (ps & [Hw Hp] & Hl) Hhe.
  pose proof (wf_keyed _ Hw) as Hk. unfold keyed in Hk. rewrite Forall_forall in Hk. destruct (Hk he Hhe) as [k Ek].
  assert (Hin : (k, value he) ∈ ps).
  { rewrite <- Hp. apply list_elem_of_omap. exists he. split; [done|]. unfold pair_of. by rewrite Ek. }
  apply Hl in Hin as [Hc _]. exact Hc.
Qed.

Lemma inv_iter_ok s : sv_inv s -> iter_ok s.
Proof.
  intros H. destruct (inv_iter s H) as (ps & [Hw _] & _). split; [done|]. apply Forall_forall. intros he Hhe. by apply (table_members _ _ _ _ (inv_iter s H)).
Qed.

(** Clients keep their place in the tables. *)
Definition same_place (c c' : client) : Prop :=
  cl_real c' = cl_real c /\ cl_did_iter c' = cl_did_iter c /\ cl_did_real_hash c' = cl_did_real_hash c /\ peer_id_of c' = peer_id_of c.

#[export] Instance same_place_equiv : Equivalence same_place.
Proof. split; unfold same_place; red; [intros c; by split_and!|intros c c' (? & ? & ? & ?); split_and!; congruence|intros c1 c2 c3 (? & ? & ? & ?) (? & ? & ? & ?); split_and!; congruence]. Qed.

Definition same_places (M M' : gmap Z client) : Prop := forall mi, option_Forall2 same_place (M !! mi) (M' !! mi).

#[export] Instance same_places_refl : Reflexive same_places.
Proof. intros M mi. reflexivity. Qed.

Lemma client_place c c' : same_client c c' -> same_place c c'.
Proof. intros (E1 & _ & E2 & E3 & E4 & _). split_and!; try done. unfold peer_id_of. by rewrite E1. Qed.

Lemma same_clients_places M M' : same_clients M M' -> same_places M M'.
Proof. intros H mi. destruct (H mi) as [c c' Hc|]; constructor. by apply client_place. Qed.

Lemma kept_places keep mi M M' : same_clients (kept keep mi M) M' -> same_places M M'.
Proof.
  intros H x. destruct keep; cbn [kept] in H; [by apply same_clients_places|]. specialize (H x).
  destruct (decide (x = mi)) as [->|Hne]; [|rewrite lookup_alter_ne in H by done; destruct H as [c c' Hc|]; constructor; by apply client_place].
  rewrite lookup_alter_eq in H. destruct (M !! mi) as [c|]; cbn in H; inversion H as [? c' Hc|]; subst; constructor.
  apply client_place in Hc. exact Hc.
Qed.

Lemma insert_places M mi c c' : M !! mi = Some c -> same_place c c' -> same_places M (<[mi := c']> M).
Proof.
  intros Hc Hs x. destruct (decide (x = mi)) as [->|Hne]; [rewrite lookup_insert_eq, Hc; by constructor|by rewrite lookup_insert_ne].
Qed.

Lemma table_step f t s s' :
  (forall c c', same_place c c' -> f c' = f c) -> table_ok f t s -> conn_kept (sv_multi s) (sv_multi s') -> same_places (sv_clients s) (sv_clients s') ->
  table_ok f t s'.
Proof.
  intros Hf (ps & Hrel & Hl) Hk Hp. exists ps. split; [done|]. intros k mi. rewrite Hl. unfold listed. rewrite <- (Hk mi).
  specialize (Hp mi). destruct Hp as [c c' Hs|]; [|done]. apply and_iff_compat_l. pose proof (Hf _ _ Hs) as Ef. destruct Hs as (E1 & _).
  split; intros (c1 & [= <-] & E3 & E4); eexists; (split; [done|]; split; congruence).
Qed.

(** Events that change neither who is connected nor who is listed. *)
Lemma inv_step s s' :
  sv_inv s -> server_inv (sv_multi s') -> conn_kept (sv_multi s) (sv_multi s') -> same_places (sv_clients s) (sv_clients s') ->
  filters_wf (sv_clients s') -> sv_iter s' = sv_iter s ->
  (exists k q, queue_is s' k [] q /\ forall mi, queued_for q mi -> conn (sv_multi s) mi) ->
  (forall mi, sv_pending s' = Some mi -> conn (sv_multi s) mi) ->
  sv_tunnel_type s' = sv_tunnel_type s /\ sv_hash s' = sv_hash s /\ sv_instances s' = sv_instances s /\ sv_max_clients s' = sv_max_clients s /\
    sv_earliest_wakeup s' = sv_earliest_wakeup s -> sv_inv s'.
Proof.
  intros H Hr Hk Hp Hf Hi (k & q & Hq & Hqc) Hpd (Et & Eh & En & Em & Ew).
  assert (Hback : forall mi c', conn (sv_multi s') mi -> sv_clients s' !! mi = Some c' -> conn (sv_multi s) mi /\ exists c, sv_clients s !! mi = Some c /\ same_place c c').
  { intros mi c' Hc Ec'. split; [by apply Hk|]. specialize (Hp mi). rewrite Ec' in Hp. inversion Hp as [c ? Hs|]; subst. by exists c. }
  split.
  - done.
  - split; [|done]. intros mi Hc. apply Hk in Hc. destruct (proj1 (inv_clients s H) mi Hc) as [c Ec]. specialize (Hp mi). rewrite Ec in Hp. by inversion Hp.
  - rewrite Hi. apply (table_step _ _ s); [by intros c c' (_ & E & _)|apply H|done..].
  - rewrite Eh. apply (table_step _ _ s); [by intros c c' (_ & _ & E & _)|apply H|done..].
  - intros mi c' Hc Ec'. destruct (Hback mi c' Hc Ec') as (Hc0 & c & Ec & (_ & E2 & E3 & _)). rewrite E2, E3. by apply (inv_both s H mi).
  - intros mi c' Hc Ec'. destruct (Hback mi c' Hc Ec') as (Hc0 & c & Ec & (_ & _ & _ & E4)). rewrite E4, Em. by apply (inv_ids s H mi).
  - rewrite En, Em. destruct (inv_instances s H) as (H1 & H2 & H3). split; [done|]. split; [done|]. intros i mi Hi'.
    destruct (H3 i mi Hi') as (Hc & c & Ec & E1 & E2). split; [by apply Hk|]. specialize (Hp mi). rewrite Ec in Hp. inversion Hp as [? c' (_ & _ & E3 & E4) Ex Ey|].
    exists c'. split; [done|]. split; congruence.
  - exists k, q. split; [done|]. intros mi Hm. by apply Hk, Hqc.
  - intros mi Hm. by apply Hk, Hpd.
  - rewrite Ew. intros mi Hm. by apply Hk, (inv_wakeup s H).
  - rewrite Et. apply H.
Qed.

(** ** Tables *)

(** Different entries of a table have different keys. *)
Lemma apart_elem {K V} `{HashLaws K} (ps : list (K * V)) x y : apart ps -> x ∈ ps -> y ∈ ps -> x <> y -> same x.1 y = false.
Proof.
  induction ps as [|z ps IH]; intros Ha Hx Hy Hne; [by apply elem_of_nil in Hx|]. destruct Ha as [Hf Ha]. rewrite Forall_forall in Hf.
  apply elem_of_cons in Hx as [->|Hx], Hy as [->|Hy]; [done|by apply Hf|apply same_sym; by apply Hf|by apply IH].
Qed.

Lemma elem_lookup {K V} `{HashLaws K} (ps : list (K * V)) k v : apart ps -> (k, v) ∈ ps -> map_lookup k ps = Some v.
Proof.
  induction ps as [|y ps IH]; intros Ha Hin; [by apply elem_of_nil in Hin|]. destruct Ha as [Hf Ha]. cbn [map_lookup]. apply elem_of_cons in Hin as [<-|Hin].
  - unfold same. cbn [fst]. by rewrite compare_refl.
  - rewrite Forall_forall in Hf. pose proof (same_sym _ _ (Hf _ Hin)) as E. cbn [fst] in E. rewrite E. by apply IH.
Qed.

Lemma lookup_elem {K V} `{HashOps K} (ps : list (K * V)) k v : map_lookup k ps = Some v -> exists k', (k', v) ∈ ps /\ compare_function k k' = true.
Proof.
  induction ps as [|[k1 v1] ps IH]; [done|]. cbn [map_lookup]. destruct (same k (k1, v1)) eqn:E.
  - intros [= <-]. exists k1. split; [left|exact E].
  - intros Hl. destruct (IH Hl) as (k' & Hin & Hc). exists k'. split; [by right|done].
Qed.

Lemma lookup_none_elem {K V} `{HashOps K} (ps : list (K * V)) k x : map_lookup k ps = None -> x ∈ ps -> same k x = false.
Proof.
  induction ps as [|y ps IH]; intros Hl Hin; [by apply elem_of_nil in Hin|]. cbn [map_lookup] in Hl. destruct (same k y) eqn:E; [done|].
  apply elem_of_cons in Hin as [->|Hin]; [done|by apply IH].
Qed.

(** A client is taken out of a table it may be in. *)
Lemma table_remove_spec f t s mi c : table_ok f t s -> conn (sv_multi s) mi -> sv_clients s !! mi = Some c ->
  exists t' ps, table_remove t (f c) (cl_real c) = Ret t' /\ rel t' ps /\ forall k x, (k, x) ∈ ps <-> listed f s k x /\ x <> mi.
Proof.
  intros (ps & Hrel & Hl) Hc Ec. unfold table_remove. destruct (f c) eqn:Ed.
  - destruct (hash_remove_spec t (cl_real c) ps Hrel) as (t' & -> & Hr'). unfold map_remove in *.
    assert (Hin : (cl_real c, mi) ∈ ps) by (apply Hl; split; [done|by exists c]). pose proof (rel_apart _ _ Hrel) as Hap.
    rewrite (elem_lookup ps _ _ Hap Hin) in *. cbn [fst snd] in *. exists t'. eexists. split; [done|]. split; [exact Hr'|].
    intros k x. rewrite list_elem_of_filter, Hl. split.
    + intros [Hs Hlx]. split; [done|]. intros ->. destruct Hlx as (_ & c' & Ec' & _ & <-). rewrite Ec in Ec'. injection Ec' as <-.
      unfold same in Hs. cbn [fst] in Hs. by rewrite compare_refl in Hs.
    + intros [Hlx Hne]. split; [|done]. apply Hl in Hlx. apply (apart_elem ps (cl_real c, mi) (k, x) Hap Hin Hlx). intros [= _ E]. by symmetry in E.
  - exists t, ps. split; [done|]. split; [done|]. intros k x. rewrite Hl. split; [|tauto]. intros Hlx. split; [done|].
    intros ->. destruct Hlx as (_ & c' & Ec' & Ed' & _). congruence.
Qed.

(** ** Closing *)

Lemma queued_deref q mi x : queued_for (spec_deref q mi) x -> queued_for q x /\ x <> mi.
Proof.
  intros (y & (e & E & Hin)%list_elem_of_fmap). destruct e as [[z m]|]; [|done]. destruct (m =? mi) eqn:Em; [done|]. injection E as -> ->.
  apply Z.eqb_neq in Em. split; [by exists z|done].
Qed.

(** What is left of the tables, given what is left of the clients. *)
Definition only_without (s s' : server) (mi : Z) : Prop :=
  (forall x, conn (sv_multi s') x <-> conn (sv_multi s) x /\ x <> mi) /\ forall x, x <> mi -> sv_clients s' !! x = sv_clients s !! x.

Lemma table_without f t s s' mi ps :
  only_without s s' mi -> rel t ps -> (forall k x, (k, x) ∈ ps <-> listed f s k x /\ x <> mi) -> table_ok f t s'.
Proof.
  intros [Hcn Hcl] Hrel Hps. exists ps. split; [done|]. intros k x. rewrite Hps. unfold listed. rewrite Hcn. destruct (decide (x = mi)) as [->|Hne]; [naive_solver|].
  rewrite (Hcl x Hne). naive_solver.
Qed.

Lemma instances_without s s' mi c i :
  sv_inv s -> only_without s s' mi -> sv_clients s !! mi = Some c -> peer_id_of c = Some i -> 0 <= i -> sv_instances s' = <[Z.to_nat i := None]> (sv_instances s) ->
  forall j x, sv_instances s' !! j = Some (Some x) -> numbered s' (Z.of_nat j) x.
Proof.
  intros H [Hcn Hcl] Ec Ei Hi Es j x Hj. rewrite Es in Hj. destruct (decide (j = Z.to_nat i)) as [->|Hne].
  - destruct (decide (Z.to_nat i < length (sv_instances s))%nat); [by rewrite list_lookup_insert_eq in Hj|]. rewrite list_insert_ge in Hj by lia.
    apply lookup_lt_Some in Hj. lia.
  - rewrite list_lookup_insert_ne in Hj by done. destruct (proj2 (proj2 (inv_instances s H)) j x Hj) as (Hc & cx & Ex & E1 & E2).
    assert (x <> mi) by (intros ->; assert (Z.of_nat j = i) by congruence; lia). split; [by apply Hcn|]. exists cx. by rewrite Hcl.
Qed.

(** The invariant after a client is gone from the tables. *)
Lemma without_inv s s' mi :
  sv_inv s -> only_without s s' mi -> server_inv (sv_multi s') -> filters_wf (sv_clients s') ->
  table_ok cl_did_iter (sv_iter s') s' -> table_ok cl_did_real_hash (sv_hash s') s' ->
  zlen (sv_instances s') = zlen (sv_instances s) -> (forall i x, sv_instances s' !! i = Some (Some x) -> numbered s' (Z.of_nat i) x) ->
  (exists k q, queue_is s' k [] q /\ forall x, queued_for q x -> conn (sv_multi s) x /\ x <> mi) ->
  (forall x, sv_pending s' = Some x -> conn (sv_multi s) x /\ x <> mi) -> (forall x, sv_earliest_wakeup s' = Some x -> conn (sv_multi s) x /\ x <> mi) ->
  sv_tunnel_type s' = sv_tunnel_type s -> sv_max_clients s' = sv_max_clients s -> sv_inv s'.
Proof.
  intros H [Hcn Hcl] Hm Hf Hi Hh Hz Hn (k & q & Hq & Hqc) Hp Hw Et Em. split; try done.
  - split; [|done]. intros x [Hx Hne]%Hcn. rewrite Hcl by done. by apply (proj1 (inv_clients s H)).
  - intros x c [Hx Hne]%Hcn. rewrite Hcl by done. by apply (inv_both s H).
  - intros x c [Hx Hne]%Hcn. rewrite Hcl, Em by done. by apply (inv_ids s H).
  - rewrite Em, Hz. split; [apply H|]. split; [apply H|done].
  - exists k, q. split; [done|]. intros x Hx. by apply Hcn, Hqc.
  - intros x Hx. by apply Hcn, Hp.
  - intros x Hx. by apply Hcn, Hw.
  - rewrite Et. apply H.
Qed.

(** The client is closed: nothing names it any more, and the others are as they were. *)
Lemma close_inv s mi : sv_inv s -> conn (sv_multi s) mi ->
  exists s', multi_close_instance s mi = Ret s' /\ sv_inv s' /\ (forall x, conn (sv_multi s') x <-> conn (sv_multi s) x /\ x <> mi) /\
    (forall x, x <> mi -> sv_clients s' !! x = sv_clients s !! x) /\ sv_max_clients s' = sv_max_clients s /\
    forall k q, queue_is s k [] q -> queue_is s' k [] (spec_deref q mi).
Proof.
  intros H Hc. unfold multi_close_instance. destruct (get_client_spec s mi (inv_clients s H) Hc) as (c & Ec & ->). cbn [mbind outcome_mbind].
  destruct (table_remove_spec _ _ s mi c (inv_iter s H) Hc Ec) as (iter & ps & Hit & Hrel & Hps).
  destruct (table_remove_spec _ _ s mi c (inv_hash s H) Hc Ec) as (hash & ps2 & Hha & Hrel2 & Hps2).
  destruct (inv_ids s H mi c Hc Ec) as (id & Eid & Hid). destruct (inv_instances s H) as (Hi1 & Hi2 & Hi3).
  destruct Hc as (i & Hi & Hh). destruct (close_spec (sv_multi s) mi i (inv_routes s H) Hi Hh) as (m' & -> & Hm' & _ & Hcn). cbn [mbind outcome_mbind].
  destruct (inv_queue s H) as (k & q & (l & [Hr Hct] & <-) & Hqc).
  destruct (mbuf_dereference_instance_spec _ _ _ _ _ mi Hr Hct) as (h' & ms' & Ed & Hr' & Hct' & Hsame).
  sv_simpl. rewrite Hha, Hit. cbn [mbind outcome_mbind]. unfold peer_id_of, ctx_peer_id in Eid.
  destruct (c2_tls_multi (cl_context c)) as [tm|] eqn:Etm; [|done]. injection Eid as <-. cbn [mbind outcome_mbind must].
  assert (Eset : (if negb (m_peer_id tm =? MAX_PEER_ID) then array_set (sv_instances s) (m_peer_id tm) None else Ret (sv_instances s)) =
    Ret (<[Z.to_nat (m_peer_id tm) := None]> (sv_instances s))).
  { replace (m_peer_id tm =? MAX_PEER_ID) with false by (symmetry; apply Z.eqb_neq; lia). cbn [negb]. apply array_set_in. lia. }
  rewrite Eset. cbn [mbind outcome_mbind]. sv_simpl. rewrite Ed. cbn [mbind outcome_mbind]. eexists. split; [reflexivity|].
  match goal with |- sv_inv ?t /\ _ => set (s' := t) end.
  assert (Hw : only_without s s' mi) by (split; [exact Hcn|intros x Hx; unfold s', put_client; sv_simpl; by apply lookup_insert_ne]).
  split; [|split; [apply Hw|split; [apply Hw|split; [done|]]]].
  - apply (without_inv s s' mi H Hw); unfold s', put_client; sv_simpl; try done.
    + intros x cx Hx. destruct (decide (x = mi)) as [->|Hne]; [rewrite lookup_insert_eq in Hx; injection Hx as <-; by apply (proj2 (inv_clients s H) mi c)|].
      rewrite lookup_insert_ne in Hx by done. by apply (proj2 (inv_clients s H) x cx).
    + by eapply table_without.
    + by eapply table_without.
    + unfold zlen. by rewrite length_insert.
    + apply (instances_without s s' mi c (m_peer_id tm)); try done; [unfold peer_id_of, ctx_peer_id; by rewrite Etm|lia].
    + exists k, (abs h' (spec_deref l mi)). split; [exists (spec_deref l mi); by split|]. intros x Hx.
      rewrite (abs_same _ _ _ _ Hsame), abs_deref in Hx. apply queued_deref in Hx as [Hx Hne]. split; [by apply Hqc|done].
    + intros x. case_bool_decide as Ep; [done|]. intros Ex. split; [by apply (inv_pending s H)|congruence].
    + intros x. case_bool_decide as Ep; [done|]. intros Ex. split; [by apply (inv_wakeup s H)|congruence].
  - intros k1 q1 (l1 & [Hr1 Hct1] & <-). destruct (mbuf_dereference_instance_spec _ _ _ _ _ mi Hr1 Hct1) as (h2 & ms2 & Ed2 & Hr2 & Hct2 & Hsame2).
    rewrite Ed in Ed2. injection Ed2 as <- <-. exists (spec_deref l1 mi). split; [by split|]. by rewrite <- abs_deref, <- (abs_same _ _ _ _ Hsame2).
Qed.

(** ** Entering a client *)

(** Client [mi] notes of itself what [c'] says; the other clients are as they were. *)
Definition only_changed (s s' : server) (mi : Z) (c' : client) : Prop :=
  conn_kept (sv_multi s) (sv_multi s') /\ sv_clients s' = <[mi := c']> (sv_clients s).

Lemma listed_other f s s' mi c' k x : only_changed s s' mi c' -> x <> mi -> listed f s' k x <-> listed f s k x.
Proof. intros [Hk Hcl] Hne. unfold listed. rewrite Hcl, <- (Hk x), lookup_insert_ne by done. done. Qed.

Lemma listed_self f s s' mi c' k : only_changed s s' mi c' -> listed f s' k mi <-> conn (sv_multi s) mi /\ f c' = true /\ cl_real c' = k.
Proof. intros [Hk Hcl]. unfold listed. rewrite Hcl, <- (Hk mi), lookup_insert_eq. naive_solver. Qed.

(** A table where nothing changes. *)
Lemma table_keep f t s s' mi c c' :
  table_ok f t s -> only_changed s s' mi c' -> sv_clients s !! mi = Some c -> f c' = f c -> (f c = true -> cl_real c' = cl_real c) -> table_ok f t s'.
Proof.
  intros (ps & Hrel & Hl) Ho Ec Ef Er. exists ps. split; [done|]. intros k x. rewrite Hl. destruct (decide (x = mi)) as [->|Hne].
  - rewrite (listed_self _ _ _ _ _ _ Ho), Ef. unfold listed. split.
    + intros (Hc & c1 & E1 & Hf & <-). rewrite Ec in E1. injection E1 as <-. split; [done|]. split; [done|by apply Er].
    + intros (Hc & Hf & <-). split; [done|]. exists c. split; [done|]. split; [done|]. symmetry. by apply Er.
  - by rewrite (listed_other _ _ _ _ _ _ _ Ho).
Qed.

(** A table where the client is entered; [ps] is the table without it. *)
Lemma table_entered f t s s' mi c' ps :
  rel t ((cl_real c', mi) :: ps) -> (forall k x, (k, x) ∈ ps <-> listed f s k x /\ x <> mi) -> only_changed s s' mi c' -> conn (sv_multi s) mi -> f c' = true ->
  table_ok f t s'.
Proof.
  intros Hrel Hps Ho Hc Hf. eexists. split; [exact Hrel|]. intros k x. rewrite elem_of_cons, Hps. destruct (decide (x = mi)) as [->|Hne].
  - rewrite (listed_self _ _ _ _ _ _ Ho). split; [intros [[= ->]|[_ ?]]; done|]. intros (_ & _ & <-). by left.
  - rewrite (listed_other _ _ _ _ _ _ _ Ho) by done. split; [intros [[= _ ?]|[? _]]; done|]. intros ?. by right.
Qed.

(** A client that is in no table yet. *)
Lemma not_listed f s mi c (ps : list (mroute_addr * Z)) : sv_clients s !! mi = Some c -> f c = false ->
  (forall k x, (k, x) ∈ ps <-> listed f s k x) -> forall k x, (k, x) ∈ ps <-> listed f s k x /\ x <> mi.
Proof.
  intros Ec Ef Hl k x. rewrite Hl. split; [|tauto]. intros Hx. split; [done|]. intros ->. destruct Hx as (_ & c1 & E1 & Hf & _). congruence.
Qed.

(** The invariant when the record of one client and the tables change. *)
Lemma changed_inv s s' mi c c' :
  sv_inv s -> conn (sv_multi s) mi -> sv_clients s !! mi = Some c -> only_changed s s' mi c' -> server_inv (sv_multi s') -> filter_wf (cl_pf c') ->
  table_ok cl_did_iter (sv_iter s') s' -> table_ok cl_did_real_hash (sv_hash s') s' -> (cl_did_real_hash c' = true -> cl_did_iter c' = true) ->
  (exists i, peer_id_of c' = Some i /\ 0 <= i < sv_max_clients s) ->
  zlen (sv_instances s') = zlen (sv_instances s) -> (forall i x, sv_instances s' !! i = Some (Some x) -> numbered s' (Z.of_nat i) x) ->
  sv_mheap s' = sv_mheap s /\ sv_mbuf s' = sv_mbuf s /\ sv_pending s' = sv_pending s /\ sv_earliest_wakeup s' = sv_earliest_wakeup s /\
    sv_tunnel_type s' = sv_tunnel_type s /\ sv_max_clients s' = sv_max_clients s -> sv_inv s'.
Proof.
  intros H Hc Ec [Hk Hcl] Hm Hf Hi Hh Hb Hid Hz Hn (E1 & E2 & E3 & E4 & E5 & E6).
  assert (Hother : forall (P : client -> Prop), P c' -> (forall x cx, conn (sv_multi s) x -> sv_clients s !! x = Some cx -> P cx) ->
    forall x cx, conn (sv_multi s') x -> sv_clients s' !! x = Some cx -> P cx).
  { intros P H1 H2 x cx Hx. rewrite Hcl. destruct (decide (x = mi)) as [->|Hne]; [rewrite lookup_insert_eq; by intros [= <-]|].
    rewrite lookup_insert_ne by done. apply H2. by apply Hk. }
  split; try done.
  - split.
    + intros x Hx. rewrite Hcl. destruct (decide (x = mi)) as [->|Hne]; [by rewrite lookup_insert_eq|]. rewrite lookup_insert_ne by done.
      apply (proj1 (inv_clients s H)). by apply Hk.
    + intros x cx. rewrite Hcl. destruct (decide (x = mi)) as [->|Hne]; [rewrite lookup_insert_eq; by intros [= <-]|]. rewrite lookup_insert_ne by done. apply H.
  - apply (Hother (fun c => cl_did_real_hash c = true -> cl_did_iter c = true)); [done|apply (inv_both s H)].
  - rewrite E6. apply (Hother (fun c => exists i, peer_id_of c = Some i /\ 0 <= i < sv_max_clients s)); [done|apply (inv_ids s H)].
  - rewrite E6, Hz. split; [apply H|]. split; [apply H|done].
  - destruct (inv_queue s H) as (k & q & Hq & Hqc). exists k, q. split; [by apply (same_queue s)|]. intros x Hx. by apply Hk, Hqc.
  - rewrite E3. intros x Hx. by apply Hk, (inv_pending s H).
  - rewrite E4. intros x Hx. by apply Hk, (inv_wakeup s H).
  - rewrite E5. apply H.
Qed.

(** The array where nothing changes. *)
Lemma numbered_keep s s' mi c c' :
  sv_inv s -> only_changed s s' mi c' -> sv_clients s !! mi = Some c -> (cl_did_real_hash c = true -> cl_did_real_hash c' = true /\ peer_id_of c' = peer_id_of c) ->
  forall i x, sv_instances s !! i = Some (Some x) -> numbered s' (Z.of_nat i) x.
Proof.
  intros H [Hk Hcl] Ec Hs i x Hi. destruct (proj2 (proj2 (inv_instances s H)) i x Hi) as (Hx & cx & Ex & E1 & E2). split; [by apply Hk|]. rewrite Hcl.
  destruct (decide (x = mi)) as [->|Hne]; [|rewrite lookup_insert_ne by done; by exists cx]. rewrite lookup_insert_eq. rewrite Ec in Ex. injection Ex as <-.
  exists c'. destruct (Hs E1) as [E3 E4]. split; [done|]. split; [done|congruence].
Qed.

(** ** A client's own members change *)

Lemma inv_put_client s mi c c' :
  sv_inv s -> sv_clients s !! mi = Some c -> same_place c c' -> filter_wf (cl_pf c') -> sv_inv (put_client s mi c').
Proof.
  intros H Hc Hs Hf. destruct (inv_queue s H) as (k & q & Hq & Hqc). apply (inv_step s); try done.
  - apply H.
  - by eapply insert_places.
  - intros x cx Hx. change (sv_clients (put_client s mi c')) with (<[mi := c']> (sv_clients s)) in Hx.
    destruct (decide (x = mi)) as [->|Hne]; [rewrite lookup_insert_eq in Hx; by injection Hx as <-|].
    rewrite lookup_insert_ne in Hx by done. by eapply (proj2 (inv_clients s H)).
  - by exists k, q.
  - apply (inv_pending s H).
Qed.

Lemma inv_put_context s mi c ctx : sv_inv s -> sv_clients s !! mi = Some c -> ctx_peer_id ctx = peer_id_of c -> sv_inv (put_context s mi c ctx).
Proof. intros H Hc Hp. apply (inv_put_client s mi c); [done..|by split_and!|]. by apply (proj2 (inv_clients s H) mi c). Qed.

(** ** New clients *)

(** What a new client is: its memory was not in use, its structures are cleared, so its peer
    id is 0. *)
Definition new_ok (s : server) (mi : Z) (i : multi_instance) (c : client) : Prop :=
  MultiSpec.op_ok (sv_multi s) (OpCreate mi i) /\ filter_wf (cl_pf c) /\ cl_did_iter c = false /\ cl_did_real_hash c = false /\ peer_id_of c = Some 0.

Definition with_client (s : server) (mi : Z) (i : multi_instance) (c : client) : server :=
  put_client s mi c <| sv_multi := set_insts (sv_multi s) (<[mi := i]> (inst_heap (sv_multi s))) |>.

Lemma table_with_client f t s mi i c :
  table_ok f t s -> (forall x, conn (sv_multi (with_client s mi i c)) x <-> conn (sv_multi s) x \/ x = mi) -> ~ conn (sv_multi s) mi -> f c = false ->
  table_ok f t (with_client s mi i c).
Proof.
  intros (ps & Hrel & Hl) Hcn Hnc Hf. exists ps. split; [done|]. intros k x. rewrite Hl. unfold listed. rewrite Hcn.
  change (sv_clients (with_client s mi i c)) with (<[mi := c]> (sv_clients s)). destruct (decide (x = mi)) as [->|Hne].
  - rewrite lookup_insert_eq. split; [naive_solver|]. intros (_ & c1 & [= <-] & E & _). congruence.
  - rewrite lookup_insert_ne by done. naive_solver.
Qed.

Lemma with_client_inv s mi i c : sv_inv s -> new_ok s mi i c ->
  sv_inv (with_client s mi i c) /\ ~ conn (sv_multi s) mi /\ forall x, conn (sv_multi (with_client s mi i c)) x <-> conn (sv_multi s) x \/ x = mi.
Proof.
  intros H (Hop & Hf & Hdi & Hdr & Hid).
  destruct (server_exec_inv 0 (fun _ _ _ => true) (sv_multi s) (OpCreate mi i) (inv_routes s H) Hop) as (m' & Em & Hm' & _ & Hcn).
  cbn [server_exec] in Em. injection Em as <-. assert (Hnc : ~ conn (sv_multi s) mi) by (destruct Hop as (Hn & _); intros (j & Hj & _); congruence).
  split; [|split; [done|exact Hcn]]. assert (Hne : forall x, conn (sv_multi s) x -> x <> mi) by (intros x Hx ->; done).
  assert (Hcl : forall x cx, conn (sv_multi (with_client s mi i c)) x -> sv_clients (with_client s mi i c) !! x = Some cx ->
    (x = mi /\ cx = c) \/ (conn (sv_multi s) x /\ sv_clients s !! x = Some cx)).
  { intros x cx Hx. change (sv_clients (with_client s mi i c)) with (<[mi := c]> (sv_clients s)). destruct (decide (x = mi)) as [->|Hn].
    - rewrite lookup_insert_eq. intros [= <-]. by left.
    - rewrite lookup_insert_ne by done. intros E. right. split; [|done]. apply Hcn in Hx. by destruct Hx. }
  split; try (unfold with_client, put_client; sv_simpl; done).
  - split.
    + intros x Hx. apply Hcn in Hx. unfold with_client, put_client. sv_simpl. destruct (decide (x = mi)) as [->|Hn]; [by rewrite lookup_insert_eq|].
      rewrite lookup_insert_ne by done. apply (proj1 (inv_clients s H)). by destruct Hx.
    + intros x cx Hx. unfold with_client, put_client in Hx. change (<[mi := c]> (sv_clients s) !! x = Some cx) in Hx.
      destruct (decide (x = mi)) as [->|Hn]; [rewrite lookup_insert_eq in Hx; by injection Hx as <-|]. rewrite lookup_insert_ne in Hx by done. by eapply (proj2 (inv_clients s H)).
  - apply table_with_client; [apply (inv_iter s H)|done..].
  - apply table_with_client; [apply (inv_hash s H)|done..].
  - intros x cx Hx Ex. destruct (Hcl x cx Hx Ex) as [[-> ->]|[H1 H2]]; [congruence|by apply (inv_both s H x)].
  - intros x cx Hx Ex. destruct (Hcl x cx Hx Ex) as [[-> ->]|[H1 H2]]; [|by apply (inv_ids s H x)]. exists 0. split; [done|]. pose proof (proj1 (proj2 (inv_instances s H))). sv_simpl. cbn. lia.
  - destruct (inv_instances s H) as (H1 & H2 & H3). split; [done|]. split; [done|]. intros j x Hj. destruct (H3 j x Hj) as (Hx & cx & Ex & E1 & E2).
    split; [apply Hcn; by left|]. exists cx. split; [|done]. unfold with_client, put_client. sv_simpl. by rewrite lookup_insert_ne by (intros <-; done).
  - destruct (inv_queue s H) as (k & q & Hq & Hqc). exists k, q. split; [done|]. intros x Hx. apply Hcn. left. by apply Hqc.
  - intros x Hx. apply Hcn. left. by apply (inv_pending s H).
  - intros x Hx. apply Hcn. left. by apply (inv_wakeup s H).
  - apply (inv_tun s H).
Qed.

(** The table [iter] with the same entries in another order. *)
Lemma same_entries_inv s iter hash :
  sv_inv s -> (forall ps, rel (sv_iter s) ps -> rel iter ps) -> (forall ps, rel (sv_hash s) ps -> rel hash ps) -> sv_inv (s <| sv_iter := iter |> <| sv_hash := hash |>).
Proof.
  intros H Hi Hh. destruct (inv_iter s H) as (p1 & R1 & L1). destruct (inv_hash s H) as (p2 & R2 & L2). destruct H. split; try done.
  - exists p1. split; [by apply Hi|done].
  - exists p2. split; [by apply Hh|done].
Qed.

(** The result of opening an instance. *)
Definition created (s s' : server) (mi : Z) (c : client) (o : option Z) : Prop :=
  sv_inv s' /\ (forall x, x <> mi -> sv_clients s' !! x = sv_clients s !! x) /\ sv_max_clients s' = sv_max_clients s /\
  match o with
  | None => conn_kept (sv_multi s) (sv_multi s')
  | Some x => x = mi /\ (forall x, conn (sv_multi s') x <-> conn (sv_multi s) x \/ x = mi) /\ sv_hash s' = sv_hash s /\ n_elements (sv_hash s) < sv_max_clients s /\
      exists c', sv_clients s' !! mi = Some c' /\ cl_real c' = cl_real c /\ cl_did_iter c' = true /\ cl_did_real_hash c' = false /\ peer_id_of c' = Some 0
  end.

Lemma created_err s s1 mi c : sv_inv s1 -> ~ conn (sv_multi s) mi -> (forall x, conn (sv_multi s1) x <-> conn (sv_multi s) x \/ x = mi) ->
  (forall x, x <> mi -> sv_clients s1 !! x = sv_clients s !! x) -> sv_max_clients s1 = sv_max_clients s ->
  exists s', multi_close_instance s1 mi = Ret s' /\ created s s' mi c None.
Proof.
  intros H1 Hnc Hcn Hcl Em. destruct (close_inv s1 mi H1) as (s' & -> & H' & Hcn' & Hcl' & Em' & _); [apply Hcn; by right|]. exists s'. split; [done|].
  split; [done|]. split; [intros x Hx; by rewrite Hcl', Hcl|]. split; [congruence|]. intros x. rewrite Hcn', Hcn. split; [|tauto]. intros Hx. split; [by left|]. by intros ->.
Qed.

Lemma create_spec s mi i c : sv_inv s -> new_ok s mi i c -> exists s' o, multi_create_instance s mi i c = Ret (s', o) /\ created s s' mi c o.
Proof.
  intros H Hnew. destruct (with_client_inv s mi i c H Hnew) as (H0 & Hnc & Hcn). destruct Hnew as (_ & Hf & Hdi & Hdr & Hid).
  unfold multi_create_instance. cbv zeta. fold (with_client s mi i c). set (s0 := with_client s mi i c) in *.
  assert (Hcl0 : forall x, x <> mi -> sv_clients s0 !! x = sv_clients s !! x) by (intros x Hx; by apply lookup_insert_ne).
  destruct (c2_signal (cl_context c)).
  { destruct (created_err s s0 mi c H0 Hnc Hcn Hcl0 eq_refl) as (s' & -> & Hs'). cbn [mbind outcome_mbind]. by exists s', None. }
  set (c1 := c <| cl_context := cl_context c <| c2_context_auth := false |> |>). set (s1 := put_client s0 mi c1).
  assert (E0 : sv_clients s0 !! mi = Some c) by apply lookup_insert_eq. assert (E1 : sv_clients s1 !! mi = Some c1) by apply lookup_insert_eq.
  assert (H1 : sv_inv s1) by (apply (inv_put_client s0 mi c); [done|done|by split_and!|done]).
  assert (Hcl1 : forall x, x <> mi -> sv_clients s1 !! x = sv_clients s !! x) by (intros x Hx; rewrite <- Hcl0 by done; by apply lookup_insert_ne).
  destruct (sv_max_clients s1 <=? n_elements (sv_hash s1)) eqn:Emax.
  { destruct (created_err s s1 mi c H1 Hnc Hcn Hcl1 eq_refl) as (s' & -> & Hs'). cbn [mbind outcome_mbind]. by exists s', None. }
  destruct (inv_iter s1 H1) as (ps & Hrel & Hl). destruct (hash_add_spec (sv_iter s1) (cl_real c1) mi false ps Hrel) as (iter & E & Hrel').
  change (cl_real c1) with (cl_real c) in *. rewrite E. unfold map_add in *. cbn [mbind outcome_mbind]. destruct (map_lookup (cl_real c) ps) as [y|] eqn:El; cbn [fst snd] in *.
  - assert (H2 : sv_inv (s1 <| sv_iter := iter |>)).
    { destruct H1. split; try done. exists ps. by split. }
    destruct (created_err s (s1 <| sv_iter := iter |>) mi c H2 Hnc Hcn Hcl1 eq_refl) as (s' & -> & Hs'). cbn [mbind outcome_mbind]. by exists s', None.
  - eexists _, (Some mi). split; [reflexivity|]. set (c2 := c1 <| cl_did_iter := true |>). set (s2 := put_client _ mi c2).
    assert (Ho : only_changed s1 s2 mi c2) by (split; [reflexivity|done]). assert (Hc1 : conn (sv_multi s1) mi) by (apply Hcn; by right).
    assert (H2 : sv_inv s2).
    { apply (changed_inv s1 s2 mi c1 c2); try done; try apply H1.
      - apply (table_entered _ _ s1 s2 mi c2 ps); try done. by apply (not_listed _ _ mi c1).
      - apply (table_keep _ _ s1 s2 mi c1 c2); try done. apply H1.
      - exists 0. split; [done|]. pose proof (proj1 (proj2 (inv_instances s1 H1))). lia.
      - apply (numbered_keep s1 s2 mi c1 c2); try done. }
    split; [done|]. split; [intros x Hx; rewrite <- Hcl1 by done; by apply lookup_insert_ne|]. split; [done|]. split; [done|]. split; [exact Hcn|]. split; [done|].
    apply Z.leb_gt in Emax. split; [exact Emax|]. exists c2. split; [apply lookup_insert_eq|done].
Qed.

(** ** Peer ids *)

Lemma free_slot_spec (l : list (option Z)) : (length (omap id l) < length l)%nat -> l !! free_slot l = Some None.
Proof. induction l as [|[x|] l IH]; intros Hl; [cbn in Hl; lia| |done]. cbn in *. apply IH. lia. Qed.

Lemma omap_id_elem (l : list (option Z)) x : x ∈ omap id l <-> exists i, l !! i = Some (Some x).
Proof.
  rewrite list_elem_of_omap. split; [intros (o & Ho & Eo); cbn in Eo; subst o; by apply list_elem_of_lookup in Ho|].
  intros (i & Hi). exists (Some x). split; [by eapply list_elem_of_lookup_2|done].
Qed.

Lemma omap_id_nodup (l : list (option Z)) : (forall i j x, l !! i = Some (Some x) -> l !! j = Some (Some x) -> i = j) -> NoDup (omap id l).
Proof.
  induction l as [|[x|] l IH]; intros Hl; [constructor|..]; cbn.
  - constructor; [|apply IH; intros i j y Hi Hj; by apply (Hl (S i) (S j) y) in Hi as [= ->]].
    intros (i & Hi)%omap_id_elem. by specialize (Hl 0%nat (S i) x eq_refl Hi).
  - apply IH. intros i j y Hi Hj. by apply (Hl (S i) (S j) y) in Hi as [= ->].
Qed.

Lemma length_pairs {K V} (l : list (hash_element K V)) : Forall (fun he => is_Some (Hash.key he)) l -> length (pairs l) = length l.
Proof. induction 1 as [|he l [k Ek] _ IH]; [done|]. rewrite (pairs_cons he l k Ek). cbn [length]. by rewrite IH. Qed.

Lemma rel_count {K V} `{HashLaws K} (h : hash K V) ps : rel h ps -> n_elements h = zlen ps.
Proof. intros [Hw Hp]. rewrite (wf_count h Hw). unfold zlen. rewrite <- Hp. f_equal. symmetry. apply length_pairs. apply (wf_keyed h Hw). Qed.

(** No more peer ids are in use than clients are in the table. *)
Lemma instances_bound s : sv_inv s -> Z.of_nat (length (omap id (sv_instances s))) <= n_elements (sv_hash s).
Proof.
  intros H. destruct (inv_hash s H) as (ps & Hrel & Hl). rewrite (rel_count _ _ Hrel). unfold zlen. apply Nat2Z.inj_le. rewrite <- (length_fmap snd ps).
  apply submseteq_length, NoDup_submseteq.
  - apply omap_id_nodup. intros i j x Hi Hj. destruct (proj2 (proj2 (inv_instances s H)) i x Hi) as (_ & c & Ec & _ & E1).
    destruct (proj2 (proj2 (inv_instances s H)) j x Hj) as (_ & c' & Ec' & _ & E2). assert (Z.of_nat i = Z.of_nat j) by congruence. lia.
  - intros x (i & Hi)%omap_id_elem. destruct (proj2 (proj2 (inv_instances s H)) i x Hi) as (Hc & c & Ec & E1 & _). apply list_elem_of_fmap.
    exists (cl_real c, x). split; [done|]. apply Hl. split; [done|]. by exists c.
Qed.

(** A client that is in the one table only has a key that the other does not have. *)
Lemma real_absent s mi c ps :
  sv_inv s -> conn (sv_multi s) mi -> sv_clients s !! mi = Some c -> cl_did_iter c = true -> cl_did_real_hash c = false ->
  (forall k x, (k, x) ∈ ps <-> listed cl_did_real_hash s k x) -> map_lookup (cl_real c) ps = None.
Proof.
  intros H Hc Ec Edi Edr Hl. destruct (map_lookup (cl_real c) ps) as [x|] eqn:E; [|done]. exfalso.
  apply lookup_elem in E as (k' & Hin & Hcmp). apply Hl in Hin as (Hx & cx & Ex & Erx & <-). destruct (inv_iter s H) as (qs & Hrel & Hq).
  assert (H1 : (cl_real c, mi) ∈ qs) by (apply Hq; split; [done|by exists c]).
  assert (H2 : (cl_real cx, x) ∈ qs) by (apply Hq; split; [done|]; exists cx; split; [done|]; split; [by apply (inv_both s H x)|done]).
  assert (Hne : (cl_real c, mi) <> (cl_real cx, x)) by (intros [= _ ->]; congruence).
  pose proof (apart_elem qs _ _ (rel_apart _ _ Hrel) H1 H2 Hne) as Hs. unfold same in Hs. cbn [fst] in Hs. congruence.
Qed.

Lemma hash_enter (h : hash mroute_addr Z) k v ps : rel h ps -> map_lookup k ps = None ->
  exists h', hash_add_fast h (hash_bucket h (hash_value h k)) k (hash_value h k) v = Ret h' /\ rel h' ((k, v) :: ps).
Proof. intros Hrel Hn. destruct (lookup_fast_spec h k ps Hrel) as (_ & _ & b & Eb & _). rewrite Eb. by apply hash_add_fast_spec. Qed.

(** The new client is in both tables, and has the number of a slot that was free. *)
Lemma assign_spec s mi c :
  sv_inv s -> conn (sv_multi s) mi -> sv_clients s !! mi = Some c -> cl_did_iter c = true -> cl_did_real_hash c = false -> n_elements (sv_hash s) < sv_max_clients s ->
  exists s' c' i, assign_peer_id s (hash_value (sv_hash s) (cl_real c)) mi = Ret s' /\ sv_inv s' /\ only_changed s s' mi c' /\
    cl_did_iter c' = true /\ cl_did_real_hash c' = true /\ cl_real c' = cl_real c /\ sv_multi s' = sv_multi s /\
    sv_instances s !! i = Some None /\ sv_instances s' = <[i := Some mi]> (sv_instances s) /\ peer_id_of c' = Some (Z.of_nat i).
Proof.
  intros H Hc Ec Edi Edr Hn. unfold assign_peer_id. destruct (get_client_spec s mi (inv_clients s H) Hc) as (c0 & E0 & ->). rewrite Ec in E0. injection E0 as <-. cbn [mbind outcome_mbind].
  destruct (inv_hash s H) as (ps & Hrel & Hl). pose proof (real_absent s mi c ps H Hc Ec Edi Edr Hl) as Habs.
  destruct (hash_enter (sv_hash s) (cl_real c) mi ps Hrel Habs) as (h & -> & Hrel'). cbn [mbind outcome_mbind].
  destruct (inv_instances s H) as (Hz & Hmax & Hnum). bdecide. cbn [c_assert mbind outcome_mbind].
  assert (Hslot : sv_instances s !! free_slot (sv_instances s) = Some None).
  { apply free_slot_spec. pose proof (instances_bound s H). unfold zlen in Hz. lia. }
  set (i := free_slot (sv_instances s)) in *. assert (Hi : Z.of_nat i < sv_max_clients s) by (apply lookup_lt_Some in Hslot; unfold zlen in Hz; lia).
  bdecide. cbn [c_assert mbind outcome_mbind]. destruct (inv_ids s H mi c Hc Ec) as (id & Eid & Hid). unfold peer_id_of, ctx_peer_id in Eid.
  change (cl_context (c <| cl_did_real_hash := true |>)) with (cl_context c). destruct (c2_tls_multi (cl_context c)) as [tm|] eqn:Etm; [|done]. cbn [must mbind outcome_mbind].
  rewrite array_set_in by lia. cbn [mbind outcome_mbind]. rewrite Nat2Z.id.
  match goal with |- context [put_client ?t mi ?cc] => set (s1 := t); set (c' := cc) end. set (s' := put_client s1 mi c').
  assert (Ho : only_changed s s' mi c') by (split; [reflexivity|done]).
  exists s', c', i. split; [done|]. assert (Hpid : peer_id_of c' = Some (Z.of_nat i)) by done.
  assert (H' : sv_inv s').
  { apply (changed_inv s s' mi c c'); try done; try apply H.
    - by apply (proj2 (inv_clients s H) mi c).
    - apply (table_keep _ _ s s' mi c c'); try done. apply H.
    - apply (table_entered _ _ s s' mi c' ps); try done. by apply (not_listed _ _ mi c).
    - exists (Z.of_nat i). split; [done|lia].
    - unfold s', s1, put_client. sv_simpl. unfold zlen. by rewrite length_insert.
    - intros j x Hj. unfold s', s1, put_client in Hj. change (<[i := Some mi]> (sv_instances s) !! j = Some (Some x)) in Hj. destruct (decide (i = j)) as [<-|Hne].
      + rewrite list_lookup_insert_eq in Hj by (by eapply lookup_lt_Some). injection Hj as <-. split; [done|]. exists c'. split; [apply lookup_insert_eq|done].
      + rewrite list_lookup_insert_ne in Hj by done. apply (numbered_keep s s' mi c c'); try done. intros ?. congruence. }
  split; [done|]. split; [done|]. by split_and!.
Qed.

(** ** Whose packet it is *)

(** The peer id in the header of a data packet. *)
Definition named_peer (p : list Z) : option Z :=
  match p with
  | b :: b1 :: b2 :: b3 :: _ => if b / 8 =? P_DATA_V2 then Some (be_value [b1; b2; b3]) else None
  | _ => None
  end.

Definition real_of (from : link_socket_actual) : option mroute_addr :=
  let '(real, ok) := mroute_extract_openvpn_sockaddr mroute_addr_init (sockaddr_of from) true in if ok : bool then Some real else None.

(** No client has the address. *)
Definition address_free (s : server) (from : link_socket_actual) : Prop :=
  forall real x cx, real_of from = Some real -> conn (sv_multi s) x -> sv_clients s !! x = Some cx -> cl_did_real_hash cx = true ->
    mroute_addr_equal real (cl_real cx) = false.

(** The packet is of no client: the number it names has no client, or it names none and no client has
    the address it comes from. *)
Definition unknown (s : server) (packet : list Z) (from : link_socket_actual) : Prop :=
  match named_peer packet with
  | Some id => if decide (id = MAX_PEER_ID) then address_free s from else forall x, sv_instances s !! Z.to_nat id <> Some (Some x)
  | None => address_free s from
  end.

(** The client of a packet: by the number in the packet, by the address it comes from, or a
    new one that was admitted; and whether the client has moved.  Nobody, only when the packet is
    empty or of no client. *)
Inductive dispatched (s s' : server) (packet : list Z) (from : link_socket_actual) (admitted : bool) : option Z -> bool -> Prop :=
| by_number id x cx same :
    named_peer packet = Some id -> id <> MAX_PEER_ID -> sv_instances s !! Z.to_nat id = Some (Some x) ->
    conn (sv_multi s') x -> sv_clients s !! x = Some cx -> link_socket_actual_match (c2_from (cl_context cx)) from = Ret same ->
    dispatched s s' packet from admitted (Some x) (negb same)
| by_address real x cx :
    (forall id, named_peer packet = Some id -> id = MAX_PEER_ID) -> real_of from = Some real ->
    conn (sv_multi s') x -> sv_clients s !! x = Some cx -> mroute_addr_equal real (cl_real cx) = true ->
    dispatched s s' packet from admitted (Some x) false
| opened real x cx :
    admitted = true -> unknown s packet from -> real_of from = Some real -> ~ conn (sv_multi s) x -> conn (sv_multi s') x ->
    sv_clients s' !! x = Some cx -> cl_real cx = real -> cl_did_iter cx = true -> cl_did_real_hash cx = true ->
    dispatched s s' packet from admitted (Some x) false
| nobody : real_of from = None \/ packet = [] \/ unknown s packet from -> dispatched s s' packet from admitted None false.

Definition packet_ok (buf : buffer) : Prop := buf_wf buf /\ Forall is_u8 (content buf).

(** All connected clients are in both tables. *)
Definition settled (s : server) : Prop :=
  forall mi c, conn (sv_multi s) mi -> sv_clients s !! mi = Some c -> cl_did_iter c = true /\ cl_did_real_hash c = true.

(** The addresses of the clients are addresses. *)
Definition families_ok (s : server) : Prop :=
  forall x cx, conn (sv_multi s) x -> sv_clients s !! x = Some cx ->
    sa_family (c2_from (cl_context cx)) = AF_INET \/ sa_family (c2_from (cl_context cx)) = AF_INET6.

Lemma match_returns a b : sa_family a = AF_INET \/ sa_family a = AF_INET6 -> exists same, link_socket_actual_match a b = Ret same.
Proof. unfold link_socket_actual_match, by_family. intros [-> | ->]; eexists; reflexivity. Qed.

Lemma peer_field b b1 b2 b3 : Forall is_u8 [b; b1; b2; b3] -> Z.land (be_value [b; b1; b2; b3]) 0xFFFFFF = be_value [b1; b2; b3].
Proof.
  intros Hu. change 0xFFFFFF with (2 ^ 24 - 1). rewrite land_mask by lia. repeat match goal with H : Forall _ (_ :: _) |- _ => apply Forall_cons in H as [? H] end.
  unfold is_u8, be_value in *. cbn [fold_left]. symmetry. apply (Z.mod_unique _ _ b); [left; lia|lia].
Qed.

(** A data packet that names its client. *)
Lemma by_peer_id_spec s pre b b1 b2 b3 c post from :
  sv_inv s -> families_ok s -> Forall is_u8 (b :: b1 :: b2 :: b3 :: c) ->
  let id := be_value [b1; b2; b3] in
  exists o moved, by_peer_id s (conc pre (b :: b1 :: b2 :: b3 :: c) post) from (zlen pre) = Ret (o, moved, id =? MAX_PEER_ID) /\
    match o with
    | Some x => id <> MAX_PEER_ID /\ sv_instances s !! Z.to_nat id = Some (Some x) /\ conn (sv_multi s) x /\
        exists cx same, sv_clients s !! x = Some cx /\ link_socket_actual_match (c2_from (cl_context cx)) from = Ret same /\ moved = negb same
    | None => moved = false /\ (id <> MAX_PEER_ID -> forall x, sv_instances s !! Z.to_nat id <> Some (Some x))
    end.
Proof.
  intros H Hfam Hu id. unfold by_peer_id.
  pose proof (buf_load_conc pre (b :: b1 :: b2 :: b3 :: c) post 0 4 ltac:(lia) ltac:(lia) ltac:(zlia)) as El4. rewrite Z.add_0_r in El4.
  rewrite El4. cbn [mbind outcome_mbind]. change (slice 0 4 (b :: b1 :: b2 :: b3 :: c)) with [b; b1; b2; b3]. assert (Hu4 : Forall is_u8 [b; b1; b2; b3]) by (by apply (Forall_take _ 4) in Hu).
  rewrite (peer_field b b1 b2 b3 Hu4). fold id. cbv zeta. assert (Hid : 0 <= id) by (apply Forall_cons in Hu4 as [_ Hu3]; apply (be_value_range _ Hu3)).
  destruct (id =? MAX_PEER_ID) eqn:Em; cbn [negb andb]; [apply Z.eqb_eq in Em; by exists None, false|]. apply Z.eqb_neq in Em.
  destruct (inv_instances s H) as (Hz & _ & Hn). destruct (id <? sv_max_clients s) eqn:El.
  2: { exists None, false. split; [done|]. split; [done|]. intros _ x Hx%lookup_lt_Some. apply Z.ltb_ge in El. unfold zlen in Hz. lia. }
  apply Z.ltb_lt in El.
  destruct (lookup_lt_is_Some_2 (sv_instances s) (Z.to_nat id) ltac:(unfold zlen in Hz; lia)) as [o Ho].
  rewrite (array_get_Some (sv_instances s) id o) by (first [lia|done]). cbn [mbind outcome_mbind]. destruct o as [x|].
  2: { exists None, false. split; [done|]. split; [done|]. intros _ x Hx. congruence. }
  destruct (Hn _ _ Ho) as (Hx & cx & Ex & _). destruct (get_client_spec s x (inv_clients s H) Hx) as (c0 & E0 & ->). rewrite Ex in E0. injection E0 as <-. cbn [mbind outcome_mbind].
  destruct (match_returns _ from (Hfam x cx Hx Ex)) as (same & Es). rewrite Es. cbn [mbind outcome_mbind]. exists (Some x), (negb same). split; [done|].
  split; [done|]. split; [done|]. split; [done|]. by exists cx, same.
Qed.

Lemma named_v2 b p : is_u8 b -> (Z.shiftr b P_OPCODE_SHIFT =? P_DATA_V2) && (4 <=? zlen (b :: p)) = true ->
  exists b1 b2 b3 c, p = b1 :: b2 :: b3 :: c /\ named_peer (b :: p) = Some (be_value [b1; b2; b3]).
Proof.
  intros Hb [E1 E2]%andb_true_iff. apply Z.leb_le in E2. destruct p as [|b1 [|b2 [|b3 c]]]; try (unfold zlen in E2; cbn in E2; lia).
  exists b1, b2, b3, c. split; [done|]. unfold named_peer. change P_OPCODE_SHIFT with 3 in E1. rewrite Z.shiftr_div_pow2 in E1 by lia. change (2 ^ 3) with 8 in E1. by rewrite E1.
Qed.

Lemma not_named_v2 b p : (Z.shiftr b P_OPCODE_SHIFT =? P_DATA_V2) && (4 <=? zlen (b :: p)) = false -> named_peer (b :: p) = None.
Proof.
  intros E. unfold named_peer. destruct p as [|b1 [|b2 [|b3 c]]]; try done. change P_OPCODE_SHIFT with 3 in E. rewrite Z.shiftr_div_pow2 in E by lia. change (2 ^ 3) with 8 in E.
  destruct (b / 8 =? P_DATA_V2); [|done]. cbn [andb] in E. apply Z.leb_gt in E. unfold zlen in E. cbn in E. lia.
Qed.

(** The lookup by address. *)
Lemma lookup_real s real : sv_inv s ->
  exists h he, hash_lookup_fast (sv_hash s) (hash_bucket (sv_hash s) (hash_value (sv_hash s) real)) real (hash_value (sv_hash s) real) = Ret (h, he) /\
    sv_inv (s <| sv_hash := h |>) /\ hash_value h real = hash_value (sv_hash s) real /\
    match he with
    | Some he => exists cx, conn (sv_multi s) (value he) /\ sv_clients s !! value he = Some cx /\ cl_did_real_hash cx = true /\ mroute_addr_equal real (cl_real cx) = true
    | None => forall x cx, conn (sv_multi s) x -> sv_clients s !! x = Some cx -> cl_did_real_hash cx = true -> mroute_addr_equal real (cl_real cx) = false
    end.
Proof.
  intros H. destruct (inv_hash s H) as (ps & Hrel & Hl). destruct (lookup_fast_spec (sv_hash s) real ps Hrel) as (h & he & b & -> & E & Hrel' & Ev & _ & Hm).
  exists h, he. split; [done|]. split; [destruct H; split; try done; by exists ps|]. split; [done|]. destruct he as [he|].
  - destruct Hm as (_ & _ & _ & _ & Elk & _). apply lookup_elem in Elk as (k' & Hin & Hc). apply Hl in Hin as (Hx & cx & Ex & Er & <-). by exists cx.
  - destruct Hm as [Hn _]. intros x cx Hx Ex Er. apply (lookup_none_elem ps real (cl_real cx, x) Hn). apply Hl. split; [done|]. by exists cx.
Qed.

Lemma find_spec s buf from real :
  sv_inv s -> families_ok s -> packet_ok buf -> 0 < len buf -> real_of from = Some real ->
  exists h o moved, find_instance_udp s buf from real (hash_value (sv_hash s) real) = Ret (s <| sv_hash := h |>, o, moved) /\
    sv_inv (s <| sv_hash := h |>) /\ hash_value h real = hash_value (sv_hash s) real /\
    match o with Some x => conn (sv_multi s) x /\ (forall admitted, dispatched s s (content buf) from admitted (Some x) moved)
    | None => moved = false /\ unknown s (content buf) from end.
Proof.
  intros H Hfam [Hw Hu] Hlen Hreal. unfold find_instance_udp. destruct (wf_conc _ Hw) as (pre & p & post & -> & _). rewrite bptr_conc, content_conc, len_conc in *. cbn [mbind outcome_mbind].
  destruct p as [|b p]; [done|]. rewrite load1_front. cbn [mbind outcome_mbind]. destruct ((Z.shiftr b P_OPCODE_SHIFT =? P_DATA_V2) && (4 <=? zlen (b :: p))) eqn:Ev2.
  - pose proof Hu as [Hb _]%Forall_cons. destruct (named_v2 b p Hb Ev2) as (b1 & b2 & b3 & c & -> & Hname).
    destruct (by_peer_id_spec s pre b b1 b2 b3 c post from H Hfam Hu) as (o & moved & -> & Ho). cbn [mbind outcome_mbind negb orb].
    set (id := be_value [b1; b2; b3]) in *. destruct (id =? MAX_PEER_ID) eqn:Em.
    + apply Z.eqb_eq in Em. destruct o as [x|]; [by destruct Ho|]. destruct Ho as [-> _]. destruct (lookup_real s real H) as (h & he & -> & H' & Ev & Hm). cbn [mbind outcome_mbind].
      eexists h, _, false. split; [reflexivity|]. split; [done|]. split; [done|]. destruct he as [he|].
      2: { split; [done|]. unfold unknown. rewrite Hname, decide_True by done. intros real' x cx Hr'. rewrite Hreal in Hr'. injection Hr' as <-. apply Hm. }
      destruct Hm as (cx & Hx & Ex & _ & Eq).
      split; [done|]. intros admitted. eapply by_address; [|done..]. intros id' Hid'. congruence.
    + exists (sv_hash s), o, moved. replace (s <| sv_hash := sv_hash s |>) with s by by destruct s. split; [done|]. split; [done|]. split; [done|].
      apply Z.eqb_neq in Em. destruct o as [x|].
      2: { split; [apply Ho|]. unfold unknown. rewrite Hname, decide_False by done. by apply Ho. }
      destruct Ho as (Hne & Hs & Hx & cx & same & Ex & Es & ->). split; [done|]. intros admitted. by eapply by_number.
  - cbn [negb orb mbind outcome_mbind]. destruct (lookup_real s real H) as (h & he & -> & H' & Ev & Hm). cbn [mbind outcome_mbind].
    eexists h, _, false. split; [reflexivity|]. split; [done|]. split; [done|]. destruct he as [he|].
    2: { split; [done|]. unfold unknown. rewrite (not_named_v2 b p Ev2). intros real' x cx Hr'. rewrite Hreal in Hr'. injection Hr' as <-. apply Hm. }
    destruct Hm as (cx & Hx & Ex & _ & Eq). split; [done|]. intros admitted. eapply by_address; [|done..]. intros id'. by rewrite (not_named_v2 b p Ev2).
Qed.

(** A new client of a UDP server. *)
Lemma open_spec s mi i c : sv_inv s -> new_ok s mi i c ->
  exists s1 o, multi_create_instance s mi i c = Ret (s1, o) /\ created s s1 mi c o /\
    match o with
    | Some x => exists s' c', assign_peer_id s1 (hash_value (sv_hash s) (cl_real c)) x = Ret s' /\ sv_inv s' /\ only_changed s1 s' mi c' /\
        cl_did_iter c' = true /\ cl_did_real_hash c' = true /\ cl_real c' = cl_real c
    | None => True
    end.
Proof.
  intros H Hnew. destruct (create_spec s mi i c H Hnew) as (s1 & o & E & Hcr). exists s1, o. split; [done|]. split; [done|]. destruct o as [x|]; [|done].
  destruct Hcr as (H1 & _ & Em & -> & Hcn & Eh & Hlt & c1 & Ec1 & Er & Edi & Edr & _). rewrite <- Er, <- Eh.
  destruct (assign_spec s1 mi c1 H1) as (s' & c' & j & Ea & H' & Ho & F1 & F2 & F3 & _); try done; [apply Hcn; by right|congruence|]. exists s', c'. by split_and!.
Qed.

Lemma inst_check s x : conn (sv_multi s) x -> (i ← get_inst (sv_multi s) x; c_assert (negb (halt i))) = Ret ().
Proof. intros (i & Hi & Hh). unfold get_inst. rewrite Hi. cbn [mbind outcome_mbind]. by rewrite Hh. Qed.

(** The invariant and the clients after a packet found its client. *)
Definition served (s s' : server) (mi : Z) (o : option Z) : Prop :=
  sv_inv s' /\ (settled s -> settled s') /\ (forall x, x <> mi -> sv_clients s' !! x = sv_clients s !! x) /\
  forall x, conn (sv_multi s') x <-> conn (sv_multi s) x \/ (x = mi /\ o = Some mi).

Lemma served_same s h mi o : sv_inv (s <| sv_hash := h |>) -> (o = Some mi -> conn (sv_multi s) mi) -> served s (s <| sv_hash := h |>) mi o.
Proof. intros H Hc. split; [done|]. split; [done|]. split; [done|]. intros x. sv_simpl. split; [by left|]. intros [?|[-> ?]]; [done|by apply Hc]. Qed.

Lemma served_err s h s' mi c : ~ conn (sv_multi s) mi -> created (s <| sv_hash := h |>) s' mi c None -> served s s' mi None.
Proof.
  intros Hnc (H' & Hcl & _ & Hk). split; [done|]. split; [|split; [done|]].
  - intros Hs x cx Hx. rewrite Hcl by (intros ->; apply Hk in Hx; done). apply Hs. by apply Hk.
  - intros x. rewrite <- (Hk x). sv_simpl. split; [by left|]. by intros [?|[_ ?]].
Qed.

Lemma served_new s h s1 s' mi c c' :
  ~ conn (sv_multi s) mi -> created (s <| sv_hash := h |>) s1 mi c (Some mi) -> sv_inv s' -> only_changed s1 s' mi c' -> cl_did_iter c' = true -> cl_did_real_hash c' = true ->
  served s s' mi (Some mi).
Proof.
  intros Hnc (_ & Hcl & _ & _ & Hcn & _) H' [Hk Hcl'] F1 F2.
  assert (Ho : forall x, x <> mi -> sv_clients s' !! x = sv_clients s !! x) by (intros x Hx; rewrite Hcl', lookup_insert_ne by done; by apply Hcl).
  assert (Hc' : forall x, conn (sv_multi s') x <-> conn (sv_multi s) x \/ x = mi) by (intros x; rewrite <- (Hk x); apply Hcn).
  split; [done|]. split; [|split; [done|]].
  - intros Hs x cx Hx. destruct (decide (x = mi)) as [->|Hne]; [rewrite Hcl', lookup_insert_eq; by intros [= <-]|]. rewrite Ho by done. apply Hs. apply Hc' in Hx. by destruct Hx.
  - intros x. rewrite Hc'. naive_solver.
Qed.

(** Whether the first packet of a client is admitted. *)
Definition first_packet_ok ctr sha now fresh (tas : option (frame * tls_wrap_ctx)) (buf : buffer) : outcome bool :=
  match tas with Some (f, w) => tls_pre_decrypt_lite ctr sha now fresh f w buf | None => Ret true end.

Definition verdict (o : outcome bool) : bool := match o with Ret b => b | _ => false end.

Lemma empty_content buf : packet_ok buf -> (0 <? len buf) = false -> content buf = [].
Proof.
  intros [Hw _] E%Z.ltb_ge. destruct (wf_conc _ Hw) as (pre & p & post & -> & _). rewrite len_conc in E. rewrite content_conc.
  apply zlen_0_nil. zlen_facts. lia.
Qed.

(** The packet finds its client, unless it is a first packet whose check does not return. *)
Lemma dispatch_spec ctr sha now tas fresh limiter mi i c s buf from :
  sv_inv s -> families_ok s -> packet_ok buf -> (forall real, new_ok s mi i (c <| cl_real := real |>)) ->
  (exists s' limiter' o moved, multi_get_create_instance_udp ctr sha now tas fresh limiter (mi, i, c) s buf from = Ret (s', limiter', o, moved) /\
    served s s' mi o /\ dispatched s s' (content buf) from (verdict (first_packet_ok ctr sha now fresh tas buf)) o moved) \/
  unknown s (content buf) from /\ (forall b, first_packet_ok ctr sha now fresh tas buf <> Ret b) /\ forall r, multi_get_create_instance_udp ctr sha now tas fresh limiter (mi, i, c) s buf from <> Ret r.
Proof.
  intros H Hfam Hp Hnew. assert (Hnc : ~ conn (sv_multi s) mi) by (destruct (Hnew mroute_addr_init) as ((Hn & _) & _); intros (j & Hj & _); congruence).
  assert (Hsame : served s s mi None) by (split; [done|]; split; [done|]; split; [done|]; naive_solver).
  unfold multi_get_create_instance_udp. destruct (mroute_extract_openvpn_sockaddr _ _ _) as [real ok] eqn:Er. destruct ok; cbn [andb].
  2: { left. cbn [mbind outcome_mbind]. eexists s, limiter, None, false. split; [done|]. split; [done|]. constructor. left. unfold real_of. by rewrite Er. }
  assert (Hreal : real_of from = Some real) by (unfold real_of; by rewrite Er). destruct (0 <? len buf) eqn:El.
  2: { left. cbn [mbind outcome_mbind]. eexists s, limiter, None, false. split; [done|]. split; [done|]. constructor. right; left. by apply empty_content. }
  apply Z.ltb_lt in El. cbv zeta. destruct (find_spec s buf from real H Hfam Hp El Hreal) as (h & o & moved & -> & H1 & Ev & Ho). cbn [mbind outcome_mbind].
  set (s1 := s <| sv_hash := h |>) in *. destruct o as [x|].
  { left. destruct Ho as [Hx Hd]. cbn [mbind outcome_mbind]. rewrite (inst_check s1 x Hx). cbn [mbind outcome_mbind]. eexists s1, limiter, (Some x), moved. split; [done|].
    split; [by apply served_same; [|intros [= ->]]|]. specialize (Hd (verdict (first_packet_ok ctr sha now fresh tas buf))). inversion Hd; subst; [by eapply by_number|by eapply by_address|done]. }
  destruct Ho as [-> Hunk]. fold (first_packet_ok ctr sha now fresh tas buf). destruct (first_packet_ok ctr sha now fresh tas buf) as [admitted| |]; cbn [mbind outcome_mbind]; [left|by right..].
  assert (Hnone : served s s1 mi None) by (by apply served_same). destruct admitted.
  2: { cbn [mbind outcome_mbind]. eexists s1, limiter, None, false. split; [done|]. split; [done|]. constructor. by right; right. }
  destruct (frequency_limit_event_allowed now limiter) as [lim allowed]. destruct allowed.
  2: { cbn [mbind outcome_mbind]. eexists s1, lim, None, false. split; [done|]. split; [done|]. constructor. by right; right. }
  destruct (open_spec s1 mi i (c <| cl_real := real |>) H1) as (s2 & o & -> & Hcr & Hop); [apply Hnew|]. cbn [mbind outcome_mbind]. destruct o as [x|].
  - destruct Hop as (s3 & c3 & Ea & H3 & Ho3 & F1 & F2 & F3). pose proof Hcr as (_ & _ & _ & -> & Hcn & _). change (hash_value h real = hash_value (sv_hash s) real) in Ev.
    change (hash_value (sv_hash s1) (cl_real (c <| cl_real := real |>))) with (hash_value h real) in Ea. rewrite Ev in Ea. rewrite Ea. cbn [mbind outcome_mbind].
    assert (Hc3 : conn (sv_multi s3) mi) by (apply (proj1 Ho3), Hcn; by right). rewrite (inst_check s3 mi Hc3). cbn [mbind outcome_mbind].
    eexists s3, lim, (Some mi), false. split; [done|]. split; [by eapply served_new|]. eapply (opened _ _ _ _ _ real mi c3); try done.
    rewrite (proj2 Ho3). apply lookup_insert_eq.
  - cbn [mbind outcome_mbind]. eexists s2, lim, None, false. split; [done|]. split; [by eapply served_err|]. constructor. by right; right.
Qed.

(** ** TCP servers *)

(** The new client is entered; the branch for a client with the same address is never
    taken. *)
Lemma tcp_spec s mi i c : sv_inv s -> new_ok s mi i c ->
  exists s' o, multi_create_instance_tcp (mi, i, c) s = Ret (s', o) /\ served s s' mi o /\
    match o with Some x => x = mi /\ exists c', sv_clients s' !! mi = Some c' /\ cl_real c' = cl_real c | None => True end.
Proof.
  intros H Hnew. assert (Hnc : ~ conn (sv_multi s) mi) by (destruct Hnew as ((Hn & _) & _); intros (j & Hj & _); congruence).
  unfold multi_create_instance_tcp. destruct (create_spec s mi i c H Hnew) as (s1 & o & -> & Hcr). cbn [mbind outcome_mbind].
  assert (Es : s <| sv_hash := sv_hash s |> = s) by by destruct s. destruct o as [x|].
  2: { exists s1, None. split; [done|]. split; [|done]. apply (served_err s (sv_hash s) s1 mi c Hnc). by rewrite Es. }
  pose proof Hcr as (H1 & _ & Em & -> & Hcn & Eh & Hlt & c1 & Ec1 & Er & Edi & Edr & Eid). assert (Hc1 : conn (sv_multi s1) mi) by (apply Hcn; by right).
  destruct (get_client_spec s1 mi (inv_clients s1 H1) Hc1) as (c0 & E0 & ->). rewrite Ec1 in E0. injection E0 as <-. cbn [mbind outcome_mbind].
  destruct (inv_hash s1 H1) as (ps & Hrel & Hl). pose proof (real_absent s1 mi c1 ps H1 Hc1 Ec1 Edi Edr Hl) as Habs.
  destruct (lookup_fast_spec (sv_hash s1) (cl_real c1) ps Hrel) as (h & he & b & Eb & Elk & _ & _ & _ & Hm). cbv zeta. rewrite Eb, Elk. cbn [mbind outcome_mbind].
  destruct he as [he|]; [destruct Hm as (_ & _ & _ & _ & E & _); congruence|]. destruct Hm as [_ ->]. sv_simpl.
  destruct (hash_enter (sv_hash s1) (cl_real c1) mi ps Hrel Habs) as (h2 & E2 & Hrel2). rewrite Eb in E2. rewrite E2. cbn [mbind outcome_mbind].
  replace (s1 <| sv_hash := sv_hash s1 |>) with s1 by by destruct s1. set (s2 := s1 <| sv_hash := h2 |>).
  assert (Hg : get_client s2 mi = Ret c1) by (destruct (get_client_spec s1 mi (inv_clients s1 H1) Hc1) as (c0 & E0 & Eg); rewrite Ec1 in E0; injection E0 as <-; exact Eg).
  rewrite Hg. cbn [mbind outcome_mbind]. destruct Hc1 as (j & Hj & Hh). unfold get_inst. sv_simpl. rewrite Hj. cbn [mbind outcome_mbind]. rewrite Hh. cbn [negb c_assert mbind outcome_mbind].
  set (c2 := c1 <| cl_did_real_hash := true |>). set (s3 := put_client s2 mi c2). exists s3, (Some mi). split; [done|].
  assert (Ho : only_changed s1 s3 mi c2) by (split; [reflexivity|done]). assert (Hc1 : conn (sv_multi s1) mi) by (by exists j).
  assert (H3 : sv_inv s3).
  { apply (changed_inv s1 s3 mi c1 c2); try done; try apply H1.
    - by apply (proj2 (inv_clients s1 H1) mi c1).
    - apply (table_keep _ _ s1 s3 mi c1 c2); try done. apply H1.
    - apply (table_entered _ _ s1 s3 mi c2 ps); try done. by apply (not_listed _ _ mi c1).
    - exists 0. split; [done|]. pose proof (proj1 (proj2 (inv_instances s1 H1))). lia.
    - apply (numbered_keep s1 s3 mi c1 c2); done. }
  split.
  - apply (served_new s (sv_hash s) s1 s3 mi c c2 Hnc); done.
  - split; [done|]. exists c2. split; [apply lookup_insert_eq|exact Er].
Qed.

(** ** Moving to another address *)

Lemma update_addrs_returns addr keys : sa_family addr = AF_INET \/ sa_family addr = AF_INET6 ->
  forall m, exists m', update_addrs addr keys m = Ret m' /\ m_peer_id m' = m_peer_id m.
Proof.
  intros Ha. induction keys as [|ij keys IH]; intros m; [by exists m|]. cbn [update_addrs].
  assert (exists ks, update_addr addr (m_key m ij) = Ret ks) as (ks & ->).
  { unfold update_addr. destruct (negb _); [by eexists|]. destruct (match_returns addr (ks_remote_addr (m_key m ij)) Ha) as (same & ->). by eexists. }
  cbn [mbind outcome_mbind]. destruct (IH (m_set_key m ij ks)) as (m' & -> & E). exists m'. split; [done|]. by rewrite E, set_key_peer.
Qed.

Lemma real_family from real : real_of from = Some real -> sa_family from = AF_INET \/ sa_family from = AF_INET6.
Proof.
  unfold real_of, sockaddr_of. destruct (sa_family from =? AF_INET) eqn:E1; [left; by apply Z.eqb_eq|]. destruct (sa_family from =? AF_INET6) eqn:E2; [right; by apply Z.eqb_eq|]. done.
Qed.

Lemma table_add_spec (h : hash mroute_addr Z) k mi ps : rel h ps -> map_lookup k ps = None -> exists h', table_add h k mi = Ret h' /\ rel h' ((k, mi) :: ps).
Proof.
  intros Hrel Hn. unfold table_add. destruct (hash_add_spec h k mi false ps Hrel) as (h' & -> & Hr). unfold map_add in *. rewrite Hn in *. cbn [fst snd mbind outcome_mbind c_assert] in *.
  by exists h'.
Qed.

Lemma absent_key f s mi real (ps : list (mroute_addr * Z)) :
  (forall k x, (k, x) ∈ ps <-> listed f s k x /\ x <> mi) ->
  (forall x cx, conn (sv_multi s) x -> sv_clients s !! x = Some cx -> x <> mi -> mroute_addr_equal real (cl_real cx) = false) -> map_lookup real ps = None.
Proof.
  intros Hps Hno. destruct (map_lookup real ps) as [x|] eqn:E; [|done]. exfalso. apply lookup_elem in E as (k & Hin & Hc).
  apply Hps in Hin as ((Hx & cx & Ex & _ & <-) & Hne). specialize (Hno x cx Hx Ex Hne). change (mroute_addr_equal real (cl_real cx) = true) in Hc. congruence.
Qed.

(** The client takes an address that no other client has. *)
Lemma float_to_spec s mi c real from :
  sv_inv s -> conn (sv_multi s) mi -> sv_clients s !! mi = Some c -> cl_did_iter c = true -> cl_did_real_hash c = true -> real_of from = Some real ->
  (forall x cx, conn (sv_multi s) x -> sv_clients s !! x = Some cx -> x <> mi -> mroute_addr_equal real (cl_real cx) = false) ->
  exists s' c', float_to s mi real from = Ret s' /\ sv_inv s' /\ only_changed s s' mi c' /\ cl_did_iter c' = true /\ cl_did_real_hash c' = true /\
    cl_real c' = real /\ c2_from (cl_context c') = from /\ li_actual (c2_info (cl_context c')) = from /\ peer_id_of c' = peer_id_of c.
Proof.
  intros H Hc Ec Edi Edr Hreal Hno. unfold float_to. destruct (get_client_spec s mi (inv_clients s H) Hc) as (c0 & E0 & ->). rewrite Ec in E0. injection E0 as <-. cbn [mbind outcome_mbind].
  destruct (table_remove_spec _ _ s mi c (inv_hash s H) Hc Ec) as (hash & ps & Eh & Hrel & Hps). rewrite Edr in Eh. rewrite Eh. cbn [mbind outcome_mbind].
  destruct (table_remove_spec _ _ s mi c (inv_iter s H) Hc Ec) as (iter & qs & Ei & Hrel2 & Hqs). rewrite Edi in Ei. rewrite Ei. cbn [mbind outcome_mbind].
  destruct (inv_ids s H mi c Hc Ec) as (id & Eid & Hid). unfold peer_id_of, ctx_peer_id in Eid. destruct (c2_tls_multi (cl_context c)) as [tm|] eqn:Etm; [|done]. injection Eid as Eid.
  cbn [must mbind outcome_mbind]. destruct (update_addrs_returns from all_keys (real_family _ _ Hreal) tm) as (tm' & Eu & Ep). unfold tls_update_remote_addr. rewrite Eu. cbn [mbind outcome_mbind].
  destruct (table_add_spec hash real mi ps Hrel (absent_key _ s mi real ps Hps Hno)) as (hash' & -> & Hrel').
  cbn [mbind outcome_mbind]. destruct (table_add_spec iter real mi qs Hrel2 (absent_key _ s mi real qs Hqs Hno)) as (iter' & -> & Hrel2'). cbn [mbind outcome_mbind].
  match goal with |- context [put_client ?t mi ?cc] => set (s1 := t); set (c' := cc) end. set (s' := put_client s1 mi c').
  assert (Ho : only_changed s s' mi c') by (split; [reflexivity|done]). assert (Hpid : peer_id_of c' = peer_id_of c).
  { change (peer_id_of c') with (Some (m_peer_id tm')). unfold peer_id_of, ctx_peer_id. rewrite Etm. cbn. by rewrite Ep. }
  exists s', c'. split; [done|]. split; [|by split_and!]. apply (changed_inv s s' mi c c'); try done; try apply H.
  - by apply (proj2 (inv_clients s H) mi c).
  - by apply (table_entered _ _ s s' mi c' qs).
  - by apply (table_entered _ _ s s' mi c' ps).
  - exists id. rewrite Hpid. unfold peer_id_of, ctx_peer_id. rewrite Etm. cbn. by rewrite Eid.
  - apply (numbered_keep s s' mi c c'); done.
Qed.

(** What [multi_process_float] does with a client that sends from [real]: the client stays where
    it is because the address belongs to one with another certificate, or it moves there and
    whoever had the address is closed. *)
Definition floated_to (s s' : server) (mi : Z) (c : client) (real : mroute_addr) (from : link_socket_actual) : Prop :=
  (exists x cx c', conn (sv_multi s) x /\ sv_clients s !! x = Some cx /\ mroute_addr_equal real (cl_real cx) = true /\
     m_locked_cert_hash_set <$> c2_tls_multi (cl_context cx) <> m_locked_cert_hash_set <$> c2_tls_multi (cl_context c) /\
     sv_multi s' = sv_multi s /\ sv_clients s' = <[mi := c']> (sv_clients s) /\ cl_real c' = cl_real c /\ len (c2_buf (cl_context c')) = 0) \/
  (exists c', sv_clients s' !! mi = Some c' /\ cl_real c' = real /\ c2_from (cl_context c') = from /\ li_actual (c2_info (cl_context c')) = from /\
     peer_id_of c' = peer_id_of c /\ (forall x, x <> mi -> conn (sv_multi s') x -> conn (sv_multi s) x /\ sv_clients s' !! x = sv_clients s !! x) /\
     forall x cx, conn (sv_multi s) x -> sv_clients s !! x = Some cx -> mroute_addr_equal real (cl_real cx) = false -> conn (sv_multi s') x).

Lemma client_tls s mi c : sv_inv s -> conn (sv_multi s) mi -> sv_clients s !! mi = Some c -> exists tm, c2_tls_multi (cl_context c) = Some tm.
Proof. intros H Hc Ec. destruct (inv_ids s H mi c Hc Ec) as (id & Eid & _). unfold peer_id_of, ctx_peer_id in Eid. destruct (c2_tls_multi (cl_context c)) as [tm|]; [by exists tm|done]. Qed.

Lemma get_client_at s mi c : sv_inv s -> conn (sv_multi s) mi -> sv_clients s !! mi = Some c -> get_client s mi = Ret c.
Proof. intros H Hc Ec. destruct (get_client_spec s mi (inv_clients s H) Hc) as (c0 & E0 & ->). congruence. Qed.

Lemma settled_changed s s' mi c' : settled s -> only_changed s s' mi c' -> cl_did_iter c' = true -> cl_did_real_hash c' = true -> settled s'.
Proof.
  intros Hs [Hk Hcl] F1 F2 x cx Hx. rewrite Hcl. destruct (decide (x = mi)) as [->|Hne]; [rewrite lookup_insert_eq; by intros [= <-]|].
  rewrite lookup_insert_ne by done. apply Hs. by apply Hk.
Qed.

(** Two clients in the table do not have the same address. *)
Lemma unique_real s real x cx y cy :
  sv_inv s -> conn (sv_multi s) x -> sv_clients s !! x = Some cx -> cl_did_real_hash cx = true -> mroute_addr_equal real (cl_real cx) = true ->
  conn (sv_multi s) y -> sv_clients s !! y = Some cy -> cl_did_real_hash cy = true -> mroute_addr_equal real (cl_real cy) = true -> x = y.
Proof.
  intros H Hx Ex Fx Qx Hy Ey Fy Qy. destruct (inv_hash s H) as (ps & Hrel & Hl).
  assert (H1 : (cl_real cx, x) ∈ ps) by (apply Hl; split; [done|by exists cx]). assert (H2 : (cl_real cy, y) ∈ ps) by (apply Hl; split; [done|by exists cy]).
  destruct (lookup_dichotomy real ps (rel_apart _ _ Hrel)) as [[_ Hf]|(z & m & Hp & _ & _ & Hf)]; rewrite Forall_forall in Hf.
  - specialize (Hf _ H1). change (mroute_addr_equal real (cl_real cx) = false) in Hf. congruence.
  - rewrite Hp in H1, H2. apply elem_of_cons in H1 as [E1|H1]; apply elem_of_cons in H2 as [E2|H2]; [congruence|..].
    + specialize (Hf _ H2). change (mroute_addr_equal real (cl_real cy) = false) in Hf. congruence.
    + specialize (Hf _ H1). change (mroute_addr_equal real (cl_real cx) = false) in Hf. congruence.
    + specialize (Hf _ H1). change (mroute_addr_equal real (cl_real cx) = false) in Hf. congruence.
Qed.

(** The client moves to an address that is free now. *)
Lemma moves_to s s1 mi c real from :
  sv_inv s1 -> settled s1 -> conn (sv_multi s1) mi -> sv_clients s1 !! mi = Some c -> sv_clients s !! mi = Some c -> real_of from = Some real ->
  (forall x cx, conn (sv_multi s1) x -> sv_clients s1 !! x = Some cx -> x <> mi -> mroute_addr_equal real (cl_real cx) = false) ->
  (forall x, conn (sv_multi s1) x -> conn (sv_multi s) x /\ sv_clients s1 !! x = sv_clients s !! x) ->
  (forall x cx, conn (sv_multi s) x -> sv_clients s !! x = Some cx -> mroute_addr_equal real (cl_real cx) = false -> conn (sv_multi s1) x) ->
  exists s', float_to s1 mi real from = Ret s' /\ sv_inv s' /\ settled s' /\ conn (sv_multi s') mi /\ floated_to s s' mi c real from.
Proof.
  intros H1 Hset Hc Ec Ec0 Hreal Hfree Hsub Hstay. destruct (Hset mi c Hc Ec) as [Edi Edr].
  destruct (float_to_spec s1 mi c real from H1 Hc Ec Edi Edr Hreal Hfree) as (s' & c' & -> & H' & Ho & F1 & F2 & F3 & F4 & F5 & F6). exists s'. split; [done|].
  split; [done|]. split; [by eapply settled_changed|]. destruct Ho as [Hk Hcl]. split; [by apply Hk|]. right. exists c'. rewrite Hcl, lookup_insert_eq. split_and!; try done.
  - intros x Hne Hx. apply Hk in Hx. rewrite lookup_insert_ne by done. by apply Hsub.
  - intros x cx Hx Ex Eq. apply Hk. by eapply Hstay.
Qed.

Lemma float_spec s mi c from :
  sv_inv s -> settled s -> conn (sv_multi s) mi -> sv_clients s !! mi = Some c ->
  (forall real, real_of from = Some real -> mroute_addr_equal real (cl_real c) = false) ->
  exists s', multi_process_float s mi from = Ret s' /\ sv_inv s' /\ settled s' /\ conn (sv_multi s') mi /\
    match real_of from with Some real => floated_to s s' mi c real from | None => s' = s end.
Proof.
  intros H Hset Hc Ec Hown. unfold multi_process_float. destruct (mroute_extract_openvpn_sockaddr _ _ _) as [real ok] eqn:Eex.
  assert (Hr : real_of from = if ok then Some real else None) by (unfold real_of; rewrite Eex; done). destruct ok; rewrite Hr in Hown |- *; [|by exists s].
  specialize (Hown real eq_refl). cbv zeta. destruct (lookup_real s real H) as (h & he & -> & H1 & _ & Hm). cbn [mbind outcome_mbind]. set (s1 := s <| sv_hash := h |>) in *.
  destruct he as [he|].
  - set (x := value he) in *. destruct Hm as (cx & Hx & Ex & Fx & Eq). rewrite (get_client_at s1 mi c H1 Hc Ec), (get_client_at s1 x cx H1 Hx Ex). cbn [mbind outcome_mbind].
    destruct (client_tls s1 mi c H1 Hc Ec) as (tm & Etm). destruct (client_tls s1 x cx H1 Hx Ex) as (tmx & Etmx). rewrite Etm, Etmx. cbn [must mbind outcome_mbind].
    unfold cert_hash_compare. case_bool_decide as Ecert; cbn [negb].
    + assert (Hne : x <> mi) by (intros E; rewrite E in *; congruence).
      destruct (close_inv s1 x H1 Hx) as (s2 & -> & H2 & Hcn & Hcl & _). cbn [mbind outcome_mbind].
      assert (Hsub : forall y, conn (sv_multi s2) y -> conn (sv_multi s) y /\ sv_clients s2 !! y = sv_clients s !! y) by (intros y [Hy Hyx]%Hcn; split; [done|by apply Hcl]).
      apply (moves_to s s2 mi c real from H2); try done.
      * intros y cy Hy Ey. destruct (Hsub y Hy) as [Hy' E]. rewrite E in Ey. by apply (Hset y).
      * by apply Hcn.
      * rewrite Hcl by done. done.
      * intros y cy Hy Ey _. pose proof (proj1 (Hcn y) Hy) as [_ Hyx]. destruct (Hsub y Hy) as [Hy' E]. rewrite E in Ey.
        destruct (mroute_addr_equal real (cl_real cy)) eqn:Ecy; [|done]. destruct Hyx. by apply (unique_real s real y cy x cx H Hy' Ey (proj2 (Hset y cy Hy' Ey)) Ecy Hx Ex Fx Eq).
      * intros y cy Hy Ey Ecy. apply Hcn. split; [done|]. intros ->. rewrite Ex in Ey. injection Ey as <-. congruence.
    + set (c' := c <| cl_context := cl_context c <| c2_buf := set_len (c2_buf (cl_context c)) 0 |> |>). eexists. split; [reflexivity|]. assert (Hd : same_place c c') by (by split_and!).
      split; [apply (inv_put_client s1 mi c c' H1 Ec Hd); by apply (proj2 (inv_clients s H) mi c)|].
      destruct (Hset mi c Hc Ec) as [Edi Edr]. split; [by apply (settled_changed s1 _ mi c'); [|split; [reflexivity|]| |]|]. split; [done|]. left.
      exists x, cx, c'. rewrite Etm, Etmx. split_and!; try done. intros [= E]. by apply Ecert.
  - apply (moves_to s s1 mi c real from H1); try done. intros x cx Hx Ex _. apply (Hm x cx Hx Ex). by apply (Hset x cx Hx Ex).
Qed.
