(* ===== verification/ServerEvents.v ===== *)
(** * What can happen to a server

    The events of a server as a step relation: clients connect over UDP or TCP, move, send,
    and are closed; their contexts and filters change; packets come from the device and leave
    the queue.  Every event keeps the invariant of [ServerInvariant]. *)
From stdpp Require Import gmap.
From S2P Require Import Prelude Integer Buffer Hash HashSpec Mroute MrouteSpec Multi MultiSpec Otime Proto Mbuf MbufSpec Mtu LinkAddr.
From S2P Require Import SslCommon Auth Comp CompSpec Crypto TlsWrap TlsSession Pf PfSpec Forward Server ServerSpec Udp ServerInvariant.

(** ** Events that leave everybody connected *)

(** Everybody stays connected and in the tables. *)
Definition stays (s s' : server) : Prop := conn_kept (sv_multi s) (sv_multi s') /\ same_places (sv_clients s) (sv_clients s').

Lemma settled_stays s s' : settled s -> stays s s' -> settled s'.
Proof.
  intros Hs [Hk Hp] x c' Hx Ec'. specialize (Hp x). rewrite Ec' in Hp. inversion Hp as [c ? (_ & E2 & E3 & _) Ec|]; subst. rewrite E2, E3. apply (Hs x); [by apply Hk|done].
Qed.

Lemma stays_put s mi c c' : sv_clients s !! mi = Some c -> same_place c c' -> stays s (put_client s mi c').
Proof. intros Ec Hs. split; [reflexivity|]. by apply (insert_places _ _ c). Qed.

Lemma inv_switched s s' mi keep :
  sv_inv s -> switched s s' mi keep -> (exists k q, queue_is s' k [] q /\ forall x, queued_for q x -> conn (sv_multi s) x) -> sv_inv s' /\ stays s s'.
Proof.
  intros H (m' & Hm & _ & Hk & (M' & h & ms & -> & HM & HW)) Hq. assert (Hp : same_places (sv_clients s) M') by (by apply (kept_places keep mi)).
  split; [|by split]. apply (inv_step s); try done. apply (inv_pending s H).
Qed.

(** The lookup of an address. *)
Lemma inv_set_multi s m : sv_inv s -> server_inv m -> conn_kept (sv_multi s) m -> sv_inv (s <| sv_multi := m |>) /\ stays s (s <| sv_multi := m |>).
Proof.
  intros H Hm Hk. destruct (inv_queue s H) as (k & q & Hq & Hqc). split; [|by split]. apply (inv_step s); try done.
  - apply (proj2 (inv_clients s H)).
  - by exists k, q.
  - apply (inv_pending s H).
Qed.

Lemma inv_set_pending s o : sv_inv s -> (forall mi, o = Some mi -> conn (sv_multi s) mi) -> sv_inv (s <| sv_pending := o |>) /\ stays s (s <| sv_pending := o |>).
Proof. intros [] Ho. split; [split; done|done]. Qed.

Lemma inv_set_wakeup s o : sv_inv s -> (forall mi, o = Some mi -> conn (sv_multi s) mi) -> sv_inv (s <| sv_earliest_wakeup := o |>) /\ stays s (s <| sv_earliest_wakeup := o |>).
Proof. intros [] Ho. split; [split; done|done]. Qed.

Lemma bcast_target_conn s sender addr y : iter_ok s -> y ∈ (bcast_targets s sender addr (all_clients s)).*1 -> conn (sv_multi s) y.
Proof.
  intros [_ Hall] Hin. unfold bcast_targets in Hin. rewrite <- list_fmap_compose in Hin. apply list_elem_of_fmap in Hin as (z & -> & Hz).
  apply list_elem_of_filter in Hz as [_ Hz]. apply list_elem_of_fmap in Hz as (he & -> & Hhe). rewrite Forall_forall in Hall. by apply Hall.
Qed.

Lemma fate_queue now s m1 mi x dest mcast k q keep q' y :
  server_inv (sv_multi s) -> iter_ok s -> (forall a, conn m1 a <-> conn (sv_multi s) a) ->
  fate now s m1 mi x dest mcast k q keep q' -> queued_for q' y -> queued_for q y \/ conn (sv_multi s) y.
Proof.
  intros Hi Hit Hm1 Hf Hy. unfold fate in Hf. destruct (sv_enable_c2c s); [|left; by destruct Hf as [_ ->]]. destruct mcast.
  - destruct Hf as [_ Hs]. destruct (spec_send_all_for _ _ _ _ _ _ _ Hs Hy) as [?|Hin]; [by left|]. right.
    by eapply bcast_target_conn.
  - destruct Hf as ([b|] & Ha & Hb); [|left; by destruct Hb as [_ ->]]. destruct Hb as [_ Hb].
    destruct (c2c_allowed _ _ _); [|left; by injection Hb as <-]. destruct (spec_send_for _ _ _ _ _ _ _ Hb Hy) as [?| ->]; [by left|]. right. cbn [fst]. apply Hm1.
    by eapply answer_conn.
Qed.

(** ** From a client *)

(** The queue is not full of entries of closed clients. *)
Definition queue_room (s : server) : Prop := forall k q, queue_is s k [] q -> room (2 ^ k) q.

Definition has_packet (s : server) (mi : Z) : Prop := forall c, sv_clients s !! mi = Some c -> packet_ok (c2_to_tun (cl_context c)).

Lemma from_client_inv now script s mi :
  sv_inv s -> conn (sv_multi s) mi -> queue_room s -> has_packet s mi ->
  exists s', switch_from_client now script s mi = Ret s' /\ sv_inv s' /\ stays s s'.
Proof.
  intros H Hc Hroom Hpk. pose proof (inv_tun s H) as Ht. destruct (get_client_spec s mi (inv_clients s H) Hc) as (c & Ec & _). destruct (Hpk c Ec) as [Hw Hu].
  destruct (inv_queue s H) as (k & q & Hq & Hqc). unfold switch_from_client. rewrite Ht.
  destruct (switch_tun_spec now script s mi c k q (inv_routes s H) (inv_clients s H) (inv_iter_ok s H) Hc Ec Hw Hu Hq (Hroom k q Hq))
    as (s' & keep & q' & -> & Hsw & Hq' & Hres). exists s'. split; [done|]. apply (inv_switched s s' mi keep H Hsw). exists k, q'. split; [done|].
  intros y Hy. destruct (ip_header _) as [[[[type n] sb] db]|]; [|destruct Hres as [_ ->]; by apply Hqc].
  destruct Hres as (src & dest & o & m1 & Hsrc & Hdest & Hans & Hrun & Hk1 & Hres). destruct (decide (o = Some mi)) as [Eo|]; [|destruct Hres as [_ ->]; by apply Hqc].
  assert (Hm1 : forall a, conn m1 a <-> conn (sv_multi s) a) by (intros a; symmetry; apply Hk1).
  destruct (fate_queue now s m1 mi _ dest _ k q keep q' y (inv_routes s H) (inv_iter_ok s H) Hm1 Hres Hy); [by apply Hqc|done].
Qed.

(** ** From the device *)

Lemma extract_wf buf r src dest :
  packet_ok buf -> mroute_extract_addr_ip (Some mroute_addr_init) (Some mroute_addr_init) buf = Ret (r, src, dest) ->
  exists src' dest', src = Some src' /\ dest = Some dest' /\ mroute_wf src' /\ mroute_wf dest' /\ (r <> 0 -> ip_host dest').
Proof.
  intros [Hw Hu]. pose proof (extract_addr_ip_spec mroute_addr_init mroute_addr_init buf Hw Hu init_wf init_wf) as Hex.
  destruct (ip_header (content buf)) as [[[[type n] sb] db]|] eqn:Eh.
  - destruct Hex as (r' & s' & d' & -> & _ & Hs & Hd). intros [= <- <- <-]. exists s', d'. split; [done|]. split; [done|]. split; [apply Hs|]. split; [apply Hd|].
    intros _. eapply host_ip; [right; exact Eh|exact Hd].
  - rewrite Hex. intros [= <- <- <-]. eexists _, _. split; [done|]. split; [done|]. split; [apply init_wf|]. by split; [apply init_wf|].
Qed.

Lemma stays_trans s1 s2 s3 : stays s1 s2 -> stays s2 s3 -> stays s1 s3.
Proof.
  intros [K1 P1] [K2 P2]. split; [by etrans|]. intros x. specialize (P1 x). specialize (P2 x). destruct P1 as [c1 c2 E|]; inversion P2; subst; constructor. by etrans.
Qed.

Lemma from_tun_inv lib now script prng moved buf s s' :
  sv_inv s -> packet_ok buf -> queue_room s -> multi_process_incoming_tun lib now script prng moved s buf = Ret s' -> sv_inv s' /\ stays s s'.
Proof.
  intros H Hp Hroom. pose proof (inv_tun s H) as Ht. assert (Hrefl : sv_inv s /\ stays s s) by (split; [done|by split]).
  unfold multi_process_incoming_tun. destruct (0 <? buf_len buf); [|by intros [= <-]]. destruct (sv_pending s); [by intros [= <-]|]. rewrite Ht. cbv zeta.
  destruct (mroute_extract_addr_ip _ _ buf) as [[[r src] dest]| |] eqn:Ex; cbn [mbind outcome_mbind]; [|done..].
  destruct (extract_wf _ _ _ _ Hp Ex) as (src' & dest' & -> & -> & Hsw & Hdw & Hdi). cbn [mbind outcome_mbind must].
  destruct (any_of r MROUTE_EXTRACT_SUCCEEDED) eqn:Er; [|by intros [= <-]].
  destruct (any_of r (Z.lor MROUTE_EXTRACT_BCAST MROUTE_EXTRACT_MCAST)).
  - destruct (inv_queue s H) as (k & q & Hq & Hqc). assert (Hb : bcast_ready s None (Some src')) by (split; [apply H|]; split; [done|by intros a [= <-]]).
    destruct (multi_bcast_spec s buf None (Some src') k q Hb (inv_iter_ok s H) (proj1 Hp) Hq (Hroom k q Hq)) as (s1 & q1 & -> & S1 & Hq1 & Eq). intros [= <-].
    apply (inv_switched s s1 0 true H).
    + exists (sv_multi s). split; [apply H|]. split; [done|]. split; [reflexivity|]. destruct s. exact S1.
    + exists k, q1. split; [done|]. intros y Hy. destruct (0 <? buf_len buf); [|injection Eq as <-; by apply Hqc].
      destruct (spec_send_all_for _ _ _ _ _ _ _ Eq Hy) as [?|Hin]; [by apply Hqc|]. by eapply bcast_target_conn; [apply (inv_iter_ok s H)|].
  - assert (Hr0 : r <> 0) by (intros ->; by change (any_of 0 MROUTE_EXTRACT_SUCCEEDED) with false in Er).
    rewrite bool_decide_true by done. unfold find_instance.
    destruct (lookup_answers now script (sv_multi s) dest' (inv_routes s H) (Hdi Hr0)) as (m1 & o & -> & Hm1 & _ & Hk1 & Hans). cbn [mbind outcome_mbind].
    destruct (inv_set_multi s m1 H Hm1 Hk1) as [Ha Sa].
    assert (Hpd : forall mi, o = Some mi -> conn m1 mi) by (intros mi ->; apply Hk1; by eapply answer_conn).
    destruct (inv_set_pending (s <| sv_multi := m1 |>) o Ha Hpd) as [H1 S1]. pose proof (stays_trans _ _ _ Sa S1) as S2.
    destruct o as [mi|]; [|by intros [= <-]].
    destruct (get_client_spec _ mi (inv_clients _ H1) (inv_pending _ H1 mi eq_refl)) as (c & Ec & ->). cbn [mbind outcome_mbind].
    rewrite (addr_test_spec _ src' Hsw). cbn [mbind outcome_mbind]. destruct (process_incoming_tun _ _ _ _ _) as [ctx| |] eqn:Ep; cbn [mbind outcome_mbind]; [|done..].
    apply incoming_tun_peer in Ep. change (ctx_peer_id ctx = peer_id_of c) in Ep.
    intros [= <-]. split; [by apply inv_put_context|]. eapply stays_trans; [exact S2|]. by apply (stays_put _ mi c).
Qed.

(** ** From the queue *)

Lemma head_drop_dead l e : head (drop_dead (A := Z * Z) l) = Some e -> exists p mi, e = Some (p, mi) /\ drop_dead l = Some (p, mi) :: tail (drop_dead l).
Proof. destruct (drop_dead_cases l) as [E|([p mi] & l' & E)]; rewrite E; [done|]. intros [= <-]. by exists p, mi. Qed.

Lemma queued_abs h l mi : queued_for (abs h l) mi <-> exists p, Some (p, mi) ∈ l.
Proof.
  unfold queued_for, abs. split.
  - intros (x & ([[p m]|] & E & Hin)%list_elem_of_fmap); [|done]. injection E as _ ->. by exists p.
  - intros (p & Hin). exists (pkt_of h p). apply list_elem_of_fmap. by exists (Some (p, mi)).
Qed.

(** A new state of the queue. *)
Lemma inv_set_queue s h ms k l :
  sv_inv s -> holds h ms k l [] -> (forall x p, Some (p, x) ∈ l -> conn (sv_multi s) x) ->
  sv_inv (s <| sv_mbuf := ms |> <| sv_mheap := h |>).
Proof.
  intros H Hh Hq. apply (inv_step s); try done.
  - apply H.
  - apply (proj2 (inv_clients s H)).
  - exists k, (abs h l). split; [by exists l|]. intros x Hx. apply queued_abs in Hx as (p & Hx). by eapply Hq.
  - apply (inv_pending s H).
Qed.

(** The packet at the front: its client is connected. *)
Lemma get_queue_inv lib now prng moved s s' o :
  sv_inv s -> Server.multi_get_queue lib now prng moved s = Ret (s', o) -> sv_inv s' /\ stays s s' /\ forall mi, o = Some mi -> conn (sv_multi s) mi.
Proof.
  intros H. destruct (inv_queue s H) as (k & q & (l & [Hr Hcn] & <-) & Hqc). unfold Server.multi_get_queue.
  destruct (mbuf_extract_item_spec _ _ _ Hr) as (ms & -> & Hr'). cbn [mbind outcome_mbind]. rewrite app_nil_r in Hcn.
  assert (Hqc' : forall x p, Some (p, x) ∈ tail (drop_dead l) -> conn (sv_multi s) x).
  { intros x p Hx. apply Hqc, queued_abs. exists p. by apply drop_dead_tail. }
  destruct (head (drop_dead l)) as [e|] eqn:Eh; cbn [fmap option_fmap option_map].
  - destruct (head_drop_dead l e Eh) as (p & mi & -> & El). cbn [item_of mi_buffer mi_instance]. sv_simpl.
    destruct (sv_mheap s !! p) as [b|] eqn:Eb; [|done].
    assert (Hmi : conn (sv_multi s) mi). { apply Hqc, queued_abs. exists p. apply drop_dead_sub. rewrite El. left. }
    destruct (get_client_spec s mi (inv_clients s H) Hmi) as (c & Ec & Eg). change (get_client (s <| sv_mbuf := ms |>) mi) with (get_client s mi). rewrite Eg. cbn [mbind outcome_mbind].
    destruct (process_ip_header _ _ _) as [[ctx buf]| |] eqn:Ep; cbn [mbind outcome_mbind]; [|done..].
    destruct (object_left _ _ _) as [object| |]; cbn [mbind outcome_mbind]; [|done..].
    destruct (encrypt_sign _ _ _ _ _ _) as [ctx'| |] eqn:Es; cbn [mbind outcome_mbind]; [|done..]. sv_simpl.
    apply ip_header_peer in Ep. apply encrypt_sign_peer in Es. change (ctx_peer_id ctx' = ctx_peer_id ctx) in Es. change (ctx_peer_id ctx = peer_id_of c) in Ep.
    assert (Hpl : ctx_peer_id ctx' = peer_id_of c) by congruence.
    set (h1 := <[p := mkmb (set_data (mb_buf b) object) (mb_refcount b) (mb_flags b)]> (sv_mheap s)).
    assert (Hc1 : counted (p :: packets (tail (drop_dead l))) h1).
    { rewrite <- (packets_drop_dead l), El, packets_live in Hcn. intros x. specialize (Hcn x). unfold h1. destruct (decide (x = p)) as [->|Hne].
      - rewrite lookup_insert_eq. rewrite Eb in Hcn. exact Hcn.
      - rewrite lookup_insert_ne by done. exact Hcn. }
    destruct (mbuf_free_buf_spec _ _ _ Hc1) as (h2 & -> & Hc2 & _). cbn [mbind outcome_mbind]. intros [= <- <-].
    assert (Hst : stays s (put_context s mi c ctx')) by (by apply (stays_put s mi c)).
    split; [|split; [exact Hst|by intros ? [= <-]]]. pose proof (inv_put_context s mi c ctx' H Ec Hpl) as H1.
    refine (inv_set_queue (put_context s mi c ctx') h2 ms k (tail (drop_dead l)) H1 _ Hqc'). split; [exact Hr'|]. by rewrite app_nil_r.
  - intros [= <- <-]. split; [|split; [by split|done]]. assert (E0 : drop_dead l = []) by (by destruct (drop_dead l)). rewrite E0 in *.
    assert (Hh : holds (sv_mheap s) ms k [] []). { split; [exact Hr'|]. by rewrite <- (packets_drop_dead l), E0 in Hcn. }
    pose proof (inv_set_queue s (sv_mheap s) ms k [] H Hh ltac:(by intros x p ?%elem_of_nil)) as H1. destruct s. exact H1.
Qed.

(** ** Filters *)

Lemma load_filter_wf pf config pf' ok : filter_wf pf -> zlen config <= 2 ^ 30 -> pf_load_from_buffer_list pf (Some config) = Ret (pf', ok) -> filter_wf pf'.
Proof.
  intros Hf Hl. unfold pf_load_from_buffer_list. destruct (pf_init_returns config false Hl) as (r & -> & Hr). cbn [mbind outcome_mbind].
  destruct r as [p|]; [|by intros [= <- <-]]. intros [= <- <-] q [= <-]. by apply Hr.
Qed.

Lemma reload_filter_wf now stat file pf tv r : filter_wf pf -> zlen file <= 2 ^ 30 -> pf_check_reload now stat (Some file) pf tv = Ret r -> filter_wf r.1.1.
Proof.
  intros Hf Hl. unfold pf_check_reload. destruct (pf_enabled pf && pf_filename pf); [|by intros [= <-]].
  destruct (event_timeout_trigger _ _ _ _) as [[et tv'] fired]. destruct fired; [|by intros [= <-]].
  destruct (pf_init_returns file true Hl) as (p & Ep & Hp). rewrite Ep. cbn [mbind outcome_mbind].
  destruct stat as [t|]; cbn [mbind outcome_mbind]; [destruct (_ <? t); cbn [mbind outcome_mbind]|]; intros [= <-]; try exact Hf.
  destruct p as [p|]; [|exact Hf]. intros q [= <-]. by apply Hp.
Qed.

(** ** The step relation *)

(** The clients' contexts change in any way that keeps the peer id ([SvContext]): this stands
    for the handshake, the decryption and the timers. *)
Inductive sv_op : Type :=
| SvUdp (tas : option (frame * tls_wrap_ctx)) (fresh : list Z) (limiter : frequency_limit) (mi : Z) (i : multi_instance) (c : client)
    (buf : buffer) (from : link_socket_actual)
| SvTcp (mi : Z) (i : multi_instance) (c : client)
| SvFloat (mi : Z) (from : link_socket_actual)
| SvClose (mi : Z)
| SvRoutes (op : server_op)
| SvContext (mi : Z) (ctx : context)
| SvPending (mi : option Z)
| SvWakeup (mi : option Z)
| SvFilter (mi : Z) (config : list (list Z))
| SvReload (mi : Z) (stat : option Z) (file : list (list Z)) (tv : timeval)
| SvFromClient (mi : Z)
| SvFromTun (prng : list Z) (moved : bool) (buf : buffer)
| SvGetQueue (prng : list Z) (moved : bool).

Definition sv_op_ok (s : server) (op : sv_op) : Prop :=
  match op with
  | SvUdp _ _ _ mi i c buf _ => packet_ok buf /\ families_ok s /\ forall real, new_ok s mi i (c <| cl_real := real |>)
  | SvTcp mi i c => new_ok s mi i c
  | SvFloat mi from => conn (sv_multi s) mi /\
      forall c real, sv_clients s !! mi = Some c -> real_of from = Some real -> mroute_addr_equal real (cl_real c) = false
  | SvClose mi | SvPending (Some mi) | SvWakeup (Some mi) => conn (sv_multi s) mi
  | SvContext mi ctx => conn (sv_multi s) mi /\ forall c, sv_clients s !! mi = Some c -> ctx_peer_id ctx = peer_id_of c
  | SvPending None | SvWakeup None => True
  | SvFilter mi config | SvReload mi _ config _ => conn (sv_multi s) mi /\ zlen config <= 2 ^ 30
  | SvRoutes op => MultiSpec.op_ok (sv_multi s) op /\ match op with OpCreate _ _ | MultiSpec.OpClose _ => False | _ => True end
  | SvFromClient mi => conn (sv_multi s) mi /\ queue_room s /\ has_packet s mi
  | SvFromTun _ _ buf => packet_ok buf /\ queue_room s
  | SvGetQueue _ _ => True
  end.

(** What the events get from outside: the libraries, the clock, the script. *)
Record sv_env : Type := mksvenv {
  se_lib : comp_lib;
  se_ctr : list Z -> bool -> cipher_ctx;
  se_sha : list Z -> hmac_ctx;
  se_now : Z;
  se_script : option Z -> learn_op -> mroute_addr -> bool
}.

Definition sv_exec (e : sv_env) (s : server) (op : sv_op) : outcome server :=
  match op with
  | SvUdp tas fresh limiter mi i c buf from =>
      '(s, _, _, _) ← multi_get_create_instance_udp (se_ctr e) (se_sha e) (se_now e) tas fresh limiter (mi, i, c) s buf from; Ret s
  | SvTcp mi i c => '(s, _) ← multi_create_instance_tcp (mi, i, c) s; Ret s
  | SvFloat mi from => multi_process_float s mi from
  | SvClose mi => multi_close_instance s mi
  | SvRoutes op => m ← server_exec (se_now e) (se_script e) (sv_multi s) op; Ret (s <| sv_multi := m |>)
  | SvContext mi ctx => c ← get_client s mi; Ret (put_context s mi c ctx)
  | SvPending mi => Ret (s <| sv_pending := mi |>)
  | SvWakeup mi => Ret (s <| sv_earliest_wakeup := mi |>)
  | SvFilter mi config =>
      c ← get_client s mi; '(pf, _) ← pf_load_from_buffer_list (cl_pf c) (Some config); Ret (put_client s mi (c <| cl_pf := pf |>))
  | SvReload mi stat file tv =>
      c ← get_client s mi; '(pf, _, _) ← pf_check_reload (se_now e) stat (Some file) (cl_pf c) tv; Ret (put_client s mi (c <| cl_pf := pf |>))
  | SvFromClient mi => switch_from_client (se_now e) (se_script e) s mi
  | SvFromTun prng moved buf => multi_process_incoming_tun (se_lib e) (se_now e) (se_script e) prng moved s buf
  | SvGetQueue prng moved => '(s, _) ← Server.multi_get_queue (se_lib e) (se_now e) prng moved s; Ret s
  end.

Inductive sv_step (s s' : server) : Prop :=
| sv_step_op e op : sv_op_ok s op -> sv_exec e s op = Ret s' -> sv_step s s'.

Lemma settled_without s s' mi : settled s -> (forall x, conn (sv_multi s') x <-> conn (sv_multi s) x /\ x <> mi) ->
  (forall x, x <> mi -> sv_clients s' !! x = sv_clients s !! x) -> settled s'.
Proof. intros Hs Hcn Hcl x cx [Hx Hne]%Hcn Ex. apply (Hs x cx Hx). by rewrite <- Hcl. Qed.

Lemma client_of s mi c : get_client s mi = Ret c -> sv_clients s !! mi = Some c.
Proof. unfold get_client. destruct (inst_heap _ !! mi); [|done]. destruct (sv_clients s !! mi); [|done]. by intros [= ->]. Qed.

(** Every event keeps the invariant. *)
Lemma sv_exec_inv e s op s' : sv_inv s -> settled s -> sv_op_ok s op -> sv_exec e s op = Ret s' -> sv_inv s' /\ settled s'.
Proof.
  intros H Hset Hop. assert (Hst : forall s2, sv_inv s2 /\ stays s s2 -> sv_inv s2 /\ settled s2) by (intros s2 [H2 S2]; split; [done|by eapply settled_stays]).
  destruct op as [tas fresh limiter mi i c buf from|mi i c|mi from|mi|op|mi ctx|o|o|mi config|mi stat file tv|mi|prng moved buf|prng moved]; cbn [sv_exec sv_op_ok] in *.
  - destruct Hop as (Hp & Hfam & Hnew).
    destruct (dispatch_spec (se_ctr e) (se_sha e) (se_now e) tas fresh limiter mi i c s buf from H Hfam Hp Hnew) as [(s1 & lim & o & moved & -> & (H1 & S1 & _) & _)|(_ & _ & Hno)].
    + intros [= <-]. split; [done|by apply S1].
    + destruct (multi_get_create_instance_udp _ _ _ _ _ _ _ _ _ _) as [r| |]; [by destruct (Hno r)|done..].
  - destruct (tcp_spec s mi i c H Hop) as (s1 & o & -> & (H1 & S1 & _) & _). intros [= <-]. split; [done|by apply S1].
  - destruct Hop as [Hc Hown]. destruct (get_client_spec s mi (inv_clients s H) Hc) as (c & Ec & _).
    destruct (float_spec s mi c from H Hset Hc Ec) as (s1 & -> & H1 & S1 & _); [intros real; by apply Hown|]. by intros [= <-].
  - destruct (close_inv s mi H Hop) as (s1 & -> & H1 & Hcn & Hcl & _). intros [= <-]. split; [done|by eapply settled_without].
  - destruct Hop as [Hop Hne]. destruct (server_exec_inv (se_now e) (se_script e) (sv_multi s) op (inv_routes s H) Hop) as (m & -> & Hm & _ & Hk).
    cbn [mbind outcome_mbind]. intros [= <-]. apply Hst, inv_set_multi; [done..|]. by destruct op.
  - destruct Hop as [Hc Hid]. destruct (get_client s mi) as [c| |] eqn:Eg; [|done..]. apply client_of in Eg. intros [= <-]. specialize (Hid c Eg). apply Hst.
    split; [by apply inv_put_context|by apply (stays_put s mi c)].
  - intros [= <-]. apply Hst, inv_set_pending; [done|]. by intros mi ->.
  - intros [= <-]. apply Hst, inv_set_wakeup; [done|]. by intros mi ->.
  - destruct (get_client s mi) as [c| |] eqn:Eg; cbn [mbind outcome_mbind]; [|done..]. apply client_of in Eg.
    destruct (pf_load_from_buffer_list _ _) as [[pf ok]| |] eqn:El; cbn [mbind outcome_mbind]; [|done..]. intros [= <-]. apply Hst. split; [|by apply (stays_put s mi c)].
    apply (inv_put_client s mi c); [done..|]. eapply load_filter_wf; [|apply Hop|exact El]. by apply (proj2 (inv_clients s H) mi c).
  - destruct (get_client s mi) as [c| |] eqn:Eg; cbn [mbind outcome_mbind]; [|done..]. apply client_of in Eg.
    destruct (pf_check_reload _ _ _ _ _) as [[[pf tv'] kill]| |] eqn:El; cbn [mbind outcome_mbind]; [|done..]. intros [= <-]. apply Hst. split; [|by apply (stays_put s mi c)].
    apply (inv_put_client s mi c); [done..|]. apply (reload_filter_wf _ _ _ _ _ _ (proj2 (inv_clients s H) mi c Eg) (proj2 Hop) El).
  - destruct Hop as (Hc & Hr & Hp). destruct (from_client_inv (se_now e) (se_script e) s mi H Hc Hr Hp) as (s1 & -> & H1). intros [= <-]. by apply Hst.
  - destruct Hop as [Hp Hr]. intros E. by eapply Hst, from_tun_inv.
  - destruct (Server.multi_get_queue _ _ _ _ _) as [[s1 o]| |] eqn:Eg; [|done..]. intros [= <-]. destruct (get_queue_inv _ _ _ _ _ _ _ H Eg) as (H1 & S1 & _). by apply Hst.
Qed.

(** A server with a tun device that has just started. *)
Definition sv_start (n iv ttl size max_clients : Z) (local : mroute_addr) (garbage : nat -> mbuf_item) (c2c : bool) (limit : Z) : outcome server :=
  m ← server_start n iv ttl local;
  hash ← hash_init n iv;
  iter ← hash_init n iv;
  ms ← mbuf_init size garbage;
  Ret (mkserver m ∅ hash iter (replicate (Z.to_nat max_clients) None) ∅ ms None None 0 max_clients c2c DEV_TYPE_TUN limit).

Lemma sv_start_inv n iv ttl size max_clients local garbage c2c limit s :
  0 < n <= 2 ^ 30 -> 0 <= size <= 2 ^ 31 -> 0 < max_clients < MAX_PEER_ID -> sv_start n iv ttl size max_clients local garbage c2c limit = Ret s ->
  sv_inv s /\ settled s.
Proof.
  intros Hn Hs Hmax. unfold sv_start. destruct (server_start n iv ttl local) as [m| |] eqn:Em; cbn [mbind outcome_mbind]; [|done..].
  destruct (hash_init_spec (K := mroute_addr) (V := Z) n iv Hn) as (h & -> & Hr). cbn [mbind outcome_mbind].
  destruct (mbuf_init_holds size garbage Hs) as (k & ms & -> & _ & _ & _ & Hh). cbn [mbind outcome_mbind]. intros [= <-].
  assert (Hno : forall mi, ~ conn m mi).
  { revert Em. unfold server_start. destruct (hash_init n iv) as [h0| |]; cbn [mbind outcome_mbind]; [|done..]. intros [= <-] mi (i & Hi & _). cbn in Hi. by rewrite lookup_empty in Hi. }
  split; [|intros mi c Hc; by apply Hno in Hc]. set (s := mkserver _ _ _ _ _ _ _ _ _ _ _ _ _ _).
  assert (Htab : forall f, table_ok f h s) by (intros f; exists []; split; [done|]; intros k' mi; split; [by intros ?%elem_of_nil|]; intros [Hc _]; by apply Hno in Hc).
  split; try done; try (by intros mi c Hc; apply Hno in Hc); try apply Htab.
  - by eapply server_start_inv.
  - split; [intros mi Hc; by apply Hno in Hc|]. intros mi c Hc. change (@empty (gmap Z client) _ !! mi = Some c) in Hc. by rewrite lookup_empty in Hc.
  - split; [unfold zlen; cbn; rewrite length_replicate; lia|]. split; [done|]. intros i mi Hi. change (replicate (Z.to_nat max_clients) (@None Z) !! i = Some (Some mi)) in Hi.
    by apply lookup_replicate in Hi as [? _].
  - exists k, []. split; [by exists []|]. intros mi (x & Hx). by apply elem_of_nil in Hx.
Qed.

(** A state that a server with a tun device comes to. *)
Definition sv_reachable (s : server) : Prop :=
  exists n iv ttl size max_clients local garbage c2c limit s0, 0 < n <= 2 ^ 30 /\ 0 <= size <= 2 ^ 31 /\ 0 < max_clients < MAX_PEER_ID /\
    sv_start n iv ttl size max_clients local garbage c2c limit = Ret s0 /\ rtc sv_step s0 s.

Lemma sv_reachable_inv s : sv_reachable s -> sv_inv s /\ settled s.
Proof.
  intros (n & iv & ttl & size & mx & local & garbage & c2c & limit & s0 & Hn & Hs & Hm & E & Hr).
  apply (sv_start_inv _ _ _ _ _ _ _ _ _ _ Hn Hs Hm) in E. revert E. induction Hr as [|s1 s2 s3 [e op Hop Hex] _ IH]; [done|].
  intros [H1 S1]. apply IH. by eapply sv_exec_inv.
Qed.

(** The step that an event takes. *)
Lemma sv_reachable_step s s' e op : sv_reachable s -> sv_op_ok s op -> sv_exec e s op = Ret s' -> sv_reachable s'.
Proof.
  intros (n & iv & ttl & size & mx & local & garbage & c2c & limit & s0 & Hn & Hs & Hm & E & Hr) Hop Hex.
  exists n, iv, ttl, size, mx, local, garbage, c2c, limit, s0. split; [done|]. split; [done|]. split; [done|]. split; [done|]. eapply rtc_r; [exact Hr|]. by apply (sv_step_op s s' e op).
Qed.
