(* ===== verification/SwitchSpec.v ===== *)
(** * The promises of the server as a switch

    Theorems on the states that a server with a tun device can reach ([sv_reachable] of
    [ServerEvents]): what becomes of a packet from a client, whose packet a datagram is, where a
    client may move, and what is left of a client that was closed.  At the end, runs of a small
    server on which the code does not do what it means to. *)
From stdpp Require Import gmap.
From S2P Require Import TlsDemo Prelude Integer Buffer Hash HashSpec Mroute MrouteSpec Multi MultiSpec Otime Proto Mbuf MbufSpec Mtu LinkAddr.
From S2P Require Import SslCommon Auth Comp CompSpec Crypto CryptoSpec TlsWrap TlsSession Pf PfSpec Forward ForwardSpec Server ServerSpec Udp ServerInvariant ServerEvents.

(** The queue has room when it is not full. *)
Lemma queue_room_len s : ms_len (sv_mbuf s) < ms_capacity (sv_mbuf s) -> queue_room s.
Proof.
  intros Hl k q (l & [Hr _] & <-). left. unfold abs. rewrite (ring_len _ _ _ Hr), (ring_cap _ _ _ Hr) in Hl. unfold zlen in *. rewrite length_map. lia.
Qed.

(** ** Source addresses *)

(** Client [mi] has a route that is in force for the address [a]: a host route, or a network
    it lies in. *)
Definition speaks_for now (m : multi_context) (mi : Z) (a : mroute_addr) : Prop :=
  exists r, live now m r /\ r_instance r = mi /\ (mroute_addr_equal a (r_addr r) = true \/ in_network r a).

Lemma answer_speaks now m a mi : answer now m a (Some mi) -> speaks_for now m mi a.
Proof.
  unfold answer. destruct (mroute_addr_equal a (m_local m)); [done|].
  intros [(r & Hl & He & [= ->])|[_ (r & Hl & Hn & <- & _)]]; exists r; (split; [done|]; split; [done|]); [by left|by right].
Qed.

(** The packet of a client is gone. *)
Definition packet_gone (s : server) (mi : Z) : Prop :=
  exists c, sv_clients s !! mi = Some c /\ len (c2_to_tun (cl_context c)) = 0.

Lemma switched_gone s s' mi : clients_ok s -> conn (sv_multi s) mi -> switched s s' mi false -> packet_gone s' mi.
Proof.
  intros [Hcl _] Hc (m' & _ & _ & _ & (M' & h & ms & -> & HM & _)). destruct (Hcl mi Hc) as [c Ec]. cbn [kept] in HM.
  change (sv_clients (s <| sv_multi := m' |>)) with (sv_clients s) in HM.
  assert (Ea : alter drop_packet mi (sv_clients s) !! mi = Some (drop_packet c)) by (by rewrite lookup_alter_eq, Ec).
  destruct (same_clients_lookup _ _ _ _ HM Ea) as (c' & Ec' & (Ectx & _)). exists c'. split; [done|]. by rewrite Ectx.
Qed.

(** C24: no spoofed source addresses.  In every state a server with a tun device can reach, a
    packet of a connected client whose source address is not the client's (no route
    in force of this client is for the address or for a network with it), or that has no IP
    header, is dropped: the switch returns, nothing is left to be written to the device, and
    the queue of the server is as it was, so that nobody gets the packet.  (The queue must
    not be full of entries of closed clients.) *)
Theorem spoofed_packets_are_dropped (now : Z) (script : option Z -> learn_op -> mroute_addr -> bool) (s : server) (mi : Z) (c : client) :
  sv_reachable s -> conn (sv_multi s) mi -> sv_clients s !! mi = Some c -> packet_ok (c2_to_tun (cl_context c)) -> queue_room s ->
  (forall type n sb db src, ip_header (content (c2_to_tun (cl_context c))) = Some (type, n, sb, db) -> is_host_addr src type n sb ->
     ~ speaks_for now (sv_multi s) mi src) ->
  exists s', switch_from_client now script s mi = Ret s' /\ packet_gone s' mi /\ forall k q, queue_is s k [] q -> queue_is s' k [] q.
Proof.
  intros Hs Hc Ec [Hw Hu] Hroom Hno. destruct (sv_reachable_inv s Hs) as [H _]. unfold switch_from_client. rewrite (inv_tun s H).
  assert (Hall : forall k q, queue_is s k [] q -> exists s', switch_from_client_tun now script s mi = Ret s' /\ packet_gone s' mi /\ queue_is s' k [] q).
  { intros k q Hq. destruct (switch_tun_spec now script s mi c k q (inv_routes s H) (inv_clients s H) (inv_iter_ok s H) Hc Ec Hw Hu Hq (Hroom k q Hq))
      as (s' & keep & q' & -> & Hsw & Hq' & Hres). exists s'. split; [done|]. assert (keep = false /\ q' = q) as [-> ->].
    { destruct (ip_header _) as [[[[type n] sb] db]|]; [|done]. destruct Hres as (src & dest & o & m1 & Hsrc & _ & Hans & _ & _ & Hres).
      destruct (decide (o = Some mi)) as [->|]; [|done]. destruct (Hno type n sb db src eq_refl Hsrc). by apply answer_speaks. }
    split; [|done]. by eapply switched_gone; [apply H|..]. }
  destruct (inv_queue s H) as (k & q & Hq & _). destruct (Hall k q Hq) as (s' & E & Hg & _). exists s'. split; [done|]. split; [done|].
  intros k1 q1 Hq1. destruct (Hall k1 q1 Hq1) as (s1 & E1 & _ & Hq1'). congruence.
Qed.

(** ** Where packets go *)

(** C25: the switch refines the routing.  In every state a server with a tun device can reach in
    which the queue is not full of entries of closed clients,
    the switch returns for every packet, in a well-formed buffer, of a connected client, and does what the routes and
    the filters say.  A packet without an IP header, or whose source address the lookup does
    not give to this client, is dropped.  Otherwise it is handled by [fate]: without
    client-to-client it is left for the device if the client's filter admits the
    destination; a multicast is queued for every other client in the table that both filters
    agree on, in the order of the table, and left for the device too; a packet for another
    client is queued for that one if both filters agree, and dropped otherwise; and
    what is for nobody is left for the device.  Clients keep their contexts but for the
    packet, and stay connected. *)
Theorem packets_are_switched_as_routed (now : Z) (script : option Z -> learn_op -> mroute_addr -> bool) (s : server) (mi : Z) (c : client) k q :
  sv_reachable s -> conn (sv_multi s) mi -> sv_clients s !! mi = Some c -> packet_ok (c2_to_tun (cl_context c)) ->
  queue_is s k [] q -> room (2 ^ k) q ->
  exists s' keep q', switch_from_client now script s mi = Ret s' /\ switched s s' mi keep /\ queue_is s' k [] q' /\
    match ip_header (content (c2_to_tun (cl_context c))) with
    | None => keep = false /\ q' = q
    | Some (type, n, sb, db) => exists src dest o m1, is_host_addr src type n sb /\ is_host_addr dest type n db /\
        answer now (sv_multi s) src o /\ multi_get_instance_by_virtual_addr now script (sv_multi s) src true = Ret (m1, o) /\ conn_kept (sv_multi s) m1 /\
        if decide (o = Some mi) then fate now s m1 mi (content (c2_to_tun (cl_context c))) dest (dest_mcast type db) k q keep q'
        else keep = false /\ q' = q
    end.
Proof.
  intros Hs Hc Ec [Hw Hu] Hq Hr. destruct (sv_reachable_inv s Hs) as [H _]. unfold switch_from_client. rewrite (inv_tun s H).
  exact (switch_tun_spec now script s mi c k q (inv_routes s H) (inv_clients s H) (inv_iter_ok s H) Hc Ec Hw Hu Hq Hr).
Qed.

(** ** Closing a client *)

(** C28: no dangling references to clients.  In every state a server with a tun device can
    reach, a connected client can be closed: [multi_close_instance] returns (the client is
    in the tables where it is looked for, and its peer id is in range), and then nothing of the
    state names the client: not the tables by real address, not the array of peer ids, not the
    queue of packets, not the pending instance nor the one to wake up first, no route in
    force.  All other clients stay connected with all they have, and the packets queued for
    them stay in the queue. *)
Theorem closed_client_is_forgotten (s : server) (mi : Z) :
  sv_reachable s -> conn (sv_multi s) mi ->
  exists s', multi_close_instance s mi = Ret s' /\
    (forall he, he ∈ all_clients s' \/ he ∈ concat (buckets (sv_hash s')) -> value he <> mi) /\ (forall i, sv_instances s' !! i <> Some (Some mi)) /\
    sv_pending s' <> Some mi /\ sv_earliest_wakeup s' <> Some mi /\
    (forall now r, live now (sv_multi s') r -> r_instance r <> mi) /\
    (forall k q, queue_is s k [] q -> queue_is s' k [] (spec_deref q mi) /\ ~ queued_for (spec_deref q mi) mi) /\
    (forall x, conn (sv_multi s') x <-> conn (sv_multi s) x /\ x <> mi) /\ forall x, x <> mi -> sv_clients s' !! x = sv_clients s !! x.
Proof.
  intros Hs Hc. destruct (close_inv s mi (proj1 (sv_reachable_inv s Hs)) Hc) as (s' & -> & H' & Hcn & Hcl & _ & Hq). exists s'. split; [done|].
  assert (Hno : ~ conn (sv_multi s') mi) by (intros [_ ?]%Hcn; done). split_and!; try done.
  - intros he Hhe <-. apply Hno. destruct Hhe as [Hhe|Hhe]; [by apply (table_members _ _ _ _ (inv_iter s' H'))|by apply (table_members _ _ _ _ (inv_hash s' H'))].
  - intros i Hi. by destruct (proj2 (proj2 (inv_instances s' H')) i mi Hi) as [? _].
  - intros E. by apply Hno, (inv_pending s' H').
  - intros E. by apply Hno, (inv_wakeup s' H').
  - intros now r Hl <-. apply Hno. destruct (live_instance _ _ _ Hl) as (i & Hi). by exists i.
  - intros k q Hk. split; [by apply Hq|]. by intros [_ ?]%queued_deref.
Qed.

(** ** Whose packet it is *)

(** C26: datagrams find their client.  In every state a server with a tun device can reach
    whose clients have IPv4 or IPv6 addresses, for every datagram in a well-formed buffer (and a
    fresh instance, in case a client is created), either the server finds out whose it
    is: no assertion fails (there is a free peer id for every new client), and the result
    is the client that a data packet names by its peer id, with the note that it has moved
    if its address is another one; or the client with the address the datagram comes from; or
    a new client with this address, only if the packet is of no client and its check as a first
    packet admitted it; or nobody, only if the packet is empty or of no client.  The
    client is connected, the others keep what they have, and the state can go on.  Or the packet is of
    no client and its check as a first packet ([tls_pre_decrypt_lite]) does not return,
    in which case the dispatch does not either. *)
Theorem datagrams_find_their_client ctr sha (now : Z) tas fresh limiter (mi : Z) (i : multi_instance) (c : client) (s : server) (buf : buffer)
    (from : link_socket_actual) :
  sv_reachable s -> families_ok s -> packet_ok buf -> (forall real, new_ok s mi i (c <| cl_real := real |>)) ->
  let check := first_packet_ok ctr sha now fresh tas buf in
  (exists s' limiter' o moved, multi_get_create_instance_udp ctr sha now tas fresh limiter (mi, i, c) s buf from = Ret (s', limiter', o, moved) /\
    dispatched s s' (content buf) from (verdict check) o moved /\ sv_reachable s' /\
    (forall x, conn (sv_multi s') x <-> conn (sv_multi s) x \/ (x = mi /\ o = Some mi)) /\ forall x, x <> mi -> sv_clients s' !! x = sv_clients s !! x) \/
  (unknown s (content buf) from /\ (forall b, check <> Ret b) /\
   forall r, multi_get_create_instance_udp ctr sha now tas fresh limiter (mi, i, c) s buf from <> Ret r).
Proof.
  intros Hs Hfam Hp Hnew check.
  destruct (dispatch_spec ctr sha now tas fresh limiter mi i c s buf from (proj1 (sv_reachable_inv s Hs)) Hfam Hp Hnew) as [(s' & lim & o & moved & E & (_ & _ & Hcl & Hcn) & Hd)|Hno];
    [left|by right].
  exists s', lim, o, moved. split; [done|]. split; [done|]. split; [|done].
  set (e := mksvenv toy_lib ctr sha now (fun _ _ _ => true)).
  apply (sv_reachable_step s s' e (SvUdp tas fresh limiter mi i c buf from) Hs); [by split_and!|]. cbn [sv_exec]. change (se_ctr e) with ctr. change (se_sha e) with sha. change (se_now e) with now.
  by rewrite E.
Qed.

(** C27: addresses stay unique.  In every state a server with a tun device can reach, a
    connected client can move to another address: [multi_process_float] returns (none of its
    four assertions on the tables fails); the client stays if the address belongs to a client
    with another certificate, and otherwise it moves there and whoever had the address is
    closed, all others staying connected ([floated_to]).  Afterwards no two connected clients
    have the same address. *)
Theorem float_keeps_addresses_unique (s : server) (mi : Z) (c : client) (from : link_socket_actual) (real : mroute_addr) :
  sv_reachable s -> conn (sv_multi s) mi -> sv_clients s !! mi = Some c -> real_of from = Some real -> mroute_addr_equal real (cl_real c) = false ->
  exists s', multi_process_float s mi from = Ret s' /\ floated_to s s' mi c real from /\ conn (sv_multi s') mi /\
    forall x cx y cy, conn (sv_multi s') x -> sv_clients s' !! x = Some cx -> conn (sv_multi s') y -> sv_clients s' !! y = Some cy ->
      mroute_addr_equal (cl_real cx) (cl_real cy) = true -> x = y.
Proof.
  intros Hs Hc Ec Hreal Hne. destruct (sv_reachable_inv s Hs) as [H Hset].
  destruct (float_spec s mi c from H Hset Hc Ec) as (s' & -> & H' & Hset' & Hc' & Hf); [intros r E; congruence|]. rewrite Hreal in Hf. exists s'. split; [done|]. split; [done|]. split; [done|].
  intros x cx y cy Hx Ex Hy Ey Eq. destruct (Hset' x cx Hx Ex) as [_ Fx]. destruct (Hset' y cy Hy Ey) as [_ Fy].
  refine (unique_real s' (cl_real cx) x cx y cy H' Hx Ex Fx _ Hy Ey Fy Eq). exact (compare_refl (cl_real cx)).
Qed.

(** ** A server with two clients

    Client 100 has announced 10.8.0.0/16 and client 200 has 10.9.0.0/16; they may talk to each
    other.  They came over TCP, and have no filter. *)

Definition demo_packet (src dest : list Z) : list Z := [0x45; 0; 0; 24; 0; 0; 0; 0; 64; 17; 0; 0] ++ src ++ dest ++ [1; 2; 3; 4].

Definition packet_buf (p : list Z) : buffer := conc (replicate 64 0) p (replicate 64 0).

(** The context of a new client: nothing has happened, and the peer id is 0. *)
Definition fresh_ctx (base : context) (tm : tls_multi) : context := base <| c2_tls_multi := Some (tm <| m_peer_id := 0 |>) |> <| c2_signal := None |>.

Definition demo_no_filter : pf_context := mkpfc false None false 0 0 event_timeout_clear.

Definition demo_real (x : Z) : mroute_addr := mkma 6 MR_ADDR_IPV4 0 ([192; 0; 2; x] ++ replicate 16 0).

Definition demo_user (x : Z) (ctx : context) : client :=
  mkclient ctx demo_no_filter (demo_real x) false false 0 (mkinactive 0 0 0 event_timeout_clear) None.

Definition demo_inst (net : Z) : multi_instance := mkinst false 1 0 8 true [(net, 16)] [] false.

Definition demo_garbage (n : nat) : mbuf_item := mkmi None None.

Definition sv_result (d : server) (o : outcome server) : server := match o with Ret s => s | _ => d end.

Definition demo_void_hash : hash mroute_addr Z := mkhash 0 0 0 0 [] 0.
Definition demo_down : server := mkserver demo_void ∅ demo_void_hash demo_void_hash [] ∅ (mkms 0 0 0 0 []) None None 0 0 false DEV_TYPE_NULL 0.

Definition demo_env : sv_env := mksvenv toy_lib no_cipher toy_sha1 1000 demo_script.

Definition demo_sv0 : server := sv_result demo_down (sv_start 4 0 60 8 4 mroute_addr_init demo_garbage true 64).

Definition demo_do (s : server) (op : sv_op) : server := sv_result demo_down (sv_exec demo_env s op).

(** An event that returns, and what it leads to. *)
Definition demo_returns (s : server) (op : sv_op) : bool := match sv_exec demo_env s op with Ret _ => true | _ => false end.

Lemma demo_reaches s op : sv_reachable s -> sv_op_ok s op -> demo_returns s op = true -> sv_reachable (demo_do s op).
Proof.
  unfold demo_returns, demo_do. intros Hs Hop E. apply (sv_reachable_step s _ demo_env op Hs Hop). by destruct (sv_exec demo_env s op).
Qed.

Definition demo_ops (base : context) (tm : tls_multi) : list sv_op :=
  [SvTcp 100 (demo_inst 0x0A080000) (demo_user 1 (fresh_ctx base tm)); SvRoutes (OpAddIroutes 100);
   SvTcp 200 (demo_inst 0x0A090000) (demo_user 2 (fresh_ctx base tm)); SvRoutes (OpAddIroutes 200)].

Definition demo_sv (base : context) (tm : tls_multi) : server := foldl demo_do demo_sv0 (demo_ops base tm).

Lemma demo_sv_start : sv_start 4 0 60 8 4 mroute_addr_init demo_garbage true 64 = Ret demo_sv0.
Proof. vm_compute. reflexivity. Qed.

Lemma demo_sv0_reachable : sv_reachable demo_sv0.
Proof.
  exists 4, 0, 60, 8, 4, mroute_addr_init, demo_garbage, true, 64, demo_sv0. split; [lia|]. split; [lia|]. split; [by vm_compute|]. split; [exact demo_sv_start|]. apply rtc_refl.
Qed.

Lemma demo_new (s : server) mi net c :
  inst_heap (sv_multi s) !! mi = None -> is_u32 net -> peer_id_of c = Some 0 -> cl_pf c = demo_no_filter -> cl_did_iter c = false -> cl_did_real_hash c = false ->
  new_ok s mi (demo_inst net) c.
Proof.
  intros Hn Hu Hp Hf H1 H2. split; [|split; [by rewrite Hf|done]]. split; [done|]. do 4 (split; [done|]). split; [|split; [constructor|done]].
  constructor; [|constructor]. split; [done|cbn [snd]; lia].
Qed.

Lemma demo_sv_reachable base tm : sv_reachable (demo_sv base tm).
Proof.
  set (s1 := demo_do demo_sv0 (SvTcp 100 (demo_inst 0x0A080000) (demo_user 1 (fresh_ctx base tm)))). set (s2 := demo_do s1 (SvRoutes (OpAddIroutes 100))).
  set (s3 := demo_do s2 (SvTcp 200 (demo_inst 0x0A090000) (demo_user 2 (fresh_ctx base tm)))).
  apply (demo_reaches s3); [apply (demo_reaches s2); [apply (demo_reaches s1); [apply (demo_reaches demo_sv0); [exact demo_sv0_reachable|..]|..]|..]|..].
  - apply demo_new; done.
  - by vm_compute.
  - split; [|done]. exists (demo_inst 0x0A080000). split; [split|]; by vm_compute.
  - by vm_compute.
  - apply demo_new; done.
  - by vm_compute.
  - split; [|done]. exists (demo_inst 0x0A090000). split; [split|]; by vm_compute.
  - by vm_compute.
Qed.

Definition demo_joined (net : Z) : multi_instance := mkinst false 2 1 8 true [(net, 16)] [] true.

Lemma demo_conn base tm : conn (sv_multi (demo_sv base tm)) 100 /\ conn (sv_multi (demo_sv base tm)) 200.
Proof. split; [exists (demo_joined 0x0A080000)|exists (demo_joined 0x0A090000)]; (split; [vm_compute; reflexivity|done]). Qed.

(** The record of a client that has connected. *)
Definition demo_member (x : Z) (base : context) (tm : tls_multi) : client :=
  demo_user x (fresh_ctx base tm <| c2_context_auth := false |>) <| cl_did_iter := true |> <| cl_did_real_hash := true |>.

Lemma demo_user_of base tm : sv_clients (demo_sv base tm) !! 100 = Some (demo_member 1 base tm).
Proof. vm_compute. reflexivity. Qed.

Lemma demo_queue base tm : queue_is (demo_sv base tm) 3 [] [].
Proof.
  exists []. split; [|done]. split.
  - constructor; vm_compute; done.
  - intros x. vm_compute. reflexivity.
Qed.

Lemma demo_packet_ok p : Forall is_u8 p -> zlen p <= 1500 -> packet_ok (packet_buf p).
Proof.
  intros Hp Hl. split; [apply conc_wf; unfold fits, BUF_SIZE_MAX; change (zlen (replicate 64 0)) with 64; pose proof (zlen_nonneg p); lia|].
  unfold packet_buf. by rewrite content_conc.
Qed.

Lemma demo_queue_room base tm : queue_room (demo_sv base tm).
Proof. apply queue_room_len. vm_compute. reflexivity. Qed.

(** The routes of client 100. *)
Lemma demo_routes base tm now r : live now (sv_multi (demo_sv base tm)) r -> r_instance r = 100 -> r_addr r = mkma 4 10 16 ([10; 8; 0; 0] ++ replicate 16 0).
Proof.
  intros (p & i & Hr & _) Hi. apply elem_of_map_to_list in Hr.
  assert (E : (fun pr : Z * multi_route => (r_instance pr.2, r_addr pr.2)) <$> map_to_list (route_heap (sv_multi (demo_sv base tm))) =
    [(200, mkma 4 10 16 ([10; 9; 0; 0] ++ replicate 16 0)); (100, mkma 4 10 16 ([10; 8; 0; 0] ++ replicate 16 0))]) by (vm_compute; reflexivity).
  apply (list_elem_of_fmap_2 (fun pr : Z * multi_route => (r_instance pr.2, r_addr pr.2))) in Hr.
  rewrite E in Hr. cbn [snd] in Hr. rewrite Hi in Hr. clear E Hi. rewrite !elem_of_cons in Hr. destruct Hr as [Hr|[Hr|Hr]].
  - injection Hr as Hr _. discriminate Hr.
  - by injection Hr.
  - destruct (not_elem_of_nil _ Hr).
Qed.

Lemma demo_stranger base tm now src : is_host_addr src MR_ADDR_IPV4 4 [10; 9; 1; 2] -> ~ speaks_for now (sv_multi (demo_sv base tm)) 100 src.
Proof.
  intros (_ & Ht & _ & Hl & Hb) (r & Hr & Hi & Hm). apply (demo_routes _ _ _ _ Hr) in Hi. destruct Hm as [Hm|[_ Hm]].
  - unfold mroute_addr_equal in Hm. rewrite Ht, Hi in Hm. by vm_compute in Hm.
  - unfold addr_value, addr_width, ip_kind in Hm. rewrite Ht, Hi in Hm.
    change ((if Z.land MR_ADDR_IPV4 MR_ADDR_MASK =? MR_ADDR_IPV4 then 32 else 128) / 8) with 4 in Hm. rewrite Hb in Hm. by vm_compute in Hm.
Qed.

(** Both clients use the stub of compression with swapped bytes. *)
Definition demo_base (p : list Z) : context :=
  tunnel_context <| c2_comp_context := Some (mkcc (Z.lor COMP_F_NO_ASYM COMP_F_SWAP) comp_stub_alg (mkac false 0 0 0) 0 0 0 0) |>
    <| c2_to_tun := packet_buf p |>.

Definition demo_spoofed : list Z := demo_packet [10; 9; 1; 2] [10; 9; 1; 3].
Definition demo_honest : list Z := demo_packet [10; 8; 3; 4] [10; 9; 1; 2].
Definition demo_multicast : list Z := demo_packet [10; 8; 3; 4] [224; 0; 0; 1].

Notation demo_with p := (demo_sv (demo_base p) tunnel_tables).

(** Client 100 sends with an address of client 200. *)
Lemma spoofed_packets_are_dropped_witness :
  exists s', switch_from_client 1000 demo_script (demo_with demo_spoofed) 100 = Ret s' /\ packet_gone s' 100 /\ queue_is s' 3 [] [].
Proof.
  destruct (spoofed_packets_are_dropped 1000 demo_script (demo_with demo_spoofed) 100 _ (demo_sv_reachable _ _) (proj1 (demo_conn _ _)) (demo_user_of _ _))
    as (s' & E & Hg & Hq).
  - apply (demo_packet_ok demo_spoofed); [repeat constructor; by vm_compute|by vm_compute].
  - apply demo_queue_room.
  - intros type n sb db src E Hs. vm_compute in E. injection E as <- <- <- <-. by apply demo_stranger.
  - exists s'. split; [exact E|]. split; [exact Hg|]. apply Hq, demo_queue.
Defined.

(** Client 100 sends to client 200. *)
Lemma packets_are_switched_as_routed_witness :
  exists s' keep q', switch_from_client 1000 demo_script (demo_with demo_honest) 100 = Ret s' /\
    switched (demo_with demo_honest) s' 100 keep /\ queue_is s' 3 [] q' /\ pkt_of (sv_mheap s') 0 = (demo_honest, MF_UNICAST).
Proof.
  destruct (packets_are_switched_as_routed 1000 demo_script (demo_with demo_honest) 100 _ 3 [] (demo_sv_reachable _ _) (proj1 (demo_conn _ _))
    (demo_user_of _ _)) as (s' & keep & q' & E & Hs & Hq & _).
  - apply (demo_packet_ok demo_honest); [repeat constructor; by vm_compute|by vm_compute].
  - apply demo_queue.
  - left. by vm_compute.
  - exists s', keep, q'. split; [exact E|]. split; [exact Hs|]. split; [exact Hq|].
    assert (Ep : (match switch_from_client 1000 demo_script (demo_with demo_honest) 100 with Ret s => pkt_of (sv_mheap s) 0 | _ => ([], 0) end) =
      (demo_honest, MF_UNICAST)) by (vm_compute; reflexivity). by rewrite E in Ep.
Defined.

(** Client 200 goes. *)
Lemma closed_client_is_forgotten_witness :
  exists s', multi_close_instance (demo_with demo_honest) 200 = Ret s' /\ (forall he, he ∈ all_clients s' -> value he <> 200) /\
    conn (sv_multi s') 100.
Proof.
  destruct (closed_client_is_forgotten (demo_with demo_honest) 200 (demo_sv_reachable _ _) (proj2 (demo_conn _ _)))
    as (s' & E & Ht & _ & _ & _ & _ & _ & Hc & _).
  exists s'. split; [exact E|]. split; [intros he Hhe; apply Ht; by left|]. apply Hc. split; [exact (proj1 (demo_conn _ _))|done].
Defined.

(** Client 100 moves to an address that is free. *)
Definition demo_from (x : Z) : link_socket_actual := mkaddr AF_INET 1194 (0xC0000200 + x) (replicate 16 0).

Lemma float_keeps_addresses_unique_witness :
  exists s' c', multi_process_float (demo_with demo_honest) 100 (demo_from 7) = Ret s' /\ conn (sv_multi s') 100 /\
    sv_clients s' !! 100 = Some c' /\ real_of (demo_from 7) = Some (cl_real c').
Proof.
  assert (Hr : exists real, real_of (demo_from 7) = Some real) by (eexists; reflexivity). destruct Hr as [real Hr].
  destruct (float_keeps_addresses_unique (demo_with demo_honest) 100 (demo_member 1 (demo_base demo_honest) tunnel_tables) (demo_from 7) real
    (demo_sv_reachable _ _) (proj1 (demo_conn _ _)) (demo_user_of _ _) Hr) as (s' & E & _ & Hc & _).
  - vm_compute in Hr. injection Hr as <-. vm_compute. reflexivity.
  - assert (Ep : (match multi_process_float (demo_with demo_honest) 100 (demo_from 7) with Ret s => cl_real <$> sv_clients s !! 100 | _ => None end) =
      real_of (demo_from 7)) by (vm_compute; reflexivity). rewrite E in Ep. destruct (sv_clients s' !! 100) as [c'|] eqn:Ec; [|by rewrite Hr in Ep].
    exists s', c'. split; [exact E|]. split; [exact Hc|]. split; [done|]. by rewrite <- Ep.
Defined.

(** ** The first datagrams *)

Definition demo_hello : list Z := [Z.shiftl P_CONTROL_HARD_RESET_CLIENT_V2 P_OPCODE_SHIFT; 1; 2; 3; 4; 5; 6; 7; 8; 0; 0; 0; 0; 0].

Definition demo_udp (mi x : Z) (base : context) (tm : tls_multi) : sv_op :=
  SvUdp None [] (mkfl 0 0 0 0) mi (demo_inst 0x0A080000) (demo_user 0 (fresh_ctx base tm)) (packet_buf demo_hello) (demo_from x).

Lemma demo_udp_ok s mi x base tm : inst_heap (sv_multi s) !! mi = None -> families_ok s -> sv_op_ok s (demo_udp mi x base tm).
Proof.
  intros Hn Hf. split; [apply demo_packet_ok; [repeat constructor; by vm_compute|by vm_compute]|]. split; [done|]. intros real. by apply demo_new.
Qed.

Lemma demo_nobody : families_ok demo_sv0.
Proof. intros x cx (i & Hi & _). change (inst_heap (sv_multi demo_sv0)) with (@empty (gmap Z multi_instance) _) in Hi. by rewrite lookup_empty in Hi. Qed.

Lemma datagrams_find_their_client_witness :
  exists s' lim, multi_get_create_instance_udp no_cipher toy_sha1 1000 None [] (mkfl 0 0 0 0)
      (100, demo_inst 0x0A080000, demo_user 0 (fresh_ctx tunnel_context tunnel_tables)) demo_sv0 (packet_buf demo_hello) (demo_from 1) =
    Ret (s', lim, Some 100, false) /\ sv_reachable s' /\ conn (sv_multi s') 100.
Proof.
  destruct (datagrams_find_their_client no_cipher toy_sha1 1000 None [] (mkfl 0 0 0 0) 100 (demo_inst 0x0A080000) (demo_user 0 (fresh_ctx tunnel_context tunnel_tables))
    demo_sv0 (packet_buf demo_hello) (demo_from 1) demo_sv0_reachable demo_nobody) as [(s' & lim & o & moved & E & _ & Hr & Hc & _)|(_ & Hno & _)].
  - apply (demo_udp_ok demo_sv0 100 1 tunnel_context tunnel_tables); [by vm_compute|exact demo_nobody].
  - apply (demo_udp_ok demo_sv0 100 1 tunnel_context tunnel_tables); [by vm_compute|exact demo_nobody].
  - assert (Ep : (match multi_get_create_instance_udp no_cipher toy_sha1 1000 None [] (mkfl 0 0 0 0)
      (100, demo_inst 0x0A080000, demo_user 0 (fresh_ctx tunnel_context tunnel_tables)) demo_sv0 (packet_buf demo_hello) (demo_from 1) with
      Ret (_, _, o, moved) => (o, moved) | _ => (None, true) end) = (Some 100, false)) by (vm_compute; reflexivity).
    rewrite E in Ep. injection Ep as -> ->. exists s', lim. split; [exact E|]. split; [exact Hr|]. refine (proj2 (Hc 100) (or_intror (conj eq_refl eq_refl))).
  - destruct (Hno true). reflexivity.
Defined.

(** ** A refused client takes the number of another

    A new client's peer id is 0 until it gets one, and [multi_close_instance] clears the slot of
    the peer id it finds.  So when a client is refused, the client that has the number 0 loses
    its slot: it stays connected, but its data packets find nobody any more. *)

Definition small_sv0 : server := sv_result demo_down (sv_start 4 0 60 8 1 mroute_addr_init demo_garbage true 64).

Lemma small_sv0_reachable : sv_reachable small_sv0.
Proof.
  exists 4, 0, 60, 8, 1, mroute_addr_init, demo_garbage, true, 64, small_sv0. split; [lia|]. split; [lia|]. split; [by vm_compute|]. split; [vm_compute; reflexivity|]. apply rtc_refl.
Qed.

Definition small_base : context := tunnel_context <| c2_from := demo_from 1 |>.

Definition small_sv1 : server := demo_do small_sv0 (demo_udp 100 1 small_base tunnel_tables).
Definition small_sv2 : server := demo_do small_sv1 (demo_udp 200 2 small_base tunnel_tables).

Lemma small_sv1_reachable : sv_reachable small_sv1.
Proof.
  apply demo_reaches; [exact small_sv0_reachable| |by vm_compute]. apply demo_udp_ok; [by vm_compute|].
  intros x cx (i & Hi & _). change (inst_heap (sv_multi small_sv0)) with (@empty (gmap Z multi_instance) _) in Hi. by rewrite lookup_empty in Hi.
Qed.

Lemma small_sv1_families : families_ok small_sv1.
Proof.
  intros x cx _ Ex. left. apply elem_of_map_to_list in Ex. apply (list_elem_of_fmap_2 (fun xc : Z * client => sa_family (c2_from (cl_context xc.2)))) in Ex. cbn [snd] in Ex.
  assert (E : (fun xc : Z * client => sa_family (c2_from (cl_context xc.2))) <$> map_to_list (sv_clients small_sv1) = [AF_INET]) by (vm_compute; reflexivity).
  rewrite E in Ex. by apply list_elem_of_singleton in Ex.
Qed.

Theorem refused_client_clears_slot :
  sv_reachable small_sv1 /\ sv_reachable small_sv2 /\ conn (sv_multi small_sv2) 100 /\ peer_id_of <$> sv_clients small_sv2 !! 100 = Some (Some 0) /\
  sv_instances small_sv1 = [Some 100] /\ sv_instances small_sv2 = [None].
Proof.
  split; [exact small_sv1_reachable|]. split.
  - apply demo_reaches; [exact small_sv1_reachable| |by vm_compute]. apply demo_udp_ok; [by vm_compute|exact small_sv1_families].
  - split; [exists (demo_inst 0x0A080000); split; [vm_compute; reflexivity|done]|]. by vm_compute.
Qed.

(** ** A packet that nobody has authenticated moves a client

    The client 100 has connected and is not authenticated yet.  A data packet that names it by
    its number, from another address, is not decrypted, which counts as success: the client
    is moved to the address of that packet. *)

Definition small_attack : list Z := [Z.shiftl P_DATA_V2 P_OPCODE_SHIFT; 0; 0; 0; 1; 2; 3; 4; 5; 6; 7; 8].

Definition small_attacked : server :=
  match multi_process_incoming_link_udp toy_lib no_cipher toy_sha1 None 1000 demo_script None [] (mkfl 0 0 0 0)
          (300, demo_inst 0, demo_user 0 (fresh_ctx small_base tunnel_tables)) false small_sv1 (packet_buf small_attack) (demo_from 9) with
  | Ret (s, _) => s
  | _ => demo_down
  end.

Theorem unauthenticated_packet_moves_client :
  sv_reachable small_sv1 /\ (c2_context_auth <$> (cl_context <$> sv_clients small_sv1 !! 100)) = Some false /\
  cl_real <$> sv_clients small_sv1 !! 100 = real_of (demo_from 1) /\
  cl_real <$> sv_clients small_attacked !! 100 = real_of (demo_from 9) /\
  (fun c => li_actual (c2_info (cl_context c))) <$> sv_clients small_attacked !! 100 = Some (demo_from 9).
Proof. split; [exact small_sv1_reachable|]. by vm_compute. Qed.

(** ** A TCP client with an address that is taken

    [multi_create_instance_tcp] means to close the old client and to let the new one take its
    place, but a new instance is refused before, when its address is in the table [iter]. *)
Theorem tcp_newcomer_is_refused (s : server) (mi : Z) (i : multi_instance) (c : client) (x : Z) (cx : client) :
  sv_reachable s -> new_ok s mi i c -> conn (sv_multi s) x -> sv_clients s !! x = Some cx -> mroute_addr_equal (cl_real c) (cl_real cx) = true ->
  exists s', multi_create_instance_tcp (mi, i, c) s = Ret (s', None) /\ conn_kept (sv_multi s) (sv_multi s').
Proof.
  intros Hs Hnew Hx Ex Eq. destruct (sv_reachable_inv s Hs) as [H Hset]. destruct (tcp_spec s mi i c H Hnew) as (s' & o & E & (H' & Hset' & Hcl & Hcn) & Ho).
  assert (Hne : x <> mi) by (intros ->; destruct Hnew as ((Hn & _) & _), Hx as (j & Hj & _); congruence). destruct o as [y|].
  - destruct Ho as (-> & c' & Ec' & Er). exfalso. apply Hne. specialize (Hset' Hset). assert (Hx' : conn (sv_multi s') x) by (apply Hcn; by left).
    assert (Hm' : conn (sv_multi s') mi) by (apply Hcn; by right). rewrite <- (Hcl x Hne) in Ex. destruct (Hset' x cx Hx' Ex) as [_ Fx]. destruct (Hset' mi c' Hm' Ec') as [_ Fm].
    apply (unique_real s' (cl_real c) x cx mi c' H' Hx' Ex Fx Eq Hm' Ec' Fm). rewrite Er. exact (compare_refl (cl_real c)).
  - exists s'. split; [done|]. intros y. rewrite Hcn. naive_solver.
Qed.

(** ** A packet that several clients get

    The packets in the queue are shared by their receivers, and the stub of compression
    with swapped bytes works in place.  A multicast from the device is queued for both clients;
    once it was compressed for the first one, the packet that the second one will get does
    not start with its own first byte any more, but with the mark of the compression. *)

Definition demo_authentic : context := fresh_ctx (demo_base []) tunnel_tables.
Definition demo_ready1 : server := demo_do (demo_with []) (SvContext 100 demo_authentic).
Definition demo_ready2 : server := demo_do demo_ready1 (SvContext 200 demo_authentic).
Definition demo_sent : server := demo_do demo_ready2 (SvFromTun [] false (packet_buf demo_multicast)).

Definition queue_next (s : server) : server * option Z :=
  match Server.multi_get_queue toy_lib 1000 [] false s with Ret r => r | _ => (demo_down, None) end.

Lemma demo_sent_reachable : sv_reachable demo_sent.
Proof.
  apply (demo_reaches demo_ready2); [apply (demo_reaches demo_ready1); [apply (demo_reaches (demo_with [])); [apply demo_sv_reachable|..]|..]|..].
  - split; [apply (demo_conn (demo_base []) tunnel_tables)|]. intros c Ec. rewrite (demo_user_of (demo_base []) tunnel_tables) in Ec. injection Ec as <-. reflexivity.
  - by vm_compute.
  - split; [exists (demo_joined 0x0A090000); split; [vm_compute; reflexivity|done]|]. intros c Ec.
    assert (E : peer_id_of <$> sv_clients demo_ready1 !! 200 = Some (Some 0)) by (vm_compute; reflexivity). rewrite Ec in E. injection E as ->. reflexivity.
  - by vm_compute.
  - split; [apply demo_packet_ok; [repeat constructor; by vm_compute|by vm_compute]|]. apply queue_room_len. vm_compute. reflexivity.
  - by vm_compute.
Qed.

Theorem shared_packet_is_overwritten :
  sv_reachable demo_sent /\
  pkt_of (sv_mheap demo_sent) 0 = (demo_multicast, 0) /\ (queue_next demo_sent).2 = Some 200 /\
  pkt_of (sv_mheap (queue_next demo_sent).1) 0 = (NO_COMPRESS_BYTE_SWAP :: tail demo_multicast, 0) /\
  (queue_next (queue_next demo_sent).1).2 = Some 100.
Proof.
  split; [exact demo_sent_reachable|]. split; [vm_compute; reflexivity|]. split; [vm_compute; reflexivity|]. split; vm_compute; reflexivity.
Qed.
